(* ===== verification/_CoqProject ===== *)
-Q . S2P
Prelude.v
Bytes.v
Errno.v
Queue.v
Iface.v
Pmm.v
Handle.v
Sched.v
Sync.v
Channel.v
Vmm.v
Heap.v
Process.v
UserMem.v
Str.v
Elf.v
Exec.v
Syscall.v
CMalloc.v
Ramfs.v
Vfs.v
VfsServer.v
CStdlib.v
Stdio.v
Env.v
Initrd.v
Micro.v
VfsClient.v
ConClient.v
Unistd.v
ConServer.v
ShPath.v
Shell.v
Boot.v
Device.v
Trap.v
KConsole.v
Init.v
Echo.v
Unpack.v
