(* ===== verification/Prelude.v ===== *)
(** * Exyde: a verification development

    Exyde is a small capability microkernel for x86-64 with a C library, two
    servers, a service manager and a shell.  This library translates its C code
    into Rocq functions, file by file, and proves what makes the parts correct,
    alone and linked together.  Source paths below are relative to [src/src/].

    ** How the code is modelled

    A C integer is a [Z] with the wrap of its type written where the code can
    leave it ([u8] ... [i64] of this file); a byte array is a list of numbers, a
    pointer into it an offset; objects that are shared or linked by pointers live
    in stores indexed by address (threads, vnodes, blocks, page tables, strings),
    so aliasing is that of the code.  A function that changes state takes and
    returns it.  [None], or a value [Panic], is what the source does not come
    back from: a fault, a kernel panic, undefined behaviour, or a call that never
    returns; the theorems show where it cannot happen.  A kernel function runs
    with interrupts off up to the point where its thread sleeps or returns, and
    such pieces are the steps that interleave.  User programs see the rest of the
    system through one operation, [Sys] (Micro.v), so the same program runs on
    any system, and on the system made of the model of a server.

    ** The parts and their files, in dependency order

    Shared: Prelude (integers, arrays, tactics, the hint database [exyde]), Bytes
    (the copy loop written out all over the source), Errno, Queue (the intrusive
    pointer queues of [waitq.h] and [sched.c], proved to implement lists), Iface
    (the allocator interfaces [KHeap] and [UHeap] with their laws).

    Kernel:
    - Pmm: [core/memmap.c], [core/pmm.c], the boot memory map and the page
      allocator over its two bitmaps;
    - Handle: [core/handle.c], the capability table of a process;
    - Sched: [core/sched.c], [core/thread.c], [waitq.h]; Sync: [core/mutex.c],
      [condvar.c], [semaphore.c], [spinlock.h];
    - Channel: [core/channel.c], message channels with capabilities;
    - Vmm: [arch/x86_64/mm/vmm.c], four-level page tables in physical memory;
      Heap: [core/heap.c], the instance of [KHeap] over those tables;
    - Process: [core/process.c], reference counts, exit and destruction;
    - UserMem: [core/uaccess.c] and [SYS_MAP]/[SYS_UNMAP]; Elf: [core/elf.c];
      Exec: [core/exec.c], the initial stack and the start of a process;
      Syscall: [core/syscall.c], every handler and the dispatcher;
    - Boot: [arch/x86_64/boot/multiboot2.c] and the memory set-up of
      [core/kmain.c]; Device: [cpu/serial.c], [console.c], [pic.c], [pit.c],
      [irq.c], [core/panic.c] over port accesses; Trap: [cpu/gdt.c], [idt.c],
      [isr.c], [syscall_arch.c], [core/irq.c], [core/extable.c] and the timer and
      fault handlers of [kmain.c]; KConsole: the serial driver below the console
      system calls.

    User space ([userspace/]):
    - Str, CStdlib, Stdio, Env, Initrd, CMalloc: [libc/string.c], [stdlib.c]
      (conversions, sorting, searching), [stdio.c], [env.c], [initrd.c] and the
      allocator of [stdlib.c], the instance of [UHeap];
    - Micro, VfsClient, ConClient, Unistd: [libc/micro.c], [vfs_client.c] with
      [vfs_fdtab.c], [console_client.c], [unistd.c];
    - Ramfs, Vfs, VfsServer: [vfs/ramfs.c], [vfs.c], [fd_table.c], [main.c], the
      file system server; ConServer: [console/main.c];
    - ShPath, Shell: [shell/main.c]; Init: [init/init.c]; Echo: [echo/echo.c];
      Unpack: init's copy of the ram disk into the file system, on the system
      made of the VFS server and the console server.

    ** Interfaces

    Clients are proved against classes, implementations discharge them: [KHeap]
    and [UHeap] (Iface) by Heap and CMalloc; [VmHeap] (Vmm) lets the address
    spaces and the heap that lives in them share one state; [Sys] (Micro) by the
    VFS server with the rest of the system beside it (VfsClient), the console
    server (ConServer), and logs of the calls of any system (Init, Echo); [Wired]
    (ConServer) says that a system leads the console's handles to its server, and
    [EchoSys] (Echo) what the echo server expects of its calls; [Ports], [Uart], [Pics], [Pit]
    (Device) state the documented behaviour of the chips, each with an instance;
    the [release] callback of Handle is instantiated by Process.

    ** What the theorems show

    - Safety and invariants on every sequence or interleaving of steps: the
      scheduler's queues and states (Sched), mutual exclusion and no lost wake-up
      (Sync, Channel), ownership of capabilities (Handle), isolation of address
      spaces (Vmm), block lists of both heaps (Heap, CMalloc), the VFS server
      under any messages and the isolation of its clients (VfsServer).
    - What programs do on any system: init closes the handles of its services
      (Init), the echo server answers every message with itself (Echo).
    - Behaviour of each operation on every branch: system calls (Syscall,
      UserMem), loading and starting programs (Elf, Exec), the file system (Ramfs,
      Vfs), environment, ram disk, conversions and formatting (Env, Initrd,
      CStdlib, Stdio, Str), paths and words (ShPath), descriptor tables, interrupt
      controllers and exceptions (Trap, Device).
    - Refinement: channels are bounded queues, the kernel heap an allocator of disjoint
      blocks, [environ] a map from names to values, a client's request is one turn of the server on
      its behalf, the serial driver is the console of the system calls.
    - Across components: a [write] in 512-byte messages is one splice of the file
      and is read back (Unistd); what the shell's [echo > f] writes, [cat f]
      prints, and [cd] enters only directories (Shell); after [unpack_initrd_to_ramfs] each [/bin/name] holds the
      bytes of the archive (Unpack); the boot loader's map determines the free
      pages (Boot); timer interrupts preempt every thread (Trap).
    - Round trips (print and parse, write and read), termination (destruction of
      nested processes, boot information), bounds and overflow.
    - Some theorems pin down behaviour the code probably does not intend: a tag of
      size 0 hangs the boot, the console channel leaks when its twin cannot be
      created, a receiver that refuses a message swallows the wake-up of another, the
      ram disk gives a directory for a file, and others, next to the definitions
      they concern.

    ** Fuel

    Loops that are not structural take fuel, and their theorems show it is enough:
    the search of the ram disk gets one round per 110-byte header that fits
    (Initrd); message loops one round more than bytes (VfsClient, ConClient); the
    vnode destruction one more than the nodes (Ramfs); process destruction one
    more than the processes (Process); the walk of the user arena one step per
    smallest block (CMalloc); reading the boot information needs at most as many
    rounds as bytes unless a tag or entry has size 0, which is proved to loop for
    ever (Boot); polling the serial port takes the bound of the [Uart] interface,
    waiting for console input the number of polls until input comes (Device,
    Unistd, ConServer).  The loops of the two small servers run for a number of
    turns, and the theorems speak of every number (ConServer, Echo).

    ** Where the user programs are linked to the servers

    In [vworld] (VfsClient) and [cworld] (ConServer) a send runs the server's turn
    at once, and its replies wait in a box per channel: the order of the system
    calls of one client and a server that does nothing but serve, with channels that
    never fill up.  The channels themselves, with their capacity, blocking and
    capabilities, are verified as kernel code in Channel and Syscall; the two
    levels are not composed into one theorem.

    ** Not modelled

    Assembly: the entry stubs, [switch.asm], [lgdt]/[lidt]/[sti]/[cli]; a context
    switch is the change of the current thread, and a register frame is an
    argument.  The self tests of [kmain.c] and the program [test/test.c]: scripts
    that compare results of modelled calls with constants.  The idle loop of
    [kmain] (repeated yields).  [_exit], which is the end of a program here.  The
    VFS server's lines on the console.  Caches and other processors: the
    kernel runs on one CPU and the code relies on that.  The TLB appears as the
    list of the [invlpg]s issued. *)
From stdpp Require Export base tactics numbers list list_numbers gmap strings.
From Stdlib Require Export ZArith Lia Zbitwise.

(** ** Machine integers

    A C integer of width [w] is a [Z]; every operation of the source that can
    leave the width is followed by the wrap of its type. *)

Declare Scope exyde_scope.
Delimit Scope exyde_scope with exyde.
#[global] Open Scope Z_scope.

Definition u8  (x : Z) : Z := x mod 2 ^ 8.
Definition u16 (x : Z) : Z := x mod 2 ^ 16.
Definition u32 (x : Z) : Z := x mod 2 ^ 32.
Definition u64 (x : Z) : Z := x mod 2 ^ 64.
Definition i32 (x : Z) : Z := (x + 2 ^ 31) mod 2 ^ 32 - 2 ^ 31.
Definition i64 (x : Z) : Z := (x + 2 ^ 63) mod 2 ^ 64 - 2 ^ 63.

Notation "x +64 y" := (u64 (x + y)) (at level 50, left associativity) : exyde_scope.
Notation "x -64 y" := (u64 (x - y)) (at level 50, left associativity) : exyde_scope.
Notation "x *64 y" := (u64 (x * y)) (at level 40, left associativity) : exyde_scope.

Definition is_u64 (x : Z) : Prop := 0 <= x < 2 ^ 64.
Definition is_u32 (x : Z) : Prop := 0 <= x < 2 ^ 32.

(** [x & ~(2^k - 1)] at 64 bits: the alignment mask of the source. *)
Definition align_mask (k : Z) : Z := u64 (Z.lnot (2 ^ k - 1)).

Create HintDb exyde.

Ltac unfold_int := unfold is_u64, is_u32, u8, u16, u32, u64, i32, i64 in *.

Lemma u64_range x : 0 <= u64 x < 2 ^ 64.
Proof. apply Z.mod_pos_bound; lia. Qed.

Lemma u32_range x : 0 <= u32 x < 2 ^ 32.
Proof. apply Z.mod_pos_bound; lia. Qed.

Lemma u64_small x : 0 <= x < 2 ^ 64 -> u64 x = x.
Proof. intros; apply Z.mod_small; lia. Qed.

Lemma u32_small x : 0 <= x < 2 ^ 32 -> u32 x = x.
Proof. intros; apply Z.mod_small; lia. Qed.

Lemma u64_u64 x : u64 (u64 x) = u64 x.
Proof. apply u64_small, u64_range. Qed.

Lemma i64_small x : - 2 ^ 63 <= x < 2 ^ 63 -> i64 x = x.
Proof. intros; unfold i64. rewrite Z.mod_small; lia. Qed.

Lemma i32_small x : - 2 ^ 31 <= x < 2 ^ 31 -> i32 x = x.
Proof. intros; unfold i32. rewrite Z.mod_small; lia. Qed.

#[export] Hint Resolve u64_range u32_range : exyde.

(** Bits of a wrapped integer: the bits below the width. *)
Lemma testbit_mod_pow2 x w i :
  0 <= w -> 0 <= i -> Z.testbit (x mod 2 ^ w) i = (i <? w) && Z.testbit x i.
Proof.
  intros Hw Hi. destruct (Z.ltb_spec i w).
  - by rewrite Z.mod_pow2_bits_low by lia.
  - by rewrite Z.mod_pow2_bits_high by lia.
Qed.

Lemma testbit_pow2_pred k i :
  0 <= k -> 0 <= i -> Z.testbit (2 ^ k - 1) i = (i <? k).
Proof.
  intros. replace (2 ^ k - 1) with (Z.ones k) by (rewrite Z.ones_equiv; lia).
  rewrite Z.testbit_ones by lia. destruct (Z.leb_spec 0 i); [done|lia].
Qed.

Lemma land_align x k :
  0 <= k < 64 -> 0 <= x < 2 ^ 64 ->
  Z.land x (align_mask k) = x - x mod 2 ^ k.
Proof.
  intros Hk Hx.
  assert (Z.land x (align_mask k) = Z.ldiff x (2 ^ k - 1)) as ->.
  { apply Z.bits_inj'. intros i Hi.
    unfold align_mask, u64. rewrite Z.land_spec, Z.ldiff_spec, testbit_mod_pow2 by lia.
    rewrite Z.lnot_spec by lia.
    destruct (Z.ltb_spec i 64); [done|].
    rewrite (Z.bits_above_log2 x i), ?andb_false_l; [done|lia|].
    destruct (decide (x = 0)) as [->|]; [simpl; lia|].
    apply Z.log2_lt_pow2; [lia|]. apply Z.lt_le_trans with (2 ^ 64); [lia|].
    apply Z.pow_le_mono_r; lia. }
  replace (2 ^ k - 1) with (Z.ones k) by (rewrite Z.ones_equiv; lia).
  rewrite Z.ldiff_ones_r, Z.shiftl_mul_pow2, Z.shiftr_div_pow2 by lia.
  pose proof (Z.div_mod x (2 ^ k) ltac:(lia)). lia.
Qed.

Lemma testbit_high x w i : 0 <= x < 2 ^ w -> w <= i -> 0 <= w -> Z.testbit x i = false.
Proof.
  intros Hx Hi Hw. rewrite <- (Z.mod_small x (2 ^ w)) by lia.
  apply Z.mod_pow2_bits_high. lia.
Qed.

Lemma lt_pow2_bits x w :
  0 <= w -> (forall i, w <= i -> Z.testbit x i = false) -> 0 <= x < 2 ^ w.
Proof.
  intros Hw H. enough (x = x mod 2 ^ w) as -> by (apply Z.mod_pos_bound; lia).
  apply Z.bits_inj'. intros i Hi. rewrite testbit_mod_pow2 by lia.
  destruct (Z.ltb_spec i w); [done|]. by rewrite H.
Qed.

(** Bitwise or and and stay in the width. *)
Lemma lor_width x y w : 0 <= w -> 0 <= x < 2 ^ w -> 0 <= y < 2 ^ w -> 0 <= Z.lor x y < 2 ^ w.
Proof.
  intros Hw Hx Hy. apply lt_pow2_bits; [done|]. intros i Hi.
  by rewrite Z.lor_spec, (testbit_high x w), (testbit_high y w).
Qed.

Lemma land_width x y w : 0 <= w -> 0 <= x < 2 ^ w -> 0 <= Z.land x y < 2 ^ w.
Proof.
  intros Hw Hx. apply lt_pow2_bits; [done|]. intros i Hi.
  by rewrite Z.land_spec, (testbit_high x w).
Qed.

(** [x & (2^k - 1)]: the low bits. *)
Lemma land_low x k : 0 <= k -> Z.land x (2 ^ k - 1) = x mod 2 ^ k.
Proof.
  intros. replace (2 ^ k - 1) with (Z.ones k) by (rewrite Z.ones_equiv; lia).
  by rewrite Z.land_ones.
Qed.

Lemma land_1 x : Z.land x 1 = x mod 2.
Proof. apply (land_low x 1). lia. Qed.

(** A flag test [x & (1 << k)]. *)
Lemma land_pow2 x k :
  0 <= k -> Z.land x (2 ^ k) = if Z.testbit x k then 2 ^ k else 0.
Proof.
  intros Hk. apply Z.bits_inj'. intros i Hi.
  rewrite Z.land_spec, Z.pow2_bits_eqb by lia.
  destruct (Z.eqb_spec k i) as [->|].
  - destruct (Z.testbit x i); [by rewrite Z.pow2_bits_eqb, Z.eqb_refl by lia|by rewrite Z.bits_0].
  - rewrite andb_false_r. destruct (Z.testbit x k); [|by rewrite Z.bits_0].
    rewrite Z.pow2_bits_eqb by lia. by destruct (Z.eqb_spec k i).
Qed.

Lemma land_pow2_eqb x k :
  0 <= k -> (Z.land x (2 ^ k) =? 0) = negb (Z.testbit x k).
Proof.
  intros. rewrite land_pow2 by lia. destruct (Z.testbit x k); simpl; [|done].
  apply Z.eqb_neq. lia.
Qed.

(** ** Case analysis on the comparisons of the source *)

Ltac zb :=
  repeat match goal with
  | H : _ && _ = true |- _ => apply andb_prop in H as [? ?]
  | H : _ || _ = false |- _ => apply orb_false_elim in H as [? ?]
  | H : negb _ = true |- _ => apply negb_true_iff in H
  | H : negb _ = false |- _ => apply negb_false_iff in H
  | H : (_ <? _) = true |- _ => apply Z.ltb_lt in H
  | H : (_ <? _) = false |- _ => apply Z.ltb_ge in H
  | H : (_ <=? _) = true |- _ => apply Z.leb_le in H
  | H : (_ <=? _) = false |- _ => apply Z.leb_gt in H
  | H : (_ =? _) = true |- _ => apply Z.eqb_eq in H
  | H : (_ =? _) = false |- _ => apply Z.eqb_neq in H
  end.

(** Split on the first [if] of the goal, keeping the comparison as a fact. *)
Ltac zif :=
  match goal with
  | |- context [if ?b then _ else _] => destruct b eqn:?; zb
  end.

Ltac zif_in H :=
  match type of H with
  | context [if ?b then _ else _] => destruct b eqn:?; zb
  end.

(** ** C arrays: lists read and written at a [Z] index

    Reading outside the array gives the default and writing outside it does
    nothing; the invariants of the components show the indices in range. *)

Definition zget {A} (d : A) (l : list A) (i : Z) : A := nth (Z.to_nat i) l d.
Definition zset {A} (l : list A) (i : Z) (v : A) : list A :=
  if i <? 0 then l else <[Z.to_nat i := v]> l.
Definition zlen {A} (l : list A) : Z := Z.of_nat (length l).

Lemma zlen_zset {A} (l : list A) i v : zlen (zset l i v) = zlen l.
Proof. unfold zlen, zset. zif; [done|]. by rewrite length_insert. Qed.

Lemma zlen_nonneg {A} (l : list A) : 0 <= zlen l.
Proof. unfold zlen. lia. Qed.

Lemma zlen_app {A} (l k : list A) : zlen (l ++ k) = zlen l + zlen k.
Proof. unfold zlen. rewrite length_app. lia. Qed.

Lemma zlen_cons {A} (c : A) s : zlen (c :: s) = 1 + zlen s.
Proof. unfold zlen. simpl. lia. Qed.

Lemma zlen_replicate {A} n (x : A) : zlen (replicate n x) = Z.of_nat n.
Proof. unfold zlen. by rewrite length_replicate. Qed.

Lemma zget_lookup {A} (d : A) (l : list A) i :
  0 <= i -> zget d l i = default d (l !! Z.to_nat i).
Proof. intros. unfold zget. rewrite nth_lookup. done. Qed.

Lemma zget_zset_eq {A} (d : A) l i v :
  0 <= i < zlen l -> zget d (zset l i v) i = v.
Proof.
  unfold zlen. intros. rewrite zget_lookup by lia. unfold zset. zif; [lia|].
  by rewrite list_lookup_insert_eq by lia.
Qed.

Lemma zget_zset_ne {A} (d : A) l i j v :
  0 <= i -> 0 <= j -> i <> j -> zget d (zset l i v) j = zget d l j.
Proof.
  intros. rewrite !zget_lookup by lia. unfold zset. zif; [done|].
  by rewrite list_lookup_insert_ne by lia.
Qed.

Lemma zget_zset {A} (d : A) l i j v :
  0 <= i < zlen l -> 0 <= j ->
  zget d (zset l i v) j = if i =? j then v else zget d l j.
Proof.
  intros. zif; [subst; by apply zget_zset_eq|by apply zget_zset_ne; lia].
Qed.

Lemma zget_replicate {A} (d : A) n i : zget d (replicate n d) i = d.
Proof.
  unfold zget. rewrite nth_lookup.
  destruct (replicate n d !! Z.to_nat i) eqn:E; [|done].
  by apply lookup_replicate in E as [-> _].
Qed.

Lemma zset_zget_id {A} (d : A) l i : zset l i (zget d l i) = l.
Proof.
  unfold zset. zif; [done|]. rewrite zget_lookup by lia.
  destruct (l !! Z.to_nat i) eqn:E; simpl.
  - by rewrite list_insert_id.
  - apply list_insert_ge. by apply lookup_ge_None in E.
Qed.

Lemma zget_app_l {A} (d : A) l k i : 0 <= i < zlen l -> zget d (l ++ k) i = zget d l i.
Proof. unfold zlen, zget. intros. by rewrite app_nth1 by lia. Qed.

Lemma list_eq_zget {A} (d : A) (l k : list A) :
  zlen l = zlen k -> (forall i, 0 <= i < zlen l -> zget d l i = zget d k i) -> l = k.
Proof.
  unfold zlen. intros Hlen H. apply (nth_ext _ _ d d); [lia|].
  intros n Hn. specialize (H (Z.of_nat n)). unfold zget in H.
  rewrite Nat2Z.id in H. apply H. lia.
Qed.

(** ** Loops

    [for (i = a; i < b; i += step)] visits [range_step a b step]. *)

Definition range_step (a b step : Z) : list Z :=
  (fun k => a + k * step) <$> seqZ 0 ((b - a + step - 1) / step).

Lemma elem_of_range_step a b step x :
  0 < step ->
  x ∈ range_step a b step <-> exists k, x = a + k * step /\ 0 <= k /\ x < b.
Proof.
  intros Hs. unfold range_step. rewrite list_elem_of_fmap.
  setoid_rewrite elem_of_seqZ.
  split; intros (k & -> & Hk); exists k; (split; [done|]).
  - destruct Hk as [Hk0 Hk]. split; [done|].
    pose proof (Z.mul_div_le (b - a + step - 1) step Hs). nia.
  - split; [lia|]. simpl. destruct Hk as [Hk Hb].
    apply Z.lt_le_trans with (k + 1); [lia|].
    apply Z.div_le_lower_bound; nia.
Qed.

Lemma range_step_1 a b : range_step a b 1 = seqZ a (b - a).
Proof.
  unfold range_step. rewrite Z.div_1_r. replace (b - a + 1 - 1) with (b - a) by lia.
  rewrite <- (Z.add_0_r a) at 2. rewrite <- fmap_add_seqZ. apply list_fmap_ext. intros i k _. lia.
Qed.

Lemma seqZ_snoc n : 0 <= n -> seqZ 0 (n + 1) = seqZ 0 n ++ [n].
Proof.
  intros. rewrite seqZ_app by lia. f_equal.
Qed.

(** Folding an update over a list of keys. *)
Lemma foldl_inv {A B} (P : A -> Prop) (f : A -> B -> A) l a :
  P a -> (forall a x, x ∈ l -> P a -> P (f a x)) -> P (foldl f a l).
Proof.
  revert a. induction l as [|x l IH]; intros a Ha Hf; simpl; [done|].
  apply IH.
  - apply Hf; [left|done].
  - intros a' y Hy. apply Hf. by right.
Qed.

(** Counting: two predicates that differ at one point of a duplicate-free list. *)
Definition countb {A} (f : A -> bool) (l : list A) : Z :=
  Z.of_nat (length (List.filter f l)).

Lemma countb_nil {A} (f : A -> bool) : countb f [] = 0.
Proof. done. Qed.

Lemma countb_cons {A} (f : A -> bool) x l :
  countb f (x :: l) = (if f x then 1 else 0) + countb f l.
Proof. unfold countb. simpl. destruct (f x); simpl; lia. Qed.

Lemma countb_nonneg {A} (f : A -> bool) l : 0 <= countb f l.
Proof. unfold countb. lia. Qed.

Lemma countb_ext {A} (f g : A -> bool) l :
  (forall x, x ∈ l -> f x = g x) -> countb f l = countb g l.
Proof.
  induction l as [|x l IH]; intros H; [done|].
  rewrite !countb_cons, IH, (H x); [done|left|intros; apply H; by right].
Qed.

Lemma countb_flip {A} (f g : A -> bool) l x :
  NoDup l -> x ∈ l -> f x = true -> g x = false ->
  (forall y, y ∈ l -> y <> x -> f y = g y) ->
  countb f l = countb g l + 1.
Proof.
  induction l as [|y l IH]; intros Hnd Hin Hf Hg Hext; [by apply not_elem_of_nil in Hin|].
  apply NoDup_cons in Hnd as [Hy Hnd]. rewrite !countb_cons.
  apply elem_of_cons in Hin as [->|Hin].
  - rewrite Hf, Hg. rewrite (countb_ext f g l); [lia|].
    intros z Hz. apply Hext; [by right|]. by intros ->.
  - rewrite (Hext y); [|left|by intros ->].
    rewrite IH; [lia|done..|]. intros z Hz. apply Hext. by right.
Qed.

Lemma countb_le_length {A} (f : A -> bool) l : countb f l <= zlen l.
Proof.
  induction l as [|x l IH]; [done|]. rewrite countb_cons.
  unfold zlen in *. cbn [length]. destruct (f x); lia.
Qed.

Lemma countb_pos {A} (f : A -> bool) l x : x ∈ l -> f x = true -> 0 < countb f l.
Proof.
  induction l as [|y l IH]; intros Hin Hf; [by apply not_elem_of_nil in Hin|].
  rewrite countb_cons. pose proof (countb_nonneg f l).
  apply elem_of_cons in Hin as [->|Hin]; [rewrite Hf; lia|].
  specialize (IH Hin Hf). destruct (f y); lia.
Qed.

(** ** Updating a list in the middle *)

Lemma zget_mid {A} (d : A) l1 x l2 : zget d (l1 ++ x :: l2) (zlen l1) = x.
Proof. unfold zget, zlen. rewrite Nat2Z.id. induction l1; [done|]. done. Qed.

Lemma zset_mid {A} (l1 : list A) x l2 y : zset (l1 ++ x :: l2) (zlen l1) y = l1 ++ y :: l2.
Proof.
  unfold zset, zlen. destruct (Z.ltb_spec (Z.of_nat (length l1)) 0); [lia|]. rewrite Nat2Z.id.
  induction l1 as [|a l1 IH]; [done|]. cbn [app length insert list_insert]. f_equal. apply IH. lia.
Qed.
