(* ===== verification/Bytes.v ===== *)
(** * Byte copies

    The loop [for (i = 0; i < n; ++i) dst[i] = src[i]] is written out in many
    places of the source (channel.c, heap.c, syscall.c, ramfs.c, string.c).
    This file states it once over byte arrays, with the lemma that says what it
    leaves where. *)
From S2P Require Import Prelude.

(** [dst[doff + i] = src[soff + i]] for [i = 0 .. n-1], in that order. *)
Definition copy_loop (dst : list Z) (doff : Z) (src : list Z) (soff n : Z) : list Z :=
  foldl (fun d i => zset d (doff + i) (zget 0 src (soff + i))) dst (seqZ 0 n).

(** [n] bytes of [l] from offset [off]. *)
Definition slice (l : list Z) (off n : Z) : list Z :=
  (fun i => zget 0 l (off + i)) <$> seqZ 0 n.

(** [dst[doff + i] = v] for [i = 0 .. n-1]. *)
Definition fill_loop (dst : list Z) (doff v n : Z) : list Z :=
  foldl (fun d i => zset d (doff + i) v) dst (seqZ 0 n).

Lemma seqZ_ind (P : Z -> Prop) :
  (forall n, n <= 0 -> P n) -> (forall n, 0 <= n -> P n -> P (n + 1)) -> forall n, P n.
Proof.
  intros H0 HS n. destruct (Z_lt_le_dec n 0) as [|Hn]; [apply H0; lia|].
  revert n Hn. apply natlike_ind; [by apply H0|]. intros n Hn. by apply HS.
Qed.

Lemma seqZ_nonpos n : n <= 0 -> seqZ 0 n = [].
Proof. intros. unfold seqZ. by replace (Z.to_nat n) with 0%nat by lia. Qed.

Lemma foldl_seqZ_snoc {A} (f : A -> Z -> A) a n :
  0 <= n -> foldl f a (seqZ 0 (n + 1)) = f (foldl f a (seqZ 0 n)) n.
Proof. intros. by rewrite seqZ_snoc, foldl_app by lia. Qed.

(** A loop that writes one cell per iteration. *)
Lemma write_loop_spec (f : Z -> Z) (dst : list Z) doff n :
  0 <= doff -> doff + n <= zlen dst ->
  let d := foldl (fun d i => zset d (doff + i) (f i)) dst (seqZ 0 n) in
  zlen d = zlen dst /\
  forall j, 0 <= j -> zget 0 d j = if (doff <=? j) && (j <? doff + n) then f (j - doff) else zget 0 dst j.
Proof.
  intros Hd. cbv zeta. pattern n. revert n. apply seqZ_ind.
  - intros n Hn _. rewrite seqZ_nonpos by done. simpl. split; [done|]. intros j Hj. zif; [lia|done].
  - intros n Hn IH Hb. destruct IH as [L G]; [lia|]. rewrite foldl_seqZ_snoc by done. split.
    + by rewrite zlen_zset.
    + intros j Hj. rewrite zget_zset by lia. destruct (Z.eqb_spec (doff + n) j) as [<-|Hne].
      * replace (doff <=? doff + n) with true by (symmetry; apply Z.leb_le; lia).
        replace (doff + n <? doff + (n + 1)) with true by (symmetry; apply Z.ltb_lt; lia).
        simpl. f_equal. lia.
      * rewrite G by done.
        replace (j <? doff + (n + 1)) with (j <? doff + n); [done|].
        destruct (Z.ltb_spec j (doff + n)), (Z.ltb_spec j (doff + (n + 1))); lia.
Qed.

Lemma zlen_copy_loop dst doff src soff n :
  0 <= doff -> doff + n <= zlen dst -> zlen (copy_loop dst doff src soff n) = zlen dst.
Proof. intros. by apply (write_loop_spec (fun i => zget 0 src (soff + i))). Qed.

Lemma zget_copy_loop dst doff src soff n j :
  0 <= doff -> doff + n <= zlen dst -> 0 <= j ->
  zget 0 (copy_loop dst doff src soff n) j =
  if (doff <=? j) && (j <? doff + n) then zget 0 src (soff + (j - doff)) else zget 0 dst j.
Proof. intros. by apply (write_loop_spec (fun i => zget 0 src (soff + i))). Qed.

Lemma zlen_fill_loop dst doff v n :
  0 <= doff -> doff + n <= zlen dst -> zlen (fill_loop dst doff v n) = zlen dst.
Proof. intros. by apply (write_loop_spec (fun _ => v)). Qed.

Lemma zget_fill_loop dst doff v n j :
  0 <= doff -> doff + n <= zlen dst -> 0 <= j ->
  zget 0 (fill_loop dst doff v n) j = if (doff <=? j) && (j <? doff + n) then v else zget 0 dst j.
Proof. intros. by apply (write_loop_spec (fun _ => v)). Qed.

Lemma zlen_slice l off n : zlen (slice l off n) = Z.max 0 n.
Proof. unfold zlen, slice. rewrite length_fmap, length_seqZ. lia. Qed.

Lemma zget_fmap_seqZ (f : Z -> Z) n i : 0 <= i < n -> zget 0 (f <$> seqZ 0 n) i = f i.
Proof.
  intros. rewrite zget_lookup by lia. rewrite list_lookup_fmap.
  rewrite (lookup_seqZ_lt 0 n (Z.to_nat i)) by lia. simpl. f_equal. lia.
Qed.

Lemma zget_slice l off n i : 0 <= i < n -> zget 0 (slice l off n) i = zget 0 l (off + i).
Proof. intros. unfold slice. by rewrite zget_fmap_seqZ. Qed.

Lemma slice_ext l k off off' n :
  (forall i, 0 <= i < n -> zget 0 l (off + i) = zget 0 k (off' + i)) -> slice l off n = slice k off' n.
Proof.
  intros H. unfold slice. apply list_fmap_ext. intros i x Hx.
  apply lookup_seqZ in Hx as [-> Hx]. apply H. lia.
Qed.

(** What was copied is what is read back. *)
Lemma slice_copy_loop dst doff src soff n :
  0 <= doff -> 0 <= n -> doff + n <= zlen dst ->
  slice (copy_loop dst doff src soff n) doff n = slice src soff n.
Proof.
  intros. apply slice_ext. intros i Hi. rewrite zget_copy_loop by lia. zif; [f_equal; lia|].
  apply andb_false_iff in Heqb as [?|?]; zb; lia.
Qed.

(** Reads outside the written range see the old bytes. *)
Lemma slice_copy_loop_ne dst doff src soff n off k :
  0 <= doff -> doff + n <= zlen dst -> 0 <= off -> off + k <= doff \/ doff + n <= off ->
  slice (copy_loop dst doff src soff n) off k = slice dst off k.
Proof.
  intros. apply slice_ext. intros i Hi. rewrite zget_copy_loop by lia. zif; [lia|done].
Qed.

Lemma slice_full l : slice l 0 (zlen l) = l.
Proof.
  apply (list_eq_zget 0).
  - rewrite zlen_slice. pose proof (zlen_nonneg l). lia.
  - intros i. rewrite zlen_slice. intros Hi. pose proof (zlen_nonneg l). rewrite zget_slice by lia. f_equal.
Qed.

(** ** Little-endian integers *)

(** The value of a byte string, least significant byte first. *)
Fixpoint le_val (bs : list Z) : Z :=
  match bs with
  | [] => 0
  | b :: bs => b + 256 * le_val bs
  end.

(** The [n] bytes of a stored integer. *)
Fixpoint le_bytes (n : nat) (x : Z) : list Z :=
  match n with
  | O => []
  | S n => x mod 256 :: le_bytes n (x / 256)
  end.

(** The [n]-byte field at offset [off]. *)
Definition get_le (l : list Z) (off n : Z) : Z := le_val (slice l off n).

Lemma le_bytes_range n x : Forall (fun b => 0 <= b < 256) (le_bytes n x).
Proof.
  revert x. induction n as [|n IH]; intros x; constructor; [|apply IH].
  apply Z.mod_pos_bound. lia.
Qed.

Lemma zlen_le_bytes n x : zlen (le_bytes n x) = Z.of_nat n.
Proof.
  revert x. induction n as [|n IH]; intros x; [done|]. specialize (IH (x / 256)). unfold zlen in *. cbn [le_bytes length]. lia.
Qed.

Lemma le_val_bytes n x : 0 <= x < 256 ^ Z.of_nat n -> le_val (le_bytes n x) = x.
Proof.
  revert x. induction n as [|n IH]; intros x Hx; cbn [le_bytes le_val]; [simpl in Hx; lia|].
  rewrite Nat2Z.inj_succ, Z.pow_succ_r in Hx by lia. rewrite IH; Z.div_mod_to_equations; nia.
Qed.

Lemma le_val_range bs : Forall (fun b => 0 <= b < 256) bs -> 0 <= le_val bs < 256 ^ zlen bs.
Proof.
  induction 1 as [|b bs Hb _ IH]; cbn [le_val]; [simpl; unfold zlen; simpl; lia|].
  unfold zlen in *. cbn [length]. rewrite Nat2Z.inj_succ, Z.pow_succ_r by lia. lia.
Qed.

Lemma slice_bytes l off n :
  Forall (fun b => 0 <= b < 256) l -> Forall (fun b => 0 <= b < 256) (slice l off n).
Proof.
  intros H. unfold slice. apply Forall_fmap, Forall_forall. intros i _. unfold compose, zget. rewrite nth_lookup.
  destruct (l !! _) as [b|] eqn:E; simpl; [|lia]. rewrite Forall_lookup in H. by eapply H.
Qed.

Lemma get_le_range l off n :
  Forall (fun b => 0 <= b < 256) l -> 0 <= n -> 0 <= get_le l off n < 256 ^ n.
Proof.
  intros H Hn. unfold get_le. pose proof (le_val_range _ (slice_bytes l off n H)) as R. rewrite zlen_slice in R.
  by rewrite Z.max_r in R by done.
Qed.

(** ** Memory as 64-bit cells

    Structures that live in raw memory (page tables, heap headers, user frames)
    are kept in a store of 64-bit cells at addresses that are multiples of 8. *)
Definition rd (m : gmap Z Z) (a : Z) : Z := default 0 (m !! a).

Lemma rd_insert m c v a : rd (<[c := v]> m) a = if a =? c then v else rd m a.
Proof.
  unfold rd. destruct (Z.eqb_spec a c) as [->|]; [by rewrite lookup_insert_eq|by rewrite lookup_insert_ne].
Qed.

Lemma rd_insert_ne m a x e : x <> a -> rd (<[a := e]> m) x = rd m x.
Proof. intros. unfold rd. by rewrite lookup_insert_ne. Qed.

(** Bytes inside the cells, little endian. *)
Definition load_byte (m : gmap Z Z) (a : Z) : Z :=
  Z.land (Z.shiftr (rd m (a - a mod 8)) (8 * (a mod 8))) 255.
Definition store_byte (a v : Z) (m : gmap Z Z) : gmap Z Z :=
  let c := a - a mod 8 in
  <[c := Z.lor (Z.ldiff (rd m c) (Z.shiftl 255 (8 * (a mod 8)))) (Z.shiftl v (8 * (a mod 8)))]> m.

Lemma mod8 a : 0 <= a mod 8 < 8.
Proof. apply Z.mod_pos_bound. lia. Qed.

Lemma load_byte_testbit m a i :
  0 <= i -> Z.testbit (load_byte m a) i = (i <? 8) && Z.testbit (rd m (a - a mod 8)) (i + 8 * (a mod 8)).
Proof.
  intros Hi. unfold load_byte. rewrite Z.land_spec, Z.shiftr_spec by done.
  change 255 with (Z.ones 8). rewrite Z.testbit_ones by lia. destruct (Z.leb_spec 0 i); [|lia]. simpl. apply andb_comm.
Qed.

Lemma load_store_byte m a v a' :
  0 <= v < 256 -> load_byte (store_byte a v m) a' = if a' =? a then v else load_byte m a'.
Proof.
  intros Hv. pose proof (mod8 a) as Ha. pose proof (mod8 a') as Ha'. apply Z.bits_inj'. intros i Hi.
  rewrite load_byte_testbit by done. unfold store_byte. cbv zeta. rewrite rd_insert.
  destruct (Z.eqb_spec a' a) as [->|Hne].
  - rewrite Z.eqb_refl, Z.lor_spec, Z.ldiff_spec, !Z.shiftl_spec by lia. replace (i + 8 * (a mod 8) - 8 * (a mod 8)) with i by lia.
    destruct (Z.ltb_spec i 8) as [Hi8|Hi8]; simpl.
    + change 255 with (Z.ones 8). rewrite Z.testbit_ones by lia. destruct (Z.leb_spec 0 i), (Z.ltb_spec i 8); try lia. simpl.
      by rewrite andb_false_r.
    + symmetry. apply (testbit_high v 8); lia.
  - rewrite load_byte_testbit by done. destruct (Z.ltb_spec i 8) as [Hi8|]; [|done]. simpl.
    destruct (Z.eqb_spec (a' - a' mod 8) (a - a mod 8)) as [Ec|]; [|done].
    rewrite Z.lor_spec, Z.ldiff_spec, !Z.shiftl_spec by lia. rewrite Ec.
    assert (a mod 8 <> a' mod 8) as Hd by lia.
    assert (Z.testbit 255 (i + 8 * (a' mod 8) - 8 * (a mod 8)) = false /\ Z.testbit v (i + 8 * (a' mod 8) - 8 * (a mod 8)) = false) as [-> ->].
    { destruct (Z_lt_le_dec (i + 8 * (a' mod 8)) (8 * (a mod 8))).
      - split; apply Z.testbit_neg_r; lia.
      - split; apply (testbit_high _ 8); lia. }
    simpl. by rewrite andb_true_r, orb_false_r.
Qed.

Lemma rd_store_byte m a v c : c <> a - a mod 8 -> rd (store_byte a v m) c = rd m c.
Proof. intros Hc. unfold store_byte. cbv zeta. rewrite rd_insert. zif; [lia|done]. Qed.

Lemma load_byte_range m a : 0 <= load_byte m a < 256.
Proof. unfold load_byte. change 255 with (2 ^ 8 - 1). rewrite land_low by lia. apply Z.mod_pos_bound. lia. Qed.

(** A byte loop from the aligned address [p] writes only the cells of its range. *)
Lemma store_loop_spec (p : Z) (f : Z -> gmap Z Z -> Z) (g : Z -> Z) m n :
  p mod 8 = 0 ->
  (forall i m', 0 <= i < n -> (forall a, ~ (p <= a < p + n) -> rd m' a = rd m a) -> f i m' = g i /\ 0 <= g i < 256) ->
  let m' := foldl (fun m i => store_byte (p + i) (f i m) m) m (seqZ 0 n) in
  (forall a, ~ (p <= a < p + n) -> rd m' a = rd m a) /\
  (forall i, 0 <= i < n -> load_byte m' (p + i) = g i).
Proof.
  intros Hp Hf. cbv zeta.
  assert (forall k, k <= n -> let m' := foldl (fun m i => store_byte (p + i) (f i m) m) m (seqZ 0 k) in
    (forall a, ~ (p <= a < p + k) -> rd m' a = rd m a) /\ (forall i, 0 <= i < k -> load_byte m' (p + i) = g i)) as L;
    [|apply (L n); lia].
  apply (seqZ_ind (fun k => k <= n -> _)); cbv zeta.
  - intros k Hk _. rewrite seqZ_nonpos by done. split; [done|]. intros i Hi. lia.
  - intros k Hk IH Hkn. destruct IH as [I1 I2]; [lia|]. rewrite foldl_seqZ_snoc by done.
    destruct (Hf k (foldl (fun m i => store_byte (p + i) (f i m) m) m (seqZ 0 k))) as [E Er]; [lia|intros a Ha; apply I1; lia|].
    rewrite E. split.
    + intros a Ha. rewrite rd_store_byte; [apply I1; lia|]. intros ->. apply Ha. Z.div_mod_to_equations. lia.
    + intros i Hi. rewrite load_store_byte by done. destruct (Z.eqb_spec (p + i) (p + k)); [f_equal; lia|apply I2; lia].
Qed.

(** Cells that agree give bytes that agree. *)
Lemma load_byte_ext m m' a : rd m' (a - a mod 8) = rd m (a - a mod 8) -> load_byte m' a = load_byte m a.
Proof. intros E. unfold load_byte. by rewrite E. Qed.
