(* ===== verification/Queue.v ===== *)
(** * Intrusive FIFO queues

    The kernel links threads through fields of the thread object itself: the
    wait queues of [waitq.h] through [wait_next], the ready queue and the zombie
    list of [sched.c] through [next].  The three are the same pointer code; this
    file states it once over a store of nodes and proves that it implements a
    list: push appends, pop takes the head, and only the links of the queue's
    own members are written. *)
From S2P Require Import Prelude.

Record queue := MkQ { q_head : Z; q_tail : Z }.

Definition q_empty : queue := MkQ 0 0.

Section queue.
Context {N : Type} (link : N -> Z) (set_link : Z -> N -> N).

(** Append node [t]; [tail->link = t] or [head = t], then [tail = t]. *)
Definition q_push (q : queue) (t : Z) (m : gmap Z N) : queue * gmap Z N :=
  let m := alter (set_link 0) t m in
  if q_tail q =? 0 then (MkQ t t, m)
  else (MkQ (q_head q) t, alter (set_link t) (q_tail q) m).

(** Detach the head node; 0 when the queue is empty. *)
Definition q_pop (q : queue) (m : gmap Z N) : Z * queue * gmap Z N :=
  let t := q_head q in
  if t =? 0 then (0, q, m)
  else
    let h := match m !! t with Some n => link n | None => 0 end in
    let q' := MkQ h (if h =? 0 then 0 else q_tail q) in
    (t, q', alter (set_link 0) t m).

(** ** The list a queue stands for *)

Fixpoint linked (m : gmap Z N) (h : Z) (l : list Z) : Prop :=
  match l with
  | [] => h = 0
  | x :: l => h = x /\ x <> 0 /\ exists n, m !! x = Some n /\ linked m (link n) l
  end.

Record qrep (m : gmap Z N) (q : queue) (l : list Z) : Prop := {
  qrep_linked : linked m (q_head q) l;
  qrep_tail : q_tail q = default 0 (last l);
  qrep_nodup : NoDup l }.

Context (link_set : forall z n, link (set_link z n) = z)
        (set_set : forall z w n, set_link z (set_link w n) = set_link z n)
        (set_id : forall n, set_link (link n) n = n).

(** [m'] is [m] up to the links: what the queue operations may change. *)
Definition relinked (m m' : gmap Z N) : Prop :=
  forall x, exists z, m' !! x = set_link z <$> m !! x.

Lemma relinked_refl m : relinked m m.
Proof using set_id.
  intros x. destruct (m !! x) as [n|] eqn:E; [|by exists 0].
  exists (link n). simpl. by rewrite set_id.
Qed.

Lemma relinked_trans m1 m2 m3 : relinked m1 m2 -> relinked m2 m3 -> relinked m1 m3.
Proof using set_set.
  intros H1 H2 x. destruct (H1 x) as [z1 E1], (H2 x) as [z2 E2]. exists z2.
  rewrite E2, E1. destruct (m1 !! x); simpl; [by rewrite set_set|done].
Qed.

Lemma relinked_alter m z t : relinked m (alter (set_link z) t m).
Proof using set_id.
  intros x. destruct (decide (x = t)) as [->|].
  - exists z. by rewrite lookup_alter_eq.
  - destruct (relinked_refl m x) as [w E]. exists w. by rewrite lookup_alter_ne.
Qed.

Lemma linked_ext m m' h l :
  linked m h l -> (forall x, x ∈ l -> link <$> m' !! x = link <$> m !! x) -> linked m' h l.
Proof using Type.
  revert h. induction l as [|x l IH]; intros h H E; simpl in *; [done|].
  destruct H as (-> & Hx & n & Hn & Hl). split; [done|]. split; [done|].
  pose proof (E x ltac:(left)) as Ex. rewrite Hn in Ex. simpl in Ex.
  destruct (m' !! x) as [n'|]; [|done]. exists n'. split; [done|].
  injection Ex as Ex. rewrite Ex. apply IH; [done|]. intros y Hy. apply E. by right.
Qed.

(** A queue survives every change of the store that keeps its members' links. *)
Lemma qrep_ext m m' q l :
  qrep m q l -> (forall x, x ∈ l -> link <$> m' !! x = link <$> m !! x) -> qrep m' q l.
Proof using Type. intros [L T D] E. split; [by eapply linked_ext|done|done]. Qed.

Lemma linked_in m h l x : linked m h l -> x ∈ l -> x <> 0 /\ is_Some (m !! x).
Proof using Type.
  revert h. induction l as [|y l IH]; intros h H Hx; [by apply not_elem_of_nil in Hx|].
  simpl in H. destruct H as (-> & Hy & n & Hn & Hl).
  apply elem_of_cons in Hx as [->|Hx]; [split; [done|by eexists]|eauto].
Qed.

Lemma qrep_in m q l x : qrep m q l -> x ∈ l -> x <> 0 /\ is_Some (m !! x).
Proof using Type. intros [L _ _]. by apply linked_in with (h := q_head q). Qed.

Lemma qrep_nil m : qrep m q_empty [].
Proof using Type. split; [done|done|constructor]. Qed.

Lemma qrep_head m q l : qrep m q l -> q_head q = default 0 (head l).
Proof using Type. intros [L _ _]. destruct l; simpl in *; [done|]. by destruct L as [-> _]. Qed.

Lemma qrep_tail_0 m q l : qrep m q l -> q_tail q = 0 -> l = [].
Proof using Type.
  intros Q H. destruct (last l) as [y|] eqn:E; [|by apply last_None].
  rewrite (qrep_tail _ _ _ Q), E in H. simpl in H. subst y.
  apply last_Some in E as [l' ->].
  destruct (qrep_in _ _ _ 0 Q) as [? _]; [|done]. apply elem_of_app. right. left.
Qed.

Lemma linked_snoc m h l y t n :
  linked m h (l ++ [y]) -> NoDup (l ++ [y]) -> t ∉ l ++ [y] -> t <> 0 ->
  m !! t = Some n -> link n = 0 ->
  linked (alter (set_link t) y m) h (l ++ [y; t]).
Proof using link_set.
  intros H D Hn Ht Hm Hl. revert h H D Hn. induction l as [|x l IH]; intros h H D Hn; simpl in *.
  - destruct H as (-> & Hy & k & Hk & Hlk). split; [done|]. split; [done|].
    exists (set_link t k). rewrite lookup_alter_eq, Hk. split; [done|]. rewrite link_set.
    split; [done|]. split; [done|]. exists n. rewrite lookup_alter_ne; [done|].
    intros ->. apply Hn. left.
  - destruct H as (-> & Hx & k & Hk & Hlk). apply NoDup_cons in D as [Hxl D].
    apply not_elem_of_cons in Hn as [_ Hn].
    split; [done|]. split; [done|]. exists k. rewrite lookup_alter_ne; [split; [done|by apply IH]|].
    intros ->. apply Hxl, elem_of_app. right. left.
Qed.

(** Push appends to the list and writes no link but the new node's and the old
    tail's. *)
Lemma q_push_rep m q l t q' m' :
  qrep m q l -> t ∉ l -> t <> 0 -> is_Some (m !! t) -> q_push q t m = (q', m') ->
  qrep m' q' (l ++ [t]) /\ relinked m m' /\ (forall x, x <> t -> x ∉ l -> m' !! x = m !! x).
Proof using link_set set_id set_set.
  intros Q Hn Ht [n Hm] E. unfold q_push in E.
  assert (alter (set_link 0) t m !! t = Some (set_link 0 n)) as Ht' by by rewrite lookup_alter_eq, Hm.
  destruct (Z.eqb_spec (q_tail q) 0) as [E0|E0]; injection E as <- <-.
  - pose proof (qrep_tail_0 _ _ _ Q E0) as ->. simpl. split; [|split].
    + split; simpl; [|done|apply NoDup_singleton]. split; [done|]. split; [done|].
      exists (set_link 0 n). by rewrite link_set.
    + apply relinked_alter.
    + intros x Hx _. by rewrite lookup_alter_ne.
  - pose proof Q as [L T D]. destruct (last l) as [y|] eqn:Ey; [|by rewrite T in E0].
    simpl in T. rewrite T. apply last_Some in Ey as [l' ->].
    split; [|split].
    + split; simpl.
      * rewrite <- app_assoc. simpl. eapply (linked_snoc _ _ _ _ _ (set_link 0 n)); try done.
        eapply linked_ext; [done|]. intros x Hx. rewrite lookup_alter_ne; [done|].
        intros ->. done.
      * by rewrite last_snoc.
      * apply NoDup_app. split; [done|]. split; [|apply NoDup_singleton].
        intros x Hx ->%list_elem_of_singleton. done.
    + eapply relinked_trans; apply relinked_alter.
    + intros x Hx Hl. rewrite !lookup_alter_ne; [done|done|].
      intros ->. apply Hl, elem_of_app. right. left.
Qed.

(** Pop takes the head of the list and clears its link. *)
Lemma q_pop_rep m q x l :
  qrep m q (x :: l) ->
  exists q', q_pop q m = (x, q', alter (set_link 0) x m) /\ qrep (alter (set_link 0) x m) q' l.
Proof using Type.
  intros [L T D]. simpl in L. destruct L as (Hh & Hx & n & Hn & Hl). unfold q_pop.
  rewrite Hh, (proj2 (Z.eqb_neq x 0) Hx), Hn. eexists. split; [done|].
  apply NoDup_cons in D as [Hxl D].
  assert (linked (alter (set_link 0) x m) (link n) l) as L'.
  { eapply linked_ext; [done|]. intros y Hy. rewrite lookup_alter_ne; [done|]. by intros ->. }
  split; simpl; [done| |done].
  destruct l as [|y l]; simpl in Hl; [by rewrite Hl|].
  destruct Hl as (-> & Hy & _). rewrite (proj2 (Z.eqb_neq y 0) Hy). rewrite T. done.
Qed.

Lemma q_pop_empty m q : qrep m q [] -> q_pop q m = (0, q, m).
Proof using Type. intros [L _ _]. simpl in L. unfold q_pop. by rewrite L. Qed.

(** Queues over the same field with different members do not interfere. *)
Lemma qrep_disjoint m m' q l :
  qrep m q l -> (forall x, x ∈ l -> m' !! x = m !! x) -> qrep m' q l.
Proof using Type. intros Q E. eapply qrep_ext; [done|]. intros x Hx. by rewrite E. Qed.
End queue.
