(* ===== verification/Iface.v ===== *)
(** * Interfaces between kernel components

    [KHeap] is what the kernel's object constructors (threads, channels, address
    spaces, processes) use of the kernel heap: three operations, and laws over
    the set of live blocks.  The clients' theorems are proved against the laws;
    the heap of [heap.c] discharges them. *)
From S2P Require Import Prelude.

Class KHeap (H : Type) := {
  exy_malloc : Z -> H -> Z * H;
  exy_zalloc : Z -> H -> Z * H;
  (** [None]: the kernel panicked. *)
  exy_free : Z -> H -> option H;
  (** The live blocks: payload address to payload size. *)
  live : H -> gmap Z Z;
  (** The address range blocks come from. *)
  heap_lo : Z;
  heap_hi : Z;
  heap_wf : H -> Prop }.

(** One successful or failed allocation of [size] bytes. *)
Record alloc_step `{KHeap H} (h : H) (size p : Z) (h' : H) : Prop := {
  as_wf : heap_wf h';
  as_fail : p = 0 -> live h' = live h;
  as_ok : p <> 0 -> exists sz, size <= sz /\ live h !! p = None /\ live h' = <[p := sz]> (live h) /\
            forall q sz', live h !! q = Some sz' -> p + sz <= q \/ q + sz' <= p }.

Class KHeapLaws (H : Type) `{KHeap H} := {
  malloc_law h size p h' : heap_wf h -> 0 < size < 2 ^ 63 ->
    exy_malloc size h = (p, h') -> alloc_step h size p h';
  zalloc_law h size p h' : heap_wf h -> 0 < size < 2 ^ 63 ->
    exy_zalloc size h = (p, h') -> alloc_step h size p h';
  free_law h p sz : heap_wf h -> live h !! p = Some sz ->
    exists h', exy_free p h = Some h' /\ heap_wf h' /\ live h' = delete p (live h);
  arena_law : 0 < heap_lo /\ heap_hi < 2 ^ 64;
  live_arena h p sz : heap_wf h -> live h !! p = Some sz -> heap_lo <= p /\ p + sz <= heap_hi }.

Lemma live_nonzero `{KHeapLaws H} (h : H) p : heap_wf h -> is_Some (live h !! p) -> p <> 0.
Proof. intros W [sz E]. pose proof arena_law. pose proof (live_arena h p sz W E). lia. Qed.

(** Undoing the last allocation restores the live set. *)
Lemma alloc_free_live `{KHeapLaws H} (h h' : H) size p :
  alloc_step h size p h' -> p <> 0 ->
  exists h'', exy_free p h' = Some h'' /\ heap_wf h'' /\ live h'' = live h.
Proof.
  intros [W _ O] Hp. destruct (O Hp) as (sz & _ & Hn & Hl & _).
  destruct (free_law h' p sz W) as (h'' & E & W'' & L); [by rewrite Hl, lookup_insert_eq|].
  exists h''. split; [done|]. split; [done|].
  by rewrite L, Hl, delete_insert_id.
Qed.

(** A bump allocator is the simplest heap that meets the interface. *)
Module bump.
Record bump := MkBump { brk : Z; blocks : gmap Z Z }.
Definition bump_alloc (size : Z) (h : bump) : Z * bump :=
  if (size <=? 0) || (2 ^ 40 <? brk h + size) then (0, h)
  else (brk h, MkBump (brk h + size) (<[brk h := size]> (blocks h))).
#[export] Instance bump_heap : KHeap bump := {
  exy_malloc := bump_alloc; exy_zalloc := bump_alloc;
  exy_free p h := Some (MkBump (brk h) (delete p (blocks h)));
  live := blocks; heap_lo := 4096; heap_hi := 2 ^ 40;
  heap_wf h := 4096 <= brk h <= 2 ^ 40 /\
    forall p sz, blocks h !! p = Some sz -> 4096 <= p /\ 0 < sz /\ p + sz <= brk h }.

Lemma bump_step h size p h' : heap_wf h -> bump_alloc size h = (p, h') -> alloc_step h size p h'.
Proof.
  intros [Hb Hl] E. unfold bump_alloc in E. zif_in E; injection E as <- <-.
  - split; [done|done|done].
  - assert (blocks h !! brk h = None) as Hn.
    { destruct (blocks h !! brk h) eqn:E; [|done]. apply Hl in E. lia. }
    split; [|simpl; lia|].
    + split; cbn [brk blocks]; [lia|]. intros p sz. rewrite lookup_insert. case_decide.
      * intros [= <-]. lia. * intros E. apply Hl in E. lia.
    + intros _. exists size. split; [lia|]. split; [done|]. split; [done|]. intros q sz E. apply Hl in E. lia.
Qed.

#[export] Instance bump_laws : KHeapLaws bump.
Proof.
  split.
  - intros h size p h' W _ E. by apply bump_step.
  - intros h size p h' W _ E. by apply bump_step.
  - intros h p sz [Hb Hl] E. eexists. split; [done|]. split; [|done]. split; [done|].
    intros q sz'. cbn [blocks brk]. rewrite lookup_delete_Some. intros [_ E']. by apply Hl.
  - done.
  - intros h p sz [Hb Hl] E. apply Hl in E. cbn [heap_lo heap_hi bump_heap]. lia.
Qed.
End bump.
#[export] Existing Instances bump.bump_heap bump.bump_laws.

(** ** The user allocator

    What the user programs use of [malloc], [calloc], [realloc] and [free] of
    the C library: a successful call gives a block that was not live and lies
    apart from the live ones; [realloc] of a live block moves it or leaves it in
    place; [free] of a live block ends its life.  [u_fresh] is what an
    uninitialised block holds. *)
Class UHeap (A : Type) := {
  u_malloc : Z -> A -> Z * A;
  u_calloc : Z -> Z -> A -> Z * A;
  u_realloc : Z -> Z -> A -> Z * A;
  u_free : Z -> A -> A;
  u_fresh : A -> Z -> Z -> list Z;
  u_live : A -> gmap Z Z;
  (** The addresses blocks can have: apart from stack, code and data. *)
  u_area : A -> Z -> bool;
  u_wf : A -> Prop }.

(** One allocation of [size] bytes: a null pointer and nothing changed, or a new block. *)
Record u_step `{UHeap A} (a : A) (size p : Z) (a' : A) : Prop := {
  us_wf : u_wf a';
  us_area : forall x, u_area a' x = u_area a x;
  us_in : p <> 0 -> u_area a p = true;
  us_fail : p = 0 -> u_live a' = u_live a;
  us_ok : p <> 0 -> u_live a !! p = None /\ exists sz, size <= sz /\ u_live a' = <[p := sz]> (u_live a) /\
            forall q sz', u_live a !! q = Some sz' -> p + sz <= q \/ q + sz' <= p }.

Class UHeapLaws (A : Type) `{UHeap A} := {
  u_malloc_law a size p a' : u_wf a -> 0 < size <= 2 ^ 63 ->
    u_malloc size a = (p, a') -> u_step a size p a';
  u_calloc_law a n size p a' : u_wf a -> 0 < n -> 0 < n * size <= 2 ^ 63 ->
    u_calloc n size a = (p, a') -> u_step a (n * size) p a';
  u_realloc_law a p old size q a' : u_wf a -> u_live a !! p = Some old -> 0 < size <= 2 ^ 63 ->
    u_realloc p size a = (q, a') ->
    u_wf a' /\ (forall x, u_area a' x = u_area a x) /\ (q = 0 -> u_live a' = u_live a) /\
    (q <> 0 -> u_area a q = true /\ (q = p \/ u_live a !! q = None) /\ exists sz, size <= sz /\ u_live a' = <[q := sz]> (delete p (u_live a)));
  u_free_law a p : u_wf a -> is_Some (u_live a !! p) ->
    u_wf (u_free p a) /\ (forall x, u_area (u_free p a) x = u_area a x) /\ u_live (u_free p a) = delete p (u_live a);
  u_fresh_law a p size : 0 <= size -> zlen (u_fresh a p size) = size;
  u_live_law a : u_wf a -> u_live a !! 0 = None }.

(** A bump allocator meets this interface too; fresh memory holds a fixed pattern. *)
Module ubump.
Import bump.
#[export] Instance ubump_heap : UHeap bump := {
  u_malloc := bump_alloc; u_calloc n size := bump_alloc (n * size);
  u_realloc p size h := let '(q, h') := bump_alloc size h in
    if q =? 0 then (0, h') else (q, MkBump (brk h') (delete p (blocks h')));
  u_free p h := MkBump (brk h) (delete p (blocks h));
  u_fresh _ _ size := replicate (Z.to_nat size) 170;
  u_live := blocks; u_area _ x := (4096 <=? x) && (x <=? 2 ^ 40); u_wf := heap_wf }.

Lemma ubump_step h size p h' : heap_wf h -> bump_alloc size h = (p, h') -> u_step h size p h'.
Proof.
  intros W E. destruct (bump_step h size p h' W E) as [S1 S2 S3]. split; [done|done| |done|].
  { intros Hp. unfold bump_alloc in E. destruct W as [Hb _]. zif_in E; injection E as <- <-; [done|]. cbn [u_area ubump_heap].
    apply andb_true_intro. split; apply Z.leb_le; lia. }
  intros Hp. destruct (S3 Hp) as (sz & ? & ? & ? & ?). split; [done|]. by exists sz.
Qed.

#[export] Instance ubump_laws : UHeapLaws bump.
Proof.
  split.
  - intros a size p a' W _ E. by apply ubump_step.
  - intros a n size p a' W _ _ E. by apply ubump_step.
  - intros a p old size q a' W Hp Hs. cbn [u_realloc ubump_heap]. destruct (bump_alloc size a) as [r h1] eqn:E.
    destruct (ubump_step a size r h1 W E) as [S1 _ Sa S2 S3]. destruct (Z.eqb_spec r 0) as [->|Hr]; intros [= <- <-].
    { split; [done|]. split; [done|]. split; [done|lia]. }
    destruct (S3 Hr) as (Hn & sz & Hsz & Hl & _). split.
    { destruct S1 as [Hb Hw]. split; [done|]. cbn [blocks brk]. intros x sx [_ Hx]%lookup_delete_Some. by apply Hw. }
    split; [done|]. split; [lia|]. intros _. split; [by apply Sa|]. split; [by right|]. exists sz. split; [done|].
    change (delete p (u_live h1) = <[r := sz]> (delete p (u_live a))). rewrite Hl.
    apply delete_insert_ne. intros ->. congruence.
  - intros a p [Hb Hl] _. split; [|done]. split; [done|].
    intros q sz'. cbn [blocks brk u_free ubump_heap]. rewrite lookup_delete_Some. intros [_ E']. by apply Hl.
  - intros a p size Hs. cbn [u_fresh ubump_heap]. rewrite zlen_replicate. lia.
  - intros a [Hb Hl]. destruct (u_live a !! 0) eqn:E; [|done]. apply Hl in E. lia.
Qed.
End ubump.
#[export] Existing Instances ubump.ubump_heap ubump.ubump_laws.
