(* ===== verification/Pmm.v ===== *)
(** * Physical memory: the boot memory map and the page allocator

    [memmap.c] keeps the regions reported by the boot loader; [pmm.c] is a
    first-fit allocator of 4 KiB pages over two bitmaps, "used" and
    "permanently reserved".  The file models every function of both and proves
    what a page's state is after [pmm_init], what [pmm_alloc_pages] and
    [pmm_free_pages] return on every branch, and that the counters stay true. *)
From S2P Require Import Prelude.
Local Open Scope exyde_scope.

Definition PAGE_SIZE : Z := 4096.
Definition PAGE_SHIFT : Z := 12.
Definition PMM_MAX_TRACKED_BYTES : Z := 1024 * 1024 * 1024.
Definition PMM_BITMAP_MAX_BYTES : Z := PMM_MAX_TRACKED_BYTES / PAGE_SIZE / 8.
Definition PMM_BITS_PER_WORD : Z := 64.
(** The length of the two static arrays of [u64]. *)
Definition PMM_BITMAP_WORDS : Z := PMM_BITMAP_MAX_BYTES / 8.

(** ** memmap.c *)

Definition MEMORY_USABLE : Z := 1.
Definition MEMORY_RESERVED : Z := 2.
Definition MEMMAP_MAX_REGIONS : Z := 128.

Record memory_region_t := MkRegion { r_base : Z; r_size : Z; r_type : Z }.

(** The array [regions] up to [region_count]; later cells are never read. *)
Abbreviation memmap := (list memory_region_t).

Definition memmap_reset : memmap := [].

Definition memmap_add (m : memmap) (base size type : Z) : bool * memmap :=
  if size =? 0 then (false, m)
  else if MEMMAP_MAX_REGIONS <=? zlen m then (false, m)
  else (true, m ++ [MkRegion base size type]).

Definition memmap_reserve (m : memmap) (base size : Z) : bool * memmap :=
  memmap_add m base size MEMORY_RESERVED.

Definition memmap_count (m : memmap) : Z := zlen m.

Definition memmap_get (m : memmap) (index : Z) : option memory_region_t :=
  if memmap_count m <=? index then None else m !! Z.to_nat index.

Definition memmap_max_paddr (m : memmap) : Z :=
  foldl (fun mx r => let e := r_base r +64 r_size r in if mx <? e then e else mx) 0 m.

(** ** pmm.c: state *)

Record pmm := MkPmm {
  used_bitmap : list Z;
  resv_bitmap : list Z;
  bitmap_words : Z;
  total_pages : Z;
  free_pages : Z;
  max_paddr : Z }.

Definition pmm_bss : pmm :=
  MkPmm (replicate (Z.to_nat PMM_BITMAP_WORDS) 0)
        (replicate (Z.to_nat PMM_BITMAP_WORDS) 0) 0 0 0 0.

Definition with_used (s : pmm) (b : list Z) : pmm :=
  MkPmm b (resv_bitmap s) (bitmap_words s) (total_pages s) (free_pages s) (max_paddr s).
Definition with_resv (s : pmm) (b : list Z) : pmm :=
  MkPmm (used_bitmap s) b (bitmap_words s) (total_pages s) (free_pages s) (max_paddr s).
Definition with_free (s : pmm) (n : Z) : pmm :=
  MkPmm (used_bitmap s) (resv_bitmap s) (bitmap_words s) (total_pages s) n (max_paddr s).

(** The three word operations the bit helpers of the source share. *)
Definition bm_set (b : list Z) (page : Z) : list Z :=
  zset b (page / PMM_BITS_PER_WORD)
    (Z.lor (zget 0 b (page / PMM_BITS_PER_WORD))
           (u64 (Z.shiftl 1 (page mod PMM_BITS_PER_WORD)))).
Definition bm_clear (b : list Z) (page : Z) : list Z :=
  zset b (page / PMM_BITS_PER_WORD)
    (Z.land (zget 0 b (page / PMM_BITS_PER_WORD))
            (u64 (Z.lnot (u64 (Z.shiftl 1 (page mod PMM_BITS_PER_WORD)))))).
Definition bm_get (b : list Z) (page : Z) : bool :=
  negb (Z.land (Z.shiftr (zget 0 b (page / PMM_BITS_PER_WORD))
                         (page mod PMM_BITS_PER_WORD)) 1 =? 0).

Definition used_set (s : pmm) (page : Z) : pmm := with_used s (bm_set (used_bitmap s) page).
Definition used_clear (s : pmm) (page : Z) : pmm := with_used s (bm_clear (used_bitmap s) page).
Definition used_get (s : pmm) (page : Z) : bool := bm_get (used_bitmap s) page.
Definition resv_set (s : pmm) (page : Z) : pmm := with_resv s (bm_set (resv_bitmap s) page).
Definition resv_get (s : pmm) (page : Z) : bool := bm_get (resv_bitmap s) page.

(** ** pmm.c: range marking *)

Definition mark_usable (s : pmm) (base size : Z) : pmm :=
  let start := Z.land (base + PAGE_SIZE -64 1) (align_mask PAGE_SHIFT) in
  let end0 := Z.land (base +64 size) (align_mask PAGE_SHIFT) in
  let end_ := if max_paddr s <? end0 then max_paddr s else end0 in
  if end_ <=? start then s
  else foldl (fun s a => used_clear s (Z.shiftr a PAGE_SHIFT)) s
             (range_step start end_ PAGE_SIZE).

Definition mark_reserved (s : pmm) (base size : Z) : pmm :=
  let start := Z.land base (align_mask PAGE_SHIFT) in
  let end0 := Z.land (base + size + PAGE_SIZE -64 1) (align_mask PAGE_SHIFT) in
  let end_ := if max_paddr s <? end0 then max_paddr s else end0 in
  if end_ <=? start then s
  else foldl (fun s a => let p := Z.shiftr a PAGE_SHIFT in resv_set (used_set s p) p) s
             (range_step start end_ PAGE_SIZE).

(** Highest end of any usable region, rounded up to a page. *)
Definition usable_top (m : memmap) : Z :=
  let top := foldl (fun top r =>
      if negb (r_type r =? MEMORY_USABLE) then top
      else let e := r_base r +64 r_size r in if top <? e then e else top) 0 m in
  if top =? 0 then 0
  else Z.land (top + PAGE_SIZE -64 1) (align_mask PAGE_SHIFT).

(** ** pmm.c: public API *)

Inductive pmm_panic := NoUsableMemory | BitmapCapacityExceeded.

(** The pages [0 .. bitmap_words) of both arrays are rewritten, the rest of the
    static arrays keeps its contents. *)
Definition fill_words (b : list Z) (n v : Z) : list Z :=
  foldl (fun b i => zset b i v) b (seqZ 0 n).

Definition pmm_init (m : memmap) (s : pmm) : pmm_panic + pmm :=
  let top := usable_top m in
  if top =? 0 then inl NoUsableMemory
  else
    let top := if PMM_MAX_TRACKED_BYTES <? top then PMM_MAX_TRACKED_BYTES else top in
    let total := Z.shiftr top PAGE_SHIFT in
    let words := (total + PMM_BITS_PER_WORD - 1) / PMM_BITS_PER_WORD in
    if PMM_BITMAP_MAX_BYTES <? words * 8 then inl BitmapCapacityExceeded
    else
      let s0 := MkPmm (fill_words (used_bitmap s) words (u64 (Z.lnot 0)))
                      (fill_words (resv_bitmap s) words 0)
                      words total (free_pages s) top in
      let s1 := foldl (fun s r => if r_type r =? MEMORY_USABLE
                                  then mark_usable s (r_base r) (r_size r) else s) s0 m in
      let s2 := foldl (fun s r => if negb (r_type r =? MEMORY_USABLE)
                                  then mark_reserved s (r_base r) (r_size r) else s) s1 m in
      let n := foldl (fun n i => if negb (used_get s2 i) then n + 1 else n) 0
                     (seqZ 0 (total_pages s2)) in
      inr (with_free s2 n).

(** The scan of [pmm_alloc_pages]: [i] is the page looked at, [run] the length
    of the free run ending just before it. *)
Fixpoint alloc_scan (s : pmm) (count : Z) (n : nat) (i run : Z) : option Z :=
  match n with
  | O => None
  | S n =>
    if used_get s i then alloc_scan s count n (i + 1) 0
    else if run + 1 =? count then Some (i + 1 - count)
    else alloc_scan s count n (i + 1) (run + 1)
  end.

Definition pmm_alloc_pages (count : Z) (s : pmm) : Z * pmm :=
  if (count =? 0) || (free_pages s <? count) then (0, s)
  else
    match alloc_scan s count (Z.to_nat (total_pages s)) 0 0 with
    | Some start =>
      let s' := foldl (fun s j => used_set s (start + j)) s (seqZ 0 count) in
      (u64 (Z.shiftl start PAGE_SHIFT), with_free s' (free_pages s - count))
    | None => (0, s)
    end.

Definition pmm_alloc_page (s : pmm) : Z * pmm := pmm_alloc_pages 1 s.

Definition pmm_free_pages (page count : Z) (s : pmm) : bool * pmm :=
  if count =? 0 then (false, s)
  else if negb (Z.land page (PAGE_SIZE - 1) =? 0) then (false, s)
  else if max_paddr s <=? page then (false, s)
  else
    let end_ := page + u64 (Z.shiftl count PAGE_SHIFT) in
    if max_paddr s <? u64 end_ then (false, s)
    else
      let start := Z.shiftr page PAGE_SHIFT in
      if existsb (fun i => resv_get s (start + i) || negb (used_get s (start + i)))
                 (seqZ 0 count)
      then (false, s)
      else
        let s' := foldl (fun s i => used_clear s (start + i)) s (seqZ 0 count) in
        (true, with_free s' (free_pages s + count)).

Definition pmm_free_page (page : Z) (s : pmm) : bool * pmm := pmm_free_pages page 1 s.

Definition pmm_is_allocated (page : Z) (s : pmm) : bool :=
  if negb (Z.land page (PAGE_SIZE - 1) =? 0) then false
  else if max_paddr s <=? page then false
  else used_get s (Z.shiftr page PAGE_SHIFT).

Definition pmm_max_paddr (s : pmm) : Z := max_paddr s.
Definition pmm_total_page_count (s : pmm) : Z := total_pages s.
Definition pmm_free_page_count (s : pmm) : Z := free_pages s.

(** ** Bitmaps *)

Definition bm_ok (b : list Z) : Prop :=
  zlen b = PMM_BITMAP_WORDS /\ forall i, 0 <= zget 0 b i < 2 ^ 64.

Definition PMM_BITS : Z := PMM_BITMAP_WORDS * 64.

Lemma bm_get_testbit b p :
  bm_get b p = Z.testbit (zget 0 b (p / 64)) (p mod 64).
Proof.
  unfold bm_get, PMM_BITS_PER_WORD. rewrite land_1, Z.testbit_odd.
  rewrite Zmod_odd. by destruct (Z.odd _).
Qed.

Lemma page_split p q : p / 64 = q / 64 -> p mod 64 = q mod 64 -> p = q.
Proof. intros. rewrite (Z.div_mod p 64), (Z.div_mod q 64) by lia. lia. Qed.

Lemma page_word p : 0 <= p < PMM_BITS -> 0 <= p / 64 < PMM_BITMAP_WORDS.
Proof.
  unfold PMM_BITS. intros. split; [apply Z.div_pos; lia|].
  apply Z.div_lt_upper_bound; lia.
Qed.

Lemma u64_pow2 k : 0 <= k < 64 -> u64 (Z.shiftl 1 k) = 2 ^ k.
Proof.
  intros. rewrite Z.shiftl_1_l, u64_small; [done|].
  split; [apply Z.pow_nonneg; lia|]. apply Z.pow_lt_mono_r; lia.
Qed.

Lemma mod64_range p : 0 <= p mod 64 < 64.
Proof. apply Z.mod_pos_bound; lia. Qed.

Section bitmap.
Context (b : list Z) (Hb : bm_ok b).

Lemma bm_get_set p q :
  0 <= p < PMM_BITS -> 0 <= q ->
  bm_get (bm_set b p) q = (p =? q) || bm_get b q.
Proof using Hb.
  intros Hp Hq. rewrite !bm_get_testbit. unfold bm_set, PMM_BITS_PER_WORD.
  pose proof (page_word p Hp). pose proof (mod64_range p). pose proof (mod64_range q).
  rewrite zget_zset by (rewrite ?(proj1 Hb); auto using Z.div_pos with lia || apply Z.div_pos; lia).
  destruct (Z.eqb_spec (p / 64) (q / 64)) as [E|E].
  - rewrite Z.lor_spec, u64_pow2, Z.pow2_bits_eqb, E, orb_comm by lia. f_equal.
    destruct (Z.eqb_spec (p mod 64) (q mod 64)), (Z.eqb_spec p q); try done.
    + by exfalso; eauto using page_split.
    + subst; done.
  - destruct (Z.eqb_spec p q); [subst; done|done].
Qed.

Lemma bm_get_clear p q :
  0 <= p < PMM_BITS -> 0 <= q ->
  bm_get (bm_clear b p) q = negb (p =? q) && bm_get b q.
Proof using Hb.
  intros Hp Hq. rewrite !bm_get_testbit. unfold bm_clear, PMM_BITS_PER_WORD.
  pose proof (page_word p Hp). pose proof (mod64_range p). pose proof (mod64_range q).
  rewrite zget_zset by (rewrite ?(proj1 Hb); auto using Z.div_pos with lia || apply Z.div_pos; lia).
  destruct (Z.eqb_spec (p / 64) (q / 64)) as [E|E].
  - rewrite Z.land_spec, u64_pow2, E by lia. unfold u64.
    rewrite testbit_mod_pow2, Z.lnot_spec, Z.pow2_bits_eqb by lia.
    rewrite (proj2 (Z.ltb_lt _ _)) by lia. rewrite andb_true_l, andb_comm. f_equal. f_equal.
    destruct (Z.eqb_spec (p mod 64) (q mod 64)), (Z.eqb_spec p q); try done.
    + by exfalso; eauto using page_split.
    + subst; done.
  - destruct (Z.eqb_spec p q); [subst; done|done].
Qed.

Lemma bm_ok_zset i v : 0 <= i < PMM_BITMAP_WORDS -> 0 <= v < 2 ^ 64 -> bm_ok (zset b i v).
Proof using Hb.
  intros Hi Hv. destruct Hb as [Hlen Hw]. split; [by rewrite zlen_zset|].
  intros j. destruct (decide (0 <= j)).
  - rewrite zget_zset by lia. zif; auto.
  - replace (zget 0 (zset b i v) j) with (zget 0 (zset b i v) 0).
    { rewrite zget_zset by lia. zif; auto. }
    unfold zget. by replace (Z.to_nat j) with (Z.to_nat 0) by lia.
Qed.

Lemma bm_ok_set p : 0 <= p < PMM_BITS -> bm_ok (bm_set b p).
Proof using Hb.
  intros Hp. pose proof (page_word p Hp). pose proof (mod64_range p).
  unfold bm_set, PMM_BITS_PER_WORD. apply bm_ok_zset; [done|].
  rewrite u64_pow2 by lia. apply lor_width; [lia|apply (proj2 Hb)|].
  split; [apply Z.pow_nonneg; lia|apply Z.pow_lt_mono_r; lia].
Qed.

Lemma bm_ok_clear p : 0 <= p < PMM_BITS -> bm_ok (bm_clear b p).
Proof using Hb.
  intros Hp. pose proof (page_word p Hp).
  unfold bm_clear, PMM_BITS_PER_WORD. apply bm_ok_zset; [done|].
  apply land_width; [lia|apply (proj2 Hb)].
Qed.
End bitmap.

(** ** Marking a list of pages *)

Definition is_page (p : Z) : Prop := 0 <= p < PMM_BITS.

(** What marking leaves alone: the bounds and the free counter. *)
Definition same_frame (s s' : pmm) : Prop :=
  bitmap_words s' = bitmap_words s /\ total_pages s' = total_pages s /\
  free_pages s' = free_pages s /\ max_paddr s' = max_paddr s.

Record marked (s s' : pmm) (upd : Z -> bool) (v : bool) : Prop := {
  marked_frame : same_frame s s';
  marked_resv : resv_bitmap s' = resv_bitmap s;
  marked_ok : bm_ok (used_bitmap s');
  marked_get q : 0 <= q -> used_get s' q = if upd q then v else used_get s q }.

Lemma marked_refl s v : bm_ok (used_bitmap s) -> marked s s (fun _ => false) v.
Proof. by split. Qed.

Lemma marked_ext s s' P Q v :
  marked s s' P v -> (forall q, 0 <= q -> P q = Q q) -> marked s s' Q v.
Proof. intros [F R K G] E. split; try done. intros q Hq. by rewrite G, E. Qed.

Lemma marked_trans s1 s2 s3 P Q v :
  marked s1 s2 P v -> marked s2 s3 Q v -> marked s1 s3 (fun q => P q || Q q) v.
Proof.
  intros [F1 R1 K1 G1] [F2 R2 K2 G2].
  split; [unfold same_frame in *; intuition congruence|congruence|done|].
  intros q Hq. rewrite G2, G1 by done. by destruct (P q), (Q q).
Qed.

Section marking.
(** One bit operation that gives page [p] the state [v], iterated. *)
Context {A : Type} (g : A -> Z) (op : pmm -> Z -> pmm) (v : bool).
Context (op_marked : forall s p, bm_ok (used_bitmap s) -> is_page p ->
           marked s (op s p) (fun q => p =? q) v).

Lemma foldl_marked l s :
  bm_ok (used_bitmap s) -> (forall x, x ∈ l -> is_page (g x)) ->
  marked s (foldl (fun s x => op s (g x)) s l) (fun q => bool_decide (q ∈ g <$> l)) v.
Proof using op_marked.
  revert s. induction l as [|x l IH]; intros s Hok Hl; simpl; [by apply marked_refl|].
  pose proof (op_marked s (g x) Hok (Hl x ltac:(left))) as H.
  eapply marked_ext; [eapply marked_trans; [exact H|]; apply IH|].
  - apply H.
  - intros; apply Hl; by right.
  - intros q Hq. simpl. destruct (Z.eqb_spec (g x) q); simpl; symmetry.
    + apply bool_decide_eq_true_2, elem_of_cons. by left.
    + apply bool_decide_ext. rewrite elem_of_cons. intuition congruence.
Qed.
End marking.

Lemma used_set_marked s p :
  bm_ok (used_bitmap s) -> is_page p -> marked s (used_set s p) (fun q => p =? q) true.
Proof.
  intros Hok Hp. split; [done|done|by apply bm_ok_set|]. intros q Hq.
  unfold used_get. simpl. rewrite bm_get_set by done. by destruct (p =? q).
Qed.

Lemma used_clear_marked s p :
  bm_ok (used_bitmap s) -> is_page p -> marked s (used_clear s p) (fun q => p =? q) false.
Proof.
  intros Hok Hp. split; [done|done|by apply bm_ok_clear|]. intros q Hq.
  unfold used_get. simpl. rewrite bm_get_clear by done. by destruct (p =? q).
Qed.

(** ** The allocator's invariant *)

Definition all_free (s : pmm) (start count : Z) : Prop :=
  forall j, start <= j < start + count -> used_get s j = false.

Record pmm_inv (s : pmm) : Prop := {
  inv_used_ok : bm_ok (used_bitmap s);
  inv_resv_ok : bm_ok (resv_bitmap s);
  inv_total : 0 <= total_pages s <= PMM_BITS;
  inv_max : max_paddr s = total_pages s * PAGE_SIZE;
  inv_count : free_pages s = countb (fun p => negb (used_get s p)) (seqZ 0 (total_pages s));
  inv_resv p : 0 <= p < total_pages s -> resv_get s p = true -> used_get s p = true }.

(** Flipping the state of a range of pages moves the free count by its length. *)
Lemma countb_range (f g : Z -> bool) n start count :
  0 <= start -> 0 <= count -> start + count <= n ->
  (forall j, start <= j < start + count -> f j = true /\ g j = false) ->
  (forall j, 0 <= j -> ~ (start <= j < start + count) -> f j = g j) ->
  countb f (seqZ 0 n) = countb g (seqZ 0 n) + count.
Proof.
  intros Hs Hc. rewrite <- (Z2Nat.id count) by lia. generalize (Z.to_nat count) as c.
  clear count Hc. intros c. revert g. induction c as [|c IH]; intros g Hn Hin Hout.
  - rewrite Z.add_0_r. apply countb_ext. intros x Hx%elem_of_seqZ. apply Hout; lia.
  - set (h := fun j => if j =? start + Z.of_nat c then true else g j).
    rewrite (IH h), (countb_flip h g _ (start + Z.of_nat c)); subst h; simpl.
    + lia.
    + apply NoDup_seqZ.
    + apply elem_of_seqZ. lia.
    + by rewrite Z.eqb_refl.
    + apply Hin. lia.
    + intros y _ Hy. by rewrite (proj2 (Z.eqb_neq _ _) Hy).
    + lia.
    + intros j Hj. split; [apply Hin; lia|].
      rewrite (proj2 (Z.eqb_neq _ _)) by lia. apply Hin. lia.
    + intros j Hj0 Hj. zif; [subst; apply Hin; lia|]. apply Hout; lia.
Qed.

Lemma elem_of_offsets start count q :
  q ∈ (fun j => start + j) <$> seqZ 0 count <-> start <= q < start + count.
Proof.
  rewrite list_elem_of_fmap. setoid_rewrite elem_of_seqZ. split.
  - intros (j & -> & ?). lia.
  - intros. exists (q - start). lia.
Qed.

(** ** pmm_alloc_pages *)

Lemma alloc_scan_sound s count n i run :
  0 < count -> 0 <= run < count -> run <= i ->
  (forall j, i - run <= j < i -> used_get s j = false) ->
  (run = i \/ used_get s (i - run - 1) = true) ->
  (forall st, 0 <= st -> st + count <= i -> ~ all_free s st count) ->
  match alloc_scan s count n i run with
  | Some st => 0 <= st /\ st + count <= i + Z.of_nat n /\ all_free s st count /\
               (forall st', 0 <= st' < st -> ~ all_free s st' count)
  | None => forall st, 0 <= st -> st + count <= i + Z.of_nat n -> ~ all_free s st count
  end.
Proof.
  intros Hc. revert i run. induction n as [|n IH]; intros i run Hrun Hri Hfree Hmax Hno; simpl.
  { intros st H0 H1. apply Hno; lia. }
  destruct (used_get s i) eqn:Hu.
  - specialize (IH (i + 1) 0). replace (i + 1 + Z.of_nat n) with (i + Z.of_nat (S n)) in IH by lia.
    apply IH; [lia|lia|intros; lia|right; by replace (i + 1 - 0 - 1) with i by lia|].
    intros st H0 H1 Hall. destruct (decide (st + count <= i)); [by apply (Hno st)|].
    specialize (Hall i). rewrite Hu in Hall. discriminate Hall. lia.
  - assert (forall j, i + 1 - (run + 1) <= j < i + 1 -> used_get s j = false) as Hfree'.
    { intros j Hj. destruct (decide (j = i)) as [->|]; [done|]. apply Hfree. lia. }
    zif.
    + split_and!; [lia|lia|intros j Hj; apply Hfree'; lia|].
      intros st' Hst'. apply Hno; lia.
    + specialize (IH (i + 1) (run + 1)).
      replace (i + 1 + Z.of_nat n) with (i + Z.of_nat (S n)) in IH by lia.
      apply IH; [lia|lia|done| |].
      * destruct Hmax as [->|Hmax]; [by left|right].
        by replace (i + 1 - (run + 1) - 1) with (i - run - 1) by lia.
      * intros st H0 H1 Hall. destruct (decide (st + count <= i)); [by apply (Hno st)|].
        destruct Hmax as [->|Hmax]; [lia|].
        specialize (Hall (i - run - 1)). rewrite Hmax in Hall. discriminate Hall. lia.
Qed.

(** The scan of the whole bitmap: the lowest run of [count] free pages. *)
Lemma alloc_scan_spec s count :
  0 < count -> 0 <= total_pages s ->
  match alloc_scan s count (Z.to_nat (total_pages s)) 0 0 with
  | Some st => 0 <= st /\ st + count <= total_pages s /\ all_free s st count /\
               (forall st', 0 <= st' < st -> ~ all_free s st' count)
  | None => forall st, 0 <= st -> st + count <= total_pages s -> ~ all_free s st count
  end.
Proof.
  intros Hc Ht. pose proof (alloc_scan_sound s count (Z.to_nat (total_pages s)) 0 0) as H.
  rewrite Z2Nat.id, Z.add_0_l in H by lia. apply H; try lia.
Qed.

(** The bounds [lia] needs in the address arithmetic below. *)
Lemma PMM_BITS_eq : PMM_BITS = 262144.
Proof. done. Qed.

Definition take_pages (s : pmm) (st count : Z) : pmm :=
  with_free (foldl (fun s j => used_set s (st + j)) s (seqZ 0 count)) (free_pages s - count).

Definition give_pages (s : pmm) (st count : Z) : pmm :=
  with_free (foldl (fun s j => used_clear s (st + j)) s (seqZ 0 count)) (free_pages s + count).

(** [s'] is [s] with the pages [st .. st+count) in state [v] and [free_pages]
    moved accordingly; everything else is as before. *)
Record range_changed (s s' : pmm) (st count : Z) (v : bool) : Prop := {
  rc_inv : pmm_inv s';
  rc_in q : st <= q < st + count -> used_get s' q = v;
  rc_out q : 0 <= q -> ~ (st <= q < st + count) -> used_get s' q = used_get s q;
  rc_resv : resv_bitmap s' = resv_bitmap s;
  rc_total : total_pages s' = total_pages s;
  rc_max : max_paddr s' = max_paddr s;
  rc_free : free_pages s' = free_pages s + (if v then - count else count) }.

Lemma take_pages_ok s st count :
  pmm_inv s -> 0 <= st -> 0 <= count -> st + count <= total_pages s -> all_free s st count ->
  range_changed s (take_pages s st count) st count true.
Proof.
  intros [Iu Ir It Im Ic Iv] Hst Hc Hle Hfree.
  destruct (foldl_marked (fun j => st + j) used_set true used_set_marked (seqZ 0 count) s)
    as [(Hw & Ht & Hf & Hm) R K G]; [done|intros x ?%elem_of_seqZ; red; lia|].
  unfold take_pages. set (t := foldl _ s _) in *.
  assert (forall q, used_get (with_free t (free_pages s - count)) q = used_get t q) as E by done.
  assert (forall q, 0 <= q -> st <= q < st + count -> used_get t q = true) as I'.
  { intros. rewrite G by done. by rewrite bool_decide_eq_true_2 by by apply elem_of_offsets. }
  assert (forall q, 0 <= q -> ~ (st <= q < st + count) -> used_get t q = used_get s q) as O'.
  { intros. rewrite G by done. by rewrite bool_decide_eq_false_2 by by rewrite elem_of_offsets. }
  split; simpl; try (done || lia); [|intros q Hq; rewrite E; apply I'; lia].
  split; simpl; rewrite ?R, ?Ht, ?Hm; try done.
  - rewrite Ic, (countb_range _ (fun p => negb (used_get t p)) (total_pages s) st count); try lia.
    + change (fun p => negb (used_get (with_free t _) p)) with (fun p => negb (used_get t p)). lia.
    + intros j Hj. rewrite Hfree, I' by lia. done.
    + intros j Hj0 Hj. by rewrite O' by lia.
  - intros p Hp Hr. rewrite E. destruct (decide (st <= p < st + count)); [apply I'; lia|].
    rewrite O' by lia. apply Iv; [done|]. unfold resv_get in *. simpl in Hr. by rewrite R in Hr.
Qed.

Lemma give_pages_ok s st count :
  pmm_inv s -> 0 <= st -> 0 <= count -> st + count <= total_pages s ->
  (forall j, st <= j < st + count -> used_get s j = true /\ resv_get s j = false) ->
  range_changed s (give_pages s st count) st count false.
Proof.
  intros [Iu Ir It Im Ic Iv] Hst Hc Hle Hused.
  destruct (foldl_marked (fun j => st + j) used_clear false used_clear_marked (seqZ 0 count) s)
    as [(Hw & Ht & Hf & Hm) R K G]; [done|intros x ?%elem_of_seqZ; red; lia|].
  unfold give_pages. set (t := foldl _ s _) in *.
  assert (forall q, used_get (with_free t (free_pages s + count)) q = used_get t q) as E by done.
  assert (forall q, 0 <= q -> st <= q < st + count -> used_get t q = false) as I'.
  { intros. rewrite G by done. by rewrite bool_decide_eq_true_2 by by apply elem_of_offsets. }
  assert (forall q, 0 <= q -> ~ (st <= q < st + count) -> used_get t q = used_get s q) as O'.
  { intros. rewrite G by done. by rewrite bool_decide_eq_false_2 by by rewrite elem_of_offsets. }
  split; simpl; try done; [|intros q Hq; rewrite E; apply I'; lia].
  split; simpl; rewrite ?R, ?Ht, ?Hm; try done.
  - rewrite Ic. change (fun p => negb (used_get (with_free t _) p)) with (fun p => negb (used_get t p)).
    rewrite (countb_range (fun p => negb (used_get t p)) (fun p => negb (used_get s p))
               (total_pages s) st count); try lia.
    + intros j Hj. rewrite (proj1 (Hused j Hj)), I' by lia. done.
    + intros j Hj0 Hj. by rewrite O' by lia.
  - intros p Hp Hr. rewrite E. unfold resv_get in *. simpl in Hr. rewrite R in Hr.
    rewrite O'; [by apply Iv|lia|].
    intros Hin. destruct (Hused p Hin) as [_ Hn]. congruence.
Qed.

(** [pmm_alloc_pages] as a relation between its argument and its result. *)
Lemma pmm_alloc_pages_cases s count :
  pmm_inv s -> 0 <= count ->
  (pmm_alloc_pages count s = (0, s) /\
   (count = 0 \/ forall st, 0 <= st -> st + count <= total_pages s -> ~ all_free s st count)) \/
  (exists st, pmm_alloc_pages count s = (st * PAGE_SIZE, take_pages s st count) /\
     0 < count /\ 0 <= st /\ st + count <= total_pages s /\ all_free s st count /\
     (forall st', 0 <= st' < st -> ~ all_free s st' count)).
Proof.
  intros Hinv Hc. pose proof (inv_total s Hinv) as Ht. unfold pmm_alloc_pages.
  destruct (Z.eqb_spec count 0) as [->|Hc0]; [by left; eauto|]. simpl.
  destruct (Z.ltb_spec (free_pages s) count) as [Hlt|Hge].
  - left. split; [done|]. right. intros st H0 H1 Hall.
    rewrite (inv_count s Hinv) in Hlt.
    rewrite (countb_range _ (fun p => if decide (st <= p < st + count) then false
                                      else negb (used_get s p)) _ st count) in Hlt;
      [|done|done|done| |].
    + pose proof (countb_nonneg (fun p => if decide (st <= p < st + count) then false
                                      else negb (used_get s p)) (seqZ 0 (total_pages s))). lia.
    + intros j Hj. rewrite Hall by done. by rewrite decide_True.
    + intros j _ Hj. by rewrite decide_False.
  - pose proof (alloc_scan_spec s count ltac:(lia) ltac:(lia)) as Hscan.
    destruct (alloc_scan _ _ _ _ _) as [st|]; [right|left; eauto].
    destruct Hscan as (H0 & H1 & H2 & H3). exists st. split_and!; try done; [|lia].
    f_equal. rewrite PMM_BITS_eq in Ht.
    rewrite Z.shiftl_mul_pow2 by (unfold PAGE_SHIFT; lia).
    unfold PAGE_SIZE, PAGE_SHIFT. rewrite u64_small; lia.
Qed.

(** [pmm_free_pages] on a range that does not wrap. *)
Definition freeable (s : pmm) (page count : Z) : Prop :=
  count <> 0 /\ page mod PAGE_SIZE = 0 /\ page + count * PAGE_SIZE <= max_paddr s /\
  forall j, page / PAGE_SIZE <= j < page / PAGE_SIZE + count ->
            used_get s j = true /\ resv_get s j = false.

Lemma pmm_free_pages_cases s page count :
  pmm_inv s -> 0 <= page < 2 ^ 64 -> 0 <= count < 2 ^ 51 ->
  (pmm_free_pages page count s = (false, s) /\ ~ freeable s page count) \/
  (pmm_free_pages page count s = (true, give_pages s (page / PAGE_SIZE) count) /\
   freeable s page count).
Proof.
  intros Hinv Hp Hc. unfold pmm_free_pages, freeable.
  pose proof (inv_total s Hinv) as Ht. pose proof (inv_max s Hinv) as Hm.
  rewrite PMM_BITS_eq in Ht. unfold PAGE_SIZE in *.
  destruct (Z.eqb_spec count 0) as [->|Hc0]; [left; split; [done|tauto]|].
  change (4096 - 1) with (2 ^ 12 - 1). rewrite land_low by lia. change (2 ^ 12) with 4096.
  destruct (Z.eqb_spec (page mod 4096) 0) as [Ha|Ha]; simpl; [|left; split; [done|tauto]].
  destruct (Z.leb_spec (max_paddr s) page); [left; split; [done|lia]|].
  rewrite Z.shiftl_mul_pow2 by (unfold PAGE_SHIFT; lia).
  unfold PAGE_SHIFT. change (2 ^ 12) with 4096.
  rewrite (u64_small (count * 4096)), u64_small by lia.
  destruct (Z.ltb_spec (max_paddr s) (page + count * 4096)); [left; split; [done|lia]|].
  rewrite Z.shiftr_div_pow2 by lia. change (2 ^ 12) with 4096.
  destruct (existsb _ _) eqn:Hex.
  - left. split; [done|]. intros (_ & _ & _ & Hall).
    apply existsb_exists in Hex as (i & Hi%list_elem_of_In%elem_of_seqZ & Hb).
    destruct (Hall (page / 4096 + i)) as [H1 H2]; [lia|]. by rewrite H1, H2 in Hb.
  - right. split; [done|]. split_and!; [done|done|lia|]. intros j Hj.
    destruct (resv_get s j || negb (used_get s j)) eqn:Hb; [|zb; done].
    exfalso. apply not_true_iff_false in Hex. apply Hex, existsb_exists.
    exists (j - page / 4096). rewrite <- list_elem_of_In, elem_of_seqZ. split; [lia|].
    by replace (page / 4096 + (j - page / 4096)) with j by lia.
Qed.

(** ** pmm_init *)

(** A page lies inside a region, or meets it. *)
Definition covers (r : memory_region_t) (p : Z) : bool :=
  (r_base r <=? p * PAGE_SIZE) && ((p + 1) * PAGE_SIZE <=? r_base r + r_size r).
Definition touches (r : memory_region_t) (p : Z) : bool :=
  (r_base r <? (p + 1) * PAGE_SIZE) && (p * PAGE_SIZE <? r_base r + r_size r).

(** A region whose end, rounded up to a page, is a 64-bit address. *)
Definition region_ok (r : memory_region_t) : Prop :=
  0 <= r_base r /\ 0 < r_size r /\ r_base r + r_size r + PAGE_SIZE <= 2 ^ 64.

Lemma elem_of_page_range q start end_ :
  start mod 4096 = 0 ->
  q ∈ (fun a => Z.shiftr a PAGE_SHIFT) <$> range_step start end_ PAGE_SIZE <->
  start <= q * 4096 < end_.
Proof.
  intros Hs. rewrite list_elem_of_fmap. unfold PAGE_SHIFT, PAGE_SIZE.
  assert (start = 4096 * (start / 4096)) as Hst by (pose proof (Z.div_mod start 4096); lia).
  setoid_rewrite elem_of_range_step; [|lia]. split.
  - intros (a & -> & k & -> & Hk & Hlt). rewrite Z.shiftr_div_pow2 by lia. change (2 ^ 12) with 4096.
    replace (start + k * 4096) with ((start / 4096 + k) * 4096) in * by lia.
    rewrite Z.div_mul by lia. lia.
  - intros Hq. exists (q * 4096). split.
    + rewrite Z.shiftr_div_pow2 by lia. change (2 ^ 12) with 4096. by rewrite Z.div_mul by lia.
    + exists (q - start / 4096). lia.
Qed.

Lemma align_down_12 x :
  0 <= x < 2 ^ 64 -> Z.land x (align_mask PAGE_SHIFT) = 4096 * (x / 4096).
Proof.
  intros. rewrite land_align by (unfold PAGE_SHIFT; lia). unfold PAGE_SHIFT.
  change (2 ^ 12) with 4096. pose proof (Z.div_mod x 4096). lia.
Qed.

Lemma div_4096 x : 4096 * (x / 4096) <= x < 4096 * (x / 4096) + 4096.
Proof. pose proof (Z.div_mod x 4096). pose proof (Z.mod_pos_bound x 4096). lia. Qed.

Lemma mark_usable_marked s r :
  bm_ok (used_bitmap s) -> max_paddr s <= PMM_BITS * PAGE_SIZE -> region_ok r ->
  marked s (mark_usable s (r_base r) (r_size r))
    (fun q => covers r q && (q * PAGE_SIZE <? max_paddr s)) false.
Proof.
  intros Hok Hmax (Hb & Hsz & Hend). unfold mark_usable, covers, PAGE_SIZE in *.
  rewrite PMM_BITS_eq in Hmax.
  rewrite !u64_small, !align_down_12 by lia.
  pose proof (div_4096 (r_base r + 4096 - 1)) as D1.
  pose proof (div_4096 (r_base r + r_size r)) as D2.
  set (a := (r_base r + 4096 - 1) / 4096) in *. set (b := (r_base r + r_size r) / 4096) in *.
  set (e := if max_paddr s <? 4096 * b then max_paddr s else 4096 * b).
  assert (e <= max_paddr s /\ e <= 4096 * b /\ (e = max_paddr s \/ e = 4096 * b)) as He.
  { subst e. zif; lia. }
  zif.
  - eapply marked_ext; [by apply marked_refl|]. intros q Hq. symmetry.
    rewrite !andb_false_iff, !Z.leb_gt, Z.ltb_ge. lia.
  - eapply marked_ext; [apply (foldl_marked (fun a => Z.shiftr a PAGE_SHIFT) used_clear); [apply used_clear_marked|done|]|].
    + intros x Hx. assert (Z.shiftr x PAGE_SHIFT ∈
        (fun a => Z.shiftr a PAGE_SHIFT) <$> range_step (4096 * a) e 4096) as Hq
        by (apply list_elem_of_fmap; eauto).
      apply elem_of_page_range in Hq; [|by rewrite Z.mul_comm, Z.mod_mul].
      red. rewrite PMM_BITS_eq. lia.
    + intros q Hq. apply eq_true_iff_eq. rewrite bool_decide_eq_true, elem_of_page_range
        by (by rewrite Z.mul_comm, Z.mod_mul).
      rewrite !andb_true_iff, !Z.leb_le, Z.ltb_lt. lia.
Qed.

(** Pass 2 also sets the reserved bit. *)
Record reserved (s s' : pmm) (upd : Z -> bool) : Prop := {
  reserved_frame : same_frame s s';
  reserved_used_ok : bm_ok (used_bitmap s');
  reserved_resv_ok : bm_ok (resv_bitmap s');
  reserved_used q : 0 <= q -> used_get s' q = upd q || used_get s q;
  reserved_resv q : 0 <= q -> resv_get s' q = upd q || resv_get s q }.

Lemma reserved_refl s :
  bm_ok (used_bitmap s) -> bm_ok (resv_bitmap s) -> reserved s s (fun _ => false).
Proof. by split. Qed.

Lemma reserved_ext s s' P Q :
  reserved s s' P -> (forall q, 0 <= q -> P q = Q q) -> reserved s s' Q.
Proof. intros [F K1 K2 U R] E. split; try done; intros q Hq; by rewrite <- E, ?U, ?R. Qed.

Lemma reserved_trans s1 s2 s3 P Q :
  reserved s1 s2 P -> reserved s2 s3 Q -> reserved s1 s3 (fun q => Q q || P q).
Proof.
  intros [F1 K1 L1 U1 R1] [F2 K2 L2 U2 R2].
  split; [unfold same_frame in *; intuition congruence|done|done| |];
    intros q Hq; by rewrite ?U2, ?R2, ?U1, ?R1, orb_assoc by done.
Qed.

Lemma foldl_reserved {A} (g : A -> Z) l s :
  bm_ok (used_bitmap s) -> bm_ok (resv_bitmap s) -> (forall x, x ∈ l -> is_page (g x)) ->
  reserved s (foldl (fun s x => resv_set (used_set s (g x)) (g x)) s l)
    (fun q => bool_decide (q ∈ g <$> l)).
Proof.
  revert s. induction l as [|x l IH]; intros s Hok Hok' Hl; simpl; [by apply reserved_refl|].
  assert (is_page (g x)) as Hx by (apply Hl; left).
  assert (reserved s (resv_set (used_set s (g x)) (g x)) (fun q => g x =? q)) as H.
  { split; [done|by apply bm_ok_set|by apply bm_ok_set| |];
      intros q Hq; unfold used_get, resv_get; simpl; by rewrite bm_get_set. }
  eapply reserved_ext; [eapply reserved_trans; [exact H|apply IH]|].
  - apply H.
  - apply H.
  - intros; apply Hl; by right.
  - intros q Hq. simpl. rewrite orb_comm. destruct (Z.eqb_spec (g x) q); simpl; symmetry.
    + apply bool_decide_eq_true_2, elem_of_cons. by left.
    + apply bool_decide_ext. rewrite elem_of_cons. intuition congruence.
Qed.

Lemma mark_reserved_reserved s r :
  bm_ok (used_bitmap s) -> bm_ok (resv_bitmap s) ->
  max_paddr s <= PMM_BITS * PAGE_SIZE -> max_paddr s mod PAGE_SIZE = 0 -> region_ok r ->
  reserved s (mark_reserved s (r_base r) (r_size r))
    (fun q => touches r q && (q * PAGE_SIZE <? max_paddr s)).
Proof.
  intros Hok Hok' Hmax Hal (Hb & Hsz & Hend). unfold mark_reserved, touches, PAGE_SIZE in *.
  rewrite PMM_BITS_eq in Hmax.
  rewrite !u64_small, !align_down_12 by lia.
  pose proof (div_4096 (r_base r)) as D1.
  pose proof (div_4096 (r_base r + r_size r + 4096 - 1)) as D2.
  set (a := r_base r / 4096) in *. set (b := (r_base r + r_size r + 4096 - 1) / 4096) in *.
  set (e := if max_paddr s <? 4096 * b then max_paddr s else 4096 * b).
  assert (e <= max_paddr s /\ e <= 4096 * b /\ (e = max_paddr s \/ e = 4096 * b)) as He.
  { subst e. zif; lia. }
  zif.
  - eapply reserved_ext; [by apply reserved_refl|]. intros q Hq. symmetry.
    rewrite !andb_false_iff, !Z.ltb_ge. lia.
  - eapply reserved_ext; [apply (foldl_reserved (fun a => Z.shiftr a PAGE_SHIFT)); [done|done|]|].
    + intros x Hx. assert (Z.shiftr x PAGE_SHIFT ∈
        (fun a => Z.shiftr a PAGE_SHIFT) <$> range_step (4096 * a) e 4096) as Hq
        by (apply list_elem_of_fmap; eauto).
      apply elem_of_page_range in Hq; [|by rewrite Z.mul_comm, Z.mod_mul].
      red. rewrite PMM_BITS_eq. lia.
    + intros q Hq. apply eq_true_iff_eq. rewrite bool_decide_eq_true, elem_of_page_range
        by (by rewrite Z.mul_comm, Z.mod_mul).
      rewrite !andb_true_iff, !Z.ltb_lt. lia.
Qed.

Lemma fill_words_spec b n v :
  bm_ok b -> 0 <= n <= PMM_BITMAP_WORDS -> 0 <= v < 2 ^ 64 ->
  bm_ok (fill_words b n v) /\ forall i, 0 <= i < n -> zget 0 (fill_words b n v) i = v.
Proof.
  intros Hb Hn Hv. unfold fill_words.
  assert (forall k : nat, Z.of_nat k <= n ->
    let c := foldl (fun b i => zset b i v) b (seqZ 0 (Z.of_nat k)) in
    bm_ok c /\ forall i, 0 <= i < Z.of_nat k -> zget 0 c i = v) as H.
  { induction k as [|k IH]; intros Hk c; [split; [done|lia]|]. subst c.
    rewrite Nat2Z.inj_succ, <- Z.add_1_r, seqZ_app, foldl_app by lia. simpl.
    destruct IH as [IH1 IH2]; [lia|]. split; [apply bm_ok_zset; [done|lia|done]|].
    intros i Hi. rewrite zget_zset by (rewrite ?(proj1 IH1); lia).
    zif; [done|]. apply IH2. lia. }
  specialize (H (Z.to_nat n)). rewrite Z2Nat.id in H by lia. apply H. lia.
Qed.

Definition usable (r : memory_region_t) : bool := r_type r =? MEMORY_USABLE.

Lemma usable_top_spec m :
  Forall region_ok m ->
  usable_top m mod PAGE_SIZE = 0 /\ 0 <= usable_top m < 2 ^ 64 /\
  (usable_top m = 0 <-> existsb usable m = false).
Proof.
  intros Hm. unfold usable_top.
  set (f := fun top r => _). set (top := foldl f 0 m).
  assert (0 <= top <= 2 ^ 64 - PAGE_SIZE /\ (top = 0 <-> existsb usable m = false)) as [Hr Hz].
  { subst top. assert (forall t, 0 <= t <= 2 ^ 64 - PAGE_SIZE ->
      0 <= foldl f t m <= 2 ^ 64 - PAGE_SIZE /\
      (foldl f t m = 0 <-> t = 0 /\ existsb usable m = false)) as H.
    { induction m as [|r m IH]; intros t Ht; simpl; [tauto|].
      apply Forall_cons in Hm as [(? & ? & ?) Hm].
      assert (f t r = if usable r then Z.max t (r_base r + r_size r) else t) as ->.
      { unfold f, usable. destruct (r_type r =? MEMORY_USABLE); [|done]. simpl.
        rewrite u64_small by (unfold PAGE_SIZE in *; lia). zif; lia. }
      destruct (usable r); simpl; [|by apply IH].
      destruct (IH Hm (Z.max t (r_base r + r_size r))) as [IH1 IH2]; [unfold PAGE_SIZE in *; lia|].
      split; [done|]. rewrite IH2. split; [lia|intros [_ ?]; done]. }
    destruct (H 0) as [H1 H2]; [unfold PAGE_SIZE; lia|]. tauto. }
  unfold PAGE_SIZE in *. destruct (Z.eqb_spec top 0) as [->|Hn].
  { split; [done|]. split; [lia|]. tauto. }
  rewrite u64_small, align_down_12 by lia. pose proof (div_4096 (top + 4096 - 1)).
  split; [by rewrite Z.mul_comm, Z.mod_mul|]. split; [lia|].
  split; [lia|]. intros He. apply Hz in He. lia.
Qed.

(** The two passes over the memory map. *)
Lemma pass1_marked m s :
  bm_ok (used_bitmap s) -> max_paddr s <= PMM_BITS * PAGE_SIZE -> Forall region_ok m ->
  marked s (foldl (fun s r => if r_type r =? MEMORY_USABLE
                              then mark_usable s (r_base r) (r_size r) else s) s m)
    (fun q => existsb (fun r => usable r && covers r q) m && (q * PAGE_SIZE <? max_paddr s)) false.
Proof.
  revert s. induction m as [|r m IH]; intros s Hok Hmax Hm; simpl; [by apply marked_refl|].
  apply Forall_cons in Hm as [Hr Hm]. unfold usable at 1.
  destruct (r_type r =? MEMORY_USABLE); [|by apply IH].
  pose proof (mark_usable_marked s r Hok Hmax Hr) as H. pose proof (marked_frame _ _ _ _ H) as (_ & _ & _ & F).
  eapply marked_ext; [eapply marked_trans; [exact H|apply IH]|].
  - apply H.
  - by rewrite F.
  - done.
  - intros q Hq. simpl. rewrite F. by destruct (covers r q), (q * PAGE_SIZE <? max_paddr s), (existsb _ m).
Qed.

Lemma pass2_reserved m s :
  bm_ok (used_bitmap s) -> bm_ok (resv_bitmap s) ->
  max_paddr s <= PMM_BITS * PAGE_SIZE -> max_paddr s mod PAGE_SIZE = 0 -> Forall region_ok m ->
  reserved s (foldl (fun s r => if negb (r_type r =? MEMORY_USABLE)
                                then mark_reserved s (r_base r) (r_size r) else s) s m)
    (fun q => existsb (fun r => negb (usable r) && touches r q) m && (q * PAGE_SIZE <? max_paddr s)).
Proof.
  revert s. induction m as [|r m IH]; intros s Hok Hok' Hmax Hal Hm; simpl; [by apply reserved_refl|].
  apply Forall_cons in Hm as [Hr Hm]. unfold usable at 1.
  destruct (r_type r =? MEMORY_USABLE); simpl; [by apply IH|].
  pose proof (mark_reserved_reserved s r Hok Hok' Hmax Hal Hr) as H.
  pose proof (reserved_frame _ _ _ H) as (_ & _ & _ & F).
  eapply reserved_ext; [eapply reserved_trans; [exact H|apply IH]|].
  - apply H.
  - apply H.
  - by rewrite F.
  - by rewrite F.
  - done.
  - intros q Hq. simpl. rewrite F. by destruct (touches r q), (q * PAGE_SIZE <? max_paddr s), (existsb _ m).
Qed.

Lemma count_loop (f : Z -> bool) l n :
  foldl (fun n i => if negb (f i) then n + 1 else n) n l = n + countb (fun i => negb (f i)) l.
Proof.
  revert n. induction l as [|x l IH]; intros n; simpl; [unfold countb; simpl; lia|].
  rewrite IH, countb_cons. destruct (f x); simpl; lia.
Qed.

(** What [pmm_init] builds, for the properties below. *)
Lemma pmm_init_ok m s :
  Forall region_ok m -> bm_ok (used_bitmap s) -> bm_ok (resv_bitmap s) ->
  (existsb usable m = false /\ pmm_init m s = inl NoUsableMemory) \/
  exists s', existsb usable m = true /\ pmm_init m s = inr s' /\ pmm_inv s' /\
    forall p, 0 <= p < total_pages s' ->
      used_get s' p = existsb (fun r => negb (usable r) && touches r p) m
                      || negb (existsb (fun r => usable r && covers r p) m) /\
      resv_get s' p = existsb (fun r => negb (usable r) && touches r p) m.
Proof.
  intros Hm Hu Hr. pose proof (usable_top_spec m Hm) as (Hal & Hb & Hz).
  unfold pmm_init. destruct (Z.eqb_spec (usable_top m) 0) as [E|E]; [left; tauto|right].
  set (top := if PMM_MAX_TRACKED_BYTES <? usable_top m then PMM_MAX_TRACKED_BYTES else usable_top m).
  assert (0 <= top <= PMM_BITS * PAGE_SIZE /\ top mod PAGE_SIZE = 0) as [Htop Htal].
  { subst top. change PMM_MAX_TRACKED_BYTES with (PMM_BITS * PAGE_SIZE). zif; split; try (done || lia). }
  rewrite Z.shiftr_div_pow2 by (unfold PAGE_SHIFT; lia). change (2 ^ PAGE_SHIFT) with 4096.
  set (total := top / 4096). rewrite PMM_BITS_eq in Htop. unfold PAGE_SIZE in Htop, Htal.
  assert (top = total * 4096) as Htt by (pose proof (Z.div_mod top 4096); lia).
  set (words := (total + PMM_BITS_PER_WORD - 1) / PMM_BITS_PER_WORD).
  assert (0 <= words <= 4096 /\ total <= 64 * words) as [Hw Htw].
  { unfold words, PMM_BITS_PER_WORD. pose proof (Z.div_mod (total + 64 - 1) 64).
    pose proof (Z.mod_pos_bound (total + 64 - 1) 64). lia. }
  destruct (Z.ltb_spec PMM_BITMAP_MAX_BYTES (words * 8)) as [Hx|_].
  { change PMM_BITMAP_MAX_BYTES with 32768 in Hx. lia. }
  destruct (fill_words_spec (used_bitmap s) words (u64 (Z.lnot 0)) Hu) as [Ku Fu]; [done..|].
  destruct (fill_words_spec (resv_bitmap s) words 0 Hr) as [Kr Fr]; [done..|].
  set (s0 := MkPmm _ _ _ _ _ _).
  assert (max_paddr s0 <= PMM_BITS * PAGE_SIZE) as Hmx by (rewrite PMM_BITS_eq; unfold PAGE_SIZE; simpl; lia).
  pose proof (pass1_marked m s0 Ku Hmx Hm) as P1. set (s1 := foldl _ s0 m) in *.
  destruct P1 as [(_ & T1 & _ & M1) R1 K1 G1].
  assert (bm_ok (resv_bitmap s1)) as Kr1 by by rewrite R1.
  pose proof (pass2_reserved m s1 K1 Kr1) as P2. rewrite M1 in P2.
  specialize (P2 Hmx Htal Hm). set (s2 := foldl _ s1 m) in *.
  destruct P2 as [(_ & T2 & _ & M2) K2 L2 U2 V2]. rewrite T1 in T2. rewrite M1 in M2.
  assert (forall p, 0 <= p < total -> used_get s0 p = true /\ resv_get s0 p = false) as G0.
  { intros p Hp. unfold used_get, resv_get. rewrite !bm_get_testbit. simpl.
    pose proof (mod64_range p).
    assert (0 <= p / 64 < words) as Hpw.
    { split; [apply Z.div_pos; lia|]. apply Z.div_lt_upper_bound; lia. }
    rewrite Fu, Fr, Z.bits_0 by done. split; [|done].
    change (u64 (Z.lnot 0)) with (2 ^ 64 - 1). rewrite testbit_pow2_pred by lia. apply Z.ltb_lt. lia. }
  assert (forall p, 0 <= p < total -> (p * PAGE_SIZE <? max_paddr s0) = true) as Hlt.
  { intros p Hp. apply Z.ltb_lt. simpl. unfold PAGE_SIZE. lia. }
  assert (forall p, 0 <= p < total ->
    used_get s2 p = existsb (fun r => negb (usable r) && touches r p) m
                    || negb (existsb (fun r => usable r && covers r p) m) /\
    resv_get s2 p = existsb (fun r => negb (usable r) && touches r p) m) as Hfin.
  { intros p Hp. destruct (G0 p Hp) as [G0u G0r]. rewrite U2, V2 by lia.
    rewrite G1, (Hlt p Hp), !andb_true_r by lia.
    assert (resv_get s1 p = false) as -> by (unfold resv_get; by rewrite R1).
    rewrite G0u, orb_false_r. by destruct (existsb _ m), (existsb _ m). }
  exists (with_free s2 (foldl (fun n i => if negb (used_get s2 i) then n + 1 else n) 0 (seqZ 0 (total_pages s2)))).
  split_and!; [by destruct (existsb usable m); [|tauto]|done| |simpl; rewrite T2; exact Hfin].
  split; simpl; rewrite ?T2, ?M2; try done.
  - rewrite PMM_BITS_eq. simpl. lia.
  - rewrite count_loop. done.
  - intros p Hp Hres. simpl in Hp. destruct (Hfin p Hp) as [H1 H2].
    change (used_get s2 p = true). change (resv_get s2 p = true) in Hres. rewrite H1.
    rewrite H2 in Hres. by rewrite Hres.
Qed.

(** ** Round trip *)

Lemma bm_ext b c :
  bm_ok b -> bm_ok c -> (forall p, 0 <= p -> bm_get b p = bm_get c p) -> b = c.
Proof.
  intros [Lb Wb] [Lc Wc] H. apply (list_eq_zget 0); [congruence|].
  intros i Hi. apply Z.bits_inj'. intros j Hj.
  destruct (decide (j < 64)).
  - specialize (H (i * 64 + j) ltac:(lia)). rewrite !bm_get_testbit in H.
    rewrite Z.div_add_l, (Z.div_small j), Z.add_0_r in H by lia.
    by rewrite Z.add_comm, Z.mod_add, Z.mod_small in H by lia.
  - by rewrite (testbit_high (zget 0 b i) 64), (testbit_high (zget 0 c i) 64) by (auto; lia).
Qed.

Lemma pmm_ext s s' :
  bm_ok (used_bitmap s) -> bm_ok (used_bitmap s') ->
  (forall p, 0 <= p -> used_get s p = used_get s' p) ->
  resv_bitmap s = resv_bitmap s' -> bitmap_words s = bitmap_words s' ->
  total_pages s = total_pages s' -> free_pages s = free_pages s' ->
  max_paddr s = max_paddr s' -> s = s'.
Proof.
  intros K K' G. destruct s, s'; simpl in *. intros. subst. f_equal. by apply bm_ext.
Qed.

Lemma foldl_words {A} (f : pmm -> A -> pmm) l s :
  (forall s x, bitmap_words (f s x) = bitmap_words s) ->
  bitmap_words (foldl f s l) = bitmap_words s.
Proof. intros H. revert s. induction l as [|x l IH]; intros s; simpl; [done|]. by rewrite IH. Qed.

(** Reserved pages are never handed out, so page 0 (reserved at boot) stays
    available as the failure value. *)
Lemma all_free_not_reserved s st count j :
  pmm_inv s -> 0 <= st -> st + count <= total_pages s -> all_free s st count ->
  st <= j < st + count -> resv_get s j = false.
Proof.
  intros Hinv H0 H1 Hall Hj. destruct (resv_get s j) eqn:Hr; [|done].
  apply (inv_resv s Hinv) in Hr; [|lia]. by rewrite Hall in Hr.
Qed.

(** ** Properties *)

(** [pmm_init] panics exactly when the map has no usable region; otherwise
    it establishes the allocator's invariant, and a tracked page is free iff it
    lies inside some usable region and meets no other region ("reserved wins on
    overlap"), and is marked reserved iff it meets a non-usable region. *)
Theorem pmm_init_correct m s :
  Forall region_ok m -> bm_ok (used_bitmap s) -> bm_ok (resv_bitmap s) ->
  (existsb usable m = false /\ pmm_init m s = inl NoUsableMemory) \/
  exists s', existsb usable m = true /\ pmm_init m s = inr s' /\ pmm_inv s' /\
    forall p, 0 <= p < total_pages s' ->
      (used_get s' p = false <->
         (exists r, r ∈ m /\ usable r = true /\ covers r p = true) /\
         ~ (exists r, r ∈ m /\ usable r = false /\ touches r p = true)) /\
      (resv_get s' p = true <-> exists r, r ∈ m /\ usable r = false /\ touches r p = true).
Proof.
  intros Hm Hu Hr. destruct (pmm_init_ok m s Hm Hu Hr) as [H|(s' & H1 & H2 & H3 & H4)]; [by left|right].
  exists s'. split_and!; try done. intros p Hp. destruct (H4 p Hp) as [-> ->].
  assert (forall f g, existsb (fun r => f r && g r) m = true <->
            exists r, r ∈ m /\ f r = true /\ g r = true) as E.
  { intros f g. rewrite existsb_exists. setoid_rewrite andb_true_iff.
    by setoid_rewrite list_elem_of_In. }
  assert (forall r, usable r = false <-> negb (usable r) = true) as N
    by (intros; by rewrite negb_true_iff).
  setoid_rewrite N. rewrite <- !E, orb_false_iff, negb_false_iff, not_true_iff_false. tauto.
Qed.

Definition demo_map : memmap :=
  [MkRegion 0 (16 * 4096) MEMORY_USABLE; MkRegion 0 4097 MEMORY_RESERVED].

Lemma pmm_bss_ok : bm_ok (used_bitmap pmm_bss) /\ bm_ok (resv_bitmap pmm_bss).
Proof.
  assert (bm_ok (replicate (Z.to_nat PMM_BITMAP_WORDS) 0)) as H.
  { split; [by rewrite zlen_replicate|]. intros i. rewrite zget_replicate. lia. }
  by split.
Qed.

Lemma pmm_init_correct_witness :
  exists s', pmm_init demo_map pmm_bss = inr s' /\ pmm_inv s' /\ free_pages s' = 14.
Proof.
  destruct pmm_bss_ok as [H1 H2].
  destruct (pmm_init_correct demo_map pmm_bss) as [[H _]|(s' & _ & H & Hinv & _)];
    [repeat constructor; unfold PAGE_SIZE; simpl; lia|done|done|by vm_compute in H|].
  exists s'. split; [done|]. split; [done|]. vm_compute in H. injection H as <-. reflexivity.
Defined.

(** The state of the examples: 16 pages, the first two reserved. *)
Definition demo_pmm : pmm :=
  match pmm_init demo_map pmm_bss with inr s => s | inl _ => pmm_bss end.

Lemma demo_pmm_inv : pmm_inv demo_pmm.
Proof.
  destruct pmm_bss_ok as [H1 H2].
  destruct (pmm_init_ok demo_map pmm_bss) as [[H _]|(s' & _ & H & Hinv & _)];
    [repeat constructor; unfold PAGE_SIZE; simpl; lia|done|done|by vm_compute in H|].
  unfold demo_pmm. by rewrite H.
Qed.

(** On every call [pmm_alloc_pages] either returns 0 with the state
    unchanged, exactly when [count] is 0 or no run of [count] free pages exists,
    or returns the address of the lowest such run, having marked exactly those
    pages used and reduced the free count by [count]; the invariant is kept. *)
Theorem pmm_alloc_pages_correct s count :
  pmm_inv s -> 0 <= count ->
  let '(r, s') := pmm_alloc_pages count s in
  (r = 0 /\ s' = s /\
    (count = 0 \/ forall st, 0 <= st -> st + count <= total_pages s -> ~ all_free s st count)) \/
  (exists st, r = st * PAGE_SIZE /\ 0 < count /\ 0 <= st /\ st + count <= total_pages s /\
    all_free s st count /\ (forall st', 0 <= st' < st -> ~ all_free s st' count) /\
    range_changed s s' st count true).
Proof.
  intros Hinv Hc. destruct (pmm_alloc_pages_cases s count Hinv Hc)
    as [[-> H]|(st & -> & H1 & H2 & H3 & H4 & H5)]; [by left|right].
  exists st. split_and!; try done. apply take_pages_ok; (done || lia).
Qed.

Lemma pmm_alloc_pages_correct_witness :
  fst (pmm_alloc_pages 3 demo_pmm) = 2 * 4096 /\
  let '(r, s') := pmm_alloc_pages 3 demo_pmm in
  (r = 0 /\ s' = demo_pmm /\
    (3 = 0 \/ forall st, 0 <= st -> st + 3 <= total_pages demo_pmm -> ~ all_free demo_pmm st 3)) \/
  (exists st, r = st * PAGE_SIZE /\ 0 < 3 /\ 0 <= st /\ st + 3 <= total_pages demo_pmm /\
    all_free demo_pmm st 3 /\ (forall st', 0 <= st' < st -> ~ all_free demo_pmm st' 3) /\
    range_changed demo_pmm s' st 3 true).
Proof.
  split; [vm_compute; reflexivity|].
  exact (pmm_alloc_pages_correct demo_pmm 3 demo_pmm_inv ltac:(lia)).
Defined.

(** [pmm_free_pages] succeeds exactly on an aligned, in-range run of pages
    all of which are in use and none reserved, so double frees and frees of
    reserved pages are rejected; on success exactly those pages become free, on
    failure nothing changes. *)
Theorem pmm_free_pages_correct s page count :
  pmm_inv s -> 0 <= page < 2 ^ 64 -> 0 <= count < 2 ^ 51 ->
  let '(ok, s') := pmm_free_pages page count s in
  (ok = true <-> freeable s page count) /\
  (ok = false -> s' = s) /\
  (ok = true -> range_changed s s' (page / PAGE_SIZE) count false).
Proof.
  intros Hinv Hp Hc. destruct (pmm_free_pages_cases s page count Hinv Hp Hc) as [[-> H]|[-> H]].
  { split_and!; [|done|done]. split; [done|tauto]. }
  split_and!; [done|done|]. intros _. destruct H as (H1 & H2 & H3 & H4).
  apply give_pages_ok; try done; [apply Z.div_pos; unfold PAGE_SIZE; lia|lia|].
  rewrite (inv_max s Hinv) in H3. unfold PAGE_SIZE in *. pose proof (Z.div_mod page 4096). lia.
Qed.

Lemma pmm_free_pages_correct_witness :
  let s := snd (pmm_alloc_pages 3 demo_pmm) in
  fst (pmm_free_pages 8192 3 s) = true /\ fst (pmm_free_pages 0 1 s) = false /\
  (fst (pmm_free_pages 0 1 demo_pmm) = true <-> freeable demo_pmm 0 1).
Proof.
  split; [vm_compute; reflexivity|]. split; [vm_compute; reflexivity|].
  pose proof (pmm_free_pages_correct demo_pmm 0 1 demo_pmm_inv ltac:(lia) ltac:(lia)) as H.
  destruct (pmm_free_pages 0 1 demo_pmm) as [ok s']. exact (proj1 H).
Defined.

(** Allocating and then freeing the result restores the allocator to the
    very state it had, bit for bit. *)
Theorem pmm_alloc_free_roundtrip s count r s' :
  pmm_inv s -> 0 <= count < 2 ^ 51 -> resv_get s 0 = true -> 0 < total_pages s ->
  pmm_alloc_pages count s = (r, s') -> r <> 0 -> pmm_free_pages r count s' = (true, s).
Proof.
  intros Hinv Hc Hr0 Ht Halloc Hr. pose proof (inv_total s Hinv) as Htot. rewrite PMM_BITS_eq in Htot.
  destruct (pmm_alloc_pages_cases s count Hinv ltac:(lia)) as [[E _]|(st & E & H1 & H2 & H3 & H4 & H5)];
    rewrite E in Halloc; injection Halloc as <- <-; [done|].
  pose proof (take_pages_ok s st count Hinv H2 ltac:(lia) H3 H4) as T.
  assert (st * PAGE_SIZE / PAGE_SIZE = st) as Hd by (unfold PAGE_SIZE; by rewrite Z.div_mul).
  assert (forall j, st <= j < st + count -> used_get (take_pages s st count) j = true /\
                    resv_get (take_pages s st count) j = false) as Hin.
  { intros j Hj. split; [by apply (rc_in _ _ _ _ _ T)|]. unfold resv_get. rewrite (rc_resv _ _ _ _ _ T).
    by apply (all_free_not_reserved s st count). }
  destruct (pmm_free_pages_cases (take_pages s st count) (st * PAGE_SIZE) count
              (rc_inv _ _ _ _ _ T)) as [[_ N]|[-> _]];
    [unfold PAGE_SIZE; lia|lia| |].
  - exfalso. apply N. unfold freeable. rewrite Hd.
    split_and!; [lia|unfold PAGE_SIZE; by rewrite Z.mod_mul| |done].
    rewrite (rc_max _ _ _ _ _ T), (inv_max s Hinv). unfold PAGE_SIZE. lia.
  - rewrite Hd. f_equal.
    pose proof (give_pages_ok _ st count (rc_inv _ _ _ _ _ T) H2 ltac:(lia)
                  ltac:(rewrite (rc_total _ _ _ _ _ T); lia) Hin) as G.
    apply pmm_ext; [apply (rc_inv _ _ _ _ _ G)|apply Hinv| | | | | |].
    + intros p Hp. destruct (decide (st <= p < st + count)).
      * rewrite (rc_in _ _ _ _ _ G), H4 by done. done.
      * by rewrite (rc_out _ _ _ _ _ G), (rc_out _ _ _ _ _ T).
    + by rewrite (rc_resv _ _ _ _ _ G), (rc_resv _ _ _ _ _ T).
    + unfold give_pages, take_pages. simpl. rewrite foldl_words by done. simpl.
      by rewrite foldl_words.
    + by rewrite (rc_total _ _ _ _ _ G), (rc_total _ _ _ _ _ T).
    + rewrite (rc_free _ _ _ _ _ G), (rc_free _ _ _ _ _ T). lia.
    + by rewrite (rc_max _ _ _ _ _ G), (rc_max _ _ _ _ _ T).
Qed.

Lemma pmm_alloc_free_roundtrip_witness :
  pmm_free_pages 8192 3 (snd (pmm_alloc_pages 3 demo_pmm)) = (true, demo_pmm).
Proof.
  apply (pmm_alloc_free_roundtrip demo_pmm 3);
    [apply demo_pmm_inv|lia|vm_compute; reflexivity|vm_compute; reflexivity|vm_compute; reflexivity|lia].
Defined.
