(* ===== verification/Handle.v ===== *)
(** * Capabilities: the per-process handle table

    [handle.c] and [handle.h].  A table is an array of [HANDLE_MAX] entries and
    an allocation hint.  The [release] callback stored in the table acts on a
    world [W] that is a parameter here; the process layer instantiates it with
    the kernel state.  The theorems show which handle a creation returns, that
    a lookup is guarded by the rights, that closing revokes exactly one handle,
    and that over any sequence of operations every owned object is either still
    in the table, disowned, or was released exactly once. *)
From S2P Require Import Prelude.

Definition HANDLE_INVALID : Z := 4294967295.
Definition HANDLE_MAX : Z := 64.
Definition HANDLE_RIGHT_READ : Z := Z.shiftl 1 0.
Definition HANDLE_RIGHT_WRITE : Z := Z.shiftl 1 1.
Definition HANDLE_RIGHT_EXEC : Z := Z.shiftl 1 2.
Definition HANDLE_RIGHT_TRANSFER : Z := Z.shiftl 1 3.
Definition HANDLE_KIND_NONE : Z := 0.
Definition HANDLE_KIND_TEST : Z := 1.
Definition HANDLE_KIND_CHANNEL : Z := 2.
Definition HANDLE_KIND_PROCESS : Z := 3.

Record handle_entry_t := MkEntry {
  kind : Z; rights : Z; object : Z; in_use : Z; owns_object : Z }.

Record handle_table_t := MkTable { entries : list handle_entry_t; next_hint : Z }.

Definition free_entry : handle_entry_t := MkEntry HANDLE_KIND_NONE 0 0 0 0.

Definition entry_at (t : handle_table_t) (i : Z) : handle_entry_t := zget free_entry (entries t) i.
Definition set_entry (t : handle_table_t) (i : Z) (e : handle_entry_t) : handle_table_t :=
  MkTable (zset (entries t) i e) (next_hint t).

(** [e->in_use] and [e->owns_object] as C conditions. *)
Definition used (e : handle_entry_t) : bool := negb (in_use e =? 0).
Definition owns (e : handle_entry_t) : bool := negb (owns_object e =? 0).

Definition handle_table_init : handle_table_t :=
  MkTable (replicate (Z.to_nat HANDLE_MAX) free_entry) 0.

(** The loop of [handle_create_ex], [i] counting from the hint. *)
Fixpoint create_scan (t : handle_table_t) (n : nat) (i : Z) : option Z :=
  match n with
  | O => None
  | S n =>
    let idx := u32 (next_hint t + i) mod HANDLE_MAX in
    if used (entry_at t idx) then create_scan t n (i + 1) else Some idx
  end.

Definition handle_create_ex (t : handle_table_t) (kd rg obj : Z) (ow : bool)
  : Z * handle_table_t :=
  match create_scan t (Z.to_nat HANDLE_MAX) 0 with
  | Some idx =>
    let t' := set_entry t idx (MkEntry kd rg obj 1 (if ow then 1 else 0)) in
    (idx, MkTable (entries t') ((idx + 1) mod HANDLE_MAX))
  | None => (HANDLE_INVALID, t)
  end.

Definition handle_create (t : handle_table_t) (kd rg obj : Z) : Z * handle_table_t :=
  handle_create_ex t kd rg obj true.

Definition handle_table_has_free_slot (t : handle_table_t) : bool :=
  existsb (fun i => negb (used (entry_at t i))) (seqZ 0 HANDLE_MAX).

(** The out parameters are the returned triple (object, kind, rights). *)
Definition handle_lookup_full (t : handle_table_t) (h required : Z) : option (Z * Z * Z) :=
  if HANDLE_MAX <=? h then None
  else
    let e := entry_at t h in
    if negb (used e) then None
    else if negb (Z.land (rights e) required =? required) then None
    else Some (object e, kind e, rights e).

Definition handle_lookup (t : handle_table_t) (h required : Z) : option (Z * Z) :=
  match handle_lookup_full t h required with
  | Some (o, k, _) => Some (o, k)
  | None => None
  end.

Section release.
Context {W : Type} (release : option (Z -> Z -> W -> W)).

(** [if (e->owns_object && t->release) t->release(e->kind, e->object)] *)
Definition release_entry (e : handle_entry_t) (w : W) : W :=
  match release with
  | Some f => if owns e then f (kind e) (object e) w else w
  | None => w
  end.

Definition handle_close (t : handle_table_t) (h : Z) (w : W) : bool * handle_table_t * W :=
  if HANDLE_MAX <=? h then (false, t, w)
  else
    let e := entry_at t h in
    if negb (used e) then (false, t, w)
    else
      let w' := release_entry e w in
      (true, set_entry t h free_entry, w').

Definition destroy_step (tw : handle_table_t * W) (i : Z) : handle_table_t * W :=
  let '(t, w) := tw in
  let e := entry_at t i in
  if negb (used e) then (t, w)
  else
    let w' := release_entry e w in
    (set_entry t i free_entry, w').

Definition handle_table_destroy (t : handle_table_t) (w : W) : handle_table_t * W :=
  let '(t', w') := foldl destroy_step (t, w) (seqZ 0 HANDLE_MAX) in
  (MkTable (entries t') 0, w').
End release.

Definition handle_disown (t : handle_table_t) (h : Z) : bool * handle_table_t :=
  if HANDLE_MAX <=? h then (false, t)
  else
    let e := entry_at t h in
    if negb (used e) then (false, t)
    else (true, set_entry t h (MkEntry (kind e) (rights e) (object e) (in_use e) 0)).

(** ** Well-formed tables *)

Record table_ok (t : handle_table_t) : Prop := {
  table_len : zlen (entries t) = HANDLE_MAX;
  table_hint : 0 <= next_hint t < HANDLE_MAX }.

Lemma table_init_ok : table_ok handle_table_init.
Proof. done. Qed.

Lemma entry_at_set t i j e :
  table_ok t -> 0 <= i < HANDLE_MAX -> 0 <= j ->
  entry_at (set_entry t i e) j = if i =? j then e else entry_at t j.
Proof. intros Hok Hi Hj. unfold entry_at. simpl. apply zget_zset; [rewrite (table_len t Hok)|]; lia. Qed.

Lemma set_entry_ok t i e : table_ok t -> table_ok (set_entry t i e).
Proof. intros [L H]. split; simpl; [by rewrite zlen_zset|done]. Qed.

(** The slot [create_scan] looks at in its [i]-th turn. *)
Definition probe (t : handle_table_t) (i : Z) : Z := u32 (next_hint t + i) mod HANDLE_MAX.

Lemma probe_eq t i : table_ok t -> 0 <= i < HANDLE_MAX -> probe t i = (next_hint t + i) mod HANDLE_MAX.
Proof.
  intros Hok Hi. pose proof (table_hint t Hok). unfold probe, HANDLE_MAX in *.
  rewrite u32_small by lia. done.
Qed.

Lemma create_scan_spec t n i :
  match create_scan t n i with
  | Some idx => exists j, i <= j < i + Z.of_nat n /\ idx = probe t j /\ used (entry_at t idx) = false /\
                forall k, i <= k < j -> used (entry_at t (probe t k)) = true
  | None => forall k, i <= k < i + Z.of_nat n -> used (entry_at t (probe t k)) = true
  end.
Proof.
  revert i. induction n as [|n IH]; intros i; simpl; [lia|].
  change (u32 (next_hint t + i) mod HANDLE_MAX) with (probe t i).
  destruct (used (entry_at t (probe t i))) eqn:Hu.
  - specialize (IH (i + 1)). destruct (create_scan t n (i + 1)) as [idx|].
    + destruct IH as (j & Hj & -> & Hf & Hall). exists j.
      split; [lia|]. split; [done|]. split; [done|].
      intros k Hk. destruct (decide (k = i)) as [->|]; [done|]. apply Hall. lia.
    + intros k Hk. destruct (decide (k = i)) as [->|]; [done|]. apply IH. lia.
  - exists i. split; [lia|]. split; [done|]. split; [done|lia].
Qed.

(** Every slot is probed. *)
Lemma probe_onto t s :
  table_ok t -> 0 <= s < HANDLE_MAX -> exists j, 0 <= j < HANDLE_MAX /\ probe t j = s.
Proof.
  intros Hok Hs. pose proof (table_hint t Hok) as Hh.
  exists ((s - next_hint t) mod HANDLE_MAX).
  pose proof (Z.mod_pos_bound (s - next_hint t) HANDLE_MAX eq_refl).
  split; [lia|]. rewrite probe_eq by done. rewrite Zplus_mod_idemp_r.
  replace (next_hint t + (s - next_hint t)) with s by lia. apply Z.mod_small. lia.
Qed.

Definition full (t : handle_table_t) : Prop :=
  forall i, 0 <= i < HANDLE_MAX -> used (entry_at t i) = true.

Lemma create_cases t kd rg obj ow :
  table_ok t ->
  (full t /\ handle_create_ex t kd rg obj ow = (HANDLE_INVALID, t)) \/
  (exists idx, 0 <= idx < HANDLE_MAX /\ used (entry_at t idx) = false /\
     handle_create_ex t kd rg obj ow =
       (idx, MkTable (zset (entries t) idx (MkEntry kd rg obj 1 (if ow then 1 else 0)))
                     ((idx + 1) mod HANDLE_MAX))).
Proof.
  intros Hok. unfold handle_create_ex. pose proof (create_scan_spec t (Z.to_nat HANDLE_MAX) 0) as H.
  destruct (create_scan t (Z.to_nat HANDLE_MAX) 0) as [idx|].
  - right. destruct H as (j & Hj & -> & Hf & _). exists (probe t j).
    split; [apply Z.mod_pos_bound; done|]. split; done.
  - left. split; [|done]. intros i Hi. destruct (probe_onto t i Hok Hi) as (j & Hj & <-).
    apply H. change (Z.of_nat (Z.to_nat HANDLE_MAX)) with HANDLE_MAX. lia.
Qed.

Lemma handle_create_ok t kd rg obj ow h t' :
  table_ok t -> handle_create_ex t kd rg obj ow = (h, t') -> table_ok t'.
Proof.
  intros Hok E. destruct (create_cases t kd rg obj ow Hok) as [[_ E']|(idx & Hi & _ & E')];
    rewrite E' in E; injection E as <- <-; [done|].
  split; simpl; [rewrite zlen_zset; apply Hok|apply Z.mod_pos_bound; done].
Qed.

Lemma has_free_slot_spec t :
  handle_table_has_free_slot t = true <-> ~ full t.
Proof.
  unfold handle_table_has_free_slot. destruct (existsb _ _) eqn:E.
  - split; [|done]. intros _ Hf. apply existsb_exists in E as (i & Hi%list_elem_of_In%elem_of_seqZ & Hn).
    rewrite Hf in Hn; [done|lia].
  - split; [done|]. intros Hn. exfalso. apply Hn. intros i Hi.
    destruct (used (entry_at t i)) eqn:Hu; [done|].
    apply not_true_iff_false in E. exfalso. apply E, existsb_exists.
    exists i. rewrite <- list_elem_of_In, elem_of_seqZ, Hu. split; [lia|done].
Qed.

(** ** Ownership accounting *)

(** The owned object of an entry, as a list of at most one element. *)
Definition owned_of (e : handle_entry_t) : list (Z * Z) :=
  if used e && owns e then [(kind e, object e)] else [].

Definition owned_list (t : handle_table_t) : list (Z * Z) :=
  concat (owned_of <$> entries t).

Lemma owned_list_set t i e :
  table_ok t -> 0 <= i < HANDLE_MAX ->
  owned_of (entry_at t i) ++ owned_list (set_entry t i e) ≡ₚ owned_of e ++ owned_list t.
Proof.
  intros Hok Hi. pose proof (table_len t Hok) as Hl. unfold owned_list, set_entry, entry_at, zlen in *.
  cbn [entries]. unfold zset. rewrite (proj2 (Z.ltb_ge i 0)) by lia.
  destruct (lookup_lt_is_Some_2 (entries t) (Z.to_nat i)) as [o Ho]; [unfold HANDLE_MAX in *; lia|].
  rewrite zget_lookup, Ho by lia. simpl.
  rewrite insert_take_drop by (eapply lookup_lt_Some; eauto).
  rewrite <- (take_drop_middle _ _ _ Ho) at 3.
  rewrite !fmap_app, !fmap_cons, !concat_app, !concat_cons.
  rewrite !(Permutation_app_comm (concat (owned_of <$> take (Z.to_nat i) (entries t)))).
  rewrite <- !app_assoc. rewrite !app_assoc.
  by rewrite (Permutation_app_comm (owned_of o) (owned_of e)).
Qed.

Definition log_release : option (Z -> Z -> list (Z * Z) -> list (Z * Z)) :=
  Some (fun k o w => w ++ [(k, o)]).

Lemma log_release_entry e w : used e = true -> release_entry log_release e w = w ++ owned_of e.
Proof.
  intros Hu. unfold release_entry, owned_of. simpl. rewrite Hu. simpl.
  destruct (owns e); [done|]. by rewrite app_nil_r.
Qed.

Lemma owned_of_free e : used e = false -> owned_of e = [].
Proof. unfold owned_of. by intros ->. Qed.

(** The operations of a process on its table, with what they created and
    disowned recorded beside the table and the log of releases. *)
Inductive hop :=
| HCreate (kd rg obj : Z) (ow : bool)
| HClose (h : Z)
| HDisown (h : Z).

Record hstate := MkH {
  h_table : handle_table_t;
  h_released : list (Z * Z);
  h_created : list (Z * Z);
  h_disowned : list (Z * Z) }.

Definition hstep (s : hstate) (op : hop) : hstate :=
  match op with
  | HCreate kd rg obj ow =>
    let '(h, t') := handle_create_ex (h_table s) kd rg obj ow in
    MkH t' (h_released s)
        (if (h =? HANDLE_INVALID) || negb ow then h_created s else h_created s ++ [(kd, obj)])
        (h_disowned s)
  | HClose h =>
    let '(_, t', w') := handle_close log_release (h_table s) h (h_released s) in
    MkH t' w' (h_created s) (h_disowned s)
  | HDisown h =>
    let '(ok, t') := handle_disown (h_table s) h in
    MkH t' (h_released s) (h_created s)
        (if ok then h_disowned s ++ owned_of (entry_at (h_table s) h) else h_disowned s)
  end.

Definition hinit : hstate := MkH handle_table_init [] [] [].

Definition op_ok (op : hop) : Prop :=
  match op with HCreate _ _ _ _ => True | HClose h | HDisown h => 0 <= h end.

Record hinv (s : hstate) : Prop := {
  hinv_ok : table_ok (h_table s);
  hinv_acc : h_created s ≡ₚ h_released s ++ h_disowned s ++ owned_list (h_table s) }.

Lemma hinit_inv : hinv hinit.
Proof. by split. Qed.

Lemma hstep_inv s op : hinv s -> op_ok op -> hinv (hstep s op).
Proof.
  intros [Hok Hacc] Hop. destruct op as [kd rg obj ow|h|h]; simpl in *.
  - destruct (create_cases (h_table s) kd rg obj ow Hok) as [[_ E]|(idx & Hi & Hu & E)];
      rewrite E; [by rewrite Z.eqb_refl|].
    rewrite (proj2 (Z.eqb_neq idx HANDLE_INVALID)) by (unfold HANDLE_MAX, HANDLE_INVALID in *; lia).
    split; simpl; [by eapply handle_create_ok|].
    set (e := MkEntry kd rg obj 1 (if ow then 1 else 0)).
    pose proof (owned_list_set (h_table s) idx e Hok Hi) as P. rewrite (owned_of_free _ Hu) in P.
    unfold owned_list at 1 in P. simpl in P. unfold owned_list at 1. simpl. fold e. rewrite P.
    destruct ow; simpl; [|done]. rewrite Hacc. change (owned_of e) with [(kd, obj)]. solve_Permutation.
  - unfold handle_close. zif; [done|]. zif; [done|]. cbv beta iota zeta.
    pose proof (owned_list_set _ h free_entry Hok ltac:(lia)) as P. simpl app in P.
    split; cbn [h_table h_released h_created h_disowned]; [by apply set_entry_ok|].
    rewrite log_release_entry by done. rewrite Hacc, <- P. solve_Permutation.
  - unfold handle_disown. zif; [done|]. zif; [done|].
    split; simpl; [by apply set_entry_ok|]. rewrite Hacc. f_equiv. rewrite <- app_assoc. f_equiv.
    rewrite (owned_list_set _ h _ Hok) by lia.
    unfold owned_of at 1. simpl. by rewrite andb_false_r.
Qed.

(** The loop of [handle_table_destroy] up to [i]. *)
Lemma destroy_loop t w (n : nat) :
  table_ok t -> Z.of_nat n <= HANDLE_MAX ->
  let '(t', w') := foldl (destroy_step log_release) (t, w) (seqZ 0 (Z.of_nat n)) in
  table_ok t' /\ w' ++ owned_list t' ≡ₚ w ++ owned_list t /\
  forall i, 0 <= i < Z.of_nat n -> used (entry_at t' i) = false.
Proof.
  intros Hok. induction n as [|n IH]; intros Hn; [split; [done|split; [done|lia]]|].
  rewrite Nat2Z.inj_succ, <- Z.add_1_r, seqZ_snoc, foldl_app by lia. cbn [foldl].
  destruct (foldl _ _ _) as [t' w'] eqn:E. destruct IH as (Hok' & Hacc & Hf); [lia|].
  unfold destroy_step.
  destruct (used (entry_at t' (Z.of_nat n))) eqn:Hu; cbn [negb].
  - split; [by apply set_entry_ok|]. split.
    + rewrite log_release_entry, <- app_assoc by done. rewrite owned_list_set by (done || lia). done.
    + intros i Hi. rewrite entry_at_set by (done || lia). zif; [done|]. apply Hf. lia.
  - split; [done|]. split; [done|]. intros i Hi.
    destruct (decide (i = Z.of_nat n)) as [->|]; [done|]. apply Hf. lia.
Qed.

Lemma owned_list_empty t :
  table_ok t -> (forall i, 0 <= i < HANDLE_MAX -> used (entry_at t i) = false) -> owned_list t = [].
Proof.
  intros Hok Hf. unfold owned_list. pose proof (table_len t Hok) as Hl. unfold zlen in Hl.
  apply concat_nil_Forall, Forall_fmap, Forall_lookup. intros i e He. simpl.
  apply owned_of_free. specialize (Hf (Z.of_nat i)). unfold entry_at in Hf.
  rewrite zget_lookup, Nat2Z.id, He in Hf by lia. apply Hf.
  apply lookup_lt_Some in He. lia.
Qed.

(** ** Properties *)

(** Creating a handle fails (with [HANDLE_INVALID], table unchanged) exactly
    when the table is full; otherwise the new handle is a formerly free slot,
    looking it up succeeds for exactly the rights it was given and returns its
    object, and every other handle of the table looks up as before. *)
Theorem handle_create_correct t kd rg obj ow h t' :
  table_ok t -> handle_create_ex t kd rg obj ow = (h, t') ->
  (full t /\ h = HANDLE_INVALID /\ t' = t) \/
  (~ full t /\ 0 <= h < HANDLE_MAX /\ used (entry_at t h) = false /\ table_ok t' /\
   (forall req, handle_lookup_full t' h req =
                if Z.land rg req =? req then Some (obj, kd, rg) else None) /\
   (forall h' req, 0 <= h' -> h' <> h -> handle_lookup_full t' h' req = handle_lookup_full t h' req)).
Proof.
  intros Hok E. pose proof (handle_create_ok _ _ _ _ _ _ _ Hok E) as Hok'.
  destruct (create_cases t kd rg obj ow Hok) as [[Hf E']|(idx & Hi & Hu & E')];
    rewrite E' in E; injection E as <- <-; [by left|right].
  assert (forall j, 0 <= j -> entry_at (MkTable (zset (entries t) idx (MkEntry kd rg obj 1 (if ow then 1 else 0)))
            ((idx + 1) mod HANDLE_MAX)) j = if idx =? j then MkEntry kd rg obj 1 (if ow then 1 else 0)
            else entry_at t j) as G by (intros; by apply (entry_at_set t)).
  split_and!; try (done || lia); [intros Hf; by rewrite Hf in Hu| |].
  - intros req. unfold handle_lookup_full. rewrite G, Z.eqb_refl by lia. simpl.
    rewrite (proj2 (Z.leb_gt _ _)) by lia. by destruct (Z.land rg req =? req).
  - intros h' req Hh' Hne. unfold handle_lookup_full. by rewrite G, (proj2 (Z.eqb_neq idx h')) by lia.
Qed.

Lemma handle_create_correct_witness :
  let t := handle_table_init in
  let '(h, t') := handle_create_ex t HANDLE_KIND_CHANNEL 3 4096 true in
  h = 0 /\ handle_lookup_full t' 0 2 = Some (4096, HANDLE_KIND_CHANNEL, 3) /\
  handle_lookup_full t' 0 4 = None.
Proof.
  pose proof (handle_create_correct handle_table_init HANDLE_KIND_CHANNEL 3 4096 true 0 _ table_init_ok eq_refl) as H.
  destruct H as [[Hf _]|(_ & _ & _ & _ & H & _)].
  - specialize (Hf 0 ltac:(unfold HANDLE_MAX; lia)). discriminate Hf.
  - simpl. split; [reflexivity|]. split; [exact (H 2)|exact (H 4)].
Defined.

(** [handle_close] succeeds exactly on an open handle; it then calls the
    release callback once if the handle owned its object (and not otherwise),
    no lookup through the handle succeeds afterwards, every other handle is
    untouched; a second close fails and changes nothing. *)
Theorem handle_close_correct {W} (f : Z -> Z -> W -> W) t h w :
  table_ok t -> 0 <= h ->
  let '(ok, t', w') := handle_close (Some f) t h w in
  (ok = true <-> h < HANDLE_MAX /\ used (entry_at t h) = true) /\
  (ok = false -> t' = t /\ w' = w) /\
  (ok = true ->
     w' = (if owns (entry_at t h) then f (kind (entry_at t h)) (object (entry_at t h)) w else w) /\
     (forall req, handle_lookup_full t' h req = None) /\
     (forall h' req, 0 <= h' -> h' <> h -> handle_lookup_full t' h' req = handle_lookup_full t h' req) /\
     handle_close (Some f) t' h w' = (false, t', w')).
Proof.
  intros Hok Hh. unfold handle_close. zif; [split; [split; [done|lia]|done]|].
  destruct (used (entry_at t h)) eqn:Hu; simpl; [|split; [split; [done|by intros [_ ?]]|done]].
  split; [done|]. split; [done|]. intros _.
  assert (forall j, 0 <= j -> entry_at (set_entry t h free_entry) j =
            if h =? j then free_entry else entry_at t j) as G by (intros; by apply entry_at_set).
  split; [done|]. split; [|split].
  - intros req. unfold handle_lookup_full. rewrite G, Z.eqb_refl by lia. by zif.
  - intros h' req Hh' Hne. unfold handle_lookup_full. by rewrite G, (proj2 (Z.eqb_neq h h')) by lia.
  - rewrite G, Z.eqb_refl by lia. done.
Qed.

Definition demo_table : handle_table_t :=
  snd (handle_create_ex handle_table_init HANDLE_KIND_CHANNEL 3 4096 true).

Lemma demo_table_ok : table_ok demo_table.
Proof. by eapply handle_create_ok; [apply table_init_ok|]. Qed.

Lemma handle_close_correct_witness :
  handle_close log_release demo_table 0 [] = (true, snd (fst (handle_close log_release demo_table 0 [])),
                                              [(HANDLE_KIND_CHANNEL, 4096)]) /\
  handle_lookup_full (snd (fst (handle_close log_release demo_table 0 []))) 0 0 = None.
Proof.
  split; [reflexivity|].
  pose proof (handle_close_correct (fun k o w => w ++ [(k, o)]) demo_table 0 [] demo_table_ok ltac:(lia)) as H.
  simpl in H. destruct H as (_ & _ & H). destruct (H eq_refl) as (_ & H' & _). exact (H' 0).
Defined.

(** C21: over every sequence of creations, closes and disowns, the owning
    creations are, as a multiset, exactly the released objects, the disowned
    ones and those still owned by the table: nothing is released twice or lost.
    Destroying the table then releases exactly the rest and leaves it empty. *)
Theorem handle_ownership ops :
  Forall op_ok ops ->
  let s := foldl hstep hinit ops in
  let '(t', released') := handle_table_destroy log_release (h_table s) (h_released s) in
  h_created s ≡ₚ h_released s ++ h_disowned s ++ owned_list (h_table s) /\
  h_created s ≡ₚ released' ++ h_disowned s /\
  (forall i, 0 <= i < HANDLE_MAX -> used (entry_at t' i) = false) /\ table_ok t'.
Proof.
  intros Hops s.
  assert (hinv s) as [Hok Hacc].
  { apply foldl_inv; [apply hinit_inv|]. intros a op Hop Ha. apply hstep_inv; [done|].
    by eapply Forall_forall in Hops. }
  clearbody s. unfold handle_table_destroy. pose proof (destroy_loop (h_table s) (h_released s) 64 Hok) as D.
  change (Z.of_nat 64) with HANDLE_MAX in D. specialize (D ltac:(lia)).
  destruct (foldl _ _ _) as [t' w']. destruct D as (Hok' & Hacc' & Hf).
  rewrite (owned_list_empty t' Hok' Hf), app_nil_r in Hacc'.
  split; [done|]. split; [|split; [exact Hf|split; [apply Hok'|done]]].
  rewrite Hacc, Hacc', <- app_assoc. f_equiv. apply Permutation_app_comm.
Qed.

Lemma handle_ownership_witness :
  let ops := [HCreate 2 15 100 true; HCreate 3 1 200 true; HCreate 2 8 300 false; HDisown 0; HClose 0; HClose 2] in
  let s := foldl hstep hinit ops in
  snd (handle_table_destroy log_release (h_table s) (h_released s)) = [(3, 200)] /\
  h_created s ≡ₚ h_released s ++ h_disowned s ++ owned_list (h_table s).
Proof.
  intros ops s. split; [vm_compute; reflexivity|].
  pose proof (handle_ownership ops) as H. specialize (H ltac:(repeat constructor; simpl; lia)).
  cbv zeta in H. fold s in H.
  destruct (handle_table_destroy log_release (h_table s) (h_released s)) as [t' r]. exact (proj1 H).
Defined.
