(* ===== verification/Sched.v ===== *)
(** * Threads, wait queues and the scheduler

    [thread.h], [waitq.h], [sched.c] and [thread.c].  Threads live in a store
    indexed by address; the ready queue, the zombie list and every wait queue
    are threaded through their [next] and [wait_next] fields as in the source.
    A step of the model is one section run with interrupts off, ending where
    [sched_schedule] has switched to another thread. *)
From S2P Require Import Prelude Queue Iface.

Inductive thread_state_t := THREAD_READY | THREAD_RUNNING | THREAD_BLOCKED | THREAD_DEAD.

#[export] Instance thread_state_eq_dec : EqDecision thread_state_t.
Proof. solve_decision. Defined.

Record thread := MkThread {
  t_rsp : Z;
  t_state : thread_state_t;
  t_id : Z;
  t_ticks_used : Z;
  t_stack_base : Z;
  t_stack_size : Z;
  t_kernel_stack_top : Z;
  t_space : Z;
  t_process : Z;
  t_entry : Z;
  t_arg : Z;
  t_next : Z;
  t_wait_next : Z;
  t_name : Z;
  (** The saved context returns into [sched_schedule] (true) or, for a thread
      that never ran, into [thread_trampoline] (false). *)
  t_started : bool }.

Definition set_state (v : thread_state_t) (t : thread) : thread :=
  MkThread (t_rsp t) v (t_id t) (t_ticks_used t) (t_stack_base t) (t_stack_size t) (t_kernel_stack_top t)
    (t_space t) (t_process t) (t_entry t) (t_arg t) (t_next t) (t_wait_next t) (t_name t) (t_started t).
Definition set_ticks (v : Z) (t : thread) : thread :=
  MkThread (t_rsp t) (t_state t) (t_id t) v (t_stack_base t) (t_stack_size t) (t_kernel_stack_top t)
    (t_space t) (t_process t) (t_entry t) (t_arg t) (t_next t) (t_wait_next t) (t_name t) (t_started t).
Definition set_next (v : Z) (t : thread) : thread :=
  MkThread (t_rsp t) (t_state t) (t_id t) (t_ticks_used t) (t_stack_base t) (t_stack_size t) (t_kernel_stack_top t)
    (t_space t) (t_process t) (t_entry t) (t_arg t) v (t_wait_next t) (t_name t) (t_started t).
Definition set_wait_next (v : Z) (t : thread) : thread :=
  MkThread (t_rsp t) (t_state t) (t_id t) (t_ticks_used t) (t_stack_base t) (t_stack_size t) (t_kernel_stack_top t)
    (t_space t) (t_process t) (t_entry t) (t_arg t) (t_next t) v (t_name t) (t_started t).
Definition set_started (v : bool) (t : thread) : thread :=
  MkThread (t_rsp t) (t_state t) (t_id t) (t_ticks_used t) (t_stack_base t) (t_stack_size t) (t_kernel_stack_top t)
    (t_space t) (t_process t) (t_entry t) (t_arg t) (t_next t) (t_wait_next t) (t_name t) v.
Definition set_space (v : Z) (t : thread) : thread :=
  MkThread (t_rsp t) (t_state t) (t_id t) (t_ticks_used t) (t_stack_base t) (t_stack_size t) (t_kernel_stack_top t)
    v (t_process t) (t_entry t) (t_arg t) (t_next t) (t_wait_next t) (t_name t) (t_started t).

(** ** waitq.h *)

Abbreviation waitq_t := queue.

Definition waitq_init : waitq_t := q_empty.
Definition waitq_empty (q : waitq_t) : bool := q_head q =? 0.
Definition waitq_push (q : waitq_t) (t : Z) (m : gmap Z thread) : waitq_t * gmap Z thread :=
  q_push set_wait_next q t m.
Definition waitq_pop (q : waitq_t) (m : gmap Z thread) : Z * waitq_t * gmap Z thread :=
  q_pop t_wait_next set_wait_next q m.

(** ** sched.c *)

Definition SCHED_QUANTUM_TICKS : Z := 5.

Record sched := MkSched {
  threads : gmap Z thread;
  ready : queue;
  current : Z;
  ready_count : Z;
  need_resched : Z;
  zombies : queue;
  (** Arch state the scheduler programs: TSS.RSP0 and the loaded space. *)
  kernel_stack : Z;
  loaded_space : Z }.

Definition set_threads (s : sched) (m : gmap Z thread) : sched :=
  MkSched m (ready s) (current s) (ready_count s) (need_resched s) (zombies s)
    (kernel_stack s) (loaded_space s).

Definition upd (s : sched) (t : Z) (f : thread -> thread) : sched :=
  set_threads s (alter f t (threads s)).

(** The thread at an address, or [None] for an address that holds no thread. *)
Definition thread_at (s : sched) (t : Z) : option thread := threads s !! t.

Definition state_of (s : sched) (t : Z) : option thread_state_t := t_state <$> thread_at s t.

Definition boot_thread (kstack kspace : Z) : thread :=
  MkThread 0 THREAD_RUNNING 0 0 0 0 kstack kspace 0 0 0 0 0 0 true.

Definition sched_init (boot kstack kspace : Z) (m : gmap Z thread) : sched :=
  MkSched (<[boot := boot_thread kstack kspace]> m) q_empty boot 0 0 q_empty kstack kspace.

Definition thread_current (s : sched) : Z := current s.

Definition sched_enqueue (t : Z) (s : sched) : sched :=
  let '(q, m) := q_push set_next (ready s) t (threads s) in
  MkSched m q (current s) (ready_count s + 1) (need_resched s) (zombies s)
    (kernel_stack s) (loaded_space s).

Definition ready_dequeue (s : sched) : Z * sched :=
  let '(t, q, m) := q_pop t_next set_next (ready s) (threads s) in
  if t =? 0 then (0, s)
  else (t, MkSched m q (current s) (ready_count s - 1) (need_resched s) (zombies s)
             (kernel_stack s) (loaded_space s)).

Definition sched_ready_count (s : sched) : Z := ready_count s.

Definition zombie_push (t : Z) (s : sched) : sched :=
  let '(q, m) := q_push set_next (zombies s) t (threads s) in
  MkSched m (ready s) (current s) (ready_count s) (need_resched s) q
    (kernel_stack s) (loaded_space s).

(** [reap_zombies]: walk the detached list, freeing each thread.  The result
    lists the threads given to [free_thread], in order; [free_thread] ends in
    [exy_free(t)], so the thread leaves the store. *)
Fixpoint reap_loop (fuel : nat) (z : Z) (m : gmap Z thread) : list Z * gmap Z thread :=
  match fuel with
  | O => ([], m)
  | S fuel =>
    if z =? 0 then ([], m)
    else
      let nxt := match m !! z with Some t => t_next t | None => 0 end in
      let '(l, m') := reap_loop fuel nxt (delete z m) in
      (z :: l, m')
  end.

Definition reap_zombies (s : sched) : list Z * sched :=
  let '(l, m) := reap_loop (S (size (threads s))) (q_head (zombies s)) (threads s) in
  (l, MkSched m (ready s) (current s) (ready_count s) (need_resched s) q_empty
        (kernel_stack s) (loaded_space s)).

(** [sched_schedule]; [None] is the panic "no runnable thread".  The list is
    what the resumed thread reaps on its way out of [sched_schedule]. *)
Definition sched_schedule (s : sched) : option (list Z * sched) :=
  let prev := current s in
  let '(nxt, s1) := ready_dequeue s in
  if nxt =? 0 then
    if decide (state_of s prev = Some THREAD_RUNNING) then Some ([], s) else None
  else
    let s2 := if decide (state_of s1 prev = Some THREAD_RUNNING)
              then sched_enqueue prev (upd s1 prev (set_state THREAD_READY)) else s1 in
    let s3 := upd s2 nxt (fun t => set_ticks 0 (set_state THREAD_RUNNING t)) in
    let kst := match thread_at s3 nxt with Some t => t_kernel_stack_top t | None => 0 end in
    let nsp := match thread_at s3 nxt with Some t => t_space t | None => 0 end in
    let psp := match thread_at s3 prev with Some t => t_space t | None => 0 end in
    let resumes := match thread_at s3 nxt with Some t => t_started t | None => false end in
    let s4 := MkSched (alter (set_started true) prev (threads s3)) (ready s3) nxt (ready_count s3)
                (need_resched s3) (zombies s3) kst
                (if nsp =? psp then loaded_space s3 else nsp) in
    if resumes then Some (reap_zombies s4) else Some ([], s4).

Definition sched_yield (s : sched) : option (list Z * sched) :=
  if q_head (ready s) =? 0 then Some ([], s) else sched_schedule s.

Definition sched_tick (s : sched) : sched :=
  if current s =? 0 then s
  else
    let t := match thread_at s (current s) with Some t => u32 (t_ticks_used t + 1) | None => 0 end in
    if SCHED_QUANTUM_TICKS <=? t then
      let s1 := upd s (current s) (set_ticks 0) in
      if q_head (ready s1) =? 0 then s1
      else MkSched (threads s1) (ready s1) (current s1) (ready_count s1) 1 (zombies s1)
             (kernel_stack s1) (loaded_space s1)
    else upd s (current s) (set_ticks t).

Definition sched_preempt_point (s : sched) : option (list Z * sched) :=
  if need_resched s =? 0 then Some ([], s)
  else sched_schedule (MkSched (threads s) (ready s) (current s) (ready_count s) 0 (zombies s)
                         (kernel_stack s) (loaded_space s)).

(** Never returns to its caller: the result is the state of the next thread. *)
Definition thread_exit (s : sched) : option (list Z * sched) :=
  let s1 := upd s (current s) (set_state THREAD_DEAD) in
  sched_schedule (zombie_push (current s1) s1).

Definition sched_block (s : sched) : option (list Z * sched) :=
  sched_schedule (upd s (current s) (set_state THREAD_BLOCKED)).

Definition sched_unblock (t : Z) (s : sched) : sched :=
  if decide (state_of s t = Some THREAD_BLOCKED)
  then sched_enqueue t (upd s t (set_state THREAD_READY)) else s.

(** ** thread.c *)

Definition THREAD_STACK_SIZE : Z := 16 * 1024.
Definition sizeof_thread_t : Z := 112.
Definition sizeof_initial_frame : Z := 56.

Section thread_create.
Context {H : Type} `{KHeap H}.

(** [next_thread_id] is threaded explicitly; [None] is a panic of [exy_free]. *)
Definition thread_create (fn ar nm kspace : Z) (s : sched) (next_thread_id : Z) (h : H)
  : option (Z * sched * Z * H) :=
  if fn =? 0 then Some (0, s, next_thread_id, h)
  else
    let '(t, h1) := exy_zalloc sizeof_thread_t h in
    if t =? 0 then Some (0, s, next_thread_id, h1)
    else
      let '(stack, h2) := exy_malloc THREAD_STACK_SIZE h1 in
      if stack =? 0 then
        match exy_free t h2 with
        | Some h3 => Some (0, s, next_thread_id, h3)
        | None => None
        end
      else
        let top := u64 (stack + THREAD_STACK_SIZE) in
        let th := MkThread (u64 (top - sizeof_initial_frame)) THREAD_READY next_thread_id 0
                    stack THREAD_STACK_SIZE top kspace 0 fn ar 0 0 nm false in
        let s1 := set_threads s (<[t := th]> (threads s)) in
        Some (t, sched_enqueue t s1, u64 (next_thread_id + 1), h2).

Definition thread_create_ex (fn ar nm kspace sp : Z) (s : sched) (next_thread_id : Z) (h : H)
  : option (Z * sched * Z * H) :=
  match thread_create fn ar nm kspace s next_thread_id h with
  | Some (t, s', n, h') => Some (t, if t =? 0 then s' else upd s' t (set_space sp), n, h')
  | None => None
  end.
End thread_create.

(** ** What a section with interrupts off may do to the threads

    [transf m m' g]: every thread of [m] is still there, with its state changed
    by [g] and nothing else but the queue link and the tick count touched. *)

Definition norm (t : thread) : thread :=
  set_next 0 (set_state THREAD_READY (set_ticks 0 t)).

Definition transf (m m' : gmap Z thread) (g : Z -> thread_state_t -> thread_state_t) : Prop :=
  forall y, exists f, m' !! y = f <$> m !! y /\
    (forall th, norm (f th) = norm th) /\ (forall th, t_state (f th) = g y (t_state th)).

Definition keep : Z -> thread_state_t -> thread_state_t := fun _ st => st.
Definition put (x : Z) (v : thread_state_t) : Z -> thread_state_t -> thread_state_t :=
  fun y st => if decide (y = x) then v else st.

Lemma transf_trans m1 m2 m3 g h :
  transf m1 m2 g -> transf m2 m3 h -> transf m1 m3 (fun y st => h y (g y st)).
Proof.
  intros H1 H2 y. destruct (H1 y) as (f1 & E1 & N1 & S1), (H2 y) as (f2 & E2 & N2 & S2).
  exists (f2 ∘ f1). split; [|split].
  - rewrite E2, E1. by destruct (m1 !! y).
  - intros th. simpl. by rewrite N2, N1.
  - intros th. simpl. by rewrite S2, S1.
Qed.

Lemma transf_alter m x f v :
  (forall th, norm (f th) = norm th) -> (forall th, t_state (f th) = v (t_state th)) ->
  transf m (alter f x m) (fun y st => if decide (y = x) then v st else st).
Proof.
  intros Hn Hs y. destruct (decide (y = x)) as [->|].
  - exists f. by rewrite lookup_alter_eq.
  - exists (fun th => th). rewrite lookup_alter_ne by done. by destruct (m !! y).
Qed.

Lemma transf_relinked m m' : relinked set_next m m' -> transf m m' keep.
Proof. intros H y. destruct (H y) as [z E]. by exists (set_next z). Qed.

Lemma transf_ext m m' g h : transf m m' g -> (forall y st, g y st = h y st) -> transf m m' h.
Proof.
  intros H E y. destruct (H y) as (f & E1 & N & S). exists f. split; [done|]. split; [done|].
  intros th. by rewrite S, E.
Qed.

Lemma transf_is_Some m m' g y : transf m m' g -> is_Some (m' !! y) <-> is_Some (m !! y).
Proof. intros H. destruct (H y) as (f & -> & _). by rewrite fmap_is_Some. Qed.

Lemma transf_lookup m m' g y th' :
  transf m m' g -> m' !! y = Some th' ->
  exists th, m !! y = Some th /\ norm th' = norm th /\ t_state th' = g y (t_state th).
Proof.
  intros H E. destruct (H y) as (f & Ef & N & S). rewrite E in Ef.
  destruct (m !! y) as [th|]; simplify_eq/=. eauto.
Qed.

(** ** The scheduler's invariant

    [rl] is the ready list and [zl] the zombie list the pointers stand for. *)

Record queued (s : sched) (rl zl : list Z) : Prop := {
  qd_nz t : is_Some (threads s !! t) -> t <> 0;
  qd_ready : qrep t_next (threads s) (ready s) rl;
  qd_zomb : qrep t_next (threads s) (zombies s) zl;
  qd_count : ready_count s = zlen rl;
  qd_cur : is_Some (threads s !! current s);
  qd_states t th : threads s !! t = Some th ->
    (t ∈ rl <-> t_state th = THREAD_READY) /\ (t ∈ zl <-> t_state th = THREAD_DEAD) /\
    (t_state th = THREAD_RUNNING -> t = current s) }.

Definition sched_inv (s : sched) (rl zl : list Z) : Prop :=
  queued s rl zl /\ state_of s (current s) = Some THREAD_RUNNING.

(** The state [sched_schedule] starts from: the current thread may have marked
    itself blocked or dead. *)
Definition sched_pre (s : sched) (rl zl : list Z) : Prop :=
  queued s rl zl /\ state_of s (current s) <> Some THREAD_READY.

Lemma sched_inv_pre s rl zl : sched_inv s rl zl -> sched_pre s rl zl.
Proof. intros [Q H]. split; [done|]. by rewrite H. Qed.

Lemma queued_disjoint s rl zl x : queued s rl zl -> x ∈ rl -> x ∉ zl.
Proof.
  intros Q Hr Hz. destruct (qrep_in _ _ _ _ _ (qd_ready _ _ _ Q) Hr) as [_ [th E]].
  destruct (qd_states _ _ _ Q x th E) as (H1 & H2 & _). apply H1 in Hr. apply H2 in Hz. congruence.
Qed.

Lemma set_next_laws :
  (forall z t, t_next (set_next z t) = z) /\
  (forall z w t, set_next z (set_next w t) = set_next z t) /\
  (forall t, set_next (t_next t) t = t).
Proof. split_and!; [done|done|]. by intros []. Qed.

Lemma sched_enqueue_spec t s rl :
  qrep t_next (threads s) (ready s) rl -> t ∉ rl -> t <> 0 -> is_Some (threads s !! t) ->
  let s' := sched_enqueue t s in
  qrep t_next (threads s') (ready s') (rl ++ [t]) /\
  relinked set_next (threads s) (threads s') /\
  (forall x, x <> t -> x ∉ rl -> threads s' !! x = threads s !! x) /\
  s' = MkSched (threads s') (ready s') (current s) (ready_count s + 1) (need_resched s) (zombies s)
         (kernel_stack s) (loaded_space s).
Proof.
  intros Q Hn Ht Hs. destruct set_next_laws as (L1 & L2 & L3). unfold sched_enqueue.
  destruct (q_push set_next (ready s) t (threads s)) as [q m] eqn:E. simpl.
  destruct (q_push_rep t_next set_next L1 L2 L3 _ _ _ _ _ _ Q Hn Ht Hs E) as (Q' & R & O). done.
Qed.

Lemma ready_dequeue_spec s x rl :
  qrep t_next (threads s) (ready s) (x :: rl) ->
  exists q, ready_dequeue s =
    (x, MkSched (alter (set_next 0) x (threads s)) q (current s) (ready_count s - 1) (need_resched s)
          (zombies s) (kernel_stack s) (loaded_space s)) /\
    qrep t_next (alter (set_next 0) x (threads s)) q rl.
Proof.
  intros Q. destruct (q_pop_rep t_next set_next _ _ _ _ Q) as (q & E & Q').
  exists q. unfold ready_dequeue. rewrite E.
  destruct (qrep_in _ _ _ _ x Q) as [Hx _]; [left|]. by rewrite (proj2 (Z.eqb_neq x 0) Hx).
Qed.

Lemma ready_dequeue_empty s : qrep t_next (threads s) (ready s) [] -> ready_dequeue s = (0, s).
Proof. intros Q. unfold ready_dequeue. by rewrite (q_pop_empty _ _ _ _ Q). Qed.

(** ** reap_zombies *)

Lemma reap_loop_spec l fuel z m :
  linked t_next m z l -> NoDup l -> (length l < fuel)%nat ->
  exists m', reap_loop fuel z m = (l, m') /\
    forall y, m' !! y = if decide (y ∈ l) then None else m !! y.
Proof.
  revert fuel z m. induction l as [|x l IH]; intros fuel z m L D Hf; simpl in *.
  - subst z. destruct fuel; [lia|]. exists m. by simpl.
  - destruct L as (-> & Hx & n & Hn & L). destruct fuel; [lia|]. simpl.
    rewrite (proj2 (Z.eqb_neq x 0) Hx), Hn. apply NoDup_cons in D as [Hxl D].
    destruct (IH fuel (t_next n) (delete x m)) as (m' & E & Hm'); [|done|lia|].
    { eapply linked_ext; [done|]. intros y Hy. rewrite lookup_delete_ne; [done|]. by intros ->. }
    rewrite E. exists m'. split; [done|]. intros y. rewrite Hm'.
    destruct (decide (y ∈ l)); [rewrite decide_True; [done|by right]|].
    destruct (decide (y = x)) as [->|].
    + rewrite lookup_delete_eq, decide_True; [done|left].
    + rewrite lookup_delete_ne by done. rewrite decide_False; [done|]. by rewrite not_elem_of_cons.
Qed.

Lemma qrep_length {N} (link : N -> Z) (m : gmap Z N) q l : qrep link m q l -> (length l <= size m)%nat.
Proof.
  intros Q. rewrite <- size_dom, <- (size_list_to_set (C := gset Z) l) by apply Q.
  apply subseteq_size. intros x Hx%elem_of_list_to_set. apply elem_of_dom.
  by eapply qrep_in.
Qed.

(** The resumed thread reaps the whole zombie list, and no thread of any other
    kind: the current thread and the ready ones stay. *)
Lemma reap_zombies_spec s rl zl :
  sched_inv s rl zl ->
  exists s', reap_zombies s = (zl, s') /\ sched_inv s' rl [] /\ current s' = current s /\
    loaded_space s' = loaded_space s /\ kernel_stack s' = kernel_stack s /\ need_resched s' = need_resched s /\
    forall y, threads s' !! y = if decide (y ∈ zl) then None else threads s !! y.
Proof.
  intros [Q Hrun]. pose proof (qd_zomb _ _ _ Q) as Qz. unfold reap_zombies.
  pose proof (qrep_length _ _ _ _ Qz) as Hlen.
  destruct (reap_loop_spec zl (S (size (threads s))) (q_head (zombies s)) (threads s)) as (m' & E & Hm');
    [apply Qz|apply Qz|lia|].
  rewrite E. eexists. split; [done|]. simpl.
  assert (current s ∉ zl) as Hc.
  { intros Hin. destruct (qd_cur _ _ _ Q) as [th Hth]. unfold state_of, thread_at in Hrun. rewrite Hth in Hrun.
    simpl in Hrun. apply (qd_states _ _ _ Q _ _ Hth) in Hin. congruence. }
  assert (m' !! current s = threads s !! current s) as Ec by by rewrite Hm', decide_False.
  split; [split; [|unfold state_of, thread_at in *; simpl; by rewrite Ec]|done].
  split; simpl; try (apply Q).
  - intros t Ht. apply (qd_nz _ _ _ Q). rewrite Hm' in Ht. destruct (decide (t ∈ zl)); [by destruct Ht|done].
  - eapply qrep_disjoint; [apply Q|]. intros y Hy. rewrite Hm', decide_False; [done|].
    by eapply queued_disjoint.
  - apply qrep_nil.
  - rewrite Ec. apply Q.
  - intros t th Ht. rewrite Hm' in Ht. destruct (decide (t ∈ zl)) as [|Hn]; [done|].
    destruct (qd_states _ _ _ Q _ _ Ht) as (H1 & H2 & H3). split; [done|]. split; [|done].
    split; [by intros ?%not_elem_of_nil|]. intros Hd. by apply H2 in Hd.
Qed.

(** ** sched_schedule *)

Definition running (s : sched) : bool := bool_decide (state_of s (current s) = Some THREAD_RUNNING).
Definition resumes (s : sched) (x : Z) : bool :=
  match threads s !! x with Some th => t_started th | None => false end.

(** How the switch from [prev] to [x] changes the thread states. *)
Definition switch_states (prev x : Z) (run : bool) (y : Z) (st : thread_state_t) : thread_state_t :=
  if decide (y = x) then THREAD_RUNNING
  else if decide (y = prev) then (if run then THREAD_READY else st) else st.

(** After the requeue of [prev] (if it was running). *)
Lemma requeue_spec s x rl zl :
  sched_pre s (x :: rl) zl ->
  let s1 := snd (ready_dequeue s) in
  let s2 := if decide (state_of s1 (current s) = Some THREAD_RUNNING)
            then sched_enqueue (current s) (upd s1 (current s) (set_state THREAD_READY)) else s1 in
  fst (ready_dequeue s) = x /\ x <> current s /\
  qrep t_next (threads s2) (ready s2) (if running s then rl ++ [current s] else rl) /\
  qrep t_next (threads s2) (zombies s2) zl /\
  transf (threads s) (threads s2) (fun y st => if decide (y = current s)
    then (if running s then THREAD_READY else st) else st) /\
  s2 = MkSched (threads s2) (ready s2) (current s)
         (zlen (if running s then rl ++ [current s] else rl)) (need_resched s) (zombies s)
         (kernel_stack s) (loaded_space s).
Proof.
  intros [Q Hst]. pose proof (qd_ready _ _ _ Q) as Qr. pose proof (qd_zomb _ _ _ Q) as Qz.
  destruct (ready_dequeue_spec s x rl Qr) as (q & E & Q1). rewrite E. cbn [fst snd].
  pose proof (qd_count _ _ _ Q) as Hcnt.
  assert (NoDup (x :: rl)) as [Hxl D]%NoDup_cons by apply Qr.
  assert (forall y, y ∈ x :: rl -> state_of s y = Some THREAD_READY) as Hready.
  { intros y Hy. destruct (qrep_in _ _ _ _ y Qr Hy) as [_ [th Hth]]. unfold state_of, thread_at. rewrite Hth.
    simpl. f_equal. by apply (qd_states _ _ _ Q _ _ Hth). }
  assert (x <> current s) as Hx by (intros ->; apply Hst, Hready; left).
  split; [done|]. split; [done|].
  set (s1 := MkSched _ q _ _ _ _ _ _).
  assert (state_of s1 (current s) = state_of s (current s)) as Es.
  { unfold state_of, thread_at. simpl. by rewrite lookup_alter_ne. }
  assert (transf (threads s) (threads s1) keep) as T1.
  { eapply transf_ext; [apply (transf_alter _ x (set_next 0) (fun st => st)); done|].
    intros y st. unfold keep. by destruct (decide (y = x)). }
  assert (qrep t_next (threads s1) (zombies s1) zl) as Qz1.
  { eapply qrep_disjoint; [exact Qz|]. intros y Hy. simpl. rewrite lookup_alter_ne; [done|].
    intros ->. eapply queued_disjoint; [exact Q| |exact Hy]. left. }
  rewrite Es. unfold running. destruct (decide (state_of s (current s) = Some THREAD_RUNNING)) as [Hr|Hr].
  - rewrite bool_decide_eq_true_2 by done.
    set (s1' := upd s1 (current s) (set_state THREAD_READY)).
    assert (current s ∉ x :: rl) as Hc by (intros Hin; apply Hst, Hready, Hin).
    assert (current s ∉ zl) as Hcz.
    { intros Hin. destruct (qrep_in _ _ _ _ _ Qz Hin) as [_ [th Hth]]. unfold state_of, thread_at in Hr.
      rewrite Hth in Hr. simpl in Hr. apply (qd_states _ _ _ Q _ _ Hth) in Hin. congruence. }
    assert (qrep t_next (threads s1') (ready s1') rl) as Q1'.
    { eapply qrep_disjoint; [exact Q1|]. intros y Hy. simpl. rewrite lookup_alter_ne; [done|].
      intros <-. apply Hc. by right. }
    assert (transf (threads s1) (threads s1') (put (current s) THREAD_READY)) as T2.
    { apply (transf_alter _ (current s) (set_state THREAD_READY) (fun _ => THREAD_READY)); done. }
    assert (is_Some (threads s1' !! current s)) as Hcs.
    { rewrite (transf_is_Some _ _ _ _ T2), (transf_is_Some _ _ _ _ T1). apply Q. }
    destruct (sched_enqueue_spec (current s) s1' rl Q1') as (Q2 & R & O & Eq);
      [by apply not_elem_of_cons in Hc as [_ ?]|apply (qd_nz _ _ _ Q), Q|done|].
    split; [done|]. split; [|split].
    + rewrite Eq. cbn [zombies threads]. eapply qrep_disjoint; [exact Qz1|].
      intros y Hy. rewrite O.
      * simpl. rewrite lookup_alter_ne; [done|]. by intros <-.
      * by intros ->.
      * intros Hin. eapply queued_disjoint; [exact Q| |exact Hy]. by right.
    + eapply transf_ext; [eapply transf_trans; [eapply transf_trans; [exact T1|exact T2]|
        by apply transf_relinked]|]. intros y st. unfold keep, put. done.
    + rewrite Eq at 1. simpl. f_equal. rewrite Hcnt, zlen_app. unfold zlen. simpl. lia.
  - rewrite bool_decide_eq_false_2 by done. split; [done|]. split; [done|]. split.
    + eapply transf_ext; [exact T1|]. intros y st. unfold keep. by destruct (decide _).
    + unfold s1. f_equal. rewrite Hcnt. unfold zlen. cbn [length]. lia.
Qed.

(** The state of each thread still says which queue it is on after the switch. *)
Lemma switch_states_ok (prev x t : Z) (rl zl : list Z) run st :
  NoDup (x :: rl) -> x <> prev ->
  (t ∈ x :: rl <-> st = THREAD_READY) -> (t ∈ zl <-> st = THREAD_DEAD) ->
  (st = THREAD_RUNNING -> t = prev) ->
  (t = prev -> run = bool_decide (Some st = Some THREAD_RUNNING) /\ st <> THREAD_READY) ->
  (t ∈ (if run then rl ++ [prev] else rl) <-> switch_states prev x run t st = THREAD_READY) /\
  (t ∈ zl <-> switch_states prev x run t st = THREAD_DEAD) /\
  (switch_states prev x run t st = THREAD_RUNNING -> t = x).
Proof.
  intros [Hxl D]%NoDup_cons Hx H1 H2 H3 H4. unfold switch_states.
  assert (t ∈ (if run then rl ++ [prev] else rl) <-> t ∈ rl \/ run = true /\ t = prev) as ->.
  { destruct run; [rewrite elem_of_app, list_elem_of_singleton|]; naive_solver. }
  rewrite elem_of_cons in H1.
  destruct (decide (t = x)) as [->|Hn].
  { split; [|split; [|done]].
    - split; [|done]. intros [?|[_ ?]]; done.
    - rewrite H2. split; [|done]. intros E. destruct H1 as [H1 _]. rewrite H1 in E by auto. done. }
  destruct (decide (t = prev)) as [->|Hp].
  - destruct (H4 eq_refl) as [-> H5]. destruct st; simpl in *; naive_solver.
  - destruct st, run; simpl in *; naive_solver.
Qed.

Lemma sched_schedule_spec s x rl zl :
  sched_pre s (x :: rl) zl ->
  exists s', sched_schedule s = Some (if resumes s x then zl else [], s') /\
    sched_inv s' (if running s then rl ++ [current s] else rl) (if resumes s x then [] else zl) /\
    current s' = x /\ need_resched s' = need_resched s /\
    exists m, transf (threads s) m (switch_states (current s) x (running s)) /\
      forall y, threads s' !! y = if decide (y ∈ if resumes s x then zl else []) then None
                                  else alter (set_started true) (current s) m !! y.
Proof.
  intros Hpre. pose proof (requeue_spec s x rl zl Hpre) as R. destruct Hpre as [Q Hst].
  destruct (qrep_in _ _ _ _ x (qd_ready _ _ _ Q)) as [Hx0 [tx Htx]]; [left|].
  unfold sched_schedule. destruct (ready_dequeue s) as [nxt s1] eqn:E. cbn [fst snd] in R.
  destruct R as (-> & Hxc & Qr2 & Qz2 & T2 & Eq2). rewrite (proj2 (Z.eqb_neq x 0) Hx0).
  set (s2 := if decide _ then _ else s1) in *. clearbody s2.
  set (s3 := upd s2 x _).
  assert (transf (threads s2) (threads s3) (put x THREAD_RUNNING)) as T3.
  { apply (transf_alter _ x (fun t => set_ticks 0 (set_state THREAD_RUNNING t)) (fun _ => THREAD_RUNNING)); done. }
  assert (transf (threads s) (threads s3) (switch_states (current s) x (running s))) as T23.
  { eapply transf_ext; [eapply transf_trans; [exact T2|exact T3]|]. intros y st.
    unfold put, switch_states. destruct (decide (y = x)); [done|]. by destruct (decide (y = current s)). }
  assert (exists tx3, threads s3 !! x = Some tx3 /\ t_state tx3 = THREAD_RUNNING /\ t_started tx3 = t_started tx)
    as (tx3 & Htx3 & Hst3 & Hres).
  { destruct (T23 x) as (f & Ef & Nf & Sf). rewrite Htx in Ef. exists (f tx). split; [done|]. split.
    - rewrite Sf. unfold switch_states. by rewrite decide_True.
    - apply (f_equal t_started (Nf tx)). }
  assert (thread_at s3 x = Some tx3) as -> by done. rewrite Hres.
  set (s4 := MkSched _ _ x _ _ _ _ _).
  assert (forall y, t_next <$> threads s4 !! y = t_next <$> threads s2 !! y) as Hnext.
  { intros y. cbn [threads s4]. unfold s3, upd. cbn [threads set_threads].
    rewrite !lookup_alter. repeat case_decide; subst; by destruct (threads s2 !! _). }
  assert (state_of s4 x = Some THREAD_RUNNING) as Hrun4.
  { unfold state_of, thread_at. cbn [threads s4]. rewrite lookup_alter_ne by done.
    rewrite Htx3. simpl. by rewrite Hst3. }
  assert (forall y th4, threads s4 !! y = Some th4 -> exists th, threads s !! y = Some th /\
    t_state th4 = switch_states (current s) x (running s) y (t_state th)) as Hst4.
  { intros y th4. cbn [threads s4]. rewrite lookup_alter. case_decide; subst.
    - destruct (threads s3 !! current s) as [t3|] eqn:E3; simpl; [|done]. intros [= <-].
      destruct (transf_lookup _ _ _ _ _ T23 E3) as (th & ? & _ & ?). eauto.
    - intros E3. destruct (transf_lookup _ _ _ _ _ T23 E3) as (th & ? & _ & ?). eauto. }
  assert (sched_inv s4 (if running s then rl ++ [current s] else rl) zl) as Inv4.
  { split; [|done]. split; cbn [threads ready zombies ready_count current s4].
    - intros t [th Ht]. destruct (Hst4 t th Ht) as (th0 & H0 & _). apply (qd_nz _ _ _ Q). by exists th0.
    - eapply qrep_ext; [exact Qr2|]. intros; apply Hnext.
    - eapply qrep_ext; [|intros; apply Hnext]. exact Qz2.
    - unfold s3, upd. cbn [ready_count set_threads]. by rewrite Eq2.
    - rewrite lookup_alter_ne by done. by exists tx3.
    - intros t th4 Ht. destruct (Hst4 t th4 Ht) as (th & Hth & ->).
      destruct (qd_states _ _ _ Q t th Hth) as (H1 & H2 & H3).
      eapply switch_states_ok; eauto; [apply (qd_ready _ _ _ Q)|].
      unfold running, state_of, thread_at. intros ->. rewrite Hth. simpl. split; [done|].
      intros Er. apply Hst. unfold state_of, thread_at. by rewrite Hth, <- Er. }
  unfold resumes. rewrite Htx. destruct (t_started tx).
  - destruct (reap_zombies_spec s4 _ zl Inv4) as (s' & -> & Inv' & Hc & _ & _ & Hn & Hm).
    exists s'. split; [done|]. split; [done|]. split; [done|]. split.
    { rewrite Hn. cbn [need_resched s4]. unfold s3, upd. cbn [need_resched set_threads]. by rewrite Eq2. }
    exists (threads s3). split; [done|]. exact Hm.
  - exists s4. split; [done|]. split; [done|]. split; [done|]. split.
    { cbn [need_resched s4]. unfold s3, upd. cbn [need_resched set_threads]. by rewrite Eq2. }
    exists (threads s3). split; [done|]. intros y. by rewrite decide_False by apply not_elem_of_nil.
Qed.

Lemma sched_schedule_empty s zl :
  sched_pre s [] zl ->
  sched_schedule s = if running s then Some ([], s) else None.
Proof.
  intros [Q _]. unfold sched_schedule. rewrite (ready_dequeue_empty s) by apply Q. simpl.
  unfold running. case_bool_decide; case_decide; done.
Qed.

(** ** Every operation keeps the invariant *)

Lemma state_upd s t f v :
  is_Some (threads s !! t) -> (forall th, t_state (f th) = v) -> state_of (upd s t f) t = Some v.
Proof.
  intros [th E] Hf. unfold state_of, thread_at, upd. cbn [threads set_threads].
  rewrite lookup_alter_eq, E. simpl. by rewrite Hf.
Qed.

(** Changing the state of one thread that is on no queue. *)
Lemma queued_upd s rl zl t f v :
  queued s rl zl -> (forall th, t_next (f th) = t_next th) -> (forall th, t_state (f th) = v) ->
  t ∉ rl -> t ∉ zl -> v <> THREAD_READY -> v <> THREAD_DEAD -> (v = THREAD_RUNNING -> t = current s) ->
  queued (upd s t f) rl zl.
Proof.
  intros Q Hf Hv Hr Hz V1 V2 V3.
  assert (forall y, t_next <$> threads (upd s t f) !! y = t_next <$> threads s !! y) as Hn.
  { intros y. unfold upd. cbn [threads set_threads]. rewrite lookup_alter. case_decide; subst; [|done].
    destruct (threads s !! y); simpl; [by rewrite Hf|done]. }
  split; try apply Q.
  - intros y Hy. apply (qd_nz _ _ _ Q). unfold upd in Hy. cbn [threads set_threads] in Hy.
    by apply lookup_alter_is_Some in Hy.
  - eapply qrep_ext; [apply Q|]. intros; apply Hn.
  - eapply qrep_ext; [apply Q|]. intros; apply Hn.
  - unfold upd. cbn [threads set_threads current]. apply lookup_alter_is_Some, Q.
  - intros y th. unfold upd. cbn [threads set_threads current]. rewrite lookup_alter. case_decide; subst.
    + destruct (threads s !! y) as [t0|] eqn:E; simpl; [|done]. intros [= <-].
      rewrite Hv. destruct (qd_states _ _ _ Q _ _ E) as (H1 & H2 & H3). naive_solver.
    + intros E. apply (qd_states _ _ _ Q _ _ E).
Qed.

(** The running thread is on no queue. *)
Lemma running_unqueued s rl zl : sched_inv s rl zl -> current s ∉ rl /\ current s ∉ zl.
Proof.
  intros [Q Hr]. destruct (qd_cur _ _ _ Q) as [th E]. unfold state_of, thread_at in Hr. rewrite E in Hr.
  destruct (qd_states _ _ _ Q _ _ E) as (H1 & H2 & _). simpl in Hr.
  split; [rewrite H1|rewrite H2]; congruence.
Qed.

Lemma block_pre s rl zl :
  sched_inv s rl zl -> sched_pre (upd s (current s) (set_state THREAD_BLOCKED)) rl zl.
Proof.
  intros I. destruct (running_unqueued _ _ _ I) as [? ?]. destruct I as [Q Hr]. split.
  - apply queued_upd with (v := THREAD_BLOCKED); done.
  - cbn [current upd set_threads]. erewrite (state_upd _ _ _ THREAD_BLOCKED); [done|apply Q|done].
Qed.

Definition exiting (s : sched) : sched :=
  zombie_push (current s) (upd s (current s) (set_state THREAD_DEAD)).

Lemma exit_pre s rl zl :
  sched_inv s rl zl ->
  sched_pre (exiting s) rl (zl ++ [current s]) /\ running (exiting s) = false /\
  current (exiting s) = current s /\ need_resched (exiting s) = need_resched s /\
  transf (threads s) (threads (exiting s)) (put (current s) THREAD_DEAD).
Proof.
  intros I. destruct (running_unqueued _ _ _ I) as [Hnr Hnz]. destruct I as [Q Hr].
  set (s1 := upd s (current s) (set_state THREAD_DEAD)).
  assert (transf (threads s) (threads s1) (put (current s) THREAD_DEAD)) as T1
    by (apply (transf_alter _ (current s) (set_state THREAD_DEAD) (fun _ => THREAD_DEAD)); done).
  assert (forall y, t_next <$> threads s1 !! y = t_next <$> threads s !! y) as Hn.
  { intros y. unfold s1, upd. cbn [threads set_threads]. rewrite lookup_alter. case_decide; subst; [|done].
    by destruct (threads s !! _). }
  assert (qrep t_next (threads s1) (zombies s1) zl) as Qz1 by (eapply qrep_ext; [apply Q|intros; apply Hn]).
  destruct set_next_laws as (L1 & L2 & L3).
  destruct (q_push set_next (zombies s1) (current s) (threads s1)) as [q m] eqn:E.
  assert (current s <> 0) as Hc0 by apply (qd_nz _ _ _ Q), Q.
  assert (is_Some (threads s1 !! current s)) as Hc1 by apply (transf_is_Some _ _ _ _ T1), Q.
  destruct (q_push_rep t_next set_next L1 L2 L3 _ _ _ _ _ _ Qz1 Hnz Hc0 Hc1 E) as (Qz & R & O).
  assert (exiting s = MkSched m (ready s) (current s) (ready_count s) (need_resched s) q
            (kernel_stack s) (loaded_space s)) as ->.
  { unfold exiting, zombie_push. fold s1. by rewrite E. }
  assert (transf (threads s) m (put (current s) THREAD_DEAD)) as T.
  { eapply transf_ext; [eapply transf_trans; [exact T1|by apply transf_relinked]|]. done. }
  assert (state_of (MkSched m (ready s) (current s) (ready_count s) (need_resched s) q
            (kernel_stack s) (loaded_space s)) (current s) = Some THREAD_DEAD) as Hd.
  { unfold state_of, thread_at. cbn [threads]. destruct (qd_cur _ _ _ Q) as [tc Hc].
    destruct (T (current s)) as (f & Ef & _ & Sf). rewrite Ef, Hc. simpl. rewrite Sf. unfold put.
    by rewrite decide_True. }
  split; [split|split; [|split; [done|split; done]]].
  - split; cbn [threads ready zombies ready_count current]; try apply Q.
    + intros t Ht. apply (qd_nz _ _ _ Q). by apply (transf_is_Some _ _ _ _ T).
    + eapply qrep_disjoint; [eapply qrep_ext; [apply Q|intros; apply Hn]|].
      intros y Hy. apply O; [by intros ->|]. by eapply queued_disjoint.
    + done.
    + apply (transf_is_Some _ _ _ _ T), Q.
    + intros t th Ht. destruct (transf_lookup _ _ _ _ _ T Ht) as (t0 & E0 & _ & ->).
      destruct (qd_states _ _ _ Q _ _ E0) as (H1 & H2 & H3). unfold put.
      rewrite elem_of_app, list_elem_of_singleton. case_decide; subst; naive_solver.
  - cbn [current]. rewrite Hd. done.
  - unfold running. cbn [current]. rewrite Hd. done.
Qed.

Lemma tick_inv s rl zl : sched_inv s rl zl -> sched_inv (sched_tick s) rl zl.
Proof.
  intros I. unfold sched_tick. zif; [done|].
  assert (forall v, sched_inv (upd s (current s) (set_ticks v)) rl zl) as H.
  { intros v. destruct I as [Q Hr].
    assert (forall y, t_next <$> threads (upd s (current s) (set_ticks v)) !! y = t_next <$> threads s !! y) as Hn.
    { intros y. unfold upd. cbn [threads set_threads]. rewrite lookup_alter. case_decide; subst; [|done].
      by destruct (threads s !! _). }
    split; [split; try apply Q|].
    - intros y Hy. apply (qd_nz _ _ _ Q). eapply lookup_alter_is_Some, Hy.
    - eapply qrep_ext; [apply Q|]. intros; apply Hn.
    - eapply qrep_ext; [apply Q|]. intros; apply Hn.
    - apply lookup_alter_is_Some, Q.
    - intros t th. cbn [threads set_threads upd current]. rewrite lookup_alter. case_decide; subst.
      + destruct (threads s !! current s) as [t0|] eqn:E; simpl; [|done]. intros [= <-].
        apply (qd_states _ _ _ Q _ _ E).
      + intros E. apply (qd_states _ _ _ Q _ _ E).
    - unfold state_of, thread_at in *. cbn [threads set_threads upd current]. rewrite lookup_alter_eq.
      by destruct (threads s !! current s). }
  repeat zif; try apply H. destruct (H 0) as [Q Hr]. split; [|done]. destruct Q. by split.
Qed.

Lemma unblock_inv s rl zl t :
  sched_inv s rl zl ->
  sched_inv (sched_unblock t s) (if decide (state_of s t = Some THREAD_BLOCKED) then rl ++ [t] else rl) zl.
Proof.
  intros [Q Hr]. unfold sched_unblock. case_decide as Hb; [|done].
  destruct (threads s !! t) as [tt|] eqn:Et; [|by unfold state_of, thread_at in Hb; rewrite Et in Hb].
  unfold state_of, thread_at in Hb. rewrite Et in Hb. simpl in Hb.
  destruct (qd_states _ _ _ Q _ _ Et) as (H1 & H2 & _).
  assert (t ∉ rl) as Hn1 by (rewrite H1; congruence). assert (t ∉ zl) as Hn2 by (rewrite H2; congruence).
  assert (t <> current s) as Hc.
  { intros ->. unfold state_of, thread_at in Hr. rewrite Et in Hr. simpl in Hr. congruence. }
  set (s1 := upd s t (set_state THREAD_READY)).
  assert (transf (threads s) (threads s1) (put t THREAD_READY)) as T1
    by (apply (transf_alter _ t (set_state THREAD_READY) (fun _ => THREAD_READY)); done).
  assert (forall y, t_next <$> threads s1 !! y = t_next <$> threads s !! y) as Hn.
  { intros y. unfold s1, upd. cbn [threads set_threads]. rewrite lookup_alter. case_decide; subst; [|done].
    by destruct (threads s !! _). }
  destruct (sched_enqueue_spec t s1 rl) as (Q1 & R & O & Eq).
  { eapply qrep_ext; [apply Q|intros; apply Hn]. } { done. } { apply (qd_nz _ _ _ Q). by exists tt. }
  { apply (transf_is_Some _ _ _ _ T1). by exists tt. }
  set (s2 := sched_enqueue t s1) in *.
  assert (transf (threads s) (threads s2) (put t THREAD_READY)) as T.
  { eapply transf_ext; [eapply transf_trans; [exact T1|by apply transf_relinked]|]. done. }
  assert (current s2 = current s) as Ec by by rewrite Eq.
  split; [split|].
  - intros y Hy. apply (qd_nz _ _ _ Q). by apply (transf_is_Some _ _ _ _ T).
  - done.
  - rewrite Eq. cbn [zombies threads]. eapply qrep_disjoint; [eapply qrep_ext; [apply Q|intros; apply Hn]|].
    intros y Hy. apply O; [by intros ->|]. intros Hin. by apply (queued_disjoint s rl zl y).
  - rewrite Eq. cbn [ready_count]. unfold s1. cbn [ready_count upd set_threads].
    rewrite (qd_count _ _ _ Q), zlen_app. done.
  - rewrite Ec. apply (transf_is_Some _ _ _ _ T), Q.
  - intros y th Hy. rewrite Ec. destruct (transf_lookup _ _ _ _ _ T Hy) as (t0 & E0 & _ & ->).
    destruct (qd_states _ _ _ Q _ _ E0) as (J1 & J2 & J3). unfold put.
    rewrite elem_of_app, list_elem_of_singleton. case_decide; subst; naive_solver.
  - rewrite Ec. unfold state_of, thread_at in *. destruct (qd_cur _ _ _ Q) as [tc Htc].
    destruct (T (current s)) as (f & Ef & _ & Sf). rewrite Ef, Htc in *. simpl in *. rewrite Sf.
    unfold put. by rewrite decide_False.
Qed.

(** ** thread_create *)

(** A new READY thread, at an address that holds none, joins the ready list. *)
Lemma spawn_inv s rl zl t th :
  sched_inv s rl zl -> threads s !! t = None -> t <> 0 -> t_state th = THREAD_READY ->
  let s' := sched_enqueue t (set_threads s (<[t := th]> (threads s))) in
  sched_inv s' (rl ++ [t]) zl /\ current s' = current s /\
  relinked set_next (<[t := th]> (threads s)) (threads s').
Proof.
  intros [Q Hr] Hf Ht Hth. set (s1 := set_threads s _).
  assert (forall y, y ∈ rl \/ y ∈ zl -> t <> y) as Hne.
  { intros y [Hy|Hy] ->; [destruct (qrep_in _ _ _ _ y (qd_ready _ _ _ Q) Hy) as [_ [? ?]]|
      destruct (qrep_in _ _ _ _ y (qd_zomb _ _ _ Q) Hy) as [_ [? ?]]]; congruence. }
  assert (qrep t_next (threads s1) (ready s1) rl) as Q1.
  { eapply qrep_disjoint; [apply Q|]. intros y Hy. simpl. rewrite lookup_insert_ne; [done|].
    by apply Hne; left. }
  destruct (sched_enqueue_spec t s1 rl Q1) as (Q2 & R & O & Eq); [|done| |].
  { intros Hin. by apply (Hne t); [left|]. } { simpl. rewrite lookup_insert_eq. by eexists. }
  pose proof (transf_relinked _ _ R) as T.
  set (s2 := sched_enqueue t s1) in *. cbv zeta.
  assert (current s2 = current s) as Ec by by rewrite Eq.
  assert (t <> current s) as Hc.
  { intros ->. destruct (qd_cur _ _ _ Q) as [? ?]. congruence. }
  split; [split; [split|]|split; done].
  - intros y Hy. apply (transf_is_Some _ _ _ _ T) in Hy. simpl in Hy.
    destruct (decide (y = t)) as [->|]; [done|]. rewrite lookup_insert_ne in Hy by done. by apply (qd_nz _ _ _ Q).
  - done.
  - rewrite Eq. cbn [zombies threads]. eapply qrep_disjoint; [apply Q|].
    intros y Hy. rewrite O; [simpl; rewrite lookup_insert_ne; [done|]| |].
    + by apply Hne; right. + intros ->. by apply (Hne t); [right|].
    + intros Hin. by apply (queued_disjoint s rl zl y).
  - rewrite Eq. cbn [ready_count]. unfold s1. cbn [ready_count set_threads].
    rewrite (qd_count _ _ _ Q), zlen_app. done.
  - rewrite Ec. apply (transf_is_Some _ _ _ _ T). simpl. rewrite lookup_insert_ne by done. apply Q.
  - intros y th' Hy. rewrite Ec. destruct (transf_lookup _ _ _ _ _ T Hy) as (t0 & E0 & _ & ->).
    unfold keep. rewrite elem_of_app, list_elem_of_singleton. simpl in E0.
    destruct (decide (y = t)) as [->|].
    + rewrite lookup_insert_eq in E0. injection E0 as <-. rewrite Hth.
      pose proof (Hne t). naive_solver.
    + rewrite lookup_insert_ne in E0 by done. destruct (qd_states _ _ _ Q _ _ E0) as (J1 & J2 & J3). naive_solver.
  - rewrite Ec. unfold state_of, thread_at in *.
    destruct (T (current s)) as (f & Ef & _ & Sf). rewrite Ef. simpl. rewrite lookup_insert_ne by done.
    destruct (threads s !! current s); simpl in *; [|done]. by rewrite Sf.
Qed.

(** ** The scheduler as a transition system

    One constructor per entry point of [sched.c] and [thread.c] that a kernel
    path can call; [l] is the list of threads freed by the step. *)
Inductive sched_op := OpYield | OpBlock | OpUnblock (t : Z) | OpTick | OpPreempt | OpExit | OpSpawn (t : Z).

Inductive sched_step : sched -> sched_op -> list Z -> sched -> Prop :=
| step_yield s l s' : sched_yield s = Some (l, s') -> sched_step s OpYield l s'
| step_block s l s' : sched_block s = Some (l, s') -> sched_step s OpBlock l s'
| step_unblock s t : sched_step s (OpUnblock t) [] (sched_unblock t s)
| step_tick s : sched_step s OpTick [] (sched_tick s)
| step_preempt s l s' : sched_preempt_point s = Some (l, s') -> sched_step s OpPreempt l s'
| step_exit s l s' : thread_exit s = Some (l, s') -> sched_step s OpExit l s'
| step_spawn s t th : threads s !! t = None -> t <> 0 -> t_state th = THREAD_READY ->
    sched_step s (OpSpawn t) [] (sched_enqueue t (set_threads s (<[t := th]> (threads s)))).

Inductive sched_reach (s0 : sched) : sched -> Prop :=
| reach_refl : sched_reach s0 s0
| reach_step s op l s' : sched_reach s0 s -> sched_step s op l s' -> sched_reach s0 s'.

(** The outcome of a switch on a state satisfying [sched_pre]. *)
Lemma schedule_step s rl zl l s' :
  sched_pre s rl zl -> sched_schedule s = Some (l, s') ->
  (exists rl' zl', sched_inv s' rl' zl') /\
  (forall y, y ∈ l -> y ∈ zl) /\
  (forall y, is_Some (threads s' !! y) <-> is_Some (threads s !! y) /\ y ∉ l).
Proof.
  intros P E. destruct rl as [|x rl].
  - rewrite (sched_schedule_empty _ _ P) in E. destruct (running s) eqn:Er; [|done].
    injection E as <- <-. split; [|split].
    + exists [], zl. split; [apply P|]. by apply bool_decide_eq_true in Er.
    + by intros y ?%not_elem_of_nil.
    + intros y. pose proof (not_elem_of_nil y). naive_solver.
  - destruct (sched_schedule_spec _ _ _ _ P) as (s1 & E1 & I & _ & _ & m & T & Hm).
    rewrite E1 in E. injection E as <- ->. split; [eauto|]. split.
    + destruct (resumes s x); [done|]. by intros y ?%not_elem_of_nil.
    + intros y. rewrite Hm. destruct (decide _) as [Hin|Hin].
      * split; [by intros [? ?]|]. naive_solver.
      * rewrite lookup_alter_is_Some, (transf_is_Some _ _ _ _ T). naive_solver.
Qed.

(** A step keeps the invariant; the threads it frees had called [thread_exit]
    before or call it in this step, and no other thread disappears. *)
Lemma sched_step_spec s op l s' rl zl :
  sched_inv s rl zl -> sched_step s op l s' ->
  (exists rl' zl', sched_inv s' rl' zl') /\
  (forall y, y ∈ l -> (y ∈ zl \/ op = OpExit /\ y = current s) /\ ~ is_Some (threads s' !! y)) /\
  (forall y, is_Some (threads s !! y) -> is_Some (threads s' !! y) \/ y ∈ l).
Proof.
  intros I St.
  assert (forall s1 zl1 l s', sched_pre s1 rl zl1 -> sched_schedule s1 = Some (l, s') ->
    (forall y, y ∈ zl1 -> y ∈ zl \/ op = OpExit /\ y = current s) ->
    (forall y, is_Some (threads s1 !! y) <-> is_Some (threads s !! y)) ->
    (exists rl' zl', sched_inv s' rl' zl') /\
    (forall y, y ∈ l -> (y ∈ zl \/ op = OpExit /\ y = current s) /\ ~ is_Some (threads s' !! y)) /\
    (forall y, is_Some (threads s !! y) -> is_Some (threads s' !! y) \/ y ∈ l)) as Sw.
  { intros s1 zl1 l1 s2 P E Hz Hd. destruct (schedule_step _ _ _ _ _ P E) as (H1 & H2 & H3).
    split; [done|]. split.
    - intros y Hy. rewrite H3. naive_solver.
    - intros y Hy. rewrite H3, Hd. destruct (decide (y ∈ l1)); naive_solver. }
  assert (forall s1, (exists rl' zl', sched_inv s1 rl' zl') ->
    (forall y, is_Some (threads s !! y) -> is_Some (threads s1 !! y)) ->
    (exists rl' zl', sched_inv s1 rl' zl') /\
    (forall y, y ∈ [] -> (y ∈ zl \/ op = OpExit /\ y = current s) /\ ~ is_Some (threads s1 !! y)) /\
    (forall y, is_Some (threads s !! y) -> is_Some (threads s1 !! y) \/ y ∈ [])) as Stay.
  { intros s1 H1 H2. split; [done|]. split; [by intros y ?%not_elem_of_nil|eauto]. }
  destruct St as [s l s' E|s l s' E|s t|s|s l s' E|s l s' E|s t th Hf Ht Hth].
  - unfold sched_yield in E. zif_in E.
    + injection E as <- <-. apply Stay; eauto.
    + eapply Sw; [by apply sched_inv_pre|done|eauto|done].
  - eapply Sw; [by apply block_pre|exact E|eauto|].
    intros y. unfold upd. cbn [threads set_threads]. apply lookup_alter_is_Some.
  - apply Stay; [by eexists _, _; apply unblock_inv|]. intros y Hy. unfold sched_unblock. case_decide; [|done].
    unfold sched_enqueue, q_push. cbv zeta. zif; cbn [threads upd set_threads]; rewrite !lookup_alter_is_Some; done.
  - apply Stay; [by eexists _, _; apply tick_inv|]. intros y Hy. unfold sched_tick.
    repeat zif; cbn [threads upd set_threads]; rewrite ?lookup_alter_is_Some; done.
  - unfold sched_preempt_point in E. zif_in E; [injection E as <- <-; apply Stay; eauto|].
    eapply Sw; [|exact E|eauto|done]. apply sched_inv_pre in I as [[] Hp]. by split.
  - eapply Sw; [by apply exit_pre|exact E| |].
    + intros y [?|Hy]%elem_of_app; [auto|]. apply list_elem_of_singleton in Hy. auto.
    + intros y. destruct (exit_pre _ _ _ I) as (_ & _ & _ & _ & T). by apply (transf_is_Some _ _ _ _ T).
  - destruct (spawn_inv s rl zl t th I Hf Ht Hth) as (I' & _ & R). apply Stay; [eauto|].
    intros y Hy. apply (transf_is_Some _ _ _ _ (transf_relinked _ _ R)).
    destruct (decide (y = t)) as [->|]; [by destruct Hy; congruence|]. by rewrite lookup_insert_ne.
Qed.

(** One thread, which runs. *)
Lemma sched_one_inv boot th kst ksp : boot <> 0 -> t_state th = THREAD_RUNNING ->
  sched_inv (MkSched (<[boot := th]> ∅) q_empty boot 0 0 q_empty kst ksp) [] [].
Proof.
  intros Hb Hr.
  assert (forall t th', <[boot := th]> (∅ : gmap Z thread) !! t = Some th' -> t = boot /\ th' = th) as Hl.
  { intros t th'. rewrite lookup_insert. case_decide; [naive_solver|]. by rewrite lookup_empty. }
  split; [split|]; cbn [threads ready zombies ready_count current].
  - intros t [th' E]. by destruct (Hl _ _ E) as [-> _].
  - apply qrep_nil.
  - apply qrep_nil.
  - done.
  - rewrite lookup_insert_eq. by eexists.
  - intros t th' E. destruct (Hl _ _ E) as [-> ->]. rewrite Hr.
    split; [split; [by intros ?%not_elem_of_nil|done]|]. split; [split; [by intros ?%not_elem_of_nil|done]|done].
  - unfold state_of, thread_at. cbn [threads current]. rewrite lookup_insert_eq. cbn. by rewrite Hr.
Qed.

Lemma sched_init_inv boot kst ksp : boot <> 0 -> sched_inv (sched_init boot kst ksp ∅) [] [].
Proof. intros Hb. by apply sched_one_inv. Qed.

Lemma sched_reach_inv s0 s :
  (exists rl zl, sched_inv s0 rl zl) -> sched_reach s0 s -> exists rl zl, sched_inv s rl zl.
Proof.
  intros H0. induction 1 as [|s op l s' _ (rl & zl & I) St]; [done|].
  by destruct (sched_step_spec _ _ _ _ _ _ I St) as (I' & _).
Qed.

(** C1: whatever sequence of yields, blocks, unblocks, ticks, preemption points,
    exits and thread creations ran since [sched_init], the running thread is the
    current one and the only one RUNNING, the ready queue holds every READY
    thread once and no other, [ready_count] is its length, and a step frees
    only threads that have exited before it (they are DEAD), or the caller of
    [thread_exit] itself in that very step; it never frees the thread it leaves
    running, and no thread disappears without being freed. *)
Theorem sched_reachable_safe (boot kst ksp : Z) (s : sched) :
  boot <> 0 -> sched_reach (sched_init boot kst ksp ∅) s ->
  (forall t, state_of s t = Some THREAD_RUNNING <-> t = current s) /\
  (exists rl, qrep t_next (threads s) (ready s) rl /\ ready_count s = zlen rl /\
    forall t, t ∈ rl <-> state_of s t = Some THREAD_READY) /\
  (forall op l s', sched_step s op l s' ->
    (forall t, t ∈ l -> t <> current s' /\ threads s' !! t = None /\
       (state_of s t = Some THREAD_DEAD \/ op = OpExit /\ t = current s)) /\
    (forall t, is_Some (threads s !! t) -> is_Some (threads s' !! t) \/ t ∈ l)).
Proof.
  intros Hb R. destruct (sched_reach_inv _ _ ltac:(eauto using sched_init_inv) R) as (rl & zl & I).
  pose proof I as [Q Hr]. split; [|split].
  - intros t. split; [|by intros ->]. unfold state_of, thread_at. destruct (threads s !! t) as [th|] eqn:E; [|done].
    intros [= Hth]. by apply (qd_states _ _ _ Q _ _ E).
  - exists rl. split; [apply Q|]. split; [apply Q|]. intros t. unfold state_of, thread_at. split.
    + intros Hin. destruct (qrep_in _ _ _ _ _ (qd_ready _ _ _ Q) Hin) as [_ [th E]]. rewrite E. simpl.
      f_equal. by apply (qd_states _ _ _ Q _ _ E).
    + destruct (threads s !! t) as [th|] eqn:E; [|done]. intros [= Hth]. by apply (qd_states _ _ _ Q _ _ E).
  - intros op l s' St. destruct (sched_step_spec _ _ _ _ _ _ I St) as ((rl' & zl' & [Q' _]) & H2 & H3).
    split; [|done]. intros t Ht. destruct (H2 t Ht) as [Hz Hd]. split; [|split].
    + intros ->. apply Hd, Q'.
    + by apply eq_None_not_Some.
    + destruct Hz as [Hz | Hz]; [left|by right]. destruct (qrep_in _ _ _ _ _ (qd_zomb _ _ _ Q) Hz) as [_ [th E]].
      unfold state_of, thread_at. rewrite E. simpl. f_equal. by apply (qd_states _ _ _ Q _ _ E).
Qed.

(** Two threads created at boot, then a yield. *)
Definition demo_thread (id : Z) : thread :=
  MkThread 4096 THREAD_READY id 0 4096 16384 20480 7 0 99 0 0 0 0 false.
Definition demo_sched : sched :=
  let s := sched_init 8 100 7 ∅ in
  let s := sched_enqueue 16 (set_threads s (<[16 := demo_thread 0]> (threads s))) in
  sched_enqueue 32 (set_threads s (<[32 := demo_thread 1]> (threads s))).

Lemma demo_sched_reach : sched_reach (sched_init 8 100 7 ∅) demo_sched.
Proof.
  eapply reach_step; [eapply reach_step; [apply reach_refl|]|].
  - apply (step_spawn _ 16 (demo_thread 0)); done.
  - apply step_spawn; done.
Qed.

Lemma demo_sched_inv : sched_inv demo_sched [16; 32] [].
Proof.
  destruct (spawn_inv (sched_init 8 100 7 ∅) [] [] 16 (demo_thread 0)) as (I1 & _ & _); try done.
  { by apply sched_init_inv. }
  by destruct (spawn_inv _ [16] [] 32 (demo_thread 1) I1) as (I2 & _ & _).
Qed.

Lemma sched_reachable_safe_witness :
  current demo_sched = 8 /\ (forall t, state_of demo_sched t = Some THREAD_RUNNING <-> t = 8).
Proof. split; [reflexivity|]. apply (sched_reachable_safe 8 100 7 demo_sched ltac:(done) demo_sched_reach). Defined.

(** [sched_schedule] panics exactly when no thread is ready and the current
    one cannot go on; it returns to the caller when none is ready; otherwise the
    head of the ready queue runs next, the caller goes to the tail if it was
    running, and no other thread's state changes. *)
Theorem sched_schedule_correct (s : sched) (rl zl : list Z) :
  sched_pre s rl zl ->
  match rl with
  | [] => sched_schedule s = if running s then Some ([], s) else None
  | x :: rl' =>
    exists l s', sched_schedule s = Some (l, s') /\ current s' = x /\
      sched_inv s' (if running s then rl' ++ [current s] else rl') (if resumes s x then [] else zl) /\
      l = (if resumes s x then zl else []) /\
      forall t, t ∉ l -> t <> x -> t <> current s -> state_of s' t = state_of s t
  end.
Proof.
  intros P. destruct rl as [|x rl]; [by eapply sched_schedule_empty|].
  destruct (sched_schedule_spec _ _ _ _ P) as (s' & E & I & Hc & _ & m & T & Hm).
  exists (if resumes s x then zl else []), s'. split; [done|]. split; [done|]. split; [done|]. split; [done|].
  intros t Hl Hx Ht. unfold state_of, thread_at. rewrite Hm, decide_False, lookup_alter_ne by done.
  destruct (T t) as (f & -> & _ & Sf). destruct (threads s !! t); simpl; [|done]. rewrite Sf.
  unfold switch_states. by rewrite !decide_False.
Qed.

Lemma sched_schedule_correct_witness :
  exists l s', sched_schedule demo_sched = Some (l, s') /\ current s' = 16.
Proof.
  destruct (sched_schedule_correct demo_sched [16; 32] []) as (l & s' & E & Hc & _).
  - apply sched_inv_pre, demo_sched_inv.
  - by exists l, s'.
Defined.

(** ** Round robin *)

Lemma yield_rotates s x rl zl :
  sched_inv s (x :: rl) zl ->
  exists l s' zl', sched_yield s = Some (l, s') /\ current s' = x /\ sched_inv s' (rl ++ [current s]) zl'.
Proof.
  intros I. unfold sched_yield. rewrite (qrep_head _ _ _ _ (qd_ready _ _ _ (proj1 I))). simpl.
  destruct (qrep_in _ _ _ _ x (qd_ready _ _ _ (proj1 I))) as [Hx _]; [left|].
  rewrite (proj2 (Z.eqb_neq x 0) Hx).
  destruct (sched_schedule_spec _ _ _ _ (sched_inv_pre _ _ _ I)) as (s' & E & I' & Hc & _).
  assert (running s = true) as Hr by (by apply bool_decide_eq_true_2; apply I). rewrite Hr in I'.
  eauto 10.
Qed.

Fixpoint yields (n : nat) (s : sched) : option sched :=
  match n with
  | O => Some s
  | S n => match sched_yield s with Some (_, s') => yields n s' | None => None end
  end.

(** No thread starves under cooperative yielding: the thread at position
    [k] of the ready queue is running after exactly [k + 1] yields, and after as
    many yields as there are ready threads plus one the caller runs again. *)
Theorem sched_round_robin (s : sched) (rl zl : list Z) :
  sched_inv s rl zl ->
  (forall k t, rl !! k = Some t -> exists s', yields (S k) s = Some s' /\ current s' = t) /\
  exists s', yields (S (length rl)) s = Some s' /\ current s' = current s.
Proof.
  intros I.
  assert (forall n rl s zl k t, length rl = n -> sched_inv s rl zl -> rl !! k = Some t ->
    exists s', yields (S k) s = Some s' /\ current s' = t /\
      exists zl', sched_inv s' (drop (S k) rl ++ [current s] ++ take k rl) zl') as G.
  { clear. intros n rl s zl k. revert rl s zl n. induction k as [|k IH]; intros rl s zl n t Hn I Hk.
    - destruct rl as [|x rl]; [done|]. injection Hk as ->.
      destruct (yield_rotates _ _ _ _ I) as (l & s' & zl' & E & Hc & I'). cbn [yields]. rewrite E.
      exists s'. split; [done|]. split; [done|]. exists zl'. simpl. by rewrite drop_0.
    - destruct rl as [|x rl]; [done|]. simpl in Hk.
      destruct (yield_rotates _ _ _ _ I) as (l & s' & zl' & E & Hc & I').
      assert (k < length rl)%nat by by eapply lookup_lt_Some.
      destruct (IH _ s' zl' _ t eq_refl I') as (s2 & E2 & Hc2 & zl2 & I2); [by rewrite lookup_app_l|].
      assert (yields (S (S k)) s = yields (S k) s') as Ey.
      { change (yields (S (S k)) s) with (match sched_yield s with Some (_, s') => yields (S k) s' | None => None end).
        by rewrite E. }
      exists s2. rewrite Ey. split; [done|]. split; [done|]. exists zl2.
      rewrite drop_app_le, take_app_le in I2 by lia. rewrite Hc in I2. simpl. by rewrite <- app_assoc in I2. }
  split; [intros k t Hk; destruct (G _ rl s zl k t eq_refl I Hk) as (s' & ? & ? & _); eauto|].
  destruct rl as [|x rl].
  - cbn [length yields]. unfold sched_yield. rewrite (qrep_head _ _ _ _ (qd_ready _ _ _ (proj1 I))). simpl. eauto.
  - destruct (yield_rotates _ _ _ _ I) as (l & s1 & zl1 & E & Hc & I1).
    assert (yields (S (length (x :: rl))) s = yields (S (length rl)) s1) as ->.
    { change (yields (S (length (x :: rl))) s) with
        (match sched_yield s with Some (_, s') => yields (S (length rl)) s' | None => None end). by rewrite E. }
    destruct (G _ (rl ++ [current s]) s1 zl1 (length rl) (current s) eq_refl I1) as (s' & ? & ? & _); [|eauto].
    by apply list_lookup_middle.
Qed.

Lemma sched_round_robin_witness :
  exists s', yields 2 demo_sched = Some s' /\ current s' = 32.
Proof. by apply (proj1 (sched_round_robin demo_sched [16; 32] [] demo_sched_inv) 1%nat). Defined.

(** ** thread_create against the heap interface *)

Section thread_create_spec.
Context {H : Type} `{KHeapLaws H}.

(** Threads that live in the heap's address range are live blocks of it. *)
Definition threads_live (s : sched) (h : H) : Prop :=
  forall t, is_Some (threads s !! t) -> heap_lo <= t < heap_hi -> is_Some (live h !! t).

(** [thread_create] either fails, leaving the scheduler and the set of live
    heap blocks as they were (the thread object is freed again when the stack
    cannot be allocated), or returns a thread object and a stack that are two
    new disjoint blocks, with the thread READY at the tail of the ready queue,
    its saved stack pointer inside its own stack; it never panics. *)
Theorem thread_create_correct (fn ar nm ksp nid : Z) (s : sched) (h : H) (rl zl : list Z) :
  heap_wf h -> sched_inv s rl zl -> threads_live s h ->
  exists t s' nid' h', thread_create fn ar nm ksp s nid h = Some (t, s', nid', h') /\ heap_wf h' /\
    if t =? 0 then s' = s /\ nid' = nid /\ live h' = live h
    else sched_inv s' (rl ++ [t]) zl /\ threads s !! t = None /\ threads_live s' h' /\
      exists th szt szs, threads s' !! t = Some th /\ sizeof_thread_t <= szt /\ THREAD_STACK_SIZE <= szs /\
        live h' = <[t_stack_base th := szs]> (<[t := szt]> (live h)) /\
        live h !! t = None /\ live h !! t_stack_base th = None /\ t <> t_stack_base th /\
        t_entry th = fn /\ t_arg th = ar /\ t_space th = ksp /\ t_id th = nid /\
        t_stack_base th <= t_rsp th /\ t_rsp th + sizeof_initial_frame = t_stack_base th + THREAD_STACK_SIZE.
Proof.
  intros W I TL. unfold thread_create.
  destruct (fn =? 0). { exists 0, s, nid, h. done. }
  destruct (exy_zalloc sizeof_thread_t h) as [t h1] eqn:E1.
  destruct (zalloc_law h sizeof_thread_t t h1 W ltac:(unfold sizeof_thread_t; lia) E1) as [W1 F1 O1].
  destruct (Z.eqb_spec t 0) as [->|Ht]. { exists 0, s, nid, h1. split; [done|]. split; [done|]. simpl. auto. }
  destruct (exy_malloc THREAD_STACK_SIZE h1) as [st h2] eqn:E2.
  destruct (malloc_law h1 THREAD_STACK_SIZE st h2 W1 ltac:(unfold THREAD_STACK_SIZE; lia) E2) as [W2 F2 O2].
  destruct (O1 Ht) as (szt & Hszt & Hn1 & L1 & _).
  destruct (Z.eqb_spec st 0) as [->|Hst].
  { destruct (free_law h2 t szt W2) as (h3 & E3 & W3 & L3).
    { by rewrite F2, L1, lookup_insert_eq. }
    rewrite E3. exists 0, s, nid, h3. split; [done|]. split; [done|]. simpl.
    split; [done|]. split; [done|]. by rewrite L3, F2, L1, delete_insert_id. }
  destruct (O2 Hst) as (szs & Hszs & Hn2 & L2 & _).
  assert (t <> st) as Hne by (intros ->; rewrite L1, lookup_insert_eq in Hn2; done).
  destruct (live_arena h2 st szs W2) as [Ha1 Ha2]; [by rewrite L2, lookup_insert_eq|].
  destruct (live_arena h1 t szt W1) as [Hb1 Hb2]; [by rewrite L1, lookup_insert_eq|].
  pose proof arena_law as [Har1 Har2].
  assert (threads s !! t = None) as Hfresh.
  { apply eq_None_not_Some. intros Hs. destruct (TL t Hs) as [? ?]; [|congruence].
    unfold sizeof_thread_t in Hszt. lia. }
  set (th := MkThread _ _ _ _ _ _ _ _ _ _ _ _ _ _ _).
  destruct (spawn_inv s rl zl t th I Hfresh Ht ltac:(done)) as (I' & Hc & R).
  eexists t, _, _, h2. split; [done|]. split; [done|]. rewrite (proj2 (Z.eqb_neq t 0) Ht).
  split; [done|]. split; [done|]. split.
  { intros y Hy Hr. apply (transf_is_Some _ _ _ _ (transf_relinked _ _ R)) in Hy.
    rewrite L2, L1. destruct (decide (y = st)) as [->|]; [by rewrite lookup_insert_eq; eexists|].
    rewrite lookup_insert_ne by done. destruct (decide (y = t)) as [->|]; [by rewrite lookup_insert_eq; eexists|].
    rewrite lookup_insert_ne by done. rewrite lookup_insert_ne in Hy by done. by apply TL. }
  destruct (R t) as [z Ez]. rewrite lookup_insert_eq in Ez. simpl in Ez.
  eexists _, szt, szs. split; [exact Ez|]. split; [done|]. split; [done|].
  unfold th. cbn [t_stack_base t_entry t_arg t_space t_id t_rsp set_next].
  assert (u64 (u64 (st + THREAD_STACK_SIZE) - sizeof_initial_frame) = st + THREAD_STACK_SIZE - sizeof_initial_frame) as ->.
  { unfold THREAD_STACK_SIZE, sizeof_initial_frame in *.
    rewrite (u64_small (st + _)) by lia. rewrite u64_small by lia. done. }
  assert (live h !! st = None) as Hn3.
  { rewrite L1 in Hn2. by rewrite lookup_insert_ne in Hn2. }
  unfold THREAD_STACK_SIZE, sizeof_initial_frame. rewrite L2, L1.
  split_and!; try done; lia.
Qed.
End thread_create_spec.

Lemma thread_create_correct_witness :
  exists t s' nid' h',
    thread_create 99 5 0 7 demo_sched 2 (bump.MkBump 4096 ∅) = Some (t, s', nid', h') /\ t = 4096 /\
    sched_inv s' [16; 32; 4096] [].
Proof.
  destruct (thread_create_correct 99 5 0 7 2 demo_sched (bump.MkBump 4096 ∅) [16; 32] [])
    as (t & s' & nid' & h' & E & _ & R).
  - by split.
  - apply demo_sched_inv.
  - intros t [th E] Hr. exfalso. cbn [heap_lo heap_hi bump.bump_heap] in Hr. revert E.
    intros E%elem_of_map_to_list%list_elem_of_In. vm_compute in E.
    destruct E as [E|[E|[E|[]]]]; inversion E; subst; lia.
  - assert (t = 4096) as -> by (by vm_compute in E; simplify_eq). exists 4096, s', nid', h'.
    split; [done|]. split; [done|]. by apply R.
Defined.
