(* ===== verification/Sync.v ===== *)
(** * Blocking primitives

    [mutex.c], [condvar.c], [semaphore.c] over the wait queues and the
    scheduler, and [spinlock.h].  A blocking call is the loop
    [while (cond) { waitq_push; sched_block; }]: the model runs it from the loop
    head to the point where the caller either leaves the loop or has switched
    away; a thread that is scheduled again starts over at the loop head. *)
From S2P Require Import Prelude Queue Iface Sched.

(** [Blocked]: the caller sits in the loop and another thread runs. *)
Inductive outcome (A : Type) := Done (a : A) | Blocked (a : A) | Panic.
Arguments Done {A} a.
Arguments Blocked {A} a.
Arguments Panic {A}.

(** ** The two halves every primitive is made of *)

(** [waitq_push(q, thread_current()); sched_block();] *)
Definition wait_on (q : waitq_t) (s : sched) : option (waitq_t * sched) :=
  let '(q', m) := waitq_push q (thread_current s) (threads s) in
  match sched_block (set_threads s m) with
  | Some (_, s') => Some (q', s')
  | None => None
  end.

(** [w = waitq_pop(q); if (w) sched_unblock(w);] *)
Definition wake_one (q : waitq_t) (s : sched) : waitq_t * sched :=
  let '(w, q', m) := waitq_pop q (threads s) in
  let s1 := set_threads s m in
  (q', if w =? 0 then s1 else sched_unblock w s1).

(** ** mutex.c *)

Record mutex_t := MkMutex { m_locked : Z; m_owner : Z; m_waiters : waitq_t }.

Definition mutex_init : mutex_t := MkMutex 0 0 waitq_init.

Definition mutex_lock_irqoff (m : mutex_t) (s : sched) : outcome (mutex_t * sched) :=
  if negb (m_locked m =? 0) then
    match wait_on (m_waiters m) s with
    | Some (q, s') => Blocked (MkMutex (m_locked m) (m_owner m) q, s')
    | None => Panic
    end
  else Done (MkMutex 1 (thread_current s) (m_waiters m), s).

(** [None]: one of the two panics. *)
Definition mutex_unlock_irqoff (m : mutex_t) (s : sched) : option (mutex_t * sched) :=
  if m_locked m =? 0 then None
  else if negb (m_owner m =? thread_current s) then None
  else
    let '(q, s') := wake_one (m_waiters m) s in
    Some (MkMutex 0 0 q, s').

Definition mutex_lock := mutex_lock_irqoff.
Definition mutex_unlock := mutex_unlock_irqoff.

Definition mutex_trylock (m : mutex_t) (s : sched) : bool * mutex_t :=
  if negb (m_locked m =? 0) then (false, m)
  else (true, MkMutex 1 (thread_current s) (m_waiters m)).

(** ** condvar.c *)

Record condvar_t := MkCond { c_waiters : waitq_t }.

Definition cond_init : condvar_t := MkCond waitq_init.

(** Up to [sched_block]; when the thread runs again it goes on with
    [mutex_lock_irqoff] on the same mutex. *)
Definition cond_wait (c : condvar_t) (m : mutex_t) (s : sched) : option (condvar_t * mutex_t * sched) :=
  let '(q, th) := waitq_push (c_waiters c) (thread_current s) (threads s) in
  match mutex_unlock_irqoff m (set_threads s th) with
  | None => None
  | Some (m', s1) =>
    match sched_block s1 with
    | Some (_, s2) => Some (MkCond q, m', s2)
    | None => None
    end
  end.

Definition cond_signal (c : condvar_t) (s : sched) : condvar_t * sched :=
  let '(q, s') := wake_one (c_waiters c) s in (MkCond q, s').

(** The loop pops until the queue is empty; each pop removes a thread, so the
    number of threads bounds it. *)
Fixpoint broadcast_loop (fuel : nat) (q : waitq_t) (s : sched) : waitq_t * sched :=
  match fuel with
  | O => (q, s)
  | S fuel =>
    let '(w, q', m) := waitq_pop q (threads s) in
    let s1 := set_threads s m in
    if w =? 0 then (q', s1) else broadcast_loop fuel q' (sched_unblock w s1)
  end.

Definition cond_broadcast (c : condvar_t) (s : sched) : condvar_t * sched :=
  let '(q, s') := broadcast_loop (S (size (threads s))) (c_waiters c) s in (MkCond q, s').

(** ** semaphore.c *)

Record semaphore_t := MkSem { s_count : Z; s_waiters : waitq_t }.

Definition sem_init (initial : Z) : semaphore_t := MkSem initial waitq_init.

Definition sem_wait (sm : semaphore_t) (s : sched) : outcome (semaphore_t * sched) :=
  if s_count sm <=? 0 then
    match wait_on (s_waiters sm) s with
    | Some (q, s') => Blocked (MkSem (s_count sm) q, s')
    | None => Panic
    end
  else Done (MkSem (i32 (s_count sm - 1)) (s_waiters sm), s).

Definition sem_post (sm : semaphore_t) (s : sched) : semaphore_t * sched :=
  let '(q, s') := wake_one (s_waiters sm) s in (MkSem (i32 (s_count sm + 1)) q, s').

Definition sem_trywait (sm : semaphore_t) : bool * semaphore_t :=
  if s_count sm <=? 0 then (false, sm) else (true, MkSem (i32 (s_count sm - 1)) (s_waiters sm)).

(** ** spinlock.h

    [irqs] is the interrupt flag; [None] spins forever, which on the single CPU
    is a second acquisition of a held lock. *)

Record spinlock_t := MkSpin { sl_locked : bool; saved_flags : bool }.

Definition SPINLOCK_INIT : spinlock_t := MkSpin false false.

Definition spin_lock (l : spinlock_t) (irqs : bool) : option (spinlock_t * bool) :=
  if sl_locked l then None else Some (MkSpin true irqs, false).

Definition spin_unlock (l : spinlock_t) (irqs : bool) : spinlock_t * bool :=
  (MkSpin false (saved_flags l), saved_flags l).

(** ** Threads blocked on a queue *)

Record blocked_on (s : sched) (q : waitq_t) (wl : list Z) : Prop := {
  bo_rep : qrep t_wait_next (threads s) q wl;
  bo_state t : t ∈ wl -> state_of s t = Some THREAD_BLOCKED }.

Lemma blocked_on_nil s : blocked_on s waitq_init [].
Proof. split; [apply qrep_nil|]. by intros ? ?%not_elem_of_nil. Qed.

Lemma set_wait_next_laws :
  (forall z t, t_wait_next (set_wait_next z t) = z) /\
  (forall z w t, set_wait_next z (set_wait_next w t) = set_wait_next z t) /\
  (forall t, set_wait_next (t_wait_next t) t = t).
Proof. split_and!; [done|done|]. by intros []. Qed.

(** Only wait links differ: the scheduler's invariant does not see it. *)
Lemma sched_inv_wait_relinked s m rl zl :
  sched_inv s rl zl -> relinked set_wait_next (threads s) m -> sched_inv (set_threads s m) rl zl.
Proof.
  intros [Q Hr] R.
  assert (forall y, t_next <$> m !! y = t_next <$> threads s !! y) as Hn.
  { intros y. destruct (R y) as [z ->]. by destruct (threads s !! y). }
  assert (forall y, t_state <$> m !! y = t_state <$> threads s !! y) as Hs.
  { intros y. destruct (R y) as [z ->]. by destruct (threads s !! y). }
  split; [split; cbn [threads ready zombies ready_count current set_threads]|].
  - intros t Ht. apply (qd_nz _ _ _ Q). destruct (R t) as [z E]. rewrite E in Ht. by apply fmap_is_Some in Ht.
  - eapply qrep_ext; [apply Q|]. intros; apply Hn.
  - eapply qrep_ext; [apply Q|]. intros; apply Hn.
  - apply Q.
  - destruct (R (current s)) as [z ->]. apply fmap_is_Some, Q.
  - intros t th E. specialize (Hs t). rewrite E in Hs. destruct (threads s !! t) as [t0|] eqn:E0; [|done].
    injection Hs as ->. apply (qd_states _ _ _ Q _ _ E0).
  - unfold state_of, thread_at in *. cbn [threads current set_threads]. by rewrite Hs.
Qed.

Lemma state_of_wait_relinked s m t :
  relinked set_wait_next (threads s) m -> state_of (set_threads s m) t = state_of s t.
Proof.
  intros R. unfold state_of, thread_at. cbn [threads set_threads]. destruct (R t) as [z ->].
  by destruct (threads s !! t).
Qed.

(** A change of the threads that keeps the wait links and the blocked states. *)
Lemma blocked_on_ext s s' q wl :
  blocked_on s q wl ->
  (forall t th, t ∈ wl -> threads s !! t = Some th -> t_state th = THREAD_BLOCKED ->
     exists th', threads s' !! t = Some th' /\ t_wait_next th' = t_wait_next th /\ t_state th' = THREAD_BLOCKED) ->
  blocked_on s' q wl.
Proof.
  intros [Q B] E. split.
  - eapply qrep_ext; [done|]. intros x Hx. destruct (qrep_in _ _ _ _ _ Q Hx) as [_ [th Eth]].
    specialize (B x Hx). unfold state_of, thread_at in B. rewrite Eth in B. injection B as B.
    destruct (E x th Hx Eth B) as (th' & -> & Hw & _). rewrite Eth. simpl. by rewrite Hw.
  - intros t Ht. specialize (B t Ht). unfold state_of, thread_at in *.
    destruct (threads s !! t) as [th|] eqn:Eth; [|done]. injection B as B.
    destruct (E t th Ht Eth B) as (th' & -> & _ & Hb). simpl. by rewrite Hb.
Qed.

(** Blocked threads are on neither scheduler list. *)
Lemma blocked_off_lists s rl zl t :
  queued s rl zl -> state_of s t = Some THREAD_BLOCKED -> t ∉ rl /\ t ∉ zl.
Proof.
  intros Q B. unfold state_of, thread_at in B. destruct (threads s !! t) as [th|] eqn:E; [|done].
  injection B as B. destruct (qd_states _ _ _ Q _ _ E) as (H1 & H2 & _).
  split; [rewrite H1|rewrite H2]; congruence.
Qed.

Lemma norm_wait_next th th' : norm th' = norm th -> t_wait_next th' = t_wait_next th.
Proof. intros E. apply (f_equal t_wait_next) in E. done. Qed.

(** A switch leaves the threads blocked elsewhere where they are. *)
Lemma schedule_blocked s rl zl l s' q wl :
  sched_pre s rl zl -> sched_schedule s = Some (l, s') -> blocked_on s q wl -> blocked_on s' q wl.
Proof.
  intros P E B. destruct rl as [|x rl].
  { rewrite (sched_schedule_empty _ _ P) in E. destruct (running s); [|done]. by injection E as _ ->. }
  destruct (sched_schedule_spec _ _ _ _ P) as (s1 & E1 & _ & _ & _ & m & T & Hm).
  rewrite E1 in E. injection E as _ ->. eapply blocked_on_ext; [done|]. intros t th Ht Hth Hb.
  destruct (blocked_off_lists s (x :: rl) zl t) as [Hr Hz]; [apply P|by apply (bo_state _ _ _ B)|].
  rewrite Hm, decide_False; [|destruct (resumes s x); [done|by apply not_elem_of_nil]].
  apply not_elem_of_cons in Hr as [Hx _]. destruct (T t) as (f & Ef & Nf & Sf). rewrite Hth in Ef. simpl in Ef.
  assert (switch_states (current s) x (running s) t (t_state th) = THREAD_BLOCKED) as Hsw.
  { unfold switch_states. rewrite decide_False by done. case_decide as Hc; [|done]. subst t.
    unfold running. rewrite (bo_state _ _ _ B _ Ht), bool_decide_eq_false_2 by done. done. }
  rewrite lookup_alter. case_decide; subst; rewrite Ef; simpl; eexists; (split; [done|]); simpl.
  - split; [apply (norm_wait_next _ _ (Nf th))|]. by rewrite Sf, Hsw.
  - split; [apply (norm_wait_next _ _ (Nf th))|]. by rewrite Sf, Hsw.
Qed.

(** ** wait_on and wake_one *)

Lemma wait_on_spec s rl zl q wl :
  sched_inv s rl zl -> blocked_on s q wl ->
  match rl with
  | [] => wait_on q s = None
  | x :: rl' =>
    exists q' s' zl', wait_on q s = Some (q', s') /\ sched_inv s' rl' zl' /\ current s' = x /\
      blocked_on s' q' (wl ++ [current s]) /\
      (forall q2 wl2, blocked_on s q2 wl2 -> (forall t, t ∈ wl2 -> t ∉ wl) -> blocked_on s' q2 wl2)
  end.
Proof.
  intros I B. destruct (running_unqueued _ _ _ I) as [Hnr Hnz]. pose proof I as [Q Hr].
  assert (current s ∉ wl) as Hcw by (intros Hin; apply (bo_state _ _ _ B) in Hin; congruence).
  destruct set_wait_next_laws as (L1 & L2 & L3).
  assert (current s <> 0) as Hc0 by apply (qd_nz _ _ _ Q), Q.
  unfold wait_on, waitq_push, thread_current.
  destruct (q_push set_wait_next q (current s) (threads s)) as [q' m] eqn:E.
  destruct (q_push_rep t_wait_next set_wait_next L1 L2 L3 _ _ _ _ _ _ (bo_rep _ _ _ B) Hcw Hc0
    (qd_cur _ _ _ Q) E) as (Q' & R & O).
  pose proof (sched_inv_wait_relinked _ _ _ _ I R) as I1.
  set (s1 := set_threads s m) in *.
  set (s2 := upd s1 (current s1) (set_state THREAD_BLOCKED)).
  pose proof (block_pre s1 rl zl I1) as P. fold s2 in P.
  assert (sched_block s1 = sched_schedule s2) as -> by done.
  assert (forall q2 wl2, qrep t_wait_next m q2 wl2 ->
    (forall t, t ∈ wl2 -> t = current s \/ state_of s t = Some THREAD_BLOCKED) -> blocked_on s2 q2 wl2) as Blk.
  { intros q2 wl2 Hq Hst. split.
    - eapply qrep_ext; [exact Hq|]. intros y Hy. unfold s2, upd. cbn [threads set_threads s1].
      rewrite lookup_alter. case_decide; [|done]. subst. by destruct (m !! _).
    - intros t Ht. destruct (decide (t = current s)) as [->|Hne].
      + apply (state_upd s1); [|done]. destruct (R (current s)) as [z Ez]. cbn [threads s1 set_threads].
        rewrite Ez. apply fmap_is_Some, Q.
      + destruct (Hst t Ht) as [|Hb]; [done|]. unfold state_of, thread_at, s2, upd in *. cbn [threads set_threads s1].
        rewrite lookup_alter_ne by done. destruct (R t) as [z ->]. by destruct (threads s !! t). }
  assert (blocked_on s2 q' (wl ++ [current s])) as B2.
  { apply Blk; [done|]. intros t [Ht|Ht]%elem_of_app; [right; by apply (bo_state _ _ _ B)|].
    left. by apply list_elem_of_singleton in Ht. }
  destruct rl as [|x rl].
  - rewrite (sched_schedule_empty _ _ P). unfold running. change (current s2) with (current s).
    by rewrite (bo_state _ _ _ B2 (current s)) by (apply elem_of_app; right; left).
  - destruct (sched_schedule_spec _ _ _ _ P) as (s' & E' & I' & Hc & _).
    rewrite E'. assert (running s2 = false) as Hrun.
    { unfold running. change (current s2) with (current s). apply bool_decide_eq_false_2.
      rewrite (bo_state _ _ _ B2 (current s)) by (apply elem_of_app; right; left). done. }
    rewrite Hrun in I'. eexists q', s', _. split; [done|]. split; [exact I'|]. split; [done|].
    split; [by eapply schedule_blocked|]. intros q2 wl2 B' Hd.
    eapply schedule_blocked; [exact P|exact E'|]. apply Blk; [|intros t Ht; right; by apply (bo_state _ _ _ B')].
    eapply qrep_disjoint; [apply B'|]. intros t Ht. apply O; [|by apply Hd].
    intros ->. apply (bo_state _ _ _ B') in Ht. congruence.
Qed.

Lemma wake_one_empty s q : blocked_on s q [] -> wake_one q s = (q, s).
Proof.
  intros B. unfold wake_one, waitq_pop. rewrite (q_pop_empty _ _ _ _ (bo_rep _ _ _ B)). simpl. by destruct s.
Qed.

Lemma wake_one_spec s rl zl q x wl :
  sched_inv s rl zl -> blocked_on s q (x :: wl) ->
  exists q' s', wake_one q s = (q', s') /\ sched_inv s' (rl ++ [x]) zl /\ current s' = current s /\
    blocked_on s' q' wl /\ state_of s' x = Some THREAD_READY /\
    (forall t, t <> x -> state_of s' t = state_of s t) /\
    (forall q2 wl2, blocked_on s q2 wl2 -> x ∉ wl2 -> blocked_on s' q2 wl2) /\
    (forall y, y <> x -> t_wait_next <$> threads s' !! y = t_wait_next <$> threads s !! y).
Proof.
  intros I B. unfold wake_one, waitq_pop.
  destruct (q_pop_rep t_wait_next set_wait_next _ _ _ _ (bo_rep _ _ _ B)) as (q' & E & Q'). rewrite E.
  destruct (qrep_in _ _ _ _ x (bo_rep _ _ _ B)) as [Hx0 [tx Htx]]; [left|].
  rewrite (proj2 (Z.eqb_neq x 0) Hx0). set (m := alter (set_wait_next 0) x (threads s)) in *.
  destruct set_wait_next_laws as (L1 & L2 & L3).
  assert (relinked set_wait_next (threads s) m) as R by (apply relinked_alter with (link := t_wait_next); done).
  pose proof (sched_inv_wait_relinked _ _ _ _ I R) as I1. set (s1 := set_threads s m) in *.
  assert (state_of s1 x = Some THREAD_BLOCKED) as Hbx.
  { unfold s1. rewrite state_of_wait_relinked by done. apply (bo_state _ _ _ B). left. }
  pose proof (unblock_inv s1 rl zl x I1) as I2. rewrite decide_True in I2 by done.
  assert (NoDup (x :: wl)) as [Hxw D]%NoDup_cons by apply B.
  assert (forall y, y <> x -> exists z, threads (sched_unblock x s1) !! y = set_next z <$> threads s1 !! y) as Hoth.
  { intros y Hy. unfold sched_unblock. rewrite decide_True by done. unfold sched_enqueue, q_push. cbv zeta.
    destruct (threads s1 !! y) as [ty|] eqn:Ey.
    - zif; cbn [threads upd set_threads]; rewrite !lookup_alter; repeat case_decide; subst; try done;
        rewrite ?lookup_alter_ne, ?Ey by done.
      + exists (t_next ty). simpl. by destruct ty.
      + by eexists.
      + exists (t_next ty). simpl. by destruct ty.
    - exists 0. zif; cbn [threads upd set_threads]; rewrite !lookup_alter; repeat case_decide; subst; try done;
        rewrite ?lookup_alter_ne, ?Ey by done; done. }
  assert (forall t, t <> x -> state_of (sched_unblock x s1) t = state_of s t) as Hst.
  { intros t Ht. rewrite <- (state_of_wait_relinked s m t R). fold s1. unfold state_of, thread_at.
    destruct (Hoth t Ht) as [z ->]. by destruct (threads s1 !! t). }
  assert (forall q2 wl2, blocked_on s1 q2 wl2 -> x ∉ wl2 -> blocked_on (sched_unblock x s1) q2 wl2) as Hfr.
  { intros q2 wl2 B2 Hn2. eapply blocked_on_ext; [done|]. intros t th Ht Hth Hb.
    destruct (Hoth t) as [z Ez]; [by intros ->|]. rewrite Ez, Hth. simpl. eexists. done. }
  eexists q', _. split; [done|]. split; [exact I2|]. split.
  { unfold sched_unblock. case_decide; [|done]. unfold sched_enqueue. by destruct (q_push _ _ _ _). }
  split; [|split; [|split; [done|split; [|]]]].
  - apply Hfr; [|done]. split; [done|]. intros t Ht. unfold s1. rewrite state_of_wait_relinked by done.
    apply (bo_state _ _ _ B). by right.
  - destruct I2 as [Q2 _]. assert (x ∈ rl ++ [x]) as Hin by (apply elem_of_app; right; left).
    destruct (qrep_in _ _ _ _ x (qd_ready _ _ _ Q2) Hin) as [_ [th Eth]]. unfold state_of, thread_at.
    rewrite Eth. simpl. f_equal. by apply (qd_states _ _ _ Q2 _ _ Eth).
  - intros q2 wl2 B2 Hn2. apply Hfr; [|done]. split.
    + eapply qrep_disjoint; [apply B2|]. intros t Ht. unfold s1, m. cbn [threads set_threads].
      rewrite lookup_alter_ne; [done|]. by intros ->.
    + intros t Ht. unfold s1. rewrite state_of_wait_relinked by done. by apply (bo_state _ _ _ B2).
  - intros y Hy. destruct (Hoth y Hy) as [z ->]. unfold s1, m. cbn [threads set_threads].
    rewrite lookup_alter_ne by done. by destruct (threads s !! y).
Qed.

(** ** What the rest of the kernel may do meanwhile

    Steps of the scheduler that do not go through the queue [q]: threads block
    on other objects, are woken from them, are created, exit, yield, are
    preempted.  Nothing but the object's own operations wakes its waiters. *)
Inductive env_step (q : waitq_t) : sched -> sched -> Prop :=
| env_yield s l s' : sched_yield s = Some (l, s') -> env_step q s s'
| env_preempt s l s' : sched_preempt_point s = Some (l, s') -> env_step q s s'
| env_block s l s' : sched_block s = Some (l, s') -> env_step q s s'
| env_exit s l s' : thread_exit s = Some (l, s') -> env_step q s s'
| env_tick s : env_step q s (sched_tick s)
| env_unblock s t : (forall wl, qrep t_wait_next (threads s) q wl -> t ∉ wl) ->
    env_step q s (sched_unblock t s)
| env_spawn s t th : threads s !! t = None -> t <> 0 -> t_state th = THREAD_READY ->
    env_step q s (sched_enqueue t (set_threads s (<[t := th]> (threads s)))).

Definition awake (s : sched) (t : Z) : Prop :=
  state_of s t = Some THREAD_READY \/ state_of s t = Some THREAD_RUNNING.

(** [s'] keeps what [s] promised to sleepers and to woken threads, [c] aside. *)
Definition calm (c : Z) (s s' : sched) : Prop :=
  (forall t, t <> c -> awake s t -> awake s' t) /\
  (forall t th, t <> c -> threads s !! t = Some th -> t_state th = THREAD_BLOCKED ->
     exists th', threads s' !! t = Some th' /\ t_wait_next th' = t_wait_next th /\ t_state th' = THREAD_BLOCKED).

Lemma calm_blocked c s s' q wl : calm c s s' -> c ∉ wl -> blocked_on s q wl -> blocked_on s' q wl.
Proof.
  intros [_ C] Hc B. eapply blocked_on_ext; [done|]. intros t th Ht. apply C. by intros ->.
Qed.

Lemma calm_transf c s s' g :
  transf (threads s) (threads s') g -> (forall t st, t <> c -> g t st = st) -> calm c s s'.
Proof.
  intros T G. split.
  - intros t Ht. unfold awake, state_of, thread_at. destruct (T t) as (f & -> & _ & Sf).
    destruct (threads s !! t); simpl; [|done]. by rewrite Sf, G.
  - intros t th Ht E Hb. destruct (T t) as (f & -> & Nf & Sf). rewrite E. simpl. eexists. split; [done|].
    split; [by apply norm_wait_next|]. by rewrite Sf, G.
Qed.

Lemma calm_trans c s1 s2 s3 : calm c s1 s2 -> calm c s2 s3 -> calm c s1 s3.
Proof.
  intros [A1 B1] [A2 B2]. split; [eauto|]. intros t th Ht E Hb.
  destruct (B1 t th Ht E Hb) as (t2 & E2 & Hw2 & Hb2). destruct (B2 t t2 Ht E2 Hb2) as (t3 & E3 & Hw3 & Hb3).
  exists t3. split; [done|]. split; [congruence|done].
Qed.

Lemma calm_schedule s rl zl l s' c :
  sched_pre s rl zl -> sched_schedule s = Some (l, s') -> (running s = false -> c = current s) -> calm c s s'.
Proof.
  intros P E Hc. destruct rl as [|x rl].
  { rewrite (sched_schedule_empty _ _ P) in E. destruct (running s); [|done]. injection E as _ ->.
    split; [done|]. eauto. }
  destruct (sched_schedule_spec _ _ _ _ P) as (s1 & E1 & _ & _ & _ & m & T & Hm).
  rewrite E1 in E. injection E as _ ->. pose proof (proj1 P) as Q.
  assert (forall t th, t <> c -> threads s !! t = Some th -> t_state th <> THREAD_DEAD ->
    exists th', threads s' !! t = Some th' /\ t_wait_next th' = t_wait_next th /\
      t_state th' = switch_states (current s) x (running s) t (t_state th)) as H.
  { intros t th Ht Eth Hd. rewrite Hm, decide_False.
    - destruct (T t) as (f & Ef & Nf & Sf). rewrite Eth in Ef. simpl in Ef.
      rewrite lookup_alter. case_decide; subst; rewrite Ef; simpl; eexists; (split; [done|]); simpl;
        (split; [apply (norm_wait_next _ _ (Nf th))|]; apply Sf).
    - intros Hin. apply Hd. apply (qd_states _ _ _ Q _ _ Eth).
      destruct (resumes s x); [done|by apply not_elem_of_nil in Hin]. }
  split.
  - intros t Ht Ha. unfold awake, state_of, thread_at in *. destruct (threads s !! t) as [th|] eqn:Eth; [|naive_solver].
    destruct (H t th Ht Eth) as (th' & -> & _ & Es); [simpl in Ha; intros E; rewrite E in Ha; naive_solver|].
    simpl. rewrite Es. unfold switch_states. simpl in Ha. repeat case_decide; subst; auto.
    destruct (running s); [by left|]. by destruct (Ht (eq_sym (Hc eq_refl))).
  - intros t th Ht Eth Hb. destruct (H t th Ht Eth) as (th' & -> & Hw & Es); [by rewrite Hb|].
    exists th'. split; [done|]. split; [done|]. rewrite Es. unfold switch_states.
    rewrite decide_False.
    + case_decide; subst; [|done]. destruct (running s) eqn:Er; [|done].
      apply bool_decide_eq_true in Er. unfold state_of, thread_at in Er. rewrite Eth in Er. simpl in Er. congruence.
    + intros ->. assert (t_state th = THREAD_READY) by (apply (qd_states _ _ _ Q _ _ Eth); left). congruence.
Qed.

Lemma env_step_calm q s s' rl zl wl :
  sched_inv s rl zl -> blocked_on s q wl -> env_step q s s' ->
  (exists rl' zl', sched_inv s' rl' zl') /\ blocked_on s' q wl /\
  (forall t, t <> current s -> awake s t -> awake s' t).
Proof.
  intros I B St.
  assert (current s ∉ wl) as Hcw by (intros Hin; apply (bo_state _ _ _ B) in Hin; destruct I; congruence).
  assert (calm (current s) s s' -> (exists rl' zl', sched_inv s' rl' zl') ->
    (exists rl' zl', sched_inv s' rl' zl') /\ blocked_on s' q wl /\
    (forall t, t <> current s -> awake s t -> awake s' t)) as Fin.
  { intros C H. split; [done|]. split; [by eapply calm_blocked|apply C]. }
  assert (calm (current s) s s) as Crefl by (split; eauto).
  destruct St as [s l s' E|s l s' E|s l s' E|s l s' E|s|s t Hnt|s t th Hf Ht Hth].
  - apply Fin; [|by apply (sched_step_spec _ OpYield l _ _ _ I), step_yield]. unfold sched_yield in E. zif_in E.
    + by injection E as _ <-.
    + eapply calm_schedule; [by apply sched_inv_pre|done|done].
  - apply Fin; [|by apply (sched_step_spec _ OpPreempt l _ _ _ I), step_preempt]. unfold sched_preempt_point in E.
    zif_in E; [by injection E as _ <-|]. eapply calm_trans; [|eapply calm_schedule; [|exact E|done]].
    + split; eauto. + apply sched_inv_pre in I as [[] ?]. by split.
  - apply Fin; [|by apply (sched_step_spec _ OpBlock l _ _ _ I), step_block].
    eapply calm_trans; [|eapply calm_schedule; [by apply block_pre|exact E|done]].
    eapply calm_transf; [apply (transf_alter _ _ (set_state THREAD_BLOCKED) (fun _ => THREAD_BLOCKED)); done|].
    intros t st Ht. simpl. by rewrite decide_False.
  - apply Fin; [|by apply (sched_step_spec _ OpExit l _ _ _ I), step_exit].
    destruct (exit_pre _ _ _ I) as (P & _ & Hc & _ & T).
    eapply calm_trans; [|eapply calm_schedule; [exact P|exact E|done]].
    eapply calm_transf; [exact T|]. intros t st Ht. unfold put. by rewrite decide_False.
  - apply Fin; [|by apply (sched_step_spec _ OpTick [] _ _ _ I), step_tick]. unfold sched_tick.
    assert (forall v, calm (current s) s (upd s (current s) (set_ticks v))) as Ct.
    { intros v. eapply calm_transf;
        [apply (transf_alter _ _ (set_ticks v) (fun st => st)); done|]. intros t st Ht. simpl. by rewrite decide_False. }
    repeat zif; try apply Ct; done.
  - specialize (Hnt wl (bo_rep _ _ _ B)). unfold sched_unblock. case_decide as Hb; [|by split; [eauto|]].
    pose proof (unblock_inv s rl zl t I) as I2. unfold sched_unblock in I2. rewrite !decide_True in I2 by done.
    assert (exists g, transf (threads s) (threads (sched_enqueue t (upd s t (set_state THREAD_READY)))) g /\
      forall y st, g y st = if decide (y = t) then THREAD_READY else st) as (g & T & G).
    { destruct set_next_laws as (L1 & L2 & L3).
      eexists. split; [eapply transf_trans; [apply (transf_alter _ t (set_state THREAD_READY)
        (fun _ => THREAD_READY)); done|apply transf_relinked]|done].
      unfold sched_enqueue, q_push. cbv zeta.
      zif; cbn [threads upd set_threads]; [|eapply relinked_trans; [done|..]];
        apply relinked_alter with (link := t_next); done. }
    split; [eauto|]. split.
    + eapply calm_blocked; [|exact Hnt|done]. eapply calm_transf; [exact T|]. intros y st Hy.
      rewrite G. by rewrite decide_False.
    + intros y Hy. unfold awake, state_of, thread_at. destruct (T y) as (f & -> & _ & Sf).
      destruct (threads s !! y); simpl; [|done]. rewrite Sf, G. case_decide; auto.
  - destruct (spawn_inv s rl zl t th I Hf Ht Hth) as (I' & _ & R). apply Fin; [|eauto].
    pose proof (transf_relinked _ _ R) as T. split.
    + intros y Hy. unfold awake, state_of, thread_at. destruct (T y) as (f & -> & _ & Sf).
      rewrite lookup_insert. case_decide; subst; [by rewrite Hf; naive_solver|].
      destruct (threads s !! y); simpl; [|done]. by rewrite Sf.
    + intros y ty Hy Ey Hb. destruct (T y) as (f & -> & Nf & Sf). rewrite lookup_insert_ne by congruence.
      rewrite Ey. simpl. eexists. split; [done|]. split; [by apply norm_wait_next|]. by rewrite Sf.
Qed.

(** ** Threads sharing one mutex

    [hold]: threads that returned from [mutex_lock] (or a successful
    [mutex_trylock]) and have not unlocked; [woken]: threads taken off the wait
    queue by an unlock that have not been scheduled since.  A woken thread that
    runs starts over at the head of its loop, so it takes no other step. *)
Record msys := MkMS { ms_m : mutex_t; ms_s : sched; woken : gset Z; hold : gset Z }.

Definition head_set (q : waitq_t) : gset Z := if q_head q =? 0 then ∅ else {[ q_head q ]}.

Inductive mstep : msys -> msys -> Prop :=
| m_lock_done m s W H m' s' : mutex_lock m s = Done (m', s') ->
    mstep (MkMS m s W H) (MkMS m' s' (W ∖ {[ current s ]}) (H ∪ {[ current s ]}))
| m_lock_blocked m s W H m' s' : mutex_lock m s = Blocked (m', s') ->
    mstep (MkMS m s W H) (MkMS m' s' (W ∖ {[ current s ]}) H)
| m_trylock m s W H b m' : current s ∉ W -> mutex_trylock m s = (b, m') ->
    mstep (MkMS m s W H) (MkMS m' s W (if b then H ∪ {[ current s ]} else H))
| m_unlock m s W H m' s' : current s ∉ W -> mutex_unlock m s = Some (m', s') ->
    mstep (MkMS m s W H) (MkMS m' s' (W ∪ head_set (m_waiters m)) (H ∖ {[ current s ]}))
| m_env m s W H s' : current s ∉ W -> env_step (m_waiters m) s s' ->
    mstep (MkMS m s W H) (MkMS m s' W H).

Inductive mreach (s0 : sched) : msys -> Prop :=
| mreach_init : mreach s0 (MkMS mutex_init s0 ∅ ∅)
| mreach_step M M' : mreach s0 M -> mstep M M' -> mreach s0 M'.

(** [wl]: the waiters, in the order they blocked. *)
Record minv (M : msys) : Prop := {
  mi_sched : exists rl zl, sched_inv (ms_s M) rl zl;
  mi_wait : exists wl, blocked_on (ms_s M) (m_waiters (ms_m M)) wl /\
    (m_locked (ms_m M) = 0 -> wl = [] \/ woken M <> ∅);
  mi_woken t : t ∈ woken M -> awake (ms_s M) t;
  mi_hold : (m_locked (ms_m M) = 0 /\ hold M = ∅) \/
            (m_locked (ms_m M) = 1 /\ hold M = {[ m_owner (ms_m M) ]}) }.

Lemma head_set_nil s q : blocked_on s q [] -> head_set q = ∅.
Proof. intros B. unfold head_set. by rewrite (qrep_head _ _ _ _ (bo_rep _ _ _ B)). Qed.

Lemma head_set_cons s q x wl : blocked_on s q (x :: wl) -> head_set q = {[ x ]}.
Proof.
  intros B. unfold head_set. rewrite (qrep_head _ _ _ _ (bo_rep _ _ _ B)). simpl.
  destruct (qrep_in _ _ _ _ x (bo_rep _ _ _ B)) as [Hx _]; [left|]. by rewrite (proj2 (Z.eqb_neq x 0) Hx).
Qed.

(** Blocking on a queue wakes nobody and disturbs no woken thread. *)
Lemma wait_on_awake s rl zl q wl q' s' t :
  sched_inv s rl zl -> blocked_on s q wl -> wait_on q s = Some (q', s') ->
  t <> current s -> awake s t -> awake s' t.
Proof.
  intros I B E Ht Ha. unfold wait_on, waitq_push, thread_current in E.
  destruct (q_push set_wait_next q (current s) (threads s)) as [q1 m] eqn:Ep.
  assert (current s ∉ wl) as Hcw by (intros Hin; apply (bo_state _ _ _ B) in Hin; destruct I; congruence).
  destruct set_wait_next_laws as (L1 & L2 & L3).
  pose proof (proj1 I) as Q. assert (current s <> 0) as Hc0 by apply (qd_nz _ _ _ Q), Q.
  destruct (q_push_rep t_wait_next set_wait_next L1 L2 L3 _ _ _ _ _ _ (bo_rep _ _ _ B) Hcw Hc0
    (qd_cur _ _ _ Q) Ep) as (_ & R & _).
  destruct (sched_block (set_threads s m)) as [[l s2]|] eqn:Eb; [|done]. injection E as _ <-.
  pose proof (sched_inv_wait_relinked _ _ _ _ I R) as I1.
  assert (awake (set_threads s m) t) as Ha1 by (unfold awake in *; by rewrite state_of_wait_relinked).
  pose proof (blocked_on_nil (set_threads s m)) as B0.
  destruct (env_step_calm q_empty _ _ _ _ [] I1 B0 (env_block _ _ _ _ Eb)) as (_ & _ & H). by apply H.
Qed.

Lemma mstep_inv M M' : minv M -> mstep M M' -> minv M'.
Proof.
  intros [(rl & zl & I) (wl & B & NL) HW HH] St.
  destruct St as [m s W H m' s' E|m s W H m' s' E|m s W H b m' Hc E|m s W H m' s' Hc E|m s W H s' Hc E];
    cbn [ms_m ms_s woken hold] in *.
  - unfold mutex_lock, mutex_lock_irqoff in E. zif_in E; [by destruct (wait_on _ _) as [[? ?]|]|].
    injection E as <- <-. destruct HH as [[_ ->]|[? _]]; [|congruence].
    split; cbn [ms_m ms_s woken hold m_waiters m_locked m_owner]; [eauto|exists wl; split; [done|done]|set_solver|right].
    split; [done|]. unfold thread_current. set_solver.
  - unfold mutex_lock, mutex_lock_irqoff in E. zif_in E; [|done].
    destruct (wait_on (m_waiters m) s) as [[q s1]|] eqn:Ew; [|done]. injection E as <- <-.
    destruct HH as [[? _]|[Hl HH]]; [done|].
    pose proof (wait_on_spec _ _ _ _ _ I B) as Sp. destruct rl as [|x rl]; [congruence|].
    destruct Sp as (q' & s2 & zl' & E' & I' & _ & B' & _). rewrite E' in Ew. injection Ew as -> ->.
    split; cbn [ms_m ms_s woken hold m_waiters m_locked m_owner]; [eauto| | |by right].
    + exists (wl ++ [current s]). split; [done|congruence].
    + intros t [Ht Hne]%elem_of_difference. eapply wait_on_awake; [exact I|exact B|exact E'| |by apply HW].
      by intros ->; apply Hne, elem_of_singleton.
  - unfold mutex_trylock in E. zif_in E; injection E as <- <-; [by split; eauto|].
    destruct HH as [[_ ->]|[? _]]; [|congruence].
    split; cbn [ms_m ms_s woken hold m_waiters m_locked m_owner]; [eauto|exists wl; split; [done|done]|done|right].
    split; [done|]. unfold thread_current. set_solver.
  - unfold mutex_unlock, mutex_unlock_irqoff in E. zif_in E; [done|]. zif_in E; [done|].
    destruct (wake_one (m_waiters m) s) as [q s1] eqn:Ew. injection E as <- <-.
    destruct HH as [[? _]|[Hl ->]]; [done|].
    assert (({[m_owner m]} : gset Z) ∖ {[current s]} = ∅) as Hemp by (unfold thread_current in *; set_solver).
    destruct wl as [|x wl].
    + rewrite (wake_one_empty _ _ B) in Ew. injection Ew as <- <-. rewrite (head_set_nil _ _ B).
      split; cbn [ms_m ms_s woken hold m_waiters m_locked m_owner]; [eauto|eauto|set_solver|by left].
    + destruct (wake_one_spec _ _ _ _ _ _ I B) as (q' & s2 & E' & I' & _ & B' & Hx & Ho & _).
      rewrite E' in Ew. injection Ew as -> ->. rewrite (head_set_cons _ _ _ _ B).
      split; cbn [ms_m ms_s woken hold m_waiters m_locked m_owner]; [eauto| | |by left].
      * exists wl. split; [done|]. intros _. right. set_solver.
      * intros t Ht. destruct (decide (t = x)) as [->|]; [by left|]. unfold awake. rewrite Ho by done.
        apply HW. set_solver.
  - destruct (env_step_calm _ _ _ _ _ _ I B E) as (I' & B' & A).
    split; cbn [ms_m ms_s woken hold]; [done|eauto| |done].
    intros t Ht. apply A; [by intros ->|by apply HW].
Qed.

(** C19: on every interleaving of threads that lock, try-lock and unlock one
    mutex while the rest of the kernel runs: at most one thread holds it, the
    holder is the recorded owner and its unlock does not panic, an unlock by any
    other thread panics, and a wake-up is never lost: a free mutex with threads
    on its wait queue has a woken thread that is ready to retry. *)
Theorem mutex_correct (s0 : sched) (rl zl : list Z) (M : msys) :
  sched_inv s0 rl zl -> mreach s0 M ->
  (forall t, t ∈ hold M <-> m_locked (ms_m M) = 1 /\ m_owner (ms_m M) = t) /\
  (current (ms_s M) ∈ hold M <-> mutex_unlock (ms_m M) (ms_s M) <> None) /\
  (m_locked (ms_m M) = 0 -> waitq_empty (m_waiters (ms_m M)) = false ->
     exists t, t ∈ woken M /\ awake (ms_s M) t).
Proof.
  intros I0 R. assert (minv M) as [_ (wl & B & NL) HW HH].
  { induction R as [|M M' _ IH St]; [|by eapply mstep_inv].
    split; cbn [ms_m ms_s woken hold mutex_init m_waiters m_locked]; [eauto| |set_solver|by left].
    exists []. split; [apply blocked_on_nil|by left]. }
  split; [|split].
  - intros t. destruct HH as [[Hl ->]|[Hl ->]]; rewrite Hl; set_solver.
  - unfold mutex_unlock, mutex_unlock_irqoff, thread_current.
    destruct HH as [[Hl ->]|[Hl ->]]; rewrite Hl; simpl; [set_solver|].
    destruct (Z.eqb_spec (m_owner (ms_m M)) (current (ms_s M))) as [E|E]; simpl.
    + destruct (wake_one _ _). set_solver.
    + set_solver.
  - intros Hl He. destruct (NL Hl) as [->|Hne].
    + unfold waitq_empty in He. rewrite (qrep_head _ _ _ _ (bo_rep _ _ _ B)) in He. done.
    + destruct (set_choose_L _ Hne) as [t Ht]. exists t. split; [done|by apply HW].
Qed.

Lemma mutex_correct_witness :
  8 ∈ hold (MkMS (MkMutex 1 8 waitq_init) demo_sched ∅ {[ 8 ]}) <-> 1 = 1 /\ 8 = 8.
Proof.
  apply (mutex_correct demo_sched [16; 32] [] (MkMS (MkMutex 1 8 waitq_init) demo_sched ∅ {[ 8 ]}) demo_sched_inv).
  pose proof (m_lock_done mutex_init demo_sched ∅ ∅ (MkMutex 1 8 waitq_init) demo_sched eq_refl) as St.
  replace (∅ ∖ {[current demo_sched]}) with (∅ : gset Z) in St by done.
  replace (∅ ∪ {[current demo_sched]}) with ({[8]} : gset Z) in St by done.
  exact (mreach_step _ _ _ (mreach_init demo_sched) St).
Defined.

(** ** Threads sharing one semaphore

    [posts] and [taken] count the completed [sem_post]s and the completed
    [sem_wait]s and successful [sem_trywait]s. *)
Record ssys := MkSS { ss_m : semaphore_t; ss_s : sched; ss_woken : gset Z; posts : Z; taken : Z }.

Inductive sstep : ssys -> ssys -> Prop :=
| s_wait_done m s W p t m' s' : sem_wait m s = Done (m', s') ->
    sstep (MkSS m s W p t) (MkSS m' s' (W ∖ {[ current s ]}) p (t + 1))
| s_wait_blocked m s W p t m' s' : sem_wait m s = Blocked (m', s') ->
    sstep (MkSS m s W p t) (MkSS m' s' (W ∖ {[ current s ]}) p t)
| s_trywait m s W p t b m' : current s ∉ W -> sem_trywait m = (b, m') ->
    sstep (MkSS m s W p t) (MkSS m' s W p (if b then t + 1 else t))
| s_post m s W p t m' s' : current s ∉ W -> sem_post m s = (m', s') ->
    sstep (MkSS m s W p t) (MkSS m' s' (W ∪ head_set (s_waiters m)) (p + 1) t)
| s_env m s W p t s' : current s ∉ W -> env_step (s_waiters m) s s' ->
    sstep (MkSS m s W p t) (MkSS m s' W p t).

Inductive sreach (s0 : sched) (init : Z) : ssys -> Prop :=
| sreach_init : sreach s0 init (MkSS (sem_init init) s0 ∅ 0 0)
| sreach_step M M' : sreach s0 init M -> sstep M M' -> sreach s0 init M'.

Record sinv (init : Z) (M : ssys) : Prop := {
  si_sched : exists rl zl, sched_inv (ss_s M) rl zl;
  si_wait : exists wl, blocked_on (ss_s M) (s_waiters (ss_m M)) wl /\
    (wl <> [] -> s_count (ss_m M) <= Z.of_nat (size (ss_woken M))) /\
    (forall t, t ∈ ss_woken M -> t ∉ wl);
  si_woken t : t ∈ ss_woken M -> awake (ss_s M) t;
  si_posts : 0 <= posts M /\ 0 <= taken M;
  si_count : init + posts M < 2 ^ 31 -> s_count (ss_m M) = init + posts M - taken M /\ 0 <= s_count (ss_m M) }.

Lemma size_difference_ge (W : gset Z) x : Z.of_nat (size W) - 1 <= Z.of_nat (size (W ∖ {[ x ]})).
Proof.
  destruct (decide (x ∈ W)) as [Hx|Hx].
  - rewrite size_difference by set_solver. rewrite size_singleton. lia.
  - replace (W ∖ {[ x ]}) with W by set_solver. lia.
Qed.

Lemma i32_le x : x < 2 ^ 31 -> - 2 ^ 31 <= x -> i32 x <= x.
Proof. intros. rewrite i32_small; lia. Qed.

Lemma sstep_inv init M M' :
  0 <= init -> init + posts M' < 2 ^ 31 -> sinv init M -> sstep M M' -> sinv init M'.
Proof.
  intros Hi Hb [(rl & zl & I) (wl & B & NL & Hd) HW HP HC] St.
  destruct St as [m s W p k m' s' E|m s W p k m' s' E|m s W p k b m' Hc E|m s W p k m' s' Hc E|m s W p k s' Hc E];
    cbn [ss_m ss_s ss_woken posts taken] in *; (destruct HC as [HC1 HC2]; [lia|]).
  - unfold sem_wait in E. zif_in E; [by destruct (wait_on _ _) as [[? ?]|]|]. injection E as <- <-.
    split; cbn [ss_m ss_s ss_woken posts taken s_count s_waiters]; rewrite ?i32_small by lia; [eauto| |set_solver|lia|lia].
    exists wl. split; [done|]. split; [|set_solver]. intros Hne. specialize (NL Hne).
    pose proof (size_difference_ge W (current s)). lia.
  - unfold sem_wait in E. zif_in E; [|done].
    destruct (wait_on (s_waiters m) s) as [[q s1]|] eqn:Ew; [|done]. injection E as <- <-.
    pose proof (wait_on_spec _ _ _ _ _ I B) as Sp. destruct rl as [|x rl]; [congruence|].
    destruct Sp as (q' & s2 & zl' & E' & I' & _ & B' & _). rewrite E' in Ew. injection Ew as -> ->.
    split; cbn [ss_m ss_s ss_woken posts taken s_count s_waiters]; [eauto| | |lia|lia].
    + exists (wl ++ [current s]). split; [done|]. split; [lia|]. intros t. set_solver.
    + intros t [Ht Hne]%elem_of_difference. eapply wait_on_awake; [exact I|exact B|exact E'| |by apply HW].
      by intros ->; apply Hne, elem_of_singleton.
  - unfold sem_trywait in E. zif_in E; injection E as <- <-; [by split; eauto|].
    split; cbn [ss_m ss_s ss_woken posts taken s_count s_waiters]; rewrite ?i32_small by lia; [eauto| |done|lia|lia].
    exists wl. split; [done|]. split; [|done]. intros Hne. specialize (NL Hne). lia.
  - unfold sem_post in E. destruct (wake_one (s_waiters m) s) as [q s1] eqn:Ew. injection E as <- <-.
    assert (0 <= s_count m + 1 < 2 ^ 31 \/ 2 ^ 31 <= s_count m + 1) as [Hs|Hs] by lia.
    2: lia.
    destruct wl as [|x wl].
    + rewrite (wake_one_empty _ _ B) in Ew. injection Ew as <- <-. rewrite (head_set_nil _ _ B).
      split; cbn [ss_m ss_s ss_woken posts taken s_count s_waiters]; rewrite ?i32_small by lia; [eauto| |set_solver|lia|lia].
      exists []. split; [done|]. split; [done|set_solver].
    + destruct (wake_one_spec _ _ _ _ _ _ I B) as (q' & s2 & E' & I' & _ & B' & Hx & Ho & _).
      rewrite E' in Ew. injection Ew as -> ->. rewrite (head_set_cons _ _ _ _ B).
      assert (NoDup (x :: wl)) as [Hxw _]%NoDup_cons by apply B.
      assert (x ∉ W) as HxW by (intros Hin; apply (Hd x Hin); left).
      split; cbn [ss_m ss_s ss_woken posts taken s_count s_waiters]; rewrite ?i32_small by lia; [eauto| | |lia|lia].
      * exists wl. split; [done|]. split; [|set_solver]. intros _. specialize (NL ltac:(done)).
        rewrite size_union by set_solver. rewrite size_singleton. lia.
      * intros t Ht. destruct (decide (t = x)) as [->|]; [by left|]. unfold awake. rewrite Ho by done.
        apply HW. set_solver.
  - destruct (env_step_calm _ _ _ _ _ _ I B E) as (I' & B' & A).
    split; cbn [ss_m ss_s ss_woken posts taken]; [done|eauto| |lia|lia].
    intros t Ht. apply A; [by intros ->|by apply HW].
Qed.

Lemma sstep_posts M M' : sstep M M' -> posts M <= posts M'.
Proof. intros []; simpl; lia. Qed.

(** On every interleaving of waits, try-waits and posts on one semaphore
    (fewer than [2^31] of them in total): the count is the initial value plus
    the posts minus the waits that returned and never goes below zero, so no
    more waits return than units were available; and no wake-up is lost: while
    threads are queued, the units on hand do not exceed the woken threads that
    are about to retry. *)
Theorem semaphore_correct (s0 : sched) (rl zl : list Z) (init : Z) (M : ssys) :
  sched_inv s0 rl zl -> 0 <= init -> init + posts M < 2 ^ 31 -> sreach s0 init M ->
  s_count (ss_m M) = init + posts M - taken M /\ taken M <= init + posts M /\
  (waitq_empty (s_waiters (ss_m M)) = false -> s_count (ss_m M) <= Z.of_nat (size (ss_woken M))) /\
  (forall t, t ∈ ss_woken M -> awake (ss_s M) t).
Proof.
  intros I0 Hi Hb R. assert (sinv init M) as [_ (wl & B & NL & _) HW HP HC].
  { induction R as [|M M' _ IH St].
    - split; cbn [ss_m ss_s ss_woken posts taken sem_init s_waiters s_count]; [eauto| |set_solver|lia|lia].
      exists []. split; [apply blocked_on_nil|]. set_solver.
    - eapply sstep_inv; [done|done| |done]. apply IH. pose proof (sstep_posts _ _ St). lia. }
  destruct (HC Hb) as [Ec Hc]. split; [done|]. split; [lia|]. split; [|done]. intros He.
  destruct wl as [|x wl]; [|by apply NL]. unfold waitq_empty in He.
  rewrite (qrep_head _ _ _ _ (bo_rep _ _ _ B)) in He. done.
Qed.

Lemma semaphore_correct_witness :
  s_count (sem_init 1) = 1 + 0 - 0 /\
  s_count (MkSem 0 waitq_init) = 1 + 0 - (0 + 1) /\ 0 + 1 <= 1 + 0.
Proof.
  split; [done|].
  pose proof (sreach_step demo_sched 1 _ _ (sreach_init demo_sched 1)
    (s_wait_done (sem_init 1) demo_sched ∅ 0 0 (MkSem 0 waitq_init) demo_sched eq_refl)) as R.
  destruct (semaphore_correct demo_sched [16; 32] [] 1
    (MkSS (MkSem 0 waitq_init) demo_sched (∅ ∖ {[current demo_sched]}) 0 (0 + 1)) demo_sched_inv
    ltac:(lia) ltac:(done) R) as (E & L & _).
  split; [exact E|exact L].
Defined.

(** ** Condition variables *)

(** [cond_wait] by the owner queues the caller on the condition variable and
    releases the mutex in one step, so no signal sent after the release can miss
    it: afterwards the caller is the last waiter of the condition variable, the
    mutex is free, its first waiter (if any) was made ready, and the next ready
    thread runs; the only failure is the panic when there is no thread to run. *)
Theorem cond_wait_correct (c : condvar_t) (m : mutex_t) (s : sched) (rl zl cl ml : list Z) :
  sched_inv s rl zl -> blocked_on s (c_waiters c) cl -> blocked_on s (m_waiters m) ml ->
  (forall t, t ∈ cl -> t ∉ ml) -> m_locked m = 1 -> m_owner m = current s ->
  match rl ++ take 1 ml with
  | [] => cond_wait c m s = None
  | x :: rl' =>
    exists c' m' s' zl', cond_wait c m s = Some (c', m', s') /\
      blocked_on s' (c_waiters c') (cl ++ [current s]) /\
      m_locked m' = 0 /\ m_owner m' = 0 /\ blocked_on s' (m_waiters m') (drop 1 ml) /\
      current s' = x /\ sched_inv s' rl' zl'
  end.
Proof.
  intros I Bc Bm Hd Hl Ho. pose proof I as [Q Hr].
  assert (forall q wl, blocked_on s q wl -> current s ∉ wl) as Hcur
    by (intros q wl B Hin; apply (bo_state _ _ _ B) in Hin; congruence).
  destruct set_wait_next_laws as (L1 & L2 & L3).
  assert (current s <> 0) as Hc0 by apply (qd_nz _ _ _ Q), Q.
  unfold cond_wait, waitq_push, thread_current.
  destruct (q_push set_wait_next (c_waiters c) (current s) (threads s)) as [q th] eqn:E.
  destruct (q_push_rep t_wait_next set_wait_next L1 L2 L3 _ _ _ _ _ _ (bo_rep _ _ _ Bc) (Hcur _ _ Bc) Hc0
    (qd_cur _ _ _ Q) E) as (Qc & R & O).
  pose proof (sched_inv_wait_relinked _ _ _ _ I R) as I1. set (s1 := set_threads s th) in *.
  assert (blocked_on s1 (m_waiters m) ml) as Bm1.
  { split.
    - eapply qrep_disjoint; [apply Bm|]. intros y Hy. apply O; [|intros Hin; by apply (Hd y)].
      intros ->. by apply (Hcur _ _ Bm).
    - intros t Ht. unfold s1. rewrite state_of_wait_relinked by done. by apply (bo_state _ _ _ Bm). }
  assert (forall t, t ∈ cl -> state_of s1 t = Some THREAD_BLOCKED) as Bc1.
  { intros t Ht. unfold s1. rewrite state_of_wait_relinked by done. by apply (bo_state _ _ _ Bc). }
  (* the unlock: the mutex's first waiter becomes ready *)
  assert (exists q2 s2, mutex_unlock_irqoff m s1 = Some (MkMutex 0 0 q2, s2) /\ sched_inv s2 (rl ++ take 1 ml) zl /\
    current s2 = current s /\ blocked_on s2 q2 (drop 1 ml) /\ qrep t_wait_next (threads s2) q (cl ++ [current s]) /\
    forall t, t ∈ cl -> state_of s2 t = Some THREAD_BLOCKED) as (q2 & s2 & -> & I2 & Hc2 & Bm2 & Qc2 & Bc2).
  { unfold mutex_unlock_irqoff, thread_current. rewrite Hl, Ho. change (current s1) with (current s).
    rewrite Z.eqb_refl. cbn [negb Z.eqb]. destruct ml as [|x ml].
    - rewrite (wake_one_empty _ _ Bm1). eexists _, _. rewrite app_nil_r. eauto 10.
    - destruct (wake_one_spec _ _ _ _ _ _ I1 Bm1) as (q2 & s2 & -> & I2 & Hc2 & B2 & _ & St & _ & F).
      eexists _, _. split; [done|]. split; [done|]. split; [done|]. split; [done|].
      assert (x ∉ cl) as Hx by (intros Hin; apply (Hd x Hin); left).
      split; [|intros t Ht; rewrite St; [by apply Bc1|by intros ->]].
      eapply qrep_ext; [exact Qc|]. intros y Hy. apply F. intros ->.
      apply elem_of_app in Hy as [?|Hy%list_elem_of_singleton]; [done|]. subst. apply (Hcur _ _ Bm). left. }
  pose proof (block_pre s2 _ zl I2) as P. rewrite Hc2 in P.
  set (s3 := upd s2 (current s) (set_state THREAD_BLOCKED)) in *.
  assert (sched_block s2 = sched_schedule s3) as -> by (unfold sched_block; by rewrite Hc2).
  assert (calm (current s) s2 s3) as C.
  { eapply calm_transf; [apply (transf_alter _ _ (set_state THREAD_BLOCKED) (fun _ => THREAD_BLOCKED)); done|].
    intros t st Ht. simpl. by rewrite decide_False. }
  assert (blocked_on s3 q (cl ++ [current s])) as Bc3.
  { split.
    - eapply qrep_ext; [exact Qc2|]. intros y _. unfold s3, upd. cbn [threads set_threads].
      rewrite lookup_alter. case_decide; subst; [|done]. by destruct (threads s2 !! _).
    - intros t [Ht|Ht%list_elem_of_singleton]%elem_of_app.
      + unfold s3, state_of, thread_at, upd. cbn [threads set_threads].
        rewrite lookup_alter_ne; [by apply Bc2|]. intros <-. by apply (Hcur _ _ Bc).
      + subst t. apply state_upd; [|done]. rewrite <- Hc2. apply I2. }
  assert (blocked_on s3 q2 (drop 1 ml)) as Bm3.
  { eapply calm_blocked; [exact C| |exact Bm2]. intros Hin. apply (Hcur _ _ Bm).
    destruct ml; [done|]. rewrite skipn_cons, drop_0 in Hin. by right. }
  assert (current s3 = current s) as Hc3 by (unfold s3, upd; by cbn [current set_threads]).
  assert (running s3 = false) as Hrun.
  { unfold running. rewrite Hc3. apply bool_decide_eq_false_2.
    rewrite (bo_state _ _ _ Bc3 (current s)) by (apply elem_of_app; right; left). done. }
  destruct (rl ++ take 1 ml) as [|x rl'].
  - by rewrite (sched_schedule_empty _ _ P), Hrun.
  - destruct (sched_schedule_spec _ _ _ _ P) as (s' & E' & I' & Hc & _). rewrite E'. rewrite Hrun in I'.
    eexists _, _, s', _. split; [done|]. cbn [c_waiters m_locked m_owner m_waiters].
    split; [by eapply schedule_blocked|]. split; [done|]. split; [done|]. split; [by eapply schedule_blocked|].
    split; [done|exact I'].
Qed.

Lemma cond_wait_correct_witness :
  exists c' m' s' zl', cond_wait cond_init (MkMutex 1 8 waitq_init) demo_sched = Some (c', m', s') /\
    blocked_on s' (c_waiters c') [8] /\ m_locked m' = 0 /\ m_owner m' = 0 /\
    blocked_on s' (m_waiters m') [] /\ current s' = 16 /\ sched_inv s' [32] zl'.
Proof.
  apply (cond_wait_correct cond_init (MkMutex 1 8 waitq_init) demo_sched [16; 32] [] [] [] demo_sched_inv
    (blocked_on_nil _) (blocked_on_nil _)); [|done|done]. by intros t ?%not_elem_of_nil.
Defined.

Lemma broadcast_loop_spec fuel q s rl zl wl :
  sched_inv s rl zl -> blocked_on s q wl -> (length wl < fuel)%nat ->
  exists q' s', broadcast_loop fuel q s = (q', s') /\ sched_inv s' (rl ++ wl) zl /\
    blocked_on s' q' [] /\ current s' = current s.
Proof.
  revert q s rl wl. induction fuel as [|fuel IH]; intros q s rl wl I B Hf; [lia|]. simpl. destruct wl as [|x wl].
  - unfold waitq_pop. rewrite (q_pop_empty _ _ _ _ (bo_rep _ _ _ B)). simpl. eexists _, _. split; [done|].
    rewrite app_nil_r. by destruct s.
  - destruct (wake_one_spec _ _ _ _ _ _ I B) as (q1 & s1 & E & I1 & Hc & B1 & _).
    unfold wake_one in E. destruct (waitq_pop q (threads s)) as [[w q2] m] eqn:Ep.
    unfold waitq_pop in Ep. destruct (q_pop_rep _ set_wait_next _ _ _ _ (bo_rep _ _ _ B)) as (q3 & E3 & _).
    rewrite E3 in Ep. injection Ep as <- <- <-.
    destruct (qrep_in _ _ _ _ x (bo_rep _ _ _ B)) as [Hx _]; [left|].
    rewrite (proj2 (Z.eqb_neq x 0) Hx) in E |- *. injection E as -> Es. rewrite Es.
    destruct (IH q1 s1 _ _ I1 B1) as (q' & s' & E' & I' & B' & Hc'); [simpl in Hf; lia|].
    eexists _, _. split; [done|]. rewrite <- app_assoc in I'. split; [done|]. split; [done|congruence].
Qed.

(** [cond_broadcast] terminates and makes every waiter ready, in the order
    they waited, leaving the condition variable empty and the caller running. *)
Theorem cond_broadcast_correct (c : condvar_t) (s : sched) (rl zl wl : list Z) :
  sched_inv s rl zl -> blocked_on s (c_waiters c) wl ->
  exists c' s', cond_broadcast c s = (c', s') /\ sched_inv s' (rl ++ wl) zl /\
    waitq_empty (c_waiters c') = true /\ current s' = current s.
Proof.
  intros I B. unfold cond_broadcast.
  destruct (broadcast_loop_spec (S (size (threads s))) _ _ _ _ _ I B) as (q & s' & -> & I' & B' & Hc).
  { pose proof (qrep_length _ _ _ _ (bo_rep _ _ _ B)). lia. }
  eexists _, _. split; [done|]. split; [done|]. split; [|done]. unfold waitq_empty. simpl.
  by rewrite (qrep_head _ _ _ _ (bo_rep _ _ _ B')).
Qed.

(** A thread waits on the queue of a condition variable, the next broadcasts. *)
Lemma cond_broadcast_correct_witness :
  exists q1 s1 c2 s2, wait_on waitq_init demo_sched = Some (q1, s1) /\
    cond_broadcast (MkCond q1) s1 = (c2, s2) /\ waitq_empty (c_waiters c2) = true /\ current s2 = current s1.
Proof.
  destruct (wait_on_spec demo_sched [16; 32] [] waitq_init [] demo_sched_inv) as (q1 & s1 & zl' & E & I & _ & B & _).
  { apply blocked_on_nil. }
  destruct (cond_broadcast_correct (MkCond q1) s1 [32] zl' [8] I B) as (c2 & s2 & E2 & _ & W & Hc).
  by exists q1, s1, c2, s2.
Defined.

(** ** The address space a switch loads *)

Lemma space_alter f x (m : gmap Z thread) y : (forall t, t_space (f t) = t_space t) -> t_space <$> alter f x m !! y = t_space <$> m !! y.
Proof. intros Hf. rewrite lookup_alter. case_decide; [|done]. subst. destruct (m !! _); cbn; by rewrite ?Hf. Qed.

Lemma space_push (set_link : Z -> thread -> thread) q t m y :
  (forall l t, t_space (set_link l t) = t_space t) -> t_space <$> (q_push set_link q t m).2 !! y = t_space <$> m !! y.
Proof. intros Hf. unfold q_push. destruct (_ =? 0); cbn [snd]; by rewrite ?space_alter by (intros; apply Hf). Qed.

Lemma schedule_loaded s l s' : sched_schedule s = Some (l, s') ->
  loaded_space s' = loaded_space s \/ loaded_space s' = default 0 (t_space <$> threads s !! current s').
Proof.
  unfold sched_schedule, ready_dequeue, q_pop. destruct (Z.eqb_spec (q_head (ready s)) 0) as [E0|E0].
  { change (0 =? 0) with true. cbv iota. change (0 =? 0) with true. cbv iota. case_decide; [|done]. intros [= <- <-]. by left. }
  set (x := q_head (ready s)) in *. rewrite (proj2 (Z.eqb_neq x 0) E0). cbv zeta iota. rewrite (proj2 (Z.eqb_neq x 0) E0).
  set (s1 := MkSched (alter _ x _) _ _ _ _ _ _ _). set (s2 := if decide _ then _ else s1).
  assert (loaded_space s2 = loaded_space s /\ forall y, t_space <$> threads s2 !! y = t_space <$> threads s !! y) as [L2 S2].
  { assert (forall y, t_space <$> threads s1 !! y = t_space <$> threads s !! y) as S1 by (intros y; by apply space_alter).
    subst s2. case_decide; [|done]. unfold sched_enqueue. destruct (q_push _ _ _ _) as [q m] eqn:E. cbn [loaded_space threads]. split; [done|]. intros y.
    apply (f_equal snd) in E. cbn [snd] in E. rewrite <- E, space_push by done. cbn [threads upd set_threads]. by rewrite space_alter. }
  set (s3 := upd s2 x _). assert (loaded_space s3 = loaded_space s) as L3 by done.
  assert (t_space <$> thread_at s3 x = t_space <$> threads s !! x) as S3 by (unfold thread_at, s3, upd; cbn [threads set_threads]; by rewrite space_alter).
  assert (match thread_at s3 x with Some t => t_space t | None => 0 end = default 0 (t_space <$> threads s !! x)) as -> by (rewrite <- S3; by destruct (thread_at s3 x)).
  set (sp := default 0 _). set (psp := match thread_at s3 (current s) with Some t => t_space t | None => 0 end). clearbody psp.
  assert (forall s4 : sched, current s4 = x -> loaded_space s4 = (if sp =? psp then loaded_space s3 else sp) ->
    loaded_space s4 = loaded_space s \/ loaded_space s4 = default 0 (t_space <$> threads s !! current s4)) as Fin.
  { intros s4 -> ->. rewrite L3. destruct (sp =? psp); [by left|by right]. }
  destruct (match thread_at s3 x with Some t => t_started t | None => false end); [|intros [= <- <-]; by apply Fin].
  unfold reap_zombies. destruct (reap_loop _ _ _) as [l0 m0]. intros [= <- <-]. by apply Fin.
Qed.

Lemma wait_on_loaded q s q' s' : wait_on q s = Some (q', s') ->
  loaded_space s' = loaded_space s \/ loaded_space s' = default 0 (t_space <$> threads s !! current s').
Proof.
  unfold wait_on, waitq_push. destruct (q_push _ _ _ _) as [q1 m] eqn:E. apply (f_equal snd) in E. cbn [snd] in E.
  destruct (sched_block _) as [[l s1]|] eqn:Eb; [|done]. intros [= <- <-]. apply schedule_loaded in Eb as [Eb|Eb]; rewrite Eb; [by left|right].
  cbn [threads upd set_threads current]. by rewrite space_alter, <- E, space_push.
Qed.
