(* ===== verification/Channel.v ===== *)
(** * Message channels

    [channel.c]: a bounded ring of fixed-size messages, each with an optional
    capability, and two wait queues.  The byte buffer, the capability slots and
    the three indices are as in the source; [contents] is the queue they stand
    for and the operations refine a bounded FIFO. *)
From S2P Require Import Prelude Errno Bytes Queue Iface Sched Sync.

Record chan_cap_t := MkCap { cs_kind : Z; cs_rights : Z; cs_object : Z; cs_in_use : Z; cs_owns : Z }.

Definition cap_none : chan_cap_t := MkCap 0 0 0 0 0.

Record channel_t := MkChan {
  ch_buffer_at : Z;            (* address of the buffer block *)
  ch_caps_at : Z;              (* address of the capability slots *)
  ch_buffer : list Z;
  ch_caps : list chan_cap_t;
  ch_capacity : Z;
  ch_msg_size : Z;
  ch_count : Z;
  ch_head : Z;
  ch_tail : Z;
  ch_senders : waitq_t;
  ch_receivers : waitq_t }.

Definition sizeof_channel_t : Z := 88.
Definition sizeof_chan_cap_t : Z := 32.

Definition copy_bytes (dst : list Z) (off : Z) (src : list Z) (n : Z) : list Z := copy_loop dst off src 0 n.

Section channel_create.
Context {H : Type} `{KHeap H}.

(** [None]: [exy_free] panicked.  The channel object's address comes first. *)
Definition channel_create (capacity msg_size : Z) (h : H) : option (Z * option channel_t * H) :=
  if (capacity =? 0) || (msg_size =? 0) then Some (0, None, h)
  else
    let '(c, h1) := exy_zalloc sizeof_channel_t h in
    if c =? 0 then Some (0, None, h1)
    else
      let bytes := u64 (capacity * msg_size) in
      let '(buf, h2) := exy_malloc bytes h1 in
      if buf =? 0 then
        match exy_free c h2 with Some h3 => Some (0, None, h3) | None => None end
      else
        let '(caps, h3) := exy_zalloc (u64 (capacity * sizeof_chan_cap_t)) h2 in
        if caps =? 0 then
          match exy_free buf h3 with
          | Some h4 => match exy_free c h4 with Some h5 => Some (0, None, h5) | None => None end
          | None => None
          end
        else
          Some (c, Some (MkChan buf caps (replicate (Z.to_nat bytes) 0)
                    (replicate (Z.to_nat capacity) cap_none) capacity msg_size 0 0 0 waitq_init waitq_init), h3).

(** [None]: one of the two panics, or a panic of [exy_free]. *)
Definition channel_destroy (addr : Z) (c : channel_t) (h : H) : option H :=
  if addr =? 0 then Some h
  else if negb (waitq_empty (ch_senders c)) then None
  else if negb (waitq_empty (ch_receivers c)) then None
  else
    match exy_free (ch_caps_at c) h with
    | Some h1 => match exy_free (ch_buffer_at c) h1 with Some h2 => exy_free addr h2 | None => None end
    | None => None
    end.
End channel_create.

Definition channel_count (c : channel_t) : Z := ch_count c.
Definition channel_capacity (c : channel_t) : Z := ch_capacity c.

Definition peek_copy (c : channel_t) (slot : Z) : list Z := slice (ch_buffer c) slot (ch_msg_size c).

(** A capability as a sender passes it and a receiver gets it. *)
Record cap := MkC { c_kind : Z; c_rights : Z; c_obj : Z; c_owns : bool }.

Definition cap_slot (x : option cap) : chan_cap_t :=
  match x with
  | Some k => MkCap (c_kind k) (c_rights k) (c_obj k) 1 (if c_owns k then 1 else 0)
  | None => cap_none
  end.

(** The ring part of [enqueue]. *)
Definition ring_put (c : channel_t) (msg : list Z) (x : option cap) : channel_t :=
  let slot := u64 (ch_tail c * ch_msg_size c) in
  MkChan (ch_buffer_at c) (ch_caps_at c)
    (copy_bytes (ch_buffer c) slot msg (ch_msg_size c))
    (zset (ch_caps c) (ch_tail c) (cap_slot x))
    (ch_capacity c) (ch_msg_size c) (u64 (ch_count c + 1)) (ch_head c)
    (u64 (ch_tail c + 1) mod ch_capacity c) (ch_senders c) (ch_receivers c).

Definition with_senders (c : channel_t) (q : waitq_t) : channel_t :=
  MkChan (ch_buffer_at c) (ch_caps_at c) (ch_buffer c) (ch_caps c) (ch_capacity c) (ch_msg_size c)
    (ch_count c) (ch_head c) (ch_tail c) q (ch_receivers c).
Definition with_receivers (c : channel_t) (q : waitq_t) : channel_t :=
  MkChan (ch_buffer_at c) (ch_caps_at c) (ch_buffer c) (ch_caps c) (ch_capacity c) (ch_msg_size c)
    (ch_count c) (ch_head c) (ch_tail c) (ch_senders c) q.

Definition enqueue (c : channel_t) (msg : list Z) (x : option cap) (s : sched) : channel_t * sched :=
  let c1 := ring_put c msg x in
  let '(q, s') := wake_one (ch_receivers c1) s in
  (with_receivers c1 q, s').

(** The slot offset and the capability slot's index; [None] is [-EAGAIN]. *)
Definition channel_peek_try (c : channel_t) : option (Z * chan_cap_t) :=
  if ch_count c =? 0 then None
  else Some (u64 (ch_head c * ch_msg_size c), zget cap_none (ch_caps c) (ch_head c)).

Definition channel_peek_blocking (c : channel_t) (s : sched) : outcome (Z * chan_cap_t * (channel_t * sched)) :=
  if ch_count c =? 0 then
    match wait_on (ch_receivers c) s with
    | Some (q, s') => Blocked (0, cap_none, (with_receivers c q, s'))
    | None => Panic
    end
  else Done (u64 (ch_head c * ch_msg_size c), zget cap_none (ch_caps c) (ch_head c), (c, s)).

(** The ring part of [channel_commit]. *)
Definition ring_take (c : channel_t) : channel_t :=
  MkChan (ch_buffer_at c) (ch_caps_at c) (ch_buffer c) (zset (ch_caps c) (ch_head c) cap_none)
    (ch_capacity c) (ch_msg_size c) (u64 (ch_count c - 1)) (u64 (ch_head c + 1) mod ch_capacity c)
    (ch_tail c) (ch_senders c) (ch_receivers c).

Definition channel_commit (c : channel_t) (s : sched) : channel_t * sched :=
  let c1 := ring_take c in
  let '(q, s') := wake_one (ch_senders c1) s in
  (with_senders c1 q, s').

Definition channel_try_send (c : channel_t) (msg : list Z) (s : sched) : bool * channel_t * sched :=
  if ch_count c =? ch_capacity c then (false, c, s)
  else let '(c', s') := enqueue c msg None s in (true, c', s').

Definition channel_send_cap (c : channel_t) (msg : list Z) (x : option cap) (s : sched)
  : outcome (channel_t * sched) :=
  if ch_count c =? ch_capacity c then
    match wait_on (ch_senders c) s with
    | Some (q, s') => Blocked (with_senders c q, s')
    | None => Panic
    end
  else Done (enqueue c msg x s).

Definition channel_send (c : channel_t) (msg : list Z) (s : sched) : outcome (channel_t * sched) :=
  if ch_count c =? ch_capacity c then
    match wait_on (ch_senders c) s with
    | Some (q, s') => Blocked (with_senders c q, s')
    | None => Panic
    end
  else Done (enqueue c msg None s).

(** [None]: refused or empty, nothing changed. *)
Definition channel_try_recv (c : channel_t) (s : sched) : option (list Z * channel_t * sched) :=
  match channel_peek_try c with
  | None => None
  | Some (slot, cs) =>
    if negb (cs_in_use cs =? 0) then None
    else let '(c', s') := channel_commit c s in Some (peek_copy c slot, c', s')
  end.

(** [Done (None, _)] is the refusal ([return false]). *)
Definition channel_recv (c : channel_t) (s : sched) : outcome (option (list Z) * (channel_t * sched)) :=
  match channel_peek_blocking c s with
  | Panic => Panic
  | Blocked (_, _, cs) => Blocked (None, cs)
  | Done (slot, cs, (c, s)) =>
    if negb (cs_in_use cs =? 0) then Done (None, (c, s))
    else Done (Some (peek_copy c slot), channel_commit c s)
  end.

(** What the out pointers of the [_cap] receives hold. *)
Definition cap_out (cs : chan_cap_t) : option cap :=
  if negb (cs_in_use cs =? 0)
  then Some (MkC (cs_kind cs) (cs_rights cs) (cs_object cs) (negb (cs_owns cs =? 0)))
  else None.

Definition channel_try_recv_cap (c : channel_t) (s : sched) : option (list Z * option cap * channel_t * sched) :=
  match channel_peek_try c with
  | None => None
  | Some (slot, cs) =>
    let '(c', s') := channel_commit c s in Some (peek_copy c slot, cap_out cs, c', s')
  end.

Definition channel_recv_cap (c : channel_t) (s : sched)
  : outcome (option (list Z * option cap) * (channel_t * sched)) :=
  match channel_peek_blocking c s with
  | Panic => Panic
  | Blocked (_, _, cs) => Blocked (None, cs)
  | Done (slot, cs, (c, s)) => Done (Some (peek_copy c slot, cap_out cs), channel_commit c s)
  end.

(** ** The queue a ring stands for *)

Definition slot_of (c : channel_t) (i : Z) : Z := (ch_head c + i) mod ch_capacity c.

Definition msg_at (c : channel_t) (k : Z) : list Z * option cap :=
  (slice (ch_buffer c) (k * ch_msg_size c) (ch_msg_size c), cap_out (zget cap_none (ch_caps c) k)).

Definition contents (c : channel_t) : list (list Z * option cap) :=
  (fun i => msg_at c (slot_of c i)) <$> seqZ 0 (ch_count c).

Record chan_inv (c : channel_t) : Prop := {
  ci_cap : 0 < ch_capacity c < 2 ^ 63;
  ci_msz : 0 < ch_msg_size c;
  ci_bytes : ch_capacity c * ch_msg_size c < 2 ^ 63;
  ci_buf : zlen (ch_buffer c) = ch_capacity c * ch_msg_size c;
  ci_caps : zlen (ch_caps c) = ch_capacity c;
  ci_count : 0 <= ch_count c <= ch_capacity c;
  ci_head : 0 <= ch_head c < ch_capacity c;
  ci_tail : ch_tail c = (ch_head c + ch_count c) mod ch_capacity c }.

Lemma contents_length c : chan_inv c -> zlen (contents c) = ch_count c.
Proof. intros I. unfold zlen, contents. rewrite length_fmap, length_seqZ. pose proof (ci_count _ I). lia. Qed.

Lemma cap_out_slot x : cap_out (cap_slot x) = x.
Proof. destruct x as [[k r o []]|]; done. Qed.

Lemma slot_range c i : chan_inv c -> 0 <= slot_of c i < ch_capacity c.
Proof. intros I. apply Z.mod_pos_bound, I. Qed.

Lemma slot_fits c k : chan_inv c -> 0 <= k < ch_capacity c ->
  0 <= k * ch_msg_size c /\ k * ch_msg_size c + ch_msg_size c <= zlen (ch_buffer c) /\
  k * ch_msg_size c < 2 ^ 63.
Proof. intros I Hk. rewrite (ci_buf _ I). destruct I. nia. Qed.

(** Distinct occupied positions are distinct slots. *)
Lemma slot_inj c i j :
  chan_inv c -> 0 <= i < ch_capacity c -> 0 <= j < ch_capacity c -> slot_of c i = slot_of c j -> i = j.
Proof.
  intros I Hi Hj E. unfold slot_of in E. destruct I as [[HC _] _ _ _ _ _ Hh _].
  pose proof (Z.div_mod (ch_head c + i) (ch_capacity c) ltac:(lia)) as D1.
  pose proof (Z.div_mod (ch_head c + j) (ch_capacity c) ltac:(lia)) as D2.
  rewrite E in D1. assert ((ch_head c + i) / ch_capacity c = (ch_head c + j) / ch_capacity c); [|nia].
  assert (- 1 < (ch_head c + i) / ch_capacity c - (ch_head c + j) / ch_capacity c < 1); [nia|lia].
Qed.

Lemma msg_at_put c msg x k :
  chan_inv c -> ch_count c < ch_capacity c -> 0 <= k < ch_capacity c -> k <> ch_tail c ->
  msg_at (ring_put c msg x) k = msg_at c k.
Proof.
  intros I Hf Hk Hne. unfold msg_at, ring_put. cbn [ch_buffer ch_caps ch_msg_size].
  assert (0 <= ch_tail c < ch_capacity c) as Ht by (rewrite (ci_tail _ I); apply Z.mod_pos_bound, I).
  destruct (slot_fits c _ I Ht) as (A1 & A2 & A3), (slot_fits c _ I Hk) as (B1 & B2 & B3).
  pose proof (ci_msz _ I). rewrite u64_small by lia. f_equal.
  - unfold copy_bytes. apply slice_copy_loop_ne; [done|done|done|nia].
  - rewrite zget_zset_ne by lia. done.
Qed.

Lemma msg_at_put_tail c msg x :
  chan_inv c -> zlen msg = ch_msg_size c -> msg_at (ring_put c msg x) (ch_tail c) = (msg, x).
Proof.
  intros I Hm. unfold msg_at, ring_put. cbn [ch_buffer ch_caps ch_msg_size].
  assert (0 <= ch_tail c < ch_capacity c) as Ht by (rewrite (ci_tail _ I); apply Z.mod_pos_bound, I).
  destruct (slot_fits c _ I Ht) as (A1 & A2 & A3). pose proof (ci_msz _ I). rewrite u64_small by lia. f_equal.
  - unfold copy_bytes. rewrite slice_copy_loop by lia. rewrite <- Hm. apply slice_full.
  - rewrite zget_zset_eq, cap_out_slot by (rewrite (ci_caps _ I); lia). done.
Qed.

Lemma ring_put_refines c msg x :
  chan_inv c -> ch_count c < ch_capacity c -> zlen msg = ch_msg_size c ->
  chan_inv (ring_put c msg x) /\ contents (ring_put c msg x) = contents c ++ [(msg, x)].
Proof.
  intros I Hf Hm. pose proof I as [Hcap Hmsz Hby Hbuf Hcaps Hcnt Hhd Htl].
  assert (0 <= ch_tail c < ch_capacity c) as Ht by (rewrite Htl; apply Z.mod_pos_bound; lia).
  assert (ch_tail c = slot_of c (ch_count c)) as Hts by done.
  split.
  - destruct (slot_fits c _ I Ht) as (A1 & A2 & A3).
    split; cbn [ch_capacity ch_msg_size ch_buffer ch_caps ch_count ch_head ch_tail ring_put]; try lia.
    + rewrite (u64_small (_ * _)) by lia. unfold copy_bytes. by rewrite zlen_copy_loop by lia.
    + by rewrite zlen_zset.
    + rewrite u64_small by lia. lia.
    + rewrite !u64_small by lia. rewrite Htl.
      rewrite Zplus_mod_idemp_l. f_equal. lia.
  - unfold contents. cbn [ch_count ring_put]. rewrite u64_small by lia. rewrite seqZ_snoc by lia.
    rewrite fmap_app. f_equal.
    + apply list_fmap_ext. intros i y Hy. apply lookup_seqZ in Hy as [-> Hi].
      change (slot_of (ring_put c msg x)) with (slot_of c). apply msg_at_put; [done|lia|by apply slot_range|].
      rewrite Hts. intros E. apply slot_inj in E; lia || done.
    + simpl. f_equal. change (slot_of (ring_put c msg x)) with (slot_of c). rewrite <- Hts. by apply msg_at_put_tail.
Qed.

Lemma ring_take_refines c m q :
  chan_inv c -> contents c = m :: q ->
  m = msg_at c (ch_head c) /\ chan_inv (ring_take c) /\ contents (ring_take c) = q.
Proof.
  intros I E. pose proof I as [Hcap Hmsz Hby Hbuf Hcaps Hcnt Hhd Htl].
  assert (0 < ch_count c) as Hpos.
  { rewrite <- (contents_length c I), E. unfold zlen. simpl. lia. }
  assert (slot_of c 0 = ch_head c) as H0 by (unfold slot_of; rewrite Z.add_0_r; apply Z.mod_small; lia).
  unfold contents in E. rewrite seqZ_cons in E by lia. simpl in E. rewrite H0 in E. injection E as E1 E2.
  split; [done|].
  assert (forall i, 0 <= i < ch_count c - 1 ->
    msg_at (ring_take c) (slot_of (ring_take c) i) = msg_at c (slot_of c (Z.succ i))) as Hs.
  { intros i Hi. assert (slot_of (ring_take c) i = slot_of c (Z.succ i)) as ->.
    { unfold slot_of. cbn [ch_head ch_capacity ring_take]. rewrite u64_small by lia.
      rewrite Zplus_mod_idemp_l. f_equal. lia. }
    unfold msg_at. cbn [ch_buffer ch_caps ch_msg_size ring_take]. f_equal. f_equal.
    pose proof (slot_range c (Z.succ i) I). apply zget_zset_ne; [lia|lia|].
    rewrite <- H0 at 1. intros E. apply slot_inj in E; lia || done. }
  split.
  - split; cbn [ch_capacity ch_msg_size ch_buffer ch_caps ch_count ch_head ch_tail ring_take]; try lia.
    + by rewrite zlen_zset.
    + rewrite u64_small by lia. lia.
    + apply Z.mod_pos_bound. lia.
    + rewrite !u64_small by lia. rewrite Htl, Zplus_mod_idemp_l. f_equal. lia.
  - rewrite <- E2. unfold contents. cbn [ch_count ring_take]. rewrite u64_small by lia.
    replace (Z.succ 0) with (1 + 0) by lia. rewrite <- fmap_add_seqZ, <- list_fmap_compose.
    replace (Z.pred (ch_count c)) with (ch_count c - 1) by lia.
    apply list_fmap_ext. intros i y Hy. apply lookup_seqZ in Hy as [-> Hi].
    rewrite Hs by lia. simpl. do 2 f_equal. lia.
Qed.

(** ** The operations refine a bounded FIFO *)

Lemma ring_with_senders c q : contents (with_senders c q) = contents c /\ (chan_inv c -> chan_inv (with_senders c q)).
Proof. split; [done|]. intros []. by split. Qed.

Lemma ring_with_receivers c q : contents (with_receivers c q) = contents c /\ (chan_inv c -> chan_inv (with_receivers c q)).
Proof. split; [done|]. intros []. by split. Qed.

Lemma enqueue_ring c msg x s :
  exists q s', enqueue c msg x s = (with_receivers (ring_put c msg x) q, s') /\ wake_one (ch_receivers c) s = (q, s').
Proof.
  unfold enqueue. change (ch_receivers (ring_put c msg x)) with (ch_receivers c).
  destruct (wake_one (ch_receivers c) s) as [q s'] eqn:E. eauto.
Qed.

Lemma commit_ring c s :
  exists q s', channel_commit c s = (with_senders (ring_take c) q, s') /\ wake_one (ch_senders c) s = (q, s').
Proof.
  unfold channel_commit. change (ch_senders (ring_take c)) with (ch_senders c).
  destruct (wake_one (ch_senders c) s) as [q s'] eqn:E. eauto.
Qed.

Lemma peek_head c m q :
  chan_inv c -> contents c = m :: q ->
  (ch_count c =? 0) = false /\ peek_copy c (u64 (ch_head c * ch_msg_size c)) = fst m /\
  cap_out (zget cap_none (ch_caps c) (ch_head c)) = snd m.
Proof.
  intros I E. destruct (ring_take_refines c m q I E) as (-> & _ & _).
  pose proof (slot_fits c _ I (ci_head _ I)). split; [|split; [|done]].
  - apply Z.eqb_neq. rewrite <- (contents_length c I), E. unfold zlen. simpl. lia.
  - unfold peek_copy, msg_at. rewrite u64_small by lia. done.
Qed.

Lemma contents_nil c : chan_inv c -> contents c = [] <-> ch_count c = 0.
Proof.
  intros I. rewrite <- (contents_length c I). unfold zlen. destruct (contents c); simpl; split; (done || lia).
Qed.

(** The channel is a bounded FIFO of messages with capabilities: a send
    blocks exactly when [capacity] messages are queued and otherwise appends the
    message with its capability; a capability-aware receive blocks exactly when
    nothing is queued and otherwise returns the oldest message with its
    capability and removes it; a plain receive does the same, except that it
    refuses a message that carries a capability and leaves it queued. *)
Theorem channel_refines_fifo (c : channel_t) (s : sched) (msg : list Z) (x : option cap) :
  chan_inv c -> zlen msg = ch_msg_size c ->
  match channel_send_cap c msg x s with
  | Done (c', _) => chan_inv c' /\ zlen (contents c) < ch_capacity c /\ contents c' = contents c ++ [(msg, x)]
  | Blocked (c', _) => chan_inv c' /\ zlen (contents c) = ch_capacity c /\ contents c' = contents c
  | Panic => zlen (contents c) = ch_capacity c /\ wait_on (ch_senders c) s = None
  end /\
  match channel_recv_cap c s with
  | Done (r, (c', _)) => chan_inv c' /\ exists m, r = Some m /\ contents c = m :: contents c'
  | Blocked (_, (c', _)) => chan_inv c' /\ contents c = [] /\ contents c' = []
  | Panic => contents c = [] /\ wait_on (ch_receivers c) s = None
  end /\
  match channel_recv c s with
  | Done (Some b, (c', _)) => chan_inv c' /\ contents c = (b, None) :: contents c'
  | Done (None, cs) => cs = (c, s) /\ exists b k q, contents c = (b, Some k) :: q
  | Blocked (_, (c', _)) => chan_inv c' /\ contents c = [] /\ contents c' = []
  | Panic => contents c = [] /\ wait_on (ch_receivers c) s = None
  end.
Proof.
  intros I Hm. pose proof (ci_count _ I). rewrite (contents_length c I). split; [|split].
  - unfold channel_send_cap. zif.
    + destruct (wait_on (ch_senders c) s) as [[q s']|]; [|done].
      destruct (ring_with_senders c q) as [E1 E2]. auto.
    + destruct (ring_put_refines c msg x I ltac:(lia) Hm) as [I' E].
      destruct (enqueue_ring c msg x s) as (q & s' & -> & _).
      destruct (ring_with_receivers (ring_put c msg x) q) as [E1 E2]. split; [auto|]. split; [lia|]. by rewrite E1.
  - unfold channel_recv_cap, channel_peek_blocking. destruct (contents c) as [|m q] eqn:E.
    + rewrite (proj1 (contents_nil c I) E). cbn [Z.eqb]. destruct (wait_on (ch_receivers c) s) as [[q s']|]; [|done].
      destruct (ring_with_receivers c q) as [E1 E2]. rewrite E1. auto.
    + destruct (peek_head c m q I E) as (-> & Hb & Hc). destruct (ring_take_refines c m q I E) as (_ & I' & E').
      destruct (commit_ring c s) as (w & s' & -> & _). destruct (ring_with_senders (ring_take c) w) as [E1 E2].
      split; [auto|]. exists m. rewrite Hb, Hc, E1, E'. by destruct m.
  - unfold channel_recv, channel_peek_blocking. destruct (contents c) as [|m q] eqn:E.
    + rewrite (proj1 (contents_nil c I) E). cbn [Z.eqb]. destruct (wait_on (ch_receivers c) s) as [[q s']|]; [|done].
      destruct (ring_with_receivers c q) as [E1 E2]. rewrite E1. auto.
    + destruct (peek_head c m q I E) as (-> & Hb & Hc). destruct (ring_take_refines c m q I E) as (_ & I' & E').
      unfold cap_out in Hc. destruct m as [b k]. simpl in Hb, Hc. zif.
      * split; [done|]. subst k. eauto.
      * destruct (commit_ring c s) as (w & s' & -> & _). destruct (ring_with_senders (ring_take c) w) as [E1 E2].
        split; [auto|]. rewrite Hb, E1, E'. by subst k.
Qed.

Definition demo_chan : channel_t :=
  MkChan 4096 8192 [0; 0; 0; 0; 0; 0] [cap_none; cap_none; cap_none] 3 2 0 2 2 waitq_init waitq_init.

Lemma demo_chan_inv : chan_inv demo_chan.
Proof. by split. Qed.

Lemma channel_refines_fifo_witness :
  match channel_send_cap demo_chan [7; 8] (Some (MkC 1 2 3 true)) demo_sched with
  | Done (c', _) => chan_inv c' /\ 0 < 3 /\ contents c' = [([7; 8], Some (MkC 1 2 3 true))]
  | _ => False
  end.
Proof.
  destruct (channel_refines_fifo demo_chan demo_sched [7; 8] (Some (MkC 1 2 3 true)) demo_chan_inv eq_refl) as [H _].
  exact H.
Defined.

(** ** Senders and receivers on one channel

    The ways a thread uses a channel: the two blocking sends; the blocking
    receives of [channel.c]; and [channel_peek_blocking] with [channel_commit], as
    the system calls use them, which may also return an error after the peek and
    leave the message where it is. *)

Definition peek_commit (refuse : bool) (c : channel_t) (s : sched) : outcome (option (list Z * option cap) * (channel_t * sched)) :=
  match channel_peek_blocking c s with
  | Panic => Panic
  | Blocked (_, _, cs) => Blocked (None, cs)
  | Done (slot, k, (c, s)) => if refuse then Done (None, (c, s)) else Done (Some (peek_copy c slot, cap_out k), channel_commit c s)
  end.

Definition plain_outcome {T} (o : outcome (option (list Z) * T)) : outcome (option (list Z * option cap) * T) :=
  let f '(m, x) := ((fun b => (b, None)) <$> m, x) in
  match o with Done y => Done (f y) | Blocked y => Blocked (f y) | Panic => Panic end.

Inductive sending (c : channel_t) (msg : list Z) (s : sched) : option cap -> outcome (channel_t * sched) -> Prop :=
| sending_plain : sending c msg s None (channel_send c msg s)
| sending_cap x : sending c msg s x (channel_send_cap c msg x s).

Inductive receiving (c : channel_t) (s : sched) : outcome (option (list Z * option cap) * (channel_t * sched)) -> Prop :=
| receiving_plain : receiving c s (plain_outcome (channel_recv c s))
| receiving_cap : receiving c s (channel_recv_cap c s)
| receiving_peek refuse : receiving c s (peek_commit refuse c s).

(** The receives that do not wait and find a message. *)
Inductive trying (c : channel_t) (s : sched) : list Z * option cap -> channel_t * sched -> Prop :=
| trying_plain b c' s' : channel_try_recv c s = Some (b, c', s') -> trying c s (b, None) (c', s')
| trying_cap b x c' s' : channel_try_recv_cap c s = Some (b, x, c', s') -> trying c s (b, x) (c', s')
| trying_peek slot k : channel_peek_try c = Some (slot, k) -> trying c s (peek_copy c slot, cap_out k) (channel_commit c s).

(** [sent] and [rcvd] record the messages of the completed sends and receives;
    [ws] and [wr] the senders and receivers woken and not yet scheduled;
    [declined] counts the woken receivers that left the message in the channel. *)
Record csys := MkCS { cy_c : channel_t; cy_s : sched; ws : gset Z; wr : gset Z;
  sent : list (list Z * option cap); rcvd : list (list Z * option cap); declined : Z }.

(** A woken thread is inside its blocking call, so it goes on with that call. *)
Inductive cstep : csys -> csys -> Prop :=
| c_send_done c s S R ss rs n msg x c' s' :
    zlen msg = ch_msg_size c -> current s ∉ R -> sending c msg s x (Done (c', s')) ->
    cstep (MkCS c s S R ss rs n)
      (MkCS c' s' (S ∖ {[ current s ]}) (R ∪ head_set (ch_receivers c)) (ss ++ [(msg, x)]) rs n)
| c_send_blocked c s S R ss rs n msg x c' s' :
    current s ∉ R -> sending c msg s x (Blocked (c', s')) ->
    cstep (MkCS c s S R ss rs n) (MkCS c' s' (S ∖ {[ current s ]}) R ss rs n)
| c_try_send c s S R ss rs n msg c' s' :
    zlen msg = ch_msg_size c -> current s ∉ S -> current s ∉ R -> channel_try_send c msg s = (true, c', s') ->
    cstep (MkCS c s S R ss rs n) (MkCS c' s' S (R ∪ head_set (ch_receivers c)) (ss ++ [(msg, None)]) rs n)
| c_recv_done c s S R ss rs n m c' s' :
    current s ∉ S -> receiving c s (Done (Some m, (c', s'))) ->
    cstep (MkCS c s S R ss rs n)
      (MkCS c' s' (S ∪ head_set (ch_senders c)) (R ∖ {[ current s ]}) ss (rs ++ [m]) n)
| c_recv_blocked c s S R ss rs n r c' s' :
    current s ∉ S -> receiving c s (Blocked (r, (c', s'))) ->
    cstep (MkCS c s S R ss rs n) (MkCS c' s' S (R ∖ {[ current s ]}) ss rs n)
| c_recv_refused c s S R ss rs n c' s' :
    current s ∉ S -> receiving c s (Done (None, (c', s'))) ->
    cstep (MkCS c s S R ss rs n) (MkCS c' s' S (R ∖ {[ current s ]}) ss rs (if bool_decide (current s ∈ R) then n + 1 else n))
| c_try_recv c s S R ss rs n m c' s' :
    current s ∉ S -> current s ∉ R -> trying c s m (c', s') ->
    cstep (MkCS c s S R ss rs n) (MkCS c' s' (S ∪ head_set (ch_senders c)) R ss (rs ++ [m]) n)
| c_env c s S R ss rs n s' :
    current s ∉ S -> current s ∉ R -> env_step (ch_senders c) s s' -> env_step (ch_receivers c) s s' ->
    cstep (MkCS c s S R ss rs n) (MkCS c s' S R ss rs n).

Inductive creach (c0 : channel_t) (s0 : sched) : csys -> Prop :=
| creach_init : creach c0 s0 (MkCS c0 s0 ∅ ∅ [] [] 0)
| creach_step M M' : creach c0 s0 M -> cstep M M' -> creach c0 s0 M'.

Record cinv (c0 : channel_t) (M : csys) : Prop := {
  cv_sched : exists rl zl, sched_inv (cy_s M) rl zl;
  cv_ring : chan_inv (cy_c M) /\ ch_capacity (cy_c M) = ch_capacity c0;
  cv_fifo : contents c0 ++ sent M = rcvd M ++ contents (cy_c M);
  cv_wait : exists sl rl, blocked_on (cy_s M) (ch_senders (cy_c M)) sl /\
    blocked_on (cy_s M) (ch_receivers (cy_c M)) rl /\
    (sl <> [] -> ch_capacity c0 - ch_count (cy_c M) <= Z.of_nat (size (ws M))) /\
    (rl <> [] -> ch_count (cy_c M) <= Z.of_nat (size (wr M)) + declined M) /\
    (forall t, t ∈ ws M -> t ∉ sl) /\ (forall t, t ∈ wr M -> t ∉ rl) /\ (forall t, t ∈ sl -> t ∉ rl);
  cv_awake t : t ∈ ws M \/ t ∈ wr M -> awake (cy_s M) t }.

(** What one wake-up does to a pair of queues and the woken sets. *)
Lemma wake_pair s rl zl q wl W q2 wl2 q' s' :
  sched_inv s rl zl -> blocked_on s q wl -> blocked_on s q2 wl2 -> (forall t, t ∈ wl -> t ∉ wl2) ->
  (forall t, t ∈ W -> t ∉ wl) -> wake_one q s = (q', s') ->
  (exists rl', sched_inv s' rl' zl) /\ blocked_on s' q' (drop 1 wl) /\ blocked_on s' q2 wl2 /\
  (forall t, awake s t \/ t ∈ head_set q -> awake s' t) /\
  (forall t, t ∈ W ∪ head_set q -> t ∉ drop 1 wl) /\
  (drop 1 wl <> [] -> Z.of_nat (size (W ∪ head_set q)) = Z.of_nat (size W) + 1) /\
  current s' = current s.
Proof.
  intros I B B2 Hd HW E. destruct wl as [|x wl].
  - rewrite (wake_one_empty _ _ B) in E. injection E as <- <-. rewrite (head_set_nil _ _ B). simpl.
    split; [eauto|]. split; [done|]. split; [done|]. split; [set_solver|]. split; [set_solver|]. done.
  - destruct (wake_one_spec _ _ _ _ _ _ I B) as (q1 & s1 & E1 & I1 & Hc & B1 & Hx & Ho & F & _).
    rewrite E1 in E. injection E as -> ->. rewrite (head_set_cons _ _ _ _ B), skipn_cons, drop_0.
    assert (NoDup (x :: wl)) as [Hxw _]%NoDup_cons by apply B.
    assert (x ∉ W) as HxW by (intros Hin; apply (HW x Hin); left).
    split; [eauto|]. split; [done|]. split; [apply F; [done|]; apply Hd; left|]. split; [|split; [|split; [|done]]].
    + intros t [Ha|Ht%elem_of_singleton]; [|subst; by left]. destruct (decide (t = x)) as [->|]; [by left|].
      unfold awake. by rewrite Ho.
    + intros t [Ht|Ht%elem_of_singleton]%elem_of_union; [|by subst]. specialize (HW t Ht).
      by apply not_elem_of_cons in HW as [_ ?].
    + intros _. rewrite size_union by set_solver. rewrite size_singleton. lia.
Qed.

(** Blocking the current thread on one of the two queues. *)
Lemma wait_pair s rl zl q wl q2 wl2 (W W2 : gset Z) q' s' :
  sched_inv s rl zl -> blocked_on s q wl -> blocked_on s q2 wl2 -> (forall t, t ∈ wl -> t ∉ wl2) ->
  (forall t, t ∈ W -> t ∉ wl) -> (forall t, t ∈ W \/ t ∈ W2 -> awake s t) -> current s ∉ W2 ->
  wait_on q s = Some (q', s') ->
  (exists rl' zl', sched_inv s' rl' zl') /\ blocked_on s' q' (wl ++ [current s]) /\ blocked_on s' q2 wl2 /\
  (forall t, t ∈ W ∖ {[ current s ]} -> t ∉ wl ++ [current s]) /\
  (forall t, t ∈ wl ++ [current s] -> t ∉ wl2) /\
  (forall t, t ∈ W ∖ {[ current s ]} \/ t ∈ W2 -> awake s' t).
Proof.
  intros I B B2 Hd HW HA Hc E. pose proof (wait_on_spec _ _ _ _ _ I B) as Sp.
  destruct rl as [|x rl]; [congruence|]. destruct Sp as (q1 & s1 & zl' & E1 & I1 & _ & B1 & F).
  rewrite E1 in E. injection E as -> ->.
  assert (current s ∉ wl2) as Hc2 by (intros Hin; apply (bo_state _ _ _ B2) in Hin; destruct I; congruence).
  split; [eauto|]. split; [done|]. split; [apply F; [done|]; intros t Ht Hin; by apply (Hd t)|].
  split; [set_solver|]. split; [set_solver|].
  intros t Ht. eapply wait_on_awake; [exact I|exact B|exact E1|set_solver|]. apply HA. set_solver.
Qed.

(** Every send and every receive is one of three things done to the ring. *)
Lemma sending_cases c msg s x o : sending c msg s x o -> o = channel_send_cap c msg x s.
Proof. by destruct 1. Qed.

Lemma cap_out_none k : cs_in_use k = 0 -> cap_out k = None.
Proof. intros E. unfold cap_out. by rewrite E. Qed.

Lemma receiving_cases c s o : receiving c s o -> exists refuse, o = peek_commit refuse c s.
Proof.
  destruct 1 as [| |refuse]; [|by exists false|by exists refuse].
  exists (negb (cs_in_use (zget cap_none (ch_caps c) (ch_head c)) =? 0)). unfold channel_recv, peek_commit.
  destruct (channel_peek_blocking c s) as [[[slot k] [c1 s1]]|[[slot k] [c1 s1]]|] eqn:E; [|done|done].
  unfold channel_peek_blocking in E. zif_in E; [by destruct (wait_on _ _) as [[? ?]|]|]. injection E as <- <- <- <-.
  destruct (Z.eqb_spec (cs_in_use (zget cap_none (ch_caps c) (ch_head c))) 0) as [Ek|Ek]; cbn [negb]; [|done]. cbn. by rewrite (cap_out_none _ Ek).
Qed.

Lemma trying_cases c s m r : trying c s m r -> ch_count c <> 0 /\ peek_commit false c s = Done (Some m, r).
Proof.
  assert (forall slot k, channel_peek_try c = Some (slot, k) -> ch_count c <> 0 /\ peek_commit false c s = Done (Some (peek_copy c slot, cap_out k), channel_commit c s)) as P.
  { intros slot k. unfold channel_peek_try, peek_commit, channel_peek_blocking. destruct (Z.eqb_spec (ch_count c) 0); [done|]. by intros [= <- <-]. }
  destruct 1 as [b c' s' E|b x c' s' E|slot k E]; [| |by apply P].
  - unfold channel_try_recv in E. destruct (channel_peek_try c) as [[slot k]|] eqn:Ep; [|done]. destruct (P _ _ eq_refl) as [Hn ->]. split; [done|].
    destruct (Z.eqb_spec (cs_in_use k) 0) as [Ek|]; [|done]. rewrite (cap_out_none _ Ek). destruct (channel_commit c s). by injection E as <- <- <-.
  - unfold channel_try_recv_cap in E. destruct (channel_peek_try c) as [[slot k]|] eqn:Ep; [|done]. destruct (P _ _ eq_refl) as [Hn ->]. split; [done|].
    destruct (channel_commit c s). by injection E as <- <- <- <-.
Qed.

(** A message put into the ring, and one taken out. *)
Lemma put_inv c0 c s (S S' R : gset Z) ss rs n msg x c' s' :
  cinv c0 (MkCS c s S R ss rs n) -> ch_count c <> ch_capacity c -> zlen msg = ch_msg_size c -> enqueue c msg x s = (c', s') ->
  S' ⊆ S -> Z.of_nat (size S) - 1 <= Z.of_nat (size S') ->
  cinv c0 (MkCS c' s' S' (R ∪ head_set (ch_receivers c)) (ss ++ [(msg, x)]) rs n).
Proof.
  intros [(rdl & zl & I) [CI Hcap] HF (sl & rl & Bs & Br & Ns & Nr & Ds & Dr & Dd) HA] Hn Hm E Hs Hsz.
  cbn [cy_c cy_s ws wr sent rcvd declined] in *. pose proof (ci_count _ CI) as Hcnt.
  assert (forall t, t ∈ rl -> t ∉ sl) as Dd' by (intros t H1 H2; by apply (Dd t)).
  destruct (enqueue_ring c msg x s) as (q & s1 & Ee & Ew). rewrite Ee in E. injection E as <- <-.
  destruct (ring_put_refines c msg x CI ltac:(lia) Hm) as [CI' Ec].
  destruct (ring_with_receivers (ring_put c msg x) q) as [E1 E2].
  destruct (wake_pair _ _ _ _ _ R _ _ _ _ I Br Bs Dd' Dr Ew) as ((rdl' & I') & Br' & Bs' & A' & Dr' & Nz & _).
  split; cbn [cy_c cy_s ws wr sent rcvd declined]; [eauto|auto| | |].
  - rewrite E1, Ec, !app_assoc. by rewrite HF.
  - exists sl, (drop 1 rl). cbn [ch_senders ch_receivers ch_count with_receivers ring_put].
    rewrite u64_small by (destruct CI; lia).
    split; [done|]. split; [done|]. split; [|split; [|split; [set_solver|split; [done|]]]].
    + intros Hne. specialize (Ns Hne). lia.
    + intros Hne. rewrite Nz by done. assert (rl <> []) as Hr by (by intros ->). specialize (Nr Hr). lia.
    + intros t Ht Hin. apply (Dd t Ht). destruct rl; [done|]. rewrite skipn_cons, drop_0 in Hin. by right.
  - intros t Ht. apply A'. set_solver.
Qed.

Lemma take_inv c0 c s (S R R' : gset Z) ss rs n m c' s' :
  cinv c0 (MkCS c s S R ss rs n) -> peek_commit false c s = Done (Some m, (c', s')) ->
  R' ⊆ R -> Z.of_nat (size R) - 1 <= Z.of_nat (size R') ->
  cinv c0 (MkCS c' s' (S ∪ head_set (ch_senders c)) R' ss (rs ++ [m]) n).
Proof.
  intros [(rdl & zl & I) [CI Hcap] HF (sl & rl & Bs & Br & Ns & Nr & Ds & Dr & Dd) HA] E Hr Hsz.
  cbn [cy_c cy_s ws wr sent rcvd declined] in *. pose proof (ci_count _ CI) as Hcnt.
  unfold peek_commit, channel_peek_blocking in E. zif_in E; [by destruct (wait_on _ _) as [[? ?]|]|].
  destruct (contents c) as [|m0 q0] eqn:Eq; [by apply contents_nil in Eq|].
  destruct (peek_head c m0 q0 CI Eq) as (_ & Hb & Hk). rewrite Hb, Hk in E.
  destruct (ring_take_refines c m0 q0 CI Eq) as (_ & CI' & E').
  destruct (commit_ring c s) as (q & s1 & Ee & Ew). rewrite Ee in E. injection E as <- <- <-.
  destruct (ring_with_senders (ring_take c) q) as [E1 E2].
  destruct (wake_pair _ _ _ _ _ S _ _ _ _ I Bs Br Dd Ds Ew) as ((rdl' & I') & Bs' & Br' & A' & Ds' & Nz & _).
  split; cbn [cy_c cy_s ws wr sent rcvd declined]; [eauto|auto| | |].
  - rewrite HF, E1, E', <- app_assoc. by destruct m0.
  - exists (drop 1 sl), rl. cbn [ch_senders ch_receivers ch_count with_senders ring_take].
    rewrite u64_small by (destruct CI; lia).
    split; [done|]. split; [done|]. split; [|split; [|split; [done|split; [set_solver|]]]].
    + intros Hne. rewrite Nz by done. assert (sl <> []) as Hl by (by intros ->). specialize (Ns Hl). lia.
    + intros Hne. specialize (Nr Hne). lia.
    + intros t Ht. apply Dd. destruct sl; [done|]. rewrite skipn_cons, drop_0 in Ht. by right.
  - intros t Ht. apply A'. set_solver.
Qed.

(** A thread that goes to sleep on the channel, or turns away from a message. *)
Lemma send_sleep_inv c0 c s (S R : gset Z) ss rs n msg x c' s' :
  cinv c0 (MkCS c s S R ss rs n) -> current s ∉ R -> channel_send_cap c msg x s = Blocked (c', s') ->
  cinv c0 (MkCS c' s' (S ∖ {[ current s ]}) R ss rs n).
Proof.
  intros [(rdl & zl & I) [CI Hcap] HF (sl & rl & Bs & Br & Ns & Nr & Ds & Dr & Dd) HA] Hc E.
  cbn [cy_c cy_s ws wr sent rcvd declined] in *. unfold channel_send_cap in E. zif_in E; [|done].
  destruct (wait_on (ch_senders c) s) as [[q s1]|] eqn:Ew; [|done]. injection E as <- <-.
  destruct (ring_with_senders c q) as [E1 E2].
  destruct (wait_pair _ _ _ _ _ _ _ S R _ _ I Bs Br Dd Ds HA Hc Ew) as (I' & Bs' & Br' & Ds' & Dd2 & A').
  split; cbn [cy_c cy_s ws wr sent rcvd declined]; [done|auto|by rewrite E1| |done].
  exists (sl ++ [current s]), rl. cbn [ch_senders ch_receivers ch_count with_senders].
  split; [done|]. split; [done|]. split; [lia|]. done.
Qed.

Lemma recv_sleep_inv c0 c s (S R : gset Z) ss rs n refuse r c' s' :
  cinv c0 (MkCS c s S R ss rs n) -> 0 <= n -> current s ∉ S -> peek_commit refuse c s = Blocked (r, (c', s')) ->
  cinv c0 (MkCS c' s' S (R ∖ {[ current s ]}) ss rs n).
Proof.
  intros [(rdl & zl & I) [CI Hcap] HF (sl & rl & Bs & Br & Ns & Nr & Ds & Dr & Dd) HA] Hn Hc E.
  cbn [cy_c cy_s ws wr sent rcvd declined] in *. assert (forall t, t ∈ rl -> t ∉ sl) as Dd' by (intros t H1 H2; by apply (Dd t)).
  unfold peek_commit, channel_peek_blocking in E. zif_in E; [|by destruct refuse].
  destruct (wait_on (ch_receivers c) s) as [[q s1]|] eqn:Ew; [|done]. injection E as <- <- <-.
  destruct (ring_with_receivers c q) as [E1 E2].
  destruct (wait_pair _ _ _ _ _ _ _ R S _ _ I Br Bs Dd' Dr ltac:(naive_solver) Hc Ew) as (I' & Br' & Bs' & Dr' & Dd2 & A').
  split; cbn [cy_c cy_s ws wr sent rcvd declined]; [done|auto|by rewrite E1| |naive_solver].
  exists sl, (rl ++ [current s]). cbn [ch_senders ch_receivers ch_count with_receivers].
  split; [done|]. split; [done|]. split; [done|]. split; [lia|]. split; [done|]. split; [done|].
  intros t H1 H2. by apply (Dd2 t).
Qed.

Lemma decline_inv c0 c s (S R : gset Z) ss rs n :
  cinv c0 (MkCS c s S R ss rs n) -> cinv c0 (MkCS c s S (R ∖ {[ current s ]}) ss rs (if bool_decide (current s ∈ R) then n + 1 else n)).
Proof.
  intros [I CI HF (sl & rl & Bs & Br & Ns & Nr & Ds & Dr & Dd) HA]. cbn [cy_c cy_s ws wr sent rcvd declined] in *.
  split; cbn [cy_c cy_s ws wr sent rcvd declined]; [done|done|done| |set_solver]. exists sl, rl. do 3 (split; [done|]). split; [|set_solver].
  intros Hne. specialize (Nr Hne). pose proof (size_difference_ge R (current s)). case_bool_decide; [lia|]. by replace (R ∖ {[ current s ]}) with R by set_solver.
Qed.

Lemma cstep_inv c0 M M' : cinv c0 M -> 0 <= declined M -> cstep M M' -> cinv c0 M' /\ 0 <= declined M'.
Proof.
  intros CV Hn St.
  destruct St as [c s S R ss rs n msg x c' s' Hm Hc E|c s S R ss rs n msg x c' s' Hc E|c s S R ss rs n msg c' s' Hm Hc Hc' E|
    c s S R ss rs n m c' s' Hc E|c s S R ss rs n r c' s' Hc E|c s S R ss rs n c' s' Hc E|c s S R ss rs n m c' s' Hc Hc' E|
    c s S R ss rs n s' Hc Hc' E1 E2]; cbn [declined] in *.
  - split; [|done]. apply sending_cases in E. unfold channel_send_cap in E. zif_in E; [by destruct (wait_on _ _) as [[? ?]|]|]. injection E as E.
    eapply put_inv; [done|lia|done|done|set_solver|apply size_difference_ge].
  - split; [|done]. apply sending_cases in E. by eapply send_sleep_inv.
  - split; [|done]. unfold channel_try_send in E. zif_in E; [done|]. destruct (enqueue c msg None s) as [c1 s1] eqn:Ee. injection E as -> ->.
    eapply put_inv; [done|lia|done|done|done|lia].
  - split; [|done]. apply receiving_cases in E as [[|] E]; [unfold peek_commit in E; by destruct (channel_peek_blocking c s) as [[[? ?] [? ?]]|[[? ?] ?]|]|].
    eapply take_inv; [done|by symmetry|set_solver|apply size_difference_ge].
  - split; [|done]. apply receiving_cases in E as [refuse E]. by eapply recv_sleep_inv.
  - split; [|by case_bool_decide; lia]. apply receiving_cases in E as [refuse E]. unfold peek_commit, channel_peek_blocking in E.
    zif_in E; [by destruct (wait_on _ _) as [[? ?]|]|]. destruct refuse; [|done]. injection E as -> ->. by apply decline_inv.
  - split; [|done]. apply trying_cases in E as [_ E]. eapply take_inv; [done|done|done|lia].
  - split; [|done]. destruct CV as [(rdl & zl & I) CI HF (sl & rl & Bs & Br & K) HA]. cbn [cy_c cy_s ws wr sent rcvd declined] in *.
    destruct (env_step_calm _ _ _ _ _ _ I Bs E1) as (I' & Bs' & A).
    destruct (env_step_calm _ _ _ _ _ _ I Br E2) as (_ & Br' & _).
    split; cbn [cy_c cy_s ws wr sent rcvd declined]; [done|done|done|eauto 10|].
    intros t Ht. apply A; [|by apply HA]. intros ->. naive_solver.
Qed.

(** C2: on every interleaving of all the sends and receives of one channel
    (blocking or not, with a capability or not, and the peek and commit of the
    system calls, which may return an error and leave the message) with the rest
    of the kernel: messages are received in the order they were sent, each exactly
    once with its capability, and none is lost (what was sent is what was received
    followed by what is queued).  No wake-up of a sender is lost: while senders are
    queued, the free slots do not exceed the woken senders.  A wake-up of a
    receiver is lost only when the woken receiver declines the message: while
    receivers are queued, the messages do not exceed the woken receivers and those
    that declined.  Every woken thread is ready to run. *)
Theorem channel_fifo_no_lost_wakeup (c0 : channel_t) (s0 : sched) (rl zl : list Z) (M : csys) :
  sched_inv s0 rl zl -> chan_inv c0 -> contents c0 = [] ->
  ch_senders c0 = waitq_init -> ch_receivers c0 = waitq_init -> creach c0 s0 M ->
  sent M = rcvd M ++ contents (cy_c M) /\
  (waitq_empty (ch_senders (cy_c M)) = false ->
     ch_capacity (cy_c M) - zlen (contents (cy_c M)) <= Z.of_nat (size (ws M))) /\
  (waitq_empty (ch_receivers (cy_c M)) = false -> zlen (contents (cy_c M)) <= Z.of_nat (size (wr M)) + declined M) /\
  (forall t, t ∈ ws M \/ t ∈ wr M -> awake (cy_s M) t).
Proof.
  intros I0 CI0 E0 Es Er R. assert (cinv c0 M /\ 0 <= declined M) as [[_ [CI Hcap] HF (sl & rvl & Bs & Br & Ns & Nr & _) HA] _].
  { induction R as [|M M' _ [IH Hn] St]; [|by eapply cstep_inv]. split; [|done].
    split; cbn [cy_c cy_s ws wr sent rcvd declined]; [eauto|done|by rewrite app_nil_r| |set_solver].
    exists [], []. rewrite Es, Er. split; [apply blocked_on_nil|]. split; [apply blocked_on_nil|]. set_solver. }
  rewrite E0 in HF. simpl in HF. rewrite (contents_length _ CI), Hcap.
  assert (forall q wl, blocked_on (cy_s M) q wl -> waitq_empty q = false -> wl <> []) as Hne.
  { intros q wl B He ->. unfold waitq_empty in He. by rewrite (qrep_head _ _ _ _ (bo_rep _ _ _ B)) in He. }
  split; [done|]. split; [|split; [|done]]; intros He; [apply Ns|apply Nr]; by eapply Hne.
Qed.

Lemma channel_fifo_no_lost_wakeup_witness :
  exists c' s', channel_send_cap demo_chan [7; 8] None demo_sched = Done (c', s') /\
    [([7; 8], None)] = [] ++ contents c'.
Proof.
  destruct (channel_send_cap demo_chan [7; 8] None demo_sched) as [[c' s']|[c' s']|] eqn:E; [|by vm_compute in E..].
  exists c', s'. split; [done|].
  assert (sending demo_chan [7; 8] demo_sched None (Done (c', s'))) as Sd by (rewrite <- E; constructor).
  pose proof (creach_step demo_chan demo_sched _ _ (creach_init demo_chan demo_sched)
    (c_send_done demo_chan demo_sched ∅ ∅ [] [] 0 [7; 8] None c' s' eq_refl ltac:(set_solver) Sd)) as R.
  exact (proj1 (channel_fifo_no_lost_wakeup demo_chan demo_sched [16; 32] [] _ demo_sched_inv demo_chan_inv
    eq_refl eq_refl eq_refl R)).
Defined.

(** A wake-up can be lost that way: two threads wait in [channel_recv], a message
    with a capability arrives and wakes the first, which refuses it; the second
    sleeps on, with a message in the channel and nobody woken for it. *)
Theorem refusal_loses_wakeup :
  exists c1 s1 c2 s2 c3 s3 l s4,
    channel_recv demo_chan demo_sched = Blocked (None, (c1, s1)) /\ channel_recv c1 s1 = Blocked (None, (c2, s2)) /\
    channel_send_cap c2 [7; 8] (Some (MkC 1 2 3 true)) s2 = Done (c3, s3) /\ sched_yield s3 = Some (l, s4) /\
    current s4 = current demo_sched /\ channel_recv c3 s4 = Done (None, (c3, s4)) /\
    zlen (contents c3) = 1 /\ state_of s4 (current s1) = Some THREAD_BLOCKED.
Proof.
  eexists _, _, _, _, _, _, _, _. split; [vm_compute; reflexivity|]. split; [vm_compute; reflexivity|]. split; [vm_compute; reflexivity|].
  split; [vm_compute; reflexivity|]. split_and!; vm_compute; reflexivity.
Qed.

(** ** Creation and destruction against the heap interface *)

Section channel_heap.
Context {H : Type} `{KHeapLaws H}.

(** The three blocks of a channel. *)
Definition chan_blocks (addr : Z) (c : channel_t) (h : H) : Prop :=
  is_Some (live h !! addr) /\ is_Some (live h !! ch_buffer_at c) /\ is_Some (live h !! ch_caps_at c) /\
  addr <> ch_buffer_at c /\ addr <> ch_caps_at c /\ ch_buffer_at c <> ch_caps_at c.

(** [channel_create] fails without leaking a block, or returns an empty
    channel that satisfies the ring invariant and owns three new blocks; with
    no thread waiting, [channel_destroy] then gives back exactly those blocks. *)
Theorem channel_create_destroy (capacity msg_size : Z) (h : H) :
  heap_wf h -> 0 <= capacity -> 0 <= msg_size -> capacity * msg_size < 2 ^ 63 -> capacity * 32 < 2 ^ 63 ->
  exists a oc h', channel_create capacity msg_size h = Some (a, oc, h') /\ heap_wf h' /\
    match oc with
    | None => a = 0 /\ live h' = live h
    | Some c => a <> 0 /\ chan_inv c /\ contents c = [] /\ chan_blocks a c h' /\
        exists h'', channel_destroy a c h' = Some h'' /\ heap_wf h'' /\ live h'' = live h
    end.
Proof.
  intros W Hc Hm Hb Hb2. unfold channel_create. destruct ((capacity =? 0) || (msg_size =? 0)) eqn:E0.
  { exists 0, None, h. done. }
  apply orb_false_elim in E0 as [E0 E0']. zb.
  destruct (exy_zalloc sizeof_channel_t h) as [a h1] eqn:E1.
  destruct (zalloc_law h sizeof_channel_t a h1 W ltac:(unfold sizeof_channel_t; lia) E1) as [W1 F1 O1].
  destruct (Z.eqb_spec a 0) as [->|Ha]. { exists 0, None, h1. auto. }
  destruct (O1 Ha) as (sa & _ & Na & La & _).
  rewrite (u64_small (capacity * msg_size)) by nia.
  destruct (exy_malloc (capacity * msg_size) h1) as [b h2] eqn:E2.
  destruct (malloc_law h1 (capacity * msg_size) b h2 W1 ltac:(nia) E2) as [W2 F2 O2].
  destruct (Z.eqb_spec b 0) as [->|Hbz].
  { destruct (free_law h2 a sa W2) as (h3 & -> & W3 & L3); [by rewrite F2, La, lookup_insert_eq|].
    exists 0, None, h3. split; [done|]. split; [done|]. split; [done|]. by rewrite L3, F2, La, delete_insert_id. }
  destruct (O2 Hbz) as (sb & _ & Nb & Lb & _). rewrite u64_small by (unfold sizeof_chan_cap_t; lia).
  destruct (exy_zalloc (capacity * sizeof_chan_cap_t) h2) as [k h3] eqn:E3.
  destruct (zalloc_law h2 (capacity * sizeof_chan_cap_t) k h3 W2 ltac:(unfold sizeof_chan_cap_t; lia) E3) as [W3 F3 O3].
  assert (a <> b) as Hab by (intros ->; by rewrite La, lookup_insert_eq in Nb).
  destruct (Z.eqb_spec k 0) as [->|Hk].
  { destruct (free_law h3 b sb W3) as (h4 & -> & W4 & L4); [by rewrite F3, Lb, lookup_insert_eq|].
    assert (live h4 = live h1) as L4' by by rewrite L4, F3, Lb, delete_insert_id.
    destruct (free_law h4 a sa W4) as (h5 & -> & W5 & L5); [by rewrite L4', La, lookup_insert_eq|].
    exists 0, None, h5. split; [done|]. split; [done|]. split; [done|]. by rewrite L5, L4', La, delete_insert_id. }
  destruct (O3 Hk) as (sk & _ & Nk & Lk & _).
  assert (a <> k) as Hak by (intros ->; by rewrite Lb, lookup_insert_ne, La, lookup_insert_eq in Nk).
  assert (b <> k) as Hbk by (intros ->; by rewrite Lb, lookup_insert_eq in Nk).
  eexists a, _, h3. split; [done|]. split; [done|]. cbv beta iota. split; [done|]. split; [|split; [done|]].
  { split; cbn [ch_capacity ch_msg_size ch_buffer ch_caps ch_count ch_head ch_tail];
      rewrite ?zlen_replicate; try nia. rewrite Z.mod_small; lia. }
  unfold chan_blocks. cbn [ch_buffer_at ch_caps_at].
  split.
  { rewrite Lk, Lb, La. rewrite !lookup_insert_eq, !(lookup_insert_ne _ k), lookup_insert_eq by done.
    rewrite lookup_insert_ne, lookup_insert_eq by done. eauto 10. }
  unfold channel_destroy. rewrite (proj2 (Z.eqb_neq a 0) Ha). cbn [ch_senders ch_receivers ch_caps_at ch_buffer_at].
  cbn [waitq_empty waitq_init q_empty q_head Z.eqb negb].
  destruct (free_law h3 k sk W3) as (h4 & -> & W4 & L4); [by rewrite Lk, lookup_insert_eq|].
  assert (live h4 = live h2) as L4' by by rewrite L4, Lk, delete_insert_id.
  destruct (free_law h4 b sb W4) as (h5 & -> & W5 & L5); [by rewrite L4', Lb, lookup_insert_eq|].
  assert (live h5 = live h1) as L5' by by rewrite L5, L4', Lb, delete_insert_id.
  destruct (free_law h5 a sa W5) as (h6 & -> & W6 & L6); [by rewrite L5', La, lookup_insert_eq|].
  exists h6. split; [done|]. split; [done|]. by rewrite L6, L5', La, delete_insert_id.
Qed.
End channel_heap.

Lemma channel_create_destroy_witness :
  exists a oc h', channel_create 4 64 (bump.MkBump 4096 ∅) = Some (a, oc, h') /\ a = 4096 /\
    heap_wf h'.
Proof.
  destruct (channel_create_destroy 4 64 (bump.MkBump 4096 ∅)) as (a & oc & h' & E & W & _); [by split|lia..|].
  exists a, oc, h'. split; [done|]. split; [|done]. vm_compute in E. by simplify_eq.
Defined.
