(* ===== verification/Vmm.v ===== *)
(** * Address spaces and page tables

    [arch/x86_64/mm/vmm.c].  Physical memory is identity mapped, so page tables
    are 64-bit words at physical addresses: [vm_mem].  The model has the four
    level walk, the on-demand allocation of tables, the creation and the
    reference-counted destruction of a space. *)
From S2P Require Import Prelude Bytes Iface Pmm.

Definition VM_PRESENT : Z := 1.
Definition VM_WRITE : Z := 2.
Definition VM_USER : Z := 4.
Definition VM_NOCACHE : Z := 8.

Definition PTE_PRESENT : Z := 1.
Definition PTE_WRITE : Z := 2.
Definition PTE_USER : Z := 4.
Definition PTE_PWT : Z := 8.
Definition PTE_PCD : Z := 16.
Definition PTE_HUGE : Z := 128.
Definition PTE_ADDR_MASK : Z := 0x000FFFFFFFFFF000.

Definition KERNEL_VA_BASE : Z := 0x40000000.
Definition USER_VA_BASE : Z := 0x0000008000000000.
Definition USER_VA_TOP : Z := 0x0000800000000000.

Record vmm_space := MkSpace { sp_pml4 : Z; sp_refcount : Z; sp_is_kernel : Z }.

(** Page tables, the page allocator, CR3 and the [invlpg]s issued so far. *)
Record vm := MkVm { vm_pmm : pmm; vm_mem : gmap Z Z; vm_cr3 : Z; vm_flushed : list Z }.

Definition with_mem (v : vm) (m : gmap Z Z) : vm := MkVm (vm_pmm v) m (vm_cr3 v) (vm_flushed v).
Definition with_pmm (v : vm) (p : pmm) : vm := MkVm p (vm_mem v) (vm_cr3 v) (vm_flushed v).

(** [table[idx]] *)
Definition entry (m : gmap Z Z) (table idx : Z) : Z := rd m (table + 8 * idx).
Definition set_entry (m : gmap Z Z) (table idx e : Z) : gmap Z Z := <[table + 8 * idx := e]> m.

Definition has (e bit : Z) : bool := negb (Z.land e bit =? 0).

Definition idx_pml4 (va : Z) : Z := Z.land (Z.shiftr va 39) 0x1FF.
Definition idx_pdpt (va : Z) : Z := Z.land (Z.shiftr va 30) 0x1FF.
Definition idx_pd (va : Z) : Z := Z.land (Z.shiftr va 21) 0x1FF.
Definition idx_pt (va : Z) : Z := Z.land (Z.shiftr va 12) 0x1FF.

Definition flags_to_pte (f : Z) : Z :=
  let r := 0 in
  let r := if has f VM_PRESENT then Z.lor r PTE_PRESENT else r in
  let r := if has f VM_WRITE then Z.lor r PTE_WRITE else r in
  let r := if has f VM_USER then Z.lor r PTE_USER else r in
  if has f VM_NOCACHE then Z.lor r (Z.lor PTE_PWT PTE_PCD) else r.

Definition pte_to_flags (e : Z) : Z :=
  let f := 0 in
  let f := if has e PTE_PRESENT then Z.lor f VM_PRESENT else f in
  let f := if has e PTE_WRITE then Z.lor f VM_WRITE else f in
  let f := if has e PTE_USER then Z.lor f VM_USER else f in
  if has e (Z.lor PTE_PWT PTE_PCD) then Z.lor f VM_NOCACHE else f.

Definition zero_page (p : Z) (m : gmap Z Z) : gmap Z Z :=
  foldl (fun m i => set_entry m p i 0) m (seqZ 0 512).

(** 0 is the null pointer of the source. *)
Definition descend_or_alloc (table idx : Z) (child_user : bool) (v : vm) : Z * vm :=
  let e := entry (vm_mem v) table idx in
  if has e PTE_PRESENT then
    if has e PTE_HUGE then (0, v) else (Z.land e PTE_ADDR_MASK, v)
  else
    let '(np, p) := pmm_alloc_page (vm_pmm v) in
    if np =? 0 then (0, with_pmm v p)
    else
      let m := zero_page np (vm_mem v) in
      let flags := Z.lor PTE_PRESENT PTE_WRITE in
      let flags := if child_user then Z.lor flags PTE_USER else flags in
      (np, with_mem (with_pmm v p) (set_entry m table idx (Z.lor np flags))).

Definition vmm_flush (va : Z) (v : vm) : vm := MkVm (vm_pmm v) (vm_mem v) (vm_cr3 v) (vm_flushed v ++ [va]).

Definition vmm_switch (s : option vmm_space) (v : vm) : vm :=
  match s with
  | None => v
  | Some s => MkVm (vm_pmm v) (vm_mem v) (sp_pml4 s) (vm_flushed v)
  end.

Definition walk_leaf (m : gmap Z Z) (s : option vmm_space) (va : Z) : Z :=
  match s with
  | None => 0
  | Some s =>
    let e := entry m (sp_pml4 s) (idx_pml4 va) in
    if negb (has e PTE_PRESENT) || has e PTE_HUGE then 0
    else
      let pdpt := Z.land e PTE_ADDR_MASK in
      let e := entry m pdpt (idx_pdpt va) in
      if negb (has e PTE_PRESENT) || has e PTE_HUGE then 0
      else
        let pd := Z.land e PTE_ADDR_MASK in
        let e := entry m pd (idx_pd va) in
        if negb (has e PTE_PRESENT) || has e PTE_HUGE then 0
        else Z.land e PTE_ADDR_MASK
  end.

Definition lower_bound (s : vmm_space) : Z :=
  if sp_is_kernel s =? 0 then USER_VA_BASE else KERNEL_VA_BASE.

Definition vmm_map (sp : option vmm_space) (va pa flags : Z) (v : vm) : bool * vm :=
  match sp with
  | None => (false, v)
  | Some s =>
    if has va (PAGE_SIZE - 1) then (false, v)
    else if has pa (PAGE_SIZE - 1) then (false, v)
    else if va <? lower_bound s then (false, v)
    else if negb (has flags VM_PRESENT) then (false, v)
    else
      let user := has flags VM_USER in
      let '(pdpt, v1) := descend_or_alloc (sp_pml4 s) (idx_pml4 va) user v in
      if pdpt =? 0 then (false, v1)
      else
        let '(pd, v2) := descend_or_alloc pdpt (idx_pdpt va) user v1 in
        if pd =? 0 then (false, v2)
        else
          let '(pt, v3) := descend_or_alloc pd (idx_pd va) user v2 in
          if pt =? 0 then (false, v3)
          else
            let i := idx_pt va in
            if has (entry (vm_mem v3) pt i) PTE_PRESENT then (false, v3)
            else
              (true, vmm_flush va (with_mem v3 (set_entry (vm_mem v3) pt i
                 (Z.lor (Z.land pa PTE_ADDR_MASK) (flags_to_pte flags)))))
  end.

Definition vmm_unmap (sp : option vmm_space) (va : Z) (v : vm) : bool * vm :=
  match sp with
  | None => (false, v)
  | Some s =>
    if has va (PAGE_SIZE - 1) then (false, v)
    else if va <? lower_bound s then (false, v)
    else
      let pt := walk_leaf (vm_mem v) sp va in
      if pt =? 0 then (false, v)
      else
        let i := idx_pt va in
        if negb (has (entry (vm_mem v) pt i) PTE_PRESENT) then (false, v)
        else (true, vmm_flush va (with_mem v (set_entry (vm_mem v) pt i 0)))
  end.

(** The physical address and the flags the out pointers receive. *)
Definition vmm_query (sp : option vmm_space) (va : Z) (v : vm) : option (Z * Z) :=
  match sp with
  | None => None
  | Some s =>
    if has va (PAGE_SIZE - 1) then None
    else
      let pt := walk_leaf (vm_mem v) sp va in
      if pt =? 0 then None
      else
        let e := entry (vm_mem v) pt (idx_pt va) in
        if negb (has e PTE_PRESENT) then None
        else Some (Z.land e PTE_ADDR_MASK, pte_to_flags e)
  end.

(** ** Destruction: [free_pt], [free_pd], [free_pdpt], [destroy_space] *)

Definition free_pg (p : pmm) (a : Z) : pmm := snd (pmm_free_page a p).

Definition free_pt (m : gmap Z Z) (pt : Z) (p : pmm) : pmm :=
  let p := foldl (fun p i =>
    let e := entry m pt i in
    if negb (has e PTE_PRESENT) then p
    else if has e PTE_HUGE then p
    else free_pg p (Z.land e PTE_ADDR_MASK)) p (seqZ 0 512) in
  free_pg p pt.

(** The loop shared by [free_pd] (child [free_pt]) and [free_pdpt] (child
    [free_pd]); [destroy_space] runs it from entry 1 with child [free_pdpt]. *)
Definition free_level (child : gmap Z Z -> Z -> pmm -> pmm) (m : gmap Z Z) (t first : Z) (p : pmm) : pmm :=
  foldl (fun p i =>
    let e := entry m t i in
    if negb (has e PTE_PRESENT) then p
    else if has e PTE_HUGE then free_pg p (Z.land e PTE_ADDR_MASK)
    else child m (Z.land e PTE_ADDR_MASK) p) p (seqZ first (512 - first)).

Definition free_pd (m : gmap Z Z) (pd : Z) (p : pmm) : pmm := free_pg (free_level free_pt m pd 0 p) pd.
Definition free_pdpt (m : gmap Z Z) (pdpt : Z) (p : pmm) : pmm := free_pg (free_level free_pd m pdpt 0 p) pdpt.

(** The page-table part of [destroy_space]. *)
Definition destroy_tables (s : vmm_space) (v : vm) : vm :=
  with_pmm v (free_pg (free_level free_pdpt (vm_mem v) (sp_pml4 s) 1 (vm_pmm v)) (sp_pml4 s)).

(** ** The heap under the address-space objects

    The kernel heap maps its own pages, so its state contains the page tables:
    [vm_of] and [put_vm] give access to them. *)
Class VmHeap (H : Type) := { vmh_heap :: KHeap H; vm_of : H -> vm; put_vm : vm -> H -> H }.

Definition sizeof_vmm_space : Z := 16.

Section spaces.
Context {H : Type} `{VmHeap H}.

(** The singleton of [vmm_kernel_space]; [boot_pml4] is the linker symbol. *)
Definition kernel_space (boot_pml4 : Z) : vmm_space := MkSpace boot_pml4 (2 ^ 32 - 1) 1.

(** [None]: [exy_free] panicked.  The result is the address of the space
    object with its contents, or 0. *)
Definition vmm_create (boot_pml4 : Z) (h : H) : option (Z * vmm_space * H) :=
  let none := MkSpace 0 0 0 in
  let '(s, h1) := exy_zalloc sizeof_vmm_space h in
  if s =? 0 then Some (0, none, h1)
  else
    let v := vm_of h1 in
    let '(np, p) := pmm_alloc_page (vm_pmm v) in
    let h2 := put_vm (with_pmm v p) h1 in
    if np =? 0 then
      match exy_free s h2 with Some h3 => Some (0, none, h3) | None => None end
    else
      let m := zero_page np (vm_mem v) in
      let kpml4 := sp_pml4 (kernel_space boot_pml4) in
      let m := foldl (fun m i => set_entry m np i (entry m kpml4 i)) m (seqZ 0 512) in
      Some (s, MkSpace np 1 0, put_vm (with_mem (with_pmm v p) m) h1).

Definition destroy_space (addr : Z) (s : vmm_space) (h : H) : option H :=
  exy_free addr (put_vm (destroy_tables s (vm_of h)) h).

Definition vmm_space_ref (addr : Z) (s : vmm_space) : vmm_space :=
  if addr =? 0 then s
  else if negb (sp_is_kernel s =? 0) then s
  else MkSpace (sp_pml4 s) (u32 (sp_refcount s + 1)) (sp_is_kernel s).

(** The second component is the object afterwards, [None] once destroyed. *)
Definition vmm_space_unref (addr : Z) (s : vmm_space) (h : H) : option (option vmm_space * H) :=
  if addr =? 0 then Some (Some s, h)
  else if negb (sp_is_kernel s =? 0) then Some (Some s, h)
  else if sp_refcount s =? 0 then Some (Some s, h)
  else
    let s' := MkSpace (sp_pml4 s) (u32 (sp_refcount s - 1)) (sp_is_kernel s) in
    if sp_refcount s' =? 0 then
      match destroy_space addr s' h with Some h' => Some (None, h') | None => None end
    else Some (Some s', h).
End spaces.

(** ** The tree of tables

    [role] says which table a page is: the root of its space and the entry
    indices that lead to it.  Entry 0 of every root is the kernel's, so the
    tables below it belong to the kernel root [K]. *)

Definition child_role (K r : Z) (path : list Z) (i : Z) : Z * list Z :=
  if decide (path = [] /\ i = 0) then (K, [0]) else (r, path ++ [i]).

Definition is_table (e : Z) : bool := has e PTE_PRESENT && negb (has e PTE_HUGE).

Record tree_inv (K : Z) (G : gmap Z (Z * list Z)) (v : vm) : Prop := {
  ti_pmm : pmm_inv (vm_pmm v);
  ti_page p ro : G !! p = Some ro ->
    0 < p < 2 ^ 52 /\ p mod 4096 = 0 /\
    (used_get (vm_pmm v) (p / 4096) = true \/ total_pages (vm_pmm v) <= p / 4096);
  ti_child p r path i : G !! p = Some (r, path) -> (length path < 3)%nat -> 0 <= i < 512 ->
    is_table (entry (vm_mem v) p i) = true ->
    G !! Z.land (entry (vm_mem v) p i) PTE_ADDR_MASK = Some (child_role K r path i);
  ti_root p r : G !! p = Some (r, []) -> p = r;
  ti_k0 p r : G !! p = Some (r, []) -> entry (vm_mem v) p 0 = entry (vm_mem v) K 0;
  ti_kernel : G !! K = Some (K, []) /\ is_table (entry (vm_mem v) K 0) = true }.

(** The leaf entry the tables give for the remaining indices of a walk. *)
Fixpoint leaf (m : gmap Z Z) (t : Z) (idxs : list Z) : option Z :=
  match idxs with
  | [] => None
  | [i] => let e := entry m t i in if has e PTE_PRESENT then Some e else None
  | i :: rest => let e := entry m t i in
      if is_table e then leaf m (Z.land e PTE_ADDR_MASK) rest else None
  end.

Definition indices (va : Z) : list Z := [idx_pml4 va; idx_pdpt va; idx_pd va; idx_pt va].

(** What the space rooted at [r] maps at [va]. *)
Definition translate (v : vm) (r va : Z) : option (Z * Z) :=
  (fun e => (Z.land e PTE_ADDR_MASK, pte_to_flags e)) <$> leaf (vm_mem v) r (indices va).

(** ** Reading and writing table entries *)

Definition aligned (p : Z) : Prop := p mod 4096 = 0.

Lemma idx_range va k : 0 <= Z.land (Z.shiftr va k) 0x1FF < 512.
Proof. change 0x1FF with (2 ^ 9 - 1). rewrite land_low by lia. apply Z.mod_pos_bound. lia. Qed.

Lemma indices_range va i : i ∈ indices va -> 0 <= i < 512.
Proof. unfold indices. set_unfold. intros [->|[->|[->|[->|[]]]]]; apply idx_range. Qed.

Lemma entry_addr_inj t t' i j :
  aligned t -> aligned t' -> 0 <= i < 512 -> 0 <= j < 512 -> t + 8 * i = t' + 8 * j -> t = t' /\ i = j.
Proof.
  unfold aligned. intros Ht Ht' Hi Hj E.
  pose proof (Z.div_mod t 4096 ltac:(lia)). pose proof (Z.div_mod t' 4096 ltac:(lia)). lia.
Qed.

Lemma entry_set m t i e t' j :
  aligned t -> aligned t' -> 0 <= i < 512 -> 0 <= j < 512 ->
  entry (set_entry m t i e) t' j = if decide (t' = t /\ j = i) then e else entry m t' j.
Proof.
  intros Ht Ht' Hi Hj. unfold entry, set_entry, rd. case_decide as Hd.
  - destruct Hd as [-> ->]. by rewrite lookup_insert_eq.
  - rewrite lookup_insert_ne; [done|]. intros E. apply Hd.
    destruct (entry_addr_inj t t' i j Ht Ht' Hi Hj E). by subst.
Qed.

(** A loop that writes entries 0 to [n - 1] of one page. *)
Lemma entry_fill f m p n t j :
  aligned p -> aligned t -> 0 <= n <= 512 -> 0 <= j < 512 ->
  entry (foldl (fun m i => set_entry m p i (f i)) m (seqZ 0 n)) t j =
  if decide (t = p /\ j < n) then f j else entry m t j.
Proof.
  intros Hp Ht [H0 Hn] Hj. revert Hn. pattern n. revert n H0. apply natlike_ind.
  - intros _. simpl. rewrite decide_False; [done|lia].
  - intros n Hn IH Hle. replace (Z.succ n) with (n + 1) by lia. rewrite seqZ_snoc, foldl_app by done. simpl.
    rewrite entry_set by (done || lia). rewrite IH by lia. repeat case_decide; naive_solver lia.
Qed.

Lemma entry_zero_page p m t j :
  aligned p -> aligned t -> 0 <= j < 512 ->
  entry (zero_page p m) t j = if decide (t = p) then 0 else entry m t j.
Proof.
  intros Hp Ht Hj. unfold zero_page. rewrite (entry_fill (fun _ => 0)) by (done || lia).
  repeat case_decide; try done; naive_solver lia.
Qed.

(** ** Bits of page-table entries *)

Lemma has_testbit e k : 0 <= k -> has e (2 ^ k) = Z.testbit e k.
Proof. intros. unfold has. rewrite land_pow2_eqb by done. by rewrite negb_involutive. Qed.

Lemma mask_testbit i : 0 <= i -> Z.testbit PTE_ADDR_MASK i = (12 <=? i) && (i <? 52).
Proof.
  intros Hi. change PTE_ADDR_MASK with (Z.shiftl (Z.ones 40) 12).
  rewrite Z.shiftl_spec by done. destruct (Z.leb_spec 12 i); simpl.
  - rewrite Z.testbit_ones by lia. destruct (Z.leb_spec 0 (i - 12)); [simpl|lia].
    destruct (Z.ltb_spec (i - 12) 40), (Z.ltb_spec i 52); (done || lia).
  - apply Z.testbit_neg_r. lia.
Qed.

Lemma aligned_testbit p i : aligned p -> 0 <= i < 12 -> Z.testbit p i = false.
Proof.
  unfold aligned. intros Hp Hi. rewrite <- (Z.mod_pow2_bits_low p 12 i) by lia.
  change (2 ^ 12) with 4096. by rewrite Hp, Z.bits_0.
Qed.

(** Address and low flag bits of an entry come apart again. *)
Lemma mask_lor p f : aligned p -> 0 <= p < 2 ^ 52 -> 0 <= f < 2 ^ 12 -> Z.land (Z.lor p f) PTE_ADDR_MASK = p.
Proof.
  intros Ha Hp Hf. apply Z.bits_inj'. intros i Hi. rewrite Z.land_spec, Z.lor_spec, mask_testbit by done.
  destruct (Z.leb_spec 12 i); simpl.
  - rewrite (testbit_high f 12 i) by lia. rewrite orb_false_r. destruct (Z.ltb_spec i 52); [by rewrite andb_true_r|].
    by rewrite andb_false_r, (testbit_high p 52 i) by lia.
  - by rewrite andb_false_r, aligned_testbit by (done || lia).
Qed.

Lemma mask_aligned p : aligned p -> 0 <= p < 2 ^ 52 -> Z.land p PTE_ADDR_MASK = p.
Proof. intros. rewrite <- (Z.lor_0_r p) at 1. apply mask_lor; done || lia. Qed.

Lemma has_lor_low p f b k : aligned p -> 0 <= k < 12 -> b = 2 ^ k -> has (Z.lor p f) b = has f b.
Proof.
  intros Hp Hk ->. rewrite !has_testbit by lia. by rewrite Z.lor_spec, aligned_testbit.
Qed.

Lemma has_lor_mask p f a b j k :
  aligned p -> 0 <= j < 12 -> 0 <= k < 12 -> a = 2 ^ j -> b = 2 ^ k ->
  has (Z.lor p f) (Z.lor a b) = has f (Z.lor a b).
Proof.
  intros Hp Hj Hk -> ->. unfold has. do 2 f_equal. apply Z.bits_inj'. intros i Hi.
  rewrite !Z.land_spec, !Z.lor_spec. destruct (Z_lt_le_dec i 12).
  - by rewrite aligned_testbit by (done || lia).
  - rewrite !Z.pow2_bits_eqb by lia.
    destruct (Z.eqb_spec j i), (Z.eqb_spec k i); try lia; by rewrite !andb_false_r.
Qed.

Lemma flags_to_pte_range f : 0 <= flags_to_pte f < 2 ^ 12.
Proof. unfold flags_to_pte. repeat destruct (has _ _); done. Qed.

Lemma land_15 f : Z.land f 15 =
  (if Z.testbit f 0 then 1 else 0) + (if Z.testbit f 1 then 2 else 0) +
  (if Z.testbit f 2 then 4 else 0) + (if Z.testbit f 3 then 8 else 0).
Proof.
  apply Z.bits_inj'. intros i Hi. rewrite Z.land_spec.
  assert (i = 0 \/ i = 1 \/ i = 2 \/ i = 3 \/ 4 <= i) as Hc by lia.
  destruct Hc as [-> | [-> | [-> | [-> |Hc]]]];
    try (destruct (Z.testbit f 0), (Z.testbit f 1), (Z.testbit f 2), (Z.testbit f 3); done).
  rewrite (testbit_high 15 4 i), andb_false_r by lia. symmetry. apply (testbit_high _ 4); [|lia|lia].
  destruct (Z.testbit f 0), (Z.testbit f 1), (Z.testbit f 2), (Z.testbit f 3); lia.
Qed.

(** The flag translation round-trips through an entry. *)
Lemma pte_flags_roundtrip p f : aligned p -> pte_to_flags (Z.lor p (flags_to_pte f)) = Z.land f 15.
Proof.
  intros Hp. unfold pte_to_flags.
  rewrite (has_lor_low p _ PTE_PRESENT 0), (has_lor_low p _ PTE_WRITE 1), (has_lor_low p _ PTE_USER 2),
    (has_lor_mask p _ PTE_PWT PTE_PCD 3 4) by (done || lia).
  rewrite land_15. rewrite <- !has_testbit by lia. unfold flags_to_pte.
  change (2 ^ 0) with VM_PRESENT. change (2 ^ 1) with VM_WRITE. change (2 ^ 2) with VM_USER. change (2 ^ 3) with VM_NOCACHE.
  by destruct (has f VM_PRESENT), (has f VM_WRITE), (has f VM_USER), (has f VM_NOCACHE).
Qed.

(** ** Single pages of the allocator *)

Lemma alloc_page_spec p np p' :
  pmm_inv p -> pmm_alloc_page p = (np, p') ->
  pmm_inv p' /\ total_pages p' = total_pages p /\
  (forall q, 0 <= q -> used_get p q = true -> used_get p' q = true) /\
  (np <> 0 -> aligned np /\ 0 < np < 2 ^ 52 /\ np / 4096 < total_pages p /\
     used_get p (np / 4096) = false /\ used_get p' (np / 4096) = true).
Proof.
  intros I E. unfold pmm_alloc_page in E.
  destruct (pmm_alloc_pages_cases p 1 I ltac:(lia)) as [[E' _]|(st & E' & _ & H0 & H1 & Hf & _)];
    rewrite E' in E; injection E as <- <-; [by split_and!|].
  pose proof (take_pages_ok p st 1 I H0 ltac:(lia) H1 Hf) as T.
  pose proof (inv_total p I) as Ht. rewrite PMM_BITS_eq in Ht.
  split; [apply T|]. split; [apply T|]. split.
  - intros q Hq Hu. destruct (decide (st <= q < st + 1)); [by apply (rc_in _ _ _ _ _ T)|].
    by rewrite (rc_out _ _ _ _ _ T).
  - intros Hn. unfold PAGE_SIZE, aligned in *. rewrite Z.div_mul, Z_mod_mult by lia.
    split; [done|]. split; [lia|]. split; [lia|]. split; [apply Hf; lia|]. apply (rc_in _ _ _ _ _ T). lia.
Qed.

(** An allocation takes at most the page it returns and moves no reservation. *)
Lemma alloc_page_new p np p' :
  pmm_inv p -> pmm_alloc_page p = (np, p') ->
  resv_bitmap p' = resv_bitmap p /\
  forall q, 0 <= q -> used_get p' q = true -> used_get p q = true \/ q * 4096 = np.
Proof.
  intros I E. unfold pmm_alloc_page in E.
  destruct (pmm_alloc_pages_cases p 1 I ltac:(lia)) as [[E' _]|(st & E' & _ & H0 & H1 & Hf & _)];
    rewrite E' in E; injection E as <- <-; [by auto|].
  pose proof (take_pages_ok p st 1 I H0 ltac:(lia) H1 Hf) as T. split; [apply T|]. intros q Hq Hu.
  destruct (decide (st <= q < st + 1)); [right; unfold PAGE_SIZE; lia|left]. by rewrite <- (rc_out _ _ _ _ _ T).
Qed.

Lemma free_pg_spec p a :
  pmm_inv p -> 0 <= a < 2 ^ 64 ->
  pmm_inv (free_pg p a) /\ total_pages (free_pg p a) = total_pages p /\
  resv_bitmap (free_pg p a) = resv_bitmap p /\
  forall q, 0 <= q -> used_get (free_pg p a) q =
    used_get p q && negb ((a =? q * 4096) && (q <? total_pages p) && negb (resv_get p q)).
Proof.
  intros I Ha. unfold free_pg, pmm_free_page.
  pose proof (inv_max p I) as Hm. unfold PAGE_SIZE in Hm.
  destruct (pmm_free_pages_cases p a 1 I Ha ltac:(lia)) as [[-> N]|[-> F]]; cbn [snd].
  - split; [done|]. split; [done|]. split; [done|]. intros q Hq.
    destruct (used_get p q) eqn:Eu; [|done]. simpl. symmetry. apply negb_true_iff.
    destruct (Z.eqb_spec a (q * 4096)) as [->|]; [|done]. destruct (Z.ltb_spec q (total_pages p)); [|done]. simpl.
    apply negb_false_iff. destruct (resv_get p q) eqn:Er; [done|]. exfalso. apply N.
    unfold freeable, PAGE_SIZE. rewrite Z.div_mul, Z_mod_mult, Hm by lia. split; [done|]. split; [done|].
    split; [lia|]. intros j Hj. by replace j with q by lia.
  - destruct F as (_ & Hal & Hle & Hu). unfold PAGE_SIZE in *.
    pose proof (Z.div_mod a 4096 ltac:(lia)) as D.
    pose proof (give_pages_ok p (a / 4096) 1 I ltac:(lia) ltac:(lia) ltac:(lia) Hu) as T.
    split; [apply T|]. split; [apply T|]. split; [apply T|]. intros q Hq.
    destruct (Z.eqb_spec a (q * 4096)) as [E|E].
    + destruct (Hu q ltac:(lia)) as [H1 H2].
      rewrite (rc_in _ _ _ _ _ T) by lia. rewrite H1, H2. destruct (Z.ltb_spec q (total_pages p)); [done|lia].
    + rewrite (rc_out _ _ _ _ _ T) by lia. simpl. by rewrite andb_true_r.
Qed.

(** ** Walking one level, allocating the table if it is missing *)

Definition idx_ok (i : Z) : Prop := 0 <= i < 512.

Lemma idx4_ok va : idx_ok (idx_pml4 va).
Proof. apply idx_range. Qed.
Lemma idx3_ok va : idx_ok (idx_pdpt va).
Proof. apply idx_range. Qed.
Lemma idx2_ok va : idx_ok (idx_pd va).
Proof. apply idx_range. Qed.
Lemma idx1_ok va : idx_ok (idx_pt va).
Proof. apply idx_range. Qed.

(** All translations below registered tables agree. *)
Definition same_leaves (G : gmap Z (Z * list Z)) (m m' : gmap Z Z) : Prop :=
  forall t r path idxs, G !! t = Some (r, path) -> (length path + length idxs = 4)%nat ->
    Forall idx_ok idxs -> leaf m' t idxs = leaf m t idxs.

Lemma leaf_cons2 m t i j rest :
  leaf m t (i :: j :: rest) = let e := entry m t i in
    if is_table e then leaf m (Z.land e PTE_ADDR_MASK) (j :: rest) else None.
Proof. done. Qed.

(** Replacing an absent entry by an empty table changes no translation. *)
Lemma same_leaves_alloc K G v v' t r path i np :
  tree_inv K G v -> G !! t = Some (r, path) -> idx_ok i -> (length path < 3)%nat ->
  has (entry (vm_mem v) t i) PTE_PRESENT = false ->
  G !! np = None -> aligned np ->
  (forall p j, p <> np -> aligned p -> idx_ok j -> ~ (p = t /\ j = i) ->
     entry (vm_mem v') p j = entry (vm_mem v) p j) ->
  (forall j, idx_ok j -> entry (vm_mem v') np j = 0) ->
  is_table (entry (vm_mem v') t i) = true -> Z.land (entry (vm_mem v') t i) PTE_ADDR_MASK = np ->
  same_leaves G (vm_mem v) (vm_mem v').
Proof.
  intros I Ht Hi Hlen Habs Hnp Ha Hframe Hzero Htab Hmask.
  assert (forall idxs, Forall idx_ok idxs -> leaf (vm_mem v') np idxs = None) as Hnone.
  { intros [|j [|k idxs]] F; [done| |]; apply Forall_cons_1 in F as [Hj _].
    - simpl. by rewrite Hzero.
    - rewrite leaf_cons2. cbv zeta. by rewrite Hzero. }
  intros t0 r0 path0 idxs. revert t0 r0 path0. induction idxs as [|j idxs IH]; intros t0 r0 path0 E0 Hl F; [done|].
  apply Forall_cons_1 in F as [Hj F].
  assert (t0 <> np) as Hne by (intros ->; congruence).
  destruct (ti_page _ _ _ I _ _ E0) as (_ & Hal0 & _).
  destruct (decide (t0 = t /\ j = i)) as [[-> ->]|Hd].
  - rewrite E0 in Ht. injection Ht as -> ->. destruct idxs as [|k idxs]; [simpl in Hl; lia|].
    rewrite !leaf_cons2. cbv zeta. rewrite Htab, Hmask, Hnone by done. unfold is_table. by rewrite Habs.
  - destruct idxs as [|k idxs].
    + simpl. by rewrite Hframe.
    + rewrite !leaf_cons2. cbv zeta. rewrite Hframe by done.
      destruct (is_table (entry (vm_mem v) t0 j)) eqn:Et; [|done].
      simpl in Hl. pose proof (ti_child _ _ _ I _ _ _ _ E0 ltac:(lia) Hj Et) as Ec.
      destruct (child_role K r0 path0 j) as [r1 path1] eqn:Er.
      eapply IH; [exact Ec| |done]. unfold child_role in Er. case_decide as Hp; injection Er as <- <-; simpl.
      * destruct Hp as [-> _]. simpl in Hl. lia.
      * rewrite length_app. simpl. lia.
Qed.

Lemma tree_inv_pmm K G v p :
  tree_inv K G v -> pmm_inv p -> total_pages p = total_pages (vm_pmm v) ->
  (forall q, 0 <= q -> used_get (vm_pmm v) q = true -> used_get p q = true) -> tree_inv K G (with_pmm v p).
Proof.
  intros I Ip Et Hu. destruct I as [? Hpg ? ? ? ?]. split; try done. intros q ro E. cbn [vm_pmm with_pmm].
  destruct (Hpg q ro E) as (H1 & H2 & H3). split; [done|]. split; [done|]. rewrite Et.
  destruct H3; [left|by right]. apply Hu; [apply Z.div_pos; lia|done].
Qed.

(** New tables are pages that were free; no page is given back, and apart from
    page 0, which the allocator can take but not return, only the new tables
    were taken. *)
Definition tables_fresh (G : gmap Z (Z * list Z)) (v : vm) (G' : gmap Z (Z * list Z)) (v' : vm) : Prop :=
  (forall p ro, G' !! p = Some ro -> G !! p = None ->
     0 <= p / 4096 < total_pages (vm_pmm v) /\ used_get (vm_pmm v) (p / 4096) = false) /\
  (forall q, 0 <= q -> used_get (vm_pmm v) q = true -> used_get (vm_pmm v') q = true) /\
  total_pages (vm_pmm v') = total_pages (vm_pmm v) /\
  resv_bitmap (vm_pmm v') = resv_bitmap (vm_pmm v) /\
  (forall q, 0 < q -> used_get (vm_pmm v') q = true -> used_get (vm_pmm v) q = true \/ is_Some (G' !! (q * 4096))).

Lemma tables_fresh_refl G v : tables_fresh G v G v.
Proof. split; [|auto]. intros p ro E1 E2. congruence. Qed.

Lemma tables_fresh_trans G1 v1 G2 v2 G3 v3 :
  G2 ⊆ G3 -> tables_fresh G1 v1 G2 v2 -> tables_fresh G2 v2 G3 v3 -> tables_fresh G1 v1 G3 v3.
Proof.
  intros Hs (A1 & A2 & A3 & A4 & A5) (B1 & B2 & B3 & B4 & B5).
  split; [|split; [auto|split; [congruence|split; [congruence|]]]]; cycle 1.
  { intros q Hq Hu. destruct (B5 q Hq Hu) as [Hu2|?]; [|by right]. destruct (A5 q Hq Hu2) as [?|[ro E]]; [by left|right].
    exists ro. by eapply lookup_weaken. }
  intros p ro E3 E1.
  destruct (G2 !! p) as [ro2|] eqn:E2; [by eapply A1|]. destruct (B1 p ro E3 E2) as [Hp Hu]. split; [lia|].
  destruct (used_get (vm_pmm v1) (p / 4096)) eqn:Eu; [|done]. apply A2 in Eu; [congruence|lia].
Qed.

(** Giving back a page that holds no table. *)
Lemma tree_inv_free K G v a :
  tree_inv K G v -> G !! a = None -> 0 <= a < 2 ^ 64 -> tree_inv K G (with_pmm v (free_pg (vm_pmm v) a)).
Proof.
  intros I Ha Hr. destruct (free_pg_spec _ _ (ti_pmm _ _ _ I) Hr) as (I1 & T1 & _ & U1).
  destruct I as [? Hpg ? ? ? ?]. split; try done. intros q ro E. cbn [vm_pmm with_pmm].
  destruct (Hpg q ro E) as (H1 & H2 & H3). split; [done|]. split; [done|]. rewrite T1.
  destruct H3 as [H3|]; [left|by right]. rewrite U1, H3 by (apply Z.div_pos; lia). simpl.
  replace (a =? q / 4096 * 4096) with false; [done|]. symmetry. apply Z.eqb_neq. intros ->.
  replace (q / 4096 * 4096) with q in Ha by (pose proof (Z.div_mod q 4096); lia). congruence.
Qed.

Lemma descend_spec K G v t r path i user t' v' :
  tree_inv K G v -> G !! t = Some (r, path) -> (length path < 3)%nat -> idx_ok i ->
  descend_or_alloc t i user v = (t', v') ->
  exists G', G ⊆ G' /\ tree_inv K G' v' /\ same_leaves G (vm_mem v) (vm_mem v') /\
    (forall p r0, G' !! p = Some (r0, []) -> G !! p = Some (r0, [])) /\
    (t' <> 0 -> G' !! t' = Some (child_role K r path i) /\
       is_table (entry (vm_mem v') t i) = true /\ Z.land (entry (vm_mem v') t i) PTE_ADDR_MASK = t') /\
    (forall q ro j, G !! q = Some ro -> idx_ok j ->
       is_table (entry (vm_mem v) q j) = true \/ ~ (q = t /\ j = i) ->
       entry (vm_mem v') q j = entry (vm_mem v) q j) /\
    tables_fresh G v G' v'.
Proof.
  intros I Ht Hlen Hi E. unfold descend_or_alloc in E.
  destruct (has (entry (vm_mem v) t i) PTE_PRESENT) eqn:Hp.
  { exists G. destruct (has (entry (vm_mem v) t i) PTE_HUGE) eqn:Hh; injection E as <- <-;
      (split; [done|]; split; [done|]; split; [done|]; split; [done|]).
    - split; [done|]. split; [done|apply tables_fresh_refl].
    - assert (is_table (entry (vm_mem v) t i) = true) as Htab by (unfold is_table; by rewrite Hp, Hh).
      split; [|split; [done|apply tables_fresh_refl]]. intros _. split; [|done]. by apply (ti_child _ _ _ I). }
  assert (is_table (entry (vm_mem v) t i) = false) as Hno by (unfold is_table; by rewrite Hp).
  destruct (pmm_alloc_page (vm_pmm v)) as [np p] eqn:Ea.
  destruct (alloc_page_spec _ _ _ (ti_pmm _ _ _ I) Ea) as (Ip & Etot & Hused & Hnp).
  destruct (alloc_page_new _ _ _ (ti_pmm _ _ _ I) Ea) as (Hresv & Hnew).
  pose proof (tree_inv_pmm K G v p I Ip Etot Hused) as Ivp.
  destruct (Z.eqb_spec np 0) as [->|Hn0]; apply pair_eq in E as [<- <-].
  { exists G. split; [done|]. split; [done|]. split; [done|]. split; [done|]. split; [done|]. split; [done|].
    split; [intros q ro E1 E2; congruence|]. split; [done|]. split; [done|]. split; [done|].
    intros q Hq Hu. destruct (Hnew q ltac:(lia) Hu); [by left|lia]. }
  destruct (Hnp Hn0) as (Hal & Hrange & Htot & Hfree & Hus). clear Hnp.
  set (fl := if user then _ else _). assert (0 <= fl < 2 ^ 12 /\ has fl PTE_PRESENT = true /\ has fl PTE_HUGE = false)
    as (Hfl & Hfp & Hfh) by by destruct user.
  set (v' := with_mem _ _). pose proof (ti_page _ _ _ I t _ Ht) as (_ & Hat & _).
  assert (G !! np = None) as Hnone.
  { apply eq_None_not_Some. intros [ro Ero]. destruct (ti_page _ _ _ I _ _ Ero) as (_ & _ & [Hu|Hu]); [congruence|lia]. }
  assert (t <> np) as Htn by (intros ->; congruence).
  assert (forall q j, aligned q -> idx_ok j -> entry (vm_mem v') q j =
    if decide (q = t /\ j = i) then Z.lor np fl else if decide (q = np) then 0 else entry (vm_mem v) q j) as He.
  { intros q j Hq Hj. cbn [vm_mem v' with_mem]. rewrite entry_set by done. case_decide; [done|].
    by rewrite entry_zero_page. }
  assert (vm_pmm v' = p) as Epm by done. clearbody v'.
  assert (entry (vm_mem v') t i = Z.lor np fl) as Eti by (rewrite He by done; by rewrite decide_True).
  assert (is_table (Z.lor np fl) = true /\ Z.land (Z.lor np fl) PTE_ADDR_MASK = np) as [Htab Hmask].
  { unfold is_table. rewrite (has_lor_low np fl PTE_PRESENT 0), (has_lor_low np fl PTE_HUGE 7) by (done || lia).
    rewrite Hfp, Hfh. split; [done|]. apply mask_lor; [done|lia|done]. }
  assert (~ (path = [] /\ i = 0)) as Hnk.
  { intros [-> ->].
    pose proof (ti_k0 _ _ _ I _ _ Ht) as E0. destruct (ti_kernel _ _ _ I) as [_ E1]. rewrite <- E0 in E1.
    unfold is_table in E1. by rewrite Hp in E1. }
  assert (child_role K r path i = (r, path ++ [i])) as Hrole by (unfold child_role; by rewrite decide_False).
  assert (forall q r0, G !! q = Some (r0, []) -> entry (vm_mem v') q 0 = entry (vm_mem v) q 0) as Hroot0.
  { intros q r0 Eq. destruct (ti_page _ _ _ I _ _ Eq) as (_ & Hq & _). rewrite He by (done || red; lia).
    rewrite decide_False, decide_False; [done|by intros ->; congruence|].
    intros [-> <-]. rewrite Eq in Ht. injection Ht as -> <-. by apply Hnk. }
  exists (<[np := (r, path ++ [i])]> G). split; [by apply insert_subseteq|]. split; [|split; [|split; [|split; [|split]]]].
  - split.
    + by rewrite Epm.
    + intros q ro. rewrite Epm, lookup_insert. case_decide as Hq.
      * subst q. intros [= <-]. split; [lia|]. split; [done|]. by left.
      * intros Eq. apply (ti_page _ _ _ Ivp _ _ Eq).
    + intros q r0 path0 j. rewrite lookup_insert. case_decide as Hq.
      * subst q. intros [= <- <-] _ Hj. rewrite He by done.
        rewrite decide_False by (intros [? _]; congruence). by rewrite decide_True.
      * intros Eq Hl Hj. destruct (ti_page _ _ _ I _ _ Eq) as (_ & Hqa & _). rewrite He by done.
        case_decide as Hd.
        -- destruct Hd as [-> ->]. rewrite Hmask, lookup_insert_eq. intros _. congruence.
        -- rewrite decide_False by congruence. intros Et.
           pose proof (ti_child _ _ _ I _ _ _ _ Eq Hl Hj Et) as Ec. rewrite lookup_insert_ne; [done|]. congruence.
    + intros q r0. rewrite lookup_insert. case_decide; [|apply (ti_root _ _ _ I)].
      intros [= _ E0]. by destruct path.
    + intros q r0. rewrite lookup_insert. case_decide; [intros [= _ E0]; by destruct path|]. intros Eq.
      rewrite (Hroot0 q r0 Eq), (Hroot0 K K) by apply (ti_kernel _ _ _ I). by apply (ti_k0 _ _ _ I q r0).
    + destruct (ti_kernel _ _ _ I) as [EK HK]. split.
      * rewrite lookup_insert_ne; [done|]. congruence.
      * by rewrite (Hroot0 K K).
  - eapply (same_leaves_alloc K G v v' t r path i np); try done.
    + intros q j Hq Hqa Hj Hd. rewrite He by done. by rewrite !decide_False.
    + intros j Hj. rewrite He by done. rewrite decide_False by (intros [? _]; congruence). by rewrite decide_True.
    + by rewrite Eti.
    + by rewrite Eti.
  - intros q r0. rewrite lookup_insert. case_decide; [|done]. intros [= _ E0]. by destruct path.
  - intros _. rewrite lookup_insert_eq, Hrole, Eti. done.
  - intros q ro j Eq Hj Et. destruct (ti_page _ _ _ I _ _ Eq) as (_ & Hqa & _). rewrite He by done.
    rewrite decide_False by (intros [-> ->]; destruct Et as [?|Et]; [congruence|by apply Et]).
    rewrite decide_False; [done|]. congruence.
  - unfold tables_fresh. rewrite Epm. split; [|split; [done|split; [done|split; [done|]]]].
    + intros q ro. rewrite lookup_insert. case_decide as Hq; [|congruence]. subst q. intros _ _.
      split; [split; [apply Z.div_pos; lia|done]|done].
    + intros q Hq Hu. destruct (Hnew q ltac:(lia) Hu) as [?| <-]; [by left|right]. by rewrite lookup_insert_eq.
Qed.

(** ** Writing one leaf entry *)

(** The canonical name of the slot a walk ends in. *)
Fixpoint dest (K r : Z) (path idxs : list Z) : Z * list Z :=
  match idxs with
  | [] => (r, path)
  | i :: rest => let '(r', path') := child_role K r path i in dest K r' path' rest
  end.

Definition slot (K r va : Z) : Z * list Z := dest K r [] (indices va).

Lemma child_role_length K r path i r' path' :
  child_role K r path i = (r', path') -> length path' = S (length path).
Proof.
  unfold child_role. case_decide as H; intros [= <- <-]; [by destruct H as [-> _]|].
  rewrite length_app. simpl. lia.
Qed.

Lemma leaf_set_other K G v P r path i1 e t r0 path0 idxs :
  tree_inv K G v -> G !! P = Some (r, path) -> length path = 3%nat -> idx_ok i1 ->
  G !! t = Some (r0, path0) -> (length path0 + length idxs = 4)%nat -> Forall idx_ok idxs ->
  dest K r0 path0 idxs <> (r, path ++ [i1]) ->
  leaf (set_entry (vm_mem v) P i1 e) t idxs = leaf (vm_mem v) t idxs.
Proof.
  intros I EP HlP Hi1. revert t r0 path0. induction idxs as [|j idxs IH]; intros t r0 path0 Et Hl F Hd; [done|].
  apply Forall_cons_1 in F as [Hj F].
  destruct (ti_page _ _ _ I _ _ EP) as (_ & HaP & _), (ti_page _ _ _ I _ _ Et) as (_ & Hat & _).
  assert (entry (set_entry (vm_mem v) P i1 e) t j = entry (vm_mem v) t j) as He.
  { rewrite entry_set by done. case_decide as Hp; [|done]. destruct Hp as [-> ->]. exfalso.
    rewrite EP in Et. injection Et as <- <-. assert (idxs = []) as -> by (destruct idxs; simpl in Hl; [done|lia]).
    apply Hd. simpl. unfold child_role. rewrite decide_False; [done|]. intros [-> _]. done. }
  destruct idxs as [|k idxs]; [simpl; by rewrite He|].
  rewrite !leaf_cons2. cbv zeta. rewrite He. destruct (is_table (entry (vm_mem v) t j)) eqn:Etab; [|done].
  simpl in Hl. pose proof (ti_child _ _ _ I _ _ _ _ Et ltac:(lia) Hj Etab) as Ec.
  change (dest K r0 path0 (j :: k :: idxs)) with
    (let '(r', path') := child_role K r0 path0 j in dest K r' path' (k :: idxs)) in Hd.
  destruct (child_role K r0 path0 j) as [r1 path1] eqn:Er.
  eapply IH; [exact Ec| |done|done]. apply child_role_length in Er. simpl. lia.
Qed.

Lemma tree_inv_leaf K G v P r path i1 e va :
  tree_inv K G v -> G !! P = Some (r, path) -> length path = 3%nat -> idx_ok i1 ->
  tree_inv K G (vmm_flush va (with_mem v (set_entry (vm_mem v) P i1 e))).
Proof.
  intros I EP Hl Hi. pose proof I as [I1 I2 I3 I4 I5 [I6 I7]].
  destruct (I2 _ _ EP) as (_ & HaP & _).
  assert (forall q r0 path0 j, G !! q = Some (r0, path0) -> (length path0 < 3)%nat -> idx_ok j ->
    entry (set_entry (vm_mem v) P i1 e) q j = entry (vm_mem v) q j) as He.
  { intros q r0 path0 j Eq Hlt Hj. destruct (I2 _ _ Eq) as (_ & Haq & _). rewrite entry_set by done.
    case_decide as Hd; [|done]. destruct Hd as [-> _]. rewrite EP in Eq. injection Eq as _ ->. lia. }
  split; cbn [vm_pmm vm_mem vmm_flush with_mem]; try done.
  - intros q r0 path0 j Eq Hlt Hj. rewrite (He q r0 path0 j) by done. by apply I3.
  - intros q r0 Eq. rewrite (He q r0 []), (He K K []) by (done || simpl; lia || red; lia). by apply (I5 q r0).
  - split; [done|]. rewrite (He K K []) by (done || simpl; lia || red; lia). done.
Qed.

(** ** Queries read the tree *)

Lemma indices_ok va : Forall idx_ok (indices va).
Proof. repeat constructor; apply idx_range. Qed.

Definition registered (G : gmap Z (Z * list Z)) (r : Z) : Prop := G !! r = Some (r, []).

Lemma has_zero_iff e b : has e b = false <-> Z.land e b = 0.
Proof. unfold has. rewrite negb_false_iff. apply Z.eqb_eq. Qed.

Lemma walk_leaf_tree K G v s va :
  tree_inv K G v -> registered G (sp_pml4 s) ->
  let pt := walk_leaf (vm_mem v) (Some s) va in
  (pt = 0 /\ leaf (vm_mem v) (sp_pml4 s) (indices va) = None) \/
  (pt <> 0 /\ (exists r path, G !! pt = Some (r, path) /\ length path = 3%nat /\
                 slot K (sp_pml4 s) va = (r, path ++ [idx_pt va])) /\
   (forall e, leaf (set_entry (vm_mem v) pt (idx_pt va) e) (sp_pml4 s) (indices va) =
      if has e PTE_PRESENT then Some e else None) /\
   leaf (vm_mem v) (sp_pml4 s) (indices va) =
     (let e := entry (vm_mem v) pt (idx_pt va) in if has e PTE_PRESENT then Some e else None)).
Proof.
  intros I Hr. cbv zeta. unfold walk_leaf, indices. rewrite !leaf_cons2. cbv zeta.
  assert (forall e, negb (has e PTE_PRESENT) || has e PTE_HUGE = negb (is_table e)) as Hn.
  { intros e. unfold is_table. by rewrite negb_andb, negb_involutive. }
  rewrite !Hn. red in Hr.
  destruct (is_table (entry (vm_mem v) (sp_pml4 s) (idx_pml4 va))) eqn:E4; simpl negb; cbv iota; [|by left].
  pose proof (ti_child _ _ _ I _ _ _ _ Hr ltac:(simpl; lia) (idx4_ok va) E4) as R3.
  set (pdpt := Z.land (entry _ (sp_pml4 s) _) PTE_ADDR_MASK) in *.
  destruct (child_role K (sp_pml4 s) [] (idx_pml4 va)) as [r3 p3] eqn:C3. pose proof (child_role_length _ _ _ _ _ _ C3) as L3.
  rewrite !leaf_cons2. cbv zeta. destruct (is_table (entry (vm_mem v) pdpt (idx_pdpt va))) eqn:E3; simpl negb; cbv iota; [|by left].
  pose proof (ti_child _ _ _ I _ _ _ _ R3 ltac:(simpl in *; lia) (idx3_ok va) E3) as R2.
  set (pd := Z.land (entry _ pdpt _) PTE_ADDR_MASK) in *.
  destruct (child_role K r3 p3 (idx_pdpt va)) as [r2 p2] eqn:C2. pose proof (child_role_length _ _ _ _ _ _ C2) as L2.
  rewrite !leaf_cons2. cbv zeta. destruct (is_table (entry (vm_mem v) pd (idx_pd va))) eqn:E2; simpl negb; cbv iota; [|by left].
  pose proof (ti_child _ _ _ I _ _ _ _ R2 ltac:(simpl in *; lia) (idx2_ok va) E2) as R1.
  set (pt := Z.land (entry _ pd _) PTE_ADDR_MASK) in *.
  destruct (child_role K r2 p2 (idx_pd va)) as [r1 p1] eqn:C1. pose proof (child_role_length _ _ _ _ _ _ C1) as L1.
  destruct (ti_page _ _ _ I _ _ R1) as (Hpt & HaP & _), (ti_page _ _ _ I _ _ R2) as (_ & Ha2 & _),
    (ti_page _ _ _ I _ _ R3) as (_ & Ha3 & _), (ti_page _ _ _ I _ _ Hr) as (_ & Ha4 & _).
  assert (forall q ro e j, G !! q = Some ro -> aligned q -> length (snd ro) <> 3%nat -> idx_ok j ->
    entry (set_entry (vm_mem v) pt (idx_pt va) e) q j = entry (vm_mem v) q j) as He.
  { intros q ro e j Eq Hq Hl Hj. rewrite entry_set by (done || apply idx_range). case_decide as Hd; [|done].
    destruct Hd as [-> _]. rewrite R1 in Eq. injection Eq as <-. simpl in *. lia. }
  right. split; [lia|]. split; [|split; [|done]].
  - exists r1, p1. split; [done|]. split; [simpl in *; lia|].
    unfold slot, indices. cbn [dest]. rewrite C3, C2, C1. unfold child_role. rewrite decide_False; [done|].
    intros [-> _]. simpl in *. lia.
  - intros e. rewrite leaf_cons2. cbv zeta. rewrite (He (sp_pml4 s) _ e _ Hr) by (done || apply idx_range). rewrite E4.
    fold pdpt. rewrite leaf_cons2. cbv zeta.
    rewrite (He pdpt _ e _ R3) by (done || apply idx_range || simpl in *; lia). rewrite E3. fold pd.
    rewrite leaf_cons2. cbv zeta. rewrite (He pd _ e _ R2) by (done || apply idx_range || simpl in *; lia). rewrite E2. fold pt.
    simpl. rewrite entry_set by (done || apply idx_range). by rewrite decide_True.
Qed.

Lemma query_translate K G v s va :
  tree_inv K G v -> registered G (sp_pml4 s) -> has va (PAGE_SIZE - 1) = false ->
  vmm_query (Some s) va v = translate v (sp_pml4 s) va.
Proof.
  intros I Hr Hva. unfold vmm_query, translate. rewrite Hva.
  destruct (walk_leaf_tree K G v s va I Hr) as [[-> ->]|(Hn & _ & _ & ->)]; [done|].
  rewrite (proj2 (Z.eqb_neq _ 0) Hn). cbv zeta.
  by destruct (has (entry (vm_mem v) _ (idx_pt va)) PTE_PRESENT).
Qed.

(** ** vmm_map *)

Lemma translate_same G v v' r va :
  same_leaves G (vm_mem v) (vm_mem v') -> registered G r -> translate v' r va = translate v r va.
Proof.
  intros S Hr. unfold translate. by rewrite (S r r [] (indices va) Hr eq_refl (indices_ok va)).
Qed.

Lemma same_leaves_trans (G G' : gmap Z (Z * list Z)) m1 m2 m3 :
  G ⊆ G' -> same_leaves G m1 m2 -> same_leaves G' m2 m3 -> same_leaves G m1 m3.
Proof.
  intros Hs S1 S2 t r path idxs E Hl F. rewrite (S2 t r path idxs) by (done || by eapply lookup_weaken).
  by apply (S1 t r path idxs).
Qed.

(** The three levels [vmm_map] walks before it touches the leaf. *)
Lemma descend3_spec K G v s va user :
  tree_inv K G v -> registered G (sp_pml4 s) ->
  let '(pdpt, v1) := descend_or_alloc (sp_pml4 s) (idx_pml4 va) user v in
  let '(pd, v2) := if pdpt =? 0 then (0, v1) else descend_or_alloc pdpt (idx_pdpt va) user v1 in
  let '(pt, v3) := if pd =? 0 then (0, v2) else descend_or_alloc pd (idx_pd va) user v2 in
  exists G', G ⊆ G' /\ tree_inv K G' v3 /\ same_leaves G (vm_mem v) (vm_mem v3) /\
    (forall p r0, G' !! p = Some (r0, []) -> G !! p = Some (r0, [])) /\
    (forall r j, registered G r -> idx_ok j -> j <> idx_pml4 va -> entry (vm_mem v3) r j = entry (vm_mem v) r j) /\
    tables_fresh G v G' v3 /\
    (pt <> 0 -> walk_leaf (vm_mem v3) (Some s) va = pt).
Proof.
  intros I Hr. destruct (descend_or_alloc (sp_pml4 s) (idx_pml4 va) user v) as [pdpt v1] eqn:E1.
  destruct (descend_spec K G v _ _ _ _ _ _ _ I Hr ltac:(simpl; lia) (idx4_ok va) E1)
    as (G1 & Hs1 & I1 & S1 & R1 & P1 & F1 & X1).
  assert (forall r j, registered G r -> idx_ok j -> j <> idx_pml4 va -> entry (vm_mem v1) r j = entry (vm_mem v) r j) as N1.
  { intros r j Hrr Hj Hne. apply (F1 _ _ _ Hrr Hj). right. by intros [_ ->]. }
  destruct (Z.eqb_spec pdpt 0) as [->|Hn1]. { exists G1. split; [done|]. done. }
  destruct (P1 Hn1) as (Eg1 & Et1 & Em1).
  destruct (child_role K (sp_pml4 s) [] (idx_pml4 va)) as [r1 p1] eqn:C1. pose proof (child_role_length _ _ _ _ _ _ C1) as L1.
  destruct (descend_or_alloc pdpt (idx_pdpt va) user v1) as [pd v2] eqn:E2.
  destruct (descend_spec K G1 v1 _ _ _ _ _ _ _ I1 Eg1 ltac:(simpl in *; lia) (idx3_ok va) E2)
    as (G2 & Hs2 & I2 & S2 & R2 & P2 & F2 & X2).
  pose proof (same_leaves_trans _ _ _ _ _ Hs1 S1 S2) as S12.
  assert (G ⊆ G2) as Hs12 by by transitivity G1.
  assert (forall r j, registered G r -> idx_ok j -> j <> idx_pml4 va -> entry (vm_mem v2) r j = entry (vm_mem v) r j) as N2.
  { intros r j Hrr Hj Hne. rewrite <- N1 by done. assert (G1 !! r = Some (r, [])) as Hrr1 by (by eapply lookup_weaken).
    apply (F2 _ _ _ Hrr1 Hj). right. intros [-> _]. rewrite Hrr1 in Eg1. injection Eg1 as _ <-. done. }
  destruct (Z.eqb_spec pd 0) as [->|Hn2]. { exists G2. split; [done|]. split; [done|]. split; [done|]. split; [naive_solver|]. split; [done|].
    split; [by apply (tables_fresh_trans G v G1 v1)|done]. }
  destruct (P2 Hn2) as (Eg2 & Et2 & Em2).
  destruct (child_role K r1 p1 (idx_pdpt va)) as [r2 p2] eqn:C2. pose proof (child_role_length _ _ _ _ _ _ C2) as L2.
  destruct (descend_or_alloc pd (idx_pd va) user v2) as [pt v3] eqn:E3.
  destruct (descend_spec K G2 v2 _ _ _ _ _ _ _ I2 Eg2 ltac:(simpl in *; lia) (idx2_ok va) E3)
    as (G3 & Hs3 & I3 & S3 & R3 & P3 & F3 & X3).
  exists G3. split; [by transitivity G2|]. split; [done|].
  split; [by eapply same_leaves_trans|]. split; [naive_solver|]. split.
  { intros r j Hrr Hj Hne. rewrite <- N2 by done. assert (G2 !! r = Some (r, [])) as Hrr2 by (by eapply lookup_weaken).
    apply (F3 _ _ _ Hrr2 Hj). right. intros [-> _]. rewrite Hrr2 in Eg2. injection Eg2 as _ <-. done. }
  split; [apply (tables_fresh_trans G v G1 v1); [by transitivity G2|done|by apply (tables_fresh_trans G1 v1 G2 v2)]|].
  intros Hn3.
  destruct (P3 Hn3) as (_ & Et3 & Em3).
  assert (registered G1 (sp_pml4 s)) as Hr1 by (by eapply lookup_weaken).
  assert (registered G2 (sp_pml4 s)) as Hr2 by (by eapply lookup_weaken).
  assert (G2 !! pdpt = Some (r1, p1)) as Eg12 by (by eapply lookup_weaken).
  assert (entry (vm_mem v2) (sp_pml4 s) (idx_pml4 va) = entry (vm_mem v1) (sp_pml4 s) (idx_pml4 va)) as Ea'
    by (apply (F2 _ _ _ Hr1 (idx4_ok va)); by left).
  assert (entry (vm_mem v3) (sp_pml4 s) (idx_pml4 va) = entry (vm_mem v1) (sp_pml4 s) (idx_pml4 va)) as Ea
    by (rewrite <- Ea'; apply (F3 _ _ _ Hr2 (idx4_ok va)); left; by rewrite Ea').
  assert (entry (vm_mem v3) pdpt (idx_pdpt va) = entry (vm_mem v2) pdpt (idx_pdpt va)) as Eb
    by (apply (F3 _ _ _ Eg12 (idx3_ok va)); by left).
  unfold is_table in Et1, Et2, Et3. unfold walk_leaf. cbv zeta.
  rewrite Ea. apply andb_prop in Et1 as [-> ->%negb_true_iff]. simpl. rewrite Em1, Eb.
  apply andb_prop in Et2 as [-> ->%negb_true_iff]. simpl. rewrite Em2.
  apply andb_prop in Et3 as [-> ->%negb_true_iff]. simpl. done.
Qed.

Lemma has_pte_present pa f : aligned pa -> has f VM_PRESENT = true -> has (Z.lor pa (flags_to_pte f)) PTE_PRESENT = true.
Proof.
  intros Hp Hf. rewrite (has_lor_low pa _ PTE_PRESENT 0) by (done || lia).
  unfold flags_to_pte. rewrite Hf. by destruct (has f VM_WRITE), (has f VM_USER), (has f VM_NOCACHE).
Qed.

Lemma has_page_aligned x : has x (PAGE_SIZE - 1) = false <-> aligned x.
Proof.
  rewrite has_zero_iff. unfold aligned, PAGE_SIZE. change (4096 - 1) with (2 ^ 12 - 1). by rewrite land_low by lia.
Qed.

(** [vmm_map] either fails and changes no translation of any space (it may
    have added empty tables), or it maps a page that was unmapped to exactly the
    requested frame and flags and flushes it, and the translation of every other
    page of every space is as before; the tree of tables stays well formed. *)
Lemma vmm_map_spec (K : Z) (G : gmap Z (Z * list Z)) (v v' : vm) (s : vmm_space) (va pa flags : Z) (b : bool) :
  tree_inv K G v -> registered G (sp_pml4 s) -> 0 <= pa < 2 ^ 52 ->
  vmm_map (Some s) va pa flags v = (b, v') ->
  exists G', G ⊆ G' /\ tree_inv K G' v' /\ (forall r, registered G' r -> registered G r) /\
    (forall r va', registered G r -> (b = true -> slot K r va' <> slot K (sp_pml4 s) va) ->
       translate v' r va' = translate v r va') /\
    (forall r j, registered G r -> idx_ok j -> j <> idx_pml4 va -> entry (vm_mem v') r j = entry (vm_mem v) r j) /\
    tables_fresh G v G' v' /\
    (b = true -> lower_bound s <= va /\ translate v (sp_pml4 s) va = None /\
       translate v' (sp_pml4 s) va = Some (pa, Z.land flags 15) /\ last (vm_flushed v') = Some va).
Proof.
  intros I Hr Hpa E. unfold vmm_map in E.
  assert (exists G', G ⊆ G' /\ tree_inv K G' v /\ (forall r, registered G' r -> registered G r) /\
    (forall r va', registered G r -> (false = true -> slot K r va' <> slot K (sp_pml4 s) va) ->
       translate v r va' = translate v r va') /\
    (forall r j, registered G r -> idx_ok j -> j <> idx_pml4 va -> entry (vm_mem v) r j = entry (vm_mem v) r j) /\
    tables_fresh G v G' v /\
    (false = true -> lower_bound s <= va /\ translate v (sp_pml4 s) va = None /\
       translate v (sp_pml4 s) va = Some (pa, Z.land flags 15) /\ last (vm_flushed v) = Some va)) as Same
    by (exists G; split_and!; try done; by apply tables_fresh_refl).
  destruct (has va (PAGE_SIZE - 1)) eqn:Hva; [by apply pair_eq in E as [<- <-]|].
  destruct (has pa (PAGE_SIZE - 1)) eqn:Hpal; [by apply pair_eq in E as [<- <-]|].
  destruct (Z.ltb_spec va (lower_bound s)) as [|Hlow]; [by apply pair_eq in E as [<- <-]|].
  destruct (has flags VM_PRESENT) eqn:Hpres; cbn [negb] in E; [|by apply pair_eq in E as [<- <-]].
  clear Same. pose proof (descend3_spec K G v s va (has flags VM_USER) I Hr) as D.
  destruct (descend_or_alloc (sp_pml4 s) (idx_pml4 va) (has flags VM_USER) v) as [pdpt v1].
  set (r2 := if pdpt =? 0 then (0, v1) else _) in D. destruct r2 as [pd v2] eqn:E2; unfold r2 in E2.
  set (r3 := if pd =? 0 then (0, v2) else _) in D. destruct r3 as [pt v3] eqn:E3; unfold r3 in E3.
  destruct D as (G3 & Hs & I3 & S3 & R3 & N3 & X3 & W3). clear r2 r3.
  assert (b = false -> v' = v3 -> exists G', G ⊆ G' /\ tree_inv K G' v' /\ (forall r, registered G' r -> registered G r) /\
    (forall r va', registered G r -> (b = true -> slot K r va' <> slot K (sp_pml4 s) va) ->
       translate v' r va' = translate v r va') /\
    (forall r j, registered G r -> idx_ok j -> j <> idx_pml4 va -> entry (vm_mem v') r j = entry (vm_mem v) r j) /\
    tables_fresh G v G' v' /\
    (b = true -> lower_bound s <= va /\ translate v (sp_pml4 s) va = None /\
       translate v' (sp_pml4 s) va = Some (pa, Z.land flags 15) /\ last (vm_flushed v') = Some va)) as Failed.
  { intros -> ->. exists G3. split; [done|]. split; [done|]. split; [intros r; apply R3|].
    split; [|split; [done|split; [done|done]]]. intros r va' Hrr _. by apply (translate_same G). }
  destruct (Z.eqb_spec pdpt 0) as [->|Hn1].
  { apply pair_eq in E2 as [<- <-]. apply pair_eq in E3 as [<- <-]. apply pair_eq in E as [<- <-]. by apply Failed. }
  rewrite E2 in E. destruct (Z.eqb_spec pd 0) as [->|Hn2].
  { apply pair_eq in E3 as [<- <-]. apply pair_eq in E as [<- <-]. by apply Failed. }
  rewrite E3 in E. destruct (Z.eqb_spec pt 0) as [->|Hn3]; [apply pair_eq in E as [<- <-]; by apply Failed|].
  cbv zeta in E. destruct (has (entry (vm_mem v3) pt (idx_pt va)) PTE_PRESENT) eqn:Hp;
    [apply pair_eq in E as [<- <-]; by apply Failed|]. clear Failed.
  apply has_page_aligned in Hpal. rewrite mask_aligned in E by (done || lia).
  set (e := Z.lor pa (flags_to_pte flags)) in *. apply pair_eq in E as [<- <-].
  assert (registered G3 (sp_pml4 s)) as Hr3 by (by eapply lookup_weaken).
  destruct (walk_leaf_tree K G3 v3 s va I3 Hr3) as [[W0 _]|(_ & (r & path & EP & Hl & Hsl) & Hset & Hold)];
    [rewrite W3 in W0; done|]. rewrite W3 in * by done.
  assert (has e PTE_PRESENT = true) as He by by apply has_pte_present.
  exists G3. split; [done|]. split; [eapply tree_inv_leaf; [done..|apply idx_range]|].
  split; [intros r0; apply R3|]. split; [|split; [|split; [done|intros _; split; [done|split; [|split]]]]].
  - intros r0 va' Hr0 Hd. specialize (Hd eq_refl). rewrite Hsl in Hd.
    rewrite <- (translate_same G v v3) by done. unfold translate. cbn [vm_mem vmm_flush with_mem].
    assert (registered G3 r0) as Hr03 by (by eapply lookup_weaken).
    by rewrite (leaf_set_other K G3 v3 pt r path _ _ r0 r0 [] (indices va')) by (done || apply idx_range || apply indices_ok).
  - intros r0 j Hr0 Hj Hne. rewrite <- N3 by done. cbn [vm_mem vmm_flush with_mem].
    assert (G3 !! r0 = Some (r0, [])) as Hr03 by (by eapply lookup_weaken).
    destruct (ti_page _ _ _ I3 _ _ Hr03) as (_ & Ha0 & _), (ti_page _ _ _ I3 _ _ EP) as (_ & HaP & _).
    rewrite entry_set by (done || apply idx_range). rewrite decide_False; [done|]. intros [-> _].
    rewrite Hr03 in EP. injection EP as _ <-. done.
  - rewrite <- (translate_same G v v3) by done. unfold translate. rewrite Hold. cbv zeta. by rewrite Hp.
  - unfold translate. cbn [vm_mem vmm_flush with_mem]. rewrite Hset, He. simpl. f_equal. f_equal.
    + apply mask_lor; [done|lia|apply flags_to_pte_range].
    + by apply pte_flags_roundtrip.
  - cbn [vm_flushed vmm_flush]. apply last_snoc.
Qed.

(** [vmm_unmap] succeeds exactly on an aligned page above the space's lower
    bound that is mapped; it then removes that translation, flushes the page
    and changes no other translation of any space; otherwise nothing changes. *)
Lemma vmm_unmap_spec (K : Z) (G : gmap Z (Z * list Z)) (v v' : vm) (s : vmm_space) (va : Z) (b : bool) :
  tree_inv K G v -> registered G (sp_pml4 s) -> vmm_unmap (Some s) va v = (b, v') ->
  (b = true <-> aligned va /\ lower_bound s <= va /\ translate v (sp_pml4 s) va <> None) /\
  tree_inv K G v' /\
  (b = false -> v' = v) /\
  (b = true -> translate v' (sp_pml4 s) va = None /\ last (vm_flushed v') = Some va /\ vm_pmm v' = vm_pmm v /\
     forall r va', registered G r -> slot K r va' <> slot K (sp_pml4 s) va -> translate v' r va' = translate v r va').
Proof.
  intros I Hr E. unfold vmm_unmap in E.
  destruct (has va (PAGE_SIZE - 1)) eqn:Hva.
  { apply pair_eq in E as [<- <-]. split; [|done]. rewrite <- has_page_aligned, Hva. naive_solver. }
  apply has_page_aligned in Hva.
  destruct (Z.ltb_spec va (lower_bound s)) as [|Hlow]; [apply pair_eq in E as [<- <-]; split; [naive_solver lia|done]|].
  cbv zeta in E.
  destruct (walk_leaf_tree K G v s va I Hr) as [[W0 Hnone]|(Hn & (r & path & EP & Hl & Hsl) & Hset & Hold)].
  { rewrite W0 in E. apply pair_eq in E as [<- <-]. split; [|done]. unfold translate. rewrite Hnone. naive_solver. }
  set (pt := walk_leaf (vm_mem v) (Some s) va) in *. rewrite (proj2 (Z.eqb_neq pt 0) Hn) in E.
  destruct (has (entry (vm_mem v) pt (idx_pt va)) PTE_PRESENT) eqn:Hp; cbn [negb] in E;
    apply pair_eq in E as [<- <-].
  - split; [|split; [eapply tree_inv_leaf; [done..|apply idx_range]|split; [done|intros _; split; [|split; [|split]]]]].
    + split; [intros _|done]. split; [done|]. split; [done|]. unfold translate. rewrite Hold. cbv zeta. by rewrite Hp.
    + unfold translate. cbn [vm_mem vmm_flush with_mem]. by rewrite Hset.
    + cbn [vm_flushed vmm_flush]. apply last_snoc.
    + done.
    + intros r0 va' Hr0 Hd. rewrite Hsl in Hd. unfold translate. cbn [vm_mem vmm_flush with_mem].
      by rewrite (leaf_set_other K G v pt r path _ _ r0 r0 [] (indices va')) by (done || apply idx_range || apply indices_ok).
  - split; [|done]. split; [done|]. intros (_ & _ & Hm). unfold translate in Hm. rewrite Hold in Hm. cbv zeta in Hm.
    by rewrite Hp in Hm.
Qed.

(** ** Which page a slot is *)

Lemma indices_inj va va' :
  aligned va -> aligned va' -> 0 <= va < 2 ^ 48 -> 0 <= va' < 2 ^ 48 -> indices va = indices va' -> va = va'.
Proof.
  unfold indices, idx_pml4, idx_pdpt, idx_pd, idx_pt, aligned. change 0x1FF with (2 ^ 9 - 1).
  rewrite !land_low, !Z.shiftr_div_pow2 by lia. intros Ha Ha' Hv Hv' [= E4 E3 E2 E1].
  assert (forall x, 0 <= x < 2 ^ 48 -> x mod 4096 = 0 ->
    x = ((x / 2 ^ 39) mod 2 ^ 9) * 2 ^ 39 + ((x / 2 ^ 30) mod 2 ^ 9) * 2 ^ 30 +
        ((x / 2 ^ 21) mod 2 ^ 9) * 2 ^ 21 + ((x / 2 ^ 12) mod 2 ^ 9) * 2 ^ 12) as D.
  { clear. intros x Hx Hm. Z.div_mod_to_equations. lia. }
  rewrite (D va), (D va') by done. by rewrite E4, E3, E2, E1.
Qed.

Lemma idx_pml4_user va : USER_VA_BASE <= va < 2 ^ 48 -> idx_pml4 va <> 0.
Proof.
  unfold idx_pml4, USER_VA_BASE. change 0x1FF with (2 ^ 9 - 1). rewrite land_low, Z.shiftr_div_pow2 by lia.
  intros H. Z.div_mod_to_equations. lia.
Qed.

Lemma slot_eq K r va : slot K r va =
  if decide (idx_pml4 va = 0) then (K, indices va) else (r, indices va).
Proof.
  unfold slot, indices. cbn [dest]. unfold child_role at 1. case_decide as H; case_decide as H'; [|naive_solver..|]; try rewrite H'; unfold child_role; simpl; done.
Qed.

(** A user page is a slot of its own space only. *)
Lemma slot_user K r r' va va' :
  USER_VA_BASE <= va < 2 ^ 48 -> slot K r' va' = slot K r va -> r' = r /\ indices va' = indices va.
Proof.
  intros Hva. rewrite !slot_eq. rewrite (decide_False (P := idx_pml4 va = 0)) by by apply idx_pml4_user.
  case_decide as H; intros [-> Ei]%pair_eq; [|done]. exfalso. apply (idx_pml4_user va Hva). injection Ei. congruence.
Qed.

(** The kernel half is one set of tables, seen from every space. *)
Lemma kernel_half_shared K G v r va :
  tree_inv K G v -> registered G r -> idx_pml4 va = 0 -> translate v r va = translate v K va.
Proof.
  intros I Hr H0. unfold translate, indices. rewrite !leaf_cons2. cbv zeta. rewrite H0.
  by rewrite (ti_k0 _ _ _ I _ _ Hr).
Qed.

(** ** Properties of map and unmap *)

Definition demo_K : Z := 0x7000000.
Definition demo_U : Z := 0x7002000.
Definition demo_vm : vm :=
  MkVm demo_pmm (<[demo_K := 0x7001003]> (<[demo_U := 0x7001003]> ∅)) demo_K [].
Definition demo_G : gmap Z (Z * list Z) :=
  <[demo_K := (demo_K, [])]> (<[demo_U := (demo_U, [])]> (<[0x7001000 := (demo_K, [0])]> ∅)).
Definition demo_user : vmm_space := MkSpace demo_U 1 0.

Lemma demo_entry p i : idx_ok i ->
  entry (vm_mem demo_vm) p i = if decide (p + 8 * i = demo_K \/ p + 8 * i = demo_U) then 0x7001003 else 0.
Proof.
  intros Hi. unfold entry, rd. cbn [vm_mem demo_vm]. rewrite !lookup_insert.
  repeat case_decide; simpl; rewrite ?lookup_empty; done || lia.
Qed.

Lemma demo_G_cases p ro : demo_G !! p = Some ro ->
  (p = demo_K /\ ro = (demo_K, [])) \/ (p = demo_U /\ ro = (demo_U, [])) \/ (p = 0x7001000 /\ ro = (demo_K, [0])).
Proof.
  unfold demo_G. rewrite !lookup_insert. repeat case_decide; subst; rewrite ?lookup_empty; naive_solver.
Qed.

Lemma demo_tree : tree_inv demo_K demo_G demo_vm.
Proof.
  split.
  - apply demo_pmm_inv.
  - intros p ro E. destruct (demo_G_cases p ro E) as [[-> _]|[[-> _]|[-> _]]];
      (split; [done|]; split; [done|]; right; done).
  - intros p r path i E Hl Hi Ht. rewrite demo_entry in Ht |- * by done.
    unfold demo_K, demo_U in *.
    destruct (demo_G_cases p _ E) as [[-> [= -> ->]]|[[-> [= -> ->]]|[-> [= -> ->]]]];
      unfold demo_K, demo_U in *; case_decide as Hd; try done; assert (i = 0) as -> by lia; done || lia.
  - intros p r E. destruct (demo_G_cases p _ E) as [[-> [= ->]]|[[-> [= ->]]|[-> [=]]]]; done.
  - intros p r E. destruct (demo_G_cases p _ E) as [[-> [= ->]]|[[-> [= ->]]|[-> [=]]]]; done.
  - done.
Qed.

(** After a successful [vmm_map], [vmm_query] returns the frame and flags
    that were given, where it returned nothing before; a failed [vmm_map] makes
    no difference to any query of any space; and in both cases queries of every
    other page of the space, and of every page of the other spaces that do not
    share the slot, are as before. *)
Theorem vmm_map_query (K : Z) (G : gmap Z (Z * list Z)) (v v' : vm) (s : vmm_space) (va pa flags : Z) (b : bool) :
  tree_inv K G v -> registered G (sp_pml4 s) -> 0 <= pa < 2 ^ 52 ->
  vmm_map (Some s) va pa flags v = (b, v') ->
  (b = true -> vmm_query (Some s) va v = None /\ vmm_query (Some s) va v' = Some (pa, Z.land flags 15)) /\
  (forall s' va', registered G (sp_pml4 s') ->
     (b = true -> slot K (sp_pml4 s') va' <> slot K (sp_pml4 s) va) ->
     vmm_query (Some s') va' v' = vmm_query (Some s') va' v).
Proof.
  intros I Hr Hpa E. destruct (vmm_map_spec K G v v' s va pa flags b I Hr Hpa E) as (G' & Hs & I' & _ & Hf & _ & _ & Ht).
  assert (forall s', registered G (sp_pml4 s') -> registered G' (sp_pml4 s')) as Hreg
    by (intros s' H; by eapply lookup_weaken).
  split.
  - intros ->. destruct (Ht eq_refl) as (_ & H1 & H2 & _).
    assert (has va (PAGE_SIZE - 1) = false) as Hva.
    { unfold vmm_map in E. by destruct (has va (PAGE_SIZE - 1)). }
    rewrite (query_translate K G v), (query_translate K G' v') by auto. done.
  - intros s' va' Hr' Hd. destruct (has va' (PAGE_SIZE - 1)) eqn:Hva'.
    + unfold vmm_query. by rewrite Hva'.
    + rewrite (query_translate K G v), (query_translate K G' v') by auto. by apply Hf.
Qed.

Lemma vmm_map_query_witness :
  vmm_query (Some demo_user) USER_VA_BASE (snd (vmm_map (Some demo_user) USER_VA_BASE 0x5000 7 demo_vm)) =
    Some (0x5000, 7).
Proof.
  destruct (vmm_map (Some demo_user) USER_VA_BASE 0x5000 7 demo_vm) as [b v'] eqn:E.
  assert (b = true) as -> by (change b with (fst (b, v')); rewrite <- E; vm_compute; reflexivity).
  exact (proj2 (proj1 (vmm_map_query demo_K demo_G demo_vm v' demo_user USER_VA_BASE 0x5000 7 true demo_tree eq_refl
    ltac:(lia) E) eq_refl)).
Defined.

(** Mapping a page and unmapping it again succeeds and gives back every
    translation of every space, each page flushed both times. *)
Theorem vmm_map_unmap_roundtrip (K : Z) (G : gmap Z (Z * list Z)) (v v1 : vm) (s : vmm_space) (va pa flags : Z) :
  tree_inv K G v -> registered G (sp_pml4 s) -> 0 <= pa < 2 ^ 52 ->
  vmm_map (Some s) va pa flags v = (true, v1) ->
  exists v2, vmm_unmap (Some s) va v1 = (true, v2) /\ last (vm_flushed v2) = Some va /\
    vm_pmm v2 = vm_pmm v1 /\
    forall r va', registered G r -> translate v2 r va' = translate v r va'.
Proof.
  intros I Hr Hpa E. destruct (vmm_map_spec K G v v1 s va pa flags true I Hr Hpa E) as (G' & Hs & I' & _ & Hf & _ & _ & Ht).
  destruct (Ht eq_refl) as (Hlow & H1 & H2 & _). clear Ht.
  assert (registered G' (sp_pml4 s)) as Hr' by (by eapply lookup_weaken).
  assert (aligned va) as Hva.
  { apply has_page_aligned. unfold vmm_map in E. by destruct (has va (PAGE_SIZE - 1)). }
  destruct (vmm_unmap (Some s) va v1) as [b v2] eqn:Eu.
  destruct (vmm_unmap_spec K G' v1 v2 s va b I' Hr' Eu) as (Hb & I2 & _ & Hd).
  assert (b = true) as -> by (apply Hb; by rewrite H2). destruct (Hd eq_refl) as (H3 & H4 & H5 & H6).
  exists v2. split; [done|]. split; [done|]. split; [done|]. intros r va' Hrr.
  assert (registered G' r) as Hrr' by (by eapply lookup_weaken).
  destruct (decide (slot K r va' = slot K (sp_pml4 s) va)) as [Es|Es].
  - rewrite !slot_eq in Es. assert (indices va' = indices va) as Ei by (repeat case_decide; congruence).
    assert (forall w, translate w r va' = translate w r va) as Eiv by (intros w; unfold translate; by rewrite Ei).
    rewrite !Eiv. case_decide as Hz; case_decide as Hz'; apply pair_eq in Es as [Es _].
    + by rewrite (kernel_half_shared K G' v2 r), (kernel_half_shared K G v r),
        <- (kernel_half_shared K G' v2 (sp_pml4 s)), <- (kernel_half_shared K G v (sp_pml4 s)), H3, H1
        by (done || congruence).
    + exfalso. apply Hz'. injection Ei. congruence.
    + exfalso. apply Hz. injection Ei. congruence.
    + congruence.
  - rewrite H6, Hf by done. done.
Qed.

Lemma vmm_map_unmap_roundtrip_witness :
  exists v1 v2, vmm_map (Some demo_user) USER_VA_BASE 0x5000 7 demo_vm = (true, v1) /\
    vmm_unmap (Some demo_user) USER_VA_BASE v1 = (true, v2) /\
    translate v2 demo_U USER_VA_BASE = translate demo_vm demo_U USER_VA_BASE.
Proof.
  destruct (vmm_map (Some demo_user) USER_VA_BASE 0x5000 7 demo_vm) as [b v1] eqn:E.
  assert (b = true) as -> by (change b with (fst (b, v1)); rewrite <- E; vm_compute; reflexivity).
  destruct (vmm_map_unmap_roundtrip demo_K demo_G demo_vm v1 demo_user USER_VA_BASE 0x5000 7 demo_tree eq_refl
    ltac:(lia) E) as (v2 & E2 & _ & _ & T).
  exists v1, v2. split; [done|]. split; [done|]. by apply T.
Defined.

(** A user space refuses every address below its half. *)
Lemma below_user_refused v v' s va pa flags b : sp_is_kernel s = 0 -> va < USER_VA_BASE ->
  vmm_map (Some s) va pa flags v = (b, v') \/ vmm_unmap (Some s) va v = (b, v') -> v' = v.
Proof.
  intros Hk Hva. unfold vmm_map, vmm_unmap, lower_bound. rewrite Hk. cbn [Z.eqb].
  rewrite (proj2 (Z.ltb_lt va USER_VA_BASE) Hva). repeat case_match; naive_solver.
Qed.

(** C3: address spaces are isolated: [vmm_map] and [vmm_unmap] on a user space,
    at any address below [2^48], change no translation of any other space and
    no translation of the kernel's half of any space. *)
Theorem vmm_isolation (K : Z) (G : gmap Z (Z * list Z)) (v v' : vm) (s : vmm_space) (va pa flags : Z) (b : bool) :
  tree_inv K G v -> registered G (sp_pml4 s) -> sp_is_kernel s = 0 -> 0 <= pa < 2 ^ 52 -> va < 2 ^ 48 ->
  vmm_map (Some s) va pa flags v = (b, v') \/ vmm_unmap (Some s) va v = (b, v') ->
  forall r va', registered G r -> r <> sp_pml4 s \/ idx_pml4 va' = 0 -> translate v' r va' = translate v r va'.
Proof.
  intros I Hr Hk Hpa Hva E r va' Hrr Hd.
  destruct (Z.lt_ge_cases va USER_VA_BASE) as [Hlow|Hlow]; [by rewrite (below_user_refused v v' s va pa flags b)|].
  assert (slot K r va' <> slot K (sp_pml4 s) va) as Hne.
  { intros Es. destruct (slot_user _ _ _ _ _ (conj Hlow Hva) Es) as [-> Ei]. destruct Hd as [?|H0]; [done|].
    apply (idx_pml4_user va (conj Hlow Hva)). injection Ei. congruence. }
  destruct E as [E|E].
  - destruct (vmm_map_spec K G v v' s va pa flags b I Hr Hpa E) as (G' & _ & _ & _ & Hf & _). by apply Hf.
  - destruct (vmm_unmap_spec K G v v' s va b I Hr E) as (_ & _ & Hf & Ht). destruct b; [|by rewrite Hf].
    by apply (Ht eq_refl).
Qed.

Lemma vmm_isolation_witness :
  translate (snd (vmm_map (Some demo_user) USER_VA_BASE 0x5000 7 demo_vm)) demo_K USER_VA_BASE =
  translate demo_vm demo_K USER_VA_BASE.
Proof.
  apply (vmm_isolation demo_K demo_G demo_vm _ demo_user USER_VA_BASE 0x5000 7
    (fst (vmm_map (Some demo_user) USER_VA_BASE 0x5000 7 demo_vm)) demo_tree eq_refl eq_refl); [lia|done| |done|by left].
  left. by destruct (vmm_map _ _ _ _ _).
Defined.

(** ** What the heap may do to the page tables

    The heap maps pages in the kernel's half; everything a space sees of its
    own user half, and the rest of the kernel's root table, stays. *)
Record vm_grows (K : Z) (G : gmap Z (Z * list Z)) (v : vm) (G' : gmap Z (Z * list Z)) (v' : vm) : Prop := {
  vg_sub : G ⊆ G';
  vg_tree : tree_inv K G' v';
  vg_roots r : registered G' r -> registered G r;
  vg_user r va : registered G r -> idx_pml4 va <> 0 -> translate v' r va = translate v r va;
  vg_kroot i : 1 <= i < 512 -> entry (vm_mem v') K i = entry (vm_mem v) K i }.

Lemma vm_grows_refl K G v : tree_inv K G v -> vm_grows K G v G v.
Proof. intros. by split. Qed.

Lemma vm_grows_trans K G1 v1 G2 v2 G3 v3 :
  vm_grows K G1 v1 G2 v2 -> vm_grows K G2 v2 G3 v3 -> vm_grows K G1 v1 G3 v3.
Proof.
  intros [A1 A2 A3 A4 A5] [B1 B2 B3 B4 B5]. split.
  - by transitivity G2.
  - done.
  - auto.
  - intros r va Hr H0. rewrite B4; [auto|by eapply lookup_weaken|done].
  - intros i Hi. rewrite B5, A5 by done. done.
Qed.

Class VmHeapLaws (H : Type) `{VmHeap H} (K : Z) := {
  vh_laws :: KHeapLaws H;
  vm_put h v : vm_of (put_vm v h) = v;
  put_live h v : live (put_vm v h) = live h;
  put_wf h v : heap_wf h ->
    (forall G, tree_inv K G (vm_of h) -> exists G', G ⊆ G' /\ tree_inv K G' v) ->
    (forall va, idx_pml4 va = 0 -> translate v K va = translate (vm_of h) K va) -> heap_wf (put_vm v h);
  zalloc_vm h size p h' G : heap_wf h -> 0 < size < 2 ^ 63 -> tree_inv K G (vm_of h) -> exy_zalloc size h = (p, h') ->
    exists G', vm_grows K G (vm_of h) G' (vm_of h');
  free_vm h p h' : exy_free p h = Some h' -> vm_of h' = vm_of h }.

(** Copying the kernel's root into a fresh page. *)
Lemma copy_root_entry K np m t j :
  aligned K -> aligned np -> aligned t -> K <> np -> idx_ok j ->
  entry (foldl (fun m i => set_entry m np i (entry m K i)) m (seqZ 0 512)) t j =
  if decide (t = np) then entry m K j else entry m t j.
Proof.
  intros HK Hnp Ht Hne Hj.
  assert (forall n, 0 <= n <= 512 ->
    foldl (fun m i => set_entry m np i (entry m K i)) m (seqZ 0 n) =
    foldl (fun m0 i => set_entry m0 np i (entry m K i)) m (seqZ 0 n)) as E.
  { intros n [H0 Hn]. revert Hn. pattern n. revert n H0. apply natlike_ind; [done|].
    intros n Hn IH Hle. replace (Z.succ n) with (n + 1) by lia. rewrite seqZ_snoc, !foldl_app by done. simpl.
    rewrite IH by lia. f_equal. rewrite entry_fill by (done || lia || red; lia). by rewrite decide_False by naive_solver. }
  rewrite E by lia. red in Hj. rewrite entry_fill by (done || lia).
  repeat case_decide; naive_solver lia.
Qed.

Section create.
Context {H : Type} (K : Z) `{VmHeapLaws H K}.

(** The page-table half of [vmm_create]: a fresh root with the kernel's entries. *)
Lemma new_root_spec G v np p :
  tree_inv K G v -> (forall i, 1 <= i < 512 -> has (entry (vm_mem v) K i) PTE_PRESENT = false) ->
  pmm_alloc_page (vm_pmm v) = (np, p) -> np <> 0 ->
  let m := foldl (fun m i => set_entry m np i (entry m K i)) (zero_page np (vm_mem v)) (seqZ 0 512) in
  let v' := with_mem (with_pmm v p) m in
  let G' := <[np := (np, [])]> G in
  G !! np = None /\ tree_inv K G' v' /\ same_leaves G (vm_mem v) m /\
  (forall va, translate v' np va = if idx_pml4 va =? 0 then translate v K va else None).
Proof.
  intros I Hlow Ea Hn. cbv zeta.
  destruct (alloc_page_spec _ _ _ (ti_pmm _ _ _ I) Ea) as (Ip & Etot & Hused & Hnp).
  destruct (Hnp Hn) as (Hal & Hrange & Htot & Hfree & Hus).
  pose proof (tree_inv_pmm K G v p I Ip Etot Hused) as Ivp.
  destruct (ti_kernel _ _ _ I) as [EK HK]. destruct (ti_page _ _ _ I _ _ EK) as (_ & HaK & _).
  assert (G !! np = None) as Hnew.
  { apply eq_None_not_Some. intros [ro Ero]. destruct (ti_page _ _ _ I _ _ Ero) as (_ & _ & [Hu|Hu]); [congruence|lia]. }
  assert (K <> np) as HKn by (intros ->; congruence).
  set (m := foldl _ _ _).
  assert (forall q j, aligned q -> idx_ok j -> entry m q j =
    if decide (q = np) then entry (vm_mem v) K j else entry (vm_mem v) q j) as He.
  { intros q j Hq Hj. unfold m. rewrite copy_root_entry, !entry_zero_page by done.
    rewrite (decide_False (P := K = np)) by done. by destruct (decide (q = np)). }
  clearbody m.
  assert (forall q ro j, G !! q = Some ro -> idx_ok j -> entry m q j = entry (vm_mem v) q j) as Hold.
  { intros q ro j Eq Hj. destruct (ti_page _ _ _ I _ _ Eq) as (_ & Hq & _). rewrite He by done.
    rewrite decide_False; [done|]. congruence. }
  assert (same_leaves G (vm_mem v) m) as Hsame.
  { intros t r path idxs. revert t r path. induction idxs as [|i idxs IH]; intros t r path Et Hl F; [done|].
    apply Forall_cons_1 in F as [Hi F]. destruct idxs as [|k idxs]; [simpl; by rewrite (Hold t _ i Et Hi)|].
    rewrite !leaf_cons2. cbv zeta. rewrite (Hold t _ i Et Hi).
    destruct (is_table (entry (vm_mem v) t i)) eqn:Etab; [|done]. simpl in Hl.
    pose proof (ti_child _ _ _ I _ _ _ _ Et ltac:(lia) Hi Etab) as Ec.
    destruct (child_role K r path i) as [r1 p1] eqn:Er. apply child_role_length in Er.
    eapply IH; [exact Ec|simpl in *; lia|done]. }
  assert (forall i, idx_ok i -> i <> 0 -> is_table (entry m np i) = false) as Hnone.
  { intros i Hi Hi0. rewrite He by done. rewrite decide_True by done. red in Hi. unfold is_table.
    rewrite Hlow by lia. done. }
  assert (entry m np 0 = entry (vm_mem v) K 0) as He0 by (rewrite He by (done || red; lia); by rewrite decide_True).
  split; [done|]. split; [|split; [done|]].
  - split; cbn [vm_pmm vm_mem with_mem with_pmm].
    + done.
    + intros q ro. rewrite lookup_insert. case_decide as Hq; [|apply (ti_page _ _ _ Ivp)].
      subst q. intros _. split; [lia|]. split; [done|]. by left.
    + intros q r path i. rewrite lookup_insert. case_decide as Hq.
      * subst q. intros [= <- <-] _ Hi Ht. destruct (decide (i = 0)) as [->|Hi0]; [|by rewrite Hnone in Ht].
        rewrite He0 in *. rewrite lookup_insert_ne.
        -- rewrite (ti_child _ _ _ I K K [] 0 EK ltac:(simpl; lia) ltac:(lia) Ht). unfold child_role. by rewrite !decide_True.
        -- pose proof (ti_child _ _ _ I K K [] 0 EK ltac:(simpl; lia) ltac:(lia) Ht) as Ec. congruence.
      * intros Eq Hl Hi. rewrite (Hold q _ i Eq Hi). intros Ht.
        pose proof (ti_child _ _ _ I _ _ _ _ Eq Hl Hi Ht) as Ec. rewrite lookup_insert_ne; [done|]. congruence.
    + intros q r. rewrite lookup_insert. case_decide as Hq; [by intros [= <-]; subst|apply (ti_root _ _ _ I)].
    + intros q r. rewrite (Hold K _ 0 EK) by (red; lia). rewrite lookup_insert. case_decide as Hq; [by subst q|].
      intros Eq. rewrite (Hold q _ 0 Eq) by (red; lia). by apply (ti_k0 _ _ _ I q r).
    + rewrite (Hold K _ 0 EK) by (red; lia). split; [|done]. rewrite lookup_insert_ne; [done|]. congruence.
  - intros va. unfold translate, indices. cbn [vm_mem with_mem]. rewrite !leaf_cons2. cbv zeta.
    destruct (Z.eqb_spec (idx_pml4 va) 0) as [->|Hz].
    + rewrite He0, HK. f_equal.
      pose proof (ti_child _ _ _ I K K [] 0 EK ltac:(simpl; lia) ltac:(lia) HK) as Ec.
      unfold child_role in Ec. rewrite decide_True in Ec by done.
      eapply Hsame; [exact Ec|done|]. repeat constructor; apply idx_range.
    + by rewrite Hnone by (done || apply idx_range).
Qed.

(** [vmm_create] fails without leaking a heap block, or returns a space with
    one reference whose root is a page that belonged to no table: its kernel
    half is the kernel's, nothing is mapped in its user half, and the user
    halves of the other spaces are as before. *)
Theorem vmm_create_correct (G : gmap Z (Z * list Z)) (h : H) :
  heap_wf h -> tree_inv K G (vm_of h) ->
  (forall i, 1 <= i < 512 -> has (entry (vm_mem (vm_of h)) K i) PTE_PRESENT = false) ->
  exists a s h' G', vmm_create K h = Some (a, s, h') /\ heap_wf h' /\ G ⊆ G' /\ tree_inv K G' (vm_of h') /\
    (forall r va, registered G r -> idx_pml4 va <> 0 -> translate (vm_of h') r va = translate (vm_of h) r va) /\
    if a =? 0 then live h' = live h
    else (exists sz, live h' = <[a := sz]> (live h)) /\ live h !! a = None /\
      sp_refcount s = 1 /\ sp_is_kernel s = 0 /\ registered G' (sp_pml4 s) /\ G !! sp_pml4 s = None /\
      forall va, translate (vm_of h') (sp_pml4 s) va =
        if idx_pml4 va =? 0 then translate (vm_of h') K va else None.
Proof.
  intros W I Hlow. unfold vmm_create. destruct (exy_zalloc sizeof_vmm_space h) as [a h1] eqn:E1.
  destruct (zalloc_law h sizeof_vmm_space a h1 W ltac:(unfold sizeof_vmm_space; lia) E1) as [W1 F1 O1].
  destruct (zalloc_vm h sizeof_vmm_space a h1 G W ltac:(unfold sizeof_vmm_space; lia) I E1) as (G1 & [S1 T1 R1 U1 K1]).
  destruct (Z.eqb_spec a 0) as [->|Ha].
  { eexists 0, _, h1, G1. split; [done|]. split; [done|]. split; [done|]. split; [done|]. split; [done|]. by apply F1. }
  destruct (O1 Ha) as (sz & _ & Na & La & _).
  destruct (pmm_alloc_page (vm_pmm (vm_of h1))) as [np p] eqn:Ea.
  destruct (alloc_page_spec _ _ _ (ti_pmm _ _ _ T1) Ea) as (Ip & Etot & Hused & _).
  destruct (Z.eqb_spec np 0) as [->|Hn].
  { assert (heap_wf (put_vm (with_pmm (vm_of h1) p) h1)) as W2.
    { apply put_wf; [done| |done]. intros G0 I0. exists G0. split; [done|]. by apply tree_inv_pmm. }
    destruct (free_law (put_vm (with_pmm (vm_of h1) p) h1) a sz W2) as (h3 & E3 & W3 & L3).
    { by rewrite put_live, La, lookup_insert_eq. }
    rewrite E3. eexists 0, _, h3, G1. split; [done|]. split; [done|]. split; [done|].
    rewrite (free_vm _ _ _ E3), vm_put. split; [by apply tree_inv_pmm|]. split; [done|]. simpl.
    by rewrite L3, put_live, La, delete_insert_id. }
  assert (forall i, 1 <= i < 512 -> has (entry (vm_mem (vm_of h1)) K i) PTE_PRESENT = false) as Hlow1
    by (intros i Hi; rewrite K1 by done; auto).
  pose proof (fun G0 I0 => new_root_spec G0 _ np p I0 Hlow1 Ea Hn) as NR. cbv zeta in NR.
  cbn [sp_pml4 kernel_space].
  set (m := foldl _ (zero_page np _) _) in *. clearbody m. destruct (NR G1 T1) as (Hnew & T2 & S2 & Tn). set (v2 := with_mem (with_pmm (vm_of h1) p) m) in *.
  destruct (ti_kernel _ _ _ T1) as [EK1 _].
  assert (forall r va, registered G1 r -> translate v2 r va = translate (vm_of h1) r va) as Hsame
    by (intros r va Hr; by apply (translate_same G1)).
  exists a, (MkSpace np 1 0), (put_vm v2 h1), (<[np := (np, [])]> G1).
  rewrite (proj2 (Z.eqb_neq a 0) Ha), vm_put, put_live. split; [done|]. split; [|split; [|split; [done|split]]].
  - apply put_wf; [done| |by intros; apply Hsame]. intros G0 I0.
    destruct (NR G0 I0) as (Hn0 & T0 & _). exists (<[np := (np, [])]> G0). split; [by apply insert_subseteq|done].
  - etransitivity; [exact S1|]. by apply insert_subseteq.
  - intros r va Hr Hz. rewrite Hsame by (by eapply lookup_weaken). by apply U1.
  - split; [by exists sz|]. split; [done|]. split; [done|]. split; [done|]. cbn [sp_pml4].
    split; [by apply lookup_insert_eq|]. split.
    + apply eq_None_not_Some. intros [ro Ero]. apply (lookup_weaken _ _ _ _ Ero) in S1. congruence.
    + intros va. rewrite Tn. by rewrite (Hsame K va EK1).
Qed.
End create.

(** A bump allocator beside the page tables: the smallest heap that meets the
    interface. *)
#[export] Instance bump_vm_heap : VmHeap (bump.bump * vm) := {
  vmh_heap := {|
    exy_malloc sz h := let '(p, b) := bump.bump_alloc sz (fst h) in (p, (b, snd h));
    exy_zalloc sz h := let '(p, b) := bump.bump_alloc sz (fst h) in (p, (b, snd h));
    exy_free p h := match exy_free p (fst h) with Some b => Some (b, snd h) | None => None end;
    live h := live (fst h); heap_lo := heap_lo; heap_hi := heap_hi; heap_wf h := heap_wf (fst h) |};
  vm_of h := snd h; put_vm v h := (fst h, v) }.

#[export] Instance bump_vm_laws K : VmHeapLaws (bump.bump * vm) K.
Proof.
  split; [split| | | | | ].
  - intros [b v] size p [b' v'] W Hs. simpl. destruct (bump.bump_alloc size b) as [q b2] eqn:E. intros [= <- <- <-].
    destruct (bump.bump_step b size q b2 W E) as [A1 A2 A3]. by split.
  - intros [b v] size p [b' v'] W Hs. simpl. destruct (bump.bump_alloc size b) as [q b2] eqn:E. intros [= <- <- <-].
    destruct (bump.bump_step b size q b2 W E) as [A1 A2 A3]. by split.
  - intros [b v] p sz W E. destruct (@free_law _ _ bump.bump_laws b p sz W E) as (b' & E' & W' & L').
    exists (b', v). cbn [exy_free vmh_heap bump_vm_heap fst snd]. by rewrite E'.
  - done.
  - intros [b v] p sz W E. by apply (@live_arena _ _ bump.bump_laws b p sz).
  - done.
  - done.
  - done.
  - intros [b v] size p [b' v'] G W _ I. simpl. destruct (bump.bump_alloc size b) as [q b2]. intros [= <- <- <-].
    exists G. by apply vm_grows_refl.
  - intros [b v] p h' E. simpl in E. by injection E as <-.
Qed.

Lemma vmm_create_correct_witness :
  exists a s h', vmm_create demo_K (bump.MkBump 4096 ∅, demo_vm) = Some (a, s, h') /\ a = 4096 /\
    sp_refcount s = 1 /\ translate (vm_of h') (sp_pml4 s) USER_VA_BASE = None.
Proof.
  destruct (vmm_create_correct demo_K demo_G (bump.MkBump 4096 ∅, demo_vm)) as (a & s & h' & G' & E & _ & _ & _ & _ & R).
  - by split.
  - apply demo_tree.
  - intros i Hi. cbn [vm_of snd bump_vm_heap]. rewrite demo_entry by (red; lia). rewrite decide_False; [done|].
    unfold demo_K, demo_U. lia.
  - assert (a = 4096) as ->.
    { assert (option_map (fun x => fst (fst x)) (vmm_create demo_K (bump.MkBump 4096 ∅, demo_vm)) = Some 4096) as Ha
        by (vm_compute; reflexivity). rewrite E in Ha. by injection Ha. }
    exists 4096, s, h'. split; [done|]. split; [done|]. destruct R as (_ & _ & R1 & _ & _ & _ & T).
    split; [done|]. rewrite T. vm_compute. reflexivity.
Defined.

(** ** Destruction *)

(** The pages [free_pt], [free_pd], [free_pdpt] and [destroy_space] give back,
    in the order they do. *)
Definition pages_pt (m : gmap Z Z) (pt : Z) : list Z :=
  concat ((fun i => let e := entry m pt i in
    if negb (has e PTE_PRESENT) then [] else if has e PTE_HUGE then [] else [Z.land e PTE_ADDR_MASK])
    <$> seqZ 0 512) ++ [pt].

Definition pages_level (child : gmap Z Z -> Z -> list Z) (m : gmap Z Z) (t first : Z) : list Z :=
  concat ((fun i => let e := entry m t i in
    if negb (has e PTE_PRESENT) then []
    else if has e PTE_HUGE then [Z.land e PTE_ADDR_MASK]
    else child m (Z.land e PTE_ADDR_MASK)) <$> seqZ first (512 - first)).

Definition pages_pd (m : gmap Z Z) (pd : Z) : list Z := pages_level pages_pt m pd 0 ++ [pd].
Definition pages_pdpt (m : gmap Z Z) (pdpt : Z) : list Z := pages_level pages_pd m pdpt 0 ++ [pdpt].
Definition space_pages (m : gmap Z Z) (r : Z) : list Z := pages_level pages_pdpt m r 1 ++ [r].

Lemma foldl_snoc {A B} (f : A -> B -> A) a l x : foldl f a (l ++ [x]) = f (foldl f a l) x.
Proof. by rewrite foldl_app. Qed.

Lemma foldl_concat {A} (f : pmm -> A -> pmm) (g : A -> list Z) l p :
  (forall p x, f p x = foldl free_pg p (g x)) -> foldl f p l = foldl free_pg p (concat (g <$> l)).
Proof.
  intros E. revert p. induction l as [|x l IH]; intros p; [done|]. simpl. by rewrite IH, E, foldl_app.
Qed.

Lemma free_pt_pages m pt p : free_pt m pt p = foldl free_pg p (pages_pt m pt).
Proof.
  unfold free_pt, pages_pt. rewrite foldl_snoc. f_equal. apply foldl_concat. intros q i. cbv zeta.
  by destruct (has _ PTE_PRESENT), (has _ PTE_HUGE).
Qed.

Lemma free_level_pages cf cp m t first p :
  (forall a p, cf m a p = foldl free_pg p (cp m a)) ->
  free_level cf m t first p = foldl free_pg p (pages_level cp m t first).
Proof.
  intros E. unfold free_level, pages_level. apply foldl_concat. intros q i. cbv zeta.
  destruct (has _ PTE_PRESENT); [|done]. simpl. destruct (has _ PTE_HUGE); [done|]. apply E.
Qed.

Lemma destroy_tables_pages s v :
  destroy_tables s v = with_pmm v (foldl free_pg (vm_pmm v) (space_pages (vm_mem v) (sp_pml4 s))).
Proof.
  unfold destroy_tables, space_pages. f_equal. rewrite foldl_snoc. f_equal.
  apply free_level_pages. intros a p. unfold free_pdpt, pages_pdpt. rewrite foldl_snoc. f_equal.
  apply free_level_pages. intros b q. unfold free_pd, pages_pd. rewrite foldl_snoc. f_equal.
  apply free_level_pages. intros c r. apply free_pt_pages.
Qed.

Lemma free_list_spec l p :
  pmm_inv p -> Forall (fun a => 0 <= a < 2 ^ 64) l ->
  pmm_inv (foldl free_pg p l) /\ total_pages (foldl free_pg p l) = total_pages p /\
  resv_bitmap (foldl free_pg p l) = resv_bitmap p /\
  forall q, 0 <= q -> used_get (foldl free_pg p l) q =
    used_get p q && negb (bool_decide (q * 4096 ∈ l) && (q <? total_pages p) && negb (resv_get p q)).
Proof.
  revert p. induction l as [|a l IH]; intros p I F.
  - split; [done|]. split; [done|]. split; [done|]. intros q _. rewrite bool_decide_eq_false_2 by apply not_elem_of_nil. by rewrite andb_true_r.
  - change (foldl free_pg p (a :: l)) with (foldl free_pg (free_pg p a) l).
    apply Forall_cons_1 in F as [Ha F]. destruct (free_pg_spec p a I Ha) as (I1 & T1 & R1 & U1).
    destruct (IH _ I1 F) as (I2 & T2 & R2 & U2). split; [done|]. split; [congruence|]. split; [congruence|].
    intros q Hq. rewrite U2, U1, T1 by done. unfold resv_get. rewrite R1. fold (resv_get p q).
    destruct (Z.eqb_spec a (q * 4096)) as [->|Hne].
    + rewrite (bool_decide_eq_true_2 (q * 4096 ∈ q * 4096 :: l)) by left.
      destruct (used_get p q), (q <? total_pages p), (resv_get p q), (bool_decide (q * 4096 ∈ l)); done.
    + assert (bool_decide (q * 4096 ∈ a :: l) = bool_decide (q * 4096 ∈ l)) as ->.
      { apply bool_decide_ext. rewrite elem_of_cons. naive_solver. }
      simpl. by rewrite andb_true_r.
Qed.

(** Frames a space maps are not page tables. *)
Definition frames_apart (G : gmap Z (Z * list Z)) (v : vm) (r : Z) : Prop :=
  forall p path i, G !! p = Some (r, path) -> idx_ok i ->
    let e := entry (vm_mem v) p i in
    has e PTE_PRESENT = true -> length path = 3%nat \/ has e PTE_HUGE = true ->
    G !! Z.land e PTE_ADDR_MASK = None.

(** Every page given back is a table of the space or a frame. *)
Definition owned (G : gmap Z (Z * list Z)) (r a : Z) : Prop :=
  0 <= a < 2 ^ 64 /\ (G !! a = None \/ exists path, G !! a = Some (r, path)).

Lemma mask_range e : 0 <= Z.land e PTE_ADDR_MASK < 2 ^ 64.
Proof. rewrite Z.land_comm. apply land_width; done. Qed.

Lemma pages_level_owned K G v r child path t first :
  tree_inv K G v -> r <> K -> frames_apart G v r -> G !! t = Some (r, path) -> (length path < 3)%nat ->
  0 <= first -> (path = [] -> 1 <= first) ->
  (forall a i, G !! a = Some (r, path ++ [i]) -> Forall (owned G r) (child (vm_mem v) a)) ->
  Forall (owned G r) (pages_level child (vm_mem v) t first).
Proof.
  intros I HrK FA Et Hl Hf Hf1 HC. apply Forall_concat, Forall_fmap, Forall_forall. intros i Hi%elem_of_seqZ.
  assert (idx_ok i) as Hok by (red; lia). unfold compose. cbv zeta beta.
  destruct (has (entry (vm_mem v) t i) PTE_PRESENT) eqn:Hp; simpl; [|constructor].
  destruct (has (entry (vm_mem v) t i) PTE_HUGE) eqn:Hh.
  - constructor; [|constructor]. split; [apply mask_range|]. left. apply (FA t path i); auto.
  - assert (is_table (entry (vm_mem v) t i) = true) as Htab by (unfold is_table; by rewrite Hp, Hh).
    apply (HC _ i). rewrite (ti_child _ _ _ I t r path i Et Hl Hok Htab). unfold child_role.
    rewrite decide_False; [done|]. intros [-> ->]. specialize (Hf1 eq_refl). lia.
Qed.

Lemma owned_table G v K r a path : tree_inv K G v -> G !! a = Some (r, path) -> owned G r a.
Proof. intros I E. destruct (ti_page _ _ _ I _ _ E) as (? & _). split; [lia|]. right. eauto. Qed.

Lemma space_pages_owned K G v r :
  tree_inv K G v -> r <> K -> frames_apart G v r -> registered G r ->
  Forall (owned G r) (space_pages (vm_mem v) r).
Proof.
  intros I HrK FA Hr. unfold space_pages. apply Forall_app_2; [|constructor; [by eapply owned_table|constructor]].
  apply (pages_level_owned K G v r pages_pdpt [] r 1); try done; [simpl; lia|]. intros a i Ea.
  unfold pages_pdpt. apply Forall_app_2; [|constructor; [by eapply owned_table|constructor]].
  apply (pages_level_owned K G v r pages_pd [i] a 0); try done; [simpl; lia|]. intros b j Eb.
  unfold pages_pd. apply Forall_app_2; [|constructor; [by eapply owned_table|constructor]].
  apply (pages_level_owned K G v r pages_pt ([i] ++ [j]) b 0); try done; [simpl; lia|]. intros c k Ec.
  unfold pages_pt. apply Forall_app_2; [|constructor; [by eapply owned_table|constructor]].
  apply Forall_concat, Forall_fmap, Forall_forall. intros n Hn%elem_of_seqZ. unfold compose. cbv zeta beta.
  destruct (has (entry (vm_mem v) c n) PTE_PRESENT) eqn:Hp; simpl; [|constructor].
  destruct (has (entry (vm_mem v) c n) PTE_HUGE) eqn:Hh; [constructor|]. constructor; [|constructor]. split; [apply mask_range|].
  left. eapply (FA c _ n Ec); [red; lia|done|]. by left.
Qed.

(** The frame of every user page is among the pages given back. *)
Lemma in_concat_fmap (f : Z -> list Z) l i a : i ∈ l -> a ∈ f i -> a ∈ concat (f <$> l).
Proof. intros Hi Ha. apply list_elem_of_In, in_concat. exists (f i). rewrite <- !list_elem_of_In. split; [|done]. by apply list_elem_of_fmap_2. Qed.

Lemma space_pages_frame m r va e :
  leaf m r (indices va) = Some e -> idx_pml4 va <> 0 -> has e PTE_HUGE = false ->
  Z.land e PTE_ADDR_MASK ∈ space_pages m r.
Proof.
  intros E H0 Hh. unfold indices in E.
  assert (forall i first, idx_ok i -> first <= i -> i ∈ seqZ first (512 - first)) as Hin
    by (intros i first Hi Hf; red in Hi; apply elem_of_seqZ; lia).
  assert (forall child t i first a, idx_ok i -> first <= i -> is_table (entry m t i) = true ->
    a ∈ child m (Z.land (entry m t i) PTE_ADDR_MASK) -> a ∈ pages_level child m t first) as Hlev.
  { intros child t i first a Hi Hf Ht Ha. unfold pages_level. apply (in_concat_fmap _ _ i); [by apply Hin|]. cbv zeta beta.
    unfold is_table in Ht. apply andb_prop in Ht as [-> ->%negb_true_iff]. done. }
  rewrite leaf_cons2 in E. cbv zeta in E. destruct (is_table (entry m r (idx_pml4 va))) eqn:E4; [|done].
  rewrite leaf_cons2 in E. cbv zeta in E. destruct (is_table (entry m _ (idx_pdpt va))) eqn:E3; [|done].
  rewrite leaf_cons2 in E. cbv zeta in E. destruct (is_table (entry m _ (idx_pd va))) eqn:E2; [|done].
  set (pt := Z.land (entry m _ (idx_pd va)) PTE_ADDR_MASK) in *.
  simpl in E. destruct (has (entry m pt (idx_pt va)) PTE_PRESENT) eqn:Hp; [|done]. injection E as <-.
  pose proof (idx4_ok va) as R4. red in R4.
  unfold space_pages. apply elem_of_app. left. apply (Hlev pages_pdpt r (idx_pml4 va) 1); [apply idx4_ok|lia|done|].
  unfold pages_pdpt. apply elem_of_app. left. apply (Hlev pages_pd _ (idx_pdpt va) 0); [apply idx3_ok|apply idx3_ok|done|].
  unfold pages_pd. apply elem_of_app. left. apply (Hlev pages_pt _ (idx_pd va) 0); [apply idx2_ok|apply idx2_ok|done|].
  unfold pages_pt. apply elem_of_app. left. fold pt.
  apply (in_concat_fmap _ _ (idx_pt va)); [apply (Hin _ 0); apply idx1_ok|].
  cbv zeta beta. rewrite Hp, Hh. left.
Qed.

(** Destroying a user space gives back its root and every frame its user
    half maps (of those the allocator tracks and has not reserved), and no page
    that holds a table of another space: the tree of the remaining spaces is
    still well formed and all their translations are as before. *)
Theorem destroy_space_correct (K : Z) (G : gmap Z (Z * list Z)) (v : vm) (s : vmm_space) :
  tree_inv K G v -> registered G (sp_pml4 s) -> sp_pml4 s <> K -> frames_apart G v (sp_pml4 s) ->
  let v' := destroy_tables s v in
  let freed a := used_get (vm_pmm v') (a / 4096) = false in
  let tracked a := a mod 4096 = 0 /\ a / 4096 < total_pages (vm_pmm v) /\ resv_get (vm_pmm v) (a / 4096) = false in
  tree_inv K (filter (fun x => fst (snd x) <> sp_pml4 s) G) v' /\
  (forall r va, translate v' r va = translate v r va) /\
  (tracked (sp_pml4 s) -> freed (sp_pml4 s)) /\
  (forall va e, leaf (vm_mem v) (sp_pml4 s) (indices va) = Some e -> idx_pml4 va <> 0 -> has e PTE_HUGE = false ->
     tracked (Z.land e PTE_ADDR_MASK) -> freed (Z.land e PTE_ADDR_MASK)).
Proof.
  intros I Hr HK FA. cbv zeta. set (r := sp_pml4 s) in *. rewrite destroy_tables_pages. fold r.
  pose proof (space_pages_owned K G v r I HK FA Hr) as Ow.
  destruct (free_list_spec (space_pages (vm_mem v) r) (vm_pmm v) (ti_pmm _ _ _ I)) as (I1 & T1 & R1 & U1).
  { eapply Forall_impl; [exact Ow|]. by intros a [? _]. }
  assert (forall a, a ∈ space_pages (vm_mem v) r -> 0 <= a -> a mod 4096 = 0 -> a / 4096 < total_pages (vm_pmm v) ->
    resv_get (vm_pmm v) (a / 4096) = false ->
    used_get (foldl free_pg (vm_pmm v) (space_pages (vm_mem v) r)) (a / 4096) = false) as Fr.
  { intros a Ha H0 Hm Ht Hv. rewrite U1 by (apply Z.div_pos; lia).
    rewrite bool_decide_eq_true_2 by (replace (a / 4096 * 4096) with a; [done|]; pose proof (Z.div_mod a 4096); lia).
    rewrite (proj2 (Z.ltb_lt _ _) Ht), Hv. by rewrite andb_false_r. }
  cbn [vm_pmm with_pmm]. split; [|split; [done|split]].
  - pose proof I as [_ J2 J3 J4 J5 [J6 J7]].
    assert (forall p ro, filter (fun x : Z * (Z * list Z) => fst (snd x) <> r) G !! p = Some ro <->
      G !! p = Some ro /\ fst ro <> r) as Ff by (intros p ro; apply map_lookup_filter_Some).
    split; cbn [vm_pmm vm_mem with_pmm].
    + done.
    + intros p ro [E Hne]%Ff. destruct (J2 p ro E) as (Hp1 & Hp2 & Hp3). split; [done|]. split; [done|]. rewrite T1.
      destruct Hp3 as [Hu|]; [left|by right]. rewrite U1 by (apply Z.div_pos; lia). rewrite Hu. simpl.
      rewrite bool_decide_eq_false_2; [done|]. intros Hin.
      replace (p / 4096 * 4096) with p in Hin by (pose proof (Z.div_mod p 4096); lia).
      rewrite Forall_forall in Ow. destruct (Ow p Hin) as [_ [Hn|[path Hn]]]; [congruence|].
      rewrite E in Hn. injection Hn as ->. done.
    + intros p r0 path i [E Hne]%Ff Hl Hi Ht. apply Ff. split; [by apply J3|].
      unfold child_role. case_decide; [done|done].
    + intros p r0 [E _]%Ff. by apply J4.
    + intros p r0 [E _]%Ff. by apply (J5 p r0).
    + split; [apply Ff; split; [done|]; done|done].
  - intros (Hm & Ht & Hv). destruct (ti_page _ _ _ I _ _ Hr) as (Hp & _). apply Fr; try done; [|lia].
    unfold space_pages. apply elem_of_app. right. left.
  - intros va e El H0 Hh (Hm & Ht & Hv). apply Fr; try done; [by eapply space_pages_frame|apply mask_range].
Qed.

Lemma destroy_space_correct_witness :
  tree_inv demo_K (filter (fun x => fst (snd x) <> demo_U) demo_G) (destroy_tables demo_user demo_vm) /\
  frames_apart demo_G demo_vm demo_U.
Proof.
  assert (frames_apart demo_G demo_vm demo_U) as FA.
  { intros p path i E Hi. cbv zeta. rewrite demo_entry by done. red in Hi.
    destruct (demo_G_cases p _ E) as [[-> [= ->]]|[[-> [= ->]]|[-> [=]]]]; try done.
    case_decide; [|done]. intros _ [?|Hh]; [done|]. by vm_compute in Hh. }
  split; [|exact FA].
  exact (proj1 (destroy_space_correct demo_K demo_G demo_vm demo_user demo_tree eq_refl ltac:(done) FA)).
Defined.

(** The lower bound is the only range check of [vmm_map]: an address at or
    above [2^48] passes it for a user space and wraps to a small root index, so
    [vmm_map] on its own lets a user space edit the kernel's half, which the
    comment on [USER_VA_BASE] rules out; every caller has to check
    [USER_VA_TOP] itself. *)
Theorem vmm_map_noncanonical :
  let va := 2 ^ 48 + KERNEL_VA_BASE in
  USER_VA_BASE <= va /\ sp_is_kernel demo_user = 0 /\
  fst (vmm_map (Some demo_user) va 0x5000 7 demo_vm) = true /\
  translate demo_vm demo_K KERNEL_VA_BASE = None /\
  translate (snd (vmm_map (Some demo_user) va 0x5000 7 demo_vm)) demo_K KERNEL_VA_BASE = Some (0x5000, 7).
Proof. vm_compute. split_and!; done. Qed.
