(* ===== verification/Heap.v ===== *)
(** * The kernel heap

    [heap.c]: first-fit allocation from an address-ordered free list with
    splitting and coalescing, growing by mapping pages at its end.  Memory is a
    store of 64-bit cells; a block header at [b] is the cells [b] (size),
    [b + 8] (next_free) and [b + 16] (flags).  The state carries the page tables
    the heap maps its own pages in. *)
From S2P Require Import Prelude Bytes Iface Pmm Vmm.

Definition HEAP_ALIGN : Z := 16.
Definition HEAP_MIN_PAYLOAD : Z := 16.
Definition HEAP_HEADER : Z := 32.
Definition BLK_FREE : Z := 1.
Definition KERNEL_HEAP_BASE : Z := KERNEL_VA_BASE + 0x00100000.
Definition KERNEL_HEAP_MAX : Z := KERNEL_VA_BASE + 0x10000000.

Record heap := MkHeap {
  heap_start : Z;
  heap_end : Z;
  heap_free_head : Z;
  heap_live_payload : Z;
  hmem : gmap Z Z;
  hvm : vm }.

Definition set_hmem (h : heap) (m : gmap Z Z) : heap :=
  MkHeap (heap_start h) (heap_end h) (heap_free_head h) (heap_live_payload h) m (hvm h).
Definition set_head (h : heap) (a : Z) : heap :=
  MkHeap (heap_start h) (heap_end h) a (heap_live_payload h) (hmem h) (hvm h).
Definition set_live (h : heap) (n : Z) : heap :=
  MkHeap (heap_start h) (heap_end h) (heap_free_head h) n (hmem h) (hvm h).
Definition set_hvm (h : heap) (v : vm) : heap :=
  MkHeap (heap_start h) (heap_end h) (heap_free_head h) (heap_live_payload h) (hmem h) v.

(** ** Header fields *)

Definition b_size (m : gmap Z Z) (b : Z) : Z := rd m b.
Definition b_next (m : gmap Z Z) (b : Z) : Z := rd m (b + 8).
Definition b_flags (m : gmap Z Z) (b : Z) : Z := rd m (b + 16).
Definition put_size (b v : Z) (m : gmap Z Z) : gmap Z Z := <[b := v]> m.
Definition put_next (b v : Z) (m : gmap Z Z) : gmap Z Z := <[b + 8 := v]> m.
Definition put_flags (b v : Z) (m : gmap Z Z) : gmap Z Z := <[b + 16 := v]> m.

Definition block_is_free (m : gmap Z Z) (b : Z) : bool := has (b_flags m b) BLK_FREE.
Definition block_end (m : gmap Z Z) (b : Z) : Z := u64 (u64 (b + HEAP_HEADER) + b_size m b).

(** [if (prev) prev->next_free = x; else heap_free_head = x;] *)
Definition set_link (prev x : Z) (h : heap) : heap :=
  if prev =? 0 then set_head h x else set_hmem h (put_next prev x (hmem h)).

(** A list walk visits each block at most once; there are at most
    [(heap_end - heap_start) / 48] of them. *)
Definition list_fuel (h : heap) : nat := S (Z.to_nat ((heap_end h - heap_start h) / 48)).

(** [while (cur && cur < blk) { prev = cur; cur = cur->next_free; }] *)
Fixpoint find_place (fuel : nat) (m : gmap Z Z) (blk prev cur : Z) : Z * Z :=
  match fuel with
  | O => (prev, cur)
  | S fuel =>
    if negb (cur =? 0) && (cur <? blk) then find_place fuel m blk cur (b_next m cur) else (prev, cur)
  end.

Definition free_list_insert (blk : Z) (h : heap) : heap :=
  let h := set_hmem h (put_next blk 0 (put_flags blk (Z.lor (b_flags (hmem h) blk) BLK_FREE) (hmem h))) in
  let '(prev, cur) := find_place (list_fuel h) (hmem h) blk 0 (heap_free_head h) in
  let h := set_hmem h (put_next blk cur (hmem h)) in
  let h := set_link prev blk h in
  let h :=
    if negb (cur =? 0) && (block_end (hmem h) blk =? cur) then
      let m := hmem h in
      let m := put_size blk (u64 (b_size m blk + u64 (HEAP_HEADER + b_size m cur))) m in
      set_hmem h (put_next blk (b_next m cur) m)
    else h in
  if negb (prev =? 0) && (block_end (hmem h) prev =? blk) then
    let m := hmem h in
    let m := put_size prev (u64 (b_size m prev + u64 (HEAP_HEADER + b_size m blk))) m in
    set_hmem h (put_next prev (b_next m blk) m)
  else h.

(** The body of [alloc_from_list] once [cur] fits. *)
Definition take_block (need prev cur : Z) (h : heap) : Z * heap :=
  let m := hmem h in
  let remain := b_size m cur - need in
  let h :=
    if HEAP_HEADER + HEAP_MIN_PAYLOAD <=? remain then
      let rem := u64 (cur + HEAP_HEADER + need) in
      let m := put_size rem (remain - HEAP_HEADER) m in
      let m := put_flags rem BLK_FREE m in
      let m := put_next rem (b_next m cur) m in
      let m := put_size cur need m in
      set_link prev rem (set_hmem h m)
    else set_link prev (b_next m cur) h in
  let m := put_flags cur (Z.land (b_flags (hmem h) cur) (Z.lnot BLK_FREE)) (hmem h) in
  let m := put_next cur 0 m in
  let h := set_hmem h m in
  (u64 (cur + HEAP_HEADER), set_live h (u64 (heap_live_payload h + b_size m cur))).

Fixpoint alloc_loop (fuel : nat) (need prev cur : Z) (h : heap) : Z * heap :=
  match fuel with
  | O => (0, h)
  | S fuel =>
    if cur =? 0 then (0, h)
    else if need <=? b_size (hmem h) cur then take_block need prev cur h
    else alloc_loop fuel need cur (b_next (hmem h) cur) h
  end.

Definition alloc_from_list (need : Z) (h : heap) : Z * heap :=
  alloc_loop (list_fuel h) need 0 (heap_free_head h) h.

Definition round_up (n : Z) : Z := Z.land (u64 (n + HEAP_ALIGN - 1)) (align_mask 4).

Section heap.
Context (K : Z).

(** The mapping loop of [heap_grow]: [mapped] pages so far.  The range check
    ends it within [KERNEL_HEAP_MAX - KERNEL_HEAP_BASE] bytes, whatever
    [pages] is. *)
Fixpoint grow_loop (fuel : nat) (base pages i mapped : Z) (v : vm) : Z * vm :=
  match fuel with
  | O => (mapped, v)
  | S fuel =>
    if i <? pages then
      let va := u64 (base + u64 (i * PAGE_SIZE)) in
      if KERNEL_HEAP_MAX <? u64 (va + PAGE_SIZE) then (mapped, v)
      else
        let '(pa, p) := pmm_alloc_page (vm_pmm v) in
        let v := with_pmm v p in
        if pa =? 0 then (mapped, v)
        else
          let '(ok, v) := vmm_map (Some (kernel_space K)) va pa (Z.lor VM_PRESENT VM_WRITE) v in
          if negb ok then (mapped, with_pmm v (snd (pmm_free_page pa (vm_pmm v))))
          else grow_loop fuel base pages (i + 1) (mapped + 1) v
    else (mapped, v)
  end.

Definition heap_grow (need_payload : Z) (h : heap) : bool * heap :=
  let need_bytes := u64 (need_payload + HEAP_HEADER) in
  let pages := u64 (need_bytes + PAGE_SIZE - 1) / PAGE_SIZE in
  let pages := if pages =? 0 then 1 else pages in
  let base := heap_end h in
  let '(mapped, v) := grow_loop (Z.to_nat (Z.min pages 65537)) base pages 0 0 (hvm h) in
  let h := set_hvm h v in
  if mapped =? 0 then (false, h)
  else
    let new_bytes := u64 (mapped * PAGE_SIZE) in
    let m := put_size base (new_bytes - HEAP_HEADER) (hmem h) in
    let m := put_flags base 0 m in
    let m := put_next base 0 m in
    let h := MkHeap (heap_start h) (u64 (base + new_bytes)) (heap_free_head h) (heap_live_payload h) m (hvm h) in
    (true, free_list_insert base h).

Definition heap_init (m : gmap Z Z) (v : vm) : heap := MkHeap KERNEL_HEAP_BASE KERNEL_HEAP_BASE 0 0 m v.

Definition exy_malloc (size : Z) (h : heap) : Z * heap :=
  if size =? 0 then (0, h)
  else
    let need := round_up size in
    let need := if need <? HEAP_MIN_PAYLOAD then HEAP_MIN_PAYLOAD else need in
    let '(p, h1) := alloc_from_list need h in
    if negb (p =? 0) then (p, h1)
    else
      let '(ok, h2) := heap_grow need h1 in
      if negb ok then (0, h2) else alloc_from_list need h2.

Definition exy_zalloc (size : Z) (h : heap) : Z * heap :=
  let '(p, h1) := exy_malloc size h in
  if p =? 0 then (0, h1)
  else (p, set_hmem h1 (foldl (fun m i => store_byte (p + i) 0 m) (hmem h1) (seqZ 0 size))).

(** [None]: a panic. *)
Definition exy_free (ptr : Z) (h : heap) : option heap :=
  if ptr =? 0 then Some h
  else if (ptr <? heap_start h) || (heap_end h <=? ptr) then None
  else
    let blk := u64 (ptr - HEAP_HEADER) in
    if block_is_free (hmem h) blk then None
    else
      let h := set_live h (u64 (heap_live_payload h - b_size (hmem h) blk)) in
      Some (free_list_insert blk h).

Definition exy_realloc (ptr new_size : Z) (h : heap) : option (Z * heap) :=
  if ptr =? 0 then Some (exy_malloc new_size h)
  else if new_size =? 0 then
    match exy_free ptr h with Some h' => Some (0, h') | None => None end
  else if (ptr <? heap_start h) || (heap_end h <=? ptr) then None
  else
    let blk := u64 (ptr - HEAP_HEADER) in
    if block_is_free (hmem h) blk then None
    else
      let old_size := b_size (hmem h) blk in
      let need := round_up new_size in
      let need := if need <? HEAP_MIN_PAYLOAD then HEAP_MIN_PAYLOAD else need in
      if need <=? old_size then Some (ptr, h)
      else
        let '(np, h1) := exy_malloc new_size h in
        if np =? 0 then Some (0, h1)
        else
          let m := foldl (fun m i => store_byte (np + i) (load_byte m (ptr + i)) m) (hmem h1) (seqZ 0 old_size) in
          match exy_free ptr (set_hmem h1 m) with Some h2 => Some (np, h2) | None => None end.

Fixpoint sum_free (fuel : nat) (m : gmap Z Z) (b sum : Z) : Z :=
  match fuel with
  | O => sum
  | S fuel => if b =? 0 then sum else sum_free fuel m (b_next m b) (u64 (sum + b_size m b))
  end.

Definition heap_free_bytes (h : heap) : Z := sum_free (list_fuel h) (hmem h) (heap_free_head h) 0.
Definition heap_used_bytes (h : heap) : Z := heap_live_payload h.
Definition heap_total_bytes (h : heap) : Z := u64 (heap_end h - heap_start h).

Definition heap_reserve (bytes : Z) (h : heap) : bool * heap :=
  if bytes =? 0 then (true, h)
  else
    let have := heap_free_bytes h in
    if bytes <=? have then (true, h) else heap_grow (bytes - have) h.
End heap.

(** ** The blocks of the heap

    A block is an address, a payload size and whether it is free; the blocks
    tile the heap from [heap_start] to [heap_end]. *)

Abbreviation block := (Z * Z * bool)%type.
Definition ba (b : block) : Z := fst (fst b).
Definition bs (b : block) : Z := snd (fst b).
Definition bf (b : block) : bool := snd b.
Arguments ba !_ /.
Arguments bs !_ /.
Arguments bf !_ /.

Fixpoint tiles (a : Z) (bl : list block) (e : Z) : Prop :=
  match bl with
  | [] => a = e
  | b :: bl => ba b = a /\ 16 <= bs b /\ bs b mod 16 = 0 /\ tiles (a + 32 + bs b) bl e
  end.

Definition frees (bl : list block) : list Z := ba <$> filter (fun b => bf b = true) bl.

(** The free list from [h] to [x] goes through [l]. *)
Fixpoint seg (m : gmap Z Z) (h : Z) (l : list Z) (x : Z) : Prop :=
  match l with
  | [] => h = x
  | y :: l => h = y /\ seg m (b_next m y) l x
  end.

Fixpoint coalesced (bl : list block) : Prop :=
  match bl with
  | b :: (c :: _) as r => ~ (bf b = true /\ bf c = true) /\ coalesced r
  | _ => True
  end.

Definition used_sum (bl : list block) : Z := foldr (fun b s => if bf b then s else bs b + s) 0 bl.

Definition hdr_ok (m : gmap Z Z) (b : block) : Prop :=
  b_size m (ba b) = bs b /\ block_is_free m (ba b) = bf b.

(** The list [bl] is laid out in [m] with free list [head]. *)
Record laid (m : gmap Z Z) (start e head : Z) (bl : list block) : Prop := {
  ld_tiles : tiles start bl e;
  ld_hdr : Forall (hdr_ok m) bl;
  ld_seg : seg m head (frees bl) 0 }.

(** ** Cells *)

Ltac cells := unfold b_size, b_next, b_flags, put_size, put_next, put_flags in *; rewrite ?rd_insert.

Lemma tiles_app a l1 l2 e : tiles a (l1 ++ l2) e <-> exists x, tiles a l1 x /\ tiles x l2 e.
Proof.
  revert a. induction l1 as [|b l1 IH]; intros a; simpl.
  - split; [eauto|]. by intros (x & -> & ?).
  - setoid_rewrite IH. split.
    + intros (H1 & H2 & H3 & x & H4 & H5). exists x. auto.
    + intros (x & (H1 & H2 & H3 & H4) & H5). eauto 10.
Qed.

Lemma tiles_le a bl e : tiles a bl e -> a <= e.
Proof.
  revert a. induction bl as [|b bl IH]; intros a H; simpl in *; [lia|].
  destruct H as (_ & H1 & _ & H2%IH). lia.
Qed.

Lemma tiles_in a bl e b : tiles a bl e -> b ∈ bl -> a <= ba b /\ ba b + 32 + bs b <= e /\ 16 <= bs b /\ bs b mod 16 = 0.
Proof.
  revert a. induction bl as [|c bl IH]; intros a H Hin; [by apply not_elem_of_nil in Hin|].
  simpl in H. destruct H as (Ha & H1 & H2 & H3). apply elem_of_cons in Hin as [->|Hin].
  - apply tiles_le in H3. lia.
  - destruct (IH _ H3 Hin) as (? & ? & ? & ?). lia.
Qed.

Lemma tiles_aligned a bl e b : tiles a bl e -> a mod 16 = 0 -> b ∈ bl -> ba b mod 16 = 0.
Proof.
  revert a. induction bl as [|c bl IH]; intros a H Ha Hin; [by apply not_elem_of_nil in Hin|].
  simpl in H. destruct H as (Hc & H1 & H2 & H3). apply elem_of_cons in Hin as [->|Hin]; [by rewrite Hc|].
  eapply IH; [exact H3| |done]. Z.div_mod_to_equations. lia.
Qed.

(** Where the blocks around one block lie. *)
Lemma tiles_split a pre b post e :
  tiles a (pre ++ b :: post) e -> a mod 16 = 0 ->
  tiles a pre (ba b) /\ tiles (ba b + 32 + bs b) post e /\ 16 <= bs b /\ bs b mod 16 = 0 /\
  a <= ba b /\ ba b + 32 + bs b <= e /\ ba b mod 16 = 0 /\
  (forall c, c ∈ pre -> a <= ba c /\ ba c + 32 + bs c <= ba b /\ 16 <= bs c /\ ba c mod 16 = 0) /\
  (forall c, c ∈ post -> ba b + 32 + bs b <= ba c /\ ba c + 32 + bs c <= e /\ 16 <= bs c /\ ba c mod 16 = 0).
Proof.
  intros H Ha. pose proof H as (x & H1 & H2)%tiles_app. simpl in H2. destruct H2 as (Hx & H3 & H4 & H5). subst x.
  pose proof (tiles_le _ _ _ H1). pose proof (tiles_le _ _ _ H5).
  assert (forall c, c ∈ pre ++ b :: post -> ba c mod 16 = 0) as Hal by (intros c; by eapply tiles_aligned).
  split; [done|]. split; [done|]. split; [done|]. split; [done|]. split; [done|]. split; [done|].
  split; [apply Hal; set_solver|]. split; intros c Hc.
  - destruct (tiles_in _ _ _ _ H1 Hc) as (? & ? & ? & ?). pose proof (Hal c ltac:(set_solver)). lia.
  - destruct (tiles_in _ _ _ _ H5 Hc) as (? & ? & ? & ?). pose proof (Hal c ltac:(set_solver)). lia.
Qed.

Lemma tiles_disjoint a bl e c d :
  tiles a bl e -> c ∈ bl -> d ∈ bl ->
  ba c = ba d \/ ba c + 32 + bs c <= ba d \/ ba d + 32 + bs d <= ba c.
Proof.
  revert a. induction bl as [|b bl IH]; intros a H Hc Hd; [by apply not_elem_of_nil in Hc|].
  simpl in H. destruct H as (Ha & _ & _ & H3).
  apply elem_of_cons in Hc as [->|Hc], Hd as [->|Hd]; [by left| | |by eapply IH].
  - destruct (tiles_in _ _ _ _ H3 Hd). lia.
  - destruct (tiles_in _ _ _ _ H3 Hc). lia.
Qed.

Lemma frees_app l1 l2 : frees (l1 ++ l2) = frees l1 ++ frees l2.
Proof. unfold frees. by rewrite filter_app, fmap_app. Qed.

Lemma frees_cons_t b l : bf b = true -> frees (b :: l) = ba b :: frees l.
Proof. intros H. unfold frees. by rewrite filter_cons_True. Qed.

Lemma frees_cons_f b l : bf b = false -> frees (b :: l) = frees l.
Proof. intros H. unfold frees. rewrite filter_cons_False; [done|]. by rewrite H. Qed.

Lemma elem_of_frees a bl : a ∈ frees bl <-> exists b, b ∈ bl /\ bf b = true /\ ba b = a.
Proof.
  unfold frees. rewrite list_elem_of_fmap. split.
  - intros (b & -> & Hb). apply list_elem_of_filter in Hb as [? ?]. eauto.
  - intros (b & Hb & Hf & <-). exists b. split; [done|]. by apply list_elem_of_filter.
Qed.

(** ** Segments of the free list *)

Lemma seg_app m h l1 l2 x : seg m h (l1 ++ l2) x <-> exists y, seg m h l1 y /\ seg m y l2 x.
Proof.
  revert h. induction l1 as [|z l1 IH]; intros h; simpl.
  - split; [eauto|]. by intros (y & -> & ?).
  - setoid_rewrite IH. split; [intros (-> & y & ? & ?)|intros (y & (-> & ?) & ?)]; eauto.
Qed.

Lemma seg_ext m m' h l x :
  (forall y, y ∈ l -> rd m' (y + 8) = rd m (y + 8)) -> seg m h l x -> seg m' h l x.
Proof.
  revert h. induction l as [|y l IH]; intros h E; simpl; [done|]. intros [-> H]. split; [done|].
  unfold b_next. rewrite E by left. apply IH; [|done]. intros z Hz. apply E. by right.
Qed.

(** Redirecting the last link (or the head) of a segment. *)
Lemma set_link_seg h l x y :
  seg (hmem h) (heap_free_head h) l x -> NoDup l -> 0 ∉ l ->
  let prev := default 0 (last l) in
  let h' := set_link prev y h in
  seg (hmem h') (heap_free_head h') l y /\
  h' = MkHeap (heap_start h) (heap_end h) (heap_free_head h') (heap_live_payload h) (hmem h') (hvm h) /\
  (forall a, l = [] \/ a <> prev + 8 -> rd (hmem h') a = rd (hmem h) a).
Proof.
  intros S D H0. cbv zeta. destruct (last l) as [p|] eqn:El; simpl.
  - apply last_Some in El as [l' ->]. assert (p <> 0) as Hp by (intros ->; apply H0; set_solver).
    unfold set_link. rewrite (proj2 (Z.eqb_neq p 0) Hp). cbn [hmem heap_free_head set_hmem].
    apply NoDup_app in D as (D1 & D2 & _). split; [|split; [done|]].
    + apply seg_app in S as (z & S1 & S2). apply seg_app. exists z. split.
      * eapply seg_ext; [|done]. intros w Hw. cells. zif; [|done].
        exfalso. apply (D2 w Hw). apply list_elem_of_singleton. lia.
      * simpl in *. destruct S2 as [-> _]. split; [done|]. cells. by rewrite Z.eqb_refl.
    + intros a [Ha|Ha]; [by destruct l'|]. cells. zif; [lia|done].
  - apply last_None in El as ->. unfold set_link. simpl in *. by split.
Qed.

Lemma frees_nodup a bl e : tiles a bl e -> NoDup (frees bl).
Proof.
  revert a. induction bl as [|b bl IH]; intros a H; [constructor|]. simpl in H. destruct H as (<- & H1 & H2 & H3).
  destruct (bf b) eqn:Hf; [|rewrite frees_cons_f by done; by eapply IH].
  rewrite frees_cons_t by done. constructor; [|by eapply IH]. intros (c & Hc & _ & E)%elem_of_frees.
  destruct (tiles_in _ _ _ _ H3 Hc) as (? & _). lia.
Qed.

Lemma frees_nonzero a bl e : tiles a bl e -> 0 < a -> 0 ∉ frees bl.
Proof. intros H Ha (c & Hc & _ & E)%elem_of_frees. destruct (tiles_in _ _ _ _ H Hc) as (? & _). lia. Qed.

(** ** Replacing a run of blocks *)
Lemma laid_replace m m' s e hd hd' pre mid mid' post :
  laid m s e hd (pre ++ mid ++ post) ->
  (forall a x, tiles a mid x -> tiles a mid' x) ->
  Forall (hdr_ok m') mid' ->
  (forall c, c ∈ pre ++ post -> rd m' (ba c) = rd m (ba c) /\ rd m' (ba c + 16) = rd m (ba c + 16)) ->
  seg m' hd' (frees pre ++ frees mid' ++ frees post) 0 ->
  laid m' s e hd' (pre ++ mid' ++ post).
Proof.
  intros [T Hh S] HT HH HF HS. split.
  - apply tiles_app in T as (x & T1 & T2). apply tiles_app. exists x. split; [done|].
    apply tiles_app in T2 as (y & T2 & T3). apply tiles_app. exists y. auto.
  - rewrite !Forall_app in *. destruct Hh as (H1 & H2 & H3).
    assert (forall c, c ∈ pre ++ post -> hdr_ok m c -> hdr_ok m' c) as Hk.
    { intros c Hc [E1 E2]. destruct (HF c Hc) as [F1 F2].
      unfold hdr_ok, b_size, block_is_free, b_flags in *. by rewrite F1, F2. }
    rewrite Forall_forall in H1, H3.
    split; [|split; [done|]]; apply Forall_forall; intros c Hc; apply Hk; [set_solver|auto|set_solver|auto].
  - by rewrite !frees_app.
Qed.

(** ** take_block *)

Lemma has_free_lnot f : has (Z.land f (Z.lnot BLK_FREE)) BLK_FREE = false.
Proof.
  apply has_zero_iff. unfold BLK_FREE. apply Z.bits_inj'. intros i Hi.
  rewrite !Z.land_spec, Z.lnot_spec, Z.bits_0 by done. destruct (Z.testbit 1 i); [by rewrite andb_false_r|].
  by rewrite !andb_false_r.
Qed.

Lemma has_free_lor f : has (Z.lor f BLK_FREE) BLK_FREE = true.
Proof.
  change BLK_FREE with (2 ^ 0). rewrite has_testbit by lia. rewrite Z.lor_spec, Z.pow2_bits_eqb by lia. by rewrite orb_true_r.
Qed.

Definition mid_alloc (b sz need : Z) : list block :=
  if 48 <=? sz - need then [(b, need, false); (b + 32 + need, sz - need - 32, true)] else [(b, sz, false)].

(** The payload of a used block other than those being rearranged. *)
Definition in_payload (c : block) (a : Z) : Prop := ba c + 32 <= a < ba c + 32 + bs c.

(** What a free-list link leaves alone: payloads and the other header cells. *)
Lemma link_cell a bl e c d x :
  tiles a bl e -> a mod 16 = 0 -> c ∈ bl -> d ∈ bl -> in_payload c x \/ x = ba c \/ x = ba c + 16 -> x <> ba d + 8.
Proof.
  intros T Ha Hc Hd Hx E. pose proof (tiles_aligned _ _ _ _ T Ha Hc). pose proof (tiles_aligned _ _ _ _ T Ha Hd).
  destruct (tiles_in _ _ _ _ T Hc) as (_ & _ & ? & _), (tiles_in _ _ _ _ T Hd) as (_ & _ & ? & _).
  unfold in_payload in Hx. destruct (tiles_disjoint _ _ _ _ _ T Hc Hd); [lia|].
  destruct Hx as [?|[?|?]]; [lia|Z.div_mod_to_equations; lia..].
Qed.

Lemma take_block_spec h pre b sz post need :
  laid (hmem h) (heap_start h) (heap_end h) (heap_free_head h) (pre ++ (b, sz, true) :: post) ->
  heap_start h mod 16 = 0 -> 0 < heap_start h -> heap_end h < 2 ^ 63 ->
  16 <= need -> need mod 16 = 0 -> need <= sz ->
  exists h', take_block need (default 0 (last (frees pre))) b h = (b + 32, h') /\
    laid (hmem h') (heap_start h) (heap_end h) (heap_free_head h') (pre ++ mid_alloc b sz need ++ post) /\
    h' = MkHeap (heap_start h) (heap_end h) (heap_free_head h')
           (u64 (heap_live_payload h + (if 48 <=? sz - need then need else sz))) (hmem h') (hvm h) /\
    (forall c a, c ∈ pre ++ post -> in_payload c a -> rd (hmem h') a = rd (hmem h) a).
Proof.
  intros L Hal Hs He Hn1 Hn2 Hn3. pose proof L as [T Hh S].
  destruct (tiles_split _ _ _ _ _ T Hal) as (T1 & T2 & B1 & B2 & B3 & B4 & B5 & Pre & Post). simpl in *.
  pose proof (frees_nodup _ _ _ T1) as ND. pose proof (frees_nonzero _ _ _ T1 Hs) as NZ.
  assert (hdr_ok (hmem h) (b, sz, true)) as [Hsz Hfr] by (rewrite Forall_app, Forall_cons in Hh; naive_solver).
  simpl in Hsz, Hfr. rewrite frees_app, frees_cons_t in S by done.
  apply seg_app in S as (y & S1 & S2). simpl in S2. destruct S2 as [-> S2].
  set (prev := default 0 (last (frees pre))).
  (* the first half: unlink the block, or put the remainder in its place *)
  set (spl := 48 <=? sz - need). set (rem := b + 32 + need).
  set (m1 := if spl then put_size b need (put_next rem (b_next (hmem h) b) (put_flags rem BLK_FREE (put_size rem (sz - need - 32) (hmem h))))
             else hmem h).
  set (h2 := set_link prev (if spl then rem else b_next (hmem h) b) (set_hmem h m1)).
  assert (take_block need prev b h =
    (u64 (b + 32), let m := put_next b 0 (put_flags b (Z.land (b_flags (hmem h2) b) (Z.lnot BLK_FREE)) (hmem h2)) in
       set_live (set_hmem h2 m) (u64 (heap_live_payload h2 + b_size m b)))) as ->.
  { unfold take_block. rewrite Hsz. unfold HEAP_HEADER, HEAP_MIN_PAYLOAD. change (32 + 16) with 48. fold spl.
    unfold h2, m1. destruct spl; [|by destruct h]. rewrite (u64_small (b + 32 + need)) by lia. fold rem.
    cbv zeta. replace (b_next (put_flags rem BLK_FREE (put_size rem (sz - need - 32) (hmem h))) b) with (b_next (hmem h) b);
      [done|]. cells. repeat zif; unfold rem in *; (lia || done). }
  assert (spl = true -> rem + 48 <= b + 32 + sz) as Hspl by (unfold spl, rem; intros ?; zb; lia).
  assert (forall a, ~ (b <= a < b + 32 + sz) -> rd m1 a = rd (hmem h) a) as M1.
  { intros a Ha. unfold m1. destruct spl; [|done]. specialize (Hspl eq_refl). cells. unfold rem in *. repeat zif; (lia || done). }
  destruct (set_link_seg (set_hmem h m1) (frees pre) b (if spl then rem else b_next (hmem h) b)) as (S1' & Eh & F); [|done|done|].
  { eapply seg_ext; [|exact S1]. intros z (c & Hc & _ & <-)%elem_of_frees. apply M1. destruct (Pre c Hc). lia. }
  fold prev in S1', Eh, F. fold h2 in S1', Eh, F. cbn [heap_start heap_end heap_live_payload hvm hmem set_hmem] in Eh, F.
  assert (forall a, (forall c, c ∈ pre -> a <> ba c + 8) -> rd (hmem h2) a = rd m1 a) as F'.
  { intros a Ha. apply F. unfold prev. destruct (last (frees pre)) as [p|] eqn:El; [right|left; by apply last_None].
    apply last_Some in El as [l' El]. assert (p ∈ frees pre) as (c & Hc & _ & <-)%elem_of_frees by (rewrite El; set_solver).
    by apply Ha. }
  clearbody h2.
  assert (forall a, b <= a < b + 32 + sz -> rd (hmem h2) a = rd m1 a) as Fin.
  { intros a Ha. apply F'. intros c Hc. destruct (Pre c Hc). lia. }
  rewrite (u64_small (b + 32)) by lia. eexists. split; [done|]. cbv zeta.
  set (m3 := put_next b 0 _). cbn [hmem set_live set_hmem heap_free_head].
  assert (forall a, a <> b + 8 -> a <> b + 16 -> rd m3 a = rd (hmem h2) a) as M3.
  { intros a Ha1 Ha2. unfold m3. cells. repeat zif; (lia || done). }
  assert (b_size m3 b = if spl then need else sz) as E1.
  { unfold b_size. rewrite M3, Fin by lia. unfold m1. destruct spl; [|done]. cells. by rewrite Z.eqb_refl. }
  assert (forall c x, c ∈ pre ++ post -> in_payload c x \/ x = ba c \/ x = ba c + 16 -> rd m3 x = rd (hmem h) x) as Fr.
  { intros c x Hc Hx. assert (~ (b <= x < b + 32 + sz)) as Hout.
    { unfold in_payload in Hx. apply elem_of_app in Hc as [Hc|Hc]; [destruct (Pre c Hc)|destruct (Post c Hc)]; lia. }
    rewrite M3 by lia. rewrite F'; [by apply M1|]. intros d Hd. eapply (link_cell _ _ _ c d x T Hal); [set_solver..|done]. }
  split; [|split].
  - eapply (laid_replace (hmem h) m3 _ _ _ _ pre [(b, sz, true)] _ post); [exact L| | | |].
    + intros a x. unfold mid_alloc. fold spl. simpl. intros (<- & ? & ? & <-). specialize (Hspl).
      destruct spl; simpl; [|done]. specialize (Hspl eq_refl). unfold rem in *.
      split; [done|]. split; [done|]. split; [done|]. split; [done|]. split; [lia|]. split; [|lia].
      Z.div_mod_to_equations. lia.
    + assert (block_is_free m3 b = false) as Hf3.
      { unfold block_is_free, b_flags, m3. cells. replace (b + 16 =? b + 8) with false by (symmetry; apply Z.eqb_neq; lia).
        rewrite Z.eqb_refl. apply has_free_lnot. }
      unfold mid_alloc. fold spl. destruct spl; [|by repeat constructor]. specialize (Hspl eq_refl).
      repeat constructor; [exact E1|exact Hf3|..]; simpl; unfold block_is_free, b_flags, b_size; fold rem;
        rewrite M3, Fin by (unfold rem in *; lia); unfold m1; cells; repeat zif; unfold rem in *; (lia || done).
    + intros c Hc. split; apply (Fr c _ Hc); auto.
    + assert (rd m3 (rem + 8) = b_next (hmem h) b \/ spl = false) as E4.
      { destruct spl eqn:Es; [left|by right]. specialize (Hspl eq_refl). rewrite M3, Fin by (unfold rem in *; lia).
        unfold m1. cells. repeat zif; unfold rem in *; (lia || done). }
      apply seg_app. exists (if spl then rem else b_next (hmem h) b). split.
      * eapply seg_ext; [|exact S1']. intros z (c & Hc & _ & <-)%elem_of_frees. destruct (Pre c Hc). apply M3; lia.
      * assert (seg m3 (b_next (hmem h) b) (frees post) 0) as S2'.
        { eapply seg_ext; [|exact S2]. intros z (c & Hc & _ & <-)%elem_of_frees. destruct (Post c Hc) as (? & ? & ? & ?).
          rewrite M3 by lia. rewrite F'; [apply M1; lia|]. intros d Hd. destruct (Pre d Hd). lia. }
        unfold mid_alloc. fold spl. destruct spl; [|by rewrite frees_cons_f].
        rewrite frees_cons_f, frees_cons_t by done. simpl. split; [done|]. fold rem.
        destruct E4 as [E4|?]; [|done]. unfold b_next at 1. by rewrite E4.
  - unfold set_live, set_hmem. cbn [heap_start heap_end heap_free_head heap_live_payload hvm hmem].
    rewrite E1. rewrite Eh. done.
  - intros c a Hc Ha. apply (Fr c a Hc). by left.
Qed.

(** ** First fit *)

Lemma frees_split post c l :
  frees post = c :: l ->
  exists u csz post', post = u ++ (c, csz, true) :: post' /\ frees u = [] /\ frees post' = l.
Proof.
  induction post as [|b post IH]; [done|]. destruct (bf b) eqn:Hb.
  - rewrite frees_cons_t by done. intros [= <- <-]. exists [], (bs b), post. split; [|done].
    destruct b as [[a sz] f]. simpl in *. by rewrite Hb.
  - rewrite frees_cons_f by done. intros (u & csz & post' & -> & Hu & Hp)%IH.
    exists (b :: u), csz, post'. by rewrite frees_cons_f.
Qed.

Lemma frees_nil_used bl b : frees bl = [] -> b ∈ bl -> bf b = false.
Proof.
  intros E Hb. destruct (bf b) eqn:Hf; [|done]. assert (ba b ∈ frees bl) as Hin by (apply elem_of_frees; eauto).
  rewrite E in Hin. by apply not_elem_of_nil in Hin.
Qed.

Definition too_small (need : Z) (b : block) : Prop := bf b = true -> bs b < need.

Lemma seg_head m h l : seg m h l 0 -> h = default 0 (head l).
Proof. destruct l; simpl; [done|]. by intros [-> _]. Qed.

Lemma alloc_loop_spec fuel need h pre post :
  laid (hmem h) (heap_start h) (heap_end h) (heap_free_head h) (pre ++ post) -> 0 < heap_start h ->
  Forall (too_small need) pre -> (length (frees post) < fuel)%nat ->
  let r := alloc_loop fuel need (default 0 (last (frees pre))) (default 0 (head (frees post))) h in
  (r = (0, h) /\ Forall (too_small need) (pre ++ post)) \/
  (exists p1 b sz p2, pre ++ post = p1 ++ (b, sz, true) :: p2 /\ Forall (too_small need) p1 /\ need <= sz /\
     r = take_block need (default 0 (last (frees p1))) b h).
Proof.
  intros L Hs. revert pre post L. induction fuel as [|fuel IH]; intros pre post L Hpre Hf; [lia|]. cbv zeta.
  pose proof L as [T Hh S]. destruct (frees post) as [|c l] eqn:Ef; simpl.
  - left. split; [done|]. apply Forall_app_2; [done|]. apply Forall_forall. intros b Hb Hfr.
    by rewrite (frees_nil_used post b Ef Hb) in Hfr.
  - destruct (frees_split _ _ _ Ef) as (u & csz & post' & -> & Hu & Hl).
    assert (c <> 0) as Hc0.
    { intros ->. apply (frees_nonzero _ _ _ T Hs). apply elem_of_frees. exists (0, csz, true). set_solver. }
    rewrite (proj2 (Z.eqb_neq c 0) Hc0).
    assert (b_size (hmem h) c = csz) as ->.
    { rewrite !Forall_app, Forall_cons in Hh. destruct Hh as (_ & _ & [H _] & _). done. }
    assert (Forall (too_small need) (pre ++ u)) as Hpu.
    { apply Forall_app_2; [done|]. apply Forall_forall. intros b Hb Hfr. by rewrite (frees_nil_used u b Hu Hb) in Hfr. }
    assert (frees (pre ++ u) = frees pre) as Efp by (by rewrite frees_app, Hu, app_nil_r).
    destruct (Z.leb_spec need csz) as [Hfit|Hsmall].
    + right. exists (pre ++ u), c, csz, post'. rewrite <- app_assoc, Efp. auto.
    + assert (b_next (hmem h) c = default 0 (head (frees post'))) as ->.
      { rewrite frees_app, Ef in S. apply seg_app in S as (y & _ & S). simpl in S. destruct S as [_ S].
        rewrite Hl. by apply seg_head in S. }
      assert (c = default 0 (last (frees ((pre ++ u) ++ [(c, csz, true)])))) as Ec.
      { rewrite frees_app, frees_cons_t by done. change (frees []) with (@nil Z). by rewrite last_snoc. }
      pose proof (IH ((pre ++ u) ++ [(c, csz, true)]) post') as Hi. cbv zeta in Hi. rewrite <- Ec, <- !app_assoc in Hi.
      destruct Hi as [[-> H]|(p1 & b & sz & p2 & E & H1 & H2 & ->)].
      * done.
      * apply Forall_app in Hpu as [? ?]. apply Forall_app_2; [done|]. apply Forall_app_2; [done|].
        repeat constructor. intros _. simpl. lia.
      * rewrite Hl. simpl in Hf. lia.
      * by left.
      * right. by exists p1, b, sz, p2.
Qed.

Lemma tiles_length a bl e : tiles a bl e -> 48 * Z.of_nat (length bl) <= e - a.
Proof.
  revert a. induction bl as [|b bl IH]; intros a H; simpl in *; [lia|].
  destruct H as (_ & H1 & _ & H2%IH). lia.
Qed.

Lemma list_fuel_enough h bl :
  tiles (heap_start h) bl (heap_end h) -> (length (frees bl) < list_fuel h)%nat.
Proof.
  intros T. pose proof (tiles_length _ _ _ T). unfold list_fuel.
  assert (length (frees bl) <= length bl)%nat.
  { unfold frees. rewrite length_fmap. apply length_filter. }
  assert (Z.of_nat (length bl) <= (heap_end h - heap_start h) / 48) by (apply Z.div_le_lower_bound; lia). lia.
Qed.

(** ** The heap's invariant *)

Definition lastf (l : list block) : bool := default false (bf <$> last l).
Definition headf (l : list block) : bool := default false (bf <$> head l).

Lemma coalesced_app l r : coalesced (l ++ r) <-> coalesced l /\ coalesced r /\ ~ (lastf l = true /\ headf r = true).
Proof.
  induction l as [|b l IH]; [unfold lastf; simpl; naive_solver|].
  destruct l as [|c l].
  - simpl. unfold lastf, headf. destruct r as [|d r]; simpl; naive_solver.
  - change ((b :: c :: l) ++ r) with (b :: c :: (l ++ r)).
    change (coalesced (b :: c :: (l ++ r))) with (~ (bf b = true /\ bf c = true) /\ coalesced ((c :: l) ++ r)).
    change (coalesced (b :: c :: l)) with (~ (bf b = true /\ bf c = true) /\ coalesced (c :: l)).
    change (lastf (b :: c :: l)) with (lastf (c :: l)). rewrite IH. naive_solver.
Qed.

Lemma used_sum_app l r : used_sum (l ++ r) = used_sum l + used_sum r.
Proof. induction l as [|b l IH]; simpl; [done|]. destruct (bf b); lia. Qed.

Lemma used_sum_bound a bl e : tiles a bl e -> 0 <= used_sum bl <= e - a.
Proof.
  revert a. induction bl as [|b bl IH]; intros a H; simpl in *; [lia|].
  destruct H as (_ & H1 & _ & H2%IH). destruct (bf b); lia.
Qed.

Record hinv (h : heap) (bl : list block) : Prop := {
  hi_laid : laid (hmem h) (heap_start h) (heap_end h) (heap_free_head h) bl;
  hi_coal : coalesced bl;
  hi_start : heap_start h = KERNEL_HEAP_BASE;
  hi_end : heap_end h <= KERNEL_HEAP_MAX /\ heap_end h mod 4096 = 0;
  hi_live : heap_live_payload h = used_sum bl }.

Lemma hinv_bounds h bl : hinv h bl -> heap_start h mod 16 = 0 /\ 0 < heap_start h /\ heap_end h < 2 ^ 63 /\ heap_start h <= heap_end h.
Proof.
  intros [L _ Hs [He _] _]. pose proof (tiles_le _ _ _ (ld_tiles _ _ _ _ _ L)). rewrite Hs in *.
  unfold KERNEL_HEAP_MAX, KERNEL_VA_BASE in He. split; [done|]. split; [done|]. lia.
Qed.

(** [alloc_from_list] takes the first free block that is large enough, splitting
    off the rest when it can hold a block of its own. *)
Lemma alloc_from_list_spec need h bl :
  hinv h bl -> 16 <= need -> need mod 16 = 0 ->
  (alloc_from_list need h = (0, h) /\ Forall (too_small need) bl) \/
  (exists pre b sz post h', bl = pre ++ (b, sz, true) :: post /\ Forall (too_small need) pre /\ need <= sz /\
     alloc_from_list need h = (b + 32, h') /\ hinv h' (pre ++ mid_alloc b sz need ++ post) /\
     hvm h' = hvm h /\ heap_end h' = heap_end h /\
     (forall c a, c ∈ pre ++ post -> in_payload c a -> rd (hmem h') a = rd (hmem h) a)).
Proof.
  intros I Hn1 Hn2. destruct (hinv_bounds _ _ I) as (B1 & B2 & B3 & B4). pose proof I as [L C Hs He Hl].
  unfold alloc_from_list.
  rewrite (seg_head _ _ _ (ld_seg _ _ _ _ _ L)).
  destruct (alloc_loop_spec (list_fuel h) need h [] bl L B2) as [[E F]|(p1 & b & sz & p2 & Eb & F & Hfit & E)].
  - constructor.
  - by apply list_fuel_enough, L.
  - left. auto.
  - right. change ([] ++ bl) with bl in Eb. subst bl.
    change (default 0 (last (frees []))) with 0 in E. rewrite E.
    destruct (take_block_spec h p1 b sz p2 need L B1 B2 B3 Hn1 Hn2 Hfit) as (h' & -> & L' & Eh & Fr).
    exists p1, b, sz, p2, h'. split; [done|]. split; [done|]. split; [done|]. split; [done|].
    split; [|by rewrite Eh]. rewrite Eh. split; cbn [hmem heap_start heap_end heap_free_head heap_live_payload]; try done.
    + rewrite (coalesced_app p1 ((b, sz, true) :: p2)) in C. destruct C as (C1 & C2 & C3).
      change ((b, sz, true) :: p2) with ([(b, sz, true)] ++ p2) in C2. apply coalesced_app in C2 as (_ & C2 & C4).
      apply coalesced_app. split; [done|]. unfold mid_alloc. destruct (48 <=? sz - need).
      * split; [|by intros [_ ?]]. apply coalesced_app. split; [simpl; naive_solver|]. split; [done|]. exact C4.
      * split; [|by intros [_ ?]]. apply coalesced_app. split; [done|]. split; [done|]. by intros [? _].
    + rewrite Hl, !used_sum_app. simpl used_sum. pose proof (used_sum_bound _ _ _ (ld_tiles _ _ _ _ _ L')) as Ub.
      rewrite !used_sum_app in Ub. unfold mid_alloc in *.
      destruct (48 <=? sz - need); simpl used_sum in *; rewrite u64_small by lia; lia.
Qed.

(** ** free_list_insert *)

Lemma find_place_spec fuel m blk F1 F2 prev cur :
  seg m cur (F1 ++ F2) 0 -> Forall (fun a => 0 < a < blk) F1 -> Forall (fun a => blk <= a) F2 -> 0 < blk ->
  (length F1 < fuel)%nat ->
  find_place fuel m blk prev cur = (default prev (last F1), default 0 (head F2)).
Proof.
  revert F1 prev cur. induction fuel as [|fuel IH]; intros F1 prev cur S H1 H2 Hb Hf; [lia|]. simpl.
  destruct F1 as [|a F1]; simpl in S.
  - pose proof (seg_head _ _ _ S) as ->. destruct F2 as [|c F2]; simpl; [done|].
    apply Forall_cons_1 in H2 as [Hc _]. destruct (Z.ltb_spec c blk); [lia|]. by rewrite andb_false_r.
  - destruct S as [-> S]. apply Forall_cons_1 in H1 as [Ha H1].
    replace (a =? 0) with false by (symmetry; apply Z.eqb_neq; lia).
    replace (a <? blk) with true by (symmetry; apply Z.ltb_lt; lia). simpl.
    rewrite (IH F1 a (b_next m a)) by (done || (simpl in Hf; lia)). f_equal.
    by destruct F1 as [|z F1]; [|rewrite last_cons_cons; destruct (last (z :: F1)) eqn:E; [|apply last_None in E]].
Qed.

(** Merging a free block with the free block right after it. *)
Lemma merge_spec h pre x xs ys post :
  let y := x + 32 + xs in
  laid (hmem h) (heap_start h) (heap_end h) (heap_free_head h) (pre ++ (x, xs, true) :: (y, ys, true) :: post) ->
  heap_start h mod 16 = 0 -> 0 < heap_start h -> heap_end h < 2 ^ 63 ->
  let m := put_size x (u64 (b_size (hmem h) x + u64 (HEAP_HEADER + b_size (hmem h) y))) (hmem h) in
  let m' := put_next x (b_next m y) m in
  laid m' (heap_start h) (heap_end h) (heap_free_head h) (pre ++ (x, xs + 32 + ys, true) :: post) /\
  (forall a, a <> x -> a <> x + 8 -> rd m' a = rd (hmem h) a).
Proof.
  intros y L Hal Hs He m m'. pose proof L as [T Hh S].
  destruct (tiles_split _ _ _ _ _ T Hal) as (_ & T2 & B1 & B2 & B3 & B4 & B5 & Pre & Post). simpl in *.
  destruct T2 as (_ & B6 & B7 & T2). pose proof (tiles_le _ _ _ T2) as B8.
  assert (forall c, c ∈ post -> y + 32 + ys <= ba c) as Post' by (intros c Hc; by destruct (tiles_in _ _ _ _ T2 Hc)).
  rewrite Forall_app, !Forall_cons in Hh. destruct Hh as (_ & [E1 E1'] & [E2 E2'] & _). simpl in *. fold y in E2, E2'.
  assert (b_next m y = b_next (hmem h) y) as En by (unfold m; cells; repeat zif; (lia || done)).
  assert (forall a, a <> x -> a <> x + 8 -> rd m' a = rd (hmem h) a) as F.
  { intros a H1 H2. unfold m', m. cells. repeat zif; (lia || done). }
  split; [|done].
  change (pre ++ (x, xs, true) :: (y, ys, true) :: post) with (pre ++ [(x, xs, true); (y, ys, true)] ++ post) in L.
  apply (laid_replace (hmem h) m' _ _ _ (heap_free_head h) pre _ [(x, xs + 32 + ys, true)] post L).
  - intros a z. simpl. intros (<- & ? & ? & _ & ? & ? & <-). split; [done|]. split; [lia|]. split; [|lia].
    Z.div_mod_to_equations. lia.
  - repeat constructor; simpl.
    + unfold m', m, HEAP_HEADER. cells. repeat zif; try lia. rewrite E1, E2, (u64_small (32 + ys)), u64_small by lia. lia.
    + unfold block_is_free, b_flags. rewrite F by lia. exact E1'.
  - intros c Hc. apply elem_of_app in Hc as [Hc|Hc].
    + destruct (Pre c Hc). split; apply F; lia.
    + specialize (Post' c Hc). split; apply F; unfold y in *; lia.
  - rewrite frees_app, !frees_cons_t in S by done. simpl in S.
    apply seg_app in S as (w & S1 & -> & Sy & S2). fold y in Sy, S2. apply seg_app. exists x. split.
    + eapply seg_ext; [|exact S1]. intros z (c & Hc & _ & <-)%elem_of_frees. destruct (Pre c Hc). apply F; lia.
    + rewrite frees_cons_t by done. simpl. split; [done|].
      assert (b_next m' x = b_next (hmem h) y) as ->.
      { unfold b_next at 1, m', put_next. rewrite rd_insert, Z.eqb_refl. exact En. }
      eapply seg_ext; [|exact S2]. intros z (c & Hc & _ & <-)%elem_of_frees. specialize (Post' c Hc).
      apply F; unfold y in *; lia.
Qed.

(** The first half: mark the block free and link it in. *)
Definition link_block (blk prev cur : Z) (h : heap) : heap :=
  set_link prev blk (set_hmem h (put_next blk cur (hmem h))).

Lemma link_block_spec h pre b sz post :
  let h1 := set_hmem h (put_next b 0 (put_flags b (Z.lor (b_flags (hmem h) b) BLK_FREE) (hmem h))) in
  let prev := default 0 (last (frees pre)) in let cur := default 0 (head (frees post)) in
  laid (hmem h) (heap_start h) (heap_end h) (heap_free_head h) (pre ++ (b, sz, false) :: post) ->
  heap_start h mod 16 = 0 -> 0 < heap_start h -> heap_end h < 2 ^ 63 ->
  find_place (list_fuel h1) (hmem h1) b 0 (heap_free_head h1) = (prev, cur) /\
  let h2 := link_block b prev cur h1 in
  laid (hmem h2) (heap_start h) (heap_end h) (heap_free_head h2) (pre ++ (b, sz, true) :: post) /\
  h2 = MkHeap (heap_start h) (heap_end h) (heap_free_head h2) (heap_live_payload h) (hmem h2) (hvm h) /\
  (forall c a, c ∈ pre ++ post -> in_payload c a -> rd (hmem h2) a = rd (hmem h) a).
Proof.
  intros h1 prev cur L Hal Hs He. pose proof L as [T Hh S].
  destruct (tiles_split _ _ _ _ _ T Hal) as (T1 & T2 & B1 & B2 & B3 & B4 & B5 & Pre & Post). simpl in T1, T2, B1, B2, B3, B4, B5, Pre, Post.
  pose proof (frees_nodup _ _ _ T1) as ND. pose proof (frees_nonzero _ _ _ T1 Hs) as NZ.
  rewrite frees_app, frees_cons_f in S by done.
  rewrite Forall_app, Forall_cons in Hh. destruct Hh as (_ & [E1 E1'] & _). simpl in E1, E1'.
  assert (forall a, a <> b + 8 -> a <> b + 16 -> rd (hmem h1) a = rd (hmem h) a) as F1.
  { intros a H1 H2. unfold h1. cbn [hmem set_hmem]. cells. repeat zif; (lia || done). }
  assert (seg (hmem h1) (heap_free_head h) (frees pre ++ frees post) 0) as S'.
  { eapply seg_ext; [|exact S]. intros z [Hz|Hz]%elem_of_app; apply elem_of_frees in Hz as (c & Hc & _ & <-);
      [destruct (Pre c Hc)|destruct (Post c Hc)]; apply F1; lia. }
  split.
  { apply find_place_spec; [exact S'| | |lia|].
    - apply Forall_forall. intros z (c & Hc & _ & <-)%elem_of_frees. destruct (Pre c Hc). lia.
    - apply Forall_forall. intros z (c & Hc & _ & <-)%elem_of_frees. destruct (Post c Hc). lia.
    - pose proof (list_fuel_enough h _ T) as Hf. rewrite frees_app, length_app in Hf.
      change (list_fuel h1) with (list_fuel h). lia. }
  apply seg_app in S' as (w & S1 & S2). pose proof (seg_head _ _ _ S2) as ->. fold cur in S1, S2.
  set (m1 := put_next b cur (hmem h1)).
  assert (forall a, a <> b + 8 -> rd m1 a = rd (hmem h1) a) as F2.
  { intros a H1. unfold m1. cells. zif; (lia || done). }
  destruct (set_link_seg (set_hmem h1 m1) (frees pre) cur b) as (S1' & Eh & F); [|done|done|].
  { eapply seg_ext; [|exact S1]. intros z (c & Hc & _ & <-)%elem_of_frees. destruct (Pre c Hc). apply F2. lia. }
  fold prev in S1', Eh, F. change (set_link prev b (set_hmem h1 m1)) with (link_block b prev cur h1) in S1', Eh, F.
  cbv zeta. set (h2 := link_block b prev cur h1) in *. cbn [heap_start heap_end heap_live_payload hvm hmem set_hmem h1] in Eh, F.
  assert (forall a, (forall c, c ∈ pre -> a <> ba c + 8) -> rd (hmem h2) a = rd m1 a) as F'.
  { intros a Ha. apply F. unfold prev. destruct (last (frees pre)) as [p|] eqn:El; [right|left; by apply last_None].
    apply last_Some in El as [l' El]. assert (p ∈ frees pre) as (c & Hc & _ & <-)%elem_of_frees by (rewrite El; set_solver).
    by apply Ha. }
  clearbody h2.
  assert (forall a, b <= a < b + 32 -> rd (hmem h2) a = rd m1 a) as Fin.
  { intros a Ha. apply F'. intros c Hc. destruct (Pre c Hc). lia. }
  assert (forall c x, c ∈ pre ++ post -> in_payload c x \/ x = ba c \/ x = ba c + 16 -> rd (hmem h2) x = rd (hmem h) x) as Fr.
  { intros c x Hc Hx. assert (x <> b + 8 /\ x <> b + 16) as [H1 H2].
    { unfold in_payload in Hx. apply elem_of_app in Hc as [Hc|Hc]; [destruct (Pre c Hc)|destruct (Post c Hc)]; lia. }
    rewrite F', F2, F1; [done..|]. intros d Hd. eapply (link_cell _ _ _ c d x T Hal); [set_solver..|done]. }
  split; [|split; [exact Eh|intros c a Hc Ha; apply (Fr c a Hc); by left]].
  eapply (laid_replace (hmem h) (hmem h2) _ _ _ _ pre [(b, sz, false)] [(b, sz, true)] post); [exact L|done| | |].
  - repeat constructor; simpl.
    + unfold b_size. rewrite Fin, F2, F1 by lia. exact E1.
    + unfold block_is_free, b_flags. rewrite Fin, F2 by lia. unfold h1. cbn [hmem set_hmem]. cells.
      replace (b + 16 =? b + 8) with false by (symmetry; apply Z.eqb_neq; lia). rewrite Z.eqb_refl. apply has_free_lor.
  - intros c Hc. split; apply (Fr c _ Hc); auto.
  - apply seg_app. exists b. split; [exact S1'|]. rewrite frees_cons_t by done. simpl. split; [done|].
    assert (b_next (hmem h2) b = cur) as -> by (unfold b_next; rewrite Fin by lia; unfold m1; cells; by rewrite Z.eqb_refl).
    eapply seg_ext; [|exact S2]. intros z (c & Hc & _ & <-)%elem_of_frees. destruct (Post c Hc) as (? & ? & ? & ?).
    rewrite F'; [apply F2; lia|]. intros d Hd. destruct (Pre d Hd). lia.
Qed.

(** The block list after freeing [b]: merged with its free neighbours. *)
Definition succ_merge (sz : Z) (post : list block) : Z * list block :=
  match post with (_, csz, true) :: r => (sz + 32 + csz, r) | _ => (sz, post) end.

Definition ins (pre : list block) (b sz : Z) (post : list block) : list block :=
  let '(sz1, post1) := succ_merge sz post in
  match last pre with
  | Some (p, psz, true) => removelast pre ++ (p, psz + 32 + sz1, true) :: post1
  | _ => pre ++ (b, sz1, true) :: post1
  end.

Lemma succ_cond b sz post e :
  tiles (b + 32 + sz) post e -> 0 < b -> 0 <= sz ->
  let cur := default 0 (head (frees post)) in
  negb (cur =? 0) && (b + 32 + sz =? cur) = headf post.
Proof.
  intros T Hb Hsz. cbv zeta. destruct post as [|[[c csz] f] post]; [done|]. simpl in T. destruct T as (-> & H1 & _ & T).
  unfold headf. simpl. destruct f.
  - rewrite frees_cons_t by done. simpl. replace (b + 32 + sz =? 0) with false by (symmetry; apply Z.eqb_neq; lia).
    by rewrite Z.eqb_refl.
  - rewrite frees_cons_f by done. destruct (frees post) as [|z l] eqn:Ef; simpl; [done|].
    assert (z ∈ frees post) as (d & Hd & _ & <-)%elem_of_frees by (rewrite Ef; left).
    destruct (tiles_in _ _ _ _ T Hd). replace (b + 32 + sz =? ba d) with false by (symmetry; apply Z.eqb_neq; lia).
    by rewrite andb_false_r.
Qed.

Lemma pred_cond m a pre b :
  tiles a pre b -> Forall (hdr_ok m) pre -> 0 < a -> b < 2 ^ 63 ->
  let prev := default 0 (last (frees pre)) in
  negb (prev =? 0) && (block_end m prev =? b) = lastf pre.
Proof.
  intros T Hh Ha Hb. cbv zeta. unfold lastf. destruct (last pre) as [[[p psz] f]|] eqn:El; simpl.
  - apply last_Some in El as [l ->]. rewrite frees_app. apply tiles_app in T as (x & T1 & T2). simpl in T2.
    destruct T2 as (<- & H1 & H2 & E). rewrite Forall_app, Forall_cons in Hh. destruct Hh as (Hl & [Hp _] & _).
    pose proof (tiles_le _ _ _ T1). destruct f; simpl in *.
    + rewrite frees_cons_t by done. change (frees []) with (@nil Z). rewrite last_snoc. simpl.
      replace (p =? 0) with false by (symmetry; apply Z.eqb_neq; lia). simpl.
      unfold block_end, HEAP_HEADER. rewrite Hp, (u64_small (p + 32)), u64_small by lia. apply Z.eqb_eq. done.
    + rewrite frees_cons_f by done. change (frees []) with (@nil Z). rewrite app_nil_r.
      destruct (last (frees l)) as [z|] eqn:Ez; simpl; [|done].
      apply last_Some in Ez as [l' Ez]. assert (z ∈ frees l) as (d & Hd & _ & <-)%elem_of_frees by (rewrite Ez; set_solver).
      destruct (tiles_in _ _ _ _ T1 Hd) as (? & ? & ? & ?). rewrite Forall_forall in Hl. destruct (Hl d Hd) as [Hds _].
      unfold block_end, HEAP_HEADER. rewrite Hds, (u64_small (ba d + 32)), u64_small by lia.
      replace (ba d + 32 + bs d =? b) with false by (symmetry; apply Z.eqb_neq; lia). by rewrite andb_false_r.
  - apply last_None in El as ->. done.
Qed.

Lemma free_list_insert_spec h pre b sz post :
  laid (hmem h) (heap_start h) (heap_end h) (heap_free_head h) (pre ++ (b, sz, false) :: post) ->
  heap_start h mod 16 = 0 -> 0 < heap_start h -> heap_end h < 2 ^ 63 ->
  let h' := free_list_insert b h in
  laid (hmem h') (heap_start h) (heap_end h) (heap_free_head h') (ins pre b sz post) /\
  h' = MkHeap (heap_start h) (heap_end h) (heap_free_head h') (heap_live_payload h) (hmem h') (hvm h) /\
  (forall c a, c ∈ pre ++ post -> bf c = false -> in_payload c a -> rd (hmem h') a = rd (hmem h) a).
Proof.
  intros L Hal Hs He. destruct (link_block_spec h pre b sz post L Hal Hs He) as (Efp & L2 & Eh2 & F2).
  cbv zeta. unfold free_list_insert. set (h1 := set_hmem h _) in *. rewrite Efp.
  set (prev := default 0 (last (frees pre))) in *. set (cur := default 0 (head (frees post))) in *.
  fold (link_block b prev cur h1). set (h2 := link_block b prev cur h1) in *. clearbody h2. clear h1 Efp.
  pose proof (ld_tiles _ _ _ _ _ L) as T0. pose proof (ld_tiles _ _ _ _ _ L2) as T.
  destruct (tiles_split _ _ _ _ _ T Hal) as (T1 & T2 & B1 & B2 & B3 & B4 & B5 & Pre & Post).
  simpl in T1, T2, B1, B2, B3, B4, B5, Pre, Post.
  assert (heap_start h2 = heap_start h /\ heap_end h2 = heap_end h) as [Es2 Ee2] by by rewrite Eh2.
  assert (block_end (hmem h2) b = b + 32 + sz) as Ebe.
  { pose proof (ld_hdr _ _ _ _ _ L2) as Hh. rewrite Forall_app, Forall_cons in Hh. destruct Hh as (_ & [E _] & _). simpl in E.
    unfold block_end, HEAP_HEADER. rewrite E, (u64_small (b + 32)), u64_small by lia. done. }
  rewrite Ebe. pose proof (succ_cond b sz post _ T2 ltac:(lia) ltac:(lia)) as Sc. cbv zeta in Sc. fold cur in Sc. rewrite Sc.
  (* the merge with the successor *)
  set (h3 := if headf post then _ else h2).
  assert (laid (hmem h3) (heap_start h) (heap_end h) (heap_free_head h3)
            (pre ++ (b, fst (succ_merge sz post), true) :: snd (succ_merge sz post)) /\
          h3 = MkHeap (heap_start h) (heap_end h) (heap_free_head h3) (heap_live_payload h) (hmem h3) (hvm h) /\
          (forall c a, c ∈ pre ++ post -> bf c = false -> in_payload c a -> rd (hmem h3) a = rd (hmem h) a))
    as (L3 & Eh3 & F3).
  { unfold h3, headf. destruct post as [|[[c csz] []] post]; simpl; [by eauto| |by eauto].
    assert (c = b + 32 + sz) as -> by (simpl in T2; naive_solver).
    unfold cur. rewrite frees_cons_t by done. simpl head. simpl default.
    rewrite <- Es2, <- Ee2 in L2. rewrite <- Es2 in Hal, Hs. rewrite <- Ee2 in He.
    destruct (merge_spec h2 pre b sz csz post L2 Hal Hs He) as [L3 F3]. rewrite <- Es2, <- Ee2.
    split; [exact L3|]. split; [by rewrite Eh2|]. intros d a Hd Hfd Ha. cbn [hmem set_hmem].
    rewrite <- (F2 d a Hd Ha). apply F3.
    - unfold in_payload in Ha. apply elem_of_app in Hd as [Hd|Hd]; [destruct (Pre d Hd)|destruct (Post d Hd)]; lia.
    - unfold in_payload in Ha. apply elem_of_app in Hd as [Hd|Hd]; [destruct (Pre d Hd)|destruct (Post d Hd)]; lia. }
  clearbody h3. clear L2 Eh2 F2 Ebe T Es2 Ee2 h2.
  assert (heap_start h3 = heap_start h /\ heap_end h3 = heap_end h) as [Es3 Ee3] by by rewrite Eh3.
  pose proof (ld_hdr _ _ _ _ _ L3) as Hh3. rewrite Forall_app in Hh3. destruct Hh3 as [Hpre3 _].
  pose proof (pred_cond (hmem h3) _ pre b T1 Hpre3 Hs ltac:(lia)) as Pc. cbv zeta in Pc. fold prev in Pc. rewrite Pc.
  unfold ins. destruct (succ_merge sz post) as [sz1 post1] eqn:Esm. cbn [fst snd] in L3.
  unfold lastf. destruct (last pre) as [[[p psz] []]|] eqn:El; simpl; [|split; [exact L3|split; [exact Eh3|exact F3]]..].
  apply last_Some in El as [pre' Epre].
  assert (prev = p) as ->.
  { unfold prev. rewrite Epre, frees_app, frees_cons_t by done. change (frees []) with (@nil Z). by rewrite last_snoc. }
  assert (removelast pre = pre') as -> by (rewrite Epre; apply removelast_last).
  assert (b = p + 32 + psz) as Eb.
  { rewrite Epre in T1. apply tiles_app in T1 as (x & _ & T1). simpl in T1. naive_solver lia. }
  rewrite Epre, <- app_assoc, Eb in L3. simpl in L3.
  rewrite <- Es3, <- Ee3 in L3. rewrite <- Es3 in Hal, Hs. rewrite <- Ee3 in He.
  destruct (merge_spec h3 pre' p psz sz1 post1 L3 Hal Hs He) as [L4 F4]. rewrite <- Es3, <- Ee3.
  rewrite <- Eb in L4, F4.
  split; [exact L4|]. split; [by rewrite Eh3|]. intros d a Hd Hfd Ha. cbn [hmem set_hmem].
  rewrite <- (F3 d a Hd Hfd Ha).
  assert ((p, psz, true) ∈ pre ++ (b, sz, false) :: post) as Hpin by (rewrite Epre; set_solver).
  assert (d ∈ pre ++ (b, sz, false) :: post) as Hdin by set_solver.
  destruct (tiles_in _ _ _ _ T0 Hpin) as (_ & _ & Hpsz & _). simpl in Hpsz.
  destruct (tiles_disjoint _ _ _ _ _ T0 Hpin Hdin) as [E|E]; simpl in E; unfold in_payload in Ha.
  - apply F4; lia.
  - apply F4; lia.
Qed.

(** ** Growing *)

Section grow.
Context (K : Z).

(** Every page of the heap is mapped in the kernel's half. *)
Definition heap_mapped (h : heap) (v : vm) : Prop :=
  forall va, aligned va -> heap_start h <= va < heap_end h -> translate v K va <> None.

Lemma kernel_idx va : 0 <= va < 2 ^ 39 -> idx_pml4 va = 0.
Proof.
  intros. unfold idx_pml4. change 0x1FF with (2 ^ 9 - 1). rewrite land_low, Z.shiftr_div_pow2 by lia.
  Z.div_mod_to_equations. lia.
Qed.

(** One page: a fresh frame mapped at [va], or nothing but new tables. *)
Lemma map_fresh_page G v va flags b v' pa p :
  tree_inv K G v -> aligned va -> KERNEL_VA_BASE <= va < 2 ^ 39 -> has flags VM_PRESENT = true ->
  pmm_alloc_page (vm_pmm v) = (pa, p) -> pa <> 0 ->
  vmm_map (Some (kernel_space K)) va pa flags (with_pmm v p) = (b, v') ->
  exists G', vm_grows K G v G' v' /\ G' !! pa = None /\ 0 <= pa < 2 ^ 64 /\
    (forall va', translate v K va' <> None -> translate v' K va' <> None) /\
    (b = true -> translate v' K va <> None).
Proof.
  intros I Hva Hr Hfl Ea Hpa Em.
  destruct (alloc_page_spec _ _ _ (ti_pmm _ _ _ I) Ea) as (Ip & Etot & Hused & Hnp).
  destruct (Hnp Hpa) as (Hal & Hrange & Htot & Hfree & Hus).
  pose proof (tree_inv_pmm K G v p I Ip Etot Hused) as I1.
  destruct (ti_kernel _ _ _ I) as [EK _].
  destruct (vmm_map_spec K G (with_pmm v p) v' (kernel_space K) va pa flags b I1 EK ltac:(lia) Em)
    as (G' & Hs & I' & Hroots & Hf & Hent & (X1 & X2 & X3) & Ht).
  assert (idx_pml4 va = 0) as Hi0 by (apply kernel_idx; unfold KERNEL_VA_BASE in *; lia).
  exists G'. split; [split; try done|split; [|split; [lia|split]]].
  - intros r va' Hrr H0. rewrite (Hf r va' Hrr); [done|]. intros _. rewrite !slot_eq.
    cbn [sp_pml4 kernel_space]. rewrite (decide_True (P := idx_pml4 va = 0)), decide_False by done.
    intros [_ Ei]%pair_eq. injection Ei. congruence.
  - intros i Hi. rewrite (Hent K i EK) by (red; lia || lia). done.
  - apply eq_None_not_Some. intros [ro Ero].
    destruct (G !! pa) as [ro'|] eqn:Eg.
    + destruct (ti_page _ _ _ I _ _ Eg) as (_ & _ & [?|?]); [congruence|lia].
    + destruct (X1 pa ro Ero Eg) as [_ Hu]. cbn [vm_pmm with_pmm] in Hu. congruence.
  - intros va' Hm. destruct (decide (b = true /\ slot K K va' = slot K K va)) as [[-> E]|Hn].
    + rewrite !slot_eq in E. assert (indices va' = indices va) as Ei by (repeat case_decide; congruence).
      destruct (Ht eq_refl) as (_ & Hnone & _). exfalso. apply Hm. unfold translate in *. cbn [vm_mem with_pmm sp_pml4 kernel_space] in Hnone.
      by rewrite Ei.
    + by rewrite (Hf K va' EK) by naive_solver.
  - intros Hb. destruct (Ht Hb) as (_ & _ & E & _). cbn [sp_pml4 kernel_space] in E. by rewrite E.
Qed.

Lemma vm_grows_free G v G' v' a :
  vm_grows K G v G' v' -> G' !! a = None -> 0 <= a < 2 ^ 64 ->
  vm_grows K G v G' (with_pmm v' (snd (pmm_free_page a (vm_pmm v')))).
Proof. intros [A1 A2 A3 A4 A5] Ha Hr. split; try done. by apply tree_inv_free. Qed.

Lemma grow_loop_spec fuel base pages i mapped v mapped' v' G :
  tree_inv K G v -> aligned base -> KERNEL_HEAP_BASE <= base <= KERNEL_HEAP_MAX -> 0 <= i -> mapped = i ->
  base + i * 4096 <= KERNEL_HEAP_MAX ->
  grow_loop K fuel base pages i mapped v = (mapped', v') ->
  exists G', vm_grows K G v G' v' /\ mapped <= mapped' /\ base + mapped' * 4096 <= KERNEL_HEAP_MAX /\
    (forall va, translate v K va <> None -> translate v' K va <> None) /\
    (forall j, mapped <= j < mapped' -> translate v' K (base + j * 4096) <> None).
Proof.
  intros I Hb Hbase. revert i mapped v G I. induction fuel as [|fuel IH]; intros i mapped v G I Hi -> Hle E; cbn [grow_loop] in E.
  { injection E as <- <-. exists G. split; [by apply vm_grows_refl|]. split; [lia|]. split; [done|]. split; [done|lia]. }
  assert (exists G', vm_grows K G v G' v /\ i <= i /\ base + i * 4096 <= KERNEL_HEAP_MAX /\
    (forall va, translate v K va <> None -> translate v K va <> None) /\
    (forall j, i <= j < i -> translate v K (base + j * 4096) <> None)) as Stop.
  { exists G. split; [by apply vm_grows_refl|]. split; [lia|]. split; [done|]. split; [done|lia]. }
  destruct (i <? pages); [|by apply pair_eq in E as [<- <-]]. cbv zeta in E.
  assert (KERNEL_HEAP_MAX < 2 ^ 39 /\ KERNEL_VA_BASE <= KERNEL_HEAP_BASE) as [Hmax Hmin] by done.
  unfold PAGE_SIZE in E. rewrite (u64_small (i * 4096)), (u64_small (base + i * 4096)), u64_small in E
    by (unfold KERNEL_HEAP_BASE, KERNEL_VA_BASE in *; lia).
  destruct (Z.ltb_spec KERNEL_HEAP_MAX (base + i * 4096 + 4096)); [by apply pair_eq in E as [<- <-]|].
  destruct (pmm_alloc_page (vm_pmm v)) as [pa p] eqn:Ea.
  destruct (alloc_page_spec _ _ _ (ti_pmm _ _ _ I) Ea) as (Ip & Etot & Hused & _).
  destruct (Z.eqb_spec pa 0) as [->|Hpa].
  { apply pair_eq in E as [<- <-]. exists G. split; [split; try done; by apply tree_inv_pmm|]. destruct Stop as (_ & _ & ? & ? & _ & _).
    split; [done|]. split; [done|]. split; [done|]. intros j Hj. lia. }
  destruct (vmm_map (Some (kernel_space K)) (base + i * 4096) pa _ (with_pmm v p)) as [ok v1] eqn:Em.
  assert (aligned (base + i * 4096)) as Hva by (unfold aligned in *; by rewrite Z.mod_add by lia).
  destruct (map_fresh_page G v (base + i * 4096) (Z.lor VM_PRESENT VM_WRITE) ok v1 pa p I Hva ltac:(unfold KERNEL_HEAP_BASE, KERNEL_VA_BASE in *; lia)
    ltac:(done) Ea Hpa Em) as (G1 & Gr & Hnt & Hpar & Mono & Hok).
  destruct ok; cbn [negb] in E.
  - destruct (IH (i + 1) (i + 1) v1 G1 (vg_tree _ _ _ _ _ Gr) ltac:(lia) eq_refl ltac:(lia) E)
      as (G2 & Gr2 & Hle2 & Hmx & Mono2 & Hj2).
    exists G2. split; [by eapply vm_grows_trans|]. split; [lia|]. split; [done|]. split; [auto|].
    intros j Hj. destruct (decide (j = i)) as [->|]; [apply Mono2, Hok; done|]. apply Hj2. lia.
  - apply pair_eq in E as [<- <-]. exists G1. split; [by apply vm_grows_free|]. split; [lia|]. split; [done|].
    split; [exact Mono|lia].
Qed.

(** The heap together with the page tables it lives in. *)
Record heap_ok (h : heap) (bl : list block) : Prop := {
  ho_inv : hinv h bl;
  ho_tree : exists G, tree_inv K G (hvm h);
  ho_mapped : heap_mapped h (hvm h) }.

(** The growth of the page tables, from whatever tree they form. *)
Definition vm_step (v v' : vm) : Prop :=
  forall G, tree_inv K G v -> exists G', vm_grows K G v G' v'.

Definition used_blocks (bl : list block) : list block := filter (fun b => bf b = false) bl.

Lemma used_blocks_app l r : used_blocks (l ++ r) = used_blocks l ++ used_blocks r.
Proof. apply filter_app. Qed.

Lemma used_blocks_ins pre b sz post : used_blocks (ins pre b sz post) = used_blocks pre ++ used_blocks post.
Proof.
  unfold ins. destruct (succ_merge sz post) as [sz1 post1] eqn:E.
  assert (used_blocks post1 = used_blocks post) as Ep.
  { unfold succ_merge in E. destruct post as [|[[c csz] []] post]; injection E as _ <-; try done. }
  assert (forall x l, used_blocks ((x, true) :: l) = used_blocks l) as Hc by done.
  destruct (last pre) as [[[p psz] []]|] eqn:El; rewrite used_blocks_app, Hc, Ep; try done.
  apply last_Some in El as [l ->]. rewrite removelast_last, used_blocks_app. simpl. by rewrite app_nil_r.
Qed.

Lemma used_sum_used bl : used_sum bl = foldr (fun b s => bs b + s) 0 (used_blocks bl).
Proof.
  induction bl as [|[[a sz] []] bl IH]; simpl; [done|done|]. by rewrite IH.
Qed.

Lemma used_sum_eq l r : used_blocks l = used_blocks r -> used_sum l = used_sum r.
Proof. intros E. by rewrite !used_sum_used, E. Qed.

(** Coalescing is restored. *)
Lemma coalesced_ins pre b sz post :
  coalesced pre -> coalesced post -> coalesced (ins pre b sz post).
Proof.
  intros C1 C2. unfold ins. destruct (succ_merge sz post) as [sz1 post1] eqn:E.
  assert (coalesced post1 /\ headf post1 = false) as [C3 H3].
  { unfold succ_merge in E. destruct post as [|[[c csz] []] post]; injection E as _ <-; try done.
    change ((c, csz, true) :: post) with ([(c, csz, true)] ++ post) in C2. apply coalesced_app in C2 as (_ & C2 & C4).
    split; [done|]. destruct (headf post) eqn:Eh; [|done]. by destruct C4. }
  assert (forall l x s1, coalesced l -> lastf l = false -> coalesced (l ++ (x, s1, true) :: post1)) as Hins.
  { intros l x s1 Cl Hl. apply coalesced_app. split; [done|]. rewrite Hl. split; [|by intros [? _]].
    change ((x, s1, true) :: post1) with ([(x, s1, true)] ++ post1). apply coalesced_app.
    split; [done|]. split; [done|]. rewrite H3. by intros [_ ?]. }
  destruct (last pre) as [[[p psz] []]|] eqn:El.
  - apply last_Some in El as [l ->]. rewrite removelast_last. apply coalesced_app in C1 as (C1 & _ & C4).
    apply Hins; [done|]. destruct (lastf l) eqn:Eh; [|done]. by destruct C4.
  - apply Hins; [done|]. unfold lastf. by rewrite El.
  - apply Hins; [done|]. unfold lastf. by rewrite El.
Qed.

Lemma laid_snoc m s e hd bl sz :
  laid m s e hd bl -> s mod 16 = 0 -> 16 <= sz -> sz mod 16 = 0 ->
  laid (put_next e 0 (put_flags e 0 (put_size e sz m))) s (e + 32 + sz) hd (bl ++ [(e, sz, false)]) /\
  (forall a, a < e -> rd (put_next e 0 (put_flags e 0 (put_size e sz m))) a = rd m a).
Proof.
  intros [T Hh S] Hs H1 H2. set (m' := put_next e 0 _).
  assert (forall a, a < e -> rd m' a = rd m a) as F by (intros a Ha; unfold m'; cells; repeat zif; (lia || done)).
  split; [|done]. split.
  - apply tiles_app. exists e. split; [done|]. simpl. auto.
  - apply Forall_app_2.
    + apply Forall_forall. intros c Hc. rewrite Forall_forall in Hh. destruct (Hh c Hc) as [E1 E2].
      destruct (tiles_in _ _ _ _ T Hc) as (_ & ? & ? & _).
      unfold hdr_ok, block_is_free, b_size, b_flags in *. by rewrite !F by lia.
    + repeat constructor; simpl; unfold m', block_is_free; cells; repeat zif; (lia || done).
  - rewrite frees_app, frees_cons_f by done. rewrite app_nil_r. eapply seg_ext; [|exact S].
    intros z (c & Hc & _ & <-)%elem_of_frees. destruct (tiles_in _ _ _ _ T Hc) as (_ & ? & ? & _). apply F. lia.
Qed.

Lemma heap_grow_spec need h bl b h' :
  heap_ok h bl -> heap_grow K need h = (b, h') ->
  exists bl', heap_ok h' bl' /\ used_blocks bl' = used_blocks bl /\ vm_step (hvm h) (hvm h') /\
    (forall c a, c ∈ used_blocks bl -> in_payload c a -> rd (hmem h') a = rd (hmem h) a).
Proof.
  intros [I [G0 T0] M] E. pose proof I as [L C Hs [He1 He2] Hl]. destruct (hinv_bounds _ _ I) as (B1 & B2 & B3 & B4).
  unfold heap_grow in E. set (pages := if _ =? 0 then 1 else _) in E.
  destruct (grow_loop K (Z.to_nat (Z.min pages 65537)) (heap_end h) pages 0 0 (hvm h)) as [mapped v] eqn:Eg.
  assert (forall G, tree_inv K G (hvm h) -> exists G', vm_grows K G (hvm h) G' v /\ 0 <= mapped /\
    heap_end h + mapped * 4096 <= KERNEL_HEAP_MAX /\
    (forall va, translate (hvm h) K va <> None -> translate v K va <> None) /\
    (forall j, 0 <= j < mapped -> translate v K (heap_end h + j * 4096) <> None)) as Gr.
  { intros G T. eapply (grow_loop_spec _ _ _ 0 0); [exact T|exact He2| |lia|done|lia|exact Eg]. rewrite <- Hs. lia. }
  assert (vm_step (hvm h) v) as Vs.
  { intros G T. destruct (Gr G T) as (G' & ? & _). eauto. }
  destruct (Gr G0 T0) as (G' & Gr0 & Hm0 & Hmx & Mono & Hj). clear Gr.
  assert (exists G, tree_inv K G v) as Tv by (exists G'; apply Gr0).
  assert (heap_mapped h v) as Mv by (intros va Ha Hr; by apply Mono, M).
  destruct (Z.eqb_spec mapped 0) as [->|Hm].
  { apply pair_eq in E as [<- <-]. exists bl. split; [|done]. split; [|done|done]. by destruct I; split. }
  apply pair_eq in E as [<- <-].
  assert (KERNEL_HEAP_MAX < 2 ^ 63) as Hmax by done. unfold PAGE_SIZE, HEAP_HEADER.
  rewrite (u64_small (mapped * 4096)) by lia. rewrite u64_small by lia.
  destruct (laid_snoc (hmem h) _ _ _ bl (mapped * 4096 - 32) L B1 ltac:(lia)) as [L1 F1].
  { Z.div_mod_to_equations. lia. }
  replace (heap_end h + 32 + (mapped * 4096 - 32)) with (heap_end h + mapped * 4096) in L1 by lia.
  cbn [heap_start heap_end heap_free_head heap_live_payload hmem hvm set_hvm].
  set (m := put_next (heap_end h) 0 _) in *.
  set (h1 := MkHeap (heap_start h) (heap_end h + mapped * 4096) (heap_free_head h) (heap_live_payload h) m v).
  destruct (free_list_insert_spec h1 bl (heap_end h) (mapped * 4096 - 32) [] L1 B1 B2 ltac:(simpl; lia)) as (L2 & Eh & F2).
  set (h2 := free_list_insert (heap_end h) h1) in *. clearbody h2.
  cbn [heap_start heap_end heap_free_head heap_live_payload hmem hvm h1] in L2, Eh, F2.
  exists (ins bl (heap_end h) (mapped * 4096 - 32) []).
  assert (used_blocks (ins bl (heap_end h) (mapped * 4096 - 32) []) = used_blocks bl) as Eu
    by (rewrite used_blocks_ins; by rewrite app_nil_r).
  split; [split|split; [done|split]].
  - rewrite Eh. split; cbn [heap_start heap_end heap_free_head heap_live_payload hmem hvm]; try done.
    + by apply coalesced_ins.
    + split; [done|]. rewrite Z.mod_add by lia. done.
    + rewrite Hl. by apply used_sum_eq.
  - by rewrite Eh.
  - rewrite Eh. cbn [hvm]. intros va Ha Hr. cbn [heap_start heap_end] in Hr.
    destruct (Z_lt_le_dec va (heap_end h)); [apply Mv; [done|lia]|].
    assert (va = heap_end h + ((va - heap_end h) / 4096) * 4096) as ->.
    { unfold aligned in Ha. Z.div_mod_to_equations. lia. }
    apply Hj. split; [apply Z.div_pos; lia|]. apply Z.div_lt_upper_bound; lia.
  - by rewrite Eh.
  - intros c a Hc Ha. unfold used_blocks in Hc. apply list_elem_of_filter in Hc as [Hf Hc].
    rewrite (F2 c a) by (set_solver || done). apply F1.
    destruct (tiles_in _ _ _ _ (ld_tiles _ _ _ _ _ L) Hc) as (_ & ? & _). unfold in_payload in Ha. lia.
Qed.

(** ** exy_malloc *)

Lemma round_up_spec n : 0 < n < 2 ^ 63 ->
  n <= round_up n /\ round_up n mod 16 = 0 /\ 16 <= round_up n /\ round_up n < n + 16.
Proof.
  intros Hn. unfold round_up, HEAP_ALIGN. rewrite u64_small by lia. rewrite land_align by lia.
  change (2 ^ 4) with 16. Z.div_mod_to_equations. lia.
Qed.

Lemma alloc_used need h bl p h' :
  heap_ok h bl -> 16 <= need -> need mod 16 = 0 -> alloc_from_list need h = (p, h') ->
  exists bl', heap_ok h' bl' /\ hvm h' = hvm h /\
    (p = 0 -> h' = h /\ bl' = bl /\ Forall (too_small need) bl) /\
    (p <> 0 -> exists sz u1 u2, need <= sz /\ used_blocks bl = u1 ++ u2 /\
       used_blocks bl' = u1 ++ (p - 32, sz, false) :: u2) /\
    (forall c a, c ∈ used_blocks bl -> in_payload c a -> rd (hmem h') a = rd (hmem h) a).
Proof.
  intros [I T M] H1 H2 E. destruct (hinv_bounds _ _ I) as (B1 & B2 & B3 & B4).
  destruct (alloc_from_list_spec need h bl I H1 H2) as [[E' F]|(pre & b & sz & post & h1 & -> & F & Hfit & E' & I' & Ev & Ee & Fr)];
    rewrite E' in E; injection E as <- <-.
  - exists bl. split; [done|]. done.
  - exists (pre ++ mid_alloc b sz need ++ post). split; [split|split; [done|split; [|split]]].
    + done.
    + by rewrite Ev.
    + intros va Ha Hr. rewrite Ev. apply M; [done|]. rewrite <- Ee. destruct I, I'. congruence.
    + assert ((b, sz, true) ∈ pre ++ (b, sz, true) :: post) as Hin by set_solver.
      destruct (tiles_in _ _ _ _ (ld_tiles _ _ _ _ _ (hi_laid _ _ I)) Hin) as (? & _). simpl in *. lia.
    + intros _. exists (if 48 <=? sz - need then need else sz), (used_blocks pre), (used_blocks post).
      split; [zif; lia|]. split; [rewrite used_blocks_app; done|]. rewrite !used_blocks_app. f_equal.
      replace (b + 32 - 32) with b by lia. unfold mid_alloc. by destruct (48 <=? sz - need).
    + intros c a Hc Ha. apply (Fr c); [|done]. unfold used_blocks in Hc. apply list_elem_of_filter in Hc as [Hf Hc].
      set_unfold in Hc. destruct Hc as [?|[->|?]]; [set_solver|done|set_solver].
Qed.

Lemma vm_step_refl v : vm_step v v.
Proof. intros G T. exists G. by apply vm_grows_refl. Qed.

Lemma malloc_spec size h bl p h' :
  heap_ok h bl -> 0 < size < 2 ^ 63 -> exy_malloc K size h = (p, h') ->
  exists bl', heap_ok h' bl' /\ vm_step (hvm h) (hvm h') /\
    (p = 0 -> used_blocks bl' = used_blocks bl) /\
    (p <> 0 -> exists sz u1 u2, size <= sz /\ used_blocks bl = u1 ++ u2 /\
       used_blocks bl' = u1 ++ (p - 32, sz, false) :: u2) /\
    (forall c a, c ∈ used_blocks bl -> in_payload c a -> rd (hmem h') a = rd (hmem h) a).
Proof.
  intros O Hsz E. destruct (round_up_spec size Hsz) as (R1 & R2 & R3 & R4).
  unfold exy_malloc in E. destruct (Z.eqb_spec size 0) as [|_]; [lia|].
  unfold HEAP_MIN_PAYLOAD in E. destruct (Z.ltb_spec (round_up size) 16) as [|_]; [lia|].
  set (need := round_up size) in *. destruct (alloc_from_list need h) as [q h1] eqn:E1.
  destruct (alloc_used need h bl q h1 O R3 R2 E1) as (bl1 & O1 & Ev1 & Z1 & N1 & F1).
  destruct (Z.eqb_spec q 0) as [->|Hq]; cbn [negb] in E.
  - destruct (Z1 eq_refl) as (-> & -> & _). destruct (heap_grow K need h) as [ok h2] eqn:E2.
    destruct (heap_grow_spec need h bl ok h2 O E2) as (bl2 & O2 & U2 & V2 & F2).
    destruct ok; cbn [negb] in E.
    + destruct (alloc_used need h2 bl2 p h' O2 R3 R2 E) as (bl3 & O3 & Ev3 & Z3 & N3 & F3). rewrite U2 in *.
      exists bl3. split; [done|]. split; [by rewrite Ev3|]. split; [|split].
      * intros Hp. by destruct (Z3 Hp) as (_ & -> & _).
      * intros Hp. destruct (N3 Hp) as (sz & u1 & u2 & ? & ? & ?). exists sz, u1, u2. split; [lia|done].
      * intros c a Hc Ha. rewrite (F3 c a Hc Ha). by apply (F2 c).
    + injection E as <- <-. exists bl2. split; [done|]. split; [done|]. split; [done|]. split; [done|done].
  - injection E as <- <-. exists bl1. split; [done|]. split; [rewrite Ev1; apply vm_step_refl|]. split; [done|].
    split; [|done]. intros _. destruct (N1 Hq) as (sz & u1 & u2 & ? & ? & ?). exists sz, u1, u2. split; [lia|done].
Qed.

(** ** exy_free *)

Lemma free_spec h bl b sz :
  heap_ok h bl -> (b, sz, false) ∈ bl ->
  exists pre post h', bl = pre ++ (b, sz, false) :: post /\ exy_free (b + 32) h = Some h' /\
    heap_ok h' (ins pre b sz post) /\ hvm h' = hvm h /\
    (forall c a, c ∈ used_blocks (pre ++ post) -> in_payload c a -> rd (hmem h') a = rd (hmem h) a).
Proof.
  intros [I T M] Hin. destruct (hinv_bounds _ _ I) as (B1 & B2 & B3 & B4). pose proof I as [L C Hs He Hl].
  apply list_elem_of_split in Hin as (pre & post & ->).
  destruct (tiles_split _ _ _ _ _ (ld_tiles _ _ _ _ _ L) B1) as (T1 & T2 & D1 & D2 & D3 & D4 & D5 & Pre & Post).
  simpl in T1, T2, D1, D2, D3, D4, D5.
  pose proof (ld_hdr _ _ _ _ _ L) as Hh. rewrite Forall_app, Forall_cons in Hh. destruct Hh as (_ & [E1 E2] & _). simpl in E1, E2.
  unfold exy_free, HEAP_HEADER. replace (b + 32 =? 0) with false by (symmetry; apply Z.eqb_neq; lia).
  replace ((b + 32 <? heap_start h) || (heap_end h <=? b + 32)) with false
    by (symmetry; apply orb_false_iff; split; [apply Z.ltb_ge|apply Z.leb_gt]; lia).
  replace (b + 32 - 32) with b by lia. rewrite u64_small by lia. rewrite E2, E1.
  set (h1 := set_live h _).
  destruct (free_list_insert_spec h1 pre b sz post L B1 B2 B3) as (L2 & Eh & F2).
  set (h2 := free_list_insert b h1) in *. clearbody h2.
  cbn [heap_start heap_end heap_free_head heap_live_payload hmem hvm h1 set_live] in L2, Eh, F2.
  exists pre, post, h2. split; [done|]. split; [done|]. split; [split|split].
  - rewrite Eh. split; cbn [heap_start heap_end heap_free_head heap_live_payload hmem hvm]; try done.
    + apply coalesced_app in C as (C1 & C2 & _). change ((b, sz, false) :: post) with ([(b, sz, false)] ++ post) in C2.
      apply coalesced_app in C2 as (_ & C2 & _). by apply coalesced_ins.
    + rewrite (used_sum_eq (ins pre b sz post) (pre ++ post)) by (by rewrite used_blocks_ins, used_blocks_app).
      rewrite Hl, !used_sum_app. simpl used_sum. pose proof (used_sum_bound _ _ _ T1). pose proof (used_sum_bound _ _ _ T2).
      rewrite u64_small by lia. lia.
  - rewrite Eh. done.
  - rewrite Eh. exact M.
  - by rewrite Eh.
  - intros c a Hc Ha. unfold used_blocks in Hc. apply list_elem_of_filter in Hc as [Hf Hc]. by apply (F2 c).
Qed.
End grow.

(** ** Bytes *)

(** Bytes of a payload are a function of its cells. *)
Lemma load_byte_payload m m' c a :
  ba c mod 16 = 0 -> (forall x, in_payload c x -> rd m' x = rd m x) -> in_payload c a -> load_byte m' a = load_byte m a.
Proof.
  intros Hal E Ha. unfold load_byte. rewrite E; [done|]. unfold in_payload in *. Z.div_mod_to_equations. lia.
Qed.

(** Writes inside the payload of a used block leave the heap structure alone. *)
Lemma laid_payload m m' s e hd bl c :
  laid m s e hd bl -> s mod 16 = 0 -> c ∈ bl -> bf c = false ->
  (forall a, ~ in_payload c a -> rd m' a = rd m a) -> laid m' s e hd bl.
Proof.
  intros [T Hh S] Hs Hc Hf E.
  assert (forall d k, d ∈ bl -> 0 <= k < 32 -> rd m' (ba d + k) = rd m (ba d + k)) as Hd.
  { intros d k Hd Hk. apply E. unfold in_payload.
    destruct (tiles_in _ _ _ _ T Hc) as (_ & _ & ? & _), (tiles_in _ _ _ _ T Hd) as (_ & _ & ? & _).
    destruct (tiles_disjoint _ _ _ _ _ T Hc Hd); lia. }
  split; [done| |].
  - apply Forall_forall. intros d Hdin. rewrite Forall_forall in Hh. destruct (Hh d Hdin) as [E1 E2].
    unfold hdr_ok, block_is_free, b_size, b_flags in *. rewrite (Hd d 16) by (done || lia).
    replace (ba d) with (ba d + 0) by lia. rewrite (Hd d 0) by (done || lia).
    replace (ba d + 0) with (ba d) by lia. done.
  - eapply seg_ext; [|exact S]. intros z (d & Hdin & _ & <-)%elem_of_frees. apply Hd; [done|lia].
Qed.

Section loops.
Context (p : Z) (c : block) (Hal : ba c mod 16 = 0) (Hp : p = ba c + 32).

(** A byte loop into the payload of [c]. *)
Lemma byte_loop_spec (f : Z -> gmap Z Z -> Z) (g : Z -> Z) m n :
  n <= bs c -> (forall i m', 0 <= i < n -> (forall a, ~ in_payload c a -> rd m' a = rd m a) -> f i m' = g i /\ 0 <= g i < 256) ->
  let m' := foldl (fun m i => store_byte (p + i) (f i m) m) m (seqZ 0 n) in
  (forall a, ~ in_payload c a -> rd m' a = rd m a) /\
  (forall i, 0 <= i < n -> load_byte m' (p + i) = g i).
Proof.
  intros Hn Hf. destruct (store_loop_spec p f g m n) as [W1 W2].
  - subst p. Z.div_mod_to_equations. lia.
  - intros i m' Hi Hm. apply Hf; [done|]. intros a Ha. apply Hm. unfold in_payload in Ha. lia.
  - split; [|done]. intros a Ha. apply W1. unfold in_payload in Ha. lia.
Qed.
End loops.

(** ** The live blocks *)

Fixpoint walk (fuel : nat) (m : gmap Z Z) (a e : Z) : list block :=
  match fuel with
  | O => []
  | S fuel => if a <? e then (a, b_size m a, block_is_free m a) :: walk fuel m (a + 32 + b_size m a) e else []
  end.

Definition blocks_of (h : heap) : list block := walk (list_fuel h) (hmem h) (heap_start h) (heap_end h).

Definition live_map (bl : list block) : gmap Z Z :=
  list_to_map ((fun b => (ba b + 32, bs b)) <$> used_blocks bl).

Lemma walk_spec m a bl e fuel :
  tiles a bl e -> Forall (hdr_ok m) bl -> (length bl < fuel)%nat -> walk fuel m a e = bl.
Proof.
  revert a fuel. induction bl as [|b bl IH]; intros a fuel T Hh Hf; (destruct fuel; [simpl in Hf; lia|]); simpl in *.
  - subst. by rewrite Z.ltb_irrefl.
  - destruct T as (Ha & H1 & _ & T). apply Forall_cons_1 in Hh as [[E1 E2] Hh]. pose proof (tiles_le _ _ _ T).
    destruct (Z.ltb_spec a e); [|lia]. rewrite Ha in E1, E2. rewrite E1, E2, IH by (done || lia).
    destruct b as [[x s] f]. simpl in *. by subst.
Qed.

Lemma blocks_of_spec h bl : hinv h bl -> blocks_of h = bl.
Proof.
  intros I. apply walk_spec; [apply I|apply I|]. pose proof (tiles_length _ _ _ (ld_tiles _ _ _ _ _ (hi_laid _ _ I))).
  unfold list_fuel. assert (Z.of_nat (length bl) <= (heap_end h - heap_start h) / 48) by (apply Z.div_le_lower_bound; lia). lia.
Qed.

Lemma tiles_nodup a bl e : tiles a bl e -> NoDup (ba <$> bl).
Proof.
  revert a. induction bl as [|b bl IH]; intros a H; [constructor|]. simpl in *. destruct H as (<- & H1 & _ & H3).
  constructor; [|by eapply IH]. intros (c & E & Hc)%list_elem_of_fmap. destruct (tiles_in _ _ _ _ H3 Hc). lia.
Qed.

Lemma used_nodup a bl e : tiles a bl e -> NoDup ((fun b => (ba b + 32, bs b)) <$> used_blocks bl).*1.
Proof.
  intros T%tiles_nodup. rewrite <- list_fmap_compose. unfold used_blocks.
  assert (NoDup (ba <$> filter (fun b : block => bf b = false) bl)) as N.
  { eapply sublist_NoDup; [exact T|]. apply fmap_sublist, sublist_filter. }
  change (fst ∘ (fun b : block => (ba b + 32, bs b))) with (fun b : block => ba b + 32).
  rewrite (list_fmap_compose ba (fun a => a + 32)). apply NoDup_fmap_2; [|done]. intros x y E. simpl in E. lia.
Qed.

Lemma live_map_spec a bl e p sz : tiles a bl e -> live_map bl !! p = Some sz <-> (p - 32, sz, false) ∈ bl.
Proof.
  intros T. unfold live_map. rewrite <- elem_of_list_to_map by by eapply used_nodup.
  rewrite list_elem_of_fmap. unfold used_blocks. split.
  - intros ([[x s] f] & E & Hb). apply list_elem_of_filter in Hb as [Hf Hb]. simpl in *. injection E as -> ->. subst f.
    by replace (x + 32 - 32) with x by lia.
  - intros Hb. exists (p - 32, sz, false). split; [simpl; f_equal; lia|]. by apply list_elem_of_filter.
Qed.

(** ** The heap meets the interface its clients use *)

Section interface.
Context (K : Z).

Definition kheap : KHeap heap := {|
  Iface.exy_malloc := exy_malloc K;
  Iface.exy_zalloc := exy_zalloc K;
  Iface.exy_free := exy_free;
  live h := live_map (blocks_of h);
  heap_lo := KERNEL_HEAP_BASE;
  heap_hi := KERNEL_HEAP_MAX;
  heap_wf h := exists bl, heap_ok K h bl |}.

Definition kheap_vm : VmHeap heap := {| vmh_heap := kheap; vm_of := hvm; put_vm v h := set_hvm h v |}.

Lemma live_of h bl : heap_ok K h bl -> live_map (blocks_of h) = live_map bl.
Proof. intros [I _ _]. by rewrite (blocks_of_spec h bl I). Qed.

Lemma ok_tiles h bl : heap_ok K h bl -> tiles (heap_start h) bl (heap_end h).
Proof. intros [I _ _]. apply I. Qed.

(** Zeroing keeps the structure. *)
Lemma heap_ok_payload h bl m c :
  heap_ok K h bl -> c ∈ bl -> bf c = false -> (forall a, ~ in_payload c a -> rd m a = rd (hmem h) a) ->
  heap_ok K (set_hmem h m) bl.
Proof.
  intros [I T M] Hc Hf E. destruct (hinv_bounds _ _ I) as (B1 & _). split; [|done|done].
  destruct I as [L C Hs He Hl]. split; cbn [hmem heap_start heap_end heap_free_head heap_live_payload set_hmem]; try done.
  eapply (laid_payload (hmem h) m); done.
Qed.

Lemma zalloc_spec size h bl p h' :
  heap_ok K h bl -> 0 < size < 2 ^ 63 -> exy_zalloc K size h = (p, h') ->
  exists bl', heap_ok K h' bl' /\ vm_step K (hvm h) (hvm h') /\
    (p = 0 -> used_blocks bl' = used_blocks bl) /\
    (p <> 0 -> (forall i, 0 <= i < size -> load_byte (hmem h') (p + i) = 0) /\
       exists sz u1 u2, size <= sz /\ used_blocks bl = u1 ++ u2 /\
       used_blocks bl' = u1 ++ (p - 32, sz, false) :: u2) /\
    (forall c a, c ∈ used_blocks bl -> in_payload c a -> rd (hmem h') a = rd (hmem h) a).
Proof.
  intros O Hsz E. unfold exy_zalloc in E. destruct (exy_malloc K size h) as [q h1] eqn:E1.
  destruct (malloc_spec K size h bl q h1 O Hsz E1) as (bl1 & O1 & V1 & Z1 & N1 & F1).
  destruct (Z.eqb_spec q 0) as [->|Hq]; injection E as <- <-.
  { exists bl1. split; [done|]. split; [done|]. split; [done|]. split; [done|done]. }
  destruct (N1 Hq) as (sz & u1 & u2 & Hle & U & U1).
  assert ((q - 32, sz, false) ∈ bl1) as Hin.
  { assert ((q - 32, sz, false) ∈ used_blocks bl1) as Hu by (rewrite U1; set_solver).
    by apply list_elem_of_filter in Hu as [_ Hu]. }
  pose proof (ok_tiles _ _ O1) as T1. destruct (hinv_bounds _ _ (ho_inv _ _ _ O1)) as (B1 & _).
  pose proof (tiles_aligned _ _ _ _ T1 B1 Hin) as Hal. simpl in Hal.
  destruct (byte_loop_spec q (q - 32, sz, false) Hal ltac:(simpl; lia) (fun _ _ => 0) (fun _ => 0) (hmem h1) size) as [W1 W2];
    [simpl; lia|by intros|].
  exists bl1. split; [by eapply heap_ok_payload|]. split; [done|]. split; [done|]. split; [eauto 10|].
  intros c a Hc Ha. cbn [hmem set_hmem]. rewrite <- (F1 c a Hc Ha). apply W1.
  assert (c ∈ bl1 /\ ba c <> q - 32) as [Hc1 Hne].
  { pose proof (used_nodup _ _ _ T1) as ND. unfold used_blocks in U1. split.
    - assert (c ∈ used_blocks bl1) as Hu by (unfold used_blocks; rewrite U1; rewrite U in Hc; set_solver).
      by apply list_elem_of_filter in Hu as [_ ?].
    - intros Eq. fold (used_blocks bl1) in U1. rewrite U1, <- list_fmap_compose, fmap_app, fmap_cons in ND. simpl in ND.
      apply NoDup_app in ND as (_ & D1 & D2). apply NoDup_cons in D2 as [D2 _]. rewrite U in Hc.
      apply elem_of_app in Hc as [Hc|Hc].
      + apply (D1 (ba c + 32)); [apply list_elem_of_fmap; by exists c|]. rewrite Eq. left.
      + apply D2. apply list_elem_of_fmap. exists c. split; [simpl; lia|done]. }
  intros Hp. unfold in_payload in *. simpl in Hp.
  destruct (tiles_disjoint _ _ _ _ _ T1 Hc1 Hin) as [?|?]; simpl in *; lia.
Qed.

(** Inserting one used block is inserting one live payload. *)
Lemma live_insert h bl h' bl' p sz u1 u2 :
  heap_ok K h bl -> heap_ok K h' bl' -> used_blocks bl = u1 ++ u2 ->
  used_blocks bl' = u1 ++ (p - 32, sz, false) :: u2 ->
  live_map bl !! p = None /\ live_map bl' = <[p := sz]> (live_map bl) /\
  forall q sz', live_map bl !! q = Some sz' -> p + sz <= q \/ q + sz' <= p.
Proof.
  intros O O' U U'. pose proof (ok_tiles _ _ O) as T. pose proof (ok_tiles _ _ O') as T'.
  assert (live_map bl !! p = None) as Hn.
  { apply eq_None_not_Some. intros [s Hs]. apply (live_map_spec _ _ _ _ _ T) in Hs.
    assert ((p - 32, s, false) ∈ used_blocks bl) as Hu by (by apply list_elem_of_filter). rewrite U in Hu.
    pose proof (used_nodup _ _ _ T') as ND. rewrite U', <- list_fmap_compose, fmap_app, fmap_cons in ND. simpl in ND.
    apply NoDup_app in ND as (_ & D1 & D2). apply NoDup_cons in D2 as [D2 _]. apply elem_of_app in Hu as [Hu|Hu].
    - apply (D1 (p - 32 + 32)); [apply list_elem_of_fmap; by exists (p - 32, s, false)|left].
    - apply D2, list_elem_of_fmap. by exists (p - 32, s, false). }
  split; [done|]. split.
  - unfold live_map. rewrite U, U', !fmap_app, fmap_cons, !list_to_map_app, list_to_map_cons. simpl.
    replace (p - 32 + 32) with p by lia. rewrite <- insert_union_r; [done|].
    unfold live_map in Hn. rewrite U, fmap_app, list_to_map_app in Hn. by apply lookup_union_None in Hn as [? _].
  - intros q sz' Hq. apply (live_map_spec _ _ _ _ _ T) in Hq.
    assert ((q - 32, sz', false) ∈ bl') as Hq'.
    { assert ((q - 32, sz', false) ∈ used_blocks bl) as Hu by (by apply list_elem_of_filter). rewrite U in Hu.
      assert ((q - 32, sz', false) ∈ used_blocks bl') as Hu' by (rewrite U'; set_solver).
      by apply list_elem_of_filter in Hu' as [_ ?]. }
    assert ((p - 32, sz, false) ∈ bl') as Hp'.
    { assert ((p - 32, sz, false) ∈ used_blocks bl') as Hu' by (rewrite U'; set_solver).
      by apply list_elem_of_filter in Hu' as [_ ?]. }
    destruct (tiles_disjoint _ _ _ _ _ T' Hp' Hq') as [E|E]; simpl in E; [|lia].
    exfalso. assert (q = p) as -> by lia. apply (live_map_spec _ _ _ p sz' T) in Hq. congruence.
Qed.

Lemma hvm_free_list_insert b h : hvm (free_list_insert b h) = hvm h.
Proof.
  unfold free_list_insert, set_link. cbv zeta. destruct (find_place _ _ _ _ _) as [prev cur].
  destruct (prev =? 0); cbn [negb andb hvm set_hmem set_head]; repeat zif; done.
Qed.

Lemma live_delete h bl b sz pre post :
  heap_ok K h bl -> bl = pre ++ (b, sz, false) :: post ->
  live_map (ins pre b sz post) = delete (b + 32) (live_map bl).
Proof.
  intros O ->. pose proof (used_nodup _ _ _ (ok_tiles _ _ O)) as ND.
  unfold live_map. rewrite used_blocks_ins, !used_blocks_app in *.
  change (used_blocks ((b, sz, false) :: post)) with ((b, sz, false) :: used_blocks post) in *.
  rewrite !fmap_app, fmap_cons, !list_to_map_app, list_to_map_cons. simpl.
  rewrite <- list_fmap_compose, fmap_app, fmap_cons in ND. simpl in ND.
  apply NoDup_app in ND as (_ & D1 & D2). apply NoDup_cons in D2 as [D2 _].
  rewrite delete_union, delete_insert_eq. rewrite !delete_id; [done|..].
  - apply not_elem_of_list_to_map. intros Hin. apply D2. by rewrite <- list_fmap_compose in Hin.
  - apply not_elem_of_list_to_map. intros Hin. rewrite <- list_fmap_compose in Hin.
    apply (D1 (b + 32)); [exact Hin|left].
Qed.

#[local] Existing Instance kheap.
#[local] Existing Instance kheap_vm.

Lemma kheap_laws : KHeapLaws heap.
Proof.
  assert (forall h size p h' bl bl', heap_ok K h bl -> heap_ok K h' bl' -> (p = 0 -> used_blocks bl' = used_blocks bl) ->
    (p <> 0 -> exists sz u1 u2, size <= sz /\ used_blocks bl = u1 ++ u2 /\
       used_blocks bl' = u1 ++ (p - 32, sz, false) :: u2) -> alloc_step h size p h') as Step.
  { intros h size p h' bl bl' O O' Z N. split; cbn [live heap_wf kheap].
    - by exists bl'.
    - intros Hp. rewrite (live_of _ _ O), (live_of _ _ O'). unfold live_map. by rewrite Z.
    - intros Hp. destruct (N Hp) as (sz & u1 & u2 & Hle & U & U'). exists sz. split; [done|].
      rewrite (live_of _ _ O), (live_of _ _ O'). by apply (live_insert h bl h' bl' p sz u1 u2). }
  split.
  - intros h size p h' [bl O] Hs E. destruct (malloc_spec K size h bl p h' O Hs E) as (bl' & O' & _ & Z & N & _). eauto.
  - intros h size p h' [bl O] Hs E. destruct (zalloc_spec size h bl p h' O Hs E) as (bl' & O' & _ & Z & N & _).
    eapply Step; eauto. intros Hp. by destruct (N Hp) as [_ ?].
  - intros h p sz [bl O] Hl. cbn [live kheap] in Hl. rewrite (live_of _ _ O) in Hl.
    apply (live_map_spec _ _ _ _ _ (ok_tiles _ _ O)) in Hl.
    destruct (free_spec K h bl (p - 32) sz O Hl) as (pre & post & h' & Eb & E & O' & _ & _).
    replace (p - 32 + 32) with p in E by lia. exists h'. split; [done|]. cbn [live heap_wf kheap]. split; [eauto|].
    rewrite (live_of _ _ O), (live_of _ _ O'), (live_delete h bl (p - 32) sz pre post O Eb). f_equal. lia.
  - done.
  - intros h p sz [bl O] Hl. cbn [live kheap heap_lo heap_hi] in *. rewrite (live_of _ _ O) in Hl.
    apply (live_map_spec _ _ _ _ _ (ok_tiles _ _ O)) in Hl.
    destruct (tiles_in _ _ _ _ (ok_tiles _ _ O) Hl) as (H1 & H2 & _). simpl in H1, H2.
    destruct (ho_inv _ _ _ O) as [_ _ Hs [He _] _]. lia.
Qed.

Lemma kheap_vm_laws : VmHeapLaws heap K.
Proof.
  split.
  - apply kheap_laws.
  - done.
  - done.
  - intros h v [bl [I [G T] M]] Ht Hk. cbn [heap_wf kheap vmh_heap kheap_vm put_vm vm_of] in *. exists bl. split.
    + destruct I. by split.
    + destruct (Ht G T) as (G' & _ & T'). by exists G'.
    + intros va Ha Hr. cbn [hvm set_hvm heap_start heap_end] in *. rewrite Hk; [by apply M|].
      apply kernel_idx. destruct I as [L _ Hs [He _] _]. rewrite Hs in Hr.
      unfold KERNEL_HEAP_BASE, KERNEL_HEAP_MAX, KERNEL_VA_BASE in *. lia.
  - intros h size p h' G [bl O] Hs T E. destruct (zalloc_spec size h bl p h' O Hs E) as (bl' & _ & V & _). by apply V.
  - intros h p h' E. cbn [Iface.exy_free kheap vmh_heap kheap_vm vm_of] in *. unfold exy_free in E.
    repeat zif_in E; try discriminate; injection E as <-; rewrite ?hvm_free_list_insert; done.
Qed.
End interface.

(** ** Properties *)

Lemma heap_init_ok K G m v : tree_inv K G v -> heap_ok K (heap_init m v) [].
Proof.
  intros T. split; [|by exists G|].
  - split; cbn [heap_init heap_start heap_end heap_free_head heap_live_payload hmem]; try done.
    all: split; try done; constructor.
  - intros va _ Hr. cbn [heap_init heap_start heap_end] in Hr. lia.
Qed.

Definition demo_heap : heap := heap_init ∅ demo_vm.

Lemma demo_heap_ok : heap_ok demo_K demo_heap [].
Proof. eapply heap_init_ok, demo_tree. Qed.

(** The bytes of the live blocks of [h]. *)
Definition same_bytes (h h' : heap) (lv : gmap Z Z) : Prop :=
  forall q sz i, lv !! q = Some sz -> 0 <= i < sz -> load_byte (hmem h') (q + i) = load_byte (hmem h) (q + i).

Lemma same_bytes_cells K h h' bl :
  heap_ok K h bl ->
  (forall c a, c ∈ used_blocks bl -> in_payload c a -> rd (hmem h') a = rd (hmem h) a) -> same_bytes h h' (live_map bl).
Proof.
  intros O F q sz i Hq Hi. pose proof (ok_tiles K _ _ O) as T. apply (live_map_spec _ _ _ _ _ T) in Hq.
  destruct (hinv_bounds _ _ (ho_inv _ _ _ O)) as (B1 & _).
  assert ((q - 32, sz, false) ∈ used_blocks bl) as Hu by (by apply list_elem_of_filter).
  apply (load_byte_payload _ _ (q - 32, sz, false)).
  - exact (tiles_aligned _ _ _ _ T B1 Hq).
  - intros x. by apply F.
  - unfold in_payload. simpl. lia.
Qed.

(** C4: an allocation keeps the heap well formed (blocks tile the region, the
    free list is exactly the free blocks in address order, no two neighbours
    are free) and never writes into a live block; it fails leaving the live
    blocks as they were, or returns a new 16-byte aligned block of at least the
    requested size, inside the heap and disjoint from every live one, which
    [exy_zalloc] has filled with zeros. *)
Theorem heap_alloc_correct (K size p : Z) (zero : bool) (h h' : heap) (bl : list block) :
  heap_ok K h bl -> 0 < size < 2 ^ 63 ->
  (if zero then exy_zalloc K size h else exy_malloc K size h) = (p, h') ->
  exists bl', heap_ok K h' bl' /\ same_bytes h h' (live_map bl) /\
    (p = 0 -> live_map bl' = live_map bl) /\
    (p <> 0 -> exists sz, size <= sz /\ p mod 16 = 0 /\ heap_start h' + 32 <= p /\ p + sz <= heap_end h' /\
       live_map bl' = <[p := sz]> (live_map bl) /\ live_map bl !! p = None /\
       (forall q sz', live_map bl !! q = Some sz' -> p + sz <= q \/ q + sz' <= p) /\
       (zero = true -> forall i, 0 <= i < size -> load_byte (hmem h') (p + i) = 0)).
Proof.
  intros O Hs E.
  assert (exists bl', heap_ok K h' bl' /\ (p = 0 -> used_blocks bl' = used_blocks bl) /\
    (p <> 0 -> (zero = true -> forall i, 0 <= i < size -> load_byte (hmem h') (p + i) = 0) /\
       exists sz u1 u2, size <= sz /\ used_blocks bl = u1 ++ u2 /\ used_blocks bl' = u1 ++ (p - 32, sz, false) :: u2) /\
    (forall c a, c ∈ used_blocks bl -> in_payload c a -> rd (hmem h') a = rd (hmem h) a)) as (bl' & O' & Z & N & F).
  { destruct zero.
    - destruct (zalloc_spec K size h bl p h' O Hs E) as (bl' & O' & _ & Z & N & F). exists bl'.
      split; [done|]. split; [done|]. split; [|done]. intros Hp. destruct (N Hp). eauto.
    - destruct (malloc_spec K size h bl p h' O Hs E) as (bl' & O' & _ & Z & N & F). exists bl'.
      split; [done|]. split; [done|]. split; [|done]. intros Hp. split; [done|]. by apply N. }
  exists bl'. split; [done|]. split; [by eapply same_bytes_cells|]. split.
  { intros Hp. unfold live_map. by rewrite Z. }
  intros Hp. destruct (N Hp) as (Hz & sz & u1 & u2 & Hle & U & U'). exists sz.
  destruct (live_insert K h bl h' bl' p sz u1 u2 O O' U U') as (L1 & L2 & L3).
  pose proof (ok_tiles K _ _ O') as T'. destruct (hinv_bounds _ _ (ho_inv _ _ _ O')) as (B1 & _).
  assert ((p - 32, sz, false) ∈ bl') as Hin by (apply (live_map_spec _ _ _ _ _ T'); rewrite L2; apply lookup_insert_eq).
  destruct (tiles_in _ _ _ _ T' Hin) as (H1 & H2 & _). pose proof (tiles_aligned _ _ _ _ T' B1 Hin) as Hal. simpl in *.
  split; [done|]. split; [Z.div_mod_to_equations; lia|]. split; [lia|]. split; [lia|]. auto.
Qed.

Lemma heap_alloc_correct_witness :
  exists p h' bl', exy_zalloc demo_K 100 demo_heap = (p, h') /\ p = KERNEL_HEAP_BASE + 32 /\
    heap_ok demo_K h' bl' /\ forall i, 0 <= i < 100 -> load_byte (hmem h') (p + i) = 0.
Proof.
  destruct (exy_zalloc demo_K 100 demo_heap) as [p h'] eqn:E.
  assert (p = KERNEL_HEAP_BASE + 32) as Hp.
  { change p with (fst (p, h')). rewrite <- E. vm_compute. reflexivity. }
  destruct (heap_alloc_correct demo_K 100 p true demo_heap h' [] demo_heap_ok ltac:(lia) E) as (bl' & O & _ & _ & N).
  exists p, h', bl'. split; [done|]. split; [done|]. split; [done|].
  destruct N as (sz & _ & _ & _ & _ & _ & _ & _ & Hz); [by subst p|]. by apply Hz.
Defined.



(** [exy_realloc] of a live block returns a block of at least the new size
    holding the old contents, the other live blocks keep their bytes, and the
    old block is gone unless it is the one returned; when it cannot allocate it
    returns null and the old block stays. *)
Theorem heap_realloc_correct (K p n sz : Z) (h : heap) (bl : list block) :
  heap_ok K h bl -> live_map bl !! p = Some sz -> 0 < n < 2 ^ 63 ->
  exists q h' bl', exy_realloc K p n h = Some (q, h') /\ heap_ok K h' bl' /\
    same_bytes h h' (delete p (live_map bl)) /\
    (q = 0 -> live_map bl' = live_map bl /\ same_bytes h h' (live_map bl)) /\
    (q <> 0 -> exists sz', n <= sz' /\ sz <= sz' /\ live_map bl' = <[q := sz']> (delete p (live_map bl)) /\
       forall i, 0 <= i < sz -> load_byte (hmem h') (q + i) = load_byte (hmem h) (p + i)).
Proof.
  intros O Hl Hn. pose proof (ok_tiles K _ _ O) as T. destruct (hinv_bounds _ _ (ho_inv _ _ _ O)) as (B1 & B2 & B3 & B4).
  pose proof Hl as Hin. apply (live_map_spec _ _ _ _ _ T) in Hin.
  destruct (tiles_in _ _ _ _ T Hin) as (H1 & H2 & H3 & _). simpl in H1, H2, H3.
  pose proof (ld_hdr _ _ _ _ _ (hi_laid _ _ (ho_inv _ _ _ O))) as Hh. rewrite Forall_forall in Hh.
  destruct (Hh _ Hin) as [Hs Hf]. simpl in Hs, Hf.
  destruct (round_up_spec n Hn) as (R1 & R2 & R3 & R4).
  unfold exy_realloc, HEAP_HEADER, HEAP_MIN_PAYLOAD. replace (p =? 0) with false by (symmetry; apply Z.eqb_neq; lia).
  replace (n =? 0) with false by (symmetry; apply Z.eqb_neq; lia).
  replace ((p <? heap_start h) || (heap_end h <=? p)) with false
    by (symmetry; apply orb_false_iff; split; [apply Z.ltb_ge|apply Z.leb_gt]; lia).
  rewrite u64_small by lia. rewrite Hf, Hs. replace (round_up n <? 16) with false by (symmetry; apply Z.ltb_ge; lia).
  destruct (Z.leb_spec (round_up n) sz) as [Hfit|Hgrow].
  { exists p, h, bl. split; [done|]. split; [done|]. split; [done|]. split; [lia|]. intros _. exists sz.
    split; [lia|]. split; [lia|]. split; [|done]. by rewrite insert_delete_eq, insert_id. }
  destruct (exy_malloc K n h) as [np h1] eqn:E1.
  destruct (malloc_spec K n h bl np h1 O Hn E1) as (bl1 & O1 & _ & Z1 & N1 & F1).
  pose proof (same_bytes_cells K h h1 bl O F1) as Sb1.
  destruct (Z.eqb_spec np 0) as [->|Hnp].
  { exists 0, h1, bl1. split; [done|]. split; [done|]. split; [|split; [|done]].
    - intros q s i Hq. apply lookup_delete_Some in Hq as [_ Hq]. by apply Sb1.
    - intros _. split; [|done]. unfold live_map. by rewrite Z1. }
  destruct (N1 Hnp) as (nsz & u1 & u2 & Hle & U & U1).
  destruct (live_insert K h bl h1 bl1 np nsz u1 u2 O O1 U U1) as (L1 & L2 & L3).
  pose proof (ok_tiles K _ _ O1) as T1. destruct (hinv_bounds _ _ (ho_inv _ _ _ O1)) as (B1' & _).
  assert ((np - 32, nsz, false) ∈ bl1) as Hnin by (apply (live_map_spec _ _ _ _ _ T1); rewrite L2; apply lookup_insert_eq).
  pose proof (tiles_aligned _ _ _ _ T1 B1' Hnin) as Hal. simpl in Hal.
  assert (np <> p) as Hne by (intros ->; congruence).
  assert (live_map bl1 !! p = Some sz) as Hl1 by (by rewrite L2, lookup_insert_ne).
  pose proof Hl1 as Hin1. apply (live_map_spec _ _ _ _ _ T1) in Hin1.
  assert (sz <= nsz) as Hszle.
  { assert (nsz mod 16 = 0) by (destruct (tiles_in _ _ _ _ T1 Hnin) as (_ & _ & _ & ?); done).
    assert (sz mod 16 = 0) by (destruct (tiles_in _ _ _ _ T Hin) as (_ & _ & _ & ?); done).
    Z.div_mod_to_equations. lia. }
  set (m := foldl _ (hmem h1) (seqZ 0 sz)).
  destruct (byte_loop_spec np (np - 32, nsz, false) Hal ltac:(simpl; lia)
    (fun i m => load_byte m (p + i)) (fun i => load_byte (hmem h1) (p + i)) (hmem h1) sz) as [W1 W2]; [simpl; lia| |].
  { intros i m' Hi Hm. split; [|apply load_byte_range].
    apply (load_byte_payload _ _ (p - 32, sz, false)).
    - exact (tiles_aligned _ _ _ _ T1 B1' Hin1).
    - intros x Hx. apply Hm. unfold in_payload in *. simpl in *. destruct (L3 p sz Hl); lia.
    - unfold in_payload. simpl. lia. }
  fold m in W1, W2.
  assert (heap_ok K (set_hmem h1 m) bl1) as O2 by (by apply (heap_ok_payload K h1 bl1 m (np - 32, nsz, false))).
  destruct (free_spec K (set_hmem h1 m) bl1 (p - 32) sz O2 Hin1) as (pre & post & h2 & Eb & E2 & O3 & _ & F3).
  replace (p - 32 + 32) with p in E2 by lia. rewrite E2.
  pose proof (live_delete K _ bl1 (p - 32) sz pre post O2 Eb) as Ld. replace (p - 32 + 32) with p in Ld by lia.
  assert (forall q s i, live_map bl1 !! q = Some s -> q <> p -> 0 <= i < s ->
    load_byte (hmem h2) (q + i) = load_byte m (q + i)) as Sb3.
  { intros q s i Hq Hqp Hi. apply (live_map_spec _ _ _ _ _ T1) in Hq. apply (load_byte_payload _ _ (q - 32, s, false)).
    - exact (tiles_aligned _ _ _ _ T1 B1' Hq).
    - intros x Hx. apply (F3 (q - 32, s, false)); [|done]. apply list_elem_of_filter. split; [done|].
      rewrite Eb in Hq. set_unfold in Hq. destruct Hq as [?|[Heq|?]]; [set_solver| |set_solver].
      exfalso. injection Heq as Heq _. lia.
    - unfold in_payload. simpl. lia. }
  exists np, h2, (ins pre (p - 32) sz post). split; [done|]. split; [done|]. split; [|split; [done|]].
  - intros q s i Hq Hi. apply lookup_delete_Some in Hq as [Hqp Hq].
    assert (live_map bl1 !! q = Some s) as Hq1 by (rewrite L2, lookup_insert_ne; [done|congruence]).
    rewrite (Sb3 q s i Hq1 ltac:(congruence) Hi), <- (Sb1 q s i Hq Hi).
    apply (live_map_spec _ _ _ _ _ T1) in Hq1. apply (load_byte_payload _ _ (q - 32, s, false)).
    + exact (tiles_aligned _ _ _ _ T1 B1' Hq1).
    + intros x Hx. apply W1. unfold in_payload in *. simpl in *. destruct (L3 q s Hq); lia.
    + unfold in_payload. simpl. lia.
  - intros _. exists nsz. split; [lia|]. split; [done|]. split.
    + rewrite Ld, L2. apply delete_insert_ne. done.
    + intros i Hi. rewrite (Sb3 np nsz i) by (rewrite ?L2, ?lookup_insert_eq; done || lia).
      rewrite (W2 i Hi). exact (Sb1 p sz i Hl Hi).
Qed.

Lemma heap_realloc_correct_witness :
  exists p h1 q h2, exy_malloc demo_K 16 demo_heap = (p, h1) /\ exy_realloc demo_K p 200 h1 = Some (q, h2) /\
    q <> p /\ forall i, 0 <= i < 16 -> load_byte (hmem h2) (q + i) = load_byte (hmem h1) (p + i).
Proof.
  destruct (exy_malloc demo_K 16 demo_heap) as [p h1] eqn:E.
  destruct (malloc_spec demo_K 16 demo_heap [] p h1 demo_heap_ok ltac:(lia) E) as (bl1 & O1 & _).
  assert (let '(p, h1) := exy_malloc demo_K 16 demo_heap in live_map (blocks_of h1) !! p = Some 16) as Hl
    by (vm_compute; reflexivity).
  rewrite E in Hl.
  rewrite (live_of demo_K h1 bl1 O1) in Hl.
  destruct (heap_realloc_correct demo_K p 200 16 h1 bl1 O1 Hl ltac:(lia)) as (q & h2 & bl2 & E2 & _ & _ & _ & N).
  assert (let '(p, h1) := exy_malloc demo_K 16 demo_heap in let q := fst (default (0, h1) (exy_realloc demo_K p 200 h1)) in
    negb (q =? p) && negb (q =? 0) = true) as Hq by (vm_compute; reflexivity).
  rewrite E in Hq. cbv zeta in Hq. rewrite E2 in Hq. cbn [default from_option fst] in Hq.
  apply andb_prop in Hq as [Hqp Hq0]. zb. exists p, h1, q, h2. split; [reflexivity|]. split; [exact E2|]. split; [exact Hqp|].
  destruct (N Hq0) as (sz' & _ & _ & _ & Hi). exact Hi.
Defined.

(** C23: the kernel heap satisfies the allocator interface the object
    constructors (threads, channels, address spaces) are verified against, page
    tables included. *)
Theorem heap_implements_interface (K : Z) :
  @KHeapLaws heap (kheap K) /\ @VmHeapLaws heap (kheap_vm K) K.
Proof. split; [apply kheap_laws|apply kheap_vm_laws]. Qed.

(** The size is rounded up without a range check, so a request within 15
    bytes of [2^64] wraps to the minimum and returns a 16-byte block. *)
Theorem heap_malloc_wraps :
  let '(p, h) := exy_malloc demo_K (2 ^ 64 - 8) demo_heap in
  p <> 0 /\ live_map (blocks_of h) !! p = Some 16.
Proof. vm_compute. split; [discriminate|reflexivity]. Qed.

(** [heap_reserve] reports success whenever it mapped at least one page:
    here it returns true for 64 KiB with less than that free afterwards. *)
Theorem heap_reserve_short :
  let '(ok, h) := heap_reserve demo_K 65536 demo_heap in
  ok = true /\ heap_free_bytes h < 65536.
Proof. vm_compute. split; reflexivity. Qed.
