(* ===== verification/Process.v ===== *)
(** * Processes

    [process.c], [process.h] and [free_thread] of [sched.c]: the reference
    counted process object, its place in the global process list, its exit and
    its destruction, which closes the capability table and may destroy channels
    and other processes in turn.  The state is the kernel heap (any
    implementation of the allocator interface), the live objects by address and
    the head of the process list. *)
From S2P Require Import Prelude Bytes Queue Iface Handle Sched Sync Channel Vmm.

Record process_t := MkProc {
  pid : Z;
  (** The heap copy of the name: its address (0 is null) and its bytes. *)
  p_name : Z;
  p_name_bytes : list Z;
  p_space : Z;
  p_entry : Z;
  main_thread : Z;
  p_handles : handle_table_t;
  initial_rsp : Z;
  next_map_va : Z;
  p_refcount : Z;
  exit_code : Z;
  exited : Z;
  bootstrap_handle : Z;
  p_waiters : waitq_t;
  list_next : Z }.

Definition set_refcount (n : Z) (p : process_t) : process_t :=
  MkProc (pid p) (p_name p) (p_name_bytes p) (p_space p) (p_entry p) (main_thread p) (p_handles p) (initial_rsp p)
    (next_map_va p) n (exit_code p) (exited p) (bootstrap_handle p) (p_waiters p) (list_next p).
Definition set_list_next (n : Z) (p : process_t) : process_t :=
  MkProc (pid p) (p_name p) (p_name_bytes p) (p_space p) (p_entry p) (main_thread p) (p_handles p) (initial_rsp p)
    (next_map_va p) (p_refcount p) (exit_code p) (exited p) (bootstrap_handle p) (p_waiters p) n.
Definition set_next_map_va (n : Z) (p : process_t) : process_t :=
  MkProc (pid p) (p_name p) (p_name_bytes p) (p_space p) (p_entry p) (main_thread p) (p_handles p) (initial_rsp p)
    n (p_refcount p) (exit_code p) (exited p) (bootstrap_handle p) (p_waiters p) (list_next p).
Definition set_exit (c e : Z) (q : waitq_t) (p : process_t) : process_t :=
  MkProc (pid p) (p_name p) (p_name_bytes p) (p_space p) (p_entry p) (main_thread p) (p_handles p) (initial_rsp p)
    (next_map_va p) (p_refcount p) c e (bootstrap_handle p) q (list_next p).

(** ** Exit *)

(** The loop [while ((w = waitq_pop(&p->waiters)))] is the one of
    [cond_broadcast]; its fuel exceeds the number of threads. *)
Definition process_exit (p : process_t) (code : Z) (s : sched) : process_t * sched :=
  if negb (exited p =? 0) then (p, s)
  else
    let '(q, s') := broadcast_loop (S (size (threads s))) (p_waiters p) s in
    (set_exit code 1 q p, s').

(** ** The snapshot of the process list *)

Record process_info_t := MkInfo { pi_pid : Z; pi_state : Z; pi_pad : Z; pi_name : list Z }.

Definition PROC_NAME_SIZE : Z := 32.

(** [while (i < sizeof(name) - 1 && p->name[i]) name[i] = p->name[i], ++i] and
    the terminator after it; reading stops at the NUL of the name. *)
Fixpoint name_loop (fuel : nat) (src : list Z) (i : Z) (dst : list Z) : Z * list Z :=
  match fuel with
  | O => (i, dst)
  | S fuel =>
    if (i <? PROC_NAME_SIZE - 1) && negb (zget 0 src i =? 0)
    then name_loop fuel src (i + 1) (zset dst i (zget 0 src i))
    else (i, dst)
  end.

Definition fill_info (p : process_t) (old : process_info_t) : process_info_t :=
  let '(i, nm) := if p_name p =? 0 then (0, pi_name old)
                  else name_loop (Z.to_nat PROC_NAME_SIZE) (p_name_bytes p) 0 (pi_name old) in
  MkInfo (pid p) (if exited p =? 0 then 0 else 1) 0 (zset nm i 0).

(** The loop over the list writes into [out]; the fuel is its [max] bound. *)
Fixpoint collect_loop (fuel : nat) (procs : gmap Z process_t) (a n : Z) (out : list process_info_t)
  : Z * list process_info_t :=
  match fuel with
  | O => (n, out)
  | S fuel =>
    if a =? 0 then (n, out)
    else
      match procs !! a with
      | None => (n, out)
      | Some p => collect_loop fuel procs (list_next p) (n + 1)
                    (zset out n (fill_info p (zget (MkInfo 0 0 0 []) out n)))
      end
  end.

(** [out] is [None] for a null pointer. *)
Definition process_collect (procs : gmap Z process_t) (head : Z) (out : option (list process_info_t)) (max : Z)
  : Z * option (list process_info_t) :=
  match out with
  | None => (0, None)
  | Some o =>
    if max =? 0 then (0, out)
    else let '(n, o') := collect_loop (Z.to_nat max) procs head 0 o in (n, Some o')
  end.

(** ** References, destruction *)

(** [Stuck] is a panic of the source (a channel destroyed under waiters, a bad
    [exy_free]) or the use of an address that holds no object; [NoFuel] is the
    model running out of recursion depth, which [process_unref_correct] excludes. *)
Inductive res (A : Type) := Ok (a : A) | Stuck | NoFuel.
Arguments Ok {A} a.
Arguments Stuck {A}.
Arguments NoFuel {A}.

Definition rbind {A B} (r : res A) (f : A -> res B) : res B :=
  match r with Ok a => f a | Stuck => Stuck | NoFuel => NoFuel end.
Definition of_opt {A} (o : option A) : res A := match o with Some a => Ok a | None => Stuck end.
Notation "'rlet' x := r 'in' e" := (rbind r (fun x => e)) (at level 200, x name, right associativity) : exyde_scope.
Open Scope exyde_scope.

Section process.
Context {H : Type} `{VmHeap H}.

Record kst := MkKst {
  k_heap : H;
  k_spaces : gmap Z vmm_space;
  k_chans : gmap Z channel_t;
  k_procs : gmap Z process_t;
  proc_list_head : Z }.

Definition set_heap (k : kst) (h : H) : kst := MkKst h (k_spaces k) (k_chans k) (k_procs k) (proc_list_head k).
Definition set_procs (k : kst) (m : gmap Z process_t) : kst := MkKst (k_heap k) (k_spaces k) (k_chans k) m (proc_list_head k).
Definition set_head (k : kst) (a : Z) : kst := MkKst (k_heap k) (k_spaces k) (k_chans k) (k_procs k) a.

(** [channel_destroy] and [vmm_space_unref] on the object at an address. *)
Definition destroy_chan (a : Z) (k : kst) : res kst :=
  if a =? 0 then Ok k
  else
    match k_chans k !! a with
    | None => Stuck
    | Some c =>
      rlet h := of_opt (channel_destroy a c (k_heap k)) in
      Ok (MkKst h (k_spaces k) (delete a (k_chans k)) (k_procs k) (proc_list_head k))
    end.

Definition unref_space (a : Z) (k : kst) : res kst :=
  if a =? 0 then Ok k
  else
    match k_spaces k !! a with
    | None => Stuck
    | Some s =>
      rlet oh := of_opt (vmm_space_unref a s (k_heap k)) in
      let '(o, h) := oh in
      Ok (MkKst h (match o with Some s' => <[a := s']> (k_spaces k) | None => delete a (k_spaces k) end)
            (k_chans k) (k_procs k) (proc_list_head k))
    end.

Definition kfree (a : Z) (k : kst) : res kst := rlet h := of_opt (exy_free a (k_heap k)) in Ok (set_heap k h).

(** [pp] walks the links: [prev] is the process whose [list_next] it points to,
    0 when it points to [proc_list_head]. *)
Fixpoint unlink_loop (fuel : nat) (p prev a : Z) (k : kst) : kst :=
  match fuel with
  | O => k
  | S fuel =>
    if a =? 0 then k
    else
      match k_procs k !! a with
      | None => k
      | Some q =>
        if a =? p then
          if prev =? 0 then set_head k (list_next q)
          else set_procs k (alter (set_list_next (list_next q)) prev (k_procs k))
        else unlink_loop fuel p a (list_next q) k
      end
  end.

Definition unlink (p : Z) (k : kst) : kst := unlink_loop (S (size (k_procs k))) p 0 (proc_list_head k) k.

Definition process_ref (p : Z) (k : kst) : kst :=
  if p =? 0 then k else set_procs k (alter (fun q => set_refcount (u32 (p_refcount q + 1)) q) p (k_procs k)).

(** The release callback of every table, [handle_release], given the
    [process_unref] it calls. *)
Definition handle_release (unref : Z -> kst -> res kst) (kd obj : Z) (w : res kst) : res kst :=
  rlet k := w in
  if kd =? HANDLE_KIND_CHANNEL then destroy_chan obj k
  else if kd =? HANDLE_KIND_PROCESS then unref obj k
  else Ok k.

Definition process_destroy (unref : Z -> kst -> res kst) (p : Z) (k : kst) : res kst :=
  if p =? 0 then Ok k
  else
    match k_procs k !! p with
    | None => Stuck
    | Some q =>
      let '(_, w) := handle_table_destroy (Some (handle_release unref)) (p_handles q) (Ok (unlink p k)) in
      rlet k1 := w in
      rlet k2 := unref_space (p_space q) k1 in
      rlet k3 := if p_name q =? 0 then Ok k2 else kfree (p_name q) k2 in
      rlet k4 := kfree p k3 in
      Ok (set_procs k4 (delete p (k_procs k4)))
    end.

Fixpoint process_unref (fuel : nat) (p : Z) (k : kst) : res kst :=
  match fuel with
  | O => NoFuel
  | S fuel =>
    if p =? 0 then Ok k
    else
      match k_procs k !! p with
      | None => Stuck
      | Some q =>
        if p_refcount q =? 0 then Ok k
        else
          let k1 := set_procs k (<[p := set_refcount (u32 (p_refcount q - 1)) q]> (k_procs k)) in
          if u32 (p_refcount q - 1) =? 0 then process_destroy (process_unref fuel) p k1 else Ok k1
      end
  end.

(** [free_thread] of [sched.c] for the thread [t] at address [a]. *)
Definition free_thread (fuel : nat) (a : Z) (t : thread) (k : kst) : res kst :=
  rlet k1 :=
    if t_process t =? 0 then Ok k
    else
      match k_procs k !! t_process t with
      | None => Stuck
      | Some p => if main_thread p =? a then process_unref fuel (t_process t) k else Ok k
      end in
  rlet k2 := if t_space t =? 0 then Ok k1 else unref_space (t_space t) k1 in
  rlet k3 := if t_stack_base t =? 0 then Ok k2 else kfree (t_stack_base t) k2 in
  kfree a k3.
End process.
Arguments kst H : clear implicits.

(** ** The invariant of the process list

    [D] holds the processes being destroyed: off the list, not yet freed. *)
Section inv.
Context {H : Type} `{VmHeap H}.
Implicit Types (k : kst H) (D : gset Z).

Record pinv (D : gset Z) (k : kst H) : Prop := {
  pi_zero : k_procs k !! 0 = None;
  pi_ref x q : k_procs k !! x = Some q -> 0 <= p_refcount q < 2 ^ 32 /\ (x ∈ D -> p_refcount q = 0);
  pi_list : exists l, linked list_next (k_procs k) (proc_list_head k) l /\ NoDup l /\
    forall x, x ∈ l <-> x ∉ D /\ is_Some (k_procs k !! x) }.

(** Processes that can still be destroyed by dropping references. *)
Definition live_refs (k : kst H) : nat := size (filter (fun kv => p_refcount kv.2 <> 0) (k_procs k)).

(** What dropping references may do to the processes: remove some, lower
    counts, relink the list; the rest of a process stays. *)
Definition norm_proc (p : process_t) : process_t := set_list_next 0 (set_refcount 0 p).
Record evolves (D : gset Z) (k k' : kst H) : Prop := {
  ev_back x q' : k_procs k' !! x = Some q' ->
    exists q, k_procs k !! x = Some q /\ norm_proc q' = norm_proc q /\ p_refcount q' <= p_refcount q;
  ev_keep x : x ∈ D -> is_Some (k_procs k !! x) -> is_Some (k_procs k' !! x) }.

Lemma evolves_refl D k : evolves D k k.
Proof. split; [|done]. intros x q E. by exists q. Qed.

Lemma evolves_trans D k1 k2 k3 : evolves D k1 k2 -> evolves D k2 k3 -> evolves D k1 k3.
Proof.
  intros [A1 A2] [B1 B2]. split; [|auto]. intros x q3 E3. destruct (B1 x q3 E3) as (q2 & E2 & N2 & R2).
  destruct (A1 x q2 E2) as (q1 & E1 & N1 & R1). exists q1. split; [done|]. split; [congruence|lia].
Qed.

Lemma evolves_mono D D' k k' : D ⊆ D' -> evolves D' k k' -> evolves D k k'.
Proof. intros Hs [A B]. split; [done|]. set_solver. Qed.

Lemma live_refs_mono D k k' : pinv D k' -> evolves D k k' -> (live_refs k' <= live_refs k)%nat.
Proof.
  intros I E. unfold live_refs. rewrite <- !size_dom. apply subseteq_size. intros x Hx.
  apply elem_of_dom in Hx as [q' Hx]. apply map_lookup_filter_Some in Hx as [Hx Hr]. simpl in Hr.
  destruct (ev_back _ _ _ E x q' Hx) as (q & Eq & _ & Hle). apply elem_of_dom. exists q.
  apply map_lookup_filter_Some. split; [done|]. simpl. destruct (pi_ref _ _ I x q' Hx). lia.
Qed.

(** Steps that leave the processes alone. *)
Definition same_procs (k k' : kst H) : Prop := k_procs k' = k_procs k /\ proc_list_head k' = proc_list_head k.

Lemma pinv_same D k k' : same_procs k k' -> pinv D k -> pinv D k'.
Proof. intros [E1 E2] [A B C]. split; rewrite E1; [done|done|by rewrite E2]. Qed.

Lemma evolves_same D k k' : same_procs k k' -> evolves D k k'.
Proof. intros [E1 _]. split; rewrite E1; [|done]. intros x q E. by exists q. Qed.

Definition keeps (r : res (kst H)) (k : kst H) : Prop :=
  match r with Ok k' => same_procs k k' | Stuck => True | NoFuel => False end.

Lemma destroy_chan_keeps a k : keeps (destroy_chan a k) k.
Proof. unfold destroy_chan. repeat (case_match || zif; simpl); try done. by destruct (channel_destroy _ _ _). Qed.

Lemma unref_space_keeps a k : keeps (unref_space a k) k.
Proof. unfold unref_space. zif; [done|]. destruct (k_spaces k !! a); [|done]. by destruct (vmm_space_unref _ _ _) as [[]|]. Qed.

Lemma kfree_keeps a k : keeps (kfree a k) k.
Proof. unfold kfree. by destruct (exy_free _ _). Qed.

Lemma keeps_bind r k f :
  keeps r k -> (forall k', same_procs k k' -> keeps (f k') k') -> keeps (rbind r f) k.
Proof.
  destruct r as [k'| |]; simpl; try done. intros E Hf. specialize (Hf k' E). destruct (f k') as [k''| |]; simpl in *; try done.
  destruct E as [E1 E2], Hf as [F1 F2]. split; congruence.
Qed.

(** ** Unlinking *)

Lemma linked_cut (m : gmap Z process_t) h l1 y p l2 q :
  linked list_next m h (l1 ++ y :: p :: l2) -> NoDup (l1 ++ y :: p :: l2) -> m !! p = Some q ->
  linked list_next (alter (set_list_next (list_next q)) y m) h (l1 ++ y :: l2).
Proof.
  intros L D Ep. revert h L D. induction l1 as [|x l1 IH]; intros h L D; simpl in *.
  - destruct L as (-> & Hy & n & En & _ & Hp & q' & Eq & L). assert (q' = q) as -> by congruence.
    split; [done|]. split; [done|]. exists (set_list_next (list_next q) n). rewrite lookup_alter_eq, En. split; [done|].
    simpl. apply (linked_ext _ m); [done|]. intros z Hz. rewrite lookup_alter_ne; [done|]. intros ->.
    apply NoDup_cons in D as [D _]. apply D. by right.
  - destruct L as (-> & Hx & n & En & L). apply NoDup_cons in D as [Dx D]. split; [done|]. split; [done|].
    exists n. rewrite lookup_alter_ne; [split; [done|by apply IH]|]. intros ->. apply Dx. set_solver.
Qed.

Lemma unlink_loop_eq fuel p prev a k l1 l2 :
  linked list_next (k_procs k) a (l1 ++ p :: l2) -> NoDup (l1 ++ p :: l2) -> (length l1 < fuel)%nat ->
  exists q, k_procs k !! p = Some q /\ unlink_loop fuel p prev a k =
    let pr := default prev (last l1) in
    if pr =? 0 then set_head k (list_next q)
    else set_procs k (alter (set_list_next (list_next q)) pr (k_procs k)).
Proof.
  revert prev a l1. induction fuel as [|fuel IH]; intros prev a l1 L D Hf; [lia|]. destruct l1 as [|x l1]; simpl in L.
  - destruct L as (-> & Hp & q & Eq & _). exists q. split; [done|]. simpl.
    rewrite (proj2 (Z.eqb_neq p 0) Hp), Eq, Z.eqb_refl. done.
  - destruct L as (-> & Hx & n & En & L). apply NoDup_cons in D as [Dx D].
    destruct (IH x (list_next n) l1 L D) as (q & Eq & Eu); [simpl in Hf; lia|]. exists q. split; [done|]. simpl.
    rewrite (proj2 (Z.eqb_neq x 0) Hx), En. replace (x =? p) with false by (symmetry; apply Z.eqb_neq; set_solver).
    rewrite Eu. cbv zeta. replace (default x (last l1)) with (default prev (last (x :: l1))); [done|].
    rewrite last_cons. by destruct (last l1).
Qed.

Lemma unlink_spec D p k q :
  pinv D k -> k_procs k !! p = Some q -> p ∉ D -> p_refcount q = 0 ->
  pinv ({[p]} ∪ D) (unlink p k) /\ evolves ({[p]} ∪ D) k (unlink p k) /\ evolves ({[p]} ∪ D) (unlink p k) k.
Proof.
  intros [Hz Hr (l & L & Dl & El)] Ep HpD Hr0. assert (p ∈ l) as Hin by (apply El; by rewrite Ep).
  apply list_elem_of_split in Hin as (l1 & l2 & ->).
  assert (length l1 < S (size (k_procs k)))%nat as Hf.
  { rewrite <- size_dom.
    enough (length l1 < size (list_to_set (C := gset Z) (l1 ++ p :: l2)) <= size (dom (k_procs k)))%nat by lia. split.
    - rewrite size_list_to_set by done. rewrite length_app. simpl. lia.
    - apply subseteq_size. intros x Hx. apply elem_of_list_to_set, El in Hx as [_ Hx]. by apply elem_of_dom. }
  destruct (unlink_loop_eq _ p 0 _ k l1 l2 L Dl Hf) as (q' & Eq & Eu). assert (q' = q) as -> by congruence.
  fold (unlink p k) in Eu. cbv zeta in Eu.
  assert (linked list_next (k_procs (unlink p k)) (proc_list_head (unlink p k)) (l1 ++ l2) /\
    forall x, exists z, k_procs (unlink p k) !! x = (fun p => set_list_next (default (list_next p) z) p) <$> k_procs k !! x)
    as [L' R'].
  { rewrite Eu. destruct l1 as [|y l1 _] using rev_ind.
    - simpl in *. destruct L as (_ & _ & n & En & L). assert (n = q) as -> by congruence. split; [done|].
      intros x. exists None. simpl. destruct (k_procs k !! x) as [[]|]; done.
    - rewrite last_snoc. simpl. rewrite <- app_assoc in L, Dl. simpl in L, Dl.
      assert (y <> 0) as Hy by (eapply linked_in; [exact L|set_solver]). rewrite (proj2 (Z.eqb_neq y 0) Hy). simpl.
      rewrite <- app_assoc. split; [by eapply linked_cut|]. intros x. destruct (decide (x = y)) as [->|Hne].
      + exists (Some (list_next q)). by rewrite lookup_alter_eq.
      + exists None. rewrite lookup_alter_ne by done. simpl. destruct (k_procs k !! x) as [[]|]; done. }
  assert (forall x, is_Some (k_procs (unlink p k) !! x) <-> is_Some (k_procs k !! x)) as S'
    by (intros x; destruct (R' x) as [z ->]; apply fmap_is_Some).
  split; [split|split; split].
  - destruct (R' 0) as [z ->]. by rewrite Hz.
  - intros x q' Hx. destruct (R' x) as [z Rx]. rewrite Rx in Hx. apply fmap_Some in Hx as (q0 & E0 & ->). simpl.
    destruct (Hr x q0 E0) as [Hr1 Hr2]. split; [done|]. intros [Hxp|Hx]%elem_of_union; [|auto].
    apply elem_of_singleton in Hxp as ->. congruence.
  - exists (l1 ++ l2). split; [done|]. split.
    + rewrite NoDup_app in *. rewrite NoDup_cons in Dl. set_solver.
    + intros x. rewrite S'. specialize (El x). apply NoDup_app in Dl as (_ & Dl1 & Dl2%NoDup_cons). set_solver.
  - intros x q' Hx. destruct (R' x) as [z Rx]. rewrite Rx in Hx. apply fmap_Some in Hx as (q0 & E0 & ->). by exists q0.
  - intros x _ Hx. by apply S'.
  - intros x q' Hx. destruct (R' x) as [z Rx]. rewrite Hx in Rx. simpl in Rx. by eexists.
  - intros x _ Hx. by apply S'.
Qed.

(** ** Dropping references *)

Lemma table_destroy_inv {W} (P : W -> Prop) (release : Z -> Z -> W -> W) t w :
  P w -> (forall kd obj w, P w -> P (release kd obj w)) -> P (snd (handle_table_destroy (Some release) t w)).
Proof.
  intros Hw Hr. unfold handle_table_destroy.
  assert (P (snd (foldl (destroy_step (Some release)) (t, w) (seqZ 0 HANDLE_MAX)))) as Hf.
  { apply (foldl_inv (fun tw => P (snd tw))); [done|]. intros [t' w'] i _ Hw'. unfold destroy_step.
    destruct (used (entry_at t' i)); [|done]. simpl. destruct (owns (entry_at t' i)); auto. }
  by destruct (foldl _ _ _).
Qed.

(** The result of an operation that started in [k0] with [D] being destroyed. *)
Definition progress (D : gset Z) (k0 : kst H) (r : res (kst H)) : Prop :=
  match r with Ok k => pinv D k /\ evolves D k0 k | Stuck => True | NoFuel => False end.

Lemma progress_keeps D k0 k r : pinv D k -> evolves D k0 k -> keeps r k -> progress D k0 r.
Proof.
  intros I E. destruct r as [k'| |]; simpl; try done. intros Hs. split; [by eapply pinv_same|].
  eapply evolves_trans; [done|by apply evolves_same].
Qed.

Lemma progress_bind D k0 r f :
  progress D k0 r -> (forall k, pinv D k -> evolves D k0 k -> keeps (f k) k) -> progress D k0 (rbind r f).
Proof. destruct r as [k| |]; simpl; try done. intros [I E] Hf. by eapply progress_keeps, Hf. Qed.

(** The destruction of [p], whose count has just reached 0. *)
Lemma process_destroy_spec unref D p k q :
  pinv D k -> k_procs k !! p = Some q -> p ∉ D -> p_refcount q = 0 ->
  (forall a k', pinv ({[p]} ∪ D) k' -> evolves ({[p]} ∪ D) k k' -> progress ({[p]} ∪ D) k' (unref a k')) ->
  match process_destroy unref p k with
  | Ok k' => pinv D k' /\ evolves D k k' /\ k_procs k' !! p = None
  | Stuck => True
  | NoFuel => False
  end.
Proof.
  intros I Ep HD Hr0 Hun. unfold process_destroy.
  assert (p <> 0) as Hp by (intros ->; rewrite (pi_zero _ _ I) in Ep; done).
  rewrite (proj2 (Z.eqb_neq p 0) Hp), Ep. destruct (unlink_spec D p k q I Ep HD Hr0) as (I1 & E1 & _).
  pose proof (table_destroy_inv (progress ({[p]} ∪ D) k) (handle_release unref) (p_handles q) (Ok (unlink p k))) as T.
  destruct (handle_table_destroy _ _ _) as [t w]. simpl in T. specialize (T (conj I1 E1)).
  assert (progress ({[p]} ∪ D) k w) as Pw.
  { apply T. clear T t w. intros kd obj w Pw. destruct w as [k'| |]; simpl in *; try done. destruct Pw as [I' E'].
    destruct (kd =? HANDLE_KIND_CHANNEL); [eapply progress_keeps; [done..|apply destroy_chan_keeps]|].
    destruct (kd =? HANDLE_KIND_PROCESS); [|done].
    specialize (Hun obj k' I' E'). destruct (unref obj k') as [k''| |]; simpl in *; try done.
    destruct Hun as [I'' E'']. split; [done|]. by eapply evolves_trans. }
  clear T. eapply (progress_bind _ _ _ (unref_space (p_space q))) in Pw; [|intros; apply unref_space_keeps].
  destruct w as [k1| |]; simpl in Pw |- *; try done. destruct (unref_space (p_space q) k1) as [k2| |]; simpl in Pw |- *; try done.
  destruct Pw as [I2 E2].
  assert (progress ({[p]} ∪ D) k (if p_name q =? 0 then Ok k2 else kfree (p_name q) k2)) as P3
    by (eapply progress_keeps; [done..|]; destruct (p_name q =? 0); [done|apply kfree_keeps]).
  apply (progress_bind _ _ _ (kfree p)) in P3; [|intros; apply kfree_keeps].
  destruct (if p_name q =? 0 then _ else _) as [k3| |]; simpl in P3 |- *; try done.
  destruct (kfree p k3) as [k4| |]; simpl in P3 |- *; try done. destruct P3 as [I4 E4].
  destruct I4 as [Hz4 Hr4 (l & L4 & D4 & El4)]. split; [split|split; [split|]]; cbn [k_procs proc_list_head set_procs].
  - rewrite lookup_delete_ne by done. done.
  - intros x q' Hx. apply lookup_delete_Some in Hx as [Hne Hx]. destruct (Hr4 x q' Hx) as [? Hd]. set_solver.
  - exists l. split; [|split; [done|]].
    + apply (linked_ext _ (k_procs k4)); [done|]. intros x Hx. rewrite lookup_delete_ne; [done|].
      intros ->. apply El4 in Hx. set_solver.
    + intros x. rewrite El4. destruct (decide (x = p)) as [->|Hne].
      * rewrite lookup_delete_eq. split; [set_solver|]. intros [_ [? ?]]. done.
      * rewrite lookup_delete_ne by done. set_solver.
  - intros x q' Hx. apply lookup_delete_Some in Hx as [_ Hx]. by apply (ev_back _ _ _ E4).
  - intros x Hx Hs. rewrite lookup_delete_ne by set_solver. apply (ev_keep _ _ _ E4); [set_solver|done].
  - apply lookup_delete_eq.
Qed.

(** The decrement itself. *)
Lemma dec_spec D p k q n :
  pinv D k -> k_procs k !! p = Some q -> p ∉ D -> 0 <= n < p_refcount q ->
  let k1 := set_procs k (<[p := set_refcount n q]> (k_procs k)) in
  pinv D k1 /\ evolves D k k1 /\ (n = 0 -> S (live_refs k1) = live_refs k).
Proof.
  intros I Ep HD Hn. destruct I as [Hz Hr (l & L & Dl & El)]. cbv zeta.
  destruct (Hr p q Ep) as [Hq _]. split; [|split; [|intros ->]].
  - split; cbn [k_procs proc_list_head set_procs].
    + rewrite lookup_insert_ne; [done|]. intros ->. congruence.
    + intros x q' Hx. apply lookup_insert_Some in Hx as [[-> <-]|[Hne Hx]]; [|eauto]. simpl. split; [lia|done].
    + exists l. split; [|split; [done|]].
      * apply (linked_ext _ (k_procs k)); [done|]. intros x Hx. destruct (decide (x = p)) as [->|Hne].
        -- by rewrite lookup_insert_eq, Ep.
        -- by rewrite lookup_insert_ne.
      * intros x. rewrite El, lookup_insert_is_Some. destruct (decide (p = x)) as [->|]; [|naive_solver].
        rewrite Ep. naive_solver.
  - split; cbn [k_procs set_procs].
    + intros x q' Hx. apply lookup_insert_Some in Hx as [[<- <-]|[Hne Hx]]; [|by exists q'].
      exists q. split; [done|]. split; [done|]. simpl. lia.
    + intros x _ Hx. apply lookup_insert_is_Some. destruct (decide (p = x)); auto.
  - unfold live_refs. cbn [k_procs set_procs]. rewrite map_filter_insert_False by (simpl; lia). rewrite map_filter_delete.
    set (f := filter _ (k_procs k)). assert (f !! p = Some q) as Ef by (apply map_lookup_filter_Some; simpl; split; [done|lia]).
    rewrite map_size_delete_Some by done. assert (size f <> 0%nat) by (apply map_size_non_empty_iff; intros E0; by rewrite E0 in Ef).
    lia.
Qed.

(** Enough fuel for the nested destructions is one more than the processes
    with references. *)
Lemma process_unref_spec fuel D p k :
  pinv D k -> (live_refs k < fuel)%nat ->
  match process_unref fuel p k with
  | Ok k' => pinv D k' /\ evolves D k k' /\
      (forall q, k_procs k !! p = Some q -> p_refcount q = 1 -> k_procs k' !! p = None) /\
      (forall q, k_procs k !! p = Some q -> p_refcount q <> 1 ->
         k' = set_procs k (<[p := set_refcount (Z.max 0 (p_refcount q - 1)) q]> (k_procs k)))
  | Stuck => True
  | NoFuel => False
  end.
Proof.
  revert D p k. induction fuel as [|fuel IH]; intros D p k I Hf; [lia|]. cbn [process_unref].
  destruct (Z.eqb_spec p 0) as [->|Hp].
  { split; [done|]. split; [apply evolves_refl|]. rewrite (pi_zero _ _ I). done. }
  destruct (k_procs k !! p) as [q|] eqn:Ep; [|done]. destruct (pi_ref _ _ I p q Ep) as [Hq HD].
  destruct (Z.eqb_spec (p_refcount q) 0) as [Hz0|Hz0].
  { split; [done|]. split; [apply evolves_refl|]. split; [intros q' [= <-]; lia|]. intros q' [= <-] _.
    rewrite Hz0. replace (set_refcount (Z.max 0 (0 - 1)) q) with q by (destruct q; simpl in *; by subst).
    rewrite insert_id by done. by destruct k. }
  assert (p ∉ D) as HpD by (intros Hx; auto). rewrite u32_small by lia.
  destruct (dec_spec D p k q (p_refcount q - 1) I Ep HpD ltac:(lia)) as (I1 & E1 & L1).
  set (k1 := set_procs k _) in *. destruct (Z.eqb_spec (p_refcount q - 1) 0) as [Hz1|Hz1].
  - assert (k_procs k1 !! p = Some (set_refcount (p_refcount q - 1) q)) as Ep1 by apply lookup_insert_eq.
    pose proof (process_destroy_spec (process_unref fuel) D p k1 _ I1 Ep1 HpD Hz1) as P.
    destruct (process_destroy _ p k1) as [k'| |]; [|done|]; destruct P as (I' & E' & Hn) || destruct P.
    1,3: intros a k2 I2 E2; assert (live_refs k2 < fuel)%nat as Hf2
      by (pose proof (live_refs_mono _ _ _ I2 E2); specialize (L1 Hz1); lia);
      specialize (IH _ a k2 I2 Hf2); destruct (process_unref fuel a k2); simpl in *; naive_solver.
    split; [done|]. split; [by eapply evolves_trans|]. split; [done|]. intros q' [= <-] Hne. lia.
  - split; [done|]. split; [done|]. split; [intros q' [= <-]; lia|]. intros q' [= <-] _.
    unfold k1. by rewrite Z.max_r by lia.
Qed.
End inv.

(** ** The snapshot *)

Definition copied (s : list Z) : Z := Z.min (PROC_NAME_SIZE - 1) (zlen s).

Lemma zget_cstring s i : 0 ∉ s -> 0 <= i <= zlen s -> zget 0 (s ++ [0]) i = 0 <-> i = zlen s.
Proof.
  intros Hs Hi. unfold zget, zlen in *. split.
  - intros E. destruct (decide (i = Z.of_nat (length s))) as [|Hne]; [done|]. rewrite app_nth1 in E by lia.
    exfalso. apply Hs. rewrite <- E. apply list_elem_of_In, nth_In. lia.
  - intros ->. rewrite app_nth2 by lia. by rewrite Nat2Z.id, Nat.sub_diag.
Qed.

Lemma name_loop_spec fuel s i dst :
  0 ∉ s -> 0 <= i <= copied s -> copied s - i < Z.of_nat fuel -> zlen dst = PROC_NAME_SIZE ->
  exists dst', name_loop fuel (s ++ [0]) i dst = (copied s, dst') /\ zlen dst' = PROC_NAME_SIZE /\
    forall j, 0 <= j -> zget 0 dst' j = if (i <=? j) && (j <? copied s) then zget 0 s j else zget 0 dst j.
Proof.
  intros Hs. revert i dst. induction fuel as [|fuel IH]; intros i dst Hi Hf Hd; [lia|]. cbn [name_loop].
  pose proof (zget_cstring s i Hs) as Hc. unfold copied in *. unfold PROC_NAME_SIZE in *. zif.
  - assert (i < zlen s) by (destruct (decide (i = zlen s)) as [E|]; [apply Hc in E; [done|lia]|lia]).
    destruct (IH (i + 1) (zset dst i (zget 0 (s ++ [0]) i))) as (dst' & E & L & G); [lia|lia|by rewrite zlen_zset|].
    exists dst'. split; [done|]. split; [done|]. intros j Hj. rewrite G by done. rewrite zget_zset by lia.
    rewrite zget_app_l by lia.
    destruct (Z.leb_spec i j), (Z.leb_spec (i + 1) j), (Z.ltb_spec j (Z.min (32 - 1) (zlen s))), (Z.eqb_spec i j); subst; simpl; done || lia.
  - assert (i = Z.min (32 - 1) (zlen s)) as ->.
    { apply andb_false_iff in Heqb as [?|?]; zb; [lia|]. assert (i = zlen s) by (apply Hc; [lia|done]). lia. }
    exists dst. split; [done|]. split; [done|]. intros j Hj. by zif; [lia|].
Qed.

(** The record written for process [p] over an array slot that held [old]. *)
Definition info_of (p : process_t) (old new : process_info_t) : Prop :=
  pi_pid new = pid p /\ pi_state new = (if exited p =? 0 then 0 else 1) /\ pi_pad new = 0 /\
  zlen (pi_name new) = PROC_NAME_SIZE /\
  exists s, p_name_bytes p = s ++ [0] /\ 0 ∉ s /\
    forall j, 0 <= j < PROC_NAME_SIZE -> zget 0 (pi_name new) j =
      if j <? copied s then zget 0 s j else if j =? copied s then 0 else zget 0 (pi_name old) j.

Lemma fill_info_spec p old s :
  p_name p <> 0 -> p_name_bytes p = s ++ [0] -> 0 ∉ s -> zlen (pi_name old) = PROC_NAME_SIZE ->
  info_of p old (fill_info p old).
Proof.
  intros Hn Hb Hs Ho. unfold fill_info. rewrite (proj2 (Z.eqb_neq _ 0) Hn), Hb.
  pose proof (zlen_nonneg s).
  destruct (name_loop_spec (Z.to_nat PROC_NAME_SIZE) s 0 (pi_name old) Hs) as (d & -> & L & G);
    [unfold copied, PROC_NAME_SIZE; lia|unfold copied, PROC_NAME_SIZE; lia|done|].
  split; [done|]. split; [done|]. split; [done|]. split; [by cbn [pi_name]; rewrite zlen_zset|].
  exists s. split; [done|]. split; [done|]. intros j Hj. cbn [pi_name].
  rewrite zget_zset by (rewrite ?L; unfold copied, PROC_NAME_SIZE in *; lia). rewrite G by lia.
  destruct (Z.leb_spec 0 j), (Z.ltb_spec j (copied s)), (Z.eqb_spec (copied s) j), (Z.eqb_spec j (copied s)); simpl; done || lia.
Qed.

Definition no_info : process_info_t := MkInfo 0 0 0 [].

Definition named (procs : gmap Z process_t) (x : Z) : Prop :=
  exists p s, procs !! x = Some p /\ p_name p <> 0 /\ p_name_bytes p = s ++ [0] /\ 0 ∉ s.

Lemma collect_loop_spec fuel procs a l n out :
  linked list_next procs a l -> Forall (named procs) l -> 0 <= n -> n + Z.of_nat fuel <= zlen out ->
  (forall i, 0 <= i < zlen out -> zlen (pi_name (zget no_info out i)) = PROC_NAME_SIZE) ->
  let w := Z.min (Z.of_nat fuel) (zlen l) in
  exists out', collect_loop fuel procs a n out = (n + w, out') /\ zlen out' = zlen out /\
    (forall i, 0 <= i < zlen out -> ~ (n <= i < n + w) -> zget no_info out' i = zget no_info out i) /\
    forall i, 0 <= i < w -> exists p, procs !! zget 0 l i = Some p /\
      info_of p (zget no_info out (n + i)) (zget no_info out' (n + i)).
Proof.
  revert a l n out. induction fuel as [|fuel IH]; intros a l n out L F Hn Hf Ho; cbv zeta; cbn [collect_loop].
  { exists out. rewrite Z.min_l by (pose proof (zlen_nonneg l); lia). split; [f_equal; lia|]. split; [done|]. split; [done|lia]. }
  destruct l as [|x l]; simpl in L.
  { subst a. exists out. change (zlen (@nil Z)) with 0. rewrite Z.min_r by lia. split; [by rewrite Z.add_0_r|].
    split; [done|]. split; [done|]. intros; lia. }
  destruct L as (-> & Hx & q & Eq & L). apply Forall_cons in F as [(q' & s & Eq' & Hnm & Hb & Hs) F].
  assert (q' = q) as -> by congruence. rewrite (proj2 (Z.eqb_neq x 0) Hx), Eq. fold no_info.
  set (new := fill_info q (zget no_info out n)).
  assert (info_of q (zget no_info out n) new) as Hi by (apply (fill_info_spec q _ s Hnm Hb Hs), Ho; lia).
  destruct (IH (list_next q) l (n + 1) (zset out n new) L F) as (out' & E & Lo & Hsame & Hnew); [lia|rewrite zlen_zset; lia| |].
  { intros i. rewrite zlen_zset. intros Hr. rewrite zget_zset by lia. destruct (Z.eqb_spec n i); [|by apply Ho].
    by destruct Hi as (_ & _ & _ & ? & _). }
  rewrite zlen_zset in *. assert (zlen (x :: l) = zlen l + 1) as El by (unfold zlen; simpl; lia).
  pose proof (zlen_nonneg l). exists out'. split; [rewrite E; f_equal; lia|]. split; [done|]. split.
  - intros i Hir Hni. rewrite Hsame by lia. rewrite zget_zset_ne; [done|lia..].
  - intros i Hir. destruct (decide (i = 0)) as [->|Hi0].
    + exists q. split; [done|]. rewrite Z.add_0_r. rewrite Hsame by lia. by rewrite zget_zset_eq by lia.
    + destruct (Hnew (i - 1)) as (p & Ep & Hp); [lia|]. exists p. replace (zget 0 (x :: l) i) with (zget 0 l (i - 1)).
      * split; [done|]. replace (n + 1 + (i - 1)) with (n + i) in Hp by lia. rewrite zget_zset_ne in Hp by lia. done.
      * unfold zget. replace (Z.to_nat i) with (S (Z.to_nat (i - 1))) by lia. done.
Qed.

(** ** Properties *)

(** [process_exit] records the exit code of the first call only, wakes every
    thread blocked in [SYS_WAIT] on the process in the order it waited, and
    leaves no waiter behind; a second call changes nothing. *)
Theorem process_exit_correct (p : process_t) (code code2 : Z) (s : sched) (rl zl wl : list Z) :
  sched_inv s rl zl -> blocked_on s (p_waiters p) wl -> exited p = 0 ->
  exists p' s', process_exit p code s = (p', s') /\ exited p' = 1 /\ exit_code p' = code /\
    sched_inv s' (rl ++ wl) zl /\ current s' = current s /\ waitq_empty (p_waiters p') = true /\
    process_exit p' code2 s' = (p', s').
Proof.
  intros I B He. unfold process_exit at 1. rewrite He. simpl negb. cbv iota.
  destruct (broadcast_loop_spec (S (size (threads s))) _ _ _ _ _ I B) as (q & s' & -> & I' & B' & Hc).
  { pose proof (qrep_length _ _ _ _ (bo_rep _ _ _ B)). lia. }
  eexists _, _. split; [done|]. split; [done|]. split; [done|]. split; [done|]. split; [done|]. split; [|done].
  unfold waitq_empty. simpl. by rewrite (qrep_head _ _ _ _ (bo_rep _ _ _ B')).
Qed.

Definition demo_proc (id sp ref : Z) (t : handle_table_t) (nx : Z) : process_t :=
  MkProc id 0x900 [105; 110; 105; 116; 0] sp USER_VA_BASE 0 t 0 USER_VA_BASE ref 0 0 HANDLE_INVALID waitq_init nx.

(** The running thread waits for a process, which then exits with code 7. *)
Lemma process_exit_correct_witness :
  exists q1 s1 p2 s2, wait_on waitq_init demo_sched = Some (q1, s1) /\
    process_exit (set_exit 0 0 q1 (demo_proc 1 0 1 handle_table_init 0)) 7 s1 = (p2, s2) /\
    exit_code p2 = 7 /\ exists zl, sched_inv s2 [32; 8] zl.
Proof.
  destruct (wait_on_spec demo_sched [16; 32] [] waitq_init [] demo_sched_inv) as (q1 & s1 & zl' & E & I & Hz & B & _).
  { apply blocked_on_nil. }
  destruct (process_exit_correct (set_exit 0 0 q1 (demo_proc 1 0 1 handle_table_init 0)) 7 8 s1 [32] zl' [8] I B eq_refl)
    as (p2 & s2 & E2 & _ & H2 & I2 & _).
  exists q1, s1, p2, s2. split; [done|]. split; [done|]. split; [done|].
  exists zl'. exact I2.
Defined.

(** C22: dropping a reference always terminates, however the processes hold
    handles on each other: a depth of one more than the processes with
    references is never exceeded.  It keeps the process list exactly the live
    processes; with more than one reference only the count changes, and with
    the last one the process is gone, and processes left over have only lost
    references. *)
Theorem process_unref_correct {H : Type} `{VmHeap H} (fuel : nat) (p : Z) (k : kst H) :
  pinv ∅ k -> (live_refs k < fuel)%nat ->
  process_unref fuel p k <> NoFuel /\
  forall k', process_unref fuel p k = Ok k' ->
    pinv ∅ k' /\
    (forall x q', k_procs k' !! x = Some q' ->
       exists q, k_procs k !! x = Some q /\ norm_proc q' = norm_proc q /\ p_refcount q' <= p_refcount q) /\
    (forall q, k_procs k !! p = Some q -> p_refcount q = 1 -> k_procs k' !! p = None) /\
    (forall q, k_procs k !! p = Some q -> p_refcount q <> 1 ->
       k' = set_procs k (<[p := set_refcount (Z.max 0 (p_refcount q - 1)) q]> (k_procs k))).
Proof.
  intros I Hf. pose proof (process_unref_spec fuel ∅ p k I Hf) as P.
  destruct (process_unref fuel p k) as [k1| |]; [|done..]. split; [done|]. intros k' [= <-].
  destruct P as (I' & E' & P). split; [done|]. split; [apply E'|done].
Qed.

(** Two processes that own handles on each other. *)
Definition demo_cycle : kst (bump.bump * vm) :=
  let tab x := snd (handle_create handle_table_init HANDLE_KIND_PROCESS HANDLE_RIGHT_READ x) in
  MkKst (bump.MkBump 0x10000 ∅, demo_vm) {[ 0x500 := kernel_space demo_K ]} ∅
    (<[0x1000 := demo_proc 2 0x500 1 (tab 0x2000) 0x2000]> (<[0x2000 := demo_proc 1 0x500 1 (tab 0x1000) 0]> ∅)) 0x1000.

Lemma demo_cycle_inv : pinv ∅ demo_cycle.
Proof.
  split.
  - done.
  - intros x q. unfold demo_cycle. cbn [k_procs]. rewrite !lookup_insert.
    repeat case_decide; [intros [= <-]; done..|]. by rewrite lookup_empty.
  - exists [0x1000; 0x2000]. split; [|split].
    + simpl. split; [done|]. split; [done|]. eexists. split; [reflexivity|]. split; [done|]. split; [done|].
      eexists. split; [reflexivity|done].
    + repeat constructor; set_solver.
    + intros x. unfold demo_cycle. cbn [k_procs]. rewrite !lookup_insert_is_Some, lookup_empty, is_Some_alt.
      rewrite !elem_of_cons, elem_of_nil. destruct (decide (0x1000 = x)), (decide (0x2000 = x)); set_solver.
Qed.

(** Dropping the last reference of one destroys both. *)
Lemma process_unref_correct_witness :
  exists k', process_unref 3 0x1000 demo_cycle = Ok k' /\ k_procs k' = ∅ /\ pinv ∅ k'.
Proof.
  destruct (process_unref_correct 3 0x1000 demo_cycle demo_cycle_inv) as [_ Hok].
  { vm_compute. lia. }
  assert (match process_unref 3 0x1000 demo_cycle with Ok k' => k_procs k' = ∅ | _ => False end) as E
    by (vm_compute; reflexivity).
  destruct (process_unref 3 0x1000 demo_cycle) as [k'| |]; [|destruct E..]. exists k'. split; [done|]. split; [done|].
  by apply Hok.
Defined.

(** [process_collect] fills one record per process, newest first, as many as
    fit: the name is cut at 31 bytes and terminated; the records past the count
    are not touched, and neither are the bytes of a record past the terminator,
    which keep what the caller's buffer held. *)
Theorem process_collect_correct (procs : gmap Z process_t) (head max : Z) (l : list Z) (out : list process_info_t) :
  linked list_next procs head l -> Forall (named procs) l -> 0 <= max <= zlen out ->
  (forall i, 0 <= i < zlen out -> zlen (pi_name (zget no_info out i)) = PROC_NAME_SIZE) ->
  exists out', process_collect procs head (Some out) max = (Z.min max (zlen l), Some out') /\
    zlen out' = zlen out /\
    (forall i, Z.min max (zlen l) <= i < zlen out -> zget no_info out' i = zget no_info out i) /\
    forall i, 0 <= i < Z.min max (zlen l) -> exists p, procs !! zget 0 l i = Some p /\
      info_of p (zget no_info out i) (zget no_info out' i).
Proof.
  intros L F Hm Ho. unfold process_collect. pose proof (zlen_nonneg l). destruct (Z.eqb_spec max 0) as [->|Hne].
  { exists out. rewrite Z.min_l by lia. split; [done|]. split; [done|]. split; [done|]. intros; lia. }
  destruct (collect_loop_spec (Z.to_nat max) procs head l 0 out L F) as (out' & E & Lo & Hs & Hn); [lia|lia|done|].
  rewrite E. rewrite Z2Nat.id in * by lia. exists out'. split; [done|]. split; [done|].
  split; [intros i Hi; apply Hs; lia|]. intros i Hi. by apply (Hn i).
Qed.

Lemma process_collect_correct_witness :
  exists out', process_collect (k_procs demo_cycle) 0x1000 (Some (replicate 4 (MkInfo 0 0 0 (replicate 32 255)))) 4 =
      (2, Some out') /\
    pi_pid (zget no_info out' 0) = 2 /\ pi_pid (zget no_info out' 1) = 1 /\
    zget no_info out' 2 = MkInfo 0 0 0 (replicate 32 255).
Proof.
  destruct (process_collect_correct (k_procs demo_cycle) 0x1000 4 [0x1000; 0x2000]
    (replicate 4 (MkInfo 0 0 0 (replicate 32 255)))) as (out' & E & _ & Hs & Hn).
  - split; [done|]. split; [done|]. eexists. split; [reflexivity|]. split; [done|]. split; [done|].
    eexists. split; [reflexivity|done].
  - repeat constructor; (eexists _, [105; 110; 105; 116]; split; [reflexivity|]; split; [done|]; split; [done|];
      set_solver).
  - done.
  - intros i Hi. unfold zlen in Hi. simpl in Hi. assert (i = 0 \/ i = 1 \/ i = 2 \/ i = 3) as [->|[->|[->| ->]]] by lia; done.
  - exists out'. split; [done|]. destruct (Hn 0) as (p & Ep & Hp & _); [done|]. destruct (Hn 1) as (p1 & Ep1 & Hp1 & _); [done|].
    injection Ep as <-. injection Ep1 as <-. split; [done|]. split; [done|]. by apply (Hs 2).
Defined.
