(* ===== verification/UserMem.v ===== *)
(** * User memory: checked copies and the mapping system calls

    [uaccess.c] (the checks before the kernel touches a user address, and the
    byte copies of [uaccess_asm.asm] with their fault recovery), and [SYS_MAP]
    and [SYS_UNMAP] of [syscall.c] with [find_map_va].  All of it runs on the
    page tables of [vmm.c] and the page allocator of [pmm.c]; user bytes live in
    the same physical memory as the tables. *)
From S2P Require Import Prelude Bytes Errno Queue Iface Handle Sched Pmm Vmm Heap Process.

(** ** uaccess.c *)

Definition range_in_user_half (va n : Z) : bool :=
  if n =? 0 then true
  else
    let e := u64 (va + n) in
    if e <? va then false
    else if va <? USER_VA_BASE then false
    else if USER_VA_TOP <? e then false
    else true.

(** [while (page < end)]; [user_range_ok] gives one turn per page and one more. *)
Fixpoint range_loop (fuel : nat) (sp : option vmm_space) (page e : Z) (v : vm) : Z :=
  match fuel with
  | O => - EFAULT
  | S fuel =>
    if page <? e then
      match vmm_query sp page v with
      | None => - EFAULT
      | Some (_, flags) =>
        if negb (has flags VM_USER) then - EFAULT else range_loop fuel sp (u64 (page + PAGE_SIZE)) e v
      end
    else 0
  end.

Definition user_range_ok (sp : option vmm_space) (va n : Z) (v : vm) : Z :=
  if n =? 0 then 0
  else if negb (range_in_user_half va n) then - EFAULT
  else
    let e := u64 (va + n) in
    let page := Z.land va (align_mask 12) in
    range_loop (Z.to_nat ((e - page) / PAGE_SIZE + 2)) sp page e v.

(** A kernel-mode byte access at [va] under the tables of CR3: the physical
    address, or a page fault.  Supervisor writes ignore the write bit, since the
    boot code leaves CR0.WP clear; user pages are never huge. *)
Definition mmu (v : vm) (va : Z) : option Z :=
  (fun e => Z.land e PTE_ADDR_MASK + va mod PAGE_SIZE) <$> leaf (vm_mem v) (vm_cr3 v) (indices va).

(** The loops of [uaccess_asm.asm]; a fault returns through the fixup. *)
Fixpoint uaccess_memcpy_to_user (udst : Z) (ksrc : list Z) (v : vm) : Z * vm :=
  match ksrc with
  | [] => (0, v)
  | b :: ksrc =>
    match mmu v udst with
    | None => (- EFAULT, v)
    | Some pa => uaccess_memcpy_to_user (udst + 1) ksrc (with_mem v (store_byte pa b (vm_mem v)))
    end
  end.

(** The bytes stored at [kdst] before the copy ended or faulted. *)
Fixpoint uaccess_memcpy_from_user (usrc : Z) (n : nat) (v : vm) : Z * list Z :=
  match n with
  | O => (0, [])
  | S n =>
    match mmu v usrc with
    | None => (- EFAULT, [])
    | Some pa =>
      let '(r, l) := uaccess_memcpy_from_user (usrc + 1) n v in
      (r, load_byte (vm_mem v) pa :: l)
    end
  end.

Definition copy_to_user (sp : option vmm_space) (udst : Z) (src : list Z) (v : vm) : Z * vm :=
  let r := user_range_ok sp udst (zlen src) v in
  if r <? 0 then (r, v) else uaccess_memcpy_to_user udst src v.

Definition copy_from_user (sp : option vmm_space) (usrc n : Z) (v : vm) : Z * list Z :=
  let r := user_range_ok sp usrc n v in
  if r <? 0 then (r, []) else uaccess_memcpy_from_user usrc (Z.to_nat n) v.

(** The loop of [strncpy_from_user] from index [i] of [dst], [max - i] turns left. *)
Fixpoint strncpy_loop (fuel : nat) (sp : option vmm_space) (usrc i : Z) (dst : list Z) (v : vm) : option Z * list Z :=
  match fuel with
  | O => (None, dst)
  | S fuel =>
    let va := u64 (usrc + i) in
    if va <? usrc then (Some (- EFAULT), dst)
    else if user_range_ok sp va 1 v <? 0 then (Some (- EFAULT), dst)
    else
      match uaccess_memcpy_from_user va 1 v with
      | (0, [c]) =>
        let dst := zset dst i c in
        if c =? 0 then (Some 0, dst) else strncpy_loop fuel sp usrc (i + 1) dst v
      | _ => (Some (- EFAULT), dst)
      end
  end.

(** [dst] is [None] for a null pointer. *)
Definition strncpy_from_user (sp : option vmm_space) (dst : option (list Z)) (usrc max : Z) (v : vm)
  : Z * option (list Z) :=
  match dst with
  | None => (- EINVAL, None)
  | Some d =>
    if max =? 0 then (- EINVAL, dst)
    else
      match strncpy_loop (Z.to_nat max) sp usrc 0 d v with
      | (Some r, d') => (r, Some d')
      | (None, d') => (- ENAMETOOLONG, Some (zset d' (max - 1) 0))
      end
  end.

(** ** The mapping system calls *)

Definition MAP_MAX_PAGES : Z := 1024.
Definition USER_STACK_TOP_INIT : Z := USER_VA_BASE + 0x01000000.

(** The first page of the run at [cand] that is mapped. *)
Fixpoint collision (n : nat) (sp : option vmm_space) (cand i : Z) (v : vm) : option Z :=
  match n with
  | O => None
  | S n =>
    match vmm_query sp (u64 (cand + u64 (i * PAGE_SIZE))) v with
    | Some _ => Some i
    | None => collision n sp cand (i + 1) v
    end
  end.

Definition page_up (a : Z) : Z := Z.land (u64 (u64 (a + PAGE_SIZE) - 1)) (align_mask 12).

(** Every turn of the [while] moves [cand] up by a page at least. *)
Fixpoint find_loop (fuel : nat) (sp : option vmm_space) (npages cand limit : Z) (v : vm) : Z :=
  match fuel with
  | O => 0
  | S fuel =>
    if cand <=? limit then
      match collision (Z.to_nat npages) sp cand 0 v with
      | None => cand
      | Some i => find_loop fuel sp npages (page_up (u64 (cand + u64 ((i + 1) * PAGE_SIZE)))) limit v
      end
    else 0
  end.

Definition find_map_va (sp : option vmm_space) (next npages : Z) (v : vm) : Z :=
  let bytes := u64 (npages * PAGE_SIZE) in
  if USER_STACK_TOP_INIT <? bytes then 0
  else
    let limit := USER_STACK_TOP_INIT - bytes in
    let cand := page_up next in
    find_loop (Z.to_nat ((limit - cand) / PAGE_SIZE + 2)) sp npages cand limit v.

(** The mapping loop: whether it finished and how many pages it mapped. *)
Fixpoint map_loop (n : nat) (sp : option vmm_space) (base vm_flags i : Z) (v : vm) : bool * Z * vm :=
  match n with
  | O => (true, i, v)
  | S n =>
    let '(pa, p) := pmm_alloc_page (vm_pmm v) in
    let v1 := with_pmm v p in
    if pa =? 0 then (false, i, v1)
    else
      let '(ok, v2) := vmm_map sp (u64 (base + i * PAGE_SIZE)) pa vm_flags v1 in
      if ok then map_loop n sp base vm_flags (i + 1) v2
      else (false, i, with_pmm v2 (snd (pmm_free_page pa (vm_pmm v2))))
  end.

(** One turn of the clean-up loop, and of the loop of [sys_unmap], which also
    flushes. *)
Definition unmap_page (sp : option vmm_space) (flush : bool) (va : Z) (v : vm) : vm :=
  match vmm_query sp va v with
  | None => v
  | Some (pa, _) =>
    let v1 := snd (vmm_unmap sp va v) in
    let v2 := if flush then vmm_flush va v1 else v1 in
    with_pmm v2 (snd (pmm_free_page pa (vm_pmm v2)))
  end.

Definition unmap_loop (sp : option vmm_space) (flush : bool) (base n : Z) (v : vm) : vm :=
  foldl (fun v i => unmap_page sp flush (u64 (base + i * PAGE_SIZE)) v) v (seqZ 0 n).

(** The range checks on an explicit address. *)
Definition bad_range (base npages : Z) : bool :=
  (base <? USER_VA_BASE) || has base (PAGE_SIZE - 1) ||
  (let e := u64 (base + u64 (npages * PAGE_SIZE)) in (e <? base) || (USER_VA_TOP <? e)).

(** [p] is the result of [current_process()] and [sp] the space it points to;
    the result is the return value, the process and the machine afterwards. *)
Definition sys_map (p : option process_t) (sp : vmm_space) (hint npages flags : Z) (v : vm)
  : Z * option process_t * vm :=
  match p with
  | None => (SYSRET_ERR EPERM, p, v)
  | Some q =>
    if (npages =? 0) || (MAP_MAX_PAGES <? npages) then (SYSRET_ERR EINVAL, p, v)
    else if negb (Z.land flags (u64 (Z.lnot VM_WRITE)) =? 0) then (SYSRET_ERR EINVAL, p, v)
    else
      let vm_flags := Z.lor VM_PRESENT VM_USER in
      let vm_flags := if has flags VM_WRITE then Z.lor vm_flags VM_WRITE else vm_flags in
      let go base :=
        match map_loop (Z.to_nat npages) (Some sp) base vm_flags 0 v with
        | (true, _, v') =>
          (i64 base, Some (if hint =? 0 then set_next_map_va (u64 (base + u64 (npages * PAGE_SIZE))) q else q), v')
        | (false, mapped, v') => (SYSRET_ERR ENOMEM, p, unmap_loop (Some sp) false base mapped v')
        end in
      if hint =? 0 then
        let base := find_map_va (Some sp) (next_map_va q) npages v in
        if base =? 0 then (SYSRET_ERR ENOMEM, p, v) else go base
      else if bad_range hint npages then (SYSRET_ERR EINVAL, p, v)
      else if existsb (fun i => match vmm_query (Some sp) (u64 (hint + i * PAGE_SIZE)) v with Some _ => true | None => false end)
                (seqZ 0 npages) then (SYSRET_ERR EEXIST, p, v)
      else go hint
  end.

Definition sys_unmap (p : option process_t) (sp : vmm_space) (vaddr npages : Z) (v : vm) : Z * vm :=
  match p with
  | None => (SYSRET_ERR EPERM, v)
  | Some q =>
    if npages =? 0 then (SYSRET_ERR EINVAL, v)
    else if bad_range vaddr npages then (SYSRET_ERR EINVAL, v)
    else if existsb (fun i => match vmm_query (Some sp) (u64 (vaddr + i * PAGE_SIZE)) v with Some _ => false | None => true end)
              (seqZ 0 npages) then (SYSRET_ERR ENOENT, v)
    else (0, unmap_loop (Some sp) true vaddr npages v)
  end.

(** ** Pages and addresses *)

Definition page_of (a : Z) : Z := a - a mod 4096.

Lemma indices_page a : 0 <= a -> indices (page_of a) = indices a.
Proof.
  intros Ha. unfold indices, idx_pml4, idx_pdpt, idx_pd, idx_pt, page_of. rewrite !Z.shiftr_div_pow2 by lia.
  assert (forall k, 12 <= k -> (a - a mod 4096) / 2 ^ k = a / 2 ^ k) as E.
  { intros k Hk. replace k with (12 + (k - 12)) by lia. rewrite Z.pow_add_r by lia. rewrite <- !Z.div_div by lia. f_equal. change (2 ^ 12) with 4096.
    Z.div_mod_to_equations. lia. }
  by rewrite !E.
Qed.

Lemma translate_page v r a : 0 <= a -> translate v r (page_of a) = translate v r a.
Proof. intros Ha. unfold translate. by rewrite indices_page. Qed.

(** The byte at [a] is mapped in the space rooted at [r] for user mode. *)
Definition user_mapped (v : vm) (r a : Z) : Prop :=
  exists pa fl, translate v r a = Some (pa, fl) /\ has fl VM_USER = true.

Lemma user_mapped_page v r a b : 0 <= a -> page_of a <= b < page_of a + 4096 -> user_mapped v r b <-> user_mapped v r a.
Proof.
  intros Ha Hb. unfold user_mapped. rewrite <- (translate_page v r a), <- (translate_page v r b) by (unfold page_of in *; Z.div_mod_to_equations; lia).
  replace (page_of b) with (page_of a); [done|]. unfold page_of in *. Z.div_mod_to_equations. lia.
Qed.

Lemma range_loop_spec K G v s fuel page e :
  tree_inv K G v -> registered G (sp_pml4 s) -> aligned page -> 0 <= page -> page < 2 ^ 63 -> page <= e + 4096 -> e < 2 ^ 63 ->
  (e - page) / 4096 + 1 < Z.of_nat fuel ->
  let r := range_loop fuel (Some s) page e v in
  (r = 0 \/ r = - EFAULT) /\ (r = 0 <-> forall a, page <= a < e -> user_mapped v (sp_pml4 s) a).
Proof.
  intros I Hr. revert page. induction fuel as [|fuel IH]; intros page Hal H0 Hp Hpe He Hf; cbv zeta; cbn [range_loop].
  { exfalso. Z.div_mod_to_equations. lia. }
  destruct (Z.ltb_spec page e) as [Hlt|Hge]; [|split; [by left|split; [intros; lia|done]]].
  rewrite (query_translate K G) by (done || by apply has_page_aligned).
  assert (page_of page = page) as Epg by (unfold page_of, aligned in *; lia).
  assert (- EFAULT <> 0) as Hne by done.
  assert (~ user_mapped v (sp_pml4 s) page ->
    (- EFAULT = 0 \/ - EFAULT = - EFAULT) /\ (- EFAULT = 0 <-> forall a, page <= a < e -> user_mapped v (sp_pml4 s) a)) as Bad.
  { intros Hno. split; [by right|]. split; [done|]. intros Hall. exfalso. apply Hno, Hall. lia. }
  destruct (translate v (sp_pml4 s) page) as [[pa fl]|] eqn:Et;
    [|apply Bad; intros (? & ? & E & _); rewrite Et in E; done].
  destruct (has fl VM_USER) eqn:Hu; cbn [negb];
    [|apply Bad; intros (? & ? & E & E2); rewrite Et in E; injection E as <- <-; congruence].
  unfold PAGE_SIZE. rewrite u64_small by lia.
  destruct (Z_lt_le_dec (page + 4096) (2 ^ 63)) as [Hp'|Hp'].
  - destruct (IH (page + 4096)) as [C1 C2]; [unfold aligned in *; by rewrite Z.add_mod, Hal by lia|lia|lia|lia|done| |].
    { replace (e - (page + 4096)) with (e - page + (-1) * 4096) by lia. rewrite Z.div_add by lia. lia. }
    split; [done|]. rewrite C2. split; intros Hall a Ha; [|apply Hall; lia].
    destruct (Z_lt_le_dec a (page + 4096)); [|apply Hall; lia].
    apply (user_mapped_page v _ page); [lia|lia|]. by exists pa, fl.
  - destruct fuel as [|fuel]; [exfalso; Z.div_mod_to_equations; lia|]. cbn [range_loop].
    replace (page + 4096 <? e) with false by (symmetry; apply Z.ltb_ge; lia). split; [by left|]. split; [|done].
    intros _ a Ha. apply (user_mapped_page v _ page); [lia|lia|]. by exists pa, fl.
Qed.

(** The check decides exactly whether a user range is usable. *)
Definition user_range (v : vm) (r va n : Z) : Prop :=
  n = 0 \/ (USER_VA_BASE <= va /\ va + n <= USER_VA_TOP /\ forall a, va <= a < va + n -> user_mapped v r a).

Lemma range_in_user_half_spec va n :
  0 <= va < 2 ^ 64 -> 0 < n < 2 ^ 64 ->
  range_in_user_half va n = true <-> USER_VA_BASE <= va /\ va + n <= USER_VA_TOP.
Proof.
  intros Hva Hn. unfold range_in_user_half, USER_VA_BASE, USER_VA_TOP. rewrite (proj2 (Z.eqb_neq n 0)) by lia. cbv zeta.
  destruct (Z_lt_le_dec (va + n) (2 ^ 64)) as [Hs|Hs].
  - rewrite u64_small by lia. repeat zif; split; try done; lia.
  - assert (u64 (va + n) = va + n - 2 ^ 64) as -> by (unfold u64; rewrite <- (Z_mod_plus_full _ (-1)); apply Z.mod_small; lia).
    repeat zif; split; try done; lia.
Qed.

Lemma user_range_ok_spec K G v s va n :
  tree_inv K G v -> registered G (sp_pml4 s) -> 0 <= va < 2 ^ 64 -> 0 <= n < 2 ^ 64 ->
  let r := user_range_ok (Some s) va n v in
  (r = 0 \/ r = - EFAULT) /\ (r = 0 <-> user_range v (sp_pml4 s) va n).
Proof.
  intros I Hr Hva Hn. cbv zeta. unfold user_range_ok, user_range.
  destruct (Z.eqb_spec n 0) as [->|Hn0]; [split; [by left|split; auto]|].
  pose proof (range_in_user_half_spec va n Hva ltac:(lia)) as R.
  destruct (range_in_user_half va n) eqn:E; cbn [negb].
  - destruct (proj1 R eq_refl) as [R1 R2]. unfold USER_VA_BASE, USER_VA_TOP in *. rewrite u64_small by lia.
    rewrite land_align by lia. change (2 ^ 12) with 4096. fold (page_of va).
    assert (page_of va <= va < page_of va + 4096 /\ 0 <= page_of va) as Hpg by (unfold page_of; Z.div_mod_to_equations; lia).
    destruct (range_loop_spec K G v s (Z.to_nat ((va + n - page_of va) / PAGE_SIZE + 2)) (page_of va) (va + n) I Hr) as [C1 C2].
    { unfold aligned, page_of. Z.div_mod_to_equations. lia. }
    { lia. } { lia. } { lia. } { lia. }
    { unfold PAGE_SIZE. assert (0 <= (va + n - page_of va) / 4096) by (apply Z.div_pos; lia). lia. }
    split; [done|]. rewrite C2. split.
    + intros Hall. right. split; [lia|]. split; [lia|]. intros a Ha. apply Hall. lia.
    + intros [?|(_ & _ & Hall)]; [lia|]. intros a Ha. destruct (Z_lt_le_dec a va); [|apply Hall; lia].
      apply (user_mapped_page v _ va); [lia|lia|]. apply Hall. lia.
  - split; [by right|]. split; [done|]. intros [?|(R1 & R2 & _)]; [lia|]. exfalso. by discriminate (proj2 R (conj R1 R2)).
Qed.

(** ** Stores that miss the page tables *)

Lemma mask_page e : aligned (Z.land e PTE_ADDR_MASK).
Proof.
  unfold aligned. change 4096 with (2 ^ 12). rewrite <- land_low by lia. rewrite <- Z.land_assoc.
  change (Z.land PTE_ADDR_MASK (2 ^ 12 - 1)) with 0. apply Z.land_0_r.
Qed.

Section store.
Context (K : Z) (G : gmap Z (Z * list Z)).

Lemma tree_ext v m' :
  tree_inv K G v -> (forall p ro i, G !! p = Some ro -> idx_ok i -> entry m' p i = entry (vm_mem v) p i) ->
  tree_inv K G (with_mem v m') /\ same_leaves G (vm_mem v) m'.
Proof.
  intros I He. pose proof I as [I1 I2 I3 I4 I5 [I6 I7]]. split.
  - split; cbn [vm_mem vm_pmm with_mem]; try done.
    + intros p r path i E Hl Hi. rewrite (He _ _ _ E Hi). by apply I3.
    + intros p r E. rewrite (He _ _ _ E), (He _ _ _ I6) by (red; lia). by apply (I5 p r).
    + split; [done|]. by rewrite (He _ _ _ I6) by (red; lia).
  - intros t r path idxs. revert t r path. induction idxs as [|j idxs IH]; intros t r path E Hl F; [done|].
    apply Forall_cons_1 in F as [Hj F]. destruct idxs as [|k idxs]; [simpl; by rewrite (He _ _ _ E Hj)|].
    rewrite !leaf_cons2. cbv zeta. rewrite (He _ _ _ E Hj). destruct (is_table (entry (vm_mem v) t j)) eqn:Et; [|done]. simpl in Hl.
    pose proof (I3 _ _ _ _ E ltac:(lia) Hj Et) as Ec. destruct (child_role K r path j) as [r1 p1] eqn:C.
    apply child_role_length in C. by apply (IH _ r1 p1); [done|simpl; lia|].
Qed.

Lemma store_misses v x b :
  tree_inv K G v -> G !! page_of x = None ->
  forall p ro i, G !! p = Some ro -> idx_ok i -> entry (store_byte x b (vm_mem v)) p i = entry (vm_mem v) p i.
Proof.
  intros I Hx p ro i E Hi. unfold entry. apply rd_store_byte. intros Heq.
  destruct (ti_page _ _ _ I _ _ E) as (_ & Ha & _). red in Hi.
  assert (page_of x = p) as Hp by (unfold page_of; Z.div_mod_to_equations; lia). congruence.
Qed.

(** No user page of the space rooted at [r] is a page table. *)
Definition user_frames (v : vm) (r : Z) : Prop :=
  forall a pa fl, USER_VA_BASE <= a < USER_VA_TOP -> translate v r a = Some (pa, fl) -> G !! pa = None.

(** No two user pages of the space share a frame. *)
Definition frames_inj (v : vm) (r : Z) : Prop :=
  forall a b pa fl fl', USER_VA_BASE <= a < USER_VA_TOP -> USER_VA_BASE <= b < USER_VA_TOP ->
    translate v r a = Some (pa, fl) -> translate v r b = Some (pa, fl') -> page_of a = page_of b.

Lemma mmu_translate v a : mmu v a = (fun t => fst t + a mod 4096) <$> translate v (vm_cr3 v) a.
Proof. unfold mmu, translate, PAGE_SIZE. by destruct (leaf _ _ _). Qed.

Lemma translate_aligned v r a pa fl : translate v r a = Some (pa, fl) -> aligned pa.
Proof. unfold translate. destruct (leaf _ _ _); [|done]. intros [= <- _]. apply mask_page. Qed.

Lemma mmu_inj v a b x :
  frames_inj v (vm_cr3 v) -> USER_VA_BASE <= a < USER_VA_TOP -> USER_VA_BASE <= b < USER_VA_TOP ->
  mmu v a = Some x -> mmu v b = Some x -> a = b.
Proof.
  intros F Ha Hb. rewrite !mmu_translate. destruct (translate v _ a) as [[pa fa]|] eqn:Ea; [|done].
  destruct (translate v _ b) as [[pb fb]|] eqn:Eb; [|done]. cbn [fmap option_fmap option_map fst]. intros [= <-] [= E].
  pose proof (translate_aligned _ _ _ _ _ Ea) as Aa. pose proof (translate_aligned _ _ _ _ _ Eb) as Ab. unfold aligned in *.
  assert (pa = pb /\ a mod 4096 = b mod 4096) as [-> Em] by (Z.div_mod_to_equations; lia).
  pose proof (F a b pb fa fb Ha Hb Ea Eb) as Hpg. unfold page_of in Hpg. lia.
Qed.

(** The byte user mode sees at [a]. *)
Definition user_byte (v : vm) (a : Z) : Z := load_byte (vm_mem v) (default 0 (mmu v a)).

Definition user_ok (v : vm) (a : Z) : Prop := USER_VA_BASE <= a < USER_VA_TOP /\ user_mapped v (vm_cr3 v) a.

Lemma user_ok_mmu v a : user_frames v (vm_cr3 v) -> user_ok v a ->
  exists x, mmu v a = Some x /\ G !! page_of x = None.
Proof.
  intros F [Ha (pa & fl & Et & _)]. exists (pa + a mod 4096). rewrite mmu_translate, Et. split; [done|].
  replace (page_of (pa + a mod 4096)) with pa; [by eapply F|]. pose proof (translate_aligned _ _ _ _ _ Et) as Aa.
  unfold page_of, aligned in *. Z.div_mod_to_equations. lia.
Qed.

(** Every step of the copy finds its byte and misses the tables. *)
Lemma to_user_spec src udst v :
  tree_inv K G v -> registered G (vm_cr3 v) -> user_frames v (vm_cr3 v) -> Forall (fun b => 0 <= b < 256) src ->
  (forall a, udst <= a < udst + zlen src -> user_ok v a) ->
  exists m, uaccess_memcpy_to_user udst src v = (0, with_mem v m) /\ tree_inv K G (with_mem v m) /\
    same_leaves G (vm_mem v) m /\
    (forall x, (forall a, udst <= a < udst + zlen src -> mmu v a <> Some x) -> load_byte m x = load_byte (vm_mem v) x) /\
    (frames_inj v (vm_cr3 v) -> forall i x, 0 <= i < zlen src -> mmu v (udst + i) = Some x -> load_byte m x = zget 0 src i).
Proof.
  revert udst v. induction src as [|b src IH]; intros udst v I Hr F B Hok; cbn [uaccess_memcpy_to_user].
  { exists (vm_mem v). replace (with_mem v (vm_mem v)) with v by by destruct v. split; [done|]. split; [done|].
    split; [done|]. split; [done|]. intros _ i x Hi. unfold zlen in Hi. simpl in Hi. lia. }
  apply Forall_cons in B as [Hb B]. assert (zlen (b :: src) = zlen src + 1) as El by (unfold zlen; simpl; lia).
  rewrite El in *. pose proof (zlen_nonneg src).
  destruct (user_ok_mmu v udst F) as (x0 & E0 & G0); [apply Hok; lia|]. rewrite E0.
  set (m1 := store_byte x0 b (vm_mem v)).
  destruct (tree_ext v m1 I (store_misses v x0 b I G0)) as [I1 S1].
  assert (forall r a, registered G r -> translate (with_mem v m1) r a = translate v r a) as T1
    by (intros; by apply (translate_same G)).
  assert (forall a, mmu (with_mem v m1) a = mmu v a) as M1 by (intros; rewrite !mmu_translate; by rewrite T1).
  destruct (IH (udst + 1) (with_mem v m1)) as (m & E & I2 & S2 & O2 & N2); try done.
  { intros a pa fl Ha. rewrite T1 by done. by apply F. }
  { intros a Ha. destruct (Hok a) as [Hu (pa & fl & Et & Hf)]; [lia|]. split; [done|]. exists pa, fl. by rewrite T1. }
  exists m. replace (with_mem (with_mem v m1) m) with (with_mem v m) in * by done.
  split; [done|]. split; [done|]. split; [by eapply same_leaves_trans|]. split.
  - intros x Hx. rewrite O2; [|intros a Ha; rewrite M1; apply Hx; lia]. cbn [vm_mem with_mem].
    unfold m1. rewrite load_store_byte by done. destruct (Z.eqb_spec x x0) as [->|]; [|done].
    exfalso. by apply (Hx udst); [lia|].
  - intros Inj i x Hi Ex. destruct (decide (i = 0)) as [->|Hi0].
    + rewrite Z.add_0_r in Ex. assert (x = x0) as -> by congruence. rewrite O2.
      * cbn [vm_mem with_mem]. unfold m1. rewrite load_store_byte by done. by rewrite Z.eqb_refl.
      * intros a Ha. rewrite M1. intros Ea. assert (a = udst); [|lia].
        apply (mmu_inj v a udst x0 Inj); [apply Hok; lia..|done|done].
    + replace (zget 0 (b :: src) i) with (zget 0 src (i - 1))
        by (unfold zget; replace (Z.to_nat i) with (S (Z.to_nat (i - 1))) by lia; done).
      apply N2; [|lia|rewrite M1, <- Ex; f_equal; lia]. intros a c pa fl fl' Ha Hc. cbn [vm_cr3 with_mem]. rewrite !T1 by done.
      by apply Inj.
Qed.

Lemma from_user_spec n usrc v :
  user_frames v (vm_cr3 v) -> (forall a, usrc <= a < usrc + Z.of_nat n -> user_ok v a) ->
  uaccess_memcpy_from_user usrc n v = (0, (fun i => user_byte v (usrc + i)) <$> seqZ 0 (Z.of_nat n)).
Proof.
  intros F. revert usrc. induction n as [|n IH]; intros usrc Hok; cbn [uaccess_memcpy_from_user]; [done|].
  destruct (user_ok_mmu v usrc F) as (x & Ex & _); [apply Hok; lia|]. rewrite Ex, IH by (intros; apply Hok; lia).
  f_equal. rewrite (seqZ_cons 0 (Z.of_nat (S n))) by lia. rewrite fmap_cons. f_equal; [unfold user_byte; by rewrite Z.add_0_r, Ex|].
  replace (Z.pred (Z.of_nat (S n))) with (Z.of_nat n) by lia. change (Z.succ 0) with (1 + 0).
  rewrite <- (fmap_add_seqZ 1 0 (Z.of_nat n)), <- list_fmap_compose.
  apply list_fmap_ext. intros i y _. unfold compose. by rewrite Z.add_assoc.
Qed.
End store.

(** ** Strings *)

Lemma user_ok_range K G v s a :
  tree_inv K G v -> registered G (sp_pml4 s) -> vm_cr3 v = sp_pml4 s -> 0 <= a < 2 ^ 64 ->
  user_range_ok (Some s) a 1 v = 0 <-> user_ok v a.
Proof.
  intros I Hr Ec Ha. destruct (user_range_ok_spec K G v s a 1 I Hr Ha ltac:(lia)) as [_ ->]. unfold user_range, user_ok.
  rewrite Ec. split.
  - intros [?|(H1 & H2 & H3)]; [lia|]. split; [lia|]. apply H3. lia.
  - intros [H1 H2]. right. split; [lia|]. split; [lia|]. intros b Hb. by replace b with a by lia.
Qed.

(** What the loop does at a position whose bytes before it were copied. *)
Lemma strncpy_loop_step K G v s fuel usrc i dst :
  tree_inv K G v -> registered G (sp_pml4 s) -> vm_cr3 v = sp_pml4 s -> user_frames G v (vm_cr3 v) ->
  0 <= usrc < 2 ^ 63 -> 0 <= i < 2 ^ 63 ->
  (user_ok v (usrc + i) -> strncpy_loop (S fuel) (Some s) usrc i dst v =
     let dst := zset dst i (user_byte v (usrc + i)) in
     if user_byte v (usrc + i) =? 0 then (Some 0, dst) else strncpy_loop fuel (Some s) usrc (i + 1) dst v) /\
  (~ user_ok v (usrc + i) -> strncpy_loop (S fuel) (Some s) usrc i dst v = (Some (- EFAULT), dst)).
Proof.
  intros I Hr Ec F Hu Hi. cbn [strncpy_loop]. rewrite u64_small by lia. rewrite (proj2 (Z.ltb_ge (usrc + i) usrc)) by lia.
  pose proof (user_ok_range K G v s (usrc + i) I Hr Ec ltac:(lia)) as R.
  destruct (user_range_ok_spec K G v s (usrc + i) 1 I Hr ltac:(lia) ltac:(lia)) as [C _]. split; intros Hok.
  - rewrite (proj2 R Hok). change (0 <? 0) with false. cbv iota.
    rewrite (from_user_spec G 1 (usrc + i) v F) by (intros a Ha; replace a with (usrc + i) by lia; done).
    change (seqZ 0 (Z.of_nat 1)) with [0]. cbn [fmap list_fmap]. by rewrite Z.add_0_r.
  - destruct C as [C|C]; [exfalso; by apply Hok, R|]. rewrite C. done.
Qed.

Lemma strncpy_loop_len fuel sp usrc i dst v o d :
  strncpy_loop fuel sp usrc i dst v = (o, d) -> zlen d = zlen dst.
Proof.
  revert i dst. induction fuel as [|fuel IH]; intros i dst; cbn [strncpy_loop]; [by intros [= _ <-]|].
  repeat zif; try (by intros [= _ <-]). destruct (uaccess_memcpy_from_user _ 1 v) as [[] [|c [|]]]; try (by intros [= _ <-]).
  zif; [intros [= _ <-]; by rewrite zlen_zset|]. intros E. rewrite (IH _ _ E). by rewrite zlen_zset.
Qed.

Definition copied_prefix (v : vm) (usrc n : Z) (d : list Z) : Prop :=
  forall j, 0 <= j < n -> zget 0 d j = user_byte v (usrc + j).

Lemma copied_snoc v usrc n d : 0 <= n < zlen d -> copied_prefix v usrc n d ->
  copied_prefix v usrc (n + 1) (zset d n (user_byte v (usrc + n))).
Proof. intros Hn C j Hj. rewrite zget_zset by lia. destruct (Z.eqb_spec n j) as [->|]; [done|]. apply C. lia. Qed.

(** The bytes [usrc .. usrc+k) are readable and not NUL. *)
Definition plain (v : vm) (usrc i k : Z) : Prop :=
  forall j, i <= j < k -> user_ok v (usrc + j) /\ user_byte v (usrc + j) <> 0.

Lemma strncpy_loop_spec K G v s fuel usrc i dst k :
  tree_inv K G v -> registered G (sp_pml4 s) -> vm_cr3 v = sp_pml4 s -> user_frames G v (vm_cr3 v) ->
  0 <= usrc < 2 ^ 62 -> 0 <= i <= k -> k < 2 ^ 62 -> k - i <= Z.of_nat fuel -> i + Z.of_nat fuel <= zlen dst ->
  copied_prefix v usrc i dst -> plain v usrc i k ->
  exists d, zlen d = zlen dst /\ copied_prefix v usrc k d /\
    strncpy_loop fuel (Some s) usrc i dst v = strncpy_loop (Z.to_nat (Z.of_nat fuel - (k - i))) (Some s) usrc k d v.
Proof.
  intros I Hr Ec F Hu. revert i dst. induction fuel as [|fuel IH]; intros i dst Hi Hk Hf Hl C P.
  { assert (k = i) as -> by lia. exists dst. by rewrite Z.sub_diag. }
  destruct (decide (k = i)) as [->|Hne].
  { exists dst. rewrite Z.sub_diag. by replace (Z.to_nat (Z.of_nat (S fuel) - 0)) with (S fuel) by lia. }
  destruct (P i) as [Hok Hnz]; [lia|].
  rewrite (proj1 (strncpy_loop_step K G v s fuel usrc i dst I Hr Ec F ltac:(lia) ltac:(lia)) Hok). cbv zeta.
  rewrite (proj2 (Z.eqb_neq _ 0) Hnz).
  destruct (IH (i + 1) (zset dst i (user_byte v (usrc + i)))) as (d & L & Cd & E); try done; [lia|lia|rewrite zlen_zset; lia| | |].
  { apply copied_snoc; [lia|done]. }
  { intros j Hj. apply P. lia. }
  exists d. rewrite zlen_zset in L. split; [done|]. split; [done|]. rewrite E. do 2 f_equal. lia.
Qed.

(** ** A space with one user page, mapped read-only *)

Definition demo_frame : Z := 0x10000.
Definition demo_user_vm : vm :=
  vmm_switch (Some demo_user) (snd (vmm_map (Some demo_user) USER_VA_BASE demo_frame (Z.lor VM_PRESENT VM_USER) demo_vm)).

Lemma demo_user_empty a : USER_VA_BASE <= a < USER_VA_TOP -> translate demo_vm demo_U a = None.
Proof.
  intros Ha. unfold translate, indices. rewrite leaf_cons2. cbv zeta. rewrite demo_entry by apply idx_range.
  assert (idx_pml4 a <> 0) by (apply idx_pml4_user; unfold USER_VA_TOP in Ha; lia).
  pose proof (idx4_ok a) as Hi. red in Hi. rewrite decide_False; [done|]. unfold demo_U, demo_K. lia.
Qed.

Lemma demo_user_spec :
  exists G, tree_inv demo_K G demo_user_vm /\ registered G demo_U /\ vm_cr3 demo_user_vm = demo_U /\
    G !! demo_frame = None /\
    forall a, USER_VA_BASE <= a < USER_VA_TOP -> translate demo_user_vm demo_U a =
      if decide (page_of a = USER_VA_BASE) then Some (demo_frame, 5) else None.
Proof.
  unfold demo_user_vm. destruct (vmm_map _ _ _ _ demo_vm) as [b v'] eqn:E.
  assert (b = true) as -> by (change b with (fst (b, v')); rewrite <- E; vm_compute; reflexivity).
  destruct (vmm_map_spec demo_K demo_G demo_vm v' demo_user USER_VA_BASE demo_frame 5 true demo_tree eq_refl
    ltac:(unfold demo_frame; lia) E) as (G & Hs & I & _ & Hf & _ & (Fr & _) & Ht).
  destruct (Ht eq_refl) as (_ & _ & Hm & _). exists G. cbn [vmm_switch snd].
  assert (forall r a, translate (MkVm (vm_pmm v') (vm_mem v') (sp_pml4 demo_user) (vm_flushed v')) r a = translate v' r a) as T by done.
  split; [by destruct I; split|]. split; [exact (lookup_weaken demo_G G demo_U _ eq_refl Hs)|]. split; [done|]. split.
  - destruct (G !! demo_frame) as [ro|] eqn:Eg; [|done]. destruct (Fr _ _ Eg) as [_ Hu]; [done|].
    clear -Hu. vm_compute in Hu. discriminate Hu.
  - intros a Ha. rewrite T. unfold USER_VA_TOP, USER_VA_BASE in Ha. rewrite <- translate_page by lia. case_decide as Hp; [by rewrite Hp|].
    rewrite (Hf demo_U (page_of a) eq_refl); [rewrite translate_page by lia; apply demo_user_empty; unfold USER_VA_TOP, USER_VA_BASE; lia|].
    intros _ Es. destruct (slot_user demo_K demo_U demo_U USER_VA_BASE (page_of a) ltac:(unfold USER_VA_BASE; lia) Es) as [_ Ei]. apply Hp.
    apply indices_inj; [| |unfold page_of; Z.div_mod_to_equations; lia|unfold USER_VA_BASE; lia|done].
    + unfold aligned, page_of. Z.div_mod_to_equations. lia.
    + done.
Qed.

Lemma demo_user_frames G :
  G !! demo_frame = None ->
  (forall a, USER_VA_BASE <= a < USER_VA_TOP -> translate demo_user_vm demo_U a =
      if decide (page_of a = USER_VA_BASE) then Some (demo_frame, 5) else None) ->
  user_frames G demo_user_vm demo_U /\ frames_inj demo_user_vm demo_U.
Proof.
  intros Hn T. split.
  - intros a pa fl Ha. rewrite T by done. case_decide; [|done]. by intros [= <- _].
  - intros a b pa fl fl' Ha Hb. rewrite !T by done. repeat case_decide; try done. congruence.
Qed.

(** ** Properties of the copies *)

(** [user_range_ok] returns 0 exactly when the range is empty or lies in
    the user window with every byte on a page mapped for user mode, and
    [-EFAULT] otherwise; ranges that wrap around the address space are refused. *)
Theorem user_range_ok_correct (K : Z) (G : gmap Z (Z * list Z)) (v : vm) (s : vmm_space) (va n : Z) :
  tree_inv K G v -> registered G (sp_pml4 s) -> 0 <= va < 2 ^ 64 -> 0 <= n < 2 ^ 64 ->
  (user_range_ok (Some s) va n v = 0 <->
     n = 0 \/ (USER_VA_BASE <= va /\ va + n <= USER_VA_TOP /\ forall a, va <= a < va + n -> user_mapped v (sp_pml4 s) a)) /\
  (user_range_ok (Some s) va n v <> 0 -> user_range_ok (Some s) va n v = - EFAULT).
Proof.
  intros I Hr Hva Hn. destruct (user_range_ok_spec K G v s va n I Hr Hva Hn) as [C1 C2]. split; [done|]. by destruct C1.
Qed.


(** The last page below the top and the first one past it. *)
Lemma user_range_ok_correct_witness :
  user_range_ok (Some demo_user) (USER_VA_TOP - 8) 16 demo_vm = - EFAULT.
Proof.
  apply (user_range_ok_correct demo_K demo_G demo_vm demo_user (USER_VA_TOP - 8) 16 demo_tree eq_refl).
  - unfold USER_VA_TOP. lia.
  - lia.
  - destruct (user_range_ok_correct demo_K demo_G demo_vm demo_user (USER_VA_TOP - 8) 16 demo_tree eq_refl) as [[C _] _];
      [unfold USER_VA_TOP; lia|lia|]. intros E. destruct (C E) as [?|(_ & H & _)]; lia.
Defined.

(** [copy_to_user] either refuses the range and changes nothing, or stores
    exactly the given bytes: reading the range back with [copy_from_user]
    returns them, physical memory outside the range's frames is unchanged, and
    so is every translation of every space. *)
Theorem copy_user_roundtrip (K : Z) (G : gmap Z (Z * list Z)) (v : vm) (s : vmm_space) (va : Z) (src : list Z) :
  tree_inv K G v -> registered G (sp_pml4 s) -> vm_cr3 v = sp_pml4 s ->
  user_frames G v (sp_pml4 s) -> frames_inj v (sp_pml4 s) ->
  0 <= va < 2 ^ 64 -> zlen src < 2 ^ 64 -> Forall (fun b => 0 <= b < 256) src ->
  (~ user_range v (sp_pml4 s) va (zlen src) -> copy_to_user (Some s) va src v = (- EFAULT, v)) /\
  (user_range v (sp_pml4 s) va (zlen src) ->
   exists v', copy_to_user (Some s) va src v = (0, v') /\ tree_inv K G v' /\
     copy_from_user (Some s) va (zlen src) v' = (0, src) /\
     (forall r a, registered G r -> translate v' r a = translate v r a) /\
     (forall x, (forall a, va <= a < va + zlen src -> mmu v a <> Some x) ->
        load_byte (vm_mem v') x = load_byte (vm_mem v) x)).
Proof.
  intros I Hr Ec F Inj Hva Hl B. pose proof (zlen_nonneg src).
  destruct (user_range_ok_spec K G v s va (zlen src) I Hr Hva ltac:(lia)) as [C1 C2]. unfold copy_to_user. split; intros Hc.
  { destruct C1 as [C1| ->]; [by apply C2 in C1|done]. }
  rewrite (proj2 C2 Hc). change (0 <? 0) with false. cbv iota.
  assert (forall a, va <= a < va + zlen src -> user_ok v a) as Hok.
  { intros a Ha. destruct Hc as [?|(H1 & H2 & H3)]; [lia|]. split; [lia|]. rewrite Ec. by apply H3. }
  rewrite <- Ec in F, Inj, Hr. destruct (to_user_spec K G src va v I Hr F B Hok) as (m & E & I' & S & O & N).
  assert (forall r a, registered G r -> translate (with_mem v m) r a = translate v r a) as T
    by (intros; by apply (translate_same G)).
  exists (with_mem v m). split; [done|]. split; [done|]. split; [|done].
  unfold copy_from_user. rewrite Ec in Hr.
  destruct (user_range_ok_spec K G (with_mem v m) s va (zlen src) I' Hr Hva ltac:(lia)) as [_ C2'].
  rewrite (proj2 C2').
  2:{ destruct Hc as [?|(H1 & H2 & H3)]; [by left|]. right. split; [done|]. split; [done|]. intros a Ha.
      destruct (H3 a Ha) as (pa & fl & Et & Hf). exists pa, fl. by rewrite T. }
  change (0 <? 0) with false. cbv iota. rewrite <- Ec in Hr.
  assert (forall a, mmu (with_mem v m) a = mmu v a) as M by (intros; rewrite !mmu_translate; by rewrite T).
  rewrite (from_user_spec G) by first [intros a pa fl Ha; rewrite T by done; by apply F
    | rewrite Z2Nat.id by lia; intros a Ha; destruct (Hok a Ha) as [Hu (pa & fl & Et & Hf)]; split; [done|];
      exists pa, fl; by rewrite T].
  rewrite Z2Nat.id by lia. f_equal. apply (list_eq_zget 0).
  { unfold zlen. rewrite length_fmap, length_seqZ. unfold zlen in *. lia. }
  intros i. unfold zlen at 1. rewrite length_fmap, length_seqZ. intros Hi. rewrite zget_fmap_seqZ by lia.
  unfold user_byte. rewrite M. destruct (user_ok_mmu G v (va + i) F) as (x & Ex & _); [apply Hok; lia|].
  rewrite Ex. simpl. apply (N Inj); [lia|done].
Qed.

Lemma copy_user_roundtrip_witness :
  exists v', copy_to_user (Some demo_user) (USER_VA_BASE + 100) [1; 2; 3] demo_user_vm = (0, v') /\
    copy_from_user (Some demo_user) (USER_VA_BASE + 100) 3 v' = (0, [1; 2; 3]).
Proof.
  destruct demo_user_spec as (G & I & Hr & Ec & Hn & T). destruct (demo_user_frames G Hn T) as [F Inj].
  destruct (copy_user_roundtrip demo_K G demo_user_vm demo_user (USER_VA_BASE + 100) [1; 2; 3] I Hr Ec F Inj) as [_ C].
  { unfold USER_VA_BASE. lia. } { done. } { repeat constructor; lia. }
  destruct C as (v' & E1 & _ & E2 & _).
  { right. split; [lia|]. split; [done|]. intros a Ha. exists demo_frame, 5. split; [|done].
    change (zlen [1; 2; 3]) with 3 in Ha. unfold USER_VA_BASE in Ha. cbn [sp_pml4 demo_user].
    rewrite T by (unfold USER_VA_BASE, USER_VA_TOP; lia).
    rewrite decide_True; [done|]. unfold page_of, USER_VA_BASE. Z.div_mod_to_equations. lia. }
  exists v'. split; [exact E1|exact E2].
Defined.

(** The range check does not ask for [VM_WRITE], and the boot code leaves
    CR0.WP clear, so [copy_to_user] writes to a page that is mapped read-only:
    a process can have the kernel overwrite its read-only pages. *)
Theorem copy_to_user_readonly :
  vmm_query (Some demo_user) USER_VA_BASE demo_user_vm = Some (demo_frame, Z.lor VM_PRESENT VM_USER) /\
  fst (copy_to_user (Some demo_user) USER_VA_BASE [1] demo_user_vm) = 0.
Proof. vm_compute. done. Qed.

(** [strncpy_from_user] copies up to and including the first NUL and returns
    0; it returns [-EFAULT] when a byte before that is not readable user memory,
    and [-ENAMETOOLONG] when there is no NUL within [max] bytes, the buffer then
    holding the first [max - 1] bytes and a terminator. *)
Theorem strncpy_from_user_correct (K : Z) (G : gmap Z (Z * list Z)) (v : vm) (s : vmm_space)
    (dst : list Z) (usrc max k : Z) :
  tree_inv K G v -> registered G (sp_pml4 s) -> vm_cr3 v = sp_pml4 s -> user_frames G v (sp_pml4 s) ->
  0 <= usrc < 2 ^ 62 -> 0 < max < 2 ^ 62 -> zlen dst = max -> 0 <= k <= max -> plain v usrc 0 k ->
  exists r d, strncpy_from_user (Some s) (Some dst) usrc max v = (r, Some d) /\ zlen d = max /\
    (k < max -> user_ok v (usrc + k) -> user_byte v (usrc + k) = 0 -> r = 0 /\ copied_prefix v usrc (k + 1) d) /\
    (k < max -> ~ user_ok v (usrc + k) -> r = - EFAULT) /\
    (k = max -> r = - ENAMETOOLONG /\ copied_prefix v usrc (max - 1) d /\ zget 0 d (max - 1) = 0).
Proof.
  intros I Hr Ec F Hu Hm Hd Hk P. unfold strncpy_from_user. rewrite (proj2 (Z.eqb_neq max 0)) by lia. rewrite <- Ec in F.
  destruct (strncpy_loop_spec K G v s (Z.to_nat max) usrc 0 dst k I Hr Ec F) as (d & Ld & Cd & E);
    [lia|lia|lia|lia|lia|intros j Hj; lia|done|].
  rewrite E. rewrite Z2Nat.id, Z.sub_0_r by lia. destruct (decide (k = max)) as [->|Hne].
  - rewrite Z.sub_diag. cbn [Z.to_nat strncpy_loop]. eexists _, _. split; [done|]. split; [by rewrite zlen_zset, Ld|].
    split; [lia|]. split; [lia|]. intros _. split; [done|]. split.
    + intros j Hj. rewrite zget_zset_ne by lia. apply Cd. lia.
    + apply zget_zset_eq. lia.
  - replace (Z.to_nat (max - k)) with (S (Z.to_nat (max - k - 1))) by lia.
    destruct (strncpy_loop_step K G v s (Z.to_nat (max - k - 1)) usrc k d I Hr Ec F ltac:(lia) ltac:(lia)) as [S1 S2].
    destruct (strncpy_loop (S _) (Some s) usrc k d v) as [o d'] eqn:El.
    assert (zlen d' = max) as Hd' by (rewrite <- Hd, <- Ld; by eapply strncpy_loop_len; rewrite El).
    destruct o as [r|]; eexists _, _; (split; [done|]; split; [rewrite ?zlen_zset; done|]; split; [|split; [|lia]]).
    + intros _ Hok H0. specialize (S1 Hok). cbv zeta in S1. rewrite H0 in S1. injection S1 as -> ->. split; [done|].
      rewrite <- H0. apply copied_snoc; [lia|done].
    + intros _ Hno. by injection (S2 Hno) as -> _.
    + intros _ Hok H0. specialize (S1 Hok). cbv zeta in S1. by rewrite H0 in S1.
    + intros _ Hno. by specialize (S2 Hno).
Qed.

(** The first page holds only NUL bytes; the second is not mapped. *)
Lemma strncpy_from_user_correct_witness :
  fst (strncpy_from_user (Some demo_user) (Some (replicate 8 0)) (USER_VA_BASE + 4096) 8 demo_user_vm) = - EFAULT.
Proof.
  destruct demo_user_spec as (G & I & Hr & Ec & Hn & T). destruct (demo_user_frames G Hn T) as [F _].
  destruct (strncpy_from_user_correct demo_K G demo_user_vm demo_user (replicate 8 0) (USER_VA_BASE + 4096) 8 0 I Hr Ec F)
    as (r & d & E & _ & _ & Hbad & _).
  - unfold USER_VA_BASE. lia.
  - lia.
  - done.
  - lia.
  - intros j Hj. lia.
  - rewrite E. apply Hbad; [lia|]. intros [_ (pa & fl & Et & _)]. rewrite Ec in Et.
    rewrite T in Et by (unfold USER_VA_BASE, USER_VA_TOP; lia). by vm_compute in Et.
Defined.

(** ** Finding room *)

Definition unmapped (v : vm) (s : vmm_space) (a : Z) : Prop := vmm_query (Some s) a v = None.

(** [n] unmapped pages from [c]. *)
Definition free_run (v : vm) (s : vmm_space) (c n : Z) : Prop :=
  forall j, 0 <= j < n -> unmapped v s (c + j * 4096).

Lemma page_up_spec a : 0 <= a < 2 ^ 63 -> aligned (page_up a) /\ a <= page_up a < a + 4096.
Proof.
  intros Ha. unfold page_up, PAGE_SIZE. rewrite (u64_small (a + 4096)), u64_small by lia.
  rewrite land_align by lia. unfold aligned. change (2 ^ 12) with 4096. Z.div_mod_to_equations. lia.
Qed.

Lemma page_up_aligned a : 0 <= a < 2 ^ 63 -> aligned a -> page_up a = a.
Proof. intros Ha Hal. destruct (page_up_spec a Ha) as [H1 H2]. unfold aligned in *. Z.div_mod_to_equations. lia. Qed.

Lemma collision_spec v s n cand i :
  0 <= cand -> 0 <= i -> cand + (i + Z.of_nat n) * 4096 < 2 ^ 63 ->
  match collision n (Some s) cand i v with
  | None => forall j, i <= j < i + Z.of_nat n -> unmapped v s (cand + j * 4096)
  | Some k => i <= k < i + Z.of_nat n /\ ~ unmapped v s (cand + k * 4096)
  end.
Proof.
  intros Hc. revert i. induction n as [|n IH]; intros i Hi Hb; cbn [collision]; [lia|].
  unfold PAGE_SIZE. rewrite (u64_small (i * 4096)), u64_small by lia. unfold unmapped in *.
  destruct (vmm_query (Some s) (cand + i * 4096) v) eqn:E.
  - split; [lia|]. by rewrite E.
  - specialize (IH (i + 1) ltac:(lia) ltac:(lia)). destruct (collision n (Some s) cand (i + 1) v) as [k|].
    + split; [lia|apply IH].
    + intros j Hj. destruct (decide (j = i)) as [->|]; [done|]. apply IH. lia.
Qed.

Lemma find_loop_spec v s fuel n cand limit :
  aligned cand -> 0 < cand -> 0 < n < 2 ^ 50 -> limit + n * 4096 < 2 ^ 62 -> cand < 2 ^ 62 ->
  (limit - cand) / 4096 + 1 < Z.of_nat fuel -> cand <= limit + (n + 1) * 4096 ->
  let r := find_loop fuel (Some s) n cand limit v in
  (r = 0 /\ forall c, aligned c -> cand <= c <= limit -> ~ free_run v s c n) \/
  (cand <= r <= limit /\ aligned r /\ free_run v s r n /\ forall c, aligned c -> cand <= c < r -> ~ free_run v s c n).
Proof.
  intros Hal H0 Hn Hl. revert cand Hal H0. induction fuel as [|fuel IH]; intros cand Hal H0 Hc Hf Hcl; cbv zeta; cbn [find_loop].
  { left. split; [done|]. intros c Hac Hr. exfalso. Z.div_mod_to_equations. lia. }
  destruct (Z.leb_spec cand limit) as [Hle|Hgt]; [|left; split; [done|intros; lia]].
  pose proof (collision_spec v s (Z.to_nat n) cand 0 ltac:(lia) ltac:(lia) ltac:(lia)) as C. rewrite Z2Nat.id in C by lia.
  destruct (collision _ _ _ _ _) as [i|].
  - destruct C as [Hi Hm]. unfold PAGE_SIZE. rewrite (u64_small ((i + 1) * 4096)), u64_small by lia.
    assert (aligned (cand + (i + 1) * 4096)) as Hal' by (unfold aligned in *; by rewrite Z.mod_add by lia).
    rewrite page_up_aligned by (done || lia).
    assert (forall c, aligned c -> cand <= c < cand + (i + 1) * 4096 -> ~ free_run v s c n) as Hskip.
    { intros c Hac Hcr R. apply Hm. unfold aligned in *.
      replace (cand + i * 4096) with (c + (cand + i * 4096 - c) / 4096 * 4096) by (Z.div_mod_to_equations; lia).
      apply R. Z.div_mod_to_equations. lia. }
    assert (forall c, aligned c -> cand <= c -> c < cand + (i + 1) * 4096 \/ cand + (i + 1) * 4096 <= c) by (intros; lia).
    destruct (Z_lt_le_dec limit (cand + (i + 1) * 4096)) as [Hout|Hin].
    + left. assert (find_loop fuel (Some s) n (cand + (i + 1) * 4096) limit v = 0) as ->.
      { destruct fuel; [done|]. cbn [find_loop]. by rewrite (proj2 (Z.leb_gt _ _) Hout). }
      split; [done|]. intros c Hac Hr. apply Hskip; [done|lia].
    + destruct (IH (cand + (i + 1) * 4096)) as [[-> R]|(R1 & R2 & R3 & R4)]; [done|lia|lia| |lia| |].
      { replace (limit - (cand + (i + 1) * 4096)) with (limit - cand + (- (i + 1)) * 4096) by lia. rewrite Z.div_add by lia. lia. }
      * left. split; [done|]. intros c Hac Hr. destruct (Z_lt_le_dec c (cand + (i + 1) * 4096)); [apply Hskip; [done|lia]|apply R; [done|lia]].
      * right. split; [lia|]. split; [done|]. split; [done|]. intros c Hac Hr.
        destruct (Z_lt_le_dec c (cand + (i + 1) * 4096)); [apply Hskip; [done|lia]|apply R4; [done|lia]].
  - right. split; [lia|]. split; [done|]. split; [intros j Hj; apply C; lia|]. intros; lia.
Qed.

Lemma find_map_va_spec (v : vm) (s : vmm_space) (next npages : Z) :
  0 < next < 2 ^ 61 -> 0 < npages < 2 ^ 50 ->
  let limit := USER_STACK_TOP_INIT - npages * 4096 in
  let r := find_map_va (Some s) next npages v in
  (r = 0 /\ forall c, aligned c -> next <= c <= limit -> ~ free_run v s c npages) \/
  (next <= r <= limit /\ aligned r /\ free_run v s r npages /\
   forall c, aligned c -> next <= c < r -> ~ free_run v s c npages).
Proof.
  intros Hn Hp. cbv zeta. unfold find_map_va, PAGE_SIZE. rewrite u64_small by lia.
  assert (USER_STACK_TOP_INIT < 2 ^ 40) as Htop by done.
  destruct (Z.ltb_spec USER_STACK_TOP_INIT (npages * 4096)) as [Hlt|Hge]; [left; split; [done|]; intros c _ Hr; lia|].
  cbv zeta. destruct (page_up_spec next ltac:(lia)) as [Ha Hu].
  assert (forall c, aligned c -> next <= c -> page_up next <= c) as Hup
    by (intros c Hac Hc; unfold aligned in *; Z.div_mod_to_equations; lia).
  set (limit := USER_STACK_TOP_INIT - npages * 4096) in *.
  assert (limit + npages * 4096 = USER_STACK_TOP_INIT) as Hlim by (unfold limit; lia).
  destruct (Z_lt_le_dec limit (page_up next)) as [Hout|Hin].
  - left. split.
    + destruct (Z.to_nat _); [done|]. cbn [find_loop]. by rewrite (proj2 (Z.leb_gt _ _) Hout).
    + intros c Hac Hr. pose proof (Hup c Hac). lia.
  - destruct (find_loop_spec v s (Z.to_nat ((limit - page_up next) / 4096 + 2)) npages (page_up next) limit)
      as [[-> R]|(R1 & R2 & R3 & R4)]; try done; try lia.
    + left. split; [done|]. intros c Hac Hr. apply R; [done|]. pose proof (Hup c Hac ltac:(lia)). lia.
    + right. split; [lia|]. split; [done|]. split; [done|]. intros c Hac Hr. apply R4; [done|]. pose proof (Hup c Hac). lia.
Qed.

Lemma find_loop_result v s next npages :
  0 < next < 2 ^ 61 -> 0 < npages < 2 ^ 50 ->
  let r := find_map_va (Some s) next npages v in
  r = 0 \/ (r <> 0 /\ next <= r <= USER_STACK_TOP_INIT - npages * 4096 /\ aligned r /\ free_run v s r npages).
Proof.
  intros Hn Hp. cbv zeta. destruct (find_map_va_spec v s next npages Hn Hp) as [[? _]|(R1 & R2 & R3 & _)]; [by left|right].
  split; [lia|]. done.
Qed.

(** The search for free address space terminates and returns the lowest
    page-aligned run of unmapped pages between the process's hint and the
    stack, or 0 exactly when there is none. *)
Theorem find_map_va_correct (v : vm) (s : vmm_space) (next npages : Z) :
  0 < next < 2 ^ 61 -> 0 < npages < 2 ^ 50 ->
  let limit := USER_STACK_TOP_INIT - npages * 4096 in
  let r := find_map_va (Some s) next npages v in
  (r = 0 /\ forall c, aligned c -> next <= c <= limit -> ~ free_run v s c npages) \/
  (next <= r <= limit /\ aligned r /\ free_run v s r npages /\
   forall c, aligned c -> next <= c < r -> ~ free_run v s c npages).
Proof. intros Hn Hp. by apply find_map_va_spec. Qed.

(** The page the demo space maps is skipped. *)
Lemma find_map_va_correct_witness :
  find_map_va (Some demo_user) USER_VA_BASE 2 demo_user_vm = USER_VA_BASE + 4096 /\
  free_run demo_user_vm demo_user (USER_VA_BASE + 4096) 2.
Proof.
  assert (find_map_va (Some demo_user) USER_VA_BASE 2 demo_user_vm = USER_VA_BASE + 4096) as E by (vm_compute; reflexivity).
  split; [exact E|].
  destruct (find_map_va_correct demo_user_vm demo_user USER_VA_BASE 2) as [[E0 _]|(_ & _ & R & _)];
    [unfold USER_VA_BASE; lia|lia|rewrite E in E0; discriminate E0|]. rewrite E in R. exact R.
Defined.

(** ** Mapping and unmapping runs of pages *)

(** The frames user pages of the space use: no page table, and not free. *)
Definition space_ok (G : gmap Z (Z * list Z)) (v : vm) (r : Z) : Prop :=
  forall a pa fl, USER_VA_BASE <= a < USER_VA_TOP -> translate v r a = Some (pa, fl) ->
    G !! pa = None /\ 0 <= pa < 2 ^ 52 /\
    (used_get (vm_pmm v) (pa / 4096) = true \/ total_pages (vm_pmm v) <= pa / 4096).

Lemma mask_small e : 0 <= Z.land e PTE_ADDR_MASK < 2 ^ 52.
Proof. rewrite Z.land_comm. apply land_width; done. Qed.

Section run.
Context (K : Z) (s : vmm_space) (base n : Z).
Context (Huser : sp_is_kernel s = 0) (Hal : aligned base) (Hlo : USER_VA_BASE <= base)
        (Hhi : base + n * 4096 <= USER_VA_TOP).

Definition va (j : Z) : Z := base + j * 4096.
Definition in_run (m a : Z) : Prop := exists j, 0 <= j < m /\ indices a = indices (va j).

Lemma va_ok j : 0 <= j < n ->
  aligned (va j) /\ USER_VA_BASE <= va j < USER_VA_TOP /\ u64 (base + j * PAGE_SIZE) = va j /\ lower_bound s <= va j.
Proof using Huser Hal Hlo Hhi.
  intros Hj. unfold va, aligned, lower_bound, PAGE_SIZE in *. rewrite Huser, Z.eqb_refl. rewrite Z.mod_add by lia.
  unfold USER_VA_BASE, USER_VA_TOP in *. rewrite u64_small by lia. lia.
Qed.

Lemma va_inj j k : 0 <= j < n -> 0 <= k < n -> indices (va j) = indices (va k) -> j = k.
Proof using Huser Hal Hlo Hhi.
  intros Hj Hk E. destruct (va_ok j Hj) as (Aj & Bj & _), (va_ok k Hk) as (Ak & Bk & _).
  unfold USER_VA_BASE, USER_VA_TOP in *.
  assert (va j = va k) as Ev by (apply indices_inj; (done || lia)). unfold va in Ev. lia.
Qed.

Lemma in_run_dec m a : in_run m a \/ ~ in_run m a.
Proof using Type.
  destruct (decide (Exists (fun j => indices a = indices (va j)) (seqZ 0 m))) as [E|E]; rewrite Exists_exists in E; [left|right].
  - destruct E as (j & Hj%elem_of_seqZ & Ei). exists j. split; [lia|done].
  - intros (j & Hj & Ei). apply E. exists j. split; [apply elem_of_seqZ; lia|done].
Qed.

(** The slot of a page of the run, against any page of any space. *)
Lemma slot_run r a j : 0 <= j < n ->
  slot K r a <> slot K (sp_pml4 s) (va j) \/ (r = sp_pml4 s /\ indices a = indices (va j)).
Proof using Huser Hal Hlo Hhi.
  intros Hj. destruct (va_ok j Hj) as (_ & B & _). destruct (decide (slot K r a = slot K (sp_pml4 s) (va j))) as [E|]; [right|by left].
  apply slot_user in E; [done|]. unfold USER_VA_BASE, USER_VA_TOP in *. lia.
Qed.

Lemma translate_indices v r a b : indices a = indices b -> translate v r a = translate v r b.
Proof using Type. intros E. unfold translate. by rewrite E. Qed.

(** Pages given back by unmapping the first [m] pages of the run in [v]. *)
Definition freed (v : vm) (m q : Z) : Prop :=
  (exists j fl, 0 <= j < m /\ translate v (sp_pml4 s) (va j) = Some (q * 4096, fl)) /\
  q < total_pages (vm_pmm v) /\ resv_get (vm_pmm v) q = false.

Record unmapped_run (G : gmap Z (Z * list Z)) (v : vm) (m : Z) (v' : vm) : Prop := {
  ur_tree : tree_inv K G v';
  ur_none j : 0 <= j < m -> translate v' (sp_pml4 s) (va j) = None;
  ur_same r a : registered G r -> r <> sp_pml4 s \/ ~ in_run m a -> translate v' r a = translate v r a;
  ur_total : total_pages (vm_pmm v') = total_pages (vm_pmm v);
  ur_resv : resv_bitmap (vm_pmm v') = resv_bitmap (vm_pmm v);
  ur_used q : 0 <= q -> used_get (vm_pmm v') q = true <-> used_get (vm_pmm v) q = true /\ ~ freed v m q }.

Lemma unmap_page_none flush a v : vmm_query (Some s) a v = None -> unmap_page (Some s) flush a v = v.
Proof using Type. intros E. unfold unmap_page. by rewrite E. Qed.

(** One page of the loop. *)
Lemma unmap_page_spec G v flush j pa fl :
  tree_inv K G v -> registered G (sp_pml4 s) -> 0 <= j < n ->
  translate v (sp_pml4 s) (va j) = Some (pa, fl) -> G !! pa = None ->
  let v' := unmap_page (Some s) flush (va j) v in
  tree_inv K G v' /\ translate v' (sp_pml4 s) (va j) = None /\
  (forall r a, registered G r -> r <> sp_pml4 s \/ indices a <> indices (va j) -> translate v' r a = translate v r a) /\
  vm_pmm v' = free_pg (vm_pmm v) pa.
Proof using Huser Hal Hlo Hhi.
  intros I Hr Hj Et Hg. destruct (va_ok j Hj) as (Aj & Bj & _ & Lj). cbv zeta. unfold unmap_page.
  rewrite (query_translate K G v s (va j) I Hr) by by apply has_page_aligned. rewrite Et.
  destruct (vmm_unmap (Some s) (va j) v) as [b v1] eqn:E. destruct (vmm_unmap_spec K G v v1 s (va j) b I Hr E) as (Hb & I1 & _ & Ht).
  assert (b = true) as -> by (apply Hb; by rewrite Et). destruct (Ht eq_refl) as (Hn & _ & Ep & Ho). cbn [snd].
  assert (0 <= pa < 2 ^ 64) as Hpa.
  { unfold translate in Et. destruct (leaf _ _ _) as [e|]; [|done]. injection Et as <- _. pose proof (mask_small e). lia. }
  set (v2 := if flush then vmm_flush (va j) v1 else v1).
  assert (vm_mem v2 = vm_mem v1 /\ vm_pmm v2 = vm_pmm v1) as [M2 P2] by by destruct flush.
  assert (tree_inv K G v2) as I2 by (destruct flush; [destruct I1; by split|done]).
  fold (free_pg (vm_pmm v2) pa). split; [by apply tree_inv_free|].
  assert (forall r a, translate (with_pmm v2 (free_pg (vm_pmm v2) pa)) r a = translate v1 r a) as T
    by (intros; unfold translate; cbn [vm_mem with_pmm]; by rewrite M2).
  split; [by rewrite T|]. split; [|cbn [vm_pmm with_pmm]; by rewrite P2, Ep].
  intros r a Hreg Hd. rewrite T. apply Ho; [done|]. destruct (slot_run r a j Hj) as [?|[-> Ei]]; [done|]. by destruct Hd.
Qed.

Lemma unmap_loop_spec G v flush m :
  tree_inv K G v -> registered G (sp_pml4 s) -> user_frames G v (sp_pml4 s) -> m <= n ->
  unmapped_run G v m (unmap_loop (Some s) flush base m v).
Proof using Huser Hal Hlo Hhi.
  intros I Hr F. unfold unmap_loop. pattern m. revert m. apply seqZ_ind.
  - intros m Hm _. rewrite seqZ_nonpos by done. simpl. split; try done; [lia|]. intros q Hq. split; [|by intros [? _]].
    intros Hu. split; [done|]. intros [(j & _ & Hj & _) _]. lia.
  - intros m Hm IH Hmn. destruct (IH ltac:(lia)) as [I' N' S' T' R' U']. clear IH. rewrite foldl_seqZ_snoc by done.
    set (v1 := foldl _ v (seqZ 0 m)) in *. clearbody v1. destruct (va_ok m ltac:(lia)) as (Am & Bm & Em & _). rewrite Em.
    assert (forall a, in_run (m + 1) a <-> in_run m a \/ indices a = indices (va m)) as Hin.
    { intros a. split.
      - intros (j & Hj & Ej). destruct (decide (j = m)) as [->|]; [by right|left]. exists j. split; [lia|done].
      - intros [(j & Hj & Ej)|Ej]; [exists j|exists m]; (split; [lia|done]). }
    assert (translate v1 (sp_pml4 s) (va m) = translate v (sp_pml4 s) (va m)) as Etm.
    { apply S'; [done|]. right. intros (j & Hj & Ej). symmetry in Ej. apply va_inj in Ej; lia. }
    destruct (translate v (sp_pml4 s) (va m)) as [[pa fl]|] eqn:Et.
    + assert (G !! pa = None) as Hg by (by eapply F).
      destruct (unmap_page_spec G v1 flush m pa fl I' Hr ltac:(lia) Etm Hg) as (I2 & N2 & S2 & P2).
      set (v2 := unmap_page _ _ _ _) in *. clearbody v2.
      assert (0 <= pa < 2 ^ 64) as Hpa.
      { unfold translate in Et. destruct (leaf _ _ _) as [e|]; [|done]. injection Et as <- _. pose proof (mask_small e). lia. }
      destruct (free_pg_spec (vm_pmm v1) pa (ti_pmm _ _ _ I') Hpa) as (_ & T3 & R3 & U3). rewrite <- P2 in T3, R3, U3.
      split; [done| | |congruence|congruence|].
      * intros j Hj. destruct (decide (j = m)) as [->|]; [done|]. rewrite S2; [apply N'; lia|done|].
        right. intros Ej. apply va_inj in Ej; lia.
      * intros r a Hreg Hd. rewrite Hin in Hd. rewrite S2 by tauto. apply S'; tauto.
      * intros q Hq. rewrite U3 by done. rewrite andb_true_iff, U', negb_true_iff by done. unfold freed.
        assert (resv_get (vm_pmm v1) q = resv_get (vm_pmm v) q) as -> by (unfold resv_get; by rewrite R'). rewrite T'.
        split.
        -- intros [[Hu Hn] Hb]. split; [done|]. intros [(j & fl' & Hj & Ej) [Ht Hv]].
           destruct (decide (j = m)) as [->|]; [|apply Hn; split; [exists j, fl'; split; [lia|done]|done]].
           rewrite Et in Ej. injection Ej as -> _. rewrite Z.eqb_refl, Hv, (proj2 (Z.ltb_lt _ _) Ht) in Hb. done.
        -- intros [Hu Hn]. split; [split; [done|]|].
           ++ intros [(j & fl' & Hj & Ej) Hx]. apply Hn. split; [exists j, fl'; split; [lia|done]|done].
           ++ destruct (Z.eqb_spec pa (q * 4096)) as [->|]; [|done]. destruct (Z.ltb_spec q (total_pages (vm_pmm v))); [|done].
              destruct (resv_get (vm_pmm v) q) eqn:Er; [done|]. exfalso. apply Hn. split; [|done]. exists m, fl. split; [lia|done].
    + rewrite unmap_page_none by (rewrite (query_translate K G v1 s (va m) I' Hr); [done|by apply has_page_aligned]).
      split; [done| | |done|done|].
      * intros j Hj. destruct (decide (j = m)) as [->|]; [by rewrite Etm|apply N'; lia].
      * intros r a Hreg Hd. rewrite Hin in Hd. apply S'; tauto.
      * intros q Hq. rewrite U' by done. unfold freed. split; intros [Hu Hn]; (split; [done|]; intros [(j & fl' & Hj & Ej) Hx]; apply Hn; split; [|done]).
        -- destruct (decide (j = m)) as [->|]; [by rewrite Et in Ej|]. exists j, fl'. split; [lia|done].
        -- exists j, fl'. split; [lia|done].
Qed.

(** The first pages of the run are mapped to the frames [fs], which were free
    in [v0]; nothing else changed but for new page tables. *)
Record mapped_run (fl : Z) (G0 : gmap Z (Z * list Z)) (v0 : vm) (G : gmap Z (Z * list Z)) (v : vm) (fs : list Z) : Prop := {
  mr_sub : G0 ⊆ G;
  mr_tree : tree_inv K G v;
  mr_roots r : registered G r -> registered G0 r;
  mr_map j f : fs !! j = Some f -> translate v (sp_pml4 s) (va (Z.of_nat j)) = Some (f, fl);
  mr_fresh f : f ∈ fs -> aligned f /\ 0 < f < 2 ^ 52 /\ G !! f = None /\ f / 4096 < total_pages (vm_pmm v0) /\
    used_get (vm_pmm v0) (f / 4096) = false /\ used_get (vm_pmm v) (f / 4096) = true;
  mr_nodup : NoDup fs;
  mr_same r a : registered G0 r -> r <> sp_pml4 s \/ ~ in_run (zlen fs) a -> translate v r a = translate v0 r a;
  mr_total : total_pages (vm_pmm v) = total_pages (vm_pmm v0);
  mr_resv : resv_bitmap (vm_pmm v) = resv_bitmap (vm_pmm v0);
  mr_used q : 0 <= q -> used_get (vm_pmm v0) q = true -> used_get (vm_pmm v) q = true;
  mr_new q : 0 < q -> used_get (vm_pmm v) q = true ->
    used_get (vm_pmm v0) q = true \/ q * 4096 ∈ fs \/ is_Some (G !! (q * 4096));
  mr_tables p : is_Some (G !! p) -> G0 !! p = None ->
    0 <= p / 4096 < total_pages (vm_pmm v0) /\ used_get (vm_pmm v0) (p / 4096) = false;
  mr_unresv f : f ∈ fs -> resv_get (vm_pmm v0) (f / 4096) = false }.

Lemma mapped_run_nil fl G v : tree_inv K G v -> mapped_run fl G v G v [].
Proof using Type.
  intros I. split; try done; try (by intros ? ?%not_elem_of_nil); auto; [constructor|].
  intros p [ro E] En. congruence.
Qed.

(** Taking a page off the allocator. *)
Lemma mapped_run_alloc fl G0 v0 G v fs pa p :
  mapped_run fl G0 v0 G v fs -> pmm_alloc_page (vm_pmm v) = (pa, p) ->
  (pa = 0 -> mapped_run fl G0 v0 G (with_pmm v p) fs) /\
  (pa <> 0 -> tree_inv K G (with_pmm v p) /\ aligned pa /\ 0 < pa < 2 ^ 52 /\ G !! pa = None /\ pa ∉ fs /\
     pa / 4096 < total_pages (vm_pmm v0) /\ used_get (vm_pmm v0) (pa / 4096) = false /\ used_get p (pa / 4096) = true /\
     resv_get (vm_pmm v0) (pa / 4096) = false) /\
  total_pages p = total_pages (vm_pmm v0) /\ resv_bitmap p = resv_bitmap (vm_pmm v0) /\
  (forall q, 0 <= q -> used_get (vm_pmm v) q = true -> used_get p q = true) /\
  (forall q, 0 <= q -> used_get p q = true -> used_get (vm_pmm v) q = true \/ q * 4096 = pa).
Proof using Type.
  intros M Ea. pose proof (mr_tree _ _ _ _ _ _ M) as I.
  destruct (alloc_page_spec _ _ _ (ti_pmm _ _ _ I) Ea) as (Ip & Et & Hu & Hp).
  destruct (alloc_page_new _ _ _ (ti_pmm _ _ _ I) Ea) as (Er & Hn).
  pose proof (tree_inv_pmm K G v p I Ip Et Hu) as Iv. destruct M as [M1 M2 M3 M4 M5 M6 M7 M8 M9 M10 M11 M12 M13].
  split; [|split; [|split; [congruence|split; [congruence|done]]]].
  - intros ->. split; cbn [vm_pmm with_pmm]; try done; try congruence.
    + intros f Hf. destruct (M5 f Hf) as (A & B & C & D & E & F). do 5 (split; [done|]). apply Hu; [apply Z.div_pos; lia|done].
    + auto.
    + intros q Hq Huq. destruct (Hn q ltac:(lia) Huq); [auto|lia].
  - intros Hp0. destruct (Hp Hp0) as (A & B & C & D & E). rewrite M8 in C. split; [done|]. split; [done|]. split; [done|].
    assert (used_get (vm_pmm v0) (pa / 4096) = false) as D0.
    { destruct (used_get (vm_pmm v0) (pa / 4096)) eqn:X; [|done]. apply M10 in X; [congruence|apply Z.div_pos; lia]. }
    assert (resv_get (vm_pmm v0) (pa / 4096) = false) as Hrv.
    { unfold resv_get. rewrite <- M9. destruct (bm_get (resv_bitmap (vm_pmm v)) (pa / 4096)) eqn:X; [|done].
      apply (inv_resv _ (ti_pmm _ _ _ I)) in X; [congruence|]. rewrite M8. split; [apply Z.div_pos; lia|done]. }
    split; [|split; [|done]].
    + apply eq_None_not_Some. intros [ro Er']. destruct (ti_page _ _ _ M2 _ _ Er') as (_ & _ & [X|X]); [congruence|lia].
    + intros Hin. destruct (M5 pa Hin) as (_ & _ & _ & _ & _ & X). congruence.
Qed.

(** The frames stay clear of tables allocated later. *)
Lemma frame_not_table G v G' v' f :
  tables_fresh G v G' v' -> G !! f = None -> used_get (vm_pmm v) (f / 4096) = true -> G' !! f = None.
Proof using Type.
  intros (Fr & _) Hn Hu. destruct (G' !! f) as [ro|] eqn:E; [|done]. destruct (Fr f ro E Hn). congruence.
Qed.

(** One turn of the mapping loop. *)
Lemma map_step fl G0 v0 G v fs pa p b v2 :
  mapped_run fl G0 v0 G v fs -> registered G0 (sp_pml4 s) -> zlen fs < n -> Z.land fl 15 = fl ->
  pmm_alloc_page (vm_pmm v) = (pa, p) -> pa <> 0 ->
  vmm_map (Some s) (va (zlen fs)) pa fl (with_pmm v p) = (b, v2) ->
  exists G', if b then mapped_run fl G0 v0 G' v2 (fs ++ [pa])
    else mapped_run fl G0 v0 G' (with_pmm v2 (free_pg (vm_pmm v2) pa)) fs.
Proof using Huser Hal Hlo Hhi.
  intros M Hr Hl Hfl Ea Hp0 E. destruct (mapped_run_alloc _ _ _ _ _ _ _ _ M Ea) as (_ & A & T1 & R1 & U1 & N1).
  destruct (A Hp0) as (I1 & Aa & Ra & Ga & Fa & Ta & U0a & Upa & Rva). clear A.
  pose proof (zlen_nonneg fs). destruct (va_ok (zlen fs) ltac:(lia)) as (Av & Bv & _ & Lv).
  assert (registered G (sp_pml4 s)) as HrG by (eapply lookup_weaken; [done|apply M]).
  destruct (vmm_map_spec K G (with_pmm v p) v2 s _ pa fl b I1 HrG ltac:(lia) E) as (G' & Hs & I2 & Rt & Hf & _ & Fr & Ht).
  rewrite Hfl in Ht. assert (G' !! pa = None) as Ga' by (by eapply frame_not_table).
  destruct M as [M1 M2 M3 M4 M5 M6 M7 M8 M9 M10 M11 M12 M13]. pose proof Fr as (F1 & F2 & F3 & F4 & F5). cbn [vm_pmm with_pmm] in *.
  assert (G0 ⊆ G') as Hs0 by by transitivity G.
  assert (forall f, f ∈ fs -> aligned f /\ 0 < f < 2 ^ 52 /\ G' !! f = None /\ f / 4096 < total_pages (vm_pmm v0) /\
    used_get (vm_pmm v0) (f / 4096) = false /\ used_get (vm_pmm v2) (f / 4096) = true) as Fresh.
  { intros f Hf'. destruct (M5 f Hf') as (A & B & C & D & X & Y). assert (0 <= f / 4096) by (apply Z.div_pos; lia).
    split; [done|]. split; [done|]. split; [eapply frame_not_table; [exact Fr|done|by apply U1]|]. auto. }
  assert (forall q, 0 < q -> used_get (vm_pmm v2) q = true ->
    used_get (vm_pmm v0) q = true \/ q * 4096 ∈ fs \/ is_Some (G' !! (q * 4096)) \/ q * 4096 = pa) as New.
  { intros q Hq Hu. destruct (F5 q Hq Hu) as [Hu1|?]; [|auto]. destruct (N1 q ltac:(lia) Hu1) as [Hu2|?]; [|auto].
    destruct (M11 q Hq Hu2) as [?|[?|[ro ?]]]; [auto|auto|]. right. right. left. exists ro. by eapply lookup_weaken. }
  assert (forall q, 0 <= q -> used_get (vm_pmm v0) q = true -> used_get (vm_pmm v2) q = true) as Grow by auto.
  assert (forall p0, is_Some (G' !! p0) -> G0 !! p0 = None ->
    0 <= p0 / 4096 < total_pages (vm_pmm v0) /\ used_get (vm_pmm v0) (p0 / 4096) = false) as Tab.
  { intros p0 [ro E0] En. destruct (G !! p0) as [ro1|] eqn:E1; [apply M12; [by rewrite E1|done]|].
    destruct (F1 _ _ E0 E1) as [Hp Hu]. split; [lia|]. destruct (used_get (vm_pmm v0) (p0 / 4096)) eqn:X; [|done].
    apply M10, U1 in X; [congruence|lia..]. }
  assert (forall j f, fs !! j = Some f -> translate v2 (sp_pml4 s) (va (Z.of_nat j)) = Some (f, fl)) as Mp.
  { intros j f Ej. rewrite Hf; [by apply M4|done|]. intros _. pose proof (lookup_lt_Some _ _ _ Ej) as Hjl. unfold zlen in *.
    destruct (slot_run (sp_pml4 s) (va (Z.of_nat j)) (Z.of_nat (length fs)) ltac:(lia)) as [?|[_ Ei]]; [done|].
    apply va_inj in Ei; lia. }
  exists G'. destruct b.
  - destruct (Ht eq_refl) as (_ & _ & Hm & _). split; try done; try congruence.
    + auto.
    + intros j f Ej. apply lookup_app_Some in Ej as [Ej|[Hge Ej]]; [by apply Mp|].
      apply list_lookup_singleton_Some in Ej as [Hj <-]. replace (Z.of_nat j) with (zlen fs) by (unfold zlen; lia). done.
    + intros f [Hf'|Hf']%elem_of_app; [by apply Fresh|]. apply list_elem_of_singleton in Hf' as ->.
      do 5 (split; [done|]). apply F2; [apply Z.div_pos; lia|done].
    + apply NoDup_app. split; [done|]. split; [set_solver|apply NoDup_singleton].
    + intros r a Hreg Hd. rewrite zlen_app in Hd. change (zlen [pa]) with 1 in Hd. rewrite Hf.
      * apply M7; [done|]. destruct Hd as [?|Hd]; [by left|right]. intros (j & Hj & Ej). apply Hd. exists j. split; [lia|done].
      * by eapply lookup_weaken.
      * intros _. destruct (slot_run r a (zlen fs) ltac:(lia)) as [?|[-> Ei]]; [done|]. destruct Hd as [?|Hd]; [done|].
        exfalso. apply Hd. exists (zlen fs). split; [lia|done].
    + intros q Hq Hu. destruct (New q Hq Hu) as [?|[?|[?| ->]]]; set_solver.
    + intros f [Hf'|Hf']%elem_of_app; [by apply M13|]. by apply list_elem_of_singleton in Hf' as ->.
  - destruct (free_pg_spec (vm_pmm v2) pa (ti_pmm _ _ _ I2) ltac:(lia)) as (_ & T3 & R3 & U3).
    assert (forall q, 0 <= q -> q * 4096 <> pa -> used_get (free_pg (vm_pmm v2) pa) q = used_get (vm_pmm v2) q) as Uo.
    { intros q Hq Hne. rewrite U3 by done. rewrite (proj2 (Z.eqb_neq pa (q * 4096))) by congruence. apply andb_true_r. }
    assert (forall f, aligned f -> f / 4096 * 4096 = f) as Dv by (intros f A; unfold aligned in A; pose proof (Z.div_mod f 4096); lia).
    split; cbn [vm_pmm with_pmm]; try done; try congruence.
    + by apply tree_inv_free; [|done|lia].
    + auto.
    + intros f Hf'. destruct (Fresh f Hf') as (A & B & C & D & X & Y). do 5 (split; [done|]).
      rewrite Uo; [done|apply Z.div_pos; lia|]. rewrite Dv by done. congruence.
    + intros r a Hreg Hd. change (translate v2 r a = translate v0 r a). rewrite Hf; [by apply M7|by eapply lookup_weaken|done].
    + intros q Hq Hu. rewrite Uo; [auto|done|]. intros <-. rewrite Z.div_mul in U0a by lia. congruence.
    + intros q Hq Hu. rewrite U3 in Hu by lia. apply andb_prop in Hu as [Hu Hb].
      destruct (New q Hq Hu) as [?|[?|[?| <-]]]; auto. exfalso. rewrite Z.eqb_refl in Hb. rewrite Z.div_mul in * by lia.
      assert (resv_get (vm_pmm v2) q = false) as Hrq.
      { unfold resv_get in *. by rewrite F4, R1. }
      rewrite Hrq, F3, T1, (proj2 (Z.ltb_lt _ _) Ta) in Hb. done.
Qed.

Lemma map_loop_spec fl G0 v0 m G v fs :
  mapped_run fl G0 v0 G v fs -> registered G0 (sp_pml4 s) -> zlen fs + Z.of_nat m <= n -> Z.land fl 15 = fl ->
  exists b i v' G' fs', map_loop m (Some s) base fl (zlen fs) v = (b, i, v') /\ mapped_run fl G0 v0 G' v' fs' /\
    i = zlen fs' /\ zlen fs' <= n /\ (b = true -> zlen fs' = zlen fs + Z.of_nat m).
Proof using Huser Hal Hlo Hhi.
  revert G v fs. induction m as [|m IH]; intros G v fs M Hr Hm Hfl; cbn [map_loop].
  { exists true, (zlen fs), v, G, fs. split; [done|]. split; [done|]. split; [done|]. split; lia. }
  destruct (pmm_alloc_page (vm_pmm v)) as [pa p] eqn:Ea. destruct (Z.eqb_spec pa 0) as [->|Hp0].
  { exists false, (zlen fs), (with_pmm v p), G, fs. split; [done|]. split; [by eapply mapped_run_alloc|]. split; [done|]. split; [lia|done]. }
  pose proof (zlen_nonneg fs). destruct (va_ok (zlen fs) ltac:(lia)) as (_ & _ & -> & _).
  destruct (vmm_map (Some s) (va (zlen fs)) pa fl (with_pmm v p)) as [b v2] eqn:Em.
  destruct (map_step fl G0 v0 G v fs pa p b v2 M Hr ltac:(lia) Hfl Ea Hp0 Em) as (G' & M').
  destruct b.
  - destruct (IH G' v2 (fs ++ [pa]) M' Hr) as (b & i & v' & G2 & fs' & E & M2 & Ei & Hle & Hb); [|done|].
    { rewrite zlen_app. change (zlen [pa]) with 1. lia. }
    rewrite zlen_app in *. change (zlen [pa]) with 1 in *. exists b, i, v', G2, fs'. split; [done|]. split; [done|].
    split; [done|]. split; [done|]. intros Hbt. rewrite Hb by done. lia.
  - eexists false, (zlen fs), _, G', fs. split; [done|]. split; [done|]. split; [done|]. split; [lia|done].
Qed.

(** The frames of the space stay clear of tables and of the free pages. *)
Lemma mapped_run_space fl G0 v0 G v fs :
  mapped_run fl G0 v0 G v fs -> zlen fs <= n -> registered G0 (sp_pml4 s) -> space_ok G0 v0 (sp_pml4 s) -> space_ok G v (sp_pml4 s).
Proof using Huser Hal Hlo Hhi.
  intros M Hl Hr S a pa fl' Ha Et.
  assert (forall j, 0 <= j < zlen fs -> indices a = indices (va j) -> exists k, k ∈ fs /\ pa = k) as In.
  { intros j Hj Ei. destruct (lookup_lt_is_Some_2 fs (Z.to_nat j)) as [f Ef]; [unfold zlen in *; lia|]. exists f.
    split; [by eapply list_elem_of_lookup_2|]. rewrite (translate_indices _ _ _ _ Ei) in Et.
    pose proof (mr_map _ _ _ _ _ _ M _ _ Ef) as Em. rewrite Z2Nat.id in Em by lia. congruence. }
  destruct (in_run_dec (zlen fs) a) as [(j & Hj & Ei)|Hno].
  - destruct (In j ltac:(lia) Ei) as (f & Hf & ->). destruct (mr_fresh _ _ _ _ _ _ M f Hf) as (_ & ? & ? & _ & _ & ?). split; [done|]. split; [lia|by left].
  - rewrite (mr_same _ _ _ _ _ _ M) in Et; [|done|by right].
    destruct (S a pa fl' Ha Et) as (Hg & Hp & Hu). split; [|split; [done|]].
    + destruct (G !! pa) as [ro|] eqn:E; [|done]. destruct (mr_tables _ _ _ _ _ _ M pa) as [H1 H2]; [by rewrite E|done|].
      destruct Hu; [congruence|lia].
    + rewrite (mr_total _ _ _ _ _ _ M). destruct Hu as [Hu|]; [left|by right]. apply (mr_used _ _ _ _ _ _ M); [apply Z.div_pos; lia|done].
Qed.

Lemma space_frames G v r : space_ok G v r -> user_frames G v r.
Proof using Type. intros S a pa fl Ha Et. by destruct (S a pa fl Ha Et). Qed.

(** The clean-up after a failure gives back every frame of the run. *)
Lemma unwind_spec fl G0 v0 G v fs :
  mapped_run fl G0 v0 G v fs -> zlen fs <= n -> registered G0 (sp_pml4 s) -> space_ok G0 v0 (sp_pml4 s) ->
  (forall j, 0 <= j < zlen fs -> translate v0 (sp_pml4 s) (va j) = None) ->
  let v' := unmap_loop (Some s) false base (zlen fs) v in
  tree_inv K G v' /\ (forall r a, registered G0 r -> translate v' r a = translate v0 r a) /\ space_ok G v' (sp_pml4 s) /\
  (forall q, 0 < q -> used_get (vm_pmm v') q = true <-> used_get (vm_pmm v0) q = true \/
     (is_Some (G !! (q * 4096)) /\ used_get (vm_pmm v) q = true)).
Proof using Huser Hal Hlo Hhi.
  intros M Hl Hr S Hnone. cbv zeta. pose proof (mapped_run_space _ _ _ _ _ _ M Hl Hr S) as S1.
  assert (registered G (sp_pml4 s)) as HrG by (eapply lookup_weaken; [done|apply M]).
  destruct (unmap_loop_spec G v false (zlen fs) (mr_tree _ _ _ _ _ _ M) HrG (space_frames _ _ _ S1) Hl) as [I U1 U2 U3 U4 U5].
  set (v' := unmap_loop _ _ _ _ _) in *. clearbody v'.
  assert (forall r a, registered G0 r -> translate v' r a = translate v0 r a) as T.
  { intros r a Hreg. assert (registered G r) as HregG by (eapply lookup_weaken; [done|apply M]).
    destruct (decide (r = sp_pml4 s)) as [->|Hne]; [|rewrite U2 by auto; apply (mr_same _ _ _ _ _ _ M); auto].
    destruct (in_run_dec (zlen fs) a) as [(j & Hj & Ei)|Hno].
    - rewrite !(translate_indices _ _ _ _ Ei), U1, Hnone by lia. done.
    - rewrite U2 by auto. apply (mr_same _ _ _ _ _ _ M); auto. }
  assert (forall q, 0 <= q -> used_get (vm_pmm v0) q = true -> used_get (vm_pmm v') q = true) as Keep.
  { intros q Hq Hu. apply U5; [done|]. split; [by apply (mr_used _ _ _ _ _ _ M)|]. intros [(j & fl' & Hj & Ej) _].
    destruct (lookup_lt_is_Some_2 fs (Z.to_nat j)) as [f Ef]; [unfold zlen in *; lia|].
    pose proof (mr_map _ _ _ _ _ _ M _ _ Ef) as Em. rewrite Z2Nat.id in Em by lia. rewrite Ej in Em. injection Em as <- _.
    destruct (mr_fresh _ _ _ _ _ _ M _ (list_elem_of_lookup_2 _ _ _ Ef)) as (_ & _ & _ & _ & X & _). rewrite Z.div_mul in X by lia. congruence. }
  split; [done|]. split; [done|]. split.
  - intros a pa fl' Ha Et. rewrite T in Et by done. destruct (S a pa fl' Ha Et) as (_ & Hp & Hu).
    rewrite <- (T _ a) in Et by done. split; [|split; [done|]].
    + destruct (S1 a pa fl' Ha) as [? _]; [|done]. rewrite <- Et. symmetry. apply U2; [done|]. right. intros (j & Hj & Ei).
      rewrite (translate_indices _ _ _ _ Ei), U1 in Et by done. done.
    + rewrite U3, (mr_total _ _ _ _ _ _ M). destruct Hu as [Hu|]; [left|by right]. apply Keep; [apply Z.div_pos; lia|done].
  - intros q Hq. split.
    + intros Hu. apply U5 in Hu as [Hu Hn]; [|lia]. destruct (mr_new _ _ _ _ _ _ M q Hq Hu) as [?|[Hin|?]]; [by left| |by right].
      exfalso. apply Hn. apply list_elem_of_lookup_1 in Hin as [j Ej]. pose proof (lookup_lt_Some _ _ _ Ej).
      destruct (mr_fresh _ _ _ _ _ _ M _ (list_elem_of_lookup_2 _ _ _ Ej)) as (_ & _ & _ & X & Y & _). rewrite Z.div_mul in * by lia.
      split; [exists (Z.of_nat j), fl; split; [unfold zlen; lia|by apply (mr_map _ _ _ _ _ _ M)]|]. rewrite (mr_total _ _ _ _ _ _ M). split; [done|].
      pose proof (mr_unresv _ _ _ _ _ _ M _ (list_elem_of_lookup_2 _ _ _ Ej)) as Zv. rewrite Z.div_mul in Zv by lia.
      unfold resv_get in *. by rewrite (mr_resv _ _ _ _ _ _ M).
    + intros [Hu|[Hg Hu]]; [apply Keep; [lia|done]|]. apply U5; [lia|]. split; [done|]. intros [(j & fl' & Hj & Ej) _].
      destruct (lookup_lt_is_Some_2 fs (Z.to_nat j)) as [f Ef]; [unfold zlen in *; lia|].
      pose proof (mr_map _ _ _ _ _ _ M _ _ Ef) as Em. rewrite Z2Nat.id in Em by lia. rewrite Ej in Em. injection Em as <- _.
      destruct (mr_fresh _ _ _ _ _ _ M _ (list_elem_of_lookup_2 _ _ _ Ef)) as (_ & _ & X & _). rewrite X in Hg. by destruct Hg.
Qed.
End run.

(** ** Properties of the mapping system calls *)

Lemma bad_range_spec a np :
  0 <= a < 2 ^ 64 -> 0 <= np < 2 ^ 52 ->
  bad_range a np = false <-> aligned a /\ USER_VA_BASE <= a /\ a + np * 4096 <= USER_VA_TOP.
Proof.
  intros Ha Hn. unfold bad_range. cbv zeta. unfold PAGE_SIZE. rewrite (u64_small (np * 4096)) by lia.
  rewrite !orb_false_iff. change (4096 - 1) with (PAGE_SIZE - 1). rewrite has_page_aligned, !Z.ltb_ge.
  assert (0 <= a + np * 4096 < 2 ^ 65) as Hb by lia. unfold USER_VA_BASE, USER_VA_TOP.
  destruct (Z_lt_le_dec (a + np * 4096) (2 ^ 64)) as [Hs|Hs].
  - rewrite u64_small by lia. naive_solver lia.
  - assert (u64 (a + np * 4096) = a + np * 4096 - 2 ^ 64) as -> by (unfold u64; rewrite <- (Z_mod_plus_full _ (-1)); apply Z.mod_small; lia).
    split; intros; exfalso; naive_solver lia.
Qed.

Lemma existsb_query_none v s base np :
  existsb (fun i => match vmm_query (Some s) (u64 (base + i * PAGE_SIZE)) v with Some _ => true | None => false end) (seqZ 0 np) = false ->
  base + np * 4096 <= USER_VA_TOP -> 0 <= base -> free_run v s base np.
Proof.
  intros E Hb H0 j Hj. unfold unmapped. unfold USER_VA_TOP in Hb.
  destruct (vmm_query (Some s) (base + j * 4096) v) eqn:Eq; [|done]. exfalso.
  apply not_true_iff_false in E. apply E, existsb_exists. exists j. split; [apply list_elem_of_In, elem_of_seqZ; lia|].
  unfold PAGE_SIZE. rewrite u64_small by lia. by rewrite Eq.
Qed.

Lemma existsb_query_some v s base np :
  existsb (fun i => match vmm_query (Some s) (u64 (base + i * PAGE_SIZE)) v with Some _ => false | None => true end) (seqZ 0 np) = false <->
  forall j, 0 <= j < np -> vmm_query (Some s) (u64 (base + j * PAGE_SIZE)) v <> None.
Proof.
  rewrite <- not_true_iff_false, existsb_exists. split.
  - intros E j Hj Eq. apply E. exists j. split; [apply list_elem_of_In, elem_of_seqZ; lia|by rewrite Eq].
  - intros H (j & Hj%list_elem_of_In%elem_of_seqZ & E). specialize (H j ltac:(lia)). by destruct (vmm_query _ _ _).
Qed.

(** What [SYS_MAP] returns and leaves, with [np] pages requested. *)
Record map_result (K : Z) (G : gmap Z (Z * list Z)) (v : vm) (sp : vmm_space) (np fl r : Z) (v' : vm) : Prop := {
  res_fail : r < 0 -> exists G', G ⊆ G' /\ tree_inv K G' v' /\ space_ok G' v' (sp_pml4 sp) /\
    (forall r' a, registered G r' -> translate v' r' a = translate v r' a) /\
    (forall k, 0 < k -> used_get (vm_pmm v') k = true -> used_get (vm_pmm v) k = true \/ is_Some (G' !! (k * 4096)));
  res_ok : 0 <= r -> aligned r /\ USER_VA_BASE <= r /\ r + np * 4096 <= USER_VA_TOP /\
    exists G' fs, G ⊆ G' /\ tree_inv K G' v' /\ space_ok G' v' (sp_pml4 sp) /\ zlen fs = np /\ NoDup fs /\
      (forall j f, fs !! j = Some f -> translate v (sp_pml4 sp) (r + Z.of_nat j * 4096) = None /\
         translate v' (sp_pml4 sp) (r + Z.of_nat j * 4096) = Some (f, fl) /\ used_get (vm_pmm v) (f / 4096) = false) /\
      (forall r' a, registered G r' -> r' <> sp_pml4 sp \/ ~ in_run r np a -> translate v' r' a = translate v r' a) }.

Lemma map_result_error K G v sp np fl e :
  tree_inv K G v -> space_ok G v (sp_pml4 sp) -> 0 < e -> map_result K G v sp np fl (SYSRET_ERR e) v.
Proof. intros I S He. split; unfold SYSRET_ERR; [|lia]. intros _. exists G. auto 10. Qed.

(** The loop and the clean-up from a checked base address. *)
Lemma map_go_spec K G v sp base np fl :
  tree_inv K G v -> registered G (sp_pml4 sp) -> sp_is_kernel sp = 0 -> space_ok G v (sp_pml4 sp) ->
  aligned base -> USER_VA_BASE <= base -> base + np * 4096 <= USER_VA_TOP -> 0 < np -> free_run v sp base np -> Z.land fl 15 = fl ->
  exists b i v', map_loop (Z.to_nat np) (Some sp) base fl 0 v = (b, i, v') /\
    (b = true -> map_result K G v sp np fl base v') /\
    (b = false -> map_result K G v sp np fl (SYSRET_ERR ENOMEM) (unmap_loop (Some sp) false base i v')).
Proof.
  intros I Hr Hk S Hal Hlo Hhi Hn Hfree Hfl.
  destruct (map_loop_spec K sp base np Hk Hal Hlo Hhi fl G v (Z.to_nat np) G v []) as (b & i & v' & G' & fs & E & M & -> & Hle & Hb);
    [by apply mapped_run_nil|done|change (zlen []) with 0; lia|done|].
  change (zlen (@nil Z)) with 0 in *. exists b, (zlen fs), v'. split; [done|].
  assert (forall j, 0 <= j < np -> translate v (sp_pml4 sp) (va base j) = None) as Hnone.
  { intros j Hj. destruct (va_ok sp base np Hk Hal Hlo Hhi j Hj) as (Aj & _). rewrite <- (query_translate K G v sp) by (done || by apply has_page_aligned).
    by apply Hfree. }
  split; intros ->.
  - specialize (Hb eq_refl). split; [unfold USER_VA_BASE in Hlo; lia|]. intros _. split; [done|]. split; [done|]. split; [done|]. exists G', fs.
    split; [apply M|]. split; [apply M|]. split; [by eapply (mapped_run_space K sp base np)|]. split; [lia|]. split; [apply M|]. split.
    + intros j f Ej. pose proof (lookup_lt_Some _ _ _ Ej). unfold zlen in *. split; [apply Hnone; lia|]. split; [by apply (mr_map _ _ _ _ _ _ _ _ _ M)|].
      apply (mr_fresh _ _ _ _ _ _ _ _ _ M). by eapply list_elem_of_lookup_2.
    + intros r' a Hreg Hd. apply (mr_same _ _ _ _ _ _ _ _ _ M); [done|]. by replace (zlen fs) with np by lia.
  - split; [|unfold SYSRET_ERR, ENOMEM; lia]. intros _.
    destruct (unwind_spec K sp base np Hk Hal Hlo Hhi fl G v G' v' fs M Hle Hr S) as (I' & T' & S' & U'); [intros; apply Hnone; lia|].
    exists G'. split; [apply M|]. split; [done|]. split; [done|]. split; [done|]. intros k Hk0 Hu. apply U' in Hu; [|done]. tauto.
Qed.

(** C20: [SYS_MAP] of a running process either returns an error and leaves every
    translation of every space, the process and the free pages as they were (new
    page tables apart), or maps exactly the requested run of pages, which was
    unmapped, to distinct frames that were free, with user access and the
    requested write permission, inside the user window, at the hint when one is
    given; no other translation of any space changes, and the page tables stay
    well formed. *)
Theorem sys_map_correct (K : Z) (G : gmap Z (Z * list Z)) (v : vm) (sp : vmm_space) (q : process_t) (hint npages flags : Z) :
  tree_inv K G v -> registered G (sp_pml4 sp) -> sp_is_kernel sp = 0 -> space_ok G v (sp_pml4 sp) ->
  USER_VA_BASE <= next_map_va q < 2 ^ 61 -> 0 <= hint < 2 ^ 64 -> 0 <= npages < 2 ^ 64 ->
  exists r q' v', sys_map (Some q) sp hint npages flags v = (r, Some q', v') /\
    map_result K G v sp npages (if has flags VM_WRITE then 7 else 5) r v' /\
    (r < 0 -> q' = q) /\
    (0 <= r -> 0 < npages <= MAP_MAX_PAGES /\ (hint <> 0 -> r = hint /\ q' = q) /\
       (hint = 0 -> next_map_va q <= r /\ q' = set_next_map_va (r + npages * 4096) q)) /\
    (npages = 0 \/ MAP_MAX_PAGES < npages -> r = SYSRET_ERR EINVAL).
Proof.
  intros I Hr Hk S Hnx Hh Hnp. unfold sys_map, MAP_MAX_PAGES.
  assert (forall e, 0 < e -> map_result K G v sp npages (if has flags VM_WRITE then 7 else 5) (SYSRET_ERR e) v) as Err
    by (intros; by apply map_result_error).
  assert (forall e, 0 < e -> 0 <= SYSRET_ERR e -> False) as Neg by (unfold SYSRET_ERR; intros; lia).
  destruct ((npages =? 0) || (1024 <? npages)) eqn:Ec.
  { exists (SYSRET_ERR EINVAL), q, v. split; [done|]. split; [by apply Err|]. split; [done|]. split; [by intros Hx; apply Neg in Hx|auto]. }
  apply orb_false_iff in Ec as [Ec1%Z.eqb_neq Ec2%Z.ltb_ge].
  assert (forall r, npages = 0 \/ 1024 < npages -> r = SYSRET_ERR EINVAL) as Hno by (intros; lia).
  destruct (Z.land flags (u64 (Z.lnot VM_WRITE)) =? 0); cbn [negb].
  2:{ exists (SYSRET_ERR EINVAL), q, v. split; [done|]. split; [by apply Err|]. split; [done|]. split; [by intros Hx; apply Neg in Hx|auto]. }
  cbv zeta. set (fl := if has flags VM_WRITE then Z.lor (Z.lor VM_PRESENT VM_USER) VM_WRITE else _).
  assert (fl = if has flags VM_WRITE then 7 else 5) as Efl by by unfold fl; destruct (has flags VM_WRITE). rewrite <- Efl in *.
  assert (Z.land fl 15 = fl) as Hfl by (rewrite Efl; by destruct (has flags VM_WRITE)). clearbody fl. clear Efl.
  destruct (Z.eqb_spec hint 0) as [->|Hh0].
  - destruct (find_loop_result v sp (next_map_va q) npages) as [->|(Hn0 & Hb & Hal & Hfree)];
      [unfold USER_VA_BASE in Hnx; lia|lia| |].
    { exists (SYSRET_ERR ENOMEM), q, v. split; [done|]. split; [by apply Err|]. split; [done|]. split; [by intros Hx; apply Neg in Hx|auto]. }
    set (base := find_map_va _ _ _ _) in *. clearbody base. rewrite (proj2 (Z.eqb_neq base 0) Hn0).
    assert (USER_STACK_TOP_INIT <= USER_VA_TOP) as Htop by done.
    destruct (map_go_spec K G v sp base npages fl I Hr Hk S Hal ltac:(lia) ltac:(lia) ltac:(lia) Hfree Hfl)
      as (b & i & v' & E & Rt & Rf). rewrite E. unfold USER_VA_TOP, USER_STACK_TOP_INIT, USER_VA_BASE in *. destruct b.
    + rewrite i64_small by lia. unfold PAGE_SIZE. rewrite (u64_small (npages * 4096)), u64_small by lia.
      eexists _, _, _. split; [done|]. split; [by apply Rt|]. split; [lia|]. split; [|auto].
      intros _. split; [lia|]. split; [done|]. intros _. split; [lia|done].
    + eexists _, _, _. split; [done|]. split; [by apply Rf|]. split; [done|]. split; [by intros Hx; apply Neg in Hx|auto].
  - destruct (bad_range hint npages) eqn:Eb.
    { exists (SYSRET_ERR EINVAL), q, v. split; [done|]. split; [by apply Err|]. split; [done|]. split; [by intros Hx; apply Neg in Hx|auto]. }
    apply bad_range_spec in Eb as (Hal & Hlo & Hhi); [|lia..].
    match goal with |- context [existsb ?f ?l] => destruct (existsb f l) eqn:Ex end.
    { exists (SYSRET_ERR EEXIST), q, v. split; [done|]. split; [by apply Err|]. split; [done|]. split; [by intros Hx; apply Neg in Hx|auto]. }
    apply existsb_query_none in Ex; [|done|lia].
    destruct (map_go_spec K G v sp hint npages fl I Hr Hk S Hal Hlo Hhi ltac:(lia) Ex Hfl) as (b & i & v' & E & Rt & Rf).
    rewrite E. destruct b.
    + unfold USER_VA_TOP in Hhi. rewrite i64_small by lia. eexists _, _, _. split; [done|]. split; [by apply Rt|]. split; [lia|].
      split; [|auto]. intros _. split; [lia|]. split; [done|lia].
    + eexists _, _, _. split; [done|]. split; [by apply Rf|]. split; [done|]. split; [by intros Hx; apply Neg in Hx|auto].
Qed.

Lemma demo_space_ok :
  exists G, tree_inv demo_K G demo_user_vm /\ registered G demo_U /\ space_ok G demo_user_vm demo_U.
Proof.
  destruct demo_user_spec as (G & I & Hr & _ & Hn & T). exists G. split; [exact I|]. split; [exact Hr|].
  intros a pa fl Ha. rewrite T by exact Ha. case_decide; [|discriminate]. intros [= <- <-]. split; [exact Hn|].
  split; [unfold demo_frame; lia|]. right. vm_compute. discriminate.
Qed.

Lemma sys_map_correct_witness :
  exists r q' v', sys_map (Some (demo_proc 1 0 1 handle_table_init 0)) demo_user 0 2 VM_WRITE demo_user_vm = (r, Some q', v') /\
    r = USER_VA_BASE + 4096 /\ exists f, translate v' demo_U r = Some (f, 7).
Proof.
  destruct demo_space_ok as (G & I & Hr & S).
  destruct (sys_map_correct demo_K G demo_user_vm demo_user (demo_proc 1 0 1 handle_table_init 0) 0 2 VM_WRITE I Hr eq_refl S)
    as (r & q' & v' & E & R & _); [cbn; unfold USER_VA_BASE; lia|lia|lia|].
  assert (r = USER_VA_BASE + 4096) as Er.
  { change r with (fst (fst (r, Some q', v'))). rewrite <- E. vm_compute. reflexivity. }
  exists r, q', v'. split; [exact E|]. split; [exact Er|].
  destruct (res_ok _ _ _ _ _ _ _ _ R) as (_ & _ & _ & G' & fs & _ & _ & _ & L & _ & M & _); [rewrite Er; unfold USER_VA_BASE; lia|].
  destruct fs as [|f fs]; [discriminate L|]. destruct (M 0%nat f eq_refl) as (_ & H & _). exists f.
  change (Z.of_nat 0 * 4096) with 0 in H. rewrite Z.add_0_r in H. exact H.
Defined.

(** [SYS_UNMAP] succeeds exactly on a non-empty run of user pages that are
    all mapped; it then removes exactly those translations and gives back their
    frames (every one that is tracked and not reserved), and otherwise returns
    an error and changes nothing, so a run is never half unmapped. *)
Theorem sys_unmap_correct (K : Z) (G : gmap Z (Z * list Z)) (v : vm) (sp : vmm_space) (q : process_t) (vaddr npages : Z) :
  tree_inv K G v -> registered G (sp_pml4 sp) -> sp_is_kernel sp = 0 -> user_frames G v (sp_pml4 sp) ->
  0 <= vaddr < 2 ^ 64 -> 0 <= npages < 2 ^ 52 ->
  exists r v', sys_unmap (Some q) sp vaddr npages v = (r, v') /\
    (r = 0 <-> 0 < npages /\ aligned vaddr /\ USER_VA_BASE <= vaddr /\ vaddr + npages * 4096 <= USER_VA_TOP /\
       forall j, 0 <= j < npages -> translate v (sp_pml4 sp) (vaddr + j * 4096) <> None) /\
    (r <> 0 -> r < 0 /\ v' = v) /\
    (r = 0 -> unmapped_run K sp vaddr G v npages v').
Proof.
  intros I Hr Hk F Hva Hnp. unfold sys_unmap.
  destruct (Z.eqb_spec npages 0) as [->|Hn0].
  { exists (SYSRET_ERR EINVAL), v. split; [done|]. split; [|done]. split; [done|lia]. }
  destruct (bad_range vaddr npages) eqn:Eb.
  { exists (SYSRET_ERR EINVAL), v. split; [done|]. split; [|done]. split; [done|]. intros (_ & H1 & H2 & H3 & _).
    exfalso. apply not_false_iff_true in Eb. apply Eb, bad_range_spec; [lia|lia|done]. }
  apply bad_range_spec in Eb as (Hal & Hlo & Hhi); [|lia..].
  assert (forall j, 0 <= j < npages -> vmm_query (Some sp) (u64 (vaddr + j * PAGE_SIZE)) v = translate v (sp_pml4 sp) (vaddr + j * 4096)) as Q.
  { intros j Hj. destruct (va_ok sp vaddr npages Hk Hal Hlo Hhi j Hj) as (Aj & _ & -> & _).
    apply (query_translate K G); [done|done|by apply has_page_aligned]. }
  match goal with |- context [existsb ?f ?l] => destruct (existsb f l) eqn:Ex end.
  { exists (SYSRET_ERR ENOENT), v. split; [done|]. split; [|done]. split; [done|]. intros (_ & _ & _ & _ & Hall).
    exfalso. apply not_false_iff_true in Ex. apply Ex, existsb_query_some. intros j Hj. rewrite Q by done. by apply Hall. }
  rewrite existsb_query_some in Ex. eexists _, _. split; [done|]. split.
  - split; [|done]. intros _. split; [lia|]. split; [done|]. split; [done|]. split; [done|]. intros j Hj. rewrite <- Q by done. by apply Ex.
  - split; [done|]. intros _. by apply (unmap_loop_spec K sp vaddr npages).
Qed.

Lemma sys_unmap_correct_witness :
  exists v', sys_unmap (Some (demo_proc 1 0 1 handle_table_init 0)) demo_user USER_VA_BASE 1 demo_user_vm = (0, v') /\
    translate v' demo_U USER_VA_BASE = None.
Proof.
  destruct demo_space_ok as (G & I & Hr & S).
  destruct (sys_unmap_correct demo_K G demo_user_vm demo_user (demo_proc 1 0 1 handle_table_init 0) USER_VA_BASE 1 I Hr eq_refl
    (space_frames _ _ _ S)) as (r & v' & E & _ & _ & H); [unfold USER_VA_BASE; lia|lia|].
  assert (r = 0) as ->.
  { change r with (fst (r, v')). rewrite <- E. vm_compute. reflexivity. }
  exists v'. split; [exact E|]. pose proof (ur_none _ _ _ _ _ _ _ (H eq_refl) 0 ltac:(lia)) as Hn.
  unfold va in Hn. rewrite Z.add_0_r in Hn. exact Hn.
Defined.

(** The frames [SYS_MAP] hands out are not cleared: a process reads in its
    new page whatever the frame's last user left there. *)
Theorem sys_map_not_cleared :
  let v := with_mem demo_user_vm (<[0x5000 := 0x41]> (vm_mem demo_user_vm)) in
  let '(r, _, v') := sys_map (Some (demo_proc 1 0 1 handle_table_init 0)) demo_user (USER_VA_BASE + 4096) 1 0 v in
  r = USER_VA_BASE + 4096 /\ user_byte v' r = 0x41.
Proof. vm_compute. split; reflexivity. Qed.
