(* ===== verification/Str.v ===== *)
(** * String and memory functions of the C library

    [userspace/libc/string.c].  A pointer into a byte array is the list of the
    bytes from it to the end of the array; a returned pointer is an offset, and
    [None] the null pointer.  Functions that write take the destination array
    and return it.  Loops that walk a string recurse on the array, so a string
    without a terminator ends with the array; the theorems are about strings
    that have one. *)
From S2P Require Import Prelude Bytes Errno Iface.

(** ** Memory *)

Definition memcpy (dst src : list Z) (n : Z) : list Z := copy_loop dst 0 src 0 n.

(** Both pointers are offsets into one array, so that regions may overlap. *)
Definition memmove (mem : list Z) (d s n : Z) : list Z :=
  if d <? s then foldl (fun m i => zset m (d + i) (zget 0 m (s + i))) mem (seqZ 0 n)
  else if s <? d then foldl (fun m i => zset m (d + i - 1) (zget 0 m (s + i - 1))) mem (reverse (seqZ 1 n))
  else mem.

Definition memset (dst : list Z) (c n : Z) : list Z := fill_loop dst 0 (u8 c) n.

(** The loops of [memcmp], [memchr] and [strncmp] run at most [n] turns. *)
Fixpoint memcmp (x y : list Z) (n : nat) : Z :=
  match n with
  | O => 0
  | S n =>
    let a := zget 0 x 0 in let b := zget 0 y 0 in
    if a =? b then memcmp (tail x) (tail y) n else a - b
  end.

Fixpoint memchr_loop (p : list Z) (ch : Z) (n : nat) (i : Z) : option Z :=
  match n with
  | O => None
  | S n => if zget 0 p 0 =? ch then Some i else memchr_loop (tail p) ch n (i + 1)
  end.
Definition memchr (s : list Z) (c : Z) (n : nat) : option Z := memchr_loop s (u8 c) n 0.

(** ** Length and comparison *)

Fixpoint strlen (s : list Z) : Z :=
  match s with
  | [] => 0
  | c :: s => if c =? 0 then 0 else 1 + strlen s
  end.

Fixpoint strcmp (a b : list Z) : Z :=
  match a, b with
  | x :: a, y :: b => if negb (x =? 0) && (x =? y) then strcmp a b else x - y
  | _, _ => zget 0 a 0 - zget 0 b 0
  end.

Fixpoint strncmp (a b : list Z) (n : nat) : Z :=
  match n with
  | O => 0
  | S n =>
    let ca := zget 0 a 0 in let cb := zget 0 b 0 in
    if negb (ca =? cb) then ca - cb
    else if ca =? 0 then 0
    else strncmp (tail a) (tail b) n
  end.

(** ** Copying *)

(** The copying loop of [strcpy] and [strcat], [d] at offset [i] of [dst]. *)
Fixpoint copy_str (dst : list Z) (i : Z) (src : list Z) : list Z :=
  match src with
  | [] => dst
  | c :: src =>
    let dst := zset dst i c in
    if c =? 0 then dst else copy_str dst (i + 1) src
  end.

Definition strcpy (dst src : list Z) : list Z := copy_str dst 0 src.
Definition strcat (dst src : list Z) : list Z := copy_str dst (strlen dst) src.

(** [for (; i < n && src[i]; ++i) dst[off + i] = src[i]]: the array and [i]. *)
Fixpoint copy_bounded (dst : list Z) (off i : Z) (src : list Z) (n : nat) {struct n} : list Z * Z :=
  match n, src with
  | S n, c :: src => if c =? 0 then (dst, i) else copy_bounded (zset dst (off + i) c) off (i + 1) src n
  | _, _ => (dst, i)
  end.

Definition strncpy (dst src : list Z) (n : Z) : list Z :=
  let '(d, i) := copy_bounded dst 0 0 src (Z.to_nat n) in fill_loop d i 0 (n - i).

Definition strncat (dst src : list Z) (n : Z) : list Z :=
  let off := strlen dst in
  let '(d, i) := copy_bounded dst off 0 src (Z.to_nat n) in zset d (off + i) 0.

(** ** Searching *)

Fixpoint strchr_loop (s : list Z) (ch i : Z) : option Z :=
  match s with
  | [] => None
  | c :: s => if c =? ch then Some i else if c =? 0 then None else strchr_loop s ch (i + 1)
  end.
Definition strchr (s : list Z) (c : Z) : option Z := strchr_loop s (u8 c) 0.

Fixpoint strrchr_loop (s : list Z) (ch i : Z) (last : option Z) : option Z :=
  match s with
  | [] => last
  | c :: s =>
    let last := if c =? ch then Some i else last in
    if c =? 0 then last else strrchr_loop s ch (i + 1) last
  end.
Definition strrchr (s : list Z) (c : Z) : option Z := strrchr_loop s (u8 c) 0 None.

(** The inner loop of [strstr]; true when the needle is exhausted. *)
Fixpoint match_here (h n : list Z) {struct n} : bool :=
  match n with
  | [] => true
  | y :: n' =>
    if y =? 0 then true
    else match h with
         | [] => false
         | x :: h' => if negb (x =? 0) && (x =? y) then match_here h' n' else false
         end
  end.

Fixpoint strstr_loop (h n : list Z) (i : Z) : option Z :=
  match h with
  | [] => None
  | x :: h' => if x =? 0 then None else if match_here h n then Some i else strstr_loop h' n (i + 1)
  end.
Definition strstr (h n : list Z) : option Z := if zget 0 n 0 =? 0 then Some 0 else strstr_loop h n 0.

(** The inner loop over a set of characters: is [c] in it? *)
Fixpoint in_set (set : list Z) (c : Z) : bool :=
  match set with
  | [] => false
  | a :: set => if a =? 0 then false else if a =? c then true else in_set set c
  end.

Fixpoint strpbrk_loop (s accept : list Z) (i : Z) : option Z :=
  match s with
  | [] => None
  | c :: s => if c =? 0 then None else if in_set accept c then Some i else strpbrk_loop s accept (i + 1)
  end.
Definition strpbrk (s accept : list Z) : option Z := strpbrk_loop s accept 0.

Fixpoint strspn (s accept : list Z) : Z :=
  match s with
  | [] => 0
  | c :: s => if c =? 0 then 0 else if in_set accept c then 1 + strspn s accept else 0
  end.

Fixpoint strcspn (s reject : list Z) : Z :=
  match s with
  | [] => 0
  | c :: s => if c =? 0 then 0 else if in_set reject c then 0 else 1 + strcspn s reject
  end.

(** The static [save] pointer is an offset into the string being split, which
    is changed in place; [None] is the null pointer.  The first loop moves
    [save] over delimiters, the second to the end of the token. *)
Fixpoint skip_delims (s delim : list Z) (i : Z) : Z :=
  match s with
  | [] => i
  | c :: s => if c =? 0 then i else if in_set delim c then skip_delims s delim (i + 1) else i
  end.

Fixpoint token_end (s delim : list Z) (i : Z) : option Z :=
  match s with
  | [] => None
  | c :: s => if c =? 0 then None else if in_set delim c then Some i else token_end s delim (i + 1)
  end.

Definition strtok (save : option Z) (mem delim : list Z) : option Z * option Z * list Z :=
  match save with
  | None => (None, None, mem)
  | Some sv =>
    let sv := skip_delims (drop (Z.to_nat sv) mem) delim sv in
    if zget 0 mem sv =? 0 then (None, None, mem)
    else
      match token_end (drop (Z.to_nat sv) mem) delim sv with
      | Some e => (Some sv, Some (e + 1), zset mem e 0)
      | None => (Some sv, None, mem)
      end
  end.

(** ** strerror: the text for a number without a name *)

Definition unknown_prefix : list Z := [85; 110; 107; 110; 111; 119; 110; 32; 101; 114; 114; 111; 114; 32].

(** [while (u) { digits[dn++] = '0' + u % 10; u /= 10; }], at most 10 turns. *)
Fixpoint digits_loop (fuel : nat) (u : Z) (ds : list Z) : list Z :=
  match fuel with
  | O => ds
  | S fuel => if u =? 0 then ds else digits_loop fuel (u / 10) (ds ++ [48 + u mod 10])
  end.

Definition strerror_unknown (errnum : Z) : list Z :=
  let neg := errnum <? 0 in
  let u := if neg then u32 (u32 (- (errnum + 1)) + 1) else u32 errnum in
  let digits := if u =? 0 then [48] else digits_loop 11 u [] in
  unknown_prefix ++ (if neg then [45] else []) ++ reverse digits ++ [0].

Definition byte_list (s : string) : list Z := (fun a => Z.of_nat (Ascii.nat_of_ascii a)) <$> String.list_ascii_of_string s.

(** The [switch] of [strerror]. *)
Definition strerror_names : list (Z * string) := [
  (E_OK, "Success"); (EPERM, "Operation not permitted"); (ENOENT, "No such file or directory");
  (ESRCH, "No such process"); (EINTR, "Interrupted system call"); (EIO, "Input/output error");
  (ENXIO, "No such device or address"); (E2BIG, "Argument list too long"); (ENOEXEC, "Exec format error");
  (EBADF, "Bad file descriptor"); (ECHILD, "No child processes"); (EAGAIN, "Resource temporarily unavailable");
  (ENOMEM, "Cannot allocate memory"); (EACCES, "Permission denied"); (EFAULT, "Bad address");
  (EBUSY, "Device or resource busy"); (EEXIST, "File exists"); (ENODEV, "No such device");
  (ENOTDIR, "Not a directory"); (EISDIR, "Is a directory"); (EINVAL, "Invalid argument");
  (ENFILE, "Too many open files in system"); (EMFILE, "Too many open files"); (ENOSPC, "No space left on device");
  (ESPIPE, "Illegal seek"); (EROFS, "Read-only file system"); (EPIPE, "Broken pipe");
  (ERANGE, "Numerical result out of range"); (ENAMETOOLONG, "File name too long");
  (ENOSYS, "Function not implemented"); (ENOTEMPTY, "Directory not empty") ]%string.

Definition strerror (errnum : Z) : list Z :=
  match List.find (fun p => fst p =? errnum) strerror_names with
  | Some (_, s) => byte_list s ++ [0]
  | None => strerror_unknown errnum
  end.

(** ** The string an array holds *)

Fixpoint cstr (s : list Z) : list Z :=
  match s with
  | [] => []
  | c :: s => if c =? 0 then [] else c :: cstr s
  end.

Lemma cstr_no_nul s : 0 ∉ cstr s.
Proof.
  induction s as [|c s IH]; simpl; [set_solver|]. destruct (Z.eqb_spec c 0); [set_solver|].
  apply not_elem_of_cons. split; [done|done].
Qed.

Lemma cstr_app s t : 0 ∉ s -> cstr (s ++ 0 :: t) = s.
Proof.
  induction s as [|c s IH]; simpl; [done|]. intros [Hc Hs]%not_elem_of_cons.
  rewrite (proj2 (Z.eqb_neq c 0)) by done. by rewrite IH.
Qed.

Lemma cstr_split s : 0 ∈ s -> exists t, s = cstr s ++ 0 :: t.
Proof.
  induction s as [|c s IH]; intros H; [by apply not_elem_of_nil in H|]. simpl. destruct (Z.eqb_spec c 0) as [->|Hc]; [by exists s|].
  destruct IH as [t Et]; [set_solver|]. exists t. simpl. by rewrite <- Et.
Qed.

Lemma strlen_cstr s : strlen s = zlen (cstr s).
Proof.
  unfold zlen. induction s as [|c s IH]; simpl; [done|]. destruct (c =? 0); simpl; [done|]. rewrite IH. lia.
Qed.

(** ** memmove *)

Definition moved (mem mem' : list Z) (d s n : Z) : Prop :=
  zlen mem' = zlen mem /\
  forall j, 0 <= j -> zget 0 mem' j = if (d <=? j) && (j <? d + n) then zget 0 mem (s + (j - d)) else zget 0 mem j.

Lemma move_up mem d s n :
  0 <= d < s -> d + n <= zlen mem -> s + n <= zlen mem ->
  moved mem (foldl (fun m i => zset m (d + i) (zget 0 m (s + i))) mem (seqZ 0 n)) d s n.
Proof.
  intros Hd. pattern n. revert n. apply seqZ_ind.
  - intros n Hn _ _. rewrite seqZ_nonpos by done. split; [done|]. intros j Hj. by zif; [lia|].
  - intros n Hn IH H1 H2. destruct IH as [L G]; [lia..|]. rewrite foldl_seqZ_snoc by done. split; [by rewrite zlen_zset|].
    intros j Hj. rewrite zget_zset by lia. rewrite (G (s + n)) by lia. rewrite (G j) by lia.
    destruct (Z.eqb_spec (d + n) j), (Z.leb_spec d j), (Z.ltb_spec j (d + (n + 1))), (Z.ltb_spec j (d + n)),
      (Z.leb_spec d (s + n)), (Z.ltb_spec (s + n) (d + n)); simpl; try lia; subst; try done.
    f_equal. lia.
Qed.

Lemma move_down mem d s n :
  0 <= s < d -> 0 <= n -> d + n <= zlen mem ->
  moved mem (foldl (fun m i => zset m (d + i - 1) (zget 0 m (s + i - 1))) mem (reverse (seqZ 1 n))) d s n.
Proof.
  intros Hd Hn. revert mem. pattern n. revert n Hn. apply natlike_ind.
  - intros mem _. split; [done|]. intros j Hj. by zif; [lia|].
  - intros n Hn IH mem Hb. rewrite <- Z.add_1_r in *. rewrite seqZ_app, reverse_app by lia.
    change (reverse (seqZ (1 + n) 1)) with [1 + n]. simpl.
    destruct (IH (zset mem (d + (1 + n) - 1) (zget 0 mem (s + (1 + n) - 1)))) as [L G]; [rewrite zlen_zset; lia|].
    split; [by rewrite L, zlen_zset|]. intros j Hj. rewrite G by done.
    destruct (Z.leb_spec d j), (Z.ltb_spec j (d + n)), (Z.ltb_spec j (d + (n + 1))); simpl; try lia; rewrite zget_zset by lia;
      destruct (Z.eqb_spec (d + (1 + n) - 1) (s + (j - d))), (Z.eqb_spec (d + (1 + n) - 1) j); try lia; try done.
    f_equal. lia.
Qed.

(** [memmove] leaves in the destination exactly the bytes the source held
    before the call, also when the regions overlap in either direction, and
    changes nothing else. *)
Theorem memmove_correct (mem : list Z) (d s n : Z) :
  0 <= d -> 0 <= s -> 0 <= n -> d + n <= zlen mem -> s + n <= zlen mem ->
  zlen (memmove mem d s n) = zlen mem /\
  slice (memmove mem d s n) d n = slice mem s n /\
  forall j, 0 <= j -> ~ (d <= j < d + n) -> zget 0 (memmove mem d s n) j = zget 0 mem j.
Proof.
  intros Hd Hs Hn H1 H2.
  assert (moved mem (memmove mem d s n) d s n) as [L G].
  { unfold memmove. destruct (Z.ltb_spec d s); [by apply move_up|]. destruct (Z.ltb_spec s d); [by apply move_down|].
    assert (d = s) as -> by lia. split; [done|]. intros j Hj. zif; [f_equal; lia|done]. }
  split; [done|]. split.
  - apply slice_ext. intros i Hi. rewrite G by lia. zif; [f_equal; lia|]. apply andb_false_iff in Heqb as [?|?]; zb; lia.
  - intros j Hj Ho. rewrite G by done. by zif; [lia|].
Qed.

(** A region moved up by one over itself, and back. *)
Lemma memmove_correct_witness :
  memmove [1; 2; 3; 4; 5] 1 0 4 = [1; 1; 2; 3; 4] /\ slice (memmove [1; 2; 3; 4; 5] 0 1 4) 0 4 = [2; 3; 4; 5].
Proof.
  split; [reflexivity|].
  destruct (memmove_correct [1; 2; 3; 4; 5] 0 1 4 ltac:(lia) ltac:(lia) ltac:(lia) ltac:(vm_compute; discriminate) ltac:(vm_compute; discriminate))
    as (_ & H & _). exact H.
Defined.

(** ** Comparison *)

(** Dictionary order of byte strings. *)
Fixpoint lex (a b : list Z) : comparison :=
  match a, b with
  | [], [] => Eq
  | [], _ => Lt
  | _, [] => Gt
  | x :: a, y :: b => match x ?= y with Eq => lex a b | c => c end
  end.

Lemma lex_eq a b : lex a b = Eq <-> a = b.
Proof.
  revert b. induction a as [|x a IH]; intros [|y b]; simpl; try done.
  destruct (Z.compare_spec x y) as [->|H|H]; [rewrite IH; naive_solver|naive_solver lia..].
Qed.

Definition bytes (s : list Z) : Prop := Forall (fun c => 0 <= c < 256) s.

Lemma strncmp_step a b n :
  strncmp a b (S n) = if negb (zget 0 a 0 =? zget 0 b 0) then zget 0 a 0 - zget 0 b 0
                      else if zget 0 a 0 =? 0 then 0 else strncmp (tail a) (tail b) n.
Proof. done. Qed.

Lemma compare_sub x y : x - y ?= 0 = (x ?= y).
Proof. destruct (Z.compare_spec x y), (Z.compare_spec (x - y) 0); done || lia. Qed.

Lemma strcmp_spec a b : 0 ∈ a -> 0 ∈ b -> bytes a -> bytes b -> (strcmp a b ?= 0) = lex (cstr a) (cstr b).
Proof.
  revert b. induction a as [|x a IH]; intros b Ha Hb Ba Bb; [by apply not_elem_of_nil in Ha|].
  destruct b as [|y b]; [by apply not_elem_of_nil in Hb|].
  apply Forall_cons in Ba as [Hx Ba]. apply Forall_cons in Bb as [Hy Bb]. simpl.
  destruct (Z.eqb_spec x 0) as [->|Hx0]; simpl.
  - rewrite compare_sub. destruct (Z.eqb_spec y 0) as [->|Hy0]; [done|]. apply Z.compare_lt_iff. lia.
  - destruct (Z.eqb_spec y 0) as [->|Hy0].
    + rewrite (proj2 (Z.eqb_neq x 0)) by done. rewrite compare_sub. apply Z.compare_gt_iff. lia.
    + destruct (Z.eqb_spec x y) as [->|Hne].
      * simpl. rewrite Z.compare_refl. apply IH; set_solver.
      * rewrite compare_sub. simpl. destruct (Z.compare_spec x y); done || lia.
Qed.

Lemma strncmp_spec a b n : 0 ∈ a -> 0 ∈ b -> bytes a -> bytes b ->
  (strncmp a b n ?= 0) = lex (take n (cstr a)) (take n (cstr b)).
Proof.
  revert a b. induction n as [|n IH]; intros a b Ha Hb Ba Bb; [done|].
  destruct a as [|x a]; [by apply not_elem_of_nil in Ha|]. destruct b as [|y b]; [by apply not_elem_of_nil in Hb|].
  apply Forall_cons in Ba as [Hx Ba]. apply Forall_cons in Bb as [Hy Bb]. rewrite strncmp_step. unfold zget. simpl.
  destruct (Z.eqb_spec x y) as [->|Hne]; simpl.
  - destruct (Z.eqb_spec y 0) as [->|Hy0]; simpl; [done|]. rewrite Z.compare_refl. apply IH; set_solver.
  - rewrite compare_sub. destruct (Z.eqb_spec x 0) as [->|Hx0], (Z.eqb_spec y 0) as [->|Hy0]; cbn [take lex]; try done.
    + apply Z.compare_lt_iff. lia.
    + apply Z.compare_gt_iff. lia.
    + destruct (Z.compare_spec x y); done || lia.
Qed.

Lemma memcmp_spec a b n : (n <= length a)%nat -> (n <= length b)%nat -> (memcmp a b n ?= 0) = lex (take n a) (take n b).
Proof.
  revert a b. induction n as [|n IH]; intros a b Ha Hb; [done|].
  destruct a as [|x a]; [simpl in Ha; lia|]. destruct b as [|y b]; [simpl in Hb; lia|]. simpl in *. unfold zget. simpl.
  destruct (Z.eqb_spec x y) as [->|Hne]; [rewrite Z.compare_refl; apply IH; lia|].
  rewrite compare_sub. destruct (Z.compare_spec x y); done || lia.
Qed.

(** The sign of [strcmp] is the dictionary order of the two strings, that of
    [strncmp] the order of their first [n] bytes, and that of [memcmp] the
    order of the first [n] bytes of the arrays. *)
Theorem strcmp_correct (a b : list Z) (n : nat) :
  0 ∈ a -> 0 ∈ b -> bytes a -> bytes b ->
  (strcmp a b ?= 0) = lex (cstr a) (cstr b) /\ (strcmp a b = 0 <-> cstr a = cstr b) /\
  (strncmp a b n ?= 0) = lex (take n (cstr a)) (take n (cstr b)) /\
  ((n <= length a)%nat -> (n <= length b)%nat -> (memcmp a b n ?= 0) = lex (take n a) (take n b)).
Proof.
  intros Ha Hb Ba Bb. pose proof (strcmp_spec a b Ha Hb Ba Bb) as E. split; [done|]. split.
  - rewrite <- lex_eq, <- E. symmetry. apply Z.compare_eq_iff.
  - split; [by apply strncmp_spec|by apply memcmp_spec].
Qed.

Lemma strcmp_correct_witness : (strcmp [97; 98; 0; 7] [97; 99; 0] ?= 0) = Lt.
Proof.
  rewrite (proj1 (strcmp_correct [97; 98; 0; 7] [97; 99; 0] 1 ltac:(set_solver) ltac:(set_solver)
    ltac:(repeat constructor; lia) ltac:(repeat constructor; lia))). reflexivity.
Defined.

(** ** Copies *)

(** [dst] with [s] and a terminator written from offset [i]. *)
Lemma copy_str_spec dst i src :
  0 ∈ src -> 0 <= i -> i + zlen (cstr src) < zlen dst ->
  zlen (copy_str dst i src) = zlen dst /\
  forall j, 0 <= j -> zget 0 (copy_str dst i src) j =
    if (i <=? j) && (j <=? i + zlen (cstr src)) then zget 0 (cstr src ++ [0]) (j - i) else zget 0 dst j.
Proof.
  revert dst i. induction src as [|c src IH]; intros dst i H Hi Hl; [by apply not_elem_of_nil in H|]. simpl.
  destruct (Z.eqb_spec c 0) as [->|Hc].
  - simpl in Hl |- *. change (zlen (@nil Z)) with 0 in *. split; [by rewrite zlen_zset|]. intros j Hj. rewrite zget_zset by lia.
    destruct (Z.eqb_spec i j), (Z.leb_spec i j), (Z.leb_spec j (i + 0)); simpl; try lia; subst; try done. by rewrite Z.sub_diag.
  - simpl in Hl. rewrite (proj2 (Z.eqb_neq c 0)) in Hl by done. rewrite zlen_cons in *.
    destruct (IH (zset dst i c) (i + 1)) as [L G]; [set_solver|lia|rewrite zlen_zset; lia|].
    split; [by rewrite L, zlen_zset|]. intros j Hj. rewrite G by done.
    pose proof (zlen_nonneg (cstr src)).
    destruct (Z.leb_spec (i + 1) j), (Z.leb_spec i j), (Z.leb_spec j (i + 1 + zlen (cstr src))), (Z.leb_spec j (i + (1 + zlen (cstr src))));
      simpl; try lia.
    + unfold zget. replace (Z.to_nat (j - i)) with (S (Z.to_nat (j - (i + 1)))) by lia. done.
    + rewrite zget_zset_ne by lia. done.
    + assert (j = i) as -> by lia. rewrite zget_zset_eq by lia. by rewrite Z.sub_diag.
    + rewrite zget_zset_ne by lia. done.
Qed.

(** Reading back a string written at [i] after the string [pre]. *)
Lemma cstr_at d pre s :
  0 ∉ pre -> 0 ∉ s -> zlen pre + zlen s < zlen d ->
  (forall j, 0 <= j < zlen pre -> zget 0 d j = zget 0 pre j) ->
  (forall j, 0 <= j <= zlen s -> zget 0 d (zlen pre + j) = zget 0 (s ++ [0]) j) -> cstr d = pre ++ s.
Proof.
  intros Hp Hs Hl Gp Gs. pose proof (zlen_nonneg pre). pose proof (zlen_nonneg s).
  assert (d = (pre ++ s) ++ 0 :: drop (Z.to_nat (zlen pre + zlen s + 1)) d) as ->.
  { apply (list_eq_zget 0).
    - rewrite !zlen_app, zlen_cons. unfold zlen in *. rewrite length_drop. lia.
    - intros j Hj. unfold zlen in *. destruct (Z_lt_le_dec j (Z.of_nat (length pre))).
      + rewrite Gp by lia. unfold zget. rewrite <- app_assoc. by rewrite app_nth1 by lia.
      + destruct (Z_le_gt_dec j (Z.of_nat (length pre) + Z.of_nat (length s))).
        * replace j with (Z.of_nat (length pre) + (j - Z.of_nat (length pre))) at 1 by lia. rewrite Gs by lia.
          unfold zget. rewrite <- app_assoc. rewrite (app_nth2 pre) by lia.
          replace (Z.to_nat j - length pre)%nat with (Z.to_nat (j - Z.of_nat (length pre))) by lia.
          destruct (Z_lt_le_dec (j - Z.of_nat (length pre)) (Z.of_nat (length s))); [by rewrite !app_nth1 by lia|].
          rewrite !app_nth2 by lia. replace (Z.to_nat (j - Z.of_nat (length pre)) - length s)%nat with 0%nat by lia. done.
        * unfold zget. rewrite app_nth2 by (rewrite length_app; lia). rewrite length_app.
          replace (Z.to_nat j - (length pre + length s))%nat with (S (Z.to_nat j - (length pre + length s) - 1)) by lia. simpl.
          rewrite !nth_lookup, lookup_drop. do 2 f_equal. lia. }
  apply cstr_app. set_solver.
Qed.

(** Copying [n] elements in front of what is there and ending them. *)
Lemma copy_end (f p t : list Z) n : n = zlen p -> n < zlen f -> zset (copy_loop f 0 (p ++ t) 0 n) n 0 = p ++ 0 :: drop (Z.to_nat (n + 1)) f.
Proof.
  intros -> Hl. pose proof (zlen_nonneg p). assert (zlen (p ++ 0 :: drop (Z.to_nat (zlen p + 1)) f) = zlen f) as L2.
  { rewrite zlen_app, zlen_cons. unfold zlen in *. rewrite length_drop. lia. }
  apply (list_eq_zget 0); [by rewrite zlen_zset, zlen_copy_loop, L2 by lia|]. intros j Hj. rewrite zlen_zset, zlen_copy_loop in Hj by lia.
  rewrite zget_zset by (rewrite ?zlen_copy_loop; lia). destruct (Z.eqb_spec (zlen p) j) as [<-|Hne]; [by rewrite zget_mid|].
  rewrite zget_copy_loop by lia. destruct (Z.leb_spec 0 j); [|lia]. cbn [andb]. destruct (Z.ltb_spec j (0 + zlen p)).
  - replace (0 + (j - 0)) with j by lia. by rewrite !zget_app_l by lia.
  - unfold zget. change (p ++ 0 :: ?d) with (p ++ [0] ++ d). rewrite app_assoc, app_nth2 by (rewrite length_app; unfold zlen in *; simpl; lia).
    rewrite !nth_lookup, lookup_drop. do 2 f_equal. rewrite length_app. unfold zlen in *. simpl. lia.
Qed.

Lemma zget_cstr s j : 0 ∈ s -> 0 <= j < zlen (cstr s) -> zget 0 s j = zget 0 (cstr s) j.
Proof. intros H Hj. destruct (cstr_split s H) as [t E]. rewrite E at 1. by apply zget_app_l. Qed.

(** [copy_bounded] copies [min n (strlen src)] bytes. *)
Lemma copy_bounded_spec dst off i src n :
  0 ∈ src -> 0 <= off -> 0 <= i -> off + i + Z.min (Z.of_nat n) (zlen (cstr src)) <= zlen dst ->
  let k := Z.min (Z.of_nat n) (zlen (cstr src)) in
  exists d, copy_bounded dst off i src n = (d, i + k) /\ zlen d = zlen dst /\
    forall j, 0 <= j -> zget 0 d j = if (off + i <=? j) && (j <? off + i + k) then zget 0 (cstr src) (j - (off + i)) else zget 0 dst j.
Proof.
  revert dst i src. induction n as [|n IH]; intros dst i src H Ho Hi Hl; cbv zeta; cbn [copy_bounded].
  { pose proof (zlen_nonneg (cstr src)). rewrite Z.min_l by lia. exists dst. split; [f_equal; lia|]. split; [done|].
    intros j Hj. by zif; [lia|]. }
  destruct src as [|c src]; [by apply not_elem_of_nil in H|]. simpl in *. destruct (Z.eqb_spec c 0) as [->|Hc].
  { change (zlen (@nil Z)) with 0. rewrite Z.min_r by lia. exists dst. split; [by rewrite Z.add_0_r|]. split; [done|].
    intros j Hj. by zif; [lia|]. }
  rewrite zlen_cons in *. pose proof (zlen_nonneg (cstr src)).
  destruct (IH (zset dst (off + i) c) (i + 1) src) as (d & E & L & G); [set_solver|done|lia|rewrite zlen_zset; lia|].
  exists d. split; [rewrite E; f_equal; lia|]. split; [by rewrite L, zlen_zset|]. intros j Hj. rewrite G by done.
  set (k1 := Z.min (Z.of_nat n) (zlen (cstr src))) in *.
  replace (Z.min (Z.of_nat (S n)) (1 + zlen (cstr src))) with (k1 + 1) in * by (unfold k1; lia).
  assert (0 <= k1) by (unfold k1; lia).
  destruct (Z.leb_spec (off + (i + 1)) j), (Z.leb_spec (off + i) j), (Z.ltb_spec j (off + (i + 1) + k1)), (Z.ltb_spec j (off + i + (k1 + 1)));
    simpl; try lia.
  - unfold zget. replace (Z.to_nat (j - (off + i))) with (S (Z.to_nat (j - (off + (i + 1))))) by lia. done.
  - rewrite zget_zset_ne by lia. done.
  - assert (j = off + i) as -> by lia. rewrite zget_zset_eq by lia. by rewrite Z.sub_diag.
  - rewrite zget_zset_ne by lia. done.
Qed.

(** The copying functions, into an array with room for the result: after
    [strcpy] the destination holds the source string, after [strcat] and
    [strncat] its old string followed by the source string (its first [n]
    bytes), and [strncpy] writes exactly [n] bytes, the string padded with NULs;
    no byte past the terminator is touched. *)
Theorem strcpy_correct (dst src : list Z) (n : Z) :
  0 ∈ src -> 0 ∈ dst -> 0 <= n ->
  (zlen (cstr src) < zlen dst ->
     cstr (strcpy dst src) = cstr src /\ zlen (strcpy dst src) = zlen dst /\
     forall j, zlen (cstr src) < j -> zget 0 (strcpy dst src) j = zget 0 dst j) /\
  (zlen (cstr dst) + zlen (cstr src) < zlen dst -> cstr (strcat dst src) = cstr dst ++ cstr src) /\
  (zlen (cstr dst) + Z.min n (zlen (cstr src)) < zlen dst ->
     cstr (strncat dst src n) = cstr dst ++ take (Z.to_nat n) (cstr src)) /\
  (n <= zlen dst -> zlen (strncpy dst src n) = zlen dst /\
     forall j, 0 <= j -> zget 0 (strncpy dst src n) j =
       if j <? n then (if j <? zlen (cstr src) then zget 0 (cstr src) j else 0) else zget 0 dst j).
Proof.
  intros Hs Hd Hn. pose proof (zlen_nonneg (cstr src)) as H1. pose proof (zlen_nonneg (cstr dst)) as H2. split; [|split; [|split]].
  - intros Hl. unfold strcpy. destruct (copy_str_spec dst 0 src Hs ltac:(lia) ltac:(lia)) as [L G]. split; [|split; [done|]].
    + apply (cstr_at _ [] (cstr src)); [set_solver|apply cstr_no_nul|rewrite L; done| |].
      * intros j Hj. change (zlen (@nil Z)) with 0 in Hj. lia.
      * intros j Hj. change (zlen (@nil Z)) with 0. rewrite !Z.add_0_l, G by lia. zif; [by rewrite Z.sub_0_r|].
        apply andb_false_iff in Heqb as [?|?]; zb; lia.
    + intros j Hj. rewrite G by lia. by zif; [lia|].
  - intros Hl. unfold strcat. rewrite strlen_cstr.
    destruct (copy_str_spec dst (zlen (cstr dst)) src Hs ltac:(lia) ltac:(lia)) as [L G].
    apply cstr_at; [apply cstr_no_nul..|by rewrite L| |].
    + intros j Hj. rewrite G by lia. zif; [lia|]. by apply zget_cstr.
    + intros j Hj. rewrite G by lia. zif; [f_equal; lia|]. apply andb_false_iff in Heqb as [?|?]; zb; lia.
  - intros Hl. unfold strncat. rewrite strlen_cstr. rewrite <- (Z2Nat.id n) in Hl by lia.
    destruct (copy_bounded_spec dst (zlen (cstr dst)) 0 src (Z.to_nat n) Hs ltac:(lia) ltac:(lia) ltac:(lia)) as (d & E & L & G).
    rewrite E, Z.add_0_l. rewrite Z.add_0_r in G. set (k := Z.min (Z.of_nat (Z.to_nat n)) (zlen (cstr src))) in *.
    assert (zlen (take (Z.to_nat n) (cstr src)) = k) as Ek by (unfold k, zlen; rewrite length_take; lia).
    assert (0 <= k) by (unfold k; lia).
    apply cstr_at; [apply cstr_no_nul| |rewrite zlen_zset, L, Ek; lia| |].
    + intros Hx. apply (cstr_no_nul src). eapply elem_of_take in Hx as (i & Hx & _). by eapply list_elem_of_lookup_2.
    + intros j Hj. rewrite zget_zset_ne by lia. rewrite G by lia. zif; [lia|]. by apply zget_cstr.
    + intros j Hj. rewrite Ek in Hj. rewrite zget_zset by lia. destruct (Z.eqb_spec (zlen (cstr dst) + k) (zlen (cstr dst) + j)).
      * unfold zget. rewrite app_nth2 by (unfold zlen in Ek; lia). replace (Z.to_nat j - _)%nat with 0%nat by (unfold zlen in Ek; lia). done.
      * rewrite G by lia. zif; [|apply andb_false_iff in Heqb as [?|?]; zb; lia].
        replace (zlen (cstr dst) + j - zlen (cstr dst)) with j by lia. rewrite zget_app_l by lia.
        unfold zget. rewrite !nth_lookup. rewrite lookup_take_lt by (unfold k in *; lia). done.
  - intros Hl. unfold strncpy.
    destruct (copy_bounded_spec dst 0 0 src (Z.to_nat n) Hs ltac:(lia) ltac:(lia) ltac:(lia)) as (d & E & L & G).
    rewrite E, Z.add_0_l. rewrite Z2Nat.id in * by lia. set (k := Z.min n (zlen (cstr src))) in *.
    assert (0 <= k <= n) by (unfold k; lia). split; [rewrite zlen_fill_loop by lia; done|].
    intros j Hj. rewrite zget_fill_loop by lia. rewrite G by lia. rewrite Z.sub_0_r.
    destruct (Z.leb_spec k j), (Z.ltb_spec j (k + (n - k))), (Z.leb_spec (0 + 0) j), (Z.ltb_spec j (0 + 0 + k)), (Z.ltb_spec j n),
      (Z.ltb_spec j (zlen (cstr src))); simpl; try done; lia.
Qed.

(** "ab" after "xy" in an array of eight bytes, and three bytes of "ab". *)
Lemma strcpy_correct_witness :
  cstr (strcat [120; 121; 0; 9; 9; 9; 9; 9] [97; 98; 0]) = [120; 121; 97; 98] /\
  strncpy [9; 9; 9; 9] [97; 98; 0] 3 = [97; 98; 0; 9].
Proof.
  split; [|reflexivity].
  destruct (strcpy_correct [120; 121; 0; 9; 9; 9; 9; 9] [97; 98; 0] 3 ltac:(set_solver) ltac:(set_solver) ltac:(lia)) as (_ & H & _).
  apply H. reflexivity.
Defined.

(** ** Searches *)

Lemma strchr_loop_spec s ch i : 0 ∈ s ->
  match strchr_loop s ch i with
  | Some k => exists j, k = i + Z.of_nat j /\ (cstr s ++ [0]) !! j = Some ch /\ forall j', (j' < j)%nat -> (cstr s ++ [0]) !! j' <> Some ch
  | None => ch ∉ cstr s ++ [0]
  end.
Proof.
  revert i. induction s as [|c s IH]; intros i H; [by apply not_elem_of_nil in H|]. simpl.
  destruct (Z.eqb_spec c ch) as [->|Hne].
  - exists 0%nat. split; [lia|]. split; [|lia]. destruct (Z.eqb_spec ch 0) as [->|]; done.
  - destruct (Z.eqb_spec c 0) as [->|Hc]; [set_solver|]. specialize (IH (i + 1) ltac:(set_solver)).
    destruct (strchr_loop s ch (i + 1)) as [k|]; [|simpl; set_solver].
    destruct IH as (j & -> & Hj & Hb). exists (S j). split; [lia|]. split; [done|]. intros [|j'] Hj'; simpl; [congruence|]. apply Hb. lia.
Qed.

Lemma strrchr_loop_spec s ch i last : 0 ∈ s ->
  (ch ∉ cstr s ++ [0] -> strrchr_loop s ch i last = last) /\
  (ch ∈ cstr s ++ [0] -> exists j, strrchr_loop s ch i last = Some (i + Z.of_nat j) /\
     (cstr s ++ [0]) !! j = Some ch /\ forall j', (j < j')%nat -> (cstr s ++ [0]) !! j' <> Some ch).
Proof.
  revert i last. induction s as [|c s IH]; intros i last H; [by apply not_elem_of_nil in H|]. cbn [strrchr_loop cstr]. cbv zeta.
  destruct (Z.eqb_spec c 0) as [->|Hc].
  - change (0 =? 0) with true. cbn [app]. split; intros Hin.
    + destruct (Z.eqb_spec 0 ch) as [<-|]; [set_solver|done].
    + apply list_elem_of_singleton in Hin as ->. exists 0%nat. rewrite Z.eqb_refl. split; [f_equal; lia|]. split; [done|].
      intros [|j'] ?; [lia|done].
  - destruct (IH (i + 1) (if c =? ch then Some i else last) ltac:(set_solver)) as [IH1 IH2]. split.
    + simpl. intros [Hne Hn]%not_elem_of_cons. rewrite IH1 by done. by rewrite (proj2 (Z.eqb_neq c ch)).
    + intros Hin. destruct (decide (ch ∈ cstr s ++ [0])) as [Hs|Hs].
      * destruct (IH2 Hs) as (j & -> & Hj & Hl). exists (S j). split; [f_equal; lia|]. split; [done|].
        intros [|j'] ?; [lia|]. simpl. apply Hl. lia.
      * rewrite IH1 by done. simpl in Hin. apply elem_of_cons in Hin as [->|?]; [|done]. rewrite Z.eqb_refl. exists 0%nat.
        split; [f_equal; lia|]. split; [done|]. intros [|j'] ?; [lia|]. simpl. intros E. apply Hs. by eapply list_elem_of_lookup_2.
Qed.

Lemma match_here_spec h n : 0 ∈ h -> 0 ∈ n -> match_here h n = true <-> cstr n `prefix_of` cstr h.
Proof.
  revert h. induction n as [|y n IH]; intros h Hh Hn; [by apply not_elem_of_nil in Hn|]. simpl.
  destruct (Z.eqb_spec y 0) as [->|Hy]; [split; [intros _; apply prefix_nil|done]|].
  destruct h as [|x h]; [by apply not_elem_of_nil in Hh|]. simpl. destruct (Z.eqb_spec x 0) as [->|Hx]; simpl.
  - split; [done|]. intros ?%prefix_nil_inv. done.
  - destruct (Z.eqb_spec x y) as [->|Hne].
    + rewrite IH by set_solver. split; [apply prefix_cons|apply prefix_cons_inv_2].
    + split; [done|]. intros ?%prefix_cons_inv_1. congruence.
Qed.

Lemma strstr_loop_spec h n i : 0 ∈ h -> 0 ∈ n -> cstr n <> [] ->
  match strstr_loop h n i with
  | Some k => exists j, k = i + Z.of_nat j /\ cstr n `prefix_of` drop j (cstr h) /\
      forall j', (j' < j)%nat -> ~ cstr n `prefix_of` drop j' (cstr h)
  | None => forall j, ~ cstr n `prefix_of` drop j (cstr h)
  end.
Proof.
  intros Hh Hn Hne. revert i Hh. induction h as [|x h IH]; intros i Hh; [by apply not_elem_of_nil in Hh|].
  pose proof (match_here_spec (x :: h) n Hh Hn) as M. cbn [strstr_loop]. destruct (Z.eqb_spec x 0) as [->|Hx].
  { intros j. simpl. rewrite drop_nil. by intros ?%prefix_nil_inv. }
  destruct (match_here (x :: h) n) eqn:E.
  { exists 0%nat. split; [lia|]. split; [by apply M|lia]. }
  assert (~ cstr n `prefix_of` cstr (x :: h)) as Hno by (rewrite <- M; done).
  specialize (IH (i + 1) ltac:(set_solver)). simpl in Hno |- *. rewrite (proj2 (Z.eqb_neq x 0)) in Hno |- * by done.
  destruct (strstr_loop h n (i + 1)) as [k|].
  - destruct IH as (j & -> & Hp & Hb). exists (S j). split; [lia|]. split; [done|]. intros [|j'] ?; [done|]. apply Hb. lia.
  - intros [|j]; [done|]. apply IH.
Qed.

(** The longest prefix whose elements satisfy [f]. *)
Fixpoint take_while_b (f : Z -> bool) (l : list Z) : list Z :=
  match l with [] => [] | c :: l => if f c then c :: take_while_b f l else [] end.

Lemma strspn_spec s set : 0 ∈ s ->
  strspn s set = zlen (take_while_b (in_set set) (cstr s)) /\ strcspn s set = zlen (take_while_b (fun c => negb (in_set set c)) (cstr s)).
Proof.
  induction s as [|c s IH]; intros H; [by apply not_elem_of_nil in H|]. simpl.
  destruct (Z.eqb_spec c 0); [done|]. destruct IH as [I1 I2]; [set_solver|]. simpl.
  destruct (in_set set c); simpl; rewrite ?I1, ?I2, ?zlen_cons; done.
Qed.

(** [strstr] returns the first place where the needle occurs in the string
    and null exactly when it does not occur; [strchr] and [strrchr] return the
    first and the last place of a character, the terminator included; [strspn]
    and [strcspn] measure the longest prefix inside and outside a set. *)
Theorem str_search_correct (s n : list Z) (c : Z) :
  0 ∈ s -> 0 ∈ n ->
  match strstr s n with
  | Some k => exists j, k = Z.of_nat j /\ cstr n `prefix_of` drop j (cstr s) /\
      forall j', (j' < j)%nat -> ~ cstr n `prefix_of` drop j' (cstr s)
  | None => forall j, ~ cstr n `prefix_of` drop j (cstr s)
  end /\
  match strchr s c with
  | Some k => exists j, k = Z.of_nat j /\ (cstr s ++ [0]) !! j = Some (u8 c) /\
      forall j', (j' < j)%nat -> (cstr s ++ [0]) !! j' <> Some (u8 c)
  | None => u8 c ∉ cstr s ++ [0]
  end /\
  match strrchr s c with
  | Some k => exists j, k = Z.of_nat j /\ (cstr s ++ [0]) !! j = Some (u8 c) /\
      forall j', (j < j')%nat -> (cstr s ++ [0]) !! j' <> Some (u8 c)
  | None => u8 c ∉ cstr s ++ [0]
  end /\
  strspn s n = zlen (take_while_b (in_set n) (cstr s)) /\
  strcspn s n = zlen (take_while_b (fun c => negb (in_set n c)) (cstr s)).
Proof.
  intros Hs Hn. split; [|split; [|split; [|by apply strspn_spec]]].
  - unfold strstr. destruct n as [|y n]; [by apply not_elem_of_nil in Hn|]. change (zget 0 (y :: n) 0) with y.
    destruct (Z.eqb_spec y 0) as [->|Hy].
    + exists 0%nat. split; [done|]. simpl. split; [apply prefix_nil|lia].
    + assert (cstr (y :: n) <> []) as Hne by (simpl; by rewrite (proj2 (Z.eqb_neq y 0) Hy)).
      pose proof (strstr_loop_spec s (y :: n) 0 Hs Hn Hne) as L. destruct (strstr_loop s (y :: n) 0); [|done].
      destruct L as (j & -> & L). by exists j.
  - pose proof (strchr_loop_spec s (u8 c) 0 Hs) as L. unfold strchr. destruct (strchr_loop s (u8 c) 0); [|done].
    destruct L as (j & -> & L). by exists j.
  - destruct (strrchr_loop_spec s (u8 c) 0 None Hs) as [L1 L2]. unfold strrchr.
    destruct (decide (u8 c ∈ cstr s ++ [0])) as [Hin|Hno]; [|by rewrite L1].
    destruct (L2 Hin) as (j & -> & L). by exists j.
Qed.

(** "an" in "banana". *)
Lemma str_search_correct_witness :
  strstr [98; 97; 110; 97; 110; 97; 0] [97; 110; 0] = Some 1 /\
  ([97; 110] : list Z) `prefix_of` drop 1 [98; 97; 110; 97; 110; 97].
Proof.
  split; [reflexivity|].
  destruct (str_search_correct [98; 97; 110; 97; 110; 97; 0] [97; 110; 0] 97 ltac:(set_solver) ltac:(set_solver)) as [H _].
  change (strstr _ _) with (Some 1) in H. destruct H as (j & E & H & _). assert (j = 1%nat) as -> by lia. exact H.
Defined.

(** ** Tokens *)

(** The maximal runs of characters outside the set, left to right. *)
Fixpoint tokens (delim s cur : list Z) : list (list Z) :=
  match s with
  | [] => match cur with [] => [] | _ => [cur] end
  | c :: s =>
    if in_set delim c then match cur with [] => tokens delim s [] | _ => cur :: tokens delim s [] end
    else tokens delim s (cur ++ [c])
  end.

(** [strtok] called until it returns null, each token read when it is returned. *)
Fixpoint strtok_all (fuel : nat) (save : option Z) (mem delim : list Z) : list (list Z) :=
  match fuel with
  | O => []
  | S fuel =>
    match strtok save mem delim with
    | (Some st, save', mem') => cstr (drop (Z.to_nat st) mem') :: strtok_all fuel save' mem' delim
    | (None, _, _) => []
    end
  end.

Lemma in_set_nul delim : in_set delim 0 = false.
Proof. induction delim as [|a d IH]; simpl; [done|]. by destruct (a =? 0). Qed.

Lemma skip_delims_spec s delim i : 0 ∈ s ->
  exists k, skip_delims s delim i = i + Z.of_nat k /\ 0 ∈ drop k s /\ (k < length s)%nat /\
    tokens delim (cstr s) [] = tokens delim (cstr (drop k s)) [] /\
    (zget 0 (drop k s) 0 = 0 \/ in_set delim (zget 0 (drop k s) 0) = false).
Proof.
  revert i. induction s as [|c s IH]; intros i H; [by apply not_elem_of_nil in H|]. simpl.
  destruct (Z.eqb_spec c 0) as [->|Hc].
  { exists 0%nat. split; [lia|]. simpl. split; [set_solver|]. split; [lia|]. split; [done|]. by left. }
  destruct (in_set delim c) eqn:E.
  - destruct (IH (i + 1) ltac:(set_solver)) as (k & -> & Hk & Hl & Ht & Hd). exists (S k). split; [lia|]. split; [done|].
    split; [lia|]. split; [|done]. simpl. rewrite E. done.
  - exists 0%nat. split; [lia|]. simpl. split; [set_solver|]. split; [lia|]. split; [|by right].
    by rewrite (proj2 (Z.eqb_neq c 0) Hc).
Qed.

Lemma token_end_spec s delim i cur : 0 ∈ s ->
  match token_end s delim i with
  | Some e => exists k, e = i + Z.of_nat k /\ (k < length s)%nat /\ 0 ∈ drop (S k) s /\ 0 ∉ take k s /\
      (cur ++ take k s <> [] -> tokens delim (cstr s) cur = (cur ++ take k s) :: tokens delim (cstr (drop (S k) s)) [])
  | None => cur ++ cstr s <> [] -> tokens delim (cstr s) cur = [cur ++ cstr s]
  end.
Proof.
  revert i cur. induction s as [|c s IH]; intros i cur H; [by apply not_elem_of_nil in H|]. simpl.
  destruct (Z.eqb_spec c 0) as [->|Hc]; [simpl; rewrite app_nil_r; by destruct cur|].
  destruct (in_set delim c) eqn:E.
  - exists 0%nat. split; [lia|]. split; [lia|]. split; [simpl; set_solver|]. split; [simpl; set_solver|]. simpl. rewrite E, app_nil_r.
    by destruct cur.
  - specialize (IH (i + 1) (cur ++ [c]) ltac:(set_solver)). simpl. rewrite E. destruct (token_end s delim (i + 1)) as [e|].
    + destruct IH as (k & -> & Hk & Hz & Hn & Ht). exists (S k). split; [lia|]. split; [lia|]. split; [done|]. split; [simpl; set_solver|].
      simpl. intros _. rewrite <- app_assoc in Ht. apply Ht. by destruct cur.
    + intros _. rewrite <- app_assoc in IH. apply IH. by destruct cur.
Qed.

Lemma token_end_ge s delim i e : token_end s delim i = Some e -> i <= e.
Proof.
  revert i. induction s as [|c s IH]; intros i; simpl; [done|]. destruct (c =? 0); [done|].
  destruct (in_set delim c); [intros [= <-]; lia|]. intros E. apply IH in E. lia.
Qed.

Lemma token_end_later c s delim i e :
  c <> 0 -> in_set delim c = false -> token_end (c :: s) delim i = Some e -> i < e.
Proof.
  intros Hc Hd. simpl. rewrite (proj2 (Z.eqb_neq c 0) Hc), Hd. intros E. apply token_end_ge in E. lia.
Qed.

Lemma strtok_all_spec delim fuel mem sv :
  0 <= sv -> 0 ∈ drop (Z.to_nat sv) mem -> (length mem - Z.to_nat sv < fuel)%nat ->
  strtok_all fuel (Some sv) mem delim = tokens delim (cstr (drop (Z.to_nat sv) mem)) [].
Proof.
  revert mem sv. induction fuel as [|fuel IH]; intros mem sv H0 Hz Hf; [lia|]. cbn [strtok_all strtok].
  destruct (skip_delims_spec (drop (Z.to_nat sv) mem) delim sv Hz) as (k & -> & Hk & Hl & -> & Hd).
  rewrite drop_drop in *. rewrite length_drop in Hl.
  replace (Z.to_nat sv + k)%nat with (Z.to_nat (sv + Z.of_nat k)) in * by lia. set (st := sv + Z.of_nat k) in *.
  assert (zget 0 (drop (Z.to_nat st) mem) 0 = zget 0 mem st) as E0.
  { unfold zget. rewrite !nth_lookup, lookup_drop. do 2 f_equal. lia. }
  rewrite E0 in Hd. destruct (drop (Z.to_nat st) mem) as [|c rest] eqn:Ed; [by apply not_elem_of_nil in Hk|].
  unfold zget in E0. simpl in E0. destruct (Z.eqb_spec (zget 0 mem st) 0) as [Ez|Hnz].
  { simpl. unfold zget in Ez. rewrite <- E0 in Ez. by rewrite Ez. }
  destruct Hd as [?|Hd]; [done|]. assert (c <> 0) as Hc by (unfold zget in Hnz; congruence).
  unfold zget in Hd. rewrite <- E0 in Hd.
  pose proof (token_end_spec (c :: rest) delim st [] Hk) as T. destruct (token_end (c :: rest) delim st) as [e|] eqn:Ee.
  - destruct T as (j & -> & Hj & Hzj & Hnj & Ht). simpl app in Ht.
    assert (j <> 0%nat) as Hj0.
    { intros ->. apply token_end_later in Ee; [lia|done|done]. }
    rewrite Ht by (destruct j; done).
    assert (drop (Z.to_nat st) (zset mem (st + Z.of_nat j) 0) = take j (c :: rest) ++ 0 :: drop (S j) (c :: rest)) as Em.
    { unfold zset. zif; [lia|]. rewrite drop_insert_ge by lia. rewrite Ed.
      replace (Z.to_nat (st + Z.of_nat j) - Z.to_nat st)%nat with j by lia. by rewrite insert_take_drop. }
    f_equal; [rewrite Em; by apply cstr_app|].
    assert (drop (Z.to_nat (st + Z.of_nat j + 1)) (zset mem (st + Z.of_nat j) 0) = drop (S j) (c :: rest)) as Ed2.
    { replace (Z.to_nat (st + Z.of_nat j + 1)) with (Z.to_nat st + S j)%nat by lia. rewrite <- drop_drop, Em.
      rewrite drop_app_ge by (rewrite length_take; lia). rewrite length_take.
      by replace (S j - j `min` length (c :: rest))%nat with 1%nat by lia. }
    rewrite IH; [by rewrite Ed2|lia|by rewrite Ed2|]. unfold zset. zif; [lia|]. rewrite length_insert. lia.
  - simpl app in T. rewrite Ed. rewrite T by (simpl; by rewrite (proj2 (Z.eqb_neq c 0) Hc)).
    f_equal. by destruct fuel.
Qed.

(** Calling [strtok] until it returns null yields exactly the maximal runs
    of characters outside the delimiter set, in order, and it stops after them. *)
Theorem strtok_correct (mem delim : list Z) :
  0 ∈ mem -> strtok_all (S (length mem)) (Some 0) mem delim = tokens delim (cstr mem) [].
Proof. intros H. rewrite (strtok_all_spec delim (S (length mem)) mem 0); [done|lia|done|simpl; lia]. Qed.

(** " ab  c" split at blanks. *)
Lemma strtok_correct_witness :
  strtok_all 8 (Some 0) [32; 97; 98; 32; 32; 99; 0] [32; 0] = [[97; 98]; [99]].
Proof. exact (strtok_correct [32; 97; 98; 32; 32; 99; 0] [32; 0] ltac:(set_solver)). Defined.

(** ** strerror *)

Definition dec (ds : list Z) : Z := foldl (fun a d => 10 * a + (d - 48)) 0 ds.

Lemma dec_snoc ds d : dec (ds ++ [d]) = 10 * dec ds + (d - 48).
Proof. unfold dec. by rewrite foldl_app. Qed.

Lemma digits_loop_spec fuel u ds :
  0 <= u < 10 ^ Z.of_nat fuel ->
  exists new, digits_loop fuel u ds = ds ++ new /\ dec (reverse new) = u /\ (length new <= fuel)%nat /\
    Forall (fun d => 48 <= d <= 57) new.
Proof.
  revert u ds. induction fuel as [|fuel IH]; intros u ds Hu; cbn [digits_loop].
  { exists []. rewrite app_nil_r. simpl in Hu. split; [done|]. split; [unfold dec; simpl; lia|]. done. }
  destruct (Z.eqb_spec u 0) as [->|Hu0]; [exists []; rewrite app_nil_r; split; [done|]; split; [done|]; split; [simpl; lia|done]|].
  rewrite Nat2Z.inj_succ, Z.pow_succ_r in Hu by lia.
  destruct (IH (u / 10) (ds ++ [48 + u mod 10])) as (new & E & D & L & F).
  { split; [apply Z.div_pos; lia|]. apply Z.div_lt_upper_bound; lia. }
  exists ((48 + u mod 10) :: new). split; [by rewrite E, <- app_assoc|]. split.
  - rewrite reverse_cons, dec_snoc, D. pose proof (Z.div_mod u 10). lia.
  - split; [simpl; lia|]. constructor; [pose proof (Z.mod_pos_bound u 10); lia|done].
Qed.

(** For an error number without a name, [strerror] writes "Unknown error "
    and the number in decimal, with its sign, and never more than the 32 bytes
    of its buffer, the most negative number included. *)
Theorem strerror_unknown_correct (errnum : Z) :
  - 2 ^ 31 <= errnum < 2 ^ 31 ->
  exists ds, strerror_unknown errnum = unknown_prefix ++ (if errnum <? 0 then [45] else []) ++ ds ++ [0] /\
    dec ds = Z.abs errnum /\ Forall (fun d => 48 <= d <= 57) ds /\ zlen (strerror_unknown errnum) <= 32.
Proof.
  intros He. unfold strerror_unknown. cbv zeta. set (neg := errnum <? 0).
  assert ((if neg then u32 (u32 (- (errnum + 1)) + 1) else u32 errnum) = Z.abs errnum) as ->.
  { unfold neg. destruct (Z.ltb_spec errnum 0); [rewrite (u32_small (- (errnum + 1))) by lia|]; rewrite u32_small; lia. }
  destruct (Z.eqb_spec (Z.abs errnum) 0) as [E0|E0].
  { exists [48]. rewrite E0. assert (neg = false) as -> by (apply Z.ltb_ge; lia). split; [done|]. split; [done|].
    split; [repeat constructor; lia|]. vm_compute. discriminate. }
  destruct (digits_loop_spec 11 (Z.abs errnum) []) as (new & E & D & L & F); [change (10 ^ Z.of_nat 11) with 100000000000; lia|].
  rewrite E. simpl ([] ++ new). exists (reverse new). split; [done|]. split; [done|]. split; [by apply Forall_reverse|].
  rewrite !zlen_app. unfold zlen. rewrite length_reverse. change (length unknown_prefix) with 14%nat. simpl length. destruct neg; simpl; lia.
Qed.

Lemma strerror_unknown_correct_witness :
  exists ds, strerror_unknown (- 2 ^ 31) = unknown_prefix ++ [45] ++ ds ++ [0] /\ dec ds = 2147483648.
Proof.
  destruct (strerror_unknown_correct (- 2 ^ 31) ltac:(lia)) as (ds & E & D & _). exists ds. split; [exact E|exact D].
Defined.

(** ** Duplicating a string *)

Section strdup.
Context {A : Type} `{UHeap A}.

(** The pointer, the bytes at it and the heap. *)
Definition strdup (s : list Z) (h : A) : Z * list Z * A :=
  let n := u64 (strlen s + 1) in
  let '(p, h) := u_malloc n h in
  if p =? 0 then (0, [], h) else (p, memcpy (u_fresh h p n) s n, h).

(** [strdup] returns NULL with the heap as [malloc] left it, or a new block that
    holds the string up to and with its terminator. *)
Theorem strdup_correct `{!UHeapLaws A} (s : list Z) (h : A) : u_wf h -> 0 ∈ s -> zlen s < 2 ^ 63 ->
  exists p b h', strdup s h = (p, b, h') /\ u_step h (zlen (cstr s) + 1) p h' /\ (p = 0 /\ b = [] \/ p <> 0 /\ b = cstr s ++ [0]).
Proof.
  intros W Hz L. destruct (cstr_split s Hz) as [t E]. pose proof (f_equal zlen E) as El. rewrite zlen_app, zlen_cons in El.
  pose proof (zlen_nonneg t). pose proof (zlen_nonneg (cstr s)). unfold strdup. rewrite strlen_cstr, u64_small by lia. cbv zeta.
  destruct (u_malloc (zlen (cstr s) + 1) h) as [p h'] eqn:Em. pose proof (u_malloc_law h (zlen (cstr s) + 1) p h' W ltac:(lia) Em) as St.
  destruct (Z.eqb_spec p 0) as [->|Hp]; [by exists 0, [], h'; split; [|split; [|left]]|]. eexists p, _, h'. split; [done|]. split; [done|]. right. split; [done|].
  assert (exists n, n = zlen (cstr s) + 1) as [n En] by eauto. rewrite <- En in *. assert (0 <= n) as Hn by lia. pose proof (u_fresh_law h' p n ltac:(lia)) as Lf. unfold memcpy.
  assert (zlen (copy_loop (u_fresh h' p n) 0 s 0 n) = n) as Lc by (rewrite zlen_copy_loop; lia).
  rewrite <- (slice_full (copy_loop _ _ _ _ _)), Lc, slice_copy_loop by lia. rewrite <- (slice_full (cstr s ++ [0])).
  assert (zlen (cstr s ++ [0]) = n) as -> by (by rewrite zlen_app). apply slice_ext. intros i Hi. rewrite E at 1. rewrite cons_middle, app_assoc.
  apply zget_app_l. rewrite zlen_app. change (zlen [0]) with 1. rewrite <- En. done.
Qed.
End strdup.
