(* ===== verification/Elf.v ===== *)
(** * The ELF loader

    [elf.c]: the checks on the header of an ELF64 executable, and the loop that
    maps and fills its loadable segments in a new address space.  The image is
    an array of bytes; the target is the machine of [Vmm] (page tables, frames,
    CR3), written through the checked copies of [UserMem].  The main theorem
    says what the loaded address space contains; two more show what the loader
    does with segments that share a page and with a bad segment. *)
From S2P Require Import Prelude Bytes Errno Pmm Vmm Heap UserMem.

Definition ELFCLASS64 : Z := 2.
Definition ELFDATA2LSB : Z := 1.
Definition ET_EXEC : Z := 2.
Definition EM_X86_64 : Z := 0x3E.
Definition PT_LOAD : Z := 1.

Record elf64_ehdr_t := MkEhdr {
  e_ident : list Z;
  e_type : Z;
  e_machine : Z;
  e_version : Z;
  e_entry : Z;
  e_phoff : Z;
  e_shoff : Z;
  e_flags : Z;
  e_ehsize : Z;
  e_phentsize : Z;
  e_phnum : Z;
  e_shentsize : Z;
  e_shnum : Z;
  e_shstrndx : Z }.

Record elf64_phdr_t := MkPhdr {
  ph_type : Z;
  ph_flags : Z;
  ph_offset : Z;
  ph_vaddr : Z;
  ph_paddr : Z;
  ph_filesz : Z;
  ph_memsz : Z;
  ph_align : Z }.

Definition sizeof_ehdr : Z := 64.
Definition sizeof_phdr : Z := 56.

(** The casts of the source: the structures laid over the bytes. *)
Definition ehdr_at (d : list Z) : elf64_ehdr_t :=
  MkEhdr (slice d 0 16) (get_le d 16 2) (get_le d 18 2) (get_le d 20 4) (get_le d 24 8) (get_le d 32 8)
    (get_le d 40 8) (get_le d 48 4) (get_le d 52 2) (get_le d 54 2) (get_le d 56 2) (get_le d 58 2)
    (get_le d 60 2) (get_le d 62 2).
Definition phdr_at (d : list Z) (off : Z) : elf64_phdr_t :=
  MkPhdr (get_le d off 4) (get_le d (off + 4) 4) (get_le d (off + 8) 8) (get_le d (off + 16) 8)
    (get_le d (off + 24) 8) (get_le d (off + 32) 8) (get_le d (off + 40) 8) (get_le d (off + 48) 8).

(** The checks before the loop, in order. *)
Definition ehdr_ok (d : list Z) : bool :=
  let size := zlen d in
  if size <? sizeof_ehdr then false
  else
    let eh := ehdr_at d in
    let id i := zget 0 (e_ident eh) i in
    if negb (id 0 =? 0x7F) || negb (id 1 =? 69) || negb (id 2 =? 76) || negb (id 3 =? 70) then false
    else if negb (id 4 =? ELFCLASS64) then false
    else if negb (id 5 =? ELFDATA2LSB) then false
    else if negb (e_type eh =? ET_EXEC) then false
    else if negb (e_machine eh =? EM_X86_64) then false
    else if negb (e_phentsize eh =? sizeof_phdr) then false
    else if e_phnum eh =? 0 then false
    else if size <? e_phoff eh then false
    else
      let ph_bytes := u64 (e_phnum eh * sizeof_phdr) in
      if negb (ph_bytes / sizeof_phdr =? e_phnum eh) then false
      else if u64 (size - e_phoff eh) <? ph_bytes then false
      else if e_entry eh <? USER_VA_BASE then false
      else true.

(** [ph[i]] for [i] below [e_phnum]. *)
Definition phdrs (d : list Z) : list elf64_phdr_t :=
  (fun i => phdr_at d (e_phoff (ehdr_at d) + i * sizeof_phdr)) <$> seqZ 0 (e_phnum (ehdr_at d)).

(** [while (rem > 0)]: zeros, a page at a time. *)
Fixpoint zero_loop (fuel : nat) (sp : option vmm_space) (dst rem : Z) (v : vm) : bool * vm :=
  match fuel with
  | O => (false, v)
  | S fuel =>
    if 0 <? rem then
      let chunk := if PAGE_SIZE <? rem then PAGE_SIZE else rem in
      let '(r, v') := copy_to_user sp dst (replicate (Z.to_nat chunk) 0) v in
      if r <? 0 then (false, v') else zero_loop fuel sp (u64 (dst + chunk)) (rem - chunk) v'
    else (true, v)
  end.

(** How one turn of the segment loop ends: [return false] on the spot,
    [goto done], or on to the next header with the span and the count so far. *)
Inductive seg_out := Rejected (v : vm) | Failed (v : vm) | Loaded (lowest highest loaded : Z) (v : vm).

Definition seg_start (ph : elf64_phdr_t) : Z := Z.land (ph_vaddr ph) (align_mask 12).
Definition seg_end (ph : elf64_phdr_t) : Z := page_up (u64 (ph_vaddr ph + ph_memsz ph)).

Definition load_segment (sp : option vmm_space) (d : list Z) (ph : elf64_phdr_t) (lowest highest loaded : Z) (v : vm)
  : seg_out :=
  let size := zlen d in
  if negb (ph_type ph =? PT_LOAD) then Loaded lowest highest loaded v
  else if ph_memsz ph =? 0 then Loaded lowest highest loaded v
  else if ph_memsz ph <? ph_filesz ph then Rejected v
  else if size <? ph_offset ph then Rejected v
  else if u64 (size - ph_offset ph) <? ph_filesz ph then Rejected v
  else if ph_vaddr ph <? USER_VA_BASE then Rejected v
  else if u64 (u64 (-1) - ph_vaddr ph) <? ph_memsz ph then Rejected v
  else
    let st := seg_start ph in
    let en := seg_end ph in
    if en <? st then Rejected v
    else if 0x0000800000000000 <? en then Rejected v
    else
      (* for (va = seg_start; va < seg_end; va += PAGE_SIZE): the loop of sys_map *)
      match map_loop (Z.to_nat ((en - st) / PAGE_SIZE)) sp st (Z.lor (Z.lor VM_PRESENT VM_WRITE) VM_USER) 0 v with
      | (false, _, v1) => Failed v1
      | (true, _, v1) =>
        match zero_loop (Z.to_nat (ph_memsz ph / PAGE_SIZE + 2)) sp (ph_vaddr ph) (ph_memsz ph) v1 with
        | (false, v2) => Failed v2
        | (true, v2) =>
          let '(r, v3) := if 0 <? ph_filesz ph
                          then copy_to_user sp (ph_vaddr ph) (slice d (ph_offset ph) (ph_filesz ph)) v2 else (0, v2) in
          if r <? 0 then Failed v3
          else Loaded (if st <? lowest then st else lowest) (if highest <? en then en else highest) (loaded + 1) v3
        end
      end.

Fixpoint load_segments (sp : option vmm_space) (d : list Z) (l : list elf64_phdr_t) (lowest highest loaded : Z) (v : vm)
  : seg_out :=
  match l with
  | [] => Loaded lowest highest loaded v
  | ph :: l =>
    match load_segment sp d ph lowest highest loaded v with
    | Loaded lowest highest loaded v => load_segments sp d l lowest highest loaded v
    | r => r
    end
  end.

Record elf_image_t := MkImage { im_entry : Z; load_base : Z; load_size : Z }.

(** [prev] and [space] are the addresses of the two space objects with their
    contents: the current thread's and the target.  The image and the out
    pointer are not null. *)
Definition elf_load (prev space : Z * vmm_space) (d : list Z) (v : vm) : option elf_image_t * vm :=
  if fst space =? 0 then (None, v)
  else if negb (ehdr_ok d) then (None, v)
  else
    let need_switch := negb (fst prev =? fst space) in
    let v1 := if need_switch then vmm_switch (Some (snd space)) v else v in
    let done v := if need_switch then vmm_switch (Some (snd prev)) v else v in
    match load_segments (Some (snd space)) d (phdrs d) (u64 (-1)) 0 0 v1 with
    | Rejected v2 => (None, v2)
    | Failed v2 => (None, done v2)
    | Loaded lowest highest loaded v2 =>
      if loaded =? 0 then (None, done v2)
      else (Some (MkImage (e_entry (ehdr_at d)) lowest (u64 (highest - lowest))), done v2)
    end.

(** ** What mapping leaves alone

    A word of memory that belongs to no page table and to no free page keeps
    its value while pages are mapped. *)
Definition kept (G : gmap Z (Z * list Z)) (v : vm) (x : Z) : Prop :=
  0 <= x /\ G !! page_of x = None /\
  (used_get (vm_pmm v) (x / 4096) = true \/ total_pages (vm_pmm v) <= x / 4096).

Lemma page_of_base x : aligned (page_of x) /\ page_of x / 4096 = x / 4096.
Proof. unfold page_of, aligned. split; Z.div_mod_to_equations; lia. Qed.

Lemma page_of_at p o : aligned p -> 0 <= o < 4096 -> page_of (p + o) = p.
Proof. unfold page_of, aligned. intros. Z.div_mod_to_equations. lia. Qed.

Lemma kept_fresh G v G' v' x : tables_fresh G v G' v' -> kept G v x -> kept G' v' x.
Proof.
  intros (F1 & F2 & F3 & _) (H0 & Hn & Hu). destruct (page_of_base x) as [_ E]. split; [done|]. split.
  - destruct (G' !! page_of x) as [ro|] eqn:X; [|done]. destruct (F1 _ _ X Hn) as [Ht Hf]. rewrite E in *.
    destruct Hu; [congruence|lia].
  - rewrite F3. destruct Hu; [left|by right]. apply F2; [apply Z.div_pos; lia|done].
Qed.

Lemma rd_zero_page np m x : aligned np -> page_of x <> np -> rd (zero_page np m) x = rd m x.
Proof.
  intros Ha Hx. unfold zero_page. set (P m' := rd m' x = rd m x). apply (foldl_inv P); [done|].
  intros m' i Hi%elem_of_seqZ IH. unfold P, set_entry in *. rewrite rd_insert_ne; [done|]. intros ->.
  apply Hx. apply page_of_at; [done|lia].
Qed.

Lemma descend_frame K G v t ro i user t' v' x :
  tree_inv K G v -> G !! t = Some ro -> idx_ok i -> descend_or_alloc t i user v = (t', v') -> kept G v x ->
  rd (vm_mem v') x = rd (vm_mem v) x /\ vm_cr3 v' = vm_cr3 v.
Proof.
  intros I Ht Hi E (H0 & Hn & Hu). unfold descend_or_alloc in E. destruct (ti_page _ _ _ I _ _ Ht) as (_ & Ha & _).
  destruct (has (entry (vm_mem v) t i) PTE_PRESENT).
  { destruct (has (entry (vm_mem v) t i) PTE_HUGE); by apply pair_eq in E as [_ <-]. }
  destruct (pmm_alloc_page (vm_pmm v)) as [np p] eqn:Ea.
  destruct (alloc_page_spec _ _ _ (ti_pmm _ _ _ I) Ea) as (_ & _ & _ & Hp).
  destruct (Z.eqb_spec np 0) as [|Hn0]; apply pair_eq in E as [_ <-]; [done|].
  destruct (Hp Hn0) as (Hal & Hr & Ht' & Hf & _). split; [|done]. cbn [vm_mem with_mem]. red in Hi.
  unfold set_entry. rewrite rd_insert_ne; [apply rd_zero_page; [done|]|].
  - intros <-. destruct (page_of_base x) as [_ Ex]. rewrite Ex in *. destruct Hu; [congruence|lia].
  - intros ->. rewrite page_of_at in Hn by (done || lia). congruence.
Qed.

Lemma vmm_map_frame K G v s va pa flags b v' x :
  tree_inv K G v -> registered G (sp_pml4 s) -> vmm_map (Some s) va pa flags v = (b, v') -> kept G v x ->
  rd (vm_mem v') x = rd (vm_mem v) x /\ vm_cr3 v' = vm_cr3 v.
Proof.
  intros I Hr E Hk. unfold vmm_map in E.
  destruct (has va (PAGE_SIZE - 1)); [by apply pair_eq in E as [_ <-]|].
  destruct (has pa (PAGE_SIZE - 1)); [by apply pair_eq in E as [_ <-]|].
  destruct (va <? lower_bound s); [by apply pair_eq in E as [_ <-]|].
  destruct (has flags VM_PRESENT); cbn [negb] in E; [|by apply pair_eq in E as [_ <-]]. cbv zeta in E.
  destruct (descend_or_alloc (sp_pml4 s) (idx_pml4 va) _ v) as [pdpt v1] eqn:E1.
  destruct (descend_frame _ _ _ _ _ _ _ _ _ _ I Hr (idx4_ok va) E1 Hk) as [M1 C1].
  destruct (descend_spec K G v _ _ _ _ _ _ _ I Hr ltac:(simpl; lia) (idx4_ok va) E1) as (G1 & _ & I1 & _ & _ & P1 & _ & X1).
  apply (kept_fresh _ _ _ _ _ X1) in Hk. destruct (Z.eqb_spec pdpt 0) as [|Hn1]; [by apply pair_eq in E as [_ <-]|].
  destruct (P1 Hn1) as (Eg1 & _). destruct (child_role K (sp_pml4 s) [] (idx_pml4 va)) as [r1 p1] eqn:R1.
  pose proof (child_role_length _ _ _ _ _ _ R1) as L1.
  destruct (descend_or_alloc pdpt _ _ v1) as [pd v2] eqn:E2.
  destruct (descend_frame _ _ _ _ _ _ _ _ _ _ I1 Eg1 (idx3_ok va) E2 Hk) as [M2 C2].
  destruct (descend_spec K G1 v1 _ _ _ _ _ _ _ I1 Eg1 ltac:(simpl in *; lia) (idx3_ok va) E2) as (G2 & _ & I2 & _ & _ & P2 & _ & X2).
  apply (kept_fresh _ _ _ _ _ X2) in Hk.
  destruct (Z.eqb_spec pd 0) as [|Hn2]; [apply pair_eq in E as [_ <-]; split; congruence|].
  destruct (P2 Hn2) as (Eg2 & _). destruct (child_role K r1 p1 (idx_pdpt va)) as [r2 p2] eqn:R2.
  pose proof (child_role_length _ _ _ _ _ _ R2) as L2.
  destruct (descend_or_alloc pd _ _ v2) as [pt v3] eqn:E3.
  destruct (descend_frame _ _ _ _ _ _ _ _ _ _ I2 Eg2 (idx2_ok va) E3 Hk) as [M3 C3].
  destruct (descend_spec K G2 v2 _ _ _ _ _ _ _ I2 Eg2 ltac:(simpl in *; lia) (idx2_ok va) E3) as (G3 & _ & I3 & _ & _ & P3 & _ & X3).
  apply (kept_fresh _ _ _ _ _ X3) in Hk.
  destruct (Z.eqb_spec pt 0) as [|Hn3]; [apply pair_eq in E as [_ <-]; split; congruence|].
  destruct (P3 Hn3) as (Eg3 & _). destruct (ti_page _ _ _ I3 _ _ Eg3) as (_ & Ha & _).
  destruct (has (entry (vm_mem v3) pt (idx_pt va)) PTE_PRESENT); apply pair_eq in E as [_ <-]; [split; congruence|].
  cbn [vm_mem vm_cr3 vmm_flush with_mem]. split; [|congruence]. unfold set_entry. rewrite rd_insert_ne; [congruence|].
  pose proof (idx1_ok va) as Hi. red in Hi. intros ->. destruct Hk as (_ & Hk & _).
  rewrite page_of_at in Hk by (done || lia). congruence.
Qed.

Lemma kept_alloc G v pa p x : pmm_inv (vm_pmm v) -> pmm_alloc_page (vm_pmm v) = (pa, p) -> kept G v x -> kept G (with_pmm v p) x.
Proof.
  intros I Ea (H0 & Hn & Hu). destruct (alloc_page_spec _ _ _ I Ea) as (_ & Et & Hg & _).
  split; [done|]. split; [done|]. cbn [vm_pmm with_pmm]. rewrite Et. destruct Hu; [left|by right].
  apply Hg; [apply Z.div_pos; lia|done].
Qed.

Lemma kept_byte G v a : kept G v a -> kept G v (a - a mod 8).
Proof.
  intros (H0 & Hn & Hu). assert (page_of (a - a mod 8) = page_of a /\ (a - a mod 8) / 4096 = a / 4096) as [E1 E2].
  { unfold page_of. split; Z.div_mod_to_equations; lia. }
  split; [Z.div_mod_to_equations; lia|]. by rewrite E1, E2.
Qed.

Lemma load_byte_kept G v m' a :
  (forall x, kept G v x -> rd m' x = rd (vm_mem v) x) -> kept G v a -> load_byte m' a = load_byte (vm_mem v) a.
Proof. intros H Ha. unfold load_byte. by rewrite H by by apply kept_byte. Qed.

Lemma descend_cr3 t i user v t' v' : descend_or_alloc t i user v = (t', v') -> vm_cr3 v' = vm_cr3 v.
Proof.
  unfold descend_or_alloc. destruct (pmm_alloc_page _) as [np p]. repeat zif; intros E; by apply pair_eq in E as [_ <-].
Qed.

Lemma vmm_map_cr3 s va pa flags v b v' : vmm_map (Some s) va pa flags v = (b, v') -> vm_cr3 v' = vm_cr3 v.
Proof.
  unfold vmm_map. destruct (descend_or_alloc (sp_pml4 s) _ _ v) as [pdpt v1] eqn:E1. apply descend_cr3 in E1.
  destruct (descend_or_alloc pdpt _ _ v1) as [pd v2] eqn:E2. apply descend_cr3 in E2.
  destruct (descend_or_alloc pd _ _ v2) as [pt v3] eqn:E3. apply descend_cr3 in E3. cbv zeta.
  repeat zif; intros E; apply pair_eq in E as [_ <-]; cbn [vm_cr3 vmm_flush with_mem]; congruence.
Qed.

Lemma map_loop_index m sp base fl i v b k v' :
  map_loop m sp base fl i v = (b, k, v') -> i <= k <= i + Z.of_nat m.
Proof.
  revert i v. induction m as [|m IH]; intros i v E; cbn [map_loop] in E; [injection E as <- <- <-; lia|].
  destruct (pmm_alloc_page _) as [pa p]. zif_in E; [injection E as <- <- <-; lia|].
  destruct (vmm_map sp _ _ _ _) as [[] v2]; [apply IH in E; lia|injection E as <- <- <-; lia].
Qed.

(** The mapping loop: the pages it mapped were unmapped. *)
Lemma map_loop_frame K s base n fl m G v i b k v' :
  sp_is_kernel s = 0 -> aligned base -> USER_VA_BASE <= base -> base + n * 4096 <= USER_VA_TOP ->
  tree_inv K G v -> registered G (sp_pml4 s) -> 0 <= i -> i + Z.of_nat m <= n ->
  map_loop m (Some s) base fl i v = (b, k, v') ->
  vm_cr3 v' = vm_cr3 v /\ (forall x, kept G v x -> rd (vm_mem v') x = rd (vm_mem v) x) /\
  (forall j, i <= j < k -> translate v (sp_pml4 s) (va base j) = None).
Proof.
  intros Hk Hal Hlo Hhi. revert G v i. induction m as [|m IH]; intros G v i I Hr Hi Hm E; cbn [map_loop] in E.
  { injection E as <- <- <-. split; [done|]. split; [done|]. intros j Hj. lia. }
  destruct (pmm_alloc_page (vm_pmm v)) as [pa p] eqn:Ea. pose proof (ti_pmm _ _ _ I) as Ip.
  destruct (alloc_page_spec _ _ _ Ip Ea) as (Ip' & Et & Hu & Hp).
  destruct (Z.eqb_spec pa 0) as [|Hp0]; [injection E as <- <- <-; split; [done|split; [done|lia]]|].
  destruct (Hp Hp0) as (_ & Hpa & _). pose proof (tree_inv_pmm K G v p I Ip' Et Hu) as I1.
  destruct (va_ok s base n Hk Hal Hlo Hhi i ltac:(lia)) as (_ & _ & Eu & _). rewrite Eu in E.
  destruct (vmm_map (Some s) (va base i) pa fl (with_pmm v p)) as [ok v2] eqn:Em.
  destruct (vmm_map_spec K G _ v2 s _ pa fl ok I1 Hr ltac:(lia) Em) as (G2 & Hs & I2 & _ & T2 & _ & X2 & O2).
  assert (forall x, kept G v x -> rd (vm_mem v2) x = rd (vm_mem v) x /\ vm_cr3 v2 = vm_cr3 v) as F2.
  { intros x Hx. apply (vmm_map_frame K G (with_pmm v p) s (va base i) pa fl ok v2 x I1 Hr Em). by eapply kept_alloc. }
  assert (vm_cr3 v2 = vm_cr3 v) as C2 by apply (vmm_map_cr3 _ _ _ _ _ _ _ Em).
  destruct ok.
  - destruct (O2 eq_refl) as (_ & Tn & _ & _). assert (registered G2 (sp_pml4 s)) as Hr2 by by eapply lookup_weaken.
    destruct (IH G2 v2 (i + 1) I2 Hr2 ltac:(lia) ltac:(lia) E) as (C & F & N). split; [congruence|]. split.
    + intros x Hx. rewrite F; [by apply F2|]. eapply kept_fresh; [exact X2|]. by eapply kept_alloc.
    + intros j Hj. destruct (decide (j = i)) as [->|Hne]; [done|]. rewrite <- (N j) by lia. symmetry.
      rewrite T2; [done|done|]. intros _. destruct (slot_run K s base n Hk Hal Hlo Hhi (sp_pml4 s) (va base j) i ltac:(lia)) as [?|[_ Ei]]; [done|].
      apply (va_inj s base n Hk Hal Hlo Hhi) in Ei; [lia|split; [lia|]|lia]. apply map_loop_index in E. lia.
  - injection E as <- <- <-. cbn [vm_cr3 vm_mem with_pmm]. split; [done|]. split; [|lia]. intros x Hx. by apply F2.
Qed.

(** ** The target space while it is being filled *)

Record loading (K : Z) (G : gmap Z (Z * list Z)) (v : vm) (s : vmm_space) : Prop := {
  ld_tree : tree_inv K G v;
  ld_reg : registered G (sp_pml4 s);
  ld_cr3 : vm_cr3 v = sp_pml4 s;
  ld_space : space_ok G v (sp_pml4 s);
  ld_inj : frames_inj v (sp_pml4 s) }.

Lemma user_ok_kept K G v s a : loading K G v s -> user_ok v a ->
  exists x, mmu v a = Some x /\ kept G v x.
Proof.
  intros [I Hr Ec S _] [Ha (pa & fl & Et & _)]. exists (pa + a mod 4096). rewrite mmu_translate, Et. split; [done|].
  rewrite Ec in Et. destruct (S a pa fl Ha Et) as (Hn & Hp & Hu). pose proof (translate_aligned _ _ _ _ _ Et) as Al.
  pose proof (Z.mod_pos_bound a 4096 ltac:(lia)).
  assert ((pa + a mod 4096) / 4096 = pa / 4096) as E by (unfold aligned in Al; Z.div_mod_to_equations; lia).
  split; [lia|]. rewrite page_of_at by done. by rewrite E.
Qed.

Lemma in_run_range s base n m a :
  sp_is_kernel s = 0 -> aligned base -> USER_VA_BASE <= base -> base + n * 4096 <= USER_VA_TOP -> m <= n ->
  USER_VA_BASE <= a < USER_VA_TOP -> in_run base m a <-> base <= a < base + m * 4096.
Proof.
  intros Hk Hal Hlo Hhi Hm Ha. unfold in_run, va. unfold USER_VA_BASE, USER_VA_TOP, aligned in *. split.
  - intros (j & Hj & E). assert (page_of a = base + j * 4096) as Ep.
    { apply indices_inj; [unfold aligned, page_of; Z.div_mod_to_equations; lia|unfold aligned; rewrite Z.mod_add; lia| | |].
      - unfold page_of. Z.div_mod_to_equations. lia. - lia. - rewrite indices_page by lia. done. }
    unfold page_of in Ep. Z.div_mod_to_equations. lia.
  - intros Hr. exists ((a - base) / 4096). split; [Z.div_mod_to_equations; lia|]. rewrite <- indices_page by lia. f_equal.
    unfold page_of. Z.div_mod_to_equations. lia.
Qed.

(** New frames are not shared with the pages mapped before. *)
Lemma mapped_run_inj K s base n fl G v G' v' fs :
  sp_is_kernel s = 0 -> aligned base -> USER_VA_BASE <= base -> base + n * 4096 <= USER_VA_TOP -> zlen fs <= n ->
  mapped_run K s base fl G v G' v' fs -> registered G (sp_pml4 s) -> space_ok G v (sp_pml4 s) ->
  frames_inj v (sp_pml4 s) -> frames_inj v' (sp_pml4 s).
Proof.
  intros Hk Hal Hlo Hhi Hl M Hr S Inj a b pa fa fb Ha Hb Ea Eb.
  assert (forall c fc, USER_VA_BASE <= c < USER_VA_TOP -> translate v' (sp_pml4 s) c = Some (pa, fc) ->
    (exists j, fs !! j = Some pa /\ page_of c = base + Z.of_nat j * 4096) \/
    (translate v (sp_pml4 s) c = Some (pa, fc) /\ ~ pa ∈ fs)) as Cases.
  { intros c fc Hc Ec. destruct (in_run_dec base (zlen fs) c) as [Hin|Hout].
    - left. apply (in_run_range s base n (zlen fs) c) in Hin; [|done..].
      assert (exists j, 0 <= j < zlen fs /\ page_of c = base + j * 4096) as (j & Hj & Ej).
      { exists ((c - base) / 4096). unfold page_of, aligned in *. split; Z.div_mod_to_equations; lia. }
      destruct (lookup_lt_is_Some_2 fs (Z.to_nat j)) as [f Ef]; [unfold zlen in *; lia|].
      pose proof (mr_map _ _ _ _ _ _ _ _ _ M _ _ Ef) as Em. rewrite Z2Nat.id in Em by lia. unfold va in Em.
      unfold USER_VA_BASE in Hc. rewrite <- Ej, translate_page, Ec in Em by lia. injection Em as <- _. exists (Z.to_nat j).
      split; [done|]. rewrite Z2Nat.id by lia. done.
    - right. rewrite (mr_same _ _ _ _ _ _ _ _ _ M) in Ec; [|done|by right]. split; [done|]. intros Hf.
      destruct (mr_fresh _ _ _ _ _ _ _ _ _ M _ Hf) as (_ & _ & _ & Ht & Hu & _).
      destruct (S c pa fc Hc Ec) as (_ & _ & [?|?]); [congruence|lia]. }
  destruct (Cases a fa Ha Ea) as [(j & Ej & Pa)|[Ta Na]], (Cases b fb Hb Eb) as [(k & Ek & Pb)|[Tb Nb]].
  - rewrite Pa, Pb. by rewrite (NoDup_lookup fs j k pa (mr_nodup _ _ _ _ _ _ _ _ _ M) Ej Ek).
  - destruct Nb. by eapply list_elem_of_lookup_2.
  - destruct Na. by eapply list_elem_of_lookup_2.
  - by eapply Inj.
Qed.

Lemma user_byte_mmu v a x : mmu v a = Some x -> user_byte v a = load_byte (vm_mem v) x.
Proof. intros E. unfold user_byte. by rewrite E. Qed.

(** Mapping a run keeps the bytes of the pages mapped before; when it finishes,
    every byte of the run is new and accessible. *)
Lemma map_loading K G v s base np b k v' :
  loading K G v s -> sp_is_kernel s = 0 -> aligned base -> USER_VA_BASE <= base -> 0 <= np -> base + np * 4096 <= USER_VA_TOP ->
  map_loop (Z.to_nat np) (Some s) base 7 0 v = (b, k, v') ->
  exists G', G ⊆ G' /\ loading K G' v' s /\ (forall r, registered G' r -> registered G r) /\
    (forall r a, registered G r -> r <> sp_pml4 s -> translate v' r a = translate v r a) /\
    (forall a, user_ok v a -> user_ok v' a /\ user_byte v' a = user_byte v a) /\
    (b = true -> forall a, USER_VA_BASE <= a < USER_VA_TOP ->
       if decide (base <= a < base + np * 4096)
       then ~ user_ok v a /\ user_ok v' a else translate v' (sp_pml4 s) a = translate v (sp_pml4 s) a).
Proof.
  intros L Hk Hal Hlo Hn Hhi E. pose proof L as [I Hr Ec S Inj].
  destruct (map_loop_spec K s base np Hk Hal Hlo Hhi 7 G v (Z.to_nat np) G v []) as (b' & k' & v1 & G' & fs & E' & M & -> & Hle & Hb);
    [by apply mapped_run_nil|done|change (zlen []) with 0; lia|done|].
  change (zlen (@nil Z)) with 0 in *. rewrite E' in E. injection E as -> <- ->.
  destruct (map_loop_frame K s base np 7 (Z.to_nat np) G v 0 b (zlen fs) v' Hk Hal Hlo Hhi I Hr ltac:(lia) ltac:(lia) E') as (C & F & N).
  assert (loading K G' v' s) as L'.
  { split; [apply M|by eapply lookup_weaken; [|apply M]|congruence| |].
    - by eapply (mapped_run_space K s base np).
    - by eapply (mapped_run_inj K s base np). }
  assert (forall a, user_ok v a -> user_ok v' a /\ user_byte v' a = user_byte v a) as Keep.
  { intros a Ua. destruct (user_ok_kept K G v s a L Ua) as (x & Ex & Kx). pose proof Ua as [Ha (pa & fl & Et & Hf)].
    assert (translate v' (vm_cr3 v') a = Some (pa, fl)) as Et'.
    { rewrite C, <- Et, Ec. destruct (in_run_dec base (zlen fs) a) as [Hin|]; [|apply (mr_same _ _ _ _ _ _ _ _ _ M); auto].
      exfalso. destruct Hin as (j & Hj & Ej). rewrite Ec, (translate_indices _ _ _ _ Ej), N in Et; done. }
    split; [split; [done|by exists pa, fl]|].
    assert (mmu v' a = Some x) as Ex' by (rewrite mmu_translate, Et', <- Ex, mmu_translate, Et; done).
    rewrite (user_byte_mmu _ _ _ Ex), (user_byte_mmu _ _ _ Ex'). by eapply load_byte_kept. }
  exists G'. split; [apply M|]. split; [done|]. split; [apply M|]. split; [intros r a Hreg Hne; apply (mr_same _ _ _ _ _ _ _ _ _ M); auto|].
  split; [done|]. intros -> a Ha. specialize (Hb eq_refl). assert (zlen fs = np) as El by lia.
  pose proof (in_run_range s base np np a Hk Hal Hlo Hhi ltac:(lia) Ha) as Hir. case_decide as Hd.
  - apply Hir in Hd as (j & Hj & Ej). assert (translate v (sp_pml4 s) a = None) as Tn by (rewrite (translate_indices _ _ _ _ Ej); apply N; lia).
    split; [intros [_ (pa & fl & Et & _)]; congruence|].
    destruct (lookup_lt_is_Some_2 fs (Z.to_nat j)) as [f Ef]; [unfold zlen in *; lia|].
    pose proof (mr_map _ _ _ _ _ _ _ _ _ M _ _ Ef) as Em. rewrite Z2Nat.id in Em by lia.
    split; [done|]. exists f, 7. rewrite C, Ec, (translate_indices _ _ _ _ Ej). done.
  - apply (mr_same _ _ _ _ _ _ _ _ _ M); [done|]. right. rewrite El. tauto.
Qed.

(** ** Writing to the target *)

(** From [v] to [v'] the bytes [a] with [f a = Some b] were set to [b]; nothing
    else changed. *)
Record wrote (K : Z) (G : gmap Z (Z * list Z)) (s : vmm_space) (f : Z -> option Z) (v v' : vm) : Prop := {
  wr_ld : loading K G v' s;
  wr_pmm : vm_pmm v' = vm_pmm v;
  wr_trans r a : registered G r -> translate v' r a = translate v r a;
  wr_byte a : user_ok v a -> user_byte v' a = default (user_byte v a) (f a) }.

Lemma wrote_ok K G s f v v' a : loading K G v s -> wrote K G s f v v' -> user_ok v' a <-> user_ok v a.
Proof.
  intros L [L' _ T _]. unfold user_ok, user_mapped. rewrite (ld_cr3 _ _ _ _ L), (ld_cr3 _ _ _ _ L').
  by setoid_rewrite (T (sp_pml4 s) a (ld_reg _ _ _ _ L)).
Qed.

Lemma wrote_trans K G s f g v1 v2 v3 :
  loading K G v1 s -> wrote K G s f v1 v2 -> wrote K G s g v2 v3 ->
  wrote K G s (fun a => match g a with Some b => Some b | None => f a end) v1 v3.
Proof.
  intros L W1 W2. split; [apply W2|rewrite (wr_pmm _ _ _ _ _ _ W2); apply W1| |].
  - intros r a Hr. rewrite (wr_trans _ _ _ _ _ _ W2), (wr_trans _ _ _ _ _ _ W1) by done. done.
  - intros a Ha. rewrite (wr_byte _ _ _ _ _ _ W2) by (by eapply wrote_ok). rewrite (wr_byte _ _ _ _ _ _ W1) by done.
    by destruct (g a).
Qed.

Lemma wrote_nil K G s f v : loading K G v s -> (forall a, user_ok v a -> f a = None) -> wrote K G s f v v.
Proof. intros L H. split; try done. intros a Ha. by rewrite H. Qed.

Lemma wrote_ext K G s f g v v' : (forall a, user_ok v a -> f a = g a) -> wrote K G s f v v' -> wrote K G s g v v'.
Proof. intros E [A B C D]. split; try done. intros a Ha. by rewrite D, E. Qed.

Definition span (va n : Z) (f : Z -> Z) (a : Z) : option Z := if (va <=? a) && (a <? va + n) then Some (f (a - va)) else None.

Lemma copy_loading K G v s va src :
  loading K G v s -> Forall (fun b => 0 <= b < 256) src -> 0 <= va < 2 ^ 64 -> zlen src < 2 ^ 64 ->
  (forall a, va <= a < va + zlen src -> user_ok v a) ->
  exists v', copy_to_user (Some s) va src v = (0, v') /\ wrote K G s (span va (zlen src) (zget 0 src)) v v'.
Proof.
  intros L Hb Hva Hn Hok. pose proof L as [I Hr Ec S Inj]. pose proof (zlen_nonneg src). unfold copy_to_user.
  destruct (user_range_ok_spec K G v s va (zlen src) I Hr Hva ltac:(lia)) as [_ R].
  assert (user_range v (sp_pml4 s) va (zlen src)) as Ur.
  { destruct (decide (zlen src = 0)); [by left|]. right. destruct (Hok va ltac:(lia)) as [H1 _], (Hok (va + zlen src - 1) ltac:(lia)) as [H2 _].
    split; [lia|]. split; [lia|]. intros a Ha. rewrite <- Ec. by apply Hok. }
  rewrite (proj2 R Ur). cbn [Z.ltb Z.compare]. pose proof (space_frames _ _ _ S) as F. rewrite <- Ec in F, Inj.
  destruct (to_user_spec K G src va v I ltac:(by rewrite Ec) F Hb Hok) as (m & E & I' & Sl & Out & In).
  exists (with_mem v m). split; [exact E|].
  assert (forall r a, registered G r -> translate (with_mem v m) r a = translate v r a) as T by (intros; by apply (translate_same G)).
  assert (loading K G (with_mem v m) s) as L'.
  { split; [done|done|done| |].
    - intros a pa fl Ha. rewrite T by done. by apply S.
    - intros a b pa fa fb Ha Hb'. rewrite !T by done. rewrite <- Ec. by apply Inj. }
  split; [done|done|done|]. intros a Ha. destruct (user_ok_kept K G v s a L Ha) as (x & Ex & Kx).
  assert (mmu (with_mem v m) a = Some x) as Ex'.
  { rewrite <- Ex, !mmu_translate. cbn [vm_cr3 with_mem]. by rewrite T by (by rewrite Ec). }
  rewrite (user_byte_mmu _ _ _ Ex), (user_byte_mmu _ _ _ Ex'). cbn [vm_mem with_mem]. unfold span.
  destruct ((va <=? a) && (a <? va + zlen src)) eqn:Eb; zb; cbn [default].
  - apply (In Inj (a - va) x); [lia|]. replace (va + (a - va)) with a by lia. done.
  - apply Out. intros c Hc Exc. destruct (Hok c Hc) as [Hcw _]. destruct Ha as [Haw _].
    assert (a = c) as -> by by eapply mmu_inj. apply andb_false_iff in Eb as [?|?]; zb; lia.
Qed.

(** ** The segment loop *)

Lemma zero_loop_spec K G s fuel dst rem v :
  loading K G v s -> 0 <= dst < 2 ^ 63 -> 0 <= rem < 2 ^ 63 -> rem <= 4096 * (Z.of_nat fuel - 1) ->
  (forall a, dst <= a < dst + rem -> user_ok v a) ->
  exists v', zero_loop fuel (Some s) dst rem v = (true, v') /\ wrote K G s (span dst rem (fun _ => 0)) v v'.
Proof.
  revert dst rem v. induction fuel as [|fuel IH]; intros dst rem v L Hd Hr Hf Hok; cbn [zero_loop]; [lia|].
  destruct (Z.ltb_spec 0 rem) as [Hp|Hz].
  2:{ exists v. split; [done|]. apply wrote_nil; [done|]. intros a _. unfold span. by zif; [lia|]. }
  cbv zeta. set (chunk := if PAGE_SIZE <? rem then PAGE_SIZE else rem).
  assert (0 < chunk <= rem /\ (chunk = rem \/ chunk = 4096)) as [Hc Hc'] by (unfold chunk, PAGE_SIZE; destruct (Z.ltb_spec 4096 rem); lia).
  clearbody chunk. set (zs := replicate (Z.to_nat chunk) 0).
  assert (zlen zs = chunk) as El by (unfold zs; rewrite zlen_replicate; lia).
  destruct (copy_loading K G v s dst zs L) as (v1 & E1 & W1); [by apply Forall_replicate|lia|lia| |].
  { intros a Ha. apply Hok. lia. }
  rewrite E1. cbn [Z.ltb Z.compare]. rewrite El in W1.
  destruct (decide (dst + chunk < 2 ^ 63)) as [Hs|Hs].
  - rewrite u64_small by lia. destruct (IH (dst + chunk) (rem - chunk) v1) as (v2 & E2 & W2); [apply W1|lia|lia| | |].
    + lia.
    + intros a Ha. eapply wrote_ok; [done..|]. apply Hok. lia.
    + exists v2. split; [done|]. eapply wrote_ext; [|by eapply wrote_trans]. intros a _. unfold span.
      repeat zif; try done; try lia; repeat match goal with H : _ && _ = false |- _ => apply andb_false_iff in H as [?|?]; zb end;
        try done; try lia. unfold zs. by rewrite zget_replicate.
  - exfalso. destruct (Hok (dst + rem - 1)) as [Hw _]; [lia|]. unfold USER_VA_TOP in Hw. lia.
Qed.

(** The state of the target goes from [v] to [v'] with what was mapped in [v]
    kept, byte for byte, and no other space touched. *)
Record extends (K : Z) (s : vmm_space) (G : gmap Z (Z * list Z)) (v : vm) (G' : gmap Z (Z * list Z)) (v' : vm) : Prop := {
  ex_sub : G ⊆ G';
  ex_ld : loading K G' v' s;
  ex_roots r : registered G' r -> registered G r;
  ex_other r a : registered G r -> r <> sp_pml4 s -> translate v' r a = translate v r a;
  ex_keep a : user_ok v a -> user_ok v' a /\ user_byte v' a = user_byte v a }.

Lemma extends_refl K s G v : loading K G v s -> extends K s G v G v.
Proof. intros L. by split. Qed.

Lemma extends_trans K s G1 v1 G2 v2 G3 v3 :
  extends K s G1 v1 G2 v2 -> extends K s G2 v2 G3 v3 -> extends K s G1 v1 G3 v3.
Proof.
  intros [A1 A2 A3 A4 A5] [B1 B2 B3 B4 B5]. split; [by transitivity G2|done|auto| |].
  - intros r a Hr Hn. rewrite B4, A4; [done|done|done|by eapply lookup_weaken|done].
  - intros a Ha. destruct (A5 a Ha) as [Ha2 E2]. destruct (B5 a Ha2) as [Ha3 E3]. split; [done|congruence].
Qed.

(** Writing to bytes that were not mapped in [v]. *)
Lemma extends_wrote K s G v G' v1 f v2 :
  extends K s G v G' v1 -> wrote K G' s f v1 v2 -> (forall a, user_ok v a -> f a = None) -> extends K s G v G' v2.
Proof.
  intros [A1 A2 A3 A4 A5] W Hf. split; [done|apply W|done| |].
  - intros r a Hr Hn. rewrite (wr_trans _ _ _ _ _ _ W) by (by eapply lookup_weaken). by apply A4.
  - intros a Ha. destruct (A5 a Ha) as [Ha1 E1]. split; [by eapply wrote_ok|]. rewrite (wr_byte _ _ _ _ _ _ W) by done.
    by rewrite Hf.
Qed.

(** The headers that put something in memory. *)
Definition loadable (ph : elf64_phdr_t) : Prop := ph_type ph = PT_LOAD /\ ph_memsz ph <> 0.

Definition phdr_wf (ph : elf64_phdr_t) : Prop :=
  0 <= ph_offset ph < 2 ^ 64 /\ 0 <= ph_vaddr ph < 2 ^ 64 /\ 0 <= ph_filesz ph < 2 ^ 64 /\ 0 <= ph_memsz ph < 2 ^ 64.

(** Byte [j] of a segment as the image [d] defines it. *)
Definition seg_byte (d : list Z) (ph : elf64_phdr_t) (j : Z) : Z :=
  if j <? ph_filesz ph then zget 0 d (ph_offset ph + j) else 0.

(** The segment is in memory, readable by the process. *)
Definition placed (v : vm) (d : list Z) (ph : elf64_phdr_t) : Prop :=
  forall j, 0 <= j < ph_memsz ph ->
    user_ok v (ph_vaddr ph + j) /\ user_byte v (ph_vaddr ph + j) = seg_byte d ph j.

(** The segment passes the checks of the loop. *)
Definition seg_valid (d : list Z) (ph : elf64_phdr_t) : Prop :=
  ph_filesz ph <= ph_memsz ph /\ ph_offset ph + ph_filesz ph <= zlen d /\ USER_VA_BASE <= ph_vaddr ph /\
  seg_start ph <= ph_vaddr ph /\ ph_vaddr ph + ph_memsz ph <= seg_end ph /\ seg_end ph <= USER_VA_TOP /\
  aligned (seg_start ph) /\ aligned (seg_end ph) /\ USER_VA_BASE <= seg_start ph.

Lemma seg_checks d ph :
  phdr_wf ph -> zlen d < 2 ^ 63 -> ph_filesz ph <= ph_memsz ph -> ph_offset ph <= zlen d ->
  ph_filesz ph <= u64 (zlen d - ph_offset ph) -> USER_VA_BASE <= ph_vaddr ph ->
  ph_memsz ph <= u64 (u64 (-1) - ph_vaddr ph) -> seg_start ph <= seg_end ph -> seg_end ph <= USER_VA_TOP -> seg_valid d ph.
Proof.
  intros (W1 & W2 & W3 & W4) Hd H1 H2 H3 H4 H5 H6 H7. change (u64 (-1)) with (2 ^ 64 - 1) in H5.
  rewrite u64_small in H3, H5 by lia.
  assert (aligned (seg_start ph) /\ seg_start ph <= ph_vaddr ph /\ ph_vaddr ph < seg_start ph + 4096) as (A1 & A2 & A3).
  { unfold seg_start. rewrite land_align by lia. change (2 ^ 12) with 4096. unfold aligned. Z.div_mod_to_equations. lia. }
  assert (aligned (seg_end ph) /\ ph_vaddr ph + ph_memsz ph <= seg_end ph) as (B1 & B2).
  { revert H6 H7. unfold seg_end. set (e := ph_vaddr ph + ph_memsz ph) in *. rewrite (u64_small e) by lia.
    destruct (decide (e < 2 ^ 63)) as [Hs|Hs]; [destruct (page_up_spec e) as [? ?]; [lia|]; intros; split; [done|lia]|].
    unfold page_up, PAGE_SIZE. destruct (decide (e + 4095 < 2 ^ 64)) as [Hw|Hw].
    - intros _ H7. exfalso. revert H7. rewrite (Zminus_mod_idemp_l (e + 4096) 1 (2 ^ 64) : u64 (u64 (e + 4096) - 1) = u64 (e + 4096 - 1)).
      rewrite u64_small, land_align by lia. change (2 ^ 12) with 4096. unfold USER_VA_TOP. Z.div_mod_to_equations. lia.
    - intros H6. exfalso. revert H6. rewrite (Zminus_mod_idemp_l (e + 4096) 1 (2 ^ 64) : u64 (u64 (e + 4096) - 1) = u64 (e + 4096 - 1)).
      assert (u64 (e + 4096 - 1) = e + 4095 - 2 ^ 64) as -> by (unfold u64; rewrite <- (Z_mod_plus_full _ (-1)), Z.mod_small; lia).
      rewrite land_align by lia. change (2 ^ 12) with 4096. unfold USER_VA_BASE in *. Z.div_mod_to_equations. lia. }
  split; [done|]. split; [lia|]. do 5 (split; [done|]). split; [done|]. unfold USER_VA_BASE, aligned in *. Z.div_mod_to_equations. lia.
Qed.

Lemma load_segment_spec K G v s d ph lo hi n :
  loading K G v s -> sp_is_kernel s = 0 -> Forall (fun b => 0 <= b < 256) d -> zlen d < 2 ^ 63 -> phdr_wf ph ->
  match load_segment (Some s) d ph lo hi n v with
  | Rejected v' => v' = v /\ loadable ph
  | Failed v' => loadable ph /\ exists G', extends K s G v G' v'
  | Loaded lo' hi' n' v' =>
    (~ loadable ph /\ v' = v /\ lo' = lo /\ hi' = hi /\ n' = n) \/
    (loadable ph /\ seg_valid d ph /\ lo' = Z.min lo (seg_start ph) /\ hi' = Z.max hi (seg_end ph) /\ n' = n + 1 /\
     exists G', extends K s G v G' v' /\ placed v' d ph /\
       forall a, user_ok v' a <-> user_ok v a \/ seg_start ph <= a < seg_end ph)
  end.
Proof.
  intros L Hk Hb Hd W. unfold load_segment. cbv zeta.
  destruct (Z.eqb_spec (ph_type ph) PT_LOAD) as [Ht|Ht]; cbn [negb]; [|left; split; [by intros []|done]].
  destruct (Z.eqb_spec (ph_memsz ph) 0) as [Hm|Hm]; [left; split; [by intros []|done]|].
  assert (loadable ph) as Hld by done.
  repeat match goal with |- context [if ?c then Rejected v else _] => destruct c eqn:?; [done|]; zb end.
  pose proof (seg_checks d ph W Hd ltac:(lia) ltac:(lia) ltac:(lia) ltac:(lia) ltac:(lia) ltac:(lia) ltac:(unfold USER_VA_TOP; lia)) as V.
  pose proof V as (V1 & V2 & V3 & V4 & V5 & V6 & V7 & V8 & V9). destruct W as (W1 & W2 & W3 & W4).
  set (np := (seg_end ph - seg_start ph) / PAGE_SIZE). assert (seg_start ph + np * 4096 = seg_end ph) as En.
  { unfold np, PAGE_SIZE, aligned in *. Z.div_mod_to_equations. lia. }
  change (Z.lor (Z.lor VM_PRESENT VM_WRITE) VM_USER) with 7.
  destruct (map_loop (Z.to_nat np) (Some s) (seg_start ph) 7 0 v) as [[b k] v1] eqn:Em.
  destruct (map_loading K G v s (seg_start ph) np b k v1 L Hk V7 V9 ltac:(lia) ltac:(lia) Em) as (G' & X1 & X2 & X3 & X4 & X5 & X6).
  assert (extends K s G v G' v1) as X by by split.
  destruct b; [|split; [done|by exists G']]. specialize (X6 eq_refl).
  assert (forall a, ph_vaddr ph <= a < ph_vaddr ph + ph_memsz ph -> user_ok v1 a) as Hok.
  { intros a Ha. specialize (X6 a). rewrite decide_True in X6 by lia. apply X6. lia. }
  assert (forall a f n0, user_ok v a -> n0 <= ph_memsz ph -> span (ph_vaddr ph) n0 f a = None) as Hnone.
  { intros a f n0 Ha Hn0. unfold span. zif; [|done]. exfalso. specialize (X6 a). rewrite decide_True in X6 by lia. destruct (X6 (proj1 Ha)) as [X6a _]. by apply X6a. }
  unfold USER_VA_TOP, PAGE_SIZE in *.
  pose proof (Z.mul_succ_div_gt (ph_memsz ph) 4096 ltac:(lia)). assert (0 <= ph_memsz ph / 4096) by (apply Z.div_pos; lia).
  destruct (zero_loop_spec K G' s (Z.to_nat (ph_memsz ph / 4096 + 2)) (ph_vaddr ph) (ph_memsz ph) v1 X2) as (v2 & E2 & W2');
    [lia|lia|rewrite Z2Nat.id; lia|done|].
  rewrite E2. pose proof (extends_wrote _ _ _ _ _ _ _ _ X W2' (fun a Ha => Hnone a _ _ Ha (Z.le_refl _))) as Xz.
  set (file := slice d (ph_offset ph) (ph_filesz ph)). assert (zlen file = ph_filesz ph) as Ef by (unfold file; rewrite zlen_slice; lia).
  assert (exists v3, (if 0 <? ph_filesz ph then copy_to_user (Some s) (ph_vaddr ph) file v2 else (0, v2)) = (0, v3) /\
    wrote K G' s (span (ph_vaddr ph) (ph_filesz ph) (zget 0 file)) v2 v3) as (v3 & E3 & W3').
  { destruct (Z.ltb_spec 0 (ph_filesz ph)) as [Hp|Hz].
    - destruct (copy_loading K G' v2 s (ph_vaddr ph) file) as (v3 & E3 & W3'); [apply W2'|by apply slice_bytes|lia|lia| |].
      + intros a Ha. eapply wrote_ok; [exact X2|exact W2'|]. apply Hok. lia.
      + rewrite Ef in W3'. by exists v3.
    - exists v2. split; [done|]. apply wrote_nil; [apply W2'|]. intros a _. unfold span. by zif; [lia|]. }
  rewrite E3. cbn [Z.ltb Z.compare]. right. split; [done|]. split; [done|].
  split; [destruct (Z.ltb_spec (seg_start ph) lo); lia|]. split; [destruct (Z.ltb_spec hi (seg_end ph)); lia|]. split; [done|].
  exists G'. pose proof (extends_wrote _ _ _ _ _ _ _ _ Xz W3' (fun a Ha => Hnone a _ _ Ha V1)) as Xf.
  assert (forall a, user_ok v3 a <-> user_ok v1 a) as Ok3.
  { intros a. rewrite (wrote_ok _ _ _ _ _ _ _ (wr_ld _ _ _ _ _ _ W2') W3'). by rewrite (wrote_ok _ _ _ _ _ _ _ X2 W2'). }
  split; [done|]. split.
  - intros j Hj. split; [apply Ok3, Hok; lia|]. rewrite (wr_byte _ _ _ _ _ _ W3') by (eapply wrote_ok; [exact X2|exact W2'|apply Hok; lia]).
    rewrite (wr_byte _ _ _ _ _ _ W2') by (apply Hok; lia). unfold span, seg_byte.
    replace (ph_vaddr ph + j - ph_vaddr ph) with j by lia. destruct (Z.ltb_spec j (ph_filesz ph)); repeat zif; zb; try lia; cbn [default].
    + unfold file. by rewrite zget_slice by lia.
    + done.
  - intros a. rewrite Ok3. specialize (X6 a). split.
    + intros Ha. pose proof Ha as [Haw (pa & fl & Et & Hf)]. specialize (X6 Haw). case_decide as Hc; [right; lia|left].
      split; [done|]. exists pa, fl. rewrite (ld_cr3 _ _ _ _ L), <- X6, <- (ld_cr3 _ _ _ _ X2). done.
    + intros [Ha|Ha]; [by apply X5|]. rewrite decide_True in X6 by lia. apply X6. unfold USER_VA_BASE in *. lia.
Qed.

Lemma placed_extends K s G v G' v' d ph : extends K s G v G' v' -> placed v d ph -> placed v' d ph.
Proof. intros X P j Hj. destruct (P j Hj) as [Ha Hb]. destruct (ex_keep _ _ _ _ _ _ X _ Ha) as [Ha' Eb]. split; [done|congruence]. Qed.

(** What the loop over the headers [l] leaves, started at [v] with [n] segments
    loaded and the span [lo .. hi]. *)
Record segments_in (d : list Z) (l : list elf64_phdr_t) (v : vm) (lo hi n : Z) (v' : vm) (lo' hi' n' : Z) : Prop := {
  si_lo : lo' <= lo;
  si_hi : hi <= hi';
  si_n : n <= n';
  si_some : n' <> n -> exists ph, ph ∈ l /\ loadable ph;
  si_seg ph : ph ∈ l -> loadable ph -> seg_valid d ph /\ placed v' d ph /\ lo' <= seg_start ph /\ seg_end ph <= hi';
  si_ok a : user_ok v' a <-> user_ok v a \/ exists ph, ph ∈ l /\ loadable ph /\ seg_start ph <= a < seg_end ph;
  si_span : Z.min lo USER_VA_BASE <= lo' /\ hi' <= Z.max hi USER_VA_TOP }.

Lemma load_segments_spec K G v s d l lo hi n :
  loading K G v s -> sp_is_kernel s = 0 -> Forall (fun b => 0 <= b < 256) d -> zlen d < 2 ^ 63 -> Forall phdr_wf l ->
  match load_segments (Some s) d l lo hi n v with
  | Rejected v' | Failed v' => exists G', extends K s G v G' v'
  | Loaded lo' hi' n' v' => exists G', extends K s G v G' v' /\ segments_in d l v lo hi n v' lo' hi' n'
  end.
Proof.
  intros L Hk Hb Hd W. revert G v lo hi n L. induction W as [|ph l Hw _ IH]; intros G v lo hi n L; cbn [load_segments].
  { exists G. split; [by apply extends_refl|]. split; [lia|lia|lia|done| | |lia].
    - by intros ph ?%not_elem_of_nil.
    - intros a. split; [by left|]. intros [?|(ph & ?%not_elem_of_nil & _)]; done. }
  pose proof (load_segment_spec K G v s d ph lo hi n L Hk Hb Hd Hw) as S.
  destruct (load_segment (Some s) d ph lo hi n v) as [v1|v1|lo1 hi1 n1 v1].
  - destruct S as [-> _]. exists G. by apply extends_refl.
  - by destruct S as [_ S].
  - assert (exists G1, extends K s G v G1 v1) as (G1 & X1).
    { destruct S as [(_ & -> & _)|(_ & _ & _ & _ & _ & G1 & X1 & _)]; [exists G; by apply extends_refl|by exists G1]. }
    specialize (IH G1 v1 lo1 hi1 n1 (ex_ld _ _ _ _ _ _ X1)).
    destruct (load_segments (Some s) d l lo1 hi1 n1 v1) as [v2|v2|lo2 hi2 n2 v2].
    + destruct IH as (G2 & X2). exists G2. by eapply extends_trans.
    + destruct IH as (G2 & X2). exists G2. by eapply extends_trans.
    + destruct IH as (G2 & X2 & [I1 I2 I3 I4 I5 I6 I7]). exists G2. split; [by eapply extends_trans|].
      destruct S as [(Hnl & -> & -> & -> & ->)|(Hl & Hv & -> & -> & -> & G1' & _ & Hp & Ho)].
      * split; try done.
        -- intros Hn. destruct (I4 Hn) as (q & ? & ?). exists q. split; [by right|done].
        -- intros q [->|Hq]%elem_of_cons Hlq; [done|by apply I5].
        -- intros a. rewrite I6. split; (intros [?|(q & Hq & Hlq & Hr)]; [by left|right; exists q; split; [|done]]).
           ++ by right. ++ apply elem_of_cons in Hq as [->|]; done.
      * split; try lia.
        -- intros _. exists ph. split; [by left|done].
        -- intros q [->|Hq]%elem_of_cons Hlq; [|by apply I5]. split; [done|]. split; [by eapply placed_extends|lia].
        -- intros a. rewrite I6, Ho. split.
           ++ intros [[?|Hr]|(q & Hq & Hlq & Hr)]; [by left|right; exists ph; split; [by left|done]|right; exists q; split; [by right|done]].
           ++ intros [?|(q & [->|Hq]%elem_of_cons & Hlq & Hr)]; [by left; left|by left; right|right; exists q; done].
        -- destruct Hv as (_ & _ & _ & _ & _ & V6 & _ & _ & V9). lia.
Qed.

Lemma phdrs_wf d : Forall (fun b => 0 <= b < 256) d -> Forall phdr_wf (phdrs d).
Proof.
  intros Hb. apply Forall_fmap, Forall_forall. intros i _. unfold compose, phdr_wf, phdr_at. cbn [ph_offset ph_vaddr ph_filesz ph_memsz].
  change (2 ^ 64) with (256 ^ 8). pose proof (get_le_range d). auto with lia.
Qed.

Lemma tree_inv_switch K G v s : tree_inv K G v -> tree_inv K G (vmm_switch s v).
Proof. intros [A B C D E F]. destruct s; by split. Qed.

(** An empty target, switched to, is ready to be filled. *)
Lemma loading_empty K G v s :
  tree_inv K G v -> registered G (sp_pml4 s) ->
  (forall a, USER_VA_BASE <= a < USER_VA_TOP -> translate v (sp_pml4 s) a = None) ->
  loading K G (vmm_switch (Some s) v) s.
Proof.
  intros I Hr He. split; [by apply tree_inv_switch|done|done| |].
  - intros a pa fl Ha Et. change (translate v (sp_pml4 s) a = Some (pa, fl)) in Et.
    rewrite He in Et; done.
  - intros a b pa fa fb Ha _ Et. change (translate v (sp_pml4 s) a = Some (pa, fa)) in Et. rewrite He in Et; done.
Qed.

(** C15: loading into an empty address space keeps every page table well formed
    and changes no translation of any other space.  When it succeeds the header
    is valid, CR3 is back to what it was, every loadable segment passed its
    checks and lies inside the reported span, and a process running in the space
    reads at each address of a segment the byte of the file, or zero past the
    file part; exactly the pages of the segments are mapped.  A bad header is
    refused without touching anything. *)
Theorem elf_load_correct (K : Z) (G : gmap Z (Z * list Z)) (v v' : vm) (pa sa : Z) (prev s : vmm_space) (d : list Z)
    (r : option elf_image_t) :
  tree_inv K G v -> registered G (sp_pml4 s) -> sp_is_kernel s = 0 -> vm_cr3 v = sp_pml4 prev ->
  (forall a, USER_VA_BASE <= a < USER_VA_TOP -> translate v (sp_pml4 s) a = None) ->
  sa <> 0 -> sa <> pa -> Forall (fun b => 0 <= b < 256) d -> zlen d < 2 ^ 63 ->
  elf_load (pa, prev) (sa, s) d v = (r, v') ->
  (ehdr_ok d = false -> r = None /\ v' = v) /\
  (exists G', G ⊆ G' /\ tree_inv K G' v' /\
    (forall q a, registered G q -> q <> sp_pml4 s -> translate v' q a = translate v q a)) /\
  (forall img, r = Some img ->
    let run := vmm_switch (Some s) v' in
    ehdr_ok d = true /\ vm_cr3 v' = vm_cr3 v /\ im_entry img = e_entry (ehdr_at d) /\
    (exists ph, ph ∈ phdrs d /\ loadable ph) /\
    (forall ph, ph ∈ phdrs d -> loadable ph -> seg_valid d ph /\ placed run d ph /\
       load_base img <= seg_start ph /\ seg_end ph <= load_base img + load_size img) /\
    (forall a, user_ok run a <-> exists ph, ph ∈ phdrs d /\ loadable ph /\ seg_start ph <= a < seg_end ph)).
Proof.
  intros I Hr Hk Hc He Hs0 Hsp Hb Hd. unfold elf_load. cbn [fst snd]. rewrite (proj2 (Z.eqb_neq sa 0) Hs0).
  destruct (ehdr_ok d) eqn:Eh; cbn [negb].
  2:{ intros E. apply pair_eq in E as [<- <-]. split; [done|]. split; [by exists G|done]. }
  rewrite (proj2 (Z.eqb_neq pa sa)) by congruence. cbn [negb]. cbv zeta.
  pose proof (loading_empty K G v s I Hr He) as L. set (v1 := vmm_switch (Some s) v) in *.
  pose proof (load_segments_spec K G v1 s d (phdrs d) (u64 (-1)) 0 0 L Hk Hb Hd (phdrs_wf d Hb)) as S.
  assert (forall G' w sp, extends K s G v1 G' w -> exists G', G ⊆ G' /\ tree_inv K G' (vmm_switch sp w) /\
    (forall q a, registered G q -> q <> sp_pml4 s -> translate (vmm_switch sp w) q a = translate v q a)) as Iso.
  { intros G' w sp [X1 X2 _ X4 _]. exists G'. split; [done|]. split; [apply tree_inv_switch, X2|]. intros q a Hq Hn.
    transitivity (translate w q a); [by destruct sp|]. by rewrite X4. }
  destruct (load_segments (Some s) d (phdrs d) (u64 (-1)) 0 0 v1) as [v2|v2|lo hi n v2].
  - intros E. apply pair_eq in E as [<- <-]. split; [done|]. split; [|done]. destruct S as (G' & X). by apply (Iso G' v2 None).
  - intros E. apply pair_eq in E as [<- <-]. split; [done|]. split; [|done]. destruct S as (G' & X). by apply (Iso G' v2 (Some prev)).
  - destruct S as (G' & X & [_ _ _ I4 I5 I6 I7]). destruct (Z.eqb_spec n 0) as [->|Hn]; intros E; apply pair_eq in E as [<- <-];
      (split; [done|]; split; [by apply (Iso G' v2 (Some prev))|]); [done|].
    intros img [= <-]. cbv zeta. cbn [im_entry load_base load_size]. destruct (I4 Hn) as (ph0 & Hph0 & Hl0).
    assert (vmm_switch (Some s) (vmm_switch (Some prev) v2) = v2) as ->.
    { pose proof (ld_cr3 _ _ _ _ (ex_ld _ _ _ _ _ _ X)) as C2. destruct v2. cbn in C2. rewrite C2. done. }
    split; [done|]. split; [done|]. split; [done|]. split; [by exists ph0|].
    assert (u64 (hi - lo) = hi - lo) as ->.
    { destruct (I5 ph0 Hph0 Hl0) as ((_ & _ & _ & V4 & V5 & V6 & _) & _ & Hlo & Hhi).
      pose proof (phdrs_wf d Hb) as Wf. rewrite Forall_forall in Wf. destruct (Wf ph0 Hph0) as (_ & _ & _ & W4).
      change (u64 (-1)) with (2 ^ 64 - 1) in I7. unfold USER_VA_BASE, USER_VA_TOP in *. apply u64_small. lia. }
    split; [intros ph Hph Hl; destruct (I5 ph Hph Hl) as (? & ? & ? & ?); split; [done|]; split; [done|lia]|].
    intros a. rewrite I6. split; [intros [[Ha (q & fl & Et & _)]|?]; [|done]|by right].
    change (translate v (sp_pml4 s) a = Some (q, fl)) in Et. by rewrite He in Et.
Qed.

(** ** Concrete images *)

Definition demo_phdr (off va filesz memsz : Z) : list Z :=
  le_bytes 4 PT_LOAD ++ le_bytes 4 7 ++ le_bytes 8 off ++ le_bytes 8 va ++ le_bytes 8 va ++
  le_bytes 8 filesz ++ le_bytes 8 memsz ++ le_bytes 8 4096.
Definition demo_elf (phs : list (list Z)) (file : list Z) : list Z :=
  [0x7F; 69; 76; 70; 2; 1; 1; 0; 0; 0; 0; 0; 0; 0; 0; 0] ++ le_bytes 2 2 ++ le_bytes 2 0x3E ++ le_bytes 4 1 ++
  le_bytes 8 USER_VA_BASE ++ le_bytes 8 64 ++ le_bytes 8 0 ++ le_bytes 4 0 ++ le_bytes 2 64 ++ le_bytes 2 56 ++
  le_bytes 2 (zlen phs) ++ le_bytes 2 64 ++ le_bytes 2 0 ++ le_bytes 2 0 ++ concat phs ++ file.

Lemma bytes_forallb l : forallb (fun b => (0 <=? b) && (b <? 256)) l = true -> Forall (fun b => 0 <= b < 256) l.
Proof. intros H. apply List.Forall_forall. intros b Hb. apply (proj1 (forallb_forall _ _) H) in Hb. lia. Qed.

(** Three bytes of file and two of zeros, at the start of the user window. *)
Definition demo_image : list Z := demo_elf [demo_phdr 120 (USER_VA_BASE + 8) 3 5] [11; 12; 13].
Definition demo_prev : vmm_space := MkSpace (vm_cr3 demo_vm) 1 1.

Lemma elf_load_correct_witness :
  exists img v', elf_load (1, demo_prev) (2, demo_user) demo_image demo_vm = (Some img, v') /\
    load_base img <= USER_VA_BASE /\
    (fun j => user_byte (vmm_switch (Some demo_user) v') (USER_VA_BASE + 8 + j)) <$> seqZ 0 5 = [11; 12; 13; 0; 0].
Proof.
  destruct (elf_load (1, demo_prev) (2, demo_user) demo_image demo_vm) as [r v'] eqn:E.
  assert (exists img, r = Some img) as [img ->].
  { change r with (fst (r, v')). rewrite <- E. vm_compute. eexists. reflexivity. }
  destruct (elf_load_correct demo_K demo_G demo_vm v' 1 2 demo_prev demo_user demo_image (Some img) demo_tree eq_refl eq_refl eq_refl
    demo_user_empty ltac:(discriminate) ltac:(discriminate)) as (_ & _ & C); [|reflexivity|exact E|].
  { apply bytes_forallb. vm_compute. reflexivity. }
  exists img, v'. split; [reflexivity|]. destruct (C img eq_refl) as (_ & _ & _ & _ & S & _).
  set (ph := MkPhdr 1 7 120 (USER_VA_BASE + 8) (USER_VA_BASE + 8) 3 5 4096).
  destruct (S ph) as (_ & P & Hlo & _).
  { assert (phdrs demo_image = [ph]) as -> by (vm_compute; reflexivity). by left. }
  { split; [reflexivity|discriminate]. }
  split; [exact Hlo|]. apply (list_eq_zget 0); [reflexivity|]. intros j Hj. change (0 <= j < 5) in Hj.
  rewrite zget_fmap_seqZ by exact Hj. destruct (P j Hj) as [_ B].
  change (user_byte (vmm_switch (Some demo_user) v') (USER_VA_BASE + 8 + j) = seg_byte demo_image ph j) in B. rewrite B.
  assert (j = 0 \/ j = 1 \/ j = 2 \/ j = 3 \/ j = 4) as [->|[->|[->|[->| ->]]]] by lia; vm_compute; reflexivity.
Defined.

(** The comment in the loop says that bytes of a neighbouring segment on the
    same page are left alone; a page that is already mapped makes [vmm_map] and
    with it the load fail instead. *)
Theorem elf_shared_page_fails :
  let d := demo_elf [demo_phdr 176 USER_VA_BASE 1 1; demo_phdr 177 (USER_VA_BASE + 64) 1 1] [1; 2] in
  ehdr_ok d = true /\ fst (elf_load (1, demo_prev) (2, demo_user) d demo_vm) = None.
Proof. vm_compute. done. Qed.

(** A segment whose file part exceeds its memory part is refused by a plain
    [return], past the point where CR3 was switched: the caller goes on in the
    half-built space. *)
Theorem elf_reject_keeps_cr3 :
  let d := demo_elf [demo_phdr 120 USER_VA_BASE 2 1] [1; 2] in
  let '(r, v') := elf_load (1, demo_prev) (2, demo_user) d demo_vm in
  r = None /\ vm_cr3 v' = sp_pml4 demo_user /\ vm_cr3 demo_vm <> sp_pml4 demo_user.
Proof. vm_compute. done. Qed.
