(* ===== verification/Exec.v ===== *)
(** * Starting a process

    [exec.c] and [process_create_from_elf] of [process.c]: the user stack and
    the read-only initrd are mapped, the initial stack is built in the SysV
    layout, and the process object with its main thread is assembled from the
    address space, the loaded image, the heap and the scheduler. *)
From S2P Require Import Prelude Bytes Errno Queue Iface Handle Sched Sync Channel Pmm Vmm Heap Process UserMem Str Elf.

Definition EXEC_MAX_ARGS : Z := 16.
Definition EXEC_MAX_ENVS : Z := 16.
Definition EXEC_STACK_PAGES : Z := 4.
Definition INITRD_VA : Z := USER_VA_BASE + 0x02000000.

(** ** Mapping the stack and the initrd *)

(** [for (i = 0; i < pages; ++i)], [n] turns left.  What was mapped before a
    failure stays: the caller destroys the space. *)
Fixpoint map_user_stack (n : nat) (sp : option vmm_space) (stack_top i : Z) (v : vm) : bool * vm :=
  match n with
  | O => (true, v)
  | S n =>
    let '(pa, p) := pmm_alloc_page (vm_pmm v) in
    let v1 := with_pmm v p in
    if pa =? 0 then (false, v1)
    else
      let va := u64 (stack_top - u64 ((i + 1) * PAGE_SIZE)) in
      let '(ok, v2) := vmm_map sp va pa (Z.lor (Z.lor VM_PRESENT VM_WRITE) VM_USER) v1 in
      if ok then map_user_stack n sp stack_top (i + 1) v2
      else (false, with_pmm v2 (snd (pmm_free_page pa (vm_pmm v2))))
  end.

(** A plain store [udst[j] = b] of kernel code; [None] is a page fault outside
    the copy routines, which panics. *)
Definition poke (a b : Z) (v : vm) : option vm :=
  match mmu v a with
  | None => None
  | Some pa => Some (with_mem v (store_byte pa b (vm_mem v)))
  end.

Fixpoint pokes (a : Z) (bs : list Z) (v : vm) : option vm :=
  match bs with
  | [] => Some v
  | b :: bs => match poke a b v with None => None | Some v' => pokes (a + 1) bs v' end
  end.

(** The page loop of [map_initrd]: whether it finished and the pages mapped. *)
Fixpoint initrd_loop (n : nat) (sp : option vmm_space) (src : list Z) (i : Z) (v : vm) : option (bool * Z * vm) :=
  match n with
  | O => Some (true, i, v)
  | S n =>
    let '(pa, p) := pmm_alloc_page (vm_pmm v) in
    let v1 := with_pmm v p in
    if pa =? 0 then Some (false, i, v1)
    else
      let va := u64 (INITRD_VA + u64 (i * PAGE_SIZE)) in
      let '(ok, v2) := vmm_map sp va pa (Z.lor VM_PRESENT VM_USER) v1 in
      if ok then
        let off := u64 (i * PAGE_SIZE) in
        let remain := if off <? zlen src then zlen src - off else 0 in
        let remain := if PAGE_SIZE <? remain then PAGE_SIZE else remain in
        match pokes va (replicate (Z.to_nat PAGE_SIZE) 0) v2 with
        | None => None
        | Some v3 =>
          match pokes va (slice src off remain) v3 with
          | None => None
          | Some v4 => initrd_loop n sp src (i + 1) v4
          end
        end
      else Some (false, i, with_pmm v2 (snd (pmm_free_page pa (vm_pmm v2))))
  end.

(** [prev] and [space] as in [elf_load]; [src] is [None] for a null pointer. *)
Definition map_initrd (prev space : Z * vmm_space) (src : option (list Z)) (v : vm) : option (bool * vm) :=
  match src with
  | None => Some (true, v)
  | Some src =>
    if zlen src =? 0 then Some (true, v)
    else
      let sp := Some (snd space) in
      let pages := u64 (u64 (zlen src + PAGE_SIZE) - 1) / PAGE_SIZE in
      if existsb (fun i => match vmm_query sp (u64 (INITRD_VA + i * PAGE_SIZE)) v with Some _ => true | None => false end)
           (seqZ 0 pages) then Some (false, v)
      else
        let need_switch := negb (fst prev =? fst space) in
        let v1 := if need_switch then vmm_switch sp v else v in
        match initrd_loop (Z.to_nat pages) sp src 0 v1 with
        | None => None
        | Some (ok, mapped, v2) =>
          let v3 := if ok then v2 else unmap_loop sp false INITRD_VA mapped v2 in
          Some (ok, if need_switch then vmm_switch (Some (snd prev)) v3 else v3)
        end
  end.

(** ** The initial stack *)

Definition write_user_bytes (sp : option vmm_space) (va : Z) (src : list Z) (v : vm) : bool * vm :=
  let '(r, v') := copy_to_user sp va src v in (r =? 0, v').

Definition push_u64 (sp : option vmm_space) (rsp x : Z) (v : vm) : bool * Z * vm :=
  let rsp := u64 (rsp - 8) in
  let '(ok, v') := write_user_bytes sp rsp (le_bytes 8 x) v in (ok, rsp, v').

(** The string is the array up to its NUL; its address is the new [rsp]. *)
Definition push_string (sp : option vmm_space) (rsp : Z) (str : list Z) (v : vm) : bool * Z * vm :=
  let len := strlen str + 1 in
  let rsp := u64 (rsp - len) in
  let '(ok, v') := write_user_bytes sp rsp (slice str 0 len) v in (ok, rsp, v').

(** [for (i = n - 1; i >= 0; --i) push_string(...)]: the last one first; the
    addresses come back in the order of the array. *)
Fixpoint push_strings (sp : option vmm_space) (l : list (list Z)) (rsp : Z) (v : vm) : option (list Z) * Z * vm :=
  match l with
  | [] => (Some [], rsp, v)
  | str :: l =>
    match push_strings sp l rsp v with
    | (None, rsp, v) => (None, rsp, v)
    | (Some vas, rsp, v) =>
      match push_string sp rsp str v with
      | (false, rsp, v) => (None, rsp, v)
      | (true, rsp, v) => (Some (rsp :: vas), rsp, v)
      end
    end
  end.

(** Pushing the slots [l], the last one first. *)
Fixpoint push_slots (sp : option vmm_space) (l : list Z) (rsp : Z) (v : vm) : bool * Z * vm :=
  match l with
  | [] => (true, rsp, v)
  | x :: l =>
    match push_slots sp l rsp v with
    | (false, rsp, v) => (false, rsp, v)
    | (true, rsp, v) => push_u64 sp rsp x v
    end
  end.

(** The slots of step 3 from the lowest address up: [argc], the [argv] pointers
    and their NULL, the [envp] pointers and theirs, and the pad. *)
Definition stack_slots (argc envc : Z) (argv_va envp_va : list Z) : list Z :=
  argc :: argv_va ++ 0 :: envp_va ++ 0 :: (if Z.land (argc + envc + 3) 1 =? 1 then [0] else []).

Definition exec_build_initial_stack (prev space : Z * vmm_space) (stack_top argc : Z) (argv : list (list Z))
    (envc : Z) (envp : list (list Z)) (v : vm) : Z * vm :=
  if (argc <? 0) || (EXEC_MAX_ARGS <? argc) then (0, v)
  else if (envc <? 0) || (EXEC_MAX_ENVS <? envc) then (0, v)
  else if fst space =? 0 then (0, v)
  else
    let sp := Some (snd space) in
    let need_switch := negb (fst prev =? fst space) in
    let v := if need_switch then vmm_switch sp v else v in
    let out r v := (r, if need_switch then vmm_switch (Some (snd prev)) v else v) in
    match push_strings sp (take (Z.to_nat envc) envp) stack_top v with
    | (None, _, v) => out 0 v
    | (Some envp_va, rsp, v) =>
      match push_strings sp (take (Z.to_nat argc) argv) rsp v with
      | (None, _, v) => out 0 v
      | (Some argv_va, rsp, v) =>
        let rsp := Z.land rsp (align_mask 4) in
        match push_slots sp (stack_slots argc envc argv_va envp_va) rsp v with
        | (false, _, v) => out 0 v
        | (true, rsp, v) => out rsp v
        end
      end
    end.

(** ** What the pushes leave *)

(** From [(v, rsp)] to [(v', rsp')] the stack grew down: only bytes between the
    two pointers were written. *)
Record pushed (K : Z) (G : gmap Z (Z * list Z)) (s : vmm_space) (v : vm) (rsp : Z) (v' : vm) (rsp' : Z) : Prop := {
  pu_ld : loading K G v' s;
  pu_down : rsp' <= rsp;
  pu_pmm : vm_pmm v' = vm_pmm v;
  pu_trans r a : registered G r -> translate v' r a = translate v r a;
  pu_ok a : user_ok v' a <-> user_ok v a;
  pu_keep a : user_ok v a -> ~ (rsp' <= a < rsp) -> user_byte v' a = user_byte v a }.

Lemma pushed_refl K G s v rsp : loading K G v s -> pushed K G s v rsp v rsp.
Proof. by split. Qed.

Lemma pushed_trans K G s v1 r1 v2 r2 v3 r3 :
  pushed K G s v1 r1 v2 r2 -> pushed K G s v2 r2 v3 r3 -> pushed K G s v1 r1 v3 r3.
Proof.
  intros [A1 A2 A3 A4 A5 A6] [B1 B2 B3 B4 B5 B6]. split; [done|lia|congruence| | |].
  - intros r a Hr. by rewrite B4, A4.
  - intros a. by rewrite B5.
  - intros a Ha Hn. rewrite B6, A6; [done|done|lia|by apply A5|lia].
Qed.

(** The bytes [bs] are in user memory at [a]. *)
Definition user_bytes (v : vm) (a : Z) (bs : list Z) : Prop :=
  forall j, 0 <= j < zlen bs -> user_ok v (a + j) /\ user_byte v (a + j) = zget 0 bs j.

Lemma user_bytes_pushed K G s v rsp v' rsp' a bs :
  pushed K G s v rsp v' rsp' -> rsp <= a -> user_bytes v a bs -> user_bytes v' a bs.
Proof.
  intros P Ha U j Hj. destruct (U j Hj) as [O B]. split; [by apply (pu_ok _ _ _ _ _ _ _ P)|].
  rewrite (pu_keep _ _ _ _ _ _ _ P); [done|done|lia].
Qed.

Lemma write_pushed K G s v rsp bs :
  loading K G v s -> Forall (fun b => 0 <= b < 256) bs -> USER_VA_BASE <= rsp - zlen bs -> rsp <= USER_VA_TOP ->
  (forall a, rsp - zlen bs <= a < rsp -> user_ok v a) ->
  exists v', write_user_bytes (Some s) (u64 (rsp - zlen bs)) bs v = (true, v') /\
    pushed K G s v rsp v' (rsp - zlen bs) /\ user_bytes v' (rsp - zlen bs) bs.
Proof.
  intros L Hb Hlo Hhi Hok. pose proof (zlen_nonneg bs). unfold USER_VA_BASE, USER_VA_TOP in *. rewrite u64_small by lia.
  destruct (copy_loading K G v s (rsp - zlen bs) bs L Hb) as (v' & E & W); [lia|lia|intros a Ha; apply Hok; lia|].
  exists v'. unfold write_user_bytes. rewrite E. split; [done|]. split.
  - split; [apply W|lia|apply W|apply W|intros a; by eapply wrote_ok|].
    intros a Ha Hn. rewrite (wr_byte _ _ _ _ _ _ W) by done. unfold span. zif; [lia|done].
  - intros j Hj. split; [eapply wrote_ok; [done..|]; apply Hok; lia|].
    rewrite (wr_byte _ _ _ _ _ _ W) by (apply Hok; lia). unfold span. zif;
      [|match goal with H : _ && _ = false |- _ => apply andb_false_iff in H as [?|?]; zb; lia end].
    cbn [from_option id]. by replace (rsp - zlen bs + j - (rsp - zlen bs)) with j by lia.
Qed.

Lemma slice_cstr str : 0 ∈ str -> slice str 0 (strlen str + 1) = cstr str ++ [0].
Proof.
  intros H. destruct (cstr_split str H) as [t E]. rewrite strlen_cstr. set (c := cstr str) in *. rewrite E.
  pose proof (zlen_nonneg c). replace (c ++ 0 :: t) with ((c ++ [0]) ++ t) by by rewrite <- app_assoc.
  assert (zlen (c ++ [0]) = zlen c + 1) as El by (rewrite zlen_app; done). rewrite <- El.
  transitivity (slice (c ++ [0]) 0 (zlen (c ++ [0]))); [|apply slice_full].
  apply slice_ext. intros i Hi. apply zget_app_l. lia.
Qed.

(** Room on the stack: every byte from [lo] up to [top] is writable. *)
Section room.
Context (K : Z) (G : gmap Z (Z * list Z)) (s : vmm_space) (lo top : Z).
Context (Hlo : USER_VA_BASE <= lo) (Htop : top <= USER_VA_TOP).

Definition room (v : vm) : Prop := forall a, lo <= a < top -> user_ok v a.

Lemma room_pushed v rsp v' rsp' : pushed K G s v rsp v' rsp' -> room v -> room v'.
Proof using Type. intros P R a Ha. apply (pu_ok _ _ _ _ _ _ _ P). by apply R. Qed.

Definition c_string (str : list Z) : Prop := 0 ∈ str /\ Forall (fun b => 0 <= b < 256) str.

(** The bytes a list of strings takes with their terminators. *)
Definition strings_size (l : list (list Z)) : Z := foldr (fun str n => strlen str + 1 + n) 0 l.

Lemma strings_size_nonneg l : 0 <= strings_size l.
Proof using Type. induction l as [|str l IH]; simpl; [lia|]. rewrite strlen_cstr. pose proof (zlen_nonneg (cstr str)). lia. Qed.

Lemma push_strings_spec l rsp v :
  loading K G v s -> room v -> Forall c_string l -> lo <= rsp - strings_size l -> rsp <= top ->
  exists vas v', push_strings (Some s) l rsp v = (Some vas, rsp - strings_size l, v') /\
    pushed K G s v rsp v' (rsp - strings_size l) /\ length vas = length l /\
    forall i str va, l !! i = Some str -> vas !! i = Some va ->
      rsp - strings_size l <= va /\ va < rsp /\ user_bytes v' va (cstr str ++ [0]).
Proof using Hlo Htop.
  intros L R C. revert rsp v L R. induction C as [|str l [Hc Hb] _ IH]; intros rsp v L R Hs Hr; cbn [push_strings].
  { exists [], v. unfold strings_size. simpl. rewrite Z.sub_0_r. split; [done|]. split; [by apply pushed_refl|]. done. }
  pose proof (strings_size_nonneg l). change (strings_size (str :: l)) with (strlen str + 1 + strings_size l) in *.
  pose proof (zlen_nonneg (cstr str)). pose proof (strlen_cstr str).
  destruct (IH rsp v L R ltac:(lia) Hr) as (vas & v1 & E1 & P1 & L1 & S1). rewrite E1. clear IH.
  set (r1 := rsp - strings_size l) in *. unfold push_string.
  assert (zlen (slice str 0 (strlen str + 1)) = strlen str + 1) as El by (rewrite zlen_slice; lia).
  destruct (write_pushed K G s v1 r1 (slice str 0 (strlen str + 1))) as (v2 & E2 & P2 & U2);
    [apply P1|by apply slice_bytes|rewrite El; lia|lia| |].
  { rewrite El. intros a Ha. apply (room_pushed _ _ _ _ P1 R). lia. }
  rewrite El in *. rewrite slice_cstr in * by done. rewrite E2.
  assert (u64 (r1 - (strlen str + 1)) = r1 - (strlen str + 1)) as Eu.
  { apply u64_small. unfold USER_VA_BASE, USER_VA_TOP in *. lia. }
  rewrite Eu. exists (r1 - (strlen str + 1) :: vas), v2. replace (rsp - (strlen str + 1 + strings_size l)) with (r1 - (strlen str + 1)) by lia.
  split; [done|]. split; [by eapply pushed_trans|]. split; [simpl; by rewrite L1|].
  intros [|i] str' va Hi Hva; simpl in Hi, Hva; [injection Hi as <-; injection Hva as <-; split; [lia|split; [lia|done]]|].
  destruct (S1 i str' va Hi Hva) as (Hv1 & Hv2 & Hu). split; [lia|]. split; [lia|]. by eapply user_bytes_pushed.
Qed.

Lemma push_slots_spec l rsp v :
  loading K G v s -> room v -> lo <= rsp - 8 * zlen l -> rsp <= top ->
  exists v', push_slots (Some s) l rsp v = (true, rsp - 8 * zlen l, v') /\
    pushed K G s v rsp v' (rsp - 8 * zlen l) /\
    forall i x, l !! i = Some x -> user_bytes v' (rsp - 8 * zlen l + 8 * Z.of_nat i) (le_bytes 8 x).
Proof using Hlo Htop.
  revert rsp v. induction l as [|x l IH]; intros rsp v L R Hs Hr; cbn [push_slots].
  { exists v. change (zlen []) with 0. rewrite Z.sub_0_r. split; [done|]. split; [by apply pushed_refl|]. done. }
  assert (zlen (x :: l) = zlen l + 1) as El by (unfold zlen; cbn [length]; lia). rewrite El in *. pose proof (zlen_nonneg l).
  destruct (IH rsp v L R ltac:(lia) Hr) as (v1 & E1 & P1 & S1). rewrite E1. unfold push_u64.
  set (r1 := rsp - 8 * zlen l) in *. pose proof (zlen_le_bytes 8 x) as E8. change (Z.of_nat 8) with 8 in E8.
  destruct (write_pushed K G s v1 r1 (le_bytes 8 x)) as (v2 & E2 & P2 & U2); [apply P1|apply le_bytes_range|lia|lia| |].
  { rewrite E8. intros a Ha. apply (room_pushed _ _ _ _ P1 R). lia. }
  rewrite E8 in *. rewrite E2. unfold USER_VA_BASE, USER_VA_TOP in *. rewrite u64_small by lia.
  replace (rsp - 8 * (zlen l + 1)) with (r1 - 8) by lia. exists v2. split; [done|]. split; [by eapply pushed_trans|].
  intros [|i] y Hi; simpl in Hi; [injection Hi as <-; simpl; by rewrite Z.add_0_r|].
  eapply user_bytes_pushed; [exact P2| |]; [lia|]. replace (r1 - 8 + 8 * Z.of_nat (S i)) with (r1 + 8 * Z.of_nat i) by lia. by apply S1.
Qed.
End room.

Lemma switch_back v s sp : vm_cr3 v = sp_pml4 s -> vmm_switch (Some s) (vmm_switch sp v) = v.
Proof. intros E. destruct sp, v; cbn in *; by rewrite E. Qed.

Lemma take_zlen {A} (l : list A) : take (Z.to_nat (zlen l)) l = l.
Proof. unfold zlen. by rewrite Nat2Z.id, firstn_all. Qed.

Lemma land_align_down x : 0 <= x < 2 ^ 64 -> Z.land x (align_mask 4) mod 16 = 0 /\ x - 16 < Z.land x (align_mask 4) <= x.
Proof. intros Hx. rewrite land_align by lia. change (2 ^ 4) with 16. split; Z.div_mod_to_equations; lia. Qed.

Lemma stack_slots_len argc envc avs evs :
  zlen avs = argc -> zlen evs = envc -> 0 <= argc -> 0 <= envc ->
  (8 * zlen (stack_slots argc envc avs evs)) mod 16 = 0 /\ zlen (stack_slots argc envc avs evs) <= argc + envc + 4.
Proof.
  intros Ha He H1 H2. unfold stack_slots. rewrite land_1.
  assert (zlen (argc :: avs ++ 0 :: evs ++ 0 :: (if (argc + envc + 3) mod 2 =? 1 then [0] else [])) =
    argc + envc + 3 + (if (argc + envc + 3) mod 2 =? 1 then 1 else 0)) as ->.
  { unfold zlen in *. rewrite ?length_cons, ?length_app, ?length_cons, ?length_app, ?length_cons. destruct (_ =? 1); simpl; lia. }
  destruct (Z.eqb_spec ((argc + envc + 3) mod 2) 1); Z.div_mod_to_equations; lia.
Qed.

(** C25: the initial stack of a process: with room for it below the top,
    [exec_build_initial_stack] succeeds and returns a 16-byte aligned stack
    pointer at which the process finds [argc], the [argv] pointers, a null, the
    [envp] pointers and a null, every pointer leading to a copy of the string it
    stands for with its terminator; CR3 is restored and no translation of any
    space changes. *)
Theorem exec_stack_correct (K : Z) (G : gmap Z (Z * list Z)) (v : vm) (pa sa : Z) (prev s : vmm_space) (lo top : Z)
    (argv envp : list (list Z)) :
  loading K G (vmm_switch (Some s) v) s -> vm_cr3 v = sp_pml4 prev -> sa <> 0 -> sa <> pa ->
  USER_VA_BASE <= lo -> top <= USER_VA_TOP -> room lo top (vmm_switch (Some s) v) ->
  zlen argv <= EXEC_MAX_ARGS -> zlen envp <= EXEC_MAX_ENVS -> Forall c_string argv -> Forall c_string envp ->
  lo + strings_size envp + strings_size argv + 16 + 8 * (zlen argv + zlen envp + 4) <= top ->
  exists rsp v' avs evs,
    exec_build_initial_stack (pa, prev) (sa, s) top (zlen argv) argv (zlen envp) envp v = (rsp, v') /\
    rsp mod 16 = 0 /\ lo <= rsp < top /\ vm_cr3 v' = vm_cr3 v /\
    (forall r a, registered G r -> translate v' r a = translate v r a) /\
    length avs = length argv /\ length evs = length envp /\
    let run := vmm_switch (Some s) v' in
    (forall i x, (zlen argv :: avs ++ 0 :: evs ++ [0]) !! i = Some x -> user_bytes run (rsp + 8 * Z.of_nat i) (le_bytes 8 x)) /\
    (forall i str p, argv !! i = Some str -> avs !! i = Some p -> user_bytes run p (cstr str ++ [0])) /\
    (forall i str p, envp !! i = Some str -> evs !! i = Some p -> user_bytes run p (cstr str ++ [0])).
Proof.
  intros L Hc Hs0 Hsp Hlo Htop R Na Ne Ca Ce Hfit. unfold exec_build_initial_stack. cbn [fst snd].
  unfold EXEC_MAX_ARGS, EXEC_MAX_ENVS in *. pose proof (zlen_nonneg argv). pose proof (zlen_nonneg envp).
  repeat (zif; [lia|]). rewrite (proj2 (Z.eqb_neq pa sa)) by congruence. cbn [negb]. cbv zeta.
  rewrite !take_zlen. set (v0 := vmm_switch (Some s) v) in *.
  pose proof (strings_size_nonneg envp). pose proof (strings_size_nonneg argv).
  destruct (push_strings_spec K G s lo top Hlo Htop envp top v0 L R Ce ltac:(lia) ltac:(lia)) as (evs & v1 & E1 & P1 & L1 & S1).
  rewrite E1. set (r1 := top - strings_size envp) in *.
  destruct (push_strings_spec K G s lo top Hlo Htop argv r1 v1 (pu_ld _ _ _ _ _ _ _ P1) (room_pushed _ _ _ _ _ _ _ _ _ P1 R) Ca
    ltac:(lia) ltac:(lia)) as (avs & v2 & E2 & P2 & L2 & S2).
  rewrite E2. set (r2 := r1 - strings_size argv) in *. pose proof (pushed_trans _ _ _ _ _ _ _ _ _ P1 P2) as P12.
  destruct (land_align_down r2) as [A1 A2]; [unfold USER_VA_BASE, USER_VA_TOP in *; lia|]. set (r3 := Z.land r2 (align_mask 4)) in *.
  destruct (stack_slots_len (zlen argv) (zlen envp) avs evs) as [A3 A4]; [unfold zlen; lia|unfold zlen; lia|lia|lia|].
  destruct (push_slots_spec K G s lo top Hlo Htop (stack_slots (zlen argv) (zlen envp) avs evs) r3 v2 (pu_ld _ _ _ _ _ _ _ P12)
    (room_pushed _ _ _ _ _ _ _ _ _ P12 R) ltac:(lia) ltac:(lia)) as (v3 & E3 & P3 & S3).
  rewrite E3. set (sl := stack_slots _ _ _ _) in *. set (rsp := r3 - 8 * zlen sl) in *.
  pose proof (pu_ld _ _ _ _ _ _ _ P3) as L3. exists rsp, (vmm_switch (Some prev) v3), avs, evs. split; [done|].
  split; [unfold rsp; rewrite Zminus_mod, A1, A3; done|].
  assert (0 < zlen sl) by (unfold sl, stack_slots, zlen; cbn [length]; lia). split; [unfold rsp; lia|]. split; [done|]. split.
  { intros r a Hr. change (translate v3 r a = translate v0 r a). rewrite (pu_trans _ _ _ _ _ _ _ P3) by done. by apply P12. }
  split; [done|]. split; [done|]. cbv zeta. rewrite (switch_back v3 s (Some prev)) by exact (ld_cr3 _ _ _ _ L3).
  assert (r3 <= r2 /\ r2 <= r1) as [] by lia. split; [|split].
  - intros i x Hi. apply S3. unfold sl, stack_slots.
    replace (zlen argv :: avs ++ 0 :: evs ++ 0 :: (if Z.land (zlen argv + zlen envp + 3) 1 =? 1 then [0] else []))
      with ((zlen argv :: avs ++ 0 :: evs ++ [0]) ++ (if Z.land (zlen argv + zlen envp + 3) 1 =? 1 then [0] else []))
      by (simpl; f_equal; rewrite <- app_assoc; simpl; rewrite <- app_assoc; done).
    by apply lookup_app_l_Some.
  - intros i str p Hi Hp. destruct (S2 i str p Hi Hp) as (Hb1 & _ & U). eapply user_bytes_pushed; [exact P3|lia|done].
  - intros i str p Hi Hp. destruct (S1 i str p Hi Hp) as (Hb1 & _ & U). eapply user_bytes_pushed; [exact P3|lia|].
    by eapply user_bytes_pushed; [exact P2|lia|].
Qed.

(** One page of stack, one argument and one environment string. *)
Definition demo_before : vm := vmm_switch (Some demo_prev) demo_user_vm.

Lemma demo_loading : exists G, loading demo_K G demo_user_vm demo_user /\
  room USER_VA_BASE (USER_VA_BASE + 4096) demo_user_vm.
Proof.
  destruct demo_user_spec as (G & I & Hr & Ec & Hn & T). destruct (demo_user_frames G Hn T) as [F Inj]. exists G. split.
  - split; [exact I|exact Hr|exact Ec| |exact Inj]. intros a pa fl Ha. rewrite T by exact Ha. case_decide; [|discriminate].
    intros [= <- <-]. split; [exact Hn|]. split; [unfold demo_frame; lia|]. right. vm_compute. discriminate.
  - intros a Ha. unfold USER_VA_BASE in Ha. assert (USER_VA_BASE <= a < USER_VA_TOP) as Hw by (unfold USER_VA_BASE, USER_VA_TOP; lia).
    split; [exact Hw|]. exists demo_frame, 5. rewrite Ec, (T a Hw). rewrite decide_True; [split; reflexivity|].
    unfold page_of, USER_VA_BASE. Z.div_mod_to_equations. lia.
Qed.

Lemma exec_stack_correct_witness :
  exists rsp v' p, exec_build_initial_stack (1, demo_prev) (2, demo_user) (USER_VA_BASE + 4096) 1 [[97; 98; 0]] 1 [[80; 61; 47; 0]]
      demo_before = (rsp, v') /\ rsp mod 16 = 0 /\
    user_bytes (vmm_switch (Some demo_user) v') (rsp + 8) (le_bytes 8 p) /\
    user_bytes (vmm_switch (Some demo_user) v') p [97; 98; 0].
Proof.
  destruct demo_loading as (G & L & R).
  assert (vmm_switch (Some demo_user) demo_before = demo_user_vm) as Eb by (apply switch_back; apply (ld_cr3 _ _ _ _ L)).
  rewrite <- Eb in L, R.
  assert (forall l, forallb (fun b => (0 <=? b) && (b <? 256)) l = true -> existsb (Z.eqb 0) l = true -> c_string l) as Cs.
  { intros l H1 H2. split; [|apply bytes_forallb, H1]. apply existsb_exists in H2 as (x & Hx & E). apply Z.eqb_eq in E as <-.
    by apply list_elem_of_In. }
  destruct (exec_stack_correct demo_K G demo_before 1 2 demo_prev demo_user USER_VA_BASE (USER_VA_BASE + 4096) [[97; 98; 0]] [[80; 61; 47; 0]]
    L eq_refl ltac:(discriminate) ltac:(discriminate) ltac:(lia) ltac:(unfold USER_VA_BASE, USER_VA_TOP; lia) R)
    as (rsp & v' & avs & evs & E & A & _ & _ & _ & La & _ & S1 & S2 & _).
  { discriminate. } { discriminate. } { constructor; [|constructor]. by apply Cs. } { constructor; [|constructor]. by apply Cs. }
  { vm_compute. discriminate. }
  destruct avs as [|p [|]]; [discriminate La| |discriminate La]. exists rsp, v', p. split; [exact E|]. split; [exact A|].
  split; [exact (S1 1%nat p eq_refl)|]. exact (S2 0%nat [97; 98; 0] p eq_refl eq_refl).
Defined.

(** ** The process object and its main thread *)

Definition sizeof_process_t : Z := 1648.

Definition set_main (t rsp : Z) (p : process_t) : process_t :=
  MkProc (pid p) (p_name p) (p_name_bytes p) (p_space p) (p_entry p) t (p_handles p) rsp
    (next_map_va p) (p_refcount p) (exit_code p) (exited p) (bootstrap_handle p) (p_waiters p) (list_next p).
Definition set_process (v : Z) (t : thread) : thread :=
  MkThread (t_rsp t) (t_state t) (t_id t) (t_ticks_used t) (t_stack_base t) (t_stack_size t) (t_kernel_stack_top t)
    (t_space t) v (t_entry t) (t_arg t) (t_next t) (t_wait_next t) (t_name t) (t_started t).

Section spawn.
Context {H : Type} `{VmHeap H}.
(** Link-time constants: the boot page table, the kernel's space object and the
    entry point of user threads. *)
Context (boot_pml4 kspace user_thread_entry : Z).

(** The kernel state: objects, scheduler and the two counters. *)
Record kernel := MkKernel { kn_k : kst H; kn_s : sched; next_pid : Z; next_thread_id : Z }.

Definition with_k (n : kernel) (k : kst H) : kernel := MkKernel k (kn_s n) (next_pid n) (next_thread_id n).

Definition k_vm (k : kst H) : vm := vm_of (k_heap k).
Definition set_vm (k : kst H) (v : vm) : kst H := set_heap k (put_vm v (k_heap k)).
Definition set_spaces (k : kst H) (m : gmap Z vmm_space) : kst H :=
  MkKst (k_heap k) m (k_chans k) (k_procs k) (proc_list_head k).

(** [thread_current()->space]. *)
Definition cur_space (s : sched) : Z := match thread_at s (current s) with Some t => t_space t | None => 0 end.

(** The name is a NUL-terminated array; the result is the address of the new
    process, 0 on failure. *)
Definition process_create_from_elf (name elf : list Z) (n : kernel) : res (Z * kernel) :=
  let k := kn_k n in
  rlet c := of_opt (vmm_create boot_pml4 (k_heap k)) in
  let '(space, sp, h1) := c in
  if space =? 0 then Ok (0, with_k n (set_heap k h1))
  else
    let k1 := set_spaces (set_heap k h1) (<[space := sp]> (k_spaces k)) in
    rlet prev := of_opt (k_spaces k1 !! cur_space (kn_s n)) in
    let '(img, v) := elf_load (cur_space (kn_s n), prev) (space, sp) elf (k_vm k1) in
    let k2 := set_vm k1 v in
    match img with
    | None => rlet k3 := unref_space space k2 in Ok (0, with_k n k3)
    | Some img =>
      let '(p, h3) := Iface.exy_zalloc sizeof_process_t (k_heap k2) in
      let k3 := set_heap k2 h3 in
      if p =? 0 then rlet k4 := unref_space space k3 in Ok (0, with_k n k4)
      else
        let name_len := strlen name + 1 in
        let '(copy, h4) := Iface.exy_malloc name_len h3 in
        let k4 := set_heap k3 h4 in
        if copy =? 0 then
          rlet k5 := unref_space space k4 in
          rlet k6 := kfree p k5 in Ok (0, with_k n k6)
        else
          let m := u64 (load_base img + load_size img) in
          let proc := MkProc (next_pid n) copy (slice name 0 name_len) space (im_entry img) 0 handle_table_init 0
                        (Z.land (u64 (m + 0xFFFF)) (align_mask 16)) 1 0 0 HANDLE_INVALID waitq_init (proc_list_head k4) in
          let k5 := set_head (set_procs k4 (<[p := proc]> (k_procs k4))) p in
          Ok (p, MkKernel k5 (kn_s n) (u64 (next_pid n + 1)) (next_thread_id n))
    end.

Definition unref_fuel (k : kst H) : nat := S (size (k_procs k)).

Definition spawn_common (name elf : list Z) (initrd : option (list Z)) (argc : Z) (argv : list (list Z))
    (envc : Z) (envp : list (list Z)) (n0 : kernel) : res (Z * kernel) :=
  rlet r := process_create_from_elf name elf n0 in
  let '(p, n) := r in
  if p =? 0 then Ok (0, n)
  else
    let fail k := rlet k' := process_destroy (process_unref (unref_fuel k)) p k in Ok (0, with_k n k') in
    let k := kn_k n in
    rlet proc := of_opt (k_procs k !! p) in
    rlet sp := of_opt (k_spaces k !! p_space proc) in
    rlet prev := of_opt (k_spaces k !! cur_space (kn_s n)) in
    let space := (p_space proc, sp) in
    let prev := (cur_space (kn_s n), prev) in
    rlet ri := of_opt (map_initrd prev space initrd (k_vm k)) in
    let '(ok, v1) := ri in
    if negb ok then fail (set_vm k v1)
    else
      let '(ok, v2) := map_user_stack (Z.to_nat EXEC_STACK_PAGES) (Some sp) USER_STACK_TOP_INIT 0 v1 in
      if negb ok then fail (set_vm k v2)
      else
        let '(init_rsp, v3) := exec_build_initial_stack prev space USER_STACK_TOP_INIT argc argv envc envp v2 in
        if init_rsp =? 0 then fail (set_vm k v3)
        else
          let k3 := set_vm k v3 in
          let k4 := set_spaces k3 (<[p_space proc := vmm_space_ref (p_space proc) sp]> (k_spaces k3)) in
          rlet tc := of_opt (thread_create_ex user_thread_entry p (p_name proc) kspace (p_space proc) (kn_s n)
                               (next_thread_id n) (k_heap k4)) in
          let '(t, s', tid, h5) := tc in
          let k5 := set_heap k4 h5 in
          if t =? 0 then
            rlet k6 := unref_space (p_space proc) k5 in
            rlet k7 := process_destroy (process_unref (unref_fuel k6)) p k6 in
            Ok (0, MkKernel k7 s' (next_pid n) tid)
          else
            Ok (p, MkKernel (set_procs k5 (<[p := set_main t init_rsp proc]> (k_procs k5)))
                     (upd s' t (set_process p)) (next_pid n) tid).

Definition process_spawn (name elf : list Z) (argc : Z) (argv : list (list Z)) (envc : Z) (envp : list (list Z)) (n : kernel)
  : res (Z * kernel) := spawn_common name elf None argc argv envc envp n.

Definition process_spawn_init (name elf : list Z) (initrd : list Z) (argc : Z) (argv : list (list Z))
    (envc : Z) (envp : list (list Z)) (n : kernel) : res (Z * kernel) :=
  spawn_common name elf (Some initrd) argc argv envc envp n.
End spawn.
Arguments kernel H : clear implicits.

(** ** A spawned process *)

Lemma rbind_inv {A B} (r : res A) (f : A -> res B) b : rbind r f = Ok b -> exists a, r = Ok a /\ f a = Ok b.
Proof. destruct r; [|done..]. intros E. by eexists. Qed.

Lemma of_opt_inv {A} (o : option A) a : of_opt o = Ok a -> o = Some a.
Proof. destruct o; [|done]. by intros [= ->]. Qed.

(** Inversion of a run of the monad that ended well. *)
Ltac rinv E :=
  repeat match type of E with
  | rbind _ _ = Ok _ => let x := fresh "x" in let Ex := fresh "Ex" in apply rbind_inv in E as (x & Ex & E)
  | (let '(_, _) := ?t in _) = Ok _ => destruct t eqn:?
  end.

Section spawned.
Context {H : Type} `{VmHeap H} (boot_pml4 kspace user_entry : Z).

(** A process object just created: alone on its reference, first in the list. *)
Record newborn (n : kernel H) (a : Z) (p : process_t) (n' : kernel H) : Prop := {
  nb_proc : k_procs (kn_k n') !! a = Some p;
  nb_pid : pid p = next_pid n /\ next_pid n' = u64 (next_pid n + 1);
  nb_ref : p_refcount p = 1;
  nb_state : exited p = 0 /\ p_handles p = handle_table_init /\ bootstrap_handle p = HANDLE_INVALID /\ p_waiters p = waitq_init;
  nb_list : proc_list_head (kn_k n') = a /\ list_next p = proc_list_head (kn_k n);
  nb_others b : b <> a -> k_procs (kn_k n') !! b = k_procs (kn_k n) !! b }.

Lemma create_newborn name elf n a n' :
  process_create_from_elf boot_pml4 name elf n = Ok (a, n') -> a <> 0 ->
  exists p sp, newborn n a p n' /\ k_spaces (kn_k n') !! p_space p = Some sp /\ sp_refcount sp = 1 /\ sp_is_kernel sp = 0 /\
    p_space p <> 0 /\ kn_s n' = kn_s n /\ next_thread_id n' = next_thread_id n /\
    p_name_bytes p = slice name 0 (strlen name + 1).
Proof.
  intros E Ha. unfold process_create_from_elf in E. apply rbind_inv in E as ([[space sp] h1] & Ec%of_opt_inv & E).
  destruct (Z.eqb_spec space 0) as [|Hs]; [by injection E as <- <-|]. apply rbind_inv in E as (prev & Ep%of_opt_inv & E).
  destruct (elf_load _ _ _ _) as [[img|] v]; [|apply rbind_inv in E as (k3 & _ & E); by injection E as <- <-].
  destruct (Iface.exy_zalloc _ _) as [p h3]. destruct (Z.eqb_spec p 0) as [|Hp]; [apply rbind_inv in E as (? & _ & E); by injection E as <- <-|].
  destruct (Iface.exy_malloc _ _) as [copy h4]. destruct (Z.eqb_spec copy 0) as [|Hcp].
  { apply rbind_inv in E as (? & _ & E). apply rbind_inv in E as (? & _ & E). by injection E as <- <-. }
  injection E as <- <-. eexists _, sp. split; [split|].
  - cbn. by rewrite lookup_insert_eq.
  - done. - done. - done. - done.
  - intros b Hb. cbn. by rewrite lookup_insert_ne.
  - cbn. rewrite lookup_insert_eq. split; [done|].
    assert (sp_refcount sp = 1 /\ sp_is_kernel sp = 0) as [? ?]; [|done].
    revert Ec. unfold vmm_create. destruct (Iface.exy_zalloc _ _) as [s0 h0]. destruct (Z.eqb_spec s0 0); [by intros [= <- _ _]|].
    destruct (pmm_alloc_page _) as [np pm]. destruct (np =? 0).
    + destruct (Iface.exy_free _ _); [|done]. by intros [= <- _ _].
    + intros E. apply (inj Some) in E. apply pair_eq in E as [E _]. apply pair_eq in E as [_ <-]. split; reflexivity.
Qed.

Lemma enqueue_thread t s th :
  threads s !! t = Some th -> exists l, threads (sched_enqueue t s) !! t = Some (set_next l th).
Proof.
  intros E. unfold sched_enqueue, q_push. destruct (q_tail (ready s) =? 0); cbn [threads].
  - exists 0. by rewrite lookup_alter_eq, E.
  - destruct (decide (q_tail (ready s) = t)) as [->|Hne].
    + exists t. rewrite !lookup_alter_eq, E. done.
    + exists 0. rewrite lookup_alter_ne by done. by rewrite lookup_alter_eq, E.
Qed.

(** A process put at the head of the list keeps the list exactly the processes. *)
Lemma pinv_publish (k k' : kst H) a p :
  pinv ∅ k -> k_procs k !! a = None -> a <> 0 -> p_refcount p = 1 -> list_next p = proc_list_head k ->
  k_procs k' = <[a := p]> (k_procs k) -> proc_list_head k' = a -> pinv ∅ k'.
Proof using Type.
  intros [Z0 R (l & L & N & M)] Hf Ha Hr Hn Ek Eh. split; rewrite Ek, ?Eh.
  - by rewrite lookup_insert_ne.
  - intros x q. rewrite lookup_insert. case_decide; [|apply R]. intros [= <-]. rewrite Hr. split; [lia|set_solver].
  - exists (a :: l). split; [|split].
    + simpl. split; [done|]. split; [done|]. exists p. rewrite lookup_insert_eq. split; [done|]. rewrite Hn.
      eapply linked_ext; [exact L|]. intros x Hx. apply M in Hx as [_ [q Hq]]. rewrite lookup_insert_ne; [done|]. congruence.
    + apply NoDup_cons. split; [|done]. intros Hin. apply M in Hin as [_ [q Hq]]. congruence.
    + intros x. rewrite elem_of_cons, M, lookup_insert_is_Some. split.
      * intros [->|[_ ?]]; (split; [set_solver|]); [by left|]. destruct (decide (a = x)); [by left|by right].
      * intros [_ [->|[_ ?]]]; [by left|right; split; [set_solver|done]].
Qed.

(** When [process_spawn] returns a process, the process is new at the head of
    the process list with the next pid, one reference, an empty capability table
    and an initial stack pointer; its main thread is ready to run
    [user_thread_entry] on it in its address space, which the process and the
    thread each hold a reference of; the other processes are untouched and the
    list stays exactly the processes. *)
Theorem process_spawn_correct (name elf : list Z) (argc envc : Z) (argv envp : list (list Z)) (n n' : kernel H) (a : Z) :
  process_spawn boot_pml4 kspace user_entry name elf argc argv envc envp n = Ok (a, n') -> a <> 0 ->
  exists p th sp, newborn n a p n' /\ initial_rsp p <> 0 /\
    threads (kn_s n') !! main_thread p = Some th /\ t_process th = a /\ t_space th = p_space p /\
    t_state th = THREAD_READY /\ t_entry th = user_entry /\ t_arg th = a /\
    k_spaces (kn_k n') !! p_space p = Some sp /\ sp_refcount sp = 2 /\
    (k_procs (kn_k n) !! a = None -> pinv ∅ (kn_k n) -> pinv ∅ (kn_k n')).
Proof using Type.
  intros E Ha. unfold process_spawn, spawn_common in E. apply rbind_inv in E as ([p0 n1] & Ec & E).
  destruct (Z.eqb_spec p0 0) as [|Hp0]; [by injection E as <- <-|].
  destruct (create_newborn _ _ _ _ _ Ec Hp0) as (p & sp & [B1 B2 B3 B4 B5 B6] & Hsp & Hr1 & Hk0 & Hs0 & Es & Et & _).
  apply rbind_inv in E as (p' & Ep%of_opt_inv & E). rewrite B1 in Ep. injection Ep as <-.
  apply rbind_inv in E as (sp' & Esp%of_opt_inv & E). rewrite Hsp in Esp. injection Esp as <-.
  apply rbind_inv in E as (pv & _ & E). cbn [map_initrd] in E. apply rbind_inv in E as ([ok v1] & Ei%of_opt_inv & E).
  injection Ei as <- <-. cbn [negb] in E. destruct (map_user_stack _ _ _ _ _) as [[] v2]; cbn [negb] in E.
  2:{ apply rbind_inv in E as (? & _ & E). by injection E as <- <-. }
  destruct (exec_build_initial_stack _ _ _ _ _ _ _ _) as [rsp v3]. destruct (Z.eqb_spec rsp 0) as [|Hrsp].
  { apply rbind_inv in E as (? & _ & E). by injection E as <- <-. }
  apply rbind_inv in E as ([[[t s'] tid] h5] & Etc%of_opt_inv & E). destruct (Z.eqb_spec t 0) as [|Ht].
  { apply rbind_inv in E as (? & _ & E). apply rbind_inv in E as (? & _ & E). by injection E as <- <-. }
  injection E as <- <-. unfold thread_create_ex, thread_create in Etc.
  destruct (user_entry =? 0); [injection Etc as <- _ _ _; done|]. destruct (Iface.exy_zalloc _ _) as [t0 h6].
  destruct (Z.eqb_spec t0 0) as [|Ht0]; [injection Etc as <- _ _ _; done|]. destruct (Iface.exy_malloc _ _) as [stk h7].
  destruct (stk =? 0); [destruct (Iface.exy_free _ _); [injection Etc as <- _ _ _; done|done]|].
  rewrite (proj2 (Z.eqb_neq t0 0) Ht0) in Etc. injection Etc as <- <- <- <-. clear Ht.
  set (th := MkThread _ _ _ _ _ _ _ _ _ _ _ _ _ _ _). set (s1 := set_threads _ _).
  destruct (enqueue_thread t0 s1 th) as [l Hl]; [by unfold s1; cbn [threads set_threads]; rewrite lookup_insert_eq|].
  exists (set_main t0 rsp p), (set_process p0 (set_space (p_space p) (set_next l th))), (vmm_space_ref (p_space p) sp).
  split; [|split; [done|split; [|do 5 (split; [done|])]]].
  - split; cbn; [by rewrite lookup_insert_eq|done..| |]; [done|]. intros b Hb. rewrite lookup_insert_ne by done. by apply B6.
  - cbn [kn_s main_thread set_main]. unfold upd. cbn [threads set_threads]. by rewrite !lookup_alter_eq, Hl.
  - split; [|split].
    + cbn. by rewrite lookup_insert_eq.
    + unfold vmm_space_ref. rewrite (proj2 (Z.eqb_neq _ 0) Hs0), Hk0, Hr1. done.
    + intros Hf I. assert (k_procs (kn_k n1) = <[p0 := p]> (k_procs (kn_k n))) as Ek.
      { apply map_eq. intros b. rewrite lookup_insert. case_decide as Hb; [by subst|apply B6; congruence]. }
      eapply (pinv_publish (kn_k n) _ p0 (set_main t0 rsp p)); [done|done|done|done|apply B5| |].
      * cbn. rewrite Ek. by rewrite insert_insert_eq.
      * cbn. apply B5.
Qed.
End spawned.

(** A kernel with one thread and no process. *)
Definition demo_kernel : kernel (bump.bump * vm) :=
  MkKernel (MkKst (bump.MkBump 0x10000 ∅, demo_vm) {[ 0x500 := kernel_space demo_K ]} ∅ ∅ 0)
    (sched_init 8 100 0x500 ∅) 1 0.

Lemma process_spawn_correct_witness :
  exists a n' p th, process_spawn demo_K 0x500 0x77 [97; 0] demo_image 1 [[97; 0]] 1 [[80; 0]] demo_kernel = Ok (a, n') /\
    k_procs (kn_k n') !! a = Some p /\ pid p = 1 /\ threads (kn_s n') !! main_thread p = Some th /\ t_process th = a.
Proof.
  destruct (process_spawn demo_K 0x500 0x77 [97; 0] demo_image 1 [[97; 0]] 1 [[80; 0]] demo_kernel) as [[a n']| |] eqn:E.
  - assert (a <> 0) as Ha.
    { intros Z0. assert (match process_spawn demo_K 0x500 0x77 [97; 0] demo_image 1 [[97; 0]] 1 [[80; 0]] demo_kernel with
        Ok (a, _) => a =? 0 | _ => true end = false) as X by (vm_compute; reflexivity). rewrite E, Z0 in X. discriminate X. }
    destruct (process_spawn_correct demo_K 0x500 0x77 [97; 0] demo_image 1 1 [[97; 0]] [[80; 0]] demo_kernel n' a E Ha)
      as (p & th & sp & [B1 [B2 _] _ _ _ _] & _ & T1 & T2 & _).
    exists a, n', p, th. split; [reflexivity|]. split; [exact B1|]. split; [exact B2|]. split; [exact T1|exact T2].
  - exfalso. assert (match process_spawn demo_K 0x500 0x77 [97; 0] demo_image 1 [[97; 0]] 1 [[80; 0]] demo_kernel with
        Stuck => true | _ => false end = false) as X by (vm_compute; reflexivity). rewrite E in X. discriminate X.
  - exfalso. assert (match process_spawn demo_K 0x500 0x77 [97; 0] demo_image 1 [[97; 0]] 1 [[80; 0]] demo_kernel with
        NoFuel => true | _ => false end = false) as X by (vm_compute; reflexivity). rewrite E in X. discriminate X.
Defined.

(** A segment with more file than memory makes [elf_load] return without
    restoring CR3; [process_create_from_elf] then frees the space, and the
    kernel goes on with CR3 on a root page that is back in the allocator. *)
Theorem create_bad_segment_frees_cr3 :
  match process_create_from_elf demo_K [97; 0] (demo_elf [demo_phdr 120 USER_VA_BASE 2 1] [1; 2]) demo_kernel with
  | Ok (a, n) => a = 0 /\ used_get (vm_pmm (k_vm (kn_k n))) (vm_cr3 (k_vm (kn_k n)) / 4096) = false /\
                 vm_cr3 (k_vm (kn_k n)) / 4096 < total_pages (vm_pmm (k_vm (kn_k n)))
  | _ => False
  end.
Proof. vm_compute. done. Qed.
