(* ===== verification/Syscall.v ===== *)
(** * System calls

    [syscall.c]: every handler of the table and the dispatcher, composed from
    the kernel components.  A handler runs to its return, to the point where
    its thread sleeps in a wait loop (the result then says where it resumes),
    or to the end of the thread.  [SYS_MAP] and [SYS_UNMAP] are those of
    [UserMem]. *)
From S2P Require Import Prelude Bytes Errno Queue Iface Handle Sched Sync Channel Pmm Vmm Heap Process UserMem Str Elf Exec.

Definition SYSCALL_IO_MAX : Z := 4096.
Definition IPC_MSG_SIZE_MAX : Z := 1024.
Definition IPC_CAPACITY_MAX : Z := 64.
Definition IPC_CAP_TRANSFER : Z := 1.
Definition IPC_CAP_DUPLICATE : Z := 2.
Definition SPAWN_NAME_MAX : Z := 64.
Definition SPAWN_ELF_MAX : Z := 4 * 1024 * 1024.
Definition PROC_LIST_MAX : Z := 64.

(** ** The serial console: bytes sent and bytes waiting in the receive FIFO *)

Record console := MkCon { con_out : list Z; con_in : list Z }.

(** [console_write_char]: a one-character string given to [serial_write], which
    stops at a NUL and sends a carriage return before a newline. *)
Definition console_write_char (c : Z) (k : console) : console :=
  if c =? 0 then k else MkCon (con_out k ++ (if c =? 10 then [13; 10] else [c])) (con_in k).

(** [console_read_char]: -1 when the FIFO is empty. *)
Definition console_read_char (k : console) : Z * console :=
  match con_in k with
  | [] => (-1, k)
  | c :: l => (c, MkCon (con_out k) l)
  end.

(** The loop of [sys_exy_gets], [n] reads left. *)
Fixpoint gets_loop (n : nat) (k : console) : list Z * console :=
  match n with
  | O => ([], k)
  | S n =>
    let '(c, k1) := console_read_char k in
    if c <? 0 then ([], k1) else let '(l, k2) := gets_loop n k1 in (u8 c :: l, k2)
  end.

(** The wire layout of a process record. *)
Definition info_bytes (i : process_info_t) : list Z :=
  le_bytes 8 (pi_pid i) ++ le_bytes 4 (pi_state i) ++ le_bytes 4 (pi_pad i) ++ pi_name i.

(** Where a sleeping thread resumes: the loop it sits in, with its locals. *)
Inductive pending :=
| PSend (ca : Z) (msg : list Z)
| PSendCap (ca : Z) (msg : list Z) (x : option cap) (moved : option Z)
| PRecv (ca buf_u : Z)
| PRecvCap (ca buf_u out_cap_u : Z)
| PWait (child : Z)
| PYield.

Section syscall.
Context {H : Type} `{VmHeap H}.
Context (boot_pml4 kspace user_thread_entry : Z).

Record sys := MkSys { sy_n : kernel H; sy_con : console }.

Definition sy_k (st : sys) : kst H := kn_k (sy_n st).
Definition sy_s (st : sys) : sched := kn_s (sy_n st).
Definition sy_vm (st : sys) : vm := k_vm (sy_k st).

Definition put_n (st : sys) (n : kernel H) : sys := MkSys n (sy_con st).
Definition put_con (st : sys) (c : console) : sys := MkSys (sy_n st) c.
Definition put_k (st : sys) (k : kst H) : sys := put_n st (with_k (sy_n st) k).
Definition put_s (st : sys) (s : sched) : sys :=
  put_n st (MkKernel (kn_k (sy_n st)) s (next_pid (sy_n st)) (next_thread_id (sy_n st))).
Definition put_vmem (st : sys) (v : vm) : sys := put_k st (set_vm (sy_k st) v).
Definition put_proc (st : sys) (p : Z) (q : process_t) : sys := put_k st (set_procs (sy_k st) (<[p := q]> (k_procs (sy_k st)))).
Definition put_chan (st : sys) (a : Z) (c : channel_t) : sys :=
  let k := sy_k st in put_k st (MkKst (k_heap k) (k_spaces k) (<[a := c]> (k_chans k)) (k_procs k) (proc_list_head k)).

Definition set_handles (t : handle_table_t) (p : process_t) : process_t :=
  MkProc (pid p) (p_name p) (p_name_bytes p) (p_space p) (p_entry p) (main_thread p) t (initial_rsp p)
    (next_map_va p) (p_refcount p) (exit_code p) (exited p) (bootstrap_handle p) (p_waiters p) (list_next p).
Definition set_bootstrap (h : Z) (p : process_t) : process_t :=
  MkProc (pid p) (p_name p) (p_name_bytes p) (p_space p) (p_entry p) (main_thread p) (p_handles p) (initial_rsp p)
    (next_map_va p) (p_refcount p) (exit_code p) (exited p) h (p_waiters p) (list_next p).
Definition set_waiters (q : waitq_t) (p : process_t) : process_t := set_exit (exit_code p) (exited p) q p.

(** [Ret]: the value in RAX.  [Sleep]: another thread runs, the caller resumes
    at [w].  [Gone]: the thread ended.  [Crash]: a panic, or the use of an
    address that holds no such object. *)
Inductive sysres := Ret (r : Z) (st : sys) | Sleep (w : pending) (st : sys) | Gone (st : sys) | Crash.

Definition err (e : Z) (st : sys) : sysres := Ret (SYSRET_ERR e) st.

Definition of_res {A} (r : res A) (f : A -> sysres) : sysres := match r with Ok a => f a | _ => Crash end.

(** [current_process()]: 0 for a thread without a process. *)
Definition current_process (st : sys) : Z :=
  match thread_at (sy_s st) (current (sy_s st)) with Some t => t_process t | None => 0 end.

(** [p = current_process(); if (!p) return -EPERM;] *)
Definition with_proc (st : sys) (f : Z -> process_t -> sysres) : sysres :=
  let p := current_process st in
  if p =? 0 then err EPERM st
  else match k_procs (sy_k st) !! p with None => Crash | Some q => f p q end.

(** [p->space] *)
Definition with_space (st : sys) (q : process_t) (f : vmm_space -> sysres) : sysres :=
  match k_spaces (sy_k st) !! p_space q with None => Crash | Some sp => f sp end.

Definition with_chan (st : sys) (a : Z) (f : channel_t -> sysres) : sysres :=
  match k_chans (sy_k st) !! a with None => Crash | Some c => f c end.

(** ** Switching away

    What the resumed thread does on its way out of [sched_schedule]: CR3 was
    loaded when the spaces differ, and the zombies are freed. *)
Definition free_all (s : sched) (l : list Z) (k : kst H) : res (kst H) :=
  foldl (fun r t => rlet k := r in rlet th := of_opt (threads s !! t) in free_thread (unref_fuel k) t th k) (Ok k) l.

Definition after_switch (s s' : sched) (l : list Z) (k : kst H) : res (kst H) :=
  rlet k1 := if loaded_space s' =? loaded_space s then Ok k
             else rlet sp := of_opt (k_spaces k !! loaded_space s') in Ok (set_vm k (vmm_switch (Some sp) (k_vm k))) in
  free_all s l k1.

(** The zombies of [s] that are gone in [s']. *)
Definition reaped (s s' : sched) : list Z := filter (fun t => threads s' !! t = None) (fst (reap_zombies s)).

(** [st] with its queues updated; the scheduler goes from [s] to [s']. *)
Definition sleep (w : pending) (st : sys) (s' : sched) : sysres :=
  of_res (after_switch (sy_s st) s' (reaped (sy_s st) s') (sy_k st)) (fun k => Sleep w (put_s (put_k st k) s')).

(** ** Calls without sleeping *)

Definition sys_ping (a0 : Z) (st : sys) : sysres := Ret (i64 (Z.lxor 0xDEADBEEFCAFE0000 a0)) st.

Definition sys_exit (code : Z) (st : sys) : sysres :=
  let p := current_process st in
  let go st :=
    match thread_exit (sy_s st) with
    | None => Crash
    | Some (l, s') => of_res (after_switch (sy_s st) s' l (sy_k st)) (fun k => Gone (put_s (put_k st k) s'))
    end in
  if p =? 0 then go st
  else
    match k_procs (sy_k st) !! p with
    | None => Crash
    | Some q => let '(q', s') := process_exit q (i32 code) (sy_s st) in go (put_s (put_proc st p q') s')
    end.

Definition sys_handle_create (kd rg obj : Z) (st : sys) : sysres :=
  with_proc st (fun p q =>
    let '(h, t) := handle_create (p_handles q) (u32 kd) (u32 rg) obj in
    if h =? HANDLE_INVALID then err EMFILE st else Ret h (put_proc st p (set_handles t q))).

(** The release callback may change any object; the entry is cleared after it. *)
Definition sys_handle_close (h : Z) (st : sys) : sysres :=
  with_proc st (fun p q =>
    let k := sy_k st in
    match handle_close (Some (handle_release (process_unref (unref_fuel k)))) (p_handles q) (u32 h) (Ok k) with
    | (false, _, _) => err EBADF st
    | (true, t, w) => of_res w (fun k' => Ret 0 (put_k st (set_procs k' (alter (set_handles t) p (k_procs k')))))
    end).

Definition sys_handle_query (h required : Z) (st : sys) : sysres :=
  with_proc st (fun p q =>
    match handle_lookup (p_handles q) (u32 h) (u32 required) with
    | None => err EPERM st
    | Some _ => Ret 1 st
    end).

Definition sys_getpid (st : sys) : sysres := with_proc st (fun _ q => Ret (i64 (pid q)) st).

(** 0 is the null pointer. *)
Definition lookup_channel (q : process_t) (h required : Z) : Z :=
  match handle_lookup (p_handles q) h required with
  | None => 0
  | Some (obj, kd) => if negb (kd =? HANDLE_KIND_CHANNEL) then 0 else obj
  end.

Definition sys_ipc_create (msg_size capacity : Z) (st : sys) : sysres :=
  with_proc st (fun p q =>
    if (msg_size =? 0) || (IPC_MSG_SIZE_MAX <? msg_size) then err EINVAL st
    else if (capacity =? 0) || (IPC_CAPACITY_MAX <? capacity) then err EINVAL st
    else
      of_res (of_opt (channel_create capacity msg_size (k_heap (sy_k st)))) (fun r =>
        let '(a, oc, h') := r in
        let st1 := put_k st (set_heap (sy_k st) h') in
        match oc with
        | None => err ENOMEM st1
        | Some c =>
          let st2 := put_chan st1 a c in
          let '(h, t) := handle_create (p_handles q) HANDLE_KIND_CHANNEL
                           (Z.lor (Z.lor HANDLE_RIGHT_READ HANDLE_RIGHT_WRITE) HANDLE_RIGHT_TRANSFER) a in
          if h =? HANDLE_INVALID then of_res (destroy_chan a (sy_k st2)) (fun k' => err EMFILE (put_k st2 k'))
          else Ret h (put_proc st2 p (set_handles t q))
        end)).

(** ** Channels *)

(** The loop of [channel_send] and the return after it. *)
Definition do_send (ca : Z) (msg : list Z) (st : sys) : sysres :=
  with_chan st ca (fun c =>
    match channel_send c msg (sy_s st) with
    | Panic => Crash
    | Blocked (c', s') => sleep (PSend ca msg) (put_chan st ca c') s'
    | Done (c', s') => Ret 0 (put_s (put_chan st ca c') s')
    end).

(** The checks all sends share: the handle, the length and the copy from user
    memory into the bounce buffer. *)
Definition send_checks (h buf_u len : Z) (st : sys) (f : Z -> process_t -> Z -> channel_t -> list Z -> sysres) : sysres :=
  with_proc st (fun p q =>
    let ca := lookup_channel q (u32 h) HANDLE_RIGHT_WRITE in
    if ca =? 0 then err EBADF st
    else
      with_chan st ca (fun c =>
        if negb (len =? ch_msg_size c) then err EINVAL st
        else
          with_space st q (fun sp =>
            let '(r, kbuf) := copy_from_user (Some sp) buf_u len (sy_vm st) in
            if r <? 0 then err EFAULT st else f p q ca c kbuf))).

Definition sys_ipc_send (h buf_u len : Z) (st : sys) : sysres :=
  send_checks h buf_u len st (fun _ _ ca _ kbuf => do_send ca kbuf st).

Definition sys_ipc_try_send (h buf_u len : Z) (st : sys) : sysres :=
  send_checks h buf_u len st (fun _ _ ca c kbuf =>
    let '(ok, c', s') := channel_try_send c kbuf (sy_s st) in
    if ok then Ret 0 (put_s (put_chan st ca c') s') else err EAGAIN st).

(** [channel_commit] and the copy to user memory that end a plain receive. *)
Definition finish_recv (ca : Z) (c : channel_t) (slot buf_u : Z) (q : process_t) (st : sys) : sysres :=
  let kbuf := peek_copy c slot in
  let '(c', s') := channel_commit c (sy_s st) in
  let st1 := put_s (put_chan st ca c') s' in
  with_space st1 q (fun sp =>
    let '(r, v') := copy_to_user (Some sp) buf_u kbuf (sy_vm st1) in
    let st2 := put_vmem st1 v' in
    if r <? 0 then err EFAULT st2 else Ret (i64 (ch_msg_size c)) st2).

Definition do_recv (ca buf_u : Z) (st : sys) : sysres :=
  with_proc st (fun p q =>
    with_chan st ca (fun c =>
      match channel_peek_blocking c (sy_s st) with
      | Panic => Crash
      | Blocked (_, _, (c', s')) => sleep (PRecv ca buf_u) (put_chan st ca c') s'
      | Done (slot, cs, _) =>
        if negb (cs_in_use cs =? 0) then err EINVAL st else finish_recv ca c slot buf_u q st
      end)).

(** The checks all receives share. *)
Definition recv_checks (h max_len : Z) (st : sys) (f : process_t -> Z -> channel_t -> sysres) : sysres :=
  with_proc st (fun p q =>
    let ca := lookup_channel q (u32 h) HANDLE_RIGHT_READ in
    if ca =? 0 then err EBADF st
    else with_chan st ca (fun c => if max_len <? ch_msg_size c then err EINVAL st else f q ca c)).

Definition sys_ipc_recv (h buf_u max_len : Z) (st : sys) : sysres :=
  recv_checks h max_len st (fun _ ca _ => do_recv ca buf_u st).

Definition sys_ipc_try_recv (h buf_u max_len : Z) (st : sys) : sysres :=
  recv_checks h max_len st (fun q ca c =>
    match channel_peek_try c with
    | None => err EAGAIN st
    | Some (slot, cs) => if negb (cs_in_use cs =? 0) then err EINVAL st else finish_recv ca c slot buf_u q st
    end).

(** ** Channels with a capability *)

(** The loop of [channel_send_cap]; [moved] is the handle a TRANSFER closes
    after the message is in. *)
Definition do_send_cap (ca : Z) (msg : list Z) (x : option cap) (moved : option Z) (st : sys) : sysres :=
  with_proc st (fun p q =>
    with_chan st ca (fun c =>
      match channel_send_cap c msg x (sy_s st) with
      | Panic => Crash
      | Blocked (c', s') => sleep (PSendCap ca msg x moved) (put_chan st ca c') s'
      | Done (c', s') =>
        let st1 := put_s (put_chan st ca c') s' in
        match moved with
        | None => Ret 0 st1
        | Some h =>
          let '(_, t1) := handle_disown (p_handles q) h in
          let k := sy_k st1 in
          let '(_, t2, w) := handle_close (Some (handle_release (process_unref (unref_fuel k)))) t1 h (Ok k) in
          of_res w (fun k' => Ret 0 (put_k st1 (set_procs k' (alter (set_handles t2) p (k_procs k')))))
        end
      end)).

Definition sys_ipc_send_cap (h buf_u len cap_h action : Z) (st : sys) : sysres :=
  send_checks h buf_u len st (fun _ q ca _ kbuf =>
    if cap_h =? HANDLE_INVALID then do_send_cap ca kbuf None None st
    else if negb (action =? IPC_CAP_TRANSFER) && negb (action =? IPC_CAP_DUPLICATE) then err EINVAL st
    else
      match handle_lookup_full (p_handles q) (u32 cap_h) HANDLE_RIGHT_TRANSFER with
      | None => err EPERM st
      | Some (obj, kd, rg) =>
        let transfer := action =? IPC_CAP_TRANSFER in
        do_send_cap ca kbuf (Some (MkC kd rg obj transfer)) (if transfer then Some (u32 cap_h) else None) st
      end).

(** From the peeked slot to the end of [recv_cap_common]. *)
Definition finish_recv_cap (ca : Z) (c : channel_t) (slot : Z) (cs : chan_cap_t) (buf_u out_cap_u p : Z) (q : process_t) (st : sys)
  : sysres :=
  let has_cap := negb (cs_in_use cs =? 0) in
  if has_cap && negb (handle_table_has_free_slot (p_handles q)) then err ENFILE st
  else
    let '(new_h, t) := if has_cap
      then handle_create_ex (p_handles q) (cs_kind cs) (cs_rights cs) (cs_object cs) (negb (cs_owns cs =? 0))
      else (HANDLE_INVALID, p_handles q) in
    if has_cap && (new_h =? HANDLE_INVALID) then err ENFILE st
    else
      let kbuf := peek_copy c slot in
      let '(c', s') := channel_commit c (sy_s st) in
      let st1 := put_s (put_chan (put_proc st p (set_handles t q)) ca c') s' in
      with_space st1 q (fun sp =>
        let '(r, v1) := copy_to_user (Some sp) buf_u kbuf (sy_vm st1) in
        let st2 := put_vmem st1 v1 in
        if r <? 0 then err EFAULT st2
        else
          let out_val := if has_cap then new_h else HANDLE_INVALID in
          let '(r, v2) := copy_to_user (Some sp) out_cap_u (le_bytes 4 out_val) (sy_vm st2) in
          let st3 := put_vmem st2 v2 in
          if r <? 0 then err EFAULT st3 else Ret (i64 (ch_msg_size c)) st3).

Definition do_recv_cap (ca buf_u out_cap_u : Z) (st : sys) : sysres :=
  with_proc st (fun p q =>
    with_chan st ca (fun c =>
      match channel_peek_blocking c (sy_s st) with
      | Panic => Crash
      | Blocked (_, _, (c', s')) => sleep (PRecvCap ca buf_u out_cap_u) (put_chan st ca c') s'
      | Done (slot, cs, _) => finish_recv_cap ca c slot cs buf_u out_cap_u p q st
      end)).

Definition recv_cap_common (h buf_u max_len out_cap_u : Z) (blocking : bool) (st : sys) : sysres :=
  recv_checks h max_len st (fun q ca c =>
    if blocking then do_recv_cap ca buf_u out_cap_u st
    else
      match channel_peek_try c with
      | None => err EAGAIN st
      | Some (slot, cs) => finish_recv_cap ca c slot cs buf_u out_cap_u (current_process st) q st
      end).

Definition sys_ipc_recv_cap (h buf_u max_len out_cap_u : Z) (st : sys) : sysres :=
  recv_cap_common h buf_u max_len out_cap_u true st.
Definition sys_ipc_try_recv_cap (h buf_u max_len out_cap_u : Z) (st : sys) : sysres :=
  recv_cap_common h buf_u max_len out_cap_u false st.

(** ** Memory, scheduling, processes *)

Definition do_map (hint npages flags : Z) (st : sys) : sysres :=
  with_proc st (fun p q =>
    with_space st q (fun sp =>
      match sys_map (Some q) sp hint npages flags (sy_vm st) with
      | (r, Some q', v) => Ret r (put_proc (put_vmem st v) p q')
      | (r, None, v) => Ret r (put_vmem st v)
      end)).

Definition do_unmap (vaddr npages : Z) (st : sys) : sysres :=
  with_proc st (fun p q =>
    with_space st q (fun sp => let '(r, v) := sys_unmap (Some q) sp vaddr npages (sy_vm st) in Ret r (put_vmem st v))).

Definition sys_yield (st : sys) : sysres :=
  match sched_yield (sy_s st) with
  | None => Crash
  | Some (l, s') =>
    if current s' =? current (sy_s st) then Ret 0 (put_s st s')
    else of_res (after_switch (sy_s st) s' l (sy_k st)) (fun k => Sleep PYield (put_s (put_k st k) s'))
  end.

(** Interrupts are off from [process_spawn] to the end. *)
Definition spawn_with_elf (name elf : list Z) (cap_h : Z) (st : sys) : sysres :=
  with_proc st (fun pp parent =>
    if negb (cap_h =? HANDLE_INVALID) &&
       (match handle_lookup (p_handles parent) (u32 cap_h) HANDLE_RIGHT_TRANSFER with Some _ => false | None => true end)
    then err EPERM st
    else if negb (handle_table_has_free_slot (p_handles parent)) then err EMFILE st
    else
      of_res (process_spawn boot_pml4 kspace user_thread_entry name elf 1 [name] 1 [[80; 65; 84; 72; 61; 47; 0]] (sy_n st)) (fun r =>
        let '(child, n1) := r in
        let st1 := put_n st n1 in
        if child =? 0 then err ENOMEM st1
        else
          let drop st e := of_res (process_unref (unref_fuel (sy_k st)) child (sy_k st)) (fun k => err e (put_k st k)) in
          let give st :=
            let st := put_k st (process_ref child (sy_k st)) in
            match k_procs (sy_k st) !! pp with
            | None => Crash
            | Some parent =>
              let '(ph, t) := handle_create (p_handles parent) HANDLE_KIND_PROCESS HANDLE_RIGHT_READ child in
              if ph =? HANDLE_INVALID then
                of_res (process_unref (unref_fuel (sy_k st)) child (sy_k st)) (fun k => drop (put_k st k) EMFILE)
              else Ret ph (put_proc st pp (set_handles t parent))
            end in
          if cap_h =? HANDLE_INVALID then give st1
          else
            match handle_lookup_full (p_handles parent) (u32 cap_h) HANDLE_RIGHT_TRANSFER with
            | None => drop st1 EPERM
            | Some (obj, kd, rg) =>
              match k_procs (sy_k st1) !! child with
              | None => Crash
              | Some c =>
                let '(child_h, t) := handle_create_ex (p_handles c) kd rg obj false in
                if child_h =? HANDLE_INVALID then drop st1 EMFILE
                else give (put_proc st1 child (set_bootstrap child_h (set_handles t c)))
              end
            end)).

Definition sys_spawn_elf (elf_u elf_size name_u cap_h flags : Z) (st : sys) : sysres :=
  with_proc st (fun p parent =>
    if negb (flags =? 0) then err EINVAL st
    else if (elf_size =? 0) || (SPAWN_ELF_MAX <? elf_size) then err EINVAL st
    else
      with_space st parent (fun sp =>
        match strncpy_from_user (Some sp) (Some (replicate (Z.to_nat SPAWN_NAME_MAX) 0)) name_u SPAWN_NAME_MAX (sy_vm st) with
        | (sr, Some name) =>
          if sr <? 0 then err (- sr) st
          else
            let '(kbuf, h1) := Iface.exy_malloc elf_size (k_heap (sy_k st)) in
            let st1 := put_k st (set_heap (sy_k st) h1) in
            if kbuf =? 0 then err ENOMEM st1
            else
              let '(r, elf) := copy_from_user (Some sp) elf_u elf_size (sy_vm st1) in
              if r <? 0 then of_res (kfree kbuf (sy_k st1)) (fun k => err EFAULT (put_k st1 k))
              else
                match spawn_with_elf name elf cap_h st1 with
                | Ret r st2 => of_res (kfree kbuf (sy_k st2)) (fun k => Ret r (put_k st2 k))
                | x => x
                end
        | (_, None) => Crash
        end)).

Definition do_wait (child : Z) (st : sys) : sysres :=
  match k_procs (sy_k st) !! child with
  | None => Crash
  | Some c =>
    if exited c =? 0 then
      match wait_on (p_waiters c) (sy_s st) with
      | None => Crash
      | Some (q, s') => sleep (PWait child) (put_proc st child (set_waiters q c)) s'
      end
    else Ret (i64 (exit_code c)) st
  end.

Definition sys_wait (proc_h : Z) (st : sys) : sysres :=
  with_proc st (fun _ parent =>
    match handle_lookup (p_handles parent) (u32 proc_h) HANDLE_RIGHT_READ with
    | None => err EBADF st
    | Some (obj, kd) => if negb (kd =? HANDLE_KIND_PROCESS) then err EINVAL st else do_wait obj st
    end).

Definition sys_get_bootstrap (st : sys) : sysres :=
  with_proc st (fun _ q =>
    if bootstrap_handle q =? HANDLE_INVALID then err ENOENT st else Ret (bootstrap_handle q) st).

(** ** Console and process list *)

Definition sys_exy_puts (buf_u count : Z) (st : sys) : sysres :=
  with_proc st (fun _ q =>
    if count =? 0 then Ret 0 st
    else if SYSCALL_IO_MAX <? count then err EINVAL st
    else
      with_space st q (fun sp =>
        let '(r, kbuf) := copy_from_user (Some sp) buf_u count (sy_vm st) in
        if r <? 0 then err EFAULT st
        else Ret count (put_con st (foldl (fun k c => console_write_char c k) (sy_con st) kbuf)))).

(** [kbuf] is what the uninitialised array on the kernel stack holds. *)
Definition sys_proc_list (kbuf : list process_info_t) (buf_u max : Z) (st : sys) : sysres :=
  with_proc st (fun _ q =>
    if (max =? 0) || (PROC_LIST_MAX <? max) then err EINVAL st
    else
      match process_collect (k_procs (sy_k st)) (proc_list_head (sy_k st)) (Some kbuf) max with
      | (n, Some out) =>
        if n =? 0 then Ret 0 st
        else
          with_space st q (fun sp =>
            let '(r, v) := copy_to_user (Some sp) buf_u (concat (info_bytes <$> take (Z.to_nat n) out)) (sy_vm st) in
            if r <? 0 then err EFAULT (put_vmem st v) else Ret n (put_vmem st v))
      | (_, None) => Crash
      end).

Definition sys_exy_gets (buf_u max : Z) (st : sys) : sysres :=
  with_proc st (fun _ q =>
    if max =? 0 then Ret 0 st
    else if SYSCALL_IO_MAX <? max then err EINVAL st
    else
      let '(kbuf, con) := gets_loop (Z.to_nat max) (sy_con st) in
      let st1 := put_con st con in
      if zlen kbuf =? 0 then err EAGAIN st1
      else
        with_space st1 q (fun sp =>
          let '(r, v) := copy_to_user (Some sp) buf_u kbuf (sy_vm st1) in
          if r <? 0 then err EFAULT (put_vmem st1 v) else Ret (zlen kbuf) (put_vmem st1 v))).

(** ** Dispatch *)

Definition SYSCALL_MAX : Z := 29.

(** The table: [None] for the numbers without a handler. *)
Definition syscall_table (kbuf : list process_info_t) (nr a0 a1 a2 a3 a4 : Z) (st : sys) : option sysres :=
  match nr with
  | 0 => Some (sys_ping a0 st)
  | 1 => Some (sys_exy_puts a0 a1 st)
  | 2 => Some (sys_exit a0 st)
  | 3 => Some (sys_handle_create a0 a1 a2 st)
  | 4 => Some (sys_handle_close a0 st)
  | 5 => Some (sys_handle_query a0 a1 st)
  | 10 => Some (sys_getpid st)
  | 12 => Some (sys_ipc_create a0 a1 st)
  | 13 => Some (sys_ipc_send a0 a1 a2 st)
  | 14 => Some (sys_ipc_recv a0 a1 a2 st)
  | 15 => Some (sys_ipc_try_send a0 a1 a2 st)
  | 16 => Some (sys_ipc_try_recv a0 a1 a2 st)
  | 17 => Some (do_map a0 a1 a2 st)
  | 18 => Some (do_unmap a0 a1 st)
  | 19 => Some (sys_yield st)
  | 20 => Some (sys_ipc_send_cap a0 a1 a2 a3 a4 st)
  | 21 => Some (sys_ipc_recv_cap a0 a1 a2 a3 st)
  | 22 => Some (sys_ipc_try_recv_cap a0 a1 a2 a3 st)
  | 24 => Some (sys_wait a0 st)
  | 25 => Some (sys_get_bootstrap st)
  | 26 => Some (sys_spawn_elf a0 a1 a2 a3 a4 st)
  | 27 => Some (sys_exy_gets a0 a1 st)
  | 28 => Some (sys_proc_list kbuf a0 a1 st)
  | _ => None
  end.

Definition syscall_dispatch (kbuf : list process_info_t) (nr a0 a1 a2 a3 a4 : Z) (st : sys) : sysres :=
  if SYSCALL_MAX <=? nr then err ENOSYS st
  else match syscall_table kbuf nr a0 a1 a2 a3 a4 st with None => err ENOSYS st | Some r => r end.

(** A thread that was woken goes on in its loop. *)
Definition resume (w : pending) (st : sys) : sysres :=
  match w with
  | PSend ca msg => do_send ca msg st
  | PSendCap ca msg x moved => do_send_cap ca msg x moved st
  | PRecv ca buf_u => do_recv ca buf_u st
  | PRecvCap ca buf_u out_cap_u => do_recv_cap ca buf_u out_cap_u st
  | PWait child => do_wait child st
  | PYield => Ret 0 st
  end.
End syscall.
Arguments sys H : clear implicits.
Arguments sysres H : clear implicits.

(** ** A process in the kernel *)

Section ipc.
Context {H : Type} `{VmHeap H} {K : Z} {HL : VmHeapLaws H K}.
Implicit Types (st : sys H).

(** The process [p] runs, with [q] its object and [sp] its space, loaded in CR3
    and well formed. *)
Record runs (G : gmap Z (Z * list Z)) (st : sys H) (p : Z) (q : process_t) (sp : vmm_space) : Prop := {
  rn_cur : current_process st = p;
  rn_p : p <> 0;
  rn_proc : k_procs (sy_k st) !! p = Some q;
  rn_space : k_spaces (sy_k st) !! p_space q = Some sp;
  rn_mem : loading K G (sy_vm st) sp;
  rn_table : table_ok (p_handles q) }.

Lemma with_proc_runs G st p q sp f : runs G st p q sp -> with_proc st f = f p q.
Proof using Type. intros [E1 E2 E3 _ _ _]. unfold with_proc. rewrite E1, (proj2 (Z.eqb_neq p 0) E2). by rewrite E3. Qed.

Lemma with_space_runs G st p q sp f : runs G st p q sp -> with_space st q f = f sp.
Proof using Type. intros [_ _ _ E _ _]. unfold with_space. by rewrite E. Qed.

(** The open handle [h] of [q] names the channel [c] at [ca] with the right [rg]. *)
Definition opens st (q : process_t) (h rg ca : Z) (c : channel_t) : Prop :=
  handle_lookup (p_handles q) (u32 h) rg = Some (ca, HANDLE_KIND_CHANNEL) /\ ca <> 0 /\
  k_chans (sy_k st) !! ca = Some c /\ chan_inv c.

(** The bytes of user memory from [a]. *)
Definition user_slice (v : vm) (a n : Z) : list Z := (fun i => user_byte v (a + i)) <$> seqZ 0 n.

Lemma zlen_user_slice v a n : 0 <= n -> zlen (user_slice v a n) = n.
Proof using Type. intros Hn. unfold user_slice, zlen. rewrite length_fmap, length_seqZ. lia. Qed.

Lemma user_range_ok_all G v sp a n :
  loading K G v sp -> 0 <= n -> user_range v (sp_pml4 sp) a n -> forall b, a <= b < a + n -> user_ok v b.
Proof using Type.
  intros L Hn [->|(H1 & H2 & H3)] b Hb; [lia|]. split; [lia|]. rewrite (ld_cr3 _ _ _ _ L). by apply H3.
Qed.

(** What a copy from user memory returns, on both branches. *)
Lemma copy_from_spec G v sp a n :
  loading K G v sp -> 0 <= a < 2 ^ 64 -> 0 <= n < 2 ^ 64 ->
  (user_range v (sp_pml4 sp) a n /\ copy_from_user (Some sp) a n v = (0, user_slice v a n)) \/
  (~ user_range v (sp_pml4 sp) a n /\ copy_from_user (Some sp) a n v = (- EFAULT, [])).
Proof using Type.
  intros L Ha Hn. destruct (user_range_ok_spec K G v sp a n (ld_tree _ _ _ _ L) (ld_reg _ _ _ _ L) Ha Hn) as [C1 C2].
  unfold copy_from_user. destruct C1 as [C1|C1]; rewrite C1; [left|right].
  - assert (user_range v (sp_pml4 sp) a n) as U by by apply C2. split; [done|]. cbn [Z.ltb Z.compare].
    pose proof (space_frames _ _ _ (ld_space _ _ _ _ L)) as F. rewrite <- (ld_cr3 _ _ _ _ L) in F.
    rewrite (from_user_spec G) by (done || (rewrite Z2Nat.id by lia; eapply user_range_ok_all; (done || lia))).
    by rewrite Z2Nat.id by lia.
  - split; [|done]. intros U. apply C2 in U. rewrite C1 in U. done.
Qed.

(** What a copy to user memory does, on both branches. *)
Lemma copy_to_spec G v sp a src :
  loading K G v sp -> 0 <= a < 2 ^ 64 -> zlen src < 2 ^ 64 -> Forall (fun b => 0 <= b < 256) src ->
  (user_range v (sp_pml4 sp) a (zlen src) /\
   exists v', copy_to_user (Some sp) a src v = (0, v') /\ wrote K G sp (span a (zlen src) (zget 0 src)) v v' /\ user_bytes v' a src) \/
  (~ user_range v (sp_pml4 sp) a (zlen src) /\ copy_to_user (Some sp) a src v = (- EFAULT, v)).
Proof using Type.
  intros L Ha Hn Hb. pose proof (zlen_nonneg src).
  destruct (user_range_ok_spec K G v sp a (zlen src) (ld_tree _ _ _ _ L) (ld_reg _ _ _ _ L) Ha ltac:(lia)) as [C1 C2].
  destruct C1 as [C1|C1]; [left|right].
  - assert (user_range v (sp_pml4 sp) a (zlen src)) as U by by apply C2. split; [done|].
    pose proof (user_range_ok_all G v sp a (zlen src) L ltac:(lia) U) as Ok.
    destruct (copy_loading K G v sp a src L Hb Ha Hn Ok) as (v' & E & W). exists v'. split; [done|]. split; [done|].
    intros j Hj. split; [eapply wrote_ok; [done..|]; apply Ok; lia|]. rewrite (wr_byte _ _ _ _ _ _ W) by (apply Ok; lia). unfold span.
    zif; [|match goal with H : _ && _ = false |- _ => apply andb_false_iff in H as [?|?]; zb; lia end].
    cbn [from_option id]. f_equal. lia.
  - split; [intros U; apply C2 in U; rewrite C1 in U; done|]. unfold copy_to_user. by rewrite C1.
Qed.

(** ** Sending *)

Lemma lookup_channel_opens st q h rg ca c : opens st q h rg ca c -> lookup_channel q (u32 h) rg = ca.
Proof using Type. intros (E & _). unfold lookup_channel. by rewrite E. Qed.

(** The checks of a send with an open handle: the length, then the buffer. *)
Lemma send_checks_spec G st p q sp h buf len ca c f :
  runs G st p q sp -> opens st q h HANDLE_RIGHT_WRITE ca c -> 0 <= buf < 2 ^ 64 -> 0 <= len < 2 ^ 64 ->
  (len <> ch_msg_size c /\ send_checks h buf len st f = err EINVAL st) \/
  (len = ch_msg_size c /\ ~ user_range (sy_vm st) (sp_pml4 sp) buf len /\ send_checks h buf len st f = err EFAULT st) \/
  (len = ch_msg_size c /\ user_range (sy_vm st) (sp_pml4 sp) buf len /\
   send_checks h buf len st f = f p q ca c (user_slice (sy_vm st) buf len)).
Proof using Type.
  intros R O Hb Hl. unfold send_checks. rewrite (with_proc_runs G st p q sp) by done. rewrite (lookup_channel_opens st q h _ ca c O).
  destruct O as (_ & Ha & Ec & I). rewrite (proj2 (Z.eqb_neq ca 0) Ha). unfold with_chan. rewrite Ec.
  destruct (Z.eqb_spec len (ch_msg_size c)) as [->|Hne]; cbn [negb]; [right|by left].
  rewrite (with_space_runs G st p q sp) by done.
  destruct (copy_from_spec G (sy_vm st) sp buf (ch_msg_size c) (rn_mem _ _ _ _ _ R) Hb Hl) as [[U E]|[U E]]; rewrite E; [right|left]; done.
Qed.

(** Without the right, or with a handle on something else, nothing happens. *)
Lemma send_checks_bad G st p q sp h buf len f :
  runs G st p q sp -> lookup_channel q (u32 h) HANDLE_RIGHT_WRITE = 0 -> send_checks h buf len st f = err EBADF st.
Proof using Type. intros R E. unfold send_checks. rewrite (with_proc_runs G st p q sp) by done. by rewrite E. Qed.

(** The state after a message went into the channel at [ca]: the ring grew by
    the message, one receiver may have been woken, nothing else changed. *)
Record delivered st (ca : Z) (c : channel_t) (m : list Z * option cap) (st' : sys H) : Prop := {
  dl_chan : exists c', k_chans (sy_k st') = <[ca := c']> (k_chans (sy_k st)) /\ chan_inv c' /\
    ch_msg_size c' = ch_msg_size c /\ contents c' = contents c ++ [m];
  dl_heap : k_heap (sy_k st') = k_heap (sy_k st);
  dl_spaces : k_spaces (sy_k st') = k_spaces (sy_k st);
  dl_con : sy_con st' = sy_con st }.

Lemma enqueue_delivered st ca c msg x c' s' :
  chan_inv c -> ch_count c < ch_capacity c -> zlen msg = ch_msg_size c -> enqueue c msg x (sy_s st) = (c', s') ->
  delivered st ca c (msg, x) (put_s (put_chan st ca c') s').
Proof using Type.
  intros I Hf Hm E. destruct (enqueue_ring c msg x (sy_s st)) as (w & s1 & E1 & _). rewrite E1 in E. injection E as <- <-.
  destruct (ring_put_refines c msg x I Hf Hm) as [I' C']. destruct (ring_with_receivers (ring_put c msg x) w) as [W1 W2].
  split; [|done..]. eexists. split; [reflexivity|]. split; [auto|]. split; [done|]. by rewrite W1.
Qed.

(** The current thread can go to sleep on [w]: [wl] are the threads asleep on it,
    [x] is the next one to run, no exited thread waits to be freed, and the address
    space of [x] exists. *)
Record can_sleep st (w : waitq_t) (x : Z) (wl : list Z) : Prop := {
  cl_sched : exists rl, sched_inv (sy_s st) (x :: rl) [];
  cl_wait : blocked_on (sy_s st) w wl;
  cl_space th : threads (sy_s st) !! x = Some th -> is_Some (k_spaces (sy_k st) !! t_space th) }.

(** The current thread of [st] sleeps as the last of [wl] on [w'], and [x] runs;
    processes and spaces are as before. *)
Record asleep st (w' : waitq_t) (x : Z) (wl : list Z) st' : Prop := {
  as_wait : blocked_on (sy_s st') w' (wl ++ [current (sy_s st)]);
  as_cur : current (sy_s st') = x;
  as_sched : exists rl zl, sched_inv (sy_s st') rl zl;
  as_procs : k_procs (sy_k st') = k_procs (sy_k st) /\ k_spaces (sy_k st') = k_spaces (sy_k st) }.

Lemma reaped_nil s rl s' : sched_inv s rl [] -> reaped s s' = [].
Proof using Type.
  intros I. unfold reaped. destruct (reap_zombies_spec s rl [] I) as (s1 & -> & _). done.
Qed.

Lemma sleep_spec st w x wl pend (f : waitq_t -> sys H) :
  can_sleep st w x wl -> (forall w', sy_s (f w') = sy_s st /\ k_procs (sy_k (f w')) = k_procs (sy_k st) /\ k_spaces (sy_k (f w')) = k_spaces (sy_k st)) ->
  exists w' s' st', wait_on w (sy_s st) = Some (w', s') /\ sleep pend (f w') s' = Sleep pend st' /\ asleep st w' x wl st' /\ k_chans (sy_k st') = k_chans (sy_k (f w')).
Proof using Type.
  intros [[rl I] B Hsp] Hf. destruct (wait_on_spec _ _ _ _ _ I B) as (w' & s' & zl' & E & I' & Hc & B' & _). pose proof (wait_on_loaded _ _ _ _ E) as L.
  destruct (Hf w') as (F1 & F2 & F3). exists w', s'. unfold sleep, after_switch. rewrite F1, (reaped_nil _ _ _ I), F3.
  assert (exists th, threads (sy_s st) !! x = Some th) as [th Ex].
  { destruct I as [Q _]. destruct (qrep_in _ _ _ _ x (qd_ready _ _ _ Q) ltac:(left)) as [_ [th ?]]. by exists th. }
  destruct (Hsp th Ex) as [sp Es]. rewrite Hc, Ex in L. cbn in L.
  destruct (Z.eqb_spec (loaded_space s') (loaded_space (sy_s st))) as [El|El].
  - cbn. eexists. split; [done|]. split; [reflexivity|]. split; [|done]. split; [done|done|eauto|done].
  - destruct L as [L|L]; [done|]. rewrite L, Es. cbn. eexists. split; [done|]. split; [reflexivity|]. split; [|done]. split; [done|done|eauto|done].
Qed.

(** C24: a send needs an open channel handle with the WRITE right, a length equal
    to the message size and a readable buffer, and otherwise returns EBADF,
    EINVAL or EFAULT with nothing changed.  When the channel has room, both
    sends return 0 with exactly the bytes of the caller's buffer appended.  When
    it is full, the non-blocking one returns EAGAIN with nothing changed; the
    blocking one, given another thread to run with an address space and no exited
    thread left to free, puts its thread to sleep as the last of the channel's
    senders, to go on with the same bytes, while that thread runs and the messages
    in the channel stay as they are. *)
Theorem ipc_send_correct G st p q sp h buf len :
  runs G st p q sp -> 0 <= buf < 2 ^ 64 -> 0 <= len < 2 ^ 64 ->
  (lookup_channel q (u32 h) HANDLE_RIGHT_WRITE = 0 ->
     sys_ipc_send h buf len st = err EBADF st /\ sys_ipc_try_send h buf len st = err EBADF st) /\
  (forall ca c, opens st q h HANDLE_RIGHT_WRITE ca c ->
     (len <> ch_msg_size c ->
        sys_ipc_send h buf len st = err EINVAL st /\ sys_ipc_try_send h buf len st = err EINVAL st) /\
     (len = ch_msg_size c -> ~ user_range (sy_vm st) (sp_pml4 sp) buf len ->
        sys_ipc_send h buf len st = err EFAULT st /\ sys_ipc_try_send h buf len st = err EFAULT st) /\
     (len = ch_msg_size c -> user_range (sy_vm st) (sp_pml4 sp) buf len ->
        let msg := user_slice (sy_vm st) buf len in
        (zlen (contents c) < ch_capacity c ->
           exists st', sys_ipc_send h buf len st = Ret 0 st' /\ sys_ipc_try_send h buf len st = Ret 0 st' /\
             delivered st ca c (msg, None) st' /\ k_procs (sy_k st') = k_procs (sy_k st)) /\
        (zlen (contents c) = ch_capacity c ->
           sys_ipc_try_send h buf len st = err EAGAIN st /\
           forall x wl, can_sleep st (ch_senders c) x wl ->
             exists st' c', sys_ipc_send h buf len st = Sleep (PSend ca msg) st' /\ asleep st (ch_senders c') x wl st' /\
               k_chans (sy_k st') = <[ca := c']> (k_chans (sy_k st)) /\ chan_inv c' /\ contents c' = contents c))).
Proof using Type.
  intros R Hb Hl. split; [intros E; split; by eapply send_checks_bad|]. intros ca c O. pose proof O as (_ & _ & Ec & I).
  rewrite (contents_length c I). pose proof (ci_count _ I).
  pose proof (fun f => send_checks_spec G st p q sp h buf len ca c f R O Hb Hl) as S. unfold sys_ipc_send, sys_ipc_try_send.
  split; [|split].
  - intros Hne. assert (forall f, send_checks h buf len st f = err EINVAL st) as Ef; [|by rewrite !Ef].
    intros f. destruct (S f) as [[_ ->]|[(? & _)|(? & _)]]; [done|lia|lia].
  - intros He Hu. assert (forall f, send_checks h buf len st f = err EFAULT st) as Ef; [|by rewrite !Ef].
    intros f. destruct (S f) as [[? _]|[(_ & _ & ->)|(_ & ? & _)]]; [lia|done|done].
  - intros He Hu. cbv zeta. set (msg := user_slice (sy_vm st) buf len).
    assert (zlen msg = ch_msg_size c) as Hm by (unfold msg; rewrite zlen_user_slice by lia; done).
    assert (forall f, send_checks h buf len st f = f p q ca c msg) as Ef.
    { intros f. destruct (S f) as [[? _]|[(_ & ? & _)|(_ & _ & ->)]]; [lia|done|done]. }
    rewrite !Ef. unfold do_send, with_chan, channel_send, channel_try_send. rewrite Ec.
    split; intros Hc.
    + rewrite (proj2 (Z.eqb_neq _ _)) by lia. destruct (enqueue c msg None (sy_s st)) as [c' s'] eqn:Ee.
      eexists. split; [done|]. split; [done|]. split; [by eapply enqueue_delivered|done].
    + rewrite (proj2 (Z.eqb_eq _ _)) by lia. split; [done|]. intros x wl Cs.
      destruct (sleep_spec st (ch_senders c) x wl (PSend ca msg) (fun w => put_chan st ca (with_senders c w)) Cs) as (w & s' & st' & Ew & Es & As & Ek); [done|].
      exists st', (with_senders c w). rewrite Ew, Es. destruct (ring_with_senders c w) as [E1 E2]. split; [done|]. split; [done|]. split; [done|]. split; [by apply E2|done].
Qed.

(** ** Receiving *)

(** The state after the oldest message left the channel at [ca]: [rest] remains,
    user memory is [v'], and beyond that only a sender may have been woken. *)
Record taken st (ca : Z) (c : channel_t) (rest : list (list Z * option cap)) (v' : vm) (st' : sys H) : Prop := {
  tk_chan : exists c', k_chans (sy_k st') = <[ca := c']> (k_chans (sy_k st)) /\ chan_inv c' /\
    ch_msg_size c' = ch_msg_size c /\ contents c' = rest;
  tk_vm : sy_vm st' = v';
  tk_live : live (k_heap (sy_k st')) = live (k_heap (sy_k st));
  tk_spaces : k_spaces (sy_k st') = k_spaces (sy_k st);
  tk_con : sy_con st' = sy_con st }.

Lemma sy_vm_put st v : sy_vm (put_vmem st v) = v.
Proof using HL. apply vm_put. Qed.

Lemma msg_size_small c : chan_inv c -> 0 < ch_msg_size c < 2 ^ 63.
Proof using Type. intros [? ? ? _ _ _ _ _]. nia. Qed.

Lemma commit_taken st ca c m rest c' s' st1 v' st2 :
  chan_inv c -> contents c = m :: rest -> channel_commit c (sy_s st) = (c', s') ->
  k_chans (sy_k st1) = <[ca := c']> (k_chans (sy_k st)) -> live (k_heap (sy_k st1)) = live (k_heap (sy_k st)) ->
  k_spaces (sy_k st1) = k_spaces (sy_k st) -> sy_con st1 = sy_con st -> st2 = put_vmem st1 v' ->
  taken st ca c rest v' st2.
Proof using HL.
  intros I E Ec E1 E2 E3 E4 ->. destruct (commit_ring c (sy_s st)) as (w & s1 & Ew & _). rewrite Ew in Ec. injection Ec as <- <-.
  destruct (ring_take_refines c m rest I E) as (_ & I' & C'). destruct (ring_with_senders (ring_take c) w) as [W1 W2].
  split.
  - eexists. split; [exact E1|]. split; [auto|]. split; [done|]. by rewrite W1.
  - apply sy_vm_put.
  - cbn. by rewrite (put_live (K := K)).
  - exact E3.
  - exact E4.
Qed.

Lemma finish_recv_spec G st p q sp ca c buf m rest :
  runs G st p q sp -> k_chans (sy_k st) !! ca = Some c -> chan_inv c -> contents c = (m, None) :: rest ->
  Forall (fun b => 0 <= b < 256) m -> 0 <= buf < 2 ^ 64 ->
  exists r v' st', finish_recv ca c (u64 (ch_head c * ch_msg_size c)) buf q st = Ret r st' /\ taken st ca c rest v' st' /\
    k_procs (sy_k st') = k_procs (sy_k st) /\
    (user_range (sy_vm st) (sp_pml4 sp) buf (ch_msg_size c) -> r = ch_msg_size c /\ user_bytes v' buf m /\
       wrote K G sp (span buf (zlen m) (zget 0 m)) (sy_vm st) v') /\
    (~ user_range (sy_vm st) (sp_pml4 sp) buf (ch_msg_size c) -> r = SYSRET_ERR EFAULT /\ v' = sy_vm st).
Proof using HL.
  intros R Ec I E Hm Hb. destruct (peek_head c _ _ I E) as (_ & Hp & _). cbn [fst] in Hp. unfold finish_recv. rewrite Hp.
  assert (zlen m = ch_msg_size c) as Hl.
  { rewrite <- Hp. unfold peek_copy. rewrite zlen_slice. pose proof (ci_msz _ I). lia. }
  destruct (channel_commit c (sy_s st)) as [c' s'] eqn:Ek. set (st1 := put_s (put_chan st ca c') s').
  assert (with_space st1 q = with_space st q) as -> by done. rewrite (with_space_runs G st p q sp) by done.
  change (sy_vm st1) with (sy_vm st). pose proof (msg_size_small c I).
  destruct (copy_to_spec G (sy_vm st) sp buf m (rn_mem _ _ _ _ _ R) Hb ltac:(lia) Hm) as [[U (v' & Ev & W & B)]|[U Ev]]; rewrite Ev.
  - cbn [Z.ltb Z.compare]. rewrite i64_small by lia. eexists _, v', _. split; [done|]. split; [by eapply (commit_taken st ca c _ rest c' s' st1)|].
    split; [done|]. rewrite <- Hl. split; [done|]. intros Hn. by destruct Hn.
  - eexists _, (sy_vm st), _. split; [done|]. split; [by eapply (commit_taken st ca c _ rest c' s' st1)|]. split; [done|].
    rewrite <- Hl. split; [|done]. intros U'. by destruct U.
Qed.

(** A plain receive needs an open channel handle with the READ right and
    room for a message, and otherwise returns EBADF or EINVAL with nothing
    changed.  On an empty channel the non-blocking one returns EAGAIN and the
    blocking one sleeps; a message that carries a capability is refused with
    EINVAL and stays queued; any other oldest message is removed from the queue
    and written to the caller's buffer byte for byte, the result being its size,
    except that an unwritable buffer gives EFAULT, the message being gone. *)
Theorem ipc_recv_correct G st p q sp h buf max_len :
  runs G st p q sp -> 0 <= buf < 2 ^ 64 ->
  (lookup_channel q (u32 h) HANDLE_RIGHT_READ = 0 ->
     sys_ipc_recv h buf max_len st = err EBADF st /\ sys_ipc_try_recv h buf max_len st = err EBADF st) /\
  (forall ca c, opens st q h HANDLE_RIGHT_READ ca c ->
     (max_len < ch_msg_size c ->
        sys_ipc_recv h buf max_len st = err EINVAL st /\ sys_ipc_try_recv h buf max_len st = err EINVAL st) /\
     (ch_msg_size c <= max_len ->
        match contents c with
        | [] => sys_ipc_try_recv h buf max_len st = err EAGAIN st /\
            (sys_ipc_recv h buf max_len st = Crash \/ exists st', sys_ipc_recv h buf max_len st = Sleep (PRecv ca buf) st')
        | (m, Some _) :: _ =>
            sys_ipc_try_recv h buf max_len st = err EINVAL st /\ sys_ipc_recv h buf max_len st = err EINVAL st
        | (m, None) :: rest => Forall (fun b => 0 <= b < 256) m ->
            exists r v' st', sys_ipc_recv h buf max_len st = Ret r st' /\ sys_ipc_try_recv h buf max_len st = Ret r st' /\
              taken st ca c rest v' st' /\ k_procs (sy_k st') = k_procs (sy_k st) /\
              (user_range (sy_vm st) (sp_pml4 sp) buf (ch_msg_size c) -> r = ch_msg_size c /\ user_bytes v' buf m /\
                 wrote K G sp (span buf (zlen m) (zget 0 m)) (sy_vm st) v') /\
              (~ user_range (sy_vm st) (sp_pml4 sp) buf (ch_msg_size c) -> r = SYSRET_ERR EFAULT /\ v' = sy_vm st)
        end)).
Proof using HL.
  intros R Hb. unfold sys_ipc_recv, sys_ipc_try_recv, recv_checks. rewrite !(with_proc_runs G st p q sp) by done.
  split; [by intros ->|]. intros ca c O. pose proof O as (_ & Ha & Ec & I). rewrite (lookup_channel_opens st q h _ ca c O).
  rewrite (proj2 (Z.eqb_neq ca 0) Ha). unfold with_chan. rewrite Ec. split.
  { intros Hlt. by rewrite (proj2 (Z.ltb_lt _ _) Hlt). }
  intros Hge. rewrite (proj2 (Z.ltb_ge _ _) Hge). unfold do_recv. rewrite (with_proc_runs G st p q sp) by done.
  unfold with_chan, channel_peek_blocking, channel_peek_try. rewrite Ec. destruct (contents c) as [|[m x] rest] eqn:E.
  - rewrite (proj1 (contents_nil c I) E). cbn [Z.eqb]. split; [done|].
    destruct (wait_on (ch_receivers c) (sy_s st)) as [[w s']|]; [|by left]. unfold sleep, of_res.
    destruct (after_switch _ _ _ _); [right; by eexists|by left..].
  - destruct (peek_head c _ _ I E) as (-> & _ & Hc). cbn [snd] in Hc. unfold cap_out in Hc.
    destruct x as [x|]; zif; try done. intros Hm.
    destruct (finish_recv_spec G st p q sp ca c buf m rest R Ec I E Hm Hb) as (r & v' & st' & -> & T). by exists r, v', st'.
Qed.

(** ** Capabilities in messages *)

Lemma lookup_full_used t h rg obj kd r :
  handle_lookup_full t h rg = Some (obj, kd, r) -> h < HANDLE_MAX /\ used (entry_at t h) = true /\
  kd = kind (entry_at t h) /\ r = rights (entry_at t h) /\ obj = object (entry_at t h).
Proof using Type.
  unfold handle_lookup_full. destruct (Z.leb_spec HANDLE_MAX h) as [|Hh]; [done|]. destruct (used (entry_at t h)); cbn [negb]; [|done].
  destruct (Z.land _ _ =? _); cbn [negb]; [|done]. by intros [= <- <- <-].
Qed.

(** Disowning and closing an open handle takes it away and releases nothing. *)
Lemma disown_close {W} (f : option (Z -> Z -> W -> W)) t h (w : W) :
  table_ok t -> 0 <= h < HANDLE_MAX -> used (entry_at t h) = true ->
  exists t1 t2, handle_disown t h = (true, t1) /\ handle_close f t1 h w = (true, t2, w) /\ table_ok t2 /\
    (forall req, handle_lookup_full t2 h req = None) /\
    (forall h' req, 0 <= h' -> h' <> h -> handle_lookup_full t2 h' req = handle_lookup_full t h' req).
Proof using Type.
  intros Ok Hh Hu. unfold handle_disown. rewrite (proj2 (Z.leb_gt _ _)) by lia. rewrite Hu. cbn [negb].
  set (e := entry_at t h) in *. set (e1 := MkEntry (kind e) (rights e) (object e) (in_use e) 0). set (t1 := Handle.set_entry t h e1).
  pose proof (set_entry_ok t h e1 Ok) as Ok1. assert (entry_at t1 h = e1) as E1 by (unfold t1; rewrite entry_at_set by (done || lia); by rewrite Z.eqb_refl).
  exists t1, (Handle.set_entry t1 h free_entry). split; [done|]. split.
  { unfold handle_close. rewrite (proj2 (Z.leb_gt _ _)) by lia. rewrite E1. change (used e1) with (used e). rewrite Hu. cbn [negb].
    f_equal. unfold release_entry. by destruct f. }
  split; [by apply set_entry_ok|]. split.
  - intros req. unfold handle_lookup_full. rewrite entry_at_set by (done || lia). rewrite Z.eqb_refl. by destruct (_ <=? _).
  - intros h' req Hh' Hne. unfold handle_lookup_full. rewrite !entry_at_set by (done || lia).
    rewrite (proj2 (Z.eqb_neq h h')) by congruence. unfold t1. rewrite entry_at_set by (done || lia).
    by rewrite (proj2 (Z.eqb_neq h h')) by congruence.
Qed.

(** C13: sending a capability needs the TRANSFER right on it (EPERM otherwise,
    with nothing changed).  The message carries the kind, the rights and the
    object of the handle, never more.  A DUPLICATE is sent without ownership and
    leaves the sender's table alone; a TRANSFER is sent with ownership and takes
    the handle, and no other, out of the sender's table without releasing the
    object. *)
Theorem ipc_send_cap_correct G st p q sp h buf len cap_h action ca c :
  runs G st p q sp -> opens st q h HANDLE_RIGHT_WRITE ca c -> 0 <= buf < 2 ^ 64 -> len = ch_msg_size c ->
  user_range (sy_vm st) (sp_pml4 sp) buf len -> zlen (contents c) < ch_capacity c -> cap_h <> HANDLE_INVALID ->
  let msg := user_slice (sy_vm st) buf len in
  let call := sys_ipc_send_cap h buf len cap_h action st in
  (action <> IPC_CAP_TRANSFER -> action <> IPC_CAP_DUPLICATE -> call = err EINVAL st) /\
  (action = IPC_CAP_TRANSFER \/ action = IPC_CAP_DUPLICATE ->
   match handle_lookup_full (p_handles q) (u32 cap_h) HANDLE_RIGHT_TRANSFER with
   | None => call = err EPERM st
   | Some (obj, kd, rg) =>
     exists st', call = Ret 0 st' /\ delivered st ca c (msg, Some (MkC kd rg obj (action =? IPC_CAP_TRANSFER))) st' /\
       (action = IPC_CAP_DUPLICATE -> k_procs (sy_k st') = k_procs (sy_k st)) /\
       (action = IPC_CAP_TRANSFER -> exists t', k_procs (sy_k st') = <[p := set_handles t' q]> (k_procs (sy_k st)) /\ table_ok t' /\
          (forall req, handle_lookup_full t' (u32 cap_h) req = None) /\
          (forall h' req, 0 <= h' -> h' <> u32 cap_h -> handle_lookup_full t' h' req = handle_lookup_full (p_handles q) h' req))
   end).
Proof using Type.
  intros R O Hb Hl Hu Hroom Hcap. cbv zeta. pose proof O as (_ & _ & Ec & I). rewrite (contents_length c I) in Hroom.
  pose proof (ci_count _ I). pose proof (msg_size_small c I). unfold sys_ipc_send_cap. set (msg := user_slice (sy_vm st) buf len).
  assert (zlen msg = ch_msg_size c) as Hm by (unfold msg; rewrite zlen_user_slice; lia).
  assert (forall f, send_checks h buf len st f = f p q ca c msg) as ->.
  { intros f. destruct (send_checks_spec G st p q sp h buf len ca c f R O Hb ltac:(lia)) as [[? _]|[(_ & ? & _)|(_ & _ & ->)]]; [lia|done|done]. }
  rewrite (proj2 (Z.eqb_neq _ _) Hcap). split.
  { intros N1 N2. by rewrite (proj2 (Z.eqb_neq _ _) N1), (proj2 (Z.eqb_neq _ _) N2). }
  intros Hact. assert (negb (action =? IPC_CAP_TRANSFER) && negb (action =? IPC_CAP_DUPLICATE) = false) as ->.
  { destruct Hact as [-> | ->]; done. }
  destruct (handle_lookup_full _ _ _) as [[[obj kd] rg]|] eqn:El; [|done].
  destruct (lookup_full_used _ _ _ _ _ _ El) as (Hh & Hus & _ & _ & _). pose proof (u32_range cap_h).
  unfold do_send_cap. rewrite (with_proc_runs G st p q sp) by done. unfold with_chan, channel_send_cap. rewrite Ec.
  rewrite (proj2 (Z.eqb_neq (ch_count c) _)) by lia. set (x := Some (MkC kd rg obj (action =? IPC_CAP_TRANSFER))).
  destruct (enqueue c msg x (sy_s st)) as [c' s'] eqn:Ee. pose proof (enqueue_delivered st ca c msg x c' s' I ltac:(lia) Hm Ee) as D.
  set (st1 := put_s (put_chan st ca c') s') in *. destruct Hact as [-> | ->]; cbn [Z.eqb] in *.
  - change (IPC_CAP_TRANSFER =? IPC_CAP_TRANSFER) with true in *. cbv iota.
    destruct (disown_close (Some (handle_release (process_unref (unref_fuel (sy_k st1))))) (p_handles q) (u32 cap_h) (Ok (sy_k st1))
      (rn_table _ _ _ _ _ R) ltac:(lia) Hus) as (t1 & t2 & -> & -> & Ok2 & N2 & S2).
    cbn [of_res]. eexists. split; [reflexivity|]. split; [destruct D; by split|]. split; [done|]. intros _. exists t2.
    split; [|done]. change (alter (set_handles t2) p (k_procs (sy_k st)) = <[p := set_handles t2 q]> (k_procs (sy_k st))).
    apply map_eq. intros b. rewrite lookup_insert. case_decide as Hd; [subst b; rewrite lookup_alter_eq, (rn_proc _ _ _ _ _ R); done|by rewrite lookup_alter_ne].
  - change (IPC_CAP_DUPLICATE =? IPC_CAP_TRANSFER) with false in *. cbv iota. eexists. split; [reflexivity|]. split; [done|]. split; [done|].
    intros X. discriminate X.
Qed.

(** The process holds the capability [x] under the new handle [nh]; its other
    handles are as before. *)
Definition installs (q : process_t) (x : cap) (nh : Z) (t : handle_table_t) : Prop :=
  0 <= nh < HANDLE_MAX /\ table_ok t /\ used (entry_at (p_handles q) nh) = false /\
  entry_at t nh = MkEntry (c_kind x) (c_rights x) (c_obj x) 1 (if c_owns x then 1 else 0) /\
  forall j, 0 <= j -> j <> nh -> entry_at t j = entry_at (p_handles q) j.

Lemma create_installs q x nh t :
  table_ok (p_handles q) -> ~ full (p_handles q) ->
  handle_create_ex (p_handles q) (c_kind x) (c_rights x) (c_obj x) (c_owns x) = (nh, t) -> installs q x nh t.
Proof using Type.
  intros Ok Hf E. pose proof (handle_create_ok _ _ _ _ _ _ _ Ok E) as Ok'.
  destruct (create_cases (p_handles q) (c_kind x) (c_rights x) (c_obj x) (c_owns x) Ok) as [[? _]|(i & Hi & Hu & E')]; [done|].
  rewrite E' in E. injection E as <- <-. split; [done|]. split; [done|]. split; [done|].
  set (e := MkEntry _ _ _ 1 _). assert (forall j, 0 <= j -> entry_at (MkTable (zset (entries (p_handles q)) i e) ((i + 1) mod HANDLE_MAX)) j =
    if i =? j then e else entry_at (p_handles q) j) as A by (intros j Hj; by apply (entry_at_set (p_handles q))).
  split; [rewrite A by lia; by rewrite Z.eqb_refl|]. intros j Hj Hne. rewrite A by done. by rewrite (proj2 (Z.eqb_neq i j)) by congruence.
Qed.

(** C14: receiving a message with a capability: when the receiver's table is full
    nothing changes (ENFILE) and the message with its capability stays queued.
    Otherwise the message leaves the queue, the receiver gets one new handle
    with exactly the kind, rights, object and ownership the message carried and
    keeps its other handles, the bytes are in its buffer and the handle number
    at the given address.  On an empty channel the call returns EAGAIN. *)
Theorem ipc_recv_cap_correct G st p q sp h buf max_len out ca c :
  runs G st p q sp -> opens st q h HANDLE_RIGHT_READ ca c -> 0 <= buf < 2 ^ 64 -> 0 <= out < 2 ^ 64 -> ch_msg_size c <= max_len ->
  let call := sys_ipc_try_recv_cap h buf max_len out st in
  (contents c = [] -> call = err EAGAIN st) /\
  (forall m x rest, contents c = (m, Some x) :: rest ->
     (full (p_handles q) -> call = err ENFILE st) /\
     (~ full (p_handles q) -> Forall (fun b => 0 <= b < 256) m ->
      user_range (sy_vm st) (sp_pml4 sp) buf (ch_msg_size c) -> user_range (sy_vm st) (sp_pml4 sp) out 4 ->
      exists nh t v' st', call = Ret (ch_msg_size c) st' /\ installs q x nh t /\ taken st ca c rest v' st' /\
        k_procs (sy_k st') = <[p := set_handles t q]> (k_procs (sy_k st)) /\
        wrote K G sp (fun a => match span out 4 (zget 0 (le_bytes 4 nh)) a with
                               | Some b => Some b | None => span buf (zlen m) (zget 0 m) a end) (sy_vm st) v')).
Proof using HL.
  intros R O Hb Ho Hmax. cbv zeta. pose proof O as (_ & Ha & Ec & I).
  unfold sys_ipc_try_recv_cap, recv_cap_common, recv_checks. rewrite (with_proc_runs G st p q sp) by done.
  rewrite (lookup_channel_opens st q h _ ca c O), (proj2 (Z.eqb_neq ca 0) Ha). unfold with_chan. rewrite Ec.
  rewrite (proj2 (Z.ltb_ge _ _) Hmax). unfold channel_peek_try. split.
  { intros E. by rewrite (proj1 (contents_nil c I) E). }
  intros m x rest E. destruct (peek_head c _ _ I E) as (-> & Hp & Hc). cbn [fst snd] in Hp, Hc. unfold finish_recv_cap.
  set (cs := zget cap_none (ch_caps c) (ch_head c)) in *. unfold cap_out in Hc.
  destruct (negb (cs_in_use cs =? 0)) eqn:Hin; [|done]. injection Hc as <-. cbn [andb c_kind c_rights c_obj c_owns].
  pose proof (has_free_slot_spec (p_handles q)) as Hfs. split.
  { intros Hf. destruct (handle_table_has_free_slot (p_handles q)) eqn:Efs; [|done]. exfalso. by apply Hfs. }
  intros Hf Hm Ub Uo. rewrite (proj2 Hfs Hf). cbn [negb].
  destruct (handle_create_ex (p_handles q) (cs_kind cs) (cs_rights cs) (cs_object cs) (negb (cs_owns cs =? 0))) as [nh t] eqn:Eh.
  pose proof (create_installs q (MkC (cs_kind cs) (cs_rights cs) (cs_object cs) (negb (cs_owns cs =? 0))) nh t (rn_table _ _ _ _ _ R) Hf Eh) as In.
  pose proof In as (Hnh & _). unfold HANDLE_MAX in Hnh. rewrite (proj2 (Z.eqb_neq nh HANDLE_INVALID)) by (unfold HANDLE_INVALID; lia).
  destruct (channel_commit c (sy_s st)) as [c' s'] eqn:Ek. rewrite Hp. set (st1 := put_s _ s').
  assert (with_space st1 q = with_space st q) as -> by done. rewrite (with_space_runs G st p q sp) by done.
  change (sy_vm st1) with (sy_vm st). pose proof (msg_size_small c I).
  assert (zlen m = ch_msg_size c) as Hl by (rewrite <- Hp; unfold peek_copy; rewrite zlen_slice; lia).
  destruct (copy_to_spec G (sy_vm st) sp buf m (rn_mem _ _ _ _ _ R) Hb ltac:(lia) Hm) as [[_ (v1 & Ev1 & W1 & _)]|[U _]]; [|by rewrite Hl in U].
  rewrite Ev1. cbn [Z.ltb Z.compare]. rewrite sy_vm_put. pose proof (zlen_le_bytes 4 nh) as E4. change (Z.of_nat 4) with 4 in E4.
  destruct (copy_to_spec G v1 sp out (le_bytes 4 nh) (wr_ld _ _ _ _ _ _ W1) Ho ltac:(lia) (le_bytes_range 4 nh)) as [[_ (v2 & Ev2 & W2 & _)]|[U _]].
  2:{ exfalso. apply U. rewrite E4. destruct Uo as [?|(U1 & U2 & U3)]; [by left|right]. split; [done|]. split; [done|].
      intros a Hx. destruct (U3 a Hx) as (pa & fl & Et & Hfl). exists pa, fl. split; [|done].
      rewrite (wr_trans _ _ _ _ _ _ W1); [done|apply (rn_mem _ _ _ _ _ R)]. }
  rewrite Ev2. cbn [Z.ltb Z.compare]. rewrite i64_small by lia. eexists nh, t, v2, _. split; [reflexivity|]. split; [done|].
  split; [eapply (commit_taken st ca c _ rest c' s' (put_vmem st1 v1) v2); try done; apply (put_live (K := K))|].
  split; [|rewrite E4 in W2; eapply wrote_trans; [apply (rn_mem _ _ _ _ _ R)|done|done]].
  change (<[current_process st := set_handles t q]> (k_procs (sy_k st)) = <[p := set_handles t q]> (k_procs (sy_k st))).
  by rewrite (rn_cur _ _ _ _ _ R).
Qed.
End ipc.

(** ** Concrete runs

    One process with one page of memory and a handle on a channel. *)
Definition demo_tab : handle_table_t := snd (handle_create handle_table_init HANDLE_KIND_CHANNEL 11 0x3000).
Definition demo_q : process_t := demo_proc 1 0x600 1 demo_tab 0.
Definition demo_sys (c : channel_t) : sys (bump.bump * vm) :=
  MkSys (MkKernel (MkKst (bump.MkBump 0x10000 ∅, demo_user_vm) {[ 0x600 := demo_user ]} {[ 0x3000 := c ]} {[ 0x1000 := demo_q ]} 0x1000)
           (upd (sched_init 8 100 0x600 ∅) 8 (set_process 0x1000)) 2 1) (MkCon [] []).

Lemma demo_runs c : exists G, runs (K := demo_K) G (demo_sys c) 0x1000 demo_q demo_user.
Proof.
  destruct demo_loading as (G & L & _). exists G. split; [reflexivity|discriminate|reflexivity|reflexivity|exact L|split; [reflexivity|]].
  unfold HANDLE_MAX. vm_compute. split; [discriminate|reflexivity].
Qed.

Lemma demo_opens c rg : chan_inv c -> Z.land 11 rg = rg -> opens (demo_sys c) demo_q 0 rg 0x3000 c.
Proof.
  intros I E. split; [|split; [discriminate|split; [reflexivity|exact I]]].
  change (match handle_lookup_full demo_tab 0 rg with Some (o, k, _) => Some (o, k) | None => None end = Some (0x3000, HANDLE_KIND_CHANNEL)).
  unfold handle_lookup_full. change (entry_at demo_tab 0) with (MkEntry HANDLE_KIND_CHANNEL 11 0x3000 1 1).
  cbn [HANDLE_MAX Z.leb Z.compare used in_use Z.eqb negb rights]. rewrite E, Z.eqb_refl. reflexivity.
Qed.

Lemma demo_range c n : 0 <= n <= 4096 -> user_range (sy_vm (demo_sys c)) (sp_pml4 demo_user) USER_VA_BASE n.
Proof.
  intros Hn. destruct demo_loading as (G & L & R). right. split; [lia|]. split; [unfold USER_VA_BASE, USER_VA_TOP; lia|].
  intros a Ha. destruct (R a ltac:(lia)) as [_ U]. rewrite (ld_cr3 _ _ _ _ L) in U. exact U.
Qed.

(** The same with a second thread of the process ready to run. *)
Definition demo_peer : thread := MkThread 4096 THREAD_READY 1 0 4096 16384 20480 0x600 0x1000 99 0 0 0 0 false.
Definition demo_sys2 (c : channel_t) : sys (bump.bump * vm) :=
  put_s (demo_sys c) (sched_enqueue 16 (set_threads (sy_s (demo_sys c)) (<[16 := demo_peer]> (threads (sy_s (demo_sys c)))))).

Lemma demo_runs2 c : exists G, runs (K := demo_K) G (demo_sys2 c) 0x1000 demo_q demo_user.
Proof. destruct (demo_runs c) as [G [E1 E2 E3 E4 E5 E6]]. exists G. split; [vm_compute; reflexivity|exact E2|exact E3|exact E4|exact E5|exact E6]. Qed.

Lemma demo_can_sleep c : ch_senders c = waitq_init -> can_sleep (demo_sys2 c) (ch_senders c) 16 [].
Proof.
  intros Ew. assert (sched_inv (sy_s (demo_sys c)) [] []) as I.
  { assert (sy_s (demo_sys c) = MkSched (<[8 := set_process 0x1000 (boot_thread 100 0x600)]> ∅) q_empty 8 0 0 q_empty 100 0x600) as -> by reflexivity. by apply sched_one_inv. }
  destruct (spawn_inv _ [] [] 16 demo_peer I) as (I2 & _ & _); [reflexivity|done|done|]. split; [by exists []|rewrite Ew; apply blocked_on_nil|].
  intros th E. assert (t_space th = 0x600) as ->; [|by exists demo_user]. vm_compute in E. injection E as <-. reflexivity.
Qed.

(** A full channel of [demo_chan]'s shape. *)
Definition demo_full : channel_t := ring_put (ring_put (ring_put demo_chan [7; 8] None) [7; 8] None) [7; 8] None.

Lemma demo_full_spec : chan_inv demo_full /\ zlen (contents demo_full) = ch_capacity demo_full.
Proof.
  destruct (ring_put_refines demo_chan [7; 8] None demo_chan_inv) as [I1 _]; [done|done|].
  destruct (ring_put_refines (ring_put demo_chan [7; 8] None) [7; 8] None I1) as [I2 _]; [done|done|].
  destruct (ring_put_refines (ring_put (ring_put demo_chan [7; 8] None) [7; 8] None) [7; 8] None I2) as [I3 _]; [done|done|]. split; [exact I3|vm_compute; reflexivity].
Qed.

Lemma ipc_send_correct_witness :
  (exists st' c', sys_ipc_send 0 USER_VA_BASE 2 (demo_sys demo_chan) = Ret 0 st' /\
    k_chans (sy_k st') !! 0x3000 = Some c' /\ contents c' = [([0; 0], None)]) /\
  (exists st', sys_ipc_send 0 USER_VA_BASE 2 (demo_sys2 demo_full) = Sleep (PSend 0x3000 [0; 0]) st' /\ current (sy_s st') = 16).
Proof.
  split.
  - destruct (demo_runs demo_chan) as [G R].
    destruct (ipc_send_correct (K := demo_K) G (demo_sys demo_chan) 0x1000 demo_q demo_user 0 USER_VA_BASE 2 R) as [_ C].
    { unfold USER_VA_BASE. lia. } { lia. }
    destruct (C 0x3000 demo_chan (demo_opens demo_chan HANDLE_RIGHT_WRITE demo_chan_inv eq_refl)) as (_ & _ & C3).
    destruct (C3 eq_refl (demo_range demo_chan 2 ltac:(lia))) as [C4 _]. destruct (C4 eq_refl) as (st' & E & _ & [(c' & Ec & _ & _ & Ct) _ _ _] & _).
    exists st', c'. split; [exact E|]. rewrite Ec. split; [apply lookup_insert_eq|]. rewrite Ct. vm_compute. reflexivity.
  - destruct (demo_runs2 demo_full) as [G R]. destruct demo_full_spec as [If Ef].
    destruct (ipc_send_correct (K := demo_K) G (demo_sys2 demo_full) 0x1000 demo_q demo_user 0 USER_VA_BASE 2 R) as [_ C].
    { unfold USER_VA_BASE. lia. } { lia. }
    destruct (C 0x3000 demo_full (demo_opens demo_full HANDLE_RIGHT_WRITE If eq_refl)) as (_ & _ & C3).
    destruct (C3 eq_refl (demo_range demo_full 2 ltac:(lia))) as [_ C4]. destruct (C4 Ef) as [_ C5].
    destruct (C5 16 [] (demo_can_sleep demo_full eq_refl)) as (st' & c' & E & [_ Hc _ _] & _). exists st'. split; [|exact Hc].
    assert (user_slice (sy_vm (demo_sys2 demo_full)) USER_VA_BASE 2 = [0; 0]) as <- by (vm_compute; reflexivity). exact E.
Defined.

Definition demo_chan1 (x : option cap) : channel_t := ring_put demo_chan [7; 8] x.
Lemma demo_chan1_spec x : chan_inv (demo_chan1 x) /\ contents (demo_chan1 x) = [([7; 8], x)].
Proof. apply (ring_put_refines demo_chan [7; 8] x demo_chan_inv); reflexivity. Qed.

Lemma ipc_recv_correct_witness :
  exists st', sys_ipc_recv 0 USER_VA_BASE 16 (demo_sys (demo_chan1 None)) = Ret 2 st' /\
    user_bytes (sy_vm st') USER_VA_BASE [7; 8].
Proof.
  destruct (demo_runs (demo_chan1 None)) as [G R]. destruct (demo_chan1_spec None) as [I Ct].
  destruct (ipc_recv_correct (K := demo_K) G (demo_sys (demo_chan1 None)) 0x1000 demo_q demo_user 0 USER_VA_BASE 16 R) as [_ C].
  { unfold USER_VA_BASE. lia. }
  destruct (C 0x3000 (demo_chan1 None) (demo_opens (demo_chan1 None) HANDLE_RIGHT_READ I eq_refl)) as (_ & C2).
  specialize (C2 ltac:(discriminate)). rewrite Ct in C2. destruct C2 as (r & v' & st' & E & _ & T & _ & Hok & _); [by apply bytes_forallb|].
  destruct (Hok (demo_range (demo_chan1 None) 2 ltac:(lia))) as (Er & B & _). exists st'. rewrite (tk_vm _ _ _ _ _ _ T). split; [|exact B].
  rewrite E, Er. reflexivity.
Defined.

Lemma ipc_send_cap_correct_witness :
  exists st' q', sys_ipc_send_cap 0 USER_VA_BASE 2 0 IPC_CAP_TRANSFER (demo_sys demo_chan) = Ret 0 st' /\
    k_procs (sy_k st') !! 0x1000 = Some q' /\ handle_lookup_full (p_handles q') 0 0 = None.
Proof.
  destruct (demo_runs demo_chan) as [G R].
  destruct (ipc_send_cap_correct (K := demo_K) G (demo_sys demo_chan) 0x1000 demo_q demo_user 0 USER_VA_BASE 2 0 IPC_CAP_TRANSFER 0x3000 demo_chan R
    (demo_opens demo_chan HANDLE_RIGHT_WRITE demo_chan_inv eq_refl) ltac:(unfold USER_VA_BASE; lia) eq_refl
    (demo_range demo_chan 2 ltac:(lia)) eq_refl ltac:(discriminate)) as [_ C].
  specialize (C (or_introl eq_refl)). change (handle_lookup_full (p_handles demo_q) (u32 0) HANDLE_RIGHT_TRANSFER) with (Some (0x3000, HANDLE_KIND_CHANNEL, 11)) in C.
  destruct C as (st' & E & _ & _ & Ht). destruct (Ht eq_refl) as (t' & Ek & _ & N & _).
  exists st', (set_handles t' demo_q). split; [exact E|]. rewrite Ek. split; [apply lookup_insert_eq|exact (N 0)].
Defined.

Lemma ipc_recv_cap_correct_witness :
  exists st' nh t, sys_ipc_try_recv_cap 0 USER_VA_BASE 16 (USER_VA_BASE + 8) (demo_sys (demo_chan1 (Some (MkC HANDLE_KIND_CHANNEL 3 0x4000 true)))) = Ret 2 st' /\
    k_procs (sy_k st') !! 0x1000 = Some (set_handles t demo_q) /\ entry_at t nh = MkEntry HANDLE_KIND_CHANNEL 3 0x4000 1 1.
Proof.
  set (x := MkC HANDLE_KIND_CHANNEL 3 0x4000 true). destruct (demo_runs (demo_chan1 (Some x))) as [G R]. destruct (demo_chan1_spec (Some x)) as [I Ct].
  destruct (ipc_recv_cap_correct (K := demo_K) G (demo_sys (demo_chan1 (Some x))) 0x1000 demo_q demo_user 0 USER_VA_BASE 16 (USER_VA_BASE + 8) 0x3000
    (demo_chan1 (Some x)) R (demo_opens (demo_chan1 (Some x)) HANDLE_RIGHT_READ I eq_refl) ltac:(unfold USER_VA_BASE; lia) ltac:(unfold USER_VA_BASE; lia)
    ltac:(discriminate)) as [_ C].
  destruct (C [7; 8] x [] Ct) as [_ C2]. destruct C2 as (nh & t & v' & st' & E & (_ & _ & _ & En & _) & _ & Ek & _).
  - intros Hf. specialize (Hf 1 ltac:(unfold HANDLE_MAX; lia)). vm_compute in Hf. discriminate Hf.
  - by apply bytes_forallb.
  - exact (demo_range (demo_chan1 (Some x)) 2 ltac:(lia)).
  - destruct (demo_range (demo_chan1 (Some x)) 12 ltac:(lia)) as [?|(U1 & U2 & U3)]; [discriminate|]. right. split; [lia|]. split; [lia|].
    intros a Ha. apply U3. lia.
  - exists st', nh, t. split; [exact E|]. split; [rewrite Ek; apply lookup_insert_eq|exact En].
Defined.

(** [SYS_HANDLE_CREATE] takes any kind and any object address from user mode,
    where the comment in [sys_ipc_create] says only HANDLE_KIND_TEST is
    supported: a forged channel handle makes the next send follow an address of
    the caller's choice. *)
Theorem forged_handle_crashes :
  match sys_handle_create HANDLE_KIND_CHANNEL 3 0xDEAD000 (demo_sys demo_chan) with
  | Ret h st => h = 1 /\ sys_ipc_send h USER_VA_BASE 2 st = Crash
  | _ => False
  end.
Proof. vm_compute. done. Qed.

(** A TRANSFER is sent with ownership even when the sender's handle was a
    borrowed copy, so the channel ends up with two owners, which the comment in
    [sys_ipc_send_cap] sets out to prevent: closing both destroys it twice. *)
Theorem transfer_of_copy_frees_twice :
  let '(_, tab) := handle_create_ex demo_tab HANDLE_KIND_CHANNEL 11 0x3000 false in
  let st := put_proc (demo_sys demo_chan) 0x1000 (set_handles tab demo_q) in
  match sys_ipc_send_cap 0 USER_VA_BASE 2 1 IPC_CAP_TRANSFER st with
  | Ret 0 st1 =>
    match sys_ipc_try_recv_cap 0 USER_VA_BASE 2 (USER_VA_BASE + 8) st1 with
    | Ret 2 st2 =>
      match sys_handle_close 0 st2 with Ret 0 st3 => sys_handle_close 2 st3 = Crash | _ => False end
    | _ => False
    end
  | _ => False
  end.
Proof. vm_compute. done. Qed.

(** [SYS_PROC_LIST] copies whole records to user memory, and the bytes of a name
    past its terminator are whatever the kernel stack held. *)
Theorem proc_list_leaks_stack :
  match sys_proc_list [MkInfo 0 0 0 (replicate 32 0xAA)] USER_VA_BASE 1 (demo_sys demo_chan) with
  | Ret 1 st => user_byte (sy_vm st) (USER_VA_BASE + 16 + 5) = 0xAA
  | _ => False
  end.
Proof. vm_compute. done. Qed.

(** Numbers without a handler, the retired ones included, are refused. *)
Theorem dispatch_unknown kbuf nr a0 a1 a2 a3 a4 (st : sys (bump.bump * vm)) :
  SYSCALL_MAX <= nr \/ nr ∈ [6; 7; 8; 9; 11; 23] ->
  syscall_dispatch 0 0 0 kbuf nr a0 a1 a2 a3 a4 st = Ret (SYSRET_ERR ENOSYS) st.
Proof.
  intros Hn. unfold syscall_dispatch. destruct (Z.leb_spec SYSCALL_MAX nr) as [|Hlt]; [done|].
  destruct Hn as [?|Hn]; [lia|]. repeat (apply elem_of_cons in Hn as [->|Hn]; [done|]). by apply not_elem_of_nil in Hn.
Qed.
