(* ===== verification/CMalloc.v ===== *)
(** * The user heap

    [malloc], [free], [realloc] and [calloc] of [stdlib.c]: a boundary-tag
    allocator over one arena of 4 MiB that is mapped at the first call.  The
    headers live in the memory they describe, a store of 64-bit cells: a block
    at [b] is the cells [b] (size, with the FREE bit) and [b + 8] (prev_size),
    its payload starts at [b + 16].  The file ends with the instance of [UHeap]
    that the user programs are verified against. *)
From S2P Require Import Prelude Bytes Errno Iface.

Definition ARENA_SIZE : Z := 4 * 1024 * 1024.
Definition ALIGNMENT : Z := 16.
Definition HDR_SIZE : Z := 16.
Definition MIN_PAYLOAD : Z := ALIGNMENT.
Definition FREE_BIT : Z := 1.

(** The file-scope variables, [errno], memory, and the reply the kernel gives
    to the one SYS_MAP request. *)
Record arena := MkArena {
  arena_hi : Z;
  arena_first : Z;
  arena_last : Z;
  tried : bool;
  errno : Z;
  map_reply : Z;
  amem : gmap Z Z }.

Definition set_amem (a : arena) (m : gmap Z Z) : arena :=
  MkArena (arena_hi a) (arena_first a) (arena_last a) (tried a) (errno a) (map_reply a) m.
Definition set_last (a : arena) (b : Z) : arena :=
  MkArena (arena_hi a) (arena_first a) b (tried a) (errno a) (map_reply a) (amem a).
Definition set_errno (a : arena) (e : Z) : arena :=
  MkArena (arena_hi a) (arena_first a) (arena_last a) (tried a) e (map_reply a) (amem a).
Definition set_tried (a : arena) : arena :=
  MkArena (arena_hi a) (arena_first a) (arena_last a) true (errno a) (map_reply a) (amem a).

(** ** Headers *)

Definition blk_size (m : gmap Z Z) (b : Z) : Z := Z.land (rd m b) (u64 (Z.lnot FREE_BIT)).
Definition blk_free (m : gmap Z Z) (b : Z) : bool := negb (Z.land (rd m b) FREE_BIT =? 0).
Definition blk_prev_size (m : gmap Z Z) (b : Z) : Z := rd m (b + 8).

Definition blk_set_size (b sz : Z) (free : bool) (m : gmap Z Z) : gmap Z Z :=
  <[b := Z.lor (Z.land sz (u64 (Z.lnot FREE_BIT))) (if free then FREE_BIT else 0)]> m.
Definition blk_set_free (b : Z) (free : bool) (m : gmap Z Z) : gmap Z Z :=
  <[b := Z.lor (Z.land (rd m b) (u64 (Z.lnot FREE_BIT))) (if free then FREE_BIT else 0)]> m.
Definition set_prev_size (b sz : Z) (m : gmap Z Z) : gmap Z Z := <[b + 8 := sz]> m.

Definition align_up (n : Z) : Z := Z.land (u64 (n + (ALIGNMENT - 1))) (u64 (Z.lnot (ALIGNMENT - 1))).

Definition blk_next (a : arena) (b : Z) : Z :=
  let p := u64 (b + HDR_SIZE + blk_size (amem a) b) in
  if arena_hi a <=? p then 0 else p.

Definition blk_prev (a : arena) (b : Z) : Z :=
  if blk_prev_size (amem a) b =? 0 then 0
  else
    let p := u64 (b - HDR_SIZE - blk_prev_size (amem a) b) in
    if p <? arena_first a then 0 else p.

(** [after = blk_next(b); if (after) after->prev_size = sz; else arena_last = b;] *)
Definition relink (a : arena) (b sz : Z) : arena :=
  let after := blk_next a b in
  if after =? 0 then set_last a b else set_amem a (set_prev_size after sz (amem a)).

Definition split_block (a : arena) (b need : Z) : arena :=
  let cur := blk_size (amem a) b in
  if cur <? u64 (need + HDR_SIZE + MIN_PAYLOAD) then set_amem a (blk_set_free b false (amem a))
  else
    let nb := u64 (b + HDR_SIZE + need) in
    let m := blk_set_size nb (u64 (cur - need - HDR_SIZE)) true (amem a) in
    let m := set_prev_size nb need m in
    let m := blk_set_size b need false m in
    relink (set_amem a m) nb (blk_size m nb).

(** [blk_set_size(b, blk_size(b) + HDR_SIZE + blk_size(nxt), free)] and the
    prev_size of the block that now follows. *)
Definition absorb (a : arena) (b nxt : Z) (free : bool) : arena :=
  let merged := u64 (blk_size (amem a) b + HDR_SIZE + blk_size (amem a) nxt) in
  let m := blk_set_size b merged free (amem a) in
  relink (set_amem a m) b (blk_size m b).

Definition arena_append (a : arena) (start want : Z) : arena :=
  let nb := start in
  let m := blk_set_size nb (u64 (want - HDR_SIZE)) true (amem a) in
  let m := set_prev_size nb (if arena_last a =? 0 then 0 else blk_size m (arena_last a)) m in
  let first := if arena_first a =? 0 then nb else arena_first a in
  let a := MkArena (u64 (start + want)) first nb (tried a) (errno a) (map_reply a) m in
  let pb := blk_prev a nb in
  if negb (pb =? 0) && blk_free m pb then
    set_last (set_amem a (blk_set_size pb (u64 (blk_size m pb + HDR_SIZE + blk_size m nb)) true m)) pb
  else a.

(** [exyde_map]: the kernel's reply, or null with [errno] from [-4095 .. -1]. *)
Definition exyde_map (a : arena) : Z * arena :=
  let r := map_reply a in
  if (r <? 0) && (-4096 <? r) then (0, set_errno a (- r)) else (u64 r, a).

Definition arena_init_once (a : arena) : Z * arena :=
  if tried a then ((if arena_first a =? 0 then -1 else 0), a)
  else
    let '(p, a) := exyde_map (set_tried a) in
    if p =? 0 then (-1, a) else (0, arena_append a p ARENA_SIZE).

(** A walk visits every block once; a block takes at least 32 bytes. *)
Definition walk_fuel (a : arena) : nat := S (Z.to_nat ((arena_hi a - arena_first a) / 32)).

Fixpoint malloc_loop (fuel : nat) (need b : Z) (a : arena) : Z * arena :=
  match fuel with
  | O => (0, a)
  | S fuel =>
    if b =? 0 then (0, set_errno a ENOMEM)
    else if negb (blk_free (amem a) b) || (blk_size (amem a) b <? need) then malloc_loop fuel need (blk_next a b) a
    else (u64 (b + HDR_SIZE), split_block a b need)
  end.

Definition payload_need (size : Z) : Z :=
  let need := align_up size in
  if need <? MIN_PAYLOAD then MIN_PAYLOAD else need.

Definition malloc (size : Z) (a : arena) : Z * arena :=
  if size =? 0 then (0, a)
  else
    let need := payload_need size in
    let '(r, a) := if arena_first a =? 0 then arena_init_once a else (0, a) in
    if r <? 0 then (0, set_errno a ENOMEM)
    else malloc_loop (walk_fuel a) need (arena_first a) a.

(** The pointers [free] and [realloc] take for their own. *)
Definition ours (a : arena) (p : Z) : bool :=
  (Z.land p (ALIGNMENT - 1) =? 0) && negb (arena_first a =? 0) &&
  negb (p <? u64 (arena_first a + HDR_SIZE)) && negb (arena_hi a <=? p).

Definition free (ptr : Z) (a : arena) : arena :=
  if ptr =? 0 then a
  else if negb (ours a ptr) then a
  else
    let b := u64 (ptr - HDR_SIZE) in
    if blk_free (amem a) b then a
    else
      let a := set_amem a (blk_set_free b true (amem a)) in
      let nxt := blk_next a b in
      let a := if negb (nxt =? 0) && blk_free (amem a) nxt then absorb a b nxt true else a in
      let prv := blk_prev a b in
      if negb (prv =? 0) && blk_free (amem a) prv then absorb a prv b true else a.

Definition memcpy_cells (dst src n : Z) (m : gmap Z Z) : gmap Z Z :=
  foldl (fun m i => store_byte (dst + i) (load_byte m (src + i)) m) m (seqZ 0 n).

Definition realloc (ptr size : Z) (a : arena) : Z * arena :=
  if ptr =? 0 then malloc size a
  else if size =? 0 then (0, free ptr a)
  else if negb (ours a ptr) then (0, a)
  else
    let b := u64 (ptr - HDR_SIZE) in
    let cur := blk_size (amem a) b in
    let need := payload_need size in
    if need <=? cur then (ptr, split_block a b need)
    else
      let nxt := blk_next a b in
      let merged := u64 (cur + HDR_SIZE + blk_size (amem a) nxt) in
      if negb (nxt =? 0) && blk_free (amem a) nxt && (need <=? merged) then
        (ptr, split_block (absorb a b nxt false) b need)
      else
        let '(np, a) := malloc size a in
        if np =? 0 then (0, a)
        else
          let copy := if cur <? size then cur else size in
          (np, free ptr (set_amem a (memcpy_cells np ptr copy (amem a)))).

Definition calloc (nmemb size : Z) (a : arena) : Z * arena :=
  if negb (size =? 0) && (u64 (-1) / size <? nmemb) then (0, set_errno a ENOMEM)
  else
    let total := u64 (nmemb * size) in
    let '(p, a) := malloc total a in
    if p =? 0 then (0, a)
    else (p, set_amem a (foldl (fun m i => store_byte (p + i) 0 m) (amem a) (seqZ 0 total))).

(** ** The blocks of the arena

    A block list gives sizes and FREE bits in address order. *)

Notation blk := (Z * bool)%type.

Fixpoint span (L : list blk) : Z :=
  match L with [] => 0 | (sz, _) :: L => HDR_SIZE + sz + span L end.

(** The payload size of the last block of [L], [d] when it is empty. *)
Fixpoint lastsz (d : Z) (L : list blk) : Z :=
  match L with [] => d | (sz, _) :: L => lastsz sz L end.

(** What a header cell holds. *)
Definition enc (sz : Z) (fr : bool) : Z := sz + (if fr then 1 else 0).

Definition size_ok (sz : Z) : Prop := 16 <= sz <= ARENA_SIZE /\ sz mod 16 = 0.

(** The blocks [L] lie in memory from [b] on, after a block of size [ps]. *)
Fixpoint laid_out (m : gmap Z Z) (b ps : Z) (L : list blk) : Prop :=
  match L with
  | [] => True
  | (sz, fr) :: L => rd m b = enc sz fr /\ rd m (b + 8) = ps /\ size_ok sz /\ laid_out m (b + HDR_SIZE + sz) sz L
  end.

(** The live blocks, payload address and size. *)
Fixpoint lives (b : Z) (L : list blk) : list (Z * Z) :=
  match L with
  | [] => []
  | (sz, fr) :: L => (if fr : bool then [] else [(b + HDR_SIZE, sz)]) ++ lives (b + HDR_SIZE + sz) L
  end.

Fixpoint read_blocks (fuel : nat) (m : gmap Z Z) (b hi : Z) : list blk :=
  match fuel with
  | O => []
  | S fuel =>
    if b <? hi then (blk_size m b, blk_free m b) :: read_blocks fuel m (b + HDR_SIZE + blk_size m b) hi else []
  end.

Definition blocks_of (a : arena) : list blk :=
  if arena_first a =? 0 then [] else read_blocks (walk_fuel a) (amem a) (arena_first a) (arena_hi a).

Definition live_blocks (a : arena) : gmap Z Z := list_to_map (lives (arena_first a) (blocks_of a)).

(** The arena at [base .. base + ARENA_SIZE). *)
Definition base_ok (base : Z) : Prop := 0 < base /\ base mod 16 = 0 /\ base + ARENA_SIZE < 2 ^ 63.

Record arena_ok (a : arena) (L : list blk) : Prop := {
  ao_base : base_ok (arena_first a);
  ao_reply : arena_first a = map_reply a;
  ao_hi : arena_hi a = arena_first a + ARENA_SIZE;
  ao_span : span L = ARENA_SIZE;
  ao_laid : laid_out (amem a) (arena_first a) 0 L;
  ao_last : arena_last a = arena_hi a - HDR_SIZE - lastsz 0 L }.

(** Before the first call that maps it, or after the mapping failed. *)
Record arena_none (a : arena) : Prop := {
  an_first : arena_first a = 0;
  an_last : arena_last a = 0;
  an_reply : (-4096 < map_reply a < 0) \/ base_ok (map_reply a) }.

Definition arena_wf (a : arena) : Prop := arena_none a \/ exists L, arena_ok a L.

(** ** Header cells *)

Lemma mask_even x : 0 <= x < 2 ^ 64 -> Z.land x (u64 (Z.lnot FREE_BIT)) = x - x mod 2.
Proof. intros Hx. apply (land_align x 1); lia. Qed.

Lemma lor_bit x (fr : bool) : x mod 2 = 0 -> Z.lor x (if fr then FREE_BIT else 0) = enc x fr.
Proof.
  intros Hx. unfold enc. destruct fr; [|by rewrite Z.lor_0_r, Z.add_0_r].
  unfold FREE_BIT. pose proof (Z.add_lor_land x 1) as E. rewrite land_1, Hx in E. lia.
Qed.

Lemma size_ok_even sz : size_ok sz -> sz mod 2 = 0 /\ 0 <= sz < 2 ^ 63.
Proof. unfold size_ok, ARENA_SIZE. intros [? ?]. split; [Z.div_mod_to_equations; lia|lia]. Qed.

Lemma enc_range sz fr : size_ok sz -> 0 <= enc sz fr < 2 ^ 64.
Proof. intros H%size_ok_even. unfold enc. destruct fr; lia. Qed.

Lemma blk_size_enc m b sz fr : size_ok sz -> rd m b = enc sz fr -> blk_size m b = sz.
Proof.
  intros H E. pose proof (enc_range sz fr H). apply size_ok_even in H. unfold blk_size. rewrite E, mask_even by done.
  unfold enc. destruct fr; Z.div_mod_to_equations; lia.
Qed.

Lemma blk_free_enc m b sz fr : size_ok sz -> rd m b = enc sz fr -> blk_free m b = fr.
Proof.
  intros H E. apply size_ok_even in H as [H _]. unfold blk_free, FREE_BIT. rewrite E, land_1. unfold enc.
  destruct fr; [|by rewrite Z.add_0_r, H]. rewrite <- Z.add_mod_idemp_l, H by lia. done.
Qed.

Lemma blk_set_size_enc m b sz fr : size_ok sz -> blk_set_size b sz fr m = <[b := enc sz fr]> m.
Proof.
  intros H. apply size_ok_even in H as [H ?]. unfold blk_set_size. rewrite mask_even, H, Z.sub_0_r by lia. by rewrite lor_bit.
Qed.

Lemma blk_set_free_enc m b sz fr fr' :
  size_ok sz -> rd m b = enc sz fr -> blk_set_free b fr' m = <[b := enc sz fr']> m.
Proof.
  intros H E. unfold blk_set_free. rewrite E. pose proof (enc_range sz fr H). apply size_ok_even in H as [H ?].
  rewrite mask_even by done. replace (enc sz fr - enc sz fr mod 2) with sz; [by rewrite lor_bit|].
  unfold enc. destruct fr; Z.div_mod_to_equations; lia.
Qed.

Lemma align_up_spec n : 0 <= n < 2 ^ 64 - 15 -> n <= align_up n < n + 16 /\ align_up n mod 16 = 0.
Proof.
  intros Hn. unfold align_up, ALIGNMENT. rewrite u64_small by lia.
  change (u64 (Z.lnot (16 - 1))) with (align_mask 4). rewrite land_align by lia. change (2 ^ 4) with 16.
  Z.div_mod_to_equations. lia.
Qed.

Lemma payload_need_spec n : 0 < n < 2 ^ 64 - 15 -> n <= payload_need n < n + 16 /\ 16 <= payload_need n /\ payload_need n mod 16 = 0.
Proof.
  intros Hn. unfold payload_need, MIN_PAYLOAD, ALIGNMENT. cbv zeta. pose proof (align_up_spec n ltac:(lia)) as [? ?].
  assert (16 <= align_up n) by (Z.div_mod_to_equations; lia). zif; lia.
Qed.

(** ** Block lists *)

Lemma span_app L1 L2 : span (L1 ++ L2) = span L1 + span L2.
Proof. induction L1 as [|[sz fr] L IH]; simpl; [done|]. rewrite IH. lia. Qed.

Lemma lastsz_app d L1 L2 : lastsz d (L1 ++ L2) = lastsz (lastsz d L1) L2.
Proof. revert d. induction L1 as [|[sz fr] L IH]; intros d; simpl; [done|]. apply IH. Qed.

Lemma lives_app b L1 L2 : lives b (L1 ++ L2) = lives b L1 ++ lives (b + span L1) L2.
Proof.
  revert b. induction L1 as [|[sz fr] L IH]; intros b; simpl; [by rewrite Z.add_0_r|].
  rewrite IH, <- app_assoc, <- !Z.add_assoc. done.
Qed.

Lemma laid_app m b ps L1 L2 :
  laid_out m b ps (L1 ++ L2) <-> laid_out m b ps L1 /\ laid_out m (b + span L1) (lastsz ps L1) L2.
Proof.
  revert b ps. induction L1 as [|[sz fr] L IH]; intros b ps; simpl; [rewrite Z.add_0_r; tauto|].
  rewrite IH. replace (b + HDR_SIZE + sz + span L) with (b + (HDR_SIZE + sz + span L)) by lia. tauto.
Qed.

Lemma laid_sizes m b ps L : laid_out m b ps L -> Forall (fun x => size_ok (fst x)) L.
Proof. revert b ps. induction L as [|[sz fr] L IH]; intros b ps H; constructor; [apply H|]. destruct H as (_ & _ & _ & H). by eapply IH. Qed.

Lemma span_sizes L : Forall (fun x => size_ok (fst x)) L -> 0 <= span L /\ span L mod 16 = 0 /\ 32 * zlen L <= span L.
Proof.
  unfold zlen. induction 1 as [|[sz fr] L [[H1 H2] H3] _ IH]; [done|]. cbn [span length fst] in *. unfold HDR_SIZE in *.
  rewrite Nat2Z.inj_succ. split_and!; [lia| |lia]. destruct IH as (_ & IH & _). Z.div_mod_to_equations. lia.
Qed.

Lemma span_laid m b ps L : laid_out m b ps L -> 0 <= span L /\ span L mod 16 = 0 /\ 32 * zlen L <= span L.
Proof. intros H. by eapply span_sizes, laid_sizes. Qed.

(** The header cells of [L]; the layout depends on nothing else. *)
Fixpoint headers (b : Z) (L : list blk) : list Z :=
  match L with [] => [] | (sz, _) :: L => b :: headers (b + HDR_SIZE + sz) L end.

Lemma laid_frame m m' b ps L :
  (forall x, x ∈ headers b L -> rd m' x = rd m x /\ rd m' (x + 8) = rd m (x + 8)) ->
  laid_out m b ps L -> laid_out m' b ps L.
Proof.
  revert b ps. induction L as [|[sz fr] L IH]; intros b ps H; [done|]. intros (E1 & E2 & Sz & La).
  destruct (H b) as [F1 F2]; [left|]. cbn [laid_out]. rewrite F1, F2. split_and!; [done|done|done|]. apply IH; [|done]. intros x Hx. apply H. by right.
Qed.

Lemma headers_range m b ps L x : laid_out m b ps L -> x ∈ headers b L -> b <= x /\ x + 16 <= b + span L.
Proof.
  revert b ps. induction L as [|[sz fr] L IH]; intros b ps; [by intros _ ?%not_elem_of_nil|].
  intros (_ & _ & [[? ?] ?] & La). pose proof (span_laid _ _ _ _ La) as (? & _ & _). cbn [headers span]. unfold HDR_SIZE in *.
  intros [->|Hx]%elem_of_cons; [lia|]. apply (IH _ sz) in Hx; [lia|done].
Qed.

(** A write outside [[b, b + span L)] leaves the layout alone. *)
Lemma laid_outside m m' b ps L :
  (forall x, b <= x < b + span L -> rd m' x = rd m x) -> laid_out m b ps L -> laid_out m' b ps L.
Proof.
  intros H La. eapply laid_frame; [|done]. intros x Hx. pose proof (headers_range _ _ _ _ _ La Hx). split; apply H; lia.
Qed.

(** The prev_size of the first block is the only cell that depends on what precedes. *)
Lemma laid_prev m m' b ps ps' L :
  (forall x, b <= x < b + span L -> x <> b + 8 -> rd m' x = rd m x) -> (L <> [] -> rd m' (b + 8) = ps') ->
  laid_out m b ps L -> laid_out m' b ps' L.
Proof.
  destruct L as [|[sz fr] L]; [done|]. intros H1 H2 (E1 & E2 & Sz & La). pose proof Sz as [[? ?] ?].
  pose proof (span_laid _ _ _ _ La) as (? & _ & _). cbn [span] in H1. unfold HDR_SIZE in *.
  split_and!; [rewrite H1 by lia; done|by apply H2|done|]. eapply laid_outside; [|done].
  intros x Hx. apply H1; unfold HDR_SIZE in *; lia.
Qed.

Lemma lives_range m b ps L q sz : laid_out m b ps L -> (q, sz) ∈ lives b L ->
  b + 16 <= q /\ q + sz <= b + span L /\ size_ok sz /\ (b mod 16 = 0 -> q mod 16 = 0).
Proof.
  revert b ps. induction L as [|[s fr] L IH]; intros b ps; [by intros _ ?%not_elem_of_nil|].
  intros (_ & _ & Sz & La). pose proof (span_laid _ _ _ _ La) as (? & _ & _). pose proof Sz as [[? ?] ?].
  cbn [lives span]. unfold HDR_SIZE in *. intros [Hq|Hq]%elem_of_app.
  - destruct fr; [by apply not_elem_of_nil in Hq|]. apply list_elem_of_singleton in Hq as [= -> ->].
    split_and!; [lia|lia|done|]. Z.div_mod_to_equations. lia.
  - destruct (IH _ _ La Hq) as (? & ? & ? & Hm). split_and!; [lia|lia|done|]. intros Hb. apply Hm. Z.div_mod_to_equations. lia.
Qed.

(** Two live blocks are one or lie apart. *)
Lemma lives_apart m b ps L q sz q' sz' : laid_out m b ps L -> (q, sz) ∈ lives b L -> (q', sz') ∈ lives b L ->
  (q, sz) = (q', sz') \/ q + sz <= q' \/ q' + sz' <= q.
Proof.
  revert b ps. induction L as [|[s fr] L IH]; intros b ps; [by intros _ ?%not_elem_of_nil|].
  intros (_ & _ & Sz & La). cbn [lives]. unfold HDR_SIZE.
  intros [Hq|Hq]%elem_of_app [Hq'|Hq']%elem_of_app; [..|by eapply IH]; (destruct fr; [by apply not_elem_of_nil in Hq || by apply not_elem_of_nil in Hq'|]).
  - apply list_elem_of_singleton in Hq as [= -> ->]. apply list_elem_of_singleton in Hq' as [= -> ->]. by left.
  - apply list_elem_of_singleton in Hq as [= -> ->]. pose proof (lives_range _ _ _ _ _ _ La Hq'). unfold HDR_SIZE in *. lia.
  - apply list_elem_of_singleton in Hq' as [= -> ->]. pose proof (lives_range _ _ _ _ _ _ La Hq). unfold HDR_SIZE in *. lia.
Qed.

Lemma lives_nodup m b ps L : laid_out m b ps L -> NoDup (lives b L).*1.
Proof.
  revert b ps. induction L as [|[s fr] L IH]; intros b ps; [by constructor|]. intros (_ & _ & Sz & La).
  cbn [lives]. rewrite fmap_app. destruct fr; [by eapply IH|]. cbn [fmap list_fmap app]. constructor; [|by eapply IH].
  intros ([q sz] & E & Hq)%list_elem_of_fmap. simpl in E. subst q. destruct Sz as [[? ?] ?].
  destruct (lives_range _ _ _ _ _ _ La Hq). unfold HDR_SIZE in *. lia.
Qed.

Lemma lives_lookup m b ps L q sz : laid_out m b ps L ->
  (list_to_map (lives b L) : gmap Z Z) !! q = Some sz <-> (q, sz) ∈ lives b L.
Proof.
  intros La. symmetry. apply elem_of_list_to_map. by eapply lives_nodup.
Qed.

(** ** One step on a well-formed arena *)

(** Nothing but memory, [arena_last] and [errno] differs. *)
Definition same_arena (a a' : arena) : Prop :=
  arena_hi a' = arena_hi a /\ arena_first a' = arena_first a /\ tried a' = tried a /\ map_reply a' = map_reply a.

(** The cells of the blocks [ls] are kept. *)
Definition untouched (m m' : gmap Z Z) (ls : list (Z * Z)) : Prop :=
  forall q sz c, (q, sz) ∈ ls -> q <= c < q + sz -> rd m' c = rd m c.

#[export] Instance same_arena_refl : Reflexive same_arena.
Proof. intros a. by repeat split. Qed.

#[export] Instance same_arena_trans : Transitive same_arena.
Proof. intros a b c (? & ? & ? & ?) (? & ? & ? & ?). repeat split; congruence. Qed.

Lemma untouched_trans m1 m2 m3 ls : untouched m1 m2 ls -> untouched m2 m3 ls -> untouched m1 m3 ls.
Proof. intros H1 H2 q sz c Hq Hc. rewrite (H2 q sz c) by done. by apply (H1 q sz c). Qed.

Lemma untouched_sub m m' ls ls' : (forall x, x ∈ ls' -> x ∈ ls) -> untouched m m' ls -> untouched m m' ls'.
Proof. intros H U q sz c Hq. apply U. by apply H. Qed.

(** Where the parts of a well-formed arena are. *)
Record part (a : arena) (L1 M L2 : list blk) (s e : Z) : Prop := {
  pt_s : s = arena_first a + span L1;
  pt_e : e = s + span M;
  pt_hi : arena_hi a = e + span L2;
  pt_base : base_ok (arena_first a);
  pt_size : arena_hi a = arena_first a + ARENA_SIZE;
  pt_l1 : 0 <= span L1 /\ span L1 mod 16 = 0;
  pt_m : 0 <= span M /\ span M mod 16 = 0;
  pt_l2 : 0 <= span L2 /\ span L2 mod 16 = 0;
  pt_laid1 : laid_out (amem a) (arena_first a) 0 L1;
  pt_laidm : laid_out (amem a) s (lastsz 0 L1) M;
  pt_laid2 : laid_out (amem a) e (lastsz (lastsz 0 L1) M) L2 }.

Lemma parts a L1 M L2 : arena_ok a (L1 ++ M ++ L2) ->
  part a L1 M L2 (arena_first a + span L1) (arena_first a + span L1 + span M).
Proof.
  intros [Hb _ Hhi Hsp La _]. apply laid_app in La as [A1 La]. apply laid_app in La as [A2 A3].
  rewrite !span_app in Hsp. pose proof (span_laid _ _ _ _ A1) as (? & ? & _). pose proof (span_laid _ _ _ _ A2) as (? & ? & _).
  pose proof (span_laid _ _ _ _ A3) as (? & ? & _). split; try done. lia.
Qed.

Lemma span_nil m b ps L : laid_out m b ps L -> span L = 0 -> L = [].
Proof.
  destruct L as [|[sz fr] L]; [done|]. intros (_ & _ & [[? ?] ?] & La). pose proof (span_laid _ _ _ _ La) as (? & _ & _).
  cbn [span]. unfold HDR_SIZE. lia.
Qed.

(** Replacing the blocks [M] by [M'] of the same extent. *)
Lemma replace_spec a a' L1 M M' L2 s e :
  arena_ok a (L1 ++ M ++ L2) -> part a L1 M L2 s e -> same_arena a a' -> span M' = span M -> M' <> [] -> M <> [] ->
  (forall c, c < s \/ e <= c -> c <> e + 8 -> rd (amem a') c = rd (amem a) c) ->
  laid_out (amem a') s (lastsz 0 L1) M' ->
  (e <> arena_hi a -> rd (amem a') (e + 8) = lastsz 0 M') ->
  arena_last a' = (if decide (e = arena_hi a) then e - HDR_SIZE - lastsz 0 M' else arena_last a) ->
  arena_ok a' (L1 ++ M' ++ L2) /\ untouched (amem a) (amem a') (lives (arena_first a) L1 ++ lives e L2).
Proof.
  intros O P (S1 & S2 & S3 & S4) Sp N N0 F La Hp Hl. destruct P as [Es Ee Ehi Hb Hsz [? _] [? _] [? _] A1 A2 A3].
  assert (forall d, lastsz d M' = lastsz 0 M') as Ld by (intros d; by destruct M' as [|[? ?] ?]).
  assert (forall d, lastsz d M = lastsz 0 M) as Ldm by (intros d; by destruct M as [|[? ?] ?]).
  split.
  - destruct O as [_ Or _ Os _ Ol]. split; rewrite ?S1, ?S2, ?S4; try done.
    + rewrite !span_app in *. lia.
    + apply laid_app. split; [eapply laid_outside; [|done]; intros x Hx; apply F; lia|]. apply laid_app. rewrite Sp, <- Es, <- Ee.
      split; [done|]. rewrite Ld. eapply laid_prev; [| |exact A3]; [intros x Hx ?; apply F; lia|].
      intros HL. apply Hp. intros E. apply HL. apply (span_nil _ _ _ _ A3). lia.
    + rewrite Hl, !lastsz_app, (Ld (lastsz 0 L1)). rewrite !lastsz_app, (Ldm (lastsz 0 L1)) in Ol. case_decide as Hd.
      * rewrite (span_nil _ _ _ _ A3) by lia. simpl. lia.
      * rewrite Ol. destruct L2 as [|[? ?] ?]; [simpl in *; lia|done].
  - intros q sz c Hq Hc. apply F; apply elem_of_app in Hq as [Hq|Hq];
      [apply (lives_range _ _ _ _ _ _ A1) in Hq|apply (lives_range _ _ _ _ _ _ A3) in Hq|
       apply (lives_range _ _ _ _ _ _ A1) in Hq|apply (lives_range _ _ _ _ _ _ A3) in Hq]; lia.
Qed.

Lemma blk_next_spec a b sz fr :
  rd (amem a) b = enc sz fr -> size_ok sz -> 0 <= b -> b + 16 + sz <= arena_hi a < 2 ^ 63 ->
  blk_next a b = if decide (b + 16 + sz = arena_hi a) then 0 else b + 16 + sz.
Proof.
  intros E Sz Hb Hh. unfold blk_next, HDR_SIZE. rewrite (blk_size_enc _ _ _ _ Sz E). destruct Sz as [[? ?] ?].
  rewrite u64_small by lia. cbv zeta. case_decide; destruct (Z.leb_spec (arena_hi a) (b + 16 + sz)); lia.
Qed.

(** What [relink] does to the cells and to [arena_last]. *)
Lemma relink_spec a b sz fr v :
  rd (amem a) b = enc sz fr -> size_ok sz -> 0 <= b -> b + 16 + sz <= arena_hi a < 2 ^ 63 ->
  let e := b + 16 + sz in
  same_arena a (relink a b v) /\
  arena_last (relink a b v) = (if decide (e = arena_hi a) then b else arena_last a) /\
  amem (relink a b v) = (if decide (e = arena_hi a) then amem a else <[e + 8 := v]> (amem a)).
Proof.
  intros E Sz Hb Hh. cbv zeta. unfold relink. rewrite (blk_next_spec _ _ _ _ E) by done. cbv zeta. destruct Sz as [[? ?] ?].
  case_decide; cbn [Z.eqb]; [done|]. destruct (Z.eqb_spec (b + 16 + sz) 0); [lia|done].
Qed.

Ltac arith := unfold base_ok, size_ok, HDR_SIZE, ARENA_SIZE in *; Z.div_mod_to_equations; lia.

(** Changing the FREE bit of one block. *)
Lemma set_free_spec a L1 sz fr fr' L2 b :
  arena_ok a (L1 ++ [(sz, fr)] ++ L2) -> b = arena_first a + span L1 ->
  let a' := set_amem a (blk_set_free b fr' (amem a)) in
  arena_ok a' (L1 ++ [(sz, fr')] ++ L2) /\
  untouched (amem a) (amem a') (lives (arena_first a) L1 ++ lives (b + 16 + sz) L2) /\
  (forall c, c <> b -> rd (amem a') c = rd (amem a) c).
Proof.
  intros O Eb. cbv zeta. pose proof (parts _ _ _ _ O) as P. rewrite <- Eb in P. cbn [span] in P.
  pose proof (pt_laidm _ _ _ _ _ _ P) as (E1 & E2 & Sz & _). rewrite (blk_set_free_enc _ _ _ _ fr' Sz E1).
  replace (b + (HDR_SIZE + sz + 0)) with (b + 16 + sz) in P by arith.
  assert (forall c, c <> b -> rd (<[b:=enc sz fr']> (amem a)) c = rd (amem a) c) as F by (intros c Hc; by apply rd_insert_ne).
  apply and_assoc. split; [|done]. pose proof Sz as [[? ?] ?]. pose proof P as [Es Ee Ehi _ _ _ _ _ _ _ A3].
  apply (replace_spec a _ L1 [(sz, fr)] [(sz, fr')] L2 b (b + 16 + sz)); try done; cbn [amem set_amem arena_last].
  - intros c Hc _. apply F. lia.
  - split_and!; [by rewrite rd_insert, Z.eqb_refl|by rewrite F by lia|done|done].
  - intros Hne. rewrite F by lia. simpl in A3. destruct L2 as [|[? ?] ?]; [simpl in Ehi; lia|]. by destruct A3 as (_ & -> & _).
  - case_decide as Hd; [|done]. rewrite (ao_last _ _ O), !lastsz_app. rewrite (span_nil _ _ _ _ A3) by lia. simpl. lia.
Qed.

(** The blocks [split_block] leaves for a block of [sz] bytes cut to [need]. *)
Definition cut (sz need : Z) : list blk :=
  if sz <? need + 32 then [(sz, false)] else [(need, false); (sz - need - 16, true)].

Lemma split_spec a L1 sz fr L2 b need :
  arena_ok a (L1 ++ [(sz, fr)] ++ L2) -> b = arena_first a + span L1 -> size_ok need -> need <= sz ->
  let a' := split_block a b need in
  same_arena a a' /\ arena_ok a' (L1 ++ cut sz need ++ L2) /\
  untouched (amem a) (amem a') (lives (arena_first a) L1 ++ (b + 16, need) :: lives (b + 16 + sz) L2).
Proof.
  intros O Eb Sn Hn. cbv zeta. pose proof (parts _ _ _ _ O) as P. rewrite <- Eb in P. cbn [span] in P.
  pose proof (pt_laidm _ _ _ _ _ _ P) as (E1 & E2 & Sz & _).
  replace (b + (HDR_SIZE + sz + 0)) with (b + 16 + sz) in P by arith.
  assert (forall m', (forall c, b + 16 <= c < b + 16 + need -> rd m' c = rd (amem a) c) ->
    untouched (amem a) m' (lives (arena_first a) L1 ++ lives (b + 16 + sz) L2) ->
    untouched (amem a) m' (lives (arena_first a) L1 ++ (b + 16, need) :: lives (b + 16 + sz) L2)) as Un.
  { intros m' H1 H2 q s c Hq. apply elem_of_app in Hq as [Hq|[[= -> ->]|Hq]%elem_of_cons]; [|apply H1|];
      apply H2; apply elem_of_app; [by left|by right]. }
  unfold split_block, cut, MIN_PAYLOAD, ALIGNMENT, HDR_SIZE. rewrite (blk_size_enc _ _ _ _ Sz E1). cbv zeta.
  rewrite u64_small by arith. replace (need + 16 + 16) with (need + 32) by lia. zif.
  { destruct (set_free_spec a L1 sz fr false L2 b O Eb) as (O' & U & F). split_and!; [done|done|]. apply Un; [|done].
    intros c Hc. apply F. lia. }
  destruct P as [Es Ee Ehi Hb Hsz S1 Sm S2 A1 A2 A3] eqn:EP. clear EP.
  rewrite !u64_small by arith. assert (size_ok (sz - need - 16)) as St by arith.
  set (nb := b + 16 + need). set (t := sz - need - 16).
  rewrite (blk_set_size_enc _ nb t true) by done. unfold set_prev_size. rewrite (blk_set_size_enc _ b need false) by done.
  set (m := <[b := enc need false]> _).
  assert (rd m nb = enc t true) as En.
  { unfold m. rewrite !rd_insert. destruct (Z.eqb_spec nb b); [arith|]. destruct (Z.eqb_spec nb (nb + 8)); [lia|]. by rewrite Z.eqb_refl. }
  rewrite (blk_size_enc _ _ _ _ St En).
  destruct (relink_spec (set_amem a m) nb t true t En St) as (R1 & R2 & R3); [arith|cbn [arena_hi set_amem]; arith|].
  cbn [arena_hi arena_last amem set_amem] in R1, R2, R3. set (a' := relink _ nb t) in *.
  replace (nb + 16 + t) with (b + 16 + sz) in R2, R3 by lia.
  assert (forall c, c <> b -> c <> nb -> c <> nb + 8 -> rd m c = rd (amem a) c) as Fm.
  { intros c H1 H2 H3. unfold m. by rewrite !rd_insert_ne. }
  assert (forall c, c <> b + 16 + sz + 8 -> rd (amem a') c = rd m c) as Fa.
  { intros c Hc. rewrite R3. case_decide; [done|]. by rewrite rd_insert_ne. }
  split; [exact R1|].
  assert (arena_ok a' (L1 ++ [(need, false); (t, true)] ++ L2) /\
          untouched (amem a) (amem a') (lives (arena_first a) L1 ++ lives (b + 16 + sz) L2)) as [O' U].
  { apply (replace_spec a a' L1 [(sz, fr)] [(need, false); (t, true)] L2 b (b + 16 + sz)); try done.
    - cbn [span]. arith.
    - intros c Hc H8. rewrite Fa by done. apply Fm; arith.
    - cbn [laid_out]. rewrite !Fa by arith. split_and!; try done.
      + unfold m. by rewrite rd_insert, Z.eqb_refl.
      + by rewrite Fm by arith.
      + unfold m, nb, HDR_SIZE. rewrite !rd_insert. repeat (case_match; zb; try done; try arith).
    - intros Hne. rewrite R3. rewrite decide_False by done. by rewrite rd_insert, Z.eqb_refl.
    - rewrite R2. case_decide; [|done]. simpl. arith. }
  split; [done|]. apply Un; [|done]. intros c Hc. rewrite Fa by arith. apply Fm; arith.
Qed.

Lemma absorb_spec a L1 s1 f1 s2 f2 L2 b nxt fr :
  arena_ok a (L1 ++ [(s1, f1); (s2, f2)] ++ L2) -> b = arena_first a + span L1 -> nxt = b + 16 + s1 ->
  let a' := absorb a b nxt fr in
  same_arena a a' /\ arena_ok a' (L1 ++ [(s1 + 16 + s2, fr)] ++ L2) /\
  untouched (amem a) (amem a') (lives (arena_first a) L1 ++ lives (nxt + 16 + s2) L2) /\
  (forall c, b < c < nxt + 16 + s2 -> rd (amem a') c = rd (amem a) c).
Proof.
  intros O Eb En. cbv zeta. pose proof (parts _ _ _ _ O) as P. rewrite <- Eb in P. cbn [span] in P.
  replace (b + (HDR_SIZE + s1 + (HDR_SIZE + s2 + 0))) with (nxt + 16 + s2) in P by arith.
  destruct (pt_laidm _ _ _ _ _ _ P) as (E1 & E2 & Sz1 & E3 & E4 & Sz2 & _).
  replace (b + HDR_SIZE + s1) with nxt in E3, E4 by arith.
  destruct P as [Es Ee Ehi Hb Hsz S1 Sm S2 A1 A2 A3] eqn:EP. clear EP.
  assert (size_ok (s1 + 16 + s2)) as Sz by arith.
  unfold absorb, HDR_SIZE. rewrite (blk_size_enc _ _ _ _ Sz1 E1), (blk_size_enc _ _ _ _ Sz2 E3), u64_small by arith. cbv zeta.
  rewrite (blk_set_size_enc _ b _ fr Sz). set (m := <[b := _]> (amem a)).
  assert (rd m b = enc (s1 + 16 + s2) fr) as Em by (unfold m; by rewrite rd_insert, Z.eqb_refl).
  rewrite (blk_size_enc _ _ _ _ Sz Em).
  destruct (relink_spec (set_amem a m) b _ fr (s1 + 16 + s2) Em Sz) as (R1 & R2 & R3); [arith|cbn [arena_hi set_amem]; arith|].
  cbn [arena_hi arena_last amem set_amem] in R1, R2, R3. set (a' := relink _ b _) in *.
  replace (b + 16 + (s1 + 16 + s2)) with (nxt + 16 + s2) in R2, R3 by lia.
  assert (forall c, c <> b -> c <> nxt + 16 + s2 + 8 -> rd (amem a') c = rd (amem a) c) as F.
  { intros c H1 H2. rewrite R3. case_decide; unfold m; by rewrite !rd_insert_ne. }
  split; [exact R1|].
  apply and_assoc. split; [|intros c Hc; apply F; arith].
  apply (replace_spec a a' L1 [(s1, f1); (s2, f2)] [(s1 + 16 + s2, fr)] L2 b (nxt + 16 + s2)); try done.
  - cbn [span]. arith.
  - intros c Hc H8. apply F; arith.
  - cbn [laid_out]. split_and!; [|by rewrite F by arith|done|done].
    rewrite R3. case_decide; [done|]. by rewrite rd_insert_ne by arith.
  - intros Hne. rewrite R3, decide_False by done. by rewrite rd_insert, Z.eqb_refl.
  - rewrite R2. case_decide; [|done]. simpl. arith.
Qed.

(** ** free *)

Definition coalesce_next (a : arena) (b : Z) : arena :=
  let nxt := blk_next a b in
  if negb (nxt =? 0) && blk_free (amem a) nxt then absorb a b nxt true else a.

Definition coalesce_prev (a : arena) (b : Z) : arena :=
  let prv := blk_prev a b in
  if negb (prv =? 0) && blk_free (amem a) prv then absorb a prv b true else a.

Lemma coalesce_next_spec a L1 sz L2 b :
  arena_ok a (L1 ++ [(sz, true)] ++ L2) -> b = arena_first a + span L1 ->
  let a' := coalesce_next a b in
  same_arena a a' /\
  exists sz' L2', arena_ok a' (L1 ++ [(sz', true)] ++ L2') /\ lives (b + 16 + sz') L2' = lives (b + 16 + sz) L2 /\
    untouched (amem a) (amem a') (lives (arena_first a) L1 ++ lives (b + 16 + sz) L2).
Proof.
  intros O Eb. cbv zeta. pose proof (parts _ _ _ _ O) as P. rewrite <- Eb in P. cbn [span] in P.
  replace (b + (HDR_SIZE + sz + 0)) with (b + 16 + sz) in P by arith.
  destruct (pt_laidm _ _ _ _ _ _ P) as (E1 & _ & Sz & _). destruct P as [_ _ Ehi Hb Hsz S1 Sm S2 A1 A2 A3].
  unfold coalesce_next. rewrite (blk_next_spec _ _ _ _ E1 Sz) by arith. cbv zeta.
  case_decide as Hd; cbn [Z.eqb negb andb]; [split; [done|]; by exists sz, L2|].
  destruct (Z.eqb_spec (b + 16 + sz) 0); [arith|]. cbn [negb andb].
  destruct L2 as [|[s2 f2] L2]; [simpl in *; lia|]. destruct A3 as (E3 & _ & Sz2 & _).
  rewrite (blk_free_enc _ _ _ _ Sz2 E3). destruct f2; [|split; [done|]; by exists sz, ((s2, false) :: L2)].
  destruct (absorb_spec a L1 sz true s2 true L2 b (b + 16 + sz) true O Eb eq_refl) as (R & O' & U & _).
  split; [done|]. exists (sz + 16 + s2), L2. split; [done|]. cbn [lives app]. unfold HDR_SIZE.
  replace (b + 16 + sz + 16 + s2) with (b + 16 + (sz + 16 + s2)) in * by lia. done.
Qed.

Lemma blk_prev_spec a L1 s0 f0 sz fr L2 b :
  arena_ok a (L1 ++ [(s0, f0); (sz, fr)] ++ L2) -> b = arena_first a + span L1 + 16 + s0 -> blk_prev a b = b - 16 - s0.
Proof.
  intros O Eb. pose proof (parts _ _ _ _ O) as [_ _ Ehi Hb Hsz S1 Sm S2 A1 (E1 & E2 & Sz & E3 & E4 & Sz2 & _) A3].
  unfold blk_prev, blk_prev_size, HDR_SIZE in *. rewrite <- Eb in E4. rewrite E4. destruct (Z.eqb_spec s0 0); [arith|].
  rewrite u64_small by arith. zif; [arith|done].
Qed.

Lemma coalesce_prev_spec a L1 sz L2 b :
  arena_ok a (L1 ++ [(sz, true)] ++ L2) -> b = arena_first a + span L1 ->
  let a' := coalesce_prev a b in
  same_arena a a' /\
  exists L', arena_ok a' L' /\ lives (arena_first a) L' = lives (arena_first a) L1 ++ lives (b + 16 + sz) L2 /\
    untouched (amem a) (amem a') (lives (arena_first a) L1 ++ lives (b + 16 + sz) L2) /\ rd (amem a') b = rd (amem a) b.
Proof.
  intros O Eb. cbv zeta. unfold coalesce_prev.
  assert (lives (arena_first a) (L1 ++ [(sz, true)] ++ L2) = lives (arena_first a) L1 ++ lives (b + 16 + sz) L2) as El.
  { rewrite lives_app, <- Eb. done. }
  destruct L1 as [|[s0 f0] L1 _] using rev_ind.
  - pose proof (parts _ _ _ _ O) as [_ _ _ _ _ _ _ _ _ (_ & E2 & _) _]. unfold blk_prev, blk_prev_size. rewrite Eb, E2.
    cbn [lastsz Z.eqb negb andb]. split; [done|]. exists ([] ++ [(sz, true)] ++ L2). by rewrite <- Eb.
  - rewrite <- app_assoc in O. rewrite span_app in Eb. cbn [span app] in Eb.
    assert (b = arena_first a + span L1 + 16 + s0) as Eb' by arith.
    change ([(s0, f0)] ++ [(sz, true)] ++ L2) with ([(s0, f0); (sz, true)] ++ L2) in O.
    rewrite (blk_prev_spec _ _ _ _ _ _ _ _ O Eb'). cbv zeta.
    pose proof (parts _ _ _ _ O) as [_ _ Ehi Hb Hsz S1 Sm S2 A1 (E1 & E2 & Sz & E3 & E4 & Sz2 & _) A3].
    destruct (Z.eqb_spec (b - 16 - s0) 0) as [|]; [arith|]. cbn [negb andb].
    replace (b - 16 - s0) with (arena_first a + span L1) by lia. rewrite (blk_free_enc _ _ _ _ Sz E1).
    destruct f0.
    + destruct (absorb_spec a L1 s0 true sz true L2 (arena_first a + span L1) b true O eq_refl) as (R & O' & U & F); [lia|].
      rewrite lives_app. cbn [lives app]. rewrite app_nil_r. split; [done|]. eexists. split; [exact O'|].
      split; [|split; [done|apply F; arith]].
      rewrite lives_app. cbn [lives app]. unfold HDR_SIZE. f_equal. f_equal. lia.
    + split; [done|]. eexists. split; [exact O|]. split; [|done]. rewrite <- El. by rewrite <- app_assoc.
Qed.

Lemma ours_spec a L p : arena_ok a L -> p mod 16 = 0 -> arena_first a + 16 <= p < arena_hi a -> ours a p = true.
Proof.
  intros O Hm Hp. destruct (ao_base _ _ O) as (? & ? & ?). pose proof (ao_hi _ _ O). unfold ours, ALIGNMENT, HDR_SIZE.
  change (16 - 1) with (2 ^ 4 - 1). rewrite land_low by lia. change (2 ^ 4) with 16. rewrite Hm, u64_small by arith.
  repeat (apply andb_true_intro; split); [done|..]; apply negb_true_iff; [apply Z.eqb_neq|apply Z.ltb_ge|apply Z.leb_gt]; lia.
Qed.

Lemma arena_free_spec a L1 sz L2 p :
  arena_ok a (L1 ++ [(sz, false)] ++ L2) -> p = arena_first a + span L1 + 16 ->
  let a' := free p a in
  same_arena a a' /\
  exists L', arena_ok a' L' /\ lives (arena_first a) L' = lives (arena_first a) L1 ++ lives (p + sz) L2 /\
    untouched (amem a) (amem a') (lives (arena_first a) L1 ++ lives (p + sz) L2) /\ blk_free (amem a') (p - 16) = true.
Proof.
  intros O Ep. cbv zeta. pose proof (parts _ _ _ _ O) as [_ _ Ehi Hb Hsz S1 Sm S2 A1 (E1 & E2 & Sz & _) A3].
  set (b := arena_first a + span L1) in *. cbn [span] in *. unfold free.
  destruct (Z.eqb_spec p 0); [arith|]. rewrite (ours_spec _ _ _ O) by arith. cbn [negb].
  replace (u64 (p - HDR_SIZE)) with b by (rewrite u64_small; arith). rewrite (blk_free_enc _ _ _ _ Sz E1).
  destruct (set_free_spec a L1 sz false true L2 b O eq_refl) as (O1 & U1 & _). set (a1 := set_amem a _) in *.
  change (let nxt := blk_next a1 b in _) with (coalesce_prev (coalesce_next a1 b) b).
  destruct (coalesce_next_spec a1 L1 sz L2 b O1 eq_refl) as (R2 & sz' & L2' & O2 & E & U2). set (a2 := coalesce_next a1 b) in *.
  assert (arena_first a2 = arena_first a) as Ef by (destruct R2 as (_ & -> & _); done).
  destruct (coalesce_prev_spec a2 L1 sz' L2' b O2) as (R3 & L' & O3 & E' & U3 & Fb); [by rewrite Ef|].
  rewrite E, Ef in E', U3. replace (b + 16 + sz) with (p + sz) in * by lia.
  split; [by transitivity a2|]. exists L'. split; [done|]. split; [done|].
  split; [by do 2 (eapply untouched_trans; [eassumption|])|].
  pose proof (parts _ _ _ _ O2) as [_ _ _ _ _ _ _ _ _ (E2' & _ & Sz2 & _) _]. rewrite Ef in E2'.
  replace (p - 16) with b by lia. exact (blk_free_enc _ _ _ _ Sz2 (eq_trans Fb E2')).
Qed.

(** ** malloc *)

Lemma walk_fuel_spec a L : arena_ok a L -> (length L < walk_fuel a)%nat.
Proof.
  intros [_ _ Hhi Hs La _]. pose proof (span_laid _ _ _ _ La) as (_ & _ & H). unfold walk_fuel, zlen in *.
  assert (Z.of_nat (length L) <= (arena_hi a - arena_first a) / 32) by (apply Z.div_le_lower_bound; lia). lia.
Qed.

Lemma read_blocks_spec m b ps L fuel :
  laid_out m b ps L -> (length L < fuel)%nat -> read_blocks fuel m b (b + span L) = L.
Proof.
  revert b ps fuel. induction L as [|[sz fr] L IH]; intros b ps fuel La Hf; (destruct fuel as [|fuel]; [simpl in Hf; lia|]).
  - cbn [span read_blocks]. destruct (Z.ltb_spec b (b + 0)); [lia|done].
  - destruct La as (E1 & E2 & Sz & La). pose proof (span_laid _ _ _ _ La) as (? & _ & _).
    cbn [span read_blocks]. destruct (Z.ltb_spec b (b + (HDR_SIZE + sz + span L))); [|arith].
    rewrite (blk_size_enc _ _ _ _ Sz E1), (blk_free_enc _ _ _ _ Sz E1). f_equal.
    replace (b + (HDR_SIZE + sz + span L)) with (b + HDR_SIZE + sz + span L) by lia.
    eapply IH; [done|]. simpl in Hf. lia.
Qed.

Lemma blocks_spec a L : arena_ok a L -> blocks_of a = L.
Proof.
  intros O. unfold blocks_of. destruct (ao_base _ _ O) as (? & _ & _). destruct (Z.eqb_spec (arena_first a) 0); [lia|].
  rewrite (ao_hi _ _ O), <- (ao_span _ _ O). eapply read_blocks_spec; [apply (ao_laid _ _ O)|]. by apply walk_fuel_spec.
Qed.

Lemma live_spec a L : arena_ok a L -> live_blocks a = list_to_map (lives (arena_first a) L).
Proof. intros O. unfold live_blocks. by rewrite (blocks_spec _ _ O). Qed.

Lemma live_elem a L q sz : arena_ok a L -> live_blocks a !! q = Some sz <-> (q, sz) ∈ lives (arena_first a) L.
Proof. intros O. rewrite (live_spec _ _ O). eapply lives_lookup, (ao_laid _ _ O). Qed.

(** One more live block between two groups. *)
Lemma arena_live_insert (ls1 ls2 : list (Z * Z)) p sz : p ∉ ls1.*1 ->
  list_to_map (ls1 ++ (p, sz) :: ls2) = <[p := sz]> (list_to_map (ls1 ++ ls2) : gmap Z Z).
Proof.
  intros H. rewrite !list_to_map_app, list_to_map_cons. symmetry. apply insert_union_r. by apply not_elem_of_list_to_map_1.
Qed.

Definition fits (need : Z) (x : blk) : Prop := snd x = true /\ need <= fst x.

Lemma malloc_loop_spec a L1 L2 need fuel b :
  arena_ok a (L1 ++ L2) -> b = (if decide (L2 = []) then 0 else arena_first a + span L1) -> (length L2 < fuel)%nat ->
  (Forall (fun x => ~ fits need x) L2 /\ malloc_loop fuel need b a = (0, set_errno a ENOMEM)) \/
  exists L3 sz L4, L2 = L3 ++ [(sz, true)] ++ L4 /\ need <= sz /\ Forall (fun x => ~ fits need x) L3 /\
    let c := arena_first a + span (L1 ++ L3) in malloc_loop fuel need b a = (c + 16, split_block a c need).
Proof.
  revert L1 b fuel. induction L2 as [|[sz fr] L2 IH]; intros L1 b fuel O Eb Hf; (destruct fuel as [|fuel]; [simpl in Hf; lia|]).
  { left. split; [constructor|]. subst b. done. }
  rewrite decide_False in Eb by done. cbn [malloc_loop].
  pose proof (parts a L1 [(sz, fr)] L2 O) as [_ _ Ehi Hb Hsz S1 Sm S2 A1 (E1 & E2 & Sz & _) A3]. rewrite <- Eb in *. cbn [span] in *.
  destruct (Z.eqb_spec b 0); [arith|]. rewrite (blk_free_enc _ _ _ _ Sz E1), (blk_size_enc _ _ _ _ Sz E1).
  destruct (negb fr || (sz <? need)) eqn:Ef.
  - assert (~ fits need (sz, fr)) as Nf.
    { intros [H1 H2]. simpl in *. subst fr. simpl in Ef. apply Z.ltb_lt in Ef. lia. }
    rewrite (blk_next_spec _ _ _ _ E1 Sz) by arith.
    destruct (IH (L1 ++ [(sz, fr)]) (if decide (b + 16 + sz = arena_hi a) then 0 else b + 16 + sz) fuel) as [[F E]|(L3 & s & L4 & -> & H1 & H2 & E)].
    + by rewrite <- app_assoc.
    + rewrite span_app. cbn [span]. destruct (decide (L2 = [])) as [->|HL].
      * rewrite decide_True by (simpl in *; arith). done.
      * rewrite decide_False; [arith|]. intros Hd. apply HL, (span_nil _ _ _ _ A3). arith.
    + simpl in Hf. lia.
    + left. split; [by constructor|done].
    + right. exists ((sz, fr) :: L3), s, L4. split; [done|]. split; [done|]. split; [by constructor|]. by rewrite <- app_assoc in E.
  - apply orb_false_elim in Ef as [Hfr Hn]. apply negb_false_iff in Hfr. subst fr. zb. right.
    exists [], sz, L2. rewrite app_nil_r, <- Eb. unfold HDR_SIZE. rewrite u64_small by arith. done.
Qed.

(** The arena right after it has been mapped: one free block. *)
Lemma init_spec a : arena_none a ->
  let '(r, a') := arena_init_once a in
  map_reply a' = map_reply a /\
  if tried a || (map_reply a <? 0) then r = -1 /\ arena_none a'
  else r = 0 /\ arena_ok a' [(ARENA_SIZE - 16, true)] /\ arena_first a' = map_reply a.
Proof.
  intros [Hf Hl Hr]. unfold arena_init_once. destruct (tried a) eqn:Et.
  { rewrite Hf. by repeat split. }
  cbn [orb]. unfold exyde_map. cbn [map_reply set_tried]. destruct Hr as [Hr|Hr].
  { assert ((map_reply a <? 0) = true) as -> by (apply Z.ltb_lt; lia).
    assert ((-4096 <? map_reply a) = true) as -> by (apply Z.ltb_lt; lia). cbn [andb Z.eqb].
    split; [done|]. split; [done|]. split; [done|done|by left]. }
  destruct (Z.ltb_spec (map_reply a) 0); [arith|]. cbn [andb]. rewrite u64_small by arith.
  destruct (Z.eqb_spec (map_reply a) 0); [arith|]. set (p := map_reply a) in *. unfold arena_append.
  cbn [arena_first arena_last set_tried amem]. rewrite Hf, Hl. cbn [Z.eqb].
  assert (size_ok (ARENA_SIZE - 16)) as Sz by (split; done).
  replace (u64 (ARENA_SIZE - HDR_SIZE)) with (ARENA_SIZE - 16) by done. rewrite (blk_set_size_enc _ _ _ _ Sz).
  set (m := set_prev_size p 0 _). set (a1 := MkArena _ _ _ _ _ _ m).
  assert (blk_prev a1 p = 0) as -> by (unfold blk_prev, blk_prev_size, a1, m, set_prev_size; cbn [amem]; by rewrite rd_insert, Z.eqb_refl).
  cbn [Z.eqb negb andb]. split; [done|]. split; [done|]. split; [|done].
  assert (u64 (p + ARENA_SIZE) = p + ARENA_SIZE) as Eh by (apply u64_small; arith).
  split; unfold a1; cbn [arena_first arena_hi arena_last amem]; rewrite ?Eh; try done; [|simpl; arith].
  cbn [laid_out]. unfold m, set_prev_size. rewrite !rd_insert. destruct (Z.eqb_spec p (p + 8)); [lia|].
  by rewrite !Z.eqb_refl.
Qed.

Lemma live_none a : arena_first a = 0 -> live_blocks a = ∅.
Proof. intros E. unfold live_blocks, blocks_of. by rewrite E. Qed.

(** One allocation of [size] bytes that returned [p]. *)
Record malloc_step (a : arena) (size p : Z) (a' : arena) : Prop := {
  ms_wf : arena_wf a';
  ms_reply : map_reply a' = map_reply a;
  ms_fail : p = 0 -> live_blocks a' = live_blocks a /\ errno a' = ENOMEM /\
              (arena_first a' = 0 \/ Forall (fun x => ~ fits (payload_need size) x) (blocks_of a'));
  ms_ok : p <> 0 -> p mod 16 = 0 /\ live_blocks a !! p = None /\
            exists sz, size <= sz /\ live_blocks a' = <[p := sz]> (live_blocks a) /\
              arena_first a' + 16 <= p /\ p + sz <= arena_first a' + ARENA_SIZE /\
              forall q sz', live_blocks a !! q = Some sz' -> p + sz <= q \/ q + sz' <= p;
  ms_kept : forall q sz c, live_blocks a !! q = Some sz -> q <= c < q + sz -> rd (amem a') c = rd (amem a) c }.

(** What a cut leaves live. *)
Lemma cut_lives f L1 sz need L2 : need <= sz ->
  let c := f + span L1 in
  exists s, need <= s <= sz /\ lives f (L1 ++ cut sz need ++ L2) = lives f L1 ++ (c + 16, s) :: lives (c + 16 + sz) L2.
Proof.
  intros Hn. cbv zeta. rewrite lives_app. unfold cut. set (c := f + span L1). zif; [by exists sz|]. exists need.
  cbn [lives app]. unfold HDR_SIZE. split; [lia|].
  by replace (c + 16 + need + 16 + (sz - need - 16)) with (c + 16 + sz) by lia.
Qed.

(** Cutting a free block at [c] makes its payload live. *)
Lemma cut_step a L1 sz L2 size :
  arena_ok a (L1 ++ [(sz, true)] ++ L2) -> 0 < size < 2 ^ 64 - 15 -> payload_need size <= sz ->
  let c := arena_first a + span L1 in malloc_step a size (c + 16) (split_block a c (payload_need size)).
Proof.
  intros O Hs Hn. cbv zeta. pose proof (payload_need_spec size Hs) as (Hp1 & Hp2 & Hp3). set (need := payload_need size) in *.
  pose proof (parts _ _ _ _ O) as [_ _ Ehi Hb Hsz S1 Sm S2 A1 (E1 & E2 & Sz & _) A3].
  set (c := arena_first a + span L1) in *. cbn [span] in *.
  destruct (split_spec a L1 sz true L2 c need O eq_refl) as (R & O' & U); [arith|done|]. set (a' := split_block a c need) in *.
  assert (arena_first a' = arena_first a) as Ef by (by destruct R as (_ & ? & _)).
  replace (c + (HDR_SIZE + sz + 0)) with (c + 16 + sz) in A3 by arith.
  assert (lives (arena_first a) (L1 ++ [(sz, true)] ++ L2) = lives (arena_first a) L1 ++ lives (c + 16 + sz) L2) as El.
  { by rewrite lives_app. }
  destruct (cut_lives (arena_first a) L1 sz need L2 Hn) as (s & Hss & El'). fold c in El'.
  assert (forall q s', live_blocks a !! q = Some s' -> (q, s') ∈ lives (arena_first a) L1 ++ lives (c + 16 + sz) L2) as Hin.
  { intros q s' Hq%(live_elem _ _ _ _ O). by rewrite El in Hq. }
  assert (forall q s', (q, s') ∈ lives (arena_first a) L1 ++ lives (c + 16 + sz) L2 -> (c + 16) + s <= q \/ q + s' <= c + 16) as Hd.
  { intros q s' [Hq|Hq]%elem_of_app; [apply (lives_range _ _ _ _ _ _ A1) in Hq|apply (lives_range _ _ _ _ _ _ A3) in Hq]; lia. }
  split.
  - right. eauto.
  - by destruct R as (_ & _ & _ & ?).
  - arith.
  - intros _. split; [arith|]. split.
    { destruct (live_blocks a !! (c + 16)) as [s'|] eqn:E; [|done]. pose proof (proj1 (live_elem _ _ _ _ O) E) as Hq.
      pose proof (lives_range _ _ _ _ _ _ (ao_laid _ _ O) Hq) as (_ & _ & [? ?] & _). apply Hin, Hd in E. arith. }
    exists s. split; [lia|]. rewrite (live_spec _ _ O), (live_spec _ _ O'), Ef, El, El'. split.
    { apply arena_live_insert. intros ([q s'] & E & Hq)%list_elem_of_fmap. simpl in E. subst q.
      apply (lives_range _ _ _ _ _ _ A1) in Hq. arith. }
    split; [arith|]. split; [arith|]. intros q s' Hq. apply Hd. rewrite <- El.
    by apply (live_elem _ _ _ _ O); rewrite (live_spec _ _ O), El.
  - intros q s' x Hq Hx. apply (U q s'); [|done]. apply Hin in Hq. apply elem_of_app in Hq as [Hq|Hq]; apply elem_of_app; [by left|right; by right].
Qed.

Lemma arena_malloc_spec a size p a' :
  arena_wf a -> 0 < size < 2 ^ 64 - 15 -> malloc size a = (p, a') -> malloc_step a size p a'.
Proof.
  assert (forall a L, arena_ok a L -> 0 < size < 2 ^ 64 - 15 ->
    malloc_loop (walk_fuel a) (payload_need size) (arena_first a) a = (p, a') -> malloc_step a size p a') as Main.
  { intros b L O Hs E.
    destruct (malloc_loop_spec b [] L (payload_need size) (walk_fuel b) (arena_first b)) as [[F E']|(L3 & sz & L4 & -> & H1 & _ & E')].
    - done.
    - destruct L; [exfalso; by pose proof (ao_span _ _ O)|]. simpl. lia.
    - by apply walk_fuel_spec.
    - rewrite E in E'. injection E' as -> ->. split; [right; exists L; by destruct O|done|intros _|done|done].
      split; [done|]. split; [done|]. right. change (blocks_of (set_errno b ENOMEM)) with (blocks_of b). by rewrite (blocks_spec _ _ O).
    - cbv zeta in E'. rewrite E in E'. injection E' as -> ->. by apply (cut_step b L3 sz L4). }
  intros W Hs. unfold malloc. destruct (Z.eqb_spec size 0); [lia|]. cbv zeta. destruct W as [N|[L O]].
  - rewrite (an_first _ N). cbn [Z.eqb]. pose proof (init_spec a N) as I. destruct (arena_init_once a) as [r a1].
    destruct I as [Er I]. pose proof (live_none a (an_first _ N)) as El. destruct (tried a || (map_reply a <? 0)).
    + destruct I as [-> N1]. cbn [Z.ltb]. change (-1 <? 0) with true. cbv iota. intros [= <- <-].
      assert (arena_none (set_errno a1 ENOMEM)) as N2 by (destruct N1; by split).
      split; [by left|done|intros _|done|by rewrite El].
      rewrite El, (live_none _ (an_first _ N2)). split; [done|]. split; [done|]. left. by apply N2.
    + destruct I as (-> & O & _). change (0 <? 0) with false. cbv iota. intros E.
      pose proof (live_spec _ _ O) as El1. destruct (Main a1 _ O Hs E) as [M1 Mr M2 M3 M4].
      assert (live_blocks a1 = live_blocks a) as Eq by (rewrite El1, El; done). rewrite Eq in *. split; try done; [congruence|by rewrite El].
  - destruct (ao_base _ _ O) as (? & _ & _). destruct (Z.eqb_spec (arena_first a) 0); [lia|]. change (0 <? 0) with false. cbv iota.
    by eapply Main.
Qed.

(** ** free, realloc, calloc on the live blocks *)

Lemma lives_split m b ps L q sz : laid_out m b ps L -> (q, sz) ∈ lives b L ->
  exists L1 L2, L = L1 ++ [(sz, false)] ++ L2 /\ q = b + span L1 + 16.
Proof.
  revert b ps. induction L as [|[s fr] L IH]; intros b ps; [by intros _ ?%not_elem_of_nil|].
  intros (_ & _ & _ & La). cbn [lives]. intros [Hq|Hq]%elem_of_app.
  - destruct fr; [by apply not_elem_of_nil in Hq|]. apply list_elem_of_singleton in Hq as [= -> ->].
    exists [], L. split; [done|]. simpl. unfold HDR_SIZE. lia.
  - destruct (IH _ _ La Hq) as (L1 & L2 & -> & ->). exists ((s, fr) :: L1), L2. split; [done|]. cbn [span]. lia.
Qed.

(** The place of a live block. *)
Lemma live_place a p sz : arena_wf a -> live_blocks a !! p = Some sz ->
  exists L1 L2, arena_ok a (L1 ++ [(sz, false)] ++ L2) /\ p = arena_first a + span L1 + 16 /\
    lives (arena_first a) (L1 ++ [(sz, false)] ++ L2) = lives (arena_first a) L1 ++ (p, sz) :: lives (p + sz) L2 /\
    p ∉ (lives (arena_first a) L1 ++ lives (p + sz) L2).*1.
Proof.
  intros [N|[L O]] Hq; [by rewrite (live_none _ (an_first _ N)) in Hq|].
  destruct (lives_split _ _ _ _ _ _ (ao_laid _ _ O) (proj1 (live_elem _ _ _ _ O) Hq)) as (L1 & L2 & -> & Ep).
  assert (lives (arena_first a) (L1 ++ [(sz, false)] ++ L2) = lives (arena_first a) L1 ++ (p, sz) :: lives (p + sz) L2) as El.
  { rewrite lives_app. cbn [lives app]. unfold HDR_SIZE. rewrite <- !Ep. done. }
  exists L1, L2. split_and!; [done..|]. pose proof (lives_nodup _ _ _ _ (ao_laid _ _ O)) as Nd. rewrite El, fmap_app in Nd.
  cbn [fmap list_fmap fst] in Nd. rewrite <- Permutation_middle in Nd. apply NoDup_cons in Nd as [Nd _]. by rewrite fmap_app.
Qed.

Lemma notin_app_l (ls1 ls2 : list (Z * Z)) p : p ∉ (ls1 ++ ls2).*1 -> p ∉ ls1.*1.
Proof. rewrite fmap_app, not_elem_of_app. by intros [? _]. Qed.

Lemma not_ours a p : arena_wf a -> 0 <= p < 2 ^ 64 ->
  p mod 16 <> 0 \/ p < arena_first a + 16 \/ arena_hi a <= p -> ours a p = false.
Proof.
  intros W Hp H. unfold ours, ALIGNMENT, HDR_SIZE. change (16 - 1) with (2 ^ 4 - 1). rewrite land_low by lia.
  change (2 ^ 4) with 16. destruct W as [N|[L O]].
  - rewrite (an_first _ N). cbn [Z.eqb negb andb]. by rewrite andb_false_r.
  - destruct (ao_base _ _ O) as (? & ? & ?). rewrite u64_small by arith. apply not_true_is_false. intros T.
    repeat (apply andb_prop in T as [T ?]). zb. lia.
Qed.

(** A pointer into the arena whose block is free already. *)
Lemma refree a L p : arena_ok (free p a) L -> same_arena a (free p a) -> p mod 16 = 0 -> arena_first a + 16 <= p < arena_hi a ->
  blk_free (amem (free p a)) (p - 16) = true -> free p (free p a) = free p a.
Proof.
  intros O (E1 & E2 & _) Hm Hp Hf. set (a1 := free p a) in *. unfold free. destruct (Z.eqb_spec p 0); [done|].
  rewrite (ours_spec a1 L) by (done || (rewrite ?E1, ?E2; lia)). cbn [negb]. unfold HDR_SIZE.
  pose proof (ao_base _ _ O). pose proof (ao_hi _ _ O). rewrite u64_small by (rewrite ?E1, ?E2 in *; arith). by rewrite Hf.
Qed.

Lemma free_step a p sz : arena_wf a -> live_blocks a !! p = Some sz ->
  arena_wf (free p a) /\ live_blocks (free p a) = delete p (live_blocks a) /\ same_arena a (free p a) /\
  (forall q s c, live_blocks a !! q = Some s -> q <> p -> q <= c < q + s -> rd (amem (free p a)) c = rd (amem a) c) /\
  free p (free p a) = free p a.
Proof.
  intros W Hq. destruct (live_place _ _ _ W Hq) as (L1 & L2 & O & Ep & El & Np).
  destruct (arena_free_spec a L1 sz L2 p O Ep) as (R & L' & O' & El' & U & Fb). split; [right; eauto|].
  assert (arena_first (free p a) = arena_first a) as Ef by (by destruct R as (_ & ? & _)). split.
  - rewrite (live_spec _ _ O), (live_spec _ _ O'), Ef, El, El', arena_live_insert by by eapply notin_app_l.
    symmetry. apply delete_insert_id. by apply not_elem_of_list_to_map_1.
  - split; [done|]. pose proof (parts _ _ _ _ O) as [_ _ Ehi Hb Hsz S1 Sm S2 _ (_ & _ & Sz & _) _]. cbn [span] in *.
    split; [|by apply (refree a L'); [..|arith|arith|]].
    intros q s c Hl Hne. apply U. apply (live_elem _ _ _ _ O) in Hl. rewrite El in Hl.
    apply elem_of_app in Hl as [Hl|[[=]|Hl]%elem_of_cons]; [apply elem_of_app; by left|done|apply elem_of_app; by right].
Qed.

(** Headers are outside payloads. *)
Lemma header_payload m b ps L q sz x : laid_out m b ps L -> (q, sz) ∈ lives b L -> x ∈ headers b L -> x + 16 <= q \/ q + sz <= x.
Proof.
  revert b ps. induction L as [|[s fr] L IH]; intros b ps; [by intros _ ?%not_elem_of_nil|].
  intros (E1 & E2 & Sz & La) Hq Hx. cbn [lives headers] in Hq, Hx. apply elem_of_cons in Hx as [->|Hx].
  - apply (lives_range m b ps ((s, fr) :: L)) in Hq; [lia|done].
  - pose proof (headers_range _ _ _ _ _ La Hx). apply elem_of_app in Hq as [Hq|Hq]; [|by eapply IH].
    destruct fr; [by apply not_elem_of_nil in Hq|]. apply list_elem_of_singleton in Hq as [= -> ->]. right. lia.
Qed.

(** The program may write its own blocks. *)
Lemma write_payload a p sz m' : arena_wf a -> live_blocks a !! p = Some sz ->
  (forall c, ~ (p <= c < p + sz) -> rd m' c = rd (amem a) c) ->
  arena_wf (set_amem a m') /\ live_blocks (set_amem a m') = live_blocks a.
Proof.
  intros [N|[L O]] Hq F; [by rewrite (live_none _ (an_first _ N)) in Hq|].
  apply (live_elem _ _ _ _ O) in Hq.
  assert (arena_ok (set_amem a m') L) as O'.
  { destruct O as [O1 Or O2 O3 O4 O5]. split; try done. eapply laid_frame; [|exact O4]. intros x Hx.
    destruct (header_payload _ _ _ _ _ _ _ O4 Hq Hx); split; apply F; lia. }
  split; [right; eauto|]. by rewrite (live_spec _ _ O), (live_spec _ _ O').
Qed.

(** Bytes of a live block are a function of its cells. *)
Lemma live_bytes a m p sz i : arena_wf a -> live_blocks a !! p = Some sz -> 0 <= i < sz ->
  (forall c, p <= c < p + sz -> rd m c = rd (amem a) c) -> load_byte m (p + i) = load_byte (amem a) (p + i).
Proof.
  intros W Hq Hi F. destruct (live_place _ _ _ W Hq) as (L1 & L2 & O & _). apply (live_elem _ _ _ _ O) in Hq.
  apply load_byte_ext, F. pose proof (lives_range _ _ _ _ _ _ (ao_laid _ _ O) Hq) as (_ & _ & [? ?] & Hm).
  specialize (Hm (proj1 (proj2 (ao_base _ _ O)))). arith.
Qed.

(** [q] and the other live blocks of [a] hold the bytes they held. *)
Definition bytes_kept (a a' : arena) (but : Z) : Prop :=
  forall q sz i, live_blocks a !! q = Some sz -> q <> but -> 0 <= i < sz ->
    load_byte (amem a') (q + i) = load_byte (amem a) (q + i).

Lemma kept_bytes a a' but : arena_wf a ->
  (forall q sz c, live_blocks a !! q = Some sz -> q <> but -> q <= c < q + sz -> rd (amem a') c = rd (amem a) c) ->
  bytes_kept a a' but.
Proof. intros W K q sz i Hq Hne Hi. apply (live_bytes a _ q sz); [done..|]. intros c Hc. by eapply K. Qed.

Lemma malloc_kept a size p a' but : arena_wf a -> malloc_step a size p a' -> bytes_kept a a' but.
Proof. intros W [_ _ _ _ K]. apply kept_bytes; [done|]. intros q sz c Hq _. by eapply K. Qed.

(** A block just allocated: it is live, and no other live block meets it. *)
Lemma malloc_new a size p a' : malloc_step a size p a' -> p <> 0 ->
  exists sz, size <= sz /\ p mod 16 = 0 /\ live_blocks a' = <[p := sz]> (live_blocks a) /\ live_blocks a' !! p = Some sz /\
    forall q s c, live_blocks a !! q = Some s -> q <= c < q + s -> live_blocks a' !! q = Some s /\ ~ (p <= c < p + sz) /\ q <> p.
Proof.
  intros [_ _ _ Ok _] Hp. destruct (Ok Hp) as (Hm & Hn & sz & H1 & H2 & _ & _ & H3). exists sz.
  split_and!; [done..|by rewrite H2, lookup_insert_eq|]. intros q s c Hq Hc. assert (q <> p) by (intros ->; congruence).
  split_and!; [by rewrite H2, lookup_insert_ne|specialize (H3 q s Hq); lia|done].
Qed.

(** Filling [n] bytes of a block just allocated. *)
Lemma fill_step a size p a1 n (f : Z -> gmap Z Z -> Z) (g : Z -> Z) :
  malloc_step a size p a1 -> p <> 0 -> n <= size ->
  (forall i m', 0 <= i < n -> (forall c, ~ (p <= c < p + n) -> rd m' c = rd (amem a1) c) -> f i m' = g i /\ 0 <= g i < 256) ->
  let a' := set_amem a1 (foldl (fun m i => store_byte (p + i) (f i m) m) (amem a1) (seqZ 0 n)) in
  malloc_step a size p a' /\ live_blocks a' = live_blocks a1 /\ forall i, 0 <= i < n -> load_byte (amem a') (p + i) = g i.
Proof.
  intros M Hp Hn Hf. cbv zeta. destruct (malloc_new _ _ _ _ M Hp) as (sz & H1 & H2 & H3 & H4 & H5).
  destruct (store_loop_spec p f g (amem a1) n) as [W1 W2]; [Z.div_mod_to_equations; lia|done|].
  set (m := foldl _ _ _) in *. destruct M as [M1 Mr M2 M3 M4].
  destruct (write_payload a1 p sz m M1 H4) as [W' El]; [intros c Hc; apply W1; lia|].
  split_and!; [|done|done]. split; [done|done|done|by rewrite El|].
  intros q s c Hq Hc. cbn [amem set_amem]. destruct (H5 q s c Hq Hc) as (_ & ? & _). rewrite W1 by lia. by eapply M4.
Qed.

Lemma calloc_spec a n size p a' :
  arena_wf a -> 0 <= n -> 0 <= size -> 0 < n * size < 2 ^ 64 - 15 -> calloc n size a = (p, a') ->
  malloc_step a (n * size) p a' /\ (p <> 0 -> forall i, 0 <= i < n * size -> load_byte (amem a') (p + i) = 0).
Proof.
  intros W Hn Hs Ht. unfold calloc. assert ((u64 (-1) / size <? n) = false) as ->.
  { apply Z.ltb_ge. apply Z.div_le_lower_bound; [nia|]. change (u64 (-1)) with (2 ^ 64 - 1). lia. }
  rewrite andb_false_r, u64_small by lia. cbv zeta. destruct (malloc (n * size) a) as [q a1] eqn:E.
  pose proof (arena_malloc_spec _ _ _ _ W Ht E) as M. destruct (Z.eqb_spec q 0) as [->|Hq]; [by intros [= <- <-]|].
  intros [= <- <-]. destruct (fill_step a (n * size) q a1 (n * size) (fun _ _ => 0) (fun _ => 0) M Hq) as (M' & _ & Hz); [lia|done|].
  split; [done|]. intros _. exact Hz.
Qed.

Lemma calloc_overflow a n size : 0 <= n -> 0 < size -> 2 ^ 64 <= n * size -> calloc n size a = (0, set_errno a ENOMEM).
Proof.
  intros Hn Hs Ho. unfold calloc. destruct (Z.eqb_spec size 0); [lia|]. cbn [negb andb].
  destruct (Z.ltb_spec (u64 (-1) / size) n) as [|H]; [done|]. exfalso. change (u64 (-1)) with (2 ^ 64 - 1) in H.
  apply Z.mul_le_mono_nonneg_r with (p := size) in H; [|lia]. pose proof (Z.mul_div_le (2 ^ 64 - 1) size Hs). lia.
Qed.

(** *** realloc *)

(** [p] of size [sz] has become [q]: its bytes moved, every other block is as it was. *)
Record moved (a : arena) (p sz size q : Z) (a' : arena) : Prop := {
  mv_wf : arena_wf a';
  mv_reply : map_reply a' = map_reply a;
  mv_live : exists s, size <= s /\ live_blocks a' = <[q := s]> (delete p (live_blocks a));
  mv_bytes : forall i, 0 <= i < Z.min sz size -> load_byte (amem a') (q + i) = load_byte (amem a) (p + i);
  mv_kept : bytes_kept a a' p;
  mv_new : q = p \/ live_blocks a !! q = None }.

Lemma live_resize (ls1 ls2 : list (Z * Z)) p sz s : p ∉ ls1.*1 ->
  list_to_map (ls1 ++ (p, s) :: ls2) = <[p := s]> (delete p (list_to_map (ls1 ++ (p, sz) :: ls2) : gmap Z Z)).
Proof. intros H. rewrite !arena_live_insert by done. by rewrite insert_delete_eq, insert_insert_eq. Qed.

(** The block at [p] of [a1], which keeps the bytes of [a], is cut to [need]. *)
Lemma resize_spec a a1 L1 z L2 p sz size :
  arena_wf a -> live_blocks a !! p = Some sz -> arena_ok a1 (L1 ++ [(z, false)] ++ L2) -> same_arena a a1 ->
  p = arena_first a + span L1 + 16 -> live_blocks a = list_to_map (lives (arena_first a) L1 ++ (p, sz) :: lives (p + z) L2) ->
  NoDup (lives (arena_first a) L1 ++ (p, sz) :: lives (p + z) L2).*1 ->
  untouched (amem a) (amem a1) (lives (arena_first a) L1 ++ lives (p + z) L2) ->
  (forall c, p <= c < p + sz -> rd (amem a1) c = rd (amem a) c) ->
  0 < size < 2 ^ 64 - 15 -> payload_need size <= z ->
  moved a p sz size p (split_block a1 (p - 16) (payload_need size)).
Proof.
  intros W Hq O R Ep El Nd U Fp Hs Hn. pose proof (payload_need_spec size Hs) as (Hp1 & Hp2 & Hp3).
  pose proof R as (_ & Ef & _). pose proof (parts _ _ _ _ O) as [_ _ _ _ _ _ _ _ _ (_ & _ & Sz & _) _].
  destruct (split_spec a1 L1 z false L2 (p - 16) (payload_need size) O) as (R' & O' & U'); [rewrite Ef; lia|arith|done|].
  replace (p - 16 + 16) with p in U' by lia. rewrite Ef in U'. set (a' := split_block _ _ _) in *.
  destruct (cut_lives (arena_first a) L1 z (payload_need size) L2 Hn) as (s & Hss & El'). rewrite <- Ep in El'.
  assert (forall q s' c, live_blocks a !! q = Some s' -> q <> p -> q <= c < q + s' -> rd (amem a') c = rd (amem a) c) as K.
  { intros q s' c Hl Hne Hc. rewrite El in Hl. apply elem_of_list_to_map_2 in Hl.
    assert ((q, s') ∈ lives (arena_first a) L1 ++ lives (p + z) L2) as Hin.
    { apply elem_of_app in Hl as [?|[[=]|?]%elem_of_cons]; [apply elem_of_app; by left|done|apply elem_of_app; by right]. }
    rewrite (U' q s' c); [by apply (U q s')| |done].
    apply elem_of_app in Hin as [?|?]; apply elem_of_app; [by left|right; by right]. }
  split.
  - right. eauto.
  - destruct R as (_ & _ & _ & <-). by destruct R' as (_ & _ & _ & ?).
  - exists s. split; [lia|]. rewrite (live_spec _ _ O'), El. destruct R' as (_ & -> & _). rewrite Ef, El'. apply live_resize.
    rewrite fmap_app in Nd. apply NoDup_app in Nd as (_ & Nd & _). intros Hin. by apply (Nd p Hin); left.
  - intros i Hi. apply load_byte_ext. assert (p mod 16 = 0) as Hm.
    { pose proof (parts _ _ _ _ O) as [_ _ _ Hb _ S1 _ _ _ _ _]. rewrite Ef in Hb. arith. }
    rewrite (U' p (payload_need size)); [apply Fp; arith| |arith]. apply elem_of_app. right. by left.
  - by apply kept_bytes.
  - by left.
Qed.

(** Growing into the free block that follows. *)
Lemma grow_in_place a L1 sz s2 L2 p size :
  arena_ok a (L1 ++ [(sz, false); (s2, true)] ++ L2) -> p = arena_first a + span L1 + 16 ->
  live_blocks a !! p = Some sz -> 0 < size < 2 ^ 64 - 15 -> payload_need size <= sz + 16 + s2 ->
  moved a p sz size p (split_block (absorb a (p - 16) (p + sz) false) (p - 16) (payload_need size)).
Proof.
  intros O Ep Hq Hs Hn. pose proof (parts _ _ _ _ O) as [_ _ _ _ _ _ _ _ _ (_ & _ & _ & _ & _ & [[? _] _] & _) _].
  destruct (absorb_spec a L1 sz false s2 true L2 (p - 16) (p + sz) false O) as (R & O1 & U & F); [lia..|].
  assert (lives (arena_first a) (L1 ++ [(sz, false); (s2, true)] ++ L2) =
    lives (arena_first a) L1 ++ (p, sz) :: lives (p + (sz + 16 + s2)) L2) as El.
  { rewrite lives_app. cbn [lives app]. unfold HDR_SIZE. rewrite <- Ep. by rewrite !Z.add_assoc. }
  replace (p + sz + 16 + s2) with (p + (sz + 16 + s2)) in U by lia.
  eapply resize_spec; try done; [right; eauto|by rewrite (live_spec _ _ O), El| |intros c Hc; apply F; lia].
  rewrite <- El. apply (lives_nodup _ _ _ _ (ao_laid _ _ O)).
Qed.

(** Shrinking, or growing into the slack of the block. *)
Lemma fit_in_place a L1 sz L2 p size :
  arena_ok a (L1 ++ [(sz, false)] ++ L2) -> p = arena_first a + span L1 + 16 ->
  live_blocks a !! p = Some sz -> 0 < size < 2 ^ 64 - 15 -> payload_need size <= sz ->
  moved a p sz size p (split_block a (p - 16) (payload_need size)).
Proof.
  intros O Ep Hq Hs Hn.
  assert (lives (arena_first a) (L1 ++ [(sz, false)] ++ L2) = lives (arena_first a) L1 ++ (p, sz) :: lives (p + sz) L2) as El.
  { rewrite lives_app. cbn [lives app]. unfold HDR_SIZE. by rewrite <- Ep. }
  eapply resize_spec; try done; [right; eauto|by rewrite (live_spec _ _ O), El|].
  rewrite <- El. apply (lives_nodup _ _ _ _ (ao_laid _ _ O)).
Qed.

(** A new block, the bytes copied, the old block freed. *)
Lemma move_block a p sz size q a1 :
  arena_wf a -> live_blocks a !! p = Some sz -> 0 < size < 2 ^ 64 - 15 -> malloc size a = (q, a1) -> q <> 0 ->
  moved a p sz size q (free p (set_amem a1 (memcpy_cells q p (if sz <? size then sz else size) (amem a1)))).
Proof.
  intros W Hq Hs E Hnz. pose proof (arena_malloc_spec _ _ _ _ W Hs E) as M.
  replace (if sz <? size then sz else size) with (Z.min sz size) by (destruct (Z.ltb_spec sz size); lia).
  destruct (malloc_new _ _ _ _ M Hnz) as (s & H1 & H2 & H3 & H4 & H5).
  destruct (live_place _ _ _ W Hq) as (L1 & L2 & O & _). pose proof (proj1 (live_elem _ _ _ _ O) Hq) as Hin.
  pose proof (lives_range _ _ _ _ _ _ (ao_laid _ _ O) Hin) as (_ & _ & [Hsz _] & _).
  assert (q <> p) as Hne by (destruct (H5 p sz p Hq ltac:(lia)) as (_ & _ & ?); done).
  assert (forall m c, (forall c, ~ (q <= c < q + Z.min sz size) -> rd m c = rd (amem a1) c) -> p <= c < p + sz -> rd m c = rd (amem a) c) as Fp.
  { intros m c Hm Hc. destruct (H5 p sz c Hq Hc) as (_ & ? & _). rewrite Hm by lia. by apply (ms_kept _ _ _ _ M p sz). }
  destruct (fill_step a size q a1 (Z.min sz size) (fun i m => load_byte m (p + i)) (fun i => load_byte (amem a) (p + i)) M Hnz)
    as (M2 & El2 & Hb); [lia| |].
  { intros i m Hi Hm. split; [|apply load_byte_range]. apply (live_bytes a m p sz); [done|done|lia|]. intros c. by apply Fp. }
  fold (memcpy_cells q p (Z.min sz size) (amem a1)) in M2, El2, Hb. set (a2 := set_amem a1 _) in *.
  pose proof (ms_wf _ _ _ _ M2) as W2. assert (live_blocks a2 !! p = Some sz) as Hq2 by (by rewrite El2, H3, lookup_insert_ne).
  destruct (free_step a2 p sz W2 Hq2) as (W3 & El3 & R3 & K3 & _).
  split; [done| | | | |right; by apply (ms_ok _ _ _ _ M Hnz)].
  - destruct R3 as (_ & _ & _ & ->). apply (ms_reply _ _ _ _ M2).
  - exists s. split; [lia|]. by rewrite El3, El2, H3, delete_insert_ne.
  - intros i Hi. rewrite <- (Hb i Hi). apply (live_bytes a2 _ q s); [done|by rewrite El2|lia|]. intros c Hc. by eapply K3; [rewrite El2| |].
  - intros r t i Hr Hrp Hi. rewrite <- (malloc_kept a size q a2 p W M2 r t i) by done.
    destruct (H5 r t (r + i) Hr ltac:(lia)) as (Hr1 & _ & _).
    apply (live_bytes a2 _ r t); [done|by rewrite El2|done|]. intros c Hc. by eapply K3; [rewrite El2| |].
Qed.

Lemma realloc_spec a p sz size q a' :
  arena_wf a -> live_blocks a !! p = Some sz -> 0 < size < 2 ^ 64 - 15 -> realloc p size a = (q, a') ->
  if q =? 0 then malloc_step a size 0 a' else moved a p sz size q a'.
Proof.
  intros W Hq Hs. destruct (live_place _ _ _ W Hq) as (L1 & L2 & O & Ep & _).
  pose proof (parts _ _ _ _ O) as [_ _ Ehi Hb Hsz S1 Sm S2 A1 (E1 & _ & Sz & _) A3]. cbn [span] in *.
  unfold realloc. destruct (Z.eqb_spec p 0); [arith|]. destruct (Z.eqb_spec size 0); [lia|].
  rewrite (ours_spec _ _ _ O) by arith. cbn [negb]. unfold HDR_SIZE. rewrite !(u64_small (p - 16)) by arith.
  replace (p - 16) with (arena_first a + span L1) by lia. rewrite !(blk_size_enc _ _ _ _ Sz E1). cbv zeta. zif.
  { intros [= <- <-]. destruct (Z.eqb_spec p 0); [lia|]. replace (arena_first a + span L1) with (p - 16) by lia. by eapply fit_in_place. }
  set (b := arena_first a + span L1) in *. rewrite (blk_next_spec _ _ _ _ E1 Sz) by arith.
  assert (forall r, (let '(np, a0) := malloc size a in if np =? 0 then (0, a0) else
    (np, free p (set_amem a0 (memcpy_cells np p (if sz <? size then sz else size) (amem a0))))) = r -> r = (q, a') ->
    if q =? 0 then malloc_step a size 0 a' else moved a p sz size q a') as Far.
  { intros r <-. destruct (malloc size a) as [np a1] eqn:E. destruct (Z.eqb_spec np 0) as [->|Hnp]; intros [= <- <-]; [by apply arena_malloc_spec|].
    destruct (Z.eqb_spec np 0); [done|]. by apply move_block. }
  case_decide as Hd; [cbn [Z.eqb negb andb]; by apply Far|]. destruct (Z.eqb_spec (b + 16 + sz) 0); [arith|].
  destruct L2 as [|[s2 f2] L2]; [simpl in *; arith|].
  replace (b + (HDR_SIZE + sz + 0)) with (b + 16 + sz) in A3 by arith. destruct A3 as (E3 & _ & Sz2 & _).
  rewrite (blk_free_enc _ _ _ _ Sz2 E3), (blk_size_enc _ _ _ _ Sz2 E3), u64_small by arith. cbn [negb andb].
  destruct f2; [|by apply Far]. cbn [andb]. unfold HDR_SIZE. zif; [|by apply Far].
  intros [= <- <-]. destruct (Z.eqb_spec p 0); [lia|]. replace b with (p - 16) by lia. replace (p - 16 + 16 + sz) with (p + sz) by lia.
  by apply (grow_in_place a L1 sz s2 L2).
Qed.

(** ** The theorems *)

(** C36: [malloc] and [calloc] of less than 2^64 - 15 bytes (above, the
    rounding wraps) on every arena the program can have: a null
    pointer means that the kernel refused the mapping or that no free block is
    large enough, sets ENOMEM and leaves every block as it was; otherwise the
    result is a 16-byte aligned block inside the arena, of at least the size
    asked for, apart from every live block, zeroed by [calloc].  The bytes of
    the live blocks are kept.  A product that overflows is refused. *)
Theorem malloc_correct (a : arena) : arena_wf a ->
  (forall size p a', 0 < size < 2 ^ 64 - 15 -> malloc size a = (p, a') -> malloc_step a size p a' /\ bytes_kept a a' 0) /\
  (forall n size p a', 0 <= n -> 0 <= size -> 0 < n * size < 2 ^ 64 - 15 -> calloc n size a = (p, a') ->
     malloc_step a (n * size) p a' /\ bytes_kept a a' 0 /\
     (p <> 0 -> forall i, 0 <= i < n * size -> load_byte (amem a') (p + i) = 0)) /\
  (forall n size, 0 <= n -> 0 < size -> 2 ^ 64 <= n * size -> calloc n size a = (0, set_errno a ENOMEM)).
Proof.
  intros W. split_and!.
  - intros size p a' Hs E. pose proof (arena_malloc_spec _ _ _ _ W Hs E). split; [done|by eapply malloc_kept].
  - intros n size p a' Hn Hs Ht E. destruct (calloc_spec _ _ _ _ _ W Hn Hs Ht E). split_and!; [done|by eapply malloc_kept|done].
  - intros n size. apply calloc_overflow.
Qed.

(** [free] of a live block ends its life, keeps the bytes of every other
    block, and freeing it once more does nothing; null and pointers that are
    misaligned or outside the arena are ignored. *)
Theorem free_correct (a : arena) (p : Z) : arena_wf a ->
  (forall sz, live_blocks a !! p = Some sz ->
     arena_wf (free p a) /\ live_blocks (free p a) = delete p (live_blocks a) /\ bytes_kept a (free p a) p /\
     free p (free p a) = free p a) /\
  (0 <= p < 2 ^ 64 -> p = 0 \/ p mod 16 <> 0 \/ p < arena_first a + 16 \/ arena_hi a <= p -> free p a = a).
Proof.
  intros W. split.
  - intros sz Hq. destruct (free_step a p sz W Hq) as (W' & El & _ & K & D). split_and!; [done|done|by apply kept_bytes|done].
  - intros Hp H. unfold free. destruct (Z.eqb_spec p 0); [done|]. rewrite (not_ours a p W Hp); [done|]. tauto.
Qed.

(** [realloc] of a live block to a positive size: null means that no block
    was found and nothing changed; otherwise the block has at least the size
    asked for, holds the old bytes up to the smaller of the two sizes, and
    every other block keeps its bytes, whether the block was cut, grown into the
    free block after it, or moved. *)
Theorem realloc_correct (a : arena) (p sz size q : Z) (a' : arena) :
  arena_wf a -> live_blocks a !! p = Some sz -> 0 < size < 2 ^ 64 - 15 -> realloc p size a = (q, a') ->
  arena_wf a' /\ bytes_kept a a' p /\
  (q = 0 -> live_blocks a' = live_blocks a /\ errno a' = ENOMEM /\ bytes_kept a a' 0) /\
  (q <> 0 -> (exists s, size <= s /\ live_blocks a' = <[q := s]> (delete p (live_blocks a))) /\
     forall i, 0 <= i < Z.min sz size -> load_byte (amem a') (q + i) = load_byte (amem a) (p + i)).
Proof.
  intros W Hq Hs E. pose proof (realloc_spec a p sz size q a' W Hq Hs E) as R. destruct (Z.eqb_spec q 0) as [->|Hnz].
  - pose proof (malloc_kept a size 0 a' 0 W R). pose proof (malloc_kept a size 0 a' p W R). destruct R as [R1 _ R2 _ _].
    destruct (R2 eq_refl) as (? & ? & _). split_and!; [done|done|done|done].
  - destruct R as [R1 _ R2 R3 R4 _]. split_and!; [done|done|done|]. intros _. done.
Qed.

(** ** The interface *)

#[export] Instance arena_heap : UHeap arena := {
  u_malloc := malloc; u_calloc := calloc; u_realloc := realloc; u_free := free;
  u_fresh a p size := (fun i => load_byte (amem a) (p + i)) <$> seqZ 0 size;
  u_live := live_blocks; u_area a x := (map_reply a <=? x) && (x <? map_reply a + ARENA_SIZE); u_wf := arena_wf }.

Lemma live_area a p sz : arena_wf a -> live_blocks a !! p = Some sz -> u_area a p = true.
Proof.
  intros W E. destruct (live_place _ _ _ W E) as (L1 & L2 & O & Ep & _). cbn [u_area arena_heap]. rewrite <- (ao_reply _ _ O).
  pose proof (parts _ _ _ _ O) as [_ _ Hh Hb Hs S1 Sm S2 _ (_ & _ & Sz & _) _]. cbn [span] in *.
  apply andb_true_intro. split; [apply Z.leb_le|apply Z.ltb_lt]; arith.
Qed.

Lemma arena_u_step a size p a' : malloc_step a size p a' -> u_step a size p a'.
Proof.
  intros [M1 Mr M2 M3 M4]. assert (forall x, u_area a' x = u_area a x) as Ea by (intros x; cbn [u_area arena_heap]; by rewrite Mr).
  split; [done|done| |intros Hp; by apply M2|].
  - intros Hp. destruct (M3 Hp) as (_ & _ & sz & _ & E & _). rewrite <- Ea. apply (live_area a' p sz M1). by rewrite E, lookup_insert_eq.
  - intros Hp. destruct (M3 Hp) as (_ & Hn & sz & ? & ? & _ & _ & ?). split; [done|]. by exists sz.
Qed.

Lemma live_zero a : arena_wf a -> live_blocks a !! 0 = None.
Proof.
  intros W. destruct (live_blocks a !! 0) as [sz|] eqn:E; [|done]. destruct (live_place _ _ _ W E) as (L1 & L2 & O & Ep & _).
  pose proof (parts _ _ _ _ O) as [_ _ _ Hb _ S1 _ _ _ _ _]. arith.
Qed.

#[export] Instance arena_laws : UHeapLaws arena.
Proof.
  split.
  - intros a size p a' W Hs E. apply arena_u_step. apply arena_malloc_spec; [done|lia|done].
  - intros a n size p a' W Hn Hs E. apply arena_u_step. apply (calloc_spec a n size p a'); (done || nia).
  - intros a p old size q a' W Hq Hs E. pose proof (realloc_spec a p old size q a' W Hq ltac:(lia) E) as R.
    destruct (Z.eqb_spec q 0) as [->|Hq0].
    + destruct R as [R1 Rr R2 _ _]. split; [done|]. split; [intros x; cbn [u_area arena_heap]; by rewrite Rr|].
      split; [intros _; by apply R2|done].
    + destruct R as [R1 Rr R2 _ _ R5]. assert (forall x, u_area a' x = u_area a x) as Ea by (intros x; cbn [u_area arena_heap]; by rewrite Rr).
      split; [done|]. split; [done|]. split; [done|]. intros _. split; [|split; [exact R5|exact R2]].
      destruct R2 as (s & _ & R2). rewrite <- Ea. apply (live_area a' q s R1). by rewrite R2, lookup_insert_eq.
  - intros a p W [sz Hq]. destruct (free_step a p sz W Hq) as (? & ? & (_ & _ & _ & Rr) & _).
    split; [done|]. split; [|done]. intros x. cbn [u_area u_free arena_heap]. by rewrite Rr.
  - intros a p size Hs. cbn [u_fresh arena_heap]. unfold zlen. rewrite length_fmap, length_seqZ. lia.
  - intros a W. by apply live_zero.
Qed.

(** ** Concrete runs *)

(** A program whose first mapping will be at 0x8000000000. *)
Definition demo_arena : arena := MkArena 0 0 0 false 0 0x8000000000 ∅.

Lemma demo_arena_wf : arena_wf demo_arena.
Proof. left. split; [done|done|]. right. done. Qed.

(** Two blocks of 100 and 40 bytes. *)
Definition demo_two : arena := snd (malloc 40 (snd (malloc 100 demo_arena))).

Lemma demo_two_wf : arena_wf demo_two.
Proof.
  unfold demo_two. destruct (malloc 100 demo_arena) as [p a] eqn:E. pose proof (arena_malloc_spec demo_arena 100 p a demo_arena_wf ltac:(lia) E) as [W _ _ _ _].
  cbn [snd]. destruct (malloc 40 a) as [q a'] eqn:E'. by destruct (arena_malloc_spec a 40 q a' W ltac:(lia) E').
Qed.

Lemma demo_two_live : live_blocks demo_two = {[0x8000000010 := 112; 0x8000000090 := 48]}.
Proof. vm_compute. reflexivity. Qed.

Lemma malloc_correct_witness :
  exists p a', malloc 64 demo_two = (p, a') /\ malloc_step demo_two 64 p a' /\ p = 0x80000000d0.
Proof.
  destruct (malloc 64 demo_two) as [p a'] eqn:E. exists p, a'. split; [done|].
  split; [exact (proj1 (proj1 (malloc_correct demo_two demo_two_wf) 64 p a' ltac:(lia) E))|].
  apply (f_equal fst) in E. cbn [fst] in E. rewrite <- E. vm_compute. reflexivity.
Defined.

Lemma free_correct_witness :
  live_blocks (free 0x8000000010 demo_two) = {[0x8000000090 := 48]} /\
  free 0x8000000010 (free 0x8000000010 demo_two) = free 0x8000000010 demo_two.
Proof.
  destruct (proj1 (free_correct demo_two 0x8000000010 demo_two_wf) 112) as (_ & El & _ & D); [vm_compute; reflexivity|].
  split; [|exact D]. rewrite El, demo_two_live. vm_compute. reflexivity.
Defined.

Lemma realloc_correct_witness :
  exists q a', realloc 0x8000000010 200 demo_two = (q, a') /\ q = 0x80000000d0 /\ arena_wf a' /\
    forall i, 0 <= i < 112 -> load_byte (amem a') (q + i) = load_byte (amem demo_two) (0x8000000010 + i).
Proof.
  destruct (realloc 0x8000000010 200 demo_two) as [q a'] eqn:E. exists q, a'. split; [done|].
  assert (q = 0x80000000d0) as Eq by (apply (f_equal fst) in E; cbn [fst] in E; rewrite <- E; vm_compute; reflexivity).
  destruct (realloc_correct demo_two 0x8000000010 112 200 q a' demo_two_wf) as (W & _ & _ & R);
    [vm_compute; reflexivity|lia|exact E|]. split; [done|]. split; [done|]. apply R. rewrite Eq. done.
Defined.

(** A size within 15 of [SIZE_MAX] wraps in [align_up]: [malloc] hands out a
    block of 16 bytes. *)
Theorem malloc_wraps : exists p a', malloc (2 ^ 64 - 1) demo_arena = (p, a') /\ p <> 0 /\ live_blocks a' !! p = Some 16.
Proof.
  exists 0x8000000010, (snd (malloc (2 ^ 64 - 1) demo_arena)). split_and!; [|done|]; vm_compute; reflexivity.
Qed.
