(* ===== verification/Ramfs.v ===== *)
(** * The in-memory file system of the VFS server

    [userspace/vfs/ramfs.c] and the vnode lifecycle of [vfs.c].  A node is one
    record: [vnode_t] is embedded in [ramfs_node_t] as its first member, so the
    two pointers are one address.  A directory's child list, linked through
    [next], is the list of the children's addresses; every vnode's operation
    table is [ramfs_ops], all of whose entries are set, so the null tests on it
    always pass.  Using a node that is not allocated gives [None]: the
    invariant [fs_wf] shows that it never happens. *)
From S2P Require Import Prelude Bytes Errno Str Iface.

Definition VFS_NAME_MAX : Z := 255.
Definition VFS_PATH_MAX : Z := 1024.
Definition VFS_TYPE_REG : Z := 1.
Definition VFS_TYPE_DIR : Z := 2.
Definition SLASH : Z := 47.
Definition DOT : Z := 46.

(** ** String helpers *)

Definition xs_strlen (s : list Z) : Z := strlen s.

(** [while ( *a && *a == *b ) ...; return *a == *b]; past the end of a list reads the NUL. *)
Fixpoint xs_streq (a b : list Z) : bool :=
  let c := zget 0 b 0 in
  match a with
  | [] => 0 =? c
  | x :: a => if negb (x =? 0) && (x =? c) then xs_streq a (tail b) else x =? c
  end.

(** [while (src[i] && i + 1 < max) dst[i] = src[i]]; then the NUL. *)
Fixpoint xs_strcpy_loop (dst src : list Z) (i max : Z) : list Z :=
  match src with
  | [] => zset dst i 0
  | c :: src' =>
      if negb (c =? 0) && (i + 1 <? max) then xs_strcpy_loop (zset dst i c) src' (i + 1) max
      else zset dst i 0
  end.
Definition xs_strcpy (dst src : list Z) (max : Z) : list Z := xs_strcpy_loop dst src 0 max.

(** ** State *)

Record node := MkNode {
  ino : Z; ntype : Z; nmode : Z; refcount : Z; vsize : Z; parent : Z;
  nname : list Z;
  (** [data]: the buffer's address and its [capacity] bytes *)
  data : Z; buf : list Z; capacity : Z;
  children : list Z }.

Record file := MkFile { f_vn : Z; f_offset : Z; f_flags : Z; f_refcount : Z }.

Record fs {A : Type} := MkFs {
  heap : A; nodes : gmap Z node; ramfs_next_ino : Z; vfs_root : Z; files : gmap Z file }.
Arguments fs A : clear implicits.

Definition set_refcount (n : node) (r : Z) : node :=
  MkNode (ino n) (ntype n) (nmode n) r (vsize n) (parent n) (nname n) (data n) (buf n) (capacity n) (children n).
Definition set_parent (n : node) (p : Z) : node :=
  MkNode (ino n) (ntype n) (nmode n) (refcount n) (vsize n) p (nname n) (data n) (buf n) (capacity n) (children n).
Definition set_name (n : node) (nm : list Z) : node :=
  MkNode (ino n) (ntype n) (nmode n) (refcount n) (vsize n) (parent n) nm (data n) (buf n) (capacity n) (children n).
Definition set_content (n : node) (sz d : Z) (b : list Z) (cap : Z) : node :=
  MkNode (ino n) (ntype n) (nmode n) (refcount n) sz (parent n) (nname n) d b cap (children n).
Definition set_children (n : node) (cs : list Z) : node :=
  MkNode (ino n) (ntype n) (nmode n) (refcount n) (vsize n) (parent n) (nname n) (data n) (buf n) (capacity n) cs.

(** [sizeof(ramfs_node_t)]: the 56 bytes of [vnode_t], the name, four words. *)
Definition sizeof_ramfs_node : Z := 344.
Definition sizeof_file : Z := 24.

Section ramfs.
Context {A : Type} `{UHeap A}.

Definition set_heap (s : fs A) (h : A) : fs A :=
  MkFs A h (nodes s) (ramfs_next_ino s) (vfs_root s) (files s).
Definition set_node (s : fs A) (p : Z) (n : node) : fs A :=
  MkFs A (heap s) (<[p := n]> (nodes s)) (ramfs_next_ino s) (vfs_root s) (files s).
Definition del_node (s : fs A) (p : Z) : fs A :=
  MkFs A (heap s) (delete p (nodes s)) (ramfs_next_ino s) (vfs_root s) (files s).
Definition set_root (s : fs A) (p : Z) : fs A :=
  MkFs A (heap s) (nodes s) (ramfs_next_ino s) p (files s).
Definition set_files (s : fs A) (fl : gmap Z file) : fs A :=
  MkFs A (heap s) (nodes s) (ramfs_next_ino s) (vfs_root s) fl.

(** ** The vnode lifecycle *)

Definition vnode_ref (s : fs A) (p : Z) : option (fs A) :=
  if p =? 0 then Some s
  else n ← nodes s !! p; Some (set_node s p (set_refcount n (u32 (refcount n + 1)))).

(** [if (node->data) free(node->data); free(node)] *)
Definition free_node (s : fs A) (p : Z) (n : node) : fs A :=
  let s := if data n =? 0 then s else set_heap s (u_free (data n) (heap s)) in
  del_node (set_heap s (u_free p (heap s))) p.

(** The children are released one by one, with the [unref] that called. *)
Definition ramfs_destroy (unref : fs A -> Z -> option (fs A)) (s : fs A) (p : Z) : option (fs A) :=
  n ← nodes s !! p;
  s ← foldl (fun r c => r ≫= fun s => unref s c) (Some s) (children n);
  n ← nodes s !! p;
  Some (free_node s p n).

(** [vnode_unref] and [ramfs_destroy] call each other; the fuel bounds the depth of the tree. *)
Fixpoint vnode_unref_fuel (fuel : nat) (s : fs A) (p : Z) : option (fs A) :=
  if p =? 0 then Some s
  else
    n ← nodes s !! p;
    if refcount n =? 0 then Some s
    else
      let n' := set_refcount n (u32 (refcount n - 1)) in
      let s := set_node s p n' in
      if refcount n' =? 0 then
        match fuel with
        | O => None
        | S fuel => ramfs_destroy (vnode_unref_fuel fuel) s p
        end
      else Some s.
Definition vnode_unref (s : fs A) (p : Z) : option (fs A) :=
  vnode_unref_fuel (S (size (nodes s))) s p.

(** ** Nodes *)

Definition ramfs_new_node (s : fs A) (type mode : Z) : Z * fs A :=
  let (p, h) := u_calloc 1 sizeof_ramfs_node (heap s) in
  if p =? 0 then (0, set_heap s h)
  else
    let n := MkNode (ramfs_next_ino s) type mode 1 0 0 (replicate (Z.to_nat (VFS_NAME_MAX + 1)) 0) 0 [] 0 [] in
    (p, MkFs A h (<[p := n]> (nodes s)) (u64 (ramfs_next_ino s + 1)) (vfs_root s) (files s)).

Definition ramfs_create_root (s : fs A) : option (Z * fs A) :=
  let (p, s) := ramfs_new_node s VFS_TYPE_DIR 493 in
  if p =? 0 then Some (0, s)
  else n ← nodes s !! p; Some (p, set_node s p (set_parent n p)).

Fixpoint find_loop (ns : gmap Z node) (cs : list Z) (name : list Z) : option Z :=
  match cs with
  | [] => Some 0
  | c :: cs => n ← ns !! c; if xs_streq (nname n) name then Some c else find_loop ns cs name
  end.
Definition ramfs_find (s : fs A) (dir : node) (name : list Z) : option Z :=
  find_loop (nodes s) (children dir) name.

(** ** Directory operations: the result, the node it gives out, the state *)

Definition ramfs_lookup (s : fs A) (dir : Z) (name : list Z) : option (Z * Z * fs A) :=
  d ← nodes s !! dir;
  c ← ramfs_find s d name;
  if c =? 0 then Some (- ENOENT, 0, s)
  else s ← vnode_ref s c; Some (0, c, s).

(** A node of [type] put at the head of [dir]'s children. *)
Definition link_new (s : fs A) (dir : Z) (name : list Z) (type mode : Z) : option (Z * fs A) :=
  let (nv, s) := ramfs_new_node s type mode in
  if nv =? 0 then Some (0, s)
  else
    nn ← nodes s !! nv;
    let s := set_node s nv (set_parent (set_name nn (xs_strcpy (nname nn) name (VFS_NAME_MAX + 1))) dir) in
    d ← nodes s !! dir;
    Some (nv, set_node s dir (set_children d (nv :: children d))).

Definition ramfs_create (s : fs A) (dir : Z) (name : list Z) (mode : Z) : option (Z * Z * fs A) :=
  d ← nodes s !! dir;
  c ← ramfs_find s d name;
  if negb (c =? 0) then Some (- EEXIST, 0, s)
  else
    '(nv, s) ← link_new s dir name VFS_TYPE_REG mode;
    if nv =? 0 then Some (- ENOMEM, 0, s)
    else s ← vnode_ref s nv; Some (0, nv, s).

Definition ramfs_mkdir (s : fs A) (dir : Z) (name : list Z) (mode : Z) : option (Z * fs A) :=
  d ← nodes s !! dir;
  c ← ramfs_find s d name;
  if negb (c =? 0) then Some (- EEXIST, s)
  else
    '(nv, s) ← link_new s dir name VFS_TYPE_DIR mode;
    if nv =? 0 then Some (- ENOMEM, s) else Some (0, s).

(** The walk along [pp]: the first child of that name and the list without it. *)
Fixpoint unlink_loop (ns : gmap Z node) (cs : list Z) (name : list Z) : option (option (Z * list Z)) :=
  match cs with
  | [] => Some None
  | c :: cs =>
      n ← ns !! c;
      if xs_streq (nname n) name then Some (Some (c, cs))
      else
        r ← unlink_loop ns cs name;
        Some (match r with Some (x, rest) => Some (x, c :: rest) | None => None end)
  end.

(** [*pp = c->next; c->next = 0; vnode_unref(&c->vn)] *)
Definition drop_child (s : fs A) (dir c : Z) (cs : list Z) : option (fs A) :=
  d ← nodes s !! dir;
  vnode_unref (set_node s dir (set_children d cs)) c.

Definition ramfs_unlink (s : fs A) (dir : Z) (name : list Z) : option (Z * fs A) :=
  d ← nodes s !! dir;
  r ← unlink_loop (nodes s) (children d) name;
  match r with
  | None => Some (- ENOENT, s)
  | Some (c, cs) =>
      n ← nodes s !! c;
      if ntype n =? VFS_TYPE_DIR then Some (- EISDIR, s)
      else s ← drop_child s dir c cs; Some (0, s)
  end.

Definition ramfs_rmdir (s : fs A) (dir : Z) (name : list Z) : option (Z * fs A) :=
  d ← nodes s !! dir;
  r ← unlink_loop (nodes s) (children d) name;
  match r with
  | None => Some (- ENOENT, s)
  | Some (c, cs) =>
      n ← nodes s !! c;
      if negb (ntype n =? VFS_TYPE_DIR) then Some (- ENOTDIR, s)
      else match children n with
           | _ :: _ => Some (- ENOTEMPTY, s)
           | [] => s ← drop_child s dir c cs; Some (0, s)
           end
  end.

(** The result and the bytes written to [name]. *)
Fixpoint readdir_loop (ns : gmap Z node) (cs : list Z) (i index n : Z) : option (Z * list Z) :=
  match cs with
  | [] => Some (- ENOENT, [])
  | c :: cs =>
      if i =? index then
        cn ← ns !! c;
        let len := xs_strlen (nname cn) in
        if n <? len + 1 then Some (- ERANGE, [])
        else Some (0, slice (nname cn) 0 (len + 1))
      else readdir_loop ns cs (u32 (i + 1)) index n
  end.
Definition ramfs_readdir (s : fs A) (dir index n : Z) : option (Z * list Z) :=
  d ← nodes s !! dir;
  readdir_loop (nodes s) (children d) 0 index n.

(** ** File operations *)

(** The result and the bytes written to [buf]. *)
Definition ramfs_read (s : fs A) (vn n off : Z) : option (Z * list Z) :=
  node ← nodes s !! vn;
  if negb (ntype node =? VFS_TYPE_REG) then Some (- EISDIR, [])
  else if vsize node <=? off then Some (0, [])
  else
    let avail := vsize node - off in
    let n := if avail <? n then avail else n in
    Some (i64 n, slice (buf node) off n).

(** [while (newcap < need) newcap *= 2], giving up past [1 << 62]: [Some None]. *)
Fixpoint grow (fuel : nat) (newcap need : Z) : option (option Z) :=
  if newcap <? need then
    if 2 ^ 62 <? newcap then Some None
    else match fuel with O => None | S fuel => grow fuel (u64 (newcap * 2)) need end
  else Some (Some newcap).

(** The reallocation of [ramfs_write]: [Some (e, _)] with [e] negative is its early return. *)
Definition ramfs_grow (s : fs A) (vn : Z) (node : node) (need off : Z) : option (Z * fs A) :=
  c ← grow 64 (if capacity node =? 0 then 64 else capacity node) need;
  match c with
  | None => Some (- ENOMEM, s)
  | Some newcap =>
      let (p, h) := u_malloc newcap (heap s) in
      if p =? 0 then Some (- ENOMEM, set_heap s h)
      else
        let nd := copy_loop (u_fresh h p newcap) 0 (buf node) 0 (vsize node) in
        let nd := fill_loop nd (vsize node) 0 (Z.min off newcap - vsize node) in
        let h := if data node =? 0 then h else u_free (data node) h in
        Some (0, set_node (set_heap s h) vn (set_content node (vsize node) p nd newcap))
  end.

Definition ramfs_write (s : fs A) (vn : Z) (src : list Z) (n off : Z) : option (Z * fs A) :=
  node ← nodes s !! vn;
  if negb (ntype node =? VFS_TYPE_REG) then Some (- EISDIR, s)
  else if n =? 0 then Some (0, s)
  else
    let need := u64 (off + n) in
    if need <? off then Some (- EINVAL, s)
    else
      '(r, s) ← (if capacity node <? need then ramfs_grow s vn node need off else Some (0, s));
      if r <? 0 then Some (r, s)
      else
        node ← nodes s !! vn;
        let dst := copy_loop (buf node) off src 0 n in
        let sz := if vsize node <? u64 (off + n) then u64 (off + n) else vsize node in
        Some (i64 n, set_node s vn (set_content node sz (data node) dst (capacity node))).

Definition ramfs_truncate (s : fs A) (vn sz : Z) : option (Z * fs A) :=
  node ← nodes s !! vn;
  if negb (ntype node =? VFS_TYPE_REG) then Some (- EISDIR, s)
  else if sz =? vsize node then Some (0, s)
  else if sz <=? capacity node then
    let b := if vsize node <? sz then fill_loop (buf node) (vsize node) 0 (sz - vsize node) else buf node in
    Some (0, set_node s vn (set_content node sz (data node) b (capacity node)))
  else
    let (p, h) := u_calloc 1 sz (heap s) in
    if p =? 0 then Some (- ENOMEM, set_heap s h)
    else
      let nd := replicate (Z.to_nat sz) 0 in
      let '(nd, h) :=
        if data node =? 0 then (nd, h)
        else (copy_loop nd 0 (buf node) 0 (Z.min (vsize node) sz), u_free (data node) h) in
      Some (0, set_node (set_heap s h) vn (set_content node sz p nd sz)).

End ramfs.

(** ** The string helpers *)

Lemma xs_streq_spec a b : 0 ∈ a -> 0 ∈ b -> xs_streq a b = bool_decide (cstr a = cstr b).
Proof.
  revert b. induction a as [|x a IH]; intros b Ha Hb; [by apply not_elem_of_nil in Ha|].
  destruct b as [|y b]; [by apply not_elem_of_nil in Hb|]. cbn [xs_streq cstr tail]. change (zget 0 (y :: b) 0) with y.
  destruct (Z.eqb_spec x 0) as [->|Hx], (Z.eqb_spec y 0) as [->|Hy]; cbn [negb andb].
  - symmetry. by apply bool_decide_eq_true_2.
  - rewrite bool_decide_eq_false_2 by done. apply Z.eqb_neq. done.
  - rewrite bool_decide_eq_false_2 by done. destruct (Z.eqb_spec x 0); done.
  - destruct (Z.eqb_spec x y) as [->|Hne].
    + rewrite IH; [|apply elem_of_cons in Ha as [?|?]; congruence|apply elem_of_cons in Hb as [?|?]; congruence].
      apply bool_decide_ext. split; [by intros ->|by intros [=]].
    + rewrite bool_decide_eq_false_2; [done|]. by intros [=].
Qed.

Lemma xs_strcpy_loop_spec src : forall dst i max,
  0 <= i -> i < max <= zlen dst -> 0 ∉ take (Z.to_nat i) dst ->
  let d := xs_strcpy_loop dst src i max in
  zlen d = zlen dst /\ cstr d = take (Z.to_nat i) dst ++ take (Z.to_nat (max - 1 - i)) (cstr src) /\ 0 ∈ d.
Proof.
  assert (forall dst i, 0 <= i < zlen dst -> 0 ∉ take (Z.to_nat i) dst ->
    zlen (zset dst i 0) = zlen dst /\ cstr (zset dst i 0) = take (Z.to_nat i) dst /\ 0 ∈ zset dst i 0) as Hend.
  { intros dst i Hi Hn. split; [apply zlen_zset|]. unfold zlen in Hi. unfold zset. zif; [lia|].
    rewrite insert_take_drop by lia. split; [by apply cstr_app|]. set_solver. }
  induction src as [|c src IH]; intros dst i max Hi Hm Hn; cbn [xs_strcpy_loop cstr].
  - rewrite take_nil, app_nil_r. apply Hend; [lia|done].
  - destruct (Z.eqb_spec c 0) as [->|Hc]; cbn [negb andb].
    + rewrite take_nil, app_nil_r. apply Hend; [lia|done].
    + destruct (Z.ltb_spec (i + 1) max) as [Hlt|Hge].
      * assert (take (Z.to_nat (i + 1)) (zset dst i c) = take (Z.to_nat i) dst ++ [c]) as Ht.
        { unfold zlen in Hm. unfold zset. zif; [lia|]. replace (Z.to_nat (i + 1)) with (S (Z.to_nat i)) by lia.
          erewrite take_S_r by (apply list_lookup_insert_eq; lia). by rewrite take_insert_ge by lia. }
        destruct (IH (zset dst i c) (i + 1) max) as (L & Q & Z0); [lia|by rewrite zlen_zset; lia| |].
        { rewrite Ht. set_solver. }
        rewrite L, zlen_zset, Q, Ht, <- app_assoc. split; [done|]. split; [|done]. f_equal.
        replace (Z.to_nat (max - 1 - i)) with (S (Z.to_nat (max - 1 - (i + 1)))) by lia. done.
      * replace (Z.to_nat (max - 1 - i)) with 0%nat by lia. rewrite take_0, app_nil_r. apply Hend; [lia|done].
Qed.

(** A name of at most [VFS_NAME_MAX] bytes is stored as it is. *)
Lemma xs_strcpy_name dst src :
  zlen dst = 256 -> zlen (cstr src) <= 255 ->
  zlen (xs_strcpy dst src 256) = 256 /\ cstr (xs_strcpy dst src 256) = cstr src /\ 0 ∈ xs_strcpy dst src 256.
Proof.
  intros Hd Hs. destruct (xs_strcpy_loop_spec src dst 0 256) as (L & Q & Z0); [lia|lia|set_solver|].
  unfold xs_strcpy. rewrite L, Q. split; [done|]. split; [|done].
  change (take (Z.to_nat 0) dst) with (@nil Z). cbn [app]. rewrite take_ge by (unfold zlen in Hs; lia). done.
Qed.

(** ** The invariant *)

Inductive tag := TNode | TData (p : Z) | TFile.

Section wf.
Context {A : Type} `{UHeapLaws A}.
Implicit Types (s : fs A) (p c : Z) (n : node).

(** The name [p] goes by. *)
Definition name_of s p : list Z := match nodes s !! p with Some n => cstr (nname n) | None => [] end.

(** The root, or listed by its parent. *)
Definition linked s p : bool :=
  (p =? vfs_root s) ||
  match nodes s !! p with
  | Some n => match nodes s !! parent n with Some d => bool_decide (p ∈ children d) | None => false end
  | None => false
  end.

(** How many open files point at [p], and how many of the references held by running code. *)
Definition opens s p : Z := Z.of_nat (size (filter (fun kf => f_vn kf.2 = p) (files s))).
Definition held (ext : list Z) p : Z := countb (Z.eqb p) ext.

Record node_ok s (ext : list Z) p n : Prop := {
  (** exact reference counting *)
  ok_ref : refcount n = (if linked s p then 1 else 0) + opens s p + held ext p;
  ok_pos : 0 < refcount n;
  (** what is no longer linked has no children *)
  ok_leaf : linked s p = false -> children n = [];
  ok_dir : children n <> [] -> ntype n = VFS_TYPE_DIR;
  ok_child c : c ∈ children n -> c <> vfs_root s /\ exists nc, nodes s !! c = Some nc /\ parent nc = p;
  ok_names : NoDup (name_of s <$> children n);
  ok_name : zlen (nname n) = 256 /\ 0 ∈ nname n;
  ok_buf : zlen (buf n) = capacity n /\ 0 <= vsize n <= capacity n /\ capacity n <= 2 ^ 63;
  ok_data : data n = 0 -> capacity n = 0 }.

(** Who owns each live block. *)
Record owns (own : gmap Z tag) s : Prop := {
  own_live p : is_Some (own !! p) -> is_Some (u_live (heap s) !! p);
  own_node p n : nodes s !! p = Some n -> own !! p = Some TNode;
  own_data p n : nodes s !! p = Some n -> data n <> 0 -> own !! data n = Some (TData p);
  own_file q f : files s !! q = Some f -> own !! q = Some TFile }.

Record fs_wf (ext : list Z) s : Prop := {
  wf_heap : u_wf (heap s);
  wf_own : exists own, owns own s;
  wf_root : exists r, nodes s !! vfs_root s = Some r /\ ntype r = VFS_TYPE_DIR /\ parent r = vfs_root s;
  wf_nodes p n : nodes s !! p = Some n -> node_ok s ext p n;
  wf_files q f : files s !! q = Some f -> is_Some (nodes s !! f_vn f) /\ 0 <= f_offset f < 2 ^ 64 /\ f_refcount f = 1;
  wf_ext p : p ∈ ext -> is_Some (nodes s !! p);
  wf_nfiles : Z.of_nat (size (files s)) <= 2 ^ 31 }.

(** Two states that differ at most in reference counts. *)
Definition tree s : gmap Z node := (fun n => set_refcount n 0) <$> nodes s.
Record same s s' : Prop := {
  same_live : u_live (heap s') = u_live (heap s);
  same_tree : tree s' = tree s;
  same_ino : ramfs_next_ino s' = ramfs_next_ino s;
  same_root : vfs_root s' = vfs_root s;
  same_files : files s' = files s }.

#[global] Instance same_equiv : Equivalence same.
Proof. split; [done|by intros ?? []|intros ??? [] []; split; congruence]. Qed.

Lemma tree_lookup s p : tree s !! p = (fun n => set_refcount n 0) <$> nodes s !! p.
Proof. apply lookup_fmap. Qed.

Lemma tree_node s s' p n : tree s' = tree s -> nodes s !! p = Some n ->
  exists r, nodes s' !! p = Some (set_refcount n r).
Proof.
  intros T E. pose proof (f_equal (.!! p) T) as Tp. cbn in Tp. rewrite !tree_lookup, E in Tp.
  destruct (nodes s' !! p) as [n'|]; [|done]. apply (inj Some) in Tp. exists (refcount n').
  destruct n, n'. unfold set_refcount in *. simpl in *. congruence.
Qed.

Lemma tree_eq s s' : (forall p, (fun n => set_refcount n 0) <$> nodes s' !! p = (fun n => set_refcount n 0) <$> nodes s !! p) ->
  tree s' = tree s.
Proof. intros E. apply map_eq. intros p. by rewrite !tree_lookup. Qed.

Lemma linked_same s s' p : tree s' = tree s -> vfs_root s' = vfs_root s -> linked s' p = linked s p.
Proof.
  intros T R. unfold linked. rewrite R. f_equal.
  destruct (nodes s !! p) as [n|] eqn:E.
  - destruct (tree_node s s' p n T E) as [r ->]. cbn [parent set_refcount].
    destruct (nodes s !! parent n) as [d|] eqn:Ed.
    + by destruct (tree_node s s' _ d T Ed) as [rd ->].
    + destruct (nodes s' !! parent n) as [d|] eqn:Ed'; [|done].
      destruct (tree_node s' s _ d (eq_sym T) Ed'). congruence.
  - destruct (nodes s' !! p) as [d|] eqn:Ed'; [|done].
    destruct (tree_node s' s _ d (eq_sym T) Ed'). congruence.
Qed.

Lemma name_same s s' p : tree s' = tree s -> name_of s' p = name_of s p.
Proof.
  intros T. unfold name_of. destruct (nodes s !! p) as [n|] eqn:E.
  - by destruct (tree_node s s' p n T E) as [r ->].
  - destruct (nodes s' !! p) as [d|] eqn:Ed'; [|done].
    destruct (tree_node s' s _ d (eq_sym T) Ed'). congruence.
Qed.

#[global] Instance linked_proper : Proper (same ==> eq ==> eq) linked.
Proof. intros s s' S p ? <-. symmetry. apply linked_same; apply S. Qed.
#[global] Instance name_proper : Proper (same ==> eq ==> eq) name_of.
Proof. intros s s' S p ? <-. symmetry. apply name_same, S. Qed.
#[global] Instance opens_proper : Proper (same ==> eq ==> eq) opens.
Proof. intros s s' [] p ? <-. unfold opens. by rewrite same_files0. Qed.

Lemma opens_nonneg s p : 0 <= opens s p.
Proof. unfold opens. lia. Qed.
Lemma held_nonneg ext p : 0 <= held ext p.
Proof. apply countb_nonneg. Qed.
Lemma held_cons q ext p : held (q :: ext) p = (if p =? q then 1 else 0) + held ext p.
Proof. apply countb_cons. Qed.

Lemma opens_le s p : opens s p <= Z.of_nat (size (files s)).
Proof. unfold opens. apply inj_le, map_subseteq_size, map_filter_subseteq. Qed.

Lemma opens_pos s q f : files s !! q = Some f -> 0 < opens s (f_vn f).
Proof.
  intros E. unfold opens. enough (size (filter (fun kf => f_vn kf.2 = f_vn f) (files s)) <> 0%nat) by lia.
  apply map_size_non_empty_iff. intros E0. by apply (map_filter_empty_not_lookup _ _ q f) in E0.
Qed.

Lemma refcount_bound ext s p n :
  fs_wf ext s -> zlen ext <= 2 ^ 30 -> nodes s !! p = Some n -> 0 < refcount n < 2 ^ 32 - 1.
Proof.
  intros W L E. pose proof (wf_nodes _ _ W p n E) as K. rewrite (ok_ref _ _ _ _ K). split.
  - rewrite <- (ok_ref _ _ _ _ K). apply K.
  - pose proof (opens_le s p). pose proof (wf_nfiles _ _ W). pose proof (countb_le_length (Z.eqb p) ext).
    unfold held. destruct (linked s p); lia.
Qed.

Lemma node_nonzero ext s p n : fs_wf ext s -> nodes s !! p = Some n -> p <> 0.
Proof.
  intros W E ->. destruct (wf_own _ _ W) as [own O]. pose proof (own_node _ _ O 0 n E) as On.
  destruct (own_live _ _ O 0) as [z L]; [by rewrite On|]. by rewrite u_live_law in L by apply W.
Qed.

Lemma own_same own s s' : owns own s -> same s s' -> owns own s'.
Proof.
  intros [OL ON OD OF] S. assert (forall p n, nodes s' !! p = Some n -> exists r, nodes s !! p = Some (set_refcount n r)) as B.
  { intros p n. apply tree_node. symmetry. apply S. }
  split.
  - intros p. rewrite (same_live _ _ S). apply OL.
  - intros p n E. destruct (B p n E) as [r E']. by eapply ON.
  - intros p n E D. destruct (B p n E) as [r E']. by apply (OD p _ E').
  - intros q f. rewrite (same_files _ _ S). apply OF.
Qed.

(** The invariant moves along [same], given the new counts. *)
Lemma wf_same ext ext' s s' :
  fs_wf ext s -> same s s' -> u_wf (heap s') ->
  (forall p n, nodes s' !! p = Some n -> 0 < refcount n /\
     refcount n = (if linked s p then 1 else 0) + opens s p + held ext' p) ->
  (forall p, p ∈ ext' -> is_Some (nodes s !! p)) -> fs_wf ext' s'.
Proof.
  intros W S U R X. assert (forall p, is_Some (nodes s !! p) -> is_Some (nodes s' !! p)) as F.
  { intros p [n E]. destruct (tree_node s s' p n (same_tree _ _ S) E) as [r ->]. eauto. }
  split.
  - done.
  - destruct (wf_own _ _ W) as [own O]. exists own. by eapply own_same.
  - destruct (wf_root _ _ W) as (r & E & T & P). rewrite (same_root _ _ S).
    destruct (tree_node s s' _ r (same_tree _ _ S) E) as [k ->]. by eexists.
  - intros p n' E. destruct (R p n' E) as [Rp Rr].
    destruct (tree_node s' s p n' (eq_sym (same_tree _ _ S)) E) as [k E0].
    destruct (wf_nodes _ _ W p _ E0) as [K1 K2 K3 K4 K5 K6 K7 K8 K9]. cbn in *. split; try done.
    + by rewrite <- S.
    + by rewrite <- S.
    + intros c Hc. rewrite (same_root _ _ S). destruct (K5 c Hc) as [? (nc & Ec & Pc)]. split; [done|].
      destruct (tree_node s s' c nc (same_tree _ _ S) Ec) as [rc ->]. by eexists.
    + erewrite list_fmap_ext; [exact K6|]. intros i c _. by rewrite S.
  - intros q f. rewrite (same_files _ _ S). intros E. destruct (wf_files _ _ W q f E) as (V & ? & ?). auto.
  - auto.
  - rewrite (same_files _ _ S). apply W.
Qed.

Lemma set_refcount_same s p n r : nodes s !! p = Some n -> same s (set_node s p (set_refcount n r)).
Proof.
  intros E. split; try done. apply tree_eq. intros q. cbn [nodes set_node]. rewrite lookup_insert.
  case_decide; [subst; by rewrite E|done].
Qed.

Lemma vnode_ref_spec ext s p n :
  fs_wf ext s -> zlen ext < 2 ^ 30 -> nodes s !! p = Some n ->
  exists s', vnode_ref s p = Some s' /\ same s s' /\ fs_wf (p :: ext) s'.
Proof.
  intros W L E. pose proof (node_nonzero _ _ _ _ W E). pose proof (refcount_bound ext s p n W ltac:(lia) E).
  unfold vnode_ref. zif; [lia|]. rewrite E. cbn [mbind option_bind]. eexists. split; [done|].
  pose proof (set_refcount_same s p n (u32 (refcount n + 1)) E) as S. split; [done|].
  eapply wf_same; [done|done|apply W| |].
  - intros q m. cbn [nodes set_node]. rewrite lookup_insert, held_cons. case_decide as Hq.
    + intros [= <-]. subst q. cbn [refcount set_refcount]. rewrite u32_small, Z.eqb_refl by lia.
      pose proof (ok_ref _ _ _ _ (wf_nodes _ _ W p n E)). lia.
    + intros Em. pose proof (wf_nodes _ _ W q m Em) as K. split; [apply K|]. rewrite (ok_ref _ _ _ _ K). destruct (Z.eqb_spec q p); lia.
  - intros q [->|Hq]%elem_of_cons; [eauto|by apply W].
Qed.

(** Dropping a reference that is not the last one. *)
Lemma vnode_unref_keep ext s p :
  fs_wf (p :: ext) s -> zlen ext < 2 ^ 30 -> 0 < (if linked s p then 1 else 0) + opens s p + held ext p ->
  exists s', vnode_unref s p = Some s' /\ same s s' /\ fs_wf ext s'.
Proof.
  intros W L Hp. destruct (wf_ext _ _ W p) as [n E]; [set_solver|]. pose proof (node_nonzero _ _ _ _ W E).
  pose proof (wf_nodes _ _ W p n E) as K. pose proof (ok_ref _ _ _ _ K) as R. rewrite held_cons, Z.eqb_refl in R.
  pose proof (refcount_bound (p :: ext) s p n W ltac:(rewrite zlen_cons; lia) E).
  unfold vnode_unref. cbn [vnode_unref_fuel]. zif; [lia|]. rewrite E. cbn [mbind option_bind refcount set_refcount].
  rewrite u32_small by lia. zif; [lia|]. zif; [lia|]. eexists. split; [done|].
  pose proof (set_refcount_same s p n (refcount n - 1) E) as S. split; [done|].
  eapply wf_same; [done|done|apply W| |].
  - intros q m. cbn [nodes set_node]. rewrite lookup_insert. case_decide as Hq.
    + intros [= <-]. subst q. cbn [refcount set_refcount]. lia.
    + intros Em. pose proof (wf_nodes _ _ W q m Em) as Kq. split; [apply Kq|]. rewrite (ok_ref _ _ _ _ Kq), held_cons.
      destruct (Z.eqb_spec q p); lia.
  - intros q Hq. apply W. by right.
Qed.

Lemma child_linked ext s d dn c : fs_wf ext s -> nodes s !! d = Some dn -> c ∈ children dn -> linked s c = true.
Proof.
  intros W E Hc. destruct (ok_child _ _ _ _ (wf_nodes _ _ W d dn E) c Hc) as [_ (nc & Ec & P)].
  unfold linked. rewrite Ec, P, E. rewrite bool_decide_eq_true_2 by done. apply orb_true_r.
Qed.

(** Freeing the blocks of a node leaves every other block's owner. *)
Lemma free_node_own own s p n :
  u_wf (heap s) -> owns own s -> nodes s !! p = Some n ->
  u_wf (heap (free_node s p n)) /\
  exists own', owns own' (free_node s p n) /\ forall q, own !! q = Some TFile -> own' !! q = Some TFile.
Proof.
  intros W O E. pose proof (own_node _ _ O p n E) as Op.
  set (own1 := if data n =? 0 then own else delete (data n) own).
  set (h1 := if data n =? 0 then heap s else u_free (data n) (heap s)).
  assert (u_wf h1 /\ (forall q, is_Some (own1 !! q) -> is_Some (u_live h1 !! q)) /\ own1 !! p = Some TNode /\
    forall q t, own !! q = Some t -> t <> TData p -> own1 !! q = Some t) as (W1 & L1 & Op1 & K1).
  { unfold own1, h1. destruct (Z.eqb_spec (data n) 0) as [D|D].
    - split; [done|]. split; [apply O|]. auto.
    - pose proof (own_data _ _ O p n E D) as Od.
      destruct (u_free_law (heap s) (data n) W) as (Wf & _ & Lf); [apply O; by rewrite Od|]. split; [done|]. split; [|split].
      + intros q. rewrite Lf, !lookup_delete. case_decide; [by intros []|apply O].
      + rewrite lookup_delete_ne; [done|]. intros Hd. rewrite Hd in Od. congruence.
      + intros q t Hq Ht. rewrite lookup_delete_ne; [done|]. intros <-. congruence. }
  assert (heap (free_node s p n) = u_free p h1) as Hh by (unfold free_node, h1; by destruct (data n =? 0)).
  assert (nodes (free_node s p n) = delete p (nodes s) /\ files (free_node s p n) = files s) as [Hn Hf]
    by (unfold free_node; by destruct (data n =? 0)).
  destruct (u_free_law h1 p W1) as (Wf & _ & Lf); [by apply L1; rewrite Op1|]. rewrite Hh. split; [done|].
  exists (delete p own1). split; [|intros q Hq; rewrite lookup_delete_ne by congruence; by apply K1].
  split.
  - intros q. rewrite Hh, Lf, !lookup_delete. case_decide; [by intros []|apply L1].
  - intros q m. rewrite Hn, lookup_delete_Some. intros [Hq Em]. rewrite lookup_delete_ne by done.
    apply K1; [by eapply O|done].
  - intros q m. rewrite Hn, lookup_delete_Some. intros [Hq Em] D. pose proof (own_data _ _ O q m Em D) as Od.
    rewrite lookup_delete_ne by congruence. apply K1; [done|]. by intros [= ->].
  - intros q f. rewrite Hf. intros Ef. pose proof (own_file _ _ O q f Ef) as Of.
    rewrite lookup_delete_ne by congruence. by apply K1.
Qed.

Lemma linked_delete s s' p n q :
  nodes s !! p = Some n -> children n = [] -> p <> vfs_root s ->
  nodes s' = delete p (nodes s) -> vfs_root s' = vfs_root s -> linked s' q = negb (q =? p) && linked s q.
Proof.
  intros E Hleaf Hr Nn Nr. unfold linked. rewrite Nr, Nn. destruct (Z.eqb_spec q p) as [->|Hq]; cbn [negb andb].
  - by rewrite lookup_delete_eq, (proj2 (Z.eqb_neq _ _) Hr).
  - f_equal. rewrite lookup_delete_ne by done. destruct (nodes s !! q) as [m|]; [|done].
    destruct (decide (parent m = p)) as [->|Hpm]; [|by rewrite lookup_delete_ne].
    rewrite lookup_delete_eq, E, Hleaf. symmetry. apply bool_decide_eq_false_2, not_elem_of_nil.
Qed.

Lemma unlinked_not_root s p : linked s p = false -> p <> vfs_root s.
Proof. intros Hl ->. unfold linked in Hl. by rewrite Z.eqb_refl in Hl. Qed.

(** The state with an unlinked node gone. *)
Lemma wf_delete ext s s' p n :
  fs_wf (p :: ext) s -> nodes s !! p = Some n -> linked s p = false -> opens s p = 0 -> held ext p = 0 ->
  nodes s' = delete p (nodes s) -> files s' = files s -> vfs_root s' = vfs_root s ->
  u_wf (heap s') -> (exists own, owns own s') -> fs_wf ext s'.
Proof.
  intros W E Hl Ho Hh Nn Nf Nr Uh Uo.
  assert (forall q, q <> p -> nodes s' !! q = nodes s !! q) as F by (intros q Hq; by rewrite Nn, lookup_delete_ne).
  pose proof (ok_leaf _ _ _ _ (wf_nodes _ _ W p n E) Hl) as Hleaf.
  pose proof (unlinked_not_root s p Hl) as Hr.
  assert (forall q, q <> p -> linked s' q = linked s q) as Fl.
  { intros q Hq. rewrite (linked_delete s s' p n q) by done. by rewrite (proj2 (Z.eqb_neq q p)). }
  split; try done.
  - destruct (wf_root _ _ W) as (r & Er & T & P). exists r. by rewrite Nr, F by congruence.
  - intros q m. rewrite Nn, lookup_delete_Some. intros [Hq Em].
    destruct (wf_nodes _ _ W q m Em) as [K1 K2 K3 K4 K5 K6 K7 K8 K9].
    assert (forall c, c ∈ children m -> c <> p) as Hc.
    { intros c Hc ->. by rewrite (child_linked _ _ _ _ _ W Em Hc) in Hl. }
    split; try done.
    + rewrite K1, Fl, held_cons by congruence. unfold opens. rewrite Nf. destruct (Z.eqb_spec q p); [congruence|lia].
    + by rewrite Fl by congruence.
    + intros c Cc. rewrite Nr, F by auto. auto.
    + erewrite list_fmap_ext; [exact K6|]. intros i c Ci. unfold name_of. rewrite F; [done|].
      eapply Hc, list_elem_of_lookup_2, Ci.
  - intros q f. rewrite Nf. intros Ef. destruct (wf_files _ _ W q f Ef) as (V & ? & ?). split; [|done].
    rewrite F; [done|]. intros V'. pose proof (opens_pos s q f Ef) as Hp. rewrite V' in Hp. lia.
  - intros q Hq. rewrite F; [apply W; by right|]. intros ->. unfold held in Hh.
    pose proof (countb_pos (Z.eqb p) ext p Hq (Z.eqb_refl p)). lia.
  - rewrite Nf. apply W.
Qed.

(** [q] is the block of a file object. *)
Definition file_block s q : Prop := exists own, owns own s /\ own !! q = Some TFile.

(** Dropping the last reference frees the node. *)
Lemma vnode_unref_last ext s p :
  fs_wf (p :: ext) s -> zlen ext < 2 ^ 30 -> linked s p = false -> opens s p = 0 -> held ext p = 0 ->
  exists s', vnode_unref s p = Some s' /\ fs_wf ext s' /\ nodes s' = delete p (nodes s) /\
    files s' = files s /\ vfs_root s' = vfs_root s /\ ramfs_next_ino s' = ramfs_next_ino s /\
    forall q, file_block s q -> file_block s' q.
Proof.
  intros W L Hl Ho Hh. destruct (wf_ext _ _ W p) as [n E]; [set_solver|]. pose proof (node_nonzero _ _ _ _ W E).
  pose proof (wf_nodes _ _ W p n E) as K. pose proof (ok_ref _ _ _ _ K) as R.
  rewrite held_cons, Z.eqb_refl, Hl, Ho, Hh in R. change (refcount n = 1) in R.
  pose proof (ok_leaf _ _ _ _ K Hl) as Hc.
  unfold vnode_unref. cbn [vnode_unref_fuel]. zif; [lia|]. rewrite E. cbn [mbind option_bind refcount set_refcount].
  rewrite R. change (u32 (1 - 1)) with 0. change (1 =? 0) with false. change (0 =? 0) with true. cbv iota.
  set (s1 := set_node s p (set_refcount n 0)). assert (nodes s1 !! p = Some (set_refcount n 0)) as E1 by apply lookup_insert_eq.
  unfold ramfs_destroy. rewrite E1. cbn [mbind option_bind children set_refcount]. rewrite Hc. cbn [foldl mbind option_bind]. rewrite E1.
  cbn [mbind option_bind].
  destruct (wf_own _ _ W) as [own O].
  destruct (free_node_own own s1 p (set_refcount n 0)) as [Wh Wo]; [apply W|eapply own_same, set_refcount_same; done|done|]. destruct Wo as (own' & Wo & _).
  assert (nodes (free_node s1 p (set_refcount n 0)) = delete p (nodes s) /\
    files (free_node s1 p (set_refcount n 0)) = files s /\ vfs_root (free_node s1 p (set_refcount n 0)) = vfs_root s /\
    ramfs_next_ino (free_node s1 p (set_refcount n 0)) = ramfs_next_ino s) as (N1 & N2 & N3 & N4).
  { unfold free_node. destruct (data _ =? 0); cbn; rewrite delete_insert_eq; auto. }
  eexists. split; [done|]. split; [by eapply (wf_delete ext s); eauto|]. do 4 (split; [done|]). intros q (ow & Ow & Oq).
  destruct (free_node_own ow s1 p (set_refcount n 0)) as [_ (ow' & Ow' & Kq)]; [apply W|eapply own_same, set_refcount_same; done|done|].
  exists ow'. auto.
Qed.

(** *** Names in a directory *)

(** The child of the listed nodes that goes by [nm]. *)
Definition child s (cs : list Z) (nm : list Z) : option Z := head (filter (fun c => name_of s c = nm) cs).

Definition named s (cs : list Z) : Prop := forall c, c ∈ cs -> exists n, nodes s !! c = Some n /\ 0 ∈ nname n.

Lemma named_children ext s d dn : fs_wf ext s -> nodes s !! d = Some dn -> named s (children dn).
Proof.
  intros W E c Hc. destruct (ok_child _ _ _ _ (wf_nodes _ _ W d dn E) c Hc) as [_ (nc & Ec & _)].
  exists nc. split; [done|]. apply (ok_name _ _ _ _ (wf_nodes _ _ W c nc Ec)).
Qed.

Lemma named_cons s c cs name : named s (c :: cs) -> 0 ∈ name ->
  exists n, nodes s !! c = Some n /\ xs_streq (nname n) name = bool_decide (name_of s c = cstr name) /\ named s cs.
Proof.
  intros N Z0. destruct (N c) as (n & E & Zn); [left|]. exists n. split; [done|]. split.
  - unfold name_of. rewrite E. by apply xs_streq_spec.
  - intros x Hx. apply N. by right.
Qed.

Lemma child_cons s c cs nm : child s (c :: cs) nm = if bool_decide (name_of s c = nm) then Some c else child s cs nm.
Proof. unfold child. rewrite filter_cons. case_decide; [by rewrite bool_decide_eq_true_2|by rewrite bool_decide_eq_false_2]. Qed.

Lemma child_Some s cs nm c : child s cs nm = Some c -> c ∈ cs /\ name_of s c = nm.
Proof.
  induction cs as [|x cs IH]; [done|]. rewrite child_cons. case_bool_decide as Hx.
  - intros [= ->]. split; [left|done].
  - intros E. destruct (IH E). split; [by right|done].
Qed.

Lemma child_None s cs nm : child s cs nm = None <-> nm ∉ (name_of s <$> cs).
Proof.
  induction cs as [|x cs IH]; [split; [set_solver|done]|]. rewrite child_cons, fmap_cons, not_elem_of_cons.
  case_bool_decide as Hx; [naive_solver|]. rewrite IH. naive_solver.
Qed.

Lemma child_elem s cs c : NoDup (name_of s <$> cs) -> c ∈ cs -> child s cs (name_of s c) = Some c.
Proof.
  induction cs as [|x cs IH]; intros N Hc; [by apply not_elem_of_nil in Hc|]. rewrite child_cons.
  rewrite fmap_cons in N. apply NoDup_cons in N as [Nx N].
  apply elem_of_cons in Hc as [->|Hc]; [by rewrite bool_decide_eq_true_2|].
  rewrite bool_decide_eq_false_2; [by apply IH|]. intros Hx. apply Nx. rewrite Hx. by apply list_elem_of_fmap_2.
Qed.

Lemma ramfs_find_loop_spec s cs name : named s cs -> 0 ∈ name ->
  find_loop (nodes s) cs name = Some (default 0 (child s cs (cstr name))).
Proof.
  induction cs as [|c cs IH]; intros N Z0; [done|]. destruct (named_cons _ _ _ _ N Z0) as (n & E & Q & N').
  cbn [find_loop]. rewrite E, child_cons. cbn [mbind option_bind]. rewrite Q. case_bool_decide; [done|by apply IH].
Qed.

Lemma unlink_loop_spec s cs name : named s cs -> 0 ∈ name ->
  match child s cs (cstr name) with
  | None => unlink_loop (nodes s) cs name = Some None
  | Some c => exists pre post, cs = pre ++ c :: post /\ unlink_loop (nodes s) cs name = Some (Some (c, pre ++ post))
  end.
Proof.
  induction cs as [|c cs IH]; intros N Z0; [done|]. destruct (named_cons _ _ _ _ N Z0) as (n & E & Q & N').
  cbn [unlink_loop]. rewrite E, child_cons. cbn [mbind option_bind]. rewrite Q. case_bool_decide.
  - by exists [], cs.
  - specialize (IH N' Z0). destruct (child s cs (cstr name)) as [x|].
    + destruct IH as (pre & post & -> & ->). by exists (c :: pre), post.
    + by rewrite IH.
Qed.

(** *** A new node in a directory *)

Definition new_node (s : fs A) (dir type mode : Z) (name : list Z) : node :=
  MkNode (ramfs_next_ino s) type mode 1 0 dir (xs_strcpy (replicate 256 0) name 256) 0 [] 0 [].

(** [s'] is [s] with the node [p] linked into [dir]. *)
Record links s (dir : Z) (d : node) (p : Z) (n : node) s' : Prop := {
  ln_fresh : nodes s !! p = None;
  ln_nodes : nodes s' = <[dir := set_children d (p :: children d)]> (<[p := n]> (nodes s));
  ln_files : files s' = files s;
  ln_root : vfs_root s' = vfs_root s;
  ln_ino : ramfs_next_ino s' = u64 (ramfs_next_ino s + 1) }.

Lemma fresh_unused ext s p : fs_wf ext s -> nodes s !! p = None -> opens s p = 0 /\ held ext p = 0 /\ p <> vfs_root s.
Proof.
  intros W E. split; [|split].
  - unfold opens. enough (filter (fun kf => f_vn kf.2 = p) (files s) = ∅) as -> by done.
    apply map_empty. intros q. apply map_lookup_filter_None_2. right. intros f Ef V. destruct (wf_files _ _ W q f Ef) as ([m Em] & _). simpl in V. congruence.
  - unfold held. destruct (Z.eq_dec (countb (Z.eqb p) ext) 0) as [|Hne]; [done|].
    assert (exists x, x ∈ ext /\ p =? x = true) as (x & Hx & Ex).
    { clear -Hne. induction ext as [|x ext IH]; [done|]. rewrite countb_cons in Hne.
      destruct (p =? x) eqn:Ex; [exists x; split; [left|done]|]. destruct IH as (y & ? & ?); [lia|]. exists y. split; [by right|done]. }
    apply Z.eqb_eq in Ex as <-. destruct (wf_ext _ _ W p Hx). congruence.
  - intros ->. destruct (wf_root _ _ W) as (r & Er & _). congruence.
Qed.

Lemma links_frame s dir d p n s' q :
  links s dir d p n s' -> nodes s !! dir = Some d -> q <> p -> q <> dir -> nodes s' !! q = nodes s !! q.
Proof. intros L E Hp Hd. by rewrite (ln_nodes _ _ _ _ _ _ L), !lookup_insert_ne. Qed.

Lemma links_dir s dir d p n s' : links s dir d p n s' -> nodes s' !! dir = Some (set_children d (p :: children d)).
Proof. intros L. rewrite (ln_nodes _ _ _ _ _ _ L). apply lookup_insert_eq. Qed.

Lemma links_new s dir d p n s' : links s dir d p n s' -> nodes s !! dir = Some d -> nodes s' !! p = Some n.
Proof.
  intros L E. rewrite (ln_nodes _ _ _ _ _ _ L), lookup_insert_ne; [apply lookup_insert_eq|].
  intros ->. rewrite (ln_fresh _ _ _ _ _ _ L) in E. done.
Qed.

(** A node of [s] in [s']: the same up to the child list. *)
Lemma links_old s dir d p n s' q m :
  links s dir d p n s' -> nodes s !! dir = Some d -> nodes s !! q = Some m ->
  nodes s' !! q = Some (if q =? dir then set_children m (p :: children m) else m).
Proof.
  intros L E Em. destruct (Z.eqb_spec q dir) as [->|Hq].
  - rewrite (links_dir _ _ _ _ _ _ L). congruence.
  - rewrite (links_frame s dir d p n s') by (try done; intros ->; rewrite (ln_fresh _ _ _ _ _ _ L) in Em; done). done.
Qed.

Lemma links_name s dir d p n s' q :
  links s dir d p n s' -> nodes s !! dir = Some d ->
  name_of s' q = if q =? p then cstr (nname n) else name_of s q.
Proof.
  intros L E. unfold name_of. destruct (Z.eqb_spec q p) as [->|Hq].
  - by rewrite (links_new _ _ _ _ _ _ L E).
  - destruct (decide (q = dir)) as [->|Hd]; [by rewrite (links_dir _ _ _ _ _ _ L), E|].
    by rewrite (links_frame s dir d p n s').
Qed.

Lemma links_linked s dir d p n s' q :
  links s dir d p n s' -> nodes s !! dir = Some d -> parent n = dir -> children n = [] ->
  linked s' q = (q =? p) || linked s q.
Proof.
  intros L E P Cn. unfold linked. rewrite (ln_root _ _ _ _ _ _ L). destruct (Z.eqb_spec q p) as [->|Hq].
  - rewrite (links_new _ _ _ _ _ _ L E), P, (links_dir _ _ _ _ _ _ L). cbn [children set_children].
    rewrite bool_decide_eq_true_2 by left. by rewrite orb_true_r.
  - cbn [orb]. f_equal. destruct (nodes s !! q) as [m|] eqn:Em.
    + rewrite (links_old s dir d p n s' q m L E Em). 
      replace (parent (if q =? dir then set_children m (p :: children m) else m)) with (parent m) by by destruct (q =? dir).
      destruct (decide (parent m = p)) as [->|Hp]; [|destruct (decide (parent m = dir)) as [->|Hd]].
      * rewrite (links_new _ _ _ _ _ _ L E), (ln_fresh _ _ _ _ _ _ L), Cn. apply bool_decide_eq_false_2, not_elem_of_nil.
      * rewrite (links_dir _ _ _ _ _ _ L), E. cbn [children set_children]. apply bool_decide_ext. set_solver.
      * by rewrite (links_frame s dir d p n s').
    + rewrite (links_frame s dir d p n s'), Em by (done || congruence). done.
Qed.

(** Linking a fresh, empty node into a linked directory keeps the invariant. *)
Lemma links_wf ext s dir d p n s' :
  fs_wf ext s -> links s dir d p n s' -> nodes s !! dir = Some d -> linked s dir = true -> ntype d = VFS_TYPE_DIR ->
  refcount n = 1 -> parent n = dir -> children n = [] -> data n = 0 -> capacity n = 0 -> buf n = [] -> vsize n = 0 ->
  zlen (nname n) = 256 -> 0 ∈ nname n -> cstr (nname n) ∉ (name_of s <$> children d) ->
  u_wf (heap s') -> (exists own, owns own s') -> fs_wf ext s'.
Proof.
  intros W L E Ld Td Rn Pn Cn Dn Kn Bn Vn Ln Zn Nn Uh Uo. pose proof (fresh_unused ext s p W (ln_fresh _ _ _ _ _ _ L)) as (Fo & Fh & Fr).
  assert (forall q m, nodes s !! q = Some m -> q <> p) as Np.
  { intros q m Em ->. by rewrite (ln_fresh _ _ _ _ _ _ L) in Em. }
  assert (forall q, is_Some (nodes s !! q) -> is_Some (nodes s' !! q)) as Mono.
  { intros q [m Em]. rewrite (links_old s dir d p n s' q m L E Em). eauto. }
  assert (forall q, opens s' q = opens s q) as Op by (intros q; unfold opens; by rewrite (ln_files _ _ _ _ _ _ L)).
  assert (forall cs : list Z, (forall c, c ∈ cs -> c <> p) -> name_of s' <$> cs = name_of s <$> cs) as Nm.
  { intros cs Hcs. apply list_fmap_ext. intros i c Hc. rewrite (links_name s dir d p n s' c L E).
    destruct (Z.eqb_spec c p); [|done]. exfalso. eapply (Hcs c); [by eapply list_elem_of_lookup_2|done]. }
  split; try done.
  - destruct (wf_root _ _ W) as (r & Er & T & P). rewrite (ln_root _ _ _ _ _ _ L), (links_old s dir d p n s' _ r L E Er).
    eexists. split; [done|]. by destruct (_ =? dir).
  - intros q m' Em'. destruct (decide (q = p)) as [->|Hq].
    + rewrite (links_new _ _ _ _ _ _ L E) in Em'. injection Em' as <-. split; try done.
      * rewrite (links_linked s dir d p n s' p), Op, Fo, Fh, Z.eqb_refl by done. done.
      * by rewrite Rn.
      * rewrite Cn. set_solver.
      * rewrite Cn. constructor.
      * rewrite Bn, Kn, Vn. unfold zlen. simpl. lia.
    + destruct (nodes s !! q) as [m|] eqn:Em; [|rewrite (links_frame s dir d p n s') in Em' by (done || congruence); congruence].
      pose proof Em' as Em2. rewrite (links_old s dir d p n s' q m L E Em) in Em2. injection Em2 as Em2.
      destruct (wf_nodes _ _ W q m Em) as [K1 K2 K3 K4 K5 K6 K7 K8 K9].
      assert (forall c, c ∈ children m -> c <> p) as Hc.
      { intros c Cc ->. destruct (K5 p Cc) as [_ (nc & Ec & _)]. by apply (Np p nc). }
      assert (linked s' q = linked s q) as Lq.
      { rewrite (links_linked s dir d p n s' q) by done. by destruct (Z.eqb_spec q p). }
      destruct (Z.eqb_spec q dir) as [->|Hd]; subst m'.
      * assert (m = d) as -> by congruence. split; cbn; try done.
        -- by rewrite Lq, Op.
        -- by rewrite Lq, Ld.
        -- intros c [->|Cc]%elem_of_cons; rewrite (ln_root _ _ _ _ _ _ L).
           ++ split; [done|]. exists n. by rewrite (links_new _ _ _ _ _ _ L E).
           ++ destruct (K5 c Cc) as [? (nc & Ec & Pc)]. split; [done|]. rewrite (links_old s dir d p n s' c nc L E Ec).
              eexists. split; [done|]. by destruct (c =? dir).
        -- rewrite (links_name s dir d p n s' p L E), Z.eqb_refl, Nm by done. by apply NoDup_cons.
      * split; try done.
        -- by rewrite Lq, Op.
        -- by rewrite Lq.
        -- intros c Cc. rewrite (ln_root _ _ _ _ _ _ L). destruct (K5 c Cc) as [? (nc & Ec & Pc)]. split; [done|].
           rewrite (links_old s dir d p n s' c nc L E Ec). eexists. split; [done|]. by destruct (c =? dir).
        -- by rewrite Nm.
  - intros q f. rewrite (ln_files _ _ _ _ _ _ L). intros Ef. destruct (wf_files _ _ W q f Ef) as (V & ? & ?). auto.
  - intros q Hq. apply Mono, W, Hq.
  - rewrite (ln_files _ _ _ _ _ _ L). apply W.
Qed.

Lemma own_fresh own s p : owns own s -> u_live (heap s) !! p = None -> own !! p = None /\ nodes s !! p = None /\ files s !! p = None.
Proof.
  intros O E. assert (own !! p = None) as Eo.
  { destruct (own !! p) eqn:Ep; [|done]. destruct (own_live _ _ O p) as [z Hz]; [by rewrite Ep|congruence]. }
  split; [done|]. split.
  - destruct (nodes s !! p) eqn:En; [|done]. rewrite (own_node _ _ O p _ En) in Eo. done.
  - destruct (files s !! p) eqn:En; [|done]. rewrite (own_file _ _ O p _ En) in Eo. done.
Qed.

(** An allocation that failed changes nothing that counts. *)
Lemma wf_set_heap ext s h :
  fs_wf ext s -> u_wf h -> u_live h = u_live (heap s) -> same s (set_heap s h) /\ fs_wf ext (set_heap s h).
Proof.
  intros W Wh L. assert (same s (set_heap s h)) as S by by split. split; [done|].
  eapply wf_same; [done|done|done| |apply W].
  intros p n E. destruct (wf_nodes _ _ W p n E). done.
Qed.

Lemma link_new_spec ext s dir d name type mode :
  fs_wf ext s -> nodes s !! dir = Some d -> linked s dir = true -> ntype d = VFS_TYPE_DIR ->
  0 ∈ name -> zlen (cstr name) <= VFS_NAME_MAX -> child s (children d) (cstr name) = None ->
  exists p s', link_new s dir name type mode = Some (p, s') /\ fs_wf ext s' /\
    if p =? 0 then same s s' /\ nodes s' = nodes s else links s dir d p (new_node s dir type mode name) s'.
Proof.
  intros W E Ld Td Zn Ln Cn. unfold link_new, ramfs_new_node.
  destruct (u_calloc 1 sizeof_ramfs_node (heap s)) as [p h] eqn:Ea.
  destruct (u_calloc_law (heap s) 1 sizeof_ramfs_node p h (wf_heap _ _ W) ltac:(lia) ltac:(unfold sizeof_ramfs_node; lia) Ea) as [Uw _ _ Uf Us].
  destruct (Z.eqb_spec p 0) as [->|Hp].
  - cbn [Z.eqb]. exists 0, (set_heap s h). destruct (wf_set_heap ext s h W Uw (Uf eq_refl)). done.
  - destruct (Us Hp) as (Fl & sz & _ & Lh & _). destruct (wf_own _ _ W) as [own O].
    destruct (own_fresh own s p O Fl) as (Fo & Fn & Ff).
    assert (dir <> p) as Hdp by congruence.
    rewrite (proj2 (Z.eqb_neq p 0) Hp). cbn [nodes mbind option_bind]. rewrite lookup_insert_eq. cbn [mbind option_bind].
    cbn [set_node nodes]. rewrite !lookup_insert_ne, E by done.
    cbn [mbind option_bind]. eexists p, _. split; [done|]. rewrite (proj2 (Z.eqb_neq p 0) Hp). change (Z.to_nat (VFS_NAME_MAX + 1)) with 256%nat.
    match goal with |- fs_wf ext ?x /\ _ => set (s' := x) end.
    assert (links s dir d p (new_node s dir type mode name) s') as L.
    { split; try done. cbn [nodes s' set_node]. by rewrite insert_insert_eq. }
    split; [|done]. destruct (xs_strcpy_name (replicate 256 0) name) as (N1 & N2 & N3); [done|done|].
    eapply (links_wf ext s dir d p); try done; cbn [nname new_node].
    + rewrite N2. by apply child_None.
    + assert (forall q m, <[dir := set_children d (p :: children d)]> (<[p := new_node s dir type mode name]> (nodes s)) !! q = Some m ->
        p <> q -> exists m0, nodes s !! q = Some m0 /\ data m0 = data m) as Old.
      { intros q m Em Hq. rewrite lookup_insert in Em. case_decide; [injection Em as <-; subst; by exists d|].
        rewrite lookup_insert_ne in Em by done. by exists m. }
      exists (<[p := TNode]> own).
      split; rewrite ?(ln_nodes _ _ _ _ _ _ L), ?(ln_files _ _ _ _ _ _ L).
      * intros q. change (heap s') with h. rewrite Lh, !lookup_insert. case_decide; [eauto|apply O].
      * intros q m. destruct (decide (p = q)) as [<-|Hpq]; [by rewrite (lookup_insert_eq own)|].
        rewrite (lookup_insert_ne own) by done. intros (m0 & E0 & _)%Old; [|done]. by apply (own_node _ _ O _ m0).
      * intros q m Em Dm. destruct (decide (p = q)) as [<-|Hpq].
        { rewrite lookup_insert_ne, lookup_insert_eq in Em by done. by injection Em as <-. }
        apply Old in Em as (m0 & E0 & D0); [|done]. rewrite <- D0 in *. pose proof (own_data _ _ O q m0 E0 Dm) as Od.
        rewrite lookup_insert_ne by congruence. done.
      * intros q f Ef. rewrite lookup_insert_ne by congruence. by eapply O.
Qed.

Lemma ramfs_lookup_spec ext s dir d name :
  fs_wf ext s -> zlen ext < 2 ^ 30 -> nodes s !! dir = Some d -> 0 ∈ name ->
  match child s (children d) (cstr name) with
  | None => ramfs_lookup s dir name = Some (- ENOENT, 0, s)
  | Some c => exists s', ramfs_lookup s dir name = Some (0, c, s') /\ same s s' /\ fs_wf (c :: ext) s'
  end.
Proof.
  intros W L E Zn. unfold ramfs_lookup. rewrite E. cbn [mbind option_bind]. unfold ramfs_find.
  pose proof (named_children _ _ _ _ W E) as N. rewrite ramfs_find_loop_spec by done. cbn [mbind option_bind].
  destruct (child s (children d) (cstr name)) as [c|] eqn:Ec; [|done]. cbn [default from_option id].
  apply child_Some in Ec as [Hc _]. destruct (N c Hc) as (n & En & _).
  pose proof (node_nonzero _ _ _ _ W En). rewrite (proj2 (Z.eqb_neq c 0)) by done.
  destruct (vnode_ref_spec ext s c n W L En) as (s' & -> & S & W'). by exists s'.
Qed.

Lemma find_none ext s dir d name :
  fs_wf ext s -> nodes s !! dir = Some d -> 0 ∈ name ->
  exists c, ramfs_find s d name = Some c /\
    negb (c =? 0) = match child s (children d) (cstr name) with Some _ => true | None => false end.
Proof.
  intros W E Zn. pose proof (named_children _ _ _ _ W E) as N. unfold ramfs_find. rewrite ramfs_find_loop_spec by done.
  eexists. split; [done|]. destruct (child s (children d) (cstr name)) as [c|] eqn:Ec; [|done]. cbn [default from_option id].
  apply child_Some in Ec as [Hc _]. destruct (N c Hc) as (n & En & _).
  pose proof (node_nonzero _ _ _ _ W En). by rewrite (proj2 (Z.eqb_neq c 0)).
Qed.

Lemma ramfs_create_spec ext s dir d name mode :
  fs_wf ext s -> zlen ext < 2 ^ 30 -> nodes s !! dir = Some d -> linked s dir = true -> ntype d = VFS_TYPE_DIR ->
  0 ∈ name -> zlen (cstr name) <= VFS_NAME_MAX ->
  match child s (children d) (cstr name) with
  | Some _ => ramfs_create s dir name mode = Some (- EEXIST, 0, s)
  | None =>
      (exists s', ramfs_create s dir name mode = Some (- ENOMEM, 0, s') /\ fs_wf ext s' /\ same s s') \/
      (exists c s1 s', ramfs_create s dir name mode = Some (0, c, s') /\ fs_wf (c :: ext) s' /\
         links s dir d c (new_node s dir VFS_TYPE_REG mode name) s1 /\ same s1 s')
  end.
Proof.
  intros W L E Ld Td Zn Ln. unfold ramfs_create. rewrite E. cbn [mbind option_bind].
  destruct (find_none ext s dir d name W E Zn) as (c & -> & Hc). cbn [mbind option_bind]. rewrite Hc.
  destruct (child s (children d) (cstr name)) as [x|] eqn:Ec; [done|].
  destruct (link_new_spec ext s dir d name VFS_TYPE_REG mode W E Ld Td Zn Ln Ec) as (p & s1 & -> & W1 & R).
  cbn [mbind option_bind]. destruct (Z.eqb_spec p 0); [left; exists s1; destruct R; done|]. right.
  pose proof (links_new _ _ _ _ _ _ R E) as En.
  destruct (vnode_ref_spec ext s1 p _ W1 L En) as (s' & -> & S & W'). by exists p, s1, s'.
Qed.

Lemma ramfs_mkdir_spec ext s dir d name mode :
  fs_wf ext s -> nodes s !! dir = Some d -> linked s dir = true -> ntype d = VFS_TYPE_DIR ->
  0 ∈ name -> zlen (cstr name) <= VFS_NAME_MAX ->
  match child s (children d) (cstr name) with
  | Some _ => ramfs_mkdir s dir name mode = Some (- EEXIST, s)
  | None =>
      (exists s', ramfs_mkdir s dir name mode = Some (- ENOMEM, s') /\ fs_wf ext s' /\ same s s') \/
      (exists c s', ramfs_mkdir s dir name mode = Some (0, s') /\ fs_wf ext s' /\
         links s dir d c (new_node s dir VFS_TYPE_DIR mode name) s')
  end.
Proof.
  intros W E Ld Td Zn Ln. unfold ramfs_mkdir. rewrite E. cbn [mbind option_bind].
  destruct (find_none ext s dir d name W E Zn) as (c & -> & Hc). cbn [mbind option_bind]. rewrite Hc.
  destruct (child s (children d) (cstr name)) as [x|] eqn:Ec; [done|].
  destruct (link_new_spec ext s dir d name VFS_TYPE_DIR mode W E Ld Td Zn Ln Ec) as (p & s1 & -> & W1 & R).
  cbn [mbind option_bind]. destruct (Z.eqb_spec p 0); [left; exists s1; destruct R; done|]. right. by exists p, s1.
Qed.

(** *** Taking a node out of a directory *)

Definition unlisted s (dir : Z) (d : node) (cs : list Z) : fs A := set_node s dir (set_children d cs).

Lemma unlisted_node s dir d cs q m :
  nodes s !! dir = Some d -> nodes s !! q = Some m ->
  nodes (unlisted s dir d cs) !! q = Some (if q =? dir then set_children m cs else m).
Proof.
  intros E Em. cbn [unlisted nodes set_node]. rewrite lookup_insert. case_decide as Hd.
  - subst. rewrite Z.eqb_refl. congruence.
  - by rewrite (proj2 (Z.eqb_neq q dir)).
Qed.

Lemma unlisted_back s dir d cs q m :
  nodes s !! dir = Some d -> nodes (unlisted s dir d cs) !! q = Some m ->
  exists m0, nodes s !! q = Some m0 /\ m = if q =? dir then set_children m0 cs else m0.
Proof.
  intros E. cbn [unlisted nodes set_node]. rewrite lookup_insert. case_decide as Hd.
  - subst. rewrite Z.eqb_refl. intros [= <-]. by exists d.
  - rewrite (proj2 (Z.eqb_neq q dir)) by done. by exists m.
Qed.

Lemma unlisted_linked ext s dir d pre c post q :
  fs_wf ext s -> nodes s !! dir = Some d -> children d = pre ++ c :: post ->
  linked (unlisted s dir d (pre ++ post)) q = negb (q =? c) && linked s q.
Proof.
  intros W E Ed. pose proof (wf_nodes _ _ W dir d E) as Kd.
  destruct (ok_child _ _ _ _ Kd c) as [Cr (nc & Ec & Pc)]; [rewrite Ed; set_solver|].
  assert (c ∉ pre ++ post) as Hc.
  { pose proof (NoDup_fmap_1 _ _ (ok_names _ _ _ _ Kd)) as N. rewrite Ed in N.
    assert (c :: pre ++ post ≡ₚ pre ++ c :: post) as P by by rewrite Permutation_middle.
    rewrite <- P in N. by apply NoDup_cons in N as []. }
  unfold linked. change (vfs_root (unlisted s dir d (pre ++ post))) with (vfs_root s).
  destruct (nodes s !! q) as [m|] eqn:Em.
  - rewrite (unlisted_node s dir d _ q m E Em).
    replace (parent (if q =? dir then set_children m (pre ++ post) else m)) with (parent m) by by destruct (q =? dir).
    destruct (Z.eqb_spec q c) as [->|Hqc]; cbn [negb andb].
    + assert (m = nc) as -> by congruence. rewrite Pc, (unlisted_node s dir d _ dir d E E), Z.eqb_refl. cbn [children set_children].
      rewrite bool_decide_eq_false_2 by done. by rewrite (proj2 (Z.eqb_neq c (vfs_root s))).
    + f_equal. destruct (nodes s !! parent m) as [dm|] eqn:Edm.
      * rewrite (unlisted_node s dir d _ _ dm E Edm). destruct (Z.eqb_spec (parent m) dir) as [Hp|]; [|done].
        assert (dm = d) as -> by congruence. cbn [children set_children]. rewrite Ed. apply bool_decide_ext. set_solver.
      * destruct (nodes (unlisted s dir d (pre ++ post)) !! parent m) as [x|] eqn:Ex; [|done].
        apply unlisted_back in Ex as (? & ? & _); [congruence|done].
  - destruct (nodes (unlisted s dir d (pre ++ post)) !! q) as [x|] eqn:Ex.
    { apply unlisted_back in Ex as (? & ? & _); [congruence|done]. }
    destruct (Z.eqb_spec q c) as [->|]; [congruence|done].
Qed.

(** The reference of the child list passes to the code that took the node out. *)
Lemma unlisted_wf ext s dir d pre c post nc :
  fs_wf ext s -> nodes s !! dir = Some d -> children d = pre ++ c :: post ->
  nodes s !! c = Some nc -> children nc = [] -> fs_wf (c :: ext) (unlisted s dir d (pre ++ post)).
Proof.
  intros W E Ed Ec Cc. set (s1 := unlisted s dir d (pre ++ post)).
  assert (linked s c = true) as Lc by (apply (child_linked ext s dir d); [done|done|rewrite Ed; set_solver]).
  assert (forall q, linked s1 q = negb (q =? c) && linked s q) as Lk by (intros; by eapply unlisted_linked).
  assert (forall q m, nodes s !! q = Some m -> nodes s1 !! q = Some (if q =? dir then set_children m (pre ++ post) else m)) as Fw
    by (intros; by apply unlisted_node).
  assert (forall q, name_of s1 q = name_of s q) as Nm.
  { intros q. unfold name_of. destruct (nodes s !! q) as [m|] eqn:Em; [rewrite (Fw q m Em); by destruct (q =? dir)|].
    destruct (nodes s1 !! q) eqn:Ex; [|done]. apply unlisted_back in Ex as (? & ? & _); [congruence|done]. }
  assert (forall cs : list Z, name_of s1 <$> cs = name_of s <$> cs) as Nm' by (intros; apply list_fmap_ext; intros; apply Nm).
  split.
  - apply W.
  - destruct (wf_own _ _ W) as [own [OL ON OD OF]]. exists own. split; [done|..|done].
    + intros q m Em. apply unlisted_back in Em as (m0 & E0 & _); [by eapply ON|done].
    + intros q m Em. apply unlisted_back in Em as (m0 & E0 & ->); [|done]. specialize (OD q m0 E0). by destruct (q =? dir).
  - destruct (wf_root _ _ W) as (r & Er & T & P). eexists. split; [by apply Fw|]. by destruct (_ =? dir).
  - intros q m Em. apply unlisted_back in Em as (m0 & E0 & ->); [|done].
    destruct (wf_nodes _ _ W q m0 E0) as [K1 K2 K3 K4 K5 K6 K7 K8 K9].
    assert (refcount m0 = (if linked s1 q then 1 else 0) + opens s1 q + held (c :: ext) q) as R.
    { rewrite K1, Lk, held_cons. change (opens s1 q) with (opens s q).
      destruct (Z.eqb_spec q c) as [->|]; [rewrite Lc; cbn; lia|cbn; lia]. }
    assert (forall x, x ∈ children m0 -> x <> vfs_root s /\ exists nx, nodes s1 !! x = Some nx /\ parent nx = q) as K5'.
    { intros x Hx. destruct (K5 x Hx) as [? (nx & Ex & Px)]. split; [done|]. eexists. split; [by apply Fw|]. by destruct (x =? dir). }
    destruct (Z.eqb_spec q dir) as [->|Hd]; cbn [refcount children set_children ntype nname buf capacity vsize data].
    + assert (m0 = d) as -> by congruence. assert (dir <> c) as Hdc.
      { intros ->. assert (nc = d) as -> by congruence. rewrite Cc in Ed. by destruct pre. }
      rewrite Ed in *. split; try done.
      * rewrite Lk, (proj2 (Z.eqb_neq dir c)) by done. cbn. intros Hl. specialize (K3 Hl). by destruct pre.
      * intros _. apply K4. by destruct pre.
      * cbn [children set_children]. intros x Hx. apply K5'. set_solver.
      * cbn [children set_children]. rewrite Nm'.
        rewrite fmap_app in *. rewrite fmap_cons in K6. apply NoDup_app in K6 as (N1 & N2 & N3).
        apply NoDup_cons in N3 as [_ N3]. apply NoDup_app. split; [done|]. split; [|done]. intros x Hx. specialize (N2 x Hx). set_solver.
    + split; try done.
      * rewrite Lk. destruct (Z.eqb_spec q c) as [->|]; [intros _; congruence|done].
      * rewrite Nm'. done.
  - intros q f Ef. destruct (wf_files _ _ W q f Ef) as ([m Em] & ?). split; [|done]. rewrite (Fw _ _ Em). eauto.
  - intros q [->|Hq]%elem_of_cons; [rewrite (Fw _ _ Ec); eauto|].
    destruct (wf_ext _ _ W q Hq) as [m Em]. rewrite (Fw _ _ Em). eauto.
  - apply W.
Qed.

(** [s'] is [s] with [c] taken out of [dir]; its node goes when nothing else refers to it. *)
Record unlinks (ext : list Z) s (dir : Z) (d : node) (c : Z) (cs : list Z) s' : Prop := {
  ul_tree : tree s' = (if 0 <? opens s c + held ext c then tree (unlisted s dir d cs) else delete c (tree (unlisted s dir d cs)));
  ul_linked q : linked s' q = negb (q =? c) && linked s q;
  ul_files : files s' = files s;
  ul_root : vfs_root s' = vfs_root s;
  ul_ino : ramfs_next_ino s' = ramfs_next_ino s }.

Lemma drop_child_spec ext s dir d pre c post nc :
  fs_wf ext s -> zlen ext < 2 ^ 30 -> nodes s !! dir = Some d -> children d = pre ++ c :: post ->
  nodes s !! c = Some nc -> children nc = [] ->
  exists s', drop_child s dir c (pre ++ post) = Some s' /\ fs_wf ext s' /\ unlinks ext s dir d c (pre ++ post) s'.
Proof.
  intros W L E Ed Ec Cc. unfold drop_child. rewrite E. cbn [mbind option_bind].
  pose proof (unlisted_wf ext s dir d pre c post nc W E Ed Ec Cc) as W1.
  pose proof (unlisted_linked ext s dir d pre c post c W E Ed) as Lc. rewrite Z.eqb_refl in Lc. cbn [negb andb] in Lc.
  pose proof (held_nonneg ext c). pose proof (opens_nonneg s c).
  change (set_node s dir (set_children d (pre ++ post))) with (unlisted s dir d (pre ++ post)).
  destruct (Z.ltb_spec 0 (opens s c + held ext c)) as [Hk|Hk].
  - destruct (vnode_unref_keep ext _ c W1 L) as (s' & Es & S & W').
    { rewrite Lc. change (opens (unlisted s dir d (pre ++ post)) c) with (opens s c). lia. }
    exists s'. split; [done|]. split; [done|]. split; try apply S.
    + rewrite (proj2 (Z.ltb_lt 0 _) Hk). apply S.
    + intros q. rewrite <- S. by eapply unlisted_linked.
  - assert (exists nc', nodes (unlisted s dir d (pre ++ post)) !! c = Some nc' /\ children nc' = []) as (nc' & Ec' & Cc').
    { destruct (wf_ext _ _ W1 c) as [x Ex]; [left|]. exists x. split; [done|]. by apply (ok_leaf _ _ _ _ (wf_nodes _ _ W1 c x Ex)). }
    destruct (vnode_unref_last ext _ c W1 L Lc) as (s' & Es & W' & N1 & N2 & N3 & N4 & _).
    { change (opens (unlisted s dir d (pre ++ post)) c) with (opens s c). lia. } { lia. }
    exists s'. split; [done|]. split; [done|]. split; try done.
    + rewrite (proj2 (Z.ltb_ge 0 _) Hk). unfold tree. by rewrite N1, fmap_delete.
    + intros q. rewrite (linked_delete (unlisted s dir d (pre ++ post)) s' c nc' q) by (done || by apply unlinked_not_root).
      rewrite (unlisted_linked ext s dir d pre c post q W E Ed). by destruct (q =? c).
Qed.

Lemma ramfs_unlink_spec ext s dir d name :
  fs_wf ext s -> zlen ext < 2 ^ 30 -> nodes s !! dir = Some d -> 0 ∈ name ->
  match child s (children d) (cstr name) with
  | None => ramfs_unlink s dir name = Some (- ENOENT, s)
  | Some c => exists nc, nodes s !! c = Some nc /\
      if ntype nc =? VFS_TYPE_DIR then ramfs_unlink s dir name = Some (- EISDIR, s)
      else exists pre post s', ramfs_unlink s dir name = Some (0, s') /\ fs_wf ext s' /\
        children d = pre ++ c :: post /\ unlinks ext s dir d c (pre ++ post) s'
  end.
Proof.
  intros W L E Zn. pose proof (named_children _ _ _ _ W E) as N. unfold ramfs_unlink. rewrite E. cbn [mbind option_bind].
  pose proof (unlink_loop_spec s (children d) name N Zn) as U.
  destruct (child s (children d) (cstr name)) as [c|] eqn:Ec; [|by rewrite U].
  destruct U as (pre & post & Ed & ->). cbn [mbind option_bind]. apply child_Some in Ec as [Hc _].
  destruct (N c Hc) as (nc & Enc & _). exists nc. split; [done|]. rewrite Enc. cbn [mbind option_bind].
  destruct (Z.eqb_spec (ntype nc) VFS_TYPE_DIR) as [|Ht]; [done|].
  destruct (drop_child_spec ext s dir d pre c post nc W L E Ed Enc) as (s' & -> & W' & R).
  { destruct (children nc) eqn:Cc; [done|]. destruct Ht. apply (ok_dir _ _ _ _ (wf_nodes _ _ W c nc Enc)). by rewrite Cc. }
  by exists pre, post, s'.
Qed.

Lemma ramfs_rmdir_spec ext s dir d name :
  fs_wf ext s -> zlen ext < 2 ^ 30 -> nodes s !! dir = Some d -> 0 ∈ name ->
  match child s (children d) (cstr name) with
  | None => ramfs_rmdir s dir name = Some (- ENOENT, s)
  | Some c => exists nc, nodes s !! c = Some nc /\
      if negb (ntype nc =? VFS_TYPE_DIR) then ramfs_rmdir s dir name = Some (- ENOTDIR, s)
      else match children nc with
           | _ :: _ => ramfs_rmdir s dir name = Some (- ENOTEMPTY, s)
           | [] => exists pre post s', ramfs_rmdir s dir name = Some (0, s') /\ fs_wf ext s' /\
                     children d = pre ++ c :: post /\ unlinks ext s dir d c (pre ++ post) s'
           end
  end.
Proof.
  intros W L E Zn. pose proof (named_children _ _ _ _ W E) as N. unfold ramfs_rmdir. rewrite E. cbn [mbind option_bind].
  pose proof (unlink_loop_spec s (children d) name N Zn) as U.
  destruct (child s (children d) (cstr name)) as [c|] eqn:Ec; [|by rewrite U].
  destruct U as (pre & post & Ed & ->). cbn [mbind option_bind]. apply child_Some in Ec as [Hc _].
  destruct (N c Hc) as (nc & Enc & _). exists nc. split; [done|]. rewrite Enc. cbn [mbind option_bind].
  destruct (negb _); [done|]. destruct (children nc) eqn:Cc; [|done].
  destruct (drop_child_spec ext s dir d pre c post nc W L E Ed Enc Cc) as (s' & -> & W' & R).
  by exists pre, post, s'.
Qed.

(** *** File contents *)

(** [s'] is [s] with the content of the node [vn] replaced. *)
Record rewrites s (vn : Z) (n n' : node) s' : Prop := {
  rw_nodes : nodes s' = <[vn := n']> (nodes s);
  rw_node : exists sz d b cap, n' = set_content n sz d b cap;
  rw_files : files s' = files s;
  rw_root : vfs_root s' = vfs_root s;
  rw_ino : ramfs_next_ino s' = ramfs_next_ino s }.

Lemma rewrites_wf ext s vn n n' s' :
  fs_wf ext s -> nodes s !! vn = Some n -> rewrites s vn n n' s' ->
  zlen (buf n') = capacity n' -> 0 <= vsize n' <= capacity n' -> capacity n' <= 2 ^ 63 -> (data n' = 0 -> capacity n' = 0) ->
  u_wf (heap s') -> (exists own, owns own s') -> fs_wf ext s'.
Proof.
  intros W E [Rn (sz & da & b & cap & ->) Rf Rr _] B1 B2 B3 B4 Uh Uo. cbn [buf capacity vsize data set_content] in *.
  assert (forall q m, nodes s !! q = Some m -> nodes s' !! q = Some (if q =? vn then set_content m sz da b cap else m)) as Fw.
  { intros q m Em. rewrite Rn, lookup_insert. case_decide as Hq.
    - subst. rewrite Z.eqb_refl. congruence. - by rewrite (proj2 (Z.eqb_neq q vn)). }
  assert (forall q m, nodes s' !! q = Some m -> exists m0, nodes s !! q = Some m0 /\ m = if q =? vn then set_content m0 sz da b cap else m0) as Bw.
  { intros q m. rewrite Rn, lookup_insert. case_decide as Hq.
    - subst. rewrite Z.eqb_refl. intros [= <-]. by exists n. - rewrite (proj2 (Z.eqb_neq q vn)) by done. by exists m. }
  assert (forall q, name_of s' q = name_of s q) as Nm.
  { intros q. unfold name_of. destruct (nodes s !! q) as [m|] eqn:Em; [rewrite (Fw q m Em); by destruct (q =? vn)|].
    destruct (nodes s' !! q) eqn:Ex; [|done]. apply Bw in Ex as (? & ? & _). congruence. }
  assert (forall q, linked s' q = linked s q) as Lk.
  { intros q. unfold linked. rewrite Rr. f_equal. destruct (nodes s !! q) as [m|] eqn:Em.
    - rewrite (Fw q m Em). replace (parent (if q =? vn then set_content m sz da b cap else m)) with (parent m) by by destruct (q =? vn).
      destruct (nodes s !! parent m) as [d|] eqn:Ed; [rewrite (Fw _ d Ed); by destruct (_ =? vn)|].
      destruct (nodes s' !! parent m) eqn:Ex; [|done]. apply Bw in Ex as (? & ? & _). congruence.
    - destruct (nodes s' !! q) eqn:Ex; [|done]. apply Bw in Ex as (? & ? & _). congruence. }
  split; try done.
  - destruct (wf_root _ _ W) as (r & Er & T & P). rewrite Rr. eexists. split; [by apply Fw|]. by destruct (_ =? vn).
  - intros q m Em. apply Bw in Em as (m0 & E0 & ->). destruct (wf_nodes _ _ W q m0 E0) as [K1 K2 K3 K4 K5 K6 K7 K8 K9].
    assert (refcount m0 = (if linked s' q then 1 else 0) + opens s' q + held ext q) as R.
    { rewrite K1, Lk. unfold opens. by rewrite Rf. }
    assert (forall x, x ∈ children m0 -> x <> vfs_root s' /\ exists nx, nodes s' !! x = Some nx /\ parent nx = q) as K5'.
    { intros x Hx. rewrite Rr. destruct (K5 x Hx) as [? (nx & Ex & Px)]. split; [done|]. eexists. split; [by apply Fw|]. by destruct (x =? vn). }
    assert (NoDup (name_of s' <$> children m0)) as K6' by (erewrite list_fmap_ext; [exact K6|]; intros; apply Nm).
    assert (linked s' q = false -> children m0 = []) as K3' by by rewrite Lk.
    destruct (q =? vn); split; done.
  - intros q f. rewrite Rf. intros Ef. destruct (wf_files _ _ W q f Ef) as ([m Em] & ?). split; [|done]. rewrite (Fw _ _ Em). eauto.
  - intros q Hq. destruct (wf_ext _ _ W q Hq) as [m Em]. rewrite (Fw _ _ Em). eauto.
  - rewrite Rf. apply W.
Qed.

(** A change of the buffer's bytes keeps the owners. *)
Lemma own_content own s vn n sz b :
  owns own s -> nodes s !! vn = Some n -> owns own (set_node s vn (set_content n sz (data n) b (capacity n))).
Proof.
  intros [OL ON OD OF] E. split; cbn [nodes set_node heap files]; [done|..|done].
  - intros q m. rewrite lookup_insert. case_decide; [intros _; subst; by eapply ON|apply ON].
  - intros q m. rewrite lookup_insert. case_decide; [intros [= <-]; subst; by apply (OD q n)|apply OD].
Qed.

(** A new buffer [p] in place of the old one. *)
Lemma own_realloc own s vn n h p szp sz b cap :
  u_wf h -> owns own s -> nodes s !! vn = Some n -> u_live (heap s) !! p = None -> u_live h = <[p := szp]> (u_live (heap s)) ->
  let h' := if data n =? 0 then h else u_free (data n) h in
  u_wf h' /\ exists own', owns own' (set_node (set_heap s h') vn (set_content n sz p b cap)).
Proof.
  intros Wh O E Fl Lh. cbv zeta. destruct (own_fresh own s p O Fl) as (Fo & Fn & Ff).
  assert (data n <> 0 -> own !! data n = Some (TData vn)) as Od by by apply O.
  assert (data n <> 0 -> is_Some (u_live h !! data n)) as Ol.
  { intros D. rewrite Lh, lookup_insert. case_decide; [eauto|]. apply O. by rewrite Od. }
  set (h' := if data n =? 0 then h else u_free (data n) h).
  set (own' := <[p := TData vn]> (if data n =? 0 then own else delete (data n) own)).
  assert (u_wf h' /\ forall q, is_Some (own' !! q) -> is_Some (u_live h' !! q)) as [Wh' L'].
  { unfold h', own'. destruct (Z.eqb_spec (data n) 0) as [D|D].
    - split; [done|]. intros q. rewrite Lh, !lookup_insert. case_decide; [eauto|apply O].
    - destruct (u_free_law h (data n) Wh (Ol D)) as (Wf & _ & Lf). split; [done|].
      assert (data n <> p) by (intros Hp; rewrite Hp in Od; rewrite Od in Fo; [done|congruence]).
      intros q. rewrite Lf, Lh, lookup_insert. case_decide; [subst; rewrite lookup_delete_ne, lookup_insert_eq; [eauto|done]|].
      rewrite !lookup_delete. case_decide; [by intros []|]. rewrite lookup_insert_ne by done. apply O. }
  split; [done|]. exists own'.
  assert (forall q t, own !! q = Some t -> t <> TData vn -> own' !! q = Some t) as K.
  { intros q t Hq Ht. unfold own'. rewrite lookup_insert_ne by congruence. destruct (Z.eqb_spec (data n) 0); [done|].
    rewrite lookup_delete_ne; [done|]. intros <-. rewrite Od in Hq by done. congruence. }
  split; cbn [nodes set_node set_heap heap files]; [done|..].
  - intros q m. rewrite lookup_insert. intros Em. apply K; [|done]. case_decide; [subst; by eapply O|by eapply O].
  - intros q m. rewrite lookup_insert. case_decide as Hq.
    + intros [= <-] _. subst q. cbn [data set_content]. apply lookup_insert_eq.
    + intros Em D. apply K; [by apply (own_data _ _ O)|]. congruence.
  - intros q f Ef. apply K; [by eapply O|done].
Qed.

Lemma grow_spec fuel c need :
  0 < c <= 2 ^ 63 -> 2 ^ 62 < c * 2 ^ Z.of_nat fuel -> need < 2 ^ 64 ->
  grow fuel c need = Some None \/
  exists cap, grow fuel c need = Some (Some cap) /\ c <= cap /\ need <= cap <= 2 ^ 63.
Proof.
  revert c. induction fuel as [|fuel IH]; intros c Hc Hf Hn; cbn [grow].
  - zif; [|right; exists c; split; [done|lia]]. left. rewrite (proj2 (Z.ltb_lt _ _)); [done|]. simpl in Hf. lia.
  - zif; [|right; exists c; split; [done|lia]]. destruct (Z.ltb_spec (2 ^ 62) c) as [|Hle]; [by left|].
    rewrite u64_small by lia. destruct (IH (c * 2)) as [|(cap & Ec & ? & ?)]; [lia| |done|by left|].
    + rewrite Nat2Z.inj_succ, Z.pow_succ_r in Hf by lia. lia.
    + right. exists cap. split; [done|]. lia.
Qed.

(** The old bytes, then zeros up to [off]. *)
Definition moved_buf (n : node) (off : Z) (b : list Z) : Prop :=
  (forall j, 0 <= j < vsize n -> zget 0 b j = zget 0 (buf n) j) /\ forall j, vsize n <= j < off -> zget 0 b j = 0.

Lemma ramfs_grow_spec ext s vn n need off :
  fs_wf ext s -> nodes s !! vn = Some n -> capacity n < need < 2 ^ 64 -> 0 <= off <= need ->
  (exists s', ramfs_grow s vn n need off = Some (- ENOMEM, s') /\ same s s' /\ nodes s' = nodes s /\ fs_wf ext s') \/
  exists p b cap s', ramfs_grow s vn n need off = Some (0, s') /\ fs_wf ext s' /\
    rewrites s vn n (set_content n (vsize n) p b cap) s' /\ zlen b = cap /\ need <= cap <= 2 ^ 63 /\ p <> 0 /\ moved_buf n off b.
Proof.
  intros W E Hneed Hoff. destruct (ok_buf _ _ _ _ (wf_nodes _ _ W vn n E)) as (B1 & B2 & B3).
  unfold ramfs_grow. set (c := if capacity n =? 0 then 64 else capacity n).
  assert (0 < c <= 2 ^ 63) as Hc by (unfold c; zif; lia).
  destruct (grow_spec 64 c need Hc) as [->|(cap & -> & Hcap & Hn)]; [lia|lia| |]; cbn [mbind option_bind].
  { left. exists s. done. }
  destruct (u_malloc cap (heap s)) as [p h] eqn:Ea.
  destruct (u_malloc_law (heap s) cap p h (wf_heap _ _ W) ltac:(lia) Ea) as [Uw _ _ Uf Us].
  destruct (Z.eqb_spec p 0) as [->|Hp].
  { left. exists (set_heap s h). destruct (wf_set_heap ext s h W Uw (Uf eq_refl)). done. }
  destruct (Us Hp) as (Fl & sz & _ & Lh & _). destruct (wf_own _ _ W) as [own O]. right.
  set (b := fill_loop _ _ _ _). set (h' := if data n =? 0 then h else u_free (data n) h).
  destruct (own_realloc own s vn n h p sz (vsize n) b cap Uw O E Fl Lh) as [Wh' Wo].
  assert (zlen (u_fresh h p cap) = cap) as Lf by (apply u_fresh_law; lia).
  assert (zlen (copy_loop (u_fresh h p cap) 0 (buf n) 0 (vsize n)) = cap) as Lc by (rewrite zlen_copy_loop; lia).
  assert (zlen b = cap) as Lb by (unfold b; rewrite zlen_fill_loop; lia).
  assert (moved_buf n off b) as M.
  { split; intros j Hj; unfold b; rewrite zget_fill_loop by lia; destruct (Z.leb_spec (vsize n) j); cbn [andb]; try lia.
    - rewrite zget_copy_loop by lia. rewrite (proj2 (Z.leb_le 0 j)), (proj2 (Z.ltb_lt j _)) by lia. cbn [andb]. f_equal. lia.
    - rewrite (proj2 (Z.ltb_lt j _)) by lia. done. }
  exists p, b, cap. eexists. split; [done|].
  assert (rewrites s vn n (set_content n (vsize n) p b cap) (set_node (set_heap s h') vn (set_content n (vsize n) p b cap))) as R
    by (split; try done; eauto).
  split; [|done]. apply (rewrites_wf ext s vn n _ _ W E R); cbn [buf capacity vsize data set_content]; done || lia.
Qed.

(** What [ramfs_write] leaves: the written range, the old bytes around it, and in
    the gap it skips over zeros or, when the buffer was large enough, whatever the
    buffer held. *)
Definition written (n : node) (src : list Z) (k off : Z) (n' : node) : Prop :=
  vsize n' = Z.max (vsize n) (off + k) /\
  forall j, 0 <= j < vsize n' ->
    zget 0 (buf n') j = if (off <=? j) && (j <? off + k) then zget 0 src (j - off)
      else if (vsize n <=? j) && (capacity n <? off + k) then 0 else zget 0 (buf n) j.

Lemma write_at_spec ext s vn n src k off :
  fs_wf ext s -> nodes s !! vn = Some n -> 0 <= off -> 0 < k -> off + k <= capacity n ->
  let n' := set_content n (if vsize n <? off + k then off + k else vsize n) (data n) (copy_loop (buf n) off src 0 k) (capacity n) in
  rewrites s vn n n' (set_node s vn n') /\ fs_wf ext (set_node s vn n') /\
  vsize n' = Z.max (vsize n) (off + k) /\
  forall j, 0 <= j -> zget 0 (buf n') j = if (off <=? j) && (j <? off + k) then zget 0 src (j - off) else zget 0 (buf n) j.
Proof.
  intros W E Ho Hk Hc n'. destruct (ok_buf _ _ _ _ (wf_nodes _ _ W vn n E)) as (B1 & B2 & B3).
  assert (rewrites s vn n n' (set_node s vn n')) as R by (split; try done; unfold n'; eauto).
  split; [done|]. split; [|split].
  - destruct (wf_own _ _ W) as [own O]. apply (rewrites_wf ext s vn n n' _ W E R); cbn [n' buf capacity vsize data set_content]; try done.
    + rewrite zlen_copy_loop; lia.
    + zif; lia.
    + by apply (wf_nodes _ _ W vn n E).
    + apply W.
    + exists own. by apply own_content.
  - cbn [n' vsize set_content]. zif; lia.
  - intros j Hj. cbn [n' buf set_content]. rewrite zget_copy_loop by lia. zif; [f_equal; lia|done].
Qed.

Lemma ramfs_write_spec ext s vn n src k off :
  fs_wf ext s -> nodes s !! vn = Some n -> ntype n = VFS_TYPE_REG -> 0 < k < 2 ^ 63 -> 0 <= off < 2 ^ 64 ->
  if 2 ^ 64 <=? off + k then ramfs_write s vn src k off = Some (- EINVAL, s)
  else (exists s', ramfs_write s vn src k off = Some (- ENOMEM, s') /\ same s s' /\ fs_wf ext s') \/
       exists n' s', ramfs_write s vn src k off = Some (k, s') /\ fs_wf ext s' /\
         rewrites s vn n n' s' /\ written n src k off n'.
Proof.
  intros W E T Hk Ho. destruct (ok_buf _ _ _ _ (wf_nodes _ _ W vn n E)) as (B1 & B2 & B3).
  unfold ramfs_write. rewrite E. cbn [mbind option_bind]. rewrite T, Z.eqb_refl. cbn [negb].
  rewrite (proj2 (Z.eqb_neq k 0)) by lia. destruct (Z.leb_spec (2 ^ 64) (off + k)) as [Hv|Hv].
  { rewrite (proj2 (Z.ltb_lt _ _)); [done|]. unfold u64. rewrite <- (Z_mod_plus_full _ (-1)), Z.mod_small; lia. }
  rewrite !u64_small by lia. rewrite (proj2 (Z.ltb_ge (off + k) off)) by lia.
  rewrite i64_small by lia. destruct (Z.ltb_spec (capacity n) (off + k)) as [Hg|Hg].
  - destruct (ramfs_grow_spec ext s vn n (off + k) off W E) as [(s' & -> & S & N & W')|(p & b & cap & s1 & -> & W1 & R1 & Lb & Hc & Hp & M1 & M2)]; [lia|lia| |].
    { left. exists s'. done. }
    cbn [mbind option_bind]. change (0 <? 0) with false. cbv iota.
    set (n1 := set_content n (vsize n) p b cap) in *. assert (nodes s1 !! vn = Some n1) as E1.
    { rewrite (rw_nodes _ _ _ _ _ R1). apply lookup_insert_eq. }
    rewrite E1. cbn [mbind option_bind].
    destruct (write_at_spec ext s1 vn n1 src k off W1 E1) as (R2 & W2 & V2 & G2); [lia|lia|cbn; lia|].
    cbn [n1 vsize set_content data capacity buf] in *. right. eexists _, _. split; [done|]. split; [exact W2|]. split.
    + destruct R1, R2. split; try done.
      cbn [nodes set_node]. rewrite rw_nodes0, insert_insert_eq. done.
    + split; [exact V2|]. intros j Hj. rewrite G2 by lia. cbn [vsize set_content] in Hj.
      destruct (_ && _) eqn:Hin; [done|]. rewrite (proj2 (Z.ltb_lt (capacity n) (off + k))) by lia. rewrite andb_true_r.
      apply andb_false_iff in Hin. zif; [apply M2; destruct Hin; zb; zif_in Hj; lia|apply M1; lia].
  - cbn [mbind option_bind]. change (0 <? 0) with false. cbv iota. rewrite E. cbn [mbind option_bind]. right.
    destruct (write_at_spec ext s vn n src k off W E) as (R2 & W2 & V2 & G2); [lia|lia|lia|].
    eexists _, _. split; [done|]. split; [exact W2|]. split; [exact R2|]. split; [exact V2|].
    intros j Hj. rewrite G2 by lia. destruct (_ && _); [done|]. rewrite (proj2 (Z.ltb_ge (capacity n) (off + k))) by lia.
    by rewrite andb_false_r.
Qed.

Lemma ramfs_read_spec ext s vn n k off :
  fs_wf ext s -> nodes s !! vn = Some n -> ntype n = VFS_TYPE_REG -> 0 <= k < 2 ^ 63 -> 0 <= off ->
  let m := Z.min k (Z.max 0 (vsize n - off)) in ramfs_read s vn k off = Some (m, slice (buf n) off m).
Proof.
  intros W E T Hk Ho. cbv zeta. unfold ramfs_read. rewrite E. cbn [mbind option_bind]. rewrite T. cbn [Z.eqb VFS_TYPE_REG negb Pos.eqb].
  destruct (Z.leb_spec (vsize n) off) as [Hs|Hs].
  - replace (Z.min k (Z.max 0 (vsize n - off))) with 0 by lia. done.
  - destruct (Z.ltb_spec (vsize n - off) k) as [Hl|Hl]; rewrite i64_small by lia; do 2 f_equal; lia || (f_equal; lia).
Qed.

Definition truncated (n : node) (sz : Z) (n' : node) : Prop :=
  vsize n' = sz /\ forall j, 0 <= j < sz -> zget 0 (buf n') j = if j <? vsize n then zget 0 (buf n) j else 0.

Lemma ramfs_truncate_spec ext s vn n sz :
  fs_wf ext s -> nodes s !! vn = Some n -> ntype n = VFS_TYPE_REG -> 0 <= sz <= 2 ^ 63 ->
  (exists s', ramfs_truncate s vn sz = Some (- ENOMEM, s') /\ same s s' /\ fs_wf ext s' /\ capacity n < sz) \/
  exists n' s', ramfs_truncate s vn sz = Some (0, s') /\ fs_wf ext s' /\ rewrites s vn n n' s' /\ truncated n sz n'.
Proof.
  intros W E T Hz. destruct (ok_buf _ _ _ _ (wf_nodes _ _ W vn n E)) as (B1 & B2 & B3).
  unfold ramfs_truncate. rewrite E. cbn [mbind option_bind]. rewrite T, Z.eqb_refl. cbn [negb].
  destruct (Z.eqb_spec sz (vsize n)) as [->|Hne].
  { right. exists n, s. split; [done|]. split; [done|]. split.
    - split; try done; [by rewrite insert_id|]. exists (vsize n), (data n), (buf n), (capacity n). by destruct n.
    - split; [done|]. intros j Hj. by rewrite (proj2 (Z.ltb_lt j _)) by lia. }
  destruct (Z.leb_spec sz (capacity n)) as [Hc|Hc].
  - right. set (b := if vsize n <? sz then _ else _). eexists _, _. split; [done|].
    assert (zlen b = capacity n /\ forall j, 0 <= j < sz -> zget 0 b j = if j <? vsize n then zget 0 (buf n) j else 0) as [Lb Gb].
    { unfold b. destruct (Z.ltb_spec (vsize n) sz) as [Hl|Hl].
      - rewrite zlen_fill_loop by lia. split; [done|]. intros j Hj. rewrite zget_fill_loop by lia.
        destruct (Z.leb_spec (vsize n) j), (Z.ltb_spec j (vsize n)); try lia; cbn [andb]; [|done].
        by rewrite (proj2 (Z.ltb_lt j _)) by lia.
      - split; [done|]. intros j Hj. by rewrite (proj2 (Z.ltb_lt j _)) by lia. }
    match goal with |- fs_wf _ (set_node s vn ?x) /\ _ => set (n' := x) end.
    assert (rewrites s vn n n' (set_node s vn n')) as R by (split; try done; unfold n'; eauto).
    split; [|done]. destruct (wf_own _ _ W) as [own O].
    apply (rewrites_wf ext s vn n n' _ W E R); cbn [n' buf capacity vsize data set_content]; try done; [lia|..|apply W|].
    + by apply (wf_nodes _ _ W vn n E).
    + exists own. by apply own_content.
  - destruct (u_calloc 1 sz (heap s)) as [p h] eqn:Ea.
    destruct (u_calloc_law (heap s) 1 sz p h (wf_heap _ _ W) ltac:(lia) ltac:(lia) Ea) as [Uw _ _ Uf Us].
    destruct (Z.eqb_spec p 0) as [->|Hp].
    { left. exists (set_heap s h). destruct (wf_set_heap ext s h W Uw (Uf eq_refl)). done. }
    right. destruct (Us Hp) as (Fl & szp & _ & Lh & _). destruct (wf_own _ _ W) as [own O].
    set (b := if data n =? 0 then replicate (Z.to_nat sz) 0 else copy_loop (replicate (Z.to_nat sz) 0) 0 (buf n) 0 (Z.min (vsize n) sz)).
    destruct (own_realloc own s vn n h p szp sz b sz Uw O E Fl Lh) as [Wh' Wo].
    set (h' := if data n =? 0 then h else u_free (data n) h) in *.
    exists (set_content n sz p b sz), (set_node (set_heap s h') vn (set_content n sz p b sz)).
    split; [unfold h', b; by destruct (data n =? 0)|].
    assert (zlen (replicate (Z.to_nat sz) 0) = sz) as Lr by (rewrite zlen_replicate; lia).
    assert (zlen b = sz) as Lb by (unfold b; zif; [done|]; rewrite zlen_copy_loop; lia).
    assert (rewrites s vn n (set_content n sz p b sz) (set_node (set_heap s h') vn (set_content n sz p b sz))) as R
      by (split; try done; eauto).
    split; [|split; [done|]].
    + apply (rewrites_wf ext s vn n _ _ W E R); cbn [buf capacity vsize data set_content]; done || lia.
    + split; [done|]. cbn [buf set_content]. intros j Hj. unfold b. destruct (Z.eqb_spec (data n) 0) as [D|D].
      * rewrite zget_replicate. pose proof (ok_data _ _ _ _ (wf_nodes _ _ W vn n E) D). rewrite (proj2 (Z.ltb_ge j _)) by lia. done.
      * rewrite zget_copy_loop, zget_replicate by lia. rewrite (proj2 (Z.leb_le 0 j)) by lia. cbn [andb].
        destruct (Z.ltb_spec j (vsize n)); [rewrite (proj2 (Z.ltb_lt j _)) by lia; f_equal; lia|].
        by rewrite (proj2 (Z.ltb_ge j _)) by lia.
Qed.
End wf.
