(* ===== verification/Vfs.v ===== *)
(** * The VFS layer

    [userspace/vfs/vfs.c] and [fd_table.c]: path walking, open files, and the
    per-client descriptor table, over the nodes of [Ramfs].  A path is a
    NUL-terminated byte array; the callers pass non-null pointers.  [None] is
    the use of a node or file that is not allocated. *)
From S2P Require Import Prelude Bytes Errno Str Iface Ramfs.

Definition VFS_O_RDONLY : Z := 1.
Definition VFS_O_WRONLY : Z := 2.
Definition VFS_O_RDWR : Z := 3.
Definition VFS_O_CREAT : Z := 256.
Definition VFS_O_EXCL : Z := 512.
Definition VFS_O_TRUNC : Z := 1024.
Definition VFS_O_APPEND : Z := 2048.
Definition VFS_SEEK_SET : Z := 0.
Definition VFS_SEEK_CUR : Z := 1.
Definition VFS_SEEK_END : Z := 2.
Definition VFS_FD_MAX : Z := 64.

Definition acc_read (flags : Z) : bool := negb (Z.land flags VFS_O_RDWR =? VFS_O_WRONLY).
Definition acc_write (flags : Z) : bool := negb (Z.land flags VFS_O_RDWR =? VFS_O_RDONLY).

(** [while ( *p == '/' ) ++p] *)
Fixpoint skip_slashes (p : list Z) : list Z :=
  match p with
  | c :: p' => if c =? SLASH then skip_slashes p' else p
  | [] => []
  end.

(** The bytes up to the next slash or the NUL and the rest of the path; [None] when
    there are more than [VFS_NAME_MAX]. *)
Fixpoint take_comp (p : list Z) (len : Z) : option (list Z * list Z) :=
  match p with
  | c :: p' =>
      if (c =? 0) || (c =? SLASH) then Some ([], p)
      else if VFS_NAME_MAX <=? len then None
      else '(name, rest) ← take_comp p' (len + 1); Some (c :: name, rest)
  | [] => Some ([], [])
  end.

Section vfs.
Context {A : Type} `{UHeap A}.

(** The loop of [resolve_from], with [cur] held; every turn shortens the path. *)
Fixpoint resolve_loop (fuel : nat) (s : fs A) (cur : Z) (p : list Z) : option (Z * Z * fs A) :=
  let p := skip_slashes p in
  if zget 0 p 0 =? 0 then Some (0, cur, s)
  else
    match fuel with
    | O => None
    | S fuel =>
        match take_comp p 0 with
        | None => s ← vnode_unref s cur; Some (- ENAMETOOLONG, 0, s)
        | Some (name, p) =>
            if bool_decide (name = [DOT]) then resolve_loop fuel s cur p
            else if bool_decide (name = [DOT; DOT]) then
              n ← nodes s !! cur;
              let par := if parent n =? 0 then cur else parent n in
              if negb (par =? cur) then
                s ← vnode_ref s par;
                s ← vnode_unref s cur;
                resolve_loop fuel s par p
              else resolve_loop fuel s cur p
            else
              n ← nodes s !! cur;
              if negb (ntype n =? VFS_TYPE_DIR) then s ← vnode_unref s cur; Some (- ENOTDIR, 0, s)
              else
                '(r, next, s) ← ramfs_lookup s cur (name ++ [0]);
                if r <? 0 then s ← vnode_unref s cur; Some (r, 0, s)
                else s ← vnode_unref s cur; resolve_loop fuel s next p
        end
    end.
Definition resolve_from (s : fs A) (start : Z) (path : list Z) : option (Z * Z * fs A) :=
  s ← vnode_ref s start;
  resolve_loop (length path) s start path.

Definition vfs_init (s : fs A) : fs A := set_root s 0.

Definition vfs_mount_root (s : fs A) (root : Z) : option (fs A) :=
  s ← (if vfs_root s =? 0 then Some s else vnode_unref s (vfs_root s));
  let s := set_root s root in
  if root =? 0 then Some s
  else n ← nodes s !! root; Some (set_node s root (set_parent n root)).

Definition vfs_resolve (s : fs A) (path : list Z) : option (Z * Z * fs A) :=
  if vfs_root s =? 0 then Some (- ENODEV, 0, s)
  else if negb (zget 0 path 0 =? SLASH) then Some (- EINVAL, 0, s)
  else resolve_from s (vfs_root s) path.

(** [while (i > 0 && path[i - 1] != '/') --i] *)
Fixpoint last_slash (path : list Z) (i : nat) : nat :=
  match i with
  | O => O
  | S i' => if zget 0 path (Z.of_nat i') =? SLASH then i else last_slash path i'
  end.

(** The result, [name_out], [*parent_out]. *)
Definition split_parent (s : fs A) (path : list Z) : option (Z * list Z * Z * fs A) :=
  let len := xs_strlen path in
  if (len =? 0) || (VFS_PATH_MAX <? len) then Some (- ENAMETOOLONG, [], 0, s)
  else
    let i := Z.of_nat (last_slash path (Z.to_nat len)) in
    if len <=? i then Some (- EINVAL, [], 0, s)
    else
      let nlen := len - i in
      if (nlen =? 0) || (VFS_NAME_MAX <? nlen) then Some (- ENAMETOOLONG, [], 0, s)
      else
        let name := slice path i nlen ++ [0] in
        let dirpath := if i =? 0 then [SLASH; 0] else slice path 0 i ++ [0] in
        '(r, parent, s) ← vfs_resolve s dirpath;
        Some (r, name, parent, s).

(** ** Open and close *)

(** The tail of [vfs_open], from the truncation on. *)
Definition open_vnode (s : fs A) (vn flags : Z) : option (Z * Z * fs A) :=
  n ← nodes s !! vn;
  '(r, s) ← (if negb (Z.land flags VFS_O_TRUNC =? 0) && acc_write flags && (ntype n =? VFS_TYPE_REG)
             then ramfs_truncate s vn 0 else Some (0, s));
  if r <? 0 then s ← vnode_unref s vn; Some (r, 0, s)
  else
    let (f, h) := u_calloc 1 sizeof_file (heap s) in
    let s := set_heap s h in
    if f =? 0 then s ← vnode_unref s vn; Some (- ENOMEM, 0, s)
    else Some (0, f, set_files s (<[f := MkFile vn 0 flags 1]> (files s))).

Definition vfs_open (s : fs A) (path : list Z) (flags mode : Z) : option (Z * Z * fs A) :=
  '(r, vn, s) ← vfs_resolve s path;
  if (r =? - ENOENT) && negb (Z.land flags VFS_O_CREAT =? 0) then
    '(r, name, par, s) ← split_parent s path;
    if r <? 0 then Some (r, 0, s)
    else
      n ← nodes s !! par;
      if negb (ntype n =? VFS_TYPE_DIR) then s ← vnode_unref s par; Some (- ENOTDIR, 0, s)
      else
        '(r, vn, s) ← ramfs_create s par name mode;
        s ← vnode_unref s par;
        if r <? 0 then Some (r, 0, s) else open_vnode s vn flags
  else if r <? 0 then Some (r, 0, s)
  else if Z.land flags (Z.lor VFS_O_CREAT VFS_O_EXCL) =? Z.lor VFS_O_CREAT VFS_O_EXCL then
    s ← vnode_unref s vn; Some (- EEXIST, 0, s)
  else open_vnode s vn flags.

Definition set_file_refcount (f : file) (r : Z) : file := MkFile (f_vn f) (f_offset f) (f_flags f) r.
Definition set_file_offset (f : file) (o : Z) : file := MkFile (f_vn f) o (f_flags f) (f_refcount f).

Definition vfs_close (s : fs A) (q : Z) : option (Z * fs A) :=
  if q =? 0 then Some (- EINVAL, s)
  else
    f ← files s !! q;
    if 1 <? f_refcount f then
      Some (0, set_files s (<[q := set_file_refcount f (u32 (f_refcount f - 1))]> (files s)))
    else
      s ← vnode_unref s (f_vn f);
      Some (0, set_files (set_heap s (u_free q (heap s))) (delete q (files s))).

(** ** I/O *)

(** The result, the bytes read, the state. *)
Definition vfs_read (s : fs A) (q n : Z) : option (Z * list Z * fs A) :=
  if q =? 0 then Some (- EINVAL, [], s)
  else
    f ← files s !! q;
    if negb (acc_read (f_flags f)) then Some (- EBADF, [], s)
    else
      '(r, bytes) ← ramfs_read s (f_vn f) n (f_offset f);
      let f := if 0 <? r then set_file_offset f (u64 (f_offset f + r)) else f in
      Some (r, bytes, set_files s (<[q := f]> (files s))).

Definition vfs_write (s : fs A) (q : Z) (src : list Z) (n : Z) : option (Z * fs A) :=
  if q =? 0 then Some (- EINVAL, s)
  else
    f ← files s !! q;
    if negb (acc_write (f_flags f)) then Some (- EBADF, s)
    else
      vn ← nodes s !! f_vn f;
      let off := if negb (Z.land (f_flags f) VFS_O_APPEND =? 0) then vsize vn else f_offset f in
      '(r, s) ← ramfs_write s (f_vn f) src n off;
      let f := if 0 <? r then set_file_offset f (u64 (off + r)) else f in
      Some (r, set_files s (<[q := f]> (files s))).

Definition vfs_seek (s : fs A) (q off whence : Z) : option (Z * fs A) :=
  if q =? 0 then Some (- EINVAL, s)
  else
    f ← files s !! q;
    base ← (if whence =? VFS_SEEK_SET then Some (Some 0)
            else if whence =? VFS_SEEK_CUR then Some (Some (i64 (f_offset f)))
            else if whence =? VFS_SEEK_END then vn ← nodes s !! f_vn f; Some (Some (i64 (vsize vn)))
            else Some None);
    match base with
    | None => Some (- EINVAL, s)
    | Some base =>
        let new_off := i64 (base + off) in
        if new_off <? 0 then Some (- EINVAL, s)
        else Some (new_off, set_files s (<[q := set_file_offset f (u64 new_off)]> (files s)))
    end.

(** ** Directory mutation: the three functions differ in the operation they call. *)

Definition with_parent (op : fs A -> Z -> list Z -> option (Z * fs A)) (s : fs A) (path : list Z) : option (Z * fs A) :=
  '(r, name, par, s) ← split_parent s path;
  if r <? 0 then Some (r, s)
  else
    n ← nodes s !! par;
    if negb (ntype n =? VFS_TYPE_DIR) then s ← vnode_unref s par; Some (- ENOTDIR, s)
    else
      '(r, s) ← op s par name;
      s ← vnode_unref s par;
      Some (r, s).

Definition vfs_mkdir (s : fs A) (path : list Z) (mode : Z) : option (Z * fs A) :=
  with_parent (fun s par name => ramfs_mkdir s par name mode) s path.
Definition vfs_unlink (s : fs A) (path : list Z) : option (Z * fs A) := with_parent ramfs_unlink s path.
Definition vfs_rmdir (s : fs A) (path : list Z) : option (Z * fs A) := with_parent ramfs_rmdir s path.

(** ** The descriptor table: [VFS_FD_MAX] file addresses, 0 for a free slot *)

Definition vfs_fd_init : list Z := replicate (Z.to_nat VFS_FD_MAX) 0.

Fixpoint fd_free (t : list Z) (i : Z) : Z :=
  match t with
  | [] => - EMFILE
  | f :: t => if f =? 0 then i else fd_free t (i + 1)
  end.
Definition vfs_fd_alloc (t : list Z) (f : Z) : Z * list Z :=
  let i := fd_free t 0 in
  if i <? 0 then (i, t) else (i, zset t i f).

Definition vfs_fd_get (t : list Z) (fd : Z) : Z :=
  if (fd <? 0) || (VFS_FD_MAX <=? fd) then 0 else zget 0 t fd.

Definition vfs_fd_close (s : fs A) (t : list Z) (fd : Z) : option (Z * list Z * fs A) :=
  if (fd <? 0) || (VFS_FD_MAX <=? fd) then Some (- EBADF, t, s)
  else if zget 0 t fd =? 0 then Some (- EBADF, t, s)
  else
    '(_, s) ← vfs_close s (zget 0 t fd);
    Some (0, zset t fd 0, s).
End vfs.

(** ** Paths *)

(** The segments between separators. *)
Fixpoint segments (l : list Z) : list (list Z) :=
  match l with
  | [] => [[]]
  | c :: l =>
      if c =? SLASH then [] :: segments l
      else match segments l with
           | g :: gs => (c :: g) :: gs
           | [] => [[c]]
           end
  end.
(** The names of a path: its segments that are not empty. *)
Definition components (p : list Z) : list (list Z) := filter (fun g => g <> []) (segments (cstr p)).

Lemma components_nul p : zget 0 p 0 = 0 -> components p = [].
Proof. destruct p as [|c p]; [done|]. change (zget 0 (c :: p) 0) with c. intros ->. done. Qed.

Lemma components_slash p : components (SLASH :: p) = components p.
Proof. unfold components. cbn [cstr]. change (SLASH =? 0) with false. cbn [segments]. rewrite Z.eqb_refl, filter_cons_False by auto. done. Qed.

Lemma skip_slashes_spec p :
  components (skip_slashes p) = components p /\ (length (skip_slashes p) <= length p)%nat /\
  (0 ∈ p -> 0 ∈ skip_slashes p) /\ zget 0 (skip_slashes p) 0 <> SLASH.
Proof.
  induction p as [|c p IH]; [done|]. cbn [skip_slashes]. destruct (Z.eqb_spec c SLASH) as [->|Hc].
  - destruct IH as (I1 & I2 & I3 & I4). rewrite components_slash. split; [done|]. split; [simpl; lia|]. split; [|done].
    intros [?|?]%elem_of_cons; [done|auto].
  - done.
Qed.

(** One component: all the bytes up to a separator. *)
Fixpoint head_seg (p : list Z) : list Z :=
  match p with
  | c :: p => if (c =? 0) || (c =? SLASH) then [] else c :: head_seg p
  | [] => []
  end.
Fixpoint tail_seg (p : list Z) : list Z :=
  match p with
  | c :: p' => if (c =? 0) || (c =? SLASH) then p else tail_seg p'
  | [] => []
  end.

Lemma components_head p :
  zget 0 p 0 <> 0 -> zget 0 p 0 <> SLASH -> components p = head_seg p :: components (tail_seg p).
Proof.
  assert (forall p, exists gs, segments (cstr p) = head_seg p :: gs /\
    filter (fun g => g <> []) gs = components (tail_seg p)) as Hg.
  { clear p. induction p as [|c p (gs & IH & IG)]; [by exists []|]. cbn [cstr head_seg tail_seg].
    destruct (Z.eqb_spec c 0) as [->|]; [by exists []|]. cbn [orb segments]. destruct (Z.eqb_spec c SLASH) as [->|].
    - eexists. split; [done|]. by rewrite components_slash.
    - rewrite IH. by exists gs. }
  intros H0 H1. destruct (Hg p) as (gs & E & G). unfold components at 1. rewrite E, <- G, filter_cons_True; [done|].
  destruct p as [|c p]; [done|]. change (zget 0 (c :: p) 0) with c in *. cbn [head_seg].
  by rewrite (proj2 (Z.eqb_neq c 0)), (proj2 (Z.eqb_neq c SLASH)).
Qed.

Lemma take_comp_spec p : forall len, 0 <= len <= VFS_NAME_MAX ->
  take_comp p len = if VFS_NAME_MAX <? len + zlen (head_seg p) then None else Some (head_seg p, tail_seg p).
Proof.
  induction p as [|c p IH]; intros len Hl; cbn [take_comp head_seg tail_seg].
  - rewrite (proj2 (Z.ltb_ge _ _)); [done|]. unfold zlen. simpl. lia.
  - destruct ((c =? 0) || (c =? SLASH)); [rewrite (proj2 (Z.ltb_ge _ _)); [done|]; unfold zlen; simpl; lia|].
    rewrite zlen_cons. pose proof (zlen_nonneg (head_seg p)). destruct (Z.leb_spec VFS_NAME_MAX len).
    + by rewrite (proj2 (Z.ltb_lt _ _)) by lia.
    + rewrite IH by lia. replace (len + 1 + zlen (head_seg p)) with (len + (1 + zlen (head_seg p))) by lia. by destruct (_ <? _).
Qed.

Lemma head_seg_clean p : 0 ∉ head_seg p.
Proof.
  induction p as [|c p IH]; cbn [head_seg]; [set_solver|]. destruct (Z.eqb_spec c 0); [set_solver|]. cbn [orb].
  destruct (c =? SLASH); set_solver.
Qed.

Lemma tail_seg_spec p : 0 ∈ p -> 0 ∈ tail_seg p /\ (length (tail_seg p) <= length p)%nat /\
  (zget 0 p 0 <> 0 -> zget 0 p 0 <> SLASH -> (length (tail_seg p) < length p)%nat).
Proof.
  assert (forall p, (length (tail_seg p) <= length p)%nat) as Hle.
  { clear. induction p as [|c p IH]; cbn [tail_seg]; [done|]. destruct (_ || _); simpl; lia. }
  intros Hz. split; [|split; [apply Hle|]].
  - induction p as [|c p IH]; [by apply not_elem_of_nil in Hz|]. cbn [tail_seg]. destruct (Z.eqb_spec c 0) as [->|]; [left|].
    cbn [orb]. destruct (c =? SLASH); [done|]. apply IH. apply elem_of_cons in Hz as [?|?]; [congruence|done].
  - destruct p as [|c p]; [done|]. change (zget 0 (c :: p) 0) with c. intros H0 H1. cbn [tail_seg].
    rewrite (proj2 (Z.eqb_neq c 0)), (proj2 (Z.eqb_neq c SLASH)) by done. cbn [orb length]. specialize (Hle p). lia.
Qed.

(** ** The parent of a path *)

Lemma slice_take_drop l off n : 0 <= off -> 0 <= n -> off + n <= zlen l ->
  slice l off n = take (Z.to_nat n) (drop (Z.to_nat off) l).
Proof.
  intros Ho Hn Hl. unfold zlen in Hl. apply (list_eq_zget 0).
  - rewrite zlen_slice. unfold zlen. rewrite length_take, length_drop. lia.
  - intros i. rewrite zlen_slice. intros Hi. rewrite zget_slice by lia. rewrite !zget_lookup by lia. f_equal.
    rewrite lookup_take_lt, lookup_drop by lia. f_equal. lia.
Qed.

Lemma segments_nonnil l : segments l <> [].
Proof. destruct l as [|c l]; [done|]. cbn [segments]. destruct (c =? SLASH); [done|]. by destruct (segments l). Qed.

Lemma segments_app l k : segments (l ++ SLASH :: k) = segments l ++ segments k.
Proof.
  induction l as [|c l IH]; [done|]. cbn [app segments]. rewrite IH. destruct (c =? SLASH); [done|].
  destruct (segments l) eqn:E; [by apply segments_nonnil in E|done].
Qed.

Lemma segments_one k : SLASH ∉ k -> segments k = [k].
Proof.
  induction k as [|c k IH]; intros Hk; [done|]. apply not_elem_of_cons in Hk as [Hc Hk]. cbn [segments].
  rewrite (proj2 (Z.eqb_neq c SLASH)), IH by done. done.
Qed.

Lemma last_slash_spec path k :
  let i := last_slash path k in
  (i <= k)%nat /\ (i = O \/ zget 0 path (Z.of_nat i - 1) = SLASH) /\
  forall j, Z.of_nat i <= j < Z.of_nat k -> zget 0 path j <> SLASH.
Proof.
  cbv zeta. induction k as [|k (I1 & I2 & I3)]; cbn [last_slash]; [split; [done|]; split; [by left|lia]|].
  destruct (Z.eqb_spec (zget 0 path (Z.of_nat k)) SLASH) as [E|E].
  - split; [done|]. split; [right; by replace (Z.of_nat (S k) - 1) with (Z.of_nat k) by lia|lia].
  - split; [lia|]. split; [done|]. intros j Hj. destruct (Z.eq_dec j (Z.of_nat k)) as [->|]; [done|]. apply I3. lia.
Qed.

(** The directory part's names and the last name, or the error. *)
Definition split_path (path : list Z) : Z + list (list Z) * list Z :=
  let segs := segments (cstr path) in
  let base := List.last segs [] in
  if (zlen (cstr path) =? 0) || (VFS_PATH_MAX <? zlen (cstr path)) then inl (- ENAMETOOLONG)
  else if zlen base =? 0 then inl (- EINVAL)
  else if VFS_NAME_MAX <? zlen base then inl (- ENAMETOOLONG)
  else if negb (bool_decide (removelast segs = [])) && negb (zget 0 path 0 =? SLASH) then inl (- EINVAL)
  else inr (filter (fun g => g <> []) (removelast segs), base).

(** The cut made by the code is the cut at the last separator. *)
Lemma cut_spec path : 0 ∈ path ->
  let len := zlen (cstr path) in
  let i := Z.of_nat (last_slash path (Z.to_nat len)) in
  let segs := segments (cstr path) in
  0 <= i <= len /\ slice path i (len - i) = List.last segs [] /\ zlen (List.last segs []) = len - i /\
  (i =? 0) = bool_decide (removelast segs = []) /\
  components (if i =? 0 then [SLASH; 0] else slice path 0 i ++ [0]) = filter (fun g => g <> []) (removelast segs) /\
  zget 0 (if i =? 0 then [SLASH; 0] else slice path 0 i ++ [0]) 0 = if i =? 0 then SLASH else zget 0 path 0.
Proof.
  intros Zp. cbv zeta. set (l := cstr path). set (len := zlen l). set (i := last_slash path (Z.to_nat len)).
  destruct (last_slash_spec path (Z.to_nat len)) as (I1 & I2 & I3). fold i in I1, I2, I3.
  pose proof (zlen_nonneg l) as Hl. fold len in Hl. assert (0 ∉ l) as Zl by apply cstr_no_nul.
  assert (forall o n, 0 <= o -> 0 <= n -> o + n <= len -> slice path o n = take (Z.to_nat n) (drop (Z.to_nat o) l)) as Sl.
  { intros o n Ho Hn Hs. rewrite <- slice_take_drop by done. apply slice_ext. intros j Hj. apply zget_cstr; [done|]. fold l len. lia. }
  set (base := drop i l). assert (slice path (Z.of_nat i) (len - Z.of_nat i) = base) as Eb.
  { rewrite Sl by lia. rewrite Nat2Z.id. unfold base. apply take_ge. rewrite length_drop. unfold len, zlen. lia. }
  assert (SLASH ∉ base) as Hb.
  { intros (k & Hk)%list_elem_of_lookup. unfold base in Hk. rewrite lookup_drop in Hk.
    pose proof (lookup_lt_Some _ _ _ Hk) as Hlt. apply (I3 (Z.of_nat (i + k))); [unfold len, zlen in *; lia|].
    rewrite zget_cstr; [|done|fold l; unfold zlen; lia]. fold l. rewrite zget_lookup by lia. rewrite Nat2Z.id, Hk. done. }
  assert (zlen base = len - Z.of_nat i) as Lb by (unfold base, len, zlen in *; rewrite length_drop; lia).
  split; [lia|]. rewrite Eb. destruct (decide (i = O)) as [H0|Hi].
  - assert (base = l) as Ebl by (unfold base; by rewrite H0). rewrite H0. cbn [Z.of_nat Z.eqb].
    assert (segments l = [base]) as -> by (rewrite <- Ebl; by apply segments_one).
    cbn [List.last removelast]. rewrite H0 in Lb. done.
  - destruct I2 as [|I2]; [done|]. rewrite (proj2 (Z.eqb_neq (Z.of_nat i) 0)) by lia.
    set (pre := take (i - 1) l). assert (take i l = pre ++ [SLASH]) as Et.
    { replace i with (S (i - 1)) at 1 by lia. apply take_S_r. rewrite zget_cstr in I2; [|done|fold l len; lia]. fold l in I2.
      rewrite zget_lookup in I2 by lia. replace (Z.to_nat (Z.of_nat i - 1)) with (i - 1)%nat in I2 by lia.
      destruct (l !! (i - 1)%nat) eqn:E; [by simpl in I2; subst|]. apply lookup_ge_None in E. unfold len, zlen in *. lia. }
    assert (segments l = segments pre ++ [base]) as Es.
    { rewrite <- (take_drop i l), Et, <- app_assoc. cbn [app]. rewrite segments_app. fold base. by rewrite (segments_one base). }
    rewrite Es, last_last, removelast_last. do 2 (split; [done|]). split; [by rewrite bool_decide_eq_false_2 by apply segments_nonnil|].
    assert (slice path 0 (Z.of_nat i) = take i l) as Ed by (rewrite Sl, Nat2Z.id by lia; done). split.
    + unfold components. rewrite Ed, cstr_app by (intros (k & Hk & _)%elem_of_take; apply Zl; by eapply list_elem_of_lookup_2).
      rewrite Et, segments_app, filter_app. cbn [segments filter]. rewrite filter_cons_False by auto. apply app_nil_r.
    + rewrite zget_app_l by (rewrite zlen_slice; lia). rewrite zget_slice by lia. done.
Qed.

(** ** Walking a path *)

Section walk.
Context {A : Type} `{UHeapLaws A}.
Implicit Types (s : fs A) (p : Z).

(** Where the names lead from [cur]: the reference definition of [resolve_from]. *)
Fixpoint walk s (cur : Z) (comps : list (list Z)) : Z * Z :=
  match comps with
  | [] => (0, cur)
  | nm :: rest =>
      if VFS_NAME_MAX <? zlen nm then (- ENAMETOOLONG, 0)
      else if bool_decide (nm = [DOT]) then walk s cur rest
      else match nodes s !! cur with
           | None => (- EIO, 0)
           | Some n =>
               if bool_decide (nm = [DOT; DOT]) then walk s (parent n) rest
               else if negb (ntype n =? VFS_TYPE_DIR) then (- ENOTDIR, 0)
               else match child s (children n) nm with
                    | None => (- ENOENT, 0)
                    | Some c => walk s c rest
                    end
           end
  end.

Lemma child_same s s' cs nm : tree s' = tree s -> child s' cs nm = child s cs nm.
Proof. intros T. induction cs as [|c cs IH]; [done|]. by rewrite !child_cons, IH, (name_same s s'). Qed.

Lemma walk_same s s' comps : forall cur, tree s' = tree s -> walk s' cur comps = walk s cur comps.
Proof.
  induction comps as [|nm rest IH]; intros cur T; [done|]. cbn [walk]. destruct (nodes s !! cur) as [n|] eqn:E.
  - destruct (tree_node s s' cur n T E) as [r ->]. cbn [parent ntype children set_refcount].
    rewrite (child_same s s'), !IH by done. destruct (child _ _ _); [by rewrite IH|done].
  - destruct (nodes s' !! cur) as [n|] eqn:E'; [destruct (tree_node s' s cur n (eq_sym T) E'); congruence|]. by rewrite IH.
Qed.

Lemma parent_linked ext s p n : fs_wf ext s -> nodes s !! p = Some n -> linked s p = true ->
  exists d, nodes s !! parent n = Some d /\ linked s (parent n) = true.
Proof.
  intros W E L. unfold linked in L. rewrite E in L. destruct (Z.eqb_spec p (vfs_root s)) as [->|Hr].
  - destruct (wf_root _ _ W) as (r & Er & _ & P). assert (r = n) as -> by congruence. rewrite P. exists n. split; [done|].
    unfold linked. by rewrite Z.eqb_refl.
  - cbn [orb] in L. destruct (nodes s !! parent n) as [d|] eqn:Ed; [|done]. exists d. split; [done|].
    apply bool_decide_eq_true in L. destruct (linked s (parent n)) eqn:Lp; [done|].
    rewrite (ok_leaf _ _ _ _ (wf_nodes _ _ W _ d Ed) Lp) in L. by apply not_elem_of_nil in L.
Qed.

(** Dropping the reference to a linked node keeps everything. *)
Lemma unref_linked ext s p :
  fs_wf (p :: ext) s -> zlen ext < 2 ^ 30 -> linked s p = true ->
  exists s', vnode_unref s p = Some s' /\ same s s' /\ fs_wf ext s'.
Proof.
  intros W L K. apply vnode_unref_keep; [done|done|]. rewrite K. pose proof (opens_nonneg s p). pose proof (held_nonneg ext p). lia.
Qed.

Lemma countb_perm {B} (f : B -> bool) l k : l ≡ₚ k -> countb f l = countb f k.
Proof. induction 1; rewrite ?countb_cons; lia. Qed.

(** The held references commute. *)
Lemma wf_perm ext ext' s : ext ≡ₚ ext' -> fs_wf ext s -> fs_wf ext' s.
Proof.
  intros P W. destruct W as [W1 W2 W3 W4 W5 W6 W7]. split; try done.
  - intros p n E. destruct (W4 p n E) as [K1 K2 K3 K4 K5 K6 K7 K8 K9]. split; try done. rewrite K1. f_equal.
    by apply countb_perm.
  - intros p Hp. apply W6. by rewrite P.
Qed.

Lemma resolve_loop_spec fuel ext s cur (p : list Z) :
  fs_wf (cur :: ext) s -> zlen ext < 2 ^ 29 -> linked s cur = true -> 0 ∈ p -> (length p <= fuel)%nat ->
  let '(r, out) := walk s cur (components p) in
  exists s', resolve_loop fuel s cur p = Some (r, out, s') /\ same s s' /\
    if r =? 0 then linked s out = true /\ fs_wf (out :: ext) s' else r < 0 /\ out = 0 /\ fs_wf ext s'.
Proof.
  revert s cur p. induction fuel as [|fuel IH]; intros s cur p W Lx Lc Zp Hf.
  { destruct p; [by apply not_elem_of_nil in Zp|simpl in Hf; lia]. }
  cbn [resolve_loop]. destruct (skip_slashes_spec p) as (S1 & S2 & S3 & S4). rewrite <- S1. specialize (S3 Zp).
  set (p1 := skip_slashes p) in *. destruct (Z.eqb_spec (zget 0 p1 0) 0) as [Hn0|Hn0].
  { rewrite components_nul by done. cbn [walk]. exists s. done. }
  rewrite components_head, take_comp_spec by (done || unfold VFS_NAME_MAX; lia). rewrite Z.add_0_l. cbn [walk].
  destruct (tail_seg_spec p1 S3) as (T1 & _ & T2). specialize (T2 Hn0 S4).
  set (nm := head_seg p1). set (p2 := tail_seg p1) in *. pose proof (head_seg_clean p1) as Hz. fold nm in Hz.
  destruct (wf_ext _ _ W cur) as [n E]; [set_solver|].
  destruct (VFS_NAME_MAX <? zlen nm) eqn:Hlong.
  { destruct (unref_linked ext s cur W ltac:(lia) Lc) as (s' & -> & S & W'). by exists s'. }
  case_bool_decide; [apply IH; done || lia|]. rewrite E. case_bool_decide.
  { cbn [mbind option_bind]. destruct (parent_linked _ _ _ _ W E Lc) as (d & Ed & Ld).
    pose proof (node_nonzero _ _ _ _ W Ed) as Pz. rewrite (proj2 (Z.eqb_neq (parent n) 0)) by done.
    destruct (Z.eqb_spec (parent n) cur) as [->|Hp]; cbn [negb]; [apply IH; done || lia|].
    destruct (vnode_ref_spec _ s (parent n) d W ltac:(rewrite zlen_cons; lia) Ed) as (s1 & -> & Sm1 & W1). cbn [mbind option_bind].
    destruct (unref_linked (parent n :: ext) s1 cur) as (s2 & -> & Sm2 & W2); [|rewrite zlen_cons; lia|by rewrite <- Sm1|].
    { eapply wf_perm, W1. constructor. }
    cbn [mbind option_bind]. assert (same s s2) as Sm by by transitivity s1.
    specialize (IH s2 (parent n) p2 W2 Lx ltac:(by rewrite <- Sm) T1 ltac:(lia)). rewrite (walk_same s s2) in IH by apply Sm.
    destruct (walk _ _ _) as [r out]. destruct IH as (s' & -> & S' & R). exists s'. split; [done|]. split; [by transitivity s2|].
    rewrite (linked_same s s2) in R by apply Sm. done. }
  cbn [mbind option_bind]. destruct (negb (ntype n =? VFS_TYPE_DIR)) eqn:Ht.
  { destruct (unref_linked ext s cur W ltac:(lia) Lc) as (s' & -> & S & W'). by exists s'. }
  pose proof (ramfs_lookup_spec _ s cur n (nm ++ [0]) W ltac:(rewrite zlen_cons; lia) E ltac:(set_solver)) as LK.
  rewrite cstr_app in LK by done. destruct (child s (children n) nm) as [c|] eqn:Ec.
  - destruct LK as (s1 & -> & Sm1 & W1). cbn [mbind option_bind]. change (0 <? 0) with false. cbv iota.
    destruct (unref_linked (c :: ext) s1 cur) as (s2 & -> & Sm2 & W2); [|rewrite zlen_cons; lia|by rewrite <- Sm1|].
    { eapply wf_perm, W1. constructor. }
    cbn [mbind option_bind]. assert (same s s2) as Sm by by transitivity s1. apply child_Some in Ec as [Hc _].
    specialize (IH s2 c p2 W2 Lx ltac:(rewrite <- Sm; by eapply child_linked) T1 ltac:(lia)). rewrite (walk_same s s2) in IH by apply Sm.
    destruct (walk _ _ _) as [r out]. destruct IH as (s' & -> & S' & R). exists s'. split; [done|]. split; [by transitivity s2|].
    rewrite (linked_same s s2) in R by apply Sm. done.
  - rewrite LK. cbn [mbind option_bind]. change (- ENOENT <? 0) with true. cbv iota.
    destruct (unref_linked ext s cur W ltac:(lia) Lc) as (s' & -> & S & W'). by exists s'.
Qed.

(** Where an absolute path leads. *)
Definition resolve_path s (path : list Z) : Z * Z :=
  if negb (zget 0 path 0 =? SLASH) then (- EINVAL, 0) else walk s (vfs_root s) (components path).

(** What a path walk that gave [r] and [out] leaves: [s] up to reference counts, with
    [out] linked and held by the caller if it succeeded. *)
Definition resolved (ext : list Z) s (r out : Z) s' : Prop :=
  same s s' /\ if r =? 0 then linked s out = true /\ fs_wf (out :: ext) s' else r < 0 /\ out = 0 /\ fs_wf ext s'.

Lemma vfs_resolve_spec ext s (path : list Z) :
  fs_wf ext s -> zlen ext < 2 ^ 29 -> 0 ∈ path ->
  let '(r, out) := resolve_path s path in
  exists s', vfs_resolve s path = Some (r, out, s') /\ resolved ext s r out s'.
Proof.
  intros W L Zp. destruct (wf_root _ _ W) as (rn & Er & _). pose proof (node_nonzero _ _ _ _ W Er).
  unfold resolve_path, vfs_resolve. rewrite (proj2 (Z.eqb_neq (vfs_root s) 0)) by done. destruct (negb _).
  { exists s. split; [done|]. split; [done|]. done. }
  unfold resolve_from. destruct (vnode_ref_spec ext s _ rn W ltac:(lia) Er) as (s1 & -> & S1 & W1). cbn [mbind option_bind].
  assert (linked s (vfs_root s) = true) as Lr by (unfold linked; by rewrite Z.eqb_refl).
  pose proof (resolve_loop_spec (length path) ext s1 (vfs_root s) path W1 L ltac:(by rewrite <- S1) Zp ltac:(lia)) as R.
  rewrite (walk_same s s1) in R by apply S1. destruct (walk _ _ _) as [r out]. destruct R as (s' & -> & S' & R).
  exists s'. split; [done|]. split; [by transitivity s1|]. by rewrite (linked_same s s1) in R by apply S1.
Qed.

Lemma split_parent_spec ext s (path : list Z) :
  fs_wf ext s -> zlen ext < 2 ^ 29 -> 0 ∈ path ->
  match split_path path with
  | inl e => e < 0 /\ exists nm s', split_parent s path = Some (e, nm, 0, s') /\ same s s' /\ fs_wf ext s'
  | inr (dirs, base) =>
      let '(r, out) := walk s (vfs_root s) dirs in
      exists s', split_parent s path = Some (r, base ++ [0], out, s') /\ resolved ext s r out s'
  end.
Proof.
  intros W L Zp. destruct (cut_spec path Zp) as (Hi & Hb & Lb & Hz & Hc & Hd).
  unfold split_path, split_parent, xs_strlen. rewrite strlen_cstr. set (len := zlen (cstr path)) in *.
  set (i := Z.of_nat (last_slash path (Z.to_nat len))) in *. set (base := List.last (segments (cstr path)) []) in *.
  destruct ((len =? 0) || (VFS_PATH_MAX <? len)) eqn:E1; [split; [done|]; by exists [], s|].
  rewrite Lb. destruct (Z.leb_spec len i) as [Hl|Hl].
  { rewrite (proj2 (Z.eqb_eq (len - i) 0)) by lia. split; [done|]. by exists [], s. }
  rewrite (proj2 (Z.eqb_neq (len - i) 0)) by lia. cbn [orb].
  destruct (VFS_NAME_MAX <? len - i); [split; [done|]; by exists [], s|]. rewrite Hb, <- Hz.
  set (dp := if i =? 0 then _ else _) in *.
  assert (0 ∈ dp) as Zd by (unfold dp; destruct (i =? 0); set_solver).
  pose proof (vfs_resolve_spec ext s dp W L Zd) as R. unfold resolve_path in R. rewrite Hc, Hd in R.
  destruct (i =? 0) eqn:Ei; cbn [negb andb] in *.
  - rewrite Z.eqb_refl in R. cbn [negb] in R. destruct (walk _ _ _) as [r out]. destruct R as (s' & -> & R). by exists s'.
  - destruct (negb (zget 0 path 0 =? SLASH)).
    + destruct R as (s' & -> & Sm & R). split; [done|]. eexists _, _. split; [done|]. split; [done|apply R].
    + destruct (walk _ _ _) as [r out]. destruct R as (s' & -> & R). by exists s'.
Qed.

Lemma split_path_clean path dirs base :
  split_path path = inr (dirs, base) -> 0 ∉ base /\ zlen base <= VFS_NAME_MAX /\ base <> [].
Proof.
  unfold split_path. intros E. repeat zif_in E; try done. injection E as _ <-.
  split; [|split; [lia|intros E0; rewrite E0 in *; done]].
  assert (forall l, 0 ∉ l -> Forall (fun g => 0 ∉ g) (segments l)) as Hs.
  { clear. induction l as [|c l IH]; intros Hl; [constructor; [set_solver|constructor]|]. apply not_elem_of_cons in Hl as [Hc Hl].
    specialize (IH Hl). cbn [segments]. destruct (c =? SLASH); [constructor; [set_solver|done]|].
    destruct (segments l) as [|g gs]; [constructor; [set_solver|constructor]|]. apply Forall_cons in IH as [Hg Hgs].
    constructor; [set_solver|done]. }
  specialize (Hs _ (cstr_no_nul path)). destruct (segments (cstr path)) as [|g gs] eqn:Eg using rev_ind; [by apply segments_nonnil in Eg|].
  rewrite last_last. apply Forall_app in Hs as [_ Hs]. by inversion Hs.
Qed.

(** ** Effects on the tree, up to reference counts *)

(** [s'] is [s] with the new node [c] at the head of [par]'s children. *)
Definition added s (par : Z) (d : node) (c : Z) (n : node) s' : Prop :=
  nodes s !! c = None /\ files s' = files s /\ vfs_root s' = vfs_root s /\
  tree s' = <[par := set_children (set_refcount d 0) (c :: children d)]> (<[c := set_refcount n 0]> (tree s)).

(** [s'] is [s] with [c] out of [par]'s children, and gone unless it is still open. *)
Definition removed s (par : Z) (d : node) (c : Z) s' : Prop :=
  exists pre post, children d = pre ++ c :: post /\ files s' = files s /\ vfs_root s' = vfs_root s /\
  let t := <[par := set_children (set_refcount d 0) (pre ++ post)]> (tree s) in
  tree s' = if 0 <? opens s c then t else delete c t.

Lemma links_added s s1 s2 s3 par d d1 c n :
  same s s1 -> nodes s !! par = Some d -> nodes s1 !! par = Some d1 -> links s1 par d1 c n s2 -> same s2 s3 -> added s par d c n s3.
Proof.
  intros S1 E E1 L S3. split; [|split; [|split]].
  - destruct (nodes s !! c) as [m|] eqn:Em; [|done]. destruct (tree_node s s1 c m (same_tree _ _ S1) Em) as [r Er].
    rewrite (ln_fresh _ _ _ _ _ _ L) in Er. done.
  - rewrite (same_files _ _ S3), (ln_files _ _ _ _ _ _ L). apply S1.
  - rewrite (same_root _ _ S3), (ln_root _ _ _ _ _ _ L). apply S1.
  - rewrite (same_tree _ _ S3). unfold tree at 1. rewrite (ln_nodes _ _ _ _ _ _ L), !fmap_insert.
    change ((fun n0 => set_refcount n0 0) <$> nodes s1) with (tree s1). rewrite (same_tree _ _ S1). f_equal.
    destruct (tree_node s s1 par d (same_tree _ _ S1) E) as [r Er]. assert (d1 = set_refcount d r) as -> by congruence. done.
Qed.

Lemma unlinks_removed ext s s1 s2 s3 par d d1 c pre post :
  same s s1 -> nodes s !! par = Some d -> nodes s1 !! par = Some d1 -> children d1 = pre ++ c :: post -> held ext c = 0 ->
  unlinks ext s1 par d1 c (pre ++ post) s2 -> same s2 s3 -> removed s par d c s3.
Proof.
  intros S1 E E1 Ed Hh U S3. destruct (tree_node s s1 par d (same_tree _ _ S1) E) as [r Er].
  assert (d1 = set_refcount d r) as -> by congruence. exists pre, post. split; [done|].
  split; [rewrite (same_files _ _ S3), (ul_files _ _ _ _ _ _ _ U); apply S1|].
  split; [rewrite (same_root _ _ S3), (ul_root _ _ _ _ _ _ _ U); apply S1|].
  cbv zeta. rewrite (same_tree _ _ S3), (ul_tree _ _ _ _ _ _ _ U), Hh, Z.add_0_r, <- S1.
  assert (tree (unlisted s1 par (set_refcount d r) (pre ++ post)) = <[par := set_children (set_refcount d 0) (pre ++ post)]> (tree s)) as ->; [|done].
  unfold tree at 1. cbn [unlisted nodes set_node]. rewrite fmap_insert. f_equal. apply S1.
Qed.

(** *** Operations on the parent directory *)

(** The outcome of an operation on the entry [path], given what it does to the parent. *)
Definition on_parent s (path : list Z) (P : Z -> node -> list Z -> Z -> fs A -> Prop) (r : Z) s' : Prop :=
  match split_path path with
  | inl e => r = e /\ same s s'
  | inr (dirs, base) =>
      let '(e, par) := walk s (vfs_root s) dirs in
      if negb (e =? 0) then r = e /\ same s s'
      else exists d, nodes s !! par = Some d /\
        if negb (ntype d =? VFS_TYPE_DIR) then r = - ENOTDIR /\ same s s' else P par d base r s'
  end.

Lemma with_parent_spec op P ext s (path : list Z) :
  fs_wf ext s -> zlen ext < 2 ^ 28 -> 0 ∈ path ->
  (forall s1 par d d1 base, same s s1 -> fs_wf (par :: ext) s1 -> nodes s !! par = Some d -> nodes s1 !! par = Some d1 ->
     linked s1 par = true -> ntype d1 = VFS_TYPE_DIR -> 0 ∉ base -> zlen base <= VFS_NAME_MAX ->
     exists r s2, op s1 par (base ++ [0]) = Some (r, s2) /\ fs_wf (par :: ext) s2 /\ linked s2 par = true /\
       forall s3, same s2 s3 -> P par d base r s3) ->
  exists r s', with_parent op s path = Some (r, s') /\ fs_wf ext s' /\ on_parent s path P r s'.
Proof.
  intros W L Zp Hop. pose proof (split_parent_spec ext s path W ltac:(lia) Zp) as Sp. unfold with_parent, on_parent.
  destruct (split_path path) as [e|[dirs base]] eqn:Ep.
  { destruct Sp as (He & nm & s' & -> & S & W'). cbn [mbind option_bind]. rewrite (proj2 (Z.ltb_lt e 0)) by lia. by exists e, s'. }
  destruct (split_path_clean _ _ _ Ep) as (C1 & C2 & C3).
  destruct (walk _ _ _) as [e par]. destruct Sp as (s1 & -> & S1 & R). cbn [mbind option_bind].
  destruct (Z.eqb_spec e 0) as [->|He]; cbn [negb].
  - destruct R as [Lp W1]. change (0 <? 0) with false. cbv iota. destruct (wf_ext _ _ W1 par) as [d1 E1]; [left|].
    destruct (tree_node s1 s par d1 (eq_sym (same_tree _ _ S1)) E1) as [r0 E]. rewrite E1. cbn [mbind option_bind].
    assert (linked s1 par = true) as Lp1 by by rewrite <- S1.
    destruct (negb (ntype d1 =? VFS_TYPE_DIR)) eqn:Ht.
    + destruct (unref_linked ext s1 par W1 ltac:(lia) Lp1) as (s' & -> & S & W'). exists (- ENOTDIR), s'.
      split; [done|]. split; [done|]. eexists. split; [exact E|]. cbn [ntype set_refcount]. rewrite Ht. split; [done|]. by transitivity s1.
    + destruct (Hop s1 par _ d1 base S1 W1 E E1 Lp1) as (r & s2 & -> & W2 & L2 & HP); [by zb|done|done|]. cbn [mbind option_bind].
      destruct (unref_linked ext s2 par W2 ltac:(lia) L2) as (s' & -> & S & W'). exists r, s'. split; [done|]. split; [done|].
      eexists. split; [exact E|]. cbn [ntype set_refcount]. rewrite Ht. auto.
  - destruct R as (Hn & -> & W1). rewrite (proj2 (Z.ltb_lt e 0)) by lia. by exists e, s1.
Qed.

Definition mkdir_effect s mode (par : Z) (d : node) (base : list Z) (r : Z) s' : Prop :=
  match child s (children d) base with
  | Some _ => r = - EEXIST /\ same s s'
  | None => (r = - ENOMEM /\ same s s') \/
            r = 0 /\ exists c, added s par d c (new_node s par VFS_TYPE_DIR mode (base ++ [0])) s'
  end.

Definition unlink_effect s (par : Z) (d : node) (base : list Z) (r : Z) s' : Prop :=
  match child s (children d) base with
  | None => r = - ENOENT /\ same s s'
  | Some c => exists nc, nodes s !! c = Some nc /\
      if ntype nc =? VFS_TYPE_DIR then r = - EISDIR /\ same s s' else r = 0 /\ removed s par d c s'
  end.

Definition rmdir_effect s (par : Z) (d : node) (base : list Z) (r : Z) s' : Prop :=
  match child s (children d) base with
  | None => r = - ENOENT /\ same s s'
  | Some c => exists nc, nodes s !! c = Some nc /\
      if negb (ntype nc =? VFS_TYPE_DIR) then r = - ENOTDIR /\ same s s'
      else match children nc with
           | _ :: _ => r = - ENOTEMPTY /\ same s s'
           | [] => r = 0 /\ removed s par d c s'
           end
  end.

Lemma node_view s s1 p d d1 : same s s1 -> nodes s !! p = Some d -> nodes s1 !! p = Some d1 -> exists r, d1 = set_refcount d r.
Proof. intros S E E1. destruct (tree_node s s1 p d (same_tree _ _ S) E) as [r Er]. exists r. congruence. Qed.

Lemma vfs_mkdir_spec s (path : list Z) mode :
  fs_wf [] s -> 0 ∈ path ->
  exists r s', vfs_mkdir s path mode = Some (r, s') /\ fs_wf [] s' /\ on_parent s path (mkdir_effect s mode) r s'.
Proof.
  intros W Zp. apply with_parent_spec; [done|done|done|]. intros s1 par d d1 base S1 W1 E E1 Lp Td Zb Lb.
  destruct (node_view _ _ _ _ _ S1 E E1) as [k ->]. unfold mkdir_effect.
  pose proof (ramfs_mkdir_spec [par] s1 par _ (base ++ [0]) mode W1 E1 Lp Td ltac:(set_solver)) as M.
  rewrite cstr_app, (child_same s s1) in M by (done || apply S1). specialize (M Lb). cbn [children set_refcount] in M.
  destruct (child s (children d) base) as [c|].
  - exists (- EEXIST), s1. split; [done|]. split; [done|]. split; [done|]. intros s3 S3. split; [done|]. by transitivity s1.
  - destruct M as [(s2 & Em & W2 & S2)|(c & s2 & Em & W2 & Lk)].
    + exists (- ENOMEM), s2. split; [done|]. split; [done|]. split; [by rewrite <- S2|]. intros s3 S3. left. split; [done|].
      transitivity s1; [done|]. by transitivity s2.
    + exists 0, s2. split; [done|]. split; [done|]. split.
      * rewrite (links_linked s1 par _ c _ s2 par Lk E1) by done. rewrite Lp. apply orb_true_r.
      * intros s3 S3. right. split; [done|]. exists c. unfold new_node in *. rewrite (same_ino _ _ S1) in Lk. by eapply links_added.
Qed.

(** The parent of a listed leaf is another node. *)
Lemma leaf_not_parent s par d c nc : nodes s !! par = Some d -> c ∈ children d -> nodes s !! c = Some nc -> children nc = [] -> par <> c.
Proof. intros E Hc Ec Cc ->. assert (d = nc) as -> by congruence. rewrite Cc in Hc. by apply not_elem_of_nil in Hc. Qed.

(** Taking a leaf out, with the parent held. *)
Lemma removed_spec s s1 s2 par d k c pre post nc :
  same s s1 -> nodes s !! par = Some d -> nodes s1 !! par = Some (set_refcount d k) -> linked s1 par = true ->
  nodes s1 !! c = Some nc -> children nc = [] -> children (set_refcount d k) = pre ++ c :: post ->
  unlinks [par] s1 par (set_refcount d k) c (pre ++ post) s2 ->
  linked s2 par = true /\ forall s3, same s2 s3 -> removed s par d c s3.
Proof.
  intros S1 E E1 Lp Ec Cc Ed U. assert (par <> c) as Hpc by (eapply (leaf_not_parent s1); [done|rewrite Ed; set_solver|done|done]). split.
  - rewrite (ul_linked _ _ _ _ _ _ _ U), Lp, (proj2 (Z.eqb_neq par c)) by done. done.
  - intros s3 S3. eapply (unlinks_removed [par] s s1 s2 s3); try done. rewrite held_cons, (proj2 (Z.eqb_neq c par)); [done|congruence].
Qed.

Lemma vfs_unlink_spec s (path : list Z) :
  fs_wf [] s -> 0 ∈ path ->
  exists r s', vfs_unlink s path = Some (r, s') /\ fs_wf [] s' /\ on_parent s path (unlink_effect s) r s'.
Proof.
  intros W Zp. apply with_parent_spec; [done|done|done|]. intros s1 par d d1 base S1 W1 E E1 Lp Td Zb Lb.
  destruct (node_view _ _ _ _ _ S1 E E1) as [k ->]. unfold unlink_effect.
  pose proof (ramfs_unlink_spec [par] s1 par _ (base ++ [0]) W1 ltac:(done) E1 ltac:(set_solver)) as M.
  rewrite cstr_app, (child_same s s1) in M by (done || apply S1). cbn [children set_refcount] in M.
  destruct (child s (children d) base) as [c|].
  - destruct M as (nc1 & Ec1 & M). destruct (tree_node s1 s c nc1 (eq_sym (same_tree _ _ S1)) Ec1) as [kc Ec].
    destruct (ntype nc1 =? VFS_TYPE_DIR) eqn:Tc.
    + exists (- EISDIR), s1. do 3 (split; [done|]). intros s3 S3. eexists. split; [exact Ec|]. cbn [ntype set_refcount]. rewrite Tc.
      split; [done|]. by transitivity s1.
    + destruct M as (pre & post & s2 & Em & W2 & Ed & U). exists 0, s2. split; [done|]. split; [done|].
      destruct (removed_spec s s1 s2 par d k c pre post nc1) as [L2 R]; try done.
      { destruct (children nc1) eqn:Cc; [done|]. zb. destruct Tc. apply (ok_dir _ _ _ _ (wf_nodes _ _ W1 c nc1 Ec1)). by rewrite Cc. }
      split; [done|]. intros s3 S3. eexists. split; [exact Ec|]. cbn [ntype set_refcount]. rewrite Tc. auto.
  - exists (- ENOENT), s1. do 3 (split; [done|]). intros s3 S3. split; [done|]. by transitivity s1.
Qed.

Lemma vfs_rmdir_spec s (path : list Z) :
  fs_wf [] s -> 0 ∈ path ->
  exists r s', vfs_rmdir s path = Some (r, s') /\ fs_wf [] s' /\ on_parent s path (rmdir_effect s) r s'.
Proof.
  intros W Zp. apply with_parent_spec; [done|done|done|]. intros s1 par d d1 base S1 W1 E E1 Lp Td Zb Lb.
  destruct (node_view _ _ _ _ _ S1 E E1) as [k ->]. unfold rmdir_effect.
  pose proof (ramfs_rmdir_spec [par] s1 par _ (base ++ [0]) W1 ltac:(done) E1 ltac:(set_solver)) as M.
  rewrite cstr_app, (child_same s s1) in M by (done || apply S1). cbn [children set_refcount] in M.
  destruct (child s (children d) base) as [c|].
  - destruct M as (nc1 & Ec1 & M). destruct (tree_node s1 s c nc1 (eq_sym (same_tree _ _ S1)) Ec1) as [kc Ec].
    assert (forall e, ramfs_rmdir s1 par (base ++ [0]) = Some (e, s1) ->
      exists r s2, ramfs_rmdir s1 par (base ++ [0]) = Some (r, s2) /\ fs_wf [par] s2 /\ linked s2 par = true /\
        forall s3, same s2 s3 -> r = e /\ same s s3) as Err.
    { intros e He. exists e, s1. do 3 (split; [done|]). intros s3 S3. split; [done|]. by transitivity s1. }
    destruct (negb (ntype nc1 =? VFS_TYPE_DIR)) eqn:Tc; [|destruct (children nc1) eqn:Cc].
    + destruct (Err _ M) as (r & s2 & ? & ? & ? & HP). exists r, s2. do 3 (split; [done|]). intros s3 S3.
      eexists. split; [exact Ec|]. cbn [ntype set_refcount]. rewrite Tc. auto.
    + destruct M as (pre & post & s2 & Em & W2 & Ed & U). exists 0, s2. split; [done|]. split; [done|].
      destruct (removed_spec s s1 s2 par d k c pre post nc1) as [L2 R]; try done.
      split; [done|]. intros s3 S3. eexists. split; [exact Ec|]. cbn [ntype children set_refcount]. rewrite Tc, Cc. auto.
    + destruct (Err _ M) as (r & s2 & ? & ? & ? & HP). exists r, s2. do 3 (split; [done|]). intros s3 S3.
      eexists. split; [exact Ec|]. cbn [ntype children set_refcount]. rewrite Tc, Cc. auto.
  - exists (- ENOENT), s1. do 3 (split; [done|]). intros s3 S3. split; [done|]. by transitivity s1.
Qed.

(** ** Files *)

Lemma opens_insert s q f p : files s !! q = None ->
  opens (set_files s (<[q := f]> (files s))) p = opens s p + if p =? f_vn f then 1 else 0.
Proof.
  intros E. unfold opens. cbn [files set_files]. destruct (Z.eqb_spec p (f_vn f)) as [->|Hp].
  - rewrite map_filter_insert_True, map_size_insert_None by (try done; apply map_lookup_filter_None; by left). lia.
  - rewrite map_filter_insert_not'; [lia| |]; [intros Hy; by apply Hp|]. intros y Hy. congruence.
Qed.

Lemma opens_delete s q f p : files s !! q = Some f ->
  opens (set_files s (delete q (files s))) p = opens s p - if p =? f_vn f then 1 else 0.
Proof.
  intros E. set (s0 := set_files s (delete q (files s))).
  assert (opens s p = opens (set_files s0 (<[q := f]> (files s0))) p) as ->.
  { unfold opens. cbn [files set_files s0]. by rewrite insert_delete_id. }
  rewrite (opens_insert s0) by apply lookup_delete_eq. lia.
Qed.

(** Changing [files] only: what is left to check. *)
Lemma wf_set_files ext ext' s fl :
  fs_wf ext s ->
  (forall p, opens (set_files s fl) p + held ext' p = opens s p + held ext p) ->
  (exists own, owns own (set_files s fl)) -> u_wf (heap s) ->
  (forall q f, fl !! q = Some f -> is_Some (nodes s !! f_vn f) /\ 0 <= f_offset f < 2 ^ 64 /\ f_refcount f = 1) ->
  (forall p, p ∈ ext' -> is_Some (nodes s !! p)) -> Z.of_nat (size fl) <= 2 ^ 31 -> fs_wf ext' (set_files s fl).
Proof.
  intros W Ho Hown Hh Hf He Hn. split; try done; [apply W|]. intros p n E.
  destruct (wf_nodes _ _ W p n E) as [K1 K2 K3 K4 K5 K6 K7 K8 K9]. split; try done.
  change (linked (set_files s fl) p) with (linked s p). rewrite K1. specialize (Ho p). lia.
Qed.

(** A new file takes over the caller's reference. *)
Lemma wf_open ext s h f vn flags szf :
  fs_wf (vn :: ext) s -> u_wf h -> u_live (heap s) !! f = None -> u_live h = <[f := szf]> (u_live (heap s)) ->
  Z.of_nat (size (files s)) < 2 ^ 31 ->
  files s !! f = None /\ fs_wf ext (set_files (set_heap s h) (<[f := MkFile vn 0 flags 1]> (files s))).
Proof.
  intros W Wh Fl Lh Hn. destruct (wf_own _ _ W) as [own O]. destruct (own_fresh own s f O Fl) as (Fo & Fn & Ff).
  split; [done|].
  assert (fs_wf (vn :: ext) (set_heap s h)) as W1.
  { destruct W as [W1 W2 W3 W4 W5 W6 W7]. split; try done.
    - exists own. destruct O as [O1 O2 O3 O4]. split; try done. cbn [heap set_heap]. intros q Hq. rewrite Lh, lookup_insert.
      case_decide; eauto. - intros p n E. destruct (W4 p n E). split; done. }
  apply (wf_set_files (vn :: ext) ext (set_heap s h)); try done.
  - intros p. rewrite (opens_insert (set_heap s h)) by done. rewrite held_cons. cbn [f_vn]. lia.
  - exists (<[f := TFile]> own). destruct O as [O1 O2 O3 O4]. split; cbn [heap set_heap set_files nodes files].
    + intros q. rewrite Lh, !lookup_insert. case_decide; eauto.
    + intros p n E. rewrite lookup_insert_ne by congruence. by eapply O2.
    + intros p n E D. pose proof (O3 p n E D). rewrite lookup_insert_ne by congruence. done.
    + intros q g. rewrite !lookup_insert. case_decide; [done|apply O4].
  - intros q g. rewrite lookup_insert. case_decide; [intros [= <-]|apply W]. cbn [f_vn f_offset f_refcount].
    split; [apply W; left|]. split; [lia|done].
  - intros p Hp. apply W. by right.
  - rewrite map_size_insert_None by done. lia.
Qed.

Definition wipe (n : node) : node := set_content n 0 (data n) (buf n) (capacity n).

Lemma ramfs_truncate_zero ext s vn n :
  fs_wf ext s -> nodes s !! vn = Some n -> ntype n = VFS_TYPE_REG ->
  exists s', ramfs_truncate s vn 0 = Some (0, s') /\ fs_wf ext s' /\ rewrites s vn n (wipe n) s' /\ heap s' = heap s.
Proof.
  intros W E T. destruct (ok_buf _ _ _ _ (wf_nodes _ _ W vn n E)) as (B1 & B2 & B3).
  unfold ramfs_truncate. rewrite E. cbn [mbind option_bind]. rewrite T, Z.eqb_refl. cbn [negb].
  destruct (Z.eqb_spec 0 (vsize n)) as [Hz|Hz].
  - exists s. split; [done|]. split; [done|]. split; [|done]. split; try done; [|unfold wipe; eauto].
    rewrite insert_id; [done|]. rewrite E. f_equal. unfold wipe, set_content. rewrite Hz. by destruct n.
  - rewrite (proj2 (Z.leb_le 0 (capacity n))) by lia. rewrite (proj2 (Z.ltb_ge (vsize n) 0)) by lia.
    eexists. split; [done|]. assert (rewrites s vn n (wipe n) (set_node s vn (wipe n))) as R by (split; try done; unfold wipe; eauto).
    split; [|done]. destruct (wf_own _ _ W) as [own O].
    apply (rewrites_wf ext s vn n (wipe n) _ W E R); cbn [wipe buf capacity vsize data set_content]; try done; [lia| | |].
    + apply (wf_nodes _ _ W vn n E). + apply W. + exists own. by apply own_content.
Qed.

(** [O_TRUNC] takes effect. *)
Definition truncates (flags : Z) (n : node) : bool :=
  negb (Z.land flags VFS_O_TRUNC =? 0) && acc_write flags && (ntype n =? VFS_TYPE_REG).

(** The open of node [vn]: emptied if asked, and a file at its start unless memory ran out. *)
Definition open_effect s (vn : Z) (n : node) (flags r f : Z) s' : Prop :=
  tree s' = (if truncates flags n then <[vn := set_refcount (wipe n) 0]> (tree s) else tree s) /\
  vfs_root s' = vfs_root s /\
  (r = - ENOMEM /\ f = 0 /\ files s' = files s \/
   r = 0 /\ f <> 0 /\ files s !! f = None /\ files s' = <[f := MkFile vn 0 flags 1]> (files s)).

Lemma open_vnode_spec s vn n flags :
  fs_wf [vn] s -> nodes s !! vn = Some n -> linked s vn = true -> Z.of_nat (size (files s)) < 2 ^ 31 ->
  exists r f s', open_vnode s vn flags = Some (r, f, s') /\ fs_wf [] s' /\ open_effect s vn n flags r f s'.
Proof.
  intros W E Lv Hn. unfold open_vnode. rewrite E. cbn [mbind option_bind]. fold (truncates flags n).
  assert (exists s1, (if truncates flags n then ramfs_truncate s vn 0 else Some (0, s)) = Some (0, s1) /\ fs_wf [vn] s1 /\
    tree s1 = (if truncates flags n then <[vn := set_refcount (wipe n) 0]> (tree s) else tree s) /\ files s1 = files s /\
    vfs_root s1 = vfs_root s /\ linked s1 vn = true) as (s1 & -> & W1 & T1 & F1 & R1 & L1).
  { destruct (truncates flags n) eqn:Et; [|by exists s]. unfold truncates in Et. zb.
    destruct (ramfs_truncate_zero [vn] s vn n W E) as (s1 & -> & W1 & [N1 _ N2 N3 _] & _); [done|]. exists s1.
    split; [done|]. split; [done|]. split; [unfold tree; by rewrite N1, fmap_insert|]. split; [done|]. split; [done|].
    unfold linked in *. rewrite N3, N1, lookup_insert_eq. rewrite E in Lv. cbn [wipe parent set_content]. rewrite lookup_insert.
    case_decide as Hp; [|done]. rewrite <- Hp, E in Lv. done. }
  cbn [mbind option_bind]. change (0 <? 0) with false. cbv iota.
  destruct (u_calloc 1 sizeof_file (heap s1)) as [f h] eqn:Ea.
  destruct (u_calloc_law (heap s1) 1 sizeof_file f h (wf_heap _ _ W1) ltac:(lia) ltac:(unfold sizeof_file; lia) Ea) as [Uw _ _ Uf Us].
  destruct (Z.eqb_spec f 0) as [->|Hf].
  - destruct (wf_set_heap [vn] s1 h W1 Uw (Uf eq_refl)) as [S2 W2].
    destruct (unref_linked [] (set_heap s1 h) vn W2 ltac:(done) L1) as (s' & -> & S3 & W'). cbn [mbind option_bind].
    exists (- ENOMEM), 0, s'. split; [done|]. split; [done|]. destruct S2, S3. split; [congruence|]. split; [congruence|]. left. split; [done|]. split; [done|]. congruence.
  - destruct (Us Hf) as (Fl & sz & _ & Lh & _). destruct (wf_open [] s1 h f vn flags sz W1 Uw Fl Lh) as [Ff W']; [by rewrite F1|].
    rewrite F1 in *. eexists _, _, _. split; [done|]. split; [cbn [files set_heap]; rewrite F1; exact W'|]. split; [exact T1|]. split; [exact R1|]. right.
    split; [done|]. split; [done|]. split; [done|]. cbn [files set_files set_heap]. by rewrite F1.
Qed.

Definition create_effect s (mode flags : Z) (f : Z) (par : Z) (d : node) (base : list Z) (r : Z) s' : Prop :=
  match child s (children d) base with
  | Some _ => r = - EEXIST /\ same s s'
  | None => (r = - ENOMEM /\ same s s') \/
            exists c s1, let n := new_node s par VFS_TYPE_REG mode (base ++ [0]) in
              added s par d c n s1 /\ open_effect s1 c n flags r f s'
  end.

(** The outcome of [vfs_open]. *)
Definition open_outcome s (path : list Z) (flags mode r f : Z) s' : Prop :=
  let '(e, vn) := resolve_path s path in
  if (e =? - ENOENT) && negb (Z.land flags VFS_O_CREAT =? 0) then on_parent s path (create_effect s mode flags f) r s'
  else if e <? 0 then r = e /\ same s s'
  else if Z.land flags (Z.lor VFS_O_CREAT VFS_O_EXCL) =? Z.lor VFS_O_CREAT VFS_O_EXCL then r = - EEXIST /\ same s s'
  else exists n, nodes s !! vn = Some n /\ open_effect s vn n flags r f s'.

Lemma open_effect_same s s1 s' vn n k flags r f :
  same s s1 -> open_effect s1 vn (set_refcount n k) flags r f s' -> open_effect s vn n flags r f s'.
Proof.
  intros S (O1 & O2 & O3). split; [|split].
  - rewrite O1, (same_tree _ _ S). done.
  - rewrite O2. apply S.
  - by rewrite (same_files _ _ S) in O3.
Qed.

(** Creating the file in a parent that is held, and opening it. *)
Lemma create_open_spec s s1 par d d1 base mode flags :
  same s s1 -> fs_wf [par] s1 -> nodes s !! par = Some d -> nodes s1 !! par = Some d1 -> linked s1 par = true ->
  ntype d1 = VFS_TYPE_DIR -> 0 ∉ base -> zlen base <= VFS_NAME_MAX -> Z.of_nat (size (files s)) < 2 ^ 31 ->
  exists r c s2, ramfs_create s1 par (base ++ [0]) mode = Some (r, c, s2) /\
  exists s3, vnode_unref s2 par = Some s3 /\
    if r <? 0 then fs_wf [] s3 /\ create_effect s mode flags 0 par d base r s3
    else exists r' f s', open_vnode s3 c flags = Some (r', f, s') /\ fs_wf [] s' /\ create_effect s mode flags f par d base r' s'.
Proof.
  intros S1 W1 E E1 Lp Td Zb Lb Hn. destruct (node_view _ _ _ _ _ S1 E E1) as [k ->]. unfold create_effect.
  pose proof (ramfs_create_spec [par] s1 par _ (base ++ [0]) mode W1 ltac:(done) E1 Lp Td ltac:(set_solver)) as M.
  rewrite cstr_app, (child_same s s1) in M by (done || apply S1). specialize (M Lb). cbn [children set_refcount] in M.
  destruct (child s (children d) base) as [x|].
  { destruct (unref_linked [] s1 par W1 ltac:(done) Lp) as (s3 & Eu & S3 & W3). eexists _, _, _. split; [exact M|]. exists s3. split; [done|].
    split; [done|]. split; [done|]. by transitivity s1. }
  destruct M as [(s2 & Em & W2 & S2)|(c & sl & s2 & Em & W2 & Lk & S2)].
  { destruct (unref_linked [] s2 par W2 ltac:(done)) as (s3 & Eu & S3 & W3); [by rewrite <- S2|]. eexists _, _, _. split; [exact Em|]. exists s3.
    split; [done|]. split; [done|]. left. split; [done|]. transitivity s1; [done|]. by transitivity s2. }
  assert (forall q, linked s2 q = (q =? c) || linked s1 q) as L2.
  { intros q. rewrite <- S2. by apply (links_linked s1 par _ c _ sl q Lk E1). }
  destruct (unref_linked [c] s2 par) as (s3 & Eu & S3 & W3); [eapply wf_perm, W2; constructor|done|rewrite L2, Lp; apply orb_true_r|].
  eexists _, _, _. split; [exact Em|]. exists s3. split; [done|]. change (0 <? 0) with false. cbv iota.
  assert (same sl s3) as S by by transitivity s2. pose proof (links_new _ _ _ _ _ _ Lk E1) as En.
  destruct (tree_node sl s3 c _ (same_tree _ _ S) En) as [kc Ec].
  assert (new_node s1 par VFS_TYPE_REG mode (base ++ [0]) = new_node s par VFS_TYPE_REG mode (base ++ [0])) as Enn
    by (unfold new_node; by rewrite (same_ino _ _ S1)). rewrite Enn in *.
  pose proof (links_added s s1 sl s3 par d _ c _ S1 E E1 Lk S) as Ad.
  destruct (open_vnode_spec s3 c _ flags W3 Ec) as (r' & f & s' & Eo & W' & O).
  { rewrite <- S3, L2, Z.eqb_refl. done. } { destruct Ad as (_ & -> & _). done. }
  exists r', f, s'. split; [done|]. split; [done|]. right. exists c, s3. split; [done|]. eapply (open_effect_same s3 s3); [done|exact O].
Qed.

Lemma vfs_open_spec s (path : list Z) flags mode :
  fs_wf [] s -> 0 ∈ path -> Z.of_nat (size (files s)) < 2 ^ 31 ->
  exists r f s', vfs_open s path flags mode = Some (r, f, s') /\ fs_wf [] s' /\ open_outcome s path flags mode r f s'.
Proof.
  intros W Zp Hn. pose proof (vfs_resolve_spec [] s path W ltac:(done) Zp) as R. unfold vfs_open, open_outcome.
  destruct (resolve_path s path) as [e vn]. destruct R as (s1 & -> & S1 & R). cbn [mbind option_bind].
  destruct ((e =? - ENOENT) && negb (Z.land flags VFS_O_CREAT =? 0)) eqn:Ec.
  - zb. subst e. destruct R as (_ & -> & W1). pose proof (split_parent_spec [] s1 path W1 ltac:(done) Zp) as Sp. unfold on_parent.
    destruct (split_path path) as [e|[dirs base]] eqn:Ep.
    { destruct Sp as (He & nm & s2 & -> & S2 & W2). cbn [mbind option_bind]. rewrite (proj2 (Z.ltb_lt e 0)) by lia.
      exists e, 0, s2. split; [done|]. split; [done|]. split; [done|]. by transitivity s1. }
    destruct (split_path_clean _ _ _ Ep) as (C1 & C2 & C3). rewrite (walk_same s s1), (same_root _ _ S1) in Sp by apply S1.
    destruct (walk _ _ _) as [e par]. destruct Sp as (s2 & -> & S2 & R). cbn [mbind option_bind].
    assert (same s s2) as S by by transitivity s1.
    destruct (Z.eqb_spec e 0) as [->|He]; cbn [negb].
    + destruct R as [Lp W2]. change (0 <? 0) with false. cbv iota. destruct (wf_ext _ _ W2 par) as [d2 E2]; [left|].
      destruct (tree_node s2 s par d2 (eq_sym (same_tree _ _ S)) E2) as [k E]. rewrite E2. cbn [mbind option_bind].
      assert (linked s2 par = true) as Lp2 by by rewrite <- S2.
      destruct (negb (ntype d2 =? VFS_TYPE_DIR)) eqn:Ht.
      * destruct (unref_linked [] s2 par W2 ltac:(done) Lp2) as (s3 & -> & S3 & W3). eexists _, _, _. split; [done|]. split; [done|].
        eexists. split; [exact E|]. cbn [ntype set_refcount]. rewrite Ht. split; [done|]. by transitivity s2.
      * destruct (create_open_spec s s2 par _ d2 base mode flags S W2 E E2 Lp2) as (r & c & s3 & -> & s4 & Eu & P); [by zb|done|done|done|].
        cbn [mbind option_bind]. rewrite Eu. cbn [mbind option_bind]. destruct (r <? 0).
        -- destruct P as [W4 P]. exists r, 0, s4. split; [done|]. split; [done|]. eexists. split; [exact E|]. cbn [ntype set_refcount]. by rewrite Ht.
        -- destruct P as (r' & f & s' & -> & W' & P). exists r', f, s'. split; [done|]. split; [done|]. eexists. split; [exact E|].
           cbn [ntype set_refcount]. by rewrite Ht.
    + destruct R as (Hlt & -> & W2). rewrite (proj2 (Z.ltb_lt e 0)) by lia. by exists e, 0, s2.
  - destruct (Z.ltb_spec e 0) as [He|He].
    { rewrite (proj2 (Z.eqb_neq e 0)) in R by lia. destruct R as (_ & -> & W1). by exists e, 0, s1. }
    destruct (Z.eqb_spec e 0) as [->|]; [|lia]. destruct R as [Lv W1]. assert (linked s1 vn = true) as Lv1 by by rewrite <- S1.
    destruct (_ =? Z.lor _ _).
    + destruct (unref_linked [] s1 vn W1 ltac:(done) Lv1) as (s2 & -> & S2 & W2). eexists _, _, _. split; [done|]. split; [done|].
      split; [done|]. by transitivity s1.
    + destruct (wf_ext _ _ W1 vn) as [n1 E1]; [left|]. destruct (tree_node s1 s vn n1 (eq_sym (same_tree _ _ S1)) E1) as [k E].
      destruct (open_vnode_spec s1 vn n1 flags W1 E1 Lv1) as (r & f & s' & -> & W' & O); [by rewrite (same_files _ _ S1)|].
      exists r, f, s'. split; [done|]. split; [done|]. eexists. split; [exact E|].
      eapply (open_effect_same s s1 s' vn _ (refcount n1)); [done|]. by destruct n1.
Qed.

(** *** Close *)

(** Releasing a vnode does not look at the files. *)
Lemma unref_files fuel : forall s fl (p : Z),
  vnode_unref_fuel fuel (set_files s fl) p = (fun s' => set_files s' fl) <$> vnode_unref_fuel fuel s p.
Proof.
  induction fuel as [|fuel IH]; intros s fl p; cbn [vnode_unref_fuel]; (destruct (p =? 0); [done|]);
    cbn [nodes set_files]; (destruct (nodes s !! p) as [n|]; [|done]); cbn [mbind option_bind]; (destruct (refcount n =? 0); [done|]).
  - by destruct (refcount _ =? 0).
  - destruct (refcount _ =? 0); [|done]. set (n' := set_refcount n _). unfold ramfs_destroy. cbn [nodes set_node set_files]. rewrite lookup_insert_eq.
    cbn [mbind option_bind].
    assert (forall cs o, foldl (fun r c => r ≫= fun s => vnode_unref_fuel fuel s c) ((fun s' => set_files s' fl) <$> o) cs =
      (fun s' => set_files s' fl) <$> foldl (fun r c => r ≫= fun s => vnode_unref_fuel fuel s c) o cs) as F.
    { induction cs as [|c cs IHc]; intros o; [done|]. cbn [foldl]. rewrite <- IHc. f_equal. destruct o as [x|]; [|done]. cbn. apply IH. }
    specialize (F (children n') (Some (set_node s p n'))). cbn [fmap option_fmap option_map] in F.
    change (set_node (set_files s fl) p n') with (set_files (set_node s p n') fl). rewrite F.
    clear F. destruct (foldl _ _ _) as [x|]; [|done]. cbn [fmap option_fmap option_map mbind option_bind nodes set_files].
    destruct (nodes x !! p) as [m|]; [|done]. cbn. unfold free_node. by destruct (data m =? 0).
Qed.

Lemma wf_free_file ext s q :
  fs_wf ext s -> file_block s q -> files s !! q = None -> fs_wf ext (set_heap s (u_free q (heap s))).
Proof.
  intros W (own & O & Oq) Hq. destruct O as [O1 O2 O3 O4].
  destruct (u_free_law (heap s) q (wf_heap _ _ W)) as (Wf & _ & Lf); [apply O1; by rewrite Oq|].
  destruct W as [W1 W2 W3 W4 W5 W6 W7]. split; try done.
  - exists (delete q own). split; cbn [heap set_heap nodes files].
    + intros x. rewrite Lf, !lookup_delete. case_decide; [by intros []|apply O1].
    + intros p n E. specialize (O2 p n E). rewrite lookup_delete_ne by congruence. done.
    + intros p n E D. specialize (O3 p n E D). rewrite lookup_delete_ne by congruence. done.
    + intros x f E. rewrite lookup_delete_ne by congruence. by eapply O4.
  - intros p n E. destruct (W4 p n E). split; done.
Qed.

(** [s'] is [s] with the file [q] gone, and its node too when nothing else referred to it. *)
Definition closed s (q : Z) (f : file) s' : Prop :=
  files s' = delete q (files s) /\ vfs_root s' = vfs_root s /\
  tree s' = if linked s (f_vn f) || (1 <? opens s (f_vn f)) then tree s else delete (f_vn f) (tree s).

Lemma vfs_close_spec s q f :
  fs_wf [] s -> files s !! q = Some f -> exists s', vfs_close s q = Some (0, s') /\ fs_wf [] s' /\ closed s q f s'.
Proof.
  intros W E. destruct (wf_own _ _ W) as [own O]. pose proof (own_file _ _ O q f E) as Oq.
  assert (q <> 0) as Hq0. { intros ->. destruct (own_live _ _ O 0) as [z L]; [by rewrite Oq|]. by rewrite u_live_law in L by apply W. }
  destruct (wf_files _ _ W q f E) as (V & Fo & Fr). set (fl := delete q (files s)). set (s0 := set_files s fl).
  assert (forall p, opens s0 p = opens s p - if p =? f_vn f then 1 else 0) as Op by (intros; by apply opens_delete).
  assert (owns own s0) as O0.
  { destruct O as [O1 O2 O3 O4]. split; try done. cbn [files s0 set_files]. intros x g. unfold fl. rewrite lookup_delete_Some. intros [_ ?]. by eapply O4. }
  assert (fs_wf [f_vn f] s0) as W0.
  { apply (wf_set_files [] _ s); try done; [|by exists own|apply W|..].
    - intros p. fold s0. rewrite Op, held_cons. lia.
    - intros x g. unfold fl. rewrite lookup_delete_Some. intros [_ ?]. by eapply W.
    - intros p ->%list_elem_of_singleton. done.
    - unfold fl. rewrite map_size_delete_Some by eauto. pose proof (wf_nfiles _ _ W). lia. }
  assert (file_block s0 q) as B by by exists own.
  assert (exists s1, vnode_unref s0 (f_vn f) = Some s1 /\ fs_wf [] s1 /\ file_block s1 q /\ files s1 = fl /\ vfs_root s1 = vfs_root s /\
    tree s1 = if linked s (f_vn f) || (1 <? opens s (f_vn f)) then tree s else delete (f_vn f) (tree s)) as (s1 & U1 & W1 & B1 & F1 & R1 & T1).
  { change (linked s (f_vn f)) with (linked s0 (f_vn f)). specialize (Op (f_vn f)). rewrite Z.eqb_refl in Op.
    pose proof (opens_nonneg s0 (f_vn f)). destruct (linked s0 (f_vn f) || (1 <? opens s (f_vn f))) eqn:K.
    - destruct (vnode_unref_keep [] s0 (f_vn f) W0 ltac:(done)) as (s1 & -> & S1 & W1).
      { change (held [] (f_vn f)) with 0. destruct (linked s0 (f_vn f)); cbn [orb] in K; zb; lia. }
      exists s1. split; [done|]. split; [done|]. split; [exists own; split; [by eapply own_same|done]|]. destruct S1. done.
    - apply orb_false_elim in K as [K1 K2]. zb.
      destruct (vnode_unref_last [] s0 (f_vn f) W0 ltac:(done) K1) as (s1 & -> & W1 & N1 & N2 & N3 & _ & FB); [lia|done|].
      exists s1. split; [done|]. split; [done|]. split; [auto|]. split; [done|]. split; [done|]. unfold tree. by rewrite N1, fmap_delete. }
  unfold vfs_close. rewrite (proj2 (Z.eqb_neq q 0)) by done. rewrite E. cbn [mbind option_bind]. rewrite Fr. change (1 <? 1) with false. cbv iota.
  unfold vnode_unref in *. change (nodes s0) with (nodes s) in U1. unfold s0 in U1. rewrite unref_files in U1.
  destruct (vnode_unref_fuel _ s (f_vn f)) as [s1'|] eqn:Eu; [|done]. cbn [fmap option_fmap option_map] in U1. injection U1 as <-.
  cbn [mbind option_bind]. assert (files s1' = files s) as F1'.
  { pose proof (unref_files (S (size (nodes s))) s (files s) (f_vn f)) as Uf. replace (set_files s (files s)) with s in Uf by by destruct s.
    rewrite Eu in Uf. injection Uf as Uf. rewrite Uf. done. }
  rewrite F1'.
  eexists. split; [done|]. split; [|split; [|split]].
  - pose proof (wf_free_file [] _ q W1 B1) as WF. apply WF. unfold fl. apply lookup_delete_eq.
  - done.
  - exact R1.
  - exact T1.
Qed.

(** *** Read, write, seek *)

Lemma wf_file_offset ext s q f o :
  fs_wf ext s -> files s !! q = Some f -> 0 <= o < 2 ^ 64 ->
  fs_wf ext (set_files s (<[q := set_file_offset f o]> (files s))).
Proof.
  intros W E Ho. destruct (wf_own _ _ W) as [own O]. apply (wf_set_files ext ext s); try done.
  - intros p. f_equal. set (s0 := set_files s (delete q (files s))).
    assert (set_files s (<[q := set_file_offset f o]> (files s)) = set_files s0 (<[q := set_file_offset f o]> (files s0))) as ->.
    { unfold s0, set_files. cbn [files heap nodes ramfs_next_ino vfs_root]. by rewrite insert_delete_eq. }
    rewrite (opens_insert s0) by apply lookup_delete_eq. unfold s0. rewrite (opens_delete s q f) by done. cbn [f_vn set_file_offset]. lia.
  - exists own. destruct O as [O1 O2 O3 O4]. split; try done. cbn [files set_files]. intros x g. rewrite lookup_insert.
    case_decide; [subst; intros _; by eapply O4|apply O4].
  - apply W.
  - intros x g. rewrite lookup_insert. case_decide; [|apply W]. intros [= <-]. destruct (wf_files _ _ W q f E) as (? & ? & ?). done.
  - apply W.
  - rewrite map_size_insert_Some by eauto. apply W.
Qed.

Lemma file_nonzero ext s q f : fs_wf ext s -> files s !! q = Some f -> q <> 0.
Proof.
  intros W E ->. destruct (wf_own _ _ W) as [own O]. destruct (own_live _ _ O 0) as [z L]; [by rewrite (own_file _ _ O 0 f E)|].
  by rewrite u_live_law in L by apply W.
Qed.

Lemma set_files_id s : set_files s (files s) = s.
Proof. by destruct s. Qed.

(** The offset moves past the bytes read. *)
Definition read_effect s q f (n : node) (k r : Z) (bytes : list Z) s' : Prop :=
  if negb (acc_read (f_flags f)) then r = - EBADF /\ bytes = [] /\ s' = s
  else if negb (ntype n =? VFS_TYPE_REG) then r = - EISDIR /\ bytes = [] /\ s' = s
  else r = Z.min k (Z.max 0 (vsize n - f_offset f)) /\ bytes = slice (buf n) (f_offset f) r /\
       s' = set_files s (<[q := set_file_offset f (f_offset f + r)]> (files s)).

Lemma vfs_read_spec s q f n k :
  fs_wf [] s -> files s !! q = Some f -> nodes s !! f_vn f = Some n -> 0 <= k < 2 ^ 63 ->
  exists r bytes s', vfs_read s q k = Some (r, bytes, s') /\ fs_wf [] s' /\ read_effect s q f n k r bytes s'.
Proof.
  intros W E En Hk. pose proof (file_nonzero _ _ _ _ W E). destruct (wf_files _ _ W q f E) as (_ & Fo & _).
  destruct (ok_buf _ _ _ _ (wf_nodes _ _ W _ n En)) as (B1 & B2 & B3).
  unfold vfs_read, read_effect. rewrite (proj2 (Z.eqb_neq q 0)) by done. rewrite E. cbn [mbind option_bind].
  destruct (negb (acc_read (f_flags f))); [by eexists _, _, _|].
  destruct (Z.eqb_spec (ntype n) VFS_TYPE_REG) as [T|T]; cbn [negb].
  - rewrite (ramfs_read_spec [] s (f_vn f) n k (f_offset f) W En T Hk) by lia. cbn [mbind option_bind].
    set (r := Z.min k _). eexists _, _, _. split; [done|].
    assert ((if 0 <? r then set_file_offset f (u64 (f_offset f + r)) else f) = set_file_offset f (f_offset f + r)) as ->.
    { destruct (Z.ltb_spec 0 r); [by rewrite u64_small by lia|]. replace (f_offset f + r) with (f_offset f) by lia. by destruct f. }
    split; [|done]. destruct (Z.eq_dec r 0) as [->|]; [rewrite Z.add_0_r|]; apply wf_file_offset; done || lia.
  - unfold ramfs_read. rewrite En. cbn [mbind option_bind]. rewrite (proj2 (Z.eqb_neq _ _) T). cbn [negb mbind option_bind].
    change (0 <? - EISDIR) with false. cbv iota. rewrite insert_id, set_files_id by done. by eexists _, _, _.
Qed.

(** Where a write goes: the end of the file for an appending file. *)
Definition write_offset (f : file) (n : node) : Z :=
  if negb (Z.land (f_flags f) VFS_O_APPEND =? 0) then vsize n else f_offset f.

Definition write_effect s q f (n : node) (src : list Z) (k r : Z) s' : Prop :=
  let off := write_offset f n in
  if negb (acc_write (f_flags f)) then r = - EBADF /\ same s s'
  else if negb (ntype n =? VFS_TYPE_REG) then r = - EISDIR /\ same s s'
  else if 2 ^ 64 <=? off + k then r = - EINVAL /\ same s s'
  else (r = - ENOMEM /\ same s s') \/
       r = k /\ exists n', written n src k off n' /\ rewrites s (f_vn f) n n' (set_files s' (files s)) /\
         files s' = <[q := set_file_offset f (off + k)]> (files s).

Lemma vfs_write_spec s q f n src k :
  fs_wf [] s -> files s !! q = Some f -> nodes s !! f_vn f = Some n -> 0 < k < 2 ^ 63 ->
  exists r s', vfs_write s q src k = Some (r, s') /\ fs_wf [] s' /\ write_effect s q f n src k r s'.
Proof.
  intros W E En Hk. pose proof (file_nonzero _ _ _ _ W E). destruct (wf_files _ _ W q f E) as (_ & Fo & _).
  destruct (ok_buf _ _ _ _ (wf_nodes _ _ W _ n En)) as (B1 & B2 & B3).
  unfold vfs_write, write_effect. rewrite (proj2 (Z.eqb_neq q 0)) by done. rewrite E. cbn [mbind option_bind].
  destruct (negb (acc_write (f_flags f))); [by eexists _, _|]. rewrite En. cbn [mbind option_bind]. fold (write_offset f n).
  set (off := write_offset f n). assert (0 <= off < 2 ^ 64) as Ho by (unfold off, write_offset; zif; lia).
  assert (forall e s1, e <= 0 -> same s s1 -> fs_wf [] s1 ->
    set_files s1 (<[q := if 0 <? e then set_file_offset f (u64 (off + e)) else f]> (files s1)) = s1) as Err.
  { intros e s1 He S1 W1. rewrite (proj2 (Z.ltb_ge 0 e)) by lia. rewrite insert_id, set_files_id; [done|]. by rewrite (same_files _ _ S1). }
  destruct (Z.eqb_spec (ntype n) VFS_TYPE_REG) as [T|T]; cbn [negb].
  - pose proof (ramfs_write_spec [] s (f_vn f) n src k off W En T Hk Ho) as Wr. destruct (2 ^ 64 <=? off + k) eqn:Hov.
    { rewrite Wr. cbn [mbind option_bind]. rewrite Err by done. by eexists _, _. }
    zb. destruct Wr as [(s1 & -> & S1 & W1)|(n' & s1 & -> & W1 & R & Wn)]; cbn [mbind option_bind].
    { rewrite Err by done. eexists _, _. split; [done|]. split; [done|]. by left. }
    rewrite (proj2 (Z.ltb_lt 0 k)), u64_small by lia. assert (files s1 = files s) as F1 by apply R. eexists _, _. split; [done|]. split.
    + apply wf_file_offset; [done|by rewrite F1|lia].
    + right. split; [done|]. exists n'. split; [done|]. split; [|cbn [files set_files]; by rewrite F1]. destruct R. by split.
  - unfold ramfs_write. rewrite En. cbn [mbind option_bind]. rewrite (proj2 (Z.eqb_neq _ _) T). cbn [negb mbind option_bind].
    rewrite Err by done. by eexists _, _.
Qed.

Definition seek_effect s q f (n : node) (off whence r : Z) s' : Prop :=
  let base := if whence =? VFS_SEEK_SET then Some 0 else if whence =? VFS_SEEK_CUR then Some (i64 (f_offset f))
              else if whence =? VFS_SEEK_END then Some (i64 (vsize n)) else None in
  match base with
  | Some b => if 0 <=? i64 (b + off)
      then r = i64 (b + off) /\ s' = set_files s (<[q := set_file_offset f r]> (files s))
      else r = - EINVAL /\ s' = s
  | None => r = - EINVAL /\ s' = s
  end.

Lemma i64_range x : - 2 ^ 63 <= i64 x < 2 ^ 63.
Proof. unfold i64. pose proof (Z.mod_pos_bound (x + 2 ^ 63) (2 ^ 64) ltac:(lia)). lia. Qed.

Lemma vfs_seek_spec s q f n off whence :
  fs_wf [] s -> files s !! q = Some f -> nodes s !! f_vn f = Some n ->
  exists r s', vfs_seek s q off whence = Some (r, s') /\ fs_wf [] s' /\ seek_effect s q f n off whence r s'.
Proof.
  intros W E En. pose proof (file_nonzero _ _ _ _ W E). unfold vfs_seek, seek_effect.
  rewrite (proj2 (Z.eqb_neq q 0)) by done. rewrite E. cbn [mbind option_bind].
  assert (forall b, exists r s', (if i64 (b + off) <? 0 then Some (- EINVAL, s)
      else Some (i64 (b + off), set_files s (<[q := set_file_offset f (u64 (i64 (b + off)))]> (files s)))) = Some (r, s') /\
    fs_wf [] s' /\ if 0 <=? i64 (b + off) then r = i64 (b + off) /\ s' = set_files s (<[q := set_file_offset f r]> (files s))
      else r = - EINVAL /\ s' = s) as K.
  { intros b. pose proof (i64_range (b + off)). destruct (Z.ltb_spec (i64 (b + off)) 0).
    - rewrite (proj2 (Z.leb_gt 0 _)) by lia. by eexists _, _.
    - rewrite (proj2 (Z.leb_le 0 _)), u64_small by lia. eexists _, _. split; [done|]. split; [|done]. apply wf_file_offset; done || lia. }
  destruct (whence =? VFS_SEEK_SET); [apply K|]. destruct (whence =? VFS_SEEK_CUR); [apply K|].
  destruct (whence =? VFS_SEEK_END); [rewrite En; apply K|]. by eexists _, _.
Qed.

(** *** Names after a change of the tree *)

Lemma tree_at s (p : Z) m : tree s !! p = Some m -> exists n, nodes s !! p = Some n /\ m = set_refcount n 0.
Proof. rewrite tree_lookup. destruct (nodes s !! p) as [n|]; [|done]. intros [= <-]. by exists n. Qed.

Lemma at_tree s (p : Z) n : nodes s !! p = Some n -> tree s !! p = Some (set_refcount n 0).
Proof. intros E. by rewrite tree_lookup, E. Qed.

(** Two nodes that are equal up to the reference count. *)
Definition alike (n m : node) : Prop := set_refcount n 0 = set_refcount m 0.

Lemma alike_fields n m : alike n m ->
  ntype n = ntype m /\ parent n = parent m /\ children n = children m /\ nname n = nname m /\ vsize n = vsize m /\ buf n = buf m.
Proof. intros E. destruct n, m. unfold alike, set_refcount in E. cbn in *. injection E. by intros; subst. Qed.

Lemma added_new s par d c n s' : added s par d c n s' -> nodes s !! par = Some d -> exists m, nodes s' !! c = Some m /\ alike m n.
Proof.
  intros (Fr & _ & _ & T) E. assert (par <> c) by congruence.
  destruct (tree_at s' c (set_refcount n 0)) as (m & Em & Q); [|by exists m].
  by rewrite T, lookup_insert_ne, lookup_insert_eq.
Qed.

Lemma added_new_name s par d c n s' : added s par d c n s' -> nodes s !! par = Some d -> name_of s' c = cstr (nname n).
Proof.
  intros Ad E. destruct (added_new _ _ _ _ _ _ Ad E) as (m2 & E2 & (_ & _ & _ & N2 & _)%alike_fields).
  unfold name_of. by rewrite E2, N2.
Qed.

Lemma added_old s par d c n s' (q : Z) m :
  added s par d c n s' -> nodes s !! par = Some d -> nodes s !! q = Some m ->
  exists m', nodes s' !! q = Some m' /\ alike m' (if q =? par then set_children m (c :: children m) else m).
Proof.
  intros (Fr & _ & _ & T) E Em. assert (c <> q) by congruence.
  destruct (tree_at s' q (set_refcount (if q =? par then set_children m (c :: children m) else m) 0)) as (m' & Em' & Q); [|by exists m'].
  rewrite T, lookup_insert. case_decide as Hq.
  - subst q. rewrite Z.eqb_refl. assert (m = d) as -> by congruence. done.
  - rewrite (proj2 (Z.eqb_neq q par)) by done. rewrite lookup_insert_ne by done. by apply at_tree.
Qed.

Lemma added_name s par d c n s' (q : Z) :
  added s par d c n s' -> nodes s !! par = Some d -> is_Some (nodes s !! q) -> name_of s' q = name_of s q.
Proof.
  intros Ad E [m Em]. destruct (added_old _ _ _ _ _ _ q m Ad E Em) as (m' & Em' & K). unfold name_of. rewrite Em, Em'.
  apply alike_fields in K as (_ & _ & _ & -> & _). by destruct (q =? par).
Qed.

Lemma child_ext s s' cs nm : (forall c, c ∈ cs -> name_of s' c = name_of s c) -> child s' cs nm = child s cs nm.
Proof.
  induction cs as [|x cs IH]; intros Hn; [done|]. rewrite !child_cons, IH by (intros; apply Hn; by right). by rewrite Hn by left.
Qed.

Lemma children_exist ext s d dn c : fs_wf ext s -> nodes s !! d = Some dn -> c ∈ children dn -> is_Some (nodes s !! c).
Proof. intros W E Hc. destruct (named_children _ _ _ _ W E c Hc) as (n & -> & _). eauto. Qed.

(** A walk that succeeded takes the same way after a node was added under a new name. *)
Lemma walk_added ext s par d c n s' comps : forall cur out,
  fs_wf ext s -> added s par d c n s' -> nodes s !! par = Some d -> child s (children d) (cstr (nname n)) = None ->
  is_Some (nodes s !! cur) -> linked s cur = true -> walk s cur comps = (0, out) -> walk s' cur comps = (0, out).
Proof.
  induction comps as [|nm rest IH]; intros cur out W Ad E Nw [m Em] Lc Hw; [done|]. cbn [walk] in *.
  destruct (_ <? zlen nm); [done|]. case_bool_decide; [by apply IH; eauto|]. rewrite Em in Hw.
  destruct (added_old _ _ _ _ _ _ cur m Ad E Em) as (m' & -> & K). apply alike_fields in K as (Kt & Kp & Kc & _).
  assert (ntype m' = ntype m /\ parent m' = parent m) as [-> ->] by (rewrite Kt, Kp; by destruct (cur =? par)).
  case_bool_decide.
  { destruct (parent_linked _ _ _ _ W Em Lc) as (pn & Ep & Lp). apply IH; eauto. }
  destruct (negb _); [done|]. destruct (child s (children m) nm) as [x|] eqn:Ex; [|done].
  assert (child s' (children m') nm = Some x) as ->.
  { rewrite Kc. assert (child s' (children m) nm = Some x) as Ex'.
    { rewrite <- Ex. apply child_ext. intros y Hy. eapply added_name; [done|done|]. by eapply children_exist. }
    destruct (Z.eqb_spec cur par) as [->|]; [|done]. cbn [children set_children]. rewrite child_cons.
    rewrite bool_decide_eq_false_2; [done|]. rewrite (added_new_name _ _ _ _ _ _ Ad E). intros <-. assert (m = d) as -> by congruence. congruence. }
  apply child_Some in Ex as [Hx _]. apply IH; eauto; [by eapply children_exist|by eapply child_linked].
Qed.

(** ... and the new name leads to the new node. *)
Lemma walk_app s comps1 : forall cur comps2 mid, walk s cur comps1 = (0, mid) -> walk s cur (comps1 ++ comps2) = walk s mid comps2.
Proof.
  induction comps1 as [|nm rest IH]; intros cur comps2 mid Hw; cbn [walk app] in *; [by injection Hw as ->|].
  destruct (_ <? zlen nm); [done|]. case_bool_decide; [by apply IH|]. destruct (nodes s !! cur); [|done]. case_bool_decide; [by apply IH|].
  destruct (negb _); [done|]. destruct (child _ _ _); [by apply IH|done].
Qed.

Lemma added_resolves ext s par d c n s' dirs :
  fs_wf ext s -> added s par d c n s' -> nodes s !! par = Some d -> ntype d = VFS_TYPE_DIR -> linked s par = true ->
  let nm := cstr (nname n) in child s (children d) nm = None -> zlen nm <= VFS_NAME_MAX -> nm <> [DOT] -> nm <> [DOT; DOT] ->
  walk s (vfs_root s) dirs = (0, par) -> walk s' (vfs_root s') (dirs ++ [nm]) = (0, c).
Proof.
  intros W Ad E Td Lp nm Nw Ln D1 D2 Hw. pose proof Ad as (_ & _ & Hr & _). rewrite Hr.
  assert (linked s (vfs_root s) = true) as Lr by (unfold linked; by rewrite Z.eqb_refl).
  destruct (wf_root _ _ W) as (rn & Er & _).
  rewrite (walk_app s' dirs _ _ par) by (eapply (walk_added ext); eauto).
  cbn [walk]. rewrite (proj2 (Z.ltb_ge _ _)) by lia. rewrite !bool_decide_eq_false_2 by done.
  destruct (added_old _ _ _ _ _ _ par d Ad E E) as (m' & -> & K). rewrite Z.eqb_refl in K. apply alike_fields in K as (Kt & _ & Kc & _).
  rewrite Kt. cbn [ntype set_children]. rewrite Td. cbn [Z.eqb VFS_TYPE_DIR negb Pos.eqb]. rewrite Kc. cbn [children set_children]. rewrite child_cons.
  rewrite bool_decide_eq_true_2; [done|]. by apply (added_new_name _ _ _ _ _ _ Ad E).
Qed.

Lemma walk_app_err s comps1 : forall cur comps2 e x, walk s cur comps1 = (e, x) -> e <> 0 -> walk s cur (comps1 ++ comps2) = (e, x).
Proof.
  induction comps1 as [|nm rest IH]; intros cur comps2 e x Hw He; cbn [walk app] in *; [by injection Hw as <- _|].
  destruct (_ <? zlen nm); [done|]. case_bool_decide; [by apply IH|]. destruct (nodes s !! cur); [|done]. case_bool_decide; [by apply IH|].
  destruct (negb _); [done|]. destruct (child _ _ _); [by apply IH|done].
Qed.

Lemma child_remove s pre c post nm : name_of s c <> nm -> child s (pre ++ c :: post) nm = child s (pre ++ post) nm.
Proof.
  intros Hn. induction pre as [|x pre IH]; cbn [app]; rewrite !child_cons; [by rewrite bool_decide_eq_false_2|by rewrite IH].
Qed.

(** The tree after [c] was taken out of [par]. *)
Section removed.
Context (ext : list Z) (s : fs A) (par : Z) (d : node) (c : Z) (nc : node) (s' : fs A).
Context (W : fs_wf ext s) (E : nodes s !! par = Some d) (Ec : nodes s !! c = Some nc) (Cc : children nc = [])
  (Rm : removed s par d c s').

Lemma removed_listed : c ∈ children d.
Proof using Rm. destruct Rm as (pre & post & -> & _). apply elem_of_app. right. left. Qed.

Lemma removed_old (q : Z) m : q <> c -> nodes s !! q = Some m ->
  exists m', nodes s' !! q = Some m' /\ ntype m' = ntype m /\ parent m' = parent m /\ nname m' = nname m /\ vsize m' = vsize m /\ buf m' = buf m /\
    (q <> par -> children m' = children m).
Proof using Rm E.
  intros Hq Em. destruct Rm as (pre & post & Ed & _ & _ & T). cbv zeta in T. set (t := <[par := _]> (tree s)) in T.
  assert (tree s' !! q = t !! q) as Tq by (rewrite T; destruct (0 <? opens s c); [done|by rewrite lookup_delete_ne]).
  unfold t in Tq. rewrite lookup_insert in Tq. case_decide as Hp.
  - subst q. destruct (tree_at s' par _ Tq) as (m' & Em' & K). assert (m = d) as -> by congruence.
    exists m'. split; [done|]. destruct (alike_fields (set_children d (pre ++ post)) m') as (? & ? & ? & ? & ? & ?); [done|]. cbn in *. done.
  - rewrite (at_tree s q m Em) in Tq. destruct (tree_at s' q _ Tq) as (m' & Em' & K). exists m'. split; [done|].
    destruct (alike_fields m m' K) as (? & ? & ? & ? & ? & ?). done.
Qed.

Lemma removed_name (q : Z) : q <> c -> is_Some (nodes s !! q) -> name_of s' q = name_of s q.
Proof using Rm E. intros Hq [m Em]. destruct (removed_old q m Hq Em) as (m' & Em' & _ & _ & K & _). unfold name_of. by rewrite Em, Em', K. Qed.

Lemma removed_par : par <> c.
Proof using Rm E Ec Cc. by eapply leaf_not_parent, Cc; [..|apply removed_listed|]. Qed.

(** The parent lists the others under their names, and [c]'s name no more. *)
Lemma removed_child nm : exists d', nodes s' !! par = Some d' /\
  child s' (children d') nm = if bool_decide (nm = name_of s c) then None else child s (children d) nm.
Proof using All.
  destruct Rm as (pre & post & Ed & _ & _ & T). cbv zeta in T. set (t := <[par := _]> (tree s)) in T.
  assert (tree s' !! par = t !! par) as Tq by (rewrite T; destruct (0 <? opens s c); [done|by rewrite lookup_delete_ne by (apply not_eq_sym, removed_par)]).
  unfold t in Tq. rewrite lookup_insert_eq in Tq. destruct (tree_at s' par _ Tq) as (d' & Ed' & K). exists d'. split; [done|].
  destruct (alike_fields (set_children d (pre ++ post)) d') as (_ & _ & Kc & _); [done|]. rewrite <- Kc. cbn [children set_children].
  pose proof (ok_names _ _ _ _ (wf_nodes _ _ W par d E)) as Nd. pose proof (NoDup_fmap_1 _ _ Nd) as Nc. rewrite Ed in Nd, Nc.
  assert (c ∉ pre ++ post) as Hc by (rewrite <- Permutation_middle in Nc; by apply NoDup_cons in Nc as []).
  rewrite (child_ext s s').
  2: { intros y Hy. apply removed_name; [by intros ->|]. eapply children_exist; [done|exact E|]. rewrite Ed. set_solver. }
  case_bool_decide as Hn.
  - subst nm. apply child_None. rewrite fmap_app in *. rewrite fmap_cons in Nd. apply NoDup_app in Nd as (_ & N2 & N3).
    apply NoDup_cons in N3 as [N3 _]. rewrite not_elem_of_app. split; [|done]. intros Hx. apply (N2 _ Hx). left.
  - rewrite Ed, child_remove; [done|]. congruence.
Qed.

Lemma removed_walk comps : forall cur out,
  cur <> c -> is_Some (nodes s !! cur) -> linked s cur = true -> walk s cur comps = (0, out) ->
  walk s' cur comps = (0, out) \/ walk s' cur comps = (- ENOENT, 0).
Proof using All.
  destruct (ok_child _ _ _ _ (wf_nodes _ _ W par d E) c removed_listed) as [Cr (nc' & Ec' & Pc)]. assert (nc' = nc) as -> by congruence.
  induction comps as [|nm rest IH]; intros cur out Hc [m Em] Lc Hw; [by left|]. cbn [walk] in *.
  destruct (_ <? zlen nm); [by left|]. case_bool_decide; [by apply IH; eauto|]. rewrite Em in Hw.
  destruct (removed_old cur m Hc Em) as (m' & Em' & Kt & Kp & _ & _ & _ & Kc). rewrite Em', Kt, Kp. case_bool_decide.
  { destruct (parent_linked _ _ _ _ W Em Lc) as (pn & Ep & Lp). apply IH; eauto. intros Hp. unfold linked in Lc. rewrite Em, Hp, Ec, Cc in Lc.
    apply orb_true_iff in Lc as [Lr|Lb]; [|by apply bool_decide_eq_true, not_elem_of_nil in Lb]. zb. subst cur.
    destruct (wf_root _ _ W) as (rn & Er & _ & Pr). congruence. }
  destruct (negb _); [by left|]. destruct (child s (children m) nm) as [x|] eqn:Ex; [|done]. pose proof (child_Some _ _ _ _ Ex) as [Hx Nx].
  destruct (ok_child _ _ _ _ (wf_nodes _ _ W cur m Em) x Hx) as [_ (nx & Enx & Px)].
  destruct (decide (x = c)) as [->|Hxc].
  - right. assert (cur = par) as -> by congruence. assert (m = d) as -> by congruence. destruct (removed_child nm) as (d' & Ed' & K).
    assert (d' = m') as -> by congruence. rewrite K. by rewrite bool_decide_eq_true_2.
  - assert (child s' (children m') nm = Some x) as ->.
    { destruct (decide (cur = par)) as [->|Hp].
      - assert (m = d) as -> by congruence. destruct (removed_child nm) as (d' & Ed' & K). assert (d' = m') as -> by congruence. rewrite K.
        rewrite bool_decide_eq_false_2; [done|]. intros ->. apply Hxc.
        pose proof (child_elem s (children d) c (ok_names _ _ _ _ (wf_nodes _ _ W par d E)) removed_listed). congruence.
      - rewrite Kc, <- Ex by done. apply child_ext. intros y Hy. apply removed_name; [|eapply children_exist; [exact W|exact Em|exact Hy]].
        intros ->. destruct (ok_child _ _ _ _ (wf_nodes _ _ W cur m Em) c Hy) as [_ (? & ? & ?)]. congruence. }
    apply IH; eauto. eapply child_linked; [exact W|exact Em|exact Hx].
Qed.

Lemma removed_resolves dirs nm :
  nm = name_of s c -> zlen nm <= VFS_NAME_MAX -> nm <> [DOT] -> nm <> [DOT; DOT] -> ntype d = VFS_TYPE_DIR ->
  walk s (vfs_root s) dirs = (0, par) -> walk s' (vfs_root s') (dirs ++ [nm]) = (- ENOENT, 0).
Proof using All.
  intros Hn Ln D1 D2 Td Hw. assert (vfs_root s' = vfs_root s) as -> by (destruct Rm as (? & ? & _ & _ & ? & _); done).
  destruct (wf_root _ _ W) as (rn & Er & _). destruct (ok_child _ _ _ _ (wf_nodes _ _ W par d E) c removed_listed) as [Cr _].
  assert (linked s (vfs_root s) = true) as Lr by (unfold linked; by rewrite Z.eqb_refl).
  destruct (removed_walk dirs (vfs_root s) par) as [Hk|Hk]; [done|eauto|done|done|..].
  - rewrite (walk_app s' dirs _ _ par) by done. cbn [walk]. rewrite (proj2 (Z.ltb_ge _ _)) by lia. rewrite !(bool_decide_eq_false_2 (nm = _)) by done.
    destruct (removed_child nm) as (d' & Ed' & K). destruct (removed_old par d removed_par E) as (d2 & Ed2 & Kt & _).
    assert (d2 = d') as -> by congruence. rewrite Ed', Kt, Td. cbn [Z.eqb VFS_TYPE_DIR negb Pos.eqb]. rewrite K. by rewrite bool_decide_eq_true_2.
  - by apply walk_app_err.
Qed.
End removed.

Lemma split_components path dirs base :
  split_path path = inr (dirs, base) -> components path = dirs ++ [base].
Proof.
  unfold split_path, components. intros E. repeat zif_in E; try done. injection E as <- <-.
  rewrite (app_removelast_last [] (segments_nonnil (cstr path))) at 1. rewrite filter_app. f_equal.
  rewrite filter_cons_True; [done|]. intros E0. rewrite E0 in *. done.
Qed.

(** The parent part of a path that resolves. *)
Lemma resolve_parent s (path : list Z) dirs base x :
  split_path path = inr (dirs, base) -> base <> [DOT] -> base <> [DOT; DOT] -> resolve_path s path = (0, x) ->
  exists par d, walk s (vfs_root s) dirs = (0, par) /\ nodes s !! par = Some d /\ ntype d = VFS_TYPE_DIR /\
    child s (children d) base = Some x.
Proof.
  intros Ep D1 D2. unfold resolve_path. destruct (negb _); [done|]. rewrite (split_components _ _ _ Ep).
  destruct (walk s (vfs_root s) dirs) as [e par] eqn:Hw. destruct (Z.eq_dec e 0) as [->|He].
  - rewrite (walk_app s dirs _ _ par Hw). cbn [walk]. destruct (_ <? zlen base); [done|]. rewrite bool_decide_eq_false_2 by done.
    destruct (nodes s !! par) as [d|] eqn:E; [|done]. rewrite bool_decide_eq_false_2 by done.
    destruct (Z.eqb_spec (ntype d) VFS_TYPE_DIR); cbn [negb]; [|done]. destruct (child s (children d) base) as [c|] eqn:Ec; [|done].
    intros [= <-]. by exists par, d.
  - rewrite (walk_app_err s dirs _ _ _ _ Hw He). by intros [= ->].
Qed.

(** [vfs_mkdir] on an absolute path whose last name is not [.] or [..]: if the
    path resolves already the result is [EEXIST]; on success the path did not
    resolve before and now leads to a fresh, empty directory with the given mode;
    any failure leaves the tree as it was; the file-system invariant (exact
    reference counts, block ownership, distinct names) is kept. *)
Theorem vfs_mkdir_correct s (path : list Z) mode dirs base :
  fs_wf [] s -> 0 ∈ path -> zget 0 path 0 = SLASH -> split_path path = inr (dirs, base) -> base <> [DOT] -> base <> [DOT; DOT] ->
  exists r s', vfs_mkdir s path mode = Some (r, s') /\ fs_wf [] s' /\
    (forall x, resolve_path s path = (0, x) -> r = - EEXIST) /\
    (r < 0 -> same s s') /\ r <= 0 /\
    (r = 0 -> exists c n, resolve_path s' path = (0, c) /\ nodes s !! c = None /\ nodes s' !! c = Some n /\
       ntype n = VFS_TYPE_DIR /\ nmode n = mode /\ children n = [] /\ cstr (nname n) = base).
Proof.
  intros W Zp Hs Ep D1 D2. destruct (vfs_mkdir_spec s path mode W Zp) as (r & s' & Em & W' & O). exists r, s'.
  split; [done|]. split; [done|]. destruct (split_path_clean _ _ _ Ep) as (C1 & C2 & C3). unfold on_parent in O. rewrite Ep in O.
  pose proof (split_parent_spec [] s path W ltac:(done) Zp) as Sp. rewrite Ep in Sp.
  destruct (walk s (vfs_root s) dirs) as [e par] eqn:Hw. destruct Sp as (s1 & _ & _ & R).
  assert (forall x, resolve_path s path = (0, x) -> exists d, e = 0 /\ nodes s !! par = Some d /\ ntype d = VFS_TYPE_DIR /\ child s (children d) base = Some x) as Ex.
  { intros x Hx. destruct (resolve_parent _ _ _ _ _ Ep D1 D2 Hx) as (par' & d & Hw' & E & T & C). rewrite Hw in Hw'. injection Hw' as -> ->. by exists d. }
  destruct (Z.eqb_spec e 0) as [->|He]; cbn [negb] in O.
  2: { destruct O as [-> S]. destruct R as (Hlt & _). split; [intros x Hx; destruct (Ex x Hx) as (? & ? & _); done|]. split; [done|]. lia. }
  destruct R as [Lp _]. destruct O as (d & E & O). destruct (Z.eqb_spec (ntype d) VFS_TYPE_DIR) as [T|T]; cbn [negb] in O.
  2: { destruct O as [-> S]. split; [intros x Hx; destruct (Ex x Hx) as (? & _ & ? & ? & _); congruence|]. split; [done|]. done. }
  unfold mkdir_effect in O. destruct (child s (children d) base) as [x|] eqn:Ec; [destruct O as [-> S]; done|].
  assert (forall x, resolve_path s path = (0, x) -> r = - EEXIST) as Hno.
  { intros x Hx. destruct (Ex x Hx) as (d2 & _ & E2 & _ & C2'). congruence. }
  split; [done|]. destruct O as [[-> S]|(-> & c & Ad)]; [done|]. split; [lia|]. split; [done|]. intros _.
  set (nn := new_node s par VFS_TYPE_DIR mode (base ++ [0])) in *.
  assert (cstr (nname nn) = base) as Nn.
  { destruct (xs_strcpy_name (replicate 256 0) (base ++ [0])) as (_ & N2 & _); [done|by rewrite cstr_app|]. cbn [nn nname new_node]. by rewrite N2, cstr_app. }
  destruct (added_new _ _ _ _ _ _ Ad E) as (n & En & K). exists c, n. split; [|split; [apply Ad|split; [done|]]].
  - unfold resolve_path. rewrite Hs, Z.eqb_refl. cbn [negb]. rewrite (split_components _ _ _ Ep).
    pose proof (added_resolves [] s par d c nn s' dirs W Ad E T Lp) as Ar. cbv zeta in Ar. rewrite Nn in Ar. by apply Ar.
  - apply alike_fields in K as K'. destruct K' as (-> & _ & -> & -> & _). split; [done|]. split; [|done]. by apply (f_equal nmode) in K.
Qed.

(** Every open file reads as before after a node was taken out. *)
Lemma removed_reads s par d c nc s' :
  fs_wf [] s -> nodes s !! par = Some d -> nodes s !! c = Some nc -> children nc = [] -> removed s par d c s' ->
  forall q k, fst <$> vfs_read s' q k = fst <$> vfs_read s q k.
Proof.
  intros W E Ec Cc Rm q k. assert (files s' = files s) as F by (destruct Rm as (? & ? & _ & ? & _); done).
  unfold vfs_read. rewrite F. destruct (q =? 0); [done|]. destruct (files s !! q) as [f|] eqn:Ef; [|done]. cbn [mbind option_bind].
  destruct (negb _); [done|]. destruct (wf_files _ _ W q f Ef) as ([n En] & _).
  assert (exists n', nodes s' !! f_vn f = Some n' /\ ntype n' = ntype n /\ vsize n' = vsize n /\ buf n' = buf n) as (n' & En' & K1 & K2 & K3).
  { destruct (decide (f_vn f = c)) as [Hc|Hc].
    - pose proof (opens_pos s q f Ef) as Ho. pose proof (removed_par s par d c nc s' E Ec Cc Rm) as Hpc.
      destruct Rm as (pre & post & _ & _ & _ & T). cbv zeta in T. rewrite <- Hc in *. rewrite (proj2 (Z.ltb_lt 0 _) Ho) in T.
      assert (tree s' !! f_vn f = Some (set_refcount n 0)) as Tn by (rewrite T, lookup_insert_ne by done; by apply at_tree).
      destruct (tree_at s' _ _ Tn) as (n' & En' & K). exists n'. split; [done|]. destruct (alike_fields n n' K) as (? & _ & _ & _ & ? & ?). done.
    - destruct (removed_old s par d c s' E Rm _ n Hc En) as (n' & En' & ? & _ & _ & ? & ? & _). by exists n'. }
  unfold ramfs_read. rewrite En, En'. cbn [mbind option_bind]. rewrite K1, K2, K3. by repeat zif.
Qed.

(** What both kinds of removal promise. *)
Definition removal_ok s (path : list Z) (r : Z) s' : Prop :=
  fs_wf [] s' /\ (r < 0 -> same s s') /\ r <= 0 /\
  (forall q k, fst <$> vfs_read s' q k = fst <$> vfs_read s q k) /\
  (r = 0 -> (exists c, resolve_path s path = (0, c)) /\ resolve_path s' path = (- ENOENT, 0)).

Lemma same_reads s s' : same s s' -> forall q k, fst <$> vfs_read s' q k = fst <$> vfs_read s q k.
Proof.
  intros S q k. unfold vfs_read. rewrite (same_files _ _ S). destruct (q =? 0); [done|]. destruct (files s !! q) as [f|]; [|done]. cbn [mbind option_bind].
  destruct (negb _); [done|]. unfold ramfs_read. destruct (nodes s !! f_vn f) as [n|] eqn:En.
  - destruct (tree_node s s' _ n (same_tree _ _ S) En) as [r ->]. cbn [mbind option_bind ntype vsize buf set_refcount]. by repeat zif.
  - destruct (nodes s' !! f_vn f) as [n|] eqn:En'; [|done]. destruct (tree_node s' s _ n (eq_sym (same_tree _ _ S)) En'). congruence.
Qed.

Lemma removal_same s path r s' : fs_wf [] s' -> r < 0 -> same s s' -> removal_ok s path r s'.
Proof. intros W Hr S. split; [done|]. split; [done|]. split; [lia|]. split; [by apply same_reads|lia]. Qed.

Lemma removal_spec s (path : list Z) dirs base par d c nc s' :
  fs_wf [] s -> fs_wf [] s' -> zget 0 path 0 = SLASH -> split_path path = inr (dirs, base) -> base <> [DOT] -> base <> [DOT; DOT] ->
  walk s (vfs_root s) dirs = (0, par) -> nodes s !! par = Some d -> ntype d = VFS_TYPE_DIR -> child s (children d) base = Some c ->
  nodes s !! c = Some nc -> children nc = [] -> removed s par d c s' -> removal_ok s path 0 s'.
Proof.
  intros W W' Hs Ep D1 D2 Hw E T Ec Enc Cc Rm. destruct (split_path_clean _ _ _ Ep) as (C1 & C2 & C3).
  pose proof (child_Some _ _ _ _ Ec) as [Hc Nc].
  split; [done|]. split; [lia|]. split; [done|]. split; [exact (removed_reads s par d c nc s' W E Enc Cc Rm)|]. intros _. unfold resolve_path.
  rewrite Hs, Z.eqb_refl. cbn [negb]. rewrite (split_components _ _ _ Ep). split.
  - exists c. rewrite (walk_app s dirs _ _ par Hw). cbn [walk]. rewrite (proj2 (Z.ltb_ge _ _)) by lia. rewrite !bool_decide_eq_false_2 by done.
    by rewrite E, T, Ec.
  - by eapply (removed_resolves [] s par d c nc s' W E Enc Cc Rm).
Qed.

(** C26: [vfs_unlink] and [vfs_rmdir] on an absolute path whose last name is not
    [.] or [..]: a failure leaves the tree as it was; on success the path did
    resolve and now gives [ENOENT]; and in both cases every open file, the removed
    one included, reads exactly as before.  The invariant is kept, so a removed
    node is freed exactly when no file refers to it. *)
Theorem vfs_remove_correct s (path : list Z) dirs base :
  fs_wf [] s -> 0 ∈ path -> zget 0 path 0 = SLASH -> split_path path = inr (dirs, base) -> base <> [DOT] -> base <> [DOT; DOT] ->
  (exists r s', vfs_unlink s path = Some (r, s') /\ removal_ok s path r s') /\
  (exists r s', vfs_rmdir s path = Some (r, s') /\ removal_ok s path r s').
Proof.
  intros W Zp Hs Ep D1 D2. pose proof (split_parent_spec [] s path W ltac:(done) Zp) as Sp. rewrite Ep in Sp. split.
  - destruct (vfs_unlink_spec s path W Zp) as (r & s' & Em & W' & O). exists r, s'. split; [done|]. unfold on_parent in O. rewrite Ep in O.
    destruct (walk s (vfs_root s) dirs) as [e par] eqn:Hw. destruct Sp as (s1 & _ & _ & R).
    destruct (Z.eqb_spec e 0) as [->|He]; cbn [negb] in O; [|destruct O as [-> S]; apply removal_same; [done|apply R|done]].
    destruct O as (d & E & O). destruct (Z.eqb_spec (ntype d) VFS_TYPE_DIR) as [T|]; cbn [negb] in O; [|destruct O as [-> S]; by apply removal_same].
    unfold unlink_effect in O. destruct (child s (children d) base) as [c|] eqn:Ec; [|destruct O as [-> S]; by apply removal_same].
    destruct O as (nc & Enc & O). destruct (Z.eqb_spec (ntype nc) VFS_TYPE_DIR) as [|Tc]; [destruct O as [-> S]; by apply removal_same|].
    destruct O as [-> Rm]. eapply removal_spec; try done.
    destruct (children nc) eqn:Cc; [done|]. destruct Tc. apply (ok_dir _ _ _ _ (wf_nodes _ _ W c nc Enc)). by rewrite Cc.
  - destruct (vfs_rmdir_spec s path W Zp) as (r & s' & Em & W' & O). exists r, s'. split; [done|]. unfold on_parent in O. rewrite Ep in O.
    destruct (walk s (vfs_root s) dirs) as [e par] eqn:Hw. destruct Sp as (s1 & _ & _ & R).
    destruct (Z.eqb_spec e 0) as [->|He]; cbn [negb] in O; [|destruct O as [-> S]; apply removal_same; [done|apply R|done]].
    destruct O as (d & E & O). destruct (Z.eqb_spec (ntype d) VFS_TYPE_DIR) as [T|]; cbn [negb] in O; [|destruct O as [-> S]; by apply removal_same].
    unfold rmdir_effect in O. destruct (child s (children d) base) as [c|] eqn:Ec; [|destruct O as [-> S]; by apply removal_same].
    destruct O as (nc & Enc & O). destruct (negb _); [destruct O as [-> S]; by apply removal_same|].
    destruct (children nc) eqn:Cc; [|destruct O as [-> S]; by apply removal_same]. destruct O as [-> Rm]. by eapply removal_spec.
Qed.

(** The bytes of a file. *)
Definition contents (n : node) : list Z := slice (buf n) 0 (vsize n).

(** Writing inside the file or at its end is a splice. *)
Lemma written_contents n src k off n' :
  written n src k off n' -> 0 < k -> zlen src = k -> 0 <= off <= vsize n ->
  contents n' = take (Z.to_nat off) (contents n) ++ src ++ drop (Z.to_nat (off + k)) (contents n).
Proof.
  intros [V G] Hk Ls Ho. unfold contents. assert (zlen (slice (buf n) 0 (vsize n)) = vsize n) as Lc by (rewrite zlen_slice; lia).
  unfold zlen in Lc, Ls. apply (list_eq_zget 0).
  - rewrite zlen_slice, V. rewrite !zlen_app. unfold zlen. rewrite length_take, length_drop. lia.
  - intros j. rewrite zlen_slice. intros Hj. rewrite zget_slice, Z.add_0_l, G by lia. rewrite (zget_lookup 0 (_ ++ _)) by lia.
    assert (forall i, 0 <= i < vsize n -> slice (buf n) 0 (vsize n) !! Z.to_nat i = Some (zget 0 (buf n) i)) as Sl.
    { intros i Hi. pose proof (zget_slice (buf n) 0 (vsize n) i Hi) as Zs. rewrite zget_lookup in Zs by lia.
      destruct (slice _ _ _ !! _) eqn:El; [cbn in Zs; by rewrite Zs|]. apply lookup_ge_None in El. lia. }
    destruct (Z.leb_spec off j) as [H1|H1]; cbn [andb].
    + rewrite lookup_app_r by (rewrite length_take; lia). rewrite length_take, Nat.min_l by lia. destruct (Z.ltb_spec j (off + k)) as [H2|H2]; cbn [andb].
      * rewrite lookup_app_l by lia. rewrite zget_lookup by lia. do 2 f_equal. lia.
      * rewrite (proj2 (Z.leb_gt (vsize n) j)) by lia. cbn [andb].
        rewrite lookup_app_r by lia. rewrite lookup_drop. replace (Z.to_nat (off + k) + (Z.to_nat j - Z.to_nat off - length src))%nat with (Z.to_nat j) by lia.
        rewrite Sl by lia. done.
    + rewrite (proj2 (Z.leb_gt (vsize n) j)) by lia. cbn [andb]. rewrite lookup_app_l by (rewrite length_take; lia).
      rewrite lookup_take_lt by lia. rewrite Sl by lia. done.
Qed.

(** What is written is what is read back.  A write of [k] bytes at an offset
    inside the file or at its end (no [O_APPEND]) either fails for lack of memory
    and changes nothing, or returns [k], makes the file's contents the old ones
    with the bytes spliced in, and after seeking back a read of [k] bytes returns
    exactly the bytes written. *)
Theorem vfs_write_read s q f n src k :
  fs_wf [] s -> files s !! q = Some f -> nodes s !! f_vn f = Some n -> ntype n = VFS_TYPE_REG ->
  acc_write (f_flags f) = true -> acc_read (f_flags f) = true -> Z.land (f_flags f) VFS_O_APPEND = 0 ->
  zlen src = k -> 0 < k < 2 ^ 32 -> f_offset f <= vsize n < 2 ^ 62 ->
  exists r s1, vfs_write s q src k = Some (r, s1) /\ fs_wf [] s1 /\
    ((r = - ENOMEM /\ same s s1) \/
     (r = k /\ (exists n1, nodes s1 !! f_vn f = Some n1 /\
         contents n1 = take (Z.to_nat (f_offset f)) (contents n) ++ src ++ drop (Z.to_nat (f_offset f + k)) (contents n)) /\
      exists s2 s3, vfs_seek s1 q (f_offset f) VFS_SEEK_SET = Some (f_offset f, s2) /\ vfs_read s2 q k = Some (k, src, s3))).
Proof.
  intros W E En T Aw Ar Ap Ls Hk Ho. destruct (vfs_write_spec s q f n src k W E En ltac:(lia)) as (r & s1 & Ew & W1 & R). exists r, s1.
  split; [done|]. split; [done|]. destruct (wf_files _ _ W q f E) as (_ & Fo & _). unfold write_effect, write_offset in R. rewrite Aw, T, Ap in R.
  cbn [negb Z.eqb VFS_TYPE_REG Pos.eqb] in R. rewrite (proj2 (Z.leb_gt (2 ^ 64) _)) in R by lia.
  destruct R as [R|(-> & n1 & Wn & Rw & F1)]; [by left|right]. split; [done|].
  assert (nodes s1 !! f_vn f = Some n1) as E1.
  { pose proof (rw_nodes _ _ _ _ _ Rw) as Rn. cbn [nodes set_files] in Rn. rewrite Rn. apply lookup_insert_eq. }
  split; [exists n1; split; [done|]; eapply written_contents; done || lia|].
  assert (files s1 !! q = Some (set_file_offset f (f_offset f + k))) as Ef1 by (rewrite F1; apply lookup_insert_eq).
  destruct (vfs_seek_spec s1 q _ n1 (f_offset f) VFS_SEEK_SET W1 Ef1 E1) as (r2 & s2 & -> & W2 & R2).
  unfold seek_effect in R2. cbn [Z.eqb VFS_SEEK_SET] in R2. rewrite Z.add_0_l, i64_small in R2 by lia. rewrite (proj2 (Z.leb_le 0 _)) in R2 by lia.
  destruct R2 as [-> Es2]. assert (files s2 !! q = Some f) as Ef2.
  { rewrite Es2. cbn [files set_files]. rewrite lookup_insert_eq. f_equal. by destruct f. }
  destruct (vfs_read_spec s2 q f n1 k W2 Ef2 ltac:(by rewrite Es2) ltac:(lia)) as (r3 & bs & s3 & Er & W3 & R3). exists s2, s3. split; [done|]. rewrite Er.
  unfold read_effect in R3. rewrite Ar in R3. destruct (rw_node _ _ _ _ _ Rw) as (sz & dd & bb & cap & ->). cbn [negb ntype set_content] in R3.
  rewrite T in R3. cbn [Z.eqb VFS_TYPE_REG negb Pos.eqb] in R3. destruct Wn as [V G]. rewrite V in R3.
  destruct R3 as (-> & -> & _). replace (Z.min k (Z.max 0 (Z.max (vsize n) (f_offset f + k) - f_offset f))) with k by lia.
  do 3 f_equal. apply (list_eq_zget 0); [rewrite zlen_slice; lia|]. intros j. rewrite zlen_slice. intros Hj.
  rewrite zget_slice, G by lia. rewrite (proj2 (Z.leb_le _ _)), (proj2 (Z.ltb_lt _ _)) by lia. cbn [andb]. f_equal. lia.
Qed.

(** ** What paths depend on *)

(** The tree without contents and counts. *)
Definition skeleton (n : node) : Z * Z * list Z * list Z := (ntype n, parent n, nname n, children n).
Definition shape s : Z * gmap Z (Z * Z * list Z * list Z) := (vfs_root s, skeleton <$> nodes s).

Lemma shape_node s s' (p : Z) n : shape s' = shape s -> nodes s !! p = Some n -> exists n', nodes s' !! p = Some n' /\ skeleton n' = skeleton n.
Proof.
  intros E En. apply (f_equal snd) in E. cbn [shape snd] in E. apply (f_equal (lookup p)) in E. rewrite !lookup_fmap, En in E. cbn in E.
  destruct (nodes s' !! p) as [n'|]; [|done]. cbn in E. injection E as E1 E2 E3 E4. exists n'. split; [done|]. unfold skeleton. congruence.
Qed.

Lemma shape_none s s' (p : Z) : shape s' = shape s -> nodes s !! p = None -> nodes s' !! p = None.
Proof. intros E En. destruct (nodes s' !! p) as [n|] eqn:En'; [|done]. destruct (shape_node s' s p n (eq_sym E) En') as (? & ? & _). congruence. Qed.

Lemma name_shape s s' (p : Z) : shape s' = shape s -> name_of s' p = name_of s p.
Proof.
  intros E. unfold name_of. destruct (nodes s !! p) as [n|] eqn:En; [|by rewrite (shape_none s s')].
  destruct (shape_node s s' p n E En) as (n' & -> & K). unfold skeleton in K. congruence.
Qed.

Lemma walk_shape s s' comps : shape s' = shape s -> forall cur, walk s' cur comps = walk s cur comps.
Proof.
  intros E. induction comps as [|nm rest IH]; intros cur; [done|]. cbn [walk]. rewrite IH. destruct (nodes s !! cur) as [n|] eqn:En; [|by rewrite (shape_none s s' cur E En)].
  destruct (shape_node s s' cur n E En) as (n' & -> & K). unfold skeleton in K. injection K as -> -> _ ->.
  rewrite (child_ext s s') by (intros; by apply name_shape). rewrite IH. destruct (child _ _ _); [by rewrite IH|done].
Qed.

Lemma resolve_shape s s' (path : list Z) : shape s' = shape s -> resolve_path s' path = resolve_path s path.
Proof. intros E. unfold resolve_path. rewrite (walk_shape s s') by done. apply (f_equal fst) in E. cbn [shape fst] in E. by rewrite E. Qed.

Lemma shape_tree s s' : tree s' = tree s -> vfs_root s' = vfs_root s -> shape s' = shape s.
Proof.
  intros T R. unfold shape. rewrite R. f_equal. assert (forall x : fs A, skeleton <$> nodes x = skeleton <$> tree x) as K; [|by rewrite !K, T].
  intros x. unfold tree. rewrite <- map_fmap_compose. done.
Qed.

Lemma shape_rewrites s (vn : Z) n n' s' : nodes s !! vn = Some n -> rewrites s vn n n' s' -> shape s' = shape s.
Proof.
  intros E [R1 (? & ? & ? & ? & ->) _ R3 _]. unfold shape. rewrite R3, R1. f_equal. rewrite fmap_insert. apply insert_id. by rewrite lookup_fmap, E.
Qed.

Lemma shape_open s (vn : Z) n flags r f s' : nodes s !! vn = Some n -> open_effect s vn n flags r f s' -> shape s' = shape s.
Proof.
  intros E (T & R & _). destruct (truncates flags n); [|by apply shape_tree]. unfold shape. rewrite R. f_equal.
  assert (forall x : fs A, skeleton <$> nodes x = skeleton <$> tree x) as K by (intros x; unfold tree; by rewrite <- map_fmap_compose).
  rewrite !K, T, fmap_insert. apply insert_id. by rewrite lookup_fmap, (at_tree _ _ _ E).
Qed.

(** [s'] is [s] with nothing changed but the content of the node [vn] and reference counts. *)
Definition edits s (vn : Z) s' : Prop := shape s' = shape s /\ forall x, x <> vn -> tree s' !! x = tree s !! x.

Lemma edits_refl s vn : edits s vn s.
Proof. done. Qed.
Lemma edits_trans s1 vn s2 s3 : edits s1 vn s2 -> edits s2 vn s3 -> edits s1 vn s3.
Proof. intros [E1 T1] [E2 T2]. split; [congruence|]. intros x Hx. by rewrite T2, T1. Qed.
Lemma edits_tree s vn s' : tree s' = tree s -> vfs_root s' = vfs_root s -> edits s vn s'.
Proof. intros T R. split; [by apply shape_tree|]. intros x _. by rewrite T. Qed.
Lemma edits_rewrites s (vn : Z) n n' s' : nodes s !! vn = Some n -> rewrites s vn n n' s' -> edits s vn s'.
Proof. intros E R. split; [by eapply shape_rewrites|]. intros x Hx. unfold tree. rewrite (rw_nodes _ _ _ _ _ R), fmap_insert. by apply lookup_insert_ne. Qed.
Lemma edits_open s (vn : Z) n flags r f s' : nodes s !! vn = Some n -> open_effect s vn n flags r f s' -> edits s vn s'.
Proof.
  intros E O. split; [by eapply shape_open|]. destruct O as (T & _). intros x Hx. rewrite T. destruct (truncates flags n); [by apply lookup_insert_ne|done].
Qed.

(** What a successful open leaves: the path leads to the node of the new file, which is empty when
    it was created or truncated. *)
Lemma open_effect_alike s (vn : Z) n m flags r f s' : alike m n -> open_effect s vn n flags r f s' -> open_effect s vn m flags r f s'.
Proof.
  intros Al (T & K). split; [|exact K]. pose proof (alike_fields _ _ Al) as (Tn & _). unfold truncates in *. rewrite Tn, T. destruct (_ && _); [|done].
  f_equal. destruct n, m. unfold alike, set_refcount in Al. cbn in Al |- *. injection Al as -> -> -> -> -> -> -> -> -> ->. done.
Qed.

Lemma open_resolves s (path : list Z) flags mode f s' : fs_wf [] s -> 0 ∈ path -> Forall (fun w => w <> [DOT] /\ w <> [DOT; DOT]) (components path) -> zget 0 path 0 = SLASH ->
  open_outcome s path flags mode 0 f s' ->
  exists vn n', resolve_path s' path = (0, vn) /\ files s' !! f = Some (MkFile vn 0 flags 1) /\ nodes s' !! vn = Some n' /\
    (ntype n' = VFS_TYPE_REG -> Z.land flags VFS_O_TRUNC <> 0 -> acc_write flags = true -> vsize n' = 0) /\
    (forall n, resolve_path s path = (0, vn) -> nodes s !! vn = Some n -> Z.land flags VFS_O_TRUNC = 0 -> alike n' n).
Proof.
  intros W Zp Fc Ab O. unfold open_outcome in O.
  assert (forall s1 vn n, nodes s1 !! vn = Some n -> open_effect s1 vn n flags 0 f s' -> resolve_path s1 path = (0, vn) ->
    (vsize n = 0 \/ nodes s !! vn = Some n) -> (nodes s !! vn = None \/ nodes s !! vn = Some n) ->
    exists vn n', resolve_path s' path = (0, vn) /\ files s' !! f = Some (MkFile vn 0 flags 1) /\ nodes s' !! vn = Some n' /\
    (ntype n' = VFS_TYPE_REG -> Z.land flags VFS_O_TRUNC <> 0 -> acc_write flags = true -> vsize n' = 0) /\
    (forall n, resolve_path s path = (0, vn) -> nodes s !! vn = Some n -> Z.land flags VFS_O_TRUNC = 0 -> alike n' n)) as K.
  { intros s1 vn n En Oe Er Hv Hs. pose proof (shape_open _ _ _ _ _ _ _ En Oe) as Sh. destruct Oe as (T & R & [(? & _)|(_ & _ & _ & F)]); [done|].
    destruct (tree_at s' vn (set_refcount (if truncates flags n then wipe n else n) 0)) as (n' & En' & Q).
    { rewrite T. destruct (truncates flags n); [apply lookup_insert_eq|by apply at_tree]. }
    exists vn, n'. split; [by rewrite (resolve_shape s1 s')|]. split; [rewrite F; apply lookup_insert_eq|]. split; [done|].
    assert (alike n' (if truncates flags n then wipe n else n)) as Al by done. split.
    - intros Tn Ht Hw. apply alike_fields in Al as (At & _ & _ & _ & -> & _). assert (ntype n = ntype n') as Tn' by (rewrite At; by destruct (truncates flags n)).
      rewrite Tn in Tn'. unfold truncates in *. rewrite Hw in *.
      rewrite (proj2 (Z.eqb_neq _ 0) Ht) in *. cbn [negb andb] in *.
      by rewrite Tn', Z.eqb_refl.
    - intros m _ Em Ht. unfold truncates in Al. rewrite Ht in Al. cbn [Z.eqb negb andb] in Al. destruct Hs as [?|Hs]; [congruence|]. assert (m = n) as -> by congruence. done. }
  destruct (resolve_path s path) as [e vn] eqn:Er. destruct (_ && _) eqn:Ec.
  - apply andb_prop in Ec as [Ec _]. apply Z.eqb_eq in Ec as ->. unfold on_parent in O. destruct (split_path path) as [e'|[dirs base]] eqn:Es.
    { destruct O as [<- _]. unfold split_path in Es. repeat case_match; by simplify_eq. }
    pose proof (split_components _ _ _ Es) as Cm. destruct (split_path_clean _ _ _ Es) as (C1 & C2 & C3).
    destruct (walk s (vfs_root s) dirs) as [e' par] eqn:Ew. destruct (Z.eqb_spec e' 0) as [->|He]; cbn [negb] in O; [|by destruct O as [<- _]].
    destruct O as (d & Ed & O). destruct (Z.eqb_spec (ntype d) VFS_TYPE_DIR) as [Td|]; cbn [negb] in O; [|by destruct O].
    unfold create_effect in O. destruct (child s (children d) base) eqn:Ech; [by destruct O|].
    destruct O as [[? _]|(c & s1 & Ad & Oe)]; [done|]. set (n := new_node s par VFS_TYPE_REG mode (base ++ [0])) in *.
    assert (cstr (nname n) = base) as Nn.
    { destruct (xs_strcpy_name (replicate 256 0) (base ++ [0])) as (_ & N2 & _); [done|by rewrite cstr_app|]. cbn [n nname new_node]. by rewrite N2, cstr_app. }
    destruct (added_new _ _ _ _ _ _ Ad Ed) as (m & Em & Al).
    rewrite Cm in Fc. apply Forall_app in Fc as [_ [[D1 D2] _]%Forall_cons].
    assert (linked s par = true) as Lp.
    { pose proof (split_parent_spec [] s path W ltac:(done) Zp) as Sp. rewrite Es, Ew in Sp. by destruct Sp as (? & _ & _ & Lp & _). }
    assert (resolve_path s1 path = (0, c)) as Er1.
    { unfold resolve_path. rewrite Ab, Z.eqb_refl. cbn [negb]. rewrite Cm, <- Nn. eapply (added_resolves [] s par d c n s1 dirs); rewrite ?Nn; done. }
    apply (K s1 c m Em); [by eapply open_effect_alike|done|left; by apply alike_fields in Al as (_ & _ & _ & _ & -> & _)|left; apply Ad].
  - destruct (Z.ltb_spec e 0); [destruct O as [<- _]; lia|]. destruct (_ =? Z.lor _ _); [by destruct O|]. destruct O as (n & En & Oe).
    pose proof (vfs_resolve_spec [] s path W ltac:(done) Zp) as R. rewrite Er in R. destruct R as (? & _ & _ & R).
    destruct (Z.eqb_spec e 0) as [->|]; [|lia]. apply (K s vn n En Oe Er); [by right|by right].
Qed.

(** ** The empty file system *)

Definition empty_fs (h : A) : fs A := vfs_init (MkFs A h ∅ 1 0 ∅).

Lemma mount_root_spec (h : A) : u_wf h ->
  exists p s0, ramfs_create_root (empty_fs h) = Some (p, s0) /\
    (p <> 0 -> exists s, vfs_mount_root s0 p = Some s /\ fs_wf [] s /\ files s = ∅).
Proof.
  intros Wh. unfold ramfs_create_root, ramfs_new_node, empty_fs, vfs_init. cbn [heap set_root].
  destruct (u_calloc 1 sizeof_ramfs_node h) as [p h'] eqn:Ea.
  destruct (u_calloc_law h 1 sizeof_ramfs_node p h' Wh ltac:(lia) ltac:(unfold sizeof_ramfs_node; lia) Ea) as [Uw _ _ Uf Us].
  destruct (Z.eqb_spec p 0) as [->|Hp]; [by eexists _, _|]. rewrite (proj2 (Z.eqb_neq p 0)) by done. cbn [nodes set_root mbind option_bind].
  rewrite lookup_insert_eq. cbn [mbind option_bind]. eexists _, _. split; [done|]. intros _. unfold vfs_mount_root.
  cbn [vfs_root set_root set_node nodes mbind option_bind Z.eqb]. rewrite (proj2 (Z.eqb_neq p 0)) by done. rewrite lookup_insert_eq.
  cbn [mbind option_bind]. eexists. split; [done|]. split; [|done].
  set (s := set_node _ p _). destruct (Us Hp) as (Fl & sz & _ & Lh & _).
  assert (exists n, nodes s = <[p := n]> ∅ /\ refcount n = 1 /\ children n = [] /\ ntype n = VFS_TYPE_DIR /\ parent n = p /\ data n = 0 /\
    zlen (nname n) = 256 /\ 0 ∈ nname n /\ buf n = [] /\ capacity n = 0 /\ vsize n = 0) as (n & En & Rn & Cn & Tn & Pn & Dn & Ln & Zn & Bn & Kn & Vn).
  { eexists. split; [cbn [s nodes set_node set_root set_parent]; rewrite !insert_insert_eq; done|]. do 6 (split; [done|]). split; [|done].
    apply elem_of_replicate. done. }
  assert (forall q m, nodes s !! q = Some m -> q = p /\ m = n) as K.
  { intros q m. rewrite En, lookup_insert. case_decide; [by intros [= <-]|done]. }
  split; try done.
  - exists {[p := TNode]}. split; try done.
    + intros q. cbn [s heap set_node set_root]. rewrite Lh. rewrite lookup_singleton, lookup_insert. case_decide; [eauto|by intros []].
    + intros q m Em. apply K in Em as [-> ->]. apply lookup_singleton_eq.
    + intros q m Em. apply K in Em as [-> ->]. by rewrite Dn.
  - exists n. cbn [s vfs_root set_node set_root]. fold s. rewrite En, lookup_insert_eq. done.
  - intros q m Em. apply K in Em as [-> ->]. assert (linked s p = true) as Lk by (unfold linked; cbn [s vfs_root set_node set_root]; by rewrite Z.eqb_refl).
    split; rewrite ?Lk, ?Cn, ?Bn, ?Kn, ?Vn; try done; [by rewrite Rn|intros c Hc; by apply not_elem_of_nil in Hc|constructor].
  - intros q Hq. by apply not_elem_of_nil in Hq.
Qed.
End walk.

(** ** A small file system: a root, an open file [/f] and a directory [/d] *)

Definition demo_heap : bump.bump := bump.MkBump 4096 ∅.
Definition state_of {B} (d : fs bump.bump) (o : option (B * fs bump.bump)) : fs bump.bump := match o with Some (_, s) => s | None => d end.
Definition demo_root : fs bump.bump :=
  match ramfs_create_root (empty_fs demo_heap) with
  | Some (p, s) => default s (vfs_mount_root s p)
  | None => empty_fs demo_heap
  end.
Definition demo_open : fs bump.bump := state_of demo_root (vfs_open demo_root [47; 102; 0] 259 420).
Definition demo_fs : fs bump.bump := state_of demo_open (vfs_mkdir demo_open [47; 100; 0] 493).

Lemma demo_root_wf : fs_wf [] demo_root.
Proof.
  destruct (mount_root_spec demo_heap) as (p & s0 & E & K); [by split|]. unfold demo_root. rewrite E.
  destruct K as (s & Em & W & _). { intros ->. vm_compute in E. congruence. } by rewrite Em.
Qed.

Lemma demo_open_wf : fs_wf [] demo_open.
Proof.
  destruct (vfs_open_spec demo_root [47; 102; 0] 259 420 demo_root_wf ltac:(set_solver) ltac:(vm_compute; reflexivity)) as (r & f & s & E & W & _).
  unfold demo_open. by rewrite E.
Qed.

Lemma demo_fs_wf : fs_wf [] demo_fs.
Proof.
  destruct (vfs_mkdir_spec demo_open [47; 100; 0] 493 demo_open_wf ltac:(set_solver)) as (r & s & E & W & _).
  unfold demo_fs. by rewrite E.
Qed.

Lemma vfs_mkdir_correct_witness :
  exists r s', vfs_mkdir demo_fs [47; 100; 47; 97; 0] 448 = Some (r, s') /\ fs_wf [] s' /\ r = 0 /\
    exists c n, resolve_path s' [47; 100; 47; 97; 0] = (0, c) /\ nodes demo_fs !! c = None /\ nodes s' !! c = Some n /\
      ntype n = VFS_TYPE_DIR /\ nmode n = 448 /\ children n = [] /\ cstr (nname n) = [97].
Proof.
  destruct (vfs_mkdir_correct demo_fs [47; 100; 47; 97; 0] 448 [[100]] [97] demo_fs_wf) as (r & s' & E & W & _ & _ & _ & K);
    [set_solver|done|vm_compute; reflexivity|done|done|].
  exists r, s'. split; [done|]. split; [done|]. assert (r = 0) as ->; [|split; [done|by apply K]].
  assert (fst <$> vfs_mkdir demo_fs [47; 100; 47; 97; 0] 448 = Some 0) as Q by (vm_compute; reflexivity). rewrite E in Q. by injection Q.
Defined.

Lemma vfs_remove_correct_witness :
  (exists r s', vfs_unlink demo_fs [47; 102; 0] = Some (r, s') /\ removal_ok demo_fs [47; 102; 0] r s' /\ r = 0).
Proof.
  destruct (vfs_remove_correct demo_fs [47; 102; 0] [] [102] demo_fs_wf) as [(r & s' & E & R) _];
    [set_solver|done|vm_compute; reflexivity|done|done|].
  exists r, s'. split; [done|]. split; [done|].
  assert (fst <$> vfs_unlink demo_fs [47; 102; 0] = Some 0) as Q by (vm_compute; reflexivity). rewrite E in Q. by injection Q.
Defined.

(** The file opened by [demo_open]. *)
Definition demo_q : Z := 4784.

Lemma vfs_write_read_witness :
  exists f n r s1, files demo_fs !! demo_q = Some f /\ nodes demo_fs !! f_vn f = Some n /\
    vfs_write demo_fs demo_q [104; 105] 2 = Some (r, s1) /\ r = 2 /\
    exists s2 s3, vfs_seek s1 demo_q 0 VFS_SEEK_SET = Some (0, s2) /\ vfs_read s2 demo_q 2 = Some (2, [104; 105], s3).
Proof.
  destruct (files demo_fs !! demo_q) as [f|] eqn:Ef; [|by vm_compute in Ef].
  destruct (wf_files _ _ demo_fs_wf demo_q f Ef) as ([n En] & _). exists f, n.
  assert (f_flags f = 259 /\ f_offset f = 0 /\ ntype n = VFS_TYPE_REG /\ vsize n = 0) as (F1 & F2 & N1 & N2).
  { revert En. vm_compute in Ef. injection Ef as <-. intros En. vm_compute in En. injection En as <-. done. }
  destruct (vfs_write_read demo_fs demo_q f n [104; 105] 2 demo_fs_wf Ef En N1) as (r & s1 & Ew & _ & R);
    [rewrite F1; reflexivity..|reflexivity|lia|lia|].
  exists r, s1. split; [done|]. split; [done|]. split; [done|]. rewrite F2 in R. destruct R as [[-> _]|(-> & _ & R)]; [|by split].
  assert (fst <$> vfs_write demo_fs demo_q [104; 105] 2 = Some 2) as Q by (vm_compute; reflexivity). rewrite Ew in Q. done.
Defined.

(** [vfs_mkdir] takes [.] for the name of a new entry: the call succeeds, and the
    directory it makes cannot be reached by any path, since a walk skips [.] . *)
Theorem mkdir_dot_unreachable :
  exists s', vfs_mkdir demo_fs [47; 46; 0] 493 = Some (0, s') /\
    resolve_path s' [47; 46; 0] = (0, vfs_root s') /\ map_size (nodes s') = S (map_size (nodes demo_fs)).
Proof.
  destruct (vfs_mkdir demo_fs [47; 46; 0] 493) as [[r s']|] eqn:E; [|by vm_compute in E]. exists s'.
  assert (s' = state_of demo_fs (vfs_mkdir demo_fs [47; 46; 0] 493)) as Es by by rewrite E.
  assert (fst <$> vfs_mkdir demo_fs [47; 46; 0] 493 = Some 0) as Q by (vm_compute; reflexivity). rewrite E in Q. injection Q as ->.
  split; [done|]. rewrite Es. split; vm_compute; reflexivity.
Qed.

(** Bytes past the end of a file are not cleared when a later write skips over
    them: after truncation the old bytes show up again in the gap. *)
Theorem write_gap_shows_old_bytes :
  let s1 := state_of demo_fs (vfs_write demo_fs demo_q [83; 69; 67; 82; 69; 84] 6) in
  let s2 := state_of s1 (vfs_open s1 [47; 102; 0] (VFS_O_RDWR + VFS_O_TRUNC) 0) in
  let s3 := state_of s2 (vfs_write s2 demo_q [33] 1) in
  let s4 := state_of s3 (vfs_seek s3 demo_q 0 VFS_SEEK_SET) in
  fst <$> vfs_read s4 demo_q 16 = Some (7, [83; 69; 67; 82; 69; 84; 33]).
Proof. vm_compute. reflexivity. Qed.
