(* ===== verification/VfsServer.v ===== *)
(** * The VFS server

    [userspace/vfs/main.c]: the clients' table, the request handlers and the
    receive loop.  A request is the 1024 bytes of [struct vfs_req]; what the
    server sends and which handles it closes are events, in order.  [serve] is
    one turn of the loop of [main]. *)
From S2P Require Import Prelude Bytes Errno Str Iface CMalloc Ramfs Vfs.

Definition VFS_MAX_CLIENTS : Z := 8.
Definition VFS_RPC_PATH_MAX : Z := 256.
Definition VFS_RPC_DATA_MAX : Z := 512.
Definition VFS_RPC_MSG_SIZE : Z := 1024.
Definition VFS_OP_ATTACH : Z := 0.
Definition VFS_OP_OPEN : Z := 1.
Definition VFS_OP_CLOSE : Z := 2.
Definition VFS_OP_READ : Z := 3.
Definition VFS_OP_WRITE : Z := 4.
Definition VFS_OP_SEEK : Z := 5.
Definition VFS_OP_MKDIR : Z := 6.
Definition VFS_OP_UNLINK : Z := 7.
Definition VFS_OP_RMDIR : Z := 8.
Definition VFS_OP_READDIR : Z := 9.
Definition VFS_OP_SHUTDOWN : Z := 10.
Definition EXYDE_HANDLE_INVALID : Z := 4294967295.

(** ** Messages *)

Record vfs_req := MkReq {
  op : Z; fd : Z; arg0 : Z; arg1 : Z; data_len : Z; client_id : Z; path : list Z; rdata : list Z }.

(** The request at the start of the receive buffer. *)
Definition req_at (m : list Z) : vfs_req :=
  MkReq (get_le m 0 4) (get_le m 4 4) (get_le m 8 8) (get_le m 16 8) (get_le m 24 4) (get_le m 28 4)
        (slice m 32 VFS_RPC_PATH_MAX) (slice m 288 VFS_RPC_DATA_MAX).

(** [struct vfs_rsp] at the start of [reply_buf]; the rest of the buffer is never written. *)
Definition rsp_bytes (ret aux len : Z) (data : list Z) : list Z :=
  le_bytes 8 (u64 ret) ++ le_bytes 8 aux ++ le_bytes 4 len ++ le_bytes 4 0 ++
  copy_loop (replicate 512 0) 0 data 0 len ++ replicate 488 0.

Inductive event := Send (ch : Z) (msg : list Z) | CloseHandle (h : Z).

(** ** State *)

Record vfs_client := MkClient { in_use : bool; id : Z; ch_resp : Z; fdtab : list Z }.

Record server {A : Type} := MkServer {
  sfs : fs A; g_clients : list vfs_client; g_next_client_id : Z; events : list event }.
Arguments server A : clear implicits.
Arguments MkServer {A}.

Definition no_client : vfs_client := MkClient false 0 0 vfs_fd_init.

Section server.
Context {A : Type} `{UHeap A}.
Implicit Types (srv : server A).

Definition client_at srv (i : Z) : vfs_client := zget no_client (g_clients srv) i.
Definition set_client srv (i : Z) (c : vfs_client) : server A :=
  MkServer (sfs srv) (zset (g_clients srv) i c) (g_next_client_id srv) (events srv).
Definition set_fs srv (s : fs A) : server A := MkServer s (g_clients srv) (g_next_client_id srv) (events srv).
Definition emit srv (e : event) : server A :=
  MkServer (sfs srv) (g_clients srv) (g_next_client_id srv) (events srv ++ [e]).

(** The index of the first client in [cs], numbered from [i], that satisfies [f]. *)
Fixpoint client_scan (f : vfs_client -> bool) (cs : list vfs_client) (i : Z) : option Z :=
  match cs with
  | [] => None
  | c :: cs => if f c then Some i else client_scan f cs (i + 1)
  end.

Definition client_find srv (cid : Z) : option Z :=
  if cid =? 0 then None else client_scan (fun c => in_use c && (id c =? cid)) (g_clients srv) 0.

Definition clients_any_alive srv : bool :=
  match client_scan in_use (g_clients srv) 0 with Some _ => true | None => false end.

Definition client_attach srv (ch : Z) : option Z * server A :=
  match client_scan (fun c => negb (in_use c)) (g_clients srv) 0 with
  | Some i =>
      let c := MkClient true (g_next_client_id srv) ch vfs_fd_init in
      (Some i, MkServer (sfs srv) (zset (g_clients srv) i c) (u32 (g_next_client_id srv + 1)) (events srv))
  | None => (None, srv)
  end.

(** [for (i ...) if (files[i]) { vfs_close(files[i]); files[i] = 0; }] *)
Fixpoint close_all (s : fs A) (t : list Z) : option (fs A) :=
  match t with
  | [] => Some s
  | f :: t => s ← (if f =? 0 then Some s else '(_, s) ← vfs_close s f; Some s); close_all s t
  end.

Definition client_detach srv (i : Z) : option (server A) :=
  let c := client_at srv i in
  s ← close_all (sfs srv) (fdtab c);
  let srv := emit (set_fs srv s) (CloseHandle (ch_resp c)) in
  Some (set_client srv i (MkClient false (id c) EXYDE_HANDLE_INVALID vfs_fd_init)).

Definition reply_ok srv (i ret aux : Z) (data : list Z) (len : Z) : server A :=
  emit srv (Send (ch_resp (client_at srv i)) (rsp_bytes ret aux len data)).
Definition reply_err srv (i err : Z) : server A :=
  emit srv (Send (ch_resp (client_at srv i)) (rsp_bytes (- err) 0 0 [])).

Definition check_path (q : vfs_req) : Z := if bool_decide (0 ∈ path q) then 0 else - EINVAL.

(** ** Handlers *)

(** [if (r < 0) reply_err(c, -r); else reply_ok(c, 0, 0, 0, 0)] *)
Definition reply_status srv (i r : Z) : server A :=
  if r <? 0 then reply_err srv i (- r) else reply_ok srv i 0 0 [] 0.

Definition op_open srv (i : Z) (q : vfs_req) : option (Z * server A) :=
  '(r, f, s) ← vfs_open (sfs srv) (path q) (u32 (arg0 q)) (u32 (arg1 q));
  if r <? 0 then Some (r, set_fs srv s)
  else
    let c := client_at srv i in
    let (fd, t) := vfs_fd_alloc (fdtab c) f in
    if fd <? 0 then '(_, s) ← vfs_close s f; Some (fd, set_fs srv s)
    else Some (fd, set_client (set_fs srv s) i (MkClient (in_use c) (id c) (ch_resp c) t)).

(** The handlers that need an open file: [EBADF] without one. *)
Definition with_file srv (i : Z) (q : vfs_req) (k : Z -> option (server A)) : option (server A) :=
  let f := vfs_fd_get (fdtab (client_at srv i)) (i32 (fd q)) in
  if f =? 0 then Some (reply_err srv i EBADF) else k f.

Definition handle srv (i : Z) (q : vfs_req) : option (server A) :=
  if op q =? VFS_OP_OPEN then
    '(r, srv) ← op_open srv i q;
    Some (if r <? 0 then reply_err srv i (- r) else reply_ok srv i 0 r [] 0)
  else if op q =? VFS_OP_CLOSE then
    let c := client_at srv i in
    '(r, t, s) ← vfs_fd_close (sfs srv) (fdtab c) (i32 (fd q));
    Some (reply_status (set_client (set_fs srv s) i (MkClient (in_use c) (id c) (ch_resp c) t)) i r)
  else if op q =? VFS_OP_READ then
    with_file srv i q (fun f =>
      if (arg0 q =? 0) || (VFS_RPC_DATA_MAX <? arg0 q) then Some (reply_err srv i EINVAL)
      else
        '(n, buf, s) ← vfs_read (sfs srv) f (arg0 q);
        let srv := set_fs srv s in
        Some (if n <? 0 then reply_err srv i (i32 (- n)) else reply_ok srv i n 0 buf (u32 n)))
  else if op q =? VFS_OP_WRITE then
    with_file srv i q (fun f =>
      if (data_len q =? 0) || (VFS_RPC_DATA_MAX <? data_len q) then Some (reply_err srv i EINVAL)
      else
        '(n, s) ← vfs_write (sfs srv) f (rdata q) (data_len q);
        let srv := set_fs srv s in
        Some (if n <? 0 then reply_err srv i (i32 (- n)) else reply_ok srv i n 0 [] 0))
  else if op q =? VFS_OP_SEEK then
    with_file srv i q (fun f =>
      '(r, s) ← vfs_seek (sfs srv) f (i64 (arg0 q)) (i32 (arg1 q));
      let srv := set_fs srv s in
      Some (if r <? 0 then reply_err srv i (i32 (- r)) else reply_ok srv i r (u64 r) [] 0))
  else if op q =? VFS_OP_MKDIR then
    '(r, s) ← vfs_mkdir (sfs srv) (path q) (u32 (arg0 q));
    Some (reply_status (set_fs srv s) i r)
  else if op q =? VFS_OP_UNLINK then
    '(r, s) ← vfs_unlink (sfs srv) (path q);
    Some (reply_status (set_fs srv s) i r)
  else if op q =? VFS_OP_RMDIR then
    '(r, s) ← vfs_rmdir (sfs srv) (path q);
    Some (reply_status (set_fs srv s) i r)
  else if op q =? VFS_OP_READDIR then
    with_file srv i q (fun f =>
      fl ← files (sfs srv) !! f;
      n ← nodes (sfs srv) !! f_vn fl;
      if negb (ntype n =? VFS_TYPE_DIR) then Some (reply_err srv i ENOTDIR)
      else
        '(r, name) ← ramfs_readdir (sfs srv) (f_vn fl) (u32 (arg0 q)) VFS_RPC_DATA_MAX;
        Some (if r <? 0 then reply_err srv i (- r) else reply_ok srv i 0 0 name (u32 (strlen name + 1))))
  else Some (reply_err srv i ENOSYS).

(** ** The loop *)

Inductive outcome := Running (srv : server A) | Exited (status : Z) (srv : server A).

(** One turn: [n], [msg] and [new_resp] are what [exyde_ipc_recv_cap] gave. *)
Definition serve srv (n : Z) (msg : list Z) (new_resp : Z) : option outcome :=
  if negb (n =? VFS_RPC_MSG_SIZE) then Some (Exited 1 srv)
  else
    let q := req_at msg in
    if op q =? VFS_OP_ATTACH then
      if new_resp =? EXYDE_HANDLE_INVALID then Some (Running srv)
      else
        match client_attach srv new_resp with
        | (None, srv) =>
            Some (Running (emit (emit srv (Send new_resp (rsp_bytes (- EMFILE) 0 0 []))) (CloseHandle new_resp)))
        | (Some i, srv) =>
            let c := client_at srv i in
            Some (Running (emit srv (Send (ch_resp c) (rsp_bytes 0 (id c) 0 []))))
        end
    else
      let srv := if new_resp =? EXYDE_HANDLE_INVALID then srv else emit srv (CloseHandle new_resp) in
      match client_find srv (client_id q) with
      | None => Some (Running srv)
      | Some i =>
          if op q =? VFS_OP_SHUTDOWN then
            srv ← client_detach (reply_ok srv i 0 0 [] 0) i;
            Some (if clients_any_alive srv then Running srv else Exited 0 srv)
          else
            let need_path := (op q =? VFS_OP_OPEN) || (op q =? VFS_OP_MKDIR) || (op q =? VFS_OP_UNLINK) || (op q =? VFS_OP_RMDIR) in
            if need_path && (check_path q <? 0) then Some (Running (reply_err srv i EINVAL))
            else srv ← handle srv i q; Some (Running srv)
      end.

(** [main] up to the loop: the exit status, or the server. *)
Definition boot (h : A) (ch_req : Z) : option outcome :=
  let s := vfs_init (MkFs A h ∅ 1 0 ∅) in
  '(root, s) ← ramfs_create_root s;
  let srv s := MkServer s (replicate (Z.to_nat VFS_MAX_CLIENTS) no_client) 1 [] in
  if root =? 0 then Some (Exited 1 (srv s))
  else
    s ← vfs_mount_root s root;
    if ch_req =? EXYDE_HANDLE_INVALID then Some (Exited 1 (srv s)) else Some (Running (srv s)).

(** The loop over the messages received, until the server exits. *)
Fixpoint serve_all (o : outcome) (msgs : list (Z * list Z * Z)) : option outcome :=
  match o, msgs with
  | Running srv, (n, m, h) :: msgs => o ← serve srv n m h; serve_all o msgs
  | _, _ => Some o
  end.
End server.
Arguments outcome A : clear implicits.

(** ** The descriptor tables and the files *)

Definition slot (cs : list vfs_client) (i j : Z) : Z := zget 0 (fdtab (zget no_client cs i)) j.
Definition in_tab (i j : Z) : Prop := 0 <= i < VFS_MAX_CLIENTS /\ 0 <= j < VFS_FD_MAX.

(** Every file is in exactly one slot of one client. *)
Record tab_wf (cs : list vfs_client) (fl : gmap Z file) : Prop := {
  tw_len : zlen cs = VFS_MAX_CLIENTS;
  tw_tab i : 0 <= i < VFS_MAX_CLIENTS -> zlen (fdtab (zget no_client cs i)) = VFS_FD_MAX;
  tw_idle i : 0 <= i < VFS_MAX_CLIENTS -> in_use (zget no_client cs i) = false -> fdtab (zget no_client cs i) = vfs_fd_init;
  tw_file i j : in_tab i j -> slot cs i j <> 0 -> is_Some (fl !! slot cs i j);
  tw_inj i j i' j' : in_tab i j -> in_tab i' j' -> slot cs i j <> 0 -> slot cs i j = slot cs i' j' -> i = i' /\ j = j';
  tw_all f : is_Some (fl !! f) -> exists i j, in_tab i j /\ slot cs i j = f;
  tw_null : fl !! 0 = None }.

Definition set_tab (c : vfs_client) (t : list Z) : vfs_client := MkClient (in_use c) (id c) (ch_resp c) t.

Lemma zlen_fd_init : zlen vfs_fd_init = VFS_FD_MAX.
Proof. done. Qed.

Lemma zget_fd_init j : zget 0 vfs_fd_init j = 0.
Proof. apply zget_replicate. Qed.

Lemma zget_client cs i c j : zlen cs = VFS_MAX_CLIENTS -> 0 <= i < VFS_MAX_CLIENTS -> 0 <= j ->
  zget no_client (zset cs i c) j = if i =? j then c else zget no_client cs j.
Proof. intros L Hi Hj. apply zget_zset; lia. Qed.

Lemma slot_set cs i t j k : zlen cs = VFS_MAX_CLIENTS -> 0 <= i < VFS_MAX_CLIENTS -> 0 <= j ->
  slot (zset cs i (set_tab (zget no_client cs i) t)) j k = if i =? j then zget 0 t k else slot cs j k.
Proof. intros L Hi Hj. unfold slot. rewrite zget_client by done. by destruct (i =? j). Qed.

Lemma size_list_to_set_le (l : list Z) : (size (list_to_set l : gset Z) <= length l)%nat.
Proof.
  induction l as [|x l IH]; [by rewrite list_to_set_nil, size_empty|]. cbn [list_to_set length]. rewrite size_union_alt, size_singleton.
  pose proof (subseteq_size (list_to_set l ∖ {[x]}) (list_to_set l : gset Z) ltac:(set_solver)). lia.
Qed.

(** At most 512 files are open. *)
Lemma tab_wf_size cs fl : tab_wf cs fl -> Z.of_nat (size fl) <= 512.
Proof.
  intros T. set (l := seqZ 0 8 ≫= fun i => slot cs i <$> seqZ 0 64).
  assert (length l = 512%nat) as Hl.
  { unfold l. cbn [mbind list_bind seqZ]. done. }
  assert (dom fl ⊆ (list_to_set l : gset Z)) as Hs.
  { intros f Hf. apply elem_of_dom in Hf. apply (tw_all _ _ T) in Hf as (i & j & [Hi Hj] & <-). apply elem_of_list_to_set.
    unfold l. apply list_elem_of_bind. exists i. split; [apply list_elem_of_fmap_2, elem_of_seqZ|apply elem_of_seqZ]; unfold VFS_FD_MAX, VFS_MAX_CLIENTS in *; lia. }
  apply subseteq_size in Hs. rewrite size_dom in Hs. pose proof (size_list_to_set_le l). lia.
Qed.

(** The same files, other contents. *)
Lemma tab_wf_dom cs fl fl' : tab_wf cs fl -> dom fl' = dom fl -> tab_wf cs fl'.
Proof.
  intros [T1 T2 T3 T4 T5 T6 T7] D. assert (forall f, is_Some (fl' !! f) <-> is_Some (fl !! f)) as K.
  { intros f. rewrite <- !elem_of_dom, D. done. }
  split; try done.
  - intros i j Hij Hs. apply K. auto.
  - intros f Hf. apply T6, K, Hf.
  - apply eq_None_not_Some. rewrite K, T7. by intros [].
Qed.

(** A new file in a free slot. *)
Lemma tab_wf_insert cs fl i j f x :
  tab_wf cs fl -> in_tab i j -> slot cs i j = 0 -> in_use (zget no_client cs i) = true -> f <> 0 -> fl !! f = None ->
  tab_wf (zset cs i (set_tab (zget no_client cs i) (zset (fdtab (zget no_client cs i)) j f))) (<[f := x]> fl).
Proof.
  intros [T1 T2 T3 T4 T5 T6 T7] [Hi Hj] Hz Hu Hf Fn. set (t := zset _ j f).
  assert (forall a b, in_tab a b -> slot (zset cs i (set_tab (zget no_client cs i) t)) a b =
    if (i =? a) && (j =? b) then f else slot cs a b) as Sl.
  { intros a b [Ha Hb]. rewrite slot_set by (done || lia). destruct (Z.eqb_spec i a) as [<-|]; [|done]. cbn [andb].
    unfold t. rewrite zget_zset by (rewrite ?T2; lia). done. }
  split.
  - by rewrite zlen_zset.
  - intros a Ha. rewrite zget_client by (done || lia). destruct (Z.eqb_spec i a) as [<-|]; [|auto]. cbn [fdtab set_tab]. unfold t. rewrite zlen_zset. auto.
  - intros a Ha. rewrite zget_client by (done || lia). destruct (Z.eqb_spec i a) as [<-|]; [|auto]. cbn [in_use set_tab]. congruence.
  - intros a b Hab. rewrite Sl by done. rewrite lookup_insert. intros Hs. destruct (_ && _); case_decide; eauto; done.
  - intros a b a' b' Hab Hab'. rewrite !Sl by done.
    destruct ((i =? a) && (j =? b)) eqn:E1, ((i =? a') && (j =? b')) eqn:E2; zb; subst.
    + done.
    + intros _ E. destruct (T4 a' b' Hab') as [y Ey]; [congruence|]. rewrite <- E in Ey. congruence.
    + intros Hs E. destruct (T4 a b Hab Hs) as [y Ey]. rewrite E in Ey. congruence.
    + by apply T5.
  - intros g. rewrite lookup_insert. case_decide as Hg.
    + intros _. exists i, j. split; [done|]. rewrite Sl by done. by rewrite !Z.eqb_refl.
    + intros x0. destruct (T6 g x0) as (a & b & Hab & <-). exists a, b. split; [done|]. rewrite Sl by done.
      destruct ((i =? a) && (j =? b)) eqn:E1; [|done]. zb. subst. exfalso. rewrite Hz in *. destruct x0 as [y Ey]. congruence.
  - by rewrite lookup_insert_ne.
Qed.

(** A slot emptied and its file gone. *)
Lemma tab_wf_delete cs fl i j :
  tab_wf cs fl -> in_tab i j -> slot cs i j <> 0 ->
  tab_wf (zset cs i (set_tab (zget no_client cs i) (zset (fdtab (zget no_client cs i)) j 0))) (delete (slot cs i j) fl).
Proof.
  intros [T1 T2 T3 T4 T5 T6 T7] [Hi Hj] Hz. set (t := zset _ j 0).
  assert (forall a b, in_tab a b -> slot (zset cs i (set_tab (zget no_client cs i) t)) a b =
    if (i =? a) && (j =? b) then 0 else slot cs a b) as Sl.
  { intros a b [Ha Hb]. rewrite slot_set by (done || lia). destruct (Z.eqb_spec i a) as [<-|]; [|done]. cbn [andb].
    unfold t. rewrite zget_zset by (rewrite ?T2; lia). done. }
  split.
  - by rewrite zlen_zset.
  - intros a Ha. rewrite zget_client by (done || lia). destruct (Z.eqb_spec i a) as [<-|]; [|auto]. cbn [fdtab set_tab]. unfold t. rewrite zlen_zset. auto.
  - intros a Ha. rewrite zget_client by (done || lia). destruct (Z.eqb_spec i a) as [<-|]; [|auto]. cbn [in_use fdtab set_tab]. intros Hu.
    exfalso. apply Hz. unfold slot. rewrite (T3 i Hi Hu). apply zget_fd_init.
  - intros a b Hab. rewrite Sl by done. destruct (_ && _) eqn:E1; [done|]. intros Hs. rewrite lookup_delete_ne; [auto|]. intros E.
    destruct (T5 i j a b) as [-> ->]; [done..|]. by rewrite !Z.eqb_refl in E1.
  - intros a b a' b' Hab Hab'. rewrite !Sl by done.
    destruct ((i =? a) && (j =? b)) eqn:E1, ((i =? a') && (j =? b')) eqn:E2; zb; subst; [done|done|congruence|by apply T5].
  - intros g [x [Hg Eg]%lookup_delete_Some]. destruct (T6 g) as (a & b & Hab & <-); [eauto|]. exists a, b. split; [done|]. rewrite Sl by done.
    destruct ((i =? a) && (j =? b)) eqn:E1; [|done]. zb. by subst.
  - rewrite lookup_delete. by case_decide.
Qed.

Lemma fd_free_spec t : forall i, 0 <= i ->
  (exists k, fd_free t i = i + k /\ 0 <= k < zlen t /\ zget 0 t k = 0 /\ forall m, 0 <= m < k -> zget 0 t m <> 0) \/
  (fd_free t i = - EMFILE /\ forall m, 0 <= m < zlen t -> zget 0 t m <> 0).
Proof.
  induction t as [|f t IH]; intros i Hi; cbn [fd_free]; [right; split; [done|unfold zlen; simpl; lia]|].
  pose proof (zlen_nonneg t). rewrite zlen_cons. destruct (Z.eqb_spec f 0) as [->|Hf].
  - left. exists 0. split; [lia|]. split; [lia|]. split; [done|lia].
  - assert (forall m, 0 < m -> zget 0 (f :: t) m = zget 0 t (m - 1)) as G.
    { intros m Hm. unfold zget. replace (Z.to_nat m) with (S (Z.to_nat (m - 1))) by lia. done. }
    assert (forall m, 0 <= m -> (0 < m -> zget 0 t (m - 1) <> 0) -> zget 0 (f :: t) m <> 0) as G'.
    { intros m Hm Hk. destruct (Z.eq_dec m 0) as [->|]; [done|]. rewrite G by lia. apply Hk. lia. }
    destruct (IH (i + 1) ltac:(lia)) as [(k & -> & Hk & Zk & Fk)|(-> & Fk)].
    + left. exists (k + 1). split; [lia|]. split; [lia|]. split; [rewrite G by lia; by replace (k + 1 - 1) with k by lia|].
      intros m Hm. apply G'; [lia|]. intros. apply Fk. lia.
    + right. split; [done|]. intros m Hm. apply G'; [lia|]. intros. apply Fk. lia.
Qed.

Lemma zlen_rsp ret aux len data : 0 <= len <= 512 -> zlen (rsp_bytes ret aux len data) = VFS_RPC_MSG_SIZE.
Proof.
  intros Hl. unfold rsp_bytes. rewrite !zlen_app, !zlen_le_bytes, zlen_copy_loop, !zlen_replicate by (rewrite ?zlen_replicate; lia). done.
Qed.

(** ** The invariant of the server *)

Section swf.
Context {A : Type} `{UHeapLaws A}.
Implicit Types (srv : server A).

Record srv_wf srv : Prop := {
  sv_fs : fs_wf [] (sfs srv);
  sv_tab : tab_wf (g_clients srv) (files (sfs srv));
  sv_next : 0 < g_next_client_id srv < 2 ^ 32;
  sv_ids i : 0 <= i < VFS_MAX_CLIENTS -> in_use (client_at srv i) = true -> 0 < id (client_at srv i) < g_next_client_id srv;
  sv_uniq i j : 0 <= i < VFS_MAX_CLIENTS -> 0 <= j < VFS_MAX_CLIENTS -> in_use (client_at srv i) = true ->
    in_use (client_at srv j) = true -> id (client_at srv i) = id (client_at srv j) -> i = j }.

(** The work done for client [i] touches its own descriptors and files only. *)
Record stepped (i : Z) srv srv' : Prop := {
  st_wf : srv_wf srv';
  st_other j : 0 <= j -> j <> i -> client_at srv' j = client_at srv j;
  st_self : in_use (client_at srv' i) = in_use (client_at srv i) /\ id (client_at srv' i) = id (client_at srv i) /\
            ch_resp (client_at srv' i) = ch_resp (client_at srv i);
  st_next : g_next_client_id srv' = g_next_client_id srv;
  st_files f : is_Some (files (sfs srv) !! f) -> (forall j, 0 <= j < VFS_FD_MAX -> slot (g_clients srv) i j <> f) ->
    files (sfs srv') !! f = files (sfs srv) !! f;
  st_events : events srv' = events srv }.

(** The work, then one reply on the client's own channel. *)
Definition handled (i : Z) srv srv' : Prop :=
  exists srv1 ret aux len data, stepped i srv srv1 /\ 0 <= len <= 512 /\
    srv' = emit srv1 (Send (ch_resp (client_at srv i)) (rsp_bytes ret aux len data)).

Lemma wf_emit srv e : srv_wf srv -> srv_wf (emit srv e).
Proof. intros []. by split. Qed.

Lemma stepped_refl i srv : srv_wf srv -> stepped i srv srv.
Proof. intros W. by split. Qed.

Lemma reply_err_handled i srv srv1 e : stepped i srv srv1 -> handled i srv (reply_err srv1 i e).
Proof.
  intros S. exists srv1, (- e), 0, 0, []. split; [done|]. split; [lia|]. unfold reply_err.
  by destruct (st_self _ _ _ S) as (_ & _ & ->).
Qed.
Lemma reply_ok_handled i srv srv1 ret aux data len :
  stepped i srv srv1 -> 0 <= len <= 512 -> handled i srv (reply_ok srv1 i ret aux data len).
Proof.
  intros S Hl. exists srv1, ret, aux, len, data. split; [done|]. split; [done|]. unfold reply_ok.
  by destruct (st_self _ _ _ S) as (_ & _ & ->).
Qed.
Lemma reply_status_handled i srv srv1 r : stepped i srv srv1 -> handled i srv (reply_status srv1 i r).
Proof. intros S. unfold reply_status. destruct (r <? 0); [by apply reply_err_handled|apply reply_ok_handled; [done|lia]]. Qed.

(** A new state of the file system under the same tables. *)
Lemma stepped_fs i srv s :
  srv_wf srv -> fs_wf [] s -> dom (files s) = dom (files (sfs srv)) ->
  (forall f, is_Some (files (sfs srv) !! f) -> (forall j, 0 <= j < VFS_FD_MAX -> slot (g_clients srv) i j <> f) ->
     files s !! f = files (sfs srv) !! f) ->
  stepped i srv (set_fs srv s).
Proof. intros [] Ws D F. split; try done. split; try done. by eapply tab_wf_dom. Qed.

(** ... and with a new table for client [i]. *)
Lemma stepped_tab i srv s t :
  srv_wf srv -> 0 <= i < VFS_MAX_CLIENTS -> fs_wf [] s ->
  tab_wf (zset (g_clients srv) i (set_tab (client_at srv i) t)) (files s) ->
  (forall f, is_Some (files (sfs srv) !! f) -> (forall j, 0 <= j < VFS_FD_MAX -> slot (g_clients srv) i j <> f) ->
     files s !! f = files (sfs srv) !! f) ->
  stepped i srv (set_client (set_fs srv s) i (set_tab (client_at srv i) t)).
Proof.
  intros [W1 W2 W3 W4 W5] Hi Ws T F. pose proof (tw_len _ _ W2) as L.
  set (srv' := set_client (set_fs srv s) i (set_tab (client_at srv i) t)).
  assert (forall j, 0 <= j -> client_at srv' j = if i =? j then set_tab (client_at srv i) t else client_at srv j) as C.
  { intros j Hj. unfold client_at. cbn [srv' set_client g_clients set_fs]. by apply zget_client. }
  assert (forall j, 0 <= j -> in_use (client_at srv' j) = in_use (client_at srv j) /\ id (client_at srv' j) = id (client_at srv j)) as Cj.
  { intros j Hj. rewrite C by done. by destruct (Z.eqb_spec i j) as [<-|]. }
  split; try done.
  - split; try done.
    + intros j Hj. destruct (Cj j) as [-> ->]; [lia|]. auto.
    + intros j k Hj Hk. destruct (Cj j) as [-> ->]; [lia|]. destruct (Cj k) as [-> ->]; [lia|]. auto.
  - intros j Hj Hn. rewrite C by done. by rewrite (proj2 (Z.eqb_neq i j)).
  - rewrite C, Z.eqb_refl by lia. done.
Qed.

(** *** What the operations do to the files *)

Lemma on_parent_files (s : fs A) (p : list Z) P r s' :
  (forall par d base r s', P par d base r s' -> files s' = files s) -> on_parent s p P r s' -> files s' = files s.
Proof.
  intros HP. unfold on_parent. destruct (split_path p) as [e|[dirs base]]; [by intros [_ []]|].
  destruct (walk _ _ _) as [e par]. destruct (negb _); [by intros [_ []]|]. intros (d & _ & K).
  destruct (negb _); [by destruct K as [_ []]|eauto].
Qed.

Lemma removed_files (s : fs A) par d c s' : removed s par d c s' -> files s' = files s.
Proof. by intros (? & ? & ? & ? & _). Qed.

Lemma mkdir_files (s : fs A) mode par d base r s' : mkdir_effect s mode par d base r s' -> files s' = files s.
Proof.
  unfold mkdir_effect. destruct (child _ _ _); [by intros [_ []]|]. intros [[_ []]|(_ & c & _ & K & _)]; done.
Qed.

Lemma unlink_files (s : fs A) par d base r s' : unlink_effect s par d base r s' -> files s' = files s.
Proof.
  unfold unlink_effect. destruct (child _ _ _); [|by intros [_ []]]. intros (nc & _ & K).
  destruct (_ =? _); [by destruct K as [_ []]|]. eapply removed_files, K.
Qed.

Lemma rmdir_files (s : fs A) par d base r s' : rmdir_effect s par d base r s' -> files s' = files s.
Proof.
  unfold rmdir_effect. destruct (child _ _ _); [|by intros [_ []]]. intros (nc & _ & K).
  destruct (negb _); [by destruct K as [_ []]|]. destruct (children nc); [|by destruct K as [_ []]]. eapply removed_files, K.
Qed.

(** A failed open leaves the files; a successful one adds one. *)
Definition opened_files (s : fs A) (r f : Z) (s' : fs A) : Prop :=
  (r < 0 /\ files s' = files s) \/
  (r = 0 /\ f <> 0 /\ files s !! f = None /\ exists x, files s' = <[f := x]> (files s)).

Lemma open_effect_files (s s0 : fs A) vn n flags r f s' : files s = files s0 -> open_effect s vn n flags r f s' -> opened_files s0 r f s'.
Proof.
  intros E (_ & _ & [(-> & _ & K)|(-> & ? & ? & K)]); rewrite E in *; [left; done|right]. do 3 (split; [done|]). by eexists.
Qed.

Lemma open_outcome_files (s : fs A) p flags mode r f s' :
  fs_wf [] s -> 0 ∈ p -> open_outcome s p flags mode r f s' -> opened_files s r f s'.
Proof.
  intros W Zp. unfold open_outcome. pose proof (vfs_resolve_spec [] s p W ltac:(done) Zp) as R.
  destruct (resolve_path s p) as [e vn]. destruct R as (s1 & _ & _ & R). destruct (_ && _).
  - unfold on_parent. pose proof (split_parent_spec [] s p W ltac:(done) Zp) as Sp. destruct (split_path p) as [e'|[dirs base]].
    { intros [-> []]. left. split; [apply Sp|done]. }
    destruct (walk _ _ _) as [e' par]. destruct Sp as (s2 & _ & _ & R2). destruct (Z.eqb_spec e' 0) as [->|He]; cbn [negb].
    + intros (d & _ & K). destruct (negb _); [destruct K as [-> []]; by left|]. unfold create_effect in K.
      destruct (child _ _ _); [destruct K as [-> []]; by left|]. destruct K as [[-> []]|(c & s3 & (_ & F & _) & O)]; [by left|].
      by eapply open_effect_files.
    + intros [-> []]. left. split; [lia|done].
  - destruct (Z.ltb_spec e 0); [intros [-> []]; left; done|]. destruct (_ =? Z.lor _ _); [intros [-> []]; by left|].
    intros (n & _ & O). by eapply open_effect_files.
Qed.

(** *** The handlers *)

(** A non-null descriptor is an open file with its node. *)
Lemma fd_get_file srv i d :
  srv_wf srv -> 0 <= i < VFS_MAX_CLIENTS -> let f := vfs_fd_get (fdtab (client_at srv i)) d in f <> 0 ->
  (in_tab i d /\ f = slot (g_clients srv) i d) /\
  exists x n, files (sfs srv) !! f = Some x /\ nodes (sfs srv) !! f_vn x = Some n.
Proof.
  intros W Hi f Hf. unfold f, vfs_fd_get in *. destruct ((d <? 0) || (VFS_FD_MAX <=? d)) eqn:Hd; [done|]. zb.
  assert (in_tab i d) as It by (split; lia). split; [done|].
  destruct (tw_file _ _ (sv_tab _ W) i d It Hf) as [x Ex]. exists x.
  destruct (wf_files _ _ (sv_fs _ W) _ x Ex) as ([n En] & _). by exists n.
Qed.

(** Replacing the record of a file of client [i]. *)
Lemma own_file_frame srv i d (f : Z) (x y : file) :
  srv_wf srv -> in_tab i d -> f = slot (g_clients srv) i d -> files (sfs srv) !! f = Some x ->
  dom (<[f := y]> (files (sfs srv))) = dom (files (sfs srv)) /\
  forall g, is_Some (files (sfs srv) !! g) -> (forall j, 0 <= j < VFS_FD_MAX -> slot (g_clients srv) i j <> g) ->
    <[f := y]> (files (sfs srv)) !! g = files (sfs srv) !! g.
Proof.
  intros W [Hi Hd] Ef Ex. split; [apply dom_insert_lookup_L; eauto|]. intros g _ Hg. apply lookup_insert_ne. rewrite Ef. by apply Hg.
Qed.

Lemma handle_open srv i q :
  srv_wf srv -> 0 <= i < VFS_MAX_CLIENTS -> in_use (client_at srv i) = true -> 0 ∈ path q ->
  exists r srv', op_open srv i q = Some (r, srv') /\ stepped i srv srv'.
Proof.
  intros W Hi Hu Zp. pose proof (tab_wf_size _ _ (sv_tab _ W)) as Hsz. unfold op_open.
  destruct (vfs_open_spec (sfs srv) (path q) (u32 (arg0 q)) (u32 (arg1 q)) (sv_fs _ W) Zp ltac:(lia)) as (r & f & s & -> & Ws & O).
  cbn [mbind option_bind]. apply open_outcome_files in O; [|apply W|done]. destruct O as [[Hr F]|(-> & Hf & Fn & x & F)].
  { rewrite (proj2 (Z.ltb_lt r 0)) by lia. eexists _, _. split; [done|]. apply stepped_fs; try done; rewrite F; done. }
  change (0 <? 0) with false. cbv iota. unfold vfs_fd_alloc.
  destruct (fd_free_spec (fdtab (client_at srv i)) 0 ltac:(lia)) as [(k & -> & Hk & Zk & _)|(-> & _)].
  - rewrite Z.add_0_l, (proj2 (Z.ltb_ge k 0)) by lia. rewrite (proj2 (Z.ltb_ge k 0)) by lia. eexists _, _. split; [done|].
    unfold client_at in Hk at 1. rewrite (tw_tab _ _ (sv_tab _ W)) in Hk by done.
    apply (stepped_tab i srv s (zset (fdtab (client_at srv i)) k f)); try done.
    + rewrite F. apply tab_wf_insert; try done. apply W.
    + intros g [y Ey] _. rewrite F, lookup_insert_ne by congruence. done.
  - change (- EMFILE <? 0) with true. cbv iota. change (- EMFILE <? 0) with true. cbv iota.
    destruct (vfs_close_spec s f x Ws) as (s' & -> & Ws' & F' & _); [rewrite F; apply lookup_insert_eq|]. cbn [mbind option_bind].
    assert (files s' = files (sfs srv)) as F2 by (by rewrite F', F, delete_insert_id).
    eexists _, _. split; [done|]. apply stepped_fs; try done; rewrite F2; done.
Qed.

Lemma handle_close srv i d :
  srv_wf srv -> 0 <= i < VFS_MAX_CLIENTS ->
  exists r t s, vfs_fd_close (sfs srv) (fdtab (client_at srv i)) d = Some (r, t, s) /\
    stepped i srv (set_client (set_fs srv s) i (set_tab (client_at srv i) t)).
Proof.
  intros W Hi. unfold vfs_fd_close.
  assert (stepped i srv (set_client (set_fs srv (sfs srv)) i (set_tab (client_at srv i) (fdtab (client_at srv i))))) as Hid.
  { apply stepped_tab; try done; [apply W|]. replace (set_tab (client_at srv i) (fdtab (client_at srv i))) with (client_at srv i) by by destruct (client_at srv i).
    unfold client_at. rewrite zset_zget_id. apply W. }
  destruct ((d <? 0) || (VFS_FD_MAX <=? d)) eqn:Hd; [by eexists _, _, _|]. zb.
  destruct (Z.eqb_spec (zget 0 (fdtab (client_at srv i)) d) 0) as [Hz|Hz]; [by eexists _, _, _|].
  assert (in_tab i d) as It by (split; lia). change (zget 0 (fdtab (client_at srv i)) d) with (slot (g_clients srv) i d) in *.
  destruct (tw_file _ _ (sv_tab _ W) i d It Hz) as [x Ex].
  destruct (vfs_close_spec (sfs srv) _ x (sv_fs _ W) Ex) as (s & -> & Ws & F & _). cbn [mbind option_bind].
  eexists _, _, _. split; [done|]. apply stepped_tab; try done.
  - rewrite F. apply tab_wf_delete; try done. apply W.
  - intros g _ Hg. rewrite F, lookup_delete_ne; [done|]. apply Hg. lia.
Qed.

(** The name at [index], with its NUL. *)
Lemma ramfs_readdir_spec (s : fs A) dir d index :
  fs_wf [] s -> nodes s !! dir = Some d -> 0 <= index < 2 ^ 32 ->
  ramfs_readdir s dir index VFS_RPC_DATA_MAX =
    match children d !! Z.to_nat index with
    | Some c => Some (0, name_of s c ++ [0])
    | None => Some (- ENOENT, [])
    end.
Proof.
  intros W E Hx. unfold ramfs_readdir. rewrite E. cbn [mbind option_bind].
  assert (forall c, c ∈ children d -> exists n, nodes s !! c = Some n /\ zlen (nname n) = 256 /\ 0 ∈ nname n) as N.
  { intros c Hc. destruct (ok_child _ _ _ _ (wf_nodes _ _ W dir d E) c Hc) as [_ (nc & Ec & _)].
    exists nc. split; [done|]. apply (ok_name _ _ _ _ (wf_nodes _ _ W c nc Ec)). }
  enough (forall cs i, (forall c, c ∈ cs -> exists n, nodes s !! c = Some n /\ zlen (nname n) = 256 /\ 0 ∈ nname n) -> 0 <= i <= index ->
    readdir_loop (nodes s) cs i index VFS_RPC_DATA_MAX =
      match cs !! Z.to_nat (index - i) with Some c => Some (0, name_of s c ++ [0]) | None => Some (- ENOENT, []) end) as K.
  { rewrite K by (done || lia). by rewrite Z.sub_0_r. }
  clear N. induction cs as [|c cs IH]; intros i N Hi; [done|]. cbn [readdir_loop]. destruct (Z.eqb_spec i index) as [->|Hne].
  - rewrite Z.sub_diag. change ((c :: cs) !! Z.to_nat 0) with (Some c). destruct (N c) as (n & En & Ln & Zn); [left|]. rewrite En. cbn [mbind option_bind].
    unfold xs_strlen. rewrite strlen_cstr. destruct (cstr_split _ Zn) as [t Et]. set (b := cstr (nname n)) in *.
    assert (zlen b + 1 <= 256) as Hb. { rewrite Et, zlen_app, zlen_cons in Ln. pose proof (zlen_nonneg t). lia. }
    rewrite (proj2 (Z.ltb_ge VFS_RPC_DATA_MAX _)) by (unfold VFS_RPC_DATA_MAX; lia). unfold name_of. rewrite En. fold b. do 2 f_equal.
    rewrite slice_take_drop by (pose proof (zlen_nonneg b); lia). rewrite drop_0, Et.
    replace (Z.to_nat (zlen b + 1)) with (S (length b)) by (unfold zlen; lia). rewrite <- Et at 1.
    rewrite Et, take_app_ge by lia. by replace (S (length b) - length b)%nat with 1%nat by lia.
  - rewrite u32_small by lia. rewrite IH by (lia || (intros; apply N; by right)).
    replace (Z.to_nat (index - i)) with (S (Z.to_nat (index - (i + 1)))) by lia. done.
Qed.

Definition need_path (q : vfs_req) : bool :=
  (op q =? VFS_OP_OPEN) || (op q =? VFS_OP_MKDIR) || (op q =? VFS_OP_UNLINK) || (op q =? VFS_OP_RMDIR).

Lemma name_len (s : fs A) c : fs_wf [] s -> zlen (name_of s c) <= 255.
Proof.
  intros W. unfold name_of. destruct (nodes s !! c) as [n|] eqn:E; [|done].
  destruct (ok_name _ _ _ _ (wf_nodes _ _ W c n E)) as [L Zn]. destruct (cstr_split _ Zn) as [t Et].
  rewrite Et, zlen_app, zlen_cons in L. pose proof (zlen_nonneg t). lia.
Qed.

Lemma stepped_same i srv s : srv_wf srv -> fs_wf [] s -> files s = files (sfs srv) -> stepped i srv (set_fs srv s).
Proof. intros W Ws F. apply stepped_fs; try done; rewrite F; done. Qed.

(** A reply that is an error or carries no data. *)
Lemma reply_plain i srv srv1 (b : bool) e ret aux :
  stepped i srv srv1 -> handled i srv (if b then reply_err srv1 i e else reply_ok srv1 i ret aux [] 0).
Proof. intros S. destruct b; [by apply reply_err_handled|apply reply_ok_handled; [done|lia]]. Qed.

(** The argument shared by the handlers that work on an open file. *)
Lemma with_file_handled srv i q k :
  srv_wf srv -> 0 <= i < VFS_MAX_CLIENTS ->
  (forall f x n d, f <> 0 -> in_tab i d -> f = slot (g_clients srv) i d -> files (sfs srv) !! f = Some x ->
     nodes (sfs srv) !! f_vn x = Some n -> exists srv', k f = Some srv' /\ handled i srv srv') ->
  exists srv', with_file srv i q k = Some srv' /\ handled i srv srv'.
Proof.
  intros W Hi Hk. unfold with_file. destruct (Z.eqb_spec (vfs_fd_get (fdtab (client_at srv i)) (i32 (fd q))) 0) as [|Hf].
  - eexists. split; [done|]. by apply reply_err_handled, stepped_refl.
  - destruct (fd_get_file srv i _ W Hi Hf) as ([It Ef] & x & n & Ex & En). by eapply Hk.
Qed.

Lemma read_stepped srv i d f x n k r bytes s :
  srv_wf srv -> in_tab i d -> f = slot (g_clients srv) i d -> files (sfs srv) !! f = Some x -> 0 <= k ->
  fs_wf [] s -> read_effect (sfs srv) f x n k r bytes s -> stepped i srv (set_fs srv s) /\ r <= k.
Proof.
  intros W It Ef Ex Hk Ws R. unfold read_effect in R.
  destruct (negb (acc_read _)); [destruct R as (-> & _ & ->); split; [apply stepped_same; [done|done|done]|unfold EBADF; lia]|].
  destruct (negb _); [destruct R as (-> & _ & ->); split; [apply stepped_same; [done|done|done]|unfold EISDIR; lia]|].
  destruct R as (Hr & _ & ->). split; [|lia].
  apply stepped_fs; [done|done|..]; cbn [files set_files]; by eapply (own_file_frame srv i d f x).
Qed.

Lemma write_stepped srv i d f x n src k r s :
  srv_wf srv -> in_tab i d -> f = slot (g_clients srv) i d -> files (sfs srv) !! f = Some x ->
  fs_wf [] s -> write_effect (sfs srv) f x n src k r s -> stepped i srv (set_fs srv s).
Proof.
  intros W It Ef Ex Ws R. unfold write_effect in R.
  assert (same (sfs srv) s -> stepped i srv (set_fs srv s)) as K by (intros S; apply stepped_same; [done|done|apply S]).
  destruct (negb (acc_write _)); [apply K, R|]. destruct (negb _); [apply K, R|]. destruct (_ <=? _); [apply K, R|].
  destruct R as [[_ S]|(_ & n' & _ & _ & F)]; [by apply K|].
  apply stepped_fs; [done|done|..]; rewrite F; by eapply (own_file_frame srv i d f x).
Qed.

Lemma seek_stepped srv i d f x n off whence r s :
  srv_wf srv -> in_tab i d -> f = slot (g_clients srv) i d -> files (sfs srv) !! f = Some x ->
  fs_wf [] s -> seek_effect (sfs srv) f x n off whence r s -> stepped i srv (set_fs srv s).
Proof.
  intros W It Ef Ex Ws R. unfold seek_effect in R.
  destruct (if _ =? _ then _ else _); [|destruct R as [_ ->]; by apply stepped_same].
  destruct (_ <=? _); destruct R as [_ ->]; [|by apply stepped_same].
  apply stepped_fs; [done|done|..]; cbn [files set_files]; by eapply (own_file_frame srv i d f x).
Qed.

(** The handlers on open files: read, write, seek, readdir. *)
Lemma handle_file_ops srv i q :
  srv_wf srv -> 0 <= i < VFS_MAX_CLIENTS -> 0 <= arg0 q -> 0 <= data_len q ->
  (op q =? VFS_OP_READ) || (op q =? VFS_OP_WRITE) || (op q =? VFS_OP_SEEK) || (op q =? VFS_OP_READDIR) = true ->
  exists srv', handle srv i q = Some srv' /\ handled i srv srv'.
Proof.
  intros W Hi Ha Hd Ho. pose proof (stepped_refl i srv W) as Id. unfold handle.
  destruct (Z.eqb_spec (op q) VFS_OP_OPEN) as [E|_]; [by rewrite E in Ho|].
  destruct (Z.eqb_spec (op q) VFS_OP_CLOSE) as [E|_]; [by rewrite E in Ho|].
  destruct (Z.eqb_spec (op q) VFS_OP_READ) as [_|_].
  { apply with_file_handled; [done|done|]. intros f x n d Hf It Ef Ex En.
    destruct ((arg0 q =? 0) || (VFS_RPC_DATA_MAX <? arg0 q)) eqn:Hk; [eexists; split; [done|]; by apply reply_err_handled|].
    zb. unfold VFS_RPC_DATA_MAX in *.
    destruct (vfs_read_spec (sfs srv) f x n (arg0 q) (sv_fs _ W) Ex En ltac:(lia)) as (r & bs & s & -> & Ws & R).
    cbn [mbind option_bind]. destruct (read_stepped srv i d f x n _ r bs s W It Ef Ex Ha Ws R) as [S Hr]. eexists. split; [done|].
    destruct (Z.ltb_spec r 0); [by apply reply_err_handled|]. apply reply_ok_handled; [done|]. rewrite u32_small; lia. }
  destruct (Z.eqb_spec (op q) VFS_OP_WRITE) as [_|_].
  { apply with_file_handled; [done|done|]. intros f x n d Hf It Ef Ex En.
    destruct ((data_len q =? 0) || (VFS_RPC_DATA_MAX <? data_len q)) eqn:Hk; [eexists; split; [done|]; by apply reply_err_handled|].
    zb. unfold VFS_RPC_DATA_MAX in *.
    destruct (vfs_write_spec (sfs srv) f x n (rdata q) (data_len q) (sv_fs _ W) Ex En ltac:(lia)) as (r & s & -> & Ws & R).
    cbn [mbind option_bind]. eexists. split; [done|]. apply reply_plain. by eapply write_stepped. }
  destruct (Z.eqb_spec (op q) VFS_OP_SEEK) as [_|_].
  { apply with_file_handled; [done|done|]. intros f x n d Hf It Ef Ex En.
    destruct (vfs_seek_spec (sfs srv) f x n (i64 (arg0 q)) (i32 (arg1 q)) (sv_fs _ W) Ex En) as (r & s & -> & Ws & R).
    cbn [mbind option_bind]. eexists. split; [done|]. apply reply_plain. by eapply seek_stepped. }
  destruct (Z.eqb_spec (op q) VFS_OP_MKDIR) as [E|_]; [by rewrite E in Ho|].
  destruct (Z.eqb_spec (op q) VFS_OP_UNLINK) as [E|_]; [by rewrite E in Ho|].
  destruct (Z.eqb_spec (op q) VFS_OP_RMDIR) as [E|_]; [by rewrite E in Ho|].
  destruct (Z.eqb_spec (op q) VFS_OP_READDIR) as [_|_]; [|done].
  apply with_file_handled; [done|done|]. intros f x n d Hf It Ef Ex En. rewrite Ex. cbn [mbind option_bind]. rewrite En. cbn [mbind option_bind].
  destruct (negb _); [eexists; split; [done|]; by apply reply_err_handled|].
  rewrite (ramfs_readdir_spec (sfs srv) (f_vn x) n) by (done || apply W || apply u32_range).
  destruct (children n !! _) as [c|]; cbn [mbind option_bind]; [|eexists; split; [done|]; by apply reply_err_handled].
  eexists. split; [done|]. apply reply_ok_handled; [done|].
  pose proof (name_len (sfs srv) c (sv_fs _ W)). pose proof (zlen_nonneg (name_of (sfs srv) c)).
  rewrite strlen_cstr, cstr_app by (unfold name_of; destruct (nodes _ !! c); [apply cstr_no_nul|set_solver]).
  rewrite u32_small; lia.
Qed.

Lemma handle_spec srv i q :
  srv_wf srv -> 0 <= i < VFS_MAX_CLIENTS -> in_use (client_at srv i) = true ->
  0 <= arg0 q -> 0 <= data_len q -> (need_path q = true -> 0 ∈ path q) ->
  exists srv', handle srv i q = Some srv' /\ handled i srv srv'.
Proof.
  intros W Hi Hu Ha Hd Hp. pose proof (stepped_refl i srv W) as Id.
  destruct ((op q =? VFS_OP_READ) || (op q =? VFS_OP_WRITE) || (op q =? VFS_OP_SEEK) || (op q =? VFS_OP_READDIR)) eqn:Hf;
    [by apply handle_file_ops|]. unfold handle, need_path in *. zb.
  destruct (Z.eqb_spec (op q) VFS_OP_OPEN) as [Eo|_].
  { destruct (handle_open srv i q W Hi Hu (Hp eq_refl)) as (r & srv' & -> & S). cbn [mbind option_bind]. eexists. split; [done|]. by apply reply_plain. }
  destruct (Z.eqb_spec (op q) VFS_OP_CLOSE) as [Eo|_].
  { destruct (handle_close srv i (i32 (fd q)) W Hi) as (r & t & s & -> & S). cbn [mbind option_bind]. eexists. split; [done|].
    by apply reply_status_handled. }
  do 3 (rewrite (proj2 (Z.eqb_neq (op q) _)) by done).
  destruct (Z.eqb_spec (op q) VFS_OP_MKDIR) as [Eo|_].
  { destruct (vfs_mkdir_spec (sfs srv) (path q) (u32 (arg0 q)) (sv_fs _ W)) as (r & s & -> & Ws & R); [apply Hp; by rewrite ?orb_true_r|].
    eexists. split; [done|]. apply reply_status_handled, stepped_same; [done|done|]. eapply on_parent_files, R. apply mkdir_files. }
  destruct (Z.eqb_spec (op q) VFS_OP_UNLINK) as [Eo|_].
  { destruct (vfs_unlink_spec (sfs srv) (path q) (sv_fs _ W)) as (r & s & -> & Ws & R); [apply Hp; by rewrite ?orb_true_r|].
    eexists. split; [done|]. apply reply_status_handled, stepped_same; [done|done|]. eapply on_parent_files, R. apply unlink_files. }
  destruct (Z.eqb_spec (op q) VFS_OP_RMDIR) as [Eo|_].
  { destruct (vfs_rmdir_spec (sfs srv) (path q) (sv_fs _ W)) as (r & s & -> & Ws & R); [apply Hp; by rewrite ?orb_true_r|].
    eexists. split; [done|]. apply reply_status_handled, stepped_same; [done|done|]. eapply on_parent_files, R. apply rmdir_files. }
  rewrite (proj2 (Z.eqb_neq (op q) _)) by done. eexists. split; [done|]. by apply reply_err_handled.
Qed.

(** *** Clients *)

Lemma client_scan_spec f cs : forall i,
  match client_scan f cs i with
  | Some j => i <= j < i + zlen cs /\ f (zget no_client cs (j - i)) = true
  | None => forall k, 0 <= k < zlen cs -> f (zget no_client cs k) = false
  end.
Proof.
  induction cs as [|c cs IH]; intros i; cbn [client_scan]; [unfold zlen; simpl; lia|].
  pose proof (zlen_nonneg cs). assert (zlen (c :: cs) = 1 + zlen cs) as -> by (unfold zlen; cbn [length]; lia).
  assert (forall k, 0 < k -> zget no_client (c :: cs) k = zget no_client cs (k - 1)) as G.
  { intros k Hk. unfold zget. replace (Z.to_nat k) with (S (Z.to_nat (k - 1))) by lia. done. }
  destruct (f c) eqn:Ef; [split; [lia|by rewrite Z.sub_diag]|]. specialize (IH (i + 1)). destruct (client_scan f cs (i + 1)) as [j|].
  - destruct IH as [Hj Fj]. split; [lia|]. rewrite G by lia. by replace (j - i - 1) with (j - (i + 1)) by lia.
  - intros k Hk. destruct (Z.eq_dec k 0) as [->|]; [done|]. rewrite G by lia. apply IH. lia.
Qed.

Lemma client_find_spec srv cid i : srv_wf srv -> client_find srv cid = Some i ->
  0 <= i < VFS_MAX_CLIENTS /\ in_use (client_at srv i) = true /\ id (client_at srv i) = cid.
Proof.
  intros W. unfold client_find. destruct (cid =? 0); [done|].
  pose proof (client_scan_spec (fun c => in_use c && (id c =? cid)) (g_clients srv) 0) as S. intros E. rewrite E in S.
  destruct S as [Hi F]. rewrite (tw_len _ _ (sv_tab _ W)) in Hi. rewrite Z.sub_0_r in F. zb. split; [lia|]. done.
Qed.

(** The client [j] and its files are as before. *)
Definition untouched (j : Z) srv srv' : Prop :=
  client_at srv' j = client_at srv j /\
  forall d, 0 <= d < VFS_FD_MAX -> slot (g_clients srv) j d <> 0 ->
    files (sfs srv') !! slot (g_clients srv) j d = files (sfs srv) !! slot (g_clients srv) j d.

Lemma stepped_untouched i j srv srv' :
  srv_wf srv -> stepped i srv srv' -> 0 <= i < VFS_MAX_CLIENTS -> 0 <= j < VFS_MAX_CLIENTS -> j <> i -> untouched j srv srv'.
Proof.
  intros W S Hi Hj Hn. split; [apply S; lia|]. intros d Hd Hs. apply S.
  - by apply (tw_file _ _ (sv_tab _ W)).
  - intros k Hk E. destruct (tw_inj _ _ (sv_tab _ W) j d i k) as [? _]; try done.
Qed.

Lemma client_attach_spec srv ch :
  srv_wf srv -> g_next_client_id srv < 2 ^ 32 - 1 ->
  (client_attach srv ch = (None, srv) /\ forall i, 0 <= i < VFS_MAX_CLIENTS -> in_use (client_at srv i) = true) \/
  exists i srv', client_attach srv ch = (Some i, srv') /\ 0 <= i < VFS_MAX_CLIENTS /\ in_use (client_at srv i) = false /\
    srv_wf srv' /\ g_next_client_id srv' = g_next_client_id srv + 1 /\ sfs srv' = sfs srv /\ events srv' = events srv /\
    client_at srv' i = MkClient true (g_next_client_id srv) ch vfs_fd_init /\
    forall j, 0 <= j -> j <> i -> client_at srv' j = client_at srv j.
Proof.
  intros [W1 W2 W3 W4 W5] Hn. unfold client_attach. pose proof (client_scan_spec (fun c => negb (in_use c)) (g_clients srv) 0) as S.
  pose proof (tw_len _ _ W2) as L. destruct (client_scan _ _ _) as [i|].
  - destruct S as [Hi F]. rewrite L in Hi. rewrite Z.sub_0_r in F. zb. right. eexists i, _. split; [done|].
    set (c := MkClient true (g_next_client_id srv) ch vfs_fd_init). match goal with |- _ /\ _ /\ srv_wf ?x /\ _ => set (srv' := x) end.
    assert (forall j, 0 <= j -> client_at srv' j = if i =? j then c else client_at srv j) as C.
    { intros j Hj. unfold client_at. cbn [srv' g_clients]. apply zget_client; done || lia. }
    assert (forall a b, in_tab a b -> slot (g_clients srv') a b = slot (g_clients srv) a b) as Sl.
    { intros a b [Ha Hb]. unfold slot. cbn [srv' g_clients]. rewrite zget_client by (done || lia). destruct (Z.eqb_spec i a) as [<-|]; [|done].
      rewrite (tw_idle _ _ W2 i) by (done || lia). done. }
    assert (srv_wf srv') as W'.
    { split; [done|..|cbn [srv' g_next_client_id]; rewrite u32_small; lia| |].
      - destruct W2 as [T1 T2 T3 T4 T5 T6 T7]. split; change (sfs srv') with (sfs srv); try done.
        + cbn [srv' g_clients]. by rewrite zlen_zset.
        + intros a Ha. change (zget no_client (g_clients srv') a) with (client_at srv' a). rewrite C by lia. destruct (i =? a); [done|]. by apply T2.
        + intros a Ha. change (zget no_client (g_clients srv') a) with (client_at srv' a). rewrite C by lia. destruct (i =? a); [done|]. by apply T3.
        + intros a b Hab. rewrite Sl by done. by apply T4.
        + intros a b a' b' Hab Hab'. rewrite !Sl by done. by apply T5.
        + intros f Hf. destruct (T6 f Hf) as (a & b & Hab & E). exists a, b. by rewrite Sl.
      - intros j Hj. rewrite C by lia. cbn [srv' g_next_client_id]. rewrite u32_small by lia. destruct (i =? j); [cbn; lia|].
        intros Hu. specialize (W4 j Hj Hu). lia.
      - intros j k Hj Hk. rewrite !C by lia. destruct (Z.eqb_spec i j) as [<-|], (Z.eqb_spec i k) as [<-|]; cbn [id c]; [done|..|by apply W5].
        + intros _ Hu E. specialize (W4 k Hk Hu). lia. + intros Hu _ E. specialize (W4 j Hj Hu). lia. }
    split; [lia|]. split; [done|]. split; [done|]. split; [cbn [srv' g_next_client_id]; rewrite u32_small; lia|]. split; [done|]. split; [done|].
    split; [rewrite C, Z.eqb_refl by lia; done|]. intros j Hj Hji. rewrite C by done. by rewrite (proj2 (Z.eqb_neq i j)).
  - left. split; [done|]. intros i Hi. specialize (S i ltac:(lia)). zb. done.
Qed.

(** Closing every descriptor of client [i], the first [k] being free already. *)
Lemma close_all_spec t : forall k cs i (s : fs A),
  fs_wf [] s -> tab_wf cs (files s) -> 0 <= i < VFS_MAX_CLIENTS -> fdtab (zget no_client cs i) = replicate k 0 ++ t ->
  exists s', close_all s t = Some s' /\ fs_wf [] s' /\
    tab_wf (zset cs i (set_tab (zget no_client cs i) vfs_fd_init)) (files s') /\
    forall g, g <> 0 -> (forall j, 0 <= j < VFS_FD_MAX -> slot cs i j <> g) -> files s' !! g = files s !! g.
Proof.
  induction t as [|f t IH]; intros k cs i s W T Hi E; pose proof (tw_tab _ _ T i Hi) as Lt; rewrite E in Lt.
  - exists s. split; [done|]. split; [done|]. split; [|done].
    rewrite app_nil_r, zlen_replicate in Lt. assert (fdtab (zget no_client cs i) = vfs_fd_init) as Ei.
    { rewrite E, app_nil_r. unfold vfs_fd_init. f_equal. unfold VFS_FD_MAX in *. lia. }
    replace (set_tab (zget no_client cs i) vfs_fd_init) with (zget no_client cs i) by (rewrite <- Ei; by destruct (zget no_client cs i)).
    by rewrite zset_zget_id.
  - assert (forall t', replicate (S k) 0 ++ t' = replicate k 0 ++ 0 :: t') as Hr.
    { intros t'. replace (S k) with (k + 1)%nat by lia. rewrite replicate_add, <- app_assoc. done. }
    cbn [close_all]. destruct (Z.eqb_spec f 0) as [->|Hf]; cbn [mbind option_bind].
    + apply (IH (S k) cs i s W T Hi). by rewrite Hr, E.
    + rewrite zlen_app, zlen_replicate, zlen_cons in Lt. pose proof (zlen_nonneg t).
      assert (in_tab i (Z.of_nat k)) as It by (split; lia).
      assert (slot cs i (Z.of_nat k) = f) as Es.
      { unfold slot. rewrite E, zget_lookup, Nat2Z.id, lookup_app_r, length_replicate, Nat.sub_diag by (rewrite ?length_replicate; lia). done. }
      destruct (tw_file _ _ T i _ It ltac:(by rewrite Es)) as [x Ex]. rewrite Es in Ex.
      destruct (vfs_close_spec s f x W Ex) as (s1 & -> & W1 & F1 & _). cbn [mbind option_bind].
      pose proof (tab_wf_delete cs _ i (Z.of_nat k) T It ltac:(by rewrite Es)) as T1. rewrite Es, <- F1 in T1.
      set (t1 := zset (fdtab (zget no_client cs i)) (Z.of_nat k) 0) in T1. set (cs1 := zset cs i (set_tab (zget no_client cs i) t1)) in T1.
      assert (zget no_client cs1 i = set_tab (zget no_client cs i) t1) as C1
        by (unfold cs1; rewrite zget_client, Z.eqb_refl by (try done; try lia; apply T); done).
      destruct (IH (S k) cs1 i s1 W1 T1 Hi) as (s' & -> & W' & T' & F').
      { rewrite C1. cbn [fdtab set_tab]. unfold t1. rewrite E, Hr. unfold zset. rewrite (proj2 (Z.ltb_ge (Z.of_nat k) 0)) by lia.
        rewrite Nat2Z.id, insert_app_r_alt by (rewrite length_replicate; lia). by rewrite length_replicate, Nat.sub_diag. }
      exists s'. split; [done|]. split; [done|]. split.
      * rewrite C1 in T'. unfold cs1, zset in T'. unfold zset. rewrite (proj2 (Z.ltb_ge i 0)) in * by lia. by rewrite list_insert_insert_eq in T'.
      * intros g H0g Hg. rewrite F', F1, lookup_delete_ne; [done|rewrite <- Es; apply Hg; lia|done|].
        intros j Hj. unfold cs1. rewrite slot_set, Z.eqb_refl by (try apply T; lia). unfold t1.
        rewrite zget_zset by (rewrite ?(tw_tab _ _ T); lia). destruct (_ =? j) eqn:Ej; [congruence|by apply Hg].
Qed.

Lemma client_detach_spec srv i :
  srv_wf srv -> 0 <= i < VFS_MAX_CLIENTS ->
  exists srv', client_detach srv i = Some srv' /\ srv_wf srv' /\ g_next_client_id srv' = g_next_client_id srv /\
    in_use (client_at srv' i) = false /\ events srv' = events srv ++ [CloseHandle (ch_resp (client_at srv i))] /\
    forall j, 0 <= j < VFS_MAX_CLIENTS -> j <> i -> untouched j srv srv'.
Proof.
  intros W Hi. pose proof W as [W1 W2 W3 W4 W5]. unfold client_detach.
  destruct (close_all_spec (fdtab (client_at srv i)) 0 (g_clients srv) i (sfs srv) W1 W2 Hi eq_refl) as (s' & -> & Ws & T & F).
  cbn [mbind option_bind]. eexists. split; [done|]. match goal with |- srv_wf ?x /\ _ => set (srv' := x) end.
  set (c := MkClient false (id (client_at srv i)) EXYDE_HANDLE_INVALID vfs_fd_init).
  assert (forall j, 0 <= j -> client_at srv' j = if i =? j then c else client_at srv j) as C.
  { intros j Hj. unfold client_at at 1. cbn [srv' set_client emit set_fs g_clients]. apply zget_client; try done. apply W2. }
  assert (forall j, 0 <= j -> j <> i -> client_at srv' j = client_at srv j) as Cj by (intros; rewrite C by done; by rewrite (proj2 (Z.eqb_neq i j))).
  split; [|split; [done|split; [rewrite C, Z.eqb_refl by lia; done|split; [done|]]]].
  - split; try done.
    + pose proof T as [T1 T2 T3 T4 T5 T6 T7]. set (cs1 := zset _ i (set_tab _ _)) in *.
      assert (forall a, 0 <= a -> fdtab (client_at srv' a) = fdtab (zget no_client cs1 a)) as Ft.
      { intros a Ha. rewrite C by done. unfold cs1. rewrite zget_client by (try done; apply W2). by destruct (i =? a). }
      assert (forall a b, in_tab a b -> slot (g_clients srv') a b = slot cs1 a b) as Sl.
      { intros a b [Ha Hb]. unfold slot. change (zget no_client (g_clients srv') a) with (client_at srv' a). by rewrite Ft by lia. }
      split; change (files (sfs srv')) with (files s'); try done.
      * cbn [srv' set_client emit set_fs g_clients]. rewrite zlen_zset. apply W2.
      * intros a Ha. change (zget no_client (g_clients srv') a) with (client_at srv' a). rewrite Ft by lia. by apply T2.
      * intros a Ha. change (zget no_client (g_clients srv') a) with (client_at srv' a). rewrite C by lia.
        destruct (i =? a); [done|]. by apply (tw_idle _ _ W2).
      * intros a b Hab. rewrite Sl by done. by apply T4.
      * intros a b a' b' Hab Hab'. rewrite !Sl by done. by apply T5.
      * intros f Hf. destruct (T6 f Hf) as (a & b & Hab & E). exists a, b. by rewrite Sl.
    + intros j Hj. rewrite C by lia. destruct (i =? j); [done|]. by apply W4.
    + intros j k Hj Hk. rewrite !C by lia. destruct (i =? j); [done|]. destruct (i =? k); [done|]. by apply W5.
  - intros j Hj Hn. split; [apply Cj; [lia|done]|]. intros d Hd Hs. apply F; [done|]. intros k Hk E.
    destruct (tw_inj _ _ W2 j d i k) as [? _]; try done.
Qed.

(** *** One turn of the loop *)

Definition out_srv (o : outcome A) : server A := match o with Running srv => srv | Exited _ srv => srv end.

(** The client a request is for: none for an attach. *)
Definition addressed srv (q : vfs_req) (j : Z) : bool := negb (op q =? VFS_OP_ATTACH) && (client_id q =? id (client_at srv j)).

Lemma untouched_emit j srv srv' e : untouched j srv srv' -> untouched j srv (emit srv' e).
Proof. done. Qed.

Lemma req_bytes msg : bytes msg -> 0 <= arg0 (req_at msg) /\ 0 <= data_len (req_at msg).
Proof.
  intros B. split; [pose proof (get_le_range msg 8 8 B ltac:(lia))|pose proof (get_le_range msg 24 4 B ltac:(lia))]; cbn; lia.
Qed.

Lemma serve_spec srv n msg h :
  srv_wf srv -> bytes msg -> g_next_client_id srv < 2 ^ 32 - 1 ->
  exists o, serve srv n msg h = Some o /\ srv_wf (out_srv o) /\
    g_next_client_id (out_srv o) <= g_next_client_id srv + 1 /\
    forall j, 0 <= j < VFS_MAX_CLIENTS -> in_use (client_at srv j) = true -> addressed srv (req_at msg) j = false ->
      untouched j srv (out_srv o).
Proof.
  intros W B Hn. unfold serve. assert (forall j, untouched j srv srv) as U0 by by split.
  destruct (negb _); [eexists; split; [done|]; split; [done|]; split; [cbn [out_srv emit g_next_client_id reply_err reply_ok]; lia|done]|].
  destruct (req_bytes msg B) as [R1 R2]. revert R1 R2. generalize (req_at msg). intros q R1 R2. unfold addressed. destruct (op q =? VFS_OP_ATTACH); cbn [negb andb].
  { destruct (h =? EXYDE_HANDLE_INVALID); [eexists; split; [done|]; split; [done|]; split; [cbn [out_srv emit g_next_client_id reply_err reply_ok]; lia|done]|].
    destruct (client_attach_spec srv h W Hn) as [[-> _]|(i & srv' & -> & Hi & Hu & W' & Hx & Hf & _ & _ & Ho)].
    - eexists. split; [done|]. split; [by do 2 apply wf_emit|]. split; [cbn [out_srv emit g_next_client_id reply_err reply_ok]; lia|]. intros. by do 2 apply untouched_emit.
    - eexists. split; [done|]. split; [by apply wf_emit|]. split; [cbn [out_srv emit g_next_client_id reply_err reply_ok]; lia|]. intros j Hj Uj _. split; [|cbn [out_srv emit sfs]; by rewrite Hf].
      apply Ho; [lia|]. intros ->. congruence. }
  set (srv1 := if h =? EXYDE_HANDLE_INVALID then srv else emit srv (CloseHandle h)).
  assert (srv_wf srv1 /\ g_next_client_id srv1 = g_next_client_id srv /\ (forall j, client_at srv1 j = client_at srv j) /\
    forall j srv', untouched j srv1 srv' -> untouched j srv srv') as (W1 & N1 & C1 & U1).
  { unfold srv1. destruct (h =? _); [done|]. split; [by apply wf_emit|done]. }
  destruct (client_find srv1 (client_id q)) as [i|] eqn:Ef.
  2: { eexists. split; [done|]. split; [done|]. split; [cbn [out_srv emit g_next_client_id reply_err reply_ok]; lia|]. intros. apply U1. by split. }
  destruct (client_find_spec srv1 _ i W1 Ef) as (Hi & Hu & Hid).
  assert (forall j, (client_id q =? id (client_at srv j)) = false -> j <> i) as Hne.
  { intros j Hj ->. rewrite C1 in Hid. zb. congruence. }
  destruct (op q =? VFS_OP_SHUTDOWN).
  - destruct (client_detach_spec (reply_ok srv1 i 0 0 [] 0) i (wf_emit _ _ W1) Hi) as (srv2 & -> & W2 & N2 & _ & _ & Hot).
    cbn [mbind option_bind]. eexists. split; [done|]. assert (forall b : bool, out_srv (if b then Running srv2 else Exited 0 srv2) = srv2) as -> by by intros [].
    split; [done|]. split; [cbn [reply_ok emit g_next_client_id] in N2; lia|]. intros j Hj _ Ha. apply U1. apply (Hot j Hj). by apply Hne.
  - fold (need_path q).
    destruct (need_path q && (check_path q <? 0)) eqn:Hp.
    + eexists. split; [done|]. split; [by apply wf_emit|]. split; [cbn [out_srv emit g_next_client_id reply_err reply_ok]; lia|]. intros. apply U1. by apply untouched_emit.
    + destruct (handle_spec srv1 i q W1 Hi Hu R1 R2) as (srv2 & -> & srv3 & ret & aux & len & dat & S & _ & ->).
      { intros Hn'. rewrite Hn' in Hp. cbn [andb] in Hp. unfold check_path in Hp. case_bool_decide; done. }
      cbn [mbind option_bind]. eexists. split; [done|]. split; [apply wf_emit, S|]. split; [cbn [out_srv emit g_next_client_id]; rewrite (st_next _ _ _ S); lia|].
      intros j Hj _ Ha. apply U1, untouched_emit. eapply stepped_untouched; try done. by apply Hne.
Qed.

(** *** Boot *)

Lemma boot_spec (h : A) ch : u_wf h ->
  exists o, boot h ch = Some o /\ match o with Running srv => srv_wf srv /\ g_next_client_id srv = 1 | Exited st _ => st = 1 end.
Proof.
  intros Wh. unfold boot. fold (empty_fs h). destruct (mount_root_spec h Wh) as (p & s0 & -> & K). cbn [mbind option_bind].
  destruct (Z.eqb_spec p 0) as [->|Hp]; [by eexists|]. destruct (K Hp) as (s & -> & W & F). cbn [mbind option_bind].
  destruct (ch =? EXYDE_HANDLE_INVALID); [by eexists|]. eexists. split; [done|]. split; [|done].
  split; cbn [sfs g_clients g_next_client_id]; [done|rewrite F|..].
  - assert (forall i, zget no_client (replicate (Z.to_nat VFS_MAX_CLIENTS) no_client) i = no_client) as C by (intros; apply zget_replicate).
    assert (forall i j, slot (replicate (Z.to_nat VFS_MAX_CLIENTS) no_client) i j = 0) as Sl by (intros; unfold slot; rewrite C; apply zget_fd_init).
    split; try done; intros; rewrite ?C, ?Sl in *; try done. by destruct H1.
  - lia.
  - intros i Hi. unfold client_at. cbn [g_clients]. by rewrite zget_replicate.
  - intros i j Hi Hj. unfold client_at. cbn [g_clients]. by rewrite zget_replicate.
Qed.

Lemma serve_all_spec msgs : forall srv, srv_wf srv -> Forall (fun m => bytes m.1.2) msgs -> g_next_client_id srv + zlen msgs < 2 ^ 32 ->
  exists o, serve_all (Running srv) msgs = Some o /\ srv_wf (out_srv o).
Proof.
  induction msgs as [|[[n m] h] msgs IH]; intros srv W B Hn; cbn [serve_all]; [by eexists|].
  assert (zlen ((n, m, h) :: msgs) = 1 + zlen msgs) as Hl by (unfold zlen; cbn [length]; lia). pose proof (zlen_nonneg msgs).
  apply Forall_cons in B as [Bm B]. destruct (serve_spec srv n m h W Bm ltac:(lia)) as (o & -> & W' & N' & _). cbn [mbind option_bind].
  destruct o as [srv'|st srv']; cbn [out_srv] in *; [apply IH; done || lia|]. exists (Exited st srv'). by destruct msgs.
Qed.
End swf.

(** ** The server as a whole *)

Section top.
Context {A : Type} `{UHeapLaws A}.
Implicit Types (srv : server A).

(** C6: the VFS server never uses a freed or unallocated node or file and never
    runs off: whatever bytes the clients send, in fewer than 2^32 - 1 messages (so that
    no client number comes twice) and in whatever order (opens, closes,
    unlinks of open files, attaches, shutdowns), every turn of the loop completes,
    and the running server satisfies its invariant -- every vnode's reference count
    is exactly its links plus the files open on it, every open file sits in exactly
    one slot of one client, every heap block has one owner, the names of a directory
    are distinct -- so nothing is freed twice or leaked. *)
Theorem vfs_server_safe (h : A) ch_req (msgs : list (Z * list Z * Z)) :
  u_wf h -> Forall (fun m => bytes m.1.2) msgs -> zlen msgs < 2 ^ 32 - 1 ->
  exists o, (o ← boot h ch_req; serve_all o msgs) = Some o /\ forall srv, o = Running srv -> srv_wf srv.
Proof.
  intros Wh B Hn. destruct (boot_spec h ch_req Wh) as (o & -> & K). cbn [mbind option_bind]. destruct o as [srv|st srv].
  - destruct K as [W N]. destruct (serve_all_spec msgs srv W B ltac:(lia)) as (o & -> & W'). exists o. split; [done|]. by intros ? ->.
  - exists (Exited st srv). split; [by destruct msgs as [|[[] ?]]|done].
Qed.

(** C7: isolation of clients.  A turn of the server leaves every attached client
    except the one named in the request exactly as it was: its id, its reply
    channel, its descriptor table, and for each of its descriptors the file it
    denotes with offset, flags and node.  An attach touches no attached client. *)
Theorem vfs_client_isolation srv n msg hd j :
  srv_wf srv -> bytes msg -> g_next_client_id srv < 2 ^ 32 - 1 ->
  0 <= j < VFS_MAX_CLIENTS -> in_use (client_at srv j) = true -> addressed srv (req_at msg) j = false ->
  exists o, serve srv n msg hd = Some o /\ client_at (out_srv o) j = client_at srv j /\
    forall d, 0 <= d < VFS_FD_MAX -> slot (g_clients srv) j d <> 0 ->
      is_Some (files (sfs srv) !! slot (g_clients srv) j d) /\
      files (sfs (out_srv o)) !! slot (g_clients srv) j d = files (sfs srv) !! slot (g_clients srv) j d.
Proof.
  intros W B Hn Hj Hu Ha. destruct (serve_spec srv n msg hd W B Hn) as (o & E & _ & _ & U). exists o. split; [done|].
  destruct (U j Hj Hu Ha) as [C F]. split; [done|]. intros d Hd Hs. split; [|by apply F]. by apply (tw_file _ _ (sv_tab _ W)).
Qed.
End top.

(** The server on the heap of the C library: two clients attach; the first
    opens [/f]. *)
Definition msg_attach : list Z := replicate 1024 0.
Definition msg_open (cid : Z) : list Z :=
  le_bytes 4 VFS_OP_OPEN ++ le_bytes 4 0 ++ le_bytes 8 259 ++ le_bytes 8 420 ++ le_bytes 4 0 ++ le_bytes 4 cid ++
  [47; 102; 0] ++ replicate 989 0.
Definition demo_msgs : list (Z * list Z * Z) := [(1024, msg_attach, 7); (1024, msg_attach, 8); (1024, msg_open 1, EXYDE_HANDLE_INVALID)].
Definition demo_srv : option (outcome arena) := o ← boot demo_arena 3; serve_all o demo_msgs.

Lemma zeros_bytes n : bytes (replicate n 0).
Proof. apply Forall_replicate. lia. Qed.

Lemma msg_open_bytes cid : bytes (msg_open cid).
Proof.
  unfold msg_open, bytes. do 6 (apply Forall_app; split; [apply le_bytes_range|]). apply Forall_app. split; [|apply zeros_bytes].
  repeat (apply Forall_cons; split; [lia|]). constructor.
Qed.

Lemma demo_msgs_bytes : Forall (fun m => bytes m.1.2) demo_msgs.
Proof.
  unfold demo_msgs. do 2 (apply Forall_cons; split; [apply zeros_bytes|]). apply Forall_cons; split; [apply msg_open_bytes|constructor].
Qed.

Lemma vfs_server_safe_witness :
  exists o, demo_srv = Some o /\ forall srv, o = Running srv -> srv_wf srv.
Proof.
  apply (vfs_server_safe demo_arena 3 demo_msgs); [apply demo_arena_wf|apply demo_msgs_bytes|vm_compute; reflexivity].
Defined.

Definition running (o : option (outcome arena)) (P : server arena -> bool) : bool :=
  match o with Some (Running srv) => P srv | _ => false end.

Lemma demo_srv_running : exists srv, demo_srv = Some (Running srv) /\ srv_wf srv.
Proof.
  assert (running demo_srv (fun _ => true) = true) as K by (vm_compute; reflexivity). revert K.
  unfold running, demo_srv. pose proof (boot_spec demo_arena 3 demo_arena_wf) as (o0 & E0 & W0). rewrite E0. cbn [mbind option_bind].
  destruct o0 as [srv0|]; [|done]. destruct W0 as [W0 N0].
  destruct (serve_all_spec demo_msgs srv0 W0 demo_msgs_bytes) as (o & Eo & Wo); [rewrite N0; vm_compute; reflexivity|]. rewrite Eo.
  destruct o as [srv|]; [|done]. by exists srv.
Qed.

Definition demo_facts (srv : server arena) : bool :=
  in_use (client_at srv 0) && (id (client_at srv 0) =? 1) && (g_next_client_id srv =? 3) && negb (slot (g_clients srv) 0 0 =? 0).

Lemma demo_srv_facts srv : demo_srv = Some (Running srv) -> demo_facts srv = true.
Proof. intros E. change (running (Some (Running srv)) demo_facts = true). rewrite <- E. vm_compute. reflexivity. Qed.

(** The second client opens a file; the first, which holds one, is not touched. *)
Lemma vfs_client_isolation_witness :
  exists srv o, demo_srv = Some (Running srv) /\ slot (g_clients srv) 0 0 <> 0 /\
    serve srv 1024 (msg_open 2) EXYDE_HANDLE_INVALID = Some o /\ client_at (out_srv o) 0 = client_at srv 0.
Proof.
  destruct demo_srv_running as (srv & Es & W). pose proof (demo_srv_facts srv Es) as K. unfold demo_facts in K. zb.
  assert (op (req_at (msg_open 2)) = VFS_OP_OPEN /\ client_id (req_at (msg_open 2)) = 2) as [O1 O2] by (split; vm_compute; reflexivity).
  assert (addressed srv (req_at (msg_open 2)) 0 = false) as Ha.
  { unfold addressed. rewrite O1, O2, (proj2 (Z.eqb_neq 2 _)) by lia. reflexivity. }
  destruct (vfs_client_isolation srv 1024 (msg_open 2) EXYDE_HANDLE_INVALID 0 W (msg_open_bytes 2)) as (o & Eo & C & _);
    [lia|unfold VFS_MAX_CLIENTS; lia|assumption|assumption|].
  exists srv, o. split; [assumption|]. split; [assumption|]. split; assumption.
Defined.
