(* ===== verification/CStdlib.v ===== *)
(** * The C library's conversions, sorting and searching

    [userspace/libc/stdlib.c]: [strtoul], [strtol] and their wrappers, [abs] and
    [labs], [qsort] and [bsearch].  A string is a NUL-terminated byte array and
    [endptr] an index into it; [errno] is the value set, if any.  [qsort] and
    [bsearch] work on an array of elements: a pointer [base + i * size] is the
    index [i], and [compar] is a parameter. *)
From S2P Require Import Prelude Bytes Errno Str.

Definition ULONG_MAX : Z := 2 ^ 64 - 1.
Definition LONG_MAX : Z := 2 ^ 63 - 1.
Definition LONG_MIN : Z := - 2 ^ 63.

(** ** Numeric conversion *)

Definition is_space_ (c : Z) : bool :=
  (c =? 32) || (c =? 9) || (c =? 10) || (c =? 11) || (c =? 12) || (c =? 13).

Definition digit_val_ (c : Z) : Z :=
  if (48 <=? c) && (c <=? 57) then c - 48
  else if (97 <=? c) && (c <=? 122) then 10 + (c - 97)
  else if (65 <=? c) && (c <=? 90) then 10 + (c - 65)
  else -1.

(** [while (is_space_( *p )) ++p]: the rest of the string and its index. *)
Fixpoint skip_space (p : list Z) (i : Z) : list Z * Z :=
  match p with
  | c :: p' => if is_space_ c then skip_space p' (i + 1) else (p, i)
  | [] => ([], i)
  end.

Definition read_sign (p : list Z) (i : Z) : bool * list Z * Z :=
  let c := zget 0 p 0 in
  if (c =? 43) || (c =? 45) then (c =? 45, tail p, i + 1) else (false, p, i).

Definition hex_prefix (p : list Z) : bool := (zget 0 p 0 =? 48) && ((zget 0 p 1 =? 120) || (zget 0 p 1 =? 88)).

(** The base to use, the rest and its index; [None]: [EINVAL]. *)
Definition read_base (base : Z) (p : list Z) (i : Z) : option (Z * list Z * Z) :=
  if base =? 0 then
    if hex_prefix p then Some (16, drop 2 p, i + 2)
    else if zget 0 p 0 =? 48 then Some (8, p, i)
    else Some (10, p, i)
  else if base =? 16 then
    if hex_prefix p then Some (16, drop 2 p, i + 2) else Some (16, p, i)
  else if (base <? 2) || (36 <? base) then None
  else Some (base, p, i).

(** The digit loop: the accumulator, [overflow], [any] and the index where it stopped. *)
Fixpoint num_loop (base cutoff cutlim : Z) (p : list Z) (i acc : Z) (overflow any : bool) : Z * bool * bool * Z :=
  match p with
  | c :: p' =>
      let d := digit_val_ c in
      if (d <? 0) || (base <=? d) then (acc, overflow, any, i)
      else
        let '(acc, overflow) :=
          if overflow then (acc, true)
          else if (cutoff <? acc) || ((acc =? cutoff) && (cutlim <? d)) then (acc, true)
          else (u64 (u64 (acc * base) + d), false) in
        num_loop base cutoff cutlim p' (i + 1) acc overflow true
  | [] => (acc, overflow, any, i)
  end.

(** The value, [*endptr], and the [errno] set. *)
Definition strtoul (s : list Z) (base : Z) : Z * Z * option Z :=
  let '(p, i) := skip_space s 0 in
  let '(negative, p, i) := read_sign p i in
  match read_base base p i with
  | None => (0, 0, Some EINVAL)
  | Some (base, p, i) =>
      let '(acc, overflow, any, e) := num_loop base (ULONG_MAX / base) (ULONG_MAX mod base) p i 0 false false in
      let e := if any then e else 0 in
      if overflow : bool then (ULONG_MAX, e, Some ERANGE)
      else ((if negative : bool then u64 (- i64 acc) else acc), e, None)
  end.

Definition strtol (s : list Z) (base : Z) : Z * Z * option Z :=
  let '(p, i) := skip_space s 0 in
  let '(negative, p, i) := read_sign p i in
  match read_base base p i with
  | None => (0, 0, Some EINVAL)
  | Some (base, p, i) =>
      let limit := if negative : bool then u64 (LONG_MAX + 1) else LONG_MAX in
      let '(acc, overflow, any, e) := num_loop base (limit / base) (limit mod base) p i 0 false false in
      let e := if any then e else 0 in
      if overflow : bool then ((if negative then LONG_MIN else LONG_MAX), e, Some ERANGE)
      else if negative then ((if acc =? u64 (LONG_MAX + 1) then LONG_MIN else - i64 acc), e, None)
      else (i64 acc, e, None)
  end.

Definition atoi (s : list Z) : Z := i32 (strtol s 10).1.1.
Definition atol (s : list Z) : Z := (strtol s 10).1.1.

Definition abs (j : Z) : Z := if j <? 0 then i32 (- j) else j.
Definition labs (j : Z) : Z := if j <? 0 then i64 (- j) else j.

(** ** Sorting and searching *)

Section sort.
Context {A : Type} (d : A) (compar : A -> A -> Z).
Implicit Types (v : list A).

(** [swap_bytes] on two elements. *)
Definition swap_bytes v (a b : Z) : list A := zset (zset v a (zget d v b)) b (zget d v a).

(** [for (j = i; j > l; --j) { if (compar(j - 1, j) <= 0) break; swap(j - 1, j); }], [n] steps at most. *)
Fixpoint ins_inner v (l j : Z) (n : nat) : list A :=
  match n with
  | O => v
  | S n =>
      if j <=? l then v
      else if compar (zget d v (j - 1)) (zget d v j) <=? 0 then v
      else ins_inner (swap_bytes v (j - 1) j) l (j - 1) n
  end.

(** [for (i = l + 1; i <= h; ++i)] around it. *)
Definition ins_sort v (l h : Z) : list A :=
  foldl (fun v i => ins_inner v l i (Z.to_nat (i - l))) v (range_step (l + 1) (h + 1) 1).

(** [while (i < j && compar(i, pivot) <= 0) ++i] *)
Fixpoint scan_up v (i j pivot : Z) (n : nat) : Z :=
  match n with
  | O => i
  | S n => if (i <? j) && (compar (zget d v i) (zget d v pivot) <=? 0) then scan_up v (i + 1) j pivot n else i
  end.
(** [while (j > i && compar(j, pivot) >= 0) --j] *)
Fixpoint scan_down v (i j pivot : Z) (n : nat) : Z :=
  match n with
  | O => j
  | S n => if (i <? j) && (0 <=? compar (zget d v j) (zget d v pivot)) then scan_down v i (j - 1) pivot n else j
  end.

(** The partition loop: the array and [i] where the pivot goes. *)
Fixpoint partition_loop v (l i j pivot : Z) (n : nat) : option (list A * Z) :=
  match n with
  | O => None
  | S n =>
      let i := scan_up v i j pivot (Z.to_nat (j - i)) in
      let j := scan_down v i j pivot (Z.to_nat (j - i)) in
      if j <=? i then Some (v, i)
      else
        let v := swap_bytes v i j in
        let i := i + 1 in
        let j := if l <? j then j - 1 else j in
        partition_loop v l i j pivot n
  end.

(** Median of three, partition, the pivot put back: the array and its index. *)
Definition partition v (l h : Z) : option (list A * Z) :=
  let mid := l + (h - l) / 2 in
  let v := if 0 <? compar (zget d v l) (zget d v mid) then swap_bytes v l mid else v in
  let v := if 0 <? compar (zget d v l) (zget d v h) then swap_bytes v l h else v in
  let v := if 0 <? compar (zget d v mid) (zget d v h) then swap_bytes v mid h else v in
  let v := swap_bytes v mid (h - 1) in
  let pivot := h - 1 in
  '(v, i) ← partition_loop v l l (h - 1) pivot (S (Z.to_nat (h - l)));
  Some (swap_bytes v i pivot, i).

(** The loop over the stack of ranges, the last pushed first. *)
Fixpoint qsort_loop v (stack : list (Z * Z)) (n : nat) : option (list A) :=
  match stack with
  | [] => Some v
  | (l, h) :: stack =>
      match n with
      | O => None
      | S n =>
          if h - l <? 8 then qsort_loop (ins_sort v l h) stack n
          else
            '(v, i) ← partition v l h;
            if 64 <? zlen stack + 2 then qsort_loop (ins_sort v l h) stack n
            else
              let stack := if l <? i then (l, i - 1) :: stack else stack in
              let stack := if i <? h then (i + 1, h) :: stack else stack in
              qsort_loop v stack n
      end
  end.

Definition qsort v (size : Z) : option (list A) :=
  if (zlen v <? 2) || (size =? 0) then Some v
  else qsort_loop v [(0, zlen v - 1)] (2 * length v).

(** [bsearch]: the index of a match in [lo .. hi). *)
Fixpoint bsearch_loop (key : A) v (lo hi : Z) (n : nat) : option (option Z) :=
  if lo <? hi then
    match n with
    | O => None
    | S n =>
        let mid := lo + (hi - lo) / 2 in
        let c := compar key (zget d v mid) in
        if c =? 0 then Some (Some mid)
        else if c <? 0 then bsearch_loop key v lo mid n
        else bsearch_loop key v (mid + 1) hi n
    end
  else Some None.
Definition bsearch (key : A) v (size : Z) : option (option Z) :=
  if (size =? 0) || (zlen v =? 0) then Some None
  else bsearch_loop key v 0 (zlen v) (length v).
End sort.

(** ** Numbers *)

(** The values of the leading digits as the code reads them ([digits_text] below ties
    them to the characters), and the number they write. *)
Fixpoint digits (base : Z) (p : list Z) : list Z :=
  match p with
  | c :: p' => let v := digit_val_ c in if (v <? 0) || (base <=? v) then [] else v :: digits base p'
  | [] => []
  end.
Definition horner (base acc : Z) (ds : list Z) : Z := foldl (fun a v => a * base + v) acc ds.

Lemma digits_range base p : Forall (fun v => 0 <= v < base) (digits base p).
Proof. induction p as [|c p IH]; cbn [digits]; [constructor|]. zif; constructor; [lia|done]. Qed.

Lemma horner_ge base acc ds : 1 <= base -> 0 <= acc -> Forall (fun v => 0 <= v < base) ds -> acc <= horner base acc ds.
Proof.
  intros Hb. revert acc. induction ds as [|v ds IH]; intros acc Ha F; [done|]. apply Forall_cons in F as [Hv F].
  cbn [horner foldl]. fold (horner base (acc * base + v) ds). specialize (IH (acc * base + v) ltac:(nia) F). nia.
Qed.

(** The test made before multiplying is exact. *)
Lemma cutoff_exact base limit acc v : 0 < base -> 0 <= v < base ->
  (limit / base <? acc) || ((acc =? limit / base) && (limit mod base <? v)) = (limit <? acc * base + v).
Proof.
  intros Hb Hv. pose proof (Z.div_mod limit base ltac:(lia)). pose proof (Z.mod_pos_bound limit base Hb).
  apply eq_true_iff_eq. rewrite orb_true_iff, andb_true_iff, !Z.ltb_lt, Z.eqb_eq. nia.
Qed.

Lemma num_loop_over base cutoff cutlim p : forall i acc any,
  num_loop base cutoff cutlim p i acc true any =
    (acc, true, any || (0 <? zlen (digits base p)), i + zlen (digits base p)).
Proof.
  induction p as [|c p IH]; intros i acc any; cbn [num_loop digits]; [unfold zlen; simpl; by rewrite orb_false_r, Z.add_0_r|].
  zif; [unfold zlen; simpl; by rewrite orb_false_r, Z.add_0_r|]. rewrite IH, zlen_cons. pose proof (zlen_nonneg (digits base p)).
  rewrite (proj2 (Z.ltb_lt 0 (1 + _))) by lia. rewrite orb_true_r. f_equal; lia.
Qed.

(** The loop computes the number, or reports that it exceeds [limit]. *)
Lemma num_loop_spec base limit p : forall i acc any,
  2 <= base -> 0 <= limit < 2 ^ 64 -> 0 <= acc <= limit ->
  let ds := digits base p in let n := horner base acc ds in
  exists a, num_loop base (limit / base) (limit mod base) p i acc false any =
    (a, limit <? n, any || (0 <? zlen ds), i + zlen ds) /\ (n <= limit -> a = n).
Proof.
  induction p as [|c p IH]; intros i acc any Hb Hl Ha; cbv zeta; cbn [num_loop digits].
  - exists acc. unfold zlen, horner. cbn. rewrite orb_false_r, Z.add_0_r, (proj2 (Z.ltb_ge limit acc)) by lia. done.
  - set (v := digit_val_ c). destruct ((v <? 0) || (base <=? v)) eqn:Hv.
    { exists acc. unfold zlen, horner. cbn. rewrite orb_false_r, Z.add_0_r, (proj2 (Z.ltb_ge limit acc)) by lia. done. }
    zb. rewrite cutoff_exact by lia. rewrite zlen_cons. cbn [horner foldl]. fold (horner base (acc * base + v) (digits base p)).
    pose proof (zlen_nonneg (digits base p)). rewrite (proj2 (Z.ltb_lt 0 (1 + _))), orb_true_r by lia.
    pose proof (horner_ge base (acc * base + v) (digits base p) ltac:(lia) ltac:(nia) (digits_range base p)) as Hge.
    destruct (Z.ltb_spec limit (acc * base + v)) as [Ho|Ho].
    + exists acc. rewrite num_loop_over. rewrite (proj2 (Z.ltb_lt limit _)) by lia. split; [f_equal; lia|lia].
    + rewrite (u64_small (acc * base)), u64_small by nia.
      destruct (IH (i + 1) (acc * base + v) true Hb Hl ltac:(nia)) as (a & -> & K). exists a. split; [|done]. f_equal; lia.
Qed.

Lemma read_base_range base p i b p' i' : read_base base p i = Some (b, p', i') -> 2 <= b <= 36.
Proof.
  unfold read_base. intros E. repeat zif_in E; try done; injection E as <- _ _; lia.
Qed.

Lemma strtol_spec (s : list Z) (base : Z) :
  let '(p, i) := skip_space s 0 in
  let '(negative, p, i) := read_sign p i in
  match read_base base p i with
  | None => strtol s base = (0, 0, Some EINVAL) /\ strtoul s base = (0, 0, Some EINVAL)
  | Some (b, p, i) =>
      let ds := digits b p in
      let n := horner b 0 ds in
      let x := if negative then - n else n in
      let e := if 0 <? zlen ds then i + zlen ds else 0 in
      strtol s base = (Z.max LONG_MIN (Z.min LONG_MAX x), e,
                       if (x <? LONG_MIN) || (LONG_MAX <? x) then Some ERANGE else None) /\
      strtoul s base = if ULONG_MAX <? n then (ULONG_MAX, e, Some ERANGE) else (u64 x, e, None)
  end.
Proof.
  unfold strtol, strtoul. destruct (skip_space s 0) as [p i]. destruct (read_sign p i) as [[neg p1] i1].
  destruct (read_base base p1 i1) as [[[b p2] i2]|] eqn:Eb; [|done]. pose proof (read_base_range _ _ _ _ _ _ Eb) as Hb. cbv zeta.
  pose proof (horner_ge b 0 (digits b p2) ltac:(lia) ltac:(lia) (digits_range b p2)) as Hn. set (n := horner b 0 (digits b p2)) in *.
  change (u64 (LONG_MAX + 1)) with (2 ^ 63). split.
  - set (limit := if neg then 2 ^ 63 else LONG_MAX). assert (0 <= limit < 2 ^ 64) as Hl by (unfold limit, LONG_MAX; destruct neg; lia).
    destruct (num_loop_spec b limit p2 i2 0 false ltac:(lia) Hl ltac:(lia)) as (a & -> & K). fold n in K. fold n. cbn [orb].
    unfold limit, LONG_MAX, LONG_MIN in *. destruct neg.
    + destruct (Z.ltb_spec (2 ^ 63) n) as [Ho|Ho].
      * rewrite (proj2 (Z.ltb_lt (- n) _)) by lia. cbn [orb]. do 2 f_equal. lia.
      * rewrite K by lia. rewrite (proj2 (Z.ltb_ge (- n) _)), (proj2 (Z.ltb_ge _ (- n))) by lia. cbn [orb]. do 2 f_equal.
        destruct (Z.eqb_spec n (2 ^ 63)); [lia|]. rewrite i64_small by lia. lia.
    + destruct (Z.ltb_spec (2 ^ 63 - 1) n) as [Ho|Ho].
      * rewrite (proj2 (Z.ltb_ge n _)) by lia. cbn [orb]. do 2 f_equal. lia.
      * rewrite K by lia. rewrite (proj2 (Z.ltb_ge n _)) by lia. cbn [orb]. do 2 f_equal. rewrite i64_small by lia. lia.
  - destruct (num_loop_spec b ULONG_MAX p2 i2 0 false ltac:(lia) ltac:(unfold ULONG_MAX; lia) ltac:(unfold ULONG_MAX; lia)) as (a & -> & K).
    fold n in K. fold n. cbn [orb]. destruct (Z.ltb_spec ULONG_MAX n) as [Ho|Ho]; [done|]. rewrite K by lia. do 2 f_equal. unfold ULONG_MAX in Ho.
    destruct neg; [|by rewrite u64_small by lia]. unfold u64, i64. Z.div_mod_to_equations. lia.
Qed.

(** ** What a number looks like

    The grammar of the C standard, on its own terms: white space, a sign, a prefix
    that depends on the base, digits, and what follows.  Digits are looked up in
    the two alphabets. *)

Definition WHITE : list Z := [32; 9; 10; 11; 12; 13].
Definition LOWER : list Z := byte_list "0123456789abcdefghijklmnopqrstuvwxyz".
Definition UPPER : list Z := byte_list "0123456789ABCDEFGHIJKLMNOPQRSTUVWXYZ".

(** [c] writes the digit [v]. *)
Definition digit_is (c v : Z) : Prop := 0 <= v /\ (LOWER !! Z.to_nat v = Some c \/ UPPER !! Z.to_nat v = Some c).
Definition starts (P : Z -> Prop) (l : list Z) : Prop := exists c l', l = c :: l' /\ P c.
Definition digit_below (b c : Z) : Prop := exists v, digit_is c v /\ v < b.

Inductive sign_text : bool -> list Z -> list Z -> Prop :=
| sign_plus t : sign_text false (byte_list "+") t
| sign_minus t : sign_text true (byte_list "-") t
| sign_none t : ~ starts (fun c => c ∈ WHITE \/ c ∈ byte_list "+-") t -> sign_text false [] t.

(** [prefix_text base b pre t]: asked for [base], the prefix [pre] in front of [t] makes the base [b]. *)
Inductive prefix_text (base : Z) : Z -> list Z -> list Z -> Prop :=
| prefix_hex pre t : base = 0 \/ base = 16 -> pre = byte_list "0x" \/ pre = byte_list "0X" -> starts (digit_below 16) t -> prefix_text base 16 pre t
| prefix_oct t : base = 0 -> starts (fun c => c ∈ byte_list "0") t -> ~ starts (fun c => c ∈ byte_list "xX") (drop 1 t) -> prefix_text base 8 [] t
| prefix_dec t : base = 0 -> ~ starts (fun c => c ∈ byte_list "0") t -> prefix_text base 10 [] t
| prefix_given t : 2 <= base <= 36 -> (base = 16 -> starts (fun c => c ∈ byte_list "0") t -> ~ starts (fun c => c ∈ byte_list "xX") (drop 1 t)) -> prefix_text base base [] t.

(** [s] is [ws], [sg], [pre], the digits [txt] of the values [vs] and [rest]. *)
Record written (base : Z) (s ws sg pre txt : list Z) (neg : bool) (b : Z) (vs : list Z) : Prop := {
  wt_text : exists rest, s = ws ++ sg ++ pre ++ txt ++ rest /\ sign_text neg sg (pre ++ txt ++ rest) /\
              prefix_text base b pre (txt ++ rest) /\ ~ starts (digit_below b) rest;
  wt_white : Forall (fun c => c ∈ WHITE) ws;
  wt_digits : Forall2 (fun c v => digit_is c v /\ v < b) txt vs }.

(** A hexadecimal prefix without a digit after it. *)
Definition bare_prefix (base : Z) (s : list Z) : Prop :=
  (base = 0 \/ base = 16) /\ exists ws sg neg pre rest, s = ws ++ sg ++ pre ++ rest /\ Forall (fun c => c ∈ WHITE) ws /\
    sign_text neg sg (pre ++ rest) /\ (pre = byte_list "0x" \/ pre = byte_list "0X") /\ ~ starts (digit_below 16) rest.

Lemma is_space_white c : is_space_ c = true <-> c ∈ WHITE.
Proof. unfold is_space_, WHITE. rewrite !orb_true_iff, !Z.eqb_eq, !elem_of_cons, elem_of_nil. naive_solver. Qed.

Lemma alphabets : forallb (fun v => bool_decide (LOWER !! Z.to_nat v = Some (if v <? 10 then 48 + v else 87 + v)) && bool_decide (UPPER !! Z.to_nat v = Some (if v <? 10 then 48 + v else 55 + v))) (seqZ 0 36) = true.
Proof. vm_compute. reflexivity. Qed.

Lemma alphabet v : 0 <= v < 36 -> LOWER !! Z.to_nat v = Some (if v <? 10 then 48 + v else 87 + v) /\ UPPER !! Z.to_nat v = Some (if v <? 10 then 48 + v else 55 + v).
Proof.
  intros Hv. pose proof alphabets as A. rewrite forallb_forall in A. specialize (A v). rewrite andb_true_iff, !bool_decide_eq_true in A. apply A.
  apply list_elem_of_In, elem_of_seqZ. lia.
Qed.

Lemma digit_is_val c v : digit_is c v <-> digit_val_ c = v /\ 0 <= v.
Proof.
  unfold digit_is, digit_val_. split.
  - intros [Hv E]. assert (v < 36) as Hl by (destruct E as [E|E]; apply lookup_lt_Some in E; change (Z.to_nat v < 36)%nat in E; lia).
    destruct (alphabet v ltac:(lia)) as [E1 E2]. rewrite E1, E2 in E. split; [|done]. destruct (Z.ltb_spec v 10); (destruct E as [[= <-]|[= <-]]; repeat zif; zb; lia).
  - intros [E Hv]. split; [done|]. assert (v < 36) as Hl by (repeat zif_in E; zb; lia). destruct (alphabet v ltac:(lia)) as [-> ->]. repeat zif_in E; zb; zif; zb; try lia.
    all: first [left; f_equal; lia|right; f_equal; lia].
Qed.

Lemma digit_below_val b c : digit_below b c <-> (digit_val_ c <? 0) || (b <=? digit_val_ c) = false.
Proof.
  unfold digit_below. setoid_rewrite digit_is_val. rewrite orb_false_iff, Z.ltb_ge, Z.leb_gt. naive_solver.
Qed.

Lemma starts_cons (P : Z -> Prop) c l : starts P (c :: l) <-> P c.
Proof. unfold starts. split; [intros (? & ? & [= <- <-] & ?); done|naive_solver]. Qed.
Lemma starts_nil (P : Z -> Prop) : ~ starts P [].
Proof. by intros (? & ? & ? & _). Qed.

Lemma zget_starts (P : Z -> Prop) l : ~ P 0 -> P (zget 0 l 0) <-> starts P l.
Proof. intros H0. destruct l as [|c l]; [|by rewrite starts_cons]. split; [done|by intros ?%starts_nil]. Qed.

Lemma skip_space_app ws t i : Forall (fun c => c ∈ WHITE) ws -> ~ starts (fun c => c ∈ WHITE) t -> skip_space (ws ++ t) i = (t, i + zlen ws).
Proof.
  intros F Ht. revert i. induction F as [|c ws Hc F IH]; intros i; cbn [app].
  - rewrite Z.add_0_r. destruct t as [|c t]; [done|]. cbn [skip_space]. rewrite starts_cons, <- is_space_white in Ht. by destruct (is_space_ c).
  - cbn [skip_space]. rewrite (proj2 (is_space_white c) Hc), IH, zlen_cons. f_equal. lia.
Qed.

Lemma white_split s : exists ws t, s = ws ++ t /\ Forall (fun c => c ∈ WHITE) ws /\ ~ starts (fun c => c ∈ WHITE) t.
Proof.
  induction s as [|c s (ws & t & -> & F & Ht)]; [exists [], []; split; [done|]; split; [constructor|apply starts_nil]|].
  destruct (decide (c ∈ WHITE)); [exists (c :: ws), t; split; [done|]; split; [by constructor|done]|].
  exists [], (c :: ws ++ t). split; [done|]. split; [constructor|by rewrite starts_cons].
Qed.

Lemma read_sign_text neg sg t i : sign_text neg sg t -> read_sign (sg ++ t) i = (neg, t, i + zlen sg) /\ ~ starts (fun c => c ∈ WHITE) (sg ++ t).
Proof.
  unfold read_sign. destruct 1 as [t|t|t Ht]; cbn [app].
  - split; [done|]. change (byte_list "+" ++ t) with (43 :: t). rewrite starts_cons. apply (bool_decide_unpack _). vm_compute. exact I.
  - split; [done|]. change (byte_list "-" ++ t) with (45 :: t). rewrite starts_cons. apply (bool_decide_unpack _). vm_compute. exact I.
  - rewrite Z.add_0_r. change (byte_list "+-") with [43; 45] in Ht. split.
    + destruct ((zget 0 t 0 =? 43) || (zget 0 t 0 =? 45)) eqn:E; [|done]. destruct Ht. apply zget_starts.
      * apply (bool_decide_unpack _). vm_compute. exact I.
      * right. rewrite !elem_of_cons. rewrite orb_true_iff, !Z.eqb_eq in E. naive_solver.
    + intros (c & l & -> & Hc). destruct Ht. exists c, l. by split; [|left].
Qed.

Lemma sign_split p : ~ starts (fun c => c ∈ WHITE) p -> exists neg sg t, p = sg ++ t /\ sign_text neg sg t.
Proof.
  intros Hp. destruct p as [|c p]; [exists false, [], []; split; [done|]; constructor; apply starts_nil|]. rewrite starts_cons in Hp.
  destruct (decide (c = 43)) as [->|]; [exists false, (byte_list "+"), p; split; [done|constructor]|].
  destruct (decide (c = 45)) as [->|]; [exists true, (byte_list "-"), p; split; [done|constructor]|].
  exists false, [], (c :: p). split; [done|]. constructor. rewrite starts_cons. change (byte_list "+-") with [43; 45]. rewrite !elem_of_cons, !elem_of_nil. tauto.
Qed.

(** The test of [strtol] for a hexadecimal prefix. *)
Lemma hex_prefix_spec p : hex_prefix p = true <-> starts (fun c => c ∈ byte_list "0") p /\ starts (fun c => c ∈ byte_list "xX") (drop 1 p).
Proof.
  unfold hex_prefix. change (byte_list "0") with [48]. change (byte_list "xX") with [120; 88]. rewrite andb_true_iff, orb_true_iff, !Z.eqb_eq.
  rewrite <- !zget_starts by (apply (bool_decide_unpack _); vm_compute; exact I). assert (zget 0 (drop 1 p) 0 = zget 0 p 1) as -> by (by destruct p as [|? [|? ?]]).
  rewrite !elem_of_cons, !elem_of_nil. tauto.
Qed.

Lemma hex_prefix_text p : hex_prefix p = true <-> exists pre t, p = pre ++ t /\ (pre = byte_list "0x" \/ pre = byte_list "0X").
Proof.
  change (byte_list "0x") with [48; 120]. change (byte_list "0X") with [48; 88]. split; [|by intros (? & t & -> & [-> | ->])].
  unfold hex_prefix. destruct p as [|c [|d p]]; [done|by rewrite andb_true_iff; intros [_ ?]|]. change (zget 0 (c :: d :: p) 0) with c. change (zget 0 (c :: d :: p) 1) with d.
  rewrite andb_true_iff, orb_true_iff, !Z.eqb_eq. intros [-> [-> | ->]]; [exists [48; 120], p|exists [48; 88], p]; auto.
Qed.

Lemma starts_zero p : starts (fun c => c ∈ byte_list "0") p <-> zget 0 p 0 = 48.
Proof. change (byte_list "0") with [48]. rewrite <- zget_starts by (apply (bool_decide_unpack _); vm_compute; exact I). rewrite elem_of_cons, elem_of_nil. tauto. Qed.

Lemma read_base_text base b pre t i : prefix_text base b pre t -> read_base base (pre ++ t) i = Some (b, t, i + zlen pre).
Proof.
  unfold read_base. destruct 1 as [pre t Hb Hp Ht|t -> Hs Hx|t -> Hs|t Hb Hx]; cbn [app].
  - assert (hex_prefix (pre ++ t) = true) as -> by (apply hex_prefix_text; eauto). assert (drop 2 (pre ++ t) = t /\ zlen pre = 2) as [-> ->] by (by destruct Hp as [-> | ->]).
    by destruct Hb as [-> | ->].
  - rewrite Z.add_0_r. change (0 =? 0) with true. cbv iota. assert (hex_prefix t = false) as -> by (apply not_true_is_false; rewrite hex_prefix_spec; naive_solver).
    by rewrite (proj1 (starts_zero t) Hs).
  - rewrite Z.add_0_r. change (0 =? 0) with true. cbv iota. assert (hex_prefix t = false) as -> by (apply not_true_is_false; rewrite hex_prefix_spec; naive_solver).
    rewrite starts_zero in Hs. by rewrite (proj2 (Z.eqb_neq _ _) Hs).
  - rewrite Z.add_0_r, (proj2 (Z.eqb_neq base 0)) by lia. destruct (Z.eqb_spec base 16) as [->|].
    + assert (hex_prefix t = false) as -> by (apply not_true_is_false; rewrite hex_prefix_spec; naive_solver). done.
    + rewrite (proj2 (Z.ltb_ge base 2)), (proj2 (Z.ltb_ge 36 base)) by lia. done.
Qed.

Lemma prefix_split base p : base = 0 \/ 2 <= base <= 36 ->
  (exists b pre t, p = pre ++ t /\ prefix_text base b pre t) \/
  ((base = 0 \/ base = 16) /\ exists pre t, p = pre ++ t /\ (pre = byte_list "0x" \/ pre = byte_list "0X") /\ ~ starts (digit_below 16) t).
Proof.
  intros Hb. destruct (decide (base = 0 \/ base = 16)) as [Hh|Hh].
  - destruct (hex_prefix p) eqn:Ex.
    + pose proof Ex as (pre & t & -> & Hp)%hex_prefix_text. destruct t as [|c t]; [right; eauto 10 using starts_nil|].
      destruct (decide ((digit_val_ c <? 0) || (16 <=? digit_val_ c) = false)) as [Hc|Hc]; rewrite <- digit_below_val in Hc.
      * left. exists 16, pre, (c :: t). split; [done|]. apply prefix_hex; [done|done|by rewrite starts_cons].
      * right. split; [done|]. exists pre, (c :: t). split; [done|]. split; [done|]. by rewrite starts_cons.
    + assert (~ (starts (fun c => c ∈ byte_list "0") p /\ starts (fun c => c ∈ byte_list "xX") (drop 1 p))) as Hn by (rewrite <- hex_prefix_spec, Ex; done).
      left. destruct (decide (base = 0)) as [->|].
      * destruct (decide (zget 0 p 0 = 48)) as [Hz|Hz]; rewrite <- starts_zero in Hz; [exists 8, [], p|exists 10, [], p]; (split; [done|]); [apply prefix_oct|apply prefix_dec]; naive_solver.
      * exists base, [], p. split; [done|]. apply prefix_given; [lia|]. naive_solver.
  - left. exists base, [], p. split; [done|]. apply prefix_given; [lia|]. naive_solver.
Qed.

Lemma digits_text b txt vs rest : Forall2 (fun c v => digit_is c v /\ v < b) txt vs -> ~ starts (digit_below b) rest -> digits b (txt ++ rest) = vs.
Proof.
  intros F Hr. induction F as [|c v txt vs [Hd Hv] F IH]; cbn [app].
  - destruct rest as [|c rest]; [done|]. rewrite starts_cons, digit_below_val in Hr. cbn [digits]. by destruct (_ || _).
  - cbn [digits]. apply digit_is_val in Hd as [-> Hp]. rewrite (proj2 (Z.ltb_ge v 0)), (proj2 (Z.leb_gt b v)) by lia. cbn [orb]. by rewrite IH.
Qed.

Lemma digits_split b p : exists txt vs rest, p = txt ++ rest /\ Forall2 (fun c v => digit_is c v /\ v < b) txt vs /\ ~ starts (digit_below b) rest.
Proof.
  induction p as [|c p (txt & vs & rest & -> & F & Hr)]; [exists [], [], []; split; [done|]; split; [constructor|apply starts_nil]|].
  destruct (decide ((digit_val_ c <? 0) || (b <=? digit_val_ c) = false)) as [Hc|Hc]; rewrite <- digit_below_val in Hc.
  - destruct Hc as (v & Hd & Hv). exists (c :: txt), (v :: vs), rest. split; [done|]. split; [by constructor|done].
  - exists [], [], (c :: txt ++ rest). split; [done|]. split; [constructor|by rewrite starts_cons].
Qed.

(** C39: [strtol] and [strtoul] compute the number written.  A string is read as
    white space, a sign, a prefix, the longest run of digits of the base and the
    rest, by the grammar above, which names the characters and their values apart
    from the code.  The value of the digits as an unbounded integer, with its sign,
    is returned, cut off at [LONG_MIN] and [LONG_MAX] (resp. [ULONG_MAX], where a
    negative number is its complement) with [errno = ERANGE] exactly when it does
    not fit; [endptr] is the end of the digits, or the start of the string when
    there is none.  Every string is such a text for every base 0 and 2..36, except
    one whose prefix [0x] has no digit after it, which gives 0 and the start of the
    string; any other base gives [EINVAL]. *)
Theorem strtol_correct (s : list Z) (base : Z) :
  (~ (base = 0 \/ 2 <= base <= 36) -> strtol s base = (0, 0, Some EINVAL) /\ strtoul s base = (0, 0, Some EINVAL)) /\
  (base = 0 \/ 2 <= base <= 36 -> bare_prefix base s \/ exists ws sg pre txt neg b vs, written base s ws sg pre txt neg b vs) /\
  (bare_prefix base s -> strtol s base = (0, 0, None) /\ strtoul s base = (0, 0, None)) /\
  (forall ws sg pre txt neg b vs, written base s ws sg pre txt neg b vs ->
     let n := horner b 0 vs in
     let x := if neg then - n else n in
     let e := if bool_decide (txt = []) then 0 else zlen (ws ++ sg ++ pre ++ txt) in
     strtol s base = (Z.max LONG_MIN (Z.min LONG_MAX x), e, if (x <? LONG_MIN) || (LONG_MAX <? x) then Some ERANGE else None) /\
     strtoul s base = if ULONG_MAX <? n then (ULONG_MAX, e, Some ERANGE) else (u64 x, e, None)).
Proof.
  pose proof (strtol_spec s base) as Sp. split; [|split; [|split]].
  - intros Hb. destruct (skip_space s 0) as [p i]. destruct (read_sign p i) as [[neg p1] i1]. assert (read_base base p1 i1 = None) as E; [|by rewrite E in Sp].
    unfold read_base. rewrite (proj2 (Z.eqb_neq base 0)), (proj2 (Z.eqb_neq base 16)) by lia. destruct (Z.ltb_spec base 2), (Z.ltb_spec 36 base); cbn [orb]; lia || done.
  - intros Hb. destruct (white_split s) as (ws & p & -> & Fw & Hp). destruct (sign_split p Hp) as (neg & sg & p1 & -> & Hs).
    destruct (prefix_split base p1 Hb) as [(b & pre & p2 & -> & Hx)|(Hh & pre & t & -> & Hx & Ht)]; [|left; split; [done|]; eauto 12].
    destruct (digits_split b p2) as (txt & vs & rest & -> & F & Hr). right. exists ws, sg, pre, txt, neg, b, vs. split; [by exists rest|done|done].
  - intros (Hh & ws & sg & neg & pre & rest & -> & Fw & Hs & Hx & Hr). destruct (read_sign_text neg sg (pre ++ rest) (0 + zlen ws) Hs) as [Er Hw].
    rewrite (skip_space_app ws _ 0 Fw Hw), Er in Sp. assert (exists i, read_base base (pre ++ rest) (0 + zlen ws + zlen sg) = Some (16, rest, i)) as [i Eb].
    { unfold read_base. assert (hex_prefix (pre ++ rest) = true) as -> by (apply hex_prefix_text; eauto). assert (drop 2 (pre ++ rest) = rest) as -> by (by destruct Hx as [-> | ->]).
      destruct Hh as [-> | ->]; eauto. }
    assert (digits 16 rest = []) as Ed by (by apply (digits_text 16 [] [] rest)). rewrite Eb, Ed in Sp. destruct neg; exact Sp.
  - intros ws sg pre txt neg b vs [(rest & -> & Hs & Hx & Hr) Fw F]. cbv zeta. destruct (read_sign_text neg sg _ (0 + zlen ws) Hs) as [Er Hw].
    rewrite (skip_space_app ws _ 0 Fw Hw), Er, (read_base_text base b pre _ _ Hx), (digits_text b txt vs rest F Hr) in Sp.
    assert ((if 0 <? zlen vs then 0 + zlen ws + zlen sg + zlen pre + zlen vs else 0) = if bool_decide (txt = []) then 0 else zlen (ws ++ sg ++ pre ++ txt)) as Ee; [|by rewrite <- Ee].
    pose proof (Forall2_length _ _ _ F) as L. rewrite !zlen_app. assert (zlen txt = zlen vs) as -> by (unfold zlen; lia).
    case_bool_decide as Et; [subst; by destruct vs|]. destruct vs; [by destruct txt|]. rewrite zlen_cons. pose proof (zlen_nonneg vs). rewrite (proj2 (Z.ltb_lt 0 _)) by lia. lia.
Qed.

Lemma strtol_correct_witness : strtol (byte_list " -0x1F;") 0 = (-31, 6, None) /\ strtoul (byte_list " -0x1F;") 0 = (2 ^ 64 - 31, 6, None).
Proof.
  assert (written 0 (byte_list " -0x1F;") (byte_list " ") (byte_list "-") (byte_list "0x") (byte_list "1F") true 16 [1; 15]) as Wr.
  { split; [|repeat constructor; apply (bool_decide_unpack _); vm_compute; exact I|].
    - exists (byte_list ";"). split; [reflexivity|]. split; [constructor|]. split; [apply prefix_hex; [by left|by left|]|].
      + apply starts_cons. exists 1. by split; [split; [|left]|].
      + change (byte_list ";") with [59]. rewrite starts_cons, digit_below_val. by vm_compute.
    - constructor; [split; [split; [done|by left]|done]|]. constructor; [split; [split; [done|by right]|done]|]. constructor. }
  destruct (strtol_correct (byte_list " -0x1F;") 0) as (_ & _ & _ & K). exact (K _ _ _ _ _ _ _ Wr).
Defined.

(** ** Sorting *)

Lemma insert_perm {A} (l : list A) i x y : l !! i = Some x -> x :: <[i := y]> l ≡ₚ y :: l.
Proof.
  revert i. induction l as [|z l IH]; intros [|i] E; try done.
  - injection E as ->. constructor.
  - cbn. rewrite Permutation_swap, IH by done. constructor.
Qed.

Section sort_proofs.
Context {A : Type} (d : A) (compar : A -> A -> Z).
Implicit Types (v : list A).
Notation sw := (swap_bytes d).

Lemma zlen_swap v a b : zlen (sw v a b) = zlen v.
Proof. unfold swap_bytes. by rewrite !zlen_zset. Qed.

Lemma zget_swap v a b i : 0 <= a < zlen v -> 0 <= b < zlen v -> 0 <= i ->
  zget d (sw v a b) i = if i =? b then zget d v a else if i =? a then zget d v b else zget d v i.
Proof.
  intros Ha Hb Hi. unfold swap_bytes. rewrite zget_zset by (rewrite ?zlen_zset; lia). rewrite (Z.eqb_sym b i). destruct (i =? b); [done|].
  rewrite zget_zset by lia. by rewrite (Z.eqb_sym a i).
Qed.

Lemma swap_perm v a b : 0 <= a < zlen v -> 0 <= b < zlen v -> sw v a b ≡ₚ v.
Proof.
  intros Ha Hb. unfold zlen in *. destruct (lookup_lt_is_Some_2 v (Z.to_nat a)) as [x Ex]; [lia|].
  destruct (lookup_lt_is_Some_2 v (Z.to_nat b)) as [y Ey]; [lia|].
  unfold swap_bytes. rewrite !zget_lookup, Ex, Ey by lia. cbn [default from_option id]. unfold zset.
  rewrite (proj2 (Z.ltb_ge a 0)), (proj2 (Z.ltb_ge b 0)) by lia.
  apply (Permutation_cons_inv (a := y)). rewrite insert_perm.
  - by apply insert_perm.
  - rewrite list_lookup_insert. case_decide; [done|]. done.
Qed.

(** [v'] is [v] with the elements of the range [l .. h] rearranged. *)
Definition shuffled (l h : Z) v v' : Prop :=
  v' ≡ₚ v /\ forall i, 0 <= i -> i < l \/ h < i -> zget d v' i = zget d v i.

Lemma shuffled_refl l h v : shuffled l h v v.
Proof. done. Qed.

Lemma shuffled_trans l h v1 v2 v3 : shuffled l h v1 v2 -> shuffled l h v2 v3 -> shuffled l h v1 v3.
Proof. intros [P1 F1] [P2 F2]. split; [by rewrite P2|]. intros i Hi Ho. by rewrite F2, F1. Qed.

Lemma shuffled_len l h v v' : shuffled l h v v' -> zlen v' = zlen v.
Proof. intros [P _]. unfold zlen. by rewrite P. Qed.

Lemma shuffled_swap l h v a b : 0 <= l -> h < zlen v -> l <= a <= h -> l <= b <= h -> shuffled l h v (sw v a b).
Proof.
  intros Hl Hh Ha Hb. split; [apply swap_perm; lia|]. intros i Hi Ho. rewrite zget_swap by lia.
  rewrite (proj2 (Z.eqb_neq i b)), (proj2 (Z.eqb_neq i a)) by lia. done.
Qed.

Lemma shuffled_swap_if l h v (c : bool) a b :
  0 <= l -> h < zlen v -> l <= a <= h -> l <= b <= h -> shuffled l h v (if c then sw v a b else v).
Proof. intros. destruct c; [by apply shuffled_swap|apply shuffled_refl]. Qed.

Lemma ins_inner_shuffled l h n : forall v j,
  0 <= l -> h < zlen v -> l <= j <= h -> shuffled l h v (ins_inner d compar v l j n).
Proof.
  induction n as [|n IH]; intros v j Hl Hh Hj; cbn [ins_inner]; [apply shuffled_refl|].
  zif; [apply shuffled_refl|]. zif; [apply shuffled_refl|]. eapply shuffled_trans; [by apply (shuffled_swap l h v (j - 1) j); lia|].
  apply IH; rewrite ?zlen_swap; lia.
Qed.

Lemma ins_sort_shuffled l h v : 0 <= l -> h < zlen v -> shuffled l h v (ins_sort d compar v l h).
Proof.
  intros Hl Hh. unfold ins_sort. rewrite range_step_1. assert (forall k, k ∈ seqZ (l + 1) (h + 1 - (l + 1)) -> l <= k <= h) as Hk.
  { intros k [? ?]%elem_of_seqZ. lia. }
  revert Hk. generalize (seqZ (l + 1) (h + 1 - (l + 1))). intros ks.
  assert (shuffled l h v v) as S by apply shuffled_refl. revert S. generalize v at 2 4. revert v Hh.
  induction ks as [|k ks IH]; intros v Hh w S Hk; [done|]. cbn [foldl]. apply IH; [done| |intros; apply Hk; by right].
  pose proof (shuffled_len _ _ _ _ S). eapply shuffled_trans; [exact S|]. apply ins_inner_shuffled; [done|lia|]. apply Hk. left.
Qed.

Lemma scan_up_range v j pivot n : forall i, i <= scan_up d compar v i j pivot n <= Z.max i j.
Proof. induction n as [|n IH]; intros i; cbn [scan_up]; [lia|]. zif; [|lia]. specialize (IH (i + 1)). lia. Qed.

Lemma scan_down_range v i pivot n : forall j, Z.min i j <= scan_down d compar v i j pivot n <= j.
Proof. induction n as [|n IH]; intros j; cbn [scan_down]; [lia|]. zif; [|lia]. specialize (IH (j - 1)). lia. Qed.

(** The scans run to their end: the number of steps given is enough. *)
Lemma scan_up_done v j pivot n : forall i, j - i <= Z.of_nat n ->
  let i' := scan_up d compar v i j pivot n in (i' <? j) && (compar (zget d v i') (zget d v pivot) <=? 0) = false.
Proof.
  induction n as [|n IH]; intros i Hn; cbn [scan_up]; [by rewrite (proj2 (Z.ltb_ge i j)) by lia|].
  destruct ((i <? j) && _) eqn:E; [|done]. apply IH. lia.
Qed.
Lemma scan_down_done v i pivot n : forall j, j - i <= Z.of_nat n ->
  let j' := scan_down d compar v i j pivot n in (i <? j') && (0 <=? compar (zget d v j') (zget d v pivot)) = false.
Proof.
  induction n as [|n IH]; intros j Hn; cbn [scan_down]; [by rewrite (proj2 (Z.ltb_ge i j)) by lia|].
  destruct ((i <? j) && _) eqn:E; [|done]. apply IH. lia.
Qed.

Lemma partition_loop_spec l h pivot n : forall v i j,
  0 <= l -> h < zlen v -> l <= i <= h -> l <= j <= h -> i <= j + 1 -> j - i + 1 < Z.of_nat n ->
  exists v' i', partition_loop d compar v l i j pivot n = Some (v', i') /\ l <= i' <= h /\ shuffled l h v v'.
Proof.
  induction n as [|n IH]; intros v i j Hl Hh Hi Hj Hij Hn; [lia|]. cbn [partition_loop].
  pose proof (scan_up_range v j pivot (Z.to_nat (j - i)) i) as Ru. set (i1 := scan_up _ _ _ _ _ _ _) in *.
  pose proof (scan_down_range v i1 pivot (Z.to_nat (j - i1)) j) as Rd. set (j1 := scan_down _ _ _ _ _ _ _) in *.
  zif; [exists v, i1; split; [done|]; split; [lia|apply shuffled_refl]|]. rewrite (proj2 (Z.ltb_lt l j1)) by lia.
  destruct (IH (sw v i1 j1) (i1 + 1) (j1 - 1)) as (v' & i' & E & Hi' & S); rewrite ?zlen_swap; try lia.
  exists v', i'. split; [done|]. split; [done|]. eapply shuffled_trans, S. apply shuffled_swap; lia.
Qed.

Lemma partition_spec v l h : 0 <= l -> h < zlen v -> 8 <= h - l ->
  exists v' i, partition d compar v l h = Some (v', i) /\ l <= i <= h /\ shuffled l h v v'.
Proof.
  intros Hl Hh Hn. unfold partition. set (mid := l + (h - l) / 2).
  assert (l <= mid <= h) as Hm by (unfold mid; Z.div_mod_to_equations; lia).
  set (v1 := if 0 <? compar (zget d v l) _ then _ else _). assert (shuffled l h v v1) as S1 by (apply shuffled_swap_if; lia).
  set (v2 := if 0 <? compar (zget d v1 l) _ then _ else _).
  assert (shuffled l h v1 v2) as S2 by (apply shuffled_swap_if; rewrite ?(shuffled_len _ _ _ _ S1); lia).
  assert (shuffled l h v v2) as T2 by by eapply shuffled_trans.
  set (v3 := if 0 <? compar (zget d v2 mid) _ then _ else _).
  assert (shuffled l h v2 v3) as S3 by (apply shuffled_swap_if; rewrite ?(shuffled_len _ _ _ _ T2); lia).
  assert (shuffled l h v v3) as T3 by by eapply shuffled_trans.
  assert (shuffled l h v (sw v3 mid (h - 1))) as T4.
  { eapply shuffled_trans; [exact T3|]. apply shuffled_swap; rewrite ?(shuffled_len _ _ _ _ T3); lia. }
  destruct (partition_loop_spec l h (h - 1) (S (Z.to_nat (h - l))) (sw v3 mid (h - 1)) l (h - 1)) as (v5 & i & -> & Hi & S5);
    rewrite ?zlen_swap, ?(shuffled_len _ _ _ _ T3); try lia.
  cbn [mbind option_bind]. eexists _, i. split; [done|]. split; [done|].
  assert (shuffled l h v v5) as T5 by by eapply shuffled_trans.
  eapply shuffled_trans; [exact T5|]. apply shuffled_swap; rewrite ?(shuffled_len _ _ _ _ T5); lia.
Qed.

(** Ranges still to sort, and a bound on the turns they take. *)
Definition cost (stack : list (Z * Z)) : Z := foldr (fun r a => 2 * (r.2 - r.1) + 1 + a) 0 stack.

Lemma qsort_loop_spec n : forall v stack,
  Forall (fun r => 0 <= r.1 <= r.2 /\ r.2 < zlen v) stack -> cost stack <= Z.of_nat n ->
  exists v', qsort_loop d compar v stack n = Some v' /\ v' ≡ₚ v.
Proof.
  induction n as [|n IH]; intros v [|[l h] stack] F Hc; cbn [qsort_loop]; try (by eexists).
  - exfalso. apply Forall_cons in F as [F1 F]. cbn [cost foldr fst snd] in *. fold (cost stack) in Hc. enough (0 <= cost stack) by lia.
    clear -F. induction F as [|[a b] st Hr _ IHs]; [done|]. cbn [cost foldr fst snd] in *. fold (cost st). fold (cost st) in IHs. lia.
  - apply Forall_cons in F as [[F1 F2] F]. cbn [fst snd] in *. cbn [cost foldr fst snd] in Hc. fold (cost stack) in Hc.
    assert (forall v', shuffled l h v v' -> Forall (fun r => 0 <= r.1 <= r.2 /\ r.2 < zlen v') stack) as Fs.
    { intros v' S. by rewrite (shuffled_len _ _ _ _ S). }
    assert (forall v', shuffled l h v v' -> exists v'', qsort_loop d compar v' stack n = Some v'' /\ v'' ≡ₚ v) as Rest.
    { intros v' S. destruct (IH v' stack (Fs v' S) ltac:(lia)) as (v'' & -> & P). exists v''. split; [done|]. rewrite P. apply S. }
    zif; [apply Rest, ins_sort_shuffled; lia|].
    destruct (partition_spec v l h) as (v1 & i & -> & Hi & S1); [lia..|]. cbn [mbind option_bind].
    zif. { apply Rest. eapply shuffled_trans; [exact S1|]. apply ins_sort_shuffled; rewrite ?(shuffled_len _ _ _ _ S1); lia. }
    pose proof (shuffled_len _ _ _ _ S1) as L1.
    destruct (IH v1 (if i <? h then (i + 1, h) :: (if l <? i then (l, i - 1) :: stack else stack)
                     else if l <? i then (l, i - 1) :: stack else stack)) as (v'' & -> & P).
    + specialize (Fs v1 S1). destruct (Z.ltb_spec i h), (Z.ltb_spec l i); repeat (apply Forall_cons; split; [cbn; lia|]); done.
    + destruct (Z.ltb_spec i h), (Z.ltb_spec l i); cbn [cost foldr fst snd]; fold (cost stack); lia.
    + exists v''. split; [done|]. rewrite P. apply S1.
Qed.

(** *** The insertion sort *)

Definition sorted_in (l h : Z) v : Prop := forall a b, l <= a -> a < b -> b <= h -> compar (zget d v a) (zget d v b) <= 0.

Hypothesis compar_trans : forall x y z, compar x y <= 0 -> compar y z <= 0 -> compar x z <= 0.
Hypothesis compar_total : forall x y, 0 < compar x y -> compar y x <= 0.

(** [l .. i] is sorted but for the element at [j], which is no greater than those above it. *)
Definition sinking (l i j : Z) v : Prop :=
  (forall a b, l <= a -> a < b -> b <= i -> a <> j -> b <> j -> compar (zget d v a) (zget d v b) <= 0) /\
  (forall b, j < b <= i -> compar (zget d v j) (zget d v b) <= 0).

Lemma ins_inner_sorts l i n : forall v j,
  0 <= l -> i < zlen v -> l <= j <= i -> j - l <= Z.of_nat n -> sinking l i j v -> sorted_in l i (ins_inner d compar v l j n).
Proof.
  assert (forall v j, 0 <= l -> l <= j <= i -> sinking l i j v -> (l < j -> compar (zget d v (j - 1)) (zget d v j) <= 0) -> sorted_in l i v) as Done.
  { intros v j Hl Hj [S1 S2] Hc a b Ha Hab Hb. destruct (Z.eq_dec a j) as [->|]; [apply S2; lia|].
    destruct (Z.eq_dec b j) as [->|]; [|by apply S1]. destruct (Z.eq_dec a (j - 1)) as [->|]; [apply Hc; lia|].
    eapply compar_trans; [apply (S1 a (j - 1)); lia|apply Hc; lia]. }
  induction n as [|n IH]; intros v j Hl Hi Hj Hn Sk; cbn [ins_inner].
  - apply (Done v j); try done. lia.
  - zif; [apply (Done v j); try done; lia|]. zif; [by apply (Done v j)|].
    apply IH; rewrite ?zlen_swap; try lia. destruct Sk as [S1 S2].
    assert (forall x, l <= x <= i -> zget d (sw v (j - 1) j) x = if x =? j then zget d v (j - 1) else if x =? j - 1 then zget d v j else zget d v x) as G
      by (intros; apply zget_swap; lia).
    split.
    + intros a b Ha Hab Hb Naj Nbj. rewrite !G by lia. rewrite (proj2 (Z.eqb_neq a (j - 1))), (proj2 (Z.eqb_neq b (j - 1))) by lia.
      destruct (Z.eqb_spec a j) as [->|], (Z.eqb_spec b j) as [->|]; try lia; apply S1; lia.
    + intros b Hb. rewrite !G by lia. rewrite (proj2 (Z.eqb_neq (j - 1) j)), Z.eqb_refl, (proj2 (Z.eqb_neq b (j - 1))) by lia.
      destruct (Z.eqb_spec b j) as [->|]; [apply compar_total; lia|]. apply S2. lia.
Qed.

Lemma ins_sort_sorts l h v : 0 <= l -> h < zlen v -> sorted_in l h (ins_sort d compar v l h).
Proof.
  intros Hl Hh. unfold ins_sort. rewrite range_step_1. replace (h + 1 - (l + 1)) with (h - l) by lia.
  assert (forall k, 0 <= k -> l + k < zlen v ->
    let w := foldl (fun v i => ins_inner d compar v l i (Z.to_nat (i - l))) v (seqZ (l + 1) k) in sorted_in l (l + k) w /\ zlen w = zlen v) as K.
  { apply (natlike_ind (fun k => l + k < zlen v -> _)); [intros _; cbn; split; [intros a b; lia|done]|].
    intros k Hk IH Hb. replace (Z.succ k) with (k + 1) in * by lia. destruct IH as [IS IL]; [lia|]. cbv zeta.
    rewrite (seqZ_app (l + 1) k 1), foldl_app by lia. set (w := foldl _ v (seqZ (l + 1) k)) in *. replace (l + 1 + k) with (l + (k + 1)) by lia.
    change (seqZ (l + (k + 1)) 1) with [0 + (l + (k + 1))]. rewrite Z.add_0_l. cbn [foldl]. split.
    - apply ins_inner_sorts; try lia. split; [|lia]. intros a b Ha Hab Hb' Na Nb. apply IS; lia.
    - rewrite <- IL. eapply (shuffled_len l (l + (k + 1))), ins_inner_shuffled; lia. }
  destruct (Z_lt_le_dec h l) as [|Hle]; [intros a b; lia|].
  destruct (K (h - l)) as [S _]; [lia|lia|]. by replace (l + (h - l)) with h in S by lia.
Qed.
End sort_proofs.

(** [qsort] always returns, whatever [compar] answers, and leaves a permutation
    of the array; an array of at most eight elements (one insertion sort) is sorted
    when [compar] is a total preorder.  For nine elements and more the partition
    step does not keep the order, see [qsort_unsorted]. *)
Theorem qsort_correct {A} (d : A) (compar : A -> A -> Z) (v : list A) (size : Z) :
  exists v', qsort d compar v size = Some v' /\ v' ≡ₚ v /\
    ((forall x y z, compar x y <= 0 -> compar y z <= 0 -> compar x z <= 0) -> (forall x y, 0 < compar x y -> compar y x <= 0) ->
     zlen v <= 8 -> size <> 0 -> sorted_in d compar 0 (zlen v - 1) v').
Proof.
  unfold qsort. destruct (Z.ltb_spec (zlen v) 2) as [Hs|Hs]; cbn [orb].
  { exists v. split; [done|]. split; [done|]. intros _ _ _ _ a b. lia. }
  destruct (Z.eqb_spec size 0) as [->|Hz]; [by exists v|].
  destruct (qsort_loop_spec d compar (2 * length v) v [(0, zlen v - 1)]) as (v' & E & P).
  - constructor; [cbn [fst snd]; lia|constructor].
  - cbn [cost foldr fst snd]. unfold zlen in *. lia.
  - exists v'. split; [done|]. split; [done|]. intros Tr To H8 _. revert E. destruct (2 * length v)%nat as [|n] eqn:En; [unfold zlen in *; lia|].
    cbn [qsort_loop]. rewrite (proj2 (Z.ltb_lt _ 8)) by lia. destruct n; cbn [qsort_loop]; intros [= <-]; apply ins_sort_sorts; done || lia.
Qed.

(** ** Searching *)

Lemma bsearch_loop_spec {A} (d : A) compar key (v : list A) n : forall lo hi,
  0 <= lo -> hi <= zlen v -> hi - lo <= Z.of_nat n ->
  (forall a b, 0 <= a -> a < b -> b < zlen v -> compar key (zget d v a) < 0 -> compar key (zget d v b) < 0) ->
  (forall a b, 0 <= a -> a < b -> b < zlen v -> 0 < compar key (zget d v b) -> 0 < compar key (zget d v a)) ->
  exists r, bsearch_loop d compar key v lo hi n = Some r /\
    match r with
    | Some i => lo <= i < hi /\ compar key (zget d v i) = 0
    | None => forall i, lo <= i < hi -> compar key (zget d v i) <> 0
    end.
Proof.
  induction n as [|n IH]; intros lo hi Hl Hh Hn M1 M2; cbn [bsearch_loop].
  - rewrite (proj2 (Z.ltb_ge lo hi)) by lia. exists None. split; [done|]. lia.
  - destruct (Z.ltb_spec lo hi) as [Hlt|]; [|exists None; split; [done|lia]].
    set (mid := lo + (hi - lo) / 2). assert (lo <= mid < hi) as Hm by (unfold mid; Z.div_mod_to_equations; lia).
    destruct (Z.eqb_spec (compar key (zget d v mid)) 0) as [E|E]; [by exists (Some mid)|]. zif.
    + destruct (IH lo mid) as (r & -> & R); [lia|lia|lia|done|done|]. exists r. split; [done|]. destruct r as [i|]; [destruct R; split; [lia|done]|].
      intros i Hi. destruct (Z_lt_le_dec i mid); [apply R; lia|]. destruct (Z.eq_dec i mid) as [->|]; [done|]. specialize (M1 mid i). lia.
    + destruct (IH (mid + 1) hi) as (r & -> & R); [lia|lia|lia|done|done|]. exists r. split; [done|]. destruct r as [i|]; [destruct R; split; [lia|done]|].
      intros i Hi. destruct (Z_lt_le_dec mid i); [apply R; lia|]. destruct (Z.eq_dec i mid) as [->|]; [done|]. specialize (M2 i mid). lia.
Qed.

(** [bsearch] returns on every array, with an element that compares equal to the
    key if the array, sorted with respect to the key, has one, and null exactly
    when it has none. *)
Theorem bsearch_correct {A} (d : A) (compar : A -> A -> Z) (key : A) (v : list A) (size : Z) :
  size <> 0 ->
  (forall a b, 0 <= a -> a < b -> b < zlen v -> compar key (zget d v a) < 0 -> compar key (zget d v b) < 0) ->
  (forall a b, 0 <= a -> a < b -> b < zlen v -> 0 < compar key (zget d v b) -> 0 < compar key (zget d v a)) ->
  exists r, bsearch d compar key v size = Some r /\
    match r with
    | Some i => 0 <= i < zlen v /\ compar key (zget d v i) = 0
    | None => forall i, 0 <= i < zlen v -> compar key (zget d v i) <> 0
    end.
Proof.
  intros Hs M1 M2. unfold bsearch. rewrite (proj2 (Z.eqb_neq size 0)) by done. cbn [orb].
  destruct (Z.eqb_spec (zlen v) 0) as [E|E]; [exists None; split; [done|lia]|].
  apply bsearch_loop_spec; try done; unfold zlen; lia.
Qed.

Lemma bsearch_correct_witness :
  bsearch 0 Z.sub 7 [1; 3; 7; 9] 4 = Some (Some 2) /\
  exists r, bsearch 0 Z.sub 5 [1; 3; 7; 9] 4 = Some r /\
    match r with Some i => 0 <= i < 4 /\ 5 - zget 0 [1; 3; 7; 9] i = 0 | None => forall i, 0 <= i < 4 -> 5 - zget 0 [1; 3; 7; 9] i <> 0 end.
Proof.
  split; [vm_compute; reflexivity|].
  assert (forall a b, 0 <= a -> a < b -> b < 4 -> zget 0 [1; 3; 7; 9] a < zget 0 [1; 3; 7; 9] b) as M.
  { intros a b Ha Hab Hb. assert (a = 0 \/ a = 1 \/ a = 2) as Ca by lia. assert (b = 1 \/ b = 2 \/ b = 3) as Cb by lia.
    destruct Ca as [->|[->| ->]], Cb as [->|[->| ->]]; try lia; vm_compute; reflexivity. }
  apply (bsearch_correct 0 Z.sub 5 [1; 3; 7; 9] 4); [lia|..]; intros a b Ha Hab Hb; specialize (M a b Ha Hab Hb); lia.
Defined.

(** [qsort] leaves some arrays of nine elements unsorted: after a swap the two
    scans can meet on an element neither has compared with the pivot, and that
    element trades places with the pivot whatever its value. *)
Theorem qsort_unsorted :
  qsort 0 Z.sub [5; 8; 1; 0; 7; 4; 6; 3; 2] 4 = Some [0; 1; 2; 4; 5; 3; 6; 7; 8].
Proof. vm_compute. reflexivity. Qed.

(** A lone [0x] is not read as the number 0: [endptr] goes back to the start. *)
Theorem strtol_bare_prefix : strtol [48; 120; 0] 16 = (0, 0, None) /\ strtol [48; 0] 16 = (0, 1, None).
Proof. split; vm_compute; reflexivity. Qed.
