(* ===== verification/Stdio.v ===== *)
(** * Formatted output

    [userspace/libc/stdio.c]: the formatter [format_core], the buffer sink of
    [snprintf] and the buffered descriptor sink of [printf], [puts], [putchar]
    and [perror].  A format is a NUL-terminated byte array; the variable
    arguments are the 64-bit slots of the calling convention, and [strs] gives
    the string at an address.  [None] is undefined behaviour: an argument that
    was not passed, an [int] that overflows, a write past [body[96]].  The
    system call [write] is a parameter. *)
From S2P Require Import Prelude Bytes Errno Str CStdlib.

Definition EOF : Z := -1.
Definition FD_BUF_SZ : Z := 512.
Definition F_LEFT : Z := 1.
Definition F_ZERO : Z := 2.
Definition F_PLUS : Z := 4.
Definition F_SPACE : Z := 8.
Definition F_HASH : Z := 16.

Inductive length_mod := L_NONE | L_HH | L_H | L_L | L_LL | L_Z | L_T | L_J.

#[export] Instance length_mod_eq : EqDecision length_mod.
Proof. solve_decision. Defined.

Definition flag (fl bit : Z) : bool := negb (Z.land fl bit =? 0).

(** An [int] that does not fit is undefined. *)
Definition int_ok (x : Z) : option Z := if (- 2 ^ 31 <=? x) && (x <? 2 ^ 31) then Some x else None.

(** [*p] and [p + 1] *)
Definition chr (p : list Z) : Z := zget 0 p 0.

(** ** Output sinks *)

Section sink.
Context {S : Type} (put : S -> Z -> S * bool).

Record out := MkOut { ctx : S; count : Z; error : bool }.

(** The boolean is [false] where the function returns -1. *)
Definition out_char (o : out) (c : Z) : out * bool :=
  if error o then (o, false)
  else
    let '(s, ok) := put (ctx o) c in
    if ok : bool then (MkOut s (i32 (count o + 1)) false, true) else (MkOut s (count o) true, false).

Fixpoint out_repeat (o : out) (c : Z) (n : nat) : out * bool :=
  match n with
  | O => (o, true)
  | Datatypes.S n => let '(o, ok) := out_char o c in if ok : bool then out_repeat o c n else (o, false)
  end.

(** [for (i = 0; i < n; ++i) if (out_char(o, s[i]) < 0) return;] *)
Fixpoint out_chars (o : out) (l : list Z) : out * bool :=
  match l with
  | [] => (o, true)
  | c :: l => let '(o, ok) := out_char o c in if ok : bool then out_chars o l else (o, false)
  end.

(** One output step after another, unless the first one failed. *)
Definition and_then (r : out * bool) (f : out -> out * bool) : out * bool :=
  let '(o, ok) := r in if ok : bool then f o else (o, false).

(** ** Digits *)

Definition dig (upper : bool) (d : Z) : Z := if d <? 10 then 48 + d else if upper then 55 + d else 87 + d.

(** [while (v) { tmp[n++] = dig[v % base]; v /= base; }] *)
Fixpoint base_loop (fuel : nat) (v base : Z) (upper : bool) : list Z :=
  match fuel with
  | O => []
  | Datatypes.S fuel => if v =? 0 then [] else dig upper (v mod base) :: base_loop fuel (v / base) base upper
  end.

Definition u64_to_base (v base : Z) (upper : bool) : list Z :=
  if v =? 0 then [48] else rev (base_loop 64 v base upper).

(** ** The directive: flags, width, precision, length *)

Fixpoint read_flags (p : list Z) (fl : Z) : Z * list Z :=
  match p with
  | c :: p' =>
    if c =? 45 then read_flags p' (Z.lor fl F_LEFT)
    else if c =? 48 then read_flags p' (Z.lor fl F_ZERO)
    else if c =? 43 then read_flags p' (Z.lor fl F_PLUS)
    else if c =? 32 then read_flags p' (Z.lor fl F_SPACE)
    else if c =? 35 then read_flags p' (Z.lor fl F_HASH)
    else (fl, p)
  | [] => (fl, [])
  end.

(** [while ( *p >= '0' && *p <= '9')]; a negative number becomes 0 first. *)
Fixpoint read_number (p : list Z) (w : Z) : option (Z * list Z) :=
  match p with
  | c :: p' =>
    if (48 <=? c) && (c <=? 57) then
      let w := if w <? 0 then 0 else w in
      w ← int_ok (w * 10 + (c - 48)); read_number p' w
    else Some (w, p)
  | [] => Some (w, [])
  end.

Definition va_slot (ap : list Z) : option (Z * list Z) :=
  match ap with x :: ap => Some (x, ap) | [] => None end.

Definition read_width (p : list Z) (fl : Z) (ap : list Z) : option (Z * Z * list Z * list Z) :=
  if chr p =? 42 then
    '(x, ap) ← va_slot ap;
    if i32 x <? 0 then w ← int_ok (- i32 x); Some (w, Z.lor fl F_LEFT, tail p, ap)
    else Some (i32 x, fl, tail p, ap)
  else '(w, p) ← read_number p (-1); Some (w, fl, p, ap).

Definition read_prec (p : list Z) (ap : list Z) : option (Z * list Z * list Z) :=
  if chr p =? 46 then
    let p := tail p in
    if chr p =? 42 then
      '(x, ap) ← va_slot ap;
      Some ((if i32 x <? 0 then -1 else i32 x), tail p, ap)
    else '(w, p) ← read_number p 0; Some (w, p, ap)
  else Some (-1, p, ap).

Definition read_length (p : list Z) : length_mod * list Z :=
  let c := chr p in
  if c =? 104 then let p := tail p in if chr p =? 104 then (L_HH, tail p) else (L_H, p)
  else if c =? 108 then let p := tail p in if chr p =? 108 then (L_LL, tail p) else (L_L, p)
  else if c =? 122 then (L_Z, tail p)
  else if c =? 116 then (L_T, tail p)
  else if c =? 106 then (L_J, tail p)
  else (L_NONE, p).

(** ** Conversions *)

(** [va_arg] of the signed and of the unsigned type of a length. *)
Definition va_signed (len : length_mod) (x : Z) : Z :=
  match len with L_HH | L_H | L_NONE => i32 x | _ => i64 x end.
Definition va_unsigned (len : length_mod) (x : Z) : Z :=
  match len with L_HH | L_H | L_NONE => u32 x | _ => u64 x end.

(** The text built for a numeric conversion: [body], [headlen], [zero_ok]. *)
Record numeric := MkNum { body : list Z; headlen : Z; zero_ok : bool }.

Definition pointer_body (x : Z) : numeric :=
  MkNum ([48; 120] ++ u64_to_base (u64 x) 16 false) 2 true.

Definition integer_body (conv : Z) (fl prec : Z) (len : length_mod) (x : Z) : numeric :=
  let is_signed := (conv =? 100) || (conv =? 105) in
  let sv := va_signed len x in
  let negative := is_signed && (sv <? 0) in
  let uval := if is_signed then (if sv <? 0 then u64 (- (sv + 1) + 1) else sv) else va_unsigned len x in
  let base := if conv =? 111 then 8 else if (conv =? 117) || (conv =? 100) || (conv =? 105) then 10 else 16 in
  let upper := conv =? 88 in
  let sign := if negative then [45] else if flag fl F_PLUS && is_signed then [43]
              else if flag fl F_SPACE && is_signed then [32] else [] in
  let prefix := if flag fl F_HASH && negb (uval =? 0) then
                  if base =? 16 then [48; if upper then 88 else 120] else if base =? 8 then [48] else []
                else [] in
  let head := sign ++ prefix in
  let digits := u64_to_base uval base upper in
  if 0 <=? prec then
    if (prec =? 0) && (uval =? 0) then MkNum head (zlen head) false
    else if zlen digits <? prec then MkNum (head ++ replicate (Z.to_nat (prec - zlen digits)) 48 ++ digits) (zlen head) false
    else MkNum (head ++ digits) (zlen head) false
  else MkNum (head ++ digits) (zlen head) true.

Definition is_integer_conv (conv : Z) : bool :=
  (conv =? 100) || (conv =? 105) || (conv =? 117) || (conv =? 120) || (conv =? 88) || (conv =? 111).

(** [char body[96]]: a longer text is written past the array. *)
Definition in_body (b : numeric) : option numeric := if zlen (body b) <=? 96 then Some b else None.

Definition numeric_conv (conv : Z) (fl prec : Z) (len : length_mod) (ap : list Z) : option (numeric * list Z) :=
  if conv =? 112 then '(x, ap) ← va_slot ap; b ← in_body (pointer_body x); Some (b, ap)
  else if is_integer_conv conv then '(x, ap) ← va_slot ap; b ← in_body (integer_body conv fl prec len x); Some (b, ap)
  else b ← in_body (MkNum [37; conv] 0 true); Some (b, ap).

Definition put_padded (o : out) (fl width : Z) (text : list Z) : out * bool :=
  let pad := Z.to_nat (if zlen text <? width then width - zlen text else 0) in
  if flag fl F_LEFT then and_then (out_chars o text) (fun o => out_repeat o 32 pad)
  else and_then (out_repeat o 32 pad) (fun o => out_chars o text).

Definition put_numeric (o : out) (fl width : Z) (b : numeric) : out * bool :=
  let pad := Z.to_nat (if zlen (body b) <? width then width - zlen (body b) else 0) in
  if negb (flag fl F_LEFT) && (flag fl F_ZERO && zero_ok b) then
    and_then (out_chars o (take (Z.to_nat (headlen b)) (body b))) (fun o =>
      and_then (out_repeat o 48 pad) (fun o => out_chars o (drop (Z.to_nat (headlen b)) (body b))))
  else put_padded o fl width (body b).

Definition nul_text : list Z := [40; 110; 117; 108; 108; 41].

Definition string_text (strs : Z -> list Z) (prec x : Z) : list Z :=
  let s := if u64 x =? 0 then nul_text else cstr (strs (u64 x)) in
  if (0 <=? prec) && (prec <? zlen s) then take (Z.to_nat prec) s else s.

(** One conversion: the sink after it, and the arguments left. *)
Definition convert (strs : Z -> list Z) (o : out) (conv fl width prec : Z) (len : length_mod) (ap : list Z)
  : option (out * bool * list Z) :=
  if conv =? 37 then Some (out_char o 37, ap)
  else if conv =? 99 then '(x, ap) ← va_slot ap; Some (put_padded o fl width [i32 x], ap)
  else if conv =? 115 then '(x, ap) ← va_slot ap; Some (put_padded o fl width (string_text strs prec x), ap)
  else '(b, ap) ← numeric_conv conv fl prec len ap; Some (put_numeric o fl width b, ap).

(** Every turn of the loop consumes a character of the format. *)
Fixpoint format_loop (fuel : nat) (strs : Z -> list Z) (o : out) (p ap : list Z) : option out :=
  match fuel with
  | O => None
  | Datatypes.S fuel =>
    let c := chr p in
    if c =? 0 then Some o
    else if negb (c =? 37) then
      let '(o, ok) := out_char o c in
      if ok : bool then format_loop fuel strs o (tail p) ap else Some o
    else
      let '(fl, p) := read_flags (tail p) 0 in
      '(width, fl, p, ap) ← read_width p fl ap;
      '(prec, p, ap) ← read_prec p ap;
      let '(len, p) := read_length p in
      let conv := chr p in
      if conv =? 0 then Some o
      else
        '(o, ok, ap) ← convert strs o conv fl width prec len ap;
        if ok : bool then format_loop fuel strs o (tail p) ap else Some o
  end.

Definition format_core (strs : Z -> list Z) (o : out) (fmt ap : list Z) : option out :=
  format_loop (Datatypes.S (length fmt)) strs o fmt ap.
End sink.
Arguments out : clear implicits.
Arguments MkOut {S}.

(** ** The buffer sink *)

Record buf_sink := MkBuf { sbuf : list Z; cap : Z; pos : Z }.

Definition buf_sink_put (b : buf_sink) (c : Z) : buf_sink * bool :=
  (MkBuf (if u64 (pos b + 1) <? cap b then zset (sbuf b) (pos b) (u8 c) else sbuf b) (cap b) (u64 (pos b + 1)), true).

(** The buffer afterwards and the result. *)
Definition vsnprintf (strs : Z -> list Z) (buf : list Z) (n : Z) (fmt ap : list Z) : option (list Z * Z) :=
  o ← format_core buf_sink_put strs (MkOut (MkBuf buf n 0) 0 false) fmt ap;
  let b := ctx o in
  Some ((if 0 <? n then zset (sbuf b) (if pos b <? n then pos b else n - 1) 0 else sbuf b), count o).

Definition snprintf := vsnprintf.
Definition vsprintf (strs : Z -> list Z) (buf fmt ap : list Z) : option (list Z * Z) := vsnprintf strs buf (u64 (-1)) fmt ap.
Definition sprintf := vsprintf.

(** ** The descriptor sink *)

Section fd.
Context {W : Type} (write : Z -> list Z -> W -> Z * W).

(** [fd_buf] up to [fd_buf_n], [fd_buf_err], and what [write] acts on. *)
Record fd_state := MkFd { fd_buf : list Z; fd_buf_err : bool; world : W }.

Definition fd_flush (fd : Z) (s : fd_state) : fd_state * bool :=
  if zlen (fd_buf s) =? 0 then (s, negb (fd_buf_err s))
  else
    let '(w, wd) := write fd (fd_buf s) (world s) in
    if negb (w =? zlen (fd_buf s)) then (MkFd [] true wd, false) else (MkFd [] (fd_buf_err s) wd, true).

Definition fd_sink_put (fd : Z) (s : fd_state) (c : Z) : fd_state * bool :=
  let '(s, ok) := if FD_BUF_SZ <=? zlen (fd_buf s) then fd_flush fd s else (s, true) in
  if negb ok then (s, false)
  else
    let s := MkFd (fd_buf s ++ [u8 c]) (fd_buf_err s) (world s) in
    if c =? 10 then fd_flush fd s else (s, true).

Definition STDOUT_FILENO : Z := 1.
Definition STDERR_FILENO : Z := 2.

Definition vprintf (strs : Z -> list Z) (fmt ap : list Z) (s : fd_state) : option (Z * fd_state) :=
  let s := MkFd (fd_buf s) false (world s) in
  o ← format_core (fd_sink_put STDOUT_FILENO) strs (MkOut s 0 false) fmt ap;
  let s := if error o then ctx o else fst (fd_flush STDOUT_FILENO (ctx o)) in
  Some ((if error o || fd_buf_err s then -1 else count o), s).

Definition printf := vprintf.

Definition putchar (c : Z) (w : W) : Z * W :=
  let b := u8 c in
  let '(r, w) := write STDOUT_FILENO [b] w in
  ((if negb (r =? 1) then EOF else b), w).

(** [while ( *s) if (putchar( *s++) == EOF) return EOF;] *)
Fixpoint puts_loop (s : list Z) (w : W) : bool * W :=
  match s with
  | c :: s =>
    if c =? 0 then (true, w)
    else let '(r, w) := putchar c w in if r =? EOF then (false, w) else puts_loop s w
  | [] => (true, w)
  end.

Definition puts (s : list Z) (w : W) : Z * W :=
  let '(ok, w) := puts_loop s w in
  if negb ok then (EOF, w)
  else let '(r, w) := putchar 10 w in ((if r =? EOF then EOF else 0), w).

(** [None]: the null pointer. *)
Definition perror (err : Z) (s : option (list Z)) (w : W) : W :=
  let msg := cstr (strerror err) in
  let '(ok, w) :=
    match s with
    | Some s =>
      if chr s =? 0 then (true, w)
      else
        let t := cstr s in
        let '(r, w) := write STDERR_FILENO t w in
        if negb (r =? zlen t) then (false, w)
        else let '(r, w) := write STDERR_FILENO [58; 32] w in (r =? 2, w)
    | None => (true, w)
    end in
  if negb ok then w
  else
    let '(r, w) := write STDERR_FILENO msg w in
    if negb (r =? zlen msg) then w else snd (write STDERR_FILENO [10] w).
End fd.
Arguments fd_state : clear implicits.
Arguments MkFd {W}.

(** ** What a format says

    A format is a list of items; [print_items] writes it as a C string, and
    [text_of] says what it stands for, from the values of the arguments.  Digits
    and conversion letters are given as text, and the value of an argument by the
    number of bits of its type, all apart from the code. *)

Inductive field := FNone | FNum (n : Z) | FStar.

Inductive item :=
| Lit (c : Z)
| Percent
| Dir (fl : list Z) (w pr : field) (len : length_mod) (conv : Z).

Definition digit_char (upper : bool) (d : Z) : Z := zget 0 (byte_list (if upper then "0123456789ABCDEF" else "0123456789abcdef")) d.

(** The digits of [v], most significant first. *)
Fixpoint numeral (fuel : nat) (base : Z) (upper : bool) (v : Z) : list Z :=
  match fuel with
  | O => []
  | S fuel => if v <? base then [digit_char upper v] else numeral fuel base upper (v / base) ++ [digit_char upper (v mod base)]
  end.

Notation num base upper v := (numeral 64 base upper v).

Definition print_field (f : field) : list Z :=
  match f with FNone => [] | FNum n => num 10 false n | FStar => [42] end.

Definition print_len (l : length_mod) : list Z :=
  match l with
  | L_NONE => [] | L_HH => [104; 104] | L_H => [104] | L_L => [108] | L_LL => [108; 108]
  | L_Z => [122] | L_T => [116] | L_J => [106]
  end.

Definition print_item (i : item) : list Z :=
  match i with
  | Lit c => [c]
  | Percent => [37; 37]
  | Dir fl w pr len conv =>
    [37] ++ fl ++ print_field w ++ (match pr with FNone => [] | _ => 46 :: print_field pr end) ++ print_len len ++ [conv]
  end.

Definition print_items (its : list item) : list Z := mjoin (print_item <$> its) ++ [0].

Definition is_flag (c : Z) : bool := (c =? 45) || (c =? 48) || (c =? 43) || (c =? 32) || (c =? 35).
Definition is_conv (c : Z) : bool := bool_decide (c ∈ byte_list "cspdiuoxX").
Definition int_conv (c : Z) : bool := bool_decide (c ∈ byte_list "diuoxX").

Definition item_ok (i : item) : Prop :=
  match i with
  | Lit c => c <> 0 /\ c <> 37
  | Percent => True
  | Dir fl w pr len conv =>
    Forall (fun c => is_flag c = true) fl /\ is_conv conv = true /\
    (match w with FNum n => 1 <= n < 2 ^ 31 | _ => True end) /\
    (match pr with FNum n => 0 <= n < 2 ^ 31 | _ => True end)
  end.

(** [w] columns: [t] and blanks. *)
Definition padded (left : bool) (w : Z) (t : list Z) : list Z :=
  let blanks := replicate (Z.to_nat (w - zlen t)) 32 in
  if left then t ++ blanks else blanks ++ t.

(** [w] columns of a number: blanks, or zeros after the sign and the prefix. *)
Definition padded_number (left zero : bool) (w : Z) (head digits : list Z) : list Z :=
  if negb left && zero then head ++ replicate (Z.to_nat (w - zlen (head ++ digits))) 48 ++ digits
  else padded left w (head ++ digits).

(** The sign and the prefix of the value [v], and its digits with at least [pr] of them. *)
Definition integer_text (fl : list Z) (conv : Z) (pr : option Z) (v : Z) : list Z * list Z :=
  let signed := (conv =? 100) || (conv =? 105) in
  let base := if conv =? 111 then 8 else if (conv =? 120) || (conv =? 88) then 16 else 10 in
  let sign := if v <? 0 then [45] else if bool_decide (43 ∈ fl) && signed then [43]
              else if bool_decide (32 ∈ fl) && signed then [32] else [] in
  let prefix := if bool_decide (35 ∈ fl) && negb (v =? 0) then
                  if conv =? 120 then [48; 120] else if conv =? 88 then [48; 88] else if conv =? 111 then [48] else []
                else [] in
  let digits := num base (conv =? 88) (Z.abs v) in
  (sign ++ prefix,
   match pr with
   | None => digits
   | Some k => if (k =? 0) && (v =? 0) then [] else replicate (Z.to_nat (k - zlen digits)) 48 ++ digits
   end).

(** A width or precision taken from the arguments. *)
Definition field_arg (f : field) (ap : list Z) : option (option Z * list Z) :=
  match f with
  | FNone => Some (None, ap)
  | FNum n => Some (Some n, ap)
  | FStar => match ap with x :: ap => Some (Some (i32 x), ap) | [] => None end
  end.

(** The bits of the type a length modifier names, and the value of that type in an argument. *)
Definition len_bits (len : length_mod) : Z := match len with L_HH => 8 | L_H => 16 | L_NONE => 32 | _ => 64 end.
Definition bits_value (signed : bool) (bits x : Z) : Z := if signed then (x + 2 ^ (bits - 1)) mod 2 ^ bits - 2 ^ (bits - 1) else x mod 2 ^ bits.
Definition conv_signed (conv : Z) : bool := bool_decide (conv ∈ byte_list "di").

(** The argument of an integer conversion, passed as at least an [int], lies in the type named. *)
Definition arg_fits (conv : Z) (len : length_mod) (x : Z) : bool :=
  negb (int_conv conv) || (bits_value (conv_signed conv) (len_bits len) x =? bits_value (conv_signed conv) (Z.max 32 (len_bits len)) x).

(** The longest precision of a number that [body] has room for. *)
Definition max_prec : Z := 93.

(** The text of a directive with its argument [x]. *)
Definition value_text (strs : Z -> list Z) (fl : list Z) (left : bool) (w : Z) (pr : option Z) (len : length_mod) (conv x : Z) : list Z :=
  if conv =? 99 then padded left w [i32 x]
  else if conv =? 115 then
    let s := if u64 x =? 0 then byte_list "(null)" else cstr (strs (u64 x)) in
    padded left w (match pr with Some k => take (Z.to_nat k) s | None => s end)
  else if conv =? 112 then padded_number left (bool_decide (48 ∈ fl)) w [48; 120] (num 16 false (u64 x))
  else
    let '(head, digits) :=
      integer_text fl conv pr (bits_value (conv_signed conv) (len_bits len) x) in
    padded_number left (bool_decide (48 ∈ fl) && bool_decide (pr = None)) w head digits.

(** [None]: too few arguments, a width of [INT_MIN], the precision of a number above
    [max_prec], an argument of [%hhd] or [%hd] and the like outside its type. *)
Definition item_text (strs : Z -> list Z) (i : item) (ap : list Z) : option (list Z * list Z) :=
  match i with
  | Lit c => Some ([c], ap)
  | Percent => Some ([37], ap)
  | Dir fl w pr len conv =>
    '(w, ap) ← field_arg w ap;
    '(pr, ap) ← field_arg pr ap;
    let left := bool_decide (45 ∈ fl) || (default 0 w <? 0) in
    let pr := match pr with Some k => if k <? 0 then None else Some k | None => None end in
    if (default 0 w =? - 2 ^ 31) || (int_conv conv && (max_prec <? default 0 pr)) then None
    else match ap with x :: ap => if arg_fits conv len x then Some (value_text strs fl left (Z.abs (default 0 w)) pr len conv x, ap) else None | [] => None end
  end.

Fixpoint text_of (strs : Z -> list Z) (its : list item) (ap : list Z) : option (list Z) :=
  match its with
  | [] => Some []
  | i :: its => '(t, ap) ← item_text strs i ap; t' ← text_of strs its ap; Some (t ++ t')
  end.

(** ** Digits *)

Lemma dig_char up d : 0 <= d < 16 -> dig up d = digit_char up d.
Proof.
  intros Hd. assert (forallb (fun d => (dig true d =? digit_char true d) && (dig false d =? digit_char false d)) (seqZ 0 16) = true) as A by (vm_compute; reflexivity).
  rewrite forallb_forall in A. specialize (A d). rewrite andb_true_iff, !Z.eqb_eq in A. destruct A as [A1 A2]; [apply list_elem_of_In, elem_of_seqZ; lia|]. by destruct up.
Qed.

Lemma base_loop_numeral n base up v : 2 <= base <= 16 -> 0 < v < 2 ^ Z.of_nat n -> rev (base_loop n v base up) = numeral n base up v.
Proof.
  intros Hb. revert v. induction n as [|n IH]; intros v Hv; [simpl in Hv; lia|].
  cbn [base_loop numeral]. destruct (Z.eqb_spec v 0); [lia|]. cbn [rev]. pose proof (Z.mod_pos_bound v base ltac:(lia)). rewrite dig_char by lia.
  destruct (Z.ltb_spec v base) as [Hl|Hl].
  - rewrite Z.mod_small, Z.div_small by lia. by destruct n.
  - rewrite Nat2Z.inj_succ, Z.pow_succ_r in Hv by lia. rewrite IH; [done|].
    split; [apply Z.div_str_pos; lia|]. apply Z.div_lt_upper_bound; nia.
Qed.

Lemma u64_to_base_num base up v : 2 <= base <= 16 -> 0 <= v < 2 ^ 64 -> u64_to_base v base up = num base up v.
Proof.
  intros Hb Hv. unfold u64_to_base. destruct (Z.eqb_spec v 0) as [->|].
  - cbn [numeral]. destruct (Z.ltb_spec 0 base); [by destruct up|lia].
  - apply base_loop_numeral; [done|]. change (2 ^ Z.of_nat 64) with (2 ^ 64). lia.
Qed.

Lemma numeral_length n base up v k : 2 <= base -> 0 <= v < base ^ (Z.of_nat k + 1) -> zlen (numeral n base up v) <= Z.of_nat k + 1.
Proof.
  intros Hb. revert v k. unfold zlen. induction n as [|n IH]; intros v k Hv; [simpl; lia|].
  cbn [numeral]. destruct (Z.ltb_spec v base); [simpl; lia|]. destruct k as [|k]; [rewrite Z.pow_1_r in Hv; lia|].
  rewrite length_app. cbn [length]. specialize (IH (v / base) k). rewrite Nat2Z.inj_succ in *.
  replace (Z.succ (Z.of_nat k) + 1) with (Z.of_nat k + 1 + 1) in Hv by lia. rewrite Z.pow_add_r, Z.pow_1_r in Hv by lia.
  enough (Z.of_nat (length (numeral n base up (v / base))) <= Z.of_nat k + 1) by lia.
  apply IH. split; [apply Z.div_pos; lia|apply Z.div_lt_upper_bound; lia].
Qed.

Lemma num_length base up v : 8 <= base -> 0 <= v < 2 ^ 64 -> zlen (num base up v) <= 22.
Proof.
  intros Hb Hv. apply (numeral_length 64 base up v 21); [lia|]. split; [lia|]. apply Z.lt_le_trans with (8 ^ 22); [lia|].
  apply Z.pow_le_mono_l. lia.
Qed.

Definition is_digit (c : Z) : bool := (48 <=? c) && (c <=? 57).

(** The value of a string of decimal digits after [acc]. *)
Definition dec_val (acc : Z) (ds : list Z) : Z := foldl (fun a c => a * 10 + (c - 48)) acc ds.

Lemma num_dec v : 0 <= v < 2 ^ 64 -> Forall (fun c => is_digit c = true) (num 10 false v) /\ dec_val 0 (num 10 false v) = v /\ num 10 false v <> [].
Proof.
  assert (forall n v, (0 < n)%nat -> 0 <= v < 10 ^ Z.of_nat n -> Forall (fun c => is_digit c = true) (numeral n 10 false v) /\
    dec_val 0 (numeral n 10 false v) = v /\ numeral n 10 false v <> []) as G; [|intros Hv; apply G; [lia|]; lia].
  clear v. intros n. induction n as [|n IH]; intros v Hn Hv; [lia|]. cbn [numeral].
  assert (forall d, 0 <= d < 10 -> digit_char false d = 48 + d) as Dg by (intros d Hd; rewrite <- dig_char by lia; unfold dig; destruct (Z.ltb_spec d 10); lia).
  assert (forall d, 0 <= d < 10 -> is_digit (48 + d) = true) as Di by (intros d Hd; unfold is_digit; apply andb_true_intro; split; apply Z.leb_le; lia).
  destruct (Z.ltb_spec v 10) as [Hl|Hl].
  - rewrite Dg by lia. split_and!; [constructor; [apply Di; lia|constructor]|unfold dec_val; simpl; lia|done].
  - rewrite Nat2Z.inj_succ, Z.pow_succ_r in Hv by lia. destruct n as [|n]; [simpl in Hv; lia|].
    destruct (IH (v / 10)) as (I1 & I2 & I3); [lia|split; [apply Z.div_pos; lia|apply Z.div_lt_upper_bound; lia]|].
    pose proof (Z.mod_pos_bound v 10 ltac:(lia)). rewrite Dg by lia. split_and!.
    + apply Forall_app. split; [done|]. constructor; [apply Di; lia|constructor].
    + unfold dec_val in *. rewrite foldl_app, I2. cbn [foldl]. Z.div_mod_to_equations. lia.
    + by destruct (numeral (S n) 10 false (v / 10)).
Qed.

(** ** Reading a directive *)

Lemma dec_val_mono ds acc : Forall (fun c => is_digit c = true) ds -> 0 <= acc -> acc <= dec_val acc ds.
Proof.
  revert acc. induction ds as [|c ds IH]; intros acc H Ha; [unfold dec_val; simpl; lia|]. apply Forall_cons in H as [Hc H].
  unfold is_digit in Hc. zb. unfold dec_val in *. cbn [foldl]. specialize (IH (acc * 10 + (c - 48)) H ltac:(lia)). lia.
Qed.

Lemma read_number_spec ds rest acc :
  Forall (fun c => is_digit c = true) ds -> is_digit (chr rest) = false -> 0 <= acc -> dec_val acc ds < 2 ^ 31 ->
  read_number (ds ++ rest) acc = Some (dec_val acc ds, rest).
Proof.
  revert acc. induction ds as [|c ds IH]; intros acc H Hr Ha Hv.
  - simpl. destruct rest as [|c rest]; [done|]. unfold chr, zget, is_digit in Hr. simpl in Hr. cbn [read_number]. by rewrite Hr.
  - apply Forall_cons in H as [Hc H]. cbn [app read_number]. unfold is_digit in Hc. rewrite Hc. zb.
    assert (dec_val acc (c :: ds) = dec_val (acc * 10 + (c - 48)) ds) as E by done. rewrite E in *.
    pose proof (dec_val_mono ds (acc * 10 + (c - 48)) H ltac:(lia)).
    destruct (Z.ltb_spec acc 0); [lia|]. unfold int_ok.
    destruct (Z.leb_spec (- 2 ^ 31) (acc * 10 + (c - 48))); [|lia]. destruct (Z.ltb_spec (acc * 10 + (c - 48)) (2 ^ 31)); [|lia].
    cbn [andb mbind option_bind]. apply IH; (done || lia).
Qed.

(** A leading -1 counts as 0 once there is a digit. *)
Lemma read_number_neg c p : is_digit c = true -> read_number (c :: p) (-1) = read_number (c :: p) 0.
Proof. intros H. unfold is_digit in H. cbn [read_number]. by rewrite H. Qed.

Definition bit_of (c : Z) : Z :=
  if c =? 45 then F_LEFT else if c =? 48 then F_ZERO else if c =? 43 then F_PLUS else if c =? 32 then F_SPACE else F_HASH.

Lemma read_flags_spec fl rest f : Forall (fun c => is_flag c = true) fl -> is_flag (chr rest) = false ->
  read_flags (fl ++ rest) f = (foldl (fun f c => Z.lor f (bit_of c)) f fl, rest).
Proof.
  revert f. induction fl as [|c fl IH]; intros f H Hr.
  - destruct rest as [|c rest]; [done|]. unfold chr, zget, is_flag in Hr. simpl in Hr.
    cbn [app read_flags foldl]. repeat (apply orb_false_elim in Hr as [Hr ->] || rewrite Hr). done.
  - apply Forall_cons in H as [Hc H]. cbn [app read_flags foldl]. unfold is_flag in Hc. rewrite <- IH by done. unfold bit_of.
    repeat (case_match; try done).
Qed.

Lemma flag_bits fl f k c : Forall (fun c => is_flag c = true) fl ->
  In (k, c) [(0, 45); (1, 48); (2, 43); (3, 32); (4, 35)] ->
  flag (foldl (fun f c => Z.lor f (bit_of c)) f fl) (2 ^ k) = flag f (2 ^ k) || bool_decide (c ∈ fl).
Proof.
  intros H Hk. assert (0 <= k) as K0 by (simpl in Hk; naive_solver lia).
  assert (forall x, flag x (2 ^ k) = Z.testbit x k) as Ft.
  { intros x. unfold flag. by rewrite land_pow2_eqb, negb_involutive by done. }
  rewrite !Ft. revert f. induction fl as [|d fl IH]; intros f; [simpl; by rewrite orb_false_r|].
  apply Forall_cons in H as [Hd H]. cbn [foldl]. rewrite IH, Z.lor_spec by done.
  assert (Z.testbit (bit_of d) k = bool_decide (c = d)) as ->.
  { unfold is_flag in Hd. assert (d = 45 \/ d = 48 \/ d = 43 \/ d = 32 \/ d = 35) as Hd' by (repeat (apply orb_prop in Hd as [Hd|Hd]); zb; auto).
    simpl in Hk. destruct Hd' as [->|[->|[->|[->| ->]]]]; destruct Hk as [[= <- <-]|[[= <- <-]|[[= <- <-]|[[= <- <-]|[[= <- <-]|[]]]]]]; reflexivity. }
  rewrite <- orb_assoc. f_equal. rewrite <- bool_decide_or. apply bool_decide_ext. by rewrite elem_of_cons.
Qed.

(** A character that ends flags, numbers and stars. *)
Definition plain (c : Z) : Prop := is_flag c = false /\ is_digit c = false /\ c <> 42.

Lemma int_conv_eq c : int_conv c = is_integer_conv c.
Proof.
  unfold int_conv, is_integer_conv. change (byte_list "diuoxX") with [100; 105; 117; 111; 120; 88]. apply eq_true_iff_eq.
  rewrite bool_decide_eq_true, !orb_true_iff, !Z.eqb_eq, !elem_of_cons, elem_of_nil. tauto.
Qed.

Lemma is_conv_cases c : is_conv c = true -> c = 99 \/ c = 115 \/ c = 112 \/ is_integer_conv c = true.
Proof.
  unfold is_conv. change (byte_list "cspdiuoxX") with [99; 115; 112; 100; 105; 117; 111; 120; 88]. rewrite bool_decide_eq_true, !elem_of_cons, elem_of_nil.
  unfold is_integer_conv. rewrite !orb_true_iff, !Z.eqb_eq. tauto.
Qed.

Lemma integer_conv_cases c : is_integer_conv c = true -> c = 100 \/ c = 105 \/ c = 117 \/ c = 120 \/ c = 88 \/ c = 111.
Proof. unfold is_integer_conv. intros H. repeat (apply orb_prop in H as [H|H]); zb; tauto. Qed.

Ltac conv_cases H :=
  apply is_conv_cases in H as [->|[->|[->|H]]];
  [| | |apply integer_conv_cases in H as [->|[->|[->|[->|[->| ->]]]]]].

Lemma len_conv_plain len conv rest : is_conv conv = true -> plain (chr (print_len len ++ conv :: rest)) /\ chr (print_len len ++ conv :: rest) <> 46.
Proof. intros H. destruct len; try (by split_and!); unfold chr, zget; simpl; by conv_cases H. Qed.

Lemma read_length_spec len conv rest : is_conv conv = true -> read_length (print_len len ++ conv :: rest) = (len, conv :: rest).
Proof. intros H. destruct len; try done; by conv_cases H. Qed.

Lemma num_head v rest : 1 <= v < 2 ^ 64 -> exists c ds, num 10 false v = c :: ds /\ chr (num 10 false v ++ rest) = c /\ 49 <= c <= 57.
Proof.
  assert (forall n v, 1 <= v < 10 ^ Z.of_nat n -> exists c ds, numeral n 10 false v = c :: ds /\ 49 <= c <= 57) as G.
  { intros n. induction n as [|n IH]; intros w Hw; [simpl in Hw; lia|]. cbn [numeral]. destruct (Z.ltb_spec w 10).
    - exists (digit_char false w), []. split; [done|]. rewrite <- dig_char by lia. unfold dig. destruct (Z.ltb_spec w 10); lia.
    - rewrite Nat2Z.inj_succ, Z.pow_succ_r in Hw by lia.
      destruct (IH (w / 10)) as (c & ds & -> & Hc); [split; [apply Z.div_le_lower_bound; lia|apply Z.div_lt_upper_bound; lia]|].
      by exists c, (ds ++ [digit_char false (w mod 10)]). }
  intros Hv. destruct (G 64%nat v) as (c & ds & E & Hc); [lia|]. exists c, ds. rewrite E. done.
Qed.

(** What the code keeps of a width: -1 when there is none. *)
Definition width_val (w : option Z) : Z := match w with None => -1 | Some k => Z.abs k end.

Lemma read_width_spec w rest fl ap wo ap' :
  (match w with FNum n => 1 <= n < 2 ^ 31 | _ => True end) -> plain (chr rest) ->
  field_arg w ap = Some (wo, ap') -> default 0 wo <> - 2 ^ 31 ->
  read_width (print_field w ++ rest) fl ap = Some (width_val wo, (if default 0 wo <? 0 then Z.lor fl F_LEFT else fl), rest, ap').
Proof.
  intros Hw (_ & Hd & Hs) E Hm. unfold read_width. destruct w as [|n|]; cbn [print_field field_arg] in *.
  - injection E as <- <-. cbn [app]. destruct (Z.eqb_spec (chr rest) 42); [done|].
    destruct rest as [|c rest]; [done|]. unfold chr, zget, is_digit in Hd. simpl in Hd. cbn [read_number]. by rewrite Hd.
  - injection E as <- <-. destruct (num_head n rest ltac:(lia)) as (c & ds & En & Ec & Hc). rewrite Ec.
    destruct (Z.eqb_spec c 42); [lia|]. destruct (num_dec n ltac:(lia)) as (N1 & N2 & N3).
    assert (is_digit c = true) as Dc by (unfold is_digit; apply andb_true_intro; split; apply Z.leb_le; lia).
    pose proof (read_number_spec (num 10 false n) rest 0 N1 Hd ltac:(lia) ltac:(lia)) as R. rewrite N2 in R.
    rewrite En in R |- *. cbn [app] in *. rewrite read_number_neg, R by done. cbn [mbind option_bind width_val].
    change (default 0 (Some n)) with n.
    destruct (Z.ltb_spec n 0); [lia|]. by rewrite Z.abs_eq by lia.
  - destruct ap as [|x ap]; [done|]. injection E as <- <-. change (chr ([42] ++ rest) =? 42) with true. cbv iota.
    cbn [va_slot mbind option_bind tail app]. change (default 0 (Some (i32 x))) with (i32 x) in *. cbn [width_val].
    assert (- 2 ^ 31 <= i32 x < 2 ^ 31) by (unfold i32; pose proof (Z.mod_pos_bound (x + 2 ^ 31) (2 ^ 32)); lia).
    destruct (Z.ltb_spec (i32 x) 0); [|by rewrite Z.abs_eq by lia]. unfold int_ok.
    destruct (Z.leb_spec (- 2 ^ 31) (- i32 x)); [|lia]. destruct (Z.ltb_spec (- i32 x) (2 ^ 31)); [|lia].
    cbn [andb mbind option_bind]. by rewrite Z.abs_neq by lia.
Qed.

(** A precision: none when negative. *)
Definition prec_of (k : option Z) : option Z := match k with Some k => if k <? 0 then None else Some k | None => None end.
Definition prec_val (k : option Z) : Z := default (-1) k.

Lemma read_prec_spec pr rest ap po ap' :
  (match pr with FNum n => 0 <= n < 2 ^ 31 | _ => True end) -> plain (chr rest) -> chr rest <> 46 ->
  field_arg pr ap = Some (po, ap') ->
  read_prec ((match pr with FNone => [] | _ => 46 :: print_field pr end) ++ rest) ap = Some (prec_val (prec_of po), rest, ap').
Proof.
  intros Hp (_ & Hd & Hs) H46 E. unfold read_prec. destruct pr as [|n|]; cbn [print_field field_arg] in *.
  - injection E as <- <-. cbn [app]. by destruct (Z.eqb_spec (chr rest) 46).
  - injection E as <- <-. change (chr ((46 :: num 10 false n) ++ rest) =? 46) with true. cbv iota. cbn [app tail].
    destruct (num_dec n ltac:(lia)) as (N1 & N2 & N3).
    pose proof (read_number_spec (num 10 false n) rest 0 N1 Hd ltac:(lia) ltac:(lia)) as R. rewrite N2 in R.
    assert (chr (num 10 false n ++ rest) <> 42) as Hc.
    { destruct (num 10 false n) as [|c ds]; [done|]. unfold chr, zget. simpl. intros ->. by apply Forall_cons in N1 as [N1 _]. }
    destruct (Z.eqb_spec (chr (num 10 false n ++ rest)) 42); [done|]. rewrite R. cbn [mbind option_bind prec_of].
    destruct (Z.ltb_spec n 0); [lia|done].
  - destruct ap as [|x ap]; [done|]. injection E as <- <-. change (chr ([46; 42] ++ rest) =? 46) with true. cbv iota. cbn [app tail].
    change (chr (42 :: rest) =? 42) with true. cbv iota. cbn [va_slot mbind option_bind prec_of]. by destruct (i32 x <? 0).
Qed.

(** ** Output *)

Section output.
Context {S : Type} (put : S -> Z -> S * bool).
Implicit Types (o : out S).

Lemma out_chars_app o l1 l2 : out_chars put o (l1 ++ l2) = and_then (out_chars put o l1) (fun o => out_chars put o l2).
Proof.
  revert o. induction l1 as [|c l1 IH]; intros o; [done|]. cbn [app out_chars]. destruct (out_char put o c) as [o' [|]]; [apply IH|done].
Qed.

Lemma out_repeat_chars o c n : out_repeat put o c n = out_chars put o (replicate n c).
Proof. revert o. induction n as [|n IH]; intros o; [done|]. cbn [out_repeat replicate out_chars]. destruct (out_char put o c) as [o' [|]]; [apply IH|done]. Qed.

Lemma pad_nat w n : Z.to_nat (if n <? w then w - n else 0) = Z.to_nat (w - n).
Proof. destruct (Z.ltb_spec n w); lia. Qed.

Lemma put_padded_spec o fl w t : put_padded put o fl w t = out_chars put o (padded (flag fl F_LEFT) w t).
Proof.
  unfold put_padded, padded. rewrite pad_nat. destruct (flag fl F_LEFT); rewrite out_chars_app.
  - destruct (out_chars put o t) as [o' [|]]; [apply out_repeat_chars|done].
  - by rewrite out_repeat_chars.
Qed.

Lemma put_numeric_spec o fl w head digits zok :
  put_numeric put o fl w (MkNum (head ++ digits) (zlen head) zok) =
  out_chars put o (padded_number (flag fl F_LEFT) (flag fl F_ZERO && zok) w head digits).
Proof.
  unfold put_numeric, padded_number. cbn [body headlen zero_ok]. destruct (negb (flag fl F_LEFT) && _); [|apply put_padded_spec].
  rewrite pad_nat. unfold zlen at 1 3. rewrite Nat2Z.id, take_app_length, drop_app_length, !out_chars_app.
  destruct (out_chars put o head) as [o1 [|]]; [|done]. cbn [and_then]. by rewrite out_repeat_chars, out_chars_app.
Qed.
End output.

(** ** Numbers *)

(** The flags of the code are those of the directive. *)
Record flags_ok (fl : list Z) (left : bool) (f : Z) : Prop := {
  fo_left : flag f F_LEFT = left;
  fo_zero : flag f F_ZERO = bool_decide (48 ∈ fl);
  fo_plus : flag f F_PLUS = bool_decide (43 ∈ fl);
  fo_space : flag f F_SPACE = bool_decide (32 ∈ fl);
  fo_hash : flag f F_HASH = bool_decide (35 ∈ fl) }.

Lemma flags_ok_spec fl (neg : bool) : Forall (fun c => is_flag c = true) fl ->
  let f := foldl (fun f c => Z.lor f (bit_of c)) 0 fl in
  flags_ok fl (bool_decide (45 ∈ fl) || neg) (if neg then Z.lor f F_LEFT else f).
Proof.
  intros H f. assert (forall k c, In (k, c) [(0, 45); (1, 48); (2, 43); (3, 32); (4, 35)] -> flag f (2 ^ k) = bool_decide (c ∈ fl)) as Fb.
  { intros k c Hk. unfold f. rewrite (flag_bits fl 0 k c H Hk). unfold flag. by rewrite Z.land_0_l. }
  assert (forall k, 0 <= k -> flag (Z.lor f F_LEFT) (2 ^ k) = flag f (2 ^ k) || (k =? 0)) as Fl.
  { intros k Hk. unfold flag. rewrite !land_pow2_eqb, !negb_involutive, Z.lor_spec by done. f_equal. }
  assert (forall k c, In (k, c) [(0, 45); (1, 48); (2, 43); (3, 32); (4, 35)] -> 0 < k ->
    flag (if neg then Z.lor f F_LEFT else f) (2 ^ k) = bool_decide (c ∈ fl)) as G.
  { intros k c Hk H0. rewrite <- (Fb k c Hk). destruct neg; [|done]. rewrite Fl by lia. destruct (Z.eqb_spec k 0); [lia|]. apply orb_false_r. }
  split; [|apply (G 1); simpl; [tauto|lia]|apply (G 2); simpl; [tauto|lia]|apply (G 3); simpl; [tauto|lia]|apply (G 4); simpl; [tauto|lia]].
  destruct neg; [rewrite orb_true_r; exact (eq_trans (Fl 0 ltac:(lia)) (orb_true_r _))|].
  rewrite orb_false_r. apply (Fb 0). simpl. tauto.
Qed.

Lemma va_signed_range len x : - 2 ^ 63 <= va_signed len x < 2 ^ 63.
Proof.
  assert (forall w, 0 < w <= 63 -> - 2 ^ 63 <= (x + 2 ^ w) mod 2 ^ (w + 1) - 2 ^ w < 2 ^ 63) as G.
  { intros w Hw. pose proof (Z.mod_pos_bound (x + 2 ^ w) (2 ^ (w + 1)) ltac:(lia)). rewrite Z.pow_add_r, Z.pow_1_r in * by lia.
    pose proof (Z.pow_le_mono_r 2 w 63 ltac:(lia) ltac:(lia)). lia. }
  destruct len; cbn [va_signed]; first [apply (G 31); lia | apply (G 63); lia].
Qed.

Lemma va_unsigned_range len x : 0 <= va_unsigned len x < 2 ^ 64.
Proof. destruct len; cbn [va_unsigned]; first [apply u64_range | pose proof (u32_range x); lia]. Qed.

(** The argument fetched is the value of the type named, when the argument lies in it. *)
Lemma arg_value_signed conv len x : conv = 100 \/ conv = 105 -> arg_fits conv len x = true -> va_signed len x = bits_value (conv_signed conv) (len_bits len) x.
Proof.
  intros Hc E. assert (conv_signed conv = true /\ int_conv conv = true) as [Es Ei] by (by destruct Hc as [-> | ->]). unfold arg_fits in E. rewrite Es, Ei in E. cbn [negb orb] in E. apply Z.eqb_eq in E.
  rewrite Es, E. by destruct len.
Qed.
Lemma arg_value_unsigned conv len x : is_integer_conv conv = true -> conv <> 100 /\ conv <> 105 -> arg_fits conv len x = true -> va_unsigned len x = bits_value (conv_signed conv) (len_bits len) x.
Proof.
  intros Hi Hc E. unfold arg_fits in E. rewrite int_conv_eq, Hi in E. cbn [negb orb] in E. apply Z.eqb_eq in E.
  assert (conv_signed conv = false) as Es by (by apply integer_conv_cases in Hi as [->|[->|[->|[->|[->| ->]]]]]; try naive_solver). rewrite Es in *. rewrite E. by destruct len.
Qed.

Lemma integer_body_spec conv fl left f pr len x :
  is_integer_conv conv = true -> flags_ok fl left f -> (forall k, pr = Some k -> 0 <= k) -> arg_fits conv len x = true ->
  let '(head, digits) := integer_text fl conv pr (bits_value (conv_signed conv) (len_bits len) x) in
  integer_body conv f (prec_val pr) len x = MkNum (head ++ digits) (zlen head) (bool_decide (pr = None)) /\
  (default 0 pr <= max_prec -> zlen (head ++ digits) <= 96).
Proof.
  intros Hc [_ _ Hp Hsp Hh] Hk Ha. assert (bits_value (conv_signed conv) (len_bits len) x = if (conv =? 100) || (conv =? 105) then va_signed len x else va_unsigned len x) as ->.
  { destruct (Z.eqb_spec conv 100), (Z.eqb_spec conv 105); cbn [orb]; symmetry; first [by apply arg_value_signed; auto|by apply arg_value_unsigned]. }
  unfold integer_body, integer_text. rewrite Hp, Hsp, Hh.
  pose proof (va_signed_range len x) as Rs. pose proof (va_unsigned_range len x) as Ru.
  set (signed := (conv =? 100) || (conv =? 105)). set (sv := va_signed len x) in *. set (v := if signed then sv else va_unsigned len x).
  assert ((if signed then if sv <? 0 then u64 (- (sv + 1) + 1) else sv else va_unsigned len x) = Z.abs v) as ->.
  { unfold v. destruct signed; [|lia]. destruct (Z.ltb_spec sv 0); [|lia]. rewrite u64_small by lia. lia. }
  assert (signed && (sv <? 0) = (v <? 0)) as ->.
  { unfold v. destruct signed; [done|]. cbn [andb]. symmetry. apply Z.ltb_ge. lia. }
  assert (0 <= Z.abs v < 2 ^ 64) as Rv by (unfold v; destruct signed; lia).
  assert ((Z.abs v =? 0) = (v =? 0)) as -> by (destruct (Z.eqb_spec (Z.abs v) 0), (Z.eqb_spec v 0); lia).
  assert ((if conv =? 111 then 8 else if (conv =? 117) || (conv =? 100) || (conv =? 105) then 10 else 16) =
    (if conv =? 111 then 8 else if (conv =? 120) || (conv =? 88) then 16 else 10)) as ->
    by (apply integer_conv_cases in Hc as [->|[->|[->|[->|[->| ->]]]]]; reflexivity).
  set (base := if conv =? 111 then 8 else _). assert (8 <= base <= 16) as Hb by (unfold base; repeat case_match; lia).
  rewrite u64_to_base_num by lia. pose proof (num_length base (conv =? 88) _ (proj1 Hb) Rv) as Hl. set (digits := num base _ _) in *.
  assert ((if bool_decide (35 ∈ fl) && negb (v =? 0) then if base =? 16 then [48; if conv =? 88 then 88 else 120] else if base =? 8 then [48] else [] else []) =
    (if bool_decide (35 ∈ fl) && negb (v =? 0) then if conv =? 120 then [48; 120] else if conv =? 88 then [48; 88] else if conv =? 111 then [48] else [] else [])) as ->.
  { unfold base. apply integer_conv_cases in Hc as [->|[->|[->|[->|[->| ->]]]]]; reflexivity. }
  set (head := _ ++ (if bool_decide (35 ∈ fl) && _ then _ else _)).
  assert (zlen head <= 3) as Hh3. { unfold head. rewrite zlen_app. repeat case_match; unfold zlen; simpl; lia. }
  pose proof (zlen_nonneg digits). destruct pr as [k|].
  - specialize (Hk k eq_refl). change (prec_val (Some k)) with k. change (default 0 (Some k)) with k.
    destruct (Z.leb_spec 0 k); [|lia]. rewrite bool_decide_false by done. unfold max_prec. destruct ((k =? 0) && (v =? 0)); [rewrite app_nil_r; split; [done|lia]|].
    rewrite !zlen_app, zlen_replicate. destruct (Z.ltb_spec (zlen digits) k); (split; [|lia]); [done|].
    by replace (Z.to_nat (k - zlen digits)) with 0%nat by lia.
  - change (prec_val None) with (-1). destruct (Z.leb_spec 0 (-1)); [lia|]. rewrite bool_decide_true by done. rewrite zlen_app. split; [done|lia].
Qed.

Lemma padded_width left w t : padded left (width_val w) t = padded left (Z.abs (default 0 w)) t.
Proof.
  destruct w as [k|]; [done|]. unfold padded. pose proof (zlen_nonneg t). change (width_val None) with (-1). change (Z.abs (default 0 None)) with 0.
  replace (Z.to_nat (-1 - zlen t)) with (Z.to_nat (0 - zlen t)) by lia. done.
Qed.

Lemma padded_number_width left zero w head digits :
  padded_number left zero (width_val w) head digits = padded_number left zero (Z.abs (default 0 w)) head digits.
Proof.
  unfold padded_number. destruct (negb left && zero); [|apply padded_width]. destruct w as [k|]; [done|].
  pose proof (zlen_nonneg (head ++ digits)). change (width_val None) with (-1). change (Z.abs (default 0 None)) with 0.
  by replace (Z.to_nat (-1 - zlen (head ++ digits))) with (Z.to_nat (0 - zlen (head ++ digits))) by lia.
Qed.

Section format.
Context {S : Type} (put : S -> Z -> S * bool) (strs : Z -> list Z).
Implicit Types (o : out S).

Lemma convert_spec o conv fl left f w pr len x ap :
  is_conv conv = true -> flags_ok fl left f -> (forall k, pr = Some k -> 0 <= k) ->
  (is_integer_conv conv = true -> default 0 pr <= max_prec) -> arg_fits conv len x = true ->
  convert put strs o conv f (width_val w) (prec_val pr) len (x :: ap) =
  Some (out_chars put o (value_text strs fl left (Z.abs (default 0 w)) pr len conv x), ap).
Proof.
  intros Hc F Hk Hm Ha. pose proof F as [F1 F2 _ _ _]. apply is_conv_cases in Hc as [->|[->|[->|Hc]]].
  - cbn [convert value_text]. change (convert put strs o 99 f (width_val w) (prec_val pr) len (x :: ap))
      with (Some (put_padded put o f (width_val w) [i32 x], ap)). by rewrite put_padded_spec, F1, padded_width.
  - change (convert put strs o 115 f (width_val w) (prec_val pr) len (x :: ap))
      with (Some (put_padded put o f (width_val w) (string_text strs (prec_val pr) x), ap)).
    rewrite put_padded_spec, F1, padded_width. unfold value_text, string_text. change (115 =? 99) with false. change (115 =? 115) with true. cbv iota. change (byte_list "(null)") with nul_text.
    set (s := if u64 x =? 0 then _ else _). do 3 f_equal. destruct pr as [k|]; [|done]. change (prec_val (Some k)) with k.
    specialize (Hk k eq_refl). destruct (Z.leb_spec 0 k); [|lia]. cbn [andb]. destruct (Z.ltb_spec k (zlen s)); [done|].
    unfold zlen in *. by rewrite take_ge by lia.
  - change (value_text strs fl left (Z.abs (default 0 w)) pr len 112 x)
      with (padded_number left (bool_decide (48 ∈ fl)) (Z.abs (default 0 w)) [48; 120] (num 16 false (u64 x))).
    unfold convert, numeric_conv. change (112 =? 37) with false. change (112 =? 99) with false. change (112 =? 115) with false.
    change (112 =? 112) with true. cbn [va_slot mbind option_bind].
    pose proof (u64_range x) as R. unfold pointer_body. rewrite u64_to_base_num by lia. pose proof (num_length 16 false _ ltac:(lia) R) as Hl.
    unfold in_body. cbn [body]. rewrite zlen_app. change (zlen [48; 120]) with 2. destruct (Z.leb_spec (2 + zlen (num 16 false (u64 x))) 96); [|lia].
    cbn [mbind option_bind]. change 2 with (zlen [48; 120]). by rewrite put_numeric_spec, F1, F2, andb_true_r, padded_number_width.
  - specialize (Hm Hc). pose proof (integer_body_spec conv fl left f pr len x Hc F Hk Ha) as I. unfold value_text.
    assert (conv <> 99 /\ conv <> 115 /\ conv <> 112 /\ conv <> 37) as (N1 & N2 & N3 & N4)
      by (apply integer_conv_cases in Hc as [->|[->|[->|[->|[->| ->]]]]]; done).
    destruct (integer_text _ _ _ _) as [head digits]. destruct I as [Eb Hl]. specialize (Hl Hm).
    unfold convert, numeric_conv. rewrite Hc, (proj2 (Z.eqb_neq _ _) N1), (proj2 (Z.eqb_neq _ _) N2), (proj2 (Z.eqb_neq _ _) N3), (proj2 (Z.eqb_neq _ _) N4).
    cbn [va_slot mbind option_bind]. rewrite Eb. unfold in_body. cbn [body]. destruct (Z.leb_spec (zlen (head ++ digits)) 96); [|lia].
    cbn [mbind option_bind]. by rewrite put_numeric_spec, F1, F2, padded_number_width.
Qed.

Lemma dir_plain w pr len conv rest :
  (match w with FNum n => 1 <= n < 2 ^ 31 | _ => True end) -> is_conv conv = true ->
  let p2 := (match pr with FNone => [] | _ => 46 :: print_field pr end) ++ print_len len ++ conv :: rest in
  plain (chr p2) /\ is_flag (chr (print_field w ++ p2)) = false.
Proof.
  intros Hw Hc. cbv zeta. set (p2 := _ ++ print_len len ++ _).
  assert (plain (chr p2)) as P2 by (unfold p2; destruct pr; [apply len_conv_plain; done|done|done]).
  split; [done|]. destruct w as [|n|]; [apply P2| |done]. destruct (num_head n p2 ltac:(lia)) as (c & ds & _ & E & Hd). cbn [print_field].
  rewrite E. unfold is_flag. destruct (Z.eqb_spec c 45), (Z.eqb_spec c 48), (Z.eqb_spec c 43), (Z.eqb_spec c 32), (Z.eqb_spec c 35); (done || lia).
Qed.

(** The step of the loop on one item. *)
Lemma item_spec i t ap ap' rest fuel o :
  item_ok i -> item_text strs i ap = Some (t, ap') ->
  format_loop put (Datatypes.S fuel) strs o (print_item i ++ rest) ap =
  let '(o', ok) := out_chars put o t in if ok : bool then format_loop put fuel strs o' rest ap' else Some o'.
Proof.
  intros Hi E. destruct i as [c| |fl w pr len conv]; cbn [item_text] in E.
  - destruct Hi as [H0 H37]. injection E as <- <-. cbn [print_item app format_loop out_chars]. change (chr (c :: rest)) with c.
    rewrite (proj2 (Z.eqb_neq _ _) H0), (proj2 (Z.eqb_neq _ _) H37). cbn [negb tail]. by destruct (out_char put o c) as [o' [|]].
  - injection E as <- <-. change (format_loop put (Datatypes.S fuel) strs o (print_item Percent ++ rest) ap)
      with (let '(o', ok) := out_char put o 37 in if ok : bool then format_loop put fuel strs o' rest ap else Some o').
    cbn [out_chars]. by destruct (out_char put o 37) as [o' [|]].
  - destruct Hi as (Hfl & Hc & Hw & Hp).
    destruct (field_arg w ap) as [[wo ap1]|] eqn:Ew; [|done]. cbn [mbind option_bind] in E.
    destruct (field_arg pr ap1) as [[po ap2]|] eqn:Ep; [|done]. cbn [mbind option_bind] in E. change (match po with Some k => if k <? 0 then None else Some k | None => None end) with (prec_of po) in E.
    destruct ((default 0 wo =? - 2 ^ 31) || _) eqn:Eg; [done|]. apply orb_false_elim in Eg as [Ew0 Em]. apply Z.eqb_neq in Ew0.
    destruct ap2 as [|x ap2]; [done|]. destruct (arg_fits conv len x) eqn:Ea; [|done]. injection E as <- <-.
    destruct (dir_plain w pr len conv rest Hw Hc) as [P2 Pf]. destruct (len_conv_plain len conv rest Hc) as [P3 H46].
    cbn [print_item format_loop]. change (chr (([37] ++ ?l) ++ rest)) with 37. rewrite <- !app_assoc. cbn [app].
    change (chr (37 :: ?l)) with 37. change (37 =? 0) with false. change (37 =? 37) with true. cbn [negb tail].
    rewrite (read_flags_spec fl _ 0 Hfl Pf). rewrite (read_width_spec _ _ _ _ _ _ Hw P2 Ew Ew0). cbn [mbind option_bind].
    rewrite (read_prec_spec _ _ _ _ _ Hp P3 H46 Ep). cbn [mbind option_bind]. rewrite (read_length_spec _ _ _ Hc).
    change (chr (conv :: rest)) with conv. assert (conv <> 0) as Hn0 by (by conv_cases Hc). rewrite (proj2 (Z.eqb_neq _ _) Hn0).
    rewrite (convert_spec o conv fl (bool_decide (45 ∈ fl) || (default 0 wo <? 0))); [..|].
    + cbn [mbind option_bind tail]. by destruct (out_chars put o _) as [o' [|]].
    + done.
    + by apply flags_ok_spec.
    + intros k. unfold prec_of. destruct po as [k'|]; [|done]. destruct (Z.ltb_spec k' 0); [done|]. intros [= <-]. lia.
    + intros Hic. rewrite int_conv_eq, Hic in Em. cbn [andb] in Em. by apply Z.ltb_ge in Em.
    + done.
Qed.

Lemma format_items its ap t fuel o :
  Forall item_ok its -> text_of strs its ap = Some t -> (length its < fuel)%nat ->
  format_loop put fuel strs o (print_items its) ap = Some (fst (out_chars put o t)).
Proof.
  intros Hi. revert ap t fuel o. induction Hi as [|i its Hi _ IH]; intros ap t fuel o E Hf; (destruct fuel as [|fuel]; [simpl in Hf; lia|]).
  - injection E as <-. done.
  - cbn [text_of] in E. destruct (item_text strs i ap) as [[t1 ap1]|] eqn:E1; [|done]. cbn [mbind option_bind] in E.
    destruct (text_of strs its ap1) as [t2|] eqn:E2; [|done]. injection E as <-.
    unfold print_items. cbn [fmap list_fmap mjoin list_join]. rewrite <- app_assoc. rewrite (item_spec i t1 ap ap1 _ _ _ Hi E1), out_chars_app.
    destruct (out_chars put o t1) as [o' [|]]; [|done]. cbn [and_then]. apply IH; [done|]. simpl in Hf. lia.
Qed.

Lemma print_items_length its : (length its < Datatypes.S (length (print_items its)))%nat.
Proof.
  unfold print_items. rewrite length_app.
  enough (length its <= length (mjoin (print_item <$> its) : list Z))%nat by lia.
  induction its as [|i its IH]; [done|]. cbn [fmap list_fmap mjoin list_join length]. rewrite length_app.
  assert (1 <= length (print_item i))%nat by (destruct i; simpl; lia).
  set (a := length _) in IH at 2. change (length (mjoin (print_item <$> its))) with a. lia.
Qed.

(** [format_core] sends the text of the format to the sink, until the sink fails. *)
Lemma format_core_spec its ap t o :
  Forall item_ok its -> text_of strs its ap = Some t ->
  format_core put strs o (print_items its) ap = Some (fst (out_chars put o t)).
Proof. intros Hi E. apply format_items; [done|done|apply print_items_length]. Qed.
End format.

(** ** The sinks *)

Lemma i32_count n : 0 <= n < 2 ^ 31 -> i32 n = n.
Proof. intros. apply i32_small. lia. Qed.

(** The buffer sink never fails, and keeps what fits. *)
Lemma buf_chars t buf n p :
  0 <= p -> p + zlen t < 2 ^ 31 -> 0 <= n ->
  exists b, out_chars buf_sink_put (MkOut (MkBuf buf n p) p false) t = (MkOut (MkBuf b n (p + zlen t)) (p + zlen t) false, true) /\
    zlen b = zlen buf /\
    forall j, 0 <= j < zlen buf -> zget 0 b j = if (p <=? j) && (j <? p + zlen t) && (j + 1 <? n) then u8 (zget 0 t (j - p)) else zget 0 buf j.
Proof.
  revert buf p. induction t as [|c t IH]; intros buf p Hp Ht Hn.
  - exists buf. change (zlen []) with 0. rewrite Z.add_0_r. split; [done|]. split; [done|]. intros j Hj.
    destruct (Z.leb_spec p j), (Z.ltb_spec j p); simpl; try done; lia.
  - assert (zlen (c :: t) = 1 + zlen t) as El by (unfold zlen; simpl; lia). rewrite El in *. pose proof (zlen_nonneg t).
    cbn [out_chars]. unfold out_char. cbn [error ctx count].
    change (buf_sink_put (MkBuf buf n p) c) with (MkBuf (if u64 (p + 1) <? n then zset buf p (u8 c) else buf) n (u64 (p + 1)), true).
    cbv iota beta.
    rewrite u64_small, i32_count by lia. set (buf1 := if p + 1 <? n then _ else _).
    assert (zlen buf1 = zlen buf) as Eb by (unfold buf1; case_match; [apply zlen_zset|done]).
    destruct (IH buf1 (p + 1)) as (b & E & L & G); [lia..|]. rewrite E. replace (p + 1 + zlen t) with (p + (1 + zlen t)) in * by lia.
    exists b. split; [done|]. split; [congruence|]. intros j Hj. rewrite G by lia.
    assert (forall i, 0 <= i -> zget 0 (c :: t) (i + 1) = zget 0 t i) as Sh by (intros i Hi; unfold zget; by replace (Z.to_nat (i + 1)) with (S (Z.to_nat i)) by lia).
    destruct (decide (j = p)) as [->|Hne].
    + destruct (Z.leb_spec (p + 1) p); [lia|]. cbn [andb]. destruct (Z.leb_spec p p); [|lia]. destruct (Z.ltb_spec p (p + (1 + zlen t))); [|lia].
      cbn [andb]. unfold buf1. destruct (p + 1 <? n); [|done]. rewrite zget_zset_eq by lia. replace (p - p) with 0 by lia. done.
    + assert (zget 0 buf1 j = zget 0 buf j) as -> by (unfold buf1; case_match; [apply zget_zset_ne; lia|done]).
      destruct (Z.leb_spec (p + 1) j), (Z.leb_spec p j); try lia; [|done]. cbn [andb].
      destruct (Z.ltb_spec j (p + (1 + zlen t))); [|done]. cbn [andb]. destruct (j + 1 <? n); [|done].
      replace (j - p) with ((j - (p + 1)) + 1) by lia. by rewrite Sh by lia.
Qed.

(** The buffer with the string [s] at its start. *)
Definition overwrite (s buf : list Z) : list Z := s ++ drop (length s) buf.

Lemma zget_overwrite s buf j : 0 <= j -> zlen s <= zlen buf -> zget 0 (overwrite s buf) j = if j <? zlen s then zget 0 s j else zget 0 buf j.
Proof.
  intros Hj Hs. unfold overwrite, zget, zlen in *. destruct (Z.ltb_spec j (Z.of_nat (length s))).
  - by rewrite app_nth1 by lia.
  - rewrite app_nth2 by lia. rewrite !nth_lookup, lookup_drop. do 2 f_equal. lia.
Qed.

Lemma zlen_overwrite s buf : zlen s <= zlen buf -> zlen (overwrite s buf) = zlen buf.
Proof. unfold overwrite, zlen. rewrite length_app, length_drop. lia. Qed.

Lemma zget_map_take (t : list Z) k j : 0 <= j < k -> j < zlen t -> zget 0 (u8 <$> take (Z.to_nat k) t) j = u8 (zget 0 t j).
Proof.
  intros Hj Ht. unfold zlen in Ht. rewrite !zget_lookup by lia. rewrite list_lookup_fmap, lookup_take_lt by lia.
  destruct (lookup_lt_is_Some_2 t (Z.to_nat j)) as [x ->]; [lia|]. done.
Qed.

Lemma snprintf_spec (strs : Z -> list Z) (its : list item) (ap t buf : list Z) (n : Z) :
  Forall item_ok its -> text_of strs its ap = Some t -> zlen t < 2 ^ 31 -> 0 <= n <= zlen buf -> n < 2 ^ 64 ->
  snprintf strs buf n (print_items its) ap =
  Some ((if n =? 0 then buf else overwrite ((u8 <$> take (Z.to_nat (n - 1)) t) ++ [0]) buf), zlen t).
Proof.
  intros Hi Et Ht Hn H64. unfold snprintf, vsnprintf. rewrite (format_core_spec _ _ _ _ t _ Hi Et). cbn [mbind option_bind].
  destruct (buf_chars t buf n 0) as (b & E & L & G); [lia..|]. rewrite E. cbn [fst ctx sbuf pos count]. rewrite Z.add_0_l in *.
  pose proof (zlen_nonneg t). f_equal. f_equal. destruct (Z.eqb_spec n 0) as [->|Hn0].
  - cbn [Z.ltb]. change (0 <? 0) with false. cbv iota. apply (list_eq_zget 0); [done|]. intros j Hj. rewrite G by lia.
    destruct (Z.ltb_spec (j + 1) 0); [lia|]. by rewrite andb_false_r.
  - destruct (Z.ltb_spec 0 n); [|lia]. set (k := if zlen t <? n then zlen t else n - 1).
    assert (k = Z.min (zlen t) (n - 1)) as Ek by (unfold k; destruct (Z.ltb_spec (zlen t) n); lia).
    set (s := u8 <$> take (Z.to_nat (n - 1)) t). assert (zlen s = k) as Es by (unfold s, zlen in *; rewrite length_fmap, length_take; lia).
    assert (zlen (s ++ [0]) = k + 1) as Es1 by (rewrite zlen_app; unfold zlen at 2; simpl; lia).
    apply (list_eq_zget 0); [rewrite zlen_zset, zlen_overwrite; lia|]. intros j Hj. rewrite zlen_zset in Hj.
    rewrite zget_zset, zget_overwrite by lia. rewrite Es1. destruct (Z.eqb_spec k j) as [<-|Hkj].
    + destruct (Z.ltb_spec k (k + 1)); [|lia]. unfold zget. rewrite app_nth2 by (unfold zlen in *; lia).
      replace (Z.to_nat k - length s)%nat with 0%nat by (unfold zlen in *; lia). done.
    + rewrite G by lia. destruct (Z.leb_spec 0 j); [|lia]. cbn [andb]. rewrite Z.sub_0_r. destruct (Z.ltb_spec j (k + 1)).
      * destruct (Z.ltb_spec j (zlen t)), (Z.ltb_spec (j + 1) n); try lia. cbn [andb]. rewrite zget_app_l by lia. unfold s. by rewrite zget_map_take by lia.
      * destruct (Z.ltb_spec j (zlen t)); [|done]. destruct (Z.ltb_spec (j + 1) n); [lia|done].
Qed.

(** C37: [snprintf] writes what the format says.  For every format of literals,
    [%%] and directives of the conversions [%d %i %u %o %x %X %c %s %p], with
    flags, width, precision and length modifier in the order C has them, whose
    arguments are passed, the result is the length of the whole text, and the
    buffer receives as much of it as fits in front of the terminating NUL and is
    unchanged after it; a buffer of size 0 is not touched.  The text is that of the
    C standard, given apart from the code.  Left out are conversions the format
    does not define, a precision of a number above 93, for which the code has no
    room, and arguments of [hh] and [h] outside those types, which the code does not
    narrow (see [hh_not_narrowed]). *)
Theorem snprintf_correct (strs : Z -> list Z) (its : list item) (ap t buf : list Z) (n : Z) :
  Forall item_ok its -> text_of strs its ap = Some t -> zlen t < 2 ^ 31 -> 0 <= n <= zlen buf -> n < 2 ^ 64 ->
  snprintf strs buf n (print_items its) ap =
  Some ((if n =? 0 then buf else overwrite ((u8 <$> take (Z.to_nat (n - 1)) t) ++ [0]) buf), zlen t).
Proof. apply snprintf_spec. Qed.

(** ** The descriptor sink *)

Section fd_sink.
Context {W : Type} (write : Z -> list Z -> W -> Z * W).
(** The worlds in which the text [t] has been written since the start. *)
Context (said : list Z -> W -> Prop).
Implicit Types (s : fd_state W).

(** [write] takes everything it is given, up to the size of the buffer. *)
Definition accepts_all : Prop := forall t l w, said t w -> l <> [] -> zlen l <= FD_BUF_SZ ->
  fst (write STDOUT_FILENO l w) = zlen l /\ said (t ++ l) (snd (write STDOUT_FILENO l w)).

(** What was printed so far: what left through [write], and the buffer. *)
Definition printed s (p : list Z) : Prop := exists t, said t (world s) /\ p = t ++ fd_buf s.

Definition fd_ok s : Prop := zlen (fd_buf s) <= FD_BUF_SZ /\ fd_buf_err s = false.

Lemma fd_flush_spec s p : accepts_all -> fd_ok s -> printed s p ->
  exists s', fd_flush write STDOUT_FILENO s = (s', true) /\ fd_buf s' = [] /\ fd_buf_err s' = false /\ printed s' p.
Proof.
  intros A [Hl Her] (t & St & ->). unfold fd_flush. destruct (Z.eqb_spec (zlen (fd_buf s)) 0) as [E|E].
  - exists s. rewrite Her. split; [done|]. assert (fd_buf s = []) as Eb by (destruct (fd_buf s); [done|by unfold zlen in E]). split; [done|]. split; [done|]. by exists t.
  - assert (fd_buf s <> []) as Hn by (intros Eb; rewrite Eb in E; done). destruct (A t (fd_buf s) (world s) St Hn Hl) as [A1 A2].
    destruct (write STDOUT_FILENO (fd_buf s) (world s)) as [r w]. cbn [fst snd] in *. subst r. rewrite Z.eqb_refl. cbn [negb].
    exists (MkFd [] (fd_buf_err s) w). split; [done|]. split; [done|]. split; [done|]. exists (t ++ fd_buf s). cbn [world fd_buf]. by rewrite app_nil_r.
Qed.

Lemma fd_put_spec s c p : accepts_all -> fd_ok s -> printed s p ->
  exists s', fd_sink_put write STDOUT_FILENO s c = (s', true) /\ fd_ok s' /\ printed s' (p ++ [u8 c]).
Proof.
  intros A Ok Pr. unfold fd_sink_put.
  assert (exists s1, (if FD_BUF_SZ <=? zlen (fd_buf s) then fd_flush write STDOUT_FILENO s else (s, true)) = (s1, true) /\
    zlen (fd_buf s1) < FD_BUF_SZ /\ fd_buf_err s1 = false /\ printed s1 p) as (s1 & -> & L1 & E1 & P1).
  { destruct (Z.leb_spec FD_BUF_SZ (zlen (fd_buf s))).
    - destruct (fd_flush_spec s p A Ok Pr) as (s1 & E & B & Er & P). exists s1. rewrite B. done.
    - exists s. destruct Ok. done. }
  cbn [negb]. set (s2 := MkFd _ _ _).
  assert (fd_ok s2) as O2. { split; [|done]. unfold s2. cbn [fd_buf]. rewrite zlen_app. change (zlen [u8 c]) with 1. lia. }
  assert (printed s2 (p ++ [u8 c])) as P2. { destruct P1 as (t & St & ->). exists t. unfold s2. cbn [world fd_buf]. by rewrite app_assoc. }
  destruct (Z.eqb_spec c 10); [|by exists s2]. destruct (fd_flush_spec s2 _ A O2 P2) as (s3 & E & B & Er & P). exists s3.
  split; [done|]. split; [split; [rewrite B; done|done]|done].
Qed.

Lemma fd_chars_spec t s n p : accepts_all -> fd_ok s -> printed s p -> 0 <= n -> n + zlen t < 2 ^ 31 ->
  exists s', out_chars (fd_sink_put write STDOUT_FILENO) (MkOut s n false) t = (MkOut s' (n + zlen t) false, true) /\
    fd_ok s' /\ printed s' (p ++ (u8 <$> t)).
Proof.
  intros A. revert s n p. induction t as [|c t IH]; intros s n p Ok Pr Hn Ht.
  - exists s. change (zlen []) with 0. rewrite Z.add_0_r. cbn [fmap list_fmap]. by rewrite app_nil_r.
  - assert (zlen (c :: t) = 1 + zlen t) as El by (unfold zlen; simpl; lia). rewrite El in *. pose proof (zlen_nonneg t).
    cbn [out_chars]. unfold out_char. cbn [error ctx count]. destruct (fd_put_spec s c p A Ok Pr) as (s1 & -> & O1 & P1).
    cbv iota beta. rewrite i32_count by lia. destruct (IH s1 (n + 1) _ O1 P1 ltac:(lia) ltac:(lia)) as (s' & E & O' & P'). rewrite E. exists s'.
    replace (n + 1 + zlen t) with (n + (1 + zlen t)) by lia. split; [done|]. split; [done|]. rewrite <- app_assoc in P'. done.
Qed.

(** Whatever [write] does, [format_core] ends with the error bit set or with every
    character counted, and a failed flush leaves the buffer empty. *)
Lemma fd_flush_any s : let '(s', ok) := fd_flush write STDOUT_FILENO s in
  (ok = true -> fd_buf s' = [] /\ fd_buf_err s' = fd_buf_err s) /\ (fd_buf_err s = false -> ok = false -> fd_buf s' = [] /\ fd_buf_err s' = true).
Proof.
  unfold fd_flush. destruct (Z.eqb_spec (zlen (fd_buf s)) 0) as [E|E].
  - assert (fd_buf s = []) as Eb by (destruct (fd_buf s); [done|by unfold zlen in E]). split; [done|]. intros ->. done.
  - destruct (write _ _ _) as [r w]. destruct (negb _); done.
Qed.

Lemma fd_chars_any t s n : fd_buf_err s = false -> 0 <= n -> n + zlen t < 2 ^ 31 ->
  let '(o, ok) := out_chars (fd_sink_put write STDOUT_FILENO) (MkOut s n false) t in
  if ok : bool then error o = false /\ fd_buf_err (ctx o) = false /\ count o = n + zlen t
  else error o = true /\ fd_buf (ctx o) = [] /\ fd_buf_err (ctx o) = true.
Proof.
  revert s n. induction t as [|c t IH]; intros s n Her Hn Ht; [change (zlen []) with 0; rewrite Z.add_0_r; done|].
  assert (zlen (c :: t) = 1 + zlen t) as El by (unfold zlen; simpl; lia). rewrite El in *. pose proof (zlen_nonneg t).
  cbn [out_chars]. unfold out_char at 1. cbn [error ctx count].
  assert (let '(s', ok) := fd_sink_put write STDOUT_FILENO s c in
    if ok : bool then fd_buf_err s' = false else fd_buf s' = [] /\ fd_buf_err s' = true) as P.
  { unfold fd_sink_put. pose proof (fd_flush_any s) as F.
    destruct (FD_BUF_SZ <=? zlen (fd_buf s)).
    - destruct (fd_flush write STDOUT_FILENO s) as [s1 [|]]; cbn [negb]; [|by apply F]. destruct F as [F _]. destruct (F eq_refl) as [B E].
      rewrite Her in E. destruct (c =? 10); [|done]. pose proof (fd_flush_any (MkFd (fd_buf s1 ++ [u8 c]) (fd_buf_err s1) (world s1))) as G.
      destruct (fd_flush write STDOUT_FILENO _) as [s2 [|]]; cbn [fd_buf_err] in G; rewrite E in G; [by apply G|by apply G].
    - clear F. cbn [negb]. destruct (c =? 10); [|done]. pose proof (fd_flush_any (MkFd (fd_buf s ++ [u8 c]) (fd_buf_err s) (world s))) as G.
      destruct (fd_flush write STDOUT_FILENO _) as [s2 [|]]; cbn [fd_buf_err] in G; rewrite Her in G; [by apply G|by apply G]. }
  destruct (fd_sink_put write STDOUT_FILENO s c) as [s1 [|]]; [|done].
  rewrite i32_count by lia. specialize (IH s1 (n + 1) P ltac:(lia) ltac:(lia)).
  destruct (out_chars _ _ t) as [o [|]]; [|done]. by replace (n + (1 + zlen t)) with (n + 1 + zlen t) by lia.
Qed.

(** [printf] through its 512-byte buffer.  Whatever [write] does, the call
    returns the length of the text or -1 and leaves the buffer empty; when
    [write] takes what it is given, the result is the length, and exactly the
    bytes of the text have been written, in order, before the call returns. *)
Theorem printf_correct (strs : Z -> list Z) (its : list item) (ap t : list Z) (s : fd_state W) :
  Forall item_ok its -> text_of strs its ap = Some t -> zlen t < 2 ^ 31 -> fd_buf s = [] ->
  exists r s', printf write strs (print_items its) ap s = Some (r, s') /\ fd_buf s' = [] /\ (r = zlen t \/ r = -1) /\
    (accepts_all -> said [] (world s) -> r = zlen t /\ said (u8 <$> t) (world s')).
Proof.
  intros Hi Et Ht Hb. pose proof (zlen_nonneg t). unfold printf, vprintf. rewrite (format_core_spec _ _ _ _ t _ Hi Et). cbn [mbind option_bind].
  set (s0 := MkFd _ _ _). pose proof (fd_chars_any t s0 0 eq_refl ltac:(lia) ltac:(lia)) as Any. pose proof (fd_chars_spec t s0 0 []) as Acc.
  destruct (out_chars _ _ t) as [o ok] eqn:Eo. cbn [fst]. rewrite Z.add_0_l in *. destruct ok.
  - destruct Any as (-> & E & ->). cbn [orb]. pose proof (fd_flush_any (ctx o)) as F. pose proof (fd_flush_spec (ctx o) (u8 <$> t)) as FS.
    destruct (fd_flush write STDOUT_FILENO (ctx o)) as [s' ok]. cbn [fst]. destruct F as [F1 F2]. eexists _, s'. split; [done|].
    assert (fd_buf s' = []) as B by (destruct ok; [by apply F1|by apply F2]).
    split; [done|]. split; [destruct (fd_buf_err s'); auto|]. intros A S0. assert (printed s0 []) as P0 by (exists []; unfold s0; cbn [world fd_buf]; by rewrite Hb).
    destruct (Acc A) as (s1 & [= Eo1] & O1 & P1); [split; [unfold s0; cbn [fd_buf]; rewrite Hb; done|done]|done|lia|lia|]. subst o. cbn [ctx] in *.
    destruct (FS A O1 P1) as (s2 & [= <- _] & _ & Er & (t' & St & Et')). rewrite Er. split; [done|]. rewrite B, app_nil_r in Et'. by rewrite Et'.
  - destruct Any as (-> & B & E). cbn [orb]. eexists _, (ctx o). split; [done|]. split; [done|]. split; [by right|].
    intros A S0. destruct (Acc A) as (s1 & [=] & _); [split; [unfold s0; cbn [fd_buf]; rewrite Hb; done|done]|exists []; unfold s0; cbn [world fd_buf]; by rewrite Hb|lia|lia].
Qed.
End fd_sink.

(** ** What no output step breaks *)

Section keeps.
Context {S : Type} (put : S -> Z -> S * bool) (P : S -> Prop) (put_keeps : forall s c, P s -> P (fst (put s c))).
Notation good r := (P (ctx (fst r))).

Lemma out_char_keeps o c : P (ctx o) -> good (out_char put o c).
Proof using put_keeps.
  intros Ho. unfold out_char. destruct (error o); [done|]. pose proof (put_keeps (ctx o) c Ho) as K. by destruct (put (ctx o) c) as [s [|]].
Qed.
Lemma out_chars_keeps l : forall o, P (ctx o) -> good (out_chars put o l).
Proof using put_keeps.
  induction l as [|c l IH]; intros o Ho; cbn [out_chars]; [done|]. pose proof (out_char_keeps o c Ho) as K. destruct (out_char put o c) as [o1 [|]]; [by apply IH|done].
Qed.
Lemma out_repeat_keeps c n : forall o, P (ctx o) -> good (out_repeat put o c n).
Proof using put_keeps.
  induction n as [|n IH]; intros o Ho; cbn [out_repeat]; [done|]. pose proof (out_char_keeps o c Ho) as K. destruct (out_char put o c) as [o1 [|]]; [by apply IH|done].
Qed.
Lemma and_then_keeps r f : good r -> (forall o, P (ctx o) -> good (f o)) -> good (and_then (S := S) r f).
Proof. destruct r as [o [|]]; cbn [and_then]; auto. Qed.
Lemma put_padded_keeps o fl w t : P (ctx o) -> good (put_padded put o fl w t).
Proof using put_keeps. intros Ho. unfold put_padded. destruct (flag _ _); apply and_then_keeps; auto using out_chars_keeps, out_repeat_keeps. Qed.
Lemma put_numeric_keeps o fl w b : P (ctx o) -> good (put_numeric put o fl w b).
Proof using put_keeps.
  intros Ho. unfold put_numeric. destruct (_ && _); [|by apply put_padded_keeps]. apply and_then_keeps; [by apply out_chars_keeps|]. intros o1 H1.
  apply and_then_keeps; auto using out_chars_keeps, out_repeat_keeps.
Qed.
Lemma convert_keeps strs o conv fl w prec len ap r : P (ctx o) -> convert put strs o conv fl w prec len ap = Some r -> good (fst r).
Proof using put_keeps.
  intros Ho. unfold convert. destruct (conv =? 37); [intros [= <-]; by apply out_char_keeps|].
  destruct (conv =? 99); [|destruct (conv =? 115)].
  1,2: destruct (va_slot ap) as [[x ap']|]; [|done]; intros [= <-]; by apply put_padded_keeps.
  destruct (numeric_conv _ _ _ _ _) as [[b ap']|]; [|done]. intros [= <-]. by apply put_numeric_keeps.
Qed.
Lemma format_core_keeps strs o fmt ap o' : P (ctx o) -> format_core put strs o fmt ap = Some o' -> P (ctx o').
Proof using put_keeps.
  unfold format_core. generalize (Datatypes.S (length fmt)). intros fuel. revert o fmt ap. induction fuel as [|fuel IH]; intros o p ap Ho; cbn [format_loop]; [done|].
  destruct (chr p =? 0); [by intros [= <-]|]. destruct (negb _).
  - pose proof (out_char_keeps o (chr p) Ho) as K. destruct (out_char put o (chr p)) as [o1 [|]]; [by apply IH|by intros [= <-]].
  - destruct (read_flags _ _) as [fl p1]. destruct (read_width _ _ _) as [[[[w fl1] p2] ap1]|]; [|done]. cbn [mbind option_bind].
    destruct (read_prec _ _) as [[[prec p3] ap2]|]; [|done]. cbn [mbind option_bind]. destruct (read_length p3) as [len p4]. destruct (chr p4 =? 0); [by intros [= <-]|].
    destruct (convert put strs o _ _ _ _ _ _) as [[[o1 ok] ap3]|] eqn:Ec; [|done]. cbn [mbind option_bind]. pose proof (convert_keeps _ _ _ _ _ _ _ _ _ Ho Ec) as K.
    destruct ok; [by apply IH|by intros [= <-]].
Qed.
End keeps.

(** An invariant of [printf]: what a flush keeps, and a character added to a buffer with room. *)
Lemma printf_invariant {W} (write : Z -> list Z -> W -> Z * W) (Q : fd_state W -> Prop) strs fmt ap s r s' :
  (forall s, Q s -> Q (fst (fd_flush write STDOUT_FILENO s))) ->
  (forall s c, Q s -> zlen (fd_buf s) < FD_BUF_SZ -> Q (MkFd (fd_buf s ++ [c]) (fd_buf_err s) (world s))) ->
  printf write strs fmt ap s = Some (r, s') -> Q (MkFd (fd_buf s) false (world s)) -> Q s'.
Proof.
  intros Hf Ha E Hs. unfold printf, vprintf in E. destruct (format_core _ _ _ _ _) as [o|] eqn:Ef; [|done]. injection E as <- <-.
  apply (format_core_keeps _ Q) in Ef; [destruct (error o); [done|by apply Hf]| |done].
  intros s0 c H0. unfold fd_sink_put.
  assert (let '(s1, ok) := if FD_BUF_SZ <=? zlen (fd_buf s0) then fd_flush write STDOUT_FILENO s0 else (s0, true) in
    Q s1 /\ (ok = true -> zlen (fd_buf s1) < FD_BUF_SZ)) as K.
  { destruct (Z.leb_spec FD_BUF_SZ (zlen (fd_buf s0))); [|done]. specialize (Hf _ H0). pose proof (fd_flush_any write s0) as F.
    destruct (fd_flush _ _ s0) as [s1 ok]. split; [done|]. intros Ho. by rewrite (proj1 (proj1 F Ho)). }
  destruct (if _ <=? _ then _ else _) as [s1 [|]]; cbn [negb]; [|apply K]. destruct K as [Q1 B1].
  pose proof (Ha s1 (u8 c) Q1 (B1 eq_refl)) as Q2. destruct (c =? 10); [by apply Hf|done].
Qed.

(** [printf] keeps what every [write] keeps, the writes being of at most a buffer if the buffer is
    not overfull at the start. *)
Lemma printf_keeps {W} (write : Z -> list Z -> W -> Z * W) (P : W -> Prop) strs fmt ap s r s' :
  (forall l w, l <> [] -> (zlen (fd_buf s) <= FD_BUF_SZ -> zlen l <= FD_BUF_SZ) -> P w -> P (snd (write STDOUT_FILENO l w))) ->
  printf write strs fmt ap s = Some (r, s') -> P (world s) -> P (world s').
Proof.
  intros Hw E Hs. set (b0 := zlen (fd_buf s)) in *. set (Q := fun s => (b0 <= FD_BUF_SZ -> zlen (fd_buf s) <= FD_BUF_SZ) /\ P (world s)).
  apply (printf_invariant write Q) in E; [apply E| | |by split].
  - intros s0 [B0 H0]. unfold fd_flush. destruct (Z.eqb_spec (zlen (fd_buf s0)) 0) as [E0|N0]; [done|].
    assert (fd_buf s0 <> []) as Hn by (intros Eb; rewrite Eb in N0; done). pose proof (Hw (fd_buf s0) (world s0) Hn B0 H0) as K. destruct (write _ _ _) as [k w].
    by destruct (negb _).
  - intros s0 c [_ H0] Hl. split; [|done]. cbn [fd_buf]. rewrite zlen_app. change (zlen [c]) with 1. lia.
Qed.

(** The buffer is not overfull afterwards. *)
Lemma printf_buffer {W} (write : Z -> list Z -> W -> Z * W) strs fmt ap s r s' :
  printf write strs fmt ap s = Some (r, s') -> zlen (fd_buf s) <= FD_BUF_SZ -> zlen (fd_buf s') <= FD_BUF_SZ.
Proof.
  intros E Hb. apply (printf_invariant write (fun s => zlen (fd_buf s) <= FD_BUF_SZ)) in E; [done| | |done].
  - intros s0 H0. unfold fd_flush. destruct (_ =? 0); [done|]. destruct (write _ _ _) as [k w]. by destruct (negb _).
  - intros s0 c _ Hl. cbn [fd_buf]. rewrite zlen_app. change (zlen [c]) with 1. lia.
Qed.

(** ** Printing and reading back *)

Lemma digit_val_dig up d : 0 <= d < 16 -> digit_val_ (digit_char up d) = d.
Proof.
  intros Hd. rewrite <- dig_char by done. unfold dig, digit_val_. destruct (Z.ltb_spec d 10).
  - destruct (Z.leb_spec 48 (48 + d)), (Z.leb_spec (48 + d) 57); try lia. cbn [andb]. lia.
  - destruct up.
    + destruct (Z.leb_spec 48 (55 + d)), (Z.leb_spec (55 + d) 57); try lia. cbn [andb].
      destruct (Z.leb_spec 97 (55 + d)); [lia|]. cbn [andb]. destruct (Z.leb_spec 65 (55 + d)), (Z.leb_spec (55 + d) 90); try lia. cbn [andb]. lia.
    + destruct (Z.leb_spec 48 (87 + d)), (Z.leb_spec (87 + d) 57); try lia. cbn [andb].
      destruct (Z.leb_spec 97 (87 + d)), (Z.leb_spec (87 + d) 122); try lia. cbn [andb]. lia.
Qed.

Lemma digits_app base ds rest : Forall (fun c => 0 <= digit_val_ c < base) ds ->
  digits base (ds ++ rest) = (digit_val_ <$> ds) ++ digits base rest.
Proof.
  induction 1 as [|c ds Hc _ IH]; [done|]. cbn [app digits fmap list_fmap]. rewrite IH.
  destruct (Z.ltb_spec (digit_val_ c) 0), (Z.leb_spec base (digit_val_ c)); try lia. done.
Qed.

Lemma num_digits base up v : 2 <= base <= 16 -> 0 <= v < 2 ^ 64 ->
  Forall (fun c => 0 <= digit_val_ c < base) (num base up v) /\ horner base 0 (digit_val_ <$> num base up v) = v /\ 0 < zlen (num base up v).
Proof.
  intros Hb. assert (forall n v, (0 < n)%nat -> 0 <= v < base ^ Z.of_nat n ->
    Forall (fun c => 0 <= digit_val_ c < base) (numeral n base up v) /\ horner base 0 (digit_val_ <$> numeral n base up v) = v /\ 0 < zlen (numeral n base up v)) as G.
  { clear v. intros n. induction n as [|n IH]; intros v Hn Hv; [lia|]. cbn [numeral]. destruct (Z.ltb_spec v base).
    - cbn [fmap list_fmap]. rewrite digit_val_dig by lia. split_and!; [constructor; [rewrite digit_val_dig; lia|constructor]|unfold horner; simpl; lia|done].
    - rewrite Nat2Z.inj_succ, Z.pow_succ_r in Hv by lia. destruct n as [|n]; [simpl in Hv; lia|].
      destruct (IH (v / base)) as (I1 & I2 & I3); [lia|split; [apply Z.div_pos; lia|apply Z.div_lt_upper_bound; lia]|].
      pose proof (Z.mod_pos_bound v base ltac:(lia)). split_and!.
      + apply Forall_app. split; [done|]. constructor; [rewrite digit_val_dig; lia|constructor].
      + rewrite fmap_app. unfold horner in *. rewrite foldl_app, I2. cbn [fmap list_fmap foldl]. rewrite digit_val_dig by lia.
        pose proof (Z.div_mod v base ltac:(lia)). lia.
      + rewrite zlen_app. change (zlen [digit_char up (v mod base)]) with 1. lia. }
  intros Hv. apply G; [lia|]. split; [lia|]. apply Z.lt_le_trans with (2 ^ 64); [lia|].
  change (2 ^ 64) with (2 ^ Z.of_nat 64). apply Z.pow_le_mono_l. lia.
Qed.

(** No numeral starts with white space or a sign, or has an [x] in it. *)
Lemma digit_plain c base : 2 <= base <= 16 -> 0 <= digit_val_ c < base -> is_space_ c = false /\ c <> 43 /\ c <> 45 /\ c <> 120 /\ c <> 88.
Proof.
  intros Hb Hc. unfold is_space_. destruct (decide (c = 120)) as [->|]; [change (digit_val_ 120) with 33 in Hc; lia|].
  destruct (decide (c = 88)) as [->|]; [change (digit_val_ 88) with 33 in Hc; lia|].
  destruct (decide (c < 48)) as [Hl|Hl].
  - exfalso. unfold digit_val_ in Hc. destruct (Z.leb_spec 48 c), (Z.leb_spec 97 c), (Z.leb_spec 65 c); try lia. cbn [andb] in Hc. lia.
  - split; [|lia]. destruct (Z.eqb_spec c 32), (Z.eqb_spec c 9), (Z.eqb_spec c 10), (Z.eqb_spec c 11), (Z.eqb_spec c 12), (Z.eqb_spec c 13); (done || lia).
Qed.

(** Reading [sign], the numeral of [v] and a NUL. *)
Lemma parse_num (neg : bool) base up v rest : base = 10 \/ base = 16 -> 0 <= v < 2 ^ 64 ->
  let s := (if neg then [45] else []) ++ num base up v ++ 0 :: rest in
  let i := if neg then 1 else 0 in
  let '(p, j) := skip_space s 0 in
  let '(negative, p, j) := read_sign p j in
  negative = neg /\ read_base base p j = Some (base, num base up v ++ 0 :: rest, i) /\
  digits base (num base up v ++ 0 :: rest) = digit_val_ <$> num base up v.
Proof.
  intros Hb Hv. destruct (num_digits base up v ltac:(lia) Hv) as (D1 & D2 & D3). cbv zeta.
  destruct (num base up v) as [|c ds] eqn:En; [done|]. pose proof D1 as D1'. apply Forall_cons in D1 as [Dc Ds].
  destruct (digit_plain c base ltac:(lia) Dc) as (P1 & P2 & P3 & P4 & P5).
  assert (digits base ((c :: ds) ++ 0 :: rest) = digit_val_ <$> c :: ds) as Ed.
  { rewrite digits_app by done. cbn [digits]. change (digit_val_ 0) with (-1). cbn [Z.ltb orb]. change (-1 <? 0) with true. cbn [orb]. by rewrite app_nil_r. }
  assert (forall j, read_base base ((c :: ds) ++ 0 :: rest) j = Some (base, (c :: ds) ++ 0 :: rest, j)) as Rb.
  { intros j. unfold read_base. destruct (Z.eqb_spec base 0); [lia|].
    assert (hex_prefix ((c :: ds) ++ 0 :: rest) = false) as ->.
    { unfold hex_prefix. apply andb_false_iff. right. destruct ds as [|e ds]; [done|]. apply Forall_cons in Ds as [De _].
      destruct (digit_plain e base ltac:(lia) De) as (_ & _ & _ & E1 & E2). change (zget 0 ((c :: e :: ds) ++ 0 :: rest) 1) with e.
      by rewrite (proj2 (Z.eqb_neq _ _) E1), (proj2 (Z.eqb_neq _ _) E2). }
    destruct Hb as [->| ->]; done. }
  destruct neg; cbn [app].
  - change (skip_space (45 :: c :: ds ++ 0 :: rest) 0) with (45 :: c :: ds ++ 0 :: rest, 0). cbv iota beta.
    change (read_sign (45 :: c :: ds ++ 0 :: rest) 0) with (true, c :: ds ++ 0 :: rest, 1). cbv iota beta. split; [done|]. split; [apply Rb|apply Ed].
  - cbn [skip_space]. rewrite P1. unfold read_sign. change (zget 0 (c :: ds ++ 0 :: rest) 0) with c.
    rewrite (proj2 (Z.eqb_neq _ _) P2), (proj2 (Z.eqb_neq _ _) P3). cbn [orb]. split; [done|]. split; [apply Rb|apply Ed].
Qed.

(** The text of [%ld] and of [%lx]. *)
Definition fmt_ld : list item := [Dir [] FNone FNone L_L 100].
Definition fmt_lx : list item := [Dir [] FNone FNone L_L 120].

Lemma padded_number_0 head digits : padded_number false false 0 head digits = head ++ digits.
Proof.
  unfold padded_number, padded. cbn [negb andb]. pose proof (zlen_nonneg (head ++ digits)).
  by replace (Z.to_nat (0 - zlen (head ++ digits))) with 0%nat by lia.
Qed.

Lemma text_long strs conv x : text_of strs [Dir [] FNone FNone L_L conv] [x] = Some (value_text strs [] false 0 None L_L conv x).
Proof.
  assert (arg_fits conv L_L x = true) as Ea by (unfold arg_fits; change (Z.max 32 (len_bits L_L)) with (len_bits L_L); by rewrite Z.eqb_refl, orb_true_r).
  cbn [text_of item_text field_arg mbind option_bind default]. change (max_prec <? 0) with false. rewrite andb_false_r. change ((0 =? - 2 ^ 31) || false) with false. cbv iota.
  rewrite Ea. cbn [mbind option_bind]. by rewrite app_nil_r.
Qed.

Lemma text_ld strs v : - 2 ^ 63 <= v < 2 ^ 63 ->
  text_of strs fmt_ld [u64 v] = Some ((if v <? 0 then [45] else []) ++ num 10 false (Z.abs v)).
Proof.
  intros Hv. assert (i64 (u64 v) = v) as E by (unfold i64, u64; Z.div_mod_to_equations; lia).
  unfold fmt_ld. rewrite text_long. change (value_text strs [] false 0 None L_L 100 (u64 v)) with (padded_number false false 0 (integer_text [] 100 None (i64 (u64 v))).1
    (integer_text [] 100 None (i64 (u64 v))).2).
  rewrite E, padded_number_0. f_equal. unfold integer_text. cbn [fst snd]. f_equal.
  assert (forall c, bool_decide (c ∈ @nil Z) = false) as B by (intros c; apply bool_decide_false, not_elem_of_nil). rewrite !B. cbn [andb].
  apply app_nil_r.
Qed.

Lemma text_lx strs v : 0 <= v < 2 ^ 64 -> text_of strs fmt_lx [v] = Some (num 16 false v).
Proof.
  intros Hv. unfold fmt_lx. rewrite text_long. change (value_text strs [] false 0 None L_L 120 v) with (padded_number false false 0 (integer_text [] 120 None (u64 v)).1
    (integer_text [] 120 None (u64 v)).2).
  rewrite u64_small, padded_number_0 by done. f_equal. unfold integer_text. cbn [fst snd].
  assert (forall c, bool_decide (c ∈ @nil Z) = false) as B by (intros c; apply bool_decide_false, not_elem_of_nil). rewrite !B. cbn [andb].
  destruct (Z.ltb_spec v 0); [lia|]. cbn [app]. change ((120 =? 120) || (120 =? 88)) with true. change (120 =? 111) with false. change (120 =? 88) with false. cbv iota.
  by rewrite Z.abs_eq by lia.
Qed.

Lemma num_10_length v : 0 <= v < 2 ^ 64 -> zlen (num 10 false v) <= 20.
Proof. intros Hv. apply (numeral_length 64 10 false v 19); lia. Qed.

Lemma num_16_length v : 0 <= v < 2 ^ 64 -> zlen (num 16 false v) <= 16.
Proof. intros Hv. apply (numeral_length 64 16 false v 15); lia. Qed.

(** A text without bytes to cut off, written in front of a NUL. *)
Lemma snprintf_fits strs its ap t buf : Forall item_ok its -> text_of strs its ap = Some t -> Forall (fun c => 0 <= c < 256) t ->
  zlen t < zlen buf < 2 ^ 31 -> exists rest, snprintf strs buf (zlen buf) (print_items its) ap = Some (t ++ 0 :: rest, zlen t).
Proof.
  intros Hi Et Hb Hl. pose proof (zlen_nonneg t). rewrite (snprintf_spec strs its ap t buf (zlen buf) Hi Et) by lia.
  destruct (Z.eqb_spec (zlen buf) 0); [lia|]. unfold overwrite. rewrite take_ge by (unfold zlen in *; lia).
  assert (u8 <$> t = t) as ->.
  { clear -Hb. induction Hb as [|c t Hc _ IH]; [done|]. cbn [fmap list_fmap]. f_equal; [unfold u8; apply Z.mod_small; lia|done]. }
  eexists. rewrite <- app_assoc. done.
Qed.

Lemma num_bytes base up v : 2 <= base <= 16 -> 0 <= v < 2 ^ 64 -> Forall (fun c => 0 <= c < 256) (num base up v).
Proof.
  intros Hb Hv. destruct (num_digits base up v Hb Hv) as (D & _). eapply Forall_impl; [exact D|]. intros c Hc. cbv beta in *.
  unfold digit_val_ in Hc. destruct (Z.leb_spec 48 c), (Z.leb_spec c 57), (Z.leb_spec 97 c), (Z.leb_spec c 122), (Z.leb_spec 65 c), (Z.leb_spec c 90); cbn [andb] in Hc; lia.
Qed.

(** C38: printing and reading back: for every [long], [snprintf] with [%ld] into a
    buffer of at least 22 bytes leaves a string [strtol] reads as that number to
    its end without an error; likewise [%lx] and [strtoul] in base 16 for every
    [unsigned long]. *)
Theorem print_parse (strs : Z -> list Z) (buf : list Z) : 22 <= zlen buf < 2 ^ 31 ->
  (forall v, - 2 ^ 63 <= v < 2 ^ 63 -> exists buf' k,
     snprintf strs buf (zlen buf) (print_items fmt_ld) [u64 v] = Some (buf', k) /\ strtol buf' 10 = (v, k, None)) /\
  (forall v, 0 <= v < 2 ^ 64 -> exists buf' k,
     snprintf strs buf (zlen buf) (print_items fmt_lx) [v] = Some (buf', k) /\ strtoul buf' 16 = (v, k, None)).
Proof.
  intros Hl. assert (Forall item_ok fmt_ld /\ Forall item_ok fmt_lx) as [I1 I2] by (split; repeat constructor).
  split; intros v Hv.
  - assert (0 <= Z.abs v < 2 ^ 64) as Ha by lia. pose proof (num_10_length _ Ha) as L. pose proof (num_bytes 10 false _ ltac:(lia) Ha) as B.
    destruct (num_digits 10 false (Z.abs v) ltac:(lia) Ha) as (_ & D2 & D3).
    set (sg := if v <? 0 then [45] else []). assert (zlen sg = if v <? 0 then 1 else 0) as Es by (unfold sg; by destruct (v <? 0)).
    destruct (snprintf_fits strs fmt_ld [u64 v] (sg ++ num 10 false (Z.abs v)) buf I1 (text_ld strs v Hv)) as (rest & E).
    { apply Forall_app. split; [unfold sg; destruct (v <? 0); repeat constructor; lia|done]. }
    { rewrite zlen_app. destruct (v <? 0); lia. }
    eexists _, _. split; [exact E|]. pose proof (parse_num (v <? 0) 10 false (Z.abs v) rest (or_introl eq_refl) Ha) as P.
    pose proof (strtol_spec (sg ++ num 10 false (Z.abs v) ++ 0 :: rest) 10) as S. cbv zeta in P. fold sg in P. rewrite <- app_assoc.
    destruct (skip_space _ 0) as [p j]. destruct (read_sign p j) as [[ng p'] j']. destruct P as (-> & Er & Ed). rewrite Er in S. cbv zeta in S.
    destruct S as [S _]. rewrite S, Ed, D2. clear S. unfold zlen in D3 |- *. rewrite length_fmap. unfold LONG_MIN, LONG_MAX.
    rewrite length_app, Nat2Z.inj_add. fold (zlen sg). rewrite Es. destruct (Z.ltb_spec 0 (Z.of_nat (length (num 10 false (Z.abs v))))); [|lia].
    assert ((if v <? 0 then - Z.abs v else Z.abs v) = v) as -> by (destruct (Z.ltb_spec v 0); lia).
    destruct (Z.ltb_spec v (- 2 ^ 63)), (Z.ltb_spec (2 ^ 63 - 1) v); try lia. cbn [orb]. f_equal. f_equal. lia.
  - pose proof (num_16_length _ Hv) as L. pose proof (num_bytes 16 false _ ltac:(lia) Hv) as B.
    destruct (num_digits 16 false v ltac:(lia) Hv) as (_ & D2 & D3).
    destruct (snprintf_fits strs fmt_lx [v] (num 16 false v) buf I2 (text_lx strs v Hv) B ltac:(lia)) as (rest & E).
    eexists _, _. split; [exact E|]. pose proof (parse_num false 16 false v rest (or_intror eq_refl) Hv) as P.
    pose proof (strtol_spec (num 16 false v ++ 0 :: rest) 16) as S. cbv zeta in P. cbn [app] in P.
    destruct (skip_space _ 0) as [p j]. destruct (read_sign p j) as [[ng p'] j']. destruct P as (-> & Er & Ed). rewrite Er in S. cbv zeta in S.
    destruct S as [_ S]. rewrite S, Ed, D2. clear S. unfold zlen in D3 |- *. rewrite length_fmap. unfold ULONG_MAX.
    destruct (Z.ltb_spec (2 ^ 64 - 1) v); [lia|]. rewrite u64_small by lia.
    destruct (Z.ltb_spec 0 (Z.of_nat (length (num 16 false v)))); [|lia]. done.
Qed.

(** ** Concrete runs *)

(** The format of [x=%-6d|%#.4x|%s], LF. *)
Definition demo_fmt : list item :=
  [Lit 120; Lit 61; Dir [45] (FNum 6) FNone L_NONE 100; Lit 124; Dir [35] FNone (FNum 4) L_NONE 120; Lit 124; Dir [] FNone FNone L_NONE 115; Lit 10].
Definition demo_strs (a : Z) : list Z := [111; 107; 0].
Definition demo_text : list Z := [120; 61; 45; 52; 50; 32; 32; 32; 124; 48; 120; 48; 48; 97; 98; 124; 111; 107; 10].

Lemma demo_fmt_ok : Forall item_ok demo_fmt.
Proof. repeat (constructor; [repeat split; try done; repeat constructor|]). constructor. Qed.

Lemma demo_fmt_text : text_of demo_strs demo_fmt [-42; 171; 4096] = Some demo_text.
Proof. vm_compute. reflexivity. Qed.

Lemma snprintf_correct_witness :
  snprintf demo_strs (replicate 32 255) 10 (print_items demo_fmt) [-42; 171; 4096] =
  Some ([120; 61; 45; 52; 50; 32; 32; 32; 124; 0] ++ replicate 22 255, 19).
Proof.
  rewrite (snprintf_correct demo_strs demo_fmt [-42; 171; 4096] demo_text); [vm_compute; reflexivity|exact demo_fmt_ok|exact demo_fmt_text|vm_compute; reflexivity|split; vm_compute; discriminate|lia].
Defined.

(** A terminal that takes every byte. *)
Definition demo_write (_ : Z) (l : list Z) (w : list Z) : Z * list Z := (zlen l, w ++ l).

Lemma demo_write_accepts : accepts_all demo_write eq.
Proof. intros t l w -> _ _. split; reflexivity. Qed.

Lemma printf_correct_witness :
  exists r s', printf demo_write demo_strs (print_items demo_fmt) [-42; 171; 4096] (MkFd [] false []) = Some (r, s') /\
    r = 19 /\ world s' = demo_text.
Proof.
  destruct (printf_correct demo_write eq demo_strs demo_fmt [-42; 171; 4096] demo_text (MkFd [] false [])
    demo_fmt_ok demo_fmt_text eq_refl eq_refl) as (r & s' & E & _ & _ & A).
  destruct (A demo_write_accepts eq_refl) as [Er Es]. exists r, s'. split; [exact E|]. split; [exact Er|exact (eq_sym Es)].
Defined.

Lemma print_parse_witness :
  exists buf' k, snprintf demo_strs (replicate 32 255) (zlen (replicate 32 255)) (print_items fmt_ld) [u64 (- 2 ^ 63)] = Some (buf', k) /\
    strtol buf' 10 = (- 2 ^ 63, k, None).
Proof.
  assert (22 <= zlen (replicate 32 255) < 2 ^ 31) as Hl by (rewrite zlen_replicate; lia).
  refine (proj1 (print_parse demo_strs (replicate 32 255) Hl) (- 2 ^ 63) _). lia.
Defined.

(** A precision of 100 digits writes past [body[96]]. *)
Theorem format_overruns_body : snprintf demo_strs (replicate 200 0) 200 [37; 46; 49; 48; 48; 100; 0] [7] = None.
Proof. vm_compute. reflexivity. Qed.

(** [%hhd] prints the whole [int]: the length modifier does not narrow it. *)
Theorem hh_not_narrowed : snprintf demo_strs (replicate 8 255) 8 [37; 104; 104; 100; 0] [300] = Some ([51; 48; 48; 0; 255; 255; 255; 255], 3).
Proof. vm_compute. reflexivity. Qed.
