(* ===== verification/Env.v ===== *)
(** * The process environment

    [userspace/libc/env.c]: [getenv], [setenv], [unsetenv] over the pointer
    array [environ], which belongs to the initial stack until the first change
    and to the heap afterwards.  Strings and the two heap arrays have addresses;
    [smem] is the string stored at an address, [None] the use of an address that
    holds none.  The allocator is the interface [UHeap]. *)
From S2P Require Import Prelude Bytes Errno Str Iface CMalloc.

Section env.
Context {A : Type} `{UHeap A}.

(** [environ], and [env_arr] once it is ours, are one array, [arr]. *)
Record env := MkEnv {
  heap : A;
  smem : gmap Z (list Z);
  has_environ : bool;
  arr : list Z;
  env_arr : Z;
  env_owned : Z;
  owned : list Z;
  env_cap : Z;
  env_count : Z;
  env_is_owned : bool;
  eerrno : Z }.

Definition set_errno_e (e : env) (x : Z) : env :=
  MkEnv (heap e) (smem e) (has_environ e) (arr e) (env_arr e) (env_owned e) (owned e) (env_cap e) (env_count e) (env_is_owned e) x.
Definition set_heap_e (e : env) (h : A) : env :=
  MkEnv h (smem e) (has_environ e) (arr e) (env_arr e) (env_owned e) (owned e) (env_cap e) (env_count e) (env_is_owned e) (eerrno e).
Definition set_mem_e (e : env) (h : A) (m : gmap Z (list Z)) : env :=
  MkEnv h m (has_environ e) (arr e) (env_arr e) (env_owned e) (owned e) (env_cap e) (env_count e) (env_is_owned e) (eerrno e).
Definition set_slots (e : env) (a o : list Z) (n : Z) : env :=
  MkEnv (heap e) (smem e) (has_environ e) a (env_arr e) (env_owned e) o (env_cap e) n (env_is_owned e) (eerrno e).

(** [while (e[n]) ++n;] *)
Fixpoint count_loop (a : list Z) (n : Z) : Z :=
  match a with
  | p :: a => if p =? 0 then n else count_loop a (n + 1)
  | [] => n
  end.
Definition count_env (e : env) : Z := if has_environ e then count_loop (arr e) 0 else 0.

Definition fail_nomem (e : env) : bool * env := (false, set_errno_e e ENOMEM).

(** [true]: 0; [false]: -1. *)
Definition promote (e : env) : bool * env :=
  if env_is_owned e then (true, e)
  else
    let n := count_env e in
    let cap := n + 8 in
    let '(pa, h) := u_malloc (cap * 8) (heap e) in
    if pa =? 0 then fail_nomem (set_heap_e e h)
    else
      let '(po, h') := u_calloc cap 1 h in
      if po =? 0 then fail_nomem (set_heap_e e (u_free pa h'))
      else
        let a := copy_loop (u_fresh h pa cap) 0 (arr e) 0 n in
        (true, MkEnv h' (smem e) true (zset a n 0) pa po (replicate (Z.to_nat cap) 0) cap n true (eerrno e)).

Definition ensure_slot (e : env) : bool * env :=
  if env_count e + 2 <=? env_cap e then (true, e)
  else
    let ncap := if env_cap e =? 0 then 16 else env_cap e * 2 in
    let '(po, h) := u_malloc ncap (heap e) in
    if po =? 0 then fail_nomem (set_heap_e e h)
    else
      let nown := fill_loop (copy_loop (u_fresh h po ncap) 0 (owned e) 0 (env_cap e)) (env_cap e) 0 (ncap - env_cap e) in
      let '(pa, h') := u_realloc (env_arr e) (ncap * 8) h in
      if pa =? 0 then fail_nomem (set_heap_e e (u_free po h'))
      else
        (true, MkEnv (u_free (env_owned e) h') (smem e) true (copy_loop (u_fresh h' pa ncap) 0 (arr e) 0 (env_cap e))
                 pa po nown ncap (env_count e) (env_is_owned e) (eerrno e)).

(** The new string's address, 0 for null. *)
Definition make_entry (e : env) (name value : list Z) : Z * env :=
  let nl := strlen name in
  let vl := strlen value in
  let '(p, h) := u_malloc (nl + 1 + vl + 1) (heap e) in
  if p =? 0 then (0, set_heap_e e h)
  else
    let s := u_fresh h p (nl + 1 + vl + 1) in
    let s := copy_loop s 0 name 0 nl in
    let s := zset s nl 61 in
    let s := copy_loop s (nl + 1) value 0 (vl + 1) in
    (p, set_mem_e e h (<[p := s]> (smem e))).

(** [!*name || strchr(name, '=')] *)
Definition bad_name (name : list Z) : bool := (zget 0 name 0 =? 0) || bool_decide (strchr name 61 <> None).

(** [strncmp(s, name, nl) == 0 && s[nl] == '='] *)
Definition names (s name : list Z) : bool :=
  let nl := strlen name in (strncmp s name (Z.to_nat nl) =? 0) && (zget 0 s nl =? 61).

(** The scan of [environ]: the index and the string of the first match. *)
Fixpoint find_entry (m : gmap Z (list Z)) (a : list Z) (name : list Z) (i : Z) : option (option (Z * list Z)) :=
  match a with
  | p :: a =>
    if p =? 0 then Some None
    else
      s ← m !! p;
      if names s name then Some (Some (i, s)) else find_entry m a name (i + 1)
  | [] => None
  end.

Definition scan (e : env) (name : list Z) : option (option (Z * list Z)) :=
  if has_environ e then find_entry (smem e) (arr e) name 0 else Some None.

(** The value as the bytes from the returned pointer on; [None] inside: null. *)
Definition getenv (e : env) (name : option (list Z)) : option (option (list Z)) :=
  match name with
  | None => Some None
  | Some name =>
    if bad_name name then Some None
    else
      r ← scan e name;
      Some (match r with Some (_, s) => Some (drop (Z.to_nat (strlen name + 1)) s) | None => None end)
  end.

(** [if (env_owned[idx]) free(env_arr[idx]);] *)
Definition drop_string (e : env) (idx : Z) : env :=
  if zget 0 (owned e) idx =? 0 then e
  else let p := zget 0 (arr e) idx in set_mem_e e (u_free p (heap e)) (delete p (smem e)).

Definition setenv (e : env) (name value : option (list Z)) (overwrite : bool) : option (Z * env) :=
  match name, value with
  | None, _ => Some (-1, set_errno_e e EINVAL)
  | Some name, _ =>
    if bad_name name then Some (-1, set_errno_e e EINVAL)
    else
      match value with
      | None => Some (-1, set_errno_e e EINVAL)
      | Some value =>
        hit ← scan e name;
        match hit with
        | Some (idx, _) =>
          if negb overwrite then Some (0, e)
          else
            let '(ok, e) := promote e in
            if negb ok then Some (-1, e)
            else
              let '(p, e) := make_entry e name value in
              if p =? 0 then Some (-1, set_errno_e e ENOMEM)
              else
                let e := drop_string e idx in
                Some (0, set_slots e (zset (arr e) idx p) (zset (owned e) idx 1) (env_count e))
        | None =>
          let '(ok, e) := promote e in
          if negb ok then Some (-1, e)
          else
            let '(ok, e) := ensure_slot e in
            if negb ok then Some (-1, e)
            else
              let '(p, e) := make_entry e name value in
              if p =? 0 then Some (-1, set_errno_e e ENOMEM)
              else
                let n := env_count e in
                Some (0, set_slots e (zset (zset (arr e) n p) (n + 1) 0) (zset (owned e) n 1) (n + 1))
        end
      end
  end.

(** [for (i = idx; i + 1 < env_count; ++i) x[i] = x[i + 1];] *)
Definition shift_down (x : list Z) (idx n : Z) : list Z :=
  foldl (fun x i => zset x i (zget 0 x (i + 1))) x (range_step idx (n - 1) 1).

Definition unsetenv (e : env) (name : option (list Z)) : option (Z * env) :=
  match name with
  | None => Some (-1, set_errno_e e EINVAL)
  | Some name =>
    if bad_name name then Some (-1, set_errno_e e EINVAL)
    else if negb (has_environ e) then Some (0, e)
    else
      hit ← scan e name;
      match hit with
      | None => Some (0, e)
      | Some (idx, _) =>
        let '(ok, e) := promote e in
        if negb ok then Some (-1, e)
        else
          let e := drop_string e idx in
          let n := env_count e - 1 in
          Some (0, set_slots e (zset (shift_down (arr e) idx (env_count e)) n 0)
                     (zset (shift_down (owned e) idx (env_count e)) n 0) n)
      end
  end.
End env.
Arguments env : clear implicits.

(** ** Environments as lists of strings *)

(** The value in [v] when it is [n=value]. *)
Definition var_value (n v : list Z) : option (list Z) :=
  if decide (n ++ [61] `prefix_of` v) then Some (drop (S (length n)) v) else None.

Fixpoint lookup_var (n : list Z) (vs : list (list Z)) : option (list Z) :=
  match vs with
  | [] => None
  | v :: vs => match var_value n v with Some x => Some x | None => lookup_var n vs end
  end.

Fixpoint set_var (n x : list Z) (vs : list (list Z)) : list (list Z) :=
  match vs with
  | [] => [n ++ 61 :: x]
  | v :: vs => match var_value n v with Some _ => (n ++ 61 :: x) :: vs | None => v :: set_var n x vs end
  end.

Fixpoint del_var (n : list Z) (vs : list (list Z)) : list (list Z) :=
  match vs with
  | [] => []
  | v :: vs => match var_value n v with Some _ => vs | None => v :: del_var n vs end
  end.

Lemma var_value_Some n v x : var_value n v = Some x <-> v = n ++ 61 :: x.
Proof.
  unfold var_value. split.
  - case_decide as P; [|done]. destruct P as [r ->]. intros [= <-]. rewrite <- app_assoc. cbn [app].
    change (n ++ 61 :: r) with (n ++ [61] ++ r). rewrite app_assoc. rewrite drop_app_ge by (rewrite length_app; simpl; lia).
    rewrite length_app. replace (S (length n) - _)%nat with 0%nat by (simpl; lia). by rewrite drop_0, <- app_assoc.
  - intros ->. rewrite decide_True by (exists x; by rewrite <- app_assoc). f_equal. change (n ++ 61 :: x) with (n ++ [61] ++ x). rewrite app_assoc.
    rewrite drop_app_ge by (rewrite length_app; simpl; lia). rewrite length_app. replace (S (length n) - _)%nat with 0%nat by (simpl; lia). done.
Qed.

Lemma sep_inj (n m x y : list Z) : 61 ∉ n -> 61 ∉ m -> n ++ 61 :: x = m ++ 61 :: y -> n = m /\ x = y.
Proof.
  revert m. induction n as [|a n IH]; intros [|b m] Hn Hm E; simplify_eq/=; [done|set_solver|set_solver|].
  destruct (IH m) as [-> ->]; [set_solver|set_solver|done|done].
Qed.

(** No string names two variables. *)
Lemma var_value_other n m v x : 61 ∉ n -> 61 ∉ m -> n <> m -> var_value n v = Some x -> var_value m v = None.
Proof.
  intros Hn Hm Hne E. destruct (var_value m v) as [y|] eqn:E'; [|done]. apply var_value_Some in E as ->. apply var_value_Some in E'.
  destruct (sep_inj n m x y Hn Hm E'). done.
Qed.

Lemma lookup_set_same n x vs : lookup_var n (set_var n x vs) = Some x.
Proof.
  assert (var_value n (n ++ 61 :: x) = Some x) as E by (by apply var_value_Some).
  induction vs as [|v vs IH]; cbn [set_var lookup_var]; [by rewrite E|].
  destruct (var_value n v) eqn:Ev; cbn [lookup_var]; [by rewrite E|by rewrite Ev].
Qed.

Lemma lookup_set_other n m x vs : 61 ∉ n -> 61 ∉ m -> n <> m -> lookup_var m (set_var n x vs) = lookup_var m vs.
Proof.
  intros Hn Hm Hne. assert (var_value m (n ++ 61 :: x) = None) as E by (eapply (var_value_other n m _ x); try done; by apply var_value_Some).
  induction vs as [|v vs IH]; cbn [set_var lookup_var]; [by rewrite E|].
  destruct (var_value n v) as [y|] eqn:Ev; cbn [lookup_var]; [by rewrite E, (var_value_other n m v y)|by rewrite IH].
Qed.

Lemma lookup_del_other n m vs : 61 ∉ n -> 61 ∉ m -> n <> m -> lookup_var m (del_var n vs) = lookup_var m vs.
Proof.
  intros Hn Hm Hne. induction vs as [|v vs IH]; cbn [del_var lookup_var]; [done|].
  destruct (var_value n v) as [y|] eqn:Ev; cbn [lookup_var]; [by rewrite (var_value_other n m v y)|by rewrite IH].
Qed.

(** Every name at most once. *)
Fixpoint uniq (vs : list (list Z)) : Prop :=
  match vs with
  | [] => True
  | v :: vs => (forall n x, 61 ∉ n -> var_value n v = Some x -> lookup_var n vs = None) /\ uniq vs
  end.

Lemma lookup_del_same n vs : 61 ∉ n -> uniq vs -> lookup_var n (del_var n vs) = None.
Proof.
  intros Hn. induction vs as [|v vs IH]; intros U; [done|]. destruct U as [U1 U2]. cbn [del_var].
  destruct (var_value n v) eqn:Ev; [by eapply U1|]. cbn [lookup_var]. rewrite Ev. by apply IH.
Qed.

Lemma uniq_set n x vs : 61 ∉ n -> uniq vs -> uniq (set_var n x vs).
Proof.
  intros Hn. induction vs as [|v vs IH]; intros U; [by split|]. destruct U as [U1 U2]. cbn [set_var].
  destruct (var_value n v) as [y|] eqn:Ev.
  - split; [|done]. intros m z Hm Ez. apply var_value_Some in Ez. destruct (sep_inj n m x z Hn Hm Ez) as [<- _]. by eapply U1.
  - split; [|by apply IH]. intros m z Hm Ez. destruct (decide (n = m)) as [<-|Hne]; [congruence|].
    rewrite lookup_set_other by done. by eapply U1.
Qed.

Lemma uniq_del n vs : 61 ∉ n -> uniq vs -> uniq (del_var n vs).
Proof.
  intros Hn. induction vs as [|v vs IH]; intros U; [done|]. destruct U as [U1 U2]. cbn [del_var].
  destruct (var_value n v) as [y|] eqn:Ev; [done|]. split; [|by apply IH]. intros m z Hm Ez.
  destruct (decide (n = m)) as [<-|Hne]; [congruence|]. rewrite lookup_del_other by done. by eapply U1.
Qed.

(** ** Strings in memory *)

Definition is_cstr (s : list Z) : Prop := 0 ∈ s /\ bytes s.

Lemma names_spec s n : is_cstr s -> is_cstr n -> names s n = true <-> (cstr n ++ [61]) `prefix_of` cstr s.
Proof.
  intros [Hs Bs] [Hn Bn]. unfold names. rewrite strlen_cstr. cbv zeta. unfold zlen at 1. rewrite Nat2Z.id.
  pose proof (strncmp_spec s n (length (cstr n)) Hs Hn Bs Bn) as C. rewrite (take_ge (cstr n)) in C by done.
  rewrite andb_true_iff, !Z.eqb_eq.
  assert (strncmp s n (length (cstr n)) = 0 <-> take (length (cstr n)) (cstr s) = cstr n) as ->.
  { rewrite <- lex_eq, <- C. symmetry. apply Z.compare_eq_iff. }
  destruct (cstr_split s Hs) as [t Et]. split.
  - intros [E1 E2]. rewrite <- (take_drop (length (cstr n)) (cstr s)), E1 in Et |- *.
    destruct (drop (length (cstr n)) (cstr s)) as [|c r]; cbn [app] in *.
    + rewrite Et, app_nil_r, zget_mid in E2. done.
    + rewrite Et, <- app_assoc in E2. cbn [app] in E2. rewrite zget_mid in E2. subst c. exists r. by rewrite <- app_assoc.
  - intros [r E]. split; [rewrite E, <- app_assoc; apply take_app_length|].
    rewrite Et, E, <- !app_assoc. cbn [app]. apply zget_mid.
Qed.

Lemma bad_name_spec n : 0 ∈ n -> bad_name n = false <-> cstr n <> [] /\ 61 ∉ cstr n.
Proof.
  intros Hn. unfold bad_name. rewrite orb_false_iff, Z.eqb_neq, bool_decide_eq_false. pose proof (strchr_loop_spec n 61 0 Hn) as S. unfold strchr.
  change (u8 61) with 61. assert (zget 0 n 0 <> 0 <-> cstr n <> []) as ->.
  { destruct n as [|c n]; [by apply not_elem_of_nil in Hn|]. unfold zget. simpl. destruct (Z.eqb_spec c 0) as [->|]; done. }
  apply and_iff_compat_l. destruct (strchr_loop n 61 0) as [k|].
  - destruct S as (j & _ & E & _). split; [intros H; exfalso; by apply H|]. intros H. exfalso. apply H.
    apply list_elem_of_lookup_2 in E. set_solver.
  - split; [intros _; set_solver|by intros _ ?].
Qed.

(** ** The state *)

Section inv.
Context {A : Type} `{UHeapLaws A}.
Implicit Types (e : env A) (sl : list (Z * Z)) (O : gset Z).

(** The addresses of the strings [sl] marks as ours. *)
Definition strings_of sl : list Z := (filter (fun x => x.2 <> 0) sl).*1.
Definition mine e sl : list Z := (if env_is_owned e then [env_arr e; env_owned e] else []) ++ strings_of sl.

(** The environment [e] has the slots [sl] (address, ours) with the strings
    [ss]; the other live blocks of the heap are [O]. *)
Record env_at (O : gset Z) e sl (ss : list (list Z)) : Prop := {
  ea_wf : u_wf (heap e);
  ea_none : has_environ e = false -> sl = [];
  ea_arr : has_environ e = true -> exists ta, arr e = sl.*1 ++ 0 :: ta;
  ea_ptr : Forall (fun x => x.1 <> 0) sl;
  ea_str : Forall2 (fun x s => smem e !! x.1 = Some s /\ is_cstr s) sl ss;
  ea_own : env_is_owned e = true -> has_environ e = true /\ (exists to, owned e = sl.*2 ++ to) /\
             zlen (arr e) = env_cap e /\ zlen (owned e) = env_cap e /\ env_count e = zlen sl;
  ea_unown : env_is_owned e = false -> Forall (fun x => x.2 = 0) sl;
  ea_stack : Forall (fun x => u_area (heap e) x.1 = negb (x.2 =? 0)) sl;
  ea_nodup : NoDup (mine e sl);
  ea_live : dom (u_live (heap e)) = O ∪ list_to_set (mine e sl);
  ea_disj : O ## list_to_set (mine e sl) }.

(** A step that touches only the heap and [errno], and leaves the live blocks. *)
Lemma env_heap_step O e e' sl ss : env_at O e sl ss -> u_wf (heap e') -> u_live (heap e') = u_live (heap e) ->
  (forall x, u_area (heap e') x = u_area (heap e) x) ->
  (smem e', has_environ e', arr e', env_arr e', env_owned e', owned e', env_cap e', env_count e', env_is_owned e') =
  (smem e, has_environ e, arr e, env_arr e, env_owned e, owned e, env_cap e, env_count e, env_is_owned e) ->
  env_at O e' sl ss.
Proof.
  intros [E1 E2 E3 E4 E5 E6 E7 E8 E9 E10 E11] W L Ar Eq. injection Eq as Q1 Q2 Q3 Q4 Q5 Q6 Q7 Q8 Q9.
  assert (mine e' sl = mine e sl) as Em by (unfold mine; by rewrite Q9, Q4, Q5).
  split; rewrite ?Q1, ?Q2, ?Q3, ?Q6, ?Q7, ?Q8, ?Q9, ?Em, ?L; try done.
  eapply Forall_impl; [exact E8|]. intros x Hx. by rewrite Ar.
Qed.

Lemma env_errno O e sl ss x : env_at O e sl ss -> env_at O (set_errno_e e x) sl ss.
Proof. intros E. eapply env_heap_step; [exact E|apply E|done..]. Qed.

(** Where the new block is neither live nor one of the strings. *)
Lemma fresh_ptr O e sl ss p : env_at O e sl ss -> u_live (heap e) !! p = None -> u_area (heap e) p = true ->
  p ∉ O /\ p ∉ mine e sl /\ Forall (fun x => x.1 <> p) sl.
Proof.
  intros E Hn Ha. assert (p ∉ dom (u_live (heap e))) as Hd by (by apply not_elem_of_dom). rewrite (ea_live _ _ _ _ E) in Hd.
  split; [set_solver|]. split; [set_solver|]. apply Forall_forall. intros [q o] Hx Eq. cbn [fst] in Eq. subst q.
  destruct (decide (o = 0)) as [->|Ho].
  - pose proof (ea_stack _ _ _ _ E) as S. rewrite Forall_forall in S. specialize (S _ Hx). cbn in S. congruence.
  - apply Hd. apply elem_of_union_r, elem_of_list_to_set. unfold mine, strings_of. apply elem_of_app. right.
    apply list_elem_of_fmap. exists (p, o). split; [done|]. by apply list_elem_of_filter.
Qed.

Lemma zlen_fmap {B C} (f : B -> C) l : zlen (f <$> l) = zlen l.
Proof. unfold zlen. by rewrite length_fmap. Qed.

Lemma count_loop_spec ps ta n : Forall (fun p => p <> 0) ps -> count_loop (ps ++ 0 :: ta) n = n + zlen ps.
Proof.
  intros Hp. revert n. induction Hp as [|p ps Hp _ IH]; intros n; cbn [app count_loop]; [change (zlen []) with 0; by rewrite Z.add_0_r|].
  destruct (Z.eqb_spec p 0); [done|]. rewrite IH, zlen_cons. lia.
Qed.

Lemma ptrs_nonzero sl : Forall (fun x => x.1 <> 0) sl -> Forall (fun p => p <> 0) sl.*1.
Proof. intros Hs. by apply Forall_fmap. Qed.

Lemma count_env_spec O e sl ss : env_at O e sl ss -> count_env e = zlen sl.
Proof.
  intros E. unfold count_env. destruct (has_environ e) eqn:Eh; [|by rewrite (ea_none _ _ _ _ E Eh)].
  destruct (ea_arr _ _ _ _ E Eh) as [ta ->]. rewrite count_loop_spec by apply ptrs_nonzero, E. by rewrite zlen_fmap.
Qed.

Lemma copy_front (f l : list Z) : zlen l <= zlen f -> copy_loop f 0 l 0 (zlen l) = l ++ drop (length l) f.
Proof.
  intros Hl. pose proof (zlen_nonneg l). apply (list_eq_zget 0).
  { rewrite zlen_copy_loop, zlen_app by lia. unfold zlen in *. rewrite length_drop. lia. }
  intros j Hj. rewrite zlen_copy_loop in Hj by lia. rewrite zget_copy_loop by lia. destruct (Z.leb_spec 0 j); [|lia]. cbn [andb].
  destruct (Z.ltb_spec j (0 + zlen l)); [by rewrite zget_app_l by lia; f_equal; lia|].
  unfold zget. rewrite app_nth2 by (unfold zlen in *; lia). rewrite !nth_lookup, lookup_drop. do 2 f_equal. unfold zlen in *. lia.
Qed.

(** Clearing a tail leaves what is in front of it. *)
Lemma fill_tail (l t : list Z) off n v : zlen l <= off -> exists t', fill_loop (l ++ t) off v n = l ++ t'.
Proof.
  intros Ho. unfold fill_loop. apply (foldl_inv (fun d => exists t', d = l ++ t')); [by exists t|].
  intros d i Hi [t' ->]. apply elem_of_seqZ in Hi. exists (zset t' (off + i - zlen l) v). unfold zset, zlen in *.
  destruct (Z.ltb_spec (off + i) 0); [lia|]. destruct (Z.ltb_spec (off + i - Z.of_nat (length l)) 0); [lia|].
  rewrite insert_app_r_alt by lia. do 2 f_equal. lia.
Qed.

(** The live blocks after [a] became [q], [p] was added and [o] freed. *)
Lemma live_swap (O S : gset Z) a o p q :
  a ∉ O -> a ∉ S -> o ∉ O -> o ∉ S -> p <> o -> p <> a -> q <> o ->
  ({[q]} ∪ (({[p]} ∪ (O ∪ ({[a]} ∪ ({[o]} ∪ S)))) ∖ {[a]})) ∖ {[o]} = O ∪ ({[q]} ∪ ({[p]} ∪ S)).
Proof.
  intros. apply set_eq. intros x. rewrite !elem_of_difference, !elem_of_union, !elem_of_difference, !elem_of_union, !elem_of_singleton.
  destruct (decide (x = a)), (decide (x = o)), (decide (x = p)), (decide (x = q)); naive_solver.
Qed.

Lemma dom_live_insert (m m' : gmap Z Z) p sz : m' = <[p := sz]> m -> dom m' = {[p]} ∪ dom m.
Proof. intros ->. apply dom_insert_L. Qed.

(** The capacity of our array. *)
Definition own_cap e : Z := if env_is_owned e then env_cap e else 0.

(** Taking over the initial array. *)
Lemma promote_spec O e sl ss ok e' : env_at O e sl ss -> zlen sl < 2 ^ 50 -> promote e = (ok, e') ->
  env_at O e' sl ss /\ own_cap e' <= Z.max (own_cap e) (zlen sl + 8) /\ (if ok : bool then env_is_owned e' = true else eerrno e' = ENOMEM).
Proof.
  intros E Hl. unfold promote. destruct (env_is_owned e) eqn:Eo; [intros [= <- <-]; split_and!; [done|lia|done]|].
  rewrite (count_env_spec _ _ _ _ E). pose proof (zlen_nonneg sl).
  destruct (u_malloc ((zlen sl + 8) * 8) (heap e)) as [pa h] eqn:Em.
  destruct (u_malloc_law (heap e) ((zlen sl + 8) * 8) pa h (ea_wf _ _ _ _ E) ltac:(lia) Em) as [W1 A1 In1 F1 S1].
  destruct (Z.eqb_spec pa 0) as [->|Hpa].
  { intros [= <- <-]. split; [|split; [unfold own_cap; cbn; rewrite Eo; lia|done]]. apply env_errno. by eapply env_heap_step; [exact E|done|apply F1|done|]. }
  destruct (S1 Hpa) as (N1 & sz1 & _ & L1 & _). destruct (u_calloc (zlen sl + 8) 1 h) as [po h'] eqn:Ec.
  destruct (u_calloc_law h (zlen sl + 8) 1 po h' W1 ltac:(lia) ltac:(lia) Ec) as [W2 A2 In2 F2 S2].
  destruct (Z.eqb_spec po 0) as [->|Hpo].
  { intros [= <- <-]. split; [|split; [unfold own_cap; cbn; rewrite Eo; lia|done]]. destruct (u_free_law h' pa W2) as (W3 & A3 & L3); [by rewrite (F2 eq_refl), L1, lookup_insert_eq|].
    apply env_errno. eapply env_heap_step; [exact E|done| |intros x; cbn; by rewrite A3, A2, A1|done].
    cbn [heap set_heap_e]. rewrite L3, (F2 eq_refl), L1. by apply delete_insert_id. }
  destruct (S2 Hpo) as (N2 & sz2 & _ & L2 & _). intros [= <- <-]. split; [|split; [unfold own_cap; cbn; lia|done]].
  destruct (fresh_ptr _ _ _ _ pa E N1 (In1 Hpa)) as (P1 & P2 & P3).
  assert (u_live (heap e) !! po = None /\ po <> pa) as [N2' Hne].
  { rewrite L1 in N2. apply lookup_insert_None in N2 as [? ?]. done. }
  assert (u_area (heap e) po = true) as A2' by (rewrite <- A1; by apply In2). destruct (fresh_ptr _ _ _ _ po E N2' A2') as (Q1 & Q2 & Q3).
  destruct E as [E1 E2 E3 E4 E5 E6 E7 E8 E9 E10 E11]. specialize (E7 Eo).
  assert (strings_of sl = []) as Es.
  { unfold strings_of. clear -E7. induction E7 as [|x sl Hx _ IH]; [done|]. rewrite filter_cons_False by (intros ?; done). done. }
  assert (sl.*2 = replicate (length sl) 0) as E2s by (clear -E7; induction E7 as [|x sl Hx _ IH]; [done|]; cbn [fmap list_fmap length replicate]; by rewrite Hx, IH).
  unfold mine in E9, E10, E11. rewrite Eo, Es in E9, E10, E11. cbn [app list_to_set] in E10, E11.
  assert (zlen (u_fresh h pa (zlen sl + 8)) = zlen sl + 8) as Lf by (apply u_fresh_law; lia).
  assert (exists ta, zset (copy_loop (u_fresh h pa (zlen sl + 8)) 0 (arr e) 0 (zlen sl)) (zlen sl) 0 = sl.*1 ++ 0 :: ta) as [ta Ea].
  { destruct (has_environ e) eqn:Eh.
    - destruct (E3 eq_refl) as [t Et]. rewrite Et, copy_end by (rewrite ?zlen_fmap; lia). by eexists.
    - rewrite (E2 eq_refl) in *. cbn [fmap list_fmap app]. change (zlen (@nil (Z * Z))) with 0. exists (drop 1 (u_fresh h pa 8)).
      apply (copy_end (u_fresh h pa 8) [] (arr e) 0); rewrite ?u_fresh_law; done. }
  split; cbn [heap has_environ arr smem env_is_owned owned env_cap env_count]; try done.
  - intros _. by exists ta.
  - intros _. split; [done|]. split; [|split_and!].
    + exists (replicate 8 0). rewrite E2s, <- replicate_add. f_equal. unfold zlen. lia.
    + rewrite zlen_zset, zlen_copy_loop by lia. done.
    + rewrite zlen_replicate. lia.
    + done.
  - eapply Forall_impl; [exact E8|]. intros x Hx. by rewrite A2, A1.
  - unfold mine. cbn [env_is_owned env_arr env_owned]. rewrite Es. cbn [app]. repeat constructor; set_solver.
  - unfold mine. cbn [env_is_owned env_arr env_owned]. rewrite Es. cbn [app list_to_set]. rewrite (dom_live_insert _ _ _ _ L2), (dom_live_insert _ _ _ _ L1), E10. set_solver.
  - unfold mine. cbn [env_is_owned env_arr env_owned]. rewrite Es. set_solver.
Qed.

Lemma ensure_slot_spec O e sl ss ok e' : env_at O e sl ss -> env_is_owned e = true -> env_cap e < 2 ^ 50 -> ensure_slot e = (ok, e') ->
  env_at O e' sl ss /\ own_cap e' <= Z.max (own_cap e) (2 * zlen sl + 2) /\
  (if ok : bool then env_is_owned e' = true /\ zlen sl + 2 <= env_cap e' else eerrno e' = ENOMEM).
Proof.
  intros E Eo Hc. destruct (ea_own _ _ _ _ E Eo) as (Eh & [to Eto] & La & Lo & Ec). unfold ensure_slot. rewrite Ec.
  destruct (Z.leb_spec (zlen sl + 2) (env_cap e)); [intros [= <- <-]; split_and!; [done|lia|done|done]|].
  destruct (ea_arr _ _ _ _ E Eh) as [ta Eta].
  assert (zlen sl + 1 = env_cap e) as Hcap.
  { rewrite Eta, zlen_app, zlen_cons, zlen_fmap in La. pose proof (zlen_nonneg ta). pose proof (zlen_nonneg sl). lia. }
  pose proof (zlen_nonneg sl). set (ncap := if env_cap e =? 0 then 16 else env_cap e * 2).
  assert (ncap = 2 * env_cap e) as Hn by (unfold ncap; destruct (Z.eqb_spec (env_cap e) 0); lia).
  destruct (u_malloc ncap (heap e)) as [po h] eqn:Em.
  destruct (u_malloc_law (heap e) ncap po h (ea_wf _ _ _ _ E) ltac:(lia) Em) as [W1 A1 In1 F1 S1].
  destruct (Z.eqb_spec po 0) as [->|Hpo].
  { intros [= <- <-]. split; [|split; [unfold own_cap; cbn; lia|done]]. apply env_errno. by eapply env_heap_step; [exact E|done|apply F1|done|]. }
  destruct (S1 Hpo) as (N1 & sz1 & _ & L1 & _).
  destruct (fresh_ptr _ _ _ _ po E N1 (In1 Hpo)) as (P1 & P2 & P3).
  assert (env_arr e ∈ mine e sl /\ env_owned e ∈ mine e sl) as [Ha Ho] by (unfold mine; rewrite Eo; set_solver).
  assert (is_Some (u_live (heap e) !! env_arr e)) as [sza La0] by (apply elem_of_dom; rewrite (ea_live _ _ _ _ E); set_solver).
  assert (u_live h !! env_arr e = Some sza) as La1 by (rewrite L1, lookup_insert_ne; [done|set_solver]).
  destruct (u_realloc (env_arr e) (ncap * 8) h) as [pa h'] eqn:Er.
  destruct (u_realloc_law h (env_arr e) sza (ncap * 8) pa h' W1 La1 ltac:(lia) Er) as (W2 & A2 & F2 & S2).
  destruct (Z.eqb_spec pa 0) as [->|Hpa].
  { intros [= <- <-]. split; [|split; [unfold own_cap; cbn; lia|done]]. destruct (u_free_law h' po W2) as (W3 & A3 & L3); [by rewrite (F2 eq_refl), L1, lookup_insert_eq|].
    apply env_errno. eapply env_heap_step; [exact E|done| |intros x; cbn; by rewrite A3, A2, A1|done].
    cbn [heap set_heap_e]. rewrite L3, (F2 eq_refl), L1. by apply delete_insert_id. }
  destruct (S2 Hpa) as (In2 & Hnew & sz2 & _ & L2). intros [= <- <-].
  destruct E as [E1 E2 E3 E4 E5 E6 E7 E8 E9 E10 E11]. unfold mine in *. rewrite Eo in *. cbn [app] in *.
  apply NoDup_cons in E9 as [D1 D2]. apply NoDup_cons in D2 as [D2 D3].
  assert (pa <> po /\ pa <> env_owned e /\ pa ∉ strings_of sl /\ pa ∉ O) as (R1 & R2 & R3 & R4).
  { destruct Hnew as [->|Hnew]; [set_solver|]. rewrite L1 in Hnew. apply lookup_insert_None in Hnew as [Hnew ?].
    apply not_elem_of_dom in Hnew. rewrite E10 in Hnew. rename select (po <> pa) into Hpp. clear -Hnew Hpp. set_solver. }
  assert (dom (u_live h') = {[pa]} ∪ (({[po]} ∪ (O ∪ ({[env_arr e]} ∪ ({[env_owned e]} ∪ list_to_set (strings_of sl))))) ∖ {[env_arr e]})) as Ld.
  { rewrite (dom_live_insert _ _ _ _ L2), dom_delete_L, (dom_live_insert _ _ _ _ L1), E10. done. }
  destruct (u_free_law h' (env_owned e) W2) as (W3 & A3 & L3). { apply elem_of_dom. rewrite Ld. clear -D1. set_solver. }
  assert (zlen (u_fresh h po ncap) = ncap) as Lf by (apply u_fresh_law; lia). assert (zlen (u_fresh h' pa ncap) = ncap) as Lf' by (apply u_fresh_law; lia).
  split; [|split_and!; [unfold own_cap; cbn [env_is_owned env_cap]; rewrite Eo; lia|done|cbn [env_cap]; lia]].
  assert (copy_loop (u_fresh h' pa ncap) 0 (arr e) 0 (env_cap e) = sl.*1 ++ 0 :: ta ++ drop (length (arr e)) (u_fresh h' pa ncap)) as Ea.
  { rewrite <- La, copy_front by lia. by rewrite Eta at 1; rewrite <- app_assoc. }
  assert (copy_loop (u_fresh h po ncap) 0 (owned e) 0 (env_cap e) = sl.*2 ++ to ++ drop (length (owned e)) (u_fresh h po ncap)) as Eow.
  { rewrite <- Lo, copy_front by lia. by rewrite Eto at 1; rewrite <- app_assoc. }
  split; cbn [heap has_environ arr smem env_is_owned owned env_cap env_count env_arr env_owned]; try done.
  - intros _. rewrite Ea. by eexists.
  - intros _. split; [done|]. split; [|split_and!].
    + rewrite Eow. apply fill_tail. rewrite zlen_fmap. lia.
    + rewrite zlen_copy_loop by lia. done.
    + rewrite zlen_fill_loop, zlen_copy_loop by (rewrite ?zlen_copy_loop; lia). done.
    + done.
  - eapply Forall_impl; [exact E8|]. intros x Hx. by rewrite A3, A2, A1.
  - unfold mine. cbn [env_is_owned env_arr env_owned app]. rewrite ?Eo. cbn [app].
    constructor; [clear -R1 R3; set_solver|]. constructor; [clear -P2; set_solver|done].
  - unfold mine. cbn [env_is_owned env_arr env_owned]. rewrite ?Eo, L3, dom_delete_L, Ld. cbn [app list_to_set].
    apply live_swap; clear -D1 D2 E11 P2 R2; set_solver.
  - unfold mine. cbn [env_is_owned env_arr env_owned]. rewrite ?Eo. cbn [app list_to_set].
    clear -R4 P1 E11. set_solver.
Qed.

(** Where the new string is: a block of its own, not yet in a slot. *)
Lemma entry_bytes (f n v : list Z) : is_cstr n -> is_cstr v -> zlen f = strlen n + 1 + strlen v + 1 ->
  copy_loop (zset (copy_loop f 0 n 0 (strlen n)) (strlen n) 61) (strlen n + 1) v 0 (strlen v + 1) = cstr n ++ 61 :: cstr v ++ [0].
Proof.
  intros [Hn _] [Hv _]. rewrite !strlen_cstr. intros Lf. destruct (cstr_split n Hn) as [tn En]. destruct (cstr_split v Hv) as [tv Ev].
  pose proof (zlen_nonneg (cstr n)). pose proof (zlen_nonneg (cstr v)). replace (copy_loop f 0 n 0) with (copy_loop f 0 (cstr n ++ 0 :: tn) 0) by (by rewrite <- En). set (a := cstr n) in *. set (b := cstr v) in *.
  assert (zlen (zset (copy_loop f 0 (a ++ 0 :: tn) 0 (zlen a)) (zlen a) 61) = zlen f) as L1 by (rewrite zlen_zset, zlen_copy_loop; lia).
  apply (list_eq_zget 0). { rewrite zlen_copy_loop, L1, zlen_app, zlen_cons, zlen_app by lia. change (zlen [0]) with 1. lia. }
  intros j Hj. rewrite zlen_copy_loop, L1 in Hj by lia. rewrite zget_copy_loop by lia.
  destruct (Z.leb_spec (zlen a + 1) j); cbn [andb].
  - destruct (Z.ltb_spec j (zlen a + 1 + (zlen b + 1))); [|lia]. rewrite Ev.
    change (a ++ 61 :: b ++ [0]) with (a ++ [61] ++ b ++ [0]). rewrite app_assoc. unfold zget.
    rewrite (app_nth2 (a ++ [61])) by (rewrite length_app; unfold zlen in *; simpl; lia).
    change (b ++ 0 :: tv) with (b ++ [0] ++ tv). rewrite (app_assoc b), app_nth1 by (rewrite length_app; unfold zlen in *; simpl; lia).
    f_equal. rewrite length_app. unfold zlen in *. simpl. lia.
  - rewrite zget_zset by (rewrite ?zlen_copy_loop; lia). destruct (Z.eqb_spec (zlen a) j) as [<-|Hne]; [by rewrite zget_mid|].
    rewrite zget_copy_loop by lia. destruct (Z.leb_spec 0 j); [|lia]. cbn [andb]. destruct (Z.ltb_spec j (0 + zlen a)); [|lia].
    rewrite !zget_app_l by lia. f_equal. lia.
Qed.

Lemma entry_cstr n v : is_cstr n -> is_cstr v -> is_cstr (cstr n ++ 61 :: cstr v ++ [0]) /\ cstr (cstr n ++ 61 :: cstr v ++ [0]) = cstr n ++ 61 :: cstr v.
Proof.
  intros [Hn Bn] [Hv Bv]. split.
  - split; [set_solver|]. destruct (cstr_split n Hn) as [tn En]. destruct (cstr_split v Hv) as [tv Ev]. unfold bytes in *.
    rewrite En in Bn. rewrite Ev in Bv. apply Forall_app in Bn as [Bn _]. apply Forall_app in Bv as [Bv _].
    apply Forall_app. split; [done|]. constructor; [by vm_compute|]. apply Forall_app. split; [done|]. constructor; [by vm_compute|constructor].
  - change (61 :: cstr v ++ [0]) with ((61 :: cstr v) ++ [0]). rewrite app_assoc. apply cstr_app.
    pose proof (cstr_no_nul n). pose proof (cstr_no_nul v). set_solver.
Qed.

Lemma make_entry_spec O e sl ss n v p e' : env_at O e sl ss -> is_cstr n -> is_cstr v -> zlen (cstr n) < 2 ^ 50 -> zlen (cstr v) < 2 ^ 50 ->
  make_entry e n v = (p, e') ->
  env_is_owned e' = env_is_owned e /\ env_cap e' = env_cap e /\ (p = 0 -> env_at O e' sl ss) /\
  (p <> 0 -> env_at ({[p]} ∪ O) e' sl ss /\ smem e' !! p = Some (cstr n ++ 61 :: cstr v ++ [0]) /\ p ∉ O /\ u_area (heap e') p = true).
Proof.
  intros E Cn Cv Ln Lv. unfold make_entry. pose proof (zlen_nonneg (cstr n)). pose proof (zlen_nonneg (cstr v)).
  set (sz := strlen n + 1 + strlen v + 1). assert (0 < sz <= 2 ^ 63) as Hsz by (subst sz; rewrite !strlen_cstr; lia).
  destruct (u_malloc sz (heap e)) as [q h] eqn:Em. destruct (u_malloc_law (heap e) sz q h (ea_wf _ _ _ _ E) Hsz Em) as [W1 A1 In1 F1 S1].
  destruct (Z.eqb_spec q 0) as [->|Hq]; intros [= <- <-].
  { split_and!; [done|done| |done]. intros _. eapply env_heap_step; [exact E|done|by apply F1|done|done]. }
  split_and!; [done|done|done|]. intros _. destruct (S1 Hq) as (N1 & sz1 & _ & L1 & _). destruct (fresh_ptr _ _ _ _ q E N1 (In1 Hq)) as (P1 & P2 & P3).
  cbn [smem set_mem_e heap env_is_owned env_cap]. rewrite lookup_insert_eq, entry_bytes by (first [done|rewrite u_fresh_law; lia]).
  split; [|split_and!; [done|done|by rewrite A1; apply In1]]. destruct E as [E1 E2 E3 E4 E5 E6 E7 E8 E9 E10 E11].
  assert (forall m, mine (set_mem_e e h m) sl = mine e sl) as Em' by done.
  split; cbn [heap has_environ arr smem env_is_owned owned env_cap env_count set_mem_e]; rewrite ?Em'; try done.
  - clear -E5 P3. induction E5 as [|x s sl ss [Hx Hs] _ IH]; [constructor|]. apply Forall_cons in P3 as [P3 P4]. constructor; [|by apply IH].
    rewrite lookup_insert_ne by done. done.
  - eapply Forall_impl; [exact E8|]. intros x Hx. by rewrite A1.
  - rewrite (dom_live_insert _ _ _ _ L1), E10. clear. set_solver.
  - clear -E11 P2. set_solver.
Qed.

(** ** Changing a slot *)

Lemma mine_split e l1 q o l2 : mine e (l1 ++ (q, o) :: l2) ≡ₚ (if o =? 0 then [] else [q]) ++ mine e (l1 ++ l2).
Proof.
  unfold mine, strings_of. rewrite !filter_app, filter_cons. cbn [snd]. destruct (Z.eqb_spec o 0) as [->|Ho].
  - rewrite decide_False by (intros H'; by apply H'). done.
  - rewrite decide_True by done. cbn [app]. rewrite !fmap_app. cbn [fmap list_fmap fst].
    rewrite <- Permutation_middle, <- Permutation_middle. done.
Qed.

Lemma mine_set e l1 p l2 : mine e (l1 ++ (p, 1) :: l2) ≡ₚ p :: mine e (l1 ++ l2).
Proof. by rewrite mine_split. Qed.

(** Freeing the string of a slot keeps the others. *)
Lemma drop_string_spec O e l1 q o l2 s1 s s2 e' : env_at O e (l1 ++ (q, o) :: l2) (s1 ++ s :: s2) -> length l1 = length s1 ->
  env_is_owned e = true -> e' = drop_string e (zlen l1) ->
  u_wf (heap e') /\ (forall x, u_area (heap e') x = u_area (heap e) x) /\ dom (u_live (heap e')) = O ∪ list_to_set (mine e (l1 ++ l2)) /\
  Forall2 (fun x s => smem e' !! x.1 = Some s /\ is_cstr s) (l1 ++ l2) (s1 ++ s2) /\
  (forall x t, x ∈ O -> smem e !! x = Some t -> smem e' !! x = Some t) /\
  NoDup (mine e (l1 ++ l2)) /\ O ## list_to_set (mine e (l1 ++ l2)) /\ Forall (fun x => u_area (heap e) x.1 = negb (x.2 =? 0)) (l1 ++ l2) /\
  (has_environ e', arr e', env_arr e', env_owned e', owned e', env_cap e', env_count e', env_is_owned e', eerrno e') =
  (has_environ e, arr e, env_arr e, env_owned e, owned e, env_cap e, env_count e, env_is_owned e, eerrno e).
Proof.
  intros E Hlen Eo ->. destruct (ea_own _ _ _ _ E Eo) as (Eh & [to Eto] & _). destruct (ea_arr _ _ _ _ E Eh) as [ta Eta].
  destruct E as [E1 E2 E3 E4 E5 E6 E7 E8 E9 E10 E11]. unfold drop_string.
  assert (zget 0 (owned e) (zlen l1) = o) as -> by (rewrite Eto, fmap_app, fmap_cons, <- app_assoc, <- (zlen_fmap snd l1); apply zget_mid).
  assert (zget 0 (arr e) (zlen l1) = q) as -> by (rewrite Eta, fmap_app, fmap_cons, <- app_assoc, <- (zlen_fmap fst l1); apply zget_mid).
  rewrite (mine_split e l1 q o l2) in E9, E10, E11. apply Forall2_app_inv in E5 as [E5a E5b]; [|done]. apply Forall2_cons in E5b as [_ E5b].
  apply Forall_app in E8 as [E8a E8b]. apply Forall_cons in E8b as [E8c E8b]. cbn [fst snd] in E8c.
  assert (Forall2 (fun x s => smem e !! x.1 = Some s /\ is_cstr s) (l1 ++ l2) (s1 ++ s2)) as E5 by (by apply Forall2_app).
  assert (Forall (fun x => u_area (heap e) x.1 = negb (x.2 =? 0)) (l1 ++ l2)) as E8 by (by apply Forall_app).
  revert E8c E9 E10 E11. destruct (Z.eqb_spec o 0) as [->|Ho]; intros E8c E9 E10 E11; cbn [app negb] in *; [by split_and!|].
  apply NoDup_cons in E9 as [D1 D2]. cbn [list_to_set] in E10, E11.
  destruct (u_free_law (heap e) q E1) as (W & Ar & L). { apply elem_of_dom. rewrite E10. clear. set_solver. }
  assert (Forall (fun x => x.1 <> q) (l1 ++ l2)) as Hne.
  { apply Forall_forall. intros [x ox] Hx Eq. cbn [fst] in Eq. subst x. rewrite Forall_forall in E8. specialize (E8 _ Hx). cbn in E8.
    rewrite E8c in E8. apply D1. unfold mine, strings_of. apply elem_of_app. right. apply list_elem_of_fmap. exists (q, ox). split; [done|].
    apply list_elem_of_filter. split; [|done]. cbn. intros ->. done. }
  cbn [heap smem set_mem_e has_environ arr env_arr env_owned owned env_cap env_count env_is_owned eerrno].
  split_and!; try done.
  - rewrite L, dom_delete_L, E10. clear -D1 E11. set_solver.
  - clear -E5 Hne. induction E5 as [|x t l ss [Hx Hs] _ IH]; [constructor|]. apply Forall_cons in Hne as [Hn1 Hn2]. constructor; [|by apply IH].
    by rewrite lookup_delete_ne.
  - intros x t Hx. rewrite lookup_delete_ne; [done|]. clear -Hx E11. set_solver.
  - clear -E11. set_solver.
Qed.

(** The fields [drop_string] leaves. *)
Ltac fields Q := injection Q as Q1 Q2 Q3 Q4 Q5 Q6 Q7 Q8 Q9.

Lemma replace_entry_spec O e l1 q o l2 s1 s s2 p t : env_at ({[p]} ∪ O) e (l1 ++ (q, o) :: l2) (s1 ++ s :: s2) -> length l1 = length s1 ->
  env_is_owned e = true -> smem e !! p = Some t -> is_cstr t -> p <> 0 -> p ∉ O -> u_area (heap e) p = true ->
  let e' := drop_string e (zlen l1) in
  env_at O (set_slots e' (zset (arr e') (zlen l1) p) (zset (owned e') (zlen l1) 1) (env_count e')) (l1 ++ (p, 1) :: l2) (s1 ++ t :: s2).
Proof.
  intros E Hlen Eo Ht Ct Hp HpO Hap e'. destruct (drop_string_spec _ _ _ _ _ _ _ _ _ e' E Hlen Eo eq_refl) as (W & Ar & Lv & Str & Oth & Nd & Dj & St & Q).
  fields Q. destruct (ea_own _ _ _ _ E Eo) as (Eh & [to Eto] & La & Lo & Ec). destruct (ea_arr _ _ _ _ E Eh) as [ta Eta].
  pose proof (ea_ptr _ _ _ _ E) as Ep. apply Forall_app in Ep as [Ep1 Ep2]. apply Forall_cons in Ep2 as [_ Ep2].
  assert (zset (arr e) (zlen l1) p = (l1 ++ (p, 1) :: l2).*1 ++ 0 :: ta) as Ea.
  { rewrite Eta, !fmap_app, !fmap_cons, <- !app_assoc. cbn [app fst]. rewrite <- (zlen_fmap fst l1). apply zset_mid. }
  assert (zset (owned e) (zlen l1) 1 = (l1 ++ (p, 1) :: l2).*2 ++ to) as Ew.
  { rewrite Eto, !fmap_app, !fmap_cons, <- !app_assoc. cbn [app snd]. rewrite <- (zlen_fmap snd l1). apply zset_mid. }
  assert (forall a w n, mine (set_slots e' a w n) (l1 ++ (p, 1) :: l2) ≡ₚ p :: mine e (l1 ++ l2)) as Em.
  { intros a w n. rewrite mine_set. unfold mine. cbn [env_is_owned env_arr env_owned set_slots]. by rewrite Q8, Q3, Q4. }
  split; cbn [heap has_environ arr smem env_is_owned owned env_cap env_count set_slots]; rewrite ?Q1, ?Q2, ?Q5, ?Q6, ?Q7, ?Q8.
  - done.
  - congruence.
  - intros _. by exists ta.
  - apply Forall_app. split; [done|]. by constructor.
  - apply Forall2_app_inv in Str as [S1 S2]; [|done]. apply Forall2_app; [done|]. constructor; [|done]. split; [|done]. cbn [fst].
    apply Oth; [|done]. clear. set_solver.
  - intros _. split; [done|]. split; [by exists to|]. rewrite !zlen_zset, Ec. split_and!; [done|done|]. by rewrite !zlen_app, !zlen_cons.
  - congruence.
  - apply Forall_app in St as [St1 St2]. apply Forall_app. split; [eapply Forall_impl; [exact St1|]; intros x Hx; by rewrite Ar|].
    constructor; [by rewrite Ar|]. eapply Forall_impl; [exact St2|]. intros x Hx. by rewrite Ar.
  - rewrite Em. apply NoDup_cons. split; [|done]. clear -Dj. set_solver.
  - rewrite Em, Lv. cbn [list_to_set]. clear. set_solver.
  - rewrite Em. cbn [list_to_set]. clear -Dj HpO. set_solver.
Qed.

Lemma append_spec O e sl ss p t : env_at ({[p]} ∪ O) e sl ss -> env_is_owned e = true -> zlen sl + 2 <= env_cap e ->
  smem e !! p = Some t -> is_cstr t -> p <> 0 -> p ∉ O -> u_area (heap e) p = true ->
  let n := env_count e in
  env_at O (set_slots e (zset (zset (arr e) n p) (n + 1) 0) (zset (owned e) n 1) (n + 1)) (sl ++ [(p, 1)]) (ss ++ [t]).
Proof.
  intros E Eo Hcap Ht Ct Hp HpO Hap n. destruct (ea_own _ _ _ _ E Eo) as (Eh & [to Eto] & La & Lo & Ec). destruct (ea_arr _ _ _ _ E Eh) as [ta Eta].
  destruct E as [E1 E2 E3 E4 E5 E6 E7 E8 E9 E10 E11]. subst n. rewrite Ec.
  destruct ta as [|x ta]; [rewrite Eta, zlen_app, zlen_fmap in La; change (zlen [0]) with 1 in La; lia|].
  destruct to as [|y to]; [rewrite Eto, app_nil_r, zlen_fmap in Lo; lia|].
  assert (zset (zset (arr e) (zlen sl) p) (zlen sl + 1) 0 = (sl ++ [(p, 1)]).*1 ++ 0 :: ta) as Ea.
  { rewrite Eta, fmap_app. rewrite <- (zlen_fmap fst sl), zset_mid, (cons_middle p), app_assoc.
    replace (zlen sl.*1 + 1) with (zlen (sl.*1 ++ [p])) by (by rewrite zlen_app). apply zset_mid. }
  assert (zset (owned e) (zlen sl) 1 = (sl ++ [(p, 1)]).*2 ++ to) as Ew.
  { rewrite Eto, fmap_app, <- app_assoc, <- (zlen_fmap snd sl). apply zset_mid. }
  assert (forall a w n, mine (set_slots e a w n) (sl ++ [(p, 1)]) ≡ₚ p :: mine e sl) as Em.
  { intros a w n. rewrite mine_set, app_nil_r. done. }
  split; cbn [heap has_environ arr smem env_is_owned owned env_cap env_count set_slots].
  - done.
  - congruence.
  - intros _. by exists ta.
  - apply Forall_app. split; [done|]. by repeat constructor.
  - apply Forall2_app; [done|]. by apply Forall2_cons.
  - intros _. split; [done|]. split; [by exists to|]. rewrite !zlen_zset. split_and!; [done|done|]. by rewrite zlen_app.
  - congruence.
  - apply Forall_app. split; [done|]. by repeat constructor.
  - rewrite Em. apply NoDup_cons. split; [|done]. clear -E11. set_solver.
  - rewrite Em, E10. cbn [list_to_set]. clear. set_solver.
  - rewrite Em. cbn [list_to_set]. clear -E11 HpO. set_solver.
Qed.

Lemma shift_down_spec (l1 l2 t : list Z) x :
  zset (shift_down (l1 ++ x :: l2 ++ t) (zlen l1) (zlen l1 + 1 + zlen l2)) (zlen l1 + zlen l2) 0 = l1 ++ l2 ++ 0 :: t.
Proof.
  unfold shift_down. rewrite range_step_1. replace (zlen l1 + 1 + zlen l2 - 1 - zlen l1) with (zlen l2) by lia.
  revert l1 x. induction l2 as [|y l2 IH]; intros l1 x.
  - change (zlen []) with 0. rewrite seqZ_nil by lia. rewrite Z.add_0_r. apply zset_mid.
  - rewrite zlen_cons, seqZ_cons by (pose proof (zlen_nonneg l2); lia). cbn [foldl app]. rewrite zset_mid.
    replace (zget 0 (l1 ++ x :: y :: l2 ++ t) (zlen l1 + 1)) with y.
    2: { rewrite (cons_middle x), app_assoc. replace (zlen l1 + 1) with (zlen (l1 ++ [x])) by (by rewrite zlen_app). by rewrite zget_mid. }
    specialize (IH (l1 ++ [y]) y). rewrite zlen_app, <- !app_assoc in IH. change (zlen [y]) with 1 in IH. cbn [app] in IH.
    replace (Z.succ (zlen l1)) with (zlen l1 + 1) by lia. replace (Z.pred (1 + zlen l2)) with (zlen l2) by lia.
    replace (zlen l1 + (1 + zlen l2)) with (zlen l1 + 1 + zlen l2) by lia. done.
Qed.

Lemma remove_spec O e l1 q o l2 s1 s s2 : env_at O e (l1 ++ (q, o) :: l2) (s1 ++ s :: s2) -> length l1 = length s1 -> env_is_owned e = true ->
  let e' := drop_string e (zlen l1) in
  let n := env_count e' - 1 in
  env_at O (set_slots e' (zset (shift_down (arr e') (zlen l1) (env_count e')) n 0) (zset (shift_down (owned e') (zlen l1) (env_count e')) n 0) n)
    (l1 ++ l2) (s1 ++ s2).
Proof.
  intros E Hlen Eo e' n. destruct (drop_string_spec _ _ _ _ _ _ _ _ _ e' E Hlen Eo eq_refl) as (W & Ar & Lv & Str & _ & Nd & Dj & St & Q).
  fields Q. destruct (ea_own _ _ _ _ E Eo) as (Eh & [to Eto] & La & Lo & Ec). destruct (ea_arr _ _ _ _ E Eh) as [ta Eta].
  pose proof (ea_ptr _ _ _ _ E) as Ep. apply Forall_app in Ep as [Ep1 Ep2]. apply Forall_cons in Ep2 as [_ Ep2].
  subst n. rewrite Q2, Q5, Q7, Ec, zlen_app, zlen_cons. replace (zlen l1 + (1 + zlen l2) - 1) with (zlen l1 + zlen l2) by lia. rewrite Z.add_assoc.
  assert (zset (shift_down (arr e) (zlen l1) (zlen l1 + 1 + zlen l2)) (zlen l1 + zlen l2) 0 = (l1 ++ l2).*1 ++ 0 :: 0 :: ta) as Ea.
  { rewrite Eta, !fmap_app, !fmap_cons, <- !app_assoc, <- (zlen_fmap fst l1), <- (zlen_fmap fst l2). apply shift_down_spec. }
  assert (zset (shift_down (owned e) (zlen l1) (zlen l1 + 1 + zlen l2)) (zlen l1 + zlen l2) 0 = (l1 ++ l2).*2 ++ 0 :: to) as Ew.
  { rewrite Eto, !fmap_app, !fmap_cons, <- !app_assoc, <- (zlen_fmap snd l1), <- (zlen_fmap snd l2). apply shift_down_spec. }
  assert (forall a w m, mine (set_slots e' a w m) (l1 ++ l2) = mine e (l1 ++ l2)) as Em.
  { intros a w m. unfold mine. cbn [env_is_owned env_arr env_owned set_slots]. by rewrite Q8, Q3, Q4. }
  rewrite Ea, Ew.
  split; cbn [heap has_environ arr smem env_is_owned owned env_cap env_count set_slots]; rewrite ?Q1, ?Q2, ?Q5, ?Q6, ?Q7, ?Q8, ?Em; try done.
  - congruence.
  - intros _. by eexists.
  - by apply Forall_app.
  - intros _. split; [done|]. split; [by eexists|]. rewrite Eta, zlen_app, zlen_cons, zlen_fmap in La. rewrite Eto, zlen_app, zlen_fmap in Lo.
    rewrite !zlen_app, !zlen_cons, !zlen_fmap, !zlen_app in *. split_and!; lia.
  - congruence.
  - eapply Forall_impl; [exact St|]. intros x Hx. by rewrite Ar.
Qed.

(** ** The scan *)

Lemma lookup_var_none n v vs : lookup_var n (v :: vs) = None <-> var_value n v = None /\ lookup_var n vs = None.
Proof. cbn [lookup_var]. destruct (var_value n v); naive_solver. Qed.

Lemma set_var_absent n x vs : lookup_var n vs = None -> set_var n x vs = vs ++ [n ++ 61 :: x].
Proof. induction vs as [|v vs IH]; [done|]. intros [E1 E2]%lookup_var_none. cbn [set_var]. by rewrite E1, IH. Qed.

Lemma del_var_absent n vs : lookup_var n vs = None -> del_var n vs = vs.
Proof. induction vs as [|v vs IH]; [done|]. intros [E1 E2]%lookup_var_none. cbn [del_var]. by rewrite E1, IH. Qed.

Lemma var_at n x y vs v vs' : lookup_var n vs = None -> var_value n v = Some y ->
  lookup_var n (vs ++ v :: vs') = Some y /\ set_var n x (vs ++ v :: vs') = vs ++ (n ++ 61 :: x) :: vs' /\ del_var n (vs ++ v :: vs') = vs ++ vs'.
Proof.
  intros En Ev. induction vs as [|w vs IH]; cbn [app lookup_var set_var del_var]; [by rewrite Ev|].
  apply lookup_var_none in En as [E1 E2]. destruct (IH E2) as (-> & -> & ->). by rewrite E1.
Qed.

(** The slot the scan stops at. *)
Record hit_at sl (ss : list (list Z)) (n : list Z) (l1 : list (Z * Z)) (q o : Z) l2 s1 (s : list Z) s2 (x : list Z) : Prop := {
  ha_sl : sl = l1 ++ (q, o) :: l2;
  ha_ss : ss = s1 ++ s :: s2;
  ha_len : length l1 = length s1;
  ha_before : lookup_var n (cstr <$> s1) = None;
  ha_val : var_value n (cstr s) = Some x }.

Lemma hit_var sl ss n l1 q o l2 s1 s s2 x y : hit_at sl ss n l1 q o l2 s1 s s2 x ->
  lookup_var n (cstr <$> ss) = Some x /\ set_var n y (cstr <$> ss) = (cstr <$> s1) ++ (n ++ 61 :: y) :: (cstr <$> s2) /\
  del_var n (cstr <$> ss) = cstr <$> (s1 ++ s2).
Proof. intros [_ -> _ Eb Ev]. rewrite !fmap_app, fmap_cons. by apply var_at. Qed.

Lemma find_entry_spec (m : gmap Z (list Z)) sl ss ta n i : Forall (fun x => x.1 <> 0) sl -> is_cstr n ->
  Forall2 (fun x s => m !! x.1 = Some s /\ is_cstr s) sl ss ->
  (find_entry m (sl.*1 ++ 0 :: ta) n i = Some None /\ lookup_var (cstr n) (cstr <$> ss) = None) \/
  exists l1 q o l2 s1 s s2 x, find_entry m (sl.*1 ++ 0 :: ta) n i = Some (Some (i + zlen l1, s)) /\ hit_at sl ss (cstr n) l1 q o l2 s1 s s2 x.
Proof.
  intros Hp Cn HS. revert i Hp. induction HS as [|[p o] s sl ss [Hm Cs] HS IH]; intros i Hp; [by left|].
  apply Forall_cons in Hp as [Hp0 Hp]. cbn [fst] in Hp0, Hm. cbn [fmap list_fmap app find_entry fst].
  destruct (Z.eqb_spec p 0); [done|]. rewrite Hm. cbn [mbind option_bind]. pose proof (names_spec s n Cs Cn) as Nm.
  destruct (names s n).
  - right. destruct (proj1 Nm eq_refl) as [x Ex]. rewrite <- app_assoc in Ex. exists [], p, o, sl, [], s, ss, x.
    split; [change (zlen []) with 0; by rewrite Z.add_0_r|]. split; try done. by apply var_value_Some.
  - assert (var_value (cstr n) (cstr s) = None) as Ev.
    { destruct (var_value _ _) as [x|] eqn:Ev; [|done]. apply var_value_Some in Ev. destruct Nm as [_ Nm].
      discriminate Nm. rewrite Ev. exists x. by rewrite <- app_assoc. }
    destruct (IH (i + 1) Hp) as [[-> El]|(l1 & q & o' & l2 & s1 & s' & s2 & x & -> & [-> -> Hl Hb Hv])].
    + left. split; [done|]. by apply lookup_var_none.
    + right. exists ((p, o) :: l1), q, o', l2, (s :: s1), s', s2, x. split; [rewrite zlen_cons; do 3 f_equal; lia|].
      split; try done; [by cbn [length]; rewrite Hl|]. by apply lookup_var_none.
Qed.

Lemma scan_spec O e sl ss n : env_at O e sl ss -> is_cstr n ->
  (scan e n = Some None /\ lookup_var (cstr n) (cstr <$> ss) = None) \/
  exists l1 q o l2 s1 s s2 x, scan e n = Some (Some (zlen l1, s)) /\ hit_at sl ss (cstr n) l1 q o l2 s1 s s2 x.
Proof.
  intros E Cn. unfold scan. destruct (has_environ e) eqn:Eh.
  - destruct (ea_arr _ _ _ _ E Eh) as [ta ->]. apply (find_entry_spec _ _ _ _ _ 0); [apply E|done|apply E].
  - left. pose proof (ea_str _ _ _ _ E) as Es. rewrite (ea_none _ _ _ _ E Eh) in Es. by inversion Es.
Qed.

Lemma getenv_spec O e sl ss n : env_at O e sl ss -> is_cstr n -> bad_name n = false ->
  exists r, getenv e (Some n) = Some r /\ (cstr <$> r) = lookup_var (cstr n) (cstr <$> ss) /\ (forall v, r = Some v -> 0 ∈ v).
Proof.
  intros E Cn Gn. unfold getenv. rewrite Gn.
  destruct (scan_spec _ _ _ _ _ E Cn) as [[-> ->]|(l1 & q & o & l2 & s1 & s & s2 & x & -> & Hh)]; [by exists None|].
  eexists. split; [done|]. destruct (hit_var _ _ _ _ _ _ _ _ _ _ _ [] Hh) as [-> _]. cbn [fmap option_fmap option_map].
  destruct Hh as [_ Ess Hl _ Hv]. apply var_value_Some in Hv.
  assert (is_cstr s) as [Cs _]. { pose proof (ea_str _ _ _ _ E) as Es. rewrite Ess in Es. apply Forall2_app_inv_r in Es as (? & ? & _ & Es & _). inversion Es as [|? ? ? ? [_ Hc]]. done. }
  destruct (cstr_split s Cs) as [t Et]. pose proof (cstr_no_nul s) as Hz. rewrite Hv in Et, Hz. rewrite Et, strlen_cstr.
  change (61 :: x) with ([61] ++ x). rewrite <- !app_assoc, app_assoc.
  replace (Z.to_nat (zlen (cstr n) + 1)) with (length (cstr n ++ [61])) by (rewrite length_app; unfold zlen; simpl; lia).
  rewrite drop_app_length. rewrite cstr_app by set_solver. split; [done|]. intros ? [= <-]. set_solver.
Qed.

(** ** The operations *)

(** What a change leaves: the strings [vs], or those of before and [ENOMEM]. *)
Definition outcome O e sl (ss : list (list Z)) (vs : list (list Z)) (r : Z) e' : Prop :=
  exists sl' ss', env_at O e' sl' ss' /\ zlen sl' <= zlen sl + 1 /\ own_cap e' <= Z.max (own_cap e) (2 * zlen sl + 16) /\
    ((r = 0 /\ cstr <$> ss' = vs) \/ (r = -1 /\ eerrno e' = ENOMEM /\ cstr <$> ss' = cstr <$> ss)).

Lemma outcome_fail O e sl ss vs e' : env_at O e' sl ss -> own_cap e' <= Z.max (own_cap e) (2 * zlen sl + 16) -> eerrno e' = ENOMEM ->
  outcome O e sl ss vs (-1) e'.
Proof. intros. exists sl, ss. split_and!; [done|lia|done|by right]. Qed.

(** Sizes the program can have. *)
Record sized e sl : Prop := { sz_slots : zlen sl < 2 ^ 49; sz_cap : own_cap e < 2 ^ 50 }.

Lemma cap_owned e : env_is_owned e = true -> own_cap e = env_cap e.
Proof. unfold own_cap. by intros ->. Qed.

Lemma setenv_spec O e sl ss n v ow : env_at O e sl ss -> sized e sl -> is_cstr n -> is_cstr v -> bad_name n = false ->
  zlen (cstr n) < 2 ^ 50 -> zlen (cstr v) < 2 ^ 50 ->
  exists r e', setenv e (Some n) (Some v) ow = Some (r, e') /\
    outcome O e sl ss (if ow || bool_decide (lookup_var (cstr n) (cstr <$> ss) = None) then set_var (cstr n) (cstr v) (cstr <$> ss) else cstr <$> ss) r e'.
Proof.
  intros E [Z1 Z2] Cn Cv Gn Ln Lv. unfold setenv. rewrite Gn. destruct (entry_cstr n v Cn Cv) as [Ct Ect]. pose proof (zlen_nonneg sl).
  destruct (scan_spec _ _ _ _ _ E Cn) as [[-> En]|(l1 & q & o & l2 & s1 & s & s2 & x & -> & Hh)]; cbn [mbind option_bind].
  - rewrite En, bool_decide_true, orb_true_r, set_var_absent by done. destruct (promote e) as [ok e1] eqn:Ep.
    destruct (promote_spec _ _ _ _ _ _ E ltac:(lia) Ep) as (E1 & Cp1 & R1). destruct ok; cbn [negb]; [|do 2 eexists; split; [done|by apply outcome_fail; [|lia|]]].
    rewrite (cap_owned e1 R1) in Cp1. destruct (ensure_slot e1) as [ok e2] eqn:Es.
    destruct (ensure_slot_spec _ _ _ _ _ _ E1 R1 ltac:(lia) Es) as (E2 & Cp2 & R2). rewrite (cap_owned e1 R1) in Cp2.
    destruct ok; cbn [negb]; [|do 2 eexists; split; [done|by apply outcome_fail; [|lia|]]]. destruct R2 as [R2 R2'].
    destruct (make_entry e2 n v) as [p e3] eqn:Em. destruct (make_entry_spec _ _ _ _ _ _ _ _ E2 Cn Cv Ln Lv Em) as (O3 & C3 & F3 & S3).
    assert (own_cap e3 = own_cap e2) as C3' by (unfold own_cap; by rewrite O3, C3).
    destruct (Z.eqb_spec p 0) as [Hp|Hp].
    { do 2 eexists. split; [done|]. apply outcome_fail; [by apply env_errno, F3| |done]. change (own_cap (set_errno_e e3 ENOMEM)) with (own_cap e3). lia. }
    destruct (S3 Hp) as (E3 & Mt & HpO & Hap). do 2 eexists. split; [done|]. eexists _, _.
    split; [apply append_spec; try done; [by rewrite O3|by rewrite C3]|]. split; [rewrite zlen_app; change (zlen [_]) with 1; lia|].
    split; [unfold own_cap at 1; cbn [env_is_owned env_cap set_slots]; change (own_cap e3 <= Z.max (own_cap e) (2 * zlen sl + 16)); lia|].
    left. split; [done|]. rewrite fmap_app. cbn [fmap list_fmap]. by rewrite Ect.
  - destruct (hit_var _ _ _ _ _ _ _ _ _ _ _ (cstr v) Hh) as (Hl & Hs & _). rewrite Hl. rewrite bool_decide_false, orb_false_r by done.
    destruct ow; cbn [negb].
    2: { do 2 eexists. split; [done|]. exists sl, ss. split_and!; [done|lia|lia|by left]. }
    rewrite Hs. destruct (promote e) as [ok e1] eqn:Ep. destruct (promote_spec _ _ _ _ _ _ E ltac:(lia) Ep) as (E1 & Cp1 & R1).
    destruct ok; cbn [negb]; [|do 2 eexists; split; [done|by apply outcome_fail; [|lia|]]].
    destruct (make_entry e1 n v) as [p e3] eqn:Em. destruct (make_entry_spec _ _ _ _ _ _ _ _ E1 Cn Cv Ln Lv Em) as (O3 & C3 & F3 & S3).
    assert (own_cap e3 = own_cap e1) as C3' by (unfold own_cap; by rewrite O3, C3).
    destruct (Z.eqb_spec p 0) as [Hp|Hp].
    { do 2 eexists. split; [done|]. apply outcome_fail; [by apply env_errno, F3| |done]. change (own_cap (set_errno_e e3 ENOMEM)) with (own_cap e3). lia. }
    destruct (S3 Hp) as (E3 & Mt & HpO & Hap). do 2 eexists. split; [done|]. destruct Hh as [-> -> Hlen _ _].
    rewrite <- O3 in R1. pose proof (replace_entry_spec _ _ _ _ _ _ _ _ _ _ _ E3 Hlen R1 Mt Ct Hp HpO Hap) as E4.
    destruct (drop_string_spec _ _ _ _ _ _ _ _ _ _ E3 Hlen R1 eq_refl) as (_ & _ & _ & _ & _ & _ & _ & _ & Q). fields Q.
    eexists _, _. split; [exact E4|]. split; [rewrite !zlen_app, !zlen_cons; lia|]. split; [|left; split; [done|by rewrite fmap_app, fmap_cons, Ect]].
    unfold own_cap at 1. cbn [env_is_owned env_cap set_slots]. rewrite Q8, Q6. change (own_cap e3 <= Z.max (own_cap e) (2 * zlen (l1 ++ (q, o) :: l2) + 16)). lia.
Qed.

Lemma unsetenv_spec O e sl ss n : env_at O e sl ss -> sized e sl -> is_cstr n -> bad_name n = false ->
  exists r e', unsetenv e (Some n) = Some (r, e') /\ outcome O e sl ss (del_var (cstr n) (cstr <$> ss)) r e'.
Proof.
  intros E [Z1 Z2] Cn Gn. unfold unsetenv. rewrite Gn. pose proof (zlen_nonneg sl).
  assert (outcome O e sl ss (cstr <$> ss) 0 e) as Same by (exists sl, ss; split_and!; [done|lia|lia|by left]).
  pose proof (scan_spec _ _ _ _ _ E Cn) as Sc. destruct (has_environ e) eqn:Eh; cbn [negb].
  2: { exists 0, e. split; [done|]. destruct Sc as [[_ En]|(l1 & q & o & l2 & s1 & s & s2 & x & Es & Hh)]; [by rewrite del_var_absent|].
       unfold scan in Es. by rewrite Eh in Es. }
  destruct Sc as [[-> En]|(l1 & q & o & l2 & s1 & s & s2 & x & -> & Hh)]; cbn [mbind option_bind]; [exists 0, e; by rewrite del_var_absent|].
  destruct (hit_var _ _ _ _ _ _ _ _ _ _ _ [] Hh) as (_ & _ & ->). destruct (promote e) as [ok e1] eqn:Ep.
  destruct (promote_spec _ _ _ _ _ _ E ltac:(lia) Ep) as (E1 & Cp1 & R1). destruct ok; cbn [negb]; [|do 2 eexists; split; [done|by apply outcome_fail; [|lia|]]].
  destruct Hh as [-> -> Hlen _ _]. pose proof (remove_spec _ _ _ _ _ _ _ _ _ E1 Hlen R1) as E4.
  destruct (drop_string_spec _ _ _ _ _ _ _ _ _ _ E1 Hlen R1 eq_refl) as (_ & _ & _ & _ & _ & _ & _ & _ & Q). fields Q.
  do 2 eexists. split; [done|]. eexists _, _. split; [exact E4|]. split; [rewrite !zlen_app, zlen_cons; lia|]. split; [|by left].
  unfold own_cap at 1. cbn [env_is_owned env_cap set_slots]. rewrite Q8, Q6. change (own_cap e1 <= Z.max (own_cap e) (2 * zlen (l1 ++ (q, o) :: l2) + 16)). lia.
Qed.
End inv.

(** ** Environments as maps *)

Inductive env_op :=
  | Getenv (name : option (list Z))
  | Setenv (name value : option (list Z)) (overwrite : bool)
  | Unsetenv (name : option (list Z)).

(** The value read, success, or the error in [errno]. *)
Inductive env_reply := Value (v : option (list Z)) | Success | Failure (errno : Z).

Section run.
Context {A : Type} `{UHeap A}.

Definition reply_of (x : option (Z * env A)) : option (env_reply * env A) :=
  '(r, e) ← x; Some (if r =? 0 then Success else Failure (eerrno e), e).

Definition run_op (e : env A) (op : env_op) : option (env_reply * env A) :=
  match op with
  | Getenv n => r ← getenv e n; Some (Value (cstr <$> r), e)
  | Setenv n v ow => reply_of (setenv e n v ow)
  | Unsetenv n => reply_of (unsetenv e n)
  end.

Fixpoint run_ops (e : env A) (ops : list env_op) : option (list env_reply * env A) :=
  match ops with
  | [] => Some ([], e)
  | op :: ops => '(r, e) ← run_op e op; '(rs, e) ← run_ops e ops; Some (r :: rs, e)
  end.
End run.

Definition name_ok (n : option (list Z)) : bool := match n with Some n => negb (bad_name n) | None => false end.
Definition str_of (n : option (list Z)) : list Z := match n with Some n => cstr n | None => [] end.

(** What the three calls promise of a map from names to values. *)
Inductive map_op (m : gmap (list Z) (list Z)) : env_op -> env_reply -> gmap (list Z) (list Z) -> Prop :=
  | mo_get n : name_ok n = true -> map_op m (Getenv n) (Value (m !! str_of n)) m
  | mo_get_bad n : name_ok n = false -> map_op m (Getenv n) (Value None) m
  | mo_set n v ow : name_ok n = true -> v <> None ->
      map_op m (Setenv n v ow) Success (if ow || bool_decide (m !! str_of n = None) then <[str_of n := str_of v]> m else m)
  | mo_set_bad n v ow : name_ok n = false \/ v = None -> map_op m (Setenv n v ow) (Failure EINVAL) m
  | mo_set_mem n v ow : name_ok n = true -> map_op m (Setenv n v ow) (Failure ENOMEM) m
  | mo_unset n : name_ok n = true -> map_op m (Unsetenv n) Success (delete (str_of n) m)
  | mo_unset_bad n : name_ok n = false -> map_op m (Unsetenv n) (Failure EINVAL) m
  | mo_unset_mem n : name_ok n = true -> map_op m (Unsetenv n) (Failure ENOMEM) m.

Inductive map_ops : gmap (list Z) (list Z) -> list env_op -> list env_reply -> gmap (list Z) (list Z) -> Prop :=
  | mos_nil m : map_ops m [] [] m
  | mos_cons m op r m' ops rs m'' : map_op m op r m' -> map_ops m' ops rs m'' -> map_ops m (op :: ops) (r :: rs) m''.

(** Arguments are null or NUL-terminated strings of fewer than 2^50 bytes. *)
Definition arg_ok (s : option (list Z)) : Prop := match s with Some s => is_cstr s /\ zlen (cstr s) < 2 ^ 50 | None => True end.
Definition op_ok (op : env_op) : Prop :=
  match op with Getenv n | Unsetenv n => arg_ok n | Setenv n v _ => arg_ok n /\ arg_ok v end.

Section refine.
Context {A : Type} `{UHeapLaws A}.
Implicit Types (e : env A) (m : gmap (list Z) (list Z)).

(** [m] holds the variables of the strings [vs]. *)
Definition vars_of (vs : list (list Z)) m : Prop := forall n, n <> [] -> 61 ∉ n -> m !! n = lookup_var n vs.

(** [e] represents [m], its other heap blocks being [O], and has had at most [k] variables. *)
Definition env_is (O : gset Z) (k : Z) e m : Prop :=
  exists sl ss, env_at O e sl ss /\ zlen sl <= k /\ own_cap e <= 2 * k + 16 /\ uniq (cstr <$> ss) /\ vars_of (cstr <$> ss) m.

Lemma vars_set vs m n x : n <> [] -> 61 ∉ n -> vars_of vs m -> vars_of (set_var n x vs) (<[n := x]> m).
Proof.
  intros Hn Hq V k Hk Hkq. destruct (decide (n = k)) as [<-|Hne]; [by rewrite lookup_insert_eq, lookup_set_same|].
  rewrite lookup_insert_ne, lookup_set_other by done. by apply V.
Qed.

Lemma vars_del vs m n : n <> [] -> 61 ∉ n -> uniq vs -> vars_of vs m -> vars_of (del_var n vs) (delete n m).
Proof.
  intros Hn Hq U V k Hk Hkq. destruct (decide (n = k)) as [<-|Hne]; [by rewrite lookup_delete_eq, lookup_del_same|].
  rewrite lookup_delete_ne, lookup_del_other by done. by apply V.
Qed.

Lemma name_ok_spec n : arg_ok n -> name_ok n = true -> exists s, n = Some s /\ is_cstr s /\ zlen (cstr s) < 2 ^ 50 /\ bad_name s = false /\ cstr s <> [] /\ 61 ∉ cstr s.
Proof.
  destruct n as [s|]; [|done]. intros [Cs Ls] Hb%negb_true_iff. exists s. destruct (proj1 (bad_name_spec s (proj1 Cs)) Hb). done.
Qed.

Lemma env_is_more O k k' e m : env_is O k e m -> k <= k' -> env_is O k' e m.
Proof. intros (sl & ss & E & ? & ? & U & V) Hk. exists sl, ss. split_and!; [done|lia|lia|done|done]. Qed.

Lemma env_is_errno O k e m x : env_is O k e m -> env_is O k (set_errno_e e x) m.
Proof. intros (sl & ss & E & ? & ? & U & V). exists sl, ss. split_and!; try done. by apply env_errno. Qed.

(** A change of the strings is the change of the map. *)
Lemma outcome_is O k e m sl ss vs m' r e' : zlen sl <= k -> own_cap e <= 2 * k + 16 -> uniq (cstr <$> ss) -> vars_of (cstr <$> ss) m ->
  uniq vs -> vars_of vs m' -> outcome O e sl ss vs r e' ->
  (r = 0 /\ env_is O (k + 1) e' m') \/ (r = -1 /\ eerrno e' = ENOMEM /\ env_is O (k + 1) e' m).
Proof.
  intros Hk Hc U V U' V' (sl' & ss' & E & Hl & Hc' & [[-> <-]|(-> & Er & Es)]).
  - left. split; [done|]. exists sl', ss'. split_and!; [done|lia|lia|done|done].
  - right. split; [done|]. split; [done|]. exists sl', ss'. rewrite Es. split_and!; [done|lia|lia|done|done].
Qed.

Lemma run_op_spec O k e m op : env_is O k e m -> 0 <= k < 2 ^ 48 -> op_ok op ->
  exists r e' m', run_op e op = Some (r, e') /\ map_op m op r m' /\ env_is O (k + 1) e' m'.
Proof.
  intros Hi Hk Ho. pose proof Hi as (sl & ss & E & Hs & Hc & U & V). assert (sized e sl) as Sz by (split; lia).
  pose proof (env_is_more O k (k + 1) e m Hi ltac:(lia)) as Hi'. destruct op as [n|n v ow|n]; cbn [op_ok] in Ho; cbn [run_op].
  - destruct (name_ok n) eqn:En.
    + destruct (name_ok_spec n Ho En) as (s & -> & Cs & _ & Gs & Hne & Hq). destruct (getenv_spec _ _ _ _ _ E Cs Gs) as (r & -> & Er & _).
      cbn [mbind option_bind]. rewrite Er, <- V by done. do 3 eexists. split; [done|]. split; [by apply mo_get|done].
    + exists (Value None), e, m. split; [|split; [by apply mo_get_bad|done]]. destruct n as [s|]; [|done]. unfold getenv.
      cbn [name_ok] in En. apply negb_false_iff in En. by rewrite En.
  - destruct Ho as [On Ov]. destruct (name_ok n) eqn:En; [destruct v as [v|]|].
    + destruct (name_ok_spec n On En) as (s & -> & Cs & Ls & Gs & Hne & Hq). destruct Ov as [Cv Lv].
      destruct (setenv_spec _ _ _ _ s v ow E Sz Cs Cv Gs Ls Lv) as (r & e' & -> & Out). cbn [reply_of mbind option_bind]. rewrite <- V in Out by done.
      apply (outcome_is O k e m sl ss _ (if ow || bool_decide (m !! cstr s = None) then <[cstr s := cstr v]> m else m)) in Out; [|done..| |].
      * destruct Out as [[-> R]|(-> & Er & R)]; do 3 eexists; (split; [done|]).
        { split; [by apply (mo_set m (Some s) (Some v))|done]. }
        { cbn [Z.eqb]. rewrite Er. split; [by apply mo_set_mem|done]. }
      * destruct (ow || _); [by apply uniq_set|done].
      * destruct (ow || _); [by apply vars_set|done].
    + exists (Failure EINVAL), (set_errno_e e EINVAL), m. split; [|split; [apply mo_set_bad; by right|by apply env_is_errno]].
      destruct (name_ok_spec n On En) as (s & -> & _ & _ & Gs & _). unfold setenv. by rewrite Gs.
    + exists (Failure EINVAL), (set_errno_e e EINVAL), m. split; [|split; [apply mo_set_bad; by left|by apply env_is_errno]].
      destruct n as [s|]; [|by destruct v]. unfold setenv. cbn [name_ok] in En. apply negb_false_iff in En. by rewrite En.
  - destruct (name_ok n) eqn:En.
    + destruct (name_ok_spec n Ho En) as (s & -> & Cs & Ls & Gs & Hne & Hq). destruct (unsetenv_spec _ _ _ _ s E Sz Cs Gs) as (r & e' & -> & Out).
      cbn [reply_of mbind option_bind]. apply (outcome_is O k e m sl ss _ (delete (cstr s) m)) in Out; [|done..|by apply uniq_del|by apply vars_del].
      destruct Out as [[-> R]|(-> & Er & R)]; do 3 eexists; (split; [done|]).
      * split; [by apply (mo_unset m (Some s))|done].
      * cbn [Z.eqb]. rewrite Er. split; [by apply mo_unset_mem|done].
    + exists (Failure EINVAL), (set_errno_e e EINVAL), m. split; [|split; [by apply mo_unset_bad|by apply env_is_errno]].
      destruct n as [s|]; [|done]. unfold unsetenv. cbn [name_ok] in En. apply negb_false_iff in En. by rewrite En.
Qed.

(** C31: A program's environment is a finite map from names to values: whatever
    calls of [getenv], [setenv] and [unsetenv] it makes, each ends with the
    reply the map gives ([EINVAL] for a null, empty or [=]-holding name or a
    null value, [ENOMEM] and no change when the heap is exhausted), and the
    heap holds what it held of others' plus the two arrays and the strings of
    the present variables: nothing leaks, nothing is freed twice, and the
    strings of the initial stack are never freed. *)
Theorem env_refines_map O k e m ops :
  env_is O k e m -> 0 <= k -> k + zlen ops < 2 ^ 48 -> Forall op_ok ops ->
  exists rs e' m', run_ops e ops = Some (rs, e') /\ map_ops m ops rs m' /\ env_is O (k + zlen ops) e' m'.
Proof.
  intros Hi Hk Hb Ho. revert k e m Hi Hk Hb. induction Ho as [|op ops Ho _ IH]; intros k e m Hi Hk Hb.
  - exists [], e, m. split; [done|]. split; [constructor|]. change (zlen []) with 0. by rewrite Z.add_0_r.
  - rewrite zlen_cons in Hb. pose proof (zlen_nonneg ops).
    destruct (run_op_spec O k e m op Hi ltac:(lia) Ho) as (r & e1 & m1 & E1 & M1 & I1).
    destruct (IH (k + 1) e1 m1 I1 ltac:(lia) ltac:(lia)) as (rs & e2 & m2 & E2 & M2 & I2).
    exists (r :: rs), e2, m2. cbn [run_ops]. rewrite E1. cbn [mbind option_bind]. rewrite E2. split; [done|]. split; [by econstructor|].
    by rewrite zlen_cons, Z.add_assoc.
Qed.
End refine.

(** ** A process with two variables on its stack *)

Definition cs (s : list Z) : list Z := s ++ [0].
Definition demo_env : env arena :=
  MkEnv demo_arena {[0x1000 := cs [65; 61; 49]; 0x1010 := cs [66; 61]]} true [0x1000; 0x1010; 0] 0 0 [] 0 0 false 0.
Definition demo_ops : list env_op :=
  [Setenv (Some (cs [65])) (Some (cs [50; 51])) true; Setenv (Some (cs [67])) (Some (cs [52])) false; Setenv (Some (cs [67])) (Some (cs [])) false;
   Unsetenv (Some (cs [66])); Getenv (Some (cs [65])); Getenv (Some (cs [66])); Getenv (Some (cs [67])); Setenv None None true].

Lemma cs_cstr s : 0 ∉ s -> bytes s -> is_cstr (cs s) /\ cstr (cs s) = s.
Proof.
  intros Hz B. split; [|by apply cstr_app]. split; [unfold cs; set_solver|]. apply Forall_app. split; [done|]. constructor; [by vm_compute|constructor].
Qed.

Ltac byte_list := repeat (apply Forall_cons_2; [by vm_compute|]); apply Forall_nil_2.
Ltac no_nul := refine (bool_decide_unpack _ _); vm_compute; exact Logic.I.
Ltac cstr_tac := apply cs_cstr; [no_nul|byte_list].

Lemma demo_env_is : env_is ∅ 2 demo_env {[ [65] := [49]; [66] := [] ]}.
Proof.
  exists [(0x1000, 0); (0x1010, 0)], [cs [65; 61; 49]; cs [66; 61]]. split.
  { assert (is_cstr (cs [65; 61; 49])) as C1 by cstr_tac. assert (is_cstr (cs [66; 61])) as C2 by cstr_tac.
    split; try done.
    - apply demo_arena_wf.
    - intros _. by exists [].
    - by repeat constructor.
    - apply Forall2_cons. split; [done|]. apply Forall2_cons. split; [done|]. by apply Forall2_nil.
    - intros _. by repeat constructor.
    - repeat constructor.
    - constructor. }
  split; [by vm_compute|]. split; [by vm_compute|]. split.
  { split; [|split; [|done]]; intros n x Hn E; cbn [lookup_var fmap list_fmap]; [|done].
    change (cstr (cs [66; 61])) with ([66] ++ 61 :: []) in *. change (cstr (cs [65; 61; 49])) with ([65] ++ 61 :: [49]) in E.
    apply var_value_Some in E. apply sep_inj in E as [<- _]; [by vm_compute|set_solver|done]. }
  intros n Hn Hq. cbn [lookup_var fmap list_fmap]. change (cstr (cs [66; 61])) with ([66] ++ 61 :: []). change (cstr (cs [65; 61; 49])) with ([65] ++ 61 :: [49]).
  destruct (decide (n = [65])) as [->|N1]; [by vm_compute|]. destruct (decide (n = [66])) as [->|N2]; [by vm_compute|].
  rewrite lookup_insert_ne, lookup_singleton_ne by done.
  assert (forall a v, n <> [a] -> a <> 61 -> var_value n ([a] ++ 61 :: v) = None) as K.
  { intros a v Ha Hb. destruct (var_value n _) as [y|] eqn:E; [|done]. apply var_value_Some in E. apply sep_inj in E as [E _]; [by symmetry in E|set_solver|done]. }
  by rewrite !K.
Qed.

Lemma demo_final :
  match run_ops demo_env demo_ops with
  | Some (_, e) => match getenv e (Some (cs [65])) with Some r => cstr <$> r | None => None end
  | None => None
  end = Some [50; 51].
Proof. vm_compute. reflexivity. Qed.

Lemma env_refines_map_witness :
  exists e' m', run_ops demo_env demo_ops =
      Some ([Success; Success; Success; Success; Value (Some [50; 51]); Value None; Value (Some [52]); Failure EINVAL], e') /\
    env_is ∅ 10 e' m' /\ m' !! [65] = Some [50; 51].
Proof.
  assert (bad_name (cs [65]) = false) as G by (vm_compute; reflexivity). assert (is_cstr (cs [65])) as C by cstr_tac.
  destruct (env_refines_map ∅ 2 demo_env {[ [65] := [49]; [66] := [] ]} demo_ops) as (rs & e' & m' & E & _ & I);
    [apply demo_env_is|lia|by vm_compute| |].
  { assert (forall s, 0 ∉ s -> bytes s -> zlen s < 2 ^ 50 -> arg_ok (Some (cs s))) as K by (intros s Z1 Z2 Z3; destruct (cs_cstr s Z1 Z2) as [? Es]; split; [done|by rewrite Es]).
    assert (arg_ok (Some (cs [65])) /\ arg_ok (Some (cs [66])) /\ arg_ok (Some (cs [67])) /\ arg_ok (Some (cs [50; 51])) /\ arg_ok (Some (cs [52])) /\ arg_ok (Some (cs [])))
      as (K1 & K2 & K3 & K4 & K5 & K6) by (split_and!; (apply K; [no_nul|byte_list|by vm_compute])).
    unfold demo_ops. rewrite !Forall_cons. by split_and!. }
  assert (fst <$> run_ops demo_env demo_ops =
    Some [Success; Success; Success; Success; Value (Some [50; 51]); Value None; Value (Some [52]); Failure EINVAL]) as R by (vm_compute; reflexivity).
  rewrite E in R. cbn [fmap option_fmap option_map fst] in R. injection R as ->. exists e', m'. split; [exact E|]. split; [exact I|].
  destruct I as (sl & ss & Ea & _ & _ & _ & V). rewrite (V [65] ltac:(discriminate) ltac:(no_nul)).
  destruct (getenv_spec _ _ _ _ (cs [65]) Ea C G) as (r & Er & Es & _). change (cstr (cs [65])) with [65] in Es. rewrite <- Es.
  pose proof demo_final as R.
  rewrite E, Er in R. exact R.
Defined.

(** Where the initial environment names a variable twice, removing it uncovers
    the second value: [unsetenv] stops at the first match. *)
Theorem unsetenv_first_only :
  let e := MkEnv demo_arena {[0x1000 := cs [65; 61; 49]; 0x1010 := cs [65; 61; 50]]} true [0x1000; 0x1010; 0] 0 0 [] 0 0 false 0 in
  exists e', unsetenv e (Some (cs [65])) = Some (0, e') /\ getenv e' (Some (cs [65])) = Some (Some (cs [50])).
Proof.
  intros e. assert (match unsetenv e (Some (cs [65])) with Some (0, e') => getenv e' (Some (cs [65])) | _ => None end = Some (Some (cs [50]))) as K by (vm_compute; reflexivity).
  destruct (unsetenv e (Some (cs [65]))) as [[[| |] e']|]; try discriminate K. by exists e'.
Qed.
