(* ===== verification/Initrd.v ===== *)
(** * The initial ram disk

    [userspace/libc/initrd.c]: the cpio archive the kernel maps into init, found
    through two environment variables, and the search for a member by its path.
    Also the part of [userspace_selftest] ([kernel/core/kmain.c]) that writes the
    two variables.  Memory is what is mapped readable, a run of bytes at an
    address; reading anything else is a fault. *)
From S2P Require Import Prelude Bytes Errno Str Iface CMalloc Env.

(** ** Readable memory *)

Record rom := MkRom { rom_base : Z; rom_bytes : list Z }.

Definition load (m : rom) (a : Z) : option Z :=
  if rom_base m <=? a then rom_bytes m !! Z.to_nat (a - rom_base m) else None.

(** [memcmp(p, lit, n)], and [strcmp(p, s)], with [p] in that memory. *)
Fixpoint memcmp_at (m : rom) (a : Z) (lit : list Z) : option Z :=
  match lit with
  | [] => Some 0
  | c :: lit => x ← load m a; if x =? c then memcmp_at m (a + 1) lit else Some (x - c)
  end.

Fixpoint strcmp_at (m : rom) (a : Z) (s : list Z) : option Z :=
  match s with
  | [] => None
  | c :: s => x ← load m a; if negb (x =? 0) && (x =? c) then strcmp_at m (a + 1) s else Some (x - c)
  end.

(** ** Numbers *)

Definition hexdigit (c : Z) : Z :=
  if (48 <=? c) && (c <=? 57) then c - 48
  else if (97 <=? c) && (c <=? 102) then c - 97 + 10
  else if (65 <=? c) && (c <=? 70) then c - 65 + 10
  else -1.

(** The inner [None] is the return of -1. *)
Fixpoint hex8_loop (m : rom) (p : Z) (n : nat) (v : Z) : option (option Z) :=
  match n with
  | O => Some (Some v)
  | S n =>
    c ← load m p;
    let d := hexdigit c in
    if d <? 0 then Some None else hex8_loop m (p + 1) n (Z.lor (u32 (Z.shiftl v 4)) d)
  end.
Definition parse_hex8 (m : rom) (p : Z) : option (option Z) := hex8_loop m p 8 0.

Fixpoint env_hex_loop (s : list Z) (v : Z) : option Z :=
  match s with
  | [] => None
  | c :: s =>
    if c =? 0 then Some v
    else let d := hexdigit c in if d <? 0 then None else env_hex_loop s (Z.lor (u64 (Z.shiftl v 4)) d)
  end.
Definition parse_env_hex_u64 (s : option (list Z)) : option Z :=
  match s with
  | None => None
  | Some s =>
    if negb (zget 0 s 0 =? 48) then None
    else if negb (zget 0 s 1 =? 120) && negb (zget 0 s 1 =? 88) then None
    else env_hex_loop (drop 2 s) 0
  end.

Definition align4 (n : Z) : Z := Z.land (u64 (n + 3)) (u64 (Z.lnot 3)).

Definition CPIO_HDR_SIZE : Z := 110.
Definition CPIO_OFF_FSIZE : Z := 54.
Definition CPIO_OFF_NSIZE : Z := 94.
Definition CPIO_MAGIC : list Z := [48; 55; 48; 55; 48; 49].
Definition TRAILER : list Z := [84; 82; 65; 73; 76; 69; 82; 33; 33; 33].
(** "EXYDE_INITRD_BASE", "EXYDE_INITRD_SIZE" *)
Definition NAME_BASE : list Z := [69; 88; 89; 68; 69; 95; 73; 78; 73; 84; 82; 68; 95; 66; 65; 83; 69].
Definition NAME_SIZE : list Z := [69; 88; 89; 68; 69; 95; 73; 78; 73; 84; 82; 68; 95; 83; 73; 90; 69].

(** ** The operations *)

Record initrd := MkInitrd { g_base : Z; g_size : Z; g_ready : bool; ierrno : Z }.

Definition fail_i (st : initrd) (x : Z) : Z * initrd := (-1, MkInitrd (g_base st) (g_size st) (g_ready st) x).

Definition initrd_init `{UHeap A} (e : env A) (m : rom) (st : initrd) : option (Z * initrd) :=
  b ← getenv e (Some (NAME_BASE ++ [0]));
  s ← getenv e (Some (NAME_SIZE ++ [0]));
  match b, s with
  | Some b, Some s =>
    match parse_env_hex_u64 (Some b), parse_env_hex_u64 (Some s) with
    | Some base, Some size =>
      if size <? 6 then Some (fail_i st EINVAL)
      else
        d ← memcmp_at m base CPIO_MAGIC;
        if negb (d =? 0) then Some (fail_i st EINVAL)
        else Some (0, MkInitrd base size true (ierrno st))
    | _, _ => Some (fail_i st EINVAL)
    end
  | _, _ => Some (fail_i st ENOENT)
  end.

(** A pointer and a size, -1 with [errno], or an access to unmapped memory. *)
Inductive find_reply := Found (data size : Z) | Failed (errno : Z) | Fault.

(** One round of the loop: the next offset, or the end. *)
Definition find_step (m : rom) (base size : Z) (path : list Z) (off : Z) : option (Z + find_reply) :=
  let h := base + off in
  d ← memcmp_at m h CPIO_MAGIC;
  if negb (d =? 0) then Some (inr (Failed EINVAL))
  else
    ns ← parse_hex8 m (h + CPIO_OFF_NSIZE);
    match ns with
    | None => Some (inr (Failed EINVAL))
    | Some namesize =>
      fs ← parse_hex8 m (h + CPIO_OFF_FSIZE);
      match fs with
      | None => Some (inr (Failed EINVAL))
      | Some filesize =>
        let name_off := u64 (off + CPIO_HDR_SIZE) in
        if size <? u64 (name_off + namesize) then Some (inr (Failed EINVAL))
        else
          let name := base + name_off in
          t ← (if namesize =? 11 then memcmp_at m name TRAILER else Some 1);
          if t =? 0 then Some (inr (Failed ENOENT))
          else
            let data_off := align4 (u64 (name_off + namesize)) in
            if size <? u64 (data_off + filesize) then Some (inr (Failed EINVAL))
            else
              c ← (if 1 <? namesize then strcmp_at m name path else Some 1);
              if c =? 0 then Some (inr (Found (base + data_off) filesize))
              else Some (inl (align4 (u64 (data_off + filesize))))
      end
    end.

Fixpoint find_loop (fuel : nat) (m : rom) (base size : Z) (path : list Z) (off : Z) : option find_reply :=
  match fuel with
  | O => None
  | S fuel =>
    if u64 (off + CPIO_HDR_SIZE) <=? size then
      match find_step m base size path off with
      | None => Some Fault
      | Some (inr r) => Some r
      | Some (inl off) => find_loop fuel m base size path off
      end
    else Some (Failed ENOENT)
  end.

(** A round passes at least a header, so [size / 110 + 1] of them are enough. *)
Definition initrd_find (st : initrd) (m : rom) (path : option (list Z)) : option find_reply :=
  if negb (g_ready st) then Some (Failed ENOENT)
  else
    match path with
    | None => Some (Failed EINVAL)
    | Some path =>
      if zget 0 path 0 =? 0 then Some (Failed EINVAL)
      else find_loop (Z.to_nat (g_size st / CPIO_HDR_SIZE) + 1) m (g_base st) (g_size st) path 0
    end.

(** ** The variables the kernel writes *)

Definition HEX : list Z := [48; 49; 50; 51; 52; 53; 54; 55; 56; 57; 97; 98; 99; 100; 101; 102].

(** [for (i = 15; i >= 0; --i) { buf[at + i] = hex[v & 0xF]; v >>= 4; }] *)
Definition put_hex (buf : list Z) (at_ v : Z) : list Z * Z :=
  foldl (fun '(buf, v) i => (zset buf (at_ + i) (zget 0 HEX (Z.land v 15)), Z.shiftr v 4)) (buf, v) (rev (seqZ 0 16)).

(** [buf] as the stack left it, [prefix] a NUL-terminated literal. *)
Definition env_string (buf prefix : list Z) (v : Z) : list Z :=
  let l := strlen prefix in
  let buf := copy_loop buf 0 prefix 0 l in
  let buf := zset (zset buf l 48) (l + 1) 120 in
  let '(buf, _) := put_hex buf (l + 2) v in
  zset buf (l + 18) 0.

Definition env_initrd (buf1 buf2 : list Z) (bv sv : Z) : list (list Z) :=
  [env_string buf1 (NAME_BASE ++ [61; 0]) bv; env_string buf2 (NAME_SIZE ++ [61; 0]) sv].

(** ** Numbers in hexadecimal *)

Lemma align4_spec n : 0 <= n < 2 ^ 63 -> align4 n = n + (- n) mod 4.
Proof.
  intros Hn. unfold align4. rewrite u64_small by lia. change (u64 (Z.lnot 3)) with (align_mask 2). rewrite land_align by lia.
  change (2 ^ 2) with 4. Z.div_mod_to_equations. lia.
Qed.

(** [(v << 4) | d] appends a digit, in 4 [q] bits. *)
Lemma nibble q v d : 1 <= q -> 0 <= v -> 0 <= d < 16 -> Z.lor (Z.shiftl v 4 mod 2 ^ (4 * q)) d = (16 * v + d) mod 2 ^ (4 * q).
Proof.
  intros Hq Hv Hd. rewrite Z.shiftl_mul_pow2 by lia. change (2 ^ 4) with 16.
  assert (2 ^ (4 * q) = 16 * 2 ^ (4 * (q - 1))) as Ep by (change 16 with (2 ^ 4); rewrite <- Z.pow_add_r by lia; f_equal; lia).
  assert (0 < 2 ^ (4 * (q - 1))) as Hp by (apply Z.pow_pos_nonneg; lia). rewrite Ep, (Z.mul_comm v), Z.mul_mod_distr_l by lia.
  set (w := v mod 2 ^ (4 * (q - 1))). assert (Z.land (16 * w) d = 0) as E0.
  { apply Z.bits_inj'. intros i Hi. rewrite Z.land_spec, Z.bits_0. destruct (Z.ltb_spec i 4).
    - replace (16 * w) with (Z.shiftl w 4) by (rewrite Z.shiftl_mul_pow2 by lia; lia). by rewrite Z.shiftl_spec_low by lia.
    - rewrite (testbit_high d 4 i) by lia. apply andb_false_r. }
  pose proof (Z.add_lor_land (16 * w) d) as E. rewrite E0 in E. replace (Z.lor (16 * w) d) with (16 * w + d) by lia.
  rewrite Z.add_mod, Z.mul_mod_distr_l by lia. fold w. pose proof (Z.mod_pos_bound v _ Hp) as Hw. fold w in Hw.
  rewrite (Z.mod_small d) by lia. rewrite Z.mod_small by lia. done.
Qed.

Definition hex_acc (v : Z) (ds : list Z) : Z := foldl (fun v c => 16 * v + hexdigit c) v ds.

(** [n] digits of [v], most significant first. *)
Fixpoint hexd (n : nat) (v : Z) : list Z :=
  match n with O => [] | S n => hexd n (v / 16) ++ [zget 0 HEX (v mod 16)] end.

Lemma hexdigit_HEX d : 0 <= d < 16 -> hexdigit (zget 0 HEX d) = d /\ 0 < zget 0 HEX d < 128.
Proof.
  intros Hd. assert (forallb (fun d => (hexdigit (zget 0 HEX d) =? d) && (0 <? zget 0 HEX d) && (zget 0 HEX d <? 128)) (seqZ 0 16) = true) as K
    by (vm_compute; reflexivity).
  rewrite forallb_forall in K. specialize (K d). rewrite <- list_elem_of_In, elem_of_seqZ in K. specialize (K ltac:(lia)).
  rewrite !andb_true_iff, Z.eqb_eq, !Z.ltb_lt in K. lia.
Qed.

Lemma length_hexd n v : length (hexd n v) = n.
Proof. revert v. induction n as [|n IH]; intros v; [done|]. cbn [hexd]. rewrite length_app, IH. simpl. lia. Qed.

Lemma zlen_hexd n v : zlen (hexd n v) = Z.of_nat n.
Proof. unfold zlen. by rewrite length_hexd. Qed.

Lemma hexd_digits n v : Forall (fun c => 0 <= hexdigit c < 16 /\ 0 < c < 128) (hexd n v).
Proof.
  revert v. induction n as [|n IH]; intros v; [constructor|]. cbn [hexd]. apply Forall_app. split; [done|]. constructor; [|constructor].
  pose proof (Z.mod_pos_bound v 16 ltac:(lia)) as Hm. destruct (hexdigit_HEX _ Hm) as [-> ?]. done.
Qed.

Lemma hex_acc_hexd n v a : 0 <= v -> hex_acc a (hexd n v) = a * 16 ^ Z.of_nat n + v mod 16 ^ Z.of_nat n.
Proof.
  intros Hv. revert v Hv a. induction n as [|n IH]; intros v Hv a; [cbn; rewrite Z.mod_1_r; lia|].
  unfold hex_acc in *. cbn [hexd]. rewrite foldl_app, IH by (apply Z.div_pos; lia). cbn [foldl].
  pose proof (Z.mod_pos_bound v 16 ltac:(lia)) as Hm. destruct (hexdigit_HEX _ Hm) as [-> _].
  rewrite Nat2Z.inj_succ, Z.pow_succ_r by lia. rewrite (Z.rem_mul_r v 16) by (try lia; apply Z.pow_pos_nonneg; lia). lia.
Qed.

Lemma hexd_value n v : 0 <= v < 16 ^ Z.of_nat n -> hex_acc 0 (hexd n v) = v.
Proof. intros Hv. rewrite hex_acc_hexd, Z.mod_small by lia. lia. Qed.

Lemma env_hex_loop_spec ds t v : Forall (fun c => 0 <= hexdigit c < 16 /\ 0 < c < 128) ds -> 0 <= v ->
  env_hex_loop (ds ++ 0 :: t) v = Some (foldl (fun v c => (16 * v + hexdigit c) mod 2 ^ 64) v ds).
Proof.
  intros Hd. revert v. induction Hd as [|c ds [Hc Hc'] Hd IH]; intros v Hv; [done|]. cbn [app env_hex_loop foldl].
  destruct (Z.eqb_spec c 0); [lia|]. destruct (Z.ltb_spec (hexdigit c) 0); [lia|]. unfold u64. rewrite (nibble 16) by lia.
  apply IH. apply Z.mod_pos_bound. lia.
Qed.

Lemma fold_mod (ds : list Z) v : Forall (fun c => 0 <= hexdigit c) ds -> 0 <= v -> forall M, 0 < M -> hex_acc v ds < M ->
  foldl (fun v c => (16 * v + hexdigit c) mod M) v ds = hex_acc v ds /\ v <= hex_acc v ds.
Proof.
  intros Hd. revert v. induction Hd as [|c ds Hc Hd IH]; intros v Hv M HM Hl; [unfold hex_acc; simpl; lia|].
  unfold hex_acc in Hl |- *. cbn [foldl] in *. destruct (IH (16 * v + hexdigit c) ltac:(lia) M HM Hl) as [E L]. unfold hex_acc in L.
  rewrite Z.mod_small by lia. split; [exact E|lia].
Qed.

(** Sixteen digits after [0x] are read back. *)
Lemma parse_env_hex_round v t : 0 <= v < 2 ^ 64 -> parse_env_hex_u64 (Some ([48; 120] ++ hexd 16 v ++ 0 :: t)) = Some v.
Proof.
  intros Hv. change (env_hex_loop (hexd 16 v ++ 0 :: t) 0 = Some v). rewrite env_hex_loop_spec by (lia || apply hexd_digits). f_equal.
  assert (hex_acc 0 (hexd 16 v) = v) as E by (apply hexd_value; lia).
  destruct (fold_mod (hexd 16 v) 0) with (M := 2 ^ 64) as [-> _]; [|lia|lia|lia|done].
  eapply Forall_impl; [apply hexd_digits|]. cbn. lia.
Qed.

(** ** Memory that holds a list *)

Definition mem_at (m : rom) (a : Z) (l : list Z) : Prop := forall i c, l !! i = Some c -> load m (a + Z.of_nat i) = Some c.

Lemma mem_at_cons m a c l : mem_at m a (c :: l) <-> load m a = Some c /\ mem_at m (a + 1) l.
Proof.
  split.
  - intros M. split; [by rewrite <- (M 0%nat c), Z.add_0_r|]. intros i x Hi. rewrite <- (M (S i) x Hi). f_equal. lia.
  - intros [M1 M2] [|i] x Hi; [injection Hi as <-; by rewrite Z.add_0_r|]. rewrite <- (M2 i x Hi). f_equal. lia.
Qed.

Lemma mem_at_app m a l k : mem_at m a (l ++ k) <-> mem_at m a l /\ mem_at m (a + zlen l) k.
Proof.
  revert a. induction l as [|c l IH]; intros a; cbn [app].
  - change (zlen []) with 0. rewrite Z.add_0_r. split; [intros M; by split|intros [_ M]; done].
  - rewrite !mem_at_cons, IH, zlen_cons, Z.add_assoc. naive_solver.
Qed.

Lemma mem_at_rom b pre l post : mem_at (MkRom b (pre ++ l ++ post)) (b + zlen pre) l.
Proof.
  intros i c Hi. unfold load. cbn [rom_base rom_bytes]. pose proof (zlen_nonneg pre). destruct (Z.leb_spec b (b + zlen pre + Z.of_nat i)); [|lia].
  replace (Z.to_nat _) with (length pre + i)%nat by (unfold zlen; lia). rewrite lookup_app_r by lia. replace (_ - _)%nat with i by lia.
  by apply lookup_app_l_Some.
Qed.

Lemma memcmp_at_eq m a l : mem_at m a l -> memcmp_at m a l = Some 0.
Proof.
  revert a. induction l as [|c l IH]; intros a; [done|]. intros [E M]%mem_at_cons. cbn [memcmp_at]. rewrite E. cbn [mbind option_bind].
  rewrite Z.eqb_refl. by apply IH.
Qed.

Lemma memcmp_at_ne m a l lit : mem_at m a l -> length l = length lit -> l <> lit -> exists d, memcmp_at m a lit = Some d /\ d <> 0.
Proof.
  revert a lit. induction l as [|c l IH]; intros a [|x lit] M Hl Hne; try done. apply mem_at_cons in M as [E M]. cbn [memcmp_at]. rewrite E.
  cbn [mbind option_bind]. destruct (Z.eqb_spec c x) as [->|]; [apply IH; [done|by simplify_eq/=|congruence]|]. exists (c - x). split; [done|lia].
Qed.

Lemma strcmp_at_spec m a name s t : 0 ∉ name -> 0 ∉ s -> mem_at m a (name ++ [0]) ->
  exists d, strcmp_at m a (s ++ 0 :: t) = Some d /\ (d = 0 <-> name = s).
Proof.
  revert a name. induction s as [|c s IH]; intros a name Hn Hs M; cbn [app strcmp_at].
  - destruct name as [|x name]; apply mem_at_cons in M as [E M]; rewrite E; cbn [mbind option_bind]; [exists 0; by cbn|].
    assert (x <> 0) as Hx by (intros ->; set_solver). destruct (Z.eqb_spec x 0); [done|]. exists (x - 0). split; [done|]. split; [lia|done].
  - destruct name as [|x name]; apply mem_at_cons in M as [E M]; rewrite E; cbn [mbind option_bind].
    + assert (c <> 0) as Hc by (intros ->; set_solver). exists (0 - c). split; [done|]. split; [lia|done].
    + assert (x <> 0) as Hx by (intros ->; set_solver). destruct (Z.eqb_spec x 0); [done|]. cbn [negb andb]. destruct (Z.eqb_spec x c) as [->|].
      * destruct (IH (a + 1) name) as (d & -> & Hd); [set_solver|set_solver|done|]. exists d. split; [done|]. rewrite Hd. split; congruence.
      * exists (x - c). split; [done|]. split; [lia|congruence].
Qed.

Lemma hex8_loop_spec m p ds v : mem_at m p ds -> Forall (fun c => 0 <= hexdigit c < 16) ds -> 0 <= v ->
  hex8_loop m p (length ds) v = Some (Some (foldl (fun v c => (16 * v + hexdigit c) mod 2 ^ 32) v ds)).
Proof.
  revert p v. induction ds as [|c ds IH]; intros p v M Hd Hv; [done|]. apply mem_at_cons in M as [E M]. apply Forall_cons in Hd as [Hc Hd].
  cbn [length hex8_loop foldl]. rewrite E. cbn [mbind option_bind]. destruct (Z.ltb_spec (hexdigit c) 0); [lia|].
  unfold u32. rewrite (nibble 8) by lia. apply IH; [done|done|]. apply Z.mod_pos_bound. lia.
Qed.

Lemma parse_hex8_spec m p v : mem_at m p (hexd 8 v) -> 0 <= v < 2 ^ 32 -> parse_hex8 m p = Some (Some v).
Proof.
  intros M Hv. unfold parse_hex8. rewrite <- (length_hexd 8 v) at 1. rewrite hex8_loop_spec; [|done| |lia].
  - assert (hex_acc 0 (hexd 8 v) = v) as E by (apply hexd_value; lia).
    destruct (fold_mod (hexd 8 v) 0) with (M := 2 ^ 32) as [-> _]; [|lia|lia|lia|by rewrite E].
    eapply Forall_impl; [apply hexd_digits|]. cbn. lia.
  - eapply Forall_impl; [apply hexd_digits|]. cbn. lia.
Qed.

(** ** Archives *)

(** A member of a "newc" archive. *)
Record member := MkMember {
  c_ino : Z; c_mode : Z; c_uid : Z; c_gid : Z; c_nlink : Z; c_mtime : Z;
  c_devmajor : Z; c_devminor : Z; c_rdevmajor : Z; c_rdevminor : Z; c_chksum : Z;
  c_name : list Z; c_data : list Z }.

Definition pad4 (n : Z) : list Z := replicate (Z.to_nat ((- n) mod 4)) 0.

Definition cpio_header (x : member) : list Z :=
  CPIO_MAGIC ++ (hexd 8 (c_ino x) ++ hexd 8 (c_mode x) ++ hexd 8 (c_uid x) ++ hexd 8 (c_gid x) ++ hexd 8 (c_nlink x) ++ hexd 8 (c_mtime x)) ++
  hexd 8 (zlen (c_data x)) ++
  (hexd 8 (c_devmajor x) ++ hexd 8 (c_devminor x) ++ hexd 8 (c_rdevmajor x) ++ hexd 8 (c_rdevminor x)) ++
  hexd 8 (zlen (c_name x) + 1) ++ hexd 8 (c_chksum x).

Definition cpio_member (x : member) : list Z :=
  cpio_header x ++ (c_name x ++ [0]) ++ pad4 (110 + zlen (c_name x) + 1) ++ c_data x ++ pad4 (zlen (c_data x)).

Definition trailer : member := MkMember 0 0 0 0 1 0 0 0 0 0 0 TRAILER [].

Definition cpio (xs : list member) : list Z := concat (cpio_member <$> xs) ++ cpio_member trailer.

(** Names are not empty, hold no NUL and are not the trailer's. *)
Definition member_ok (x : member) : Prop :=
  c_name x <> [] /\ 0 ∉ c_name x /\ c_name x <> TRAILER /\ zlen (c_name x) + 1 < 2 ^ 32 /\ zlen (c_data x) < 2 ^ 32.

(** The data of a member is [body_off x] bytes after its start. *)
Definition body_off (x : member) : Z := 110 + zlen (c_name x) + 1 + (- (110 + zlen (c_name x) + 1)) mod 4.

(** The first member of that name and the bytes in front of it. *)
Fixpoint first_member (path : list Z) (xs : list member) (off : Z) : option (Z * member) :=
  match xs with
  | [] => None
  | x :: xs => if decide (c_name x = path) then Some (off, x) else first_member path xs (off + zlen (cpio_member x))
  end.

(** The type bits of a mode, and the first regular file of a path: directories,
    links and devices are walked over. *)
Definition is_regular (x : member) : bool := Z.land (c_mode x) 0xF000 =? 0x8000.

Fixpoint first_file (path : list Z) (xs : list member) (off : Z) : option (Z * member) :=
  match xs with
  | [] => None
  | x :: xs => if decide (c_name x = path /\ is_regular x = true) then Some (off, x) else first_file path xs (off + zlen (cpio_member x))
  end.

Lemma first_file_member path xs off : Forall (fun x => c_name x = path -> is_regular x = true) xs -> first_file path xs off = first_member path xs off.
Proof.
  intros F. revert off. induction F as [|x xs Hx F IH]; intros off; [done|]. cbn [first_file first_member]. rewrite IH.
  destruct (decide (c_name x = path)) as [E|E]; [by rewrite decide_True by auto|by rewrite decide_False by (by intros [? _])].
Qed.

Lemma zlen_pad4 n : zlen (pad4 n) = (- n) mod 4.
Proof. unfold pad4. rewrite zlen_replicate. pose proof (Z.mod_pos_bound (- n) 4). lia. Qed.

Lemma zlen_header x : zlen (cpio_header x) = 110.
Proof. unfold cpio_header. by rewrite !zlen_app, !zlen_hexd. Qed.

Lemma zlen_member x : zlen (cpio_member x) = body_off x + zlen (c_data x) + (- zlen (c_data x)) mod 4.
Proof. unfold cpio_member, body_off. rewrite !zlen_app, zlen_header, !zlen_pad4. change (zlen [0]) with 1. lia. Qed.

Lemma member_mod4 x : zlen (cpio_member x) mod 4 = 0 /\ body_off x mod 4 = 0 /\ 110 <= zlen (cpio_member x) /\ 111 <= body_off x.
Proof.
  pose proof (zlen_nonneg (c_data x)). pose proof (zlen_nonneg (c_name x)).
  rewrite zlen_member. unfold body_off. Z.div_mod_to_equations. lia.
Qed.

(** Where the parts of a stored member are. *)
Lemma member_parts m a x : mem_at m a (cpio_member x) ->
  mem_at m a CPIO_MAGIC /\ mem_at m (a + 54) (hexd 8 (zlen (c_data x))) /\ mem_at m (a + 94) (hexd 8 (zlen (c_name x) + 1)) /\
  mem_at m (a + 110) (c_name x ++ [0]) /\ mem_at m (a + body_off x) (c_data x).
Proof.
  unfold cpio_member. intros [Mh M]%mem_at_app. rewrite zlen_header in M. apply mem_at_app in M as [Mn M].
  apply mem_at_app in M as [_ M]. apply mem_at_app in M as [Md _]. unfold cpio_header in Mh. apply mem_at_app in Mh as [M1 Mh].
  apply mem_at_app in Mh as [_ Mh]. apply mem_at_app in Mh as [M2 Mh]. apply mem_at_app in Mh as [_ Mh]. apply mem_at_app in Mh as [M3 _].
  repeat rewrite ?zlen_app, ?zlen_hexd in M2. repeat rewrite ?zlen_app, ?zlen_hexd in M3. rewrite zlen_app, zlen_pad4 in Md. change (zlen CPIO_MAGIC) with 6 in *. change (zlen [0]) with 1 in Md.
  split; [done|]. split; [by replace (a + 54) with (a + 6 + (Z.of_nat 8 + (Z.of_nat 8 + (Z.of_nat 8 + (Z.of_nat 8 + (Z.of_nat 8 + Z.of_nat 8)))))) by lia|].
  split; [|split; [done|]].
  - match type of M3 with mem_at _ ?b _ => by replace (a + 94) with b by lia end.
  - match type of Md with mem_at _ ?b _ => by replace (a + body_off x) with b by (unfold body_off; lia) end.
Qed.

Section stored.
Context (m : rom) (base size : Z) (path t : list Z).
Hypothesis Hsize : size < 2 ^ 62.
Hypothesis Hpath : 0 ∉ path.

(** One stored member: found when it has the name, passed when not. *)
Lemma find_step_member off x : mem_at m (base + off) (cpio_member x) -> 0 <= off -> off mod 4 = 0 -> off + zlen (cpio_member x) <= size ->
  c_name x <> [] -> 0 ∉ c_name x -> zlen (c_name x) + 1 < 2 ^ 32 -> zlen (c_data x) < 2 ^ 32 ->
  find_step m base size (path ++ 0 :: t) off =
  Some (if decide (c_name x = TRAILER) then inr (Failed ENOENT)
        else if decide (c_name x = path) then inr (Found (base + off + body_off x) (zlen (c_data x)))
        else inl (off + zlen (cpio_member x))).
Proof.
  intros M Ho Ha Hs Hne Hz Hn Hd. destruct (member_parts _ _ _ M) as (M1 & M2 & M3 & M4 & _). rewrite zlen_member in *.
  pose proof (zlen_nonneg (c_data x)). pose proof (zlen_nonneg (c_name x)).
  assert (110 + zlen (c_name x) + 1 <= body_off x) as Hb by (unfold body_off; Z.div_mod_to_equations; lia).
  assert (0 <= (- zlen (c_data x)) mod 4) as Hm by (apply Z.mod_pos_bound; lia).
  unfold find_step, CPIO_OFF_NSIZE, CPIO_OFF_FSIZE, CPIO_HDR_SIZE. rewrite (memcmp_at_eq _ _ _ M1). cbn [mbind option_bind Z.eqb negb].
  rewrite (parse_hex8_spec _ _ _ M3) by lia. cbn [mbind option_bind]. rewrite (parse_hex8_spec _ _ _ M2) by lia. cbn [mbind option_bind].
  rewrite !(u64_small (off + 110)) by lia. rewrite !(u64_small (off + 110 + _)) by lia.
  destruct (Z.ltb_spec size (off + 110 + (zlen (c_name x) + 1))); [lia|]. 
  replace (base + off + 110) with (base + (off + 110)) in M4 by lia.
  assert (align4 (off + 110 + (zlen (c_name x) + 1)) = off + body_off x) as -> by (rewrite align4_spec by lia; unfold body_off; Z.div_mod_to_equations; lia).
  rewrite !(u64_small (off + body_off x + _)) by lia.
  assert (align4 (off + body_off x + zlen (c_data x)) = off + (body_off x + zlen (c_data x) + (- zlen (c_data x)) mod 4)) as ->.
  { rewrite align4_spec by lia. unfold body_off. Z.div_mod_to_equations. lia. }
  assert (exists d, (if zlen (c_name x) + 1 =? 11 then memcmp_at m (base + (off + 110)) TRAILER else Some 1) = Some d /\ (d = 0 <-> c_name x = TRAILER)) as (d & -> & Hd').
  { apply mem_at_app in M4 as [M4 _]. destruct (Z.eqb_spec (zlen (c_name x) + 1) 11) as [E11|].
    - destruct (decide (c_name x = TRAILER)) as [Et|Et]; [rewrite Et in M4; exists 0; by rewrite (memcmp_at_eq _ _ _ M4)|].
      destruct (memcmp_at_ne _ _ _ TRAILER M4) as (d & -> & ?); [unfold zlen in E11; simpl; lia|done|]. exists d. naive_solver.
    - exists 1. split; [done|]. split; [done|]. intros Et. rewrite Et in *. done. }
  cbn [mbind option_bind]. destruct (Z.eqb_spec d 0) as [->|Hd0]; [by rewrite decide_True by (by apply Hd')|]. rewrite decide_False by (intros ?; apply Hd0; by apply Hd').
  destruct (Z.ltb_spec size (off + body_off x + zlen (c_data x))); [lia|].
  destruct (Z.ltb_spec 1 (zlen (c_name x) + 1)) as [|].
  2: { exfalso. apply Hne. destruct (c_name x); [done|]. rewrite zlen_cons in *. pose proof (zlen_nonneg l). lia. }
  destruct (strcmp_at_spec m _ _ path t Hz Hpath M4) as (c & -> & Hc). cbn [mbind option_bind].
  destruct (Z.eqb_spec c 0) as [->|Hc0]; [rewrite decide_True by (by apply Hc)|by rewrite decide_False by (intros ?; apply Hc0; by apply Hc)].
  do 3 f_equal. lia.
Qed.

Lemma find_loop_archive fuel xs off : mem_at m (base + off) (cpio xs) -> Forall member_ok xs -> 0 <= off -> off mod 4 = 0 -> off + zlen (cpio xs) <= size ->
  size - off < 110 * Z.of_nat fuel ->
  find_loop fuel m base size (path ++ 0 :: t) off =
  Some (match first_member path xs off with Some (o, x) => Found (base + o + body_off x) (zlen (c_data x)) | None => Failed ENOENT end).
Proof.
  intros M Hx. revert fuel off M. induction Hx as [|x xs (X1 & X2 & X3 & X4 & X5) Hx IH]; intros fuel off M Ho Ha Hs Hf.
  - pose proof (zlen_nonneg (cpio [])). destruct fuel as [|fuel]; [lia|]. unfold cpio in *. cbn [fmap list_fmap concat app] in *. cbn [find_loop].
    pose proof (member_mod4 trailer) as (_ & _ & Hl & _). unfold CPIO_HDR_SIZE. rewrite u64_small by lia.
    destruct (Z.leb_spec (off + 110) size); [|lia]. rewrite (find_step_member off trailer); try done. refine (bool_decide_unpack _ _). vm_compute. exact Logic.I.
  - pose proof (zlen_nonneg (cpio (x :: xs))). destruct fuel as [|fuel]; [lia|]. unfold cpio in M, Hs. cbn [fmap list_fmap concat] in M, Hs. rewrite <- app_assoc in M, Hs. rewrite zlen_app in Hs.
    apply mem_at_app in M as [M1 M2]. fold (cpio_member <$> xs) in M2, Hs. fold (cpio xs) in M2, Hs. pose proof (zlen_nonneg (cpio xs)).
    cbn [find_loop first_member]. pose proof (member_mod4 x) as (Hm & _ & Hl & _). unfold CPIO_HDR_SIZE. rewrite u64_small by lia.
    destruct (Z.leb_spec (off + 110) size); [|lia]. rewrite (find_step_member off x) by (done || lia). rewrite decide_False by done.
    destruct (decide (c_name x = path)); [done|]. apply IH; [by rewrite Z.add_assoc|lia|Z.div_mod_to_equations; lia|lia|lia].
Qed.
End stored.

(** ** Any archive *)

Definition readable (m : rom) (a b : Z) : Prop := forall x, a <= x < b -> is_Some (load m x).

Lemma hexdigit_range c : -1 <= hexdigit c < 16.
Proof. unfold hexdigit. repeat (zif; cbn [andb]); lia. Qed.

Lemma memcmp_at_total m a lit b : readable m a b -> a + zlen lit <= b -> is_Some (memcmp_at m a lit).
Proof.
  revert a. induction lit as [|c lit IH]; intros a R Hl; [done|]. rewrite zlen_cons in Hl. pose proof (zlen_nonneg lit).
  cbn [memcmp_at]. destruct (R a ltac:(lia)) as [x ->]. cbn [mbind option_bind]. destruct (x =? c); [|done].
  apply IH; [intros y Hy; apply R; lia|lia].
Qed.

Lemma strcmp_at_total m a s t b : 0 ∉ s -> readable m a b -> a + zlen s < b -> is_Some (strcmp_at m a (s ++ 0 :: t)).
Proof.
  revert a. induction s as [|c s IH]; intros a Hz R Hl; cbn [app strcmp_at].
  - change (zlen []) with 0 in Hl. destruct (R a ltac:(lia)) as [x ->]. cbn [mbind option_bind]. destruct (x =? 0); done.
  - rewrite zlen_cons in Hl. pose proof (zlen_nonneg s). destruct (R a ltac:(lia)) as [x ->]. cbn [mbind option_bind].
    destruct (negb _ && _); [|done]. apply IH; [set_solver|intros y Hy; apply R; lia|lia].
Qed.

Lemma hex8_loop_total m p n v b : readable m p b -> p + Z.of_nat n <= b -> 0 <= v < 2 ^ 32 ->
  exists r, hex8_loop m p n v = Some r /\ forall x, r = Some x -> 0 <= x < 2 ^ 32.
Proof.
  revert p v. induction n as [|n IH]; intros p v R Hp Hv; cbn [hex8_loop]; [exists (Some v); naive_solver|].
  destruct (R p ltac:(lia)) as [c ->]. cbn [mbind option_bind]. destruct (Z.ltb_spec (hexdigit c) 0); [by exists None|].
  pose proof (hexdigit_range c). apply IH; [intros y Hy; apply R; lia|lia|]. unfold u32. rewrite (nibble 8) by lia. apply Z.mod_pos_bound. lia.
Qed.

(** What a search may end with. *)
Definition found_ok (base size : Z) (r : find_reply) : Prop :=
  match r with
  | Found p n => base <= p /\ 0 <= n < 2 ^ 32 /\ p + n <= base + size
  | Failed x => x = ENOENT \/ x = EINVAL
  | Fault => False
  end.

Section any.
Context (m : rom) (base size : Z) (path t : list Z).
Hypothesis Hsize : size < 2 ^ 62.
Hypothesis Hpath : 0 ∉ path.
Hypothesis Hread : readable m base (base + size + zlen path).

Lemma find_step_safe off : 0 <= off -> off + 110 <= size ->
  exists r, find_step m base size (path ++ 0 :: t) off = Some r /\
    match r with inl off' => off + 110 <= off' <= size + 3 | inr r => found_ok base size r end.
Proof.
  intros Ho Hs. unfold find_step, CPIO_OFF_NSIZE, CPIO_OFF_FSIZE, CPIO_HDR_SIZE. pose proof (zlen_nonneg path).
  assert (forall a, base <= a -> readable m a (base + size + zlen path)) as R by (intros a Hb x Hx; apply Hread; lia).
  destruct (memcmp_at_total m (base + off) CPIO_MAGIC (base + size + zlen path)) as [d ->]; [apply R; lia|change (zlen CPIO_MAGIC) with 6; lia|].
  cbn [mbind option_bind]. destruct (negb _); [eexists; split; [done|cbn; auto]|].
  destruct (hex8_loop_total m (base + off + 94) 8 0 (base + size + zlen path)) as (ns & En & Rn); [apply R; lia|lia|lia|].
  unfold parse_hex8. rewrite En. cbn [mbind option_bind]. destruct ns as [ns|]; [|eexists; split; [done|cbn; auto]]. specialize (Rn _ eq_refl).
  destruct (hex8_loop_total m (base + off + 54) 8 0 (base + size + zlen path)) as (fs & Ef & Rf); [apply R; lia|lia|lia|].
  rewrite Ef. cbn [mbind option_bind]. destruct fs as [fs|]; [|eexists; split; [done|cbn; auto]]. specialize (Rf _ eq_refl).
  rewrite !(u64_small (off + 110)) by lia. rewrite !(u64_small (off + 110 + _)) by lia.
  destruct (Z.ltb_spec size (off + 110 + ns)); [eexists; split; [done|cbn; auto]|].
  assert (is_Some (if ns =? 11 then memcmp_at m (base + (off + 110)) TRAILER else Some 1)) as [d' ->].
  { destruct (Z.eqb_spec ns 11); [|done]. apply (memcmp_at_total _ _ _ (base + size + zlen path)); [apply R; lia|change (zlen TRAILER) with 10; lia]. }
  cbn [mbind option_bind]. destruct (d' =? 0); [eexists; split; [done|cbn; auto]|].
  pose proof (Z.mod_pos_bound (- (off + 110 + ns)) 4 ltac:(lia)) as Hm. rewrite align4_spec by lia. set (doff := off + 110 + ns + _) in *.
  rewrite !(u64_small (doff + fs)) by lia.
  destruct (Z.ltb_spec size (doff + fs)); [eexists; split; [done|cbn; auto]|].
  assert (is_Some (if 1 <? ns then strcmp_at m (base + (off + 110)) (path ++ 0 :: t) else Some 1)) as [c ->].
  { destruct (Z.ltb_spec 1 ns); [|done]. apply (strcmp_at_total _ _ _ _ (base + size + zlen path)); [done|apply R; lia|lia]. }
  cbn [mbind option_bind]. destruct (c =? 0); [eexists; split; [done|cbn; lia]|].
  eexists. split; [done|]. rewrite align4_spec by lia. pose proof (Z.mod_pos_bound (- (doff + fs)) 4 ltac:(lia)). lia.
Qed.

Lemma find_loop_safe fuel off : 0 <= off <= size + 3 -> size - off < 110 * Z.of_nat fuel -> 0 <= size -> (0 < fuel)%nat ->
  exists r, find_loop fuel m base size (path ++ 0 :: t) off = Some r /\ found_ok base size r.
Proof.
  revert off. induction fuel as [|fuel IH]; intros off Ho Hf Hs Hp; [lia|]. cbn [find_loop]. unfold CPIO_HDR_SIZE. rewrite u64_small by lia.
  destruct (Z.leb_spec (off + 110) size); [|eexists; split; [done|cbn; auto]].
  destruct (find_step_safe off ltac:(lia) ltac:(lia)) as ([off'|r] & -> & Hr); [|by exists r]. apply IH; lia.
Qed.
End any.

(** ** The variables *)

Lemma put_hex_loop (n : nat) (pre l post : list Z) at_ v : at_ = zlen pre -> length l = n -> 0 <= v ->
  fst (foldl (fun '(buf, v) i => (zset buf (at_ + i) (zget 0 HEX (Z.land v 15)), Z.shiftr v 4)) (pre ++ l ++ post, v) (rev (seqZ 0 (Z.of_nat n)))) =
  pre ++ hexd n v ++ post.
Proof.
  intros ->. revert l post v. induction n as [|n IH]; intros l post v Hl Hv; [by destruct l|].
  rewrite Nat2Z.inj_succ, <- Z.add_1_r, seqZ_app, rev_app_distr by lia. change (seqZ (0 + Z.of_nat n) 1) with [0 + Z.of_nat n]. cbn [rev app foldl].
  destruct (exists_last (l := l)) as (l' & x & ->); [by destruct l|]. rewrite length_app in Hl. cbn [length] in Hl.
  assert (zset (pre ++ (l' ++ [x]) ++ post) (zlen pre + (0 + Z.of_nat n)) (zget 0 HEX (Z.land v 15)) = pre ++ l' ++ zget 0 HEX (v mod 16) :: post) as ->.
  { change 15 with (2 ^ 4 - 1). rewrite land_low by lia. change (2 ^ 4) with 16. rewrite <- app_assoc. cbn [app]. rewrite app_assoc.
    replace (zlen pre + (0 + Z.of_nat n)) with (zlen (pre ++ l')) by (rewrite zlen_app; unfold zlen; lia). rewrite zset_mid. by rewrite <- app_assoc. }
  rewrite Z.shiftr_div_pow2 by lia. change (2 ^ 4) with 16. rewrite IH by (lia || apply Z.div_pos; lia). cbn [hexd]. by rewrite <- !app_assoc.
Qed.

Lemma env_string_spec buf p v : zlen buf = 48 -> 0 ∉ p -> zlen p <= 18 -> 0 <= v ->
  exists t, env_string buf (p ++ [0]) v = p ++ [48; 120] ++ hexd 16 v ++ 0 :: t.
Proof.
  intros Hb Hp Hl Hv. pose proof (zlen_nonneg p). unfold env_string. rewrite strlen_cstr, cstr_app by done.
  rewrite <- (take_drop (length p) buf). assert (exists a b l x t, drop (length p) buf = a :: b :: l ++ x :: t /\ length l = 16%nat) as (a & b & l & x & t & -> & Hll).
  { assert (length (drop (length p) buf) >= 19)%nat as Hd by (rewrite length_drop; unfold zlen in *; lia).
    destruct (drop (length p) buf) as [|a [|b r]]; cbn [length] in Hd; [lia|lia|]. exists a, b, (take 16 r).
    destruct (drop 16 r) as [|x t] eqn:Ed; [apply (f_equal length) in Ed; rewrite length_drop in Ed; cbn in Ed; lia|]. exists x, t.
    rewrite <- Ed, take_drop. split; [done|]. rewrite length_take. lia. }
  set (q := take (length p) buf). assert (zlen q = zlen p) as Lq by (unfold q, zlen in *; rewrite length_take; lia).
  assert (copy_loop (q ++ a :: b :: l ++ x :: t) 0 (p ++ [0]) 0 (zlen p) = p ++ a :: b :: l ++ x :: t) as ->.
  { pose proof (zlen_nonneg (a :: b :: l ++ x :: t)). apply (list_eq_zget 0); rewrite zlen_copy_loop by (rewrite ?zlen_app; lia).
    { rewrite !zlen_app. lia. }
    intros j Hj. rewrite zlen_app in Hj. rewrite zget_copy_loop by (rewrite ?zlen_app; lia). destruct (Z.leb_spec 0 j); [|lia]. cbn [andb].
    destruct (Z.ltb_spec j (0 + zlen p)); [rewrite !zget_app_l by lia; f_equal; lia|]. unfold zget. unfold zlen in *. rewrite !app_nth2 by lia. f_equal. lia. }
  rewrite zset_mid. assert (zset (p ++ 48 :: b :: l ++ x :: t) (zlen p + 1) 120 = (p ++ [48; 120]) ++ l ++ x :: t) as ->.
  { rewrite (cons_middle 48), app_assoc. replace (zlen p + 1) with (zlen (p ++ [48])) by (by rewrite zlen_app). rewrite zset_mid, <- !app_assoc. done. }
  unfold put_hex. pose proof (put_hex_loop 16 (p ++ [48; 120]) l (x :: t) (zlen p + 2) v) as E. change (Z.of_nat 16) with 16 in E.
  destruct (foldl _ _ _) as [buf' v']. cbn [fst] in E. rewrite E by (try done; by rewrite zlen_app).
  exists t. rewrite !app_assoc. replace (zlen p + 18) with (zlen ((p ++ [48; 120]) ++ hexd 16 v)) by (rewrite !zlen_app, zlen_hexd; change (zlen [48; 120]) with 2; lia).
  by rewrite zset_mid.
Qed.

(** "PATH=/" *)
Definition PATH : list Z := [80; 65; 84; 72; 61; 47; 0].

Section boot.
Context {A : Type} `{UHeapLaws A}.
Context (O : gset Z) (e : env A) (sl : list (Z * Z)) (ss : list (list Z)) (buf1 buf2 : list Z) (bv sv : Z) (m : rom).
Hypothesis Henv : env_at O e sl ss.
Hypothesis Hstr : cstr <$> ss = cstr <$> PATH :: env_initrd buf1 buf2 bv sv.
Hypothesis Hbuf : zlen buf1 = 48 /\ zlen buf2 = 48.
Hypothesis Hval : 0 <= bv < 2 ^ 64 /\ 0 <= sv < 2 ^ 64.

Lemma hex_no_nul n v : 0 ∉ hexd n v.
Proof. intros K. pose proof (hexd_digits n v) as F. rewrite Forall_forall in F. apply F in K. lia. Qed.

(** The two strings as [getenv] reads them. *)
Lemma boot_strings : cstr <$> ss =
  [[80; 65; 84; 72; 61; 47]; NAME_BASE ++ 61 :: 48 :: 120 :: hexd 16 bv; NAME_SIZE ++ 61 :: 48 :: 120 :: hexd 16 sv].
Proof using Hstr Hbuf Hval.
  rewrite Hstr. unfold env_initrd. destruct Hbuf as [B1 B2]. destruct Hval as [V1 V2].
  change (NAME_BASE ++ [61; 0]) with ((NAME_BASE ++ [61]) ++ [0]). change (NAME_SIZE ++ [61; 0]) with ((NAME_SIZE ++ [61]) ++ [0]).
  destruct (env_string_spec buf1 (NAME_BASE ++ [61]) bv B1) as [t1 ->]; [by no_nul|by vm_compute|lia|].
  destruct (env_string_spec buf2 (NAME_SIZE ++ [61]) sv B2) as [t2 ->]; [by no_nul|by vm_compute|lia|].
  cbn [fmap list_fmap]. f_equal. assert (forall p v t, 0 ∉ p -> cstr (p ++ [48; 120] ++ hexd 16 v ++ 0 :: t) = p ++ [48; 120] ++ hexd 16 v) as K.
  { intros p v t Hp. rewrite !app_assoc. apply cstr_app. pose proof (hex_no_nul 16 v). rewrite !elem_of_app. intros [[?|?]|?]; [done| |done]. revert select (0 ∈ [48; 120]). by no_nul. }
  rewrite !K by (by no_nul). by rewrite <- !app_assoc.
Qed.

Lemma getenv_hex n v : is_cstr n -> bad_name n = false -> lookup_var (cstr n) (cstr <$> ss) = Some (48 :: 120 :: hexd 16 v) -> 0 <= v < 2 ^ 64 ->
  exists b, getenv e (Some n) = Some (Some b) /\ parse_env_hex_u64 (Some b) = Some v.
Proof using Henv H0.
  intros Cn Gn El Hv. destruct (getenv_spec _ _ _ _ n Henv Cn Gn) as (r & Er & Es & Hz). rewrite El in Es.
  destruct r as [b|]; [|done]. injection Es as Es. exists b. split; [done|]. destruct (cstr_split b (Hz _ eq_refl)) as [t ->].
  rewrite Es. by apply (parse_env_hex_round v t).
Qed.

Lemma initrd_init_spec st : mem_at m bv CPIO_MAGIC -> 6 <= sv -> initrd_init e m st = Some (0, MkInitrd bv sv true (ierrno st)).
Proof using Henv H0 Hstr Hbuf Hval.
  intros M Hs. destruct Hval as [V1 V2]. unfold initrd_init.
  assert (forall n, 0 ∉ n -> bytes n -> is_cstr (n ++ [0]) /\ cstr (n ++ [0]) = n) as K by (intros n ? ?; by apply (cs_cstr n)).
  destruct (K NAME_BASE) as [C1 E1]; [by no_nul|by byte_list|]. destruct (K NAME_SIZE) as [C2 E2]; [by no_nul|by byte_list|].
  destruct (getenv_hex (NAME_BASE ++ [0]) bv C1 ltac:(by vm_compute)) as (b & -> & Pb).
  { rewrite E1, boot_strings. assert (forall v w, lookup_var NAME_BASE [[80; 65; 84; 72; 61; 47]; NAME_BASE ++ 61 :: v; w] = Some v) as L by (intros v w; by vm_compute). apply L. }
  { done. }
  destruct (getenv_hex (NAME_SIZE ++ [0]) sv C2 ltac:(by vm_compute)) as (s & -> & Ps).
  { rewrite E2, boot_strings. assert (forall v w, lookup_var NAME_SIZE [[80; 65; 84; 72; 61; 47]; NAME_BASE ++ 61 :: w; NAME_SIZE ++ 61 :: v] = Some v) as L by (intros v w; by vm_compute). apply L. }
  { done. }
  cbn [mbind option_bind]. rewrite Pb, Ps. destruct (Z.ltb_spec sv 6); [lia|]. by rewrite (memcmp_at_eq _ _ _ M).
Qed.
End boot.

(** ** Properties *)

Lemma fuel_enough size : 0 <= size -> size - 0 < 110 * Z.of_nat (Z.to_nat (size / CPIO_HDR_SIZE) + 1).
Proof. intros Hs. unfold CPIO_HDR_SIZE. Z.div_mod_to_equations. lia. Qed.

Lemma first_member_at m base path xs off o x : mem_at m (base + off) (cpio xs) -> first_member path xs off = Some (o, x) ->
  x ∈ xs /\ c_name x = path /\ mem_at m (base + o) (cpio_member x).
Proof.
  revert off. induction xs as [|y xs IH]; intros off M; [done|]. unfold cpio in M. cbn [fmap list_fmap concat] in M. rewrite <- app_assoc in M.
  apply mem_at_app in M as [M1 M2]. cbn [first_member]. case_decide as E.
  - intros [= <- <-]. split; [by left|]. done.
  - intros F. destruct (IH (off + zlen (cpio_member y))) as (? & ? & ?); [by rewrite Z.add_assoc|done|]. split; [by right|done].
Qed.

Lemma find_path st m path t : g_ready st = true -> path <> [] -> 0 ∉ path ->
  initrd_find st m (Some (path ++ 0 :: t)) = find_loop (Z.to_nat (g_size st / CPIO_HDR_SIZE) + 1) m (g_base st) (g_size st) (path ++ 0 :: t) 0.
Proof.
  intros Hr Hne Hz. unfold initrd_find. rewrite Hr. cbn [negb]. destruct path as [|c path]; [done|]. change (zget 0 ((c :: path) ++ 0 :: t) 0) with c.
  destruct (Z.eqb_spec c 0) as [->|]; [set_solver|done].
Qed.


(** Whatever bytes the archive holds, [initrd_find] ends: with [ENOENT], with
    [EINVAL], or with a range that lies in the archive.  It reads no further
    than the archive and the length of the path behind it. *)
Theorem initrd_find_safe m st path t :
  g_ready st = true -> 0 <= g_size st < 2 ^ 62 -> 0 ∉ path ->
  readable m (g_base st) (g_base st + g_size st + zlen path) ->
  exists r, initrd_find st m (Some (path ++ 0 :: t)) = Some r /\ found_ok (g_base st) (g_size st) r.
Proof.
  intros Hr Hs Hz R. destruct (decide (path = [])) as [->|Hne].
  { exists (Failed EINVAL). split; [|by right]. unfold initrd_find. by rewrite Hr. }
  rewrite find_path by done. apply find_loop_safe; [lia|done|done|lia|apply fuel_enough; lia|lia|lia].
Qed.

(** ** Examples *)

Definition demo_member (n d : list Z) : member := MkMember 1 33261 0 0 1 0 0 0 0 0 0 n d.
Definition demo_files : list member := [demo_member [97] [1; 2; 3]; demo_member [98; 105; 110] []; demo_member [98] [7; 8; 9; 10; 11]].
Definition demo_base : Z := 0x8002000000.
Definition demo_buf : list Z := replicate 48 170.
Definition demo_strings : list (list Z) := PATH :: env_initrd demo_buf demo_buf demo_base (zlen (cpio demo_files)).
Definition demo_stack : list (Z * Z) := [(0x1000, 0); (0x1010, 0); (0x1040, 0)].
Definition demo_boot_env : env arena :=
  MkEnv demo_arena (list_to_map (zip demo_stack.*1 demo_strings)) true (demo_stack.*1 ++ [0]) 0 0 [] 0 0 false 0.

Lemma demo_boot_env_at : env_at ∅ demo_boot_env demo_stack demo_strings.
Proof.
  assert (Forall is_cstr demo_strings) as F.
  { assert (forall s, bool_decide (0 ∈ s /\ Forall (fun c => 0 <= c < 256) s) = true -> is_cstr s) as K by (intros s E; by apply bool_decide_eq_true in E).
    repeat (constructor; [apply K; vm_compute; reflexivity|]). constructor. }
  split; try done.
  - apply demo_arena_wf.
  - intros _. by exists [].
  - by repeat constructor.
  - repeat apply Forall2_cons_2; [..|apply Forall2_nil_2]; (split; [vm_compute; reflexivity|]); rewrite Forall_forall in F; apply F; set_solver.
  - intros _. by repeat constructor.
  - repeat constructor.
  - constructor.
Qed.


Definition demo_bad : rom := MkRom demo_base (cpio_header (demo_member [97] [1; 2; 3; 4]) ++ replicate 30 255).

Lemma initrd_find_safe_witness : initrd_find (MkInitrd demo_base 112 true 0) demo_bad (Some [97; 0]) = Some (Failed EINVAL) /\
  exists r, initrd_find (MkInitrd demo_base 112 true 0) demo_bad (Some [97; 0]) = Some r /\ found_ok demo_base 112 r.
Proof.
  split; [vm_compute; reflexivity|]. apply (initrd_find_safe demo_bad (MkInitrd demo_base 112 true 0) [97] []); [done|cbn; lia|no_nul|].
  intros x Hx. cbn [g_base g_size] in Hx. change (zlen [97]) with 1 in Hx. unfold load. cbn [rom_base demo_bad].
  destruct (Z.leb_spec demo_base x); [|lia]. apply lookup_lt_is_Some. cbn [rom_bytes demo_bad]. rewrite length_app.
  pose proof (zlen_header (demo_member [97] [1; 2; 3; 4])) as L. unfold zlen in L. rewrite length_replicate. lia.
Defined.

(** A header and a name of two bytes that does not end. *)
Definition open_name : list Z := CPIO_MAGIC ++ concat (hexd 8 <$> [1; 33261; 0; 0; 1; 0; 0; 0; 0; 0; 0; 2; 0]) ++ [98; 98].

(** A directory is found like a file, with size 0. *)
Theorem directory_found :
  let xs := [MkMember 1 0x41ED 0 0 2 0 0 0 0 0 0 (byte_list "bin") []] in
  let m := MkRom demo_base (cpio xs) in
  initrd_find (MkInitrd demo_base (zlen (cpio xs)) true 0) m (Some (byte_list "bin" ++ [0])) = Some (Found (demo_base + 116) 0) /\ first_file (byte_list "bin") xs 0 = None.
Proof. split; vm_compute; reflexivity. Qed.

(** A name without its NUL at the end of the archive is compared past that end:
    where the archive fills its pages, the search faults. *)
Theorem initrd_find_overread :
  let bytes := cpio_member (demo_member [97] (replicate 3872 0)) ++ open_name in
  zlen bytes = 4096 /\ initrd_find (MkInitrd demo_base 4096 true 0) (MkRom demo_base bytes) (Some [98; 98; 98; 0]) = Some Fault.
Proof. split; vm_compute; reflexivity. Qed.
