(* ===== verification/Micro.v ===== *)
(** * The user side of the system calls

    [userspace/libc/micro.c]: the wrappers that turn the kernel's result
    ([>= 0], or [-errno]) into the C convention ([-1] and [errno], or an invalid
    handle).  A user program is a function of the variables of libc it uses and
    of the rest of the system, the world, reached through [syscall] only; it may
    not return, when a call blocks for ever. *)
From S2P Require Import Prelude Bytes Errno.

(** ** The kernel as user programs see it *)

Definition SYS_EXIT : Z := 2.
Definition SYS_HANDLE_CLOSE : Z := 4.
Definition SYS_GETPID : Z := 10.
Definition SYS_IPC_CREATE : Z := 12.
Definition SYS_IPC_SEND : Z := 13.
Definition SYS_IPC_RECV : Z := 14.
Definition SYS_IPC_TRY_SEND : Z := 15.
Definition SYS_IPC_TRY_RECV : Z := 16.
Definition SYS_MAP : Z := 17.
Definition SYS_UNMAP : Z := 18.
Definition SYS_YIELD : Z := 19.
Definition SYS_IPC_SEND_CAP : Z := 20.
Definition SYS_IPC_RECV_CAP : Z := 21.
Definition SYS_IPC_TRY_RECV_CAP : Z := 22.
Definition SYS_WAIT : Z := 24.
Definition SYS_GET_BOOTSTRAP : Z := 25.
Definition SYS_SPAWN_ELF : Z := 26.
Definition SYS_EXY_PUTS : Z := 1.
Definition SYS_EXY_GETS : Z := 27.
Definition SYS_PROC_LIST : Z := 28.
Definition EXYDE_HANDLE_INVALID : Z := 4294967295.
Definition EXYDE_IPC_CAP_DUPLICATE : Z := 2.

(** An argument: a number, a buffer the kernel reads, one it writes, or where it
    puts a handle. *)
Inductive arg := Num (n : Z) | Src (b : list Z) | Dst | DstCap.

(** The value in [rax], the bytes put in the [Dst] buffer, the handle put in [DstCap]. *)
Record sysret := MkRet { rax : Z; out_bytes : list Z; out_cap : Z }.

(** [None]: the call does not return. *)
Class Sys (W : Type) := syscall : Z -> list arg -> W -> option (sysret * W).

(** ** The variables of libc *)

(** [vfs_client.c], [vfs_fdtab.c], [console_client.c] *)
Record vfs_vars := MkVars { rpc_req : Z; rpc_resp : Z; client_id : Z }.
Record fd_entry := MkEntry { server_fd : Z; in_use : bool }.
Record con_vars := MkCon { con_req : Z; con_resp : Z }.

Record libc {W : Type} := MkLibc { errno : Z; vfs : vfs_vars; tab : list fd_entry; con : con_vars; world : W }.
Arguments libc W : clear implicits.
Arguments MkLibc {W}.

Definition set_errno {W} (x : Z) (u : libc W) : libc W := MkLibc x (vfs u) (tab u) (con u) (world u).
Definition set_vfs {W} (v : vfs_vars) (u : libc W) : libc W := MkLibc (errno u) v (tab u) (con u) (world u).
Definition set_tab {W} (t : list fd_entry) (u : libc W) : libc W := MkLibc (errno u) (vfs u) t (con u) (world u).
Definition set_con {W} (c : con_vars) (u : libc W) : libc W := MkLibc (errno u) (vfs u) (tab u) c (world u).
Definition set_world {W} (w : W) (u : libc W) : libc W := MkLibc (errno u) (vfs u) (tab u) (con u) w.

(** ** Programs *)

Definition user (W T : Type) : Type := libc W -> option (T * libc W).
Definition uret {W T} (x : T) : user W T := fun u => Some (x, u).
Definition ubind {W S T} (m : user W S) (k : S -> user W T) : user W T :=
  fun u => match m u with Some (x, u) => k x u | None => None end.
Definition uget {W T} (f : libc W -> T) : user W T := fun u => Some (f u, u).
Definition uset {W} (f : libc W -> libc W) : user W () := fun u => Some ((), f u).

Declare Scope user_scope.
Delimit Scope user_scope with user.
Notation "'let*' x ':=' m 'in' k" := (ubind m (fun x => k)) (at level 200, x pattern, m at level 100, k at level 200) : user_scope.
Notation "m ';;;' k" := (ubind m (fun _ => k)) (at level 100, right associativity) : user_scope.
#[export] Hint Unfold uret ubind uget uset : user.
Open Scope user_scope.

(** [errno = x; return v;] *)
Definition fail {W T} (x : Z) (v : T) : user W T := uset (set_errno x) ;;; uret v.

(** ** The wrappers *)

Section micro.
Context {W : Type} `{Sys W}.

Definition __exyde_syscall (nr : Z) (args : list arg) : user W sysret :=
  fun u => '(r, w) ← syscall nr args (world u); Some (r, set_world w u).

Definition is_error (r : Z) : bool := (r <? 0) && (-4096 <? r).

Definition chk (r : Z) : user W Z := if is_error r then fail (i32 (- r)) (-1) else uret r.

(** [return (int)chk(r);] *)
Definition chk_int (nr : Z) (args : list arg) : user W Z :=
  let* r := __exyde_syscall nr args in let* x := chk (rax r) in uret (i32 x).
(** ... and what came back in the buffers. *)
Definition chk_out (nr : Z) (args : list arg) : user W (Z * list Z) :=
  let* r := __exyde_syscall nr args in let* x := chk (rax r) in uret (i32 x, out_bytes r).
Definition chk_cap (nr : Z) (args : list arg) : user W (Z * list Z * Z) :=
  let* r := __exyde_syscall nr args in let* x := chk (rax r) in uret (i32 x, out_bytes r, out_cap r).
(** The functions that return a handle. *)
Definition chk_handle (nr : Z) (args : list arg) : user W Z :=
  let* r := __exyde_syscall nr args in
  if is_error (rax r) then fail (i32 (- rax r)) EXYDE_HANDLE_INVALID else uret (u32 (rax r)).

Definition exyde_ipc_create (msg_size capacity : Z) : user W Z := chk_handle SYS_IPC_CREATE [Num msg_size; Num capacity].
Definition exyde_ipc_send (h : Z) (buf : list Z) (len : Z) : user W Z := chk_int SYS_IPC_SEND [Num h; Src buf; Num len].
Definition exyde_ipc_try_send (h : Z) (buf : list Z) (len : Z) : user W Z := chk_int SYS_IPC_TRY_SEND [Num h; Src buf; Num len].
Definition exyde_ipc_recv (h max_len : Z) : user W (Z * list Z) := chk_out SYS_IPC_RECV [Num h; Dst; Num max_len].
Definition exyde_ipc_try_recv (h max_len : Z) : user W (Z * list Z) := chk_out SYS_IPC_TRY_RECV [Num h; Dst; Num max_len].
Definition exyde_ipc_send_cap (ch : Z) (buf : list Z) (len cap action : Z) : user W Z :=
  chk_int SYS_IPC_SEND_CAP [Num ch; Src buf; Num len; Num cap; Num action].
Definition exyde_ipc_recv_cap (ch max_len : Z) : user W (Z * list Z * Z) := chk_cap SYS_IPC_RECV_CAP [Num ch; Dst; Num max_len; DstCap].
Definition exyde_ipc_try_recv_cap (ch max_len : Z) : user W (Z * list Z * Z) := chk_cap SYS_IPC_TRY_RECV_CAP [Num ch; Dst; Num max_len; DstCap].
Definition exyde_handle_close (h : Z) : user W Z := chk_int SYS_HANDLE_CLOSE [Num h].
Definition exyde_spawn_elf (elf : list Z) (size : Z) (name : list Z) (cap : Z) : user W Z :=
  chk_handle SYS_SPAWN_ELF [Src elf; Num size; Src name; Num cap].
Definition exyde_wait (proc : Z) : user W Z := chk_int SYS_WAIT [Num proc].
Definition exyde_get_bootstrap : user W Z := chk_handle SYS_GET_BOOTSTRAP [].
Definition exyde_map (hint npages flags : Z) : user W Z :=
  let* r := __exyde_syscall SYS_MAP [Num hint; Num npages; Num flags] in
  if is_error (rax r) then fail (i32 (- rax r)) 0 else uret (u64 (rax r)).
Definition exyde_unmap (vaddr npages : Z) : user W Z := chk_int SYS_UNMAP [Num vaddr; Num npages].
Definition exyde_yield : user W Z := chk_int SYS_YIELD [].
Definition exyde_proc_list (max : Z) : user W (Z * list Z) :=
  let* r := __exyde_syscall SYS_PROC_LIST [Dst; Num max] in
  if is_error (rax r) then fail (i32 (- rax r)) (-1, []) else uret (i32 (rax r), out_bytes r).
End micro.
