(* ===== verification/VfsClient.v ===== *)
(** * The VFS client

    [userspace/libc/vfs_client.c] and [vfs_fdtab.c]: the requests libc sends to
    the VFS server and the table of local descriptors.  The last part links the
    client to the server of [VfsServer] and shows what a call does to the file
    system on the other side. *)
From S2P Require Import Prelude Bytes Errno Str Iface CMalloc Ramfs Vfs VfsServer Micro.

(** ** Messages *)

(** [struct vfs_req] at the start of a zeroed message. *)
Definition encode_req (q : vfs_req) : list Z :=
  le_bytes 4 (op q) ++ le_bytes 4 (fd q) ++ le_bytes 8 (arg0 q) ++ le_bytes 8 (arg1 q) ++ le_bytes 4 (data_len q) ++
  le_bytes 4 (VfsServer.client_id q) ++ path q ++ rdata q ++ replicate 224 0.

Record vfs_rsp := MkRsp { rret : Z; raux : Z; rdata_len : Z; rsp_data : list Z }.
Definition rsp_at (m : list Z) : vfs_rsp := MkRsp (i64 (get_le m 0 8)) (get_le m 8 8) (get_le m 16 4) (slice m 24 VFS_RPC_DATA_MAX).

(** [memset(&q, 0, sizeof q)] *)
Definition zero_path : list Z := replicate 256 0.
Definition zero_data : list Z := replicate 512 0.
Definition zero_req : vfs_req := MkReq 0 0 0 0 0 0 zero_path zero_data.

Definition set_path (path : list Z) : list Z :=
  let n := strlen path in
  let n := if VFS_RPC_PATH_MAX <=? n then VFS_RPC_PATH_MAX - 1 else n in
  zset (copy_loop zero_path 0 path 0 n) n 0.

Section client.
Context {W : Type} `{Sys W}.

Definition vfs_client_init (ch_req : Z) : user W Z :=
  if ch_req =? EXYDE_HANDLE_INVALID then fail EINVAL (-1)
  else
    let* ch_resp := exyde_ipc_create VFS_RPC_MSG_SIZE 4 in
    if ch_resp =? EXYDE_HANDLE_INVALID then uret (-1)
    else
      let* s := exyde_ipc_send_cap ch_req (encode_req zero_req) VFS_RPC_MSG_SIZE ch_resp EXYDE_IPC_CAP_DUPLICATE in
      if negb (s =? 0) then exyde_handle_close ch_resp ;;; uret (-1)
      else
        let* (n, rsp_buf) := exyde_ipc_recv ch_resp VFS_RPC_MSG_SIZE in
        if negb (n =? VFS_RPC_MSG_SIZE) then exyde_handle_close ch_resp ;;; fail EIO (-1)
        else
          let r := rsp_at rsp_buf in
          if rret r <? 0 then exyde_handle_close ch_resp ;;; fail (i32 (- rret r)) (-1)
          else uset (set_vfs (MkVars ch_req ch_resp (u32 (raux r)))) ;;; uret 0.

Definition ensure_init : user W Z :=
  let* v := uget vfs in
  if (rpc_req v =? EXYDE_HANDLE_INVALID) || (rpc_resp v =? EXYDE_HANDLE_INVALID) then fail ENOSYS (-1) else uret 0.

(** -1, or the response. *)
Definition rpc (q : vfs_req) : user W (option vfs_rsp) :=
  let* v := uget vfs in
  let lq := MkReq (op q) (fd q) (arg0 q) (arg1 q) (data_len q) (client_id v) (path q) (rdata q) in
  let* s := exyde_ipc_send (rpc_req v) (encode_req lq) VFS_RPC_MSG_SIZE in
  if negb (s =? 0) then uret None
  else
    let* (n, rx) := exyde_ipc_recv (rpc_resp v) VFS_RPC_MSG_SIZE in
    if negb (n =? VFS_RPC_MSG_SIZE) then fail EIO None
    else
      let r := rsp_at rx in
      if rret r <? 0 then fail (i32 (- rret r)) None else uret (Some r).

(** [if (ensure_init() != 0) return -1;] around the body. *)
Definition initialised {T} (bad : T) (k : user W T) : user W T :=
  let* i := ensure_init in if negb (i =? 0) then uret bad else k.

(** [return rpc(&q, 0);] *)
Definition rpc_status (q : vfs_req) : user W Z :=
  let* r := rpc q in uret (match r with Some _ => 0 | None => -1 end).

Definition vfs_client_open (path : list Z) (flags mode : Z) : user W Z :=
  initialised (-1) (
    let* r := rpc (MkReq VFS_OP_OPEN 0 flags mode 0 0 (set_path path) zero_data) in
    uret (match r with Some r => i32 (raux r) | None => -1 end)).

Definition vfs_client_close (fd : Z) : user W Z :=
  initialised (-1) (rpc_status (MkReq VFS_OP_CLOSE (u32 fd) 0 0 0 0 zero_path zero_data)).

(** The result and the bytes put in the caller's buffer. *)
Definition vfs_client_read (fd len : Z) : user W (Z * list Z) :=
  initialised (-1, []) (
    if (len =? 0) || (VFS_RPC_DATA_MAX <? len) then fail EINVAL (-1, [])
    else
      let* r := rpc (MkReq VFS_OP_READ (u32 fd) len 0 0 0 zero_path zero_data) in
      match r with
      | None => uret (-1, [])
      | Some r => if len <? rdata_len r then fail EIO (-1, []) else uret (rdata_len r, take (Z.to_nat (rdata_len r)) (rsp_data r))
      end).

(** [while (total < len)]: every round writes a byte, so [len] of them are enough. *)
Fixpoint write_loop (fuel : nat) (fd : Z) (buf : list Z) (len total : Z) : user W Z :=
  match fuel with
  | O => fun _ => None
  | S fuel =>
    if total <? len then
      let chunk := if VFS_RPC_DATA_MAX <? u64 (len - total) then VFS_RPC_DATA_MAX else u64 (len - total) in
      let* r := rpc (MkReq VFS_OP_WRITE (u32 fd) 0 0 (u32 chunk) 0 zero_path (copy_loop zero_data 0 buf total chunk)) in
      match r with
      | None => uret (-1)
      | Some r => if rret r <=? 0 then fail EIO (-1) else write_loop fuel fd buf len (u64 (total + rret r))
      end
    else uret (i64 total)
  end.
Definition vfs_client_write (fd : Z) (buf : list Z) (len : Z) : user W Z :=
  initialised (-1) (if len =? 0 then uret 0 else write_loop (S (Z.to_nat len)) fd buf len 0).

Definition vfs_client_seek (fd off whence : Z) : user W Z :=
  initialised (-1) (
    let* r := rpc (MkReq VFS_OP_SEEK (u32 fd) (u64 off) (u64 whence) 0 0 zero_path zero_data) in
    uret (match r with Some r => i64 (raux r) | None => -1 end)).

Definition vfs_client_mkdir (path : list Z) (mode : Z) : user W Z :=
  initialised (-1) (rpc_status (MkReq VFS_OP_MKDIR 0 mode 0 0 0 (set_path path) zero_data)).
Definition vfs_client_unlink (path : list Z) : user W Z :=
  initialised (-1) (rpc_status (MkReq VFS_OP_UNLINK 0 0 0 0 0 (set_path path) zero_data)).
Definition vfs_client_rmdir (path : list Z) : user W Z :=
  initialised (-1) (rpc_status (MkReq VFS_OP_RMDIR 0 0 0 0 0 (set_path path) zero_data)).

(** The result and the bytes put in [name], which has room for [n]. *)
Definition vfs_client_readdir (fd index n : Z) : user W (Z * list Z) :=
  initialised (-1, []) (
    let* r := rpc (MkReq VFS_OP_READDIR (u32 fd) index 0 0 0 zero_path zero_data) in
    match r with
    | None => uret (-1, [])
    | Some r => if (rdata_len r =? 0) || (n <? rdata_len r) then fail EIO (-1, []) else uret (0, take (Z.to_nat (rdata_len r)) (rsp_data r))
    end).

Definition vfs_client_shutdown : user W Z :=
  initialised (-1) (rpc_status (MkReq VFS_OP_SHUTDOWN 0 0 0 0 0 zero_path zero_data)).

(** ** Local descriptors *)

Definition VFS_FD_LOCAL_MAX : Z := 64.
Definition free_entry : fd_entry := MkEntry 0 false.

Definition vfs_fdtab_init : user W () := uset (set_tab (replicate (Z.to_nat VFS_FD_LOCAL_MAX) free_entry)).

(** [for (i = 3; i < 64; ++i) if (!tab[i].in_use) ...] *)
Fixpoint first_free (t : list fd_entry) (n : nat) (i : Z) : option Z :=
  match n with
  | O => None
  | S n => if in_use (zget free_entry t i) then first_free t n (i + 1) else Some i
  end.

Definition vfs_fdtab_alloc (sf : Z) : user W Z :=
  let* t := uget tab in
  match first_free t (Z.to_nat (VFS_FD_LOCAL_MAX - 3)) 3 with
  | Some i => uset (set_tab (zset t i (MkEntry sf true))) ;;; uret i
  | None => fail EMFILE (-1)
  end.

Definition fd_known (t : list fd_entry) (local_fd : Z) : bool :=
  negb ((local_fd <? 3) || (VFS_FD_LOCAL_MAX <=? local_fd) || negb (in_use (zget free_entry t local_fd))).

(** The server's descriptor, or -1. *)
Definition vfs_fdtab_get (local_fd : Z) : user W (option Z) :=
  let* t := uget tab in
  if negb (fd_known t local_fd) then fail EBADF None else uret (Some (server_fd (zget free_entry t local_fd))).

Definition vfs_fdtab_free (local_fd : Z) : user W Z :=
  let* t := uget tab in
  if negb (fd_known t local_fd) then fail EBADF (-1) else uset (set_tab (zset t local_fd free_entry)) ;;; uret 0.
End client.

(** ** Encoding and decoding *)

Lemma slice_mid (l1 l2 l3 : list Z) off n : off = zlen l1 -> n = zlen l2 -> slice (l1 ++ l2 ++ l3) off n = l2.
Proof.
  intros -> ->. pose proof (zlen_nonneg l1). pose proof (zlen_nonneg l2). apply (list_eq_zget 0); [rewrite zlen_slice; lia|].
  intros i. rewrite zlen_slice. intros Hi. rewrite zget_slice by lia. unfold zget, zlen in *. rewrite app_nth2 by lia.
  rewrite app_nth1 by lia. f_equal. lia.
Qed.

(** A message is a list of fields. *)
Lemma slice_field (ls : list (list Z)) k l off n : ls !! k = Some l -> off = zlen (concat (take k ls)) -> n = zlen l -> slice (concat ls) off n = l.
Proof.
  intros Hl -> ->. rewrite <- (take_drop_middle ls k l Hl) at 1. rewrite concat_app. cbn [concat]. by apply slice_mid.
Qed.

Lemma le_val_mod n x : le_val (le_bytes n x) = x mod 256 ^ Z.of_nat n.
Proof.
  revert x. induction n as [|n IH]; intros x; cbn [le_bytes le_val]; [by rewrite Z.mod_1_r|].
  rewrite IH, Nat2Z.inj_succ, Z.pow_succ_r, Z.rem_mul_r by (try lia; apply Z.pow_pos_nonneg; lia). done.
Qed.

Lemma get_le_field_mod (ls : list (list Z)) k w x off n : ls !! k = Some (le_bytes w x) -> off = zlen (concat (take k ls)) -> n = Z.of_nat w ->
  get_le (concat ls) off n = x mod 256 ^ n.
Proof. intros Hl Ho ->. unfold get_le. rewrite (slice_field ls k (le_bytes w x)) by (by rewrite ?zlen_le_bytes). apply le_val_mod. Qed.

Lemma get_le_field (ls : list (list Z)) k w x off n : ls !! k = Some (le_bytes w x) -> off = zlen (concat (take k ls)) -> n = Z.of_nat w ->
  0 <= x < 256 ^ n -> get_le (concat ls) off n = x.
Proof. intros Hl Ho Hn Hx. rewrite (get_le_field_mod ls k w x) by done. by apply Z.mod_small. Qed.

Ltac offset := cbn [take concat]; rewrite ?app_nil_r, ?zlen_app, ?zlen_le_bytes; try done; lia.

(** The fields in their ranges. *)
Record req_ok (q : vfs_req) : Prop := {
  ro_op : 0 <= op q < 2 ^ 32; ro_fd : 0 <= fd q < 2 ^ 32; ro_arg0 : 0 <= arg0 q < 2 ^ 64; ro_arg1 : 0 <= arg1 q < 2 ^ 64;
  ro_len : 0 <= data_len q < 2 ^ 32; ro_id : 0 <= VfsServer.client_id q < 2 ^ 32; ro_path : zlen (path q) = 256; ro_data : zlen (rdata q) = 512 }.

Lemma req_roundtrip q : req_ok q -> req_at (encode_req q) = q.
Proof.
  intros [R1 R2 R3 R4 R5 R6 R7 R8]. destruct q as [o f a0 a1 dl ci p d]. cbn [op fd arg0 arg1 data_len VfsServer.client_id path rdata] in *.
  unfold req_at. assert (encode_req (MkReq o f a0 a1 dl ci p d) =
    concat [le_bytes 4 o; le_bytes 4 f; le_bytes 8 a0; le_bytes 8 a1; le_bytes 4 dl; le_bytes 4 ci; p; d; replicate 224 0]) as ->.
  { cbn [concat]. by rewrite app_nil_r. }
  f_equal; [apply (get_le_field _ 0 4)|apply (get_le_field _ 1 4)|apply (get_le_field _ 2 8)|apply (get_le_field _ 3 8)|apply (get_le_field _ 4 4)
           |apply (get_le_field _ 5 4)|apply (slice_field _ 6)|apply (slice_field _ 7)]; try done; offset.
Qed.

Lemma zlen_encode q : req_ok q -> zlen (encode_req q) = VFS_RPC_MSG_SIZE.
Proof. intros [_ _ _ _ _ _ R7 R8]. unfold encode_req. rewrite !zlen_app, !zlen_le_bytes, R7, R8, zlen_replicate. done. Qed.

Lemma i64_u64 x : i64 (u64 x) = i64 x.
Proof. unfold i64, u64. by rewrite Zplus_mod_idemp_l. Qed.

Lemma rsp_roundtrip ret aux len data : 0 <= len <= 512 ->
  rsp_at (rsp_bytes ret aux len data) = MkRsp (i64 ret) (u64 aux) len (copy_loop zero_data 0 data 0 len).
Proof.
  intros Hl. unfold rsp_at. set (d := copy_loop zero_data 0 data 0 len).
  assert (zlen d = 512) as Ld by (unfold d; rewrite zlen_copy_loop; unfold zero_data; rewrite ?zlen_replicate; lia).
  assert (rsp_bytes ret aux len data = concat [le_bytes 8 (u64 ret); le_bytes 8 aux; le_bytes 4 len; le_bytes 4 0; d; replicate 488 0]) as ->.
  { cbn [concat]. by rewrite app_nil_r. }
  pose proof (u64_range ret). f_equal; [|apply (get_le_field_mod _ 1 8)|apply (get_le_field _ 2 4)|apply (slice_field _ 4)]; try done; try offset; try lia.
  rewrite <- (i64_u64 ret). f_equal. apply (get_le_field _ 0 8); try done; offset.
Qed.

(** The path as sent: at most 255 characters of it. *)
Lemma set_path_spec p : 0 ∈ p -> zlen (set_path p) = 256 /\ 0 ∈ set_path p /\ cstr (set_path p) = take 255 (cstr p).
Proof.
  intros Hp. unfold set_path, VFS_RPC_PATH_MAX. rewrite strlen_cstr. destruct (cstr_split p Hp) as [t Et]. pose proof (cstr_no_nul p) as Hz.
  set (c := cstr p) in *. pose proof (zlen_nonneg c). set (n := if 256 <=? zlen c then 256 - 1 else zlen c).
  assert (0 <= n <= 255 /\ n <= zlen c /\ take 255 c = take (Z.to_nat n) c) as (Hn & Hn' & E).
  { unfold n. destruct (Z.leb_spec 256 (zlen c)); [split_and!; [lia|lia|lia|done]|]. split_and!; [lia|lia|lia|].
    rewrite !take_ge by (unfold zlen in *; lia). done. }
  assert (zlen (take (Z.to_nat n) c) = n) as Lt by (unfold zlen in *; rewrite length_take; lia).
  assert (p = take (Z.to_nat n) c ++ drop (Z.to_nat n) c ++ 0 :: t) as Ep by (by rewrite app_assoc, take_drop).
  replace (copy_loop zero_path 0 p 0 n) with (copy_loop zero_path 0 (take (Z.to_nat n) c ++ drop (Z.to_nat n) c ++ 0 :: t) 0 n) by (by rewrite <- Ep).
  rewrite copy_end by (unfold zero_path; rewrite ?zlen_replicate; lia).
  assert (0 ∉ take (Z.to_nat n) c) as Hz' by (intros K; apply list_elem_of_lookup in K as [j [K _]%lookup_take_Some]; apply Hz; by eapply list_elem_of_lookup_2).
  rewrite E. split; [|split; [set_solver|by apply cstr_app]].
  rewrite zlen_app, zlen_cons, Lt. unfold zlen, zero_path. rewrite length_drop, length_replicate. lia.
Qed.

(** ** The client and the server, linked *)

(** The server runs whenever a request has been sent, until it waits for the
    next; the channels of the replies hold what was sent and not yet received.
    [w_tty] is what was written to the kernel's console.  The handles that are not
    the server's lead to [w_con], any other part of the system. *)
Record vworld {A C : Type} := MkWorld { w_out : outcome A; w_req : Z; w_box : gmap Z (list (list Z)); w_next : Z; w_tty : list Z; w_con : C }.
Arguments vworld A C : clear implicits.
Arguments MkWorld {A C}.

(** A system without anything else. *)
#[export] Instance unit_sys : Sys () := fun _ _ w => Some (MkRet (- EBADF) [] EXYDE_HANDLE_INVALID, w).

Section link.
Context {A C : Type} `{UHeap A} {SC : Sys C}.

Definition clear (srv : server A) : server A := MkServer (sfs srv) (g_clients srv) (g_next_client_id srv) [].
Definition clear_out (o : outcome A) : outcome A := match o with Running srv => Running (clear srv) | Exited x srv => Exited x (clear srv) end.

Definition deliver (box : gmap Z (list (list Z))) (es : list event) : gmap Z (list (list Z)) :=
  foldl (fun box e => match e with Send ch m => <[ch := default [] (box !! ch) ++ [m]]> box | CloseHandle _ => box end) box es.

(** A request of [len] bytes with a capability reaches the server. *)
Definition to_server (w : vworld A C) (len : Z) (msg : list Z) (cap : Z) : option (vworld A C) :=
  match w_out w with
  | Running srv => o ← serve srv len msg cap; Some (MkWorld (clear_out o) (w_req w) (deliver (w_box w) (events (out_srv o))) (w_next w) (w_tty w) (w_con w))
  | Exited _ _ => Some w
  end.

(** A call on a handle of the rest of the system. *)
Definition elsewhere (nr : Z) (args : list arg) (w : vworld A C) : option (sysret * vworld A C) :=
  '(r, c) ← syscall nr args (w_con w); Some (r, MkWorld (w_out w) (w_req w) (w_box w) (w_next w) (w_tty w) c).

Definition done_with (r : Z) (w : vworld A C) : option (sysret * vworld A C) := Some (MkRet r [] EXYDE_HANDLE_INVALID, w).

#[export] Instance vworld_sys : Sys (vworld A C) := fun nr args w =>
  match args with
  | [] => done_with (if nr =? SYS_GET_BOOTSTRAP then w_req w else - ENOSYS) w
  | [Src b; Num n] =>
    if negb (nr =? SYS_EXY_PUTS) then done_with (- ENOSYS) w
    else if n =? 0 then done_with 0 w
    else if 4096 <? n then done_with (- EINVAL) w
    else done_with n (MkWorld (w_out w) (w_req w) (w_box w) (w_next w) (w_tty w ++ take (Z.to_nat n) b) (w_con w))
  | [Num msg_size; Num capacity] =>
    if nr =? SYS_IPC_CREATE then done_with (w_next w) (MkWorld (w_out w) (w_req w) (<[w_next w := []]> (w_box w)) (w_next w + 1) (w_tty w) (w_con w))
    else done_with (- ENOSYS) w
  | [Num h; Src msg; Num len] =>
    if negb (nr =? SYS_IPC_SEND) then done_with (- ENOSYS) w
    else if negb (h =? w_req w) then elsewhere nr args w
    else w ← to_server w len msg EXYDE_HANDLE_INVALID; done_with 0 w
  | [Num h; Src msg; Num len; Num cap; Num _] =>
    if negb (nr =? SYS_IPC_SEND_CAP) then done_with (- ENOSYS) w
    else if negb (h =? w_req w) then done_with (- EBADF) w
    else w ← to_server w len msg cap; done_with 0 w
  | [Num h; Dst; Num max] =>
    if negb (nr =? SYS_IPC_RECV) then done_with (- ENOSYS) w
    else
      match w_box w !! h with
      | None => elsewhere nr args w
      | Some [] => None
      | Some (m :: ms) => Some (MkRet (zlen m) m EXYDE_HANDLE_INVALID, MkWorld (w_out w) (w_req w) (<[h := ms]> (w_box w)) (w_next w) (w_tty w) (w_con w))
      end
  | [Num h] =>
    if nr =? SYS_HANDLE_CLOSE then done_with 0 (MkWorld (w_out w) (w_req w) (delete h (w_box w)) (w_next w) (w_tty w) (w_con w)) else done_with (- ENOSYS) w
  | _ => done_with (- ENOSYS) w
  end.
End link.

(** ** Calls that print nothing *)

Section quiet.
Context {A C : Type} `{UHeap A} {SC : Sys C}.

Definition quiet {T} (m : user (vworld A C) T) : Prop := forall u x u', m u = Some (x, u') -> w_tty (world u') = w_tty (world u).

Lemma quiet_ret {T} (x : T) : quiet (uret x).
Proof. by intros u y u' [= _ <-]. Qed.
Lemma quiet_get {T} (f : libc (vworld A C) -> T) : quiet (uget f).
Proof. by intros u y u' [= _ <-]. Qed.
Lemma quiet_set f : (forall u, world (f u) = world u) -> quiet (uset f).
Proof. intros K u y u' [= _ <-]. by rewrite K. Qed.
Lemma quiet_none {T} : quiet (fun _ => @None (T * libc (vworld A C))).
Proof. done. Qed.
Lemma quiet_bind {S T} (m : user (vworld A C) S) (k : S -> user (vworld A C) T) : quiet m -> (forall x, quiet (k x)) -> quiet (ubind m k).
Proof. intros Hm Hk u y u'. unfold ubind. destruct (m u) as [[x u1]|] eqn:E; [|done]. intros E'. rewrite (Hk _ _ _ _ E'). by eapply Hm. Qed.
Lemma quiet_fail {T} e (v : T) : quiet (fail e v).
Proof. apply quiet_bind; [by apply quiet_set|intros; apply quiet_ret]. Qed.

Lemma to_server_tty w len msg cap (w' : vworld A C) : to_server w len msg cap = Some w' -> w_tty w' = w_tty w.
Proof. unfold to_server. destruct (w_out w); [|by intros [= <-]]. destruct (serve _ _ _ _); [|done]. by intros [= <-]. Qed.

Lemma quiet_syscall nr args : nr <> SYS_EXY_PUTS -> quiet (__exyde_syscall nr args).
Proof.
  intros Hn u x u'. unfold __exyde_syscall, syscall, vworld_sys. rewrite (proj2 (Z.eqb_neq _ _) Hn). cbn [negb].
  intros E. repeat case_match; try (unfold done_with in E; cbn in E; simplify_eq; done);
  try (unfold elsewhere in E; destruct (syscall _ _ (w_con (world u))) as [[? ?]|]; cbn in E; simplify_eq; done);
  destruct (to_server _ _ _ _) eqn:Et; cbn in E; simplify_eq; by apply to_server_tty in Et.
Qed.
End quiet.
Create HintDb quiet.
#[export] Hint Resolve quiet_ret quiet_get quiet_fail quiet_none : quiet.
(** Splits a call down to its system calls. *)
Ltac quiet := repeat first [ solve [auto with quiet] | apply quiet_syscall; discriminate | apply quiet_set; done | apply quiet_bind; [|intros ?]
  | match goal with |- quiet (if ?b then _ else _) => destruct b | |- quiet (match ?x with _ => _ end) => destruct x end ].
Section quiet_calls.
Context {A C : Type} `{UHeap A} {SC : Sys C}.
Lemma quiet_rpc q : quiet (A := A) (C := C) (rpc q).
Proof. unfold rpc, exyde_ipc_send, exyde_ipc_recv, chk_int, chk_out, chk. quiet. Qed.
#[local] Hint Resolve quiet_rpc : quiet.
Lemma quiet_open p f m : quiet (A := A) (C := C) (vfs_client_open p f m).
Proof. unfold vfs_client_open, initialised, ensure_init. quiet. Qed.
Lemma quiet_close d : quiet (A := A) (C := C) (vfs_client_close d).
Proof. unfold vfs_client_close, initialised, ensure_init, rpc_status. quiet. Qed.
Lemma quiet_read d n : quiet (A := A) (C := C) (vfs_client_read d n).
Proof. unfold vfs_client_read, initialised, ensure_init. quiet. Qed.
Lemma quiet_readdir d x k : quiet (A := A) (C := C) (vfs_client_readdir d x k).
Proof. unfold vfs_client_readdir, initialised, ensure_init. quiet. Qed.
Lemma quiet_write d b n : quiet (A := A) (C := C) (vfs_client_write d b n).
Proof.
  unfold vfs_client_write, initialised, ensure_init. quiet. generalize 0 at 1. generalize (S (Z.to_nat n)). intros fuel. induction fuel; intros t; cbn [write_loop]; quiet.
Qed.
End quiet_calls.

Section linked.
Context {A C : Type} `{UHeapLaws A} {SC : Sys C}.
Implicit Types (u : libc (vworld A C)) (srv : server A).

(** The process [u] is the client [i] of the running server [srv], with no reply pending. *)
Record attached u srv (i : Z) : Prop := {
  at_out : w_out (world u) = Running srv;
  at_wf : srv_wf srv;
  at_ev : events srv = [];
  at_req : rpc_req (vfs u) = w_req (world u) /\ rpc_req (vfs u) <> EXYDE_HANDLE_INVALID /\ rpc_resp (vfs u) <> EXYDE_HANDLE_INVALID;
  at_id : client_find srv (client_id (vfs u)) = Some i /\ 0 <= client_id (vfs u) < 2 ^ 32;
  at_ch : ch_resp (client_at srv i) = rpc_resp (vfs u);
  at_box : w_box (world u) !! rpc_resp (vfs u) = Some [] }.

(** The request as it is sent. *)
Definition stamped u (q : vfs_req) : vfs_req :=
  MkReq (op q) (fd q) (arg0 q) (arg1 q) (data_len q) (client_id (vfs u)) (path q) (rdata q).

Lemma find_unique srv i cid : srv_wf srv -> 0 <= i < VFS_MAX_CLIENTS -> VfsServer.in_use (client_at srv i) = true -> id (client_at srv i) = cid -> cid <> 0 ->
  client_find srv cid = Some i.
Proof.
  intros W Hi Hu Hid Hc. unfold client_find. rewrite (proj2 (Z.eqb_neq cid 0) Hc).
  pose proof (client_scan_spec (fun c => VfsServer.in_use c && (id c =? cid)) (g_clients srv) 0) as Sc. rewrite (tw_len _ _ (sv_tab _ W)) in Sc.
  destruct (client_scan _ (g_clients srv) 0) as [j|].
  - destruct Sc as [Hj F]. rewrite Z.sub_0_r in F. apply andb_true_iff in F as [Fu Fi]. apply Z.eqb_eq in Fi. f_equal.
    change (zget no_client (g_clients srv) j) with (client_at srv j) in *. apply (sv_uniq _ W); [lia|done|done|done|congruence].
  - specialize (Sc i Hi). change (zget no_client (g_clients srv) i) with (client_at srv i) in Sc. rewrite Hu, Hid, Z.eqb_refl in Sc. done.
Qed.

Lemma find_same srv srv1 i cid : stepped i srv srv1 -> srv_wf srv -> client_find srv cid = Some i -> client_find srv1 cid = Some i.
Proof.
  intros S W E. destruct (client_find_spec srv cid i W E) as (Hi & Hu & Hid). destruct (st_self _ _ _ S) as (U1 & I1 & _).
  apply find_unique; [apply S|done|by rewrite U1|by rewrite I1|]. intros ->. discriminate E.
Qed.

Lemma send_linked u srv o msg len : w_out (world u) = Running srv -> serve srv len msg EXYDE_HANDLE_INVALID = Some o ->
  exyde_ipc_send (w_req (world u)) msg len u =
  Some (0, set_world (MkWorld (clear_out o) (w_req (world u)) (deliver (w_box (world u)) (events (out_srv o))) (w_next (world u)) (w_tty (world u)) (w_con (world u))) u).
Proof.
  intros Eo Es. unfold exyde_ipc_send, chk_int, __exyde_syscall, ubind, syscall, vworld_sys.
  change (SYS_IPC_SEND =? SYS_IPC_SEND) with true. rewrite Z.eqb_refl. cbn [negb]. unfold to_server. rewrite Eo, Es. done.
Qed.

Lemma recv_linked u h m ms max : w_box (world u) !! h = Some (m :: ms) -> zlen m < 2 ^ 31 ->
  exyde_ipc_recv h max u = Some ((zlen m, m), set_world (MkWorld (w_out (world u)) (w_req (world u)) (<[h := ms]> (w_box (world u))) (w_next (world u)) (w_tty (world u)) (w_con (world u))) u).
Proof.
  intros Eb Hl. pose proof (zlen_nonneg m). unfold exyde_ipc_recv, chk_out, __exyde_syscall, ubind, syscall, vworld_sys.
  change (SYS_IPC_RECV =? SYS_IPC_RECV) with true. cbn [negb]. rewrite Eb. cbn [mbind option_bind rax]. unfold chk, is_error.
  rewrite (proj2 (Z.ltb_ge (zlen m) 0)) by lia. cbn [andb]. unfold uret. rewrite i32_small by lia. done.
Qed.

(** What the requests leave alone: the handles, the rest of the system and every
    channel but the client's own. *)
Definition beside u : con_vars * vfs_vars * C * Z * gmap Z (list (list Z)) :=
  (con u, vfs u, w_con (world u), w_req (world u), delete (rpc_resp (vfs u)) (w_box (world u))).

(** The work a request makes the server do. *)
Lemma rpc_full u srv i q : attached u srv i -> req_ok q -> op q <> VFS_OP_ATTACH -> op q <> VFS_OP_SHUTDOWN ->
  (need_path q = true -> 0 ∈ path q) ->
  exists srv1 ret aux len data u', stepped i srv srv1 /\ 0 <= len <= 512 /\
    handle srv i (stamped u q) = Some (emit srv1 (Send (rpc_resp (vfs u)) (rsp_bytes ret aux len data))) /\
    rpc q u = Some (if i64 ret <? 0 then None else Some (MkRsp (i64 ret) (u64 aux) len (copy_loop zero_data 0 data 0 len)), u') /\
    errno u' = (if i64 ret <? 0 then i32 (- i64 ret) else errno u) /\ tab u' = tab u /\ beside u' = beside u /\ attached u' srv1 i.
Proof.
  intros [E1 E2 E3 (E4 & E4a & E4b) (E5 & E5a) E6 E7] Rq Ha Hs Hp.
  assert (req_ok (stamped u q)) as Rs by (destruct Rq; by split).
  destruct (client_find_spec srv _ i E2 E5) as (Hi & Hu & Hid).
  destruct (handle_spec srv i (stamped u q) E2 Hi Hu) as (srv2 & Eh & srv1 & ret & aux & len & data & S & Hl & ->); [apply Rs|apply Rs|done|].
  rewrite E6 in Eh. exists srv1, ret, aux, len, data. set (msg := rsp_bytes ret aux len data) in *.
  assert (serve srv VFS_RPC_MSG_SIZE (encode_req (stamped u q)) EXYDE_HANDLE_INVALID = Some (Running (emit srv1 (Send (rpc_resp (vfs u)) msg)))) as Es.
  { unfold serve. rewrite Z.eqb_refl. cbn [negb]. rewrite req_roundtrip by done. cbn [op stamped VfsServer.client_id].
    rewrite (proj2 (Z.eqb_neq _ _) Ha), (proj2 (Z.eqb_neq _ _) Hs). change (Micro.EXYDE_HANDLE_INVALID) with (VfsServer.EXYDE_HANDLE_INVALID).
    rewrite Z.eqb_refl, E5. fold (need_path q). destruct (need_path q) eqn:Hn; cbn [andb]; [|by rewrite Eh].
    unfold check_path. cbn [path stamped]. rewrite bool_decide_true by auto. change (0 <? 0) with false. cbv iota. by rewrite Eh. }
  assert (zlen msg = VFS_RPC_MSG_SIZE) as Lr by (by apply zlen_rsp).
  unfold rpc, uget. unfold ubind at 1. fold (stamped u q). unfold ubind at 1. rewrite E4, (send_linked u srv _ _ _ E1 Es). cbn [Z.eqb negb].
  unfold ubind at 1. assert (events (out_srv (Running (emit srv1 (Send (rpc_resp (vfs u)) msg)))) = [Send (rpc_resp (vfs u)) msg]) as Ev.
  { cbn [out_srv emit events]. by rewrite (st_events _ _ _ S), E3. }
  rewrite Ev. cbn [deliver foldl]. rewrite E7. cbn [default app].
  rewrite (recv_linked _ (rpc_resp (vfs u)) msg []); [|cbn [world set_world w_box]; apply lookup_insert_eq|rewrite Lr; done].
  rewrite Lr, Z.eqb_refl. cbn [negb]. unfold msg. rewrite rsp_roundtrip by done. cbn [rret].
  assert (attached (set_world (MkWorld (Running (clear (emit srv1 (Send (rpc_resp (vfs u)) msg)))) (w_req (world u)) (<[rpc_resp (vfs u) := []]> (<[rpc_resp (vfs u) := [msg]]> (w_box (world u)))) (w_next (world u)) (w_tty (world u)) (w_con (world u))) u) srv1 i) as At.
  { split; cbn [world set_world w_out vfs w_req w_box]; try done.
    - f_equal. destruct srv1 as [? ? ? ev]. cbn in *. pose proof (st_events _ _ _ S) as K. cbn in K. by rewrite K, E3.
    - apply S.
    - by rewrite (st_events _ _ _ S).
    - split; [by eapply find_same|done].
    - by destruct (st_self _ _ _ S) as (_ & _ & ->).
    - apply lookup_insert_eq. }
  assert (forall box : gmap Z (list (list Z)), delete (rpc_resp (vfs u)) (<[rpc_resp (vfs u) := []]> (<[rpc_resp (vfs u) := [msg]]> box)) = delete (rpc_resp (vfs u)) box) as Bx
    by (intros box; by rewrite !delete_insert_eq).
  destruct (i64 ret <? 0); eexists; do 4 (split; [done|]); (split; [reflexivity|]); (split; [done|]); (split; [unfold beside; cbn; by rewrite Bx|]); [destruct At; by split|exact At].
Qed.

Lemma rpc_spec u srv i q : attached u srv i -> req_ok q -> op q <> VFS_OP_ATTACH -> op q <> VFS_OP_SHUTDOWN ->
  (need_path q = true -> 0 ∈ path q) ->
  exists srv1 ret aux len data u', stepped i srv srv1 /\ 0 <= len <= 512 /\
    handle srv i (stamped u q) = Some (emit srv1 (Send (rpc_resp (vfs u)) (rsp_bytes ret aux len data))) /\
    rpc q u = Some (if i64 ret <? 0 then None else Some (MkRsp (i64 ret) (u64 aux) len (copy_loop zero_data 0 data 0 len)), u') /\
    errno u' = (if i64 ret <? 0 then i32 (- i64 ret) else errno u) /\ tab u' = tab u /\ con u' = con u /\ vfs u' = vfs u /\ attached u' srv1 i.
Proof.
  intros At Rq Ha Hs Hp. destruct (rpc_full u srv i q At Rq Ha Hs Hp) as (srv1 & ret & aux & len & data & u' & S & Hl & Eh & Er & Ee & Et & Eb & At').
  injection Eb as Ec Ev _ _ _. by exists srv1, ret, aux, len, data, u'.
Qed.

(** ... when the handler's answer is known. *)
Lemma rpc_handle u srv i q srv1 ret aux len data : attached u srv i -> req_ok q -> op q <> VFS_OP_ATTACH -> op q <> VFS_OP_SHUTDOWN ->
  (need_path q = true -> 0 ∈ path q) -> 0 <= len <= 512 -> events srv1 = [] ->
  handle srv i (stamped u q) = Some (emit srv1 (Send (rpc_resp (vfs u)) (rsp_bytes ret aux len data))) ->
  exists u', rpc q u = Some (if i64 ret <? 0 then None else Some (MkRsp (i64 ret) (u64 aux) len (copy_loop zero_data 0 data 0 len)), u') /\
    errno u' = (if i64 ret <? 0 then i32 (- i64 ret) else errno u) /\ tab u' = tab u /\ con u' = con u /\ vfs u' = vfs u /\ attached u' srv1 i.
Proof.
  intros At Rq Ha Hs Hp Hl Ev Eh. pose proof At as [_ _ E3 _ _ _ _].
  destruct (rpc_spec u srv i q At Rq Ha Hs Hp) as (srv2 & ret' & aux' & len' & data' & u' & S & Hl' & Eh' & Er & Ee & Et & Ec & Evf & At').
  rewrite Eh in Eh'. pose proof (st_events _ _ _ S) as Ev'. rewrite E3 in Ev'.
  assert (srv2 = srv1 /\ rsp_bytes ret' aux' len' data' = rsp_bytes ret aux len data) as [-> Em].
  { assert (forall v : server A, events v = [] -> v = clear v) as K by (intros [a b c e] Ee'; cbn in Ee'; by subst e). rewrite (K _ Ev), (K _ Ev'). split.
    - apply (f_equal (fmap clear)) in Eh'. unfold clear in *. cbn in Eh'. congruence.
    - apply (f_equal (fmap events)) in Eh'. cbn [fmap option_fmap option_map emit events] in Eh'. rewrite Ev, Ev' in Eh'. cbn [app] in Eh'. congruence. }
  apply (f_equal rsp_at) in Em. rewrite !rsp_roundtrip in Em by done. injection Em as E1 E2 E4 E5.
  subst len'. exists u'. rewrite Er, Ee, E1, E2, E5. done.
Qed.

(** The descriptor [d] of client [i] is the file [q], its record and its node. *)
Record holds srv (i d q : Z) (f : file) (n : node) : Prop := {
  ho_fd : 0 <= d < VFS_FD_MAX;
  ho_get : vfs_fd_get (fdtab (client_at srv i)) d = q /\ q <> 0;
  ho_file : files (sfs srv) !! q = Some f;
  ho_node : nodes (sfs srv) !! f_vn f = Some n }.

(** A step of the file system under the descriptor. *)
Lemma holds_step srv i d q f n s f' n' : holds srv i d q f n -> files s !! q = Some f' -> nodes s !! f_vn f' = Some n' -> holds (set_fs srv s) i d q f' n'.
Proof. intros [H1 H2 H3 H4] Ef En. by split. Qed.

Lemma with_file_known srv i d q f n qr k : holds srv i d q f n -> fd qr = u32 d -> with_file srv i qr k = k q.
Proof.
  intros [H1 [<- H2] _ _] Ed. unfold with_file. rewrite Ed. unfold VFS_FD_MAX in H1. rewrite u32_small, i32_small by lia.
  by rewrite (proj2 (Z.eqb_neq _ _) H2).
Qed.

Lemma zero_ok (o d a0 a1 : Z) dl dat : 0 <= o < 2 ^ 32 -> 0 <= a0 < 2 ^ 64 -> 0 <= a1 < 2 ^ 64 -> 0 <= dl < 2 ^ 32 -> zlen dat = 512 ->
  req_ok (MkReq o (u32 d) a0 a1 dl 0 zero_path dat).
Proof. intros. pose proof (u32_range d). split; cbn; try done. Qed.

Lemma reply_to u srv i : attached u srv i -> forall s, ch_resp (client_at (set_fs srv s) i) = rpc_resp (vfs u).
Proof. intros At s. exact (at_ch _ _ _ At). Qed.

(** One write of at most 512 bytes. *)
Lemma rpc_write u srv i d q f n src k : attached u srv i -> holds srv i d q f n -> zlen src = 512 -> 0 < k <= 512 ->
  acc_write (f_flags f) = true -> Z.land (f_flags f) VFS_O_APPEND = 0 -> f_offset f + k < 2 ^ 63 ->
  exists r u' srv', rpc (MkReq VFS_OP_WRITE (u32 d) 0 0 (u32 k) 0 zero_path src) u = Some (r, u') /\ attached u' srv' i /\
    tab u' = tab u /\ con u' = con u /\ vfs u' = vfs u /\ edits (sfs srv) (f_vn f) (sfs srv') /\
    ((r = None /\ errno u' = (if ntype n =? VFS_TYPE_REG then ENOMEM else EISDIR) /\ exists k, holds srv' i d q f (set_refcount n k)) \/
     exists a n', r = Some (MkRsp k a 0 zero_data) /\ errno u' = errno u /\ holds srv' i d q (set_file_offset f (f_offset f + k)) n' /\
       written n src k (f_offset f) n' /\ ntype n = VFS_TYPE_REG /\ ntype n' = VFS_TYPE_REG).
Proof.
  intros At Ho Ls Hk Aw Ap Hoff. pose proof (at_wf _ _ _ At) as W. pose proof Ho as [H1 H2 Ef En].
  destruct (wf_files _ _ (sv_fs _ W) q f Ef) as (_ & Fo & _).
  set (qr := MkReq VFS_OP_WRITE (u32 d) 0 0 (u32 k) 0 zero_path src). assert (req_ok qr) as Rq by (apply zero_ok; rewrite ?u32_small; try done; lia).
  destruct (vfs_write_spec (sfs srv) q f n src k (sv_fs _ W) Ef En ltac:(lia)) as (r & s & Ew & Ws & R).
  assert (handle srv i (stamped u qr) = Some (if r <? 0 then reply_err (set_fs srv s) i (i32 (- r)) else reply_ok (set_fs srv s) i r 0 [] 0)) as Eh.
  { change (handle srv i (stamped u qr)) with (with_file srv i (stamped u qr) (fun f =>
      if (u32 k =? 0) || (VFS_RPC_DATA_MAX <? u32 k) then Some (reply_err srv i EINVAL)
      else '(n, s) ← vfs_write (sfs srv) f src (u32 k); let srv := set_fs srv s in
           Some (if n <? 0 then reply_err srv i (i32 (- n)) else reply_ok srv i n 0 [] 0))).
    rewrite (with_file_known srv i d q f n) by done. rewrite u32_small by lia. rewrite (proj2 (Z.eqb_neq k 0)) by lia.
    unfold VFS_RPC_DATA_MAX. rewrite (proj2 (Z.ltb_ge 512 k)) by lia. cbn [orb]. by rewrite Ew. }
  unfold write_effect, write_offset in R. rewrite Aw, Ap in R. cbn [negb Z.eqb] in R. rewrite (proj2 (Z.leb_gt (2 ^ 64) _)) in R by lia.
  unfold reply_err, reply_ok in Eh. rewrite (reply_to u srv i At) in Eh.
  assert (forall e, 0 < e < 4096 -> r = - e -> same (sfs srv) s -> exists r u' srv', rpc qr u = Some (r, u') /\ attached u' srv' i /\
    tab u' = tab u /\ con u' = con u /\ vfs u' = vfs u /\ edits (sfs srv) (f_vn f) (sfs srv') /\
    r = None /\ errno u' = e /\ exists k, holds srv' i d q f (set_refcount n k)) as Fail.
  { intros e He -> Sm. rewrite (proj2 (Z.ltb_lt (- e) 0)) in Eh by lia.
    destruct (rpc_handle u srv i qr (set_fs srv s) (- i32 (- - e)) 0 0 [] At Rq) as (u' & Er & Ee & Et & Ec & Ev & At'); try done; [cbn; apply At|].
    rewrite Z.opp_involutive, (i32_small e), i64_small, (proj2 (Z.ltb_lt (- e) 0)) in Er, Ee by (rewrite ?i32_small; lia).
    exists None, u', (set_fs srv s). split; [done|]. split; [done|]. do 3 (split; [done|]). split; [apply edits_tree; apply Sm|]. split; [done|]. split; [rewrite Ee, Z.opp_involutive; apply i32_small; lia|].
    destruct (tree_node _ _ _ n (same_tree _ _ Sm) En) as [c Ec']. exists c. apply (holds_step srv i d q f n); [done|by rewrite (same_files _ _ Sm)|done]. }
  assert (forall e, (exists r u' srv', rpc qr u = Some (r, u') /\ attached u' srv' i /\ tab u' = tab u /\ con u' = con u /\ vfs u' = vfs u /\
    edits (sfs srv) (f_vn f) (sfs srv') /\ r = None /\ errno u' = e /\ exists k, holds srv' i d q f (set_refcount n k)) -> e = (if ntype n =? VFS_TYPE_REG then ENOMEM else EISDIR) ->
    exists r u' srv', rpc qr u = Some (r, u') /\ attached u' srv' i /\ tab u' = tab u /\ con u' = con u /\ vfs u' = vfs u /\ edits (sfs srv) (f_vn f) (sfs srv') /\
    ((r = None /\ errno u' = (if ntype n =? VFS_TYPE_REG then ENOMEM else EISDIR) /\ exists k, holds srv' i d q f (set_refcount n k)) \/
     exists a n', r = Some (MkRsp k a 0 zero_data) /\ errno u' = errno u /\ holds srv' i d q (set_file_offset f (f_offset f + k)) n' /\
       written n src k (f_offset f) n' /\ ntype n = VFS_TYPE_REG /\ ntype n' = VFS_TYPE_REG)) as Wrap.
  { intros e (r1 & u1 & srv1 & ? & ? & ? & ? & ? & ? & ? & ? & ?) ->. exists r1, u1, srv1. do 6 (split; [done|]). by left. }
  destruct (Z.eqb_spec (ntype n) VFS_TYPE_REG) as [T|T]; cbn [negb] in R.
  2: { destruct R as [Re Sm]. apply (Wrap EISDIR); [by apply Fail|done]. }
  destruct R as [[Re Sm]|(-> & n1 & Wn & Rw & F1)]; [apply (Wrap ENOMEM); [by apply Fail|done]|]. clear Fail Wrap.
  rewrite (proj2 (Z.ltb_ge k 0)) in Eh by lia.
  destruct (rpc_handle u srv i qr (set_fs srv s) k 0 0 [] At Rq) as (u' & Er & Ee & Et & Ec & Ev & At'); try done; [cbn; apply At|].
  rewrite i64_small, (proj2 (Z.ltb_ge k 0)) in Er, Ee by lia.
  eexists _, u', (set_fs srv s). split; [done|]. split; [done|]. do 3 (split; [done|]). split; [exact (edits_rewrites _ _ _ _ _ En Rw)|]. right. exists (u64 0), n1.
  split; [done|]. split; [done|]. destruct (rw_node _ _ _ _ _ Rw) as (? & ? & ? & ? & ->). split; [|done].
  apply (holds_step srv i d q f n); [done|rewrite F1; apply lookup_insert_eq|].
  pose proof (rw_nodes _ _ _ _ _ Rw) as Rn. cbn [nodes set_files f_vn set_file_offset] in Rn |- *. rewrite Rn. apply lookup_insert_eq.
Qed.

(** ** Contents *)

(** [c] with [b] written at [off], inside it or at its end. *)
Definition splice (c : list Z) (off : Z) (b : list Z) : list Z := take (Z.to_nat off) c ++ b ++ drop (Z.to_nat (off + zlen b)) c.

Lemma zlen_contents (n : node) : 0 <= vsize n -> zlen (contents n) = vsize n.
Proof. intros Hv. unfold contents. rewrite zlen_slice. lia. Qed.

Lemma splice_nil c off : 0 <= off -> splice c off [] = c.
Proof. intros Ho. unfold splice. change (zlen []) with 0. rewrite Z.add_0_r. cbn [app]. apply take_drop. Qed.

Lemma zlen_splice c off b : 0 <= off <= zlen c -> zlen (splice c off b) = Z.max (zlen c) (off + zlen b).
Proof. intros Ho. pose proof (zlen_nonneg b). unfold splice. rewrite !zlen_app. unfold zlen in *. rewrite length_take, length_drop. lia. Qed.

(** Consecutive writes are one. *)
Lemma splice_app c off b1 b2 : 0 <= off <= zlen c -> splice (splice c off b1) (off + zlen b1) b2 = splice c off (b1 ++ b2).
Proof.
  intros Ho. pose proof (zlen_nonneg b1). pose proof (zlen_nonneg b2). unfold splice at 1 3. rewrite zlen_app.
  assert (take (Z.to_nat (off + zlen b1)) (splice c off b1) = take (Z.to_nat off) c ++ b1) as ->.
  { unfold splice. rewrite app_assoc. apply take_app_length'. rewrite length_app, length_take. unfold zlen in *. lia. }
  rewrite <- !app_assoc. do 3 f_equal. unfold splice. rewrite !drop_app. rewrite (drop_ge (take _ _)) by (rewrite length_take; unfold zlen in *; lia).
  rewrite (drop_ge b1) by (rewrite length_take; unfold zlen in *; lia). cbn [app]. rewrite drop_drop. f_equal. rewrite length_take. unfold zlen in *. lia.
Qed.

(** The bytes of a chunk are what its message carries. *)
Lemma chunk_written (n n' : node) buf total k off : written n (copy_loop zero_data 0 buf total k) k off n' -> 0 <= off <= vsize n -> 0 < k <= 512 -> 0 <= total -> total + k <= zlen buf ->
  contents n' = splice (contents n) off (take (Z.to_nat k) (drop (Z.to_nat total) buf)).
Proof.
  intros [V G] Ho Hk Ht Hb. set (b := take _ _). assert (zlen b = k) as Lb by (unfold b, zlen in *; rewrite length_take, length_drop; lia).
  unfold splice. rewrite Lb. apply written_contents; [|lia|done|done]. split; [done|]. intros j Hj. rewrite (G j Hj).
  destruct (Z.leb_spec off j); cbn [andb]; [|done]. destruct (Z.ltb_spec j (off + k)); [|done].
  rewrite zget_copy_loop by (unfold zero_data; rewrite ?zlen_replicate; lia). rewrite (proj2 (Z.leb_le 0 _)), (proj2 (Z.ltb_lt _ _)) by lia. cbn [andb].
  unfold b. rewrite !zget_lookup by lia. rewrite lookup_take_lt by lia. rewrite lookup_drop. do 2 f_equal. lia.
Qed.

Lemma client_write_loop_spec fuel u srv i d q f n c0 off buf total :
  attached u srv i -> holds srv i d q f n -> ntype n = VFS_TYPE_REG -> acc_write (f_flags f) = true -> Z.land (f_flags f) VFS_O_APPEND = 0 ->
  f_offset f = off + total -> contents n = splice c0 off (take (Z.to_nat total) buf) -> 0 <= off <= zlen c0 -> 0 <= total <= zlen buf ->
  off + zlen buf < 2 ^ 62 -> zlen buf - total < Z.of_nat fuel ->
  exists r u' srv' t n', write_loop fuel d buf (zlen buf) total u = Some (r, u') /\ attached u' srv' i /\
    tab u' = tab u /\ con u' = con u /\ vfs u' = vfs u /\
    edits (sfs srv) (f_vn f) (sfs srv') /\ total <= t <= zlen buf /\ holds srv' i d q (set_file_offset f (off + t)) n' /\ ntype n' = VFS_TYPE_REG /\
    contents n' = splice c0 off (take (Z.to_nat t) buf) /\
    ((r = zlen buf /\ t = zlen buf /\ errno u' = errno u) \/ (r = -1 /\ errno u' = ENOMEM /\ t < zlen buf)).
Proof.
  revert u srv f n total. induction fuel as [|fuel IH]; intros u srv f n total At Ho T Aw Ap Fo Ec Hoff Ht Hb Hf; [lia|]. cbn [write_loop].
  destruct (Z.ltb_spec total (zlen buf)) as [Hlt|Hge].
  2: { exists (zlen buf), u, srv, total, n. assert (total = zlen buf) as -> by lia. unfold uret. rewrite i64_small by lia.
       do 6 (split; [done|]). split; [lia|]. split; [rewrite <- Fo; by destruct f|]. do 2 (split; [done|]). left. done. }
  rewrite u64_small by lia. set (k := if VFS_RPC_DATA_MAX <? zlen buf - total then VFS_RPC_DATA_MAX else zlen buf - total).
  assert (0 < k <= 512 /\ total + k <= zlen buf) as [Hk Hk'] by (unfold k, VFS_RPC_DATA_MAX; destruct (Z.ltb_spec 512 (zlen buf - total)); lia).
  pose proof (at_wf _ _ _ At) as W. destruct (wf_files _ _ (sv_fs _ W) q f (ho_file _ _ _ _ _ _ Ho)) as (_ & Fr & _).
  destruct (rpc_write u srv i d q f n (copy_loop zero_data 0 buf total k) k At Ho) as (r & u1 & srv1 & Er & At1 & Et & Ecn & Ev & Sh & R); try done; try lia.
  { rewrite zlen_copy_loop; unfold zero_data; rewrite ?zlen_replicate; lia. }
  unfold ubind at 1. rewrite Er. rewrite T, Z.eqb_refl in R. destruct R as [(-> & Ee & c & Ho1)|(a & n1 & -> & Ee & Ho1 & Wn & _ & T1)].
  - exists (-1), u1, srv1, total, (set_refcount n c). do 6 (split; [done|]). split; [lia|]. split; [rewrite <- Fo; by destruct f|].
    do 2 (split; [done|]). right. done.
  - cbn [rret]. rewrite (proj2 (Z.leb_gt k 0)) by lia. rewrite u64_small by lia.
    assert (vsize n = zlen (contents n)) as Hv.
    { symmetry. apply zlen_contents. destruct (ok_buf _ _ _ _ (wf_nodes _ _ (sv_fs _ W) _ n (ho_node _ _ _ _ _ _ Ho))) as (_ & B & _). lia. }
    assert (zlen (take (Z.to_nat total) buf) = total) as Lt by (unfold zlen in *; rewrite length_take; lia).
    apply (chunk_written n n1 buf total k) in Wn; [|rewrite Hv, Ec, zlen_splice, Lt; lia|lia|lia|lia].
    rewrite Ec, Fo in Wn. replace (off + total) with (off + zlen (take (Z.to_nat total) buf)) in Wn by lia. rewrite splice_app in Wn by done.
    assert (take (Z.to_nat total) buf ++ take (Z.to_nat k) (drop (Z.to_nat total) buf) = take (Z.to_nat (total + k)) buf) as Etk.
    { rewrite take_take_drop. f_equal. lia. }
    rewrite Etk in Wn.
    destruct (IH u1 srv1 (set_file_offset f (f_offset f + k)) n1 (total + k)) as (r & u2 & srv2 & t & n2 & E2 & At2 & T2 & C2 & V2 & Sh2 & Ht2 & Ho2 & Tn2 & Ec2 & R2);
      try done; try lia; [cbn [f_offset set_file_offset]; lia|].
    exists r, u2, srv2, t, n2. rewrite T2, C2, V2. do 5 (split; [done|]). split; [by eapply edits_trans|]. split; [lia|]. split; [done|]. do 2 (split; [done|]).
    destruct R2 as [(-> & -> & ->)|R2]; [left; done|by right].
Qed.

(** ** The calls on an open file *)

Lemma attached_init {T} u srv i (bad : T) k : attached u srv i -> initialised bad k u = k u.
Proof.
  intros At. destruct (at_req _ _ _ At) as (_ & H1 & H2). unfold initialised, ensure_init, ubind, uget.
  by rewrite (proj2 (Z.eqb_neq _ _) H1), (proj2 (Z.eqb_neq _ _) H2).
Qed.

(** What a call on the descriptor [d] leaves of the process and the server. *)
Definition still u u' srv' i d q f n : Prop :=
  attached u' srv' i /\ holds srv' i d q f n /\ tab u' = tab u /\ con u' = con u /\ vfs u' = vfs u.

Lemma client_write_spec u srv i d q f n buf :
  attached u srv i -> holds srv i d q f n -> ntype n = VFS_TYPE_REG -> acc_write (f_flags f) = true -> Z.land (f_flags f) VFS_O_APPEND = 0 ->
  f_offset f <= vsize n -> f_offset f + zlen buf < 2 ^ 62 ->
  exists r u' srv' t n', vfs_client_write d buf (zlen buf) u = Some (r, u') /\
    still u u' srv' i d q (set_file_offset f (f_offset f + t)) n' /\ edits (sfs srv) (f_vn f) (sfs srv') /\ 0 <= t <= zlen buf /\ ntype n' = VFS_TYPE_REG /\
    contents n' = splice (contents n) (f_offset f) (take (Z.to_nat t) buf) /\
    ((r = zlen buf /\ t = zlen buf /\ errno u' = errno u) \/ (r = -1 /\ errno u' = ENOMEM /\ t < zlen buf)).
Proof.
  intros At Ho T Aw Ap Hoff Hb. pose proof (at_wf _ _ _ At) as W. pose proof (zlen_nonneg buf).
  destruct (wf_files _ _ (sv_fs _ W) q f (ho_file _ _ _ _ _ _ Ho)) as (_ & Fr & _).
  destruct (ok_buf _ _ _ _ (wf_nodes _ _ (sv_fs _ W) _ n (ho_node _ _ _ _ _ _ Ho))) as (_ & Bv & _).
  unfold vfs_client_write. rewrite (attached_init u srv i) by done. destruct (Z.eqb_spec (zlen buf) 0) as [Ez|Hz].
  - exists 0, u, srv, 0, n. rewrite Ez, Z.add_0_r. split; [done|]. split; [split; [done|]; split; [by destruct f|done]|]. split; [done|]. split; [lia|]. split; [done|].
    split; [by rewrite splice_nil by lia|]. left. done.
  - destruct (client_write_loop_spec (S (Z.to_nat (zlen buf))) u srv i d q f n (contents n) (f_offset f) buf 0)
      as (r & u' & srv' & t & n' & Er & At' & Et & Ec & Ev & Sh & Ht & Ho' & T' & Ec' & R); try done; try lia.
    + by rewrite splice_nil by lia.
    + rewrite zlen_contents by lia. lia.
    + exists r, u', srv', t, n'. split; [done|]. split; [by unfold still|]. split; [done|]. split; [lia|]. done.
Qed.

(** Only the first [len] bytes of the buffer are looked at. *)
Lemma write_loop_take fuel d buf len : 0 <= len <= zlen buf -> len < 2 ^ 62 -> forall total u, 0 <= total ->
  write_loop fuel d buf len total u = write_loop fuel d (take (Z.to_nat len) buf) len total (u : libc (vworld A C)).
Proof.
  intros Hl Hm. induction fuel as [|fuel IH]; intros total u Ht; cbn [write_loop]; [done|]. destruct (Z.ltb_spec total len); [|done].
  rewrite (u64_small (len - total)) by lia. set (k := if VFS_RPC_DATA_MAX <? len - total then VFS_RPC_DATA_MAX else len - total).
  assert (0 < k <= 512 /\ total + k <= len) as [Hk Hk'] by (unfold k, VFS_RPC_DATA_MAX; destruct (Z.ltb_spec 512 (len - total)); lia).
  assert (copy_loop zero_data 0 buf total k = copy_loop zero_data 0 (take (Z.to_nat len) buf) total k) as ->.
  { apply (list_eq_zget 0); rewrite !zlen_copy_loop by (unfold zero_data; rewrite ?zlen_replicate; lia); [done|]. intros j Hj.
    rewrite !zget_copy_loop by (unfold zero_data; rewrite ?zlen_replicate; lia). destruct (_ && _) eqn:E; [|done]. zb. rewrite !zget_lookup by lia.
    rewrite lookup_take_lt by lia. done. }
  unfold ubind. destruct (rpc _ u) as [[[r|] u1]|]; [|done|done]. destruct (rret r <=? 0); [done|]. apply IH. apply u64_range.
Qed.

Lemma client_write_take d buf len u : 0 <= len <= zlen buf -> len < 2 ^ 62 ->
  vfs_client_write d buf len u = vfs_client_write d (take (Z.to_nat len) buf) len (u : libc (vworld A C)).
Proof.
  intros Hl Hm. unfold vfs_client_write, initialised, ubind. destruct (ensure_init u) as [[x u1]|]; [|done]. destruct (negb _); [done|]. destruct (len =? 0); [done|].
  by apply write_loop_take.
Qed.

(** Writing to a directory fails. *)
Lemma client_write_dir u srv i d q f n buf : attached u srv i -> holds srv i d q f n -> ntype n <> VFS_TYPE_REG -> acc_write (f_flags f) = true ->
  Z.land (f_flags f) VFS_O_APPEND = 0 -> f_offset f < 2 ^ 62 -> 0 < zlen buf < 2 ^ 62 ->
  exists u' srv' k, vfs_client_write d buf (zlen buf) u = Some (-1, u') /\ still u u' srv' i d q f (set_refcount n k) /\ edits (sfs srv) (f_vn f) (sfs srv').
Proof.
  intros At Ho T Aw Ap Hoff Hb. unfold vfs_client_write. rewrite (attached_init u srv i) by done. rewrite (proj2 (Z.eqb_neq (zlen buf) 0)) by lia. cbn [write_loop].
  rewrite (proj2 (Z.ltb_lt 0 (zlen buf))) by lia. rewrite u64_small by lia. set (k := if VFS_RPC_DATA_MAX <? zlen buf - 0 then VFS_RPC_DATA_MAX else zlen buf - 0).
  assert (0 < k <= 512) as Hk by (unfold k, VFS_RPC_DATA_MAX; destruct (Z.ltb_spec 512 (zlen buf - 0)); lia).
  destruct (rpc_write u srv i d q f n (copy_loop zero_data 0 buf 0 k) k At Ho) as (r & u1 & srv1 & Er & At1 & Et & Ecn & Ev & Sh & R); try done; try lia.
  { rewrite zlen_copy_loop; unfold zero_data; rewrite ?zlen_replicate; lia. }
  unfold ubind. rewrite Er. destruct R as [(-> & _ & c & Ho1)|(a & n1 & _ & _ & _ & _ & ? & _)]; [|done]. by exists u1, srv1, c.
Qed.

Lemma client_seek_spec u srv i d q f n off : attached u srv i -> holds srv i d q f n -> 0 <= off < 2 ^ 63 ->
  exists u' srv', vfs_client_seek d off VFS_SEEK_SET u = Some (off, u') /\ still u u' srv' i d q (set_file_offset f off) n /\ errno u' = errno u.
Proof.
  intros At Ho Hoff. pose proof (at_wf _ _ _ At) as W. pose proof Ho as [H1 H2 Ef En].
  unfold vfs_client_seek. rewrite (attached_init u srv i) by done.
  set (qr := MkReq VFS_OP_SEEK (u32 d) (u64 off) (u64 VFS_SEEK_SET) 0 0 zero_path zero_data).
  assert (req_ok qr) as Rq by (apply zero_ok; try done; apply u64_range).
  destruct (vfs_seek_spec (sfs srv) q f n (i64 (u64 off)) (i32 (u64 VFS_SEEK_SET)) (sv_fs _ W) Ef En) as (r & s & Es & Ws & R).
  assert (handle srv i (stamped u qr) = Some (if r <? 0 then reply_err (set_fs srv s) i (i32 (- r)) else reply_ok (set_fs srv s) i r (u64 r) [] 0)) as Eh.
  { change (handle srv i (stamped u qr)) with (with_file srv i (stamped u qr) (fun f =>
      '(r, s) ← vfs_seek (sfs srv) f (i64 (u64 off)) (i32 (u64 VFS_SEEK_SET)); let srv := set_fs srv s in
       Some (if r <? 0 then reply_err srv i (i32 (- r)) else reply_ok srv i r (u64 r) [] 0))).
    rewrite (with_file_known srv i d q f n) by done. by rewrite Es. }
  unfold seek_effect in R. change (i32 (u64 VFS_SEEK_SET) =? VFS_SEEK_SET) with true in R. cbv iota in R.
  rewrite i64_u64, Z.add_0_l, !i64_small in R by (rewrite ?i64_small; lia). rewrite (proj2 (Z.leb_le 0 off)) in R by lia. destruct R as [-> Es'].
  rewrite (proj2 (Z.ltb_ge off 0)) in Eh by lia. unfold reply_ok in Eh. rewrite (reply_to u srv i At) in Eh.
  destruct (rpc_handle u srv i qr (set_fs srv s) off (u64 off) 0 [] At Rq) as (u' & Er & Ee & Et & Ec & Ev & At'); try done; [cbn; apply At|].
  rewrite i64_small, (proj2 (Z.ltb_ge off 0)) in Er, Ee by lia. exists u', (set_fs srv s). unfold ubind, uret. rewrite Er. cbn [raux].
  rewrite u64_u64, i64_u64, i64_small by lia. split; [done|]. split; [|done]. split; [done|]. split; [|done].
  apply (holds_step srv i d q f n); [done|rewrite Es'; cbn; apply lookup_insert_eq|by rewrite Es'].
Qed.

Lemma slice_contents (n : node) off k : 0 <= off -> 0 <= k -> off + k <= vsize n -> slice (buf n) off k = take (Z.to_nat k) (drop (Z.to_nat off) (contents n)).
Proof.
  intros Ho Hk Hv. assert (zlen (contents n) = vsize n) as L by (apply zlen_contents; lia).
  apply (list_eq_zget 0); [rewrite zlen_slice; unfold zlen in *; rewrite length_take, length_drop; lia|].
  intros j. rewrite zlen_slice. intros Hj. rewrite zget_slice by lia. rewrite (zget_lookup 0 (take _ _)) by lia.
  rewrite lookup_take_lt, lookup_drop by lia. replace (Z.to_nat off + Z.to_nat j)%nat with (Z.to_nat (off + j)) by lia. rewrite <- zget_lookup by lia.
  unfold contents. rewrite zget_slice by lia. f_equal.
Qed.

(** The bytes of a reply that hold data. *)
Lemma take_data l : 0 < zlen l <= 512 -> take (Z.to_nat (zlen l)) (copy_loop zero_data 0 l 0 (zlen l)) = l.
Proof.
  intros Hl. rewrite <- (slice_full l) at 4. rewrite <- (slice_copy_loop zero_data 0 l 0 (zlen l)) by (unfold zero_data; rewrite ?zlen_replicate; lia).
  set (w := copy_loop zero_data 0 _ 0 _). rewrite (slice_take_drop w); [done|lia|lia|]. unfold w. rewrite zlen_copy_loop by (unfold zero_data; rewrite ?zlen_replicate; lia). unfold zero_data. rewrite zlen_replicate. lia.
Qed.

Lemma client_read_spec u srv i d q f n k : attached u srv i -> holds srv i d q f n -> 0 < k <= 512 ->
  ntype n = VFS_TYPE_REG -> acc_read (f_flags f) = true ->
  let r := Z.min k (Z.max 0 (vsize n - f_offset f)) in
  exists u' srv', vfs_client_read d k u = Some ((r, take (Z.to_nat r) (drop (Z.to_nat (f_offset f)) (contents n))), u') /\
    still u u' srv' i d q (set_file_offset f (f_offset f + r)) n /\ errno u' = errno u.
Proof.
  intros At Ho Hk T Ar r. pose proof (at_wf _ _ _ At) as W. pose proof Ho as [H1 H2 Ef En].
  destruct (wf_files _ _ (sv_fs _ W) q f Ef) as (_ & Fr & _).
  unfold vfs_client_read, VFS_RPC_DATA_MAX. rewrite (attached_init u srv i) by done. rewrite (proj2 (Z.eqb_neq k 0)), (proj2 (Z.ltb_ge 512 k)) by lia. cbn [orb].
  set (qr := MkReq VFS_OP_READ (u32 d) k 0 0 0 zero_path zero_data). assert (req_ok qr) as Rq by (apply zero_ok; try done; lia).
  destruct (vfs_read_spec (sfs srv) q f n k (sv_fs _ W) Ef En ltac:(lia)) as (r' & bs & s & Es & Ws & R).
  unfold read_effect in R. rewrite Ar, T in R. cbn [negb Z.eqb VFS_TYPE_REG Pos.eqb] in R. fold r in R. destruct R as (-> & -> & Es').
  assert (0 <= r <= 512) as Hr by lia.
  assert (handle srv i (stamped u qr) = Some (reply_ok (set_fs srv s) i r 0 (slice (buf n) (f_offset f) r) r)) as Eh.
  { change (handle srv i (stamped u qr)) with (with_file srv i (stamped u qr) (fun f =>
      if (k =? 0) || (VFS_RPC_DATA_MAX <? k) then Some (reply_err srv i EINVAL)
      else '(n, buf, s) ← vfs_read (sfs srv) f k; let srv := set_fs srv s in
           Some (if n <? 0 then reply_err srv i (i32 (- n)) else reply_ok srv i n 0 buf (u32 n)))).
    rewrite (with_file_known srv i d q f n) by done. unfold VFS_RPC_DATA_MAX. rewrite (proj2 (Z.eqb_neq k 0)), (proj2 (Z.ltb_ge 512 k)) by lia. cbn [orb].
    rewrite Es. cbn [mbind option_bind]. rewrite (proj2 (Z.ltb_ge r 0)) by lia. by rewrite u32_small by lia. }
  unfold reply_ok in Eh. rewrite (reply_to u srv i At) in Eh.
  destruct (rpc_handle u srv i qr (set_fs srv s) r 0 r (slice (buf n) (f_offset f) r) At Rq) as (u' & Er & Ee & Et & Ec & Ev & At'); try done; [cbn; apply At|].
  rewrite i64_small, (proj2 (Z.ltb_ge r 0)) in Er, Ee by lia. exists u', (set_fs srv s). unfold ubind, uret. rewrite Er. cbn [rdata_len rsp_data].
  rewrite (proj2 (Z.ltb_ge k r)) by lia. split.
  - do 3 f_equal. destruct (Z.eq_dec r 0) as [->|Hr0]; [done|]. rewrite <- slice_contents by lia.
    assert (zlen (slice (buf n) (f_offset f) r) = r) as Ls by (rewrite zlen_slice; lia). rewrite <- Ls at 1 3. apply take_data. lia.
  - split; [|done]. split; [done|]. split; [|done].
    apply (holds_step srv i d q f n); [done|rewrite Es'; cbn; apply lookup_insert_eq|by rewrite Es'].
Qed.

(** The name at an index of a directory, into [k] bytes. *)
Lemma client_readdir_spec u srv i d q f n x k : attached u srv i -> holds srv i d q f n -> 0 <= x < 2 ^ 32 ->
  exists r u', vfs_client_readdir d x k u = Some (r, u') /\ still u u' srv i d q f n /\
    if negb (ntype n =? VFS_TYPE_DIR) then r.1 = -1 /\ errno u' = ENOTDIR
    else match children n !! Z.to_nat x with
         | None => r.1 = -1 /\ errno u' = ENOENT
         | Some c => let name := name_of (sfs srv) c ++ [0] in if k <? zlen name then r.1 = -1 /\ errno u' = EIO else r = (0, name) /\ errno u' = errno u
         end.
Proof.
  intros At Ho Hx. pose proof (at_wf _ _ _ At) as W. pose proof Ho as [H1 H2 Ef En]. unfold vfs_client_readdir. rewrite (attached_init u srv i) by done.
  set (qr := MkReq VFS_OP_READDIR (u32 d) x 0 0 0 zero_path zero_data). assert (req_ok qr) as Rq by (apply zero_ok; try done; lia).
  assert (handle srv i (stamped u qr) = (if negb (ntype n =? VFS_TYPE_DIR) then Some (reply_err srv i ENOTDIR)
    else '(r, name) ← ramfs_readdir (sfs srv) (f_vn f) (u32 x) VFS_RPC_DATA_MAX; Some (if r <? 0 then reply_err srv i (- r) else reply_ok srv i 0 0 name (u32 (strlen name + 1))))) as Eh.
  { change (handle srv i (stamped u qr)) with (with_file srv i (stamped u qr) (fun f =>
      fl ← files (sfs srv) !! f; n ← nodes (sfs srv) !! f_vn fl;
      if negb (ntype n =? VFS_TYPE_DIR) then Some (reply_err srv i ENOTDIR)
      else '(r, name) ← ramfs_readdir (sfs srv) (f_vn fl) (u32 x) VFS_RPC_DATA_MAX;
           Some (if r <? 0 then reply_err srv i (- r) else reply_ok srv i 0 0 name (u32 (strlen name + 1))))).
    rewrite (with_file_known srv i d q f n) by done. rewrite Ef. cbn [mbind option_bind]. rewrite En. done. }
  assert (forall e, 0 < e < 4096 -> handle srv i (stamped u qr) = Some (reply_err srv i e) -> exists u', rpc qr u = Some (None, u') /\ still u u' srv i d q f n /\ errno u' = e) as Bad.
  { intros e He Eq. unfold reply_err in Eq. rewrite (at_ch _ _ _ At) in Eq. destruct (rpc_handle u srv i qr srv (- e) 0 0 [] At Rq) as (u' & Er & Ee & Et & Ec & Ev & At'); try done; [apply At|].
    rewrite i64_small, (proj2 (Z.ltb_lt (- e) 0)) in Er, Ee by lia. rewrite Z.opp_involutive, i32_small in Ee by lia. by exists u'. }
  unfold ubind, uret. destruct (negb _).
  { destruct (Bad ENOTDIR ltac:(done) Eh) as (u' & -> & S & Ee). by exists (-1, []), u'. }
  rewrite (ramfs_readdir_spec (sfs srv) (f_vn f) n) in Eh by (apply W || done || apply u32_range). rewrite u32_small in Eh by lia. destruct (children n !! Z.to_nat x) as [c|]; cbn [mbind option_bind] in Eh.
  2: { destruct (Bad ENOENT ltac:(done) Eh) as (u' & -> & S & Ee). by exists (-1, []), u'. }
  change (0 <? 0) with false in Eh. cbv iota in Eh. set (name := name_of (sfs srv) c) in *. assert (0 ∉ name) as Hz by (unfold name, name_of; destruct (nodes _ !! c); [apply cstr_no_nul|set_solver]).
  pose proof (name_len (sfs srv) c (sv_fs _ W)) as Hn. fold name in Hn. pose proof (zlen_nonneg name). rewrite strlen_cstr, cstr_app, u32_small in Eh by (done || lia).
  unfold reply_ok in Eh. rewrite (at_ch _ _ _ At) in Eh. assert (zlen (name ++ [0]) = zlen name + 1) as Ln by (rewrite zlen_app; done).
  destruct (rpc_handle u srv i qr srv 0 0 (zlen name + 1) (name ++ [0]) At Rq) as (u' & Er & Ee & Et & Ec & Ev & At'); try done; [lia|apply At|].
  change (i64 0 <? 0) with false in Er, Ee. cbv iota in Er, Ee. rewrite Er. cbn [rdata_len rsp_data]. rewrite Ln. cbv zeta. rewrite (proj2 (Z.eqb_neq (zlen name + 1) 0)) by lia. cbn [orb].
  destruct (k <? zlen name + 1); [exists (-1, []), (set_errno EIO u'); split; [done|]; split; [|done]; split; [destruct At'; by split|done]|].
  exists (0, name ++ [0]), u'. split; [|done]. do 3 f_equal. rewrite <- Ln. apply take_data. lia.
Qed.

(** ** Attaching *)

Lemma zero_req_ok : req_ok zero_req.
Proof. by split. Qed.

(** A server that waits for a request, and a channel the client can create. *)
Record ready u srv : Prop := {
  re_out : w_out (world u) = Running srv;
  re_wf : srv_wf srv;
  re_ev : events srv = [];
  re_ids : g_next_client_id srv < 2 ^ 32 - 1;
  re_next : 0 <= w_next (world u) < EXYDE_HANDLE_INVALID }.

Lemma create_linked u a b : 0 <= w_next (world u) < EXYDE_HANDLE_INVALID ->
  exyde_ipc_create a b u = Some (w_next (world u), set_world (MkWorld (w_out (world u)) (w_req (world u)) (<[w_next (world u) := []]> (w_box (world u))) (w_next (world u) + 1) (w_tty (world u)) (w_con (world u))) u).
Proof.
  intros Hn. unfold exyde_ipc_create, chk_handle, __exyde_syscall, ubind, syscall, vworld_sys. change (SYS_IPC_CREATE =? SYS_IPC_CREATE) with true.
  unfold done_with. cbn [mbind option_bind rax]. unfold is_error. rewrite (proj2 (Z.ltb_ge _ 0)) by lia. cbn [andb]. unfold uret, EXYDE_HANDLE_INVALID in *.
  by rewrite u32_small by lia.
Qed.

Lemma send_cap_linked u srv o msg len cap a : w_out (world u) = Running srv -> serve srv len msg cap = Some o ->
  exyde_ipc_send_cap (w_req (world u)) msg len cap a u =
  Some (0, set_world (MkWorld (clear_out o) (w_req (world u)) (deliver (w_box (world u)) (events (out_srv o))) (w_next (world u)) (w_tty (world u)) (w_con (world u))) u).
Proof.
  intros Eo Es. unfold exyde_ipc_send_cap, chk_int, __exyde_syscall, ubind, syscall, vworld_sys.
  change (SYS_IPC_SEND_CAP =? SYS_IPC_SEND_CAP) with true. rewrite Z.eqb_refl. cbn [negb]. unfold to_server. rewrite Eo, Es. done.
Qed.

Lemma client_init_spec u srv : ready u srv -> w_req (world u) <> EXYDE_HANDLE_INVALID ->
  exists r u', vfs_client_init (w_req (world u)) u = Some (r, u') /\ tab u' = tab u /\ con u' = con u /\
    ((r = 0 /\ exists srv' i, attached u' srv' i /\ VfsServer.in_use (client_at srv i) = false /\ sfs srv' = sfs srv /\
        fdtab (client_at srv' i) = vfs_fd_init /\ forall j, 0 <= j -> j <> i -> client_at srv' j = client_at srv j) \/
     (r = -1 /\ errno u' = EMFILE /\ vfs u' = vfs u /\ w_out (world u') = Running srv /\
        forall i, 0 <= i < VFS_MAX_CLIENTS -> VfsServer.in_use (client_at srv i) = true)).
Proof.
  intros [R1 R2 R3 R4 R5] Hq. unfold vfs_client_init. rewrite (proj2 (Z.eqb_neq _ _) Hq). unfold ubind at 1. rewrite create_linked by done.
  set (ch := w_next (world u)) in *. rewrite (proj2 (Z.eqb_neq ch EXYDE_HANDLE_INVALID)) by lia. unfold ubind at 1.
  set (w1 := MkWorld _ _ (<[ch := []]> _) _ _ _). set (u1 := set_world w1 u). change (w_req (world u)) with (w_req (world u1)).
  assert (exists srv1 ret aux, serve srv VFS_RPC_MSG_SIZE (encode_req zero_req) ch = Some (Running srv1) /\
    (events srv1 = [Send ch (rsp_bytes ret aux 0 [])] \/ events srv1 = [Send ch (rsp_bytes ret aux 0 []); CloseHandle ch]) /\
    ((ret = - EMFILE /\ clear srv1 = srv /\ forall i, 0 <= i < VFS_MAX_CLIENTS -> VfsServer.in_use (client_at srv i) = true) \/
     (ret = 0 /\ 0 < aux < 2 ^ 32 /\ srv_wf srv1 /\ sfs srv1 = sfs srv /\ exists i, VfsServer.in_use (client_at srv i) = false /\ 0 <= i < VFS_MAX_CLIENTS /\
        client_at srv1 i = MkClient true aux ch vfs_fd_init /\ forall j, 0 <= j -> j <> i -> client_at srv1 j = client_at srv j))) as (srv1 & ret & aux & Es & Ev & K).
  { unfold serve. rewrite Z.eqb_refl. cbn [negb]. rewrite req_roundtrip by apply zero_req_ok. change (op zero_req =? VFS_OP_ATTACH) with true. cbv iota.
    change (VfsServer.EXYDE_HANDLE_INVALID) with EXYDE_HANDLE_INVALID. rewrite (proj2 (Z.eqb_neq ch EXYDE_HANDLE_INVALID)) by lia.
    destruct (client_attach_spec srv ch R2 R4) as [[-> Full]|(i & srv' & -> & Hi & Hu & W' & Hx & Hf & He & Hc & Hot)].
    - eexists _, (- EMFILE), 0. split; [done|]. split; [right; cbn [emit events]; by rewrite R3|]. left. split; [done|]. split; [|done].
      destruct srv as [? ? ? ev]. cbn in R3 |- *. by subst ev.
    - rewrite Hc. cbn [ch_resp id]. eexists _, 0, (g_next_client_id srv). split; [done|]. split; [left; cbn [emit events]; by rewrite He, R3|]. right.
      split; [done|]. pose proof (sv_next _ R2). split; [lia|]. split; [by apply wf_emit|]. split; [done|]. exists i. done. }
  rewrite (send_cap_linked u1 srv (Running srv1)) by done. cbn [Z.eqb negb]. unfold ubind at 1.
  set (msg := rsp_bytes ret aux 0 []) in *.
  assert (deliver (w_box (world u1)) (events (out_srv (Running srv1))) = <[ch := [msg]]> (w_box (world u))) as ->.
  { cbn [out_srv world u1 set_world w1 w_box]. destruct Ev as [-> | ->]; cbn [deliver foldl]; rewrite lookup_insert_eq; cbn [default app]; by rewrite insert_insert_eq. }
  rewrite (recv_linked _ ch msg []); [|cbn [world set_world w_box]; apply lookup_insert_eq|unfold msg; rewrite zlen_rsp by lia; done].
  assert (zlen msg = VFS_RPC_MSG_SIZE) as -> by (apply zlen_rsp; lia). rewrite Z.eqb_refl. cbn [negb]. unfold msg. rewrite rsp_roundtrip by lia. cbn [rret raux].
  destruct K as [(-> & Ec & Full)|(-> & Ha & W' & Hf & i & Hu & Hi & Hc & Hot)].
  - change (i64 (- EMFILE) <? 0) with true. cbv iota. eexists _, _. split; [reflexivity|]. split; [done|]. split; [done|]. right.
    split; [done|]. split; [done|]. split; [done|]. split; [cbn [world set_world w_out clear_out]; by rewrite Ec|done].
  - change (i64 0 <? 0) with false. cbv iota. eexists _, _. split; [reflexivity|]. split; [done|]. split; [done|]. left. split; [done|].
    exists (clear srv1), i. assert (forall j, client_at (clear srv1) j = client_at srv1 j) as Cc by done.
    split; [|split; [done|]; split; [done|]; rewrite Cc, Hc; done].
    rewrite (u64_small aux) by lia. rewrite (u32_small aux) by lia.
    split; cbn [world set_world w_out clear_out vfs set_vfs rpc_req rpc_resp client_id w_req w_box]; try done.
    + destruct W'. by split.
    + split; [done|]. split; [done|]. lia.
    + split; [|lia]. apply (find_unique (clear srv1)); [destruct W'; by split|done|by rewrite Cc, Hc|by rewrite Cc, Hc|lia].
    + by rewrite Cc, Hc.
    + apply lookup_insert_eq.
Qed.

(** ** Opening *)

Definition errno_range (r : Z) : Prop := -4096 < r <= 0.

Lemma walk_range (s : fs A) comps cur : errno_range (fst (walk s cur comps)).
Proof.
  revert cur. induction comps as [|nm comps IH]; intros cur; cbn [walk]; [done|]. destruct (_ <? _); [done|]. case_bool_decide; [apply IH|].
  destruct (nodes s !! cur) as [n|]; [|done]. case_bool_decide; [apply IH|]. destruct (negb _); [done|]. destruct (child _ _ _); [apply IH|done].
Qed.

Lemma on_parent_range (s : fs A) p P r s' : (forall par d base, P par d base r s' -> errno_range r) -> on_parent s p P r s' -> errno_range r.
Proof.
  intros HP. unfold on_parent. destruct (split_path p) as [e|[dirs base]] eqn:Es.
  - intros [-> _]. unfold split_path in Es. repeat case_match; by simplify_eq.
  - pose proof (walk_range s dirs (vfs_root s)) as R. destruct (walk _ _ _) as [e par]. cbn [fst] in R. destruct (negb _); [by intros [-> _]|].
    intros (d & _ & K). destruct (negb _); [by destruct K as [-> _]|]. by eapply HP.
Qed.

Lemma open_effect_range (s : fs A) vn n flags r f s' : open_effect s vn n flags r f s' -> errno_range r.
Proof. intros (_ & _ & [(-> & _)|(-> & _)]); done. Qed.

Lemma open_range (s : fs A) p flags mode r f s' : open_outcome s p flags mode r f s' -> errno_range r.
Proof.
  unfold open_outcome. assert (errno_range (fst (resolve_path s p))) as R by (unfold resolve_path; destruct (negb _); [done|apply walk_range]).
  destruct (resolve_path s p) as [e vn]. cbn [fst] in R. destruct (_ && _).
  - apply on_parent_range. intros par d base K. unfold create_effect in K. destruct (child _ _ _); [by destruct K as [-> _]|].
    destruct K as [[-> _]|(c & s1 & _ & O)]; [done|by eapply open_effect_range].
  - destruct (e <? 0); [by intros [-> _]|]. destruct (_ =? _); [by intros [-> _]|]. intros (n & _ & O). by eapply open_effect_range.
Qed.

(** A successful open adds a file at offset 0. *)
Lemma open_effect_file (s s0 : fs A) vn n flags f s' : files s = files s0 -> open_effect s vn n flags 0 f s' ->
  f <> 0 /\ files s0 !! f = None /\ exists vn, files s' !! f = Some (MkFile vn 0 flags 1).
Proof. intros <- (_ & _ & [(K & _)|(_ & Hf & Fn & F)]); [done|]. split; [done|]. split; [done|]. exists vn. rewrite F. apply lookup_insert_eq. Qed.

Lemma open_file (s : fs A) p flags mode f s' : open_outcome s p flags mode 0 f s' ->
  f <> 0 /\ files s !! f = None /\ exists vn, files s' !! f = Some (MkFile vn 0 flags 1).
Proof.
  unfold open_outcome. destruct (resolve_path s p) as [e vn]. destruct (_ && _).
  - unfold on_parent. destruct (split_path p) as [e'|[dirs base]] eqn:Es.
    { intros [E0 _]. unfold split_path in Es. repeat case_match; by simplify_eq. }
    destruct (walk _ _ _) as [e' par]. destruct (Z.eqb_spec e' 0) as [->|He]; cbn [negb]; [|by intros [<- _]].
    intros (d & _ & K). destruct (negb _); [by destruct K|]. unfold create_effect in K. destruct (child _ _ _); [by destruct K|].
    destruct K as [[? _]|(c & s1 & (_ & F & _) & O)]; [done|]. by eapply open_effect_file.
  - destruct (Z.ltb_spec e 0); [intros [<- _]; lia|]. destruct (_ =? _); [by intros [? _]|]. intros (n & _ & O). by eapply open_effect_file.
Qed.

(** What opening leaves: an error, or the file at the lowest free descriptor. *)
Lemma op_open_spec srv i q : srv_wf srv -> 0 <= i < VFS_MAX_CLIENTS -> VfsServer.in_use (client_at srv i) = true -> 0 ∈ path q ->
  exists r srv', op_open srv i q = Some (r, srv') /\ stepped i srv srv' /\
    (errno_range r /\ r < 0 /\ ((exists x s', open_outcome (sfs srv) (path q) (u32 (arg0 q)) (u32 (arg1 q)) r x s') \/
       r = - EMFILE /\ forall k, 0 <= k < VFS_FD_MAX -> slot (g_clients srv) i k <> 0) \/
     0 <= r < VFS_FD_MAX /\ slot (g_clients srv) i r = 0 /\ (forall k, 0 <= k < r -> slot (g_clients srv) i k <> 0) /\
     exists f n x, holds srv' i r x f n /\ files (sfs srv) !! x = None /\ files (sfs srv') = <[x := f]> (files (sfs srv)) /\
       f_offset f = 0 /\ f_flags f = u32 (arg0 q) /\ open_outcome (sfs srv) (path q) (u32 (arg0 q)) (u32 (arg1 q)) 0 x (sfs srv')).
Proof.
  intros W Hi Hu Zp. destruct (handle_open srv i q W Hi Hu Zp) as (r & srv' & Eo & S). exists r, srv'. split; [done|]. split; [done|].
  pose proof (tab_wf_size _ _ (sv_tab _ W)) as Hsz. unfold op_open in Eo.
  destruct (vfs_open_spec (sfs srv) (path q) (u32 (arg0 q)) (u32 (arg1 q)) (sv_fs _ W) Zp ltac:(lia)) as (r0 & f & s & Ev & Ws & O).
  rewrite Ev in Eo. cbn [mbind option_bind] in Eo. pose proof (open_range _ _ _ _ _ _ _ O) as Rg.
  destruct (Z.ltb_spec r0 0) as [Hr|Hr]; [injection Eo as <- <-; left; split; [done|]; split; [done|]; left; by exists f, s|].
  unfold vfs_fd_alloc in Eo. destruct (fd_free_spec (fdtab (client_at srv i)) 0 ltac:(lia)) as [(k & Ek & Hk & Zk & Fk)|(Ek & Full)]; rewrite Ek in Eo.
  2: { left. change (- EMFILE <? 0) with true in Eo. cbv iota in Eo. change (- EMFILE <? 0) with true in Eo. cbv iota in Eo.
       destruct (vfs_close s f) as [[? ?]|]; [|done]. cbn [mbind option_bind] in Eo. injection Eo as <- _. split; [done|]. split; [done|]. right. split; [done|].
       intros k Hk. apply Full. unfold client_at. by rewrite (tw_tab _ _ (sv_tab _ W)) by done. }
  rewrite Z.add_0_l, (proj2 (Z.ltb_ge k 0)) in Eo by lia. rewrite (proj2 (Z.ltb_ge k 0)) in Eo by lia. injection Eo as <- <-. right.
  unfold client_at in Hk at 1. rewrite (tw_tab _ _ (sv_tab _ W)) in Hk by done. split; [done|]. split; [done|]. split; [done|].
  assert (r0 = 0) as -> by (unfold errno_range in Rg; lia). destruct (open_file _ _ _ _ _ _ O) as (Hf & Fn & vn & Ff). destruct (wf_files _ _ Ws f _ Ff) as ([n En] & _). exists (MkFile vn 0 (u32 (arg0 q)) 1), n, f.
  assert (files s = <[f := MkFile vn 0 (u32 (arg0 q)) 1]> (files (sfs srv))) as Fs.
  { apply open_outcome_files in O; [|apply W|done]. destruct O as [[? _]|(_ & _ & _ & y & F)]; [lia|]. rewrite F, lookup_insert_eq in Ff. by injection Ff as ->. }
  split; [|done].
  split; [done| |done|done]. split; [|done]. unfold vfs_fd_get, client_at. cbn [g_clients set_client set_fs].
  rewrite zget_client by (apply W || lia || done). rewrite Z.eqb_refl. cbn [fdtab]. unfold VFS_FD_MAX in *.
  rewrite (proj2 (Z.ltb_ge k 0)), (proj2 (Z.leb_gt 64 k)) by lia. cbn [orb]. apply zget_zset_eq. unfold client_at. rewrite (tw_tab _ _ (sv_tab _ W)) by done. done.
Qed.

Lemma client_open_spec u srv i p flags mode : attached u srv i -> 0 ∈ p -> 0 <= flags < 2 ^ 32 -> 0 <= mode < 2 ^ 32 ->
  exists r u' srv', vfs_client_open p flags mode u = Some (r, u') /\ attached u' srv' i /\ stepped i srv srv' /\
    tab u' = tab u /\ con u' = con u /\ vfs u' = vfs u /\
    ((r = -1 /\ 0 < errno u' < 4096 /\ ((exists x s', open_outcome (sfs srv) (set_path p) flags mode (- errno u') x s') \/
        errno u' = EMFILE /\ forall k, 0 <= k < VFS_FD_MAX -> slot (g_clients srv) i k <> 0)) \/
     (0 <= r < VFS_FD_MAX /\ slot (g_clients srv) i r = 0 /\ (forall k, 0 <= k < r -> slot (g_clients srv) i k <> 0) /\
      errno u' = errno u /\ exists f n x, holds srv' i r x f n /\ files (sfs srv) !! x = None /\ files (sfs srv') = <[x := f]> (files (sfs srv)) /\
        f_offset f = 0 /\ f_flags f = flags /\ open_outcome (sfs srv) (set_path p) flags mode 0 x (sfs srv'))).
Proof.
  intros At Hp Hf Hm. pose proof (at_wf _ _ _ At) as W. destruct (at_id _ _ _ At) as [Ei _]. destruct (client_find_spec srv _ i W Ei) as (Hi & Hu & _).
  destruct (set_path_spec p Hp) as (Lp & Zp & _).
  unfold vfs_client_open. rewrite (attached_init u srv i) by done. set (qr := MkReq VFS_OP_OPEN 0 flags mode 0 0 (set_path p) zero_data).
  assert (req_ok qr) as Rq by (split; cbn; try done; lia).
  destruct (op_open_spec srv i (stamped u qr) W Hi Hu Zp) as (r & srv' & Eo & S & R).
  pose proof (st_events _ _ _ S) as Ev'. rewrite (at_ev _ _ _ At) in Ev'.
  assert (handle srv i (stamped u qr) = Some (if r <? 0 then reply_err srv' i (- r) else reply_ok srv' i 0 r [] 0)) as Eh.
  { change (handle srv i (stamped u qr)) with ('(r, srv) ← op_open srv i (stamped u qr); Some (if r <? 0 then reply_err srv i (- r) else reply_ok srv i 0 r [] 0)).
    by rewrite Eo. }
  unfold reply_err, reply_ok in Eh. destruct (st_self _ _ _ S) as (_ & _ & Ech). rewrite Ech, (at_ch _ _ _ At) in Eh. unfold ubind, uret.
  cbn [path stamped arg0 arg1 qr] in R. rewrite !u32_small in R by lia.
  destruct R as [(Rg & Hr & Oc)|(Hr & Sl & Low & f & n & x & Hh & Fn & Fs & Fo & Fl & Oc)].
  - rewrite (proj2 (Z.ltb_lt r 0)), Z.opp_involutive in Eh by lia.
    destruct (rpc_handle u srv i qr srv' r 0 0 [] At Rq) as (u' & Er & Ee & Et & Ec & Ev & At'); try done.
    unfold errno_range in Rg. rewrite i64_small, (proj2 (Z.ltb_lt r 0)) in Er, Ee by lia. exists (-1), u', srv'. rewrite Er. split; [done|]. do 5 (split; [done|]).
    left. split; [done|]. rewrite Ee, i32_small by lia. rewrite Z.opp_involutive. split; [lia|]. destruct Oc as [Oc|[-> Oc]]; [by left|by right].
  - unfold VFS_FD_MAX in Hr. rewrite (proj2 (Z.ltb_ge r 0)) in Eh by lia.
    destruct (rpc_handle u srv i qr srv' 0 r 0 [] At Rq) as (u' & Er & Ee & Et & Ec & Ev & At'); try done.
    change (i64 0 <? 0) with false in Er, Ee. cbv iota in Er, Ee. exists r, u', srv'. rewrite Er. cbn [raux]. rewrite u64_small, i32_small by lia. split; [done|].
    do 5 (split; [done|]). right. split; [done|]. split; [done|]. split; [done|]. split; [done|]. exists f, n, x. done.
Qed.

Lemma client_close_spec u srv i d q f n : attached u srv i -> holds srv i d q f n ->
  exists u' srv', vfs_client_close d u = Some (0, u') /\ attached u' srv' i /\ closed (sfs srv) q f (sfs srv') /\
    slot (g_clients srv') i d = 0 /\ errno u' = errno u /\ tab u' = tab u /\ con u' = con u /\ vfs u' = vfs u.
Proof.
  intros At Ho. pose proof (at_wf _ _ _ At) as W. pose proof Ho as [Hd [Hg Hq] Ef En]. destruct (at_id _ _ _ At) as [Ei _].
  destruct (client_find_spec srv _ i W Ei) as (Hi & _ & _). unfold VFS_FD_MAX in Hd.
  unfold vfs_client_close. rewrite (attached_init u srv i) by done. set (qr := MkReq VFS_OP_CLOSE (u32 d) 0 0 0 0 zero_path zero_data).
  assert (req_ok qr) as Rq by (by apply zero_ok). set (c := client_at srv i) in *.
  destruct (handle_close srv i d W Hi) as (r & t & s & Ec & S). fold c in Ec, S.
  pose proof (st_events _ _ _ S) as Ev'. rewrite (at_ev _ _ _ At) in Ev'.
  assert (r = 0 /\ t = zset (fdtab c) d 0 /\ closed (sfs srv) q f s) as (-> & -> & Fs).
  { unfold vfs_fd_close, vfs_fd_get, VFS_FD_MAX in Ec, Hg. rewrite (proj2 (Z.ltb_ge d 0)), (proj2 (Z.leb_gt 64 d)) in Ec, Hg by lia. cbn [orb] in Ec, Hg.
    rewrite Hg, (proj2 (Z.eqb_neq q 0)) in Ec by done. destruct (vfs_close_spec (sfs srv) q f (sv_fs _ W) Ef) as (s' & Es & _ & F). rewrite Es in Ec.
    cbn [mbind option_bind] in Ec. injection Ec as <- <- <-. done. }
  set (srv' := set_client (set_fs srv s) i (VfsServer.set_tab c (zset (fdtab c) d 0))) in *.
  assert (handle srv i (stamped u qr) = Some (reply_ok srv' i 0 0 [] 0)) as Eh.
  { change (handle srv i (stamped u qr)) with ('(r, t, s) ← vfs_fd_close (sfs srv) (fdtab c) (i32 (u32 d));
      Some (reply_status (set_client (set_fs srv s) i (VfsServer.set_tab c t)) i r)). rewrite u32_small, i32_small, Ec by lia. done. }
  unfold reply_ok in Eh. destruct (st_self _ _ _ S) as (_ & _ & Ech). rewrite Ech in Eh. unfold c in Eh. rewrite (at_ch _ _ _ At) in Eh.
  destruct (rpc_handle u srv i qr srv' 0 0 0 [] At Rq) as (u' & Er & Ee & Et & Eco & Ev & At'); try done.
  exists u', srv'. unfold rpc_status, ubind, uret. rewrite Er. do 3 (split; [done|]). split; [|done].
  unfold slot, srv'. cbn [g_clients set_client set_fs]. rewrite zget_client by (apply W || lia || done). rewrite Z.eqb_refl. cbn [fdtab VfsServer.set_tab].
  apply zget_zset_eq. unfold c, client_at. rewrite (tw_tab _ _ (sv_tab _ W)) by done. unfold VFS_FD_MAX. lia.
Qed.

(** ** What the calls leave alone *)

(** An attached process stays attached, and nothing beside its channel changes. *)
Definition frames {T} (m : user (vworld A C) T) : Prop :=
  forall u srv i x u', attached u srv i -> m u = Some (x, u') -> (exists srv', attached u' srv' i) /\ beside u' = beside u.

Lemma frames_ret {T} (x : T) : frames (uret x).
Proof. intros u srv i y u' At [= _ <-]. split; [by exists srv|done]. Qed.
Lemma frames_none {T} : frames (fun _ => @None (T * libc (vworld A C))).
Proof. done. Qed.
Lemma frames_bind {S T} (m : user (vworld A C) S) (k : S -> user (vworld A C) T) : frames m -> (forall x, frames (k x)) -> frames (ubind m k).
Proof.
  intros Hm Hk u srv i y u' At. unfold ubind. destruct (m u) as [[x u1]|] eqn:E; [|done]. intros E'.
  destruct (Hm u srv i x u1 At E) as [[srv1 At1] B1]. destruct (Hk x u1 srv1 i y u' At1 E') as [At2 B2]. split; [done|congruence].
Qed.
Lemma frames_fail {T} e (v : T) : frames (fail e v).
Proof. intros u srv i y u' At [= _ <-]. split; [exists srv; destruct At; by split|done]. Qed.
Lemma frames_rpc q : req_ok q -> op q <> VFS_OP_ATTACH -> op q <> VFS_OP_SHUTDOWN -> (need_path q = true -> 0 ∈ path q) -> frames (rpc q).
Proof.
  intros Rq Ha Hs Hp u srv i y u' At E. destruct (rpc_full u srv i q At Rq Ha Hs Hp) as (srv1 & ? & ? & ? & ? & u1 & _ & _ & _ & Er & _ & _ & Eb & At').
  rewrite E in Er. injection Er as _ ->. split; [by exists srv1|done].
Qed.
Lemma frames_init {T} (bad : T) (k : user (vworld A C) T) : frames k -> frames (initialised bad k).
Proof. intros Hk u srv i x u' At. rewrite (attached_init u srv i) by done. exact (Hk u srv i x u' At). Qed.

Lemma frames_open p flags mode : 0 ∈ p -> 0 <= flags < 2 ^ 64 -> 0 <= mode < 2 ^ 64 -> frames (vfs_client_open p flags mode).
Proof.
  intros Hp Hf Hm. destruct (set_path_spec p Hp) as (Lp & Zp & _). apply frames_init, frames_bind; [|intros; apply frames_ret].
  by apply frames_rpc.
Qed.
Lemma frames_mkdir p mode : 0 ∈ p -> 0 <= mode < 2 ^ 64 -> frames (vfs_client_mkdir p mode).
Proof.
  intros Hp Hm. destruct (set_path_spec p Hp) as (Lp & Zp & _). apply frames_init, frames_bind; [|intros; apply frames_ret].
  by apply frames_rpc.
Qed.
Lemma frames_close d : frames (vfs_client_close d).
Proof. apply frames_init, frames_bind; [|intros; apply frames_ret]. apply frames_rpc; try done. by apply zero_ok. Qed.
Lemma frames_write d b n : frames (vfs_client_write d b n).
Proof.
  apply frames_init. destruct (n =? 0); [apply frames_ret|]. generalize 0. generalize (S (Z.to_nat n)). intros fuel. induction fuel as [|fuel IH]; intros t; cbn [write_loop]; [apply frames_none|].
  destruct (t <? n); [|apply frames_ret]. set (k := if VFS_RPC_DATA_MAX <? u64 (n - t) then VFS_RPC_DATA_MAX else u64 (n - t)).
  assert (0 <= k <= 512) as Hk by (pose proof (u64_range (n - t)); unfold k, VFS_RPC_DATA_MAX; destruct (Z.ltb_spec 512 (u64 (n - t))); lia).
  apply frames_bind.
  - apply frames_rpc; try done. apply zero_ok; try done; [rewrite u32_small by lia; lia|]. rewrite zlen_copy_loop; unfold zero_data; rewrite ?zlen_replicate; lia.
  - intros [r|]; [|apply frames_ret]. destruct (rret r <=? 0); [apply frames_fail|apply IH].
Qed.

(** ** Properties *)

(** C11: A remote call is a local one.  For an attached client every request other
    than attach and shutdown is run once by the server's handler, on the request
    as the client built it and on the client's own tables, and the call returns
    that handler's reply: the response when it reports success, and otherwise -1
    with the handler's error in [errno].  Nothing else of the process changes,
    the client stays attached and no reply is left over. *)
Theorem vfs_rpc_transparent u srv i q :
  attached u srv i -> req_ok q -> op q <> VFS_OP_ATTACH -> op q <> VFS_OP_SHUTDOWN -> (need_path q = true -> 0 ∈ path q) ->
  exists srv1 ret aux len data u',
    handle srv i (stamped u q) = Some (emit srv1 (Send (rpc_resp (vfs u)) (rsp_bytes ret aux len data))) /\
    rpc q u = Some (if i64 ret <? 0 then None else Some (MkRsp (i64 ret) (u64 aux) len (copy_loop zero_data 0 data 0 len)), u') /\
    errno u' = (if i64 ret <? 0 then i32 (- i64 ret) else errno u) /\ tab u' = tab u /\ vfs u' = vfs u /\ attached u' srv1 i.
Proof.
  intros At Rq Ha Hs Hp. destruct (rpc_spec u srv i q At Rq Ha Hs Hp) as (srv1 & ret & aux & len & data & u' & _ & _ & Eh & Er & Ee & Et & _ & Ev & At').
  by exists srv1, ret, aux, len, data, u'.
Qed.

(** Attaching succeeds exactly when the server has a client slot left.  Then
    the process is the client of a slot that was free, with no open descriptors,
    under an identifier no other client has; the file system and the other
    clients are as before.  With all eight slots taken the call fails with
    [EMFILE] and the server is unchanged. *)
Theorem vfs_client_init_correct u srv : ready u srv -> w_req (world u) <> EXYDE_HANDLE_INVALID ->
  exists r u', vfs_client_init (w_req (world u)) u = Some (r, u') /\ tab u' = tab u /\
    ((r = 0 /\ exists srv' i, attached u' srv' i /\ VfsServer.in_use (client_at srv i) = false /\ sfs srv' = sfs srv /\
        fdtab (client_at srv' i) = vfs_fd_init /\ forall j, 0 <= j -> j <> i -> client_at srv' j = client_at srv j) \/
     (r = -1 /\ errno u' = EMFILE /\ w_out (world u') = Running srv /\
        forall i, 0 <= i < VFS_MAX_CLIENTS -> VfsServer.in_use (client_at srv i) = true)).
Proof.
  intros R Hq. destruct (client_init_spec u srv R Hq) as (r & u' & E & Et & _ & K). exists r, u'. split; [done|]. split; [done|].
  destruct K as [K|(-> & ? & _ & ?)]; [by left|by right].
Qed.
End linked.

(** Paths that agree in their first 255 characters are the same to the server:
    the client cuts the rest off without an error. *)
Theorem long_path_truncated `{Sys W} p1 p2 :
  0 ∈ p1 -> 0 ∈ p2 -> 255 <= zlen (cstr p1) -> 255 <= zlen (cstr p2) -> take 255 (cstr p1) = take 255 (cstr p2) ->
  vfs_client_unlink p1 = vfs_client_unlink p2.
Proof.
  intros Z1 Z2 L1 L2 E. unfold vfs_client_unlink. do 3 f_equal. unfold set_path, VFS_RPC_PATH_MAX. rewrite !strlen_cstr.
  assert (forall c : list Z, 255 <= zlen c -> (if 256 <=? zlen c then 256 - 1 else zlen c) = 255) as K by (intros c Hc; destruct (Z.leb_spec 256 (zlen c)); lia).
  rewrite !K by done. assert (forall p, 0 ∈ p -> 255 <= zlen (cstr p) -> zset (copy_loop zero_path 0 p 0 255) 255 0 = take 255 (cstr p) ++ [0]) as F.
  { intros p Zp Lp. destruct (cstr_split p Zp) as [t Et]. assert (p = take 255 (cstr p) ++ drop 255 (cstr p) ++ 0 :: t) as Ep by (by rewrite app_assoc, take_drop).
    replace (copy_loop zero_path 0 p 0 255) with (copy_loop zero_path 0 (take 255 (cstr p) ++ drop 255 (cstr p) ++ 0 :: t) 0 255) by (by rewrite <- Ep).
    rewrite copy_end by (unfold zlen in *; rewrite ?length_take; unfold zero_path; rewrite ?length_replicate; lia). done. }
  by rewrite !F, E.
Qed.

(** ** Examples *)

Definition demo_boot : outcome arena := match boot demo_arena 3 with Some o => o | None => Exited 1 (MkServer (empty_fs demo_arena) [] 0 []) end.
Definition demo_process : libc (vworld arena ()) :=
  MkLibc 0 (MkVars EXYDE_HANDLE_INVALID EXYDE_HANDLE_INVALID 0) (replicate 64 free_entry) (MkCon EXYDE_HANDLE_INVALID EXYDE_HANDLE_INVALID)
    (MkWorld demo_boot 3 ∅ 10 [] ()).

Lemma demo_ready : exists srv, ready demo_process srv.
Proof.
  pose proof (boot_spec demo_arena 3 demo_arena_wf) as (o & E & K).
  assert (match boot demo_arena 3 with Some (Running srv) => bool_decide (events srv = []) | _ => false end = true) as B by (vm_compute; reflexivity).
  assert (demo_boot = o) as Ed by (unfold demo_boot; by rewrite E).
  rewrite E in B. destruct o as [srv|]; [|done]. apply bool_decide_eq_true in B. destruct K as [W N]. exists srv.
  split; cbn [world w_out w_next]; [done|done|done|lia|by vm_compute].
Qed.

Lemma vfs_client_init_correct_witness :
  exists u' srv' i, vfs_client_init 3 demo_process = Some (0, u') /\ attached u' srv' i /\ fdtab (client_at srv' i) = vfs_fd_init.
Proof.
  destruct demo_ready as [srv R]. destruct (vfs_client_init_correct demo_process srv R) as (r & u' & E & _ & K); [done|].
  assert (fst <$> vfs_client_init 3 demo_process = Some 0) as B by (vm_compute; reflexivity). change (w_req (world demo_process)) with 3 in E. rewrite E in B.
  injection B as ->. destruct K as [(_ & srv' & i & At & _ & _ & F & _)|(K & _)]; [|discriminate K]. exists u', srv', i. split; [exact E|]. split; [exact At|exact F].
Defined.

(** The client after attaching, and after creating and opening "/f". *)
Definition after {T} (u : libc (vworld arena ())) (x : option (T * libc (vworld arena ()))) : libc (vworld arena ()) := match x with Some (_, u) => u | None => u end.
Definition demo_client : libc (vworld arena ()) := after demo_process (vfs_client_init 3 demo_process).
Definition demo_path : list Z := [47; 102; 0].

Lemma demo_attached : exists srv i, attached demo_client srv i.
Proof.
  destruct demo_ready as [srv R]. destruct (client_init_spec demo_process srv R) as (r & u' & E & _ & _ & K); [done|].
  assert (fst <$> vfs_client_init 3 demo_process = Some 0) as B by (vm_compute; reflexivity). change (w_req (world demo_process)) with 3 in E.
  unfold demo_client. rewrite E in B |- *. injection B as ->. destruct K as [(_ & srv' & i & At & _)|(K & _)]; [|discriminate K]. by exists srv', i.
Qed.

Lemma vfs_rpc_transparent_witness :
  exists srv i srv1 ret aux len data, attached demo_client srv i /\
    let q := MkReq VFS_OP_CLOSE 5 0 0 0 0 zero_path zero_data in
    handle srv i (stamped demo_client q) = Some (emit srv1 (Send (rpc_resp (vfs demo_client)) (rsp_bytes ret aux len data))) /\ i64 ret < 0 /\ i32 (- i64 ret) = EBADF.
Proof.
  destruct demo_attached as (srv & i & At). set (q := MkReq VFS_OP_CLOSE 5 0 0 0 0 zero_path zero_data).
  destruct (vfs_rpc_transparent demo_client srv i q At) as (srv1 & ret & aux & len & data & u' & Eh & Er & Ee & _); [by split|discriminate|discriminate|discriminate|].
  exists srv, i, srv1, ret, aux, len, data. split; [exact At|]. split; [exact Eh|].
  assert ((fun x => (x.1, errno x.2)) <$> rpc q demo_client = Some (None, EBADF)) as B by (vm_compute; reflexivity). rewrite Er in B.
  cbn [fmap option_fmap option_map fst snd] in B. destruct (Z.ltb_spec (i64 ret) 0) as [Hr|Hr]; [|discriminate B]. injection B as B. rewrite Ee in B. split; [exact Hr|exact B].
Defined.
