(* ===== verification/ConClient.v ===== *)
(** * The console client

    [userspace/libc/console_client.c]: writing to and reading from the console
    server in messages of at most 512 bytes. *)
From S2P Require Import Prelude Bytes Errno Micro.

Definition CONSOLE_RPC_MSG_SIZE : Z := 1024.
Definition CONSOLE_RPC_DATA_MAX : Z := 512.
Definition CONSOLE_OP_ATTACH : Z := 0.
Definition CONSOLE_OP_WRITE : Z := 1.
Definition CONSOLE_OP_READ : Z := 2.
Definition CONSOLE_OP_SHUTDOWN : Z := 3.

(** ** Messages *)

Record console_req := MkCReq { cq_op : Z; cq_len : Z; cq_data : list Z }.
Record console_rsp := MkCRsp { cr_ret : Z; cr_len : Z; cr_data : list Z }.

(** The structures at the start of zeroed messages. *)
Definition creq_bytes (q : console_req) : list Z := le_bytes 4 (cq_op q) ++ le_bytes 4 (cq_len q) ++ cq_data q ++ replicate 504 0.
Definition creq_at (m : list Z) : console_req := MkCReq (get_le m 0 4) (get_le m 4 4) (slice m 8 CONSOLE_RPC_DATA_MAX).
Definition crsp_bytes (r : console_rsp) : list Z :=
  le_bytes 8 (u64 (cr_ret r)) ++ le_bytes 4 (cr_len r) ++ le_bytes 4 0 ++ cr_data r ++ replicate 496 0.
Definition crsp_at (m : list Z) : console_rsp := MkCRsp (i64 (get_le m 0 8)) (get_le m 8 4) (slice m 16 CONSOLE_RPC_DATA_MAX).

Definition zero_block : list Z := replicate 512 0.

Section client.
Context {W : Type} `{Sys W}.

Definition console_client_init (ch_req ch_resp : Z) : user W Z :=
  if (ch_req =? EXYDE_HANDLE_INVALID) || (ch_resp =? EXYDE_HANDLE_INVALID) then fail EINVAL (-1)
  else uset (set_con (MkCon ch_req ch_resp)) ;;; uret 0.

Definition console_client_ready : user W bool :=
  let* c := uget con in uret (negb (con_req c =? EXYDE_HANDLE_INVALID) && negb (con_resp c =? EXYDE_HANDLE_INVALID)).

Definition con_rpc (q : console_req) : user W (option console_rsp) :=
  let* c := uget con in
  let* s := exyde_ipc_send (con_req c) (creq_bytes q) CONSOLE_RPC_MSG_SIZE in
  if negb (s =? 0) then uret None
  else
    let* (n, rx) := exyde_ipc_recv (con_resp c) CONSOLE_RPC_MSG_SIZE in
    if negb (n =? CONSOLE_RPC_MSG_SIZE) then fail EIO None
    else
      let r := crsp_at rx in
      if cr_ret r <? 0 then fail (i32 (- cr_ret r)) None else uret (Some r).

(** [while ((size_t)total < len)]: every round writes a byte. *)
Fixpoint con_write_loop (fuel : nat) (buf : list Z) (len total : Z) : user W Z :=
  match fuel with
  | O => fun _ => None
  | S fuel =>
    if u64 total <? len then
      let chunk := u64 (len - u64 total) in
      let chunk := if CONSOLE_RPC_DATA_MAX <? chunk then CONSOLE_RPC_DATA_MAX else chunk in
      let* r := con_rpc (MkCReq CONSOLE_OP_WRITE (u32 chunk) (copy_loop zero_block 0 buf total chunk)) in
      match r with
      | None => uret (-1)
      | Some r => if cr_ret r <=? 0 then fail EIO (-1) else con_write_loop fuel buf len (i64 (total + cr_ret r))
      end
    else uret total
  end.

Definition console_client_write (buf : list Z) (len : Z) : user W Z :=
  let* ok := console_client_ready in
  if negb ok then fail ENOSYS (-1) else con_write_loop (S (Z.to_nat len)) buf len 0.

(** The result and the bytes put in the caller's buffer. *)
Definition console_client_read (len : Z) : user W (Z * list Z) :=
  let* ok := console_client_ready in
  if negb ok then fail ENOSYS (-1, [])
  else if len =? 0 then uret (0, [])
  else
    let want := if CONSOLE_RPC_DATA_MAX <? len then CONSOLE_RPC_DATA_MAX else len in
    let* r := con_rpc (MkCReq CONSOLE_OP_READ (u32 want) zero_block) in
    match r with
    | None => uret (-1, [])
    | Some r => if want <? cr_len r then fail EIO (-1, []) else uret (cr_len r, take (Z.to_nat (cr_len r)) (cr_data r))
    end.

Definition console_client_shutdown : user W Z :=
  let* ok := console_client_ready in
  if negb ok then fail ENOSYS (-1)
  else let* r := con_rpc (MkCReq CONSOLE_OP_SHUTDOWN 0 zero_block) in uret (match r with Some _ => 0 | None => -1 end).
End client.
