(* ===== verification/Unistd.v ===== *)
(** * The descriptor calls

    [userspace/libc/unistd.c]: [read], [write], [open], [close], [lseek] and
    [getpid].  Descriptors 0 to 2 are the console, through the console server
    when the process is wired to one and through the kernel otherwise; the others
    go through the table of local descriptors to the VFS server. *)
From S2P Require Import Prelude Bytes Errno Str Iface CMalloc Ramfs Vfs VfsServer Micro VfsClient ConClient.

Definition STDIN_FILENO : Z := 0.
Definition STDOUT_FILENO : Z := 1.
Definition STDERR_FILENO : Z := 2.

Section unistd.
Context {W : Type} `{Sys W}.

Definition posix_ret (r : Z) : user W Z := if (r <? 0) && (-4096 <? r) then fail (i32 (- r)) (-1) else uret r.

(** The kernel is polled until it has input; [fuel] bounds the polls. *)
Fixpoint gets_loop (fuel : nat) (count : Z) : user W (Z * list Z) :=
  match fuel with
  | O => fun _ => None
  | S fuel =>
    let* r := __exyde_syscall SYS_EXY_GETS [Dst; Num count] in
    if 0 <? rax r then uret (rax r, out_bytes r)
    else if negb (rax r =? - EAGAIN) then let* x := posix_ret (rax r) in uret (x, [])
    else exyde_yield ;;; gets_loop fuel count
  end.

(** The result and the bytes put in the caller's buffer. *)
Definition read (fuel : nat) (fd count : Z) : user W (Z * list Z) :=
  if (0 <=? fd) && (fd <? 3) then
    if fd =? STDIN_FILENO then
      let* ok := console_client_ready in
      if ok then console_client_read count
      else if count =? 0 then uret (0, [])
      else gets_loop fuel count
    else fail EBADF (-1, [])
  else
    let* sf := vfs_fdtab_get fd in
    match sf with None => uret (-1, []) | Some sf => vfs_client_read (i32 sf) count end.

Definition write (fd : Z) (buf : list Z) (count : Z) : user W Z :=
  if (0 <=? fd) && (fd <? 3) then
    if (fd =? STDOUT_FILENO) || (fd =? STDERR_FILENO) then
      let* ok := console_client_ready in
      if ok then console_client_write buf count
      else let* r := __exyde_syscall SYS_EXY_PUTS [Src buf; Num count] in posix_ret (rax r)
    else fail EBADF (-1)
  else
    let* sf := vfs_fdtab_get fd in
    match sf with None => uret (-1) | Some sf => vfs_client_write (i32 sf) buf count end.

Definition open (path : list Z) (flags : Z) : user W Z :=
  let* sf := vfs_client_open path (u32 flags) 0 in
  if sf <? 0 then uret (-1) else vfs_fdtab_alloc (u32 sf).

Definition close (fd : Z) : user W Z :=
  if (0 <=? fd) && (fd <? 3) then uret 0
  else
    let* sf := vfs_fdtab_get fd in
    match sf with
    | None => uret (-1)
    | Some sf =>
      let* r := vfs_client_close (i32 sf) in
      if negb (r =? 0) then uret (-1) else vfs_fdtab_free fd
    end.

Definition lseek (fd offset whence : Z) : user W Z :=
  if (0 <=? fd) && (fd <? 3) then fail ESPIPE (-1)
  else
    let* sf := vfs_fdtab_get fd in
    match sf with None => uret (-1) | Some sf => vfs_client_seek (i32 sf) offset whence end.

Definition getpid : user W Z :=
  let* r := __exyde_syscall SYS_GETPID [] in let* x := posix_ret (rax r) in uret (i32 x).
End unistd.

(** ** On the linked system *)

Section linked.
Context {A C : Type} `{UHeapLaws A} {SC : Sys C}.
Implicit Types (u : libc (vworld A C)) (srv : server A).

(** The local descriptor [lf] is the server's descriptor [d]. *)
Definition local_fd u (lf d : Z) : Prop := fd_known (tab u) lf = true /\ server_fd (zget free_entry (tab u) lf) = d.

Lemma fd_known_range t lf : fd_known t lf = true -> 3 <= lf < VFS_FD_LOCAL_MAX /\ Micro.in_use (zget free_entry t lf) = true.
Proof. unfold fd_known. rewrite negb_true_iff, !orb_false_iff, negb_false_iff, Z.ltb_ge, Z.leb_gt. intros [[? ?] ?]. split; [lia|done]. Qed.

Lemma fdtab_get_known u lf d : local_fd u lf d -> vfs_fdtab_get lf u = Some (Some d, u).
Proof. intros [K <-]. unfold vfs_fdtab_get, ubind, uget. by rewrite K. Qed.

Lemma not_console lf u d : local_fd u lf d -> (0 <=? lf) && (lf <? 3) = false.
Proof. intros [K _]. apply fd_known_range in K as [K _]. rewrite (proj2 (Z.ltb_ge lf 3)) by lia. apply andb_false_r. Qed.

Lemma local_fd_still u u' lf d : local_fd u lf d -> tab u' = tab u -> local_fd u' lf d.
Proof. intros L E. unfold local_fd. by rewrite E. Qed.

Lemma write_local u lf d b k : local_fd u lf d -> 0 <= d < VFS_FD_MAX -> write lf b k u = vfs_client_write d b k u.
Proof.
  intros L Hd. unfold write. rewrite (not_console lf u d L). unfold ubind. rewrite (fdtab_get_known u lf d L). unfold VFS_FD_MAX in Hd. by rewrite i32_small by lia.
Qed.
Lemma read_local u lf d fuel k : local_fd u lf d -> 0 <= d < VFS_FD_MAX -> read fuel lf k u = vfs_client_read d k u.
Proof.
  intros L Hd. unfold read. rewrite (not_console lf u d L). unfold ubind. rewrite (fdtab_get_known u lf d L). unfold VFS_FD_MAX in Hd. by rewrite i32_small by lia.
Qed.
Lemma lseek_local u lf d off wh : local_fd u lf d -> 0 <= d < VFS_FD_MAX -> lseek lf off wh u = vfs_client_seek d off wh u.
Proof.
  intros L Hd. unfold lseek. rewrite (not_console lf u d L). unfold ubind. rewrite (fdtab_get_known u lf d L). unfold VFS_FD_MAX in Hd. by rewrite i32_small by lia.
Qed.

(** What was spliced in is found there. *)
Lemma splice_read c off b t k : 0 <= off <= zlen c -> 0 <= t -> 0 <= k -> t + k <= zlen b ->
  take (Z.to_nat k) (drop (Z.to_nat (off + t)) (splice c off b)) = take (Z.to_nat k) (drop (Z.to_nat t) b).
Proof.
  intros Ho Ht Hk Hb. unfold splice. rewrite drop_app_ge by (rewrite length_take; unfold zlen in *; lia).
  replace (Z.to_nat (off + t) - length (take (Z.to_nat off) c))%nat with (Z.to_nat t) by (rewrite length_take; unfold zlen in *; lia).
  rewrite drop_app_le by (unfold zlen in *; lia). rewrite take_app_le; [done|]. rewrite length_drop. unfold zlen in *. lia.
Qed.

(** C12: What a program writes it reads back, through libc, the messages, the
    server and the file system.  On an open regular file (not appending), a
    [write] of any length below 2^62 at an offset inside the file or at its end
    is sent in messages of at most 512 bytes; it returns the number of bytes and
    the file is the old one with them spliced in, or it returns -1 with [ENOMEM]
    and a proper prefix of them is.  After a full write, [lseek] to any place in
    what was written and a [read] of up to 512 bytes of it return those bytes. *)
Theorem posix_write_read u srv i lf d q f n bs fuel :
  attached u srv i -> local_fd u lf d -> holds srv i d q f n -> ntype n = VFS_TYPE_REG ->
  acc_write (f_flags f) = true -> acc_read (f_flags f) = true -> Z.land (f_flags f) VFS_O_APPEND = 0 ->
  f_offset f <= vsize n -> f_offset f + zlen bs < 2 ^ 62 ->
  exists r u1 srv1 n1 t, write lf bs (zlen bs) u = Some (r, u1) /\ attached u1 srv1 i /\
    holds srv1 i d q (set_file_offset f (f_offset f + t)) n1 /\ contents n1 = splice (contents n) (f_offset f) (take (Z.to_nat t) bs) /\
    ((r = -1 /\ errno u1 = ENOMEM /\ 0 <= t < zlen bs) \/
     (r = zlen bs /\ t = zlen bs /\
      forall p k, 0 <= p -> 0 < k <= 512 -> p + k <= zlen bs ->
        exists u2 u3, lseek lf (f_offset f + p) VFS_SEEK_SET u1 = Some (f_offset f + p, u2) /\
          read fuel lf k u2 = Some ((k, take (Z.to_nat k) (drop (Z.to_nat p) bs)), u3))).
Proof.
  intros At L Ho T Aw Ar Ap Hoff Hb. pose proof (ho_fd _ _ _ _ _ _ Ho) as Hd. pose proof (at_wf _ _ _ At) as W.
  destruct (wf_files _ _ (sv_fs _ W) q f (ho_file _ _ _ _ _ _ Ho)) as (_ & Fr & _).
  destruct (ok_buf _ _ _ _ (wf_nodes _ _ (sv_fs _ W) _ n (ho_node _ _ _ _ _ _ Ho))) as (_ & Bv & _).
  destruct (client_write_spec u srv i d q f n bs At Ho T Aw Ap Hoff Hb) as (r & u1 & srv1 & t & n1 & E & (At1 & Ho1 & Et1 & _) & _ & Ht & T1 & Ec & R).
  exists r, u1, srv1, n1, t. rewrite (write_local u lf d) by done. split; [done|]. split; [done|]. split; [done|]. split; [done|].
  destruct R as [(-> & -> & _)|(-> & Ee & Hlt)]; [right|left; split; [done|]; split; [done|lia]]. split; [done|]. split; [done|]. intros p k Hp Hk Hpk.
  pose proof (local_fd_still u u1 lf d L Et1) as L1.
  destruct (client_seek_spec u1 srv1 i d q _ n1 (f_offset f + p) At1 Ho1 ltac:(lia)) as (u2 & srv2 & E2 & (At2 & Ho2 & Et2 & _) & _).
  pose proof (local_fd_still u1 u2 lf d L1 Et2) as L2.
  destruct (client_read_spec u2 srv2 i d q _ n1 k At2 Ho2 Hk T1 Ar) as (u3 & srv3 & E3 & _). cbn [f_offset set_file_offset] in E3.
  pose proof (at_wf _ _ _ At1) as W1. destruct (ok_buf _ _ _ _ (wf_nodes _ _ (sv_fs _ W1) _ n1 (ho_node _ _ _ _ _ _ Ho1))) as (_ & Bv1 & _).
  assert (vsize n1 = Z.max (vsize n) (f_offset f + zlen bs)) as V1.
  { rewrite <- (zlen_contents n1), Ec, zlen_splice, zlen_contents by (rewrite ?zlen_contents; lia). f_equal. f_equal. unfold zlen. rewrite length_take. lia. }
  exists u2, u3. rewrite (lseek_local u1 lf d), (read_local u2 lf d) by done. split; [done|]. rewrite E3, V1.
  replace (Z.min k (Z.max 0 (Z.max (vsize n) (f_offset f + zlen bs) - (f_offset f + p)))) with k by lia.
  rewrite Ec, (take_ge bs) by (unfold zlen; lia). rewrite splice_read by (rewrite ?zlen_contents; lia). done.
Qed.

(** ** Local descriptors *)

(** The table: unused entries are blank. *)
Record fdtab_ok (t : list fd_entry) : Prop := {
  fo_len : zlen t = VFS_FD_LOCAL_MAX;
  fo_blank j : 0 <= j < VFS_FD_LOCAL_MAX -> Micro.in_use (zget free_entry t j) = false -> zget free_entry t j = free_entry }.

Lemma first_free_spec t (n : nat) i : 0 <= i ->
  match first_free t n i with
  | Some j => i <= j < i + Z.of_nat n /\ Micro.in_use (zget free_entry t j) = false /\ forall k, i <= k < j -> Micro.in_use (zget free_entry t k) = true
  | None => forall k, i <= k < i + Z.of_nat n -> Micro.in_use (zget free_entry t k) = true
  end.
Proof.
  revert i. induction n as [|n IH]; intros i Hi; cbn [first_free]; [intros k Hk; lia|]. destruct (Micro.in_use (zget free_entry t i)) eqn:E.
  - specialize (IH (i + 1) ltac:(lia)). destruct (first_free t n (i + 1)) as [j|].
    + destruct IH as (Hj & U & L). split; [lia|]. split; [done|]. intros k Hk. destruct (decide (k = i)) as [->|]; [done|]. apply L. lia.
    + intros k Hk. destruct (decide (k = i)) as [->|]; [done|]. apply IH. lia.
  - split; [lia|]. split; [done|]. intros k Hk. lia.
Qed.

Lemma fdtab_alloc_spec u sf : fdtab_ok (tab u) ->
  (exists i, vfs_fdtab_alloc sf u = Some (i, set_tab (zset (tab u) i (MkEntry sf true)) u) /\ 3 <= i < VFS_FD_LOCAL_MAX /\
     zget free_entry (tab u) i = free_entry /\ forall k, 3 <= k < i -> Micro.in_use (zget free_entry (tab u) k) = true) \/
  (vfs_fdtab_alloc sf u = Some (-1, set_errno EMFILE u) /\ forall k, 3 <= k < VFS_FD_LOCAL_MAX -> Micro.in_use (zget free_entry (tab u) k) = true).
Proof.
  intros [L B]. unfold vfs_fdtab_alloc, ubind, uget. pose proof (first_free_spec (tab u) (Z.to_nat (VFS_FD_LOCAL_MAX - 3)) 3 ltac:(lia)) as F.
  unfold VFS_FD_LOCAL_MAX in *. destruct (first_free _ _ _) as [j|].
  - left. exists j. destruct F as (Hj & U & Lo). split; [done|]. split; [lia|]. split; [apply B; [lia|done]|done].
  - right. split; [done|]. intros k Hk. apply F. lia.
Qed.

(** The outcomes of [open], and that [close] undoes it. *)
Lemma posix_open_spec u srv i path flags :
  attached u srv i -> fdtab_ok (tab u) -> 0 ∈ path -> 0 <= flags < 2 ^ 31 ->
  exists r u' srv', open path flags u = Some (r, u') /\ attached u' srv' i /\
    ((r = -1 /\ 0 < errno u' < 4096 /\ tab u' = tab u) \/
     (3 <= r < VFS_FD_LOCAL_MAX /\ (forall k, 3 <= k < r -> Micro.in_use (zget free_entry (tab u) k) = true) /\
      exists d q f n, local_fd u' r d /\ holds srv' i d q f n /\ f_offset f = 0 /\ f_flags f = flags /\ files (sfs srv) !! q = None /\
        exists u2 srv2, close r u' = Some (0, u2) /\ attached u2 srv2 i /\ tab u2 = tab u /\ files (sfs srv2) = files (sfs srv)) \/
     (r = -1 /\ errno u' = EMFILE /\ (forall k, 3 <= k < VFS_FD_LOCAL_MAX -> Micro.in_use (zget free_entry (tab u) k) = true) /\
      exists q f, files (sfs srv) !! q = None /\ files (sfs srv') = <[q := f]> (files (sfs srv)))).
Proof.
  intros At Tk Zp Hf. unfold open. rewrite u32_small by lia.
  destruct (client_open_spec u srv i path flags 0 At Zp ltac:(lia) ltac:(lia)) as (r & u1 & srv1 & E & At1 & _ & Et & _ & Ev & K).
  unfold ubind at 1. rewrite E. destruct K as [(-> & Ee & _)|(Hr & _ & _ & _ & f & n & q & Ho & Fn & Fs & Fo & Fl & _)].
  { change (-1 <? 0) with true. cbv iota. exists (-1), u1, srv1. split; [done|]. split; [done|]. left. done. }
  unfold VFS_FD_MAX in Hr. rewrite (proj2 (Z.ltb_ge r 0)) by lia. rewrite u32_small by lia.
  destruct (fdtab_alloc_spec u1 r ltac:(by rewrite Et)) as [(lf & -> & Hlf & Hb & Low)|(-> & Full)]; rewrite Et in *.
  - exists lf, (set_tab (zset (tab u) lf (MkEntry r true)) u1), srv1. split; [done|].
    assert (attached (set_tab (zset (tab u) lf (MkEntry r true)) u1) srv1 i) as At2 by (destruct At1; by split).
    split; [done|]. right. left. split; [done|]. split; [done|]. exists r, q, f, n.
    assert (zget free_entry (zset (tab u) lf (MkEntry r true)) lf = MkEntry r true) as G by (apply zget_zset_eq; rewrite (fo_len _ Tk); lia).
    set (u2 := set_tab _ u1) in *. assert (local_fd u2 lf r) as L.
    { unfold local_fd, fd_known, u2. cbn [tab set_tab]. rewrite G. unfold VFS_FD_LOCAL_MAX in *. rewrite (proj2 (Z.ltb_ge lf 3)), (proj2 (Z.leb_gt 64 lf)) by lia. done. }
    split; [done|]. split; [done|]. split; [done|]. split; [done|]. split; [done|].
    destruct (client_close_spec u2 srv1 i r q f n At2 Ho) as (u3 & srv3 & E3 & At3 & [F3 _] & _ & _ & T3 & _ & V3).
    exists (set_tab (tab u) u3), srv3. unfold close. rewrite (not_console lf u2 r L). unfold ubind. rewrite (fdtab_get_known u2 lf r L).
    rewrite i32_small, E3 by lia. cbn [Z.eqb negb]. unfold vfs_fdtab_free, ubind, uget. rewrite T3. rewrite (proj1 L). cbn [negb]. split.
    + unfold uset, uret. f_equal. f_equal. f_equal. unfold u2. cbn [tab set_tab]. unfold zset. destruct (Z.ltb_spec lf 0); [lia|]. rewrite list_insert_insert_eq.
      rewrite <- Hb. pose proof (zset_zget_id free_entry (tab u) lf) as Z. unfold zset in Z. by destruct (Z.ltb_spec lf 0); [lia|].
    + split; [destruct At3; by split|]. split; [done|]. rewrite F3, Fs. by apply delete_insert_id.
  - exists (-1), (set_errno EMFILE u1), srv1. split; [done|]. split; [destruct At1; by split|]. right. right. split; [done|]. split; [done|]. split; [done|].
    by exists q, f.
Qed.

(** Descriptors.  An [open] either fails with the server's error; or returns
    the lowest free local descriptor, which then stands for a new file at offset
    0 with the flags asked for, and closing it again gives back 0, the table of
    before and the server's files of before; or, when the 61 local descriptors
    are taken, fails with [EMFILE] although the server has opened the file. *)
Theorem posix_open_close u srv i path flags :
  attached u srv i -> fdtab_ok (tab u) -> 0 ∈ path -> 0 <= flags < 2 ^ 31 ->
  exists r u' srv', open path flags u = Some (r, u') /\ attached u' srv' i /\
    ((r = -1 /\ 0 < errno u' < 4096 /\ tab u' = tab u) \/
     (3 <= r < VFS_FD_LOCAL_MAX /\ (forall k, 3 <= k < r -> Micro.in_use (zget free_entry (tab u) k) = true) /\
      exists d q f n, local_fd u' r d /\ holds srv' i d q f n /\ f_offset f = 0 /\ f_flags f = flags /\ files (sfs srv) !! q = None /\
        exists u2 srv2, close r u' = Some (0, u2) /\ attached u2 srv2 i /\ tab u2 = tab u /\ files (sfs srv2) = files (sfs srv)) \/
     (r = -1 /\ errno u' = EMFILE /\ (forall k, 3 <= k < VFS_FD_LOCAL_MAX -> Micro.in_use (zget free_entry (tab u) k) = true) /\
      exists q f, files (sfs srv) !! q = None /\ files (sfs srv') = <[q := f]> (files (sfs srv)))).
Proof. apply posix_open_spec. Qed.
End linked.

(** ** Examples *)

Definition demo_flags : Z := 259.
Definition demo_opened : libc (vworld arena ()) := after demo_client (open demo_path demo_flags demo_client).

Lemma demo_client_tab : fdtab_ok (tab demo_client).
Proof.
  assert (tab demo_client = replicate 64 free_entry) as -> by (vm_compute; reflexivity). split; [done|]. intros j _ _. apply zget_replicate.
Qed.

Lemma demo_client_index srv i : attached demo_client srv i -> i = 0.
Proof.
  intros At. pose proof (proj1 (at_id _ _ _ At)) as Ei.
  assert (match w_out (world demo_client) with Running s => client_find s (client_id (vfs demo_client)) | _ => None end = Some 0) as B by (vm_compute; reflexivity).
  rewrite (at_out _ _ _ At) in B. congruence.
Qed.

Lemma demo_flags_ok : 0 ∈ demo_path /\ 0 <= demo_flags < 2 ^ 31.
Proof. split; [refine (bool_decide_unpack _ _); vm_compute; exact Logic.I|by vm_compute]. Qed.

Lemma posix_open_close_witness :
  exists u' (srv' : server arena), open demo_path demo_flags demo_client = Some (3, u') /\
    exists d q f n, local_fd u' 3 d /\ holds srv' 0 d q f n /\ exists u2, close 3 u' = Some (0, u2).
Proof.
  destruct demo_attached as (srv & i & At).
  pose proof (demo_client_index srv i At) as ->. destruct demo_flags_ok as [Zp Hf].
  destruct (posix_open_close demo_client srv 0 demo_path demo_flags At demo_client_tab Zp Hf) as (r & u' & srv' & E & _ & K).
  assert (fst <$> open demo_path demo_flags demo_client = Some 3) as B by (vm_compute; reflexivity). rewrite E in B. injection B as ->.
  exists u', srv'. split; [exact E|]. destruct K as [(K & _)|[(_ & _ & d & q & f & n & L & Ho & _ & _ & _ & u2 & srv2 & Ec & _)|(K & _)]]; [discriminate K| |discriminate K].
  exists d, q, f, n. split; [exact L|]. split; [exact Ho|]. exists u2. exact Ec.
Defined.

(** The open file of the example: regular, empty, readable and writable. *)
Definition file_facts (u : libc (vworld arena ())) : option (Z * Z * Z * Z) :=
  match w_out (world u) with
  | Running srv =>
    f ← files (sfs srv) !! vfs_fd_get (fdtab (client_at srv 0)) 0; n ← nodes (sfs srv) !! f_vn f; Some (f_flags f, f_offset f, ntype n, vsize n)
  | _ => None
  end.

Lemma demo_opened_holds : exists srv q f n, attached demo_opened srv 0 /\ local_fd demo_opened 3 0 /\ holds srv 0 0 q f n /\
  f_flags f = demo_flags /\ f_offset f = 0 /\ ntype n = VFS_TYPE_REG /\ vsize n = 0.
Proof.
  destruct demo_attached as (srv & i & At). pose proof (demo_client_index srv i At) as ->. destruct demo_flags_ok as [Zp Hf].
  destruct (posix_open_spec demo_client srv 0 demo_path demo_flags At demo_client_tab Zp Hf) as (r & u' & srv' & E & At' & K).
  assert (fst <$> open demo_path demo_flags demo_client = Some 3) as B by (vm_compute; reflexivity). 
  assert (demo_opened = u') as Eu by (unfold demo_opened; by rewrite E). rewrite E in B. injection B as ->.
  destruct K as [(K & _)|[(_ & _ & d & q & f & n & L & Ho & _)|(K & _)]]; [discriminate K| |discriminate K].
  assert (server_fd (zget free_entry (tab demo_opened) 3) = 0) as D by (vm_compute; reflexivity). rewrite Eu in D. assert (d = 0) as -> by (destruct L; congruence).
  exists srv', q, f, n. rewrite Eu. split; [exact At'|]. split; [exact L|]. split; [exact Ho|].
  assert (file_facts demo_opened = Some (demo_flags, 0, VFS_TYPE_REG, 0)) as F by (vm_compute; reflexivity). rewrite Eu in F. unfold file_facts in F.
  rewrite (at_out _ _ _ At'), (proj1 (ho_get _ _ _ _ _ _ Ho)), (ho_file _ _ _ _ _ _ Ho) in F. cbn [mbind option_bind] in F.
  rewrite (ho_node _ _ _ _ _ _ Ho) in F. cbn [mbind option_bind] in F. injection F as -> -> -> ->. split; [reflexivity|]. split; [reflexivity|]. split; reflexivity.
Qed.

Definition demo_text : list Z := (fun i => i mod 251) <$> seqZ 0 1300.

Lemma posix_write_read_witness :
  exists u1, write 3 demo_text 1300 demo_opened = Some (1300, u1) /\
    exists u2 u3, lseek 3 600 VFS_SEEK_SET u1 = Some (600, u2) /\ read 1 3 512 u2 = Some ((512, take 512 (drop 600 demo_text)), u3).
Proof.
  destruct demo_opened_holds as (srv & q & f & n & At & L & Ho & Fl & Fo & T & V). assert (zlen demo_text = 1300) as Lt by (vm_compute; reflexivity).
  destruct (posix_write_read demo_opened srv 0 3 0 q f n demo_text 1 At L Ho T) as (r & u1 & srv1 & n1 & t & E & _ & _ & _ & R).
  { rewrite Fl. reflexivity. } { rewrite Fl. reflexivity. } { rewrite Fl. reflexivity. } { rewrite Fo, V. lia. } { rewrite Fo, Lt. lia. }
  rewrite Fo, Lt in *.
  assert (fst <$> write 3 demo_text 1300 demo_opened = Some 1300) as B by (vm_compute; reflexivity). rewrite E in B. injection B as ->. exists u1. split; [exact E|].
  destruct R as [(K & _)|(_ & _ & R)]; [discriminate K|]. destruct (R 600 512) as (u2 & u3 & E2 & E3); [lia|lia|lia|]. exists u2, u3. split; [exact E2|exact E3].
Defined.

(** A process whose 61 descriptors are taken: [open] fails, and the server is left with an open file. *)
Theorem open_leaks :
  let u := set_tab (replicate 64 (MkEntry 0 true)) demo_client in
  exists u', open demo_path demo_flags u = Some (-1, u') /\ errno u' = EMFILE /\
    match w_out (world u') with Running srv => map_size (files (sfs srv)) = 1%nat | _ => False end.
Proof.
  intros u. assert (match open demo_path demo_flags u with
    | Some (r, u') => (r =? -1) && (errno u' =? EMFILE) && match w_out (world u') with Running srv => Nat.eqb (map_size (files (sfs srv))) 1 | _ => false end
    | None => false end = true) as B by (vm_compute; reflexivity).
  destruct (open demo_path demo_flags u) as [[r u']|]; [|discriminate B]. rewrite !andb_true_iff, !Z.eqb_eq in B. destruct B as [[-> B2] B3]. exists u'.
  split; [done|]. split; [done|]. destruct (w_out (world u')); [by apply Nat.eqb_eq|done].
Qed.
