(* ===== verification/ConServer.v ===== *)
(** * The console server

    [userspace/console/main.c]: the process that owns the console.  It writes and
    reads through libc ([Unistd]), which falls back to the kernel because this
    process has no console server of its own.  The last part links it to the
    client of [ConClient]. *)
From S2P Require Import Prelude Bytes Errno Str Micro VfsClient ConClient Unistd.

Section server.
Context {W : Type} `{Sys W}.

Definition kwrite (buf : list Z) (len : Z) : user W () := write STDOUT_FILENO buf len ;;; uret ().
(** [s] without its NUL. *)
Definition kputs (s : list Z) : user W () := kwrite s (zlen s).

Definition con_reply (g ret : Z) : user W () :=
  exyde_ipc_send g (crsp_bytes (MkCRsp ret 0 zero_block)) CONSOLE_RPC_MSG_SIZE ;;; uret ().
Definition reply_bytes (g : Z) (buf : list Z) (len : Z) : user W () :=
  exyde_ipc_send g (crsp_bytes (MkCRsp len len (if len =? 0 then zero_block else copy_loop zero_block 0 buf 0 len))) CONSOLE_RPC_MSG_SIZE ;;; uret ().

(** [for (;;)] around [read(0, tmp, want)]: the reply on a failure, or the bytes. *)
Fixpoint await_input (fuel : nat) (want : Z) : user W (Z + list Z) :=
  match fuel with
  | O => fun _ => None
  | S fuel' =>
    let* (r, tmp) := read fuel STDIN_FILENO want in
    if 0 <? r then uret (inr (take (Z.to_nat r) tmp))
    else if r =? 0 then uret (inl 0)
    else
      let* e := uget errno in
      if negb (e =? EAGAIN) then uret (inl (- e)) else exyde_yield ;;; await_input fuel' want
  end.

(** [Some status]: the process exits. *)
Definition con_handle (fuel : nat) (g : Z) (q : console_req) : user W (option Z) :=
  if cq_op q =? CONSOLE_OP_WRITE then
    if (cq_len q =? 0) || (CONSOLE_RPC_DATA_MAX <? cq_len q) then con_reply g (- EINVAL) ;;; uret None
    else kwrite (cq_data q) (cq_len q) ;;; con_reply g (i32 (cq_len q)) ;;; uret None
  else if cq_op q =? CONSOLE_OP_READ then
    let want := if CONSOLE_RPC_DATA_MAX <? cq_len q then CONSOLE_RPC_DATA_MAX else cq_len q in
    if want =? 0 then con_reply g 0 ;;; uret None
    else
      let* i := await_input fuel want in
      match i with
      | inl r => con_reply g r ;;; uret None
      | inr tmp => reply_bytes g tmp (u32 (zlen tmp)) ;;; uret None
      end
  else if cq_op q =? CONSOLE_OP_SHUTDOWN then con_reply g 0 ;;; uret (Some 0)
  else con_reply g (- ENOSYS) ;;; uret None.

(** One turn of the loop on what was received. *)
Definition con_turn (fuel : nat) (g n : Z) (req_buf : list Z) : user W (option Z) :=
  if negb (n =? CONSOLE_RPC_MSG_SIZE) then kputs (byte_list "console: short recv" ++ [10]) ;;; uret (Some 1)
  else con_handle fuel g (creq_at req_buf).

(** [turns] rounds of the loop; the status when the process ends within them. *)
Fixpoint con_loop (turns fuel : nat) (ch_req g : Z) : user W (option Z) :=
  match turns with
  | O => uret None
  | S turns =>
    let* (n, req_buf) := exyde_ipc_recv ch_req CONSOLE_RPC_MSG_SIZE in
    let* s := con_turn fuel g n req_buf in
    match s with Some x => uret (Some x) | None => con_loop turns fuel ch_req g end
  end.

Definition con_main (turns fuel : nat) : user W (option Z) :=
  let* ch_req := exyde_get_bootstrap in
  if ch_req =? EXYDE_HANDLE_INVALID then kputs (byte_list "console: no bootstrap channel" ++ [10]) ;;; uret (Some 1)
  else
    let* (a, attach_buf, g_resp) := exyde_ipc_recv_cap ch_req CONSOLE_RPC_MSG_SIZE in
    if negb (a =? CONSOLE_RPC_MSG_SIZE) || (g_resp =? EXYDE_HANDLE_INVALID) then kputs (byte_list "console: attach failed" ++ [10]) ;;; uret (Some 1)
    else if negb (cq_op (creq_at attach_buf) =? CONSOLE_OP_ATTACH) then kputs (byte_list "console: bad attach op" ++ [10]) ;;; uret (Some 1)
    else kputs (byte_list "console: ready" ++ [10]) ;;; con_loop turns fuel ch_req g_resp.
End server.

(** ** The kernel's console *)

(** What was written, what can be read, what will arrive at each yield, and the
    messages sent. *)
Record kworld := MkK { k_out : list Z; k_in : list Z; k_future : list (list Z); k_sent : list (Z * list Z) }.

Definition kret (r : Z) (out : list Z) (k : kworld) : option (sysret * kworld) := Some (MkRet r out EXYDE_HANDLE_INVALID, k).

#[export] Instance kworld_sys : Sys kworld := fun nr args k =>
  match args with
  | [Src b; Num n] =>
    if negb (nr =? SYS_EXY_PUTS) then kret (- ENOSYS) [] k
    else if n =? 0 then kret 0 [] k
    else if 4096 <? n then kret (- EINVAL) [] k
    else kret n [] (MkK (k_out k ++ take (Z.to_nat n) b) (k_in k) (k_future k) (k_sent k))
  | [Dst; Num n] =>
    if negb (nr =? SYS_EXY_GETS) then kret (- ENOSYS) [] k
    else if n =? 0 then kret 0 [] k
    else if 4096 <? n then kret (- EINVAL) [] k
    else if zlen (k_in k) =? 0 then kret (- EAGAIN) [] k
    else let b := take (Z.to_nat n) (k_in k) in kret (zlen b) b (MkK (k_out k) (drop (Z.to_nat n) (k_in k)) (k_future k) (k_sent k))
  | [] =>
    if negb (nr =? SYS_YIELD) then kret (- ENOSYS) [] k
    else kret 0 [] (MkK (k_out k) (k_in k ++ default [] (head (k_future k))) (tail (k_future k)) (k_sent k))
  | [Num h; Src m; Num len] =>
    if negb (nr =? SYS_IPC_SEND) then kret (- ENOSYS) [] k
    else kret 0 [] (MkK (k_out k) (k_in k) (k_future k) (k_sent k ++ [(h, m)]))
  | _ => kret (- ENOSYS) [] k
  end.

(** ** The client and the server, linked *)

(** The server process (none once it has exited), the channel of its requests,
    its reply channel with the replies not yet received, and how many polls of
    the keyboard one request may take. *)
Record cworld := MkCW { c_srv : option (libc kworld); c_req : Z; c_resp : Z; c_box : list (list Z); c_fuel : nat }.

Definition cret (r : Z) (out : list Z) (w : cworld) : option (sysret * cworld) := Some (MkRet r out EXYDE_HANDLE_INVALID, w).

(** The server handles a request; what it sent is in the box. *)
Definition to_console (w : cworld) (len : Z) (m : list Z) : option cworld :=
  match c_srv w with
  | None => Some w
  | Some s =>
    '(x, s) ← con_turn (c_fuel w) (c_resp w) len m s;
    let k := world s in
    Some (MkCW (match x with Some _ => None | None => Some (set_world (MkK (k_out k) (k_in k) (k_future k) []) s) end)
            (c_req w) (c_resp w) (c_box w ++ (k_sent k).*2) (c_fuel w))
  end.

#[export] Instance cworld_sys : Sys cworld := fun nr args w =>
  match args with
  | [Num h; Src m; Num len] =>
    if negb (nr =? SYS_IPC_SEND) then cret (- ENOSYS) [] w
    else if negb (h =? c_req w) then cret (- EBADF) [] w
    else w ← to_console w len m; cret 0 [] w
  | [Num h; Dst; Num max] =>
    if negb (nr =? SYS_IPC_RECV) then cret (- ENOSYS) [] w
    else if negb (h =? c_resp w) then cret (- EBADF) [] w
    else match c_box w with
         | [] => None
         | m :: ms => cret (zlen m) m (MkCW (c_srv w) (c_req w) (c_resp w) ms (c_fuel w))
         end
  | _ => cret (- ENOSYS) [] w
  end.

(** ** Messages *)

Lemma creq_roundtrip q : 0 <= cq_op q < 2 ^ 32 -> 0 <= cq_len q < 2 ^ 32 -> zlen (cq_data q) = 512 -> creq_at (creq_bytes q) = q.
Proof.
  intros H1 H2 H3. destruct q as [o l d]. cbn [cq_op cq_len cq_data] in *. unfold creq_at.
  assert (creq_bytes (MkCReq o l d) = concat [le_bytes 4 o; le_bytes 4 l; d; replicate 504 0]) as -> by (cbn [concat]; by rewrite app_nil_r).
  f_equal; [apply (get_le_field _ 0 4)|apply (get_le_field _ 1 4)|apply (slice_field _ 2)]; try done; offset.
Qed.

Lemma crsp_roundtrip r : - 2 ^ 63 <= cr_ret r < 2 ^ 63 -> 0 <= cr_len r < 2 ^ 32 -> zlen (cr_data r) = 512 -> crsp_at (crsp_bytes r) = r.
Proof.
  intros H1 H2 H3. destruct r as [x l d]. cbn [cr_ret cr_len cr_data] in *. unfold crsp_at. pose proof (u64_range x).
  assert (crsp_bytes (MkCRsp x l d) = concat [le_bytes 8 (u64 x); le_bytes 4 l; le_bytes 4 0; d; replicate 496 0]) as -> by (cbn [concat]; by rewrite app_nil_r).
  f_equal; [|apply (get_le_field _ 1 4)|apply (slice_field _ 3)]; try done; try offset.
  rewrite <- (i64_small x) at 2 by done. rewrite <- (i64_u64 x). f_equal. apply (get_le_field _ 0 8); try done; offset.
Qed.

Lemma zlen_crsp r : zlen (cr_data r) = 512 -> zlen (crsp_bytes r) = CONSOLE_RPC_MSG_SIZE.
Proof. intros E. unfold crsp_bytes. rewrite !zlen_app, !zlen_le_bytes, E, zlen_replicate. done. Qed.

(** ** The server on the kernel's console *)

(** A process without a console server. *)
Definition bare (s : libc kworld) : Prop := con s = MkCon EXYDE_HANDLE_INVALID EXYDE_HANDLE_INVALID.

Lemma bare_ready s : bare s -> console_client_ready s = Some (false, s).
Proof. intros B. unfold console_client_ready, ubind, uget. by rewrite B. Qed.

Definition put_out (b : list Z) (s : libc kworld) : libc kworld :=
  set_world (MkK (k_out (world s) ++ b) (k_in (world s)) (k_future (world s)) (k_sent (world s))) s.
Definition put_sent (g : Z) (m : list Z) (s : libc kworld) : libc kworld :=
  set_world (MkK (k_out (world s)) (k_in (world s)) (k_future (world s)) (k_sent (world s) ++ [(g, m)])) s.

Lemma kwrite_spec s b n : bare s -> 0 < n <= 4096 -> kwrite b n s = Some ((), put_out (take (Z.to_nat n) b) s).
Proof.
  intros B Hn. unfold kwrite, write. change ((0 <=? STDOUT_FILENO) && (STDOUT_FILENO <? 3)) with true. change ((STDOUT_FILENO =? STDOUT_FILENO) || (STDOUT_FILENO =? STDERR_FILENO)) with true. cbv iota.
  unfold ubind. rewrite bare_ready by done. unfold __exyde_syscall, syscall, kworld_sys. change (SYS_EXY_PUTS =? SYS_EXY_PUTS) with true. cbn [negb].
  rewrite (proj2 (Z.eqb_neq n 0)), (proj2 (Z.ltb_ge 4096 n)) by lia. unfold kret. cbn [mbind option_bind rax]. unfold posix_ret.
  rewrite (proj2 (Z.ltb_ge n 0)) by lia. done.
Qed.

Lemma send_spec s g m n : exyde_ipc_send g m n s = Some (0, put_sent g m s).
Proof. done. Qed.

(** Input arrives after [j] empty polls. *)
Definition arrives (k : kworld) (j : nat) (b : list Z) (rest : list (list Z)) : Prop :=
  b <> [] /\ (j = 0%nat /\ k_in k = b /\ k_future k = rest \/
              (0 < j)%nat /\ k_in k = [] /\ k_future k = replicate (j - 1) [] ++ b :: rest).

Lemma gets_spec fuel j (s : libc kworld) n b rest : arrives (world s) j b rest -> (j < fuel)%nat -> 0 < n <= 4096 ->
  gets_loop fuel n s = Some ((Z.min n (zlen b), take (Z.to_nat n) b), set_world (MkK (k_out (world s)) (drop (Z.to_nat n) b) rest (k_sent (world s))) s).
Proof.
  intros [Hb K] Hf Hn. assert (0 < zlen b) as Lb by (destruct b; [done|]; unfold zlen; simpl; lia).
  revert j s K Hf. induction fuel as [|fuel IH]; intros j s K Hf; [lia|]. cbn [gets_loop]. unfold ubind at 1. unfold __exyde_syscall, syscall, kworld_sys.
  change (SYS_EXY_GETS =? SYS_EXY_GETS) with true. cbn [negb]. rewrite (proj2 (Z.eqb_neq n 0)), (proj2 (Z.ltb_ge 4096 n)) by lia.
  destruct K as [(-> & Ei & Er)|(Hj & Ei & Er)]; rewrite Ei.
  - rewrite (proj2 (Z.eqb_neq (zlen b) 0)) by lia. unfold kret. cbn [mbind option_bind rax out_bytes].
    assert (zlen (take (Z.to_nat n) b) = Z.min n (zlen b)) as E by (unfold zlen; rewrite length_take; lia). rewrite E.
    rewrite (proj2 (Z.ltb_lt 0 _)) by lia. by rewrite Er.
  - change (zlen [] =? 0) with true. cbn [mbind option_bind kret rax]. change (0 <? - EAGAIN) with false. rewrite Z.eqb_refl. cbn [negb].
    unfold ubind at 1. unfold exyde_yield, chk_int, __exyde_syscall, ubind, syscall. cbn [kworld_sys]. change (SYS_YIELD =? SYS_YIELD) with true. cbn [negb kret mbind option_bind rax].
    unfold chk. change (is_error 0) with false. cbn [uret]. rewrite (IH (j - 1)%nat); [done| |lia]. cbn [world set_world k_in k_future k_out k_sent]. rewrite Ei, Er. cbn [app].
    destruct (j - 1)%nat as [|j'] eqn:Ej; cbn [replicate app head tail default]; [left; done|right]. split; [lia|]. split; [done|]. by replace (S j' - 1)%nat with j' by lia.
Qed.

Lemma turn_write fuel g (s : libc kworld) k data : bare s -> 0 < k <= 512 -> zlen data = 512 ->
  con_turn fuel g CONSOLE_RPC_MSG_SIZE (creq_bytes (MkCReq CONSOLE_OP_WRITE k data)) s =
  Some (None, put_sent g (crsp_bytes (MkCRsp k 0 zero_block)) (put_out (take (Z.to_nat k) data) s)).
Proof.
  intros B Hk Hd. unfold con_turn. rewrite Z.eqb_refl. cbn [negb]. rewrite creq_roundtrip by (cbn; unfold CONSOLE_OP_WRITE, CONSOLE_OP_READ; try done; lia). unfold con_handle. cbn [cq_op cq_len cq_data].
  change (CONSOLE_OP_WRITE =? CONSOLE_OP_WRITE) with true. cbv iota. unfold CONSOLE_RPC_DATA_MAX.
  rewrite (proj2 (Z.eqb_neq k 0)), (proj2 (Z.ltb_ge 512 k)) by lia. cbn [orb]. unfold ubind at 1. rewrite kwrite_spec by (done || lia).
  unfold con_reply, ubind. rewrite send_spec, i32_small by lia. done.
Qed.

Lemma await_spec fuel j (s : libc kworld) n b rest : bare s -> arrives (world s) j b rest -> (j < fuel)%nat -> 0 < n <= 4096 ->
  await_input fuel n s = Some (inr (take (Z.to_nat n) b), set_world (MkK (k_out (world s)) (drop (Z.to_nat n) b) rest (k_sent (world s))) s).
Proof.
  intros B Ar Hf Hn. destruct fuel as [|fuel]; [lia|]. cbn [await_input]. unfold ubind at 1. unfold read. change ((0 <=? STDIN_FILENO) && (STDIN_FILENO <? 3)) with true.
  change (STDIN_FILENO =? STDIN_FILENO) with true. cbv iota. unfold ubind at 1. rewrite bare_ready by done. rewrite (proj2 (Z.eqb_neq n 0)) by lia.
  rewrite (gets_spec (S fuel) j s n b rest) by done. destruct Ar as [Hb _]. assert (0 < zlen b) as Lb by (destruct b; [done|]; unfold zlen; simpl; lia).
  rewrite (proj2 (Z.ltb_lt 0 _)) by lia. unfold uret. do 3 f_equal. apply take_ge. rewrite length_take. unfold zlen in *. lia.
Qed.

Lemma turn_read fuel g j (s : libc kworld) n b rest : bare s -> arrives (world s) j b rest -> (j < fuel)%nat -> 0 < n <= 512 ->
  let l := Z.min n (zlen b) in
  con_turn fuel g CONSOLE_RPC_MSG_SIZE (creq_bytes (MkCReq CONSOLE_OP_READ n zero_block)) s =
  Some (None, put_sent g (crsp_bytes (MkCRsp l l (copy_loop zero_block 0 (take (Z.to_nat n) b) 0 l)))
                (set_world (MkK (k_out (world s)) (drop (Z.to_nat n) b) rest (k_sent (world s))) s)).
Proof.
  intros B Ar Hf Hn l. unfold con_turn. rewrite Z.eqb_refl. cbn [negb]. rewrite creq_roundtrip by (cbn; unfold CONSOLE_OP_WRITE, CONSOLE_OP_READ; try done; lia). unfold con_handle. cbn [cq_op cq_len cq_data].
  change (CONSOLE_OP_READ =? CONSOLE_OP_WRITE) with false. change (CONSOLE_OP_READ =? CONSOLE_OP_READ) with true. cbv iota. unfold CONSOLE_RPC_DATA_MAX.
  rewrite (proj2 (Z.ltb_ge 512 n)), (proj2 (Z.eqb_neq n 0)) by lia. unfold ubind at 1. rewrite (await_spec fuel j s n b rest) by (done || lia).
  destruct Ar as [Hb _]. assert (0 < zlen b) as Lb by (destruct b; [done|]; unfold zlen; simpl; lia).
  assert (zlen (take (Z.to_nat n) b) = l) as E by (unfold l, zlen; rewrite length_take; lia). rewrite E, u32_small by lia.
  unfold reply_bytes. rewrite (proj2 (Z.eqb_neq l 0)) by lia. done.
Qed.

(** ** The client on the server *)

(** A system [W] in which the two channels of the console lead to a [cworld]. *)
Class Wired (W : Type) `{Sys W} := {
  con_of : W -> cworld;
  with_con : cworld -> W -> W;
  con_routed : W -> Prop;
  con_of_with c w : con_of (with_con c w) = c;
  with_with c c' w : with_con c' (with_con c w) = with_con c' w;
  with_same w : with_con (con_of w) w = w;
  routed_with c w : con_routed w -> c_req c = c_req (con_of w) -> c_resp c = c_resp (con_of w) -> con_routed (with_con c w);
  send_routed w m len : con_routed w ->
    syscall SYS_IPC_SEND [Num (c_req (con_of w)); Src m; Num len] w =
    ('(r, c) ← syscall SYS_IPC_SEND [Num (c_req (con_of w)); Src m; Num len] (con_of w); Some (r, with_con c w));
  recv_routed w max : con_routed w ->
    syscall SYS_IPC_RECV [Num (c_resp (con_of w)); Dst; Num max] w =
    ('(r, c) ← syscall SYS_IPC_RECV [Num (c_resp (con_of w)); Dst; Num max] (con_of w); Some (r, with_con c w)) }.

#[export] Instance cworld_wired : Wired cworld.
Proof.
  refine {| con_of := fun w => w; with_con := fun c _ => c; con_routed := fun _ => True |}; try done.
  - intros w m len _. by destruct (syscall _ _ w) as [[? ?]|].
  - intros w max _. by destruct (syscall _ _ w) as [[? ?]|].
Defined.

Section wired.
Context {W : Type} `{Wired W}.

(** [u] is wired to the running server [s], with no reply pending. *)
Record con_attached (u : libc W) (s : libc kworld) : Prop := {
  ca_con : con u = MkCon (c_req (con_of (world u))) (c_resp (con_of (world u)));
  ca_ok : c_req (con_of (world u)) <> EXYDE_HANDLE_INVALID /\ c_resp (con_of (world u)) <> EXYDE_HANDLE_INVALID;
  ca_routed : con_routed (world u);
  ca_srv : c_srv (con_of (world u)) = Some s;
  ca_bare : bare s;
  ca_sent : k_sent (world s) = [];
  ca_box : c_box (con_of (world u)) = [] }.

Lemma attached_ready u s : con_attached u s -> console_client_ready u = Some (true, u).
Proof.
  intros [C [O1 O2] _ _ _ _ _]. unfold console_client_ready, ubind, uget, uret. rewrite C. cbn [con_req con_resp].
  by rewrite (proj2 (Z.eqb_neq _ _) O1), (proj2 (Z.eqb_neq _ _) O2).
Qed.

Definition reset (s : libc kworld) : libc kworld := set_world (MkK (k_out (world s)) (k_in (world s)) (k_future (world s)) []) s.
(** The console part of the system, and nothing else of the process, is replaced. *)
Definition put_con (c : cworld) (u : libc W) : libc W := set_world (with_con c (world u)) u.

Lemma put_con_same u : put_con (con_of (world u)) u = u.
Proof. unfold put_con. rewrite with_same. by destruct u. Qed.
Lemma put_put_con c c' u : put_con c' (put_con c u) = put_con c' u.
Proof. unfold put_con. cbn [world set_world]. by rewrite with_with. Qed.

Lemma con_rpc_spec u s q r s1 : con_attached u s -> 0 <= cr_ret r < 2 ^ 63 -> 0 <= cr_len r < 2 ^ 32 -> zlen (cr_data r) = 512 ->
  con_turn (c_fuel (con_of (world u))) (c_resp (con_of (world u))) CONSOLE_RPC_MSG_SIZE (creq_bytes q) s = Some (None, put_sent (c_resp (con_of (world u))) (crsp_bytes r) s1) ->
  bare s1 -> k_sent (world s1) = [] ->
  exists c, con_rpc q u = Some (Some r, put_con c u) /\ con_attached (put_con c u) s1.
Proof.
  intros [C O Rt Sr B Se Bx] Hr Hl Hd T B1 K1. unfold con_rpc. unfold ubind at 1. unfold uget. rewrite C. cbn [con_req con_resp]. unfold ubind at 1.
  set (c0 := con_of (world u)) in *. set (c1 := MkCW (Some (reset s1)) (c_req c0) (c_resp c0) [crsp_bytes r] (c_fuel c0)). set (c2 := MkCW (Some (reset s1)) (c_req c0) (c_resp c0) [] (c_fuel c0)).
  assert (con_routed (with_con c1 (world u))) as Rt1 by (by apply routed_with).
  assert (exyde_ipc_send (c_req c0) (creq_bytes q) CONSOLE_RPC_MSG_SIZE u = Some (0, put_con c1 u)) as ->.
  { unfold exyde_ipc_send, chk_int, __exyde_syscall, ubind. unfold c0 at 1. rewrite send_routed by done. fold c0. unfold syscall at 1. unfold cworld_sys.
    change (SYS_IPC_SEND =? SYS_IPC_SEND) with true. rewrite Z.eqb_refl. cbn [negb].
    unfold to_console. rewrite Sr, T. cbn [mbind option_bind]. unfold put_sent. cbn [world set_world k_sent k_out k_in k_future]. rewrite K1, Bx. done. }
  cbn [Z.eqb negb]. unfold ubind at 1.
  assert (exyde_ipc_recv (c_resp c0) CONSOLE_RPC_MSG_SIZE (put_con c1 u) = Some ((CONSOLE_RPC_MSG_SIZE, crsp_bytes r), put_con c2 u)) as ->.
  { unfold exyde_ipc_recv, chk_out, __exyde_syscall, ubind. pose proof (recv_routed (with_con c1 (world u)) CONSOLE_RPC_MSG_SIZE Rt1) as Rv. rewrite con_of_with in Rv.
    cbn [world put_con set_world]. change (c_resp c1) with (c_resp c0) in Rv. rewrite Rv. unfold syscall at 1. unfold cworld_sys. change (SYS_IPC_RECV =? SYS_IPC_RECV) with true. cbn [negb].
    change (c_resp c1) with (c_resp c0). rewrite Z.eqb_refl. cbn [negb c_box c1 mbind option_bind cret]. rewrite with_with, zlen_crsp by done. done. }
  rewrite Z.eqb_refl. cbn [negb]. rewrite crsp_roundtrip by (done || lia). rewrite (proj2 (Z.ltb_ge (cr_ret r) 0)) by lia.
  exists c2. split; [reflexivity|]. split; unfold put_con; cbn [world con set_world]; rewrite ?con_of_with; try done.
  - by apply routed_with.
  - cbn [c2 c_srv]. f_equal. destruct s1 as [e v t c [ko ki kf ks]]. cbn in K1. by subst ks.
Qed.

Lemma con_write_loop_spec fuel (u : libc W) s buf total : con_attached u s -> 0 <= total <= zlen buf -> zlen buf < 2 ^ 62 -> zlen buf - total < Z.of_nat fuel ->
  exists c s', con_write_loop fuel buf (zlen buf) total u = Some (zlen buf, put_con c u) /\ con_attached (put_con c u) s' /\
    k_out (world s') = k_out (world s) ++ drop (Z.to_nat total) buf /\ k_in (world s') = k_in (world s) /\ k_future (world s') = k_future (world s).
Proof.
  revert u s total. induction fuel as [|fuel IH]; intros u s total At Ht Hb Hf; [lia|]. cbn [con_write_loop]. rewrite u64_small by lia.
  destruct (Z.ltb_spec total (zlen buf)) as [Hlt|Hge].
  2: { exists (con_of (world u)), s. rewrite put_con_same. assert (total = zlen buf) as -> by lia. do 2 (split; [done|]). rewrite drop_ge, app_nil_r by (unfold zlen; lia). done. }
  rewrite u64_small by lia. unfold CONSOLE_RPC_DATA_MAX. set (k := if 512 <? zlen buf - total then 512 else zlen buf - total).
  assert (0 < k <= 512 /\ total + k <= zlen buf) as [Hk Hk'] by (unfold k; destruct (Z.ltb_spec 512 (zlen buf - total)); lia). rewrite u32_small by lia.
  set (d := copy_loop zero_block 0 buf total k). assert (zlen zero_block = 512) as Lz by done. assert (zlen d = 512) as Ld by (unfold d; rewrite zlen_copy_loop; lia).
  pose proof (turn_write (c_fuel (con_of (world u))) (c_resp (con_of (world u))) s k d (ca_bare _ _ At) Hk Ld) as T. unfold ubind at 1.
  destruct (con_rpc_spec u s (MkCReq CONSOLE_OP_WRITE k d) (MkCRsp k 0 zero_block) (put_out (take (Z.to_nat k) d) s) At) as (c1 & -> & At1);
    [cbn [cr_ret]; lia|cbn [cr_len]; lia|exact Lz|exact T|exact (ca_bare _ _ At)|exact (ca_sent _ _ At)|].
  cbn [cr_ret]. rewrite (proj2 (Z.leb_gt k 0)) by lia. rewrite i64_small by lia.
  destruct (IH (put_con c1 u) _ (total + k) At1 ltac:(lia) Hb ltac:(lia)) as (c2 & s2 & E2 & At2 & Eo & Ei & Ef). rewrite put_put_con in E2, At2. exists c2, s2. rewrite E2, Eo, Ei, Ef.
  do 2 (split; [done|]). split; [|done]. unfold put_out. cbn [world set_world k_out]. rewrite <- app_assoc. f_equal.
  assert (take (Z.to_nat k) d = take (Z.to_nat k) (drop (Z.to_nat total) buf)) as ->.
  { apply (list_eq_zget 0); [unfold zlen in *; rewrite !length_take, length_drop; lia|]. intros j Hj. unfold zlen in Hj. rewrite length_take in Hj.
    rewrite !zget_lookup, !lookup_take_lt, lookup_drop by lia. rewrite <- (zget_lookup 0 d) by lia. unfold d. rewrite zget_copy_loop by lia.
    rewrite (proj2 (Z.leb_le 0 j)), (proj2 (Z.ltb_lt j _)) by lia. cbn [andb]. rewrite zget_lookup by lia. do 2 f_equal. lia. }
  replace (Z.to_nat (total + k)) with (Z.to_nat total + Z.to_nat k)%nat by lia. rewrite <- drop_drop. apply take_drop.
Qed.

(** Writing to the standard output or error. *)
Lemma con_write_spec u s buf fd : con_attached u s -> fd = STDOUT_FILENO \/ fd = STDERR_FILENO -> zlen buf < 2 ^ 62 ->
  exists c s', write fd buf (zlen buf) u = Some (zlen buf, put_con c u) /\ con_attached (put_con c u) s' /\ k_out (world s') = k_out (world s) ++ buf /\ k_in (world s') = k_in (world s).
Proof.
  intros At Hfd Hb. pose proof (zlen_nonneg buf).
  destruct (con_write_loop_spec (S (Z.to_nat (zlen buf))) u s buf 0 At ltac:(lia) Hb ltac:(lia)) as (c & s' & E & At' & Eo & Ei & _).
  exists c, s'. split; [|done]. rewrite <- E. unfold write. assert ((0 <=? fd) && (fd <? 3) = true /\ (fd =? STDOUT_FILENO) || (fd =? STDERR_FILENO) = true) as [-> ->] by (by destruct Hfd as [-> | ->]).
  unfold ubind at 1. rewrite (attached_ready u s At). unfold console_client_write. unfold ubind at 1. by rewrite (attached_ready u s At).
Qed.
End wired.

(** ** Properties *)

(** C27: Output reaches the console.  A process wired to the console server that
    writes any buffer below 2^62 bytes gets its length back, and the bytes, in
    order and nothing else, have been appended to the console, however many
    messages of 512 bytes that took. *)
Theorem console_write_correct (u : libc cworld) s buf fd : con_attached u s -> fd = STDOUT_FILENO \/ fd = STDERR_FILENO -> zlen buf < 2 ^ 62 ->
  exists u' s', write fd buf (zlen buf) u = Some (zlen buf, u') /\ con_attached u' s' /\ k_out (world s') = k_out (world s) ++ buf /\
    k_in (world s') = k_in (world s) /\ errno u' = errno u.
Proof.
  intros At Hfd Hb. destruct (con_write_spec u s buf fd At Hfd Hb) as (c & s' & E & At' & Eo & Ei). by exists (put_con c u), s'.
Qed.

(** C28: Input is waited for.  A [read] of the standard input through the console
    server does not return before there is input; when it arrives after [j]
    yields, the read returns what is there, up to 512 bytes and the length asked
    for, and leaves the rest for the next read. *)
Theorem console_read_correct (u : libc cworld) s j b rest fuel n : con_attached u s -> arrives (world s) j b rest -> (j < c_fuel (world u))%nat -> 0 < n < 2 ^ 64 ->
  let l := Z.min (Z.min n 512) (zlen b) in
  exists u' s', read fuel STDIN_FILENO n u = Some ((l, take (Z.to_nat l) b), u') /\ con_attached u' s' /\
    k_in (world s') = drop (Z.to_nat l) b /\ k_future (world s') = rest /\ k_out (world s') = k_out (world s).
Proof.
  intros At Ar Hf Hn l. unfold read. change ((0 <=? STDIN_FILENO) && (STDIN_FILENO <? 3)) with true. change (STDIN_FILENO =? STDIN_FILENO) with true. cbv iota.
  unfold ubind at 1. rewrite (attached_ready u s At). unfold console_client_read. unfold ubind at 1. rewrite (attached_ready u s At). cbn [negb].
  rewrite (proj2 (Z.eqb_neq n 0)) by lia. unfold CONSOLE_RPC_DATA_MAX. set (w := if 512 <? n then 512 else n).
  assert (w = Z.min n 512) as Ew by (unfold w; destruct (Z.ltb_spec 512 n); lia). assert (0 < w <= 512) as Hw by lia. rewrite u32_small by lia.
  pose proof (zlen_nonneg b). assert (zlen zero_block = 512) as Lz by done. pose proof (turn_read (c_fuel (world u)) (c_resp (world u)) j s w b rest (ca_bare _ _ At) Ar Hf Hw) as T.
  cbv zeta in T. assert (Z.min w (zlen b) = l) as El by (unfold l; lia). rewrite El in T.
  assert (zlen (copy_loop zero_block 0 (take (Z.to_nat w) b) 0 l) = 512) as Lc by (rewrite zlen_copy_loop; lia).
  set (r := MkCRsp l l _) in T. set (s1 := set_world _ s) in T.
  destruct (con_rpc_spec u s (MkCReq CONSOLE_OP_READ w zero_block) r s1 At) as (c1 & E1 & At1);
    [cbn [r cr_ret]; lia|cbn [r cr_len]; lia|exact Lc|exact T|exact (ca_bare _ _ At)|exact (ca_sent _ _ At)|].
  unfold ubind at 1. rewrite E1. cbn [r cr_len cr_data]. rewrite (proj2 (Z.ltb_ge w l)) by lia. exists (put_con c1 u), s1. split; [|split; [exact At1|]].
  - unfold uret. do 3 f_equal. apply (list_eq_zget 0); [unfold zlen in *; rewrite !length_take; lia|]. intros i Hi. unfold zlen in Hi, Lc. rewrite length_take in Hi.
    rewrite (zget_lookup 0 (take _ _)), lookup_take_lt by lia. rewrite <- zget_lookup by lia. rewrite zget_copy_loop by lia.
    rewrite (proj2 (Z.leb_le 0 i)), (proj2 (Z.ltb_lt i _)) by lia. cbn [andb]. rewrite !zget_lookup, !lookup_take_lt by lia. do 2 f_equal. lia.
  - cbn [s1 world set_world k_in k_future k_out]. split; [|done]. destruct (Z.le_gt_cases w (zlen b)); [by replace w with l by lia|].
    rewrite !drop_ge by (unfold zlen in *; lia). done.
Qed.

(** ** Examples *)

Definition demo_server : libc kworld :=
  MkLibc 0 (MkVars EXYDE_HANDLE_INVALID EXYDE_HANDLE_INVALID 0) [] (MkCon EXYDE_HANDLE_INVALID EXYDE_HANDLE_INVALID)
    (MkK (byte_list "boot") [] [[]; [104; 105; 10]] []).
Definition demo_user : libc cworld :=
  MkLibc 0 (MkVars EXYDE_HANDLE_INVALID EXYDE_HANDLE_INVALID 0) [] (MkCon 4 5) (MkCW (Some demo_server) 4 5 [] 10).

Lemma demo_con_attached : con_attached demo_user demo_server.
Proof. by split. Qed.

Lemma console_write_correct_witness :
  exists u' s', write STDOUT_FILENO (replicate 700 65) 700 demo_user = Some (700, u') /\ con_attached u' s' /\ k_out (world s') = byte_list "boot" ++ replicate 700 65.
Proof.
  destruct (console_write_correct demo_user demo_server (replicate 700 65) STDOUT_FILENO demo_con_attached) as (u' & s' & E & At & Eo & _);
    [left; reflexivity|by vm_compute|]. exists u', s'. split; [exact E|]. split; [exact At|exact Eo].
Defined.

Lemma console_read_correct_witness :
  exists u' s', read 1 STDIN_FILENO 2 demo_user = Some ((2, [104; 105]), u') /\ con_attached u' s' /\ k_in (world s') = [10].
Proof.
  destruct (console_read_correct demo_user demo_server 2 [104; 105; 10] [] 1 2 demo_con_attached) as (u' & s' & E & At & Ei & _);
    [|vm_compute; lia|lia|]. { split; [discriminate|]. right. split; [lia|]. split; reflexivity. }
  exists u', s'. split; [exact E|]. split; [exact At|exact Ei].
Defined.
