(* ===== verification/ShPath.v ===== *)
(** * Paths and words of the shell

    [userspace/shell/main.c]: [normalize_path], [resolve_path] and [tokenize].
    The three work in place on character buffers: separators are overwritten
    with NUL and the words are pointers into the buffer.  Strings are byte
    lists that hold a NUL, pointers are offsets. *)
From S2P Require Import Prelude Bytes Str Iface CMalloc Ramfs Vfs.

Definition LINE_MAX : Z := 256.
Definition ARGS_MAX : Z := 16.
Definition PATH_MAX_ : Z := 256.
Definition STACK_MAX : Z := 32.

(** ** The code *)

(** [while (f( *p )) ++p;] *)
Fixpoint skip_while (f : Z -> bool) (s : list Z) (i : Z) : Z :=
  match s with
  | c :: s => if f c then skip_while f s (i + 1) else i
  | [] => i
  end.

(** One turn of the loops of [normalize_path] and [tokenize]: over the
    separators, [None] when nothing follows, else the start of a word, the
    place after it, and the buffer with the word ended. *)
Definition cut (sep word : Z -> bool) (buf : list Z) (p : Z) : option (Z * Z * list Z) :=
  let p := skip_while sep (drop (Z.to_nat p) buf) p in
  if zget 0 buf p =? 0 then None
  else
    let start := p in
    let p := skip_while word (drop (Z.to_nat p) buf) p in
    if zget 0 buf p =? 0 then Some (start, p, buf) else Some (start, p + 1, zset buf p 0).

Definition is_slash (c : Z) : bool := c =? 47.
Definition in_name (c : Z) : bool := negb (c =? 0) && negb (c =? 47).
Definition DOT_STR : list Z := [46; 0].
Definition DOTDOT_STR : list Z := [46; 46; 0].

(** The first loop of [normalize_path]: the stack of starts and the buffer, or -1. *)
Fixpoint norm_loop (fuel : nat) (buf : list Z) (p : Z) (stack : list Z) : option (option (list Z * list Z)) :=
  match fuel with
  | O => None
  | S fuel =>
    if zget 0 buf p =? 0 then Some (Some (stack, buf))
    else
      match cut is_slash in_name buf p with
      | None => Some (Some (stack, buf))
      | Some (start, p, buf) =>
        let name := drop (Z.to_nat start) buf in
        if strcmp name DOT_STR =? 0 then norm_loop fuel buf p stack
        else if strcmp name DOTDOT_STR =? 0 then norm_loop fuel buf p (take (length stack - 1) stack)
        else if STACK_MAX <=? zlen stack then Some None
        else norm_loop fuel buf p (stack ++ [start])
      end
  end.

(** The second loop: [outv] and the place in it; [false]: -1. *)
Fixpoint join_loop (buf outv : list Z) (cap o : Z) (stack : list Z) : bool * Z * list Z :=
  match stack with
  | [] => (true, o, outv)
  | st :: stack =>
    let sl := strlen (drop (Z.to_nat st) buf) in
    if cap <=? o + sl + 1 then (false, o, outv)
    else join_loop buf (zset (copy_loop outv o buf st sl) (o + sl) 47) cap (o + sl + 1) stack
  end.

(** The result, the static [buf] and [outv]. *)
Definition normalize_path (buf inp outv : list Z) (cap : Z) : option (Z * list Z * list Z) :=
  let l := strlen inp in
  if PATH_MAX_ * 2 <=? l then Some (-1, buf, outv)
  else
    let buf := copy_loop buf 0 inp 0 (l + 1) in
    r ← norm_loop (S (Z.to_nat l)) buf 0 [];
    match r with
    | None => Some (-1, buf, outv)
    | Some (stack, buf) =>
      if cap <? 2 then Some (-1, buf, outv)
      else
        let '(ok, o, outv) := join_loop buf (zset outv 0 47) cap 1 stack in
        if negb ok then Some (-1, buf, outv)
        else Some (0, buf, zset outv (if 1 <? o then o - 1 else o) 0)
    end.

(** [tmp] is the local array before anything was stored in it. *)
Definition resolve_path (buf tmp cwd rel outv : list Z) (cap : Z) : option (Z * list Z * list Z) :=
  if zget 0 rel 0 =? 47 then
    if PATH_MAX_ * 2 <=? strlen rel then Some (-1, buf, outv)
    else normalize_path buf (strcpy tmp rel) outv cap
  else
    let cl := strlen cwd in
    let rl := strlen rel in
    if PATH_MAX_ * 2 <=? cl + 1 + rl then Some (-1, buf, outv)
    else
      let tmp := copy_loop tmp 0 cwd 0 cl in
      let '(tmp, cl) := if (cl =? 0) || negb (zget 0 tmp (cl - 1) =? 47) then (zset tmp cl 47, cl + 1) else (tmp, cl) in
      normalize_path buf (copy_loop tmp cl rel 0 (rl + 1)) outv cap.

Definition is_blank (c : Z) : bool := (c =? 32) || (c =? 9).
Definition in_word (c : Z) : bool := negb (c =? 0) && negb (c =? 32) && negb (c =? 9).

(** The starts of the words, at most [max], and the line with the words ended. *)
Fixpoint tokenize_loop (max : nat) (line : list Z) (p : Z) (argv : list Z) : list Z * list Z :=
  match max with
  | O => (argv, line)
  | S max =>
    if zget 0 line p =? 0 then (argv, line)
    else
      match cut is_blank in_word line p with
      | None => (argv, line)
      | Some (start, p, line) => tokenize_loop max line p (argv ++ [start])
      end
  end.
Definition tokenize (line : list Z) (max : Z) : list Z * list Z := tokenize_loop (Z.to_nat max) line 0 [].

(** ** Words of a string *)

(** The maximal runs of characters that are no separators. *)
Fixpoint words (sep : Z -> bool) (s cur : list Z) : list (list Z) :=
  match s with
  | [] => match cur with [] => [] | _ => [cur] end
  | c :: s =>
    if sep c then match cur with [] => words sep s [] | _ => cur :: words sep s [] end
    else words sep s (cur ++ [c])
  end.

Section words.
Context (sep : Z -> bool).

Lemma words_skip pre s : Forall (fun c => sep c = true) pre -> words sep (pre ++ s) [] = words sep s [].
Proof. induction 1 as [|c pre Hc _ IH]; [done|]. cbn [app words]. by rewrite Hc. Qed.

Lemma words_cur w s cur : Forall (fun c => sep c = false) w -> words sep (w ++ s) cur = words sep s (cur ++ w).
Proof.
  intros F. revert cur. induction F as [|c w Hc _ IH]; intros cur; [by rewrite app_nil_r|]. cbn [app words]. rewrite Hc, IH. by rewrite <- app_assoc.
Qed.

Lemma words_one w : Forall (fun c => sep c = false) w -> w <> [] -> words sep w [] = [w].
Proof. intros F Hw. rewrite <- (app_nil_r w) at 1. rewrite words_cur by done. by destruct w. Qed.

Lemma words_cons w c s : Forall (fun c => sep c = false) w -> w <> [] -> sep c = true -> words sep (w ++ c :: s) [] = w :: words sep s [].
Proof. intros F Hw Hc. rewrite words_cur by done. cbn [words app]. rewrite Hc. by destruct w. Qed.

(** Every word is a run without separators. *)
Lemma words_clean s cur w : w ∈ words sep s cur -> Forall (fun c => sep c = false) cur ->
  w <> [] /\ Forall (fun c => sep c = false) w /\ forall c, c ∈ w -> c ∈ s \/ c ∈ cur.
Proof.
  revert cur. induction s as [|c s IH]; intros cur Hw F; cbn [words] in Hw.
  - destruct cur; [by apply not_elem_of_nil in Hw|]. apply list_elem_of_singleton in Hw as ->. split; [done|]. split; [done|]. auto.
  - destruct (sep c) eqn:E.
    + assert (w = cur /\ w <> [] \/ w ∈ words sep s []) as [[-> Hn]|Hw'].
      { destruct cur; [by right|]. apply elem_of_cons in Hw as [->|?]; [by left|by right]. }
      { split; [done|]. split; [done|]. auto. }
      destruct (IH [] Hw' (Forall_nil_2 _)) as (? & ? & K). split; [done|]. split; [done|]. intros x Hx. destruct (K x Hx) as [?|?]; [left; by right|by apply not_elem_of_nil in H1].
    + destruct (IH _ Hw) as (? & ? & K); [apply Forall_app; split; [done|by repeat constructor]|]. split; [done|]. split; [done|].
      intros x Hx. destruct (K x Hx) as [?|[?|?%list_elem_of_singleton]%elem_of_app]; [left; by right|by right|subst; left; by left].
Qed.
End words.

(** ** Strings in a buffer *)

(** The string [w] is stored at [st]. *)
Definition str_at (buf : list Z) (st : Z) (w : list Z) : Prop :=
  0 <= st /\ 0 ∉ w /\ exists t, drop (Z.to_nat st) buf = w ++ 0 :: t.

Lemma str_at_cstr buf st w : str_at buf st w -> cstr (drop (Z.to_nat st) buf) = w.
Proof. intros (_ & Hw & t & ->). by apply cstr_app. Qed.

Lemma str_at_zset buf st w e x : str_at buf st w -> st + zlen w < e -> str_at (zset buf e x) st w.
Proof.
  intros (H0 & Hw & t & E) He. split; [done|]. split; [done|]. pose proof (zlen_nonneg w). unfold zset. destruct (Z.ltb_spec e 0); [lia|].
  rewrite drop_insert_ge by lia. rewrite E. rewrite insert_app_r_alt by (unfold zlen in *; lia).
  destruct (Z.to_nat e - Z.to_nat st - length w)%nat as [|k] eqn:Ek; [unfold zlen in *; lia|]. cbn. by eexists.
Qed.

Lemma skip_while_spec f s i : exists pre rest, s = pre ++ rest /\ skip_while f s i = i + zlen pre /\ Forall (fun c => f c = true) pre /\
  match rest with [] => True | c :: _ => f c = false end.
Proof.
  revert i. induction s as [|c s IH]; intros i; [exists [], []; split; [done|]; split; [change (zlen []) with 0; cbn [skip_while]; lia|by split]|]. cbn [skip_while].
  destruct (f c) eqn:E.
  - destruct (IH (i + 1)) as (pre & rest & -> & -> & F & R). exists (c :: pre), rest. split; [done|]. rewrite zlen_cons. split; [lia|]. split; [by constructor|done].
  - exists [], (c :: s). change (zlen []) with 0. split; [done|]. split; [lia|]. split; [by constructor|done].
Qed.

Lemma zget_drop (l : list Z) p : 0 <= p -> zget 0 l p = match drop (Z.to_nat p) l with c :: _ => c | [] => 0 end.
Proof.
  intros Hp. rewrite zget_lookup by done. rewrite <- (Nat.add_0_r (Z.to_nat p)) at 1. rewrite <- lookup_drop. by destruct (drop _ l).
Qed.

Lemma drop_more {T} (l pre rest : list T) p : 0 <= p -> drop (Z.to_nat p) l = pre ++ rest -> drop (Z.to_nat (p + zlen pre)) l = rest.
Proof.
  intros Hp E. replace (Z.to_nat (p + zlen pre)) with (Z.to_nat p + length pre)%nat by (unfold zlen; lia). rewrite <- drop_drop, E. apply drop_app_length.
Qed.

(** A string split where a predicate that fails at NUL stops holding. *)
Lemma run_spec f buf p s t : 0 <= p -> drop (Z.to_nat p) buf = s ++ 0 :: t -> 0 ∉ s -> f 0 = false ->
  exists pre rest, s = pre ++ rest /\ skip_while f (drop (Z.to_nat p) buf) p = p + zlen pre /\ Forall (fun c => f c = true) pre /\
    drop (Z.to_nat (p + zlen pre)) buf = rest ++ 0 :: t /\ match rest with [] => True | c :: _ => f c = false /\ c <> 0 end.
Proof.
  intros Hp E Hs H0. destruct (skip_while_spec f (drop (Z.to_nat p) buf) p) as (pre & rest & Ed & -> & F & R).
  assert (0 ∉ pre) as Np by (intros K; rewrite Forall_forall in F; specialize (F 0 K); congruence).
  assert (exists rest', s = pre ++ rest' /\ rest = rest' ++ 0 :: t) as (rest' & -> & ->).
  { rewrite E in Ed. clear -Ed Np. revert s Ed. induction pre as [|a pre IH]; intros s Ed; [by exists s|].
    destruct s as [|b s]; [injection Ed as <- _; destruct Np; left|]. injection Ed as -> Ed. destruct (IH ltac:(set_solver) s Ed) as (r & -> & ->). by exists r. }
  exists pre, rest'. split; [done|]. split; [done|]. split; [done|]. split; [by apply drop_more|]. destruct rest' as [|c r]; [done|]. split; [done|]. set_solver.
Qed.

Lemma cut_word_spec sep word buf p s t : (forall c, word c = negb (c =? 0) && negb (sep c)) -> sep 0 = false ->
  0 <= p -> drop (Z.to_nat p) buf = s ++ 0 :: t -> 0 ∉ s ->
  match cut sep word buf p with
  | None => words sep s [] = []
  | Some (st, p', buf') => exists w s', p <= st /\ w <> [] /\ words sep s [] = w :: words sep s' [] /\ str_at buf' st w /\ st + zlen w <= p' /\
      drop (Z.to_nat p') buf' = s' ++ 0 :: t /\ 0 ∉ s' /\ (length s' < length s)%nat /\ zlen buf' = zlen buf /\
      (buf' = buf \/ buf' = zset buf (st + zlen w) 0)
  end.
Proof.
  intros Hw H0 Hp E Hs. unfold cut. destruct (run_spec sep buf p s t Hp E Hs H0) as (pre & r1 & -> & -> & F1 & E1 & R1).
  pose proof (zlen_nonneg pre). set (st := p + zlen pre) in *. rewrite zget_drop, E1 by lia. rewrite words_skip by done.
  destruct r1 as [|c r1]; [done|]. cbn [app]. destruct R1 as [Sc Nc]. rewrite (proj2 (Z.eqb_neq c 0) Nc). change ((c :: r1) ++ 0 :: t) with (c :: r1 ++ 0 :: t) in E1.
  assert (0 ∉ c :: r1) as Nr by set_solver.
  assert (word 0 = false) as W0 by (by rewrite Hw). 
  destruct (run_spec word buf st (c :: r1) t ltac:(lia) E1 Nr W0) as (w & r2 & Er & Esk & F2 & E2 & R2).
  rewrite E1 in Esk. rewrite Esk. clear Esk. rewrite Er in *.
  assert (Forall (fun c => sep c = false) w) as Fw.
  { eapply Forall_impl; [exact F2|]. intros x Hx. cbv beta in Hx |- *. rewrite Hw in Hx. by destruct (sep x); [rewrite andb_false_r in Hx|]. }
  assert (w <> []) as Nw.
  { intros ->. cbn [app] in Er. subst r2. destruct R2 as [R2 _]. rewrite Hw, Sc in R2. by rewrite (proj2 (Z.eqb_neq c 0) Nc) in R2. }
  pose proof (zlen_nonneg w). rewrite zget_drop, E2 by lia. assert (0 ∉ w /\ 0 ∉ r2) as [Nw0 Nr2] by set_solver.
  assert (drop (Z.to_nat st) buf = w ++ r2 ++ 0 :: t) as E1' by (by rewrite E1, app_comm_cons, Er, <- app_assoc).
  destruct r2 as [|x r2]; cbn [app].
  - exists w, []. split; [lia|]. split; [done|]. rewrite app_nil_r, words_one by done. split; [done|]. split; [split; [lia|]; split; [done|]; by exists t|].
    split; [lia|]. split; [done|]. split; [done|]. split; [rewrite !length_app; destruct w; [done|]; simpl; lia|]. split; [done|]. by left.
  - destruct R2 as [Rx Nx]. assert (sep x = true) as Sx by (rewrite Hw, (proj2 (Z.eqb_neq x 0) Nx) in Rx; by destruct (sep x)).
    rewrite (proj2 (Z.eqb_neq x 0) Nx). exists w, r2. split; [lia|]. split; [done|]. split; [by apply words_cons|].
    assert (drop (Z.to_nat st) (zset buf (st + zlen w) 0) = w ++ 0 :: r2 ++ 0 :: t) as Ez.
    { unfold zset. destruct (Z.ltb_spec (st + zlen w) 0); [lia|]. rewrite drop_insert_ge by lia. rewrite E1'.
      rewrite insert_app_r_alt by (unfold zlen in *; lia). replace (Z.to_nat (st + zlen w) - Z.to_nat st - length w)%nat with 0%nat by (unfold zlen in *; lia). done. }
    split; [split; [lia|]; split; [done|]; by eexists|]. split; [lia|]. split; [|split; [set_solver|]; split; [rewrite !length_app; simpl; lia|]; split; [by rewrite zlen_zset|by right]].
    rewrite <- (drop_more (zset buf (st + zlen w) 0) (w ++ [0]) (r2 ++ 0 :: t) st); [rewrite zlen_app; f_equal; change (zlen [0]) with 1; lia|lia|]. by rewrite Ez, <- app_assoc.
Qed.

(** ** Path names *)

Definition dot : list Z := [46].
Definition dotdot : list Z := [46; 46].

(** The names of a path followed from the directory [ns], as in [normalize_path]. *)
Fixpoint canon (ws ns : list (list Z)) : option (list (list Z)) :=
  match ws with
  | [] => Some ns
  | w :: ws =>
    if decide (w = dot) then canon ws ns
    else if decide (w = dotdot) then canon ws (take (length ns - 1) ns)
    else if STACK_MAX <=? zlen ns then None
    else canon ws (ns ++ [w])
  end.

Definition path_of (ns : list (list Z)) : list Z :=
  match ns with [] => [47] | _ => concat ((fun w => 47 :: w) <$> ns) end.

Definition names_of (p : list Z) : list (list Z) := words is_slash p [].

(** A name that stands for itself. *)
Definition plain (w : list Z) : Prop := w <> [] /\ 0 ∉ w /\ 47 ∉ w /\ w <> dot /\ w <> dotdot.

Lemma strcmp_eq s t l t' : 0 ∉ s -> 0 ∉ l -> (strcmp (s ++ 0 :: t) (l ++ 0 :: t') =? 0) = bool_decide (s = l).
Proof.
  revert l. induction s as [|c s IH]; intros [|d l] Hs Hl; cbn [app strcmp]; [done|..].
  - cbn [Z.eqb negb andb]. rewrite bool_decide_false by done. apply Z.eqb_neq. assert (d <> 0) by (intros ->; set_solver). lia.
  - rewrite bool_decide_false by done. destruct (Z.eqb_spec c 0) as [->|?]; [set_solver|]. cbn [negb andb].
    apply Z.eqb_neq. lia.
  - destruct (Z.eqb_spec c 0) as [->|?]; [set_solver|]. cbn [negb andb]. destruct (Z.eqb_spec c d) as [->|Hne].
    + rewrite IH by set_solver. apply bool_decide_ext. split; [by intros ->|by intros [= ->]].
    + rewrite bool_decide_false by (intros [= ? _]; done). apply Z.eqb_neq. lia.
Qed.

(** Whether two strings are equal depends on the strings only. *)
Lemma strcmp_cstr a b : 0 ∈ a -> 0 ∈ b -> (strcmp a b =? 0) = bool_decide (cstr a = cstr b).
Proof.
  intros Za Zb. destruct (cstr_split a Za) as [t Et]. destruct (cstr_split b Zb) as [t' Et']. rewrite Et, Et' at 1. apply strcmp_eq; apply cstr_no_nul.
Qed.

(** The stack holds the starts of the names [ns], which end at [p] or before. *)
Definition stack_at (buf : list Z) (p : Z) (stack : list Z) (ns : list (list Z)) : Prop :=
  Forall2 (fun st w => str_at buf st w /\ st + zlen w <= p) stack ns.

Lemma stack_at_step buf p st (w : list Z) p' buf' stack ns : stack_at buf p stack ns -> p <= st -> w <> [] -> st + zlen w <= p' ->
  (buf' = buf \/ buf' = zset buf (st + zlen w) 0) -> stack_at buf' p' stack ns.
Proof.
  intros F Hp Hw Hp' Hb. assert (0 < zlen w) as Lw by (destruct w; [done|rewrite zlen_cons; pose proof (zlen_nonneg w); lia]).
  eapply Forall2_impl; [exact F|]. intros s0 w0 [K1 K2]. split; [|lia]. destruct Hb as [-> | ->]; [done|]. apply str_at_zset; [done|lia].
Qed.

Lemma in_name_sep c : in_name c = negb (c =? 0) && negb (is_slash c).
Proof. done. Qed.

Lemma norm_loop_spec fuel buf p s t stack ns : 0 <= p -> drop (Z.to_nat p) buf = s ++ 0 :: t -> 0 ∉ s -> (length s < fuel)%nat -> stack_at buf p stack ns ->
  exists r, norm_loop fuel buf p stack = Some r /\
    match canon (names_of s) ns with
    | None => r = None
    | Some ns' => exists stack' buf' p', r = Some (stack', buf') /\ stack_at buf' p' stack' ns' /\ zlen buf' = zlen buf
    end.
Proof.
  revert buf p s stack ns. induction fuel as [|fuel IH]; intros buf p s stack ns Hp E Hs Hf Hst; [lia|]. cbn [norm_loop]. rewrite zget_drop, E by done.
  destruct (decide (s = [])) as [->|Hne].
  { cbn. eexists. split; [done|]. by exists stack, buf, p. }
  assert ((match s ++ 0 :: t with c :: _ => c | [] => 0 end =? 0) = false) as -> by (destruct s as [|c s]; [done|]; cbn; apply Z.eqb_neq; set_solver).
  pose proof (cut_word_spec is_slash in_name buf p s t in_name_sep eq_refl Hp E Hs) as C. destruct (cut is_slash in_name buf p) as [[[st p'] buf']|].
  2: { unfold names_of. rewrite C. eexists. split; [done|]. by exists stack, buf, p. }
  destruct C as (w & s' & H1 & Hw & Ew & Sw & H2 & E' & Hs' & Hl & Lb & Hb). unfold names_of. rewrite Ew. cbn [canon]. fold (names_of s').
  pose proof (stack_at_step buf p st w p' buf' stack ns Hst H1 Hw H2 Hb) as Hst'. pose proof (zlen_nonneg w).
  destruct Sw as (S0 & Sn & u & Eu). rewrite Eu. change DOT_STR with (dot ++ [0]). change DOTDOT_STR with (dotdot ++ [0]). rewrite !strcmp_eq by (done || (unfold dot, dotdot; set_solver)).
  assert (forall stack2 ns2, stack_at buf' p' stack2 ns2 -> exists r, norm_loop fuel buf' p' stack2 = Some r /\
    match canon (names_of s') ns2 with
    | None => r = None
    | Some ns' => exists stack' buf'' p'', r = Some (stack', buf'') /\ stack_at buf'' p'' stack' ns' /\ zlen buf'' = zlen buf
    end) as K.
  { intros stack2 ns2 H2'. destruct (IH buf' p' s' stack2 ns2 ltac:(lia) E' Hs' ltac:(lia) H2') as (r & Er & Kr). exists r. by rewrite Lb in Kr. }
  pose proof (Forall2_length _ _ _ Hst) as Ll. case_decide as D1; [rewrite bool_decide_true by done; by apply K|]. rewrite bool_decide_false by done.
  case_decide as D2; [rewrite bool_decide_true by done; apply K; rewrite Ll; by apply Forall2_take|]. rewrite bool_decide_false by done.
  assert (zlen stack = zlen ns) as -> by (unfold zlen; by rewrite Ll). destruct (STACK_MAX <=? zlen ns); [by exists None|]. apply K. apply Forall2_app; [done|]. repeat constructor; [done|done|by exists u|done].
Qed.

(** ** Writing the path *)

Lemma copy_mid (pre old rest a w b : list Z) : zlen old = zlen w ->
  copy_loop (pre ++ old ++ rest) (zlen pre) (a ++ w ++ b) (zlen a) (zlen w) = pre ++ w ++ rest.
Proof.
  intros L. pose proof (zlen_nonneg pre). pose proof (zlen_nonneg w). pose proof (zlen_nonneg rest). pose proof (zlen_nonneg a).
  apply (list_eq_zget 0); rewrite zlen_copy_loop by (rewrite ?zlen_app; lia); [rewrite !zlen_app; lia|]. rewrite !zlen_app. intros j Hj.
  rewrite zget_copy_loop by (rewrite ?zlen_app; lia). unfold zget, zlen in *.
  destruct (Z.leb_spec (Z.of_nat (length pre)) j); cbn [andb]; [destruct (Z.ltb_spec j (Z.of_nat (length pre) + Z.of_nat (length w)))|].
  - rewrite (app_nth2 pre), (app_nth2 a) by lia. rewrite !app_nth1 by lia. f_equal. lia.
  - rewrite !(app_nth2 pre) by lia. rewrite !app_nth2 by lia. f_equal. lia.
  - by rewrite !app_nth1 by lia.
Qed.

(** A string copied with its NUL behind the first [zlen pre] bytes. *)
Lemma copy_str_end buf (pre rest s t : list Z) : buf = pre ++ rest -> zlen s + 1 <= zlen rest ->
  exists t', copy_loop buf (zlen pre) (s ++ 0 :: t) 0 (zlen s + 1) = pre ++ s ++ 0 :: t'.
Proof.
  intros -> L. exists (drop (length s + 1) rest). rewrite <- (take_drop (length s + 1) rest) at 1.
  pose proof (copy_mid pre (take (length s + 1) rest) (drop (length s + 1) rest) [] (s ++ [0]) t) as C. rewrite zlen_app in C. change (zlen [0]) with 1 in C.
  rewrite <- !app_assoc in C. cbn [app] in C. apply C. unfold zlen in *. rewrite length_take. lia.
Qed.

Definition trail (ns : list (list Z)) : list Z := concat ((fun w => w ++ [47]) <$> ns).

Lemma path_trail ns : ns <> [] -> 47 :: trail ns = path_of ns ++ [47].
Proof.
  intros Hn. assert (47 :: trail ns = concat ((fun w => 47 :: w) <$> ns) ++ [47]) as ->; [|by destruct ns].
  clear Hn. unfold trail. induction ns as [|w ns IH]; [done|]. cbn [fmap list_fmap concat]. rewrite <- !app_assoc. cbn [app]. by rewrite <- IH.
Qed.

(** When the names fit in [cap] bytes behind the first [o]. *)
Definition fits (cap o : Z) (ns : list (list Z)) : bool := bool_decide (ns = []) || (o + zlen (trail ns) <? cap).

Lemma join_loop_spec buf p stack ns : forall outv cap o pre rest, stack_at buf p stack ns -> outv = pre ++ rest -> zlen pre = o -> zlen outv = cap ->
  exists b o' outv', join_loop buf outv cap o stack = (b, o', outv') /\ zlen outv' = cap /\
    if fits cap o ns then b = true /\ o' = o + zlen (trail ns) /\ exists rest', outv' = pre ++ trail ns ++ rest' else b = false.
Proof.
  revert ns. induction stack as [|st stack IH]; intros ns outv cap o pre rest Hst Eo Lp Lo; inversion Hst as [|? w ? ns' [Sw _] Hst']; subst ns; cbn [join_loop].
  { exists true, o, outv. split; [done|]. split; [done|]. change (trail []) with (@nil Z). cbn [fits]. split; [done|]. change (zlen (@nil Z)) with 0. split; [lia|]. by exists rest. }
  subst. rewrite strlen_cstr, (str_at_cstr _ _ _ Sw). destruct Sw as (S0 & _ & t & Et). pose proof (zlen_nonneg pre). pose proof (zlen_nonneg w).
  assert (trail (w :: ns') = w ++ [47] ++ trail ns') as Ew by (unfold trail; cbn [fmap list_fmap concat]; by rewrite <- app_assoc).
  assert (zlen (trail (w :: ns')) = zlen w + 1 + zlen (trail ns')) as Lw by (rewrite Ew, !zlen_app; change (zlen [47]) with 1; lia). pose proof (zlen_nonneg (trail ns')).
  assert (fits (zlen (pre ++ rest)) (zlen pre) (w :: ns') = (zlen pre + zlen w + 1 <? zlen (pre ++ rest)) && fits (zlen (pre ++ rest)) (zlen pre + zlen w + 1) ns') as ->.
  { unfold fits. rewrite bool_decide_false by done. cbn [orb]. rewrite Lw. case_bool_decide as Hn.
    - subst ns'. change (zlen (trail [])) with 0. cbn [orb]. rewrite andb_true_r. f_equal. lia.
    - cbn [orb]. destruct (Z.ltb_spec (zlen pre + zlen w + 1) (zlen (pre ++ rest))); cbn [andb]; [f_equal; lia|]. apply Z.ltb_ge. lia. }
  destruct (Z.leb_spec (zlen (pre ++ rest)) (zlen pre + zlen w + 1)) as [Hc|Hc].
  { rewrite (proj2 (Z.ltb_ge _ _)) by lia. cbn [andb]. eexists _, _, _. done. }
  rewrite (proj2 (Z.ltb_lt _ _)) by lia. cbn [andb]. rewrite zlen_app in Hc.
  assert (exists old x r, rest = old ++ x :: r /\ zlen old = zlen w) as (old & x & r & -> & Lold).
  { exists (take (length w) rest). destruct (drop (length w) rest) as [|x r] eqn:Ed.
    - apply (f_equal length) in Ed. rewrite length_drop in Ed. unfold zlen in *. simpl in Ed. lia.
    - exists x, r. rewrite <- Ed, take_drop. split; [done|]. unfold zlen in *. rewrite length_take. lia. }
  assert (copy_loop (pre ++ old ++ x :: r) (zlen pre) buf st (zlen w) = pre ++ w ++ x :: r) as ->.
  { rewrite <- (take_drop (Z.to_nat st) buf), Et at 1. assert (st = zlen (take (Z.to_nat st) buf)) as Es.
    { unfold zlen. rewrite length_take. assert (Z.to_nat st < length buf)%nat; [|lia]. apply (f_equal length) in Et. rewrite length_drop, length_app in Et. simpl in Et. lia. }
    rewrite Es at 2. by apply copy_mid. }
  assert (zset (pre ++ w ++ x :: r) (zlen pre + zlen w) 47 = (pre ++ w ++ [47]) ++ r) as ->.
  { rewrite app_assoc. rewrite <- zlen_app, zset_mid. by rewrite <- !app_assoc. }
  destruct (IH ns' ((pre ++ w ++ [47]) ++ r) (zlen (pre ++ old ++ x :: r)) (zlen pre + zlen w + 1) (pre ++ w ++ [47]) r Hst' eq_refl) as (b & o' & outv' & Ej & Lv & K).
  { rewrite !zlen_app. change (zlen [47]) with 1. lia. } { rewrite !zlen_app, !zlen_cons. change (zlen (@nil Z)) with 0. lia. }
  exists b, o', outv'. split; [exact Ej|]. split; [done|]. destruct (fits _ _ ns'); [|done]. destruct K as (-> & -> & rest' & ->). split; [done|].
  split; [lia|]. exists rest'. rewrite Ew. by rewrite <- !app_assoc.
Qed.

(** ** [normalize_path] *)

Lemma words_nul sep s : 0 ∉ s -> Forall (fun w => 0 ∉ w) (words sep s []).
Proof. intros Hs. apply Forall_forall. intros w Hw Hz. destruct (words_clean sep s [] w Hw (Forall_nil_2 _)) as (_ & _ & K). destruct (K 0 Hz) as [?|?]; [done|by apply not_elem_of_nil in H]. Qed.

Lemma names_plain s w : 0 ∉ s -> w ∈ names_of s -> w <> [] /\ 0 ∉ w /\ 47 ∉ w.
Proof.
  intros Hs Hw. destruct (words_clean is_slash s [] w Hw (Forall_nil_2 _)) as (H1 & H2 & _). split; [done|]. split; [by eapply (proj1 (Forall_forall _ _) (words_nul is_slash s Hs))|].
  intros K. by apply (proj1 (Forall_forall _ _) H2) in K.
Qed.

Lemma canon_plain ws ns ns' : canon ws ns = Some ns' -> Forall (fun w => w <> [] /\ 0 ∉ w /\ 47 ∉ w) ws -> Forall plain ns -> zlen ns <= STACK_MAX ->
  Forall plain ns' /\ zlen ns' <= STACK_MAX.
Proof.
  revert ns. induction ws as [|w ws IH]; intros ns E Fw Fn Hn; cbn [canon] in E; [by injection E as <-|]. apply Forall_cons in Fw as [(W1 & W2 & W3) Fw].
  case_decide; [by eapply IH|]. case_decide; [eapply IH; [done|done|by apply Forall_take|unfold zlen in *; rewrite length_take; lia]|].
  destruct (Z.leb_spec STACK_MAX (zlen ns)); [done|]. eapply IH; [done|done| |rewrite zlen_app; change (zlen [w]) with 1; lia].
  apply Forall_app. split; [done|]. repeat constructor; done.
Qed.

Lemma path_no_nul ns : Forall plain ns -> 0 ∉ path_of ns.
Proof.
  intros F. assert (0 ∉ concat ((fun w => 47 :: w) <$> ns)) as K; [|destruct ns; [cbn; set_solver|done]].
  induction F as [|w ns (_ & Hw & _) _ IH]; [set_solver|]. cbn [fmap list_fmap concat]. set_solver.
Qed.

Lemma normalize_spec buf inp outv cap : zlen buf = 512 -> zlen outv = cap -> 0 ∈ inp ->
  exists r buf' outv', normalize_path buf inp outv cap = Some (r, buf', outv') /\ zlen buf' = 512 /\ zlen outv' = cap /\
    match (if zlen (cstr inp) <? 512 then canon (names_of (cstr inp)) [] else None) with
    | Some ns => if (2 <=? cap) && fits cap 1 ns then r = 0 /\ cstr outv' = path_of ns /\ 0 ∈ outv' else r = -1
    | None => r = -1
    end.
Proof.
  intros Lb Lo Hz. unfold normalize_path, PATH_MAX_. rewrite strlen_cstr. destruct (cstr_split inp Hz) as [t Et]. pose proof (cstr_no_nul inp) as Nz.
  pose proof (zlen_nonneg (cstr inp)). set (s := cstr inp) in *. destruct (Z.leb_spec (256 * 2) (zlen s)) as [Hl|Hl].
  { rewrite (proj2 (Z.ltb_ge _ 512)) by lia. eexists _, _, _. done. }
  rewrite (proj2 (Z.ltb_lt _ 512)) by lia.
  assert (exists t', copy_loop buf 0 inp 0 (zlen s + 1) = s ++ 0 :: t') as [t' Ec].
  { rewrite Et. apply (copy_str_end buf [] buf); [done|lia]. }
  assert (zlen (copy_loop buf 0 inp 0 (zlen s + 1)) = 512) as Lc by (rewrite zlen_copy_loop; lia). rewrite Ec in *.
  destruct (norm_loop_spec (S (Z.to_nat (zlen s))) (s ++ 0 :: t') 0 s t' [] []) as (r & -> & K); [lia|done|done|unfold zlen; lia|by constructor|]. cbn [mbind option_bind].
  destruct (canon (names_of s) []) as [ns|] eqn:En; [|subst r; eexists _, _, _; done]. destruct K as (stack & buf' & p & -> & Hst & Lb').
  destruct (Z.ltb_spec cap 2) as [Hcap|Hcap].
  { rewrite (proj2 (Z.leb_gt 2 cap)) by lia. cbn [andb]. eexists _, _, _. split; [done|]. split; [lia|done]. }
  rewrite (proj2 (Z.leb_le 2 cap)) by lia. cbn [andb]. destruct outv as [|x outv]; [unfold zlen in Lo; simpl in Lo; lia|]. rewrite zlen_cons in Lo.
  change (zset (x :: outv) 0 47) with ([47] ++ outv).
  destruct (join_loop_spec buf' p stack ns ([47] ++ outv) cap 1 [47] outv Hst eq_refl eq_refl) as (b & o & outv' & -> & Lv & J); [rewrite zlen_app; done|].
  destruct (fits cap 1 ns) eqn:Ef; [|subst b; eexists _, _, _; split; [done|]; split; [lia|done]]. destruct J as (-> & -> & rest & ->). cbn [negb].
  eexists 0, buf', _. split; [done|]. split; [lia|]. rewrite zlen_zset. split; [done|]. split; [done|].
  assert (exists y rest', ([47] ++ trail ns ++ rest) = path_of ns ++ y :: rest' /\ (if 1 <? 1 + zlen (trail ns) then 1 + zlen (trail ns) - 1 else 1 + zlen (trail ns)) = zlen (path_of ns)) as (y & rest' & Ey & ->).
  { destruct (decide (ns = [])) as [->|Hn].
    - destruct rest as [|y rest]; [unfold zlen in Lv; simpl in Lv; lia|]. by exists y, rest.
    - exists 47, rest. pose proof (path_trail ns Hn) as P. split; [cbn [app]; rewrite app_comm_cons, P, <- app_assoc; done|].
      assert (zlen (47 :: trail ns) = zlen (path_of ns) + 1) as L by (rewrite P, zlen_app; done). rewrite zlen_cons in L.
      assert (0 < zlen (trail ns)) by (destruct ns as [|w ns]; [done|]; unfold trail; cbn [fmap list_fmap concat]; rewrite !zlen_app; change (zlen [47]) with 1; pose proof (zlen_nonneg w); pose proof (zlen_nonneg (concat ((fun w => w ++ [47]) <$> ns))); lia).
      rewrite (proj2 (Z.ltb_lt _ _)) by lia. lia. }
  rewrite Ey, zset_mid. split; [|set_solver]. apply cstr_app.
  destruct (canon_plain _ _ _ En) as [Fp _]; [apply Forall_forall; intros w; by apply names_plain|constructor|done|].
  by apply path_no_nul.
Qed.

(** ** [resolve_path] *)

Lemma copy_str_app s t : forall pre rest, 0 ∉ s -> (length s < length rest)%nat ->
  copy_str (pre ++ rest) (zlen pre) (s ++ 0 :: t) = pre ++ s ++ 0 :: drop (S (length s)) rest.
Proof.
  induction s as [|c s IH]; intros pre [|x rest] Hs Hl; simpl in Hl; try lia; cbn [app copy_str].
  - change (0 =? 0) with true. cbv iota. by rewrite zset_mid.
  - destruct (Z.eqb_spec c 0) as [->|?]; [set_solver|]. rewrite zset_mid. change (pre ++ c :: rest) with (pre ++ [c] ++ rest). rewrite app_assoc.
    replace (zlen pre + 1) with (zlen (pre ++ [c])) by (rewrite zlen_app; done). rewrite IH by (set_solver || lia). by rewrite <- app_assoc.
Qed.

Lemma strcpy_app dst s t : 0 ∉ s -> zlen s < zlen dst -> strcpy dst (s ++ 0 :: t) = s ++ 0 :: drop (S (length s)) dst.
Proof. intros Hs Hl. apply (copy_str_app s t [] dst Hs). unfold zlen in Hl. lia. Qed.

Lemma canon_app ws ns : Forall plain ws -> zlen ns + zlen ws <= STACK_MAX -> forall vs, canon (ws ++ vs) ns = canon vs (ns ++ ws).
Proof.
  revert ns. induction ws as [|w ws IH]; intros ns F Hl vs; [by rewrite app_nil_r|]. apply Forall_cons in F as [(W1 & W2 & W3 & W4 & W5) F]. cbn [app canon].
  rewrite !decide_False by done. rewrite zlen_cons in Hl. pose proof (zlen_nonneg ws). destruct (Z.leb_spec STACK_MAX (zlen ns)); [lia|].
  rewrite IH; [by rewrite <- app_assoc|done|rewrite zlen_app; change (zlen [w]) with 1; lia].
Qed.

Lemma plain_sep w : plain w -> Forall (fun c => is_slash c = false) w.
Proof. intros (_ & _ & H & _). apply Forall_forall. intros c Hc. apply Z.eqb_neq. by intros ->. Qed.

Lemma words_slash s : words is_slash (47 :: s) [] = words is_slash s [].
Proof. done. Qed.

Lemma names_path ns s : Forall plain ns -> names_of (concat ((fun w => 47 :: w) <$> ns) ++ 47 :: s) = ns ++ names_of s.
Proof.
  unfold names_of. induction 1 as [|w ns Hw _ IH]; [apply words_slash|].
  cbn [fmap list_fmap concat app]. rewrite <- app_assoc, words_slash, <- IH.
  destruct (concat _ ++ 47 :: s) as [|c l] eqn:E; [by destruct (concat _)|].
  assert (c = 47) as -> by (destruct ns; cbn in E; congruence). by rewrite words_cons, words_slash by (by apply plain_sep || apply Hw || done).
Qed.

Lemma path_last ns : ns <> [] -> Forall plain ns -> exists x c, path_of ns = x ++ [c] /\ c <> 47.
Proof.
  intros Hn F. destruct ns as [|w ns] using rev_ind; [done|]. clear IHns Hn. apply Forall_app in F as [_ [(W1 & _ & W3 & _) _]%Forall_cons].
  assert (path_of (ns ++ [w]) = concat ((fun w => 47 :: w) <$> ns) ++ 47 :: w) as ->.
  { unfold path_of. destruct (ns ++ [w]) eqn:E; [by destruct ns|]. rewrite <- E, fmap_app, concat_app. cbn [fmap list_fmap concat]. by rewrite app_nil_r. }
  destruct w as [|c w _] using rev_ind; [done|]. exists (concat ((fun w => 47 :: w) <$> ns) ++ 47 :: w), c. rewrite <- app_assoc. split; [done|]. set_solver.
Qed.

(** The path [rel] seen from the directory [ns]: its names, or [None] when it is too long or too deep. *)
Definition resolved_names (ns : list (list Z)) (rel : list Z) : option (list (list Z)) :=
  if match rel with c :: _ => c =? 47 | [] => false end then
    if zlen rel <? 512 then canon (names_of rel) [] else None
  else if zlen (path_of ns) + 1 + zlen rel <? 512 then canon (names_of rel) ns else None.

Lemma resolve_spec buf tmp cwd rel outv cap ns : zlen buf = 512 -> zlen tmp = 512 -> zlen outv = cap -> 2 <= cap -> 0 ∈ rel ->
  0 ∈ cwd -> cstr cwd = path_of ns -> Forall plain ns -> zlen ns <= STACK_MAX ->
  exists r buf' outv', resolve_path buf tmp cwd rel outv cap = Some (r, buf', outv') /\ zlen buf' = 512 /\ zlen outv' = cap /\
    match resolved_names ns (cstr rel) with
    | Some ns' => if fits cap 1 ns' then r = 0 /\ cstr outv' = path_of ns' /\ 0 ∈ outv' else r = -1
    | None => r = -1
    end.
Proof.
  intros Lb Lt Lo Hc Zr Zc Ec Fn Hn. unfold resolve_path, resolved_names, PATH_MAX_. rewrite !strlen_cstr, Ec.
  destruct (cstr_split rel Zr) as [t Et]. pose proof (cstr_no_nul rel) as Nr. destruct (cstr_split cwd Zc) as [t2 Et2]. rewrite Ec in Et2.
  assert (zget 0 rel 0 =? 47 = match cstr rel with c :: _ => c =? 47 | [] => false end) as E0 by (rewrite Et at 1; by destruct (cstr rel)).
  rewrite E0. set (s := cstr rel) in *. pose proof (zlen_nonneg s). pose proof (zlen_nonneg (path_of ns)).
  assert (forall m x, 0 ∉ m -> zlen m < 512 -> exists r buf' outv', normalize_path buf (m ++ 0 :: x) outv cap = Some (r, buf', outv') /\ zlen buf' = 512 /\ zlen outv' = cap /\
    match canon (names_of m) [] with
    | Some ns' => if fits cap 1 ns' then r = 0 /\ cstr outv' = path_of ns' /\ 0 ∈ outv' else r = -1
    | None => r = -1 end) as N.
  { intros m x Hm Lm. destruct (normalize_spec buf (m ++ 0 :: x) outv cap Lb Lo ltac:(set_solver)) as (r & buf' & outv' & En & L1 & L2 & K). exists r, buf', outv'.
    rewrite cstr_app, (proj2 (Z.ltb_lt _ _) Lm), (proj2 (Z.leb_le 2 cap) Hc) in K by done. done. }
  destruct (match s with c :: _ => c =? 47 | [] => false end) eqn:Ea.
  - destruct (Z.leb_spec (256 * 2) (zlen s)); [rewrite (proj2 (Z.ltb_ge _ _)) by lia; by eexists _, _, _|]. rewrite (proj2 (Z.ltb_lt _ _)) by lia.
    rewrite Et, strcpy_app by (done || lia). apply N; [done|lia].
  - destruct (Z.leb_spec (256 * 2) (zlen (path_of ns) + 1 + zlen s)); [rewrite (proj2 (Z.ltb_ge _ _)) by lia; by eexists _, _, _|].
    rewrite (proj2 (Z.ltb_lt _ _)) by lia. set (c := zlen (path_of ns)) in *.
    assert (copy_loop tmp 0 cwd 0 c = path_of ns ++ drop (Z.to_nat c) tmp) as ->.
    { rewrite Et2. rewrite <- (take_drop (Z.to_nat c) tmp) at 1. apply (copy_mid [] (take (Z.to_nat c) tmp) _ [] (path_of ns) (0 :: t2)).
      unfold zlen in *. rewrite length_take. lia. }
    set (base := concat ((fun w => 47 :: w) <$> ns)).
    assert (exists rest, (if (c =? 0) || negb (zget 0 (path_of ns ++ drop (Z.to_nat c) tmp) (c - 1) =? 47) then (zset (path_of ns ++ drop (Z.to_nat c) tmp) c 47, c + 1) else (path_of ns ++ drop (Z.to_nat c) tmp, c))
      = ((base ++ [47]) ++ rest, zlen (base ++ [47])) /\ zlen s + 1 <= zlen rest) as (rest & -> & Lr).
    { assert (zlen (drop (Z.to_nat c) tmp) = 512 - c) as Ld by (unfold zlen in *; rewrite length_drop; lia). destruct (decide (ns = [])) as [->|Hne].
      - exists (drop 1 tmp). split; [done|]. change c with 1 in *. change (Z.to_nat 1) with 1%nat in Ld. lia.
      - destruct (path_last ns Hne Fn) as (x & d & Ex & Hd). assert (path_of ns = base) as Eb by (by destruct ns).
        assert (zget 0 (path_of ns ++ drop (Z.to_nat c) tmp) (c - 1) = d) as ->.
        { unfold c. rewrite Ex, <- app_assoc. replace (zlen (x ++ [d]) - 1) with (zlen x) by (rewrite zlen_app; change (zlen [d]) with 1; lia). apply zget_mid. }
        rewrite (proj2 (Z.eqb_neq d 47) Hd). cbn [negb]. rewrite orb_true_r. destruct (drop (Z.to_nat c) tmp) as [|y rest] eqn:Ed; [unfold zlen in Ld; simpl in Ld; lia|].
        exists rest. rewrite zlen_cons in Ld. split; [|lia]. unfold c. rewrite zset_mid, Eb, zlen_app. by rewrite <- app_assoc. }
    rewrite Et. destruct (copy_str_end ((base ++ [47]) ++ rest) (base ++ [47]) rest s t eq_refl Lr) as [t' ->].
    assert (names_of ((base ++ [47]) ++ s) = ns ++ names_of s) as En by (rewrite <- app_assoc; by apply names_path).
    assert (zlen ((base ++ [47]) ++ s) < 512) as Lm.
    { assert (zlen (base ++ [47]) <= c + 1); [|rewrite zlen_app; lia]. unfold c. rewrite zlen_app. change (zlen [47]) with 1. unfold path_of, base. destruct ns; [done|lia]. }
    destruct (N ((base ++ [47]) ++ s) t') as (r & buf' & outv' & Er & L1 & L2 & K); [|done|].
    { pose proof (path_no_nul ns Fn). unfold base. destruct ns; [set_solver|]. unfold path_of in *. set_solver. }
    exists r, buf', outv'. split; [by rewrite app_assoc|]. split; [done|]. split; [done|]. rewrite En, (canon_app ns []) in K by (done || (change (zlen (@nil (list Z))) with 0; lia)). done.
Qed.

(** ** The names the server sees *)

Lemma words_end sep s c cur : sep c = true -> words sep (s ++ [c]) cur = words sep s cur.
Proof.
  intros Hc. revert cur. induction s as [|x s IH]; intros cur; cbn [app words]; [by rewrite Hc; destruct cur|]. destruct (sep x); [|by rewrite IH]. destruct cur; by rewrite IH.
Qed.

Lemma names_canonical ns : Forall plain ns -> names_of (path_of ns) = ns.
Proof.
  intros F. destruct (decide (ns = [])) as [->|Hn]; [done|]. pose proof (names_path ns [] F) as E. unfold names_of in *.
  rewrite words_end in E by done. cbn [words] in E. rewrite app_nil_r in E. unfold path_of. by destruct ns.
Qed.

Lemma words_segments s cur : words is_slash s cur = filter (fun g => g <> []) (match segments s with g :: gs => (cur ++ g) :: gs | [] => [] end).
Proof.
  revert cur. induction s as [|c s IH]; intros cur; cbn [words segments].
  - rewrite app_nil_r. destruct cur; [done|]. by rewrite filter_cons_True.
  - unfold is_slash at 1. change SLASH with 47. destruct (c =? 47).
    + rewrite app_nil_r. rewrite IH. cbn [app]. destruct (segments s) as [|g gs] eqn:E; [by apply segments_nonnil in E|].
      destruct cur; [by rewrite (filter_cons_False _ []) by auto|]. by rewrite (filter_cons_True _ (z :: cur)).
    + rewrite IH. destruct (segments s) as [|g gs] eqn:E; [by apply segments_nonnil in E|]. by rewrite <- app_assoc.
Qed.

Lemma names_components p : components p = names_of (cstr p).
Proof. unfold components, names_of. rewrite words_segments. destruct (segments (cstr p)) eqn:E; [by apply segments_nonnil in E|done]. Qed.

Lemma resolved_plain ns rel ns' : resolved_names ns rel = Some ns' -> 0 ∉ rel -> Forall plain ns -> zlen ns <= STACK_MAX -> Forall plain ns' /\ zlen ns' <= STACK_MAX.
Proof.
  unfold resolved_names. intros E Hr Fn Hn. assert (Forall (fun w => w <> [] /\ 0 ∉ w /\ 47 ∉ w) (names_of rel)) as F by (apply Forall_forall; intros w; by apply names_plain).
  repeat case_match; try done; eapply canon_plain; (exact E || exact F || done || by constructor).
Qed.

Lemma resolved_again ns ns2 : Forall plain ns -> zlen ns <= STACK_MAX -> zlen (path_of ns) < 512 -> resolved_names ns2 (path_of ns) = Some ns.
Proof.
  intros F Hn Hl. unfold resolved_names. assert (match path_of ns with c :: _ => c =? 47 | [] => false end = true) as -> by (by destruct ns).
  rewrite (proj2 (Z.ltb_lt _ _) Hl), names_canonical by done. pose proof (canon_app ns [] F ltac:(done) []) as E. rewrite app_nil_r in E. by rewrite E.
Qed.

(** ** [tokenize] *)

Lemma in_word_sep c : in_word c = negb (c =? 0) && negb (is_blank c).
Proof. unfold in_word, is_blank. by rewrite negb_orb, andb_assoc. Qed.

Lemma tokenize_loop_spec max line p s t argv ws : 0 <= p -> drop (Z.to_nat p) line = s ++ 0 :: t -> 0 ∉ s -> stack_at line p argv ws ->
  exists argv' line' p', tokenize_loop max line p argv = (argv', line') /\ zlen line' = zlen line /\ stack_at line' p' argv' (ws ++ take max (words is_blank s [])).
Proof.
  revert line p s argv ws. induction max as [|max IH]; intros line p s argv ws Hp E Hs Hst; cbn [tokenize_loop]; [exists argv, line, p; by rewrite app_nil_r|].
  rewrite zget_drop, E by done. destruct (decide (s = [])) as [->|Hne]; [exists argv, line, p; by rewrite app_nil_r|].
  assert ((match s ++ 0 :: t with c :: _ => c | [] => 0 end =? 0) = false) as -> by (destruct s as [|c s]; [done|]; cbn; apply Z.eqb_neq; set_solver).
  pose proof (cut_word_spec is_blank in_word line p s t in_word_sep eq_refl Hp E Hs) as C. destruct (cut is_blank in_word line p) as [[[st p'] line']|].
  2: { rewrite C. exists argv, line, p. by rewrite app_nil_r. }
  destruct C as (w & s' & H1 & Hw & Ew & Sw & H2 & E' & Hs' & Hl & Lb & Hb). pose proof (zlen_nonneg w). rewrite Ew.
  pose proof (stack_at_step line p st w p' line' argv ws Hst H1 Hw H2 Hb) as Hst'.
  destruct (IH line' p' s' (argv ++ [st]) (ws ++ [w]) ltac:(lia) E' Hs') as (argv' & line2 & p2 & -> & L2 & K); [apply Forall2_app; [done|]; constructor; [by split|constructor]|].
  exists argv', line2, p2. split; [done|]. split; [lia|]. cbn [take]. by rewrite <- app_assoc in K.
Qed.

(** The strings the pointers of [argv] lead to. *)
Definition args_at (line argv : list Z) : list (list Z) := (fun st => cstr (drop (Z.to_nat st) line)) <$> argv.

Lemma stack_args line p argv ws : stack_at line p argv ws -> args_at line argv = ws.
Proof. induction 1 as [|st w argv ws [Sw _] _ IH]; [done|]. cbn [args_at fmap list_fmap]. f_equal; [by apply str_at_cstr|exact IH]. Qed.

(** ** Properties *)

(** C29: The shell's paths.  Seen from a working directory in normal form, a path
    becomes the names reached by following it ([.] stays, [..] goes up and stays
    at the root, empty names are skipped), written as one absolute path: it
    begins with a slash, has no empty, [.] or [..] names, and the server finds in
    it exactly these names.  The only failures are a path of 512 characters or
    more, more than 32 names, and a result that does not fit the caller's buffer;
    no byte outside the buffers is written.  Resolving the result again, from any
    directory, gives it back. *)
Theorem resolve_path_correct buf tmp cwd rel outv cap ns :
  zlen buf = 512 -> zlen tmp = 512 -> zlen outv = cap -> 2 <= cap <= 512 -> 0 ∈ rel ->
  0 ∈ cwd -> cstr cwd = path_of ns -> Forall plain ns -> zlen ns <= STACK_MAX ->
  exists r buf' outv', resolve_path buf tmp cwd rel outv cap = Some (r, buf', outv') /\ zlen buf' = 512 /\ zlen outv' = cap /\
    match resolved_names ns (cstr rel) with
    | Some ns' =>
      if fits cap 1 ns' then r = 0 /\ cstr outv' = path_of ns' /\ components outv' = ns' /\ Forall plain ns' /\ zlen ns' <= STACK_MAX /\
        forall ns2, resolved_names ns2 (cstr outv') = Some ns'
      else r = -1
    | None => r = -1
    end.
Proof.
  intros Lb Lt Lo Hc Zr Zc Ec Fn Hn. destruct (resolve_spec buf tmp cwd rel outv cap ns Lb Lt Lo ltac:(lia) Zr Zc Ec Fn Hn) as (r & buf' & outv' & E & L1 & L2 & K).
  exists r, buf', outv'. split; [done|]. split; [done|]. split; [done|]. destruct (resolved_names ns (cstr rel)) as [ns'|] eqn:En; [|done].
  destruct (resolved_plain _ _ _ En (cstr_no_nul rel) Fn Hn) as [F' Hn']. destruct (fits cap 1 ns') eqn:Ef; [|done]. destruct K as (-> & Ep & _).
  split; [done|]. split; [done|]. split; [by rewrite names_components, Ep, names_canonical|]. split; [done|]. split; [done|]. intros ns2. rewrite Ep. apply resolved_again; [done|done|].
  destruct (decide (ns' = [])) as [->|Hne]; [done|]. unfold fits in Ef. rewrite bool_decide_false in Ef by done. cbn [orb] in Ef. apply Z.ltb_lt in Ef.
  pose proof (f_equal zlen (path_trail ns' Hne)) as L. rewrite zlen_cons, zlen_app in L. change (zlen [47]) with 1 in L. lia.
Qed.

(** [tokenize] finds the first [max] maximal runs of characters other than
    blanks and tabs, in order: the pointers it stores lead, in the line as it
    leaves it, to exactly these strings. *)
Theorem tokenize_correct line max : 0 ∈ line -> 0 <= max ->
  exists argv line', tokenize line max = (argv, line') /\ zlen line' = zlen line /\
    args_at line' argv = take (Z.to_nat max) (words is_blank (cstr line) []).
Proof.
  intros Hz Hm. destruct (cstr_split line Hz) as [t Et].
  destruct (tokenize_loop_spec (Z.to_nat max) line 0 (cstr line) t [] []) as (argv & line' & p & E & L & K); [lia|done|apply cstr_no_nul|constructor|].
  exists argv, line'. split; [done|]. split; [done|]. by apply stack_args in K.
Qed.

(** ** Examples *)

(** From "/a/b" the path "../c/./d" is "/a/c/d". *)
Lemma resolve_path_correct_witness :
  exists buf' outv', resolve_path (replicate 512 170) (replicate 512 170) ([47; 97; 47; 98; 0; 0]) [46; 46; 47; 99; 47; 46; 47; 100; 0] (replicate 256 170) 256 = Some (0, buf', outv') /\
    cstr outv' = [47; 97; 47; 99; 47; 100] /\ components outv' = [[97]; [99]; [100]].
Proof.
  destruct (resolve_path_correct (replicate 512 170) (replicate 512 170) [47; 97; 47; 98; 0; 0] [46; 46; 47; 99; 47; 46; 47; 100; 0] (replicate 256 170) 256 [[97]; [98]])
    as (r & buf' & outv' & E & _ & _ & K); [reflexivity|reflexivity|reflexivity|lia|set_solver|set_solver|reflexivity| |by vm_compute|].
  { repeat constructor; (discriminate || set_solver). }
  change (r = 0 /\ cstr outv' = path_of [[97]; [99]; [100]] /\ components outv' = [[97]; [99]; [100]] /\ Forall plain [[97]; [99]; [100]] /\ zlen [[97]; [99]; [100]] <= STACK_MAX /\
    forall ns2, resolved_names ns2 (cstr outv') = Some [[97]; [99]; [100]]) in K.
  destruct K as (-> & Ep & Ec & _). exists buf', outv'. split; [exact E|]. split; [exact Ep|exact Ec].
Defined.

(** "ls  a b" with room for two words. *)
Lemma tokenize_correct_witness :
  exists argv line', tokenize [108; 115; 32; 9; 97; 32; 98; 0] 2 = (argv, line') /\ args_at line' argv = [[108; 115]; [97]].
Proof.
  destruct (tokenize_correct [108; 115; 32; 9; 97; 32; 98; 0] 2) as (argv & line' & E & _ & K); [set_solver|lia|]. exists argv, line'. split; [exact E|exact K].
Defined.
