(* ===== verification/Shell.v ===== *)
(** * The shell

    [userspace/shell/main.c]: the builtins, [dispatch], [run_line] and [main]
    over libc (console output, VFS client, environment, heap) and the paths and
    words of ShPath.  The state is the process's libc with its system, the
    environment with the heap, the working directory and the static buffer of
    [normalize_path]. *)
From S2P Require Import Prelude Bytes Errno Str Iface CMalloc Stdio Env Ramfs Vfs VfsServer Micro VfsClient ConClient Unistd ShPath.

Definition O_RDONLY : Z := 1.
Definition O_WRONLY : Z := 2.
Definition O_CREAT : Z := 256.
Definition O_TRUNC : Z := 1024.
Definition DISPATCH_QUIT : Z := -1.

(** [struct builtin]; the functions are named. *)
Inductive builtin_fn :=
  | Echo | Pwd | Cd | Ls | Cat | Mkdir | Touch | Rm | Rmdir | Ps | Run | Env | Printenv | Export | Unset | Help | Version.
Record builtin := MkBuiltin { b_name : string; b_help : string; b_fn : builtin_fn }.

Definition builtins : list builtin := [
  MkBuiltin "echo" "print arguments" Echo;
  MkBuiltin "pwd" "print working directory" Pwd;
  MkBuiltin "cd" "change directory" Cd;
  MkBuiltin "ls" "list directory contents" Ls;
  MkBuiltin "cat" "print file contents" Cat;
  MkBuiltin "mkdir" "create directory" Mkdir;
  MkBuiltin "touch" "create empty file" Touch;
  MkBuiltin "rm" "remove file" Rm;
  MkBuiltin "rmdir" "remove empty directory" Rmdir;
  MkBuiltin "ps" "list processes" Ps;
  MkBuiltin "run" "spawn an initrd program and wait" Run;
  MkBuiltin "env" "print all environment variables" Env;
  MkBuiltin "printenv" "print one environment variable" Printenv;
  MkBuiltin "export" "set an environment variable" Export;
  MkBuiltin "unset" "remove an environment variable" Unset;
  MkBuiltin "help" "list builtins, or 'help <name>'" Help;
  MkBuiltin "version" "print shell version" Version ]%string.

(** [for (i = 0; i < BUILTIN_COUNT; ++i) if (strcmp(builtins[i].name, name) == 0) ...] *)
Definition find_builtin (name : list Z) : option builtin :=
  List.find (fun b => strcmp (byte_list (b_name b) ++ [0]) name =? 0) builtins.

Record shell {W A : Type} := MkShell { sh_libc : libc W; sh_env : env A; cwd : list Z; norm_buf : list Z }.
Arguments shell W A : clear implicits.
Arguments MkShell {W A}.

Definition set_libc {W A} (u : libc W) (s : shell W A) : shell W A := MkShell u (sh_env s) (cwd s) (norm_buf s).
Definition set_env {W A} (e : env A) (s : shell W A) : shell W A := MkShell (sh_libc s) e (cwd s) (norm_buf s).
Definition set_cwd {W A} (c : list Z) (s : shell W A) : shell W A := MkShell (sh_libc s) (sh_env s) c (norm_buf s).
Definition set_buf {W A} (b : list Z) (s : shell W A) : shell W A := MkShell (sh_libc s) (sh_env s) (cwd s) b.

(** ** Programs *)

Definition sh (W A T : Type) : Type := shell W A -> option (T * shell W A).
Definition sret {W A T} (x : T) : sh W A T := fun s => Some (x, s).
Definition sbind {W A S T} (m : sh W A S) (k : S -> sh W A T) : sh W A T :=
  fun s => match m s with Some (x, s) => k x s | None => None end.
Definition sget {W A T} (f : shell W A -> T) : sh W A T := fun s => Some (f s, s).
Definition sset {W A} (f : shell W A -> shell W A) : sh W A () := fun s => Some ((), f s).
(** A libc function. *)
Definition lib {W A T} (m : user W T) : sh W A T := fun s => '(x, u) ← m (sh_libc s); Some (x, set_libc u s).
(** An access outside the program's objects, or a value libc has no model for, ends the run. *)
Definition known {W A T} (x : option T) : sh W A T := fun s => match x with Some x => Some (x, s) | None => None end.

Declare Scope sh_scope.
Delimit Scope sh_scope with sh.
Notation "'let!' x ':=' m 'in' k" := (sbind m (fun x => k)) (at level 200, x pattern, m at level 100, k at level 200) : sh_scope.
Notation "m '>>' k" := (sbind m (fun _ => k)) (at level 100, right associativity) : sh_scope.
Open Scope sh_scope.

Definition lit (s : string) : list Z := byte_list s ++ [0].
(** ... with a newline at its end. *)
Definition litn (s : string) : list Z := byte_list s ++ [10; 0].

Section shell.
Context {W A : Type} `{Sys W} `{UHeap A}.
(** What a local array of [n] bytes holds before it is written. *)
Context (uninit : Z -> list Z).
Notation sh := (sh W A).

(** The functions of env.c share [errno] with the rest of libc. *)
Definition with_env (f : env A -> option (Z * env A)) : sh Z := fun s =>
  '(r, e) ← f (set_errno_e (sh_env s) (errno (sh_libc s)));
  Some (r, set_libc (set_errno (eerrno e) (sh_libc s)) (set_env e s)).

(** ** Output *)

Definition out (s : list Z) : sh () := lib (Unistd.write Unistd.STDOUT_FILENO s (strlen s)) >> sret ().
Definition nl : sh () := lib (Unistd.write Unistd.STDOUT_FILENO [10] 1) >> sret ().
(** [out(strerror(errno)); nl();] *)
Definition out_errno : sh () := let! e := lib (uget errno) in out (strerror e) >> nl.
(** [out("cmd: "); out(p); out(": "); out(strerror(errno)); nl();] *)
Definition complain (cmd p : list Z) : sh () := out cmd >> out p >> out (lit ": ") >> out_errno.

(** [resolve_path] into a local array of 256 bytes. *)
Definition resolve (rel : list Z) : sh (Z * list Z) := fun s =>
  '(r, buf, p) ← resolve_path (norm_buf s) (uninit 512) (cwd s) rel (uninit 256) 256;
  Some ((r, p), set_buf buf s).

(** [if (resolve_path(rel, p, sizeof p) != 0) { out(msg); return 1; }] *)
Definition with_path (rel msg : list Z) (k : list Z -> sh Z) : sh Z :=
  let! (r, p) := resolve rel in if negb (r =? 0) then out msg >> sret 1 else k p.

Definition arg (argv : list (list Z)) (i : Z) : list Z := zget [0] argv i.

(** ** Builtins *)

Fixpoint echo_loop (first : bool) (words : list (list Z)) : sh () :=
  match words with
  | [] => sret ()
  | w :: words => (if first then sret () else out (lit " ")) >> out w >> echo_loop false words
  end.
Definition builtin_echo (argv : list (list Z)) : sh Z := echo_loop true (tail argv) >> nl >> sret 0.

Definition builtin_version : sh Z := out (litn "exshell 0.1, Phase 12.6") >> sret 0.

Definition builtin_pwd : sh Z := let! c := sget cwd in out c >> nl >> sret 0.

Definition builtin_cd (argv : list (list Z)) : sh Z :=
  if zlen argv <? 2 then let! c := sget cwd in sset (set_cwd (strcpy c (lit "/"))) >> sret 0
  else
    with_path (arg argv 1) (litn "cd: path too long") (fun p =>
      let! fd := lib (vfs_client_open p O_RDONLY 0) in
      if fd <? 0 then complain (lit "cd: ") p >> sret 1
      else
        lib (uset (set_errno 0)) >>
        let! (r, _) := lib (vfs_client_readdir fd 0 128) in
        let! e := lib (uget errno) in
        if negb (r =? 0) && negb (e =? ENOENT) then
          out (lit "cd: ") >> out p >> out (litn ": not a directory") >> lib (vfs_client_close fd) >> sret 1
        else
          lib (vfs_client_close fd) >> let! c := sget cwd in sset (set_cwd (strcpy c p)) >> sret 0).

(** The entries from index [i] on; [name] is the local array. *)
Fixpoint ls_loop (fuel : nat) (fd i : Z) (name : list Z) : sh Z :=
  match fuel with
  | O => fun _ => None
  | S fuel =>
    lib (uset (set_errno 0)) >>
    let! (r, b) := lib (vfs_client_readdir fd i 128) in
    let! e := lib (uget errno) in
    if negb (r =? 0) then
      if e =? ENOENT then lib (vfs_client_close fd) >> sret 0
      else out (litn "ls: readdir error") >> lib (vfs_client_close fd) >> sret 1
    else
      let name := copy_loop name 0 b 0 (zlen b) in
      out name >> nl >> ls_loop fuel fd (u32 (i + 1)) name
  end.
Definition builtin_ls (fuel : nat) (argv : list (list Z)) : sh Z :=
  with_path (if 2 <=? zlen argv then arg argv 1 else lit ".") (litn "ls: path too long") (fun p =>
    let! fd := lib (vfs_client_open p O_RDONLY 0) in
    if fd <? 0 then complain (lit "ls: ") p >> sret 1 else ls_loop fuel fd 0 (uninit 128)).

Fixpoint cat_loop (fuel : nat) (fd : Z) : sh Z :=
  match fuel with
  | O => fun _ => None
  | S fuel =>
    let! (n, b) := lib (vfs_client_read fd 512) in
    if n <? 0 then out (litn "cat: read error") >> lib (vfs_client_close fd) >> sret 1
    else if n =? 0 then lib (vfs_client_close fd) >> sret 0
    else
      let! k := lib (Unistd.write Unistd.STDOUT_FILENO b n) in
      if negb (k =? n) then lib (vfs_client_close fd) >> sret 1 else cat_loop fuel fd
  end.
Definition builtin_cat (fuel : nat) (argv : list (list Z)) : sh Z :=
  if zlen argv <? 2 then out (litn "cat: missing file") >> sret 1
  else
    with_path (arg argv 1) (litn "cat: path too long") (fun p =>
      let! fd := lib (vfs_client_open p O_RDONLY 0) in
      if fd <? 0 then complain (lit "cat: ") p >> sret 1 else cat_loop fuel fd).

(** [mkdir], [rmdir] and [rm] differ in the call and the messages. *)
Definition on_path (argv : list (list Z)) (missing long cmd : list Z) (call : list Z -> user W Z) : sh Z :=
  if zlen argv <? 2 then out missing >> sret 1
  else
    with_path (arg argv 1) long (fun p =>
      let! r := lib (call p) in
      if negb (r =? 0) then complain cmd p >> sret 1 else sret 0).
Definition builtin_mkdir (argv : list (list Z)) : sh Z :=
  on_path argv (litn "mkdir: missing path") (litn "mkdir: path too long") (lit "mkdir: ") (fun p => vfs_client_mkdir p 493).
Definition builtin_rmdir (argv : list (list Z)) : sh Z :=
  on_path argv (litn "rmdir: missing path") (litn "rmdir: path too long") (lit "rmdir: ") vfs_client_rmdir.
Definition builtin_rm (argv : list (list Z)) : sh Z :=
  on_path argv (litn "rm: missing path") (litn "rm: path too long") (lit "rm: ") vfs_client_unlink.

Definition builtin_touch (argv : list (list Z)) : sh Z :=
  if zlen argv <? 2 then out (litn "touch: missing file") >> sret 1
  else
    with_path (arg argv 1) (litn "touch: path too long") (fun p =>
      let! fd := lib (vfs_client_open p (Z.lor O_CREAT O_WRONLY) 420) in
      if fd <? 0 then complain (lit "touch: ") p >> sret 1 else lib (vfs_client_close fd) >> sret 0).

(** The records of [struct exyde_proc_info], 48 bytes each, from the [i]-th on. *)
Fixpoint ps_loop (n : nat) (info : list Z) (i : Z) : sh () :=
  match n with
  | O => sret ()
  | S n =>
    let strs a := if a =? 1 then (if get_le info (48 * i + 8) 4 =? 0 then lit "run" else lit "exit") else drop (Z.to_nat (48 * i + 16)) info in
    let! (line, _) := known (snprintf strs (uninit 96) 96 (litn "  %-4llu %-6s %s") [get_le info (48 * i) 8; 1; 2]) in
    out line >> ps_loop n info (i + 1)
  end.
Definition builtin_ps : sh Z :=
  let! (n, b) := lib (exyde_proc_list 64) in
  if n <? 0 then out (lit "ps: ") >> out_errno >> sret 1
  else out (litn "  PID  STATE  NAME") >> ps_loop (Z.to_nat n) (copy_loop (uninit 3072) 0 b 0 (zlen b)) 0 >> sret 0.

Fixpoint env_loop (mem : gmap Z (list Z)) (es : list Z) : sh () :=
  match es with
  | [] => fun _ => None
  | e :: es => if e =? 0 then sret () else let! v := known (mem !! e) in out v >> nl >> env_loop mem es
  end.
Definition builtin_env : sh Z :=
  let! e := sget sh_env in (if has_environ e then env_loop (smem e) (arr e) else sret ()) >> sret 0.

Definition builtin_printenv (argv : list (list Z)) : sh Z :=
  if zlen argv <? 2 then builtin_env
  else
    let! e := sget sh_env in
    let! v := known (getenv e (Some (arg argv 1))) in
    match v with None => sret 1 | Some v => out v >> nl >> sret 0 end.

Fixpoint export_loop (args : list (list Z)) : sh Z :=
  match args with
  | [] => sret 0
  | a :: args =>
    match strchr a 61 with
    | None =>
      let! e := sget sh_env in
      let! v := known (getenv e (Some a)) in
      match v with None => out (lit "export: ") >> out a >> out (litn ": not set") | Some _ => sret () end >> export_loop args
    | Some nlen =>
      if (nlen =? 0) || (128 <=? nlen) then out (litn "export: invalid name") >> sret 1
      else
        let name := zset (copy_loop (uninit 128) 0 a 0 nlen) nlen 0 in
        let! r := with_env (fun e => setenv e (Some name) (Some (drop (Z.to_nat (nlen + 1)) a)) true) in
        if negb (r =? 0) then complain (lit "export: ") name >> sret 1 else export_loop args
    end
  end.
Definition builtin_export (argv : list (list Z)) : sh Z :=
  if zlen argv <? 2 then out (litn "export: missing argument") >> sret 1 else export_loop (tail argv).

Fixpoint unset_loop (args : list (list Z)) : sh Z :=
  match args with
  | [] => sret 0
  | a :: args =>
    let! r := with_env (fun e => unsetenv e (Some a)) in
    if negb (r =? 0) then complain (lit "unset: ") a >> sret 1 else unset_loop args
  end.
Definition builtin_unset (argv : list (list Z)) : sh Z :=
  if zlen argv <? 2 then out (litn "unset: missing argument") >> sret 1 else unset_loop (tail argv).

(** The heap of the process is the one env.c allocates from. *)
Definition on_heap {T} (f : A -> T * A) : sh T := fun s =>
  let '(x, h) := f (Env.heap (sh_env s)) in Some (x, set_env (set_heap_e (sh_env s) h) s).
Definition free_buf (p : Z) : sh () := on_heap (fun h => ((), u_free p h)).

Definition RUN_CAP : Z := 64 * 1024.
Definition RUN_MAX : Z := 4 * 1024 * 1024.

(** The file read into the heap block [p] of [cap] bytes, which holds [buf]: the block and the
    file, or the status to return. *)
Fixpoint load_loop (fuel : nat) (fd p cap : Z) (buf : list Z) : sh (Z + Z * list Z) :=
  match fuel with
  | O => fun _ => None
  | S fuel =>
    let! grown :=
      (if zlen buf =? cap then
         if RUN_MAX <=? cap then free_buf p >> lib (vfs_client_close fd) >> out (litn "run: file too large") >> sret None
         else
           let! nb := on_heap (u_realloc p (cap * 2)) in
           if nb =? 0 then free_buf p >> lib (vfs_client_close fd) >> out (litn "run: out of memory") >> sret None
           else sret (Some (nb, cap * 2))
       else sret (Some (p, cap))) in
    match grown with
    | None => sret (inl 1)
    | Some (p, cap) =>
      let want := if 512 <? cap - zlen buf then 512 else cap - zlen buf in
      let! (n, b) := lib (vfs_client_read fd want) in
      if n <? 0 then free_buf p >> lib (vfs_client_close fd) >> out (lit "run: read: ") >> out_errno >> sret (inl 1)
      else if n =? 0 then sret (inr (p, buf))
      else load_loop fuel fd p cap (buf ++ b)
    end
  end.

Definition builtin_run (fuel : nat) (argv : list (list Z)) : sh Z :=
  if zlen argv <? 2 then out (litn "run: missing path") >> sret 1
  else
    with_path (arg argv 1) (litn "run: path too long") (fun p =>
      let! fd := lib (vfs_client_open p O_RDONLY 0) in
      if fd <? 0 then complain (lit "run: ") p >> sret 1
      else
        let! blk := on_heap (u_malloc RUN_CAP) in
        if blk =? 0 then lib (vfs_client_close fd) >> out (litn "run: out of memory") >> sret 1
        else
          let! r := load_loop fuel fd blk RUN_CAP [] in
          match r with
          | inl st => sret st
          | inr (blk, elf) =>
            lib (vfs_client_close fd) >>
            (if zlen elf =? 0 then free_buf blk >> out (litn "run: empty file") >> sret 1
             else
               let! h := lib (exyde_spawn_elf elf (zlen elf) (arg argv 1) EXYDE_HANDLE_INVALID) in
               free_buf blk >>
               (if h =? EXYDE_HANDLE_INVALID then out (lit "run: spawn failed: ") >> out_errno >> sret 1
                else
                  let! code := lib (exyde_wait h) in
                  lib (exyde_handle_close h) >>
                  (if negb (code =? 0) then
                     let! (lbuf, _) := known (snprintf (fun _ => arg argv 1) (uninit 64) 64 (litn "run: %s: exit %d") [1; u32 code]) in
                     out lbuf >> sret 1
                   else sret 0)))
          end).

Fixpoint help_loop (bs : list builtin) : sh () :=
  match bs with
  | [] => sret ()
  | b :: bs => out (lit "  ") >> out (lit (b_name b)) >> out (lit " - ") >> out (lit (b_help b)) >> nl >> help_loop bs
  end.
Definition builtin_help (argv : list (list Z)) : sh Z :=
  if 2 <=? zlen argv then
    match find_builtin (arg argv 1) with
    | None => out (arg argv 1) >> out (litn ": no such builtin") >> sret 1
    | Some b => out (lit (b_name b)) >> out (lit " - ") >> out (lit (b_help b)) >> nl >> sret 0
    end
  else
    out (litn "builtins:") >> help_loop builtins >>
    out (litn "  quit    exit the shell") >> out (litn "  exit    alias for quit") >>
    out (litn "  echo <text> > <file>   write text to file") >> sret 0.

(** [b->fn(argc, argv)] *)
Definition call_builtin (fuel : nat) (f : builtin_fn) (argv : list (list Z)) : sh Z :=
  match f with
  | Echo => builtin_echo argv
  | Pwd => builtin_pwd
  | Cd => builtin_cd argv
  | Ls => builtin_ls fuel argv
  | Cat => builtin_cat fuel argv
  | Mkdir => builtin_mkdir argv
  | Touch => builtin_touch argv
  | Rm => builtin_rm argv
  | Rmdir => builtin_rmdir argv
  | Ps => builtin_ps
  | Run => builtin_run fuel argv
  | Env => builtin_env
  | Printenv => builtin_printenv argv
  | Export => builtin_export argv
  | Unset => builtin_unset argv
  | Help => builtin_help argv
  | Version => builtin_version
  end.

(** ** Redirection *)

Definition write_failed (fd : Z) : sh Z := lib (vfs_client_close fd) >> out (litn "echo: write failed") >> sret 1.

(** [if (vfs_client_write(fd, b, n) != n) { ... return 1; }] around the rest. *)
Definition put (fd : Z) (b : list Z) (n : Z) (k : sh Z) : sh Z :=
  let! r := lib (vfs_client_write fd b n) in if negb (r =? n) then write_failed fd else k.

Fixpoint redirect_loop (fd : Z) (first : bool) (words : list (list Z)) : sh Z :=
  match words with
  | [] => put fd [10] 1 (lib (vfs_client_close fd) >> sret 0)
  | w :: words =>
    let rest := put fd w (strlen w) (redirect_loop fd false words) in
    if first then rest else put fd [32] 1 rest
  end.
Definition echo_to_file (redir : Z) (argv : list (list Z)) : sh Z :=
  with_path (arg argv (redir + 1)) (litn "echo: path too long") (fun p =>
    let! fd := lib (vfs_client_open p (Z.lor (Z.lor O_CREAT O_TRUNC) O_WRONLY) 420) in
    if fd <? 0 then complain (lit "echo: ") p >> sret 1
    else redirect_loop fd true (take (Z.to_nat (redir - 1)) (tail argv))).

(** ** Commands *)

(** The index of the first [">"] from [i] on. *)
Fixpoint find_redirect (args : list (list Z)) (i : Z) : option Z :=
  match args with
  | [] => None
  | a :: args => if strcmp a (lit ">") =? 0 then Some i else find_redirect args (i + 1)
  end.

Definition dispatch (fuel : nat) (argv : list (list Z)) : sh Z :=
  if zlen argv =? 0 then sret 0
  else if (strcmp (arg argv 0) (lit "quit") =? 0) || (strcmp (arg argv 0) (lit "exit") =? 0) then sret DISPATCH_QUIT
  else
    match (if strcmp (arg argv 0) (lit "echo") =? 0 then find_redirect (tail argv) 1 else None) with
    | Some i =>
      if zlen argv <=? i + 1 then out (litn "echo: missing redirection target") >> sret 1 else echo_to_file i argv
    | None =>
      match find_builtin (arg argv 0) with
      | None => out (arg argv 0) >> out (litn ": command not found") >> sret 127
      | Some b => call_builtin fuel (b_fn b) argv
      end
    end.

Definition run_line (fuel : nat) (src : list Z) : sh Z :=
  let n := strlen src in
  let n := if LINE_MAX <=? n then LINE_MAX - 1 else n in
  let buf := zset (copy_loop (uninit LINE_MAX) 0 src 0 n) n 0 in
  out (lit "exyde> ") >> out buf >> nl >>
  let '(argv, buf) := tokenize buf ARGS_MAX in
  dispatch fuel ((fun st => drop (Z.to_nat st) buf) <$> argv).

(** The lines until one quits. *)
Fixpoint script_loop (fuel : nat) (have_vfs : bool) (script : list (list Z)) : sh Z :=
  match script with
  | [] => (if have_vfs then lib vfs_client_shutdown else sret 0) >> sret 0
  | line :: script =>
    let! rc := run_line fuel line in
    if rc =? DISPATCH_QUIT then
      out (litn "exshell: bye") >> (if have_vfs then lib vfs_client_shutdown else sret 0) >> sret 0
    else script_loop fuel have_vfs script
  end.
End shell.

Definition script : list string := [
  "help"; "pwd"; "mkdir /tmp"; "cd /tmp"; "pwd"; "touch notes.txt"; "echo hello from exshell > notes.txt"; "ls";
  "cat notes.txt"; "echo second line overwrites > notes.txt"; "cat notes.txt"; "rm notes.txt"; "ls"; "cd /"; "rmdir /tmp"; "pwd";
  "env"; "printenv PATH"; "export EXYDE_TEST=hello"; "printenv EXYDE_TEST"; "unset EXYDE_TEST"; "printenv EXYDE_TEST";
  "echo env tests done"; "run /bin/nonexistent"; "run /bin/echo"; "ps"; "echo unknown-cmd"; "quit" ]%string.

Section main.
Context {W A : Type} `{Sys W} `{UHeap A} (uninit : Z -> list Z).

Definition sh_main (fuel : nat) : sh W A Z :=
  out (litn "exshell 0.1 (non-interactive build, Phase 12.6)") >>
  out (litn "type 'help' for the builtin list") >>
  let! ch_vfs := lib exyde_get_bootstrap in
  let! have_vfs :=
    (if negb (ch_vfs =? EXYDE_HANDLE_INVALID) then
       let! r := lib (vfs_client_init ch_vfs) in
       if r =? 0 then out (litn "exshell: VFS client attached") >> sret true
       else out (litn "exshell: vfs_client_init failed") >> sret false
     else out (litn "exshell: no VFS bootstrap, running standalone") >> sret false) in
  script_loop uninit fuel have_vfs (lit <$> script).
End main.

(** ** The working directory *)

(** The working directory is the names [ns] in normal form. *)
Record sh_ok {W A} (s : shell W A) (ns : list (list Z)) : Prop := {
  so_cwd : zlen (cwd s) = 256 /\ 0 ∈ cwd s /\ cstr (cwd s) = path_of ns;
  so_names : Forall plain ns /\ zlen ns <= STACK_MAX;
  so_buf : zlen (norm_buf s) = 512 }.

Lemma chdir_ok {W A} (s : shell W A) ns p ns' : sh_ok s ns -> zlen p = 256 -> 0 ∈ p -> cstr p = path_of ns' -> Forall plain ns' -> zlen ns' <= STACK_MAX -> sh_ok (set_cwd (strcpy (cwd s) p) s) ns'.
Proof.
  intros [(C1 & C2 & C3) N B] Lp Zp Ep F Hn. destruct (cstr_split p Zp) as [t Et].
  assert (zlen (cstr p) < 256) as Hl by (apply (f_equal zlen) in Et; rewrite zlen_app, zlen_cons in Et; pose proof (zlen_nonneg t); lia).
  split; [|done|done]. cbn [cwd set_cwd]. rewrite Et, strcpy_app by (apply cstr_no_nul || lia). split.
  - rewrite zlen_app, zlen_cons. unfold zlen in *. rewrite length_drop. lia.
  - split; [set_solver|]. rewrite cstr_app by apply cstr_no_nul. done.
Qed.

Section cwd.
Context {W A : Type} `{Sys W} `{UHeap A} (uninit : Z -> list Z) (uninit_len : forall n, 0 <= n -> zlen (uninit n) = n).
Implicit Types s : shell W A.

Lemma resolve_ok s ns rel : sh_ok s ns -> 0 ∈ rel -> exists r p buf, resolve uninit rel s = Some ((r, p), set_buf buf s) /\ sh_ok (set_buf buf s) ns /\ zlen p = 256 /\
  match resolved_names ns (cstr rel) with
  | Some ns' => if fits 256 1 ns' then r = 0 /\ cstr p = path_of ns' /\ 0 ∈ p /\ Forall plain ns' /\ zlen ns' <= STACK_MAX else r = -1
  | None => r = -1
  end.
Proof using uninit_len.
  intros [(C1 & C2 & C3) [N1 N2] B] Zr.
  destruct (resolve_spec (norm_buf s) (uninit 512) (cwd s) rel (uninit 256) 256 ns) as (r & buf & p & E & L1 & L2 & K); try done; [by apply uninit_len..|].
  exists r, p, buf. unfold resolve. rewrite E. split; [done|]. split; [by split|]. split; [done|].
  destruct (resolved_names ns (cstr rel)) as [ns'|] eqn:En; [|done]. destruct (fits 256 1 ns'); [|done].
  destruct (resolved_plain _ _ _ En (cstr_no_nul rel) N1 N2) as [F1 F2]. destruct K as (? & ? & ?). done.
Qed.

(** A step that leaves the working directory in normal form. *)
Definition keeps {T} (m : sh W A T) : Prop := forall s x s' ns, m s = Some (x, s') -> sh_ok s ns -> exists ns', sh_ok s' ns'.

Lemma keeps_same {T} (m : sh W A T) : (forall s x s', m s = Some (x, s') -> cwd s' = cwd s /\ norm_buf s' = norm_buf s) -> keeps m.
Proof. intros K s x s' ns E [C N B]. destruct (K _ _ _ E) as [Ec Eb]. exists ns. split; [by rewrite Ec|done|by rewrite Eb]. Qed.
Lemma keeps_ret {T} (x : T) : keeps (sret x).
Proof. apply keeps_same. by intros s y s' [= _ <-]. Qed.
Lemma keeps_get {T} (f : shell W A -> T) : keeps (sget f).
Proof. apply keeps_same. by intros s y s' [= _ <-]. Qed.
Lemma keeps_none {T} : keeps (fun _ => @None (T * shell W A)).
Proof. by intros s x s' ns. Qed.
Lemma keeps_known {T} (x : option T) : keeps (known x).
Proof. apply keeps_same. intros s y s'. unfold known. destruct x; [|done]. by intros [= _ <-]. Qed.
Lemma keeps_lib {T} (m : user W T) : keeps (lib m).
Proof. apply keeps_same. intros s y s'. unfold lib. destruct (m _) as [[? ?]|]; [|done]. by intros [= _ <-]. Qed.
Lemma keeps_env f : keeps (with_env f).
Proof. apply keeps_same. intros s y s'. unfold with_env. destruct (f _) as [[? ?]|]; [|done]. by intros [= _ <-]. Qed.
Lemma keeps_heap {T} (f : A -> T * A) : keeps (on_heap f).
Proof. apply keeps_same. intros s y s'. unfold on_heap. destruct (f _). by intros [= _ <-]. Qed.
Lemma keeps_sbind {S T} (m : sh W A S) (k : S -> sh W A T) : keeps m -> (forall x, keeps (k x)) -> keeps (sbind m k).
Proof. intros Hm Hk s y s' ns. unfold sbind. destruct (m s) as [[x s1]|] eqn:E; [|done]. intros E' K. destruct (Hm _ _ _ _ E K) as [ns1 K1]. by eapply Hk. Qed.
End cwd.

Create HintDb keeps.
#[export] Hint Resolve keeps_ret keeps_get keeps_none keeps_known keeps_lib keeps_env keeps_heap : keeps.
(** Splits a command down to its steps. *)
Ltac keeps := repeat first [ solve [auto with keeps] | apply keeps_sbind; [|intros ?]
  | match goal with |- keeps (if ?b then _ else _) => destruct b | |- keeps (match ?x with _ => _ end) => destruct x end ].

Section cwd_commands.
Context {W A : Type} `{Sys W} `{UHeap A} (uninit : Z -> list Z) (uninit_len : forall n, 0 <= n -> zlen (uninit n) = n).
Implicit Types s : shell W A.

Lemma keeps_out b : keeps (W := W) (A := A) (out b).
Proof. unfold out. keeps. Qed.
#[local] Hint Resolve keeps_out : keeps.
Lemma keeps_nl : keeps (W := W) (A := A) nl.
Proof. unfold nl. keeps. Qed.
#[local] Hint Resolve keeps_nl : keeps.
Lemma keeps_complain c p : keeps (W := W) (A := A) (complain c p).
Proof. unfold complain, out_errno. keeps. Qed.
#[local] Hint Resolve keeps_complain : keeps.

Lemma keeps_resolve rel : 0 ∈ rel -> keeps (W := W) (A := A) (resolve uninit rel).
Proof using uninit_len. intros Zr s x s' ns E K. destruct (resolve_ok uninit uninit_len s ns rel K Zr) as (r & p & buf & E' & K' & _). rewrite E' in E. injection E as _ <-. by exists ns. Qed.

(** A path in normal form, in a buffer of 256 bytes. *)
Definition good_path (p : list Z) : Prop :=
  zlen p = 256 /\ 0 ∈ p /\ exists ns, cstr p = path_of ns /\ Forall plain ns /\ zlen ns <= STACK_MAX.

Lemma keeps_path rel msg k : 0 ∈ rel -> (forall p, good_path p -> keeps (k p)) -> keeps (W := W) (A := A) (with_path uninit rel msg k).
Proof using uninit_len.
  intros Zr Hk s x s' ns E K. unfold with_path, sbind in E. destruct (resolve_ok uninit uninit_len s ns rel K Zr) as (r & p & buf & E' & K' & L & R).
  rewrite E' in E. destruct (Z.eqb_spec r 0) as [->|Hr]; cbn [negb] in E.
  - assert (good_path p) as G.
    { split; [done|]. destruct (resolved_names ns (cstr rel)) as [ns'|]; [|done]. destruct (fits 256 1 ns'); [|done].
      destruct R as (_ & R1 & R2 & R3 & R4). split; [done|]. by exists ns'. }
    exact (Hk p G _ _ _ _ E K').
  - exact (keeps_sbind (out msg) (fun _ => sret 1) (keeps_out msg) (fun _ => keeps_ret 1) _ _ _ _ E K').
Qed.

Lemma keeps_chdir p : good_path p -> keeps (W := W) (A := A) (let! c := sget cwd in sset (set_cwd (strcpy c p)) >> sret 0).
Proof. intros (Lp & Zp & ns' & Ep & F & Hn) s x s' ns E K. cbn in E. injection E as _ <-. exists ns'. by apply (chdir_ok s ns). Qed.

Lemma arg_nul argv i : Forall (fun a => 0 ∈ a) argv -> 0 ∈ arg argv i.
Proof.
  intros F. unfold arg, zget. destruct (nth_in_or_default (Z.to_nat i) argv [0]) as [K|K]; [|rewrite K; set_solver]. apply list_elem_of_In in K. by eapply (proj1 (Forall_forall _ _) F).
Qed.
#[local] Hint Resolve arg_nul : keeps.

Lemma keeps_cd argv : Forall (fun a => 0 ∈ a) argv -> keeps (W := W) (A := A) (builtin_cd uninit argv).
Proof using uninit_len.
  intros F. unfold builtin_cd. destruct (_ <? _).
  - intros s x s' ns E [(C1 & C2 & C3) N B]. unfold sbind, sget, sset, sret in E. injection E as _ <-. exists []. split; [|by split; [constructor|]|done]. cbn [cwd set_cwd].
    change (lit "/") with ([47] ++ 0 :: []). rewrite strcpy_app by (set_solver || (change (zlen [47]) with 1; lia)).
    split; [unfold zlen in *; rewrite length_app; cbn [length]; rewrite length_drop; lia|]. split; [set_solver|]. by rewrite cstr_app by set_solver.
  - apply keeps_path; [auto with keeps|]. intros p Hp. apply keeps_sbind; [keeps|]. intros fd. destruct (fd <? 0); [keeps|].
    apply keeps_sbind; [keeps|]. intros _. apply keeps_sbind; [keeps|]. intros [r b]. apply keeps_sbind; [keeps|]. intros e.
    destruct (_ && _); [keeps|]. apply keeps_sbind; [keeps|]. intros _. by apply keeps_chdir.
Qed.

Lemma keeps_ls fuel argv : Forall (fun a => 0 ∈ a) argv -> keeps (W := W) (A := A) (builtin_ls uninit fuel argv).
Proof using uninit_len.
  intros F. unfold builtin_ls. apply keeps_path; [destruct (_ <=? _); [auto with keeps|vm_compute; set_solver]|]. intros p _. keeps.
  generalize 0 at 1. generalize (uninit 128). induction fuel as [|fuel IH]; intros name i; cbn [ls_loop]; keeps.
Qed.

Lemma keeps_cat fuel argv : Forall (fun a => 0 ∈ a) argv -> keeps (W := W) (A := A) (builtin_cat uninit fuel argv).
Proof using uninit_len.
  intros F. unfold builtin_cat. destruct (_ <? _); [keeps|]. apply keeps_path; [auto with keeps|]. intros p _. keeps.
  induction fuel as [|fuel IH]; cbn [cat_loop]; keeps.
Qed.

Lemma keeps_on_path argv m1 m2 m3 call : Forall (fun a => 0 ∈ a) argv -> keeps (W := W) (A := A) (on_path uninit argv m1 m2 m3 call).
Proof using uninit_len. intros F. unfold on_path. destruct (_ <? _); [keeps|]. apply keeps_path; [auto with keeps|]. intros p _. keeps. Qed.

Lemma keeps_touch argv : Forall (fun a => 0 ∈ a) argv -> keeps (W := W) (A := A) (builtin_touch uninit argv).
Proof using uninit_len. intros F. unfold builtin_touch. destruct (_ <? _); [keeps|]. apply keeps_path; [auto with keeps|]. intros p _. keeps. Qed.

Lemma keeps_ps : keeps (W := W) (A := A) (builtin_ps uninit).
Proof.
  assert (forall n b i, keeps (W := W) (A := A) (ps_loop uninit n b i)) as K; [|unfold builtin_ps, out_errno; keeps].
  intros n. induction n as [|n IH]; intros b i; cbn [ps_loop]; cbv zeta; keeps.
Qed.

Lemma keeps_env_builtin : keeps (W := W) (A := A) builtin_env.
Proof. unfold builtin_env. keeps. match goal with |- keeps (env_loop ?m ?l) => generalize m, l end. intros m l. induction l as [|e l IH]; cbn [env_loop]; keeps. Qed.
#[local] Hint Resolve keeps_env_builtin : keeps.

Lemma keeps_run fuel argv : Forall (fun a => 0 ∈ a) argv -> keeps (W := W) (A := A) (builtin_run uninit fuel argv).
Proof using uninit_len.
  intros F. unfold builtin_run. destruct (_ <? _); [keeps|]. apply keeps_path; [auto with keeps|]. intros p _. apply keeps_sbind; [keeps|]. intros fd. destruct (_ <? 0); [keeps|].
  apply keeps_sbind; [keeps|]. intros blk. destruct (blk =? 0); [keeps|]. apply keeps_sbind.
  - generalize (@nil Z), RUN_CAP, blk. induction fuel as [|fuel IH]; intros b c q; cbn [load_loop]; unfold free_buf, out_errno; keeps.
  - intros [st|[q elf]]; unfold free_buf, out_errno; keeps.
Qed.

Lemma keeps_redirect fd words : forall first, keeps (W := W) (A := A) (redirect_loop fd first words).
Proof. induction words as [|w words IH]; intros first; cbn [redirect_loop]; unfold put, write_failed; keeps. Qed.
#[local] Hint Resolve keeps_redirect : keeps.

Lemma keeps_builtin fuel f argv : Forall (fun a => 0 ∈ a) argv -> keeps (W := W) (A := A) (call_builtin uninit fuel f argv).
Proof using uninit_len.
  intros F. destruct f; cbn [call_builtin]; auto using keeps_cd, keeps_ls, keeps_cat, keeps_touch, keeps_ps, keeps_run with keeps; try by apply keeps_on_path.
  - unfold builtin_echo. keeps. generalize true. generalize (tail argv). intros l. induction l as [|w l IH]; intros b; cbn [echo_loop]; keeps.
  - unfold builtin_pwd. keeps.
  - unfold builtin_printenv. keeps.
  - unfold builtin_export. keeps. generalize (tail argv). intros l. induction l as [|w l IH]; cbn [export_loop]; keeps.
  - unfold builtin_unset. keeps. generalize (tail argv). intros l. induction l as [|w l IH]; cbn [unset_loop]; keeps.
  - unfold builtin_help. keeps.
  - unfold builtin_version. keeps.
Qed.

Lemma keeps_echo_to_file i argv : Forall (fun a => 0 ∈ a) argv -> keeps (W := W) (A := A) (echo_to_file uninit i argv).
Proof using uninit_len. intros F. unfold echo_to_file. apply keeps_path; [auto with keeps|]. intros p _. keeps. Qed.
#[local] Hint Resolve keeps_builtin keeps_echo_to_file : keeps.

Lemma keeps_dispatch fuel argv : Forall (fun a => 0 ∈ a) argv -> keeps (W := W) (A := A) (dispatch uninit fuel argv).
Proof using uninit_len.
  intros F. unfold dispatch. keeps.
Qed.

Lemma keeps_line fuel src : 0 ∈ src -> keeps (W := W) (A := A) (run_line uninit fuel src).
Proof using uninit_len.
  intros Zs. unfold run_line. set (n := if _ <=? _ then _ else _). set (buf := zset _ n 0).
  assert (0 ∈ buf) as Zb.
  { assert (0 <= n < 256) as Hn by (unfold n, LINE_MAX; rewrite strlen_cstr; pose proof (zlen_nonneg (cstr src)); destruct (Z.leb_spec 256 (zlen (cstr src))); lia).
    unfold buf, LINE_MAX. pose proof (uninit_len 256 ltac:(lia)) as Lu. assert (zlen (copy_loop (uninit 256) 0 src 0 n) = 256) as Lc by (rewrite zlen_copy_loop; lia).
    apply (list_elem_of_lookup_2 _ (Z.to_nat n)). unfold zset. destruct (Z.ltb_spec n 0); [lia|]. apply list_lookup_insert_eq. unfold zlen in Lc. lia. }
  destruct (cstr_split buf Zb) as [t Et].
  destruct (tokenize_loop_spec (Z.to_nat ARGS_MAX) buf 0 (cstr buf) t [] []) as (argv & line & p & E & _ & Hst); [lia|done|apply cstr_no_nul|constructor|].
  unfold tokenize. rewrite E. keeps. apply keeps_dispatch. apply Forall_fmap, Forall_forall. intros st Hs. cbn.
  destruct (proj1 (list_elem_of_lookup _ _) Hs) as [j Hj]. destruct (Forall2_lookup_l _ _ _ _ _ Hst Hj) as (w & _ & (_ & _ & u & ->) & _). set_solver.
Qed.
End cwd_commands.

(** A path in normal form as it is sent to the server. *)
Lemma set_path_good p ns : 0 ∈ p -> cstr p = path_of ns -> Forall plain ns -> fits 256 1 ns = true ->
  set_path p = set_path (path_of ns ++ [0]) /\ 0 ∈ set_path p /\ zget 0 (set_path p) 0 = SLASH /\
  Forall (fun w => w <> [Ramfs.DOT] /\ w <> [Ramfs.DOT; Ramfs.DOT]) (components (set_path p)).
Proof.
  intros Zp Ep F Ft. assert (zlen (path_of ns) < 255) as Hl.
  { destruct (decide (ns = [])) as [->|Hn]; [done|]. unfold fits in Ft. rewrite bool_decide_false in Ft by done. cbn [orb] in Ft. apply Z.ltb_lt in Ft.
    pose proof (f_equal zlen (path_trail ns Hn)) as L. rewrite zlen_cons, zlen_app in L. change (zlen [47]) with 1 in L. lia. }
  assert (forall p, 0 ∈ p -> cstr p = path_of ns -> set_path p = path_of ns ++ 0 :: drop (Z.to_nat (zlen (path_of ns) + 1)) zero_path) as K.
  { intros x Zx Ex. unfold set_path, VFS_RPC_PATH_MAX. rewrite strlen_cstr, Ex. rewrite (proj2 (Z.leb_gt 256 _)) by lia.
    destruct (cstr_split x Zx) as [t Et]. rewrite Et, Ex. apply copy_end; [done|]. unfold zero_path. rewrite zlen_replicate. lia. }
  pose proof (path_no_nul ns F) as Nz. assert (0 ∈ path_of ns ++ [0]) as Z1 by set_solver.
  split; [rewrite !K; [done|done|by rewrite cstr_app|done|done]|]. rewrite K by done. split; [set_solver|]. split; [by destruct ns|].
  rewrite names_components, cstr_app, names_canonical by done. eapply Forall_impl; [exact F|]. intros w (_ & _ & _ & P1 & P2). done.
Qed.

(** ** On the linked system *)

(** [b] written to the kernel's console. *)
Definition say {A C} (b : list Z) (u : libc (vworld A C)) : libc (vworld A C) :=
  set_world (MkWorld (w_out (world u)) (w_req (world u)) (w_box (world u)) (w_next (world u)) (w_tty (world u) ++ b) (w_con (world u))) u.
Definition no_console {A C} (u : libc (vworld A C)) : Prop := con u = MkCon EXYDE_HANDLE_INVALID EXYDE_HANDLE_INVALID.
Definition tty {A B C} (s : shell (vworld A C) B) : list Z := w_tty (world (sh_libc s)).

Section linked.
Context {A B C : Type} `{UHeapLaws A} `{UHeap B} {SC : Sys C} (uninit : Z -> list Z) (uninit_len : forall n, 0 <= n -> zlen (uninit n) = n).
Implicit Types (u : libc (vworld A C)) (srv : server A) (s : shell (vworld A C) B).

Lemma say_nil u : say [] u = u.
Proof. destruct u as [? ? ? ? []]. unfold say, set_world. cbn. by rewrite app_nil_r. Qed.
Lemma say_app a b u : say b (say a u) = say (a ++ b) u.
Proof. unfold say, set_world. cbn. by rewrite app_assoc. Qed.
Lemma attached_say b u srv i : attached u srv i -> attached (say b u) srv i.
Proof. intros []. by split. Qed.

Lemma puts_spec u b n : no_console u -> 0 <= n <= 4096 -> Unistd.write Unistd.STDOUT_FILENO b n u = Some (n, say (take (Z.to_nat n) b) u).
Proof.
  intros Hc Hn. unfold Unistd.write. change ((0 <=? Unistd.STDOUT_FILENO) && (Unistd.STDOUT_FILENO <? 3)) with true.
  change ((Unistd.STDOUT_FILENO =? Unistd.STDOUT_FILENO) || (Unistd.STDOUT_FILENO =? Unistd.STDERR_FILENO)) with true. cbv iota.
  unfold ubind, console_client_ready, ubind, uget, uret. rewrite Hc. cbn [con_req con_resp]. change (EXYDE_HANDLE_INVALID =? EXYDE_HANDLE_INVALID) with true. cbn [negb andb].
  unfold __exyde_syscall, syscall, vworld_sys. change (SYS_EXY_PUTS =? SYS_EXY_PUTS) with true. cbn [negb].
  destruct (Z.eqb_spec n 0) as [->|Hz].
  - unfold done_with. cbn [mbind option_bind rax]. unfold posix_ret. change (0 <? 0) with false. cbn [andb]. unfold uret. rewrite say_nil. by destruct u.
  - rewrite (proj2 (Z.ltb_ge 4096 n)) by lia. unfold done_with. cbn [mbind option_bind rax]. unfold posix_ret. rewrite (proj2 (Z.ltb_ge n 0)) by lia. done.
Qed.

(** Printing always returns, and touches nothing but the console and [errno]. *)
Lemma puts_total u b n : no_console u -> 0 <= n -> exists r e c, Unistd.write Unistd.STDOUT_FILENO b n u = Some (r, set_errno e (say c u)).
Proof.
  intros Hc Hn. destruct (Z_le_gt_dec n 4096).
  - exists n, (errno u), (take (Z.to_nat n) b). rewrite puts_spec by (done || lia). unfold set_errno, say, set_world. done.
  - exists (-1), EINVAL, []. unfold Unistd.write. change ((0 <=? Unistd.STDOUT_FILENO) && (Unistd.STDOUT_FILENO <? 3)) with true.
    change ((Unistd.STDOUT_FILENO =? Unistd.STDOUT_FILENO) || (Unistd.STDOUT_FILENO =? Unistd.STDERR_FILENO)) with true. cbv iota.
    unfold ubind, console_client_ready, ubind, uget, uret. rewrite Hc. cbn [con_req con_resp]. change (EXYDE_HANDLE_INVALID =? EXYDE_HANDLE_INVALID) with true. cbn [negb andb].
    unfold __exyde_syscall, syscall, vworld_sys. change (SYS_EXY_PUTS =? SYS_EXY_PUTS) with true. cbn [negb].
    rewrite (proj2 (Z.eqb_neq n 0)), (proj2 (Z.ltb_lt 4096 n)) by lia. unfold done_with. cbn [mbind option_bind rax]. rewrite say_nil. by destruct u.
Qed.

Lemma lib_step {T} (m : user (vworld A C) T) s x u : m (sh_libc s) = Some (x, u) -> lib m s = Some (x, set_libc u s).
Proof. intros E. unfold lib. by rewrite E. Qed.

(** [s] with another libc; the steps below change nothing else. *)
Lemma out_spec s b : no_console (sh_libc s) -> 0 ∈ b -> zlen (cstr b) <= 4096 -> out b s = Some ((), set_libc (say (cstr b) (sh_libc s)) s).
Proof.
  intros Hc Zb Hl. unfold out, sbind. pose proof (zlen_nonneg (cstr b)). rewrite (lib_step _ s (strlen b) (say (take (Z.to_nat (strlen b)) b) (sh_libc s))); [|apply puts_spec; [done|rewrite strlen_cstr; lia]].
  unfold sret. do 4 f_equal. rewrite strlen_cstr. destruct (cstr_split b Zb) as [t Et]. rewrite Et at 2. unfold zlen. rewrite Nat2Z.id. apply take_app_length.
Qed.
Lemma nl_spec s : no_console (sh_libc s) -> nl s = Some ((), set_libc (say [10] (sh_libc s)) s).
Proof. intros Hc. unfold nl, sbind. by rewrite (lib_step _ s 1 (say [10] (sh_libc s))) by (apply (puts_spec _ [10]); [done|lia]). Qed.

Lemma out_total s b : no_console (sh_libc s) -> exists e c, out b s = Some ((), set_libc (set_errno e (say c (sh_libc s))) s).
Proof.
  intros Hc. destruct (puts_total (sh_libc s) b (strlen b) Hc) as (r & e & c & E); [rewrite strlen_cstr; apply zlen_nonneg|].
  exists e, c. unfold out, sbind. by rewrite (lib_step _ s r _ E).
Qed.

(** Steps that only print. *)
Definition prints (m : sh (vworld A C) B ()) : Prop := forall s, no_console (sh_libc s) -> exists e c, m s = Some ((), set_libc (set_errno e (say c (sh_libc s))) s).

Lemma prints_out b : prints (out b).
Proof. intros s. apply out_total. Qed.
Lemma prints_then m1 m2 : prints m1 -> prints m2 -> prints (m1 >> m2).
Proof.
  intros P1 P2 s Hc. destruct (P1 s Hc) as (e1 & c1 & E1). destruct (P2 (set_libc (set_errno e1 (say c1 (sh_libc s))) s) Hc) as (e2 & c2 & E2).
  exists e2, (c1 ++ c2). unfold sbind. rewrite E1, E2. cbn [sh_libc set_libc]. f_equal. f_equal. unfold set_libc. cbn. f_equal. unfold set_errno, say, set_world. cbn. by rewrite app_assoc.
Qed.
Lemma prints_nl : prints nl.
Proof. intros s Hc. exists (errno (sh_libc s)), [10]. rewrite nl_spec by done. unfold set_errno, say, set_world. done. Qed.
Lemma prints_errno : prints out_errno.
Proof. intros s Hc. unfold out_errno, sbind at 1. rewrite (lib_step _ s (errno (sh_libc s)) (sh_libc s) eq_refl). destruct s. apply (prints_then _ _ (prints_out _) prints_nl). done. Qed.
Lemma prints_complain cmd p : prints (complain cmd p).
Proof. unfold complain. do 3 (apply prints_then; [apply prints_out|]). apply prints_errno. Qed.

Lemma attached_chat u srv i e c : attached u srv i -> attached (set_errno e (say c u)) srv i.
Proof. intros []. by split. Qed.

(** ** Redirection *)

(** The flags of the redirection: create, truncate, write only. *)
Definition redirect_flags : Z := Z.lor (Z.lor O_CREAT O_TRUNC) O_WRONLY.

(** The file at descriptor [d] is what the path [p] leads to; when it is a regular file it holds [c]
    and the next byte goes to its end. *)
Record writing u srv (i d q : Z) (f : file) (n : node) (c p : list Z) : Prop := {
  wr_at : attached u srv i;
  wr_con : no_console u;
  wr_holds : holds srv i d q f n;
  wr_flags : f_flags f = redirect_flags;
  wr_off : 0 <= f_offset f < 2 ^ 62;
  wr_text : ntype n = VFS_TYPE_REG -> contents n = c /\ f_offset f = zlen c;
  wr_path : Vfs.resolve_path (sfs srv) p = (0, f_vn f) }.

Lemma wr_still u u' srv srv' i d q f n f' n' c c' p : writing u srv i d q f n c p -> still u u' srv' i d q f' n' -> shape (sfs srv') = shape (sfs srv) ->
  f_vn f' = f_vn f -> f_flags f' = f_flags f -> 0 <= f_offset f' < 2 ^ 62 -> (ntype n' = VFS_TYPE_REG -> contents n' = c' /\ f_offset f' = zlen c') ->
  writing u' srv' i d q f' n' c' p.
Proof.
  intros [W1 W2 W3 W4 W5 W6 W7] (A1 & A2 & A3 & A4 & A5) Sh Ev Ef Ho Ht. split; try done; [unfold no_console; by rewrite A4|by rewrite Ef|].
  by rewrite (resolve_shape (sfs srv) (sfs srv')), Ev by done.
Qed.

Lemma splice_end c b : splice c (zlen c) b = c ++ b.
Proof. unfold splice. pose proof (zlen_nonneg b). unfold zlen in *. rewrite Nat2Z.id, take_ge, drop_ge by lia. by rewrite app_nil_r. Qed.

(** Writing the first [k] bytes of [b]: all of them, or the call failed. *)
Lemma redirect_write u srv i d q f n c p b k : writing u srv i d q f n c p -> 0 <= k <= zlen b -> zlen c + k < 2 ^ 62 -> f_offset f + k < 2 ^ 62 ->
  exists r u' srv' f' n', vfs_client_write d b k u = Some (r, u') /\ w_tty (world u') = w_tty (world u) /\
    ((r = k /\ writing u' srv' i d q f' n' (c ++ take (Z.to_nat k) b) p /\ f_offset f' <= f_offset f + k /\ (0 < k -> ntype n' = VFS_TYPE_REG)) \/
     (r = -1 /\ 0 < k /\ attached u' srv' i /\ no_console u' /\ holds srv' i d q f' n')).
Proof.
  intros Wr Hk Hc Hoff. pose proof Wr as [W1 W2 W3 W4 W5 W6 W7]. rewrite (client_write_take d b k u) by lia. set (b' := take (Z.to_nat k) b).
  assert (zlen b' = k) as Lb by (unfold b', zlen in *; rewrite length_take; lia).
  assert (vfs_client_write d b' k u = vfs_client_write d b' (zlen b') u) as -> by (by rewrite Lb).
  destruct (Z.eq_dec k 0) as [K0|K0].
  { exists 0, u, srv, f, n. unfold vfs_client_write. rewrite (attached_init u srv i) by done. rewrite Lb, K0. split; [done|]. split; [done|]. left. split; [done|].
    assert (b' = []) as -> by (unfold b'; by rewrite K0). rewrite app_nil_r. split; [done|]. split; [lia|lia]. }
  destruct (Z.eq_dec (ntype n) VFS_TYPE_REG) as [T|T].
  - destruct (W6 T) as [Ec Eo]. pose proof (at_wf _ _ _ W1) as Ww.
    destruct (ok_buf _ _ _ _ (wf_nodes _ _ (sv_fs _ Ww) _ n (ho_node _ _ _ _ _ _ W3))) as (_ & Bv & _).
    assert (vsize n = zlen c) as Ev by (rewrite <- Ec; symmetry; apply zlen_contents; lia).
    destruct (client_write_spec u srv i d q f n b' W1 W3 T) as (r & u' & srv' & t & n' & E & St & Sh & Ht & T' & Ec' & R); [by rewrite W4|by rewrite W4|lia|lia|].
    exists r, u', srv', (set_file_offset f (f_offset f + t)), n'. split; [done|]. split; [by eapply quiet_write|].
    destruct R as [(-> & -> & _)|(-> & Ee & Hlt)].
    + left. split; [done|]. split; [|cbn; split; [lia|done]]. apply (wr_still u u' srv srv' i d q f n _ n' c (c ++ b') p Wr St (proj1 Sh)); [done|done|cbn; lia|].
      intros _. split; [|cbn; rewrite zlen_app; lia]. rewrite Ec', Ec, Eo, splice_end. f_equal. apply take_ge. unfold zlen. lia.
    + right. split; [done|]. split; [lia|]. destruct St as (S1 & S2 & S3 & S4 & S5). split; [done|]. split; [unfold no_console; by rewrite S4|done].
  - destruct (client_write_dir u srv i d q f n b' W1 W3 T) as (u' & srv' & k' & E & St & Sh); [by rewrite W4|by rewrite W4|lia|lia|].
    exists (-1), u', srv', f, (set_refcount n k'). split; [done|]. split; [by eapply quiet_write|]. right. split; [done|]. split; [lia|].
    destruct St as (S1 & S2 & S3 & S4 & S5). split; [done|]. split; [unfold no_console; by rewrite S4|done].
Qed.

Lemma set_libc_twice u1 u2 s : set_libc u2 (set_libc u1 s) = set_libc u2 s.
Proof. done. Qed.

Lemma write_failed_spec s srv i d q f n : attached (sh_libc s) srv i -> no_console (sh_libc s) -> holds srv i d q f n ->
  exists u' srv', write_failed d s = Some (1, set_libc u' s) /\ attached u' srv' i /\ no_console u'.
Proof.
  intros At Hc Ho. destruct (client_close_spec (sh_libc s) srv i d q f n At Ho) as (u1 & srv1 & E & At1 & _ & _ & _ & _ & C1 & _).
  unfold write_failed, sbind. rewrite (lib_step _ s 0 u1 E). assert (no_console u1) as Hc1 by (unfold no_console; by rewrite C1).
  destruct (prints_out (litn "echo: write failed") (set_libc u1 s) Hc1) as (e & b & ->). exists (set_errno e (say b u1)), srv1. split; [done|]. split; [by apply attached_chat|done].
Qed.

Lemma put_spec s srv i d q f n c p b k (K : sh (vworld A C) B Z) : writing (sh_libc s) srv i d q f n c p -> 0 <= k <= zlen b -> zlen c + k < 2 ^ 62 -> f_offset f + k < 2 ^ 62 ->
  (exists u' srv' f' n', put d b k K s = K (set_libc u' s) /\ writing u' srv' i d q f' n' (c ++ take (Z.to_nat k) b) p /\
     w_tty (world u') = w_tty (world (sh_libc s)) /\ f_offset f' <= f_offset f + k /\ (0 < k -> ntype n' = VFS_TYPE_REG)) \/
  (exists u' srv', put d b k K s = Some (1, set_libc u' s) /\ attached u' srv' i /\ no_console u').
Proof.
  intros Wr Hk Hc Hoff. destruct (redirect_write _ _ _ _ _ _ _ _ _ _ k Wr Hk Hc Hoff) as (r & u' & srv' & f' & n' & E & Et & R).
  unfold put, sbind. rewrite (lib_step _ s r u' E). destruct R as [(-> & Wr' & Ho & T)|(-> & Hk' & At & Hn & Hh)].
  - left. exists u', srv', f', n'. by rewrite Z.eqb_refl.
  - right. rewrite (proj2 (Z.eqb_neq (-1) k)) by lia. cbn [negb]. destruct (write_failed_spec (set_libc u' s) srv' i d q f' n' At Hn Hh) as (u2 & srv2 & E2 & At2 & Hn2). by exists u2, srv2.
Qed.

(** The words with single blanks between them. *)
Fixpoint joined (first : bool) (ws : list (list Z)) : list Z :=
  match ws with
  | [] => []
  | w :: ws => (if first then [] else [32]) ++ cstr w ++ joined false ws
  end.

Lemma take_strlen w : 0 ∈ w -> take (Z.to_nat (strlen w)) w = cstr w /\ 0 <= strlen w <= zlen w.
Proof.
  intros Zw. rewrite strlen_cstr. destruct (cstr_split w Zw) as [t Et]. pose proof (zlen_nonneg t). pose proof (zlen_nonneg (cstr w)). split.
  - rewrite Et at 2. unfold zlen. rewrite Nat2Z.id. apply take_app_length.
  - rewrite Et at 3. rewrite zlen_app, zlen_cons. lia.
Qed.

(** What the redirection leaves behind. *)
Definition stored srv (p t : list Z) : Prop :=
  exists vn n, Vfs.resolve_path (sfs srv) p = (0, vn) /\ nodes (sfs srv) !! vn = Some n /\ ntype n = VFS_TYPE_REG /\ contents n = t.

Lemma close_stored u srv i d q f n c p : writing u srv i d q f n c p -> ntype n = VFS_TYPE_REG -> 0 ∈ p ->
  exists u' srv', vfs_client_close d u = Some (0, u') /\ attached u' srv' i /\ no_console u' /\ w_tty (world u') = w_tty (world u) /\
    slot (g_clients srv') i d = 0 /\ stored srv' p c.
Proof.
  intros [W1 W2 W3 W4 W5 W6 W7] T Zp. destruct (client_close_spec u srv i d q f n W1 W3) as (u' & srv' & E & At' & (F & R & Tr) & Sl & _ & _ & C' & _).
  exists u', srv'. split; [done|]. split; [done|]. split; [unfold no_console; by rewrite C'|]. split; [by eapply quiet_close|]. split; [done|].
  pose proof (vfs_resolve_spec [] (sfs srv) p (sv_fs _ (at_wf _ _ _ W1)) ltac:(done) Zp) as Rs. rewrite W7 in Rs. destruct Rs as (? & _ & _ & Lk & _).
  rewrite Lk in Tr. cbn [orb] in Tr. destruct (tree_node _ _ _ n Tr (ho_node _ _ _ _ _ _ W3)) as [k En]. exists (f_vn f), (set_refcount n k).
  split; [rewrite (resolve_shape (sfs srv)); [done|by apply shape_tree]|]. split; [done|]. split; [done|]. by destruct (W6 T).
Qed.

Lemma redirect_loop_spec ws : forall first s srv i d q f n c p, writing (sh_libc s) srv i d q f n c p -> Forall (fun w => 0 ∈ w) ws -> 0 ∈ p ->
  zlen c + zlen (joined first ws ++ [10]) < 2 ^ 62 -> f_offset f + zlen (joined first ws ++ [10]) < 2 ^ 62 ->
  exists r u' srv', redirect_loop d first ws s = Some (r, set_libc u' s) /\ attached u' srv' i /\ no_console u' /\
    (r = 1 \/ r = 0 /\ w_tty (world u') = w_tty (world (sh_libc s)) /\ slot (g_clients srv') i d = 0 /\ stored srv' p (c ++ joined first ws ++ [10])).
Proof.
  induction ws as [|w ws IH]; intros first s srv i d q f n c p Wr F Zp Hc Ho; cbn [redirect_loop joined] in *.
  - change (zlen ([] ++ [10])) with 1 in *.
    destruct (put_spec s srv i d q f n c p [10] 1 (lib (vfs_client_close d) >> sret 0) Wr) as [(u1 & srv1 & f1 & n1 & -> & Wr1 & Et & _ & T)|(u1 & srv1 & E & At & Hn)]; try lia; [by change (zlen [10]) with 1| |].
    + destruct (close_stored u1 srv1 i d q f1 n1 _ p Wr1 (T ltac:(lia)) Zp) as (u2 & srv2 & E2 & At2 & Hn2 & Et2 & Sl & St).
      exists 0, u2, srv2. unfold sbind. rewrite (lib_step _ (set_libc u1 s) 0 u2 E2). split; [done|]. split; [done|]. split; [done|]. right. split; [done|]. split; [congruence|]. done.
    + exists 1, u1, srv1. split; [done|]. split; [done|]. split; [done|]. by left.
  - apply Forall_cons in F as [Zw F]. destruct (take_strlen w Zw) as [Tw Lw]. rewrite !zlen_app in Hc, Ho. change (zlen [10]) with 1 in *.
    pose proof (zlen_nonneg (cstr w)). pose proof (zlen_nonneg (joined false ws)). rewrite <- strlen_cstr in *.
    assert (forall s srv f n c, writing (sh_libc s) srv i d q f n c p -> zlen c + (strlen w + (zlen (joined false ws) + 1)) < 2 ^ 62 -> f_offset f + (strlen w + (zlen (joined false ws) + 1)) < 2 ^ 62 ->
      exists r u' srv', put d w (strlen w) (redirect_loop d false ws) s = Some (r, set_libc u' s) /\ attached u' srv' i /\ no_console u' /\
      (r = 1 \/ r = 0 /\ w_tty (world u') = w_tty (world (sh_libc s)) /\ slot (g_clients srv') i d = 0 /\ stored srv' p (c ++ cstr w ++ joined false ws ++ [10]))) as K.
    { clear s srv f n c Wr Hc Ho. intros s srv f n c Wr Hc Ho.
      destruct (put_spec s srv i d q f n c p w (strlen w) (redirect_loop d false ws) Wr) as [(u1 & srv1 & f1 & n1 & -> & Wr1 & Et & Ho1 & T)|(u1 & srv1 & E & At & Hn)]; try lia.
      2: { exists 1, u1, srv1. split; [done|]. split; [done|]. split; [done|]. by left. }
      rewrite Tw in Wr1. destruct (IH false (set_libc u1 s) srv1 i d q f1 n1 _ p Wr1 F Zp) as (r & u2 & srv2 & E2 & At2 & Hn2 & R).
      { rewrite !zlen_app, <- strlen_cstr. change (zlen [10]) with 1. lia. } { rewrite zlen_app. change (zlen [10]) with 1. lia. }
      exists r, u2, srv2. split; [done|]. split; [done|]. split; [done|]. destruct R as [?|(-> & Et2 & Sl & St)]; [by left|right]. split; [done|]. split; [cbn in Et2; congruence|]. split; [done|].
      by rewrite <- app_assoc in St. }
    destruct first; cbn [app] in *.
    + change (zlen (@nil Z)) with 0 in *. rewrite <- app_assoc. apply K with (srv := srv) (f := f) (n := n); [done|lia|lia].
    + change (zlen [32]) with 1 in *.
      destruct (put_spec s srv i d q f n c p [32] 1 (put d w (strlen w) (redirect_loop d false ws)) Wr) as [(u1 & srv1 & f1 & n1 & -> & Wr1 & Et & Ho1 & T)|(u1 & srv1 & E & At & Hn)]; try lia; [by change (zlen [32]) with 1| |].
      2: { exists 1, u1, srv1. split; [done|]. split; [done|]. split; [done|]. by left. }
      change (take (Z.to_nat 1) [32]) with [32] in Wr1.
      destruct (K (set_libc u1 s) srv1 f1 n1 _ Wr1) as (r & u2 & srv2 & E2 & At2 & Hn2 & R); [rewrite zlen_app; change (zlen [32]) with 1; lia|lia|].
      exists r, u2, srv2. split; [done|]. split; [done|]. split; [done|]. destruct R as [?|(-> & Et2 & Sl & St)]; [by left|right]. split; [done|]. split; [cbn in Et2; congruence|]. split; [done|].
      rewrite <- !app_assoc in St. cbn [app] in St. by rewrite <- app_assoc.
Qed.

(** ** Printing a file *)

Lemma cat_loop_spec fuel : forall s srv i d q f n, attached (sh_libc s) srv i -> no_console (sh_libc s) -> holds srv i d q f n -> ntype n = VFS_TYPE_REG ->
  acc_read (f_flags f) = true -> f_offset f <= vsize n -> (0 < fuel)%nat -> vsize n - f_offset f <= 512 * (Z.of_nat fuel - 1) ->
  exists u' srv', cat_loop fuel d s = Some (0, set_libc u' s) /\ attached u' srv' i /\ no_console u' /\
    w_tty (world u') = tty s ++ drop (Z.to_nat (f_offset f)) (contents n).
Proof.
  induction fuel as [|fuel IH]; intros s srv i d q f n At Hc Ho T Ar Hoff Hf Hs; [lia|]. cbn [cat_loop].
  pose proof (at_wf _ _ _ At) as W. destruct (wf_files _ _ (sv_fs _ W) q f (ho_file _ _ _ _ _ _ Ho)) as (_ & Fr & _).
  assert (zlen (contents n) = vsize n) as Lc by (apply zlen_contents; lia).
  destruct (client_read_spec (sh_libc s) srv i d q f n 512 At Ho ltac:(lia) T Ar) as (u1 & srv1 & E & St & _). set (r := Z.min 512 _) in *.
  pose proof (quiet_read _ _ _ _ _ E) as Et. destruct St as (At1 & Ho1 & _ & C1 & _). assert (no_console u1) as Hc1 by (unfold no_console; by rewrite C1).
  unfold sbind at 1. rewrite (lib_step _ s _ u1 E). rewrite (proj2 (Z.ltb_ge r 0)) by lia. destruct (Z.eqb_spec r 0) as [Hr|Hr].
  - destruct (client_close_spec u1 srv1 i d q _ n At1 Ho1) as (u2 & srv2 & E2 & At2 & _ & _ & _ & _ & C2 & _). exists u2, srv2. unfold sbind.
    rewrite (lib_step _ (set_libc u1 s) 0 u2 E2). split; [done|]. split; [done|]. split; [unfold no_console; by rewrite C2|].
    rewrite (quiet_close _ _ _ _ E2), Et, drop_ge by (unfold zlen in Lc; lia). by rewrite app_nil_r.
  - set (b := take (Z.to_nat r) _) in *. unfold sbind at 1. rewrite (lib_step _ (set_libc u1 s) r (say (take (Z.to_nat r) b) u1)) by (apply puts_spec; [done|lia]).
    rewrite Z.eqb_refl. cbn [negb]. rewrite set_libc_twice.
    destruct (IH (set_libc (say (take (Z.to_nat r) b) u1) s) srv1 i d q (set_file_offset f (f_offset f + r)) n) as (u2 & srv2 & E2 & At2 & Hc2 & Et2);
      try done; [by apply attached_say|cbn; lia|lia|cbn [f_offset set_file_offset]; lia|].
    exists u2, srv2. split; [done|]. split; [done|]. split; [done|]. rewrite Et2. unfold tty. cbn [sh_libc set_libc say set_world world w_tty f_offset set_file_offset].
    rewrite Et, <- app_assoc. f_equal. unfold b. rewrite take_take, Nat.min_id.
    replace (Z.to_nat (f_offset f + r)) with (Z.to_nat (f_offset f) + Z.to_nat r)%nat by lia. rewrite <- drop_drop. apply take_drop.
Qed.

(** ** Commands *)

Lemma find_redirect_spec ws gt rest k : Forall (fun w => 0 ∈ w /\ cstr w <> byte_list ">") ws -> 0 ∈ gt -> cstr gt = byte_list ">" ->
  find_redirect (ws ++ gt :: rest) k = Some (k + zlen ws).
Proof.
  intros F Zg Eg. revert k. assert (0 ∈ lit ">" /\ cstr (lit ">") = byte_list ">") as [Zl El] by (split; [vm_compute; set_solver|done]).
  induction F as [|w ws [Zw Nw] _ IH]; intros k; cbn [app find_redirect].
  - rewrite strcmp_cstr, El, Eg by done. rewrite bool_decide_true by done. f_equal. change (zlen (@nil (list Z))) with 0. lia.
  - rewrite strcmp_cstr, El by done. rewrite bool_decide_false by done. rewrite IH, zlen_cons. f_equal. lia.
Qed.

Lemma find_builtin_cstr a : 0 ∈ a -> find_builtin a = List.find (fun b => bool_decide (byte_list (b_name b) = cstr a)) builtins.
Proof.
  intros Za. unfold find_builtin. assert (Forall (fun b => 0 ∉ byte_list (b_name b)) builtins) as F by (repeat constructor; vm_compute; set_solver).
  induction F as [|b l Hb _ IH]; [done|]. cbn [List.find]. rewrite strcmp_cstr, cstr_app by (set_solver || done). by rewrite IH.
Qed.

(** The shell is a client of the running server and prints to the kernel's console. *)
Record sh_at s srv (i : Z) (ns : list (list Z)) : Prop := {
  sa_at : attached (sh_libc s) srv i;
  sa_con : no_console (sh_libc s);
  sa_ok : sh_ok s ns }.

Lemma sh_at_libc s srv srv' i ns u buf : sh_at s srv i ns -> sh_ok (set_buf buf s) ns -> attached u srv' i -> no_console u -> sh_at (set_libc u (set_buf buf s)) srv' i ns.
Proof. intros _ K At Hc. split; [done|done|]. destruct K. by split. Qed.

(** Opening a path in normal form: the server's error, or a file the path leads to. *)
Lemma open_good s srv i p ns flags mode : attached (sh_libc s) srv i -> no_console (sh_libc s) -> 0 ∈ p -> cstr p = path_of ns -> Forall plain ns -> fits 256 1 ns = true ->
  0 <= flags < 2 ^ 32 -> 0 <= mode < 2 ^ 32 ->
  exists r u' srv', lib (vfs_client_open p flags mode) s = Some (r, set_libc u' s) /\ attached u' srv' i /\ no_console u' /\ w_tty (world u') = tty s /\
    ((r = -1 /\ 0 < errno u' < 4096 /\ ((exists x g, open_outcome (sfs srv) (set_path p) flags mode (- errno u') x g) \/
        errno u' = EMFILE /\ forall k, 0 <= k < VFS_FD_MAX -> slot (g_clients srv) i k <> 0)) \/
     (0 <= r /\ exists q vn n', holds srv' i r q (MkFile vn 0 flags 1) n' /\ Vfs.resolve_path (sfs srv') (set_path p) = (0, vn) /\
        (ntype n' = VFS_TYPE_REG -> Z.land flags VFS_O_TRUNC <> 0 -> acc_write flags = true -> vsize n' = 0) /\
        (forall n, Vfs.resolve_path (sfs srv) (set_path p) = (0, vn) -> nodes (sfs srv) !! vn = Some n -> Z.land flags VFS_O_TRUNC = 0 -> alike n' n) /\
        (forall n x, Vfs.resolve_path (sfs srv) (set_path p) = (0, x) -> nodes (sfs srv) !! x = Some n -> vn = x))).
Proof.
  intros At Hc Zp Ep F Ft Hf Hm. destruct (set_path_good p ns Zp Ep F Ft) as (_ & Zs & Ab & Fc).
  destruct (client_open_spec (sh_libc s) srv i p flags mode At Zp Hf Hm) as (r & u' & srv' & E & At' & _ & _ & C' & _ & K).
  exists r, u', srv'. split; [by apply lib_step|]. split; [done|]. split; [unfold no_console; by rewrite C'|]. split; [by eapply quiet_open|].
  destruct K as [K|(Hr & _ & _ & _ & f & n & x & Ho & _ & _ & _ & _ & Oc)]; [by left|right]. split; [lia|].
  destruct (open_resolves _ _ _ _ _ _ (sv_fs _ (at_wf _ _ _ At)) Zs Fc Ab Oc) as (vn & n' & R1 & R2 & R3 & R4 & R5).
  pose proof Ho as [H1' H2' H3 H4]. assert (f = MkFile vn 0 flags 1) as -> by congruence. assert (n = n') as -> by (cbn in H4; congruence).
  exists x, vn, n'. split; [done|]. split; [done|]. split; [done|]. split; [done|]. intros m y Ry Em.
  unfold open_outcome in Oc. rewrite Ry in Oc. destruct (_ && _) eqn:Ec; [by apply andb_prop in Ec as [Ec _]|]. change (0 <? 0) with false in Oc. cbv iota in Oc.
  destruct (_ =? Z.lor _ _); [by destruct Oc|]. destruct Oc as (m' & Em' & O). rewrite (resolve_shape (sfs srv)) in R1 by (exact (shape_open _ _ _ _ _ _ _ Em' O)). congruence.
Qed.

Lemma echo_dispatch fuel a0 ws gt f rest : 0 ∈ a0 -> cstr a0 = byte_list "echo" -> Forall (fun w => 0 ∈ w /\ cstr w <> byte_list ">") ws -> 0 ∈ gt -> cstr gt = byte_list ">" ->
  dispatch (W := vworld A C) (A := B) uninit fuel (a0 :: ws ++ gt :: f :: rest) =
  with_path uninit f (litn "echo: path too long") (fun p =>
    let! fd := lib (vfs_client_open p redirect_flags 420) in
    if fd <? 0 then complain (lit "echo: ") p >> sret 1 else redirect_loop fd true ws).
Proof.
  intros Z0 E0 F Zg Eg. unfold dispatch. set (argv := a0 :: ws ++ gt :: f :: rest). assert (zlen argv = zlen ws + 3 + zlen rest) as L by (unfold argv; rewrite zlen_cons, zlen_app, !zlen_cons; lia).
  pose proof (zlen_nonneg ws). pose proof (zlen_nonneg rest). rewrite (proj2 (Z.eqb_neq (zlen argv) 0)) by lia. change (arg argv 0) with a0.
  assert (forall x, 0 ∈ lit x -> (strcmp a0 (lit x) =? 0) = bool_decide (byte_list "echo" = cstr (lit x))) as K by (intros x Zx; by rewrite strcmp_cstr, E0).
  rewrite !K by (vm_compute; set_solver). change (bool_decide (byte_list "echo" = cstr (lit "quit"))) with false. change (bool_decide (byte_list "echo" = cstr (lit "exit"))) with false.
  change (bool_decide (byte_list "echo" = cstr (lit "echo"))) with true. cbn [orb]. cbv iota. unfold argv at 1. cbn [tail]. rewrite (find_redirect_spec ws gt) by done.
  rewrite (proj2 (Z.leb_gt (zlen argv) _)) by lia. unfold echo_to_file. assert (arg argv (1 + zlen ws + 1) = f) as ->.
  { unfold arg, zget, argv. replace (Z.to_nat (1 + zlen ws + 1)) with (S (length ws + 1)) by (unfold zlen; lia). cbn [nth]. rewrite app_nth2 by lia. by replace (length ws + 1 - length ws)%nat with 1%nat by lia. }
  assert (take (Z.to_nat (1 + zlen ws - 1)) (tail argv) = ws) as ->; [|done].
  unfold argv. cbn [tail]. replace (Z.to_nat (1 + zlen ws - 1)) with (length ws) by (unfold zlen; lia). apply take_app_length.
Qed.

Lemma cat_dispatch fuel f : dispatch (W := vworld A C) (A := B) uninit fuel [lit "cat"; f] = builtin_cat uninit fuel [lit "cat"; f].
Proof. done. Qed.

Lemma complain_spec s cmd p : no_console (sh_libc s) -> 0 ∈ cmd -> 0 ∈ p -> zlen (cstr cmd) <= 4096 -> zlen (cstr p) <= 4096 -> errno (sh_libc s) = ENOMEM ->
  complain cmd p s = Some ((), set_libc (say (cstr cmd ++ cstr p ++ byte_list ": Cannot allocate memory" ++ [10]) (sh_libc s)) s).
Proof.
  intros Hc Zc Zp Lc Lp Ee. unfold complain, sbind. rewrite out_spec by done. rewrite out_spec by done. cbn [sh_libc set_libc]. rewrite say_app.
  rewrite out_spec by (done || (vm_compute; set_solver) || (by vm_compute)). cbn [sh_libc set_libc]. rewrite say_app. unfold out_errno, sbind.
  rewrite (lib_step _ _ ENOMEM (say ((cstr cmd ++ cstr p) ++ cstr (lit ": ")) (sh_libc s))) by (unfold uget; cbn; by rewrite Ee).
  rewrite out_spec by (done || (vm_compute; set_solver) || (by vm_compute)). cbn [sh_libc set_libc]. rewrite say_app. rewrite nl_spec by done. cbn [sh_libc set_libc]. rewrite say_app.
  rewrite !set_libc_twice. do 4 f_equal. rewrite <- !app_assoc. do 2 f_equal.
Qed.

Lemma contents_empty (n : node) : vsize n = 0 -> contents n = [].
Proof. intros E. unfold contents. by rewrite E. Qed.

Lemma redirect_writing u srv i fd q vn n p : attached u srv i -> no_console u -> holds srv i fd q (MkFile vn 0 redirect_flags 1) n -> Vfs.resolve_path (sfs srv) p = (0, vn) ->
  (ntype n = VFS_TYPE_REG -> Z.land redirect_flags VFS_O_TRUNC <> 0 -> acc_write redirect_flags = true -> vsize n = 0) ->
  writing u srv i fd q (MkFile vn 0 redirect_flags 1) n [] p.
Proof.
  intros At Hc Ho Rp Ht. split; try done. intros T. cbn [f_offset]. split; [|done]. apply contents_empty. apply Ht; [done|by vm_compute|by vm_compute].
Qed.

(** The redirection, on every branch. *)
Lemma echo_spec s srv i ns fuel a0 ws gt f rest : sh_at s srv i ns -> 0 ∈ a0 -> cstr a0 = byte_list "echo" ->
  Forall (fun w => 0 ∈ w /\ cstr w <> byte_list ">") ws -> 0 ∈ gt -> cstr gt = byte_list ">" -> 0 ∈ f -> zlen (joined true ws ++ [10]) < 2 ^ 60 ->
  exists r s1 srv1, dispatch uninit fuel (a0 :: ws ++ gt :: f :: rest) s = Some (r, s1) /\ sh_at s1 srv1 i ns /\
    (r = 1 \/ r = 0 /\ tty s1 = tty s /\ exists fs d, resolved_names ns (cstr f) = Some fs /\ fits 256 1 fs = true /\ 0 <= d < VFS_FD_MAX /\ slot (g_clients srv1) i d = 0 /\
       stored srv1 (set_path (path_of fs ++ [0])) (joined true ws ++ [10])).
Proof using All.
  intros Sa Z0 E0 F Zg Eg Zf Hl. rewrite echo_dispatch by done. pose proof Sa as [At Hc K]. unfold with_path, sbind at 1.
  destruct (resolve_ok uninit uninit_len s ns f K Zf) as (r & p & buf & E & K' & Lp & R). rewrite E.
  assert (forall m, prints m -> exists s1, (m >> sret 1) (set_buf buf s) = Some (1, s1) /\ sh_at s1 srv i ns) as P.
  { intros m Pm. destruct (Pm (set_buf buf s) Hc) as (e & c & Em). unfold sbind. rewrite Em. eexists. split; [done|]. apply (sh_at_libc s srv srv i ns); [done|done|by apply attached_chat|done]. }
  destruct (resolved_names ns (cstr f)) as [fs|] eqn:Er; [destruct (fits 256 1 fs) eqn:Ef|].
  2,3: subst r; cbn [Z.eqb negb]; destruct (P _ (prints_out (litn "echo: path too long"))) as (s1 & E1 & Sa1); exists 1, s1, srv; (split; [exact E1|]; split; [done|by left]).
  destruct R as (-> & Ep & Zp & Fp & Hn). cbn [Z.eqb negb]. clear P. unfold sbind at 1.
  destruct (open_good (set_buf buf s) srv i p fs redirect_flags 420 At Hc Zp Ep Fp Ef) as (fd & u1 & srv1 & Eo & At1 & Hc1 & Et1 & O); [by vm_compute|by vm_compute|].
  rewrite Eo. destruct O as [(-> & _)|(Hfd & q & vn & n & Ho & Rp & Ht & _)].
  { change (-1 <? 0) with true. cbv iota. destruct (prints_complain (lit "echo: ") p (set_libc u1 (set_buf buf s)) Hc1) as (e & c & Em). unfold sbind. rewrite Em.
    eexists 1, _, srv1. split; [done|]. split; [|by left]. apply (sh_at_libc s srv srv1 i ns); [done|done|by apply attached_chat|done]. }
  rewrite (proj2 (Z.ltb_ge fd 0)) by lia. destruct (set_path_good p fs Zp Ep Fp Ef) as (Esp & Zsp & _).
  pose proof (redirect_writing u1 srv1 i fd q vn n _ At1 Hc1 Ho Rp Ht) as Wr.
  destruct (redirect_loop_spec ws true (set_libc u1 (set_buf buf s)) srv1 i fd q _ n [] _ Wr) as (r & u2 & srv2 & E2 & At2 & Hc2 & R2).
  { eapply Forall_impl; [exact F|]. by intros w [? _]. } { done. } { change (zlen (@nil Z)) with 0. lia. } { cbn [f_offset]. lia. }
  exists r, (set_libc u2 (set_buf buf s)), srv2. split; [exact E2|]. split; [by apply (sh_at_libc s srv srv2 i ns)|]. destruct R2 as [?|(-> & Et2 & Sl & St)]; [by left|right].
  split; [done|]. split; [unfold tty in *; cbn in *; congruence|]. exists fs, fd. split; [done|]. split; [done|]. split; [apply Ho|]. split; [done|]. by rewrite <- Esp.
Qed.

(** Printing a stored file: all of it, or the server had no memory to open it. *)
Lemma cat_spec s srv i ns fuel f fs d t : sh_at s srv i ns -> 0 ∈ f -> resolved_names ns (cstr f) = Some fs -> fits 256 1 fs = true ->
  0 <= d < VFS_FD_MAX -> slot (g_clients srv) i d = 0 -> stored srv (set_path (path_of fs ++ [0])) t -> (0 < fuel)%nat -> zlen t <= 512 * (Z.of_nat fuel - 1) ->
  exists r s1 srv1, dispatch uninit fuel [lit "cat"; f] s = Some (r, s1) /\ sh_at s1 srv1 i ns /\
    ((r = 0 /\ tty s1 = tty s ++ t) \/
     (r = 1 /\ tty s1 = tty s ++ byte_list "cat: " ++ path_of fs ++ byte_list ": Cannot allocate memory" ++ [10])).
Proof using All.
  intros Sa Zf Er Ef Hd Sl (vn & n & Rv & En & Tn & Ec) Hfu Hf. rewrite cat_dispatch. unfold builtin_cat. change (zlen [lit "cat"; f] <? 2) with false. cbv iota.
  change (arg [lit "cat"; f] 1) with f. pose proof Sa as [At Hc K]. unfold with_path, sbind at 1.
  destruct (resolve_ok uninit uninit_len s ns f K Zf) as (r & p & buf & E & K' & Lp & R). rewrite E, Er, Ef in *. destruct R as (-> & Ep & Zp & Fp & Hn). cbn [Z.eqb negb]. unfold sbind at 1.
  destruct (set_path_good p fs Zp Ep Fp Ef) as (Esp & Zsp & _). rewrite <- Esp in Rv.
  destruct (open_good (set_buf buf s) srv i p fs O_RDONLY 0 At Hc Zp Ep Fp Ef) as (fd & u1 & srv1 & Eo & At1 & Hc1 & Et1 & O); [by vm_compute|by vm_compute|]. rewrite Eo.
  destruct O as [(-> & He & O)|(Hfd & q & vn' & n' & Ho & Rp & _ & Al & Uq)].
  - change (-1 <? 0) with true. cbv iota. assert (errno u1 = ENOMEM) as Ee.
    { destruct O as [(x & g & O)|[_ O]]; [|by destruct (O d Hd)]. unfold open_outcome in O. rewrite Rv in O. change ((0 =? - ENOENT) && _) with false in O. cbv iota in O.
      change (0 <? 0) with false in O. cbv iota in O. change (_ =? Z.lor VFS_O_CREAT VFS_O_EXCL) with false in O. cbv iota in O. destruct O as (m & _ & _ & _ & [(O & _)|(O & _)]); lia. }
    unfold sbind. rewrite complain_spec; [|done|vm_compute; set_solver|done|by vm_compute| |done].
    2: { destruct (cstr_split p Zp) as [t' Et']. apply (f_equal zlen) in Et'. rewrite zlen_app, zlen_cons in Et'. pose proof (zlen_nonneg t'). lia. }
    eexists 1, _, srv1. split; [done|]. split; [apply (sh_at_libc s srv srv1 i ns); [done|done|by apply attached_say|done]|]. right. split; [done|].
    unfold tty in *. cbn [sh_libc set_libc set_buf say set_world world w_tty] in *. rewrite Et1, Ep. done.
  - rewrite (proj2 (Z.ltb_ge fd 0)) by lia. assert (vn' = vn) as -> by (by eapply Uq). specialize (Al n Rv En ltac:(by vm_compute)). apply alike_fields in Al as (T' & _ & _ & _ & V' & B').
    assert (contents n' = t) as Ec' by (unfold contents; by rewrite V', B').
    pose proof (at_wf _ _ _ At1) as W. destruct (ok_buf _ _ _ _ (wf_nodes _ _ (sv_fs _ W) _ n' (ho_node _ _ _ _ _ _ Ho))) as (_ & Bv & _).
    assert (vsize n' = zlen t) as Ev by (rewrite <- Ec'; symmetry; apply zlen_contents; lia).
    destruct (cat_loop_spec fuel (set_libc u1 (set_buf buf s)) srv1 i fd q _ n' At1 Hc1 Ho) as (u2 & srv2 & E2 & At2 & Hc2 & Et2); [congruence|by vm_compute|cbn; lia|done|cbn [f_offset]; lia|].
    exists 0, (set_libc u2 (set_buf buf s)), srv2. split; [exact E2|]. split; [by apply (sh_at_libc s srv srv2 i ns)|]. left. split; [done|].
    unfold tty in *. cbn [sh_libc set_libc set_buf f_offset] in *. rewrite Et2, Et1, Ec'. done.
Qed.
(** ** Changing the directory *)

Definition dir_at srv (ns : list (list Z)) (vn : Z) (n : node) : Prop :=
  Vfs.resolve_path (sfs srv) (set_path (path_of ns ++ [0])) = (0, vn) /\ nodes (sfs srv) !! vn = Some n /\ ntype n = VFS_TYPE_DIR.

(** Opening a path for reading, without creating anything. *)
Lemma open_reading (g : fs A) p mode r x g' : fs_wf [] g -> 0 ∈ p -> open_outcome g p O_RDONLY mode r x g' ->
  (r = - ENOMEM \/ r = 0) /\ (exists vn n, Vfs.resolve_path g p = (0, vn) /\ nodes g !! vn = Some n /\ (r = 0 -> files g' !! x = Some (MkFile vn 0 O_RDONLY 1) /\ tree g' = tree g /\ vfs_root g' = vfs_root g)) \/
  r < 0 /\ forall vn, Vfs.resolve_path g p <> (0, vn).
Proof.
  intros W Zp O. unfold open_outcome in O. pose proof (vfs_resolve_spec [] g p W ltac:(done) Zp) as R. destruct (Vfs.resolve_path g p) as [e vn]. destruct R as (s1 & _ & _ & R).
  change (negb (Z.land O_RDONLY VFS_O_CREAT =? 0)) with false in O. rewrite andb_false_r in O. destruct (Z.ltb_spec e 0) as [He|He]; [destruct O as [-> _]; right; split; [done|intros ? [=]; lia]|].
  change (Z.land O_RDONLY (Z.lor VFS_O_CREAT VFS_O_EXCL) =? Z.lor VFS_O_CREAT VFS_O_EXCL) with false in O. cbv iota in O. destruct O as (n & En & T & Rt & O).
  change (truncates O_RDONLY n) with false in T. cbv iota in T. left. destruct (Z.eqb_spec e 0) as [->|Hz]; [|by destruct R as (? & _); lia].
  split; [by destruct O as [[-> _]|[-> _]]; auto|]. exists vn, n. split; [done|]. split; [done|]. intros ->. destruct O as [[? _]|(_ & _ & _ & F)]; [done|]. rewrite F, lookup_insert_eq. done.
Qed.
(** Closing the file of a path leaves the tree. *)
Lemma close_path u srv i d q f n p : attached u srv i -> holds srv i d q f n -> 0 ∈ p -> Vfs.resolve_path (sfs srv) p = (0, f_vn f) ->
  exists u' srv', vfs_client_close d u = Some (0, u') /\ attached u' srv' i /\ con u' = con u /\ w_tty (world u') = w_tty (world u) /\
    tree (sfs srv') = tree (sfs srv) /\ vfs_root (sfs srv') = vfs_root (sfs srv).
Proof.
  intros At Ho Zp Rp. destruct (client_close_spec u srv i d q f n At Ho) as (u' & srv' & E & At' & (_ & R & Tr) & _ & _ & _ & C' & _).
  exists u', srv'. split; [done|]. split; [done|]. split; [done|]. split; [by eapply quiet_close|].
  pose proof (vfs_resolve_spec [] (sfs srv) p (sv_fs _ (at_wf _ _ _ At)) ltac:(done) Zp) as Rs. rewrite Rp in Rs. destruct Rs as (? & _ & _ & Lk & _). by rewrite Lk in Tr.
Qed.

Lemma dir_tree srv srv' ns vn n : dir_at srv ns vn n -> tree (sfs srv') = tree (sfs srv) -> vfs_root (sfs srv') = vfs_root (sfs srv) -> exists n', dir_at srv' ns vn n'.
Proof.
  intros (R & E & T) Tr Rt. destruct (tree_node _ _ _ n Tr E) as [k E']. exists (set_refcount n k). split; [|done]. rewrite (resolve_shape (sfs srv)); [done|by apply shape_tree].
Qed.

(** The directory test on the open path [p]: it is the working directory then, or it is refused. *)
Lemma cd_opened s srv i ns p fs fd q vn n : sh_at s srv i ns -> zlen p = 256 -> 0 ∈ p -> cstr p = path_of fs -> Forall plain fs -> fits 256 1 fs = true -> zlen fs <= STACK_MAX ->
  holds srv i fd q (MkFile vn 0 O_RDONLY 1) n -> Vfs.resolve_path (sfs srv) (set_path p) = (0, vn) ->
  exists r s1 srv1 ns1,
    (lib (uset (set_errno 0)) >>
     let! (r, _) := lib (vfs_client_readdir fd 0 128) in
     let! e := lib (uget errno) in
     if negb (r =? 0) && negb (e =? ENOENT) then out (lit "cd: ") >> out p >> out (litn ": not a directory") >> lib (vfs_client_close fd) >> sret 1
     else lib (vfs_client_close fd) >> let! c := sget cwd in sset (set_cwd (strcpy c p)) >> sret 0) s = Some (r, s1) /\
    sh_at s1 srv1 i ns1 /\
    (r = 0 /\ ns1 = fs /\ tty s1 = tty s /\ (exists n, dir_at srv1 fs vn n) \/
     r = 1 /\ ns1 = ns /\ (ntype n = VFS_TYPE_DIR -> exists c, head (children n) = Some c /\ 128 <= zlen (name_of (sfs srv) c))).
Proof.
  intros [At Hc K] Lp Zp Ep F Ft Hn Ho Rp. destruct (set_path_good p fs Zp Ep F Ft) as (Es & Zs & _). set (u0 := set_errno 0 (sh_libc s)).
  assert (attached u0 srv i) as At0 by (destruct At; by split). destruct (client_readdir_spec u0 srv i fd q _ n 0 128 At0 Ho ltac:(lia)) as ([r b] & u1 & E1 & (At1 & Ho1 & _ & C1 & _) & R).
  pose proof (quiet_readdir _ _ _ _ _ _ E1) as T1. assert (no_console u1) as Hc1 by (unfold no_console; by rewrite C1). cbn [fst] in R.
  unfold sbind at 1. rewrite (lib_step _ s () u0 eq_refl). unfold sbind at 1. rewrite (lib_step _ (set_libc u0 s) (r, b) u1 E1). unfold sbind at 1.
  rewrite (lib_step (uget errno) (set_libc u1 (set_libc u0 s)) (errno u1) u1 eq_refl), !set_libc_twice. destruct (close_path u1 srv i fd q _ n (set_path p) At1 Ho1 Zs Rp) as (u2 & srv2 & E2 & At2 & C2 & T2 & Tr & Rt).
  destruct (negb (r =? 0) && negb (errno u1 =? ENOENT)) eqn:Eb.
  - apply andb_prop in Eb as [Er%negb_true_iff%Z.eqb_neq Ee%negb_true_iff%Z.eqb_neq].
    destruct (prints_then _ _ (prints_out (lit "cd: ")) (prints_then _ _ (prints_out p) (prints_out (litn ": not a directory"))) (set_libc u1 s) Hc1) as (e & c & Em).
    set (u3 := set_errno e (say c u1)) in *. assert (attached u3 srv i) as At3 by (by apply attached_chat).
    destruct (close_path u3 srv i fd q _ n (set_path p) At3 Ho1 Zs Rp) as (u4 & srv4 & E4 & At4 & C4 & T4 & _).
    assert ((out (lit "cd: ") >> out p >> out (litn ": not a directory") >> lib (vfs_client_close fd) >> sret 1) (set_libc u1 s) = Some (1, set_libc u4 s)) as ->.
    { clear -Em E4. unfold sbind in *. cbn [sh_libc set_libc] in Em. destruct (out (lit "cd: ") _) as [[[] x1]|]; [|done]. destruct (out p x1) as [[[] x2]|]; [|done].
      destruct (out (litn ": not a directory") x2) as [[[] x3]|]; [|done]. injection Em as ->. fold u3. by rewrite (lib_step _ (set_libc u3 (set_libc u1 s)) 0 u4 E4), !set_libc_twice. }
    exists 1, (set_libc u4 s), srv4, ns. split; [done|]. split; [split; [done|unfold no_console; cbn; rewrite C4; exact Hc1|by destruct K]|]. right. split; [done|]. split; [done|].
    intros Td. rewrite Td in R. change (negb (VFS_TYPE_DIR =? VFS_TYPE_DIR)) with false in R. cbv iota in R. change (Z.to_nat 0) with O in R.
    destruct (children n) as [|c0 cs]; [by destruct R as [_ ?]|]. change ((c0 :: cs) !! O) with (Some c0) in R. cbv zeta iota in R. exists c0. split; [done|].
    rewrite zlen_app in R. change (zlen [0]) with 1 in R. destruct (Z.ltb_spec 128 (zlen (name_of (sfs srv) c0) + 1)); [lia|]. by destruct R as [[= -> _] _].
  - unfold sbind at 1. rewrite (lib_step _ (set_libc u1 s) 0 u2 E2), set_libc_twice. exists 0, (set_cwd (strcpy (cwd s) p) (set_libc u2 s)), srv2, fs. split; [done|].
    split; [split; [done|unfold no_console; cbn; rewrite C2; exact Hc1|]|].
    { apply (chdir_ok (set_libc u2 s) ns); try done. by destruct K. }
    left. split; [done|]. split; [done|]. split; [unfold tty; cbn; rewrite T2, T1; done|]. apply (dir_tree srv srv2 fs vn n); [|done|done]. split; [by rewrite <- Es|]. split; [exact (ho_node _ _ _ _ _ _ Ho)|].
    apply andb_false_iff in Eb. rewrite !negb_false_iff, !Z.eqb_eq in Eb. destruct (Z.eqb_spec (ntype n) VFS_TYPE_DIR) as [|_]; [done|]. destruct R as [-> Ee]. rewrite Ee in Eb. by destruct Eb.
Qed.
(** [cd], on every branch. *)
Lemma cd_spec s srv i ns d : sh_at s srv i ns -> 0 ∈ d ->
  exists r s1 srv1 ns1, builtin_cd uninit [lit "cd"; d] s = Some (r, s1) /\ sh_at s1 srv1 i ns1 /\
    ((r = 0 /\ resolved_names ns (cstr d) = Some ns1 /\ tty s1 = tty s /\ exists vn n, dir_at srv1 ns1 vn n) \/
     (r = 1 /\ ns1 = ns /\ forall fs vn n, resolved_names ns (cstr d) = Some fs -> fits 256 1 fs = true -> dir_at srv fs vn n ->
        (forall k, 0 <= k < VFS_FD_MAX -> slot (g_clients srv) i k <> 0) \/
        tty s1 = tty s ++ byte_list "cd: " ++ path_of fs ++ byte_list ": Cannot allocate memory" ++ [10] \/
        exists c, head (children n) = Some c /\ 128 <= zlen (name_of (sfs srv) c))).
Proof using All.
  intros Sa Zd. pose proof Sa as [At Hc K]. unfold builtin_cd. change (zlen [lit "cd"; d] <? 2) with false. cbv iota. change (arg [lit "cd"; d] 1) with d. unfold with_path, sbind at 1.
  destruct (resolve_ok uninit uninit_len s ns d K Zd) as (r & p & buf & E & K' & Lp & R). rewrite E.
  assert (resolved_names ns (cstr d) = None \/ (exists fs, resolved_names ns (cstr d) = Some fs /\ fits 256 1 fs = false) -> r = -1 ->
    exists s1, (if negb (r =? 0) then out (litn "cd: path too long") >> sret 1 else sret 0) (set_buf buf s) = Some (1, s1) /\ sh_at s1 srv i ns) as P.
  { intros _ ->. cbn [Z.eqb negb]. destruct (prints_out (litn "cd: path too long") (set_buf buf s) Hc) as (e & c & Em). unfold sbind. rewrite Em. eexists. split; [done|].
    apply (sh_at_libc s srv srv i ns); [done|done|by apply attached_chat|done]. }
  destruct (resolved_names ns (cstr d)) as [fs|] eqn:Er; [destruct (fits 256 1 fs) eqn:Ef|].
  2,3: destruct P as (s1 & E1 & Sa1); [eauto|done|]; subst r; cbn [Z.eqb negb] in *; exists 1, s1, srv, ns; (split; [exact E1|]; split; [done|]; right; split; [done|]; split; [done|]); intros fs' vn n Efs Eff; congruence.
  clear P. destruct R as (-> & Ep & Zp & Fp & Hn). cbn [Z.eqb negb]. unfold sbind at 1. destruct (set_path_good p fs Zp Ep Fp Ef) as (Es & Zs & _).
  destruct (client_open_spec (sh_libc (set_buf buf s)) srv i p O_RDONLY 0 At Zp) as (fd & u1 & srv1 & Eo & At1 & _ & _ & C1 & _ & O); [by vm_compute|by vm_compute|].
  pose proof (quiet_open _ _ _ _ _ _ Eo) as T1. assert (no_console u1) as Hc1 by (unfold no_console; by rewrite C1). rewrite (lib_step _ (set_buf buf s) fd u1 Eo).
  destruct O as [(-> & He & O)|(Hfd & _ & _ & _ & f & n' & q & Ho & _ & _ & _ & _ & O)].
  - change (-1 <? 0) with true. cbv iota. destruct (prints_complain (lit "cd: ") p (set_libc u1 (set_buf buf s)) Hc1) as (e & c & Em). unfold sbind at 1. rewrite Em.
    eexists 1, _, srv1, ns. split; [done|]. split; [apply (sh_at_libc s srv srv1 i ns); [done|done|by apply attached_chat|done]|]. right. split; [done|]. split; [done|].
    intros fs' vn n [= <-] _ (Rv & En & Td). destruct O as [(x & g & O)|[_ O]]; [right; left|by left]. rewrite <- Es in Rv.
    destruct (open_reading _ _ _ _ _ _ (sv_fs _ (at_wf _ _ _ At)) Zs O) as [([Ee|Ee] & _)|(_ & Hne)]; [|lia|by destruct (Hne vn)]. assert (errno u1 = ENOMEM) as Ee' by lia.
    rewrite complain_spec in Em; [|done|vm_compute; set_solver|done|by vm_compute| |done].
    2: { destruct (cstr_split p Zp) as [t' Et']. apply (f_equal zlen) in Et'. rewrite zlen_app, zlen_cons in Et'. pose proof (zlen_nonneg t'). lia. }
    apply (f_equal (fmap (M := option) (fun x => tty x.2))) in Em. cbn [fmap option_fmap option_map snd] in Em. injection Em as Em. refine (eq_trans (eq_sym Em) _).
    unfold tty. cbn [sh_libc set_libc say set_world world w_tty]. rewrite T1, Ep. done.
  - unfold VFS_FD_MAX in Hfd. rewrite (proj2 (Z.ltb_ge fd 0)) by lia.
    destruct (open_reading _ _ _ _ _ _ (sv_fs _ (at_wf _ _ _ At)) Zs O) as [(_ & vn & m & Rm & Em & Fx)|(? & _)]; [|lia]. destruct (Fx eq_refl) as (Ff & Tr & Rt).
    assert (shape (sfs srv1) = shape (sfs srv)) as Sh by (by apply shape_tree). pose proof Ho as [_ _ Ho3 Ho4]. assert (f = MkFile vn 0 O_RDONLY 1) as -> by congruence. cbn [f_vn] in Ho4.
    assert (Vfs.resolve_path (sfs srv1) (set_path p) = (0, vn)) as Rp by (by rewrite (resolve_shape (sfs srv))).
    destruct (cd_opened (set_libc u1 (set_buf buf s)) srv1 i ns p fs fd q vn n') as (r & s2 & srv2 & ns2 & E2 & Sa2 & R2); try done; [by apply (sh_at_libc s srv srv1 i ns)|].
    exists r, s2, srv2, ns2. split; [exact E2|]. split; [done|]. destruct R2 as [(-> & -> & Et & n2 & D2)|(-> & -> & D2)]; [left|right]; (split; [done|]; split; [done|]).
    + split; [rewrite Et; exact T1|by exists vn, n2].
    + intros fs' vn' n [= <-] _ (Rv & En & Td). right. right. rewrite <- Es, Rm in Rv. injection Rv as <-. destruct (shape_node _ _ vn n Sh En) as (n2 & E2' & Sk). assert (n2 = n') as -> by congruence.
      unfold skeleton in Sk. injection Sk as K1 _ _ K2. destruct D2 as (c & Hd & Hl); [congruence|]. exists c. rewrite <- K2. split; [done|]. by rewrite <- (name_shape (sfs srv) (sfs srv1)).
Qed.
End linked.

(** ** Properties *)

(** The working directory.  Whatever the system answers and whatever the local
    arrays held before, a script of any lines that returns leaves the working
    directory an absolute path in normal form ([cd] checks and resolves before it
    stores): at most 32 names, none of them empty, [.] or [..], ended inside its
    256 bytes; and the buffer of [normalize_path] keeps its length. *)
Theorem shell_cwd_normal {W A} `{Sys W} `{UHeap A} (uninit : Z -> list Z) fuel have_vfs lines (s : shell W A) r s' ns :
  (forall n, 0 <= n -> zlen (uninit n) = n) -> Forall (fun l => 0 ∈ l) lines -> sh_ok s ns ->
  script_loop uninit fuel have_vfs lines s = Some (r, s') -> exists ns', sh_ok s' ns'.
Proof.
  intros Lu F K E. revert s ns K E. induction F as [|l lines Zl _ IH]; intros s ns K E; cbn [script_loop] in E.
  - refine ((_ : keeps _) _ _ _ _ E K). keeps.
  - unfold sbind at 1 in E. destruct (run_line uninit fuel l s) as [[rc s1]|] eqn:E1; [|done]. destruct (keeps_line uninit Lu fuel l Zl _ _ _ _ E1 K) as [ns1 K1].
    destruct (rc =? DISPATCH_QUIT); [|by eapply IH]. refine ((_ : keeps _) _ _ _ _ E K1). apply keeps_sbind; [apply keeps_out|]. intros _. keeps.
Qed.

(** C30: Changing the directory, on the linked system.  [cd d] returns.  When it
    returns 0, the working directory is the normal form of [d] seen from the old
    one, the server leads that path to a directory, and nothing was printed.  When
    it returns 1, the working directory is the old one; and if the normal form of
    [d] did fit and lead to a directory, then the client had no descriptor left, or
    the server no memory, as printed, or the first name in the directory has 128
    bytes or more. *)
Theorem shell_cd_correct {A B C} `{UHeapLaws A} `{UHeap B} {SC : Sys C} (uninit : Z -> list Z) fuel (s : shell (vworld A C) B) srv i ns d :
  (forall n, 0 <= n -> zlen (uninit n) = n) -> sh_at s srv i ns -> 0 ∈ d ->
  exists r s1 srv1 ns1, dispatch uninit fuel [lit "cd"; d] s = Some (r, s1) /\ sh_at s1 srv1 i ns1 /\
    ((r = 0 /\ resolved_names ns (cstr d) = Some ns1 /\ tty s1 = tty s /\ exists vn n, dir_at srv1 ns1 vn n) \/
     (r = 1 /\ ns1 = ns /\ forall fs vn n, resolved_names ns (cstr d) = Some fs -> fits 256 1 fs = true -> dir_at srv fs vn n ->
        (forall k, 0 <= k < VFS_FD_MAX -> slot (g_clients srv) i k <> 0) \/
        tty s1 = tty s ++ byte_list "cd: " ++ path_of fs ++ byte_list ": Cannot allocate memory" ++ [10] \/
        exists c, head (children n) = Some c /\ 128 <= zlen (name_of (sfs srv) c))).
Proof. intros Lu. exact (cd_spec uninit Lu s srv i ns d). Qed.

(** C8: What is echoed into a file is what [cat] prints, through the shell, libc,
    the messages, the server and the file system.  For a shell that is a client of
    the running server, [echo w1 ... wk > f] returns 1 and the shell goes on, or
    returns 0 and prints nothing; and then [cat f] prints exactly the words with
    single blanks between them and a newline and returns 0, or reports that the
    server had no memory to open the file and returns 1.  The working directory
    does not change. *)
Theorem shell_echo_cat {A B C} `{UHeapLaws A} `{UHeap B} {SC : Sys C} (uninit : Z -> list Z) (s : shell (vworld A C) B) srv i ns fuel a0 ws gt f rest :
  (forall n, 0 <= n -> zlen (uninit n) = n) -> sh_at s srv i ns ->
  0 ∈ a0 -> cstr a0 = byte_list "echo" -> Forall (fun w => 0 ∈ w /\ cstr w <> byte_list ">") ws -> 0 ∈ gt -> cstr gt = byte_list ">" -> 0 ∈ f ->
  let text := joined true ws ++ [10] in zlen text < 2 ^ 60 ->
  exists r s1 srv1, dispatch uninit fuel (a0 :: ws ++ gt :: f :: rest) s = Some (r, s1) /\ sh_at s1 srv1 i ns /\
    (r = 1 \/ r = 0 /\ tty s1 = tty s /\
       forall fuel2, (0 < fuel2)%nat -> zlen text <= 512 * (Z.of_nat fuel2 - 1) ->
         exists r2 s2 srv2 path, dispatch uninit fuel2 [lit "cat"; f] s1 = Some (r2, s2) /\ sh_at s2 srv2 i ns /\
           ((r2 = 0 /\ tty s2 = tty s1 ++ text) \/
            (r2 = 1 /\ tty s2 = tty s1 ++ byte_list "cat: " ++ path ++ byte_list ": Cannot allocate memory" ++ [10]))).
Proof.
  intros Lu Sa Z0 E0 F Zg Eg Zf text Hl. destruct (echo_spec uninit Lu s srv i ns fuel a0 ws gt f rest Sa Z0 E0 F Zg Eg Zf Hl) as (r & s1 & srv1 & E & Sa1 & R).
  exists r, s1, srv1. split; [done|]. split; [done|]. destruct R as [?|(-> & Et & fs & d & Er & Ef & Hd & Sl & St)]; [by left|right]. split; [done|]. split; [done|].
  intros fuel2 Hf2 Hs. destruct (cat_spec uninit Lu s1 srv1 i ns fuel2 f fs d text Sa1 Zf Er Ef Hd Sl St Hf2 Hs) as (r2 & s2 & srv2 & E2 & Sa2 & R2).
  by exists r2, s2, srv2, (path_of fs).
Qed.

(** ** Examples *)

Definition demo_uninit (n : Z) : list Z := replicate (Z.to_nat n) 170.
Definition demo_sh_env : env arena := MkEnv demo_arena {[ 0x1000 := lit "PATH=/" ]} true [0x1000; 0] 0 0 [] 0 0 false 0.
Definition demo_cwd : list Z := 47 :: replicate 255 0.
Definition demo_shell : shell (vworld arena ()) arena := MkShell demo_client demo_sh_env demo_cwd (demo_uninit 512).
(** The shell before it is attached. *)
Definition demo_start : shell (vworld arena ()) arena := MkShell demo_process demo_sh_env demo_cwd (demo_uninit 512).

Lemma demo_uninit_len n : 0 <= n -> zlen (demo_uninit n) = n.
Proof. intros Hn. unfold demo_uninit. rewrite zlen_replicate. lia. Qed.

Lemma demo_sh_ok u : sh_ok (MkShell u demo_sh_env demo_cwd (demo_uninit 512) : shell (vworld arena ()) arena) [].
Proof. split; cbn [cwd norm_buf]; [|by split; [constructor|]|done]. split; [done|]. split; [|done]. unfold demo_cwd. apply list_elem_of_further. by apply (elem_of_replicate 255 0 0). Qed.

Lemma demo_sh_at : exists srv i, sh_at demo_shell srv i [].
Proof.
  destruct demo_attached as (srv & i & At). exists srv, i. split; [exact At| |apply demo_sh_ok]. unfold no_console. vm_compute. reflexivity.
Qed.

Definition demo_lines : list (list Z) := lit <$> ["mkdir d"; "cd ./d//"; "cd missing"; "quit"]%string.

Lemma shell_cwd_normal_witness :
  exists s' ns', script_loop demo_uninit 4 true demo_lines demo_shell = Some (0, s') /\ sh_ok s' ns' /\ cstr (cwd s') = byte_list "/d".
Proof.
  pose (run := script_loop demo_uninit 4 true demo_lines demo_shell).
  assert ((fun x => (x.1, cstr (cwd x.2))) <$> run = Some (0, byte_list "/d")) as B by (vm_compute; reflexivity).
  assert (Forall (fun l => 0 ∈ l) demo_lines) as F by (repeat constructor; vm_compute; set_solver).
  destruct run as [[r s']|] eqn:E; [|discriminate B]. injection B as -> B.
  destruct (shell_cwd_normal demo_uninit 4 true demo_lines demo_shell 0 s' [] demo_uninit_len F (demo_sh_ok _) E) as [ns' K].
  exists s', ns'. split; [exact E|]. split; [exact K|exact B].
Defined.

Lemma shell_cd_correct_witness :
  exists s1 (srv1 : server arena) vn n, dispatch demo_uninit 1 [lit "cd"; lit "./..//"] demo_shell = Some (0, s1) /\ dir_at srv1 [] vn n /\ cstr (cwd s1) = byte_list "/".
Proof.
  destruct demo_sh_at as (srv & i & Sa).
  destruct (shell_cd_correct demo_uninit 1 demo_shell srv i [] (lit "./..//") demo_uninit_len Sa) as (r & s1 & srv1 & ns1 & E & Sa1 & R); [vm_compute; set_solver|].
  assert ((fun x => x.1) <$> dispatch demo_uninit 1 [lit "cd"; lit "./..//"] demo_shell = Some 0) as B by (vm_compute; reflexivity).
  rewrite E in B. injection B as ->. destruct R as [(_ & Er & _ & vn & n & D)|(R & _)]; [|discriminate R].
  assert (resolved_names [] (cstr (lit "./..//")) = Some []) as Er' by (vm_compute; reflexivity). rewrite Er' in Er. injection Er as <-.
  exists s1, srv1, vn, n. split; [exact E|]. split; [exact D|]. destruct Sa1 as [_ _ [(_ & _ & Ec) _ _]]. exact Ec.
Defined.

Lemma shell_echo_cat_witness :
  exists s1 s2, dispatch demo_uninit 1 (lit <$> ["echo"; "hi"; "you"; ">"; "f"]%string) demo_shell = Some (0, s1) /\
    dispatch demo_uninit 2 [lit "cat"; lit "f"] s1 = Some (0, s2) /\ tty s2 = tty s1 ++ byte_list "hi you" ++ [10].
Proof.
  destruct demo_sh_at as (srv & i & Sa).
  destruct (shell_echo_cat demo_uninit demo_shell srv i [] 1 (lit "echo") [lit "hi"; lit "you"] (lit ">") (lit "f") [] demo_uninit_len Sa) as (r & s1 & srv1 & E & _ & R);
    [vm_compute; set_solver|reflexivity|repeat constructor; (vm_compute; set_solver || discriminate)|vm_compute; set_solver|reflexivity|vm_compute; set_solver|by vm_compute|].
  pose (run := dispatch demo_uninit 1 (lit <$> ["echo"; "hi"; "you"; ">"; "f"]%string) demo_shell).
  assert ((fun x => x.1) <$> run = Some 0) as B by (vm_compute; reflexivity).
  assert ((fun x => x.1) <$> (run ≫= fun x => dispatch demo_uninit 2 [lit "cat"; lit "f"] x.2) = Some 0) as B2 by (vm_compute; reflexivity).
  change (run = Some (r, s1)) in E. rewrite E in B, B2. injection B as ->. destruct R as [R|(_ & _ & R)]; [discriminate R|].
  destruct (R 2%nat) as (r2 & s2 & srv2 & path & E2 & _ & R2); [lia|by vm_compute|]. cbn [mbind option_bind snd] in B2. rewrite E2 in B2. injection B2 as ->.
  exists s1, s2. split; [exact E|]. split; [exact E2|]. destruct R2 as [(_ & R2)|(R2 & _)]; [exact R2|discriminate R2].
Defined.

(** The whole script against the server: what appears on the console. *)
Definition transcript : list string := [
  "exshell 0.1 (non-interactive build, Phase 12.6)"; "type 'help' for the builtin list"; "exshell: VFS client attached";
  "exyde> help"; "builtins:"; "  echo - print arguments"; "  pwd - print working directory"; "  cd - change directory";
  "  ls - list directory contents"; "  cat - print file contents"; "  mkdir - create directory"; "  touch - create empty file";
  "  rm - remove file"; "  rmdir - remove empty directory"; "  ps - list processes"; "  run - spawn an initrd program and wait";
  "  env - print all environment variables"; "  printenv - print one environment variable"; "  export - set an environment variable";
  "  unset - remove an environment variable"; "  help - list builtins, or 'help <name>'"; "  version - print shell version";
  "  quit    exit the shell"; "  exit    alias for quit"; "  echo <text> > <file>   write text to file";
  "exyde> pwd"; "/"; "exyde> mkdir /tmp"; "exyde> cd /tmp"; "exyde> pwd"; "/tmp"; "exyde> touch notes.txt";
  "exyde> echo hello from exshell > notes.txt"; "exyde> ls"; "notes.txt"; "exyde> cat notes.txt"; "hello from exshell";
  "exyde> echo second line overwrites > notes.txt"; "exyde> cat notes.txt"; "second line overwrites"; "exyde> rm notes.txt";
  "exyde> ls"; "exyde> cd /"; "exyde> rmdir /tmp"; "exyde> pwd"; "/"; "exyde> env"; "PATH=/"; "exyde> printenv PATH"; "/";
  "exyde> export EXYDE_TEST=hello"; "exyde> printenv EXYDE_TEST"; "hello"; "exyde> unset EXYDE_TEST"; "exyde> printenv EXYDE_TEST";
  "exyde> echo env tests done"; "env tests done"; "exyde> run /bin/nonexistent"; "run: /bin/nonexistent: No such file or directory";
  "exyde> run /bin/echo"; "run: /bin/echo: No such file or directory"; "exyde> ps"; "ps: Function not implemented";
  "exyde> echo unknown-cmd"; "unknown-cmd"; "exyde> quit"; "exshell: bye" ]%string.

Example shell_script_runs :
  (fun x => (x.1, tty x.2)) <$> sh_main demo_uninit 20 demo_start = Some (0, concat ((fun l => byte_list l ++ [10]) <$> transcript)).
Proof. vm_compute. reflexivity. Qed.

(** A directory whose first entry has a name of 128 characters or more: [cd] takes it for a file, because
    [vfs_client_readdir] reports a name that does not fit the 128-byte array as an error. *)
Definition long_name : list Z := replicate 128 97.
Theorem cd_refuses_long_entry :
  let touch := byte_list "touch d/" ++ long_name ++ [0] in
  exists s', script_loop demo_uninit 4 true [lit "mkdir d"; touch; lit "cd d"] demo_shell = Some (0, s') /\
    cstr (cwd s') = byte_list "/" /\ byte_list "cd: /d: not a directory" ++ [10] `suffix_of` tty s'.
Proof.
  intros touch. pose (run := script_loop demo_uninit 4 true [lit "mkdir d"; touch; lit "cd d"] demo_shell). pose (msg := byte_list "cd: /d: not a directory" ++ [10]).
  assert ((fun x => (x.1, cstr (cwd x.2), drop (length (tty x.2) - length msg) (tty x.2))) <$> run = Some (0, byte_list "/", msg)) as B by (vm_compute; reflexivity).
  destruct run as [[r s']|] eqn:E; [|discriminate B]. cbn [fmap option_fmap option_map fst snd] in B. injection B as -> B1 B2. exists s'. split; [exact E|]. split; [exact B1|].
  exists (take (length (tty s') - length msg) (tty s')). change (tty s' = take (length (tty s') - length msg) (tty s') ++ msg). rewrite <- B2 at 2. symmetry. apply take_drop.
Qed.
