(* ===== verification/Boot.v ===== *)
(** * Booting: from the boot loader's information to the page allocator

    [arch/x86_64/boot/multiboot2.c] reads the memory map out of the structure
    the boot loader leaves in memory; the first part of [kmain] adds what the
    kernel itself occupies and starts the page allocator of [Pmm].  Memory is the
    byte at each physical address.  A panic stops the machine and is a result;
    [None] is a loop that does not end.  The lines written to the console are
    left out. *)
From S2P Require Import Prelude Bytes Pmm.

(** ** Memory *)

Abbreviation memory := (Z -> Z).

(** The [n]-byte integer at [a]. *)
Fixpoint load (n : nat) (m : memory) (a : Z) : Z :=
  match n with
  | O => 0
  | S n => m a + 256 * load n m (a + 1)
  end.

(** ** multiboot2.c *)

Definition MB2_BOOTLOADER_MAGIC : Z := 0x36D76289.
Definition MB2_TAG_END : Z := 0.
Definition MB2_TAG_MMAP : Z := 6.

Inductive boot_panic :=
  | BadMagic | NullInfo | MalformedInfo | BadEntrySize | MemmapOverflow | NoMmapTag | PmmPanic (p : pmm_panic).

Definition next_tag (m : memory) (tag : Z) : Z :=
  let addr := u64 (tag + load 4 m (tag + 4)) in
  Z.land (u64 (addr + 7)) (align_mask 3).

(** The loop over the entries of a memory map tag. *)
Fixpoint mmap_loop (fuel : nat) (m : memory) (p entry_size entries_end : Z) (mm : memmap) : option (boot_panic + memmap) :=
  match fuel with
  | O => None
  | S fuel =>
    if p + entry_size <=? entries_end then
      let len := load 8 m (p + 8) in
      if len =? 0 then mmap_loop fuel m (p + entry_size) entry_size entries_end mm
      else
        let '(ok, mm) := memmap_add mm (load 8 m p) len (load 4 m (p + 16)) in
        if negb ok then Some (inl MemmapOverflow)
        else mmap_loop fuel m (p + entry_size) entry_size entries_end mm
    else Some (inr mm)
  end.

(** The body of [if (tag->type == MB2_TAG_MMAP)]; an entry takes at least 24
    bytes, so [size] rounds are enough. *)
Definition read_mmap (m : memory) (tag : Z) (mm : memmap) : option (boot_panic + memmap) :=
  let size := load 4 m (tag + 4) in
  let entry_size := load 4 m (tag + 8) in
  if entry_size <? 24 then Some (inl BadEntrySize)
  else mmap_loop (S (Z.to_nat size)) m (tag + 16) entry_size (tag + size) mm.

Fixpoint tag_loop (fuel : nat) (m : memory) (tag end_ : Z) (found_mmap : bool) (mm : memmap) : option (boot_panic + bool * memmap) :=
  match fuel with
  | O => None
  | S fuel =>
    if tag + 8 <=? end_ then
      let type := load 4 m tag in
      if type =? MB2_TAG_END then Some (inr (found_mmap, mm))
      else if type =? MB2_TAG_MMAP then
        r ← read_mmap m tag mm;
        match r with
        | inl e => Some (inl e)
        | inr mm => tag_loop fuel m (next_tag m tag) end_ true mm
        end
      else tag_loop fuel m (next_tag m tag) end_ found_mmap mm
    else Some (inr (found_mmap, mm))
  end.

(** A tag that is not empty takes at least a byte, so [total_size] rounds are
    enough (bootinfo_returns); an empty one keeps the loop where it is. *)
Definition bootinfo_init (m : memory) (raw_addr : Z) : option (boot_panic + memmap) :=
  if raw_addr =? 0 then Some (inl NullInfo)
  else
    let total_size := load 4 m raw_addr in
    if total_size <? 8 then Some (inl MalformedInfo)
    else
      let mm := snd (memmap_reserve memmap_reset raw_addr total_size) in
      r ← tag_loop (S (Z.to_nat total_size)) m (raw_addr + 8) (raw_addr + total_size) false mm;
      Some match r with
           | inl e => inl e
           | inr (false, _) => inl NoMmapTag
           | inr (true, mm) => inr mm
           end.

(** ** kmain.c

    [kmain] up to the page allocator; [kernel_start] and [kernel_end] are the
    linker's addresses. *)
Definition kmain_memory (m : memory) (magic mb_info_addr kernel_start kernel_end : Z) (s : pmm) : option (boot_panic + memmap * pmm) :=
  if negb (magic =? MB2_BOOTLOADER_MAGIC) then Some (inl BadMagic)
  else
    r ← bootinfo_init m mb_info_addr;
    Some match r with
         | inl e => inl e
         | inr mm =>
           let mm := snd (memmap_reserve mm 0 0x100000) in
           let mm := snd (memmap_reserve mm kernel_start (u64 (kernel_end - kernel_start))) in
           match pmm_init mm s with
           | inl p => inl (PmmPanic p)
           | inr s => inr (mm, s)
           end
         end.

(** ** What memory holds *)

Fixpoint holds (m : memory) (a : Z) (bs : list Z) : Prop :=
  match bs with
  | [] => True
  | b :: bs => m a = b /\ holds m (a + 1) bs
  end.

Lemma holds_app m a l k : holds m a (l ++ k) <-> holds m a l /\ holds m (a + zlen l) k.
Proof.
  revert a. induction l as [|b l IH]; intros a; cbn [app holds]; [rewrite Z.add_0_r; tauto|].
  rewrite IH. replace (a + zlen (b :: l)) with (a + 1 + zlen l) by (unfold zlen; cbn [length]; lia). tauto.
Qed.

Lemma load_holds n m a x : 0 <= x < 256 ^ Z.of_nat n -> holds m a (le_bytes n x) -> load n m a = x.
Proof.
  revert a x. induction n as [|n IH]; intros a x Hx; cbn [load le_bytes holds]; [simpl in Hx; lia|].
  rewrite Nat2Z.inj_succ, Z.pow_succ_r in Hx by lia. intros [-> H]. rewrite (IH _ (x / 256)); [|Z.div_mod_to_equations; nia|done].
  pose proof (Z.div_mod x 256). lia.
Qed.

(** ** Boot information

    A tag of the structure, as its fields: the memory map, or one the kernel
    skips. *)
Record mmap_entry := MkEnt { e_addr : Z; e_len : Z; e_type : Z; e_resv : Z; e_more : list Z }.
Inductive boot_tag :=
  | TagMmap (entry_size version : Z) (entries : list mmap_entry) (rest : list Z)
  | TagOther (type : Z) (payload : list Z).

Definition entry_bytes (e : mmap_entry) : list Z :=
  le_bytes 8 (e_addr e) ++ le_bytes 8 (e_len e) ++ le_bytes 4 (e_type e) ++ le_bytes 4 (e_resv e) ++ e_more e.
Definition tag_size (t : boot_tag) : Z :=
  match t with
  | TagMmap sz _ es rest => 16 + sz * zlen es + zlen rest
  | TagOther _ payload => 8 + zlen payload
  end.
Definition tag_bytes (t : boot_tag) : list Z :=
  match t with
  | TagMmap sz ver es rest =>
    le_bytes 4 MB2_TAG_MMAP ++ le_bytes 4 (tag_size t) ++ le_bytes 4 sz ++ le_bytes 4 ver ++ (es ≫= entry_bytes) ++ rest
  | TagOther ty payload => le_bytes 4 ty ++ le_bytes 4 (tag_size t) ++ payload
  end.

Definition entry_ok (sz : Z) (e : mmap_entry) : Prop :=
  is_u64 (e_addr e) /\ is_u64 (e_len e) /\ is_u32 (e_type e) /\ is_u32 (e_resv e) /\ 24 + zlen (e_more e) = sz.
Definition tag_ok (t : boot_tag) : Prop :=
  tag_size t < 2 ^ 32 /\
  match t with
  | TagMmap sz ver es rest => 24 <= sz < 2 ^ 32 /\ is_u32 ver /\ Forall (entry_ok sz) es /\ zlen rest < sz
  | TagOther ty _ => is_u32 ty /\ ty <> MB2_TAG_END /\ ty <> MB2_TAG_MMAP
  end.

(** The tags lie one after the other from [a], each at the next multiple of 8,
    and an end tag closes the list before [stop]. *)
Fixpoint tags_at (m : memory) (a : Z) (ts : list boot_tag) (stop : Z) : Prop :=
  a + 8 <= stop /\
  match ts with
  | [] => holds m a (le_bytes 4 MB2_TAG_END)
  | t :: ts => tag_ok t /\ holds m a (tag_bytes t) /\
      let b := a + tag_size t in tags_at m (b + (- b) mod 8) ts stop
  end.

Definition info_at (m : memory) (raw total : Z) (ts : list boot_tag) : Prop :=
  0 < raw /\ raw + total < 2 ^ 62 /\ 8 <= total < 2 ^ 32 /\ holds m raw (le_bytes 4 total) /\ tags_at m (raw + 8) ts (raw + total).

(** The regions the tags report. *)
Definition entry_region (e : mmap_entry) : memory_region_t := MkRegion (e_addr e) (e_len e) (e_type e).
Definition entry_regions (es : list mmap_entry) : list memory_region_t :=
  entry_region <$> filter (fun e => e_len e <> 0) es.
Definition tag_regions (t : boot_tag) : list memory_region_t :=
  match t with TagMmap _ _ es _ => entry_regions es | TagOther _ _ => [] end.
Definition is_mmap (t : boot_tag) : bool := match t with TagMmap _ _ _ _ => true | _ => false end.

Lemma zlen_entry_bytes sz e : entry_ok sz e -> zlen (entry_bytes e) = sz.
Proof.
  intros (_ & _ & _ & _ & E). unfold entry_bytes. rewrite !zlen_app, !zlen_le_bytes. lia.
Qed.

(** The fields of an entry in memory. *)
Lemma entry_loads sz m p e k : entry_ok sz e -> holds m p (entry_bytes e ++ k) ->
  load 8 m p = e_addr e /\ load 8 m (p + 8) = e_len e /\ load 4 m (p + 16) = e_type e /\ holds m (p + sz) k.
Proof.
  intros Ok H. pose proof (zlen_entry_bytes _ _ Ok) as L. destruct Ok as (Ha & Hl & Ht & _ & _). apply holds_app in H as [H Hk].
  rewrite L in Hk. unfold entry_bytes in H. apply holds_app in H as [H1 H]. apply holds_app in H as [H2 H]. apply holds_app in H as [H3 _].
  rewrite !zlen_le_bytes in *. split_and!; [by apply load_holds..|replace (p + 16) with (p + Z.of_nat 8 + Z.of_nat 8) by lia; by apply load_holds|done].
Qed.

(** Adding the regions of a list one by one: all of them, or an overflow. *)
Definition added (mm rs : memmap) : boot_panic + memmap :=
  if MEMMAP_MAX_REGIONS <? zlen mm + zlen rs then inl MemmapOverflow else inr (mm ++ rs).

Lemma mmap_loop_spec m sz rest : 24 <= sz -> zlen rest < sz -> forall es fuel p mm,
  Forall (entry_ok sz) es -> holds m p ((es ≫= entry_bytes) ++ rest) -> (length es < fuel)%nat -> zlen mm <= MEMMAP_MAX_REGIONS ->
  mmap_loop fuel m p sz (p + sz * zlen es + zlen rest) mm = Some (added mm (entry_regions es)).
Proof.
  intros Hsz Hrest. induction es as [|e es IH]; intros [|fuel] p mm F H Hf Hmm; cbn [length] in Hf; try lia; cbn [mmap_loop].
  - unfold zlen at 1. cbn [length]. destruct (Z.leb_spec (p + sz) (p + sz * Z.of_nat 0 + zlen rest)); [lia|].
    unfold added. change (entry_regions []) with (@nil memory_region_t). rewrite app_nil_r. change (zlen (@nil memory_region_t)) with 0. zif; [lia|done].
  - apply Forall_cons in F as [Fe F]. cbn [mbind list_bind] in H. rewrite <- app_assoc in H. destruct (entry_loads _ _ _ _ _ Fe H) as (E1 & E2 & E3 & H').
    replace (p + sz * zlen (e :: es) + zlen rest) with (p + sz + sz * zlen es + zlen rest) by (rewrite !zlen_cons; lia).
    pose proof (zlen_nonneg es). pose proof (zlen_nonneg rest). destruct (Z.leb_spec (p + sz) (p + sz + sz * zlen es + zlen rest)); [|nia].
    rewrite E1, E2, E3. unfold entry_regions. destruct (Z.eqb_spec (e_len e) 0) as [Z0|Z0].
    + rewrite filter_cons_False by tauto. apply IH; [done..|lia|done].
    + rewrite filter_cons_True by done. unfold memmap_add. destruct (Z.eqb_spec (e_len e) 0); [done|]. cbn [fmap list_fmap].
      fold (entry_regions es). unfold added. pose proof (zlen_nonneg (entry_regions es)).
      replace (zlen (entry_region e :: entry_regions es)) with (1 + zlen (entry_regions es)) by (rewrite !zlen_cons; lia).
      destruct (Z.leb_spec MEMMAP_MAX_REGIONS (zlen mm)); cbn [negb]; [zif; [done|lia]|].
      rewrite (IH _ _ _ F H') by (rewrite ?zlen_app; change (zlen [_]) with 1; lia). unfold added. rewrite zlen_app, <- app_assoc, <- Z.add_assoc. done.
Qed.

Lemma align8_spec x : 0 <= x < 2 ^ 63 -> Z.land (u64 (x + 7)) (align_mask 3) = x + (- x) mod 8.
Proof.
  intros. rewrite u64_small by lia. rewrite land_align by lia. change (2 ^ 3) with 8. Z.div_mod_to_equations. lia.
Qed.

(** The fields every tag starts with. *)
Lemma tag_loads m a t : tag_ok t -> holds m a (tag_bytes t) ->
  load 4 m a = match t with TagMmap _ _ _ _ => MB2_TAG_MMAP | TagOther ty _ => ty end /\ load 4 m (a + 4) = tag_size t /\ 8 <= tag_size t < 2 ^ 32.
Proof.
  intros [Hs Ok] H.
  assert (8 <= tag_size t) as Hs'.
  { destruct t as [sz ver es rest|ty pl]; cbn [tag_size].
    - pose proof (zlen_nonneg es). pose proof (zlen_nonneg rest). destruct Ok. nia.
    - pose proof (zlen_nonneg pl). lia. }
  assert (forall ty k, is_u32 ty -> holds m a (le_bytes 4 ty ++ le_bytes 4 (tag_size t) ++ k) -> load 4 m a = ty /\ load 4 m (a + 4) = tag_size t) as L.
  { intros ty k Hty [H1 H2]%holds_app. apply holds_app in H2 as [H2 _]. rewrite zlen_le_bytes in H2.
    split; apply load_holds; try done. change (256 ^ Z.of_nat 4) with (2 ^ 32). lia. }
  destruct t as [sz ver es rest|ty pl]; cbn [tag_bytes] in H; apply L in H as [-> ->]; try (split_and!; [done..|lia|lia]); [unfold MB2_TAG_MMAP, is_u32; lia|apply Ok].
Qed.

Lemma next_tag_spec m a t : 0 <= a < 2 ^ 62 -> tag_ok t -> holds m a (tag_bytes t) ->
  next_tag m a = let b := a + tag_size t in b + (- b) mod 8.
Proof.
  intros Ha Ok H. destruct (tag_loads m a t Ok H) as (_ & E & R). unfold next_tag. rewrite E, (u64_small (a + tag_size t)) by lia. apply align8_spec. lia.
Qed.

Lemma read_mmap_spec m a sz ver es rest mm : tag_ok (TagMmap sz ver es rest) -> holds m a (tag_bytes (TagMmap sz ver es rest)) ->
  zlen mm <= MEMMAP_MAX_REGIONS -> read_mmap m a mm = Some (added mm (entry_regions es)).
Proof.
  intros Ok H Hmm. destruct (tag_loads m a _ Ok H) as (_ & E & R). destruct Ok as [_ (Hsz & Hv & F & Hr)]. unfold read_mmap. rewrite E.
  cbn [tag_bytes] in H. apply holds_app in H as [_ H]. apply holds_app in H as [_ H]. apply holds_app in H as [H3 H]. apply holds_app in H as [_ H].
  rewrite !zlen_le_bytes in *. replace (a + 8) with (a + Z.of_nat 4 + Z.of_nat 4) by lia. rewrite (load_holds 4 m _ sz) by (done || (change (256 ^ Z.of_nat 4) with (2 ^ 32); lia)).
  zif; [lia|]. cbn [tag_size] in *. pose proof (zlen_nonneg rest). replace (a + (16 + sz * zlen es + zlen rest)) with (a + 16 + sz * zlen es + zlen rest) by lia.
  replace (a + Z.of_nat 4 + Z.of_nat 4 + Z.of_nat 4 + Z.of_nat 4) with (a + 16) in H by lia. apply mmap_loop_spec; [lia|done..| |done]. pose proof (zlen_nonneg es). unfold zlen in *. nia.
Qed.

Lemma tag_loop_spec m stop : stop < 2 ^ 62 -> forall ts fuel a found mm,
  0 <= a -> tags_at m a ts stop -> (length ts < fuel)%nat -> zlen mm <= MEMMAP_MAX_REGIONS ->
  tag_loop fuel m a stop found mm =
  Some match added mm (ts ≫= tag_regions) with inl e => inl e | inr mm => inr (found || existsb is_mmap ts, mm) end.
Proof.
  intros Hs. induction ts as [|t ts IH]; intros [|fuel] a found mm Ha T Hf Hmm; cbn [length] in Hf; try lia; cbn [tag_loop tags_at] in *.
  - destruct T as [T1 T2]. destruct (Z.leb_spec (a + 8) stop); [|lia]. rewrite (load_holds 4 m a MB2_TAG_END ltac:(done) T2).
    rewrite Z.eqb_refl. cbn [mbind list_bind existsb]. unfold added. change (zlen (@nil memory_region_t)) with 0. zif; [lia|]. by rewrite app_nil_r, orb_false_r.
  - destruct T as (T1 & Ok & H & T). destruct (Z.leb_spec (a + 8) stop); [|lia]. destruct (tag_loads m a t Ok H) as (E & _ & R). cbv zeta. rewrite E.
    pose proof (next_tag_spec m a t ltac:(lia) Ok H) as N. cbv zeta in N, T. rewrite N.
    pose proof (Z.mod_pos_bound (- (a + tag_size t)) 8 ltac:(lia)) as B.
    change ((t :: ts) ≫= tag_regions) with (tag_regions t ++ (ts ≫= tag_regions)). generalize dependent (ts ≫= tag_regions). intros rs IH. cbn [existsb].
    destruct t as [sz ver es rest|ty pl].
    + cbn [Z.eqb]. change (MB2_TAG_MMAP =? MB2_TAG_END) with false. rewrite Z.eqb_refl. cbv iota. rewrite (read_mmap_spec m a sz ver es rest) by done.
      cbn [mbind option_bind tag_regions is_mmap]. unfold added at 1 2. rewrite zlen_app. pose proof (zlen_nonneg rs). pose proof (zlen_nonneg (entry_regions es)).
      destruct (Z.ltb_spec MEMMAP_MAX_REGIONS (zlen mm + zlen (entry_regions es))).
      * zif; [done|]. lia.
      * rewrite (IH fuel) by (rewrite ?zlen_app; lia || done). unfold added. rewrite zlen_app, <- app_assoc, Z.add_assoc, orb_true_l, orb_true_r. by zif.
    + destruct Ok as [_ (Hu & O1 & O2)]. rewrite (proj2 (Z.eqb_neq _ _) O1), (proj2 (Z.eqb_neq _ _) O2). cbn [tag_regions is_mmap app orb]. apply IH; [lia|done|lia|done].
Qed.

Lemma tags_at_room m ts : forall a stop, 0 <= a -> tags_at m a ts stop -> a + 8 * zlen ts + 8 <= stop.
Proof.
  induction ts as [|t ts IH]; intros a stop Ha T; cbn [tags_at] in T; [change (zlen []) with 0; lia|]. destruct T as (T1 & Ok & H & T).
  destruct (tag_loads m a t Ok H) as (_ & _ & R). pose proof (Z.mod_pos_bound (- (a + tag_size t)) 8 ltac:(lia)). apply IH in T; [|lia].
  unfold zlen in *. cbn [length]. lia.
Qed.

(** The memory map that [bootinfo_init] builds. *)
Definition boot_map (raw total : Z) (ts : list boot_tag) : memmap :=
  MkRegion raw total MEMORY_RESERVED :: (ts ≫= tag_regions).

Lemma bootinfo_spec m raw total ts : info_at m raw total ts ->
  bootinfo_init m raw = Some (if MEMMAP_MAX_REGIONS <? zlen (boot_map raw total ts) then inl MemmapOverflow
                              else if negb (existsb is_mmap ts) then inl NoMmapTag else inr (boot_map raw total ts)).
Proof.
  intros (Hr & Hb & Ht & H & T). unfold bootinfo_init. destruct (Z.eqb_spec raw 0); [lia|].
  rewrite (load_holds 4 m raw total) by (done || (change (256 ^ Z.of_nat 4) with (2 ^ 32); lia)). cbv zeta. destruct (Z.ltb_spec total 8); [lia|].
  pose proof (tags_at_room m ts (raw + 8) (raw + total) ltac:(lia) T). unfold memmap_reserve, memmap_add, memmap_reset. destruct (Z.eqb_spec total 0); [lia|]. cbn [snd app].
  change (MEMMAP_MAX_REGIONS <=? zlen (@nil memory_region_t)) with false. cbv iota. cbn [snd].
  rewrite (tag_loop_spec m (raw + total) ltac:(lia) ts) by (done || lia || (unfold zlen in *; lia)). cbn [mbind option_bind]. unfold added, boot_map.
  replace (zlen (MkRegion raw total MEMORY_RESERVED :: (ts ≫= tag_regions))) with (1 + zlen (ts ≫= tag_regions)) by (rewrite !zlen_cons; lia).
  change (zlen [MkRegion raw total MEMORY_RESERVED]) with 1. zif; [done|]. by destruct (existsb is_mmap ts).
Qed.

(** ** Termination on arbitrary memory *)

Definition byte_mem (m : memory) : Prop := forall a, 0 <= m a < 256.

Lemma load_range n m a : byte_mem m -> 0 <= load n m a < 256 ^ Z.of_nat n.
Proof.
  intros B. revert a. induction n as [|n IH]; intros a; cbn [load]; [done|]. rewrite Nat2Z.inj_succ, Z.pow_succ_r by lia.
  specialize (IH (a + 1)). specialize (B a). lia.
Qed.

(** What a map has that was built by adding regions. *)
Definition map_grows (mm mm' : memmap) : Prop :=
  mm `prefix_of` mm' /\ zlen mm' <= MEMMAP_MAX_REGIONS.

Lemma map_grows_trans m1 m2 m3 : map_grows m1 m2 -> map_grows m2 m3 -> map_grows m1 m3.
Proof. intros [P1 _] [P2 L]. split; [by etrans|done]. Qed.

Lemma memmap_add_grows mm b s t : zlen mm <= MEMMAP_MAX_REGIONS -> map_grows mm (snd (memmap_add mm b s t)).
Proof.
  intros L. unfold memmap_add. zif; [by split|]. zif; [by split|]. split; [by eexists|]. cbn [snd]. rewrite zlen_app, zlen_cons. change (zlen (@nil memory_region_t)) with 0. lia.
Qed.

Lemma mmap_loop_returns m sz stop : 24 <= sz -> forall fuel p mm, stop - p < Z.of_nat fuel -> (0 < fuel)%nat -> zlen mm <= MEMMAP_MAX_REGIONS ->
  exists r, mmap_loop fuel m p sz stop mm = Some r /\ forall mm', r = inr mm' -> map_grows mm mm'.
Proof.
  intros Hsz. induction fuel as [|fuel IH]; intros p mm Hf H0 Hmm; [lia|]. cbn [mmap_loop].
  zif; [|exists (inr mm); split; [done|]; intros ? [= <-]; by split]. zif; [apply IH; lia|].
  pose proof (memmap_add_grows mm (load 8 m p) (load 8 m (p + 8)) (load 4 m (p + 16)) Hmm) as G.
  destruct (memmap_add mm _ _ _) as [ok mm1] eqn:E. cbn [snd] in G. destruct ok; cbn [negb]; [|by exists (inl MemmapOverflow)].
  destruct (IH (p + sz) mm1) as (r & Er & Hr); [lia|lia|apply G|]. exists r. split; [done|]. intros mm' ->. eapply map_grows_trans; eauto.
Qed.

Lemma next_tag_moves m a : byte_mem m -> 0 <= a < 2 ^ 62 -> load 4 m (a + 4) <> 0 -> a < next_tag m a.
Proof.
  intros B Ha H. pose proof (load_range 4 m (a + 4) B) as R. change (256 ^ Z.of_nat 4) with (2 ^ 32) in R. unfold next_tag. cbv zeta.
  rewrite (u64_small (a + _)) by lia. rewrite align8_spec by lia. Z.div_mod_to_equations. lia.
Qed.

(** The addresses the walk over the tags comes to. *)
Inductive on_walk (m : memory) (start stop : Z) : Z -> Prop :=
  | walk_start : on_walk m start stop start
  | walk_next a : on_walk m start stop a -> a + 8 <= stop -> load 4 m a <> MB2_TAG_END -> on_walk m start stop (next_tag m a).

Definition no_empty_tag (m : memory) (start stop : Z) : Prop :=
  forall a, on_walk m start stop a -> a + 8 <= stop -> load 4 m a <> MB2_TAG_END -> load 4 m (a + 4) <> 0.

Lemma tag_loop_returns m lo stop : byte_mem m -> 0 <= lo -> stop < 2 ^ 62 -> no_empty_tag m lo stop -> forall fuel a found mm,
  on_walk m lo stop a -> lo <= a -> stop - a < Z.of_nat fuel -> (0 < fuel)%nat -> zlen mm <= MEMMAP_MAX_REGIONS ->
  exists r, tag_loop fuel m a stop found mm = Some r /\ forall f mm', r = inr (f, mm') -> map_grows mm mm'.
Proof.
  intros B Hlo Hs Hz. induction fuel as [|fuel IH]; intros a found mm Wa Ha Hf H0 Hmm; [lia|]. cbn [tag_loop].
  zif; [|exists (inr (found, mm)); split; [done|]; intros ? ? [= <- <-]; by split].
  cbv zeta. zif; [exists (inr (found, mm)); split; [done|]; intros ? ? [= <- <-]; by split|].
  assert (a < next_tag m a) as N by (apply next_tag_moves; [done|lia|by apply Hz]).
  pose proof (walk_next _ _ _ _ Wa ltac:(lia) ltac:(done)) as W. zif; [|apply IH; [done|lia..]].
  unfold read_mmap. cbv zeta. zif; [by exists (inl BadEntrySize)|].
  destruct (mmap_loop_returns m (load 4 m (a + 8)) (a + load 4 m (a + 4)) ltac:(lia) (S (Z.to_nat (load 4 m (a + 4)))) (a + 16) mm) as (r & -> & Hr);
    [pose proof (load_range 4 m (a + 4) B); lia|lia|done|]. cbn [mbind option_bind]. destruct r as [e|mm1]; [by exists (inl e)|].
  specialize (Hr mm1 eq_refl). destruct (IH (next_tag m a) true mm1) as (r & Er & Hr'); [done|lia|lia|lia|apply Hr|].
  exists r. split; [done|]. intros f mm' ->. eapply map_grows_trans; [apply Hr|]. by eapply Hr'.
Qed.

(** C40: Reading the boot information always ends, whatever bytes memory holds,
    as long as no tag of the structure has size 0: it panics or gives a memory
    map that starts with the structure itself and has at most 128 regions. *)
Theorem bootinfo_returns m raw :
  byte_mem m -> 0 < raw -> raw + load 4 m raw < 2 ^ 62 -> no_empty_tag m (raw + 8) (raw + load 4 m raw) ->
  exists r, bootinfo_init m raw = Some r /\
    forall mm, r = inr mm -> [MkRegion raw (load 4 m raw) MEMORY_RESERVED] `prefix_of` mm /\ memmap_count mm <= MEMMAP_MAX_REGIONS.
Proof.
  intros B H0 Hs Hz. unfold bootinfo_init. destruct (Z.eqb_spec raw 0); [lia|]. cbv zeta. zif; [by exists (inl MalformedInfo)|].
  unfold memmap_reserve, memmap_add, memmap_reset. destruct (Z.eqb_spec (load 4 m raw) 0); [lia|]. change (MEMMAP_MAX_REGIONS <=? zlen (@nil memory_region_t)) with false. cbn [snd app].
  destruct (tag_loop_returns m (raw + 8) (raw + load 4 m raw) B ltac:(lia) Hs Hz (S (Z.to_nat (load 4 m raw))) (raw + 8) false [MkRegion raw (load 4 m raw) MEMORY_RESERVED])
    as (r & -> & Hr); [constructor|lia|lia|lia|done|].
  cbn [mbind option_bind]. eexists. split; [done|]. intros mm E. destruct r as [e|[[] mm1]]; simplify_eq. exact (Hr _ _ eq_refl).
Qed.

(** ** What is free after booting *)

(** The regions [kmain] adds. *)
Definition kernel_regions (ks ke : Z) : memmap := [MkRegion 0 0x100000 MEMORY_RESERVED; MkRegion ks (ke - ks) MEMORY_RESERVED].

(** A page meets the addresses from [a] up to [b]. *)
Definition page_meets (p a b : Z) : Prop := a < (p + 1) * PAGE_SIZE /\ p * PAGE_SIZE < b.

Lemma touches_meets r p : touches r p = true <-> page_meets p (r_base r) (r_base r + r_size r).
Proof. unfold touches, page_meets. rewrite andb_true_iff, !Z.ltb_lt. done. Qed.

Lemma existsb_both {A} (f g : A -> bool) l : existsb (fun x => f x && g x) l = true <-> exists x, x ∈ l /\ f x = true /\ g x = true.
Proof. rewrite existsb_exists. setoid_rewrite andb_true_iff. by setoid_rewrite list_elem_of_In. Qed.

(** The kernel's reservations, when there is room for them. *)
Lemma kmain_memory_spec m raw total ts ks ke s :
  info_at m raw total ts -> existsb is_mmap ts = true -> zlen (ts ≫= tag_regions) <= 125 -> 0 <= ks < ke -> ke < 2 ^ 63 ->
  kmain_memory m MB2_BOOTLOADER_MAGIC raw ks ke s =
  Some (match pmm_init (boot_map raw total ts ++ kernel_regions ks ke) s with
        | inl p => inl (PmmPanic p) | inr s => inr (boot_map raw total ts ++ kernel_regions ks ke, s) end).
Proof.
  intros I M L Hk Hke. unfold kmain_memory. rewrite Z.eqb_refl. cbn [negb]. rewrite (bootinfo_spec _ _ _ _ I), M. cbn [negb].
  assert (zlen (boot_map raw total ts) <= 126) as L' by (unfold boot_map; rewrite zlen_cons; lia). unfold MEMMAP_MAX_REGIONS. zif; [lia|].
  cbn [mbind option_bind]. unfold memmap_reserve, memmap_add, MEMMAP_MAX_REGIONS. change (1048576 =? 0) with false. cbv iota. destruct (Z.leb_spec 128 (zlen (boot_map raw total ts))); [lia|].
  cbn [snd]. rewrite u64_small by lia. destruct (Z.eqb_spec (ke - ks) 0); [lia|]. rewrite zlen_app. change (zlen [_]) with 1. zif; [lia|]. cbn [snd].
  unfold kernel_regions. by rewrite <- app_assoc.
Qed.

(** C17: After [kmain] has read the boot information and started the page
    allocator, a page is free exactly when it lies inside a usable region of the
    boot loader's map and meets no other region of it, nor the boot information
    itself, the first megabyte or the kernel image.  This is for a map of at most
    125 regions: the table of [memmap.c] has 128 places, and [kmain] ignores that
    its three own entries did not fit (see [kernel_reserve_lost], where 127
    regions leave the kernel image unreserved). *)
Theorem boot_memory_correct m raw total ts ks ke s :
  info_at m raw total ts -> existsb is_mmap ts = true -> zlen (ts ≫= tag_regions) <= 125 -> Forall region_ok (ts ≫= tag_regions) ->
  0 <= ks < ke -> ke < 2 ^ 63 -> bm_ok (used_bitmap s) -> bm_ok (resv_bitmap s) ->
  (existsb usable (ts ≫= tag_regions) = false /\ kmain_memory m MB2_BOOTLOADER_MAGIC raw ks ke s = Some (inl (PmmPanic NoUsableMemory))) \/
  exists mm s', kmain_memory m MB2_BOOTLOADER_MAGIC raw ks ke s = Some (inr (mm, s')) /\ pmm_inv s' /\
    forall p, 0 <= p < total_pages s' ->
      (used_get s' p = false <->
         (exists r, r ∈ ts ≫= tag_regions /\ usable r = true /\ covers r p = true) /\
         ~ (exists r, r ∈ ts ≫= tag_regions /\ usable r = false /\ touches r p = true) /\
         ~ page_meets p raw (raw + total) /\ ~ page_meets p 0 0x100000 /\ ~ page_meets p ks ke).
Proof.
  intros I M L F Hk Hke B1 B2. rewrite (kmain_memory_spec m raw total ts ks ke s) by done. destruct I as (Hr & Hb & Ht & _).
  set (mm := boot_map raw total ts ++ kernel_regions ks ke).
  assert (Forall region_ok mm) as F'.
  { subst mm. unfold boot_map, kernel_regions. apply Forall_app. split; [constructor; [|done]|repeat constructor]; unfold region_ok, PAGE_SIZE; cbn [r_base r_size]; lia. }
  assert (forall f, (forall r, usable r = false -> f r = false) -> existsb f mm = existsb f (ts ≫= tag_regions)) as Eu.
  { intros f Hf. subst mm. unfold boot_map, kernel_regions. rewrite existsb_app. cbn [existsb]. by rewrite !Hf, !orb_false_r by done. }
  destruct (pmm_init_ok mm s F' B1 B2) as [[U ->]|(s' & U & -> & Inv & P)].
  - left. split; [|done]. rewrite <- U. symmetry. by apply Eu.
  - right. exists mm, s'. split_and!; [done..|]. intros p Hp. destruct (P p Hp) as [-> _].
    rewrite orb_false_iff, negb_false_iff, (Eu (fun r => usable r && covers r p)), (existsb_both usable) by (by intros r ->).
    rewrite <- not_true_iff_false. subst mm. unfold boot_map, kernel_regions. rewrite existsb_app. cbn [app existsb]. rewrite !orb_true_iff.
    rewrite (existsb_both (fun r => negb (usable r))). assert (forall r, negb (usable r) = true <-> usable r = false) as Nu by (intros; apply negb_true_iff).
    setoid_rewrite Nu. change (usable (MkRegion ?a ?b MEMORY_RESERVED)) with false. cbn [negb andb]. rewrite !touches_meets. cbn [r_base r_size].
    replace (ks + (ke - ks)) with ke by lia. rewrite Z.add_0_l. intuition congruence.
Qed.

(** ** Examples *)

(** A structure with its tags padded to multiples of 8 and an end tag. *)
Definition boot_info_bytes (ts : list boot_tag) : list Z :=
  let body := (ts ≫= fun t => tag_bytes t ++ replicate (Z.to_nat ((- tag_size t) mod 8)) 0) ++ le_bytes 4 MB2_TAG_END ++ le_bytes 4 8 in
  le_bytes 4 (8 + zlen body) ++ le_bytes 4 0 ++ body.
Definition mem_of (base : Z) (l : list Z) : memory := fun a => if a <? base then 0 else zget 0 l (a - base).

(** 3 MiB of memory, an empty entry, and the last page of the third MiB reserved. *)
Definition demo_tags : list boot_tag :=
  [TagOther 2 [71; 82; 85; 66; 0];
   TagMmap 24 0 [MkEnt 0 0x300000 1 0 []; MkEnt 0x500000 0 1 0 []; MkEnt 0x2ff800 0x800 2 0 []] []].
Definition demo_mem : memory := mem_of 0x9000 (boot_info_bytes demo_tags).

Lemma demo_tags_ok : Forall tag_ok demo_tags.
Proof.
  constructor; [by vm_compute|]. constructor; [|done]. split; [by vm_compute|]. split; [lia|]. split; [by vm_compute|]. split; [|by vm_compute].
  repeat constructor; vm_compute; congruence.
Qed.

Lemma demo_info : info_at demo_mem 0x9000 (zlen (boot_info_bytes demo_tags)) demo_tags.
Proof.
  pose proof demo_tags_ok as F. apply Forall_cons in F as [T1 F]. apply Forall_cons in F as [T2 _]. unfold info_at.
  do 4 (split; [vm_compute; repeat split; congruence|]). unfold demo_tags. cbn [tags_at].
  split; [vm_compute; congruence|]. split; [exact T1|]. split; [vm_compute; repeat split|].
  split; [vm_compute; congruence|]. split; [exact T2|]. split; [vm_compute; repeat split|]. vm_compute. repeat split; congruence.
Qed.

Lemma boot_memory_correct_witness :
  exists mm s', kmain_memory demo_mem MB2_BOOTLOADER_MAGIC 0x9000 0x100000 0x180000 pmm_bss = Some (inr (mm, s')) /\ pmm_inv s' /\
    free_pages s' = 383 /\ used_get s' 0x17f = true /\ used_get s' 0x180 = false.
Proof.
  destruct pmm_bss_ok as [B1 B2].
  destruct (boot_memory_correct demo_mem 0x9000 (zlen (boot_info_bytes demo_tags)) demo_tags 0x100000 0x180000 pmm_bss demo_info) as [[U _]|(mm & s' & E & Inv & _)];
    [reflexivity|vm_compute; discriminate|repeat constructor; vm_compute; congruence|lia|lia|done|done|discriminate U|].
  exists mm, s'. split; [done|]. split; [done|]. vm_compute in E. injection E as _ <-. vm_compute. repeat split.
Defined.

Lemma bootinfo_returns_witness :
  exists mm, bootinfo_init demo_mem 0x9000 = Some (inr mm) /\ memmap_count mm = 3.
Proof.
  assert (byte_mem demo_mem) as B.
  { intros a. unfold demo_mem, mem_of. zif; [lia|]. assert (Forall (fun b => 0 <= b < 256) (boot_info_bytes demo_tags)) as F
      by (vm_compute; repeat constructor; discriminate). unfold zget. rewrite nth_lookup. destruct (_ !! _) as [b|] eqn:E; [|done]. by apply (Forall_lookup_1 _ _ _ _ F E). }
  assert (forall a, on_walk demo_mem 0x9008 0x9078 a -> a = 0x9008 \/ a = 0x9018 \/ a = 0x9070) as Wk.
  { induction 1 as [|a _ [->|[->| ->]] _ N]; [by left|right; left; by vm_compute|right; right; by vm_compute|by vm_compute in N]. }
  destruct (bootinfo_returns demo_mem 0x9000 B) as (r & E & H); [lia|done| |].
  - intros a Ha _ N. apply Wk in Ha as [->|[->| ->]]; [discriminate|discriminate|by vm_compute in N].
  - exists (match r with inr mm => mm | inl _ => [] end). split; [|]; vm_compute in E; injection E as <-; vm_compute; reflexivity.
Defined.

(** ** What the code does not check *)

(** A tag of size 0 that is not the end tag: the loop stays at it for ever. *)
Theorem empty_tag_hangs m a stop : 0 <= a < 2 ^ 62 -> a mod 8 = 0 -> a + 8 <= stop ->
  load 4 m a <> MB2_TAG_END -> load 4 m a <> MB2_TAG_MMAP -> load 4 m (a + 4) = 0 ->
  forall fuel found mm, tag_loop fuel m a stop found mm = None.
Proof.
  intros Ha H8 Hs T1 T2 T3. assert (next_tag m a = a) as N.
  { unfold next_tag. rewrite T3, Z.add_0_r, (u64_small a), align8_spec by lia. Z.div_mod_to_equations. lia. }
  induction fuel as [|fuel IH]; intros found mm; [done|]. cbn [tag_loop]. cbv zeta. destruct (Z.leb_spec (a + 8) stop); [|lia].
  rewrite (proj2 (Z.eqb_neq _ _) T1), (proj2 (Z.eqb_neq _ _) T2), N. apply IH.
Qed.

(** A memory map tag is read as far as its own size says, past the end of the
    structure: here the structure ends after the first entry, and the bytes
    behind it become a region. *)
Definition short_info : memory :=
  mem_of 0x9000 (le_bytes 4 48 ++ le_bytes 4 0 ++
    tag_bytes (TagMmap 24 0 [MkEnt 0 0x300000 1 0 []; MkEnt 0x700000 0x1000 1 0 []] [])).

Theorem mmap_tag_overread :
  bootinfo_init short_info 0x9000 = Some (inr [MkRegion 0x9000 48 2; MkRegion 0 0x300000 1; MkRegion 0x700000 0x1000 1]).
Proof. vm_compute. reflexivity. Qed.

(** [kmain] does not look at the results of [memmap_reserve]: when the boot
    loader reports 127 regions, the map is full and the reservations of the first
    megabyte and of the kernel image are lost; the allocator hands out the page
    the kernel starts in. *)
Definition full_tags : list boot_tag :=
  [TagMmap 24 0 (MkEnt 0x100000 0x200000 1 0 [] :: replicate 126 (MkEnt 0x300000 1 2 0 [])) []].

Theorem kernel_reserve_lost :
  exists mm s, kmain_memory (mem_of 0x9000 (boot_info_bytes full_tags)) MB2_BOOTLOADER_MAGIC 0x9000 0x100000 0x180000 pmm_bss = Some (inr (mm, s)) /\
    fst (pmm_alloc_page s) = 0x100000.
Proof.
  destruct (kmain_memory _ _ _ _ _ _) as [[?|[mm s]]|] eqn:E; [vm_compute in E; discriminate E| |vm_compute in E; discriminate E].
  exists mm, s. split; [done|]. vm_compute in E. injection E as _ <-. vm_compute. reflexivity.
Qed.
