(* ===== verification/Device.v ===== *)
(** * Devices of the kernel: serial line, console, interrupt controller, timer

    [arch/x86_64/cpu/serial.c], [console.c], [pic.c], [pit.c], [irq.c] and the
    kernel's own formatted output, [core/panic.c].  The drivers are written
    against the class [Ports], the two instructions of [io.h] over a state [D] of
    the hardware.  What the chips do is in three more classes, each with the
    documented behaviour the driver relies on (16550 UART, 8259A, 8254); the file
    ends with a machine that has them all.  A driver that waits takes [fuel], the
    number of polls it may spend on one character; [None] is a wait that lasts
    longer, or an argument that was not passed. *)
From S2P Require Import Prelude Bytes Str Stdio.

(** ** io.h *)

Class Ports (D : Type) := { inb : Z -> D -> Z * D; outb : Z -> Z -> D -> D }.

Section drivers.
Context {D : Type} `{Ports D}.

Definition io_wait (d : D) : D := outb 0x80 0 d.

(** ** serial.c *)

Definition COM1 : Z := 0x3F8.
Definition LSR_DATA_READY : Z := 0x01.
Definition LSR_TX_EMPTY : Z := 0x20.

Definition serial_init (d : D) : D :=
  let d := outb (COM1 + 1) 0x00 d in
  let d := outb (COM1 + 3) 0x80 d in
  let d := outb (COM1 + 0) 0x03 d in
  let d := outb (COM1 + 1) 0x00 d in
  let d := outb (COM1 + 3) 0x03 d in
  let d := outb (COM1 + 2) 0xC7 d in
  outb (COM1 + 4) 0x0B d.

Definition serial_tx_ready (d : D) : bool * D :=
  let '(v, d) := inb (COM1 + 5) d in (negb (Z.land v LSR_TX_EMPTY =? 0), d).
Definition serial_rx_ready (d : D) : bool * D :=
  let '(v, d) := inb (COM1 + 5) d in (negb (Z.land v LSR_DATA_READY =? 0), d).

(** [while (!serial_tx_ready())]. *)
Fixpoint tx_spin (fuel : nat) (d : D) : option D :=
  match fuel with
  | O => None
  | S fuel => let '(ready, d) := serial_tx_ready d in if ready : bool then Some d else tx_spin fuel d
  end.

Definition serial_write_char (fuel : nat) (c : Z) (d : D) : option D :=
  d ← tx_spin fuel d; Some (outb COM1 (u8 c) d).

Definition serial_read_char (d : D) : Z * D :=
  let '(ready, d) := serial_rx_ready d in
  if negb ready then (-1, d) else let '(v, d) := inb COM1 d in (u8 v, d).

Fixpoint serial_write (fuel : nat) (s : list Z) (d : D) : option D :=
  match s with
  | [] => Some d
  | c :: s =>
    if c =? 0 then Some d
    else
      d ← (if c =? 10 then serial_write_char fuel 13 d else Some d);
      d ← serial_write_char fuel c d;
      serial_write fuel s d
  end.

Definition hex_digits : list Z := byte_list "0123456789abcdef".

(** [for (int shift = 60; shift >= 0; shift -= 4)], over the shifts. *)
Fixpoint hex_loop (fuel : nat) (value : Z) (shifts : list Z) (d : D) : option D :=
  match shifts with
  | [] => Some d
  | s :: shifts =>
    d ← serial_write_char fuel (zget 0 hex_digits (Z.land (Z.shiftr value s) 0xF)) d;
    hex_loop fuel value shifts d
  end.
Definition serial_write_hex (fuel : nat) (value : Z) (d : D) : option D :=
  d ← serial_write fuel (byte_list "0x" ++ [0]) d;
  hex_loop fuel value [60; 56; 52; 48; 44; 40; 36; 32; 28; 24; 20; 16; 12; 8; 4; 0] d.

(** ** console.c *)

Definition console_init : D -> D := serial_init.
Definition console_putc : nat -> Z -> D -> option D := serial_write_char.
Definition console_write : nat -> list Z -> D -> option D := serial_write.
Definition console_write_hex : nat -> Z -> D -> option D := serial_write_hex.
Definition console_write_char (fuel : nat) (c : Z) (d : D) : option D := console_write fuel [c; 0] d.
Definition console_read_char : D -> Z * D := serial_read_char.

(** [\x1b[<n>m] for the codes of the table. *)
Definition sgr (code : string) : list Z := 27 :: byte_list code ++ [0].
Definition sgr_codes : list (list Z) :=
  sgr <$> ["[0m"; "[31m"; "[32m"; "[33m"; "[34m"; "[35m"; "[36m"; "[37m"; "[91m"; "[92m"; "[93m"; "[97m"]%string.

Definition CONSOLE_COLOR_GREEN : Z := 2.
Definition CONSOLE_COLOR_CYAN : Z := 6.
Definition CONSOLE_COLOR_BRIGHT_WHITE : Z := 11.

Definition console_set_color (fuel : nat) (c : Z) (d : D) : option D :=
  let idx := u32 c in
  if zlen sgr_codes <=? idx then Some d else console_write fuel (zget [] sgr_codes idx) d.
Definition console_reset_color (fuel : nat) (d : D) : option D := console_write fuel (sgr "[0m") d.

(** The three wrappers differ in the color. *)
Definition console_colored (color : Z) (fuel : nat) (s : list Z) (d : D) : option D :=
  d ← console_set_color fuel color d; d ← console_write fuel s d; console_reset_color fuel d.
Definition console_ok := console_colored CONSOLE_COLOR_GREEN.
Definition console_notice := console_colored CONSOLE_COLOR_CYAN.
Definition console_banner := console_colored CONSOLE_COLOR_BRIGHT_WHITE.

(** ** panic.c *)

(** [while (n--) console_write_char(buf[n]);] over the digits collected. *)
Fixpoint put_chars (fuel : nat) (s : list Z) (d : D) : option D :=
  match s with
  | [] => Some d
  | c :: s => d ← console_write_char fuel c d; put_chars fuel s d
  end.

(** The digits are collected from the last one; 64 rounds are enough for 64 bits. *)
Definition put_base (base : Z) (fuel : nat) (v : Z) (d : D) : option D :=
  if v =? 0 then console_write_char fuel 48 d else put_chars fuel (rev (base_loop 64 v base false)) d.
Definition put_u64_dec := put_base 10.
Definition put_u64_hex := put_base 16.

Definition put_i64_dec (fuel : nat) (v : Z) (d : D) : option D :=
  if v <? 0 then d ← console_write_char fuel 45 d; put_u64_dec fuel (u64 (u64 (- (v + 1)) + 1)) d
  else put_u64_dec fuel (u64 v) d.

Section format.
Context (strs : Z -> list Z) (fuel : nat).

(** The character after a [%], with the arguments left. *)
Definition directive (k : Z) (ap : list Z) (d : D) : option (list Z * D) :=
  let with_arg (put : Z -> D -> option D) := '(x, ap) ← va_slot ap; d ← put x d; Some (ap, d) in
  if k =? 115 then with_arg (fun x d => put_chars fuel (if x =? 0 then byte_list "(null)" else cstr (strs x)) d)
  else if k =? 99 then with_arg (fun x d => console_write_char fuel (u8 x) d)
  else if k =? 100 then with_arg (fun x d => put_i64_dec fuel (i64 x) d)
  else if k =? 117 then with_arg (fun x d => put_u64_dec fuel (u64 x) d)
  else if k =? 120 then with_arg (fun x d => put_u64_hex fuel (u64 x) d)
  else if k =? 112 then with_arg (fun x d => d ← console_write fuel (byte_list "0x" ++ [0]) d; put_u64_hex fuel (u64 x) d)
  else if k =? 37 then d ← console_write_char fuel 37 d; Some (ap, d)
  else d ← console_write_char fuel 37 d; d ← console_write_char fuel k d; Some (ap, d).

(** The loop over the format, written twice in the source. *)
Fixpoint kformat (fmt ap : list Z) (d : D) : option D :=
  match fmt with
  | [] => Some d
  | c :: fmt =>
    if c =? 0 then Some d
    else if negb (c =? 37) then d ← console_write_char fuel c d; kformat fmt ap d
    else
      match fmt with
      | [] => Some d
      | k :: fmt => if k =? 0 then Some d else '(ap, d) ← directive k ap d; kformat fmt ap d
      end
  end.
Definition exy_printf : list Z -> list Z -> D -> option D := kformat.

Definition PANIC_HEAD : list Z := 10 :: byte_list "*** KERNEL PANIC ***" ++ [10; 0].
Definition PANIC_TAIL : list Z := 10 :: byte_list "System halted." ++ [10; 0].

(** The state in which the machine is halted. *)
Definition panic (msg : list Z) (d : D) : option D :=
  d ← console_write fuel PANIC_HEAD d; d ← console_write fuel msg d; console_write fuel PANIC_TAIL d.
Definition panicf (fmt ap : list Z) (d : D) : option D :=
  d ← console_write fuel PANIC_HEAD d; d ← kformat fmt ap d; console_write fuel PANIC_TAIL d.
End format.

(** ** pic.c *)

Definition PIC1_CMD : Z := 0x20.
Definition PIC1_DATA : Z := 0x21.
Definition PIC2_CMD : Z := 0xA0.
Definition PIC2_DATA : Z := 0xA1.
Definition ICW1_INIT : Z := 0x10.
Definition ICW1_ICW4 : Z := 0x01.
Definition ICW4_8086 : Z := 0x01.

Definition pic_remap (offset_master offset_slave : Z) (d : D) : D :=
  let '(mask1, d) := inb PIC1_DATA d in
  let '(mask2, d) := inb PIC2_DATA d in
  let d := io_wait (outb PIC1_CMD (Z.lor ICW1_INIT ICW1_ICW4) d) in
  let d := io_wait (outb PIC2_CMD (Z.lor ICW1_INIT ICW1_ICW4) d) in
  let d := io_wait (outb PIC1_DATA offset_master d) in
  let d := io_wait (outb PIC2_DATA offset_slave d) in
  let d := io_wait (outb PIC1_DATA 0x04 d) in
  let d := io_wait (outb PIC2_DATA 0x02 d) in
  let d := io_wait (outb PIC1_DATA ICW4_8086 d) in
  let d := io_wait (outb PIC2_DATA ICW4_8086 d) in
  outb PIC2_DATA mask2 (outb PIC1_DATA mask1 d).

Definition pic_mask_all (d : D) : D := outb PIC2_DATA 0xFF (outb PIC1_DATA 0xFF d).

Definition pic_unmask (irq : Z) (d : D) : D :=
  let port := if irq <? 8 then PIC1_DATA else PIC2_DATA in
  let bit := u8 (Z.land irq 7) in
  let '(mask, d) := inb port d in
  outb port (u8 (Z.land mask (u32 (Z.lnot (Z.shiftl 1 bit))))) d.

Definition pic_eoi (irq : Z) (d : D) : D :=
  outb PIC1_CMD 0x20 (if 8 <=? irq then outb PIC2_CMD 0x20 d else d).

(** ** arch/x86_64/cpu/irq.c *)

Definition PIC_MASTER_OFFSET : Z := 0x20.
Definition PIC_SLAVE_OFFSET : Z := 0x28.

Definition arch_irq_init (d : D) : D := pic_unmask 0 (pic_mask_all (pic_remap PIC_MASTER_OFFSET PIC_SLAVE_OFFSET d)).
Definition arch_irq_eoi : Z -> D -> D := pic_eoi.

(** ** pit.c *)

Definition PIT_CH0 : Z := 0x40.
Definition PIT_CMD : Z := 0x43.
Definition PIT_FREQ : Z := 1193182.

Definition pit_divisor (hz : Z) : Z :=
  let hz := if hz =? 0 then 100 else hz in
  let divisor := PIT_FREQ / hz in
  let divisor := if 0xFFFF <? divisor then 0xFFFF else divisor in
  if divisor <? 1 then 1 else divisor.

Definition timer_init (hz : Z) (d : D) : D :=
  let divisor := pit_divisor hz in
  let d := outb PIT_CMD 0x36 d in
  let d := outb PIT_CH0 (u8 (Z.land divisor 0xFF)) d in
  outb PIT_CH0 (u8 (Z.land (Z.shiftr divisor 8) 0xFF)) d.
End drivers.

(** ** The serial chip

    The 16550 as the driver sees it.  [tx_wait] is how many more polls of the
    line status show a busy transmitter, never more than [tx_bound]; characters
    may arrive at any time.  With bit 7 of the line control register set the
    first two ports are the divisor latch. *)
Class Uart (D : Type) `{Ports D} := {
  sent : D -> list Z;
  received : D -> list Z;
  tx_wait : D -> nat;
  tx_bound : nat;
  lcr : D -> Z;
  divisor : D -> Z;
  tx_wait_bound d : (tx_wait d <= tx_bound)%nat;
  received_bytes d : bytes (received d);
  lsr_read d : let '(v, d') := inb (COM1 + 5) d in
    Z.testbit v 5 = bool_decide (tx_wait d = O) /\ Z.testbit v 0 = negb (bool_decide (received d = [])) /\
    tx_wait d' = pred (tx_wait d) /\ sent d' = sent d /\ lcr d' = lcr d /\ divisor d' = divisor d /\ received d `prefix_of` received d';
  thr_write c d : Z.testbit (lcr d) 7 = false -> tx_wait d = O -> 0 <= c < 256 -> let d' := outb COM1 c d in
    sent d' = sent d ++ [c] /\ lcr d' = lcr d /\ divisor d' = divisor d /\ received d `prefix_of` received d';
  rbr_read b r d : Z.testbit (lcr d) 7 = false -> received d = b :: r -> let '(v, d') := inb COM1 d in
    v = b /\ sent d' = sent d /\ lcr d' = lcr d /\ divisor d' = divisor d /\ r `prefix_of` received d';
  latch_low v d : Z.testbit (lcr d) 7 = true -> let d' := outb COM1 v d in
    divisor d' = divisor d / 256 * 256 + v /\ lcr d' = lcr d /\ sent d' = sent d;
  latch_high v d : Z.testbit (lcr d) 7 = true -> let d' := outb (COM1 + 1) v d in
    divisor d' = 256 * v + divisor d mod 256 /\ lcr d' = lcr d /\ sent d' = sent d;
  ier_write v d : Z.testbit (lcr d) 7 = false -> let d' := outb (COM1 + 1) v d in
    divisor d' = divisor d /\ lcr d' = lcr d /\ sent d' = sent d;
  lcr_write v d : let d' := outb (COM1 + 3) v d in divisor d' = divisor d /\ lcr d' = v /\ sent d' = sent d;
  fcr_write v d : let d' := outb (COM1 + 2) v d in divisor d' = divisor d /\ lcr d' = lcr d /\ sent d' = sent d;
  mcr_write v d : let d' := outb (COM1 + 4) v d in divisor d' = divisor d /\ lcr d' = lcr d /\ sent d' = sent d }.

(** What goes over the line for a text. *)
Definition crlf (t : list Z) : list Z := t ≫= fun c => if c =? 10 then [13; 10] else [c].

Lemma crlf_app s t : crlf (s ++ t) = crlf s ++ crlf t.
Proof. apply bind_app. Qed.

Lemma bytes_app s t : bytes (s ++ t) <-> bytes s /\ bytes t.
Proof. apply Forall_app. Qed.

Lemma dig_range up d : 0 <= d < 16 -> 48 <= digit_char up d < 256.
Proof. intros. rewrite <- dig_char by done. unfold dig. zif; [lia|]. destruct up; lia. Qed.

Lemma numeral_chars n base up v : 2 <= base <= 16 -> 0 <= v -> Forall (fun c => 48 <= c < 256) (numeral n base up v).
Proof.
  intros Hb. revert v. induction n as [|n IH]; intros v Hv; cbn [numeral]; [constructor|]. zif.
  - repeat constructor; apply dig_range; lia.
  - apply Forall_app. split; [apply IH, Z.div_pos; lia|]. pose proof (Z.mod_pos_bound v base). repeat constructor; apply dig_range; lia.
Qed.

Lemma byte_list_bytes s : bytes (byte_list s).
Proof.
  unfold byte_list, bytes. apply Forall_fmap, Forall_forall. intros a _. unfold compose. pose proof (Ascii.nat_ascii_bounded a). lia.
Qed.

Lemma u8_range x : 0 <= u8 x < 256.
Proof. apply Z.mod_pos_bound. lia. Qed.

Lemma bytes_cstr s : bytes s -> bytes (cstr s).
Proof. induction 1 as [|c s Hc _ IH]; cbn [cstr]; [constructor|]. zif; [constructor|by constructor]. Qed.

Section line.
Context {D : Type} `{Uart D} (fuel : nat) (enough : (tx_bound < fuel)%nat).

(** From [d] to [d'] the text [t] was sent and nothing of the input lost. *)
Definition emits (d d' : D) (t : list Z) : Prop :=
  sent d' = sent d ++ t /\ lcr d' = lcr d /\ divisor d' = divisor d /\ received d `prefix_of` received d'.

Definition writes (f : D -> option D) (t : list Z) : Prop :=
  forall d, Z.testbit (lcr d) 7 = false -> exists d', f d = Some d' /\ emits d d' t.

Lemma writes_ret : writes Some [].
Proof. intros d _. exists d. unfold emits. by rewrite app_nil_r. Qed.

Lemma emits_trans d1 d2 d3 s t : emits d1 d2 s -> emits d2 d3 t -> emits d1 d3 (s ++ t).
Proof.
  intros (S1 & L1 & V1 & R1) (S2 & L2 & V2 & R2). unfold emits. rewrite S2, S1, L2, L1, V2, V1, app_assoc. split_and!; [done..|by etrans].
Qed.

Lemma writes_bind f g s t : writes f s -> writes g t -> writes (fun d => d ← f d; g d) (s ++ t).
Proof.
  intros F G d Hd. destruct (F d Hd) as (d1 & E1 & M1). destruct (G d1) as (d2 & E2 & M2); [by rewrite (proj1 (proj2 M1))|].
  exists d2. rewrite E1. cbn [mbind option_bind]. split; [done|]. by eapply emits_trans.
Qed.

Lemma tx_spin_spec n d : (tx_wait d < n)%nat -> exists d', tx_spin n d = Some d' /\ tx_wait d' = O /\ emits d d' [].
Proof.
  revert d. induction n as [|n IH]; intros d Hn; [lia|]. cbn [tx_spin]. unfold serial_tx_ready. pose proof (lsr_read d) as L.
  destruct (inb (COM1 + 5) d) as [v d1]. destruct L as (B & _ & W & S1 & L1 & V1 & R1). change LSR_TX_EMPTY with (2 ^ 5).
  rewrite land_pow2_eqb, negb_involutive, B by lia. case_bool_decide as W0.
  - exists d1. unfold emits. rewrite app_nil_r, W, W0. split_and!; done.
  - destruct (IH d1) as (d2 & E & W2 & S2 & L2 & V2 & R2); [lia|]. exists d2. unfold emits. rewrite S2, S1, L2, L1, V2, V1. split_and!; [done..|by etrans].
Qed.

Lemma serial_write_char_spec c : 0 <= c < 256 -> writes (serial_write_char fuel c) [c].
Proof using enough.
  intros Hc d Hd. destruct (tx_spin_spec fuel d) as (d1 & E & W & S1 & L1 & V1 & R1); [pose proof (tx_wait_bound d); lia|].
  unfold serial_write_char. rewrite E. cbn [mbind option_bind]. eexists. split; [done|]. unfold u8. rewrite Z.mod_small by lia.
  destruct (thr_write c d1) as (S2 & L2 & V2 & R2); [by rewrite L1|done|done|]. rewrite app_nil_r in S1. unfold emits. rewrite S2, S1, L2, V2, L1, V1.
  split_and!; [done..|by etrans].
Qed.

Lemma serial_write_spec s : bytes s -> writes (serial_write fuel s) (crlf (cstr s)).
Proof using enough.
  induction s as [|c s IH]; intros B; [apply writes_ret|]. apply Forall_cons in B as [Bc B]. cbn [serial_write cstr].
  destruct (Z.eqb_spec c 0); [apply writes_ret|]. change (crlf (c :: cstr s)) with ((if c =? 10 then [13; 10] else [c]) ++ crlf (cstr s)).
  destruct (Z.eqb_spec c 10) as [->|].
  - change ([13; 10] ++ crlf (cstr s)) with ([13] ++ [10] ++ crlf (cstr s)). apply writes_bind; [by apply serial_write_char_spec|].
    apply writes_bind; [by apply serial_write_char_spec|by apply IH].
  - apply (writes_bind (serial_write_char fuel c) (serial_write fuel s) [c]); [by apply serial_write_char_spec|by apply IH].
Qed.

Lemma console_write_char_spec c : 0 <= c < 256 -> writes (console_write_char fuel c) (crlf (if c =? 0 then [] else [c])).
Proof using enough.
  intros Hc. pose proof (serial_write_spec [c; 0]) as W. cbn [cstr] in W. rewrite Z.eqb_refl in W. apply W. repeat constructor; lia.
Qed.

Lemma put_chars_spec s : bytes s -> 0 ∉ s -> writes (put_chars fuel s) (crlf s).
Proof using enough.
  induction s as [|c s IH]; intros B N; [apply writes_ret|]. apply Forall_cons in B as [Bc B]. apply not_elem_of_cons in N as [Nc N].
  change (c :: s) with ([c] ++ s). rewrite crlf_app. cbn [app put_chars]. apply writes_bind; [|by apply IH].
  pose proof (console_write_char_spec c Bc) as W. by rewrite (proj2 (Z.eqb_neq c 0)) in W by done.
Qed.

Lemma put_base_spec base v : 2 <= base <= 16 -> 0 <= v < 2 ^ 64 -> writes (put_base base fuel v) (crlf (num base false v)).
Proof using enough.
  intros Hb Hv. pose proof (u64_to_base_num base false v ltac:(lia) Hv) as E. unfold u64_to_base in E. unfold put_base.
  pose proof (numeral_chars 64 base false v Hb ltac:(lia)) as F. destruct (Z.eqb_spec v 0) as [->|].
  - rewrite <- E. by apply (console_write_char_spec 48).
  - rewrite E. apply put_chars_spec; [by apply (Forall_impl _ _ _ F); lia|]. intros N. rewrite Forall_forall in F. specialize (F _ N). lia.
Qed.

(** The decimal text of a signed number. *)
Definition dec_text (v : Z) : list Z := (if v <? 0 then [45] else []) ++ num 10 false (Z.abs v).

Lemma put_i64_dec_spec v : - 2 ^ 63 <= v < 2 ^ 63 -> writes (put_i64_dec fuel v) (crlf (dec_text v)).
Proof using enough.
  intros Hv. unfold put_i64_dec, dec_text. zif.
  - rewrite crlf_app, (u64_small (- (v + 1))), u64_small by lia. replace (- (v + 1) + 1) with (Z.abs v) by lia.
    apply writes_bind; [by apply (console_write_char_spec 45)|apply put_base_spec; lia].
  - rewrite u64_small, Z.abs_eq by lia. apply put_base_spec; lia.
Qed.

Lemma console_colored_spec color s : 0 <= color < 12 -> bytes s ->
  writes (console_colored color fuel s) (cstr (zget [] sgr_codes color) ++ crlf (cstr s) ++ 27 :: byte_list "[0m").
Proof using enough.
  intros Hc Hs.
  assert (Forall (fun c => bytes c /\ crlf (cstr c) = cstr c) sgr_codes) as F
    by (repeat constructor; try (vm_compute; discriminate); vm_compute; reflexivity).
  assert (bytes (zget [] sgr_codes color) /\ crlf (cstr (zget [] sgr_codes color)) = cstr (zget [] sgr_codes color)) as [B C].
  { unfold zget. rewrite nth_lookup. destruct (sgr_codes !! Z.to_nat color) eqn:E; [|split; [constructor|done]]. by apply (Forall_lookup_1 _ _ _ _ F E). }
  unfold console_colored. apply writes_bind.
  - unfold console_set_color. rewrite u32_small by lia. change (zlen sgr_codes) with 12. zif; [lia|]. rewrite <- C. by apply serial_write_spec.
  - apply writes_bind; [by apply serial_write_spec|]. apply (serial_write_spec (sgr "[0m")). vm_compute. repeat constructor; discriminate.
Qed.

(** The digits of [serial_write_hex]. *)
Lemma serial_write_hex_spec v : 0 <= v < 2 ^ 64 ->
  writes (serial_write_hex fuel v) (byte_list "0x" ++ ((fun k => digit_char false (v / 16 ^ k mod 16)) <$> [15; 14; 13; 12; 11; 10; 9; 8; 7; 6; 5; 4; 3; 2; 1; 0])).
Proof using enough.
  intros Hv. unfold serial_write_hex. apply writes_bind; [apply (serial_write_spec (byte_list "0x" ++ [0])); vm_compute; repeat constructor; discriminate|].
  change [60; 56; 52; 48; 44; 40; 36; 32; 28; 24; 20; 16; 12; 8; 4; 0] with ((fun k => 4 * k) <$> [15; 14; 13; 12; 11; 10; 9; 8; 7; 6; 5; 4; 3; 2; 1; 0]).
  assert (Forall (fun k => 0 <= k) [15; 14; 13; 12; 11; 10; 9; 8; 7; 6; 5; 4; 3; 2; 1; 0]) as F by (repeat constructor; lia).
  revert F. generalize [15; 14; 13; 12; 11; 10; 9; 8; 7; 6; 5; 4; 3; 2; 1; 0]. intros ks F. induction F as [|k ks Hk F IH]; [apply writes_ret|].
  cbn [fmap list_fmap hex_loop]. rewrite Z.shiftr_div_pow2 by lia. replace (2 ^ (4 * k)) with (16 ^ k) by (rewrite Z.pow_mul_r by lia; done).
  change 15 with (2 ^ 4 - 1). rewrite land_low by lia. change (2 ^ 4) with 16. pose proof (Z.mod_pos_bound (v / 16 ^ k) 16 ltac:(lia)) as R.
  assert (zget 0 hex_digits (v / 16 ^ k mod 16) = digit_char false (v / 16 ^ k mod 16)) as ->.
  { revert R. generalize (v / 16 ^ k mod 16). intros x R. assert (x ∈ seqZ 0 16) as Hx by (apply elem_of_seqZ; lia). clear R.
    assert (forallb (fun x => zget 0 hex_digits x =? digit_char false x) (seqZ 0 16) = true) as A by (vm_compute; reflexivity).
    rewrite forallb_forall in A. apply Z.eqb_eq, A. by apply list_elem_of_In. }
  apply (writes_bind _ _ [_]); [|done]. apply serial_write_char_spec. pose proof (dig_range false _ R). lia.
Qed.

(** ** Formatted output *)

Section text.
Context (strs : Z -> list Z).

(** The text of the directive [%k], with the arguments left. *)
Definition dir_text (k : Z) (ap : list Z) : option (list Z * list Z) :=
  let with_arg (text : Z -> list Z) := match ap with [] => None | x :: ap => Some (text x, ap) end in
  if k =? 115 then with_arg (fun x => if x =? 0 then byte_list "(null)" else cstr (strs x))
  else if k =? 99 then with_arg (fun x => if u8 x =? 0 then [] else [u8 x])
  else if k =? 100 then with_arg (fun x => dec_text (i64 x))
  else if k =? 117 then with_arg (fun x => num 10 false (u64 x))
  else if k =? 120 then with_arg (fun x => num 16 false (u64 x))
  else if k =? 112 then with_arg (fun x => byte_list "0x" ++ num 16 false (u64 x))
  else if k =? 37 then Some ([37], ap)
  else Some ([37; k], ap).

Fixpoint ktext (fmt ap : list Z) : option (list Z) :=
  match fmt with
  | [] => Some []
  | c :: fmt =>
    if c =? 0 then Some []
    else if negb (c =? 37) then (fun t => c :: t) <$> ktext fmt ap
    else
      match fmt with
      | [] => Some []
      | k :: fmt => if k =? 0 then Some [] else '(t, ap) ← dir_text k ap; (fun t' => t ++ t') <$> ktext fmt ap
      end
  end.
End text.

(** A directive that takes an argument. *)
Lemma with_arg_spec (put : Z -> D -> option D) (text : Z -> list Z) ap t ap' d : (forall x, writes (put x) (crlf (text x))) -> Z.testbit (lcr d) 7 = false ->
  match ap with [] => None | x :: ap => Some (text x, ap) end = Some (t, ap') ->
  exists d', ('(x, ap) ← va_slot ap; d ← put x d; Some (ap, d)) = Some (ap', d') /\ emits d d' (crlf t).
Proof.
  intros W Hd E. destruct ap as [|x ap]; [done|]. apply (inj Some), pair_equal_spec in E as [<- <-]. destruct (W x d Hd) as (d' & E' & M). exists d'.
  cbn [va_slot mbind option_bind]. by rewrite E'.
Qed.

Lemma directive_spec strs k ap t ap' d : (forall a, bytes (strs a)) -> 0 < k < 256 -> dir_text strs k ap = Some (t, ap') -> Z.testbit (lcr d) 7 = false ->
  exists d', directive strs fuel k ap d = Some (ap', d') /\ emits d d' (crlf t).
Proof using enough.
  intros Bs Hk E Hd. unfold dir_text in E. unfold directive. cbv zeta in *. pose proof (console_write_char_spec 37 ltac:(lia)) as P37.
  destruct (k =? 115); [|destruct (k =? 99); [|destruct (k =? 100); [|destruct (k =? 117); [|destruct (k =? 120); [|destruct (k =? 112)]]]]].
  - apply (with_arg_spec (fun x d => put_chars fuel (if x =? 0 then byte_list "(null)" else cstr (strs x)) d) (fun x => if x =? 0 then byte_list "(null)" else cstr (strs x))); [|done..]. intros x. destruct (x =? 0).
    + apply (put_chars_spec (byte_list "(null)")); [apply byte_list_bytes|]. apply (bool_decide_unpack (0 ∉ byte_list "(null)")). by vm_compute.
    + apply put_chars_spec; [apply bytes_cstr, Bs|apply cstr_no_nul].
  - apply (with_arg_spec (fun x d => console_write_char fuel (u8 x) d) (fun x => if u8 x =? 0 then [] else [u8 x])); [|done..]. intros x. apply console_write_char_spec, u8_range.
  - apply (with_arg_spec (fun x d => put_i64_dec fuel (i64 x) d) (fun x => dec_text (i64 x))); [|done..]. intros x. apply put_i64_dec_spec. unfold i64. pose proof (Z.mod_pos_bound (x + 2 ^ 63) (2 ^ 64)). lia.
  - apply (with_arg_spec (fun x d => put_u64_dec fuel (u64 x) d) (fun x => num 10 false (u64 x))); [|done..]. intros x. apply put_base_spec; [lia|apply u64_range].
  - apply (with_arg_spec (fun x d => put_u64_hex fuel (u64 x) d) (fun x => num 16 false (u64 x))); [|done..]. intros x. apply put_base_spec; [lia|apply u64_range].
  - apply (with_arg_spec (fun x d => d ← console_write fuel (byte_list "0x" ++ [0]) d; put_u64_hex fuel (u64 x) d) (fun x => byte_list "0x" ++ num 16 false (u64 x))); [|done..]. intros x. rewrite crlf_app.
    apply writes_bind; [|apply put_base_spec; [lia|apply u64_range]]. apply (serial_write_spec (byte_list "0x" ++ [0])); vm_compute; repeat constructor; discriminate.
  - destruct (k =? 37); apply (inj Some), pair_equal_spec in E as [<- <-]; [destruct (P37 d Hd) as (d' & E' & M); exists d'; by rewrite E'|].
    change [37; k] with ([37] ++ [k]). rewrite crlf_app. pose proof (console_write_char_spec k ltac:(lia)) as Wk. rewrite (proj2 (Z.eqb_neq k 0)) in Wk by lia.
    destruct (writes_bind _ _ _ _ P37 Wk d Hd) as (d' & E' & M). exists d'. split; [|exact M]. destruct (console_write_char fuel 37 d) as [d1|]; [|done].
    cbn [mbind option_bind] in *. by rewrite E'.
Qed.

Lemma kformat_spec strs : (forall a, bytes (strs a)) -> forall n fmt ap t, (length fmt <= n)%nat -> bytes fmt -> ktext strs fmt ap = Some t ->
  writes (kformat strs fuel fmt ap) (crlf t).
Proof using enough.
  intros Bs. induction n as [|n IH]; intros [|c fmt] ap t Hn B E; cbn [length] in Hn; try lia; cbn [ktext kformat] in *; try (injection E as <-; apply writes_ret).
  apply Forall_cons in B as [Bc B]. destruct (Z.eqb_spec c 0); [injection E as <-; apply writes_ret|]. destruct (Z.eqb_spec c 37) as [->|]; cbn [negb] in *.
  - destruct fmt as [|k fmt]; [injection E as <-; apply writes_ret|]. apply Forall_cons in B as [Bk B]. destruct (Z.eqb_spec k 0); [injection E as <-; apply writes_ret|].
    destruct (dir_text strs k ap) as [[t1 ap1]|] eqn:Ed; [|done]. cbn [mbind option_bind] in E. destruct (ktext strs fmt ap1) as [t2|] eqn:Et; [|done]. injection E as <-.
    cbn [length] in Hn. intros d Hd. destruct (directive_spec strs k ap t1 ap1 d Bs ltac:(lia) Ed Hd) as (d1 & E1 & M1). rewrite E1. cbn [mbind option_bind].
    rewrite crlf_app. destruct (IH fmt ap1 t2 ltac:(lia) B Et d1) as (d2 & E2 & M2); [by rewrite (proj1 (proj2 M1))|]. exists d2. split; [done|]. by eapply emits_trans.
  - destruct (ktext strs fmt ap) as [t2|] eqn:Et; [|done]. injection E as <-. change (c :: t2) with ([c] ++ t2). rewrite crlf_app.
    apply writes_bind; [|apply (IH fmt ap t2); [lia|done|done]]. pose proof (console_write_char_spec c Bc) as W. by rewrite (proj2 (Z.eqb_neq c 0)) in W by done.
Qed.

Lemma panicf_spec strs fmt ap t : (forall a, bytes (strs a)) -> bytes fmt -> ktext strs fmt ap = Some t ->
  writes (panicf strs fuel fmt ap) (crlf (cstr PANIC_HEAD ++ t ++ cstr PANIC_TAIL)).
Proof using enough.
  intros Bs B E. rewrite !crlf_app. apply writes_bind; [apply (serial_write_spec PANIC_HEAD); vm_compute; repeat constructor; discriminate|].
  apply writes_bind; [by apply (kformat_spec strs Bs (length fmt))|]. apply (serial_write_spec PANIC_TAIL); vm_compute; repeat constructor; discriminate.
Qed.
End line.

(** On a serial line whose transmitter becomes free within [tx_bound] polls,
    [exy_printf] returns and has sent exactly the text its format and arguments
    stand for, each newline as carriage return and newline; [panicf] puts the
    same text between its banner and the halt message.  No input is lost. *)
Theorem kernel_printf_correct {D} `{Uart D} strs fuel fmt ap t (d : D) :
  (tx_bound < fuel)%nat -> (forall a, bytes (strs a)) -> bytes fmt -> Z.testbit (lcr d) 7 = false -> ktext strs fmt ap = Some t ->
  (exists d', exy_printf strs fuel fmt ap d = Some d' /\ sent d' = sent d ++ crlf t /\ received d `prefix_of` received d') /\
  (exists d', panicf strs fuel fmt ap d = Some d' /\ sent d' = sent d ++ crlf (cstr PANIC_HEAD ++ t ++ cstr PANIC_TAIL)).
Proof.
  intros Hf Bs B Hd E. split.
  - destruct (kformat_spec fuel Hf strs Bs (length fmt) fmt ap t ltac:(done) B E d Hd) as (d' & E' & S & _ & _ & R). by exists d'.
  - destruct (panicf_spec fuel Hf strs fmt ap t Bs B E d Hd) as (d' & E' & S & _). by exists d'.
Qed.

(** The serial line after [serial_init]: 38400 baud (115200 / 3), 8 data bits, no
    parity, the divisor latch closed. *)
Lemma serial_init_spec {D} `{Uart D} (d : D) : let d' := serial_init d in lcr d' = 3 /\ divisor d' = 3 /\ sent d' = sent d.
Proof.
  unfold serial_init. cbv zeta. set (d1 := outb (COM1 + 1) 0 d).
  assert (sent d1 = sent d) as S1.
  { subst d1. destruct (Z.testbit (lcr d) 7) eqn:E; [by apply (latch_high 0 d)|by apply (ier_write 0 d)]. }
  destruct (lcr_write 128 d1) as (_ & L2 & S2). set (d2 := outb (COM1 + 3) 128 d1) in *.
  destruct (latch_low 3 d2) as (V3 & L3 & S3); [by rewrite L2|]. rewrite Z.add_0_r. set (d3 := outb COM1 3 d2) in *.
  destruct (latch_high 0 d3) as (V4 & L4 & S4); [by rewrite L3, L2|]. set (d4 := outb (COM1 + 1) 0 d3) in *.
  destruct (lcr_write 3 d4) as (V5 & L5 & S5). set (d5 := outb (COM1 + 3) 3 d4) in *.
  destruct (fcr_write 199 d5) as (V6 & L6 & S6). set (d6 := outb (COM1 + 2) 199 d5) in *. destruct (mcr_write 11 d6) as (V7 & L7 & S7).
  rewrite L7, L6, L5, V7, V6, V5, V4, V3, S7, S6, S5, S4, S3, S2, S1. split_and!; [done| |done].
  rewrite Z.mul_0_r, Z.add_0_l, (Z.add_comm _ 3), Z.mod_add by lia. done.
Qed.

(** Reading a character: -1 and no input consumed, or the oldest one. *)
Lemma serial_read_char_spec {D} `{Uart D} (d : D) : Z.testbit (lcr d) 7 = false -> let '(c, d') := serial_read_char d in
  sent d' = sent d /\ lcr d' = lcr d /\
  match received d with [] => c = -1 | b :: r => c = b /\ r `prefix_of` received d' end.
Proof.
  intros Hd. unfold serial_read_char, serial_rx_ready. pose proof (lsr_read d) as L. pose proof (received_bytes d) as B.
  destruct (inb (COM1 + 5) d) as [v d1]. destruct L as (_ & A & _ & S1 & L1 & _ & R1). change LSR_DATA_READY with (2 ^ 0). rewrite land_pow2_eqb, negb_involutive, A by lia.
  destruct (received d) as [|b r]; case_bool_decide; try done; cbn [negb]. destruct R1 as [k R1]. pose proof (rbr_read b (r ++ k) d1 ltac:(by rewrite L1) R1) as Rd.
  destruct (inb COM1 d1) as [w d2]. destruct Rd as (-> & S2 & L2 & _ & R2). apply Forall_cons in B as [Bb _]. unfold u8. rewrite Z.mod_small by lia.
  rewrite S2, S1, L2, L1. split_and!; [done..|]. etrans; [by exists k|done].
Qed.

(** ** The interrupt controllers

    An 8259A: after ICW1 three words on the data port are the vector offset, the
    cascade and the mode; otherwise the data port is the mask.  The end of
    interrupt clears the highest priority, the lowest number, in service. *)
Record pic_chip := MkChip { p_stage : nat; p_offset : Z; p_cascade : Z; p_imr : Z; p_isr : Z }.

Definition pic_cmd (v : Z) (c : pic_chip) : pic_chip :=
  if Z.testbit v 4 then MkChip 1 (p_offset c) (p_cascade c) 0 0
  else if v =? 0x20 then MkChip (p_stage c) (p_offset c) (p_cascade c) (p_imr c) (Z.land (p_isr c) (p_isr c - 1))
  else c.
Definition pic_data (v : Z) (c : pic_chip) : pic_chip :=
  match p_stage c with
  | 1%nat => MkChip 2 (Z.land v 0xF8) (p_cascade c) (p_imr c) (p_isr c)
  | 2%nat => MkChip 3 (p_offset c) v (p_imr c) (p_isr c)
  | 3%nat => MkChip 0 (p_offset c) (p_cascade c) (p_imr c) (p_isr c)
  | _ => MkChip (p_stage c) (p_offset c) (p_cascade c) v (p_isr c)
  end.

Class Pics (D : Type) `{Ports D} := {
  chip1 : D -> pic_chip;
  chip2 : D -> pic_chip;
  pic1_command v d : v = 0x11 \/ v = 0x20 -> chip1 (outb PIC1_CMD v d) = pic_cmd v (chip1 d) /\ chip2 (outb PIC1_CMD v d) = chip2 d;
  pic2_command v d : v = 0x11 \/ v = 0x20 -> chip2 (outb PIC2_CMD v d) = pic_cmd v (chip2 d) /\ chip1 (outb PIC2_CMD v d) = chip1 d;
  pic1_write v d : chip1 (outb PIC1_DATA v d) = pic_data v (chip1 d) /\ chip2 (outb PIC1_DATA v d) = chip2 d;
  pic2_write v d : chip2 (outb PIC2_DATA v d) = pic_data v (chip2 d) /\ chip1 (outb PIC2_DATA v d) = chip1 d;
  pic1_read d : let '(v, d') := inb PIC1_DATA d in (p_stage (chip1 d) = O -> v = p_imr (chip1 d)) /\ chip1 d' = chip1 d /\ chip2 d' = chip2 d;
  pic2_read d : let '(v, d') := inb PIC2_DATA d in (p_stage (chip2 d) = O -> v = p_imr (chip2 d)) /\ chip1 d' = chip1 d /\ chip2 d' = chip2 d;
  pics_delay d : chip1 (io_wait d) = chip1 d /\ chip2 (io_wait d) = chip2 d }.

(** The vector an interrupt line is delivered as, and whether it is masked. *)
Definition irq_vector {D} `{Pics D} (d : D) (irq : Z) : Z :=
  if irq <? 8 then p_offset (chip1 d) + irq else p_offset (chip2 d) + (irq - 8).
Definition irq_masked {D} `{Pics D} (d : D) (irq : Z) : bool :=
  if irq <? 8 then Z.testbit (p_imr (chip1 d)) irq else Z.testbit (p_imr (chip2 d)) (irq - 8).

Section pics.
Context {D : Type} `{Pics D}.

Lemma pic_cmd_1 d : chip1 (io_wait (outb PIC1_CMD 0x11 d)) = pic_cmd 0x11 (chip1 d) /\ chip2 (io_wait (outb PIC1_CMD 0x11 d)) = chip2 d.
Proof. destruct (pics_delay (outb PIC1_CMD 0x11 d)) as [-> ->]. apply pic1_command. by left. Qed.
Lemma pic_cmd_2 d : chip2 (io_wait (outb PIC2_CMD 0x11 d)) = pic_cmd 0x11 (chip2 d) /\ chip1 (io_wait (outb PIC2_CMD 0x11 d)) = chip1 d.
Proof. destruct (pics_delay (outb PIC2_CMD 0x11 d)) as [-> ->]. apply pic2_command. by left. Qed.
Lemma pic_data_1 v d : chip1 (io_wait (outb PIC1_DATA v d)) = pic_data v (chip1 d) /\ chip2 (io_wait (outb PIC1_DATA v d)) = chip2 d.
Proof. destruct (pics_delay (outb PIC1_DATA v d)) as [-> ->]. apply pic1_write. Qed.
Lemma pic_data_2 v d : chip2 (io_wait (outb PIC2_DATA v d)) = pic_data v (chip2 d) /\ chip1 (io_wait (outb PIC2_DATA v d)) = chip1 d.
Proof. destruct (pics_delay (outb PIC2_DATA v d)) as [-> ->]. apply pic2_write. Qed.

(** The two chips follow the eight words whatever state they were in. *)
Lemma pic_remap_spec m s d : let d' := pic_remap m s d in
  (exists mask, chip1 d' = MkChip 0 (Z.land m 0xF8) 4 mask 0) /\ (exists mask, chip2 d' = MkChip 0 (Z.land s 0xF8) 2 mask 0).
Proof.
  unfold pic_remap. destruct (inb PIC1_DATA d) as [mask1 e1]. destruct (inb PIC2_DATA e1) as [mask2 e2]. cbv zeta. change (Z.lor ICW1_INIT ICW1_ICW4) with 17.
  split; eexists.
  - rewrite (proj2 (pic2_write _ _)), (proj1 (pic1_write _ _)), (proj2 (pic_data_2 _ _)), (proj1 (pic_data_1 _ _)), (proj2 (pic_data_2 _ _)), (proj1 (pic_data_1 _ _)),
      (proj2 (pic_data_2 _ _)), (proj1 (pic_data_1 _ _)), (proj2 (pic_cmd_2 _)), (proj1 (pic_cmd_1 _)). reflexivity.
  - rewrite (proj1 (pic2_write _ _)), (proj2 (pic1_write _ _)), (proj1 (pic_data_2 _ _)), (proj2 (pic_data_1 _ _)), (proj1 (pic_data_2 _ _)), (proj2 (pic_data_1 _ _)),
      (proj1 (pic_data_2 _ _)), (proj2 (pic_data_1 _ _)), (proj1 (pic_cmd_2 _)). reflexivity.
Qed.

(** [mask & ~(1u << bit)] clears one bit of the eight. *)
Lemma unmask_bit m b i : 0 <= b < 8 -> 0 <= i < 8 ->
  Z.testbit (u8 (Z.land m (u32 (Z.lnot (Z.shiftl 1 b))))) i = Z.testbit m i && negb (i =? b).
Proof.
  intros Hb Hi. unfold u8, u32. rewrite testbit_mod_pow2, Z.land_spec, testbit_mod_pow2, Z.lnot_spec, Z.shiftl_1_l, Z.pow2_bits_eqb by lia.
  destruct (Z.ltb_spec i 8), (Z.ltb_spec i 32); try lia. simpl. f_equal. f_equal. apply Z.eqb_sym.
Qed.

Lemma pic_unmask_spec irq d : 0 <= irq < 16 -> p_stage (chip1 d) = O -> p_stage (chip2 d) = O -> let d' := pic_unmask irq d in
  (forall i, 0 <= i < 16 -> irq_masked d' i = irq_masked d i && negb (i =? irq) /\ irq_vector d' i = irq_vector d i) /\
  p_stage (chip1 d') = O /\ p_stage (chip2 d') = O.
Proof.
  intros Hi S1 S2. unfold pic_unmask. change 7 with (2 ^ 3 - 1). rewrite land_low by lia. change (2 ^ 3) with 8.
  assert (u8 (irq mod 8) = irq mod 8) as -> by (apply Z.mod_small; pose proof (Z.mod_pos_bound irq 8); lia). unfold irq_masked, irq_vector.
  destruct (Z.ltb_spec irq 8).
  - pose proof (pic1_read d) as R. destruct (inb PIC1_DATA d) as [m d1]. destruct R as (Em & C1 & C2). cbv zeta. rewrite Em by done.
    destruct (pic1_write (u8 (Z.land (p_imr (chip1 d)) (u32 (Z.lnot (Z.shiftl 1 (irq mod 8)))))) d1) as [-> ->]. rewrite C1, C2. unfold pic_data. rewrite S1. cbn.
    split; [|done]. intros i Hi'. destruct (Z.ltb_spec i 8); (split; [|done]).
    + rewrite unmask_bit, Z.mod_small by (try apply Z.mod_pos_bound; lia). done.
    + destruct (Z.eqb_spec i irq); [lia|]. by rewrite andb_true_r.
  - pose proof (pic2_read d) as R. destruct (inb PIC2_DATA d) as [m d1]. destruct R as (Em & C1 & C2). cbv zeta. rewrite Em by done.
    destruct (pic2_write (u8 (Z.land (p_imr (chip2 d)) (u32 (Z.lnot (Z.shiftl 1 (irq mod 8)))))) d1) as [-> ->]. rewrite C1, C2. unfold pic_data. rewrite S2. cbn.
    split; [|done]. intros i Hi'. destruct (Z.ltb_spec i 8); (split; [|done]).
    + destruct (Z.eqb_spec i irq); [lia|]. by rewrite andb_true_r.
    + rewrite unmask_bit by (try apply Z.mod_pos_bound; lia). replace (irq mod 8) with (irq - 8) by (Z.div_mod_to_equations; lia).
      f_equal. f_equal. destruct (Z.eqb_spec (i - 8) (irq - 8)), (Z.eqb_spec i irq); lia.
Qed.

(** The lowest bit of [x] is bit [k]: [x & (x - 1)] clears it. *)
Lemma clear_lowest k r : 0 <= k -> 0 <= r -> Z.land (2 ^ k + 2 ^ (k + 1) * r) (2 ^ k + 2 ^ (k + 1) * r - 1) = 2 ^ (k + 1) * r.
Proof.
  intros Hk Hr. assert (forall lo i, 0 <= lo < 2 ^ (k + 1) -> 0 <= i -> Z.testbit (lo + 2 ^ (k + 1) * r) i = if i <? k + 1 then Z.testbit lo i else Z.testbit r (i - (k + 1))) as T.
  { intros lo i Hlo Hi. rewrite (Z.mul_comm _ r). rewrite <- (Z.mod_small lo (2 ^ (k + 1))) at 1 by done.
    destruct (Z.ltb_spec i (k + 1)).
    - rewrite <- (Z.mod_pow2_bits_low (lo mod _ + _) (k + 1)) by done. rewrite Z.mod_add, Z.mod_mod by lia. by rewrite Z.mod_pow2_bits_low.
    - replace i with (i - (k + 1) + (k + 1)) at 1 by lia. rewrite <- Z.div_pow2_bits by lia. rewrite Z.div_add, (Z.div_small (lo mod _)) by lia || (pose proof (Z.mod_pos_bound lo (2 ^ (k + 1))); lia). done. }
  pose proof (Z.pow_succ_r 2 k Hk) as P. replace (Z.succ k) with (k + 1) in P by lia. pose proof (Z.pow_pos_nonneg 2 k).
  replace (2 ^ k + 2 ^ (k + 1) * r - 1) with ((2 ^ k - 1) + 2 ^ (k + 1) * r) by lia. apply Z.bits_inj'. intros i Hi. rewrite Z.land_spec, !T by lia.
  rewrite <- (Z.add_0_l (2 ^ (k + 1) * r)), T by lia. destruct (Z.ltb_spec i (k + 1)); [|apply andb_diag]. rewrite Z.pow2_bits_eqb, testbit_pow2_pred, Z.bits_0 by lia.
  destruct (Z.eqb_spec k i), (Z.ltb_spec i k); try lia; done.
Qed.

(** In service on a chip: line [k] first, and the lines [r] behind it. *)
Definition serving (c : pic_chip) (k r : Z) : Prop := 0 <= r /\ p_isr c = 2 ^ k + 2 ^ (k + 1) * r.

Lemma pic_cmd_eoi c k r : 0 <= k -> serving c k r -> p_isr (pic_cmd 0x20 c) = 2 ^ (k + 1) * r.
Proof. intros Hk [Hr E]. unfold pic_cmd. cbn [Z.testbit]. change (Z.testbit 32 4) with false. rewrite Z.eqb_refl. cbn [p_isr]. rewrite E. by apply clear_lowest. Qed.
End pics.

Lemma arch_irq_init_spec {D} `{Pics D} (d : D) i : 0 <= i < 16 ->
  irq_vector (arch_irq_init d) i = 32 + i /\ irq_masked (arch_irq_init d) i = negb (i =? 0).
Proof.
  intros Hi. unfold arch_irq_init, pic_mask_all. destruct (pic_remap_spec PIC_MASTER_OFFSET PIC_SLAVE_OFFSET d) as [[m1 E1] [m2 E2]].
  set (d1 := outb PIC2_DATA 255 (outb PIC1_DATA 255 (pic_remap PIC_MASTER_OFFSET PIC_SLAVE_OFFSET d))).
  assert (chip1 d1 = MkChip 0 32 4 255 0) as C1 by (subst d1; rewrite (proj2 (pic2_write _ _)), (proj1 (pic1_write _ _)), E1; done).
  assert (chip2 d1 = MkChip 0 40 2 255 0) as C2 by (subst d1; rewrite (proj1 (pic2_write _ _)), (proj2 (pic1_write _ _)), E2; done).
  destruct (pic_unmask_spec 0 d1) as [U _]; [lia|by rewrite C1|by rewrite C2|]. destruct (U i Hi) as [-> ->]. unfold irq_vector, irq_masked. rewrite C1, C2. cbn [p_offset p_imr].
  change 255 with (2 ^ 8 - 1). destruct (Z.ltb_spec i 8); rewrite testbit_pow2_pred by lia; destruct (Z.ltb_spec i 8), (Z.ltb_spec (i - 8) 8); try lia; simpl; split; lia || done.
Qed.

(** C34: From any state of the two interrupt controllers, [arch_irq_init] leaves
    line [i] on vector [32 + i] for all 16 lines, with line 0, the timer, the only
    one not masked; and the end of interrupt for a line in service takes exactly
    it out of service, on the slave together with its line on the master. *)
Theorem irq_setup_correct {D} `{Pics D} (d : D) :
  (forall i, 0 <= i < 16 -> irq_vector (arch_irq_init d) i = 32 + i /\ irq_masked (arch_irq_init d) i = negb (i =? 0)) /\
  (forall i r, 0 <= i < 8 -> serving (chip1 d) i r ->
     p_isr (chip1 (arch_irq_eoi i d)) = 2 ^ (i + 1) * r /\ chip2 (arch_irq_eoi i d) = chip2 d) /\
  (forall i r r', 8 <= i < 16 -> serving (chip2 d) (i - 8) r -> serving (chip1 d) 2 r' ->
     p_isr (chip2 (arch_irq_eoi i d)) = 2 ^ (i - 8 + 1) * r /\ p_isr (chip1 (arch_irq_eoi i d)) = 2 ^ 3 * r').
Proof.
  split; [apply arch_irq_init_spec|split].
  - intros i r Hi S. unfold arch_irq_eoi, pic_eoi. destruct (Z.leb_spec 8 i); [lia|]. destruct (pic1_command 32 d) as [-> ->]; [by right|].
    split; [|done]. by apply pic_cmd_eoi; [lia|].
  - intros i r r' Hi S S'. unfold arch_irq_eoi, pic_eoi. destruct (Z.leb_spec 8 i); [|lia]. destruct (pic1_command 32 (outb PIC2_CMD 32 d)) as [-> ->]; [by right|].
    destruct (pic2_command 32 d) as [-> ->]; [by right|]. split; [by apply pic_cmd_eoi; [lia|]|by apply (pic_cmd_eoi _ 2 r')].
Qed.

(** ** The timer *)

Record pit_chip := MkPit { pit_high : bool; pit_low : Z; pit_reload : Z }.

(** Channel 0 in low byte / high byte access, as the command 0x36 sets it. *)
Class Pit (D : Type) `{Ports D} := {
  pit : D -> pit_chip;
  pit_mode d : pit (outb PIT_CMD 0x36 d) = MkPit false (pit_low (pit d)) (pit_reload (pit d));
  pit_write v d : pit (outb PIT_CH0 v d) =
    if pit_high (pit d) then MkPit false (pit_low (pit d)) (pit_low (pit d) + 256 * v) else MkPit true v (pit_reload (pit d)) }.

(** [timer_init] programs the counter with a value between 1 and 65535, for
    every rate; for a rate from 19 Hz to the input frequency it is the quotient
    of the input frequency by the rate (100 Hz when 0 is asked for). *)
Theorem timer_init_correct {D} `{Pit D} hz (d : D) : is_u32 hz ->
  let n := pit_reload (pit (timer_init hz d)) in
  1 <= n <= 0xFFFF /\ (19 <= hz <= PIT_FREQ -> n * hz <= PIT_FREQ < (n + 1) * hz) /\ (hz = 0 -> n = 11931).
Proof.
  intros Hz. assert (1 <= pit_divisor hz <= 65535) as R by (unfold pit_divisor; cbv zeta; generalize (PIT_FREQ / (if hz =? 0 then 100 else hz)); intros q; destruct (Z.ltb_spec 65535 q); zif; lia).
  assert (pit_reload (pit (timer_init hz d)) = pit_divisor hz) as ->.
  { unfold timer_init. cbv zeta. rewrite !pit_write, pit_mode. cbn [pit_high pit_low pit_reload]. rewrite Z.shiftr_div_pow2 by lia. change 255 with (2 ^ 8 - 1).
    rewrite !land_low by lia. change (2 ^ 8) with 256. unfold u8. change (2 ^ 8) with 256. rewrite !Z.mod_mod by lia. Z.div_mod_to_equations. lia. }
  cbv zeta. split; [lia|]. split; [|by intros ->]. intros Hh. unfold pit_divisor, PIT_FREQ in *. destruct (Z.eqb_spec hz 0); [lia|].
  pose proof (Z.div_mod 1193182 hz). pose proof (Z.mod_pos_bound 1193182 hz). assert (1193182 / hz <= 65535) by (apply Z.div_le_upper_bound; nia).
  assert (1 <= 1193182 / hz) by (apply Z.div_le_lower_bound; lia). destruct (Z.ltb_spec 65535 (1193182 / hz)); [lia|]. destruct (Z.ltb_spec (1193182 / hz) 1); [lia|]. nia.
Qed.

(** ** A machine with the three chips *)

Record machine := MkMachine {
  mc_sent : list Z; mc_received : list Z; mc_wait : nat; mc_lcr : Z; mc_divisor : Z; mc_pic1 : pic_chip; mc_pic2 : pic_chip; mc_pit : pit_chip }.

Definition with_line (m : machine) (s r : list Z) (w : nat) (l v : Z) : machine := MkMachine s r w l v (mc_pic1 m) (mc_pic2 m) (mc_pit m).
Definition with_pics (m : machine) (c1 c2 : pic_chip) : machine :=
  MkMachine (mc_sent m) (mc_received m) (mc_wait m) (mc_lcr m) (mc_divisor m) c1 c2 (mc_pit m).
Definition with_pit (m : machine) (p : pit_chip) : machine :=
  MkMachine (mc_sent m) (mc_received m) (mc_wait m) (mc_lcr m) (mc_divisor m) (mc_pic1 m) (mc_pic2 m) p.

(** The transmitter is busy for two polls after each character. *)
Definition machine_in (p : Z) (m : machine) : Z * machine :=
  if p =? COM1 + 5 then
    (Z.lor (if decide (mc_wait m = O) then 32 else 0) (if decide (mc_received m = []) then 0 else 1),
     with_line m (mc_sent m) (mc_received m) (pred (Nat.min 2 (mc_wait m))) (mc_lcr m) (mc_divisor m))
  else if p =? COM1 then (zget 0 (u8 <$> mc_received m) 0, with_line m (mc_sent m) (tail (mc_received m)) (mc_wait m) (mc_lcr m) (mc_divisor m))
  else if p =? PIC1_DATA then (p_imr (mc_pic1 m), m)
  else if p =? PIC2_DATA then (p_imr (mc_pic2 m), m)
  else (0xFF, m).
Definition machine_out (p v : Z) (m : machine) : machine :=
  let latch := Z.testbit (mc_lcr m) 7 in
  if p =? COM1 then
    if latch then with_line m (mc_sent m) (mc_received m) (mc_wait m) (mc_lcr m) (mc_divisor m / 256 * 256 + v)
    else with_line m (mc_sent m ++ [v]) (mc_received m) 2 (mc_lcr m) (mc_divisor m)
  else if p =? COM1 + 1 then
    if latch then with_line m (mc_sent m) (mc_received m) (mc_wait m) (mc_lcr m) (256 * v + mc_divisor m mod 256) else m
  else if p =? COM1 + 3 then with_line m (mc_sent m) (mc_received m) (mc_wait m) v (mc_divisor m)
  else if p =? PIC1_CMD then with_pics m (pic_cmd v (mc_pic1 m)) (mc_pic2 m)
  else if p =? PIC1_DATA then with_pics m (pic_data v (mc_pic1 m)) (mc_pic2 m)
  else if p =? PIC2_CMD then with_pics m (mc_pic1 m) (pic_cmd v (mc_pic2 m))
  else if p =? PIC2_DATA then with_pics m (mc_pic1 m) (pic_data v (mc_pic2 m))
  else if p =? PIT_CMD then with_pit m (MkPit false (pit_low (mc_pit m)) (pit_reload (mc_pit m)))
  else if p =? PIT_CH0 then
    with_pit m (if pit_high (mc_pit m) then MkPit false (pit_low (mc_pit m)) (pit_low (mc_pit m) + 256 * v) else MkPit true v (pit_reload (mc_pit m)))
  else m.

#[export] Instance machine_ports : Ports machine := { inb := machine_in; outb := machine_out }.

#[export, refine] Instance machine_uart : Uart machine := {
  sent := mc_sent; received m := u8 <$> mc_received m; tx_wait m := Nat.min 2 (mc_wait m); tx_bound := 2; lcr := mc_lcr; divisor := mc_divisor }.
Proof.
  - intros. lia.
  - intros d. apply Forall_fmap, Forall_forall. intros x _. apply u8_range.
  - intros d. change (inb (COM1 + 5) d) with (machine_in (COM1 + 5) d). unfold machine_in. rewrite Z.eqb_refl. cbn [with_line mc_wait mc_sent mc_lcr mc_divisor mc_received].
    split_and!; try done; [| |lia].
    + assert (bool_decide (Nat.min 2 (mc_wait d) = O) = bool_decide (mc_wait d = O)) as -> by (apply bool_decide_ext; lia).
      by destruct (decide (mc_wait d = O)) as [->|], (decide (mc_received d = [])); case_bool_decide.
    + destruct (mc_received d); cbn; by destruct (decide (mc_wait d = O)).
  - intros c d Hl _ _. unfold outb, machine_ports, machine_out. cbv zeta. rewrite Z.eqb_refl, Hl. done.
  - intros b r d _ E. change (inb COM1 d) with (machine_in COM1 d). unfold machine_in. change (COM1 =? COM1 + 5) with false. rewrite Z.eqb_refl.
    destruct (mc_received d) as [|x k] eqn:Er; [done|]. cbn [fmap list_fmap] in E. injection E as <- <-. cbn [with_line mc_wait mc_sent mc_lcr mc_divisor mc_received tail]. by split_and!.
  - intros v d Hl. unfold outb, machine_ports, machine_out. cbv zeta. rewrite Z.eqb_refl, Hl. done.
  - intros v d Hl. unfold outb, machine_ports, machine_out. cbv zeta. change (COM1 + 1 =? COM1) with false. cbv iota. rewrite Z.eqb_refl, Hl. done.
  - intros v d Hl. unfold outb, machine_ports, machine_out. cbv zeta. change (COM1 + 1 =? COM1) with false. cbv iota. rewrite Z.eqb_refl, Hl. done.
  - done.
  - done.
  - done.
Defined.

#[export, refine] Instance machine_pics : Pics machine := { chip1 := mc_pic1; chip2 := mc_pic2 }.
Proof. all: intros; cbn; done. Defined.

#[export, refine] Instance machine_pit : Pit machine := { pit := mc_pit }.
Proof. all: intros; cbn; done. Defined.

Definition off_chip : pic_chip := MkChip 0 8 0 0 0.
Definition demo_machine : machine := MkMachine [] [113; 10] 1 3 3 off_chip off_chip (MkPit false 0 0).

(** [pid=%d at %p: %s] and a newline. *)
Definition demo_fmt : list Z := byte_list "pid=%d at %p: %s" ++ [10; 0].
Definition demo_strs (a : Z) : list Z := if a =? 0x1000 then byte_list "init" ++ [0] else [].

Lemma kernel_printf_correct_witness :
  exists d', exy_printf demo_strs 3 demo_fmt [-7; 0x40_0000; 0x1000] demo_machine = Some d' /\
    mc_sent d' = byte_list "pid=-7 at 0x400000: init" ++ [13; 10].
Proof.
  destruct (kernel_printf_correct demo_strs 3 demo_fmt [-7; 0x40_0000; 0x1000] (byte_list "pid=-7 at 0x400000: init" ++ [10]) demo_machine) as [(d' & E & S & _) _].
  - cbn. lia.
  - intros a. unfold demo_strs. zif; [|constructor]. apply bytes_app. split; [apply byte_list_bytes|repeat constructor; lia].
  - apply bytes_app. split; [apply byte_list_bytes|repeat constructor; lia].
  - reflexivity.
  - vm_compute. reflexivity.
  - exists d'. split; [exact E|]. exact S.
Defined.

Lemma timer_init_correct_witness : pit_reload (pit (timer_init 100 demo_machine)) = 11931 /\ 1 <= 11931 <= 0xFFFF.
Proof.
  destruct (timer_init_correct 100 demo_machine) as (B & _); [unfold is_u32; lia|]. split; [reflexivity|exact B].
Defined.

Lemma irq_setup_correct_witness :
  irq_vector (arch_irq_init demo_machine) 8 = 40 /\ irq_masked (arch_irq_init demo_machine) 0 = false /\
  let busy := with_pics demo_machine (MkChip 0 32 4 0 4) (MkChip 0 40 2 0 2) in p_isr (chip2 (arch_irq_eoi 9 busy)) = 0 /\ p_isr (chip1 (arch_irq_eoi 9 busy)) = 0.
Proof.
  destruct (irq_setup_correct demo_machine) as [I _]. split; [exact (proj1 (I 8 ltac:(lia)))|]. split; [exact (proj2 (I 0 ltac:(lia)))|].
  set (busy := with_pics demo_machine (MkChip 0 32 4 0 4) (MkChip 0 40 2 0 2)).
  destruct (irq_setup_correct busy) as (_ & _ & J). apply (J 9 0 0); [lia|split; [lia|reflexivity]..].
Defined.
