(* ===== verification/Trap.v ===== *)
(** * Segments, gates and traps

    [arch/x86_64/cpu/gdt.c], [idt.c], [syscall_arch.c]: the tables the processor
    enters the kernel through; [isr.c], [core/irq.c], [core/extable.c] and the
    two handlers of [kmain.c]: what happens when it does.  Addresses that the
    linker chooses (tables, stacks, entry points) are parameters.  A trap handler
    runs to the point where it returns to the frame, ends the thread or halts the
    machine. *)
From S2P Require Import Prelude Bytes Queue Sched Str Stdio Device.

(** ** gdt.c *)

Definition make_flat_gdt_entry (base limit access flags : Z) : Z :=
  Z.lor (Z.lor (Z.lor (Z.lor (Z.lor (Z.lor
    (Z.land limit 0xFFFF)
    (u64 (Z.shiftl (Z.land base 0xFFFF) 16)))
    (u64 (Z.shiftl (Z.land (Z.shiftr base 16) 0xFF) 32)))
    (u64 (Z.shiftl access 40)))
    (u64 (Z.shiftl (Z.land (Z.shiftr limit 16) 0xF) 48)))
    (u64 (Z.shiftl (Z.land flags 0xF) 52)))
    (u64 (Z.shiftl (Z.land (Z.shiftr base 24) 0xFF) 56)).

Record tss64 := MkTss { rsp0 : Z; ist : list Z; iomap_base : Z }.
Definition TSS_SIZE : Z := 104.
Definition IST_STACK : Z := 8192.

Definition tss_init (stack_df stack_nmi stack_mc : Z) : tss64 :=
  MkTss 0 [u64 (stack_df + IST_STACK); u64 (stack_nmi + IST_STACK); u64 (stack_mc + IST_STACK); 0; 0; 0; 0] (u16 TSS_SIZE).

Definition gdt_set_entries (tss_addr : Z) : list Z :=
  let limit := TSS_SIZE - 1 in
  [0;
   make_flat_gdt_entry 0 0xFFFFF 0x9A 0xA;
   make_flat_gdt_entry 0 0xFFFFF 0x92 0xC;
   make_flat_gdt_entry 0 0xFFFFF 0xF2 0xC;
   make_flat_gdt_entry 0 0xFFFFF 0xFA 0xA;
   Z.lor (Z.lor (Z.lor (Z.lor (Z.lor (Z.lor
     (Z.land limit 0xFFFF)
     (u64 (Z.shiftl (Z.land tss_addr 0xFFFF) 16)))
     (u64 (Z.shiftl (Z.land (Z.shiftr tss_addr 16) 0xFF) 32)))
     (u64 (Z.shiftl 0x89 40)))
     (u64 (Z.shiftl (Z.land (Z.shiftr limit 16) 0xF) 48)))
     (u64 (Z.shiftl 0 52)))
     (u64 (Z.shiftl (Z.land (Z.shiftr tss_addr 24) 0xFF) 56));
   Z.land (Z.shiftr tss_addr 32) 0xFFFFFFFF].

(** ** idt.c *)

Record idt_entry := MkGate {
  offset_low : Z; selector : Z; gate_ist : Z; type_attr : Z; offset_mid : Z; offset_high : Z; gate_reserved : Z }.

Definition make_gate (handler sel i attr : Z) : idt_entry :=
  MkGate (u16 (Z.land handler 0xFFFF)) sel (u8 (Z.land i 7)) attr
    (u16 (Z.land (Z.shiftr handler 16) 0xFFFF)) (u32 (Z.land (Z.shiftr handler 32) 0xFFFFFFFF)) 0.
Definition idt_set_gate (idt : list idt_entry) (n handler sel i attr : Z) : list idt_entry := zset idt n (make_gate handler sel i attr).

Definition gate_ist_of (i : Z) : Z :=
  let x := 0 in
  let x := if i =? 8 then 1 else x in
  let x := if i =? 2 then 2 else x in
  if i =? 18 then 3 else x.

Definition idt_init (isr_stub_table : list Z) (idt : list idt_entry) : list idt_entry :=
  let idt := foldl (fun idt i => idt_set_gate idt (u8 i) 0 0 0 0) idt (seqZ 0 256) in
  foldl (fun idt i => idt_set_gate idt i (zget 0 isr_stub_table i) 0x08 (gate_ist_of i) (if i =? 3 then 0xEE else 0x8E)) idt (seqZ 0 48).

(** ** syscall_arch.c *)

Definition MSR_EFER : Z := 0xC0000080.
Definition MSR_STAR : Z := 0xC0000081.
Definition MSR_LSTAR : Z := 0xC0000082.
Definition MSR_FMASK : Z := 0xC0000084.
Definition MSR_GS_BASE : Z := 0xC0000101.
Definition MSR_KERNEL_GS_BASE : Z := 0xC0000102.
Definition EFER_SCE : Z := 1.
Definition SYSCALL_FMASK : Z := 0x44700.

(** The model-specific registers; both instructions move them as two 32-bit halves. *)
Abbreviation msrs := (gmap Z Z).
Definition rdmsr (r : Z) (m : msrs) : Z := Z.lor (u64 (Z.shiftl (Z.shiftr (rd m r) 32) 32)) (u32 (rd m r)).
Definition wrmsr (r v : Z) (m : msrs) : msrs :=
  let lo := u32 (Z.land v 0xFFFFFFFF) in
  let hi := u32 (Z.shiftr v 32) in
  <[r := Z.lor (Z.shiftl hi 32) lo]> m.

(** The processor's tables and the state the entry code reads through GS. *)
Record cpu := MkCpu {
  gdt : list Z; tss : tss64; idt : list idt_entry; msr : msrs; kernel_rsp : Z; scratch : Z; gs_kernel_state : Z }.

Section link.
(** Link-time addresses. *)
Context (tss_addr stack_df stack_nmi stack_mc state_addr syscall_entry : Z) (isr_stub_table : list Z).

Definition gdt_init (c : cpu) : cpu :=
  MkCpu (gdt_set_entries tss_addr) (tss_init stack_df stack_nmi stack_mc) (idt c) (msr c) (kernel_rsp c) (scratch c) (gs_kernel_state c).
Definition cpu_idt_init (c : cpu) : cpu :=
  MkCpu (gdt c) (tss c) (idt_init isr_stub_table (idt c)) (msr c) (kernel_rsp c) (scratch c) (gs_kernel_state c).

Definition syscall_arch_init (c : cpu) : cpu :=
  let m := msr c in
  let m := wrmsr MSR_EFER (Z.lor (rdmsr MSR_EFER m) EFER_SCE) m in
  let star := Z.lor (u64 (Z.shiftl 0x08 32)) (u64 (Z.shiftl 0x13 48)) in
  let m := wrmsr MSR_STAR star m in
  let m := wrmsr MSR_LSTAR syscall_entry m in
  let m := wrmsr MSR_FMASK SYSCALL_FMASK m in
  let m := wrmsr MSR_GS_BASE 0 m in
  let m := wrmsr MSR_KERNEL_GS_BASE state_addr m in
  MkCpu (gdt c) (tss c) (idt c) m 0 0 state_addr.

(** The parts of [arch_init] and [kmain] that set the processor up. *)
Definition cpu_init (c : cpu) : cpu := syscall_arch_init (cpu_idt_init (gdt_init c)).
End link.

Definition gdt_set_kernel_stack (v : Z) (t : tss64) : tss64 := MkTss v (ist t) (iomap_base t).
Definition arch_set_kernel_stack (v : Z) (c : cpu) : cpu :=
  MkCpu (gdt c) (gdt_set_kernel_stack v (tss c)) (idt c) (msr c) v (scratch c) (gs_kernel_state c).

(** ** extable.c *)

(** The table as the linker lays it out: pairs of a faulting address and the
    address to go on at. *)
Fixpoint extable_lookup (table : list (Z * Z)) (fault_rip : Z) : option Z :=
  match table with
  | [] => None
  | (p0, p1) :: table => if p0 =? fault_rip then Some p1 else extable_lookup table fault_rip
  end.

(** ** core/irq.c and the handlers of kmain.c *)

Definition IRQ_COUNT : Z := 16.

Section trap.
Context {D : Type} `{Ports D}.

Record kernel := MkKernel { k_sched : sched; k_dev : D; tick_count : Z }.

Abbreviation irq_handler := (Z -> kernel -> kernel).
Abbreviation irq_table := (list (option irq_handler)).

Definition irq_register (handlers : irq_table) (irq : Z) (h : option irq_handler) : irq_table :=
  if irq <? IRQ_COUNT then zset handlers irq h else handlers.

Definition timer_tick (irq : Z) (k : kernel) : kernel := MkKernel (sched_tick (k_sched k)) (k_dev k) (u64 (tick_count k + 1)).

(** The threads freed by the switch, and the state; [None] is the panic of the
    scheduler. *)
Definition irq_dispatch (handlers : irq_table) (irq : Z) (k : kernel) : option (list Z * kernel) :=
  let k := if irq <? IRQ_COUNT then match zget None handlers irq with Some h => h irq k | None => k end else k in
  let k := MkKernel (k_sched k) (arch_irq_eoi irq (k_dev k)) (tick_count k) in
  '(l, s) ← sched_preempt_point (k_sched k);
  Some (l, MkKernel s (k_dev k) (tick_count k)).

(** ** isr.c *)

Record regs := MkRegs {
  r15 : Z; r14 : Z; r13 : Z; r12 : Z; r11 : Z; r10 : Z; r9 : Z; r8 : Z; rdi : Z; rsi : Z; rbp : Z; rdx : Z; rcx : Z; rbx : Z; rax : Z;
  int_no : Z; err_code : Z; rip : Z; cs : Z; rflags : Z; rsp : Z; ss : Z }.
Definition set_rip (v : Z) (r : regs) : regs :=
  MkRegs (r15 r) (r14 r) (r13 r) (r12 r) (r11 r) (r10 r) (r9 r) (r8 r) (rdi r) (rsi r) (rbp r) (rdx r) (rcx r) (rbx r) (rax r)
    (int_no r) (err_code r) v (cs r) (rflags r) (rsp r) (ss r).

Record user_fault_t := MkFault { f_int_no : Z; f_err_code : Z; f_rip : Z; f_rax : Z; f_rsp : Z }.

(** How a trap ends: back to the frame when its thread runs, the thread ended, a
    frame that is found bad when its thread runs again, or a halted machine. *)
Inductive trap_outcome :=
  | Resumed (r : regs) (freed : list Z) (k : kernel)
  | Ended (freed : list Z) (k : kernel)
  | BadFrame (r : regs) (freed : list Z) (k : kernel)
  | Halted (d : D).

Definition exception_names : list string :=
  ["Divide Error (#DE)"; "Debug (#DB)"; "NMI Interrupt (#NMI)"; "Breakpoint (#BP)"; "Overflow (#OF)"; "BOUND Range Exceeded (#BR)";
   "Invalid Opcode (#UD)"; "Device Not Available (#NM)"; "Double Fault (#DF)"; "Coprocessor Segment Overrun"; "Invalid TSS (#TS)";
   "Segment Not Present (#NP)"; "Stack-Segment Fault (#SS)"; "General Protection Fault (#GP)"; "Page Fault (#PF)"; "Reserved";
   "x87 FPU Error (#MF)"; "Alignment Check (#AC)"; "Machine Check (#MC)"; "SIMD FP Exception (#XM)"; "Virtualization Exception (#VE)";
   "Control Protection (#CP)"; "Reserved"; "Reserved"; "Reserved"; "Reserved"; "Reserved"; "Reserved"; "Reserved"; "VMM Communication (#VC)";
   "Security Exception (#SX)"; "Reserved"]%string.

(** What a trap handler reads besides its arguments: the strings of the kernel,
    the words of the stack the frame lies on, CR2, the address of the frame, the
    exception table; [fuel] as in Device. *)
Record trap_env := MkEnv {
  te_strs : Z -> list Z; te_stack : Z -> Z; te_cr2 : Z; te_frame : Z; te_extable : list (Z * Z); te_fuel : nat }.

Section dump.
Context (e : trap_env).

(** A literal: the lines before the text are newlines, as are those after it. *)
Definition say (s : string) (d : D) : option D := console_write (te_fuel e) (byte_list s ++ [0]) d.
Definition newline (d : D) : option D := console_write (te_fuel e) [10; 0] d.
Definition hex (v : Z) (d : D) : option D := console_write_hex (te_fuel e) v d.
Definition field (name : string) (v : Z) (d : D) : option D := d ← newline d; d ← say name d; hex v d.

Fixpoint dump_stack_loop (base : Z) (ixs : list Z) (d : D) : option D :=
  match ixs with
  | [] => Some d
  | i :: ixs =>
    d ← say "    " d;
    d ← hex (u64 (base + u64 (i * 8))) d;
    d ← say ": " d;
    d ← hex (te_stack e (base + i * 8)) d;
    d ← newline d;
    dump_stack_loop base ixs d
  end.
Definition dump_stack_words (base count : Z) (d : D) : option D := dump_stack_loop base (seqZ 0 count) d.

Definition print_thread_id (s : sched) (d : D) : option D :=
  let name := match threads s !! current s with Some t => t_name t | None => 0 end in
  if (current s =? 0) || (name =? 0) then say "(no thread)" d else console_write (te_fuel e) (te_strs e name) d.

Definition dump_regs (s : sched) (r : regs) (d : D) : option D :=
  d ← say "  thread  = " d;
  d ← print_thread_id s d;
  d ← field "  int_no  = " (int_no r) d;
  d ← field "  err     = " (err_code r) d;
  d ← field "  rip     = " (rip r) d;
  d ← field "  cs      = " (cs r) d;
  d ← field "  rflags  = " (rflags r) d;
  d ← field "  rsp     = " (rsp r) d;
  d ← field "  ss      = " (ss r) d;
  d ← field "  cr2     = " (te_cr2 e) d;
  newline d.

Definition dump_and_panic (r : regs) (k : kernel) : option trap_outcome :=
  d ← newline (k_dev k);
  d ← say "[EXCEPTION] " d;
  d ← (if int_no r <? 32 then say (zget ""%string exception_names (int_no r)) d else say "Unknown" d);
  d ← newline d;
  d ← dump_regs (k_sched k) r d;
  d ← say "  -- stack dump from regs frame --" d;
  d ← newline d;
  d ← dump_stack_words (te_frame e) 24 d;
  d ← newline d;
  d ← panic (te_fuel e) (byte_list "unhandled CPU exception" ++ [0]) d;
  Some (Halted d).

Definition try_kernel_extable (r : regs) : option regs := (fun fixup => set_rip fixup r) <$> extable_lookup (te_extable e) (rip r).

(** The function installed by [arch_set_user_fault_handler]; it does not return. *)
Abbreviation fault_handler := (user_fault_t -> kernel -> option trap_outcome).

Definition user_fault_panic (r : regs) (k : kernel) : option trap_outcome :=
  d ← newline (k_dev k);
  d ← say "[USER EXCEPTION] " d;
  d ← say (zget ""%string exception_names (int_no r)) d;
  d ← field "  rip     = " (rip r) d;
  d ← field "  err     = " (err_code r) d;
  d ← newline d;
  d ← panic (te_fuel e) (byte_list "unhandled user-mode exception" ++ [0]) d;
  Some (Halted d).

Definition isr_exception (ufh : option fault_handler) (r : regs) (k : kernel) : option trap_outcome :=
  let from_user := Z.land (cs r) 3 =? 3 in
  match (if negb from_user && (int_no r =? 14) then try_kernel_extable r else None) with
  | Some r => Some (Resumed r [] k)
  | None =>
    if from_user then
      match ufh with
      | Some h => h (MkFault (int_no r) (err_code r) (rip r) (rax r) (rsp r)) k
      | None => user_fault_panic r k
      end
    else dump_and_panic r k
  end.

(** The check of the frame after [irq_dispatch], and what follows when it fails. *)
Definition frame_ok (r : regs) : bool := negb (Z.land (cs r) 3 =? 3) || ((cs r =? 0x23) && (ss r =? 0x1B)).

Definition bad_frame_panic (r : regs) (k : kernel) : option trap_outcome :=
  d ← newline (k_dev k);
  d ← say "[IRQ iretq-frame check FAILED]" d;
  d ← newline d;
  d ← say "  expected cs=0x23 ss=0x1b" d;
  d ← newline d;
  d ← dump_regs (k_sched k) r d;
  d ← say "  -- stack dump from regs frame --" d;
  d ← newline d;
  d ← dump_stack_words (te_frame e) 32 d;
  d ← newline d;
  d ← panic (te_fuel e) (byte_list "bad user-return frame before iretq" ++ [0]) d;
  Some (Halted d).

(** When [irq_dispatch] has switched to another thread, the rest is done when
    this one runs again: [bad_frame_panic] of its frame for [BadFrame]. *)
Definition isr_dispatch (ufh : option fault_handler) (handlers : irq_table) (r : regs) (k : kernel) : option trap_outcome :=
  let n := int_no r in
  if n <? 32 then isr_exception ufh r k
  else if n <? 48 then
    '(l, k') ← irq_dispatch handlers (u8 (n - 32)) k;
    if frame_ok r then Some (Resumed r l k')
    else if current (k_sched k') =? current (k_sched k) then bad_frame_panic r k'
    else Some (BadFrame r l k')
  else dump_and_panic r k.

(** [user_fault_handler] of kmain.c, which stays installed after the self test. *)
Definition user_fault_handler (f : user_fault_t) (k : kernel) : option trap_outcome :=
  if f_int_no f =? 3 then '(l, s) ← thread_exit (k_sched k); Some (Ended l (MkKernel s (k_dev k) (tick_count k)))
  else
    d ← say "  user: unexpected int_no=" (k_dev k);
    d ← hex (f_int_no f) d;
    d ← say " rip=" d;
    d ← hex (f_rip f) d;
    d ← newline d;
    d ← panic (te_fuel e) (byte_list "ring3 test: unexpected user fault" ++ [0]) d;
    Some (Halted d).
End dump.
End trap.
Arguments kernel : clear implicits.
Arguments trap_outcome : clear implicits.

(** ** Descriptors as the processor reads them *)

Definition bits (x lo n : Z) : Z := x / 2 ^ lo mod 2 ^ n.
Definition seg_base (x : Z) : Z := bits x 16 24 + 2 ^ 24 * bits x 56 8.
Definition seg_limit (x : Z) : Z := bits x 0 16 + 2 ^ 16 * bits x 48 4.
Definition seg_access (x : Z) : Z := bits x 40 8.
Definition seg_flags (x : Z) : Z := bits x 52 4.

Lemma lor_shiftl_add a b k : 0 <= k -> 0 <= a < 2 ^ k -> 0 <= b -> Z.lor a (Z.shiftl b k) = a + 2 ^ k * b.
Proof.
  intros Hk Ha Hb. rewrite (Z.mul_comm (2 ^ k)), <- Z.shiftl_mul_pow2 by lia. rewrite <- Z.lxor_lor, Z.add_nocarry_lxor; [done|..].
  all: apply Z.bits_inj'; intros i Hi; rewrite Z.land_spec, Z.bits_0; destruct (Z_lt_le_dec i k);
    [rewrite (Z.shiftl_spec_low b) by lia; apply andb_false_r|rewrite (testbit_high a k) by lia; done].
Qed.

(** The fields laid side by side. *)
Lemma descriptor_sum base limit access flags : 0 <= base < 2 ^ 64 -> 0 <= limit < 2 ^ 20 -> 0 <= access < 2 ^ 8 -> 0 <= flags < 2 ^ 4 ->
  make_flat_gdt_entry base limit access flags =
  limit mod 2 ^ 16 + 2 ^ 16 * (base mod 2 ^ 16) + 2 ^ 32 * (base / 2 ^ 16 mod 2 ^ 8) + 2 ^ 40 * access +
  2 ^ 48 * (limit / 2 ^ 16 mod 2 ^ 4) + 2 ^ 52 * flags + 2 ^ 56 * (base / 2 ^ 24 mod 2 ^ 8).
Proof.
  intros Hb Hl Ha Hf. unfold make_flat_gdt_entry.
  change 0xFFFF with (2 ^ 16 - 1). change 0xFF with (2 ^ 8 - 1). change 0xF with (2 ^ 4 - 1). rewrite !land_low, !Z.shiftr_div_pow2 by lia.
  rewrite (Z.mod_small flags) by lia.
  pose proof (Z.mod_pos_bound limit (2 ^ 16) ltac:(lia)). pose proof (Z.mod_pos_bound base (2 ^ 16) ltac:(lia)). pose proof (Z.mod_pos_bound (base / 2 ^ 16) (2 ^ 8) ltac:(lia)).
  pose proof (Z.mod_pos_bound (limit / 2 ^ 16) (2 ^ 4) ltac:(lia)). pose proof (Z.mod_pos_bound (base / 2 ^ 24) (2 ^ 8) ltac:(lia)).
  generalize dependent (limit mod 2 ^ 16). intros a0. generalize dependent (base mod 2 ^ 16). intros a1. generalize dependent (base / 2 ^ 16 mod 2 ^ 8). intros a2.
  generalize dependent (limit / 2 ^ 16 mod 2 ^ 4). intros a4. generalize dependent (base / 2 ^ 24 mod 2 ^ 8). intros a6. intros.
  assert (forall x k, 0 <= k -> 0 <= x -> 2 ^ k * x < 2 ^ 64 -> u64 (Z.shiftl x k) = Z.shiftl x k) as U
    by (intros x k Hk Hx Hlt; apply u64_small; rewrite Z.shiftl_mul_pow2 by lia; lia).
  rewrite !U by lia. rewrite (lor_shiftl_add a0 a1 16), (lor_shiftl_add _ a2 32), (lor_shiftl_add _ access 40), (lor_shiftl_add _ a4 48), (lor_shiftl_add _ flags 52), (lor_shiftl_add _ a6 56) by lia. lia.
Qed.

(** What was put together is what the processor reads. *)
Lemma descriptor_fields base limit access flags : 0 <= base < 2 ^ 64 -> 0 <= limit < 2 ^ 20 -> 0 <= access < 2 ^ 8 -> 0 <= flags < 2 ^ 4 ->
  let x := make_flat_gdt_entry base limit access flags in
  seg_base x = base mod 2 ^ 32 /\ seg_limit x = limit /\ seg_access x = access /\ seg_flags x = flags.
Proof.
  intros Hb Hl Ha Hf. cbv zeta. rewrite descriptor_sum by lia. unfold seg_base, seg_limit, seg_access, seg_flags, bits.
  assert (base mod 2 ^ 32 = base mod 2 ^ 16 + 2 ^ 16 * (base / 2 ^ 16 mod 2 ^ 8) + 2 ^ 24 * (base / 2 ^ 24 mod 2 ^ 8)) as -> by (clear; Z.div_mod_to_equations; lia).
  assert (limit = limit mod 2 ^ 16 + 2 ^ 16 * (limit / 2 ^ 16 mod 2 ^ 4)) as El by (clear - Hl; Z.div_mod_to_equations; lia). rewrite El at 9.
  pose proof (Z.mod_pos_bound limit (2 ^ 16) ltac:(lia)). pose proof (Z.mod_pos_bound base (2 ^ 16) ltac:(lia)). pose proof (Z.mod_pos_bound (base / 2 ^ 16) (2 ^ 8) ltac:(lia)).
  pose proof (Z.mod_pos_bound (limit / 2 ^ 16) (2 ^ 4) ltac:(lia)). pose proof (Z.mod_pos_bound (base / 2 ^ 24) (2 ^ 8) ltac:(lia)). clear El Hb Hl.
  generalize dependent (limit mod 2 ^ 16). intros a0. generalize dependent (base mod 2 ^ 16). intros a1. generalize dependent (base / 2 ^ 16 mod 2 ^ 8). intros a2.
  generalize dependent (limit / 2 ^ 16 mod 2 ^ 4). intros a4. generalize dependent (base / 2 ^ 24 mod 2 ^ 8). intros a6. intros.
  repeat split; Z.div_mod_to_equations; lia.
Qed.

(** ** The tables *)

(** The descriptor a selector names. *)
Definition descriptor (c : cpu) (sel : Z) : Z := zget 0 (gdt c) (sel / 8).

(** A flat 64-bit code or writable data segment, present, of privilege [dpl],
    named by a selector with that privilege. *)
Definition code_segment (c : cpu) (sel dpl : Z) : Prop :=
  let x := descriptor c sel in
  sel mod 4 = dpl /\ seg_base x = 0 /\ seg_limit x = 0xFFFFF /\ bits x 45 2 = dpl /\
  Z.testbit x 47 = true /\ Z.testbit x 44 = true /\ Z.testbit x 43 = true /\ Z.testbit x 53 = true /\ Z.testbit x 54 = false.
Definition data_segment (c : cpu) (sel dpl : Z) : Prop :=
  let x := descriptor c sel in
  sel mod 4 = dpl /\ seg_base x = 0 /\ seg_limit x = 0xFFFFF /\ bits x 45 2 = dpl /\
  Z.testbit x 47 = true /\ Z.testbit x 44 = true /\ Z.testbit x 43 = false /\ Z.testbit x 41 = true.

Definition gate_offset (g : idt_entry) : Z := offset_low g + 2 ^ 16 * offset_mid g + 2 ^ 32 * offset_high g.
Definition no_gate : idt_entry := MkGate 0 0 0 0 0 0 0.
Definition gate (c : cpu) (n : Z) : idt_entry := zget no_gate (idt c) n.

(** The stack a gate switches to, when it names one. *)
Definition gate_stack (c : cpu) (n : Z) : option Z :=
  if gate_ist (gate c n) =? 0 then None else Some (zget 0 (ist (tss c)) (gate_ist (gate c n) - 1)).

Lemma wrmsr_rd r v m r' : is_u64 v -> rd (wrmsr r v m) r' = if r' =? r then v else rd m r'.
Proof.
  intros Hv. unfold wrmsr. cbv zeta. rewrite rd_insert. destruct (r' =? r); [|done]. unfold is_u64 in Hv. change 0xFFFFFFFF with (2 ^ 32 - 1). rewrite land_low by lia.
  rewrite Z.shiftr_div_pow2 by lia. unfold u32. rewrite Z.mod_mod by lia. rewrite Z.lor_comm, lor_shiftl_add; Z.div_mod_to_equations; lia.
Qed.

Lemma efer_u64 m : is_u64 (Z.lor (rdmsr MSR_EFER m) EFER_SCE).
Proof.
  apply (lor_width _ _ 64); [lia| |unfold EFER_SCE; lia]. unfold rdmsr. apply lor_width; [lia|apply u64_range|]. pose proof (u32_range (rd m MSR_EFER)). lia.
Qed.

(** The registers [syscall_arch_init] leaves. *)
Lemma syscall_msrs state_addr entry c : is_u64 state_addr -> is_u64 entry -> let m := msr (syscall_arch_init state_addr entry c) in
  rd m MSR_STAR = 0x13000800000000 /\ rd m MSR_LSTAR = entry /\ Z.testbit (rd m MSR_EFER) 0 = true /\ rd m MSR_KERNEL_GS_BASE = state_addr.
Proof.
  intros Hs He. unfold syscall_arch_init. cbn [msr]. pose proof (efer_u64 (msr c)) as Hf. change (Z.lor (u64 (Z.shiftl 8 32)) (u64 (Z.shiftl 19 48))) with 0x13000800000000.
  assert (is_u64 0x13000800000000 /\ is_u64 SYSCALL_FMASK /\ is_u64 0) as (H1 & H2 & H3) by (unfold is_u64, SYSCALL_FMASK; lia).
  set (efer := Z.lor _ _) in *. rewrite !wrmsr_rd by assumption. unfold MSR_STAR, MSR_LSTAR, MSR_EFER, MSR_KERNEL_GS_BASE, MSR_GS_BASE, MSR_FMASK. cbn [Z.eqb Pos.eqb].
  split_and!; [reflexivity..| |reflexivity]. subst efer. rewrite Z.lor_spec. apply orb_true_r.
Qed.

Lemma make_gate_offset h sel i attr : is_u64 h -> gate_offset (make_gate h sel i attr) = h.
Proof.
  intros Hh. unfold gate_offset, make_gate, is_u64 in *. cbn [offset_low offset_mid offset_high]. change 0xFFFF with (2 ^ 16 - 1). change 0xFFFFFFFF with (2 ^ 32 - 1).
  rewrite !land_low, !Z.shiftr_div_pow2 by lia. unfold u16, u32. rewrite !Z.mod_mod by lia. Z.div_mod_to_equations. lia.
Qed.

(** Setting the gates of a run of vectors. *)
Lemma set_gates (f : Z -> idt_entry) l n : 0 <= n <= zlen l -> let l' := foldl (fun l i => zset l i (f i)) l (seqZ 0 n) in
  zlen l' = zlen l /\ forall i, 0 <= i -> zget no_gate l' i = if i <? n then f i else zget no_gate l i.
Proof.
  cbv zeta. pattern n. revert n. apply seqZ_ind.
  - intros n Hn [H0 _]. rewrite seqZ_nonpos by done. split; [done|]. intros i Hi. cbn [foldl]. destruct (Z.ltb_spec i n); [lia|done].
  - intros n Hn IH Hb. destruct IH as [L G]; [lia|]. rewrite foldl_seqZ_snoc by done. split; [by rewrite zlen_zset|]. intros i Hi. rewrite zget_zset by lia.
    destruct (Z.eqb_spec n i) as [<-|]; [destruct (Z.ltb_spec n (n + 1)); [done|lia]|]. rewrite G by done. destruct (Z.ltb_spec i n), (Z.ltb_spec i (n + 1)); lia || done.
Qed.

Lemma idt_init_spec stubs l i : zlen l = 256 -> 0 <= i < 256 ->
  zget no_gate (idt_init stubs l) i =
  if i <? 48 then make_gate (zget 0 stubs i) 0x08 (gate_ist_of i) (if i =? 3 then 0xEE else 0x8E) else make_gate 0 0 0 0.
Proof.
  intros L Hi. unfold idt_init, idt_set_gate. cbv zeta.
  assert (foldl (fun l i => zset l (u8 i) (make_gate 0 0 0 0)) l (seqZ 0 256) = foldl (fun l i => zset l i (make_gate 0 0 0 0)) l (seqZ 0 256)) as ->.
  { assert (Forall (fun i => u8 i = i) (seqZ 0 256)) as F by (apply Forall_seqZ; intros; apply Z.mod_small; lia). revert l L. induction F as [|x k Ex F IH]; intros l L; [done|].
    cbn [foldl]. rewrite Ex. apply IH. by rewrite zlen_zset. }
  destruct (set_gates (fun _ => make_gate 0 0 0 0) l 256 ltac:(lia)) as [L1 G1].
  destruct (set_gates (fun i => make_gate (zget 0 stubs i) 0x08 (gate_ist_of i) (if i =? 3 then 0xEE else 0x8E)) _ 48 ltac:(rewrite L1; lia)) as [_ G2].
  rewrite G2, G1 by lia. destruct (Z.ltb_spec i 256); [done|lia].
Qed.

Lemma gate_ist_of_range i : 0 <= gate_ist_of i <= 3.
Proof. unfold gate_ist_of. repeat zif; lia. Qed.

Lemma tss_descriptor tss_addr : is_u64 tss_addr -> let l := gdt_set_entries tss_addr in
  seg_base (zget 0 l 5) + 2 ^ 32 * zget 0 l 6 = tss_addr /\ seg_limit (zget 0 l 5) = TSS_SIZE - 1 /\ seg_access (zget 0 l 5) = 0x89.
Proof.
  intros Ht. cbv zeta. unfold is_u64 in Ht. assert (zget 0 (gdt_set_entries tss_addr) 5 = make_flat_gdt_entry tss_addr (TSS_SIZE - 1) 0x89 0) as -> by reflexivity.
  change (zget 0 (gdt_set_entries tss_addr) 6) with (Z.land (Z.shiftr tss_addr 32) (2 ^ 32 - 1)). rewrite land_low, Z.shiftr_div_pow2 by lia.
  destruct (descriptor_fields tss_addr (TSS_SIZE - 1) 0x89 0) as (-> & -> & -> & _); [unfold TSS_SIZE; lia..|].
  split; [|done]. rewrite (Z.mod_small (tss_addr / 2 ^ 32)); clear - Ht; Z.div_mod_to_equations; lia.
Qed.

(** The four flat segments do not depend on the linker's addresses. *)
Lemma kernel_segments tss_addr df nmi mc state_addr entry stubs c :
  let c' := cpu_init tss_addr df nmi mc state_addr entry stubs c in
  code_segment c' 8 0 /\ data_segment c' 16 0 /\ code_segment c' 0x23 3 /\ data_segment c' 0x1B 3.
Proof.
  cbv zeta. set (c' := cpu_init tss_addr df nmi mc state_addr entry stubs c). unfold code_segment, data_segment.
  change (descriptor c' 8) with (make_flat_gdt_entry 0 0xFFFFF 0x9A 0xA). change (descriptor c' 16) with (make_flat_gdt_entry 0 0xFFFFF 0x92 0xC).
  change (descriptor c' 35) with (make_flat_gdt_entry 0 0xFFFFF 0xFA 0xA). change (descriptor c' 27) with (make_flat_gdt_entry 0 0xFFFFF 0xF2 0xC). clear c'.
  vm_compute. tauto.
Qed.

(** C33: After start-up, whatever the linker's addresses: [syscall] and [sysret]
    load selectors of a flat kernel and user segment of the right privilege, the
    user ones being the pair 0x23 / 0x1B the interrupt path insists on; vectors 0
    to 47 have present interrupt gates to their stubs in the kernel's code
    segment, only the breakpoint open to user mode, double fault, NMI and machine
    check on stacks of their own; all other vectors have none; and the task
    register's descriptor leads to the TSS.  (User data is at 0x18 and user code
    at 0x20, as [gdt.c], [enter_user.asm] and [isr.c] have it; the comment of
    [gdt_flush.asm] has the two the other way round, and a comment of [gdt.c]
    gives 0x10 for the base that [syscall_arch.c] sets to 0x13.) *)
Theorem cpu_tables_correct tss_addr df nmi mc state_addr entry stubs c :
  is_u64 tss_addr -> is_u64 state_addr -> is_u64 entry -> Forall is_u64 stubs -> zlen (idt c) = 256 ->
  let c' := cpu_init tss_addr df nmi mc state_addr entry stubs c in
  let star := rd (msr c') MSR_STAR in
  (code_segment c' (bits star 32 16) 0 /\ data_segment c' (bits star 32 16 + 8) 0) /\
  (bits star 48 16 + 16 = 0x23 /\ bits star 48 16 + 8 = 0x1B /\ code_segment c' 0x23 3 /\ data_segment c' 0x1B 3) /\
  (rd (msr c') MSR_LSTAR = entry /\ Z.testbit (rd (msr c') MSR_EFER) 0 = true /\ rd (msr c') MSR_KERNEL_GS_BASE = state_addr /\ gs_kernel_state c' = state_addr) /\
  (forall i, 0 <= i < 48 ->
     gate_offset (gate c' i) = zget 0 stubs i /\ code_segment c' (selector (gate c' i)) 0 /\
     Z.testbit (type_attr (gate c' i)) 7 = true /\ type_attr (gate c' i) mod 16 = 0xE /\ (bits (type_attr (gate c' i)) 5 2 = if i =? 3 then 3 else 0) /\
     gate_stack c' i = if i =? 8 then Some (u64 (df + IST_STACK)) else if i =? 2 then Some (u64 (nmi + IST_STACK))
                       else if i =? 18 then Some (u64 (mc + IST_STACK)) else None) /\
  (forall i, 48 <= i < 256 -> Z.testbit (type_attr (gate c' i)) 7 = false) /\
  (seg_base (descriptor c' 0x28) + 2 ^ 32 * descriptor c' 0x30 = tss_addr /\ seg_limit (descriptor c' 0x28) = TSS_SIZE - 1).
Proof.
  intros Ht Hs He Fs L. cbv zeta. set (c' := cpu_init tss_addr df nmi mc state_addr entry stubs c).
  destruct (syscall_msrs state_addr entry (cpu_idt_init stubs (gdt_init tss_addr df nmi mc c)) Hs He) as (M1 & M2 & M3 & M4). fold c' in M1, M2, M3, M4.
  change (msr (syscall_arch_init state_addr entry (cpu_idt_init stubs (gdt_init tss_addr df nmi mc c)))) with (msr c') in *. rewrite M1.
  assert (forall i, 0 <= i < 48 -> 0 <= zget 0 stubs i < 2 ^ 64) as Hstub.
  { intros i Hi. unfold zget. rewrite nth_lookup. destruct (stubs !! Z.to_nat i) eqn:E; [|done]. by apply (Forall_lookup_1 _ _ _ _ Fs E). }
  assert (forall i, 0 <= i < 256 -> gate c' i = if i <? 48 then make_gate (zget 0 stubs i) 8 (gate_ist_of i) (if i =? 3 then 0xEE else 0x8E) else make_gate 0 0 0 0) as G
    by (intros i Hi; by apply idt_init_spec).
  destruct (kernel_segments tss_addr df nmi mc state_addr entry stubs c) as (S1 & S2 & S3 & S4). fold c' in S1, S2, S3, S4.
  split; [split; [exact S1|exact S2]|]. split; [split_and!; [reflexivity|reflexivity|exact S3|exact S4]|]. split; [split_and!; [exact M2|exact M3|exact M4|reflexivity]|].
  split.
  { intros i Hi. rewrite (G i) by lia. destruct (Z.ltb_spec i 48); [|lia]. split; [apply make_gate_offset, Hstub, Hi|]. split; [exact S1|].
    cbn [type_attr make_gate]. split; [by destruct (i =? 3)|]. split; [by destruct (i =? 3)|]. split; [by destruct (i =? 3)|].
    unfold gate_stack. rewrite (G i) by lia. destruct (Z.ltb_spec i 48); [|lia]. cbn [gate_ist make_gate].
    pose proof (gate_ist_of_range i). assert (u8 (Z.land (gate_ist_of i) 7) = gate_ist_of i) as -> by (change 7 with (2 ^ 3 - 1); rewrite land_low, (Z.mod_small _ (2 ^ 3)) by lia; apply Z.mod_small; lia).
    unfold gate_ist_of. destruct (Z.eqb_spec i 8), (Z.eqb_spec i 2), (Z.eqb_spec i 18); try lia; reflexivity. }
  split; [intros i Hi; rewrite (G i) by lia; destruct (Z.ltb_spec i 48); [lia|done]|].
  destruct (tss_descriptor tss_addr Ht) as (T1 & T2 & _). split; [exact T1|exact T2].
Qed.

(** ** Timer interrupts *)

(** The state of the scheduler after one timer interrupt. *)
Definition tick_point (s : sched) : option (list Z * sched) := sched_preempt_point (sched_tick s).

Definition ticks_of (s : sched) : Z := match threads s !! current s with Some t => t_ticks_used t | None => 0 end.

Lemma tick_point_early s x rl zl : sched_inv s (x :: rl) zl -> need_resched s = 0 -> 0 <= ticks_of s < SCHED_QUANTUM_TICKS - 1 ->
  exists s', tick_point s = Some ([], s') /\ sched_inv s' (x :: rl) zl /\ need_resched s' = 0 /\ current s' = current s /\ ticks_of s' = ticks_of s + 1.
Proof.
  intros I N T. pose proof (tick_inv _ _ _ I) as I'. unfold tick_point, sched_preempt_point. pose proof (qd_nz _ _ _ (proj1 I)) as Nz.
  pose proof (proj2 I) as Hr. unfold state_of, thread_at in Hr. destruct (threads s !! current s) as [t|] eqn:Et; [|done].
  unfold ticks_of in T. rewrite Et in T. unfold SCHED_QUANTUM_TICKS in T. unfold sched_tick in *. destruct (Z.eqb_spec (current s) 0) as [E0|].
  { exfalso. apply (Nz (current s)); [by rewrite Et|done]. }
  unfold thread_at in *. rewrite Et in *. rewrite u32_small in * by lia. unfold SCHED_QUANTUM_TICKS in *. destruct (Z.leb_spec 5 (t_ticks_used t + 1)); [lia|].
  cbn [need_resched upd set_threads]. rewrite N. eexists. split; [reflexivity|]. split; [exact I'|]. split; [done|]. split; [done|].
  unfold ticks_of. rewrite Et. cbn [threads upd set_threads current]. by rewrite lookup_alter_eq, Et.
Qed.

Lemma tick_point_last s x rl zl : sched_inv s (x :: rl) zl -> need_resched s = 0 -> ticks_of s = SCHED_QUANTUM_TICKS - 1 ->
  exists l s' zl', tick_point s = Some (l, s') /\ sched_inv s' (rl ++ [current s]) zl' /\ need_resched s' = 0 /\ current s' = x.
Proof.
  intros I N T. pose proof (tick_inv _ _ _ I) as I'. unfold tick_point, sched_preempt_point. pose proof (qd_nz _ _ _ (proj1 I)) as Nz.
  pose proof (proj2 I) as Hr. unfold state_of, thread_at in Hr. destruct (threads s !! current s) as [t|] eqn:Et; [|done].
  unfold ticks_of in T. rewrite Et in T. unfold SCHED_QUANTUM_TICKS in T. unfold sched_tick in *. destruct (Z.eqb_spec (current s) 0) as [E0|].
  { exfalso. apply (Nz (current s)); [by rewrite Et|done]. }
  unfold thread_at in *. rewrite Et in *. rewrite u32_small in * by lia. unfold SCHED_QUANTUM_TICKS in *. destruct (Z.leb_spec 5 (t_ticks_used t + 1)); [|lia].
  assert (q_head (ready (upd s (current s) (set_ticks 0))) = x) as Eh by exact (qrep_head _ _ _ _ (qd_ready _ _ _ (proj1 I))).
  assert (x <> 0) as Nx by (destruct (qrep_in _ _ _ _ x (qd_ready _ _ _ (proj1 I))) as [? _]; [left|done]).
  cbv zeta in *. rewrite Eh in *. destruct (Z.eqb_spec x 0); [done|]. cbn [need_resched Z.eqb].
  match goal with |- context [sched_schedule ?s0] => set (s1 := s0) end.
  assert (sched_inv s1 (x :: rl) zl) as I1 by (destruct I' as [[] ?]; by split).
  destruct (sched_schedule_spec _ _ _ _ (sched_inv_pre _ _ _ I1)) as (s' & E & Is & Hc & Hn & _). rewrite E.
  assert (running s1 = true) as Rn by (by apply bool_decide_eq_true_2; apply I1). rewrite Rn in Is. eauto 10.
Qed.

Section interrupts.
Context {D : Type} `{Ports D}.

(** One interrupt after the other, each with a frame of its own. *)
Fixpoint interrupts (e : trap_env) (ufh : option (user_fault_t -> kernel D -> option (trap_outcome D)))
    (handlers : list (option (Z -> kernel D -> kernel D))) (rs : list regs) (k : kernel D) : option (kernel D) :=
  match rs with
  | [] => Some k
  | r :: rs =>
    match isr_dispatch e ufh handlers r k with
    | Some (Resumed _ _ k) => interrupts e ufh handlers rs k
    | _ => None
    end
  end.

Lemma irq_dispatch_vector e ufh handlers r k i h : 0 <= i < 16 -> zlen handlers = IRQ_COUNT -> int_no r = 32 + i -> frame_ok r = true ->
  isr_dispatch e ufh (irq_register handlers i (Some h)) r k =
  '(l, s) ← sched_preempt_point (k_sched (h i k)); Some (Resumed r l (MkKernel s (arch_irq_eoi i (k_dev (h i k))) (tick_count (h i k)))).
Proof.
  intros Hi Hl En Ef. unfold isr_dispatch, irq_dispatch, irq_register. cbv zeta. rewrite En, Ef. destruct (Z.ltb_spec (32 + i) 32); [lia|]. destruct (Z.ltb_spec (32 + i) 48); [|lia].
  replace (u8 (32 + i - 32)) with i by (unfold u8; rewrite Z.mod_small; lia). unfold IRQ_COUNT in *. destruct (Z.ltb_spec i 16); [|lia].
  rewrite zget_zset_eq by lia. destruct (sched_preempt_point _) as [[l s]|]; done.
Qed.

(** A timer interrupt does to the scheduler what [tick_point] does. *)
Lemma timer_interrupt e ufh handlers r k : zlen handlers = IRQ_COUNT -> int_no r = 32 -> frame_ok r = true ->
  isr_dispatch e ufh (irq_register handlers 0 (Some timer_tick)) r k =
  '(l, s) ← tick_point (k_sched k); Some (Resumed r l (MkKernel s (arch_irq_eoi 0 (k_dev k)) (u64 (tick_count k + 1)))).
Proof. intros Hl En Ef. by apply (irq_dispatch_vector e ufh handlers r k 0 timer_tick). Qed.

Lemma timer_interrupts e ufh handlers n : zlen handlers = IRQ_COUNT -> forall rs k x rl zl,
  Forall (fun r => int_no r = 32 /\ frame_ok r = true) rs -> length rs = n -> sched_inv (k_sched k) (x :: rl) zl -> need_resched (k_sched k) = 0 ->
  0 <= ticks_of (k_sched k) -> ticks_of (k_sched k) + Z.of_nat n < SCHED_QUANTUM_TICKS ->
  exists k', interrupts e ufh (irq_register handlers 0 (Some timer_tick)) rs k = Some k' /\ sched_inv (k_sched k') (x :: rl) zl /\
    need_resched (k_sched k') = 0 /\ current (k_sched k') = current (k_sched k) /\ ticks_of (k_sched k') = ticks_of (k_sched k) + Z.of_nat n.
Proof.
  intros Hl. induction n as [|n IH]; intros [|r rs] k x rl zl F Hn I N T0 T; try done.
  - exists k. split_and!; [done..|lia].
  - apply Forall_cons in F as [[Fn Ff] F]. cbn [interrupts]. rewrite timer_interrupt by done.
    destruct (tick_point_early _ _ _ _ I N) as (s' & E & I' & N' & C' & T'); [lia|]. rewrite E. cbn [mbind option_bind].
    destruct (IH rs (MkKernel s' (arch_irq_eoi 0 (k_dev k)) (u64 (tick_count k + 1))) x rl zl F) as (k' & E2 & I2 & N2 & C2 & T2); cbn [k_sched]; [cbn in Hn; lia|done|done|lia|lia|].
    exists k'. split; [exact E2|]. split; [done|]. split; [done|]. cbn [k_sched] in *. split; [congruence|lia].
Qed.
End interrupts.

(** C16: No thread keeps the processor: with another thread ready, the timer
    interrupts that complete the running thread's quantum of 5 ticks switch to
    the head of the ready queue, and the preempted thread goes to its end; fewer
    interrupts leave it running.  Each goes through the interrupt path, from the
    vector the controller was set up to deliver the timer as. *)
Theorem timer_preempts {D} `{Pics D} e ufh handlers (d : D) rs k x rl zl :
  zlen handlers = IRQ_COUNT -> sched_inv (k_sched k) (x :: rl) zl -> need_resched (k_sched k) = 0 -> 0 <= ticks_of (k_sched k) ->
  Forall (fun r => int_no r = irq_vector (arch_irq_init d) 0 /\ frame_ok r = true) rs ->
  let used := ticks_of (k_sched k) + zlen rs in
  (used < SCHED_QUANTUM_TICKS ->
     exists k', interrupts e ufh (irq_register handlers 0 (Some timer_tick)) rs k = Some k' /\ current (k_sched k') = current (k_sched k)) /\
  (used = SCHED_QUANTUM_TICKS -> rs <> [] ->
     exists k' zl', interrupts e ufh (irq_register handlers 0 (Some timer_tick)) rs k = Some k' /\ current (k_sched k') = x /\
       sched_inv (k_sched k') (rl ++ [current (k_sched k)]) zl').
Proof.
  intros Hl I N T F. rewrite (proj1 (arch_irq_init_spec d 0 ltac:(lia))) in F. cbv zeta. split.
  - intros Hu. destruct (timer_interrupts e ufh handlers (length rs) Hl rs k x rl zl F) as (k' & E & _ & _ & C & _); try done. by exists k'.
  - intros Hu Hne. destruct (exists_last Hne) as (rs0 & r & ->). apply Forall_app in F as [F0 [[Fr Ff] _]%Forall_cons]. rewrite zlen_app in Hu. change (zlen [r]) with 1 in Hu.
    destruct (timer_interrupts e ufh handlers (length rs0) Hl rs0 k x rl zl F0) as (k1 & E1 & I1 & N1 & C1 & T1); [done..|unfold zlen in *; lia|].
    destruct (tick_point_last _ _ _ _ I1 N1) as (l & s' & zl' & E2 & I2 & N2 & C2); [unfold zlen in *; lia|].
    exists (MkKernel s' (arch_irq_eoi 0 (k_dev k1)) (u64 (tick_count k1 + 1))), zl'. split; [|rewrite <- C1; done].
    assert (forall rs k, interrupts e ufh (irq_register handlers 0 (Some timer_tick)) (rs ++ [r]) k =
      k1 ← interrupts e ufh (irq_register handlers 0 (Some timer_tick)) rs k; interrupts e ufh (irq_register handlers 0 (Some timer_tick)) [r] k1) as App.
    { clear. induction rs as [|r0 rs IH]; intros k; [done|]. cbn [interrupts app]. destruct (isr_dispatch _ _ _ r0 k) as [[]|]; done || apply IH. }
    rewrite App, E1. cbn [mbind option_bind interrupts]. rewrite timer_interrupt by done. by rewrite E2.
Qed.

(** ** Exceptions *)

Section exceptions.
Context {D : Type} `{Uart D} (e : trap_env) (enough : (tx_bound < te_fuel e)%nat) (strs_ok : forall a, bytes (te_strs e a)) (stack_ok : forall a, is_u64 (te_stack e a)).

(** It prints something and returns. *)
Definition talks (f : D -> option D) : Prop := exists t, writes f t.

Lemma talks_bind f g : talks f -> talks g -> talks (fun d => d ← f d; g d).
Proof. intros [s F] [t G]. exists (s ++ t). by apply writes_bind. Qed.

Lemma talks_write s : bytes s -> talks (console_write (te_fuel e) s).
Proof using enough. intros B. eexists. by apply serial_write_spec. Qed.

Lemma say_talks s : talks (say e s).
Proof using enough. apply talks_write, bytes_app. split; [apply byte_list_bytes|]. repeat constructor; lia. Qed.

Lemma newline_talks : talks (newline e).
Proof using enough. apply talks_write. repeat constructor; lia. Qed.

Lemma hex_talks v : is_u64 v -> talks (hex e v).
Proof using enough. intros Hv. eexists. by apply serial_write_hex_spec. Qed.

Lemma field_talks n v : is_u64 v -> talks (field e n v).
Proof using enough. intros Hv. apply talks_bind; [apply newline_talks|]. apply talks_bind; [apply say_talks|by apply hex_talks]. Qed.

Lemma dump_stack_talks base n : talks (dump_stack_words e base n).
Proof using enough stack_ok.
  unfold dump_stack_words. generalize (seqZ 0 n). intros l. induction l as [|i l IH]; [by exists []; apply writes_ret|]. cbn [dump_stack_loop].
  apply talks_bind; [apply say_talks|]. apply talks_bind; [apply hex_talks, u64_range|]. apply talks_bind; [apply say_talks|]. apply talks_bind; [apply hex_talks, stack_ok|].
  apply talks_bind; [apply newline_talks|done].
Qed.

(** The registers are 64-bit values. *)
Definition regs_ok (r : regs) : Prop :=
  is_u64 (int_no r) /\ is_u64 (err_code r) /\ is_u64 (rip r) /\ is_u64 (cs r) /\ is_u64 (rflags r) /\ is_u64 (rsp r) /\ is_u64 (ss r) /\ is_u64 (te_cr2 e).

Lemma dump_regs_talks s r : regs_ok r -> talks (dump_regs e s r).
Proof using enough strs_ok.
  intros (R1 & R2 & R3 & R4 & R5 & R6 & R7 & R8). unfold dump_regs.
  apply talks_bind; [apply say_talks|]. apply talks_bind; [unfold print_thread_id; cbv zeta; destruct (_ || _); [apply say_talks|apply talks_write, strs_ok]|].
  do 8 (apply talks_bind; [by apply field_talks|]). apply newline_talks.
Qed.

(** Something is printed, and then the machine is halted with [msg]. *)
Definition halts (msg : string) (d : D) (o : option (trap_outcome D)) : Prop :=
  exists d' t, o = Some (Halted d') /\ sent d' = sent d ++ t ++ crlf (cstr PANIC_HEAD ++ byte_list msg ++ cstr PANIC_TAIL).

Definition ends (msg : string) (f : D -> option (trap_outcome D)) : Prop := forall d, Z.testbit (lcr d) 7 = false -> halts msg d (f d).

Lemma panic_ends msg : 0 ∉ byte_list msg -> ends msg (fun d => d ← panic (te_fuel e) (byte_list msg ++ [0]) d; Some (Halted d)).
Proof using enough.
  intros Hm d Hd. assert (writes (panic (te_fuel e) (byte_list msg ++ [0])) (crlf (cstr PANIC_HEAD ++ byte_list msg ++ cstr PANIC_TAIL))) as P.
  { rewrite !crlf_app. apply writes_bind; [apply (serial_write_spec _ enough PANIC_HEAD); vm_compute; repeat constructor; discriminate|].
    apply writes_bind; [|apply (serial_write_spec _ enough PANIC_TAIL); vm_compute; repeat constructor; discriminate].
    pose proof (serial_write_spec _ enough (byte_list msg ++ [0])) as W. rewrite cstr_app in W by done. apply W. apply bytes_app.
    split; [apply byte_list_bytes|]. repeat constructor; lia. }
  destruct (P d Hd) as (d' & -> & S & _). by exists d', [].
Qed.

Lemma ends_bind msg f g : talks f -> ends msg g -> ends msg (fun d => d ← f d; g d).
Proof.
  intros [t F] G d Hd. destruct (F d Hd) as (d1 & -> & S1 & L1 & _). destruct (G d1) as (d2 & t2 & E & S2); [by rewrite L1|]. exists d2, (t ++ t2). cbn [mbind option_bind].
  rewrite E, S2, S1, <- !app_assoc. done.
Qed.

Lemma dump_and_panic_halts r k : regs_ok r -> Z.testbit (lcr (k_dev k)) 7 = false -> halts "unhandled CPU exception" (k_dev k) (dump_and_panic e r k).
Proof using All.
  intros R. revert k. enough (forall k, ends "unhandled CPU exception" (fun d => dump_and_panic e r (MkKernel (k_sched k) d (tick_count k)))) as Hh
    by (intros [s d n] Hd; exact (Hh (MkKernel s d n) d Hd)).
  intros k. unfold dump_and_panic. cbn [k_dev k_sched]. apply ends_bind; [apply newline_talks|]. apply ends_bind; [apply say_talks|].
  apply (ends_bind _ (fun d => if int_no r <? 32 then say e (zget ""%string exception_names (int_no r)) d else say e "Unknown" d)); [destruct (_ <? _); apply say_talks|].
  apply ends_bind; [apply newline_talks|]. apply ends_bind; [by apply dump_regs_talks|]. apply ends_bind; [apply say_talks|]. apply ends_bind; [apply newline_talks|].
  apply ends_bind; [apply dump_stack_talks|]. apply ends_bind; [apply newline_talks|]. apply panic_ends. apply (bool_decide_unpack (0 ∉ byte_list _)). by vm_compute.
Qed.

Lemma user_fault_handler_halts f k : is_u64 (f_int_no f) -> is_u64 (f_rip f) -> f_int_no f <> 3 -> Z.testbit (lcr (k_dev k)) 7 = false ->
  halts "ring3 test: unexpected user fault" (k_dev k) (user_fault_handler e f k).
Proof using enough.
  intros R1 R2 N. unfold user_fault_handler. rewrite (proj2 (Z.eqb_neq _ _) N). revert k.
  enough (ends "ring3 test: unexpected user fault" (fun d => d ← say e "  user: unexpected int_no=" d; d ← hex e (f_int_no f) d; d ← say e " rip=" d; d ← hex e (f_rip f) d;
    d ← newline e d; d ← panic (te_fuel e) (byte_list "ring3 test: unexpected user fault" ++ [0]) d; Some (Halted d))) as Hh by (intros k Hd; exact (Hh _ Hd)).
  apply ends_bind; [apply say_talks|]. apply ends_bind; [by apply hex_talks|]. apply ends_bind; [apply say_talks|]. apply ends_bind; [by apply hex_talks|].
  apply ends_bind; [apply newline_talks|]. apply panic_ends. apply (bool_decide_unpack (0 ∉ byte_list _)). by vm_compute.
Qed.
End exceptions.

(** Every CPU exception, with the handler [kmain] installs: a page fault in
    the kernel at an address of the exception table goes on at its fixup with all
    else as it was; a breakpoint in user mode ends the thread; any other
    exception, of the kernel or of a user program, halts the machine, with a
    report on the console that ends in the panic message.  ([isr.h] says that
    every exception ends in the panic.) *)
Theorem exceptions_correct {D} `{Uart D} e handlers r (k : kernel D) :
  (tx_bound < te_fuel e)%nat -> (forall a, bytes (te_strs e a)) -> (forall a, is_u64 (te_stack e a)) -> regs_ok e r -> int_no r < 32 -> Z.testbit (lcr (k_dev k)) 7 = false ->
  let o := isr_dispatch e (Some (user_fault_handler e)) handlers r k in
  if Z.land (cs r) 3 =? 3 then
    if int_no r =? 3 then o = '(l, s) ← thread_exit (k_sched k); Some (Ended l (MkKernel s (k_dev k) (tick_count k)))
    else halts "ring3 test: unexpected user fault" (k_dev k) o
  else
    match (if int_no r =? 14 then extable_lookup (te_extable e) (rip r) else None) with
    | Some fixup => o = Some (Resumed (set_rip fixup r) [] k)
    | None => halts "unhandled CPU exception" (k_dev k) o
    end.
Proof.
  intros Hf Hs Hk R Hn Hd. cbv zeta. unfold isr_dispatch. cbv zeta. destruct (Z.ltb_spec (int_no r) 32); [|lia]. unfold isr_exception. cbv zeta.
  destruct (Z.land (cs r) 3 =? 3); cbn [negb andb].
  - destruct (Z.eqb_spec (int_no r) 3) as [E|]; [unfold user_fault_handler; cbn [f_int_no]; by rewrite E|]. apply user_fault_handler_halts; try done; apply R.
  - unfold try_kernel_extable. destruct (int_no r =? 14); [destruct (extable_lookup _ _); [done|]|]; by apply dump_and_panic_halts.
Qed.

(** A line of the table that is found is the first one for its address. *)
Lemma extable_lookup_spec table a : extable_lookup table a = snd <$> List.find (fun p => fst p =? a) table.
Proof. induction table as [|[p0 p1] table IH]; [done|]. cbn. by destruct (p0 =? a). Qed.

(** ** Examples *)

Definition demo_env : trap_env := MkEnv (fun _ => []) (fun _ => 0) 0x600000 0x8000 [(0x1000, 0x1010); (0x1004, 0x1010)] 3.
Definition demo_regs (n c s ip : Z) : regs := MkRegs 0 0 0 0 0 0 0 0 0 0 0 0 0 0 0 n 0 ip c 0x202 0x7000 s.
Definition demo_kernel : kernel machine := MkKernel demo_sched demo_machine 0.

Lemma timer_preempts_witness :
  exists k', interrupts demo_env None (irq_register (replicate 16 None) 0 (Some timer_tick)) (replicate 5 (demo_regs 32 0x23 0x1B 0x400000)) demo_kernel = Some k' /\
    current (k_sched k') = 16.
Proof.
  destruct (timer_preempts demo_env None (replicate 16 None) demo_machine (replicate 5 (demo_regs 32 0x23 0x1B 0x400000)) demo_kernel 16 [32] []) as [_ P].
  - reflexivity.
  - exact demo_sched_inv.
  - reflexivity.
  - vm_compute. discriminate.
  - repeat constructor.
  - destruct P as (k' & zl' & E & C & _); [reflexivity|discriminate|]. exists k'. split; [exact E|exact C].
Defined.

Definition demo_cpu : cpu := MkCpu [] (MkTss 0 [] 0) (replicate 256 no_gate) ∅ 0 0 0.
Definition demo_stubs : list Z := (fun i => 0x101000 + 16 * i) <$> seqZ 0 48.

Lemma cpu_tables_correct_witness :
  let c' := cpu_init 0xFFFF800000123450 0x1000 0x3000 0x5000 0x120000 0x101f00 demo_stubs demo_cpu in
  gate_offset (gate c' 8) = 0x101080 /\ gate_stack c' 8 = Some 0x3000 /\ seg_base (descriptor c' 0x28) + 2 ^ 32 * descriptor c' 0x30 = 0xFFFF800000123450.
Proof.
  destruct (cpu_tables_correct 0xFFFF800000123450 0x1000 0x3000 0x5000 0x120000 0x101f00 demo_stubs demo_cpu) as (_ & _ & _ & G & _ & T).
  - unfold is_u64. lia.
  - unfold is_u64. lia.
  - unfold is_u64. lia.
  - apply Forall_fmap, Forall_forall. intros i Hi. apply elem_of_seqZ in Hi. unfold compose, is_u64. lia.
  - reflexivity.
  - destruct (G 8 ltac:(lia)) as (G1 & _ & _ & _ & _ & G2). split; [exact G1|]. split; [exact G2|exact (proj1 T)].
Defined.

Lemma exceptions_correct_witness :
  isr_dispatch demo_env (Some (user_fault_handler demo_env)) [] (demo_regs 14 8 16 0x1004) demo_kernel = Some (Resumed (demo_regs 14 8 16 0x1010) [] demo_kernel) /\
  halts "ring3 test: unexpected user fault" demo_machine
    (isr_dispatch demo_env (Some (user_fault_handler demo_env)) [] (demo_regs 14 0x23 0x1B 0x400000) demo_kernel).
Proof.
  assert (forall n c s ip, 0 <= n < 48 -> 0 <= c < 64 -> 0 <= s < 64 -> 0 <= ip < 2 ^ 32 -> regs_ok demo_env (demo_regs n c s ip)) as R
    by (intros; unfold regs_ok, is_u64; cbn; lia).
  split.
  - apply (exceptions_correct demo_env [] (demo_regs 14 8 16 0x1004) demo_kernel); [cbn; lia|intros; constructor|intros; unfold is_u64; cbn; lia|apply R; lia|cbn; lia|reflexivity].
  - apply (exceptions_correct demo_env [] (demo_regs 14 0x23 0x1B 0x400000) demo_kernel); [cbn; lia|intros; constructor|intros; unfold is_u64; cbn; lia|apply R; lia|cbn; lia|reflexivity].
Defined.
