(* ===== verification/KConsole.v ===== *)
(** * The console of the system calls and the serial driver

    The system calls are verified over a console with bytes sent and bytes
    waiting ([Syscall]); the driver of [serial.c] and [console.c] is verified
    against the chip ([Device]).  This file shows that the second implements the
    first: one is a simulation of the other, up to input that arrives meanwhile. *)
From S2P Require Import Prelude Bytes Str Syscall Stdio Device.

(** Input that arrives goes to the end of the queue. *)
Definition arrived (new : list Z) (k : console) : console := MkCon (con_out k) (con_in k ++ new).

Section refinement.
Context {D : Type} `{Uart D}.

(** The chip is in the state the console stands for. *)
Definition shows (d : D) (k : console) : Prop := sent d = con_out k /\ received d = con_in k /\ Z.testbit (lcr d) 7 = false.

Lemma shows_emits d d' k t : shows d k -> emits d d' t -> exists new, shows d' (arrived new (MkCon (con_out k ++ t) (con_in k))).
Proof.
  intros (S & R & L) (S' & L' & _ & [new R']). exists new. unfold shows. cbn [arrived con_out con_in]. by rewrite S', S, R', R, L', L.
Qed.

Lemma write_char_out c k : con_out (Syscall.console_write_char c k) = con_out k ++ crlf (if c =? 0 then [] else [c]) /\
  con_in (Syscall.console_write_char c k) = con_in k.
Proof.
  unfold Syscall.console_write_char. destruct (c =? 0); [by rewrite app_nil_r|]. cbn [con_out con_in crlf mbind list_bind]. by rewrite app_nil_r.
Qed.

Lemma put_chars_writes fuel b : (tx_bound < fuel)%nat -> bytes b -> forall k,
  writes (put_chars (D := D) fuel b) (drop (length (con_out k)) (con_out (foldl (fun k c => Syscall.console_write_char c k) k b))) /\
  con_out k `prefix_of` con_out (foldl (fun k c => Syscall.console_write_char c k) k b) /\
  con_in (foldl (fun k c => Syscall.console_write_char c k) k b) = con_in k.
Proof.
  intros Hf. induction b as [|c b IH]; intros B k; cbn [foldl put_chars].
  - rewrite drop_all. split; [apply writes_ret|done].
  - apply Forall_cons in B as [Bc B]. destruct (IH B (Syscall.console_write_char c k)) as (W & [t P] & I). destruct (write_char_out c k) as [Eo Ei]. split; [|split].
    + rewrite P, Eo, <- app_assoc, drop_app_length. apply writes_bind; [by apply console_write_char_spec|].
      rewrite P, Eo, drop_app_length in W. exact W.
    + rewrite P, Eo, <- app_assoc. by eexists.
    + by rewrite I.
Qed.
End refinement.

(** C18: The serial driver implements the console of the system calls: writing
    any bytes one by one, as SYS_EXY_PUTS does, returns and takes the chip to the
    state the console model gives, and reading a character gives the model's
    answer, -1 exactly when nothing is waiting; input that arrives meanwhile
    joins the end of the queue. *)
Theorem console_refines {D} `{Uart D} fuel (d : D) k : (tx_bound < fuel)%nat -> shows d k ->
  (forall b, bytes b -> exists d' new, put_chars fuel b d = Some d' /\ shows d' (arrived new (foldl (fun k c => Syscall.console_write_char c k) k b))) /\
  (let '(c, d') := Device.console_read_char d in
   exists new, c = fst (Syscall.console_read_char k) /\ shows d' (arrived new (snd (Syscall.console_read_char k)))).
Proof.
  intros Hf Sh. split.
  - intros b B. destruct (put_chars_writes fuel b Hf B k) as (W & [t P] & I). destruct (W d (proj2 (proj2 Sh))) as (d' & E & M).
    destruct (shows_emits _ _ _ _ Sh M) as [new N]. exists d', new. split; [done|]. rewrite P, drop_app_length, <- P, <- I in N.
    by destruct (foldl _ k b).
  - destruct Sh as (S & R & L). pose proof (serial_read_char_spec d L) as C. unfold Device.console_read_char. destruct (serial_read_char d) as [c d'].
    destruct C as (S' & L' & C). unfold Syscall.console_read_char. rewrite R in C. destruct (con_in k) as [|b r] eqn:Ek.
    + exists (received d'). split; [done|]. unfold shows. cbn [snd arrived con_out con_in]. rewrite Ek. by rewrite S', S, L', L.
    + destruct C as [-> [new R']]. exists new. split; [done|]. unfold shows. cbn [snd arrived con_out con_in]. by rewrite S', S, L', L.
Qed.

Lemma console_refines_witness : exists d', put_chars 3 [104; 105; 10] demo_machine = Some d' /\ mc_sent d' = [104; 105; 13; 10] /\
  fst (Device.console_read_char demo_machine) = 113.
Proof.
  destruct (console_refines 3 demo_machine (MkCon [] [113; 10])) as [P R]; [cbn; lia|done|].
  destruct (P [104; 105; 10]) as (d' & new & E & S & _); [repeat constructor; lia|]. exists d'. split; [exact E|]. split; [exact S|].
  destruct (Device.console_read_char demo_machine) as [c d2]. destruct R as (n2 & -> & _). reflexivity.
Defined.
