(* ===== verification/Init.v ===== *)
(** * The service manager

    [userspace/init/init.c]: the first user process.  It starts the servers,
    exercises them, copies the programs of the initial ram disk into the file
    system and runs the shell.  The state is the process's libc with its system,
    the position of the ram disk, the buffer of [printf] and the three static
    handles; the archive itself is memory mapped by the kernel ([Initrd]).  The
    file ends with what init does with handles, on whatever system it runs. *)
From S2P Require Import Prelude Bytes Errno Str Iface CMalloc Stdio Env Initrd Ramfs Vfs VfsServer Micro VfsClient ConClient Unistd.

Record istate {W : Type} := MkInit {
  i_libc : libc W; i_rd : initrd; i_buf : list Z; g_console_child : Z; g_vfs_ch_req : Z; g_vfs_child : Z }.
Arguments istate W : clear implicits.
Arguments MkInit {W}.

Definition put_libc {W} (u : libc W) (s : istate W) : istate W := MkInit u (i_rd s) (i_buf s) (g_console_child s) (g_vfs_ch_req s) (g_vfs_child s).
Definition put_rd {W} (rd : initrd) (s : istate W) : istate W := MkInit (i_libc s) rd (i_buf s) (g_console_child s) (g_vfs_ch_req s) (g_vfs_child s).
Definition put_buf {W} (b : list Z) (s : istate W) : istate W := MkInit (i_libc s) (i_rd s) b (g_console_child s) (g_vfs_ch_req s) (g_vfs_child s).
Definition put_console {W} (h : Z) (s : istate W) : istate W := MkInit (i_libc s) (i_rd s) (i_buf s) h (g_vfs_ch_req s) (g_vfs_child s).
Definition put_vfs {W} (ch child : Z) (s : istate W) : istate W := MkInit (i_libc s) (i_rd s) (i_buf s) (g_console_child s) ch child.

(** ** Programs *)

Definition prog (W T : Type) : Type := istate W -> option (T * istate W).
Definition pret {W T} (x : T) : prog W T := fun s => Some (x, s).
Definition pbind {W S T} (m : prog W S) (k : S -> prog W T) : prog W T :=
  fun s => match m s with Some (x, s) => k x s | None => None end.
Definition pget {W T} (f : istate W -> T) : prog W T := fun s => Some (f s, s).
Definition pset {W} (f : istate W -> istate W) : prog W () := fun s => Some ((), f s).
(** A libc function. *)
Definition call {W T} (m : user W T) : prog W T := fun s => '(x, u) ← m (i_libc s); Some (x, put_libc u s).

Declare Scope init_scope.
Delimit Scope init_scope with init.
Notation "'let~' x ':=' m 'in' k" := (pbind m (fun x => k)) (at level 200, x pattern, m at level 100, k at level 200) : init_scope.
Notation "m '~>' k" := (pbind m (fun _ => k)) (at level 100, right associativity) : init_scope.
Open Scope init_scope.

Definition str (s : string) : list Z := byte_list s ++ [0].
(** ... with a newline at its end. *)
Definition line (s : string) : list Z := byte_list s ++ [10; 0].

(** The first [n] bytes at the address [a]. *)
Definition bytes_at (m : rom) (a n : Z) : list Z := slice (rom_bytes m) (a - rom_base m) n.

Section init.
Context {W A : Type} `{Sys W} `{UHeap A}.
(** What a local array of [n] bytes holds before it is written, the environment, the archive. *)
Context (uninit : Z -> list Z) (envp : env A) (m : rom).
Notation prog := (prog W).

(** ** Output *)

(** [write] under the buffer of [printf]; a call that does not return ends the run. *)
Definition write_fd (fd : Z) (b : list Z) (w : option (libc W)) : Z * option (libc W) :=
  match w with
  | None => (-1, None)
  | Some u => match Unistd.write fd b (zlen b) u with Some (r, u) => (r, Some u) | None => (-1, None) end
  end.

Definition print_with (strs : Z -> list Z) (fmt ap : list Z) : prog () := fun s =>
  '(_, f) ← Stdio.printf write_fd strs fmt ap (MkFd (i_buf s) false (Some (i_libc s)));
  u ← Stdio.world f;
  Some ((), put_buf (fd_buf f) (put_libc u s)).
(** No arguments; an error number; one string and an error number. *)
Definition print (t : string) : prog () := print_with (fun _ => [0]) (line t) [].
Definition print_errno (t : string) : prog () := let~ s := pget i_libc in print_with (fun _ => [0]) (line t) [errno s].
Definition print_num (t : string) (x : Z) : prog () := print_with (fun _ => [0]) (line t) [u32 x].
Definition print_str (t : string) (b : list Z) : prog () := print_with (fun _ => b) (line t) [1].

(** [printf(msg, errno); return 1;] *)
Definition fail_errno (t : string) : prog Z := print_errno t ~> pret 1.

(** ** The ram disk *)

(** -1 with [errno], or the data and its size; reading unmapped memory ends the run. *)
Definition find (path : list Z) : prog (option (Z * Z)) := fun s =>
  r ← initrd_find (i_rd s) m (Some path);
  match r with
  | Found data size => Some (Some (data, size), s)
  | Failed x => Some (None, put_libc (set_errno x (i_libc s)) s)
  | Fault => None
  end.

Definition init_initrd : prog Z := fun s =>
  let rd := i_rd s in
  '(r, rd) ← initrd_init envp m (MkInitrd (g_base rd) (g_size rd) (g_ready rd) (errno (i_libc s)));
  Some (r, put_rd rd (put_libc (set_errno (ierrno rd) (i_libc s)) s)).

Definition spawn_from_initrd (path name : list Z) (cap : Z) : prog Z :=
  let~ r := find path in
  match r with
  | None => pret EXYDE_HANDLE_INVALID
  | Some (data, size) => call (exyde_spawn_elf (bytes_at m data size) size name cap)
  end.

Notation close h := (call (exyde_handle_close h)).

(** ** The console server *)

(** [struct console_req] at the start of a zeroed message. *)
Definition attach_buf : list Z := le_bytes 4 CONSOLE_OP_ATTACH ++ replicate (Z.to_nat (CONSOLE_RPC_MSG_SIZE - 4)) 0.

Definition start_console : prog Z :=
  let~ ch_req := call (exyde_ipc_create CONSOLE_RPC_MSG_SIZE 4) in
  let~ ch_resp := call (exyde_ipc_create CONSOLE_RPC_MSG_SIZE 4) in
  if (ch_req =? EXYDE_HANDLE_INVALID) || (ch_resp =? EXYDE_HANDLE_INVALID) then fail_errno "init: FAIL console channel errno=%d"
  else
    let~ child := spawn_from_initrd (str "bin/console") (str "console") ch_req in
    if child =? EXYDE_HANDLE_INVALID then
      print_errno "init: FAIL spawn console errno=%d" ~> close ch_req ~> close ch_resp ~> pret 1
    else
      pset (put_console child) ~>
      let~ r := call (exyde_ipc_send_cap ch_req attach_buf CONSOLE_RPC_MSG_SIZE ch_resp EXYDE_IPC_CAP_DUPLICATE) in
      if negb (r =? 0) then
        print_errno "init: FAIL console attach errno=%d" ~> close ch_req ~> close ch_resp ~> pret 1
      else
        let~ r := call (console_client_init ch_req ch_resp) in
        if negb (r =? 0) then
          print_errno "init: FAIL console_client_init errno=%d" ~> close ch_req ~> close ch_resp ~> pret 1
        else print "init: console up" ~> pret 0.

(** ** The test suite and the echo service *)

Definition run_regression_suite : prog Z :=
  let~ ch := call (exyde_ipc_create 16 2) in
  if ch =? EXYDE_HANDLE_INVALID then print "init: FAIL cannot create bootstrap channel" ~> pret 1
  else
    let~ child := spawn_from_initrd (str "bin/test") (str "test") ch in
    if child =? EXYDE_HANDLE_INVALID then print_errno "init: FAIL spawn test errno=%d" ~> close ch ~> pret 1
    else
      let~ code := call (exyde_wait child) in
      close ch ~> close child ~>
      if negb (code =? 0) then print_num "init: FAIL test.elf exit code %d" code ~> pret 1
      else print "init: test suite OK" ~> pret 0.

(** [char tx[16] = "ping"]: the rest of the array is zero. *)
Definition ping : list Z := str "ping" ++ replicate 11 0.
Definition quit : list Z := str "quit" ++ replicate 11 0.

(** The body of [run_echo_service] and [run_spawn_elf_test] from the spawned child on; the two
    differ in the texts. *)
Definition echo_round_trip (e_send e_recv e_mismatch e_quit e_code ok : string) (ch child : Z) : prog Z :=
  let fail := close ch ~> close child ~> pret 1 in
  let~ r := call (exyde_ipc_send ch ping 16) in
  if negb (r =? 0) then print_errno e_send ~> fail
  else
    let~ (n, b) := call (exyde_ipc_recv ch 16) in
    if negb (n =? 16) then print_errno e_recv ~> fail
    else
      let rx := copy_loop (uninit 16) 0 b 0 (zlen b) in
      if negb (strcmp rx (str "ping") =? 0) then print_str e_mismatch rx ~> fail
      else
        let~ r := call (exyde_ipc_send ch quit 16) in
        if negb (r =? 0) then print_errno e_quit ~> fail
        else
          let~ code := call (exyde_wait child) in
          close ch ~> close child ~>
          if negb (code =? 0) then print_num e_code code ~> pret 1
          else print ok ~> pret 0.

Definition run_echo_service : prog Z :=
  let~ ch := call (exyde_ipc_create 16 2) in
  if ch =? EXYDE_HANDLE_INVALID then print "init: FAIL cannot create echo channel" ~> pret 1
  else
    let~ child := spawn_from_initrd (str "bin/echo") (str "echo") ch in
    if child =? EXYDE_HANDLE_INVALID then print_errno "init: FAIL spawn echo errno=%d" ~> close ch ~> pret 1
    else
      echo_round_trip "init: FAIL echo send errno=%d" "init: FAIL echo recv errno=%d" "init: FAIL echo mismatch [%s]"
        "init: FAIL echo quit send errno=%d" "init: FAIL echo.elf exit code %d" "init: echo service OK" ch child.

Definition run_spawn_elf_test : prog Z :=
  let~ ch := call (exyde_ipc_create 16 2) in
  if ch =? EXYDE_HANDLE_INVALID then fail_errno "init: FAIL spawn_elf channel errno=%d"
  else
    let~ child := spawn_from_initrd (str "bin/echo") (str "echo2") ch in
    if child =? EXYDE_HANDLE_INVALID then print_errno "init: FAIL spawn_elf errno=%d" ~> close ch ~> pret 1
    else
      echo_round_trip "init: FAIL spawn_elf send errno=%d" "init: FAIL spawn_elf recv errno=%d" "init: FAIL spawn_elf mismatch [%s]"
        "init: FAIL spawn_elf quit send errno=%d" "init: FAIL spawn_elf exit code %d" "init: spawn_elf OK" ch child.

(** ** The VFS server *)

Definition hello : list Z := str "hello exyde vfs".

(** The calls between [vfs_client_init] and the last message; [fail] is the label of that name. *)
Definition exercise_vfs (fuel : nat) (fail : prog Z) (ok : prog Z) : prog Z :=
  let~ r := call (vfs_client_mkdir (str "/tmp") 493) in
  if negb (r =? 0) then print_errno "init: FAIL mkdir errno=%d" ~> fail
  else
    let~ fd := call (Unistd.open (str "/tmp/hello") 0x0102) in
    if fd <? 0 then print_errno "init: FAIL open(w) errno=%d" ~> fail
    else if fd <? 3 then print_num "init: FAIL open returned reserved fd %d" fd ~> call (Unistd.close fd) ~> fail
    else
      let~ w := call (Unistd.write fd hello 16) in
      if negb (w =? 16) then
        let~ u := pget i_libc in
        print_with (fun _ => [0]) (line "init: FAIL write ret=%ld errno=%d") [u64 w; errno u] ~> call (Unistd.close fd) ~> fail
      else
        let~ r := call (Unistd.close fd) in
        if negb (r =? 0) then print_errno "init: FAIL close(w) errno=%d" ~> fail
        else
          let~ fd := call (Unistd.open (str "/tmp/hello") 0x0001) in
          if fd <? 0 then print_errno "init: FAIL open(r) errno=%d" ~> fail
          else
            let~ (n, b) := call (Unistd.read fuel fd 16) in
            if negb (n =? 16) then
              let~ u := pget i_libc in
              print_with (fun _ => [0]) (line "init: FAIL read ret=%ld errno=%d") [u64 n; errno u] ~> call (Unistd.close fd) ~> fail
            else
              let buf := zset (copy_loop (uninit 32) 0 b 0 (zlen b)) 16 0 in
              if negb (strcmp buf (str "hello exyde vfs") =? 0) then
                print_str "init: FAIL content [%s]" buf ~> call (Unistd.close fd) ~> fail
              else
                let~ r := call (Unistd.close fd) in
                if negb (r =? 0) then print_errno "init: FAIL close(r) errno=%d" ~> fail
                else
                  let~ fd := call (vfs_client_open (str "/tmp") 0x0001 0) in
                  if fd <? 0 then print_errno "init: FAIL open(dir) errno=%d" ~> fail
                  else
                    let~ (r, b) := call (vfs_client_readdir fd 0 64) in
                    if negb (r =? 0) then print_errno "init: FAIL readdir errno=%d" ~> call (vfs_client_close fd) ~> fail
                    else
                      let name := copy_loop (uninit 64) 0 b 0 (zlen b) in
                      if negb (strcmp name (str "hello") =? 0) then
                        print_str "init: FAIL readdir name [%s]" name ~> call (vfs_client_close fd) ~> fail
                      else
                        call (uset (set_errno 0)) ~>
                        let~ (r, _) := call (vfs_client_readdir fd 1 64) in
                        let~ u := pget i_libc in
                        if negb (r =? -1) || negb (errno u =? 2) then
                          print_errno "init: FAIL readdir past-end errno=%d" ~> call (vfs_client_close fd) ~> fail
                        else
                          call (vfs_client_close fd) ~>
                          let~ r := call (vfs_client_unlink (str "/tmp/hello")) in
                          if negb (r =? 0) then print_errno "init: FAIL unlink errno=%d" ~> fail
                          else
                            let~ r := call (vfs_client_rmdir (str "/tmp")) in
                            if negb (r =? 0) then print_errno "init: FAIL rmdir errno=%d" ~> fail else ok.

(** [fail:] of [run_vfs_test] *)
Definition vfs_fail (ch_req child : Z) : prog Z :=
  call vfs_client_shutdown ~> call (exyde_wait child) ~> close ch_req ~> close child ~> pret 1.

Definition run_vfs_test (fuel : nat) : prog Z :=
  let~ ch_req := call (exyde_ipc_create VFS_RPC_MSG_SIZE 8) in
  if ch_req =? EXYDE_HANDLE_INVALID then fail_errno "init: FAIL vfs channel errno=%d"
  else
    let~ child := spawn_from_initrd (str "bin/exy-vfs") (str "exy-vfs") ch_req in
    if child =? EXYDE_HANDLE_INVALID then print_errno "init: FAIL spawn exy-vfs errno=%d" ~> close ch_req ~> pret 1
    else
      let~ r := call (vfs_client_init ch_req) in
      if negb (r =? 0) then print_errno "init: FAIL vfs_client_init errno=%d" ~> vfs_fail ch_req child
      else
        exercise_vfs fuel (vfs_fail ch_req child)
          (pset (put_vfs ch_req child) ~> print "init: vfs service OK" ~> pret 0).

(** ** Copying the programs into the file system *)

Definition names : list string := ["test"; "echo"; "exy-vfs"; "console"; "exshell"].

(** [snprintf(buf, sizeof buf, fmt, name)] into a local array of 64 bytes *)
Definition format_path (fmt : string) (name : list Z) : prog (list Z) := fun s =>
  '(b, _) ← snprintf (fun _ => name) (uninit 64) 64 (str fmt) [1]; Some (b, s).

(** One round of the loop: the status to return, unless the loop goes on. *)
Definition unpack_one (name : list Z) : prog (option Z) :=
  let~ initrd_path := format_path "bin/%s" name in
  let~ fs_path := format_path "/bin/%s" name in
  let~ r := find initrd_path in
  match r with
  | None =>
    let~ u := pget i_libc in
    print_with (fun _ => initrd_path) (line "init: FAIL initrd_find(%s): errno=%d") [1; errno u] ~> pret (Some 1)
  | Some (data, size) =>
    let~ fd := call (Unistd.open fs_path (Z.lor 0x0102 0x0400)) in
    if fd <? 0 then
      let~ u := pget i_libc in
      print_with (fun _ => fs_path) (line "init: FAIL open(%s): errno=%d") [1; errno u] ~> pret (Some 1)
    else
      let~ w := call (Unistd.write fd (bytes_at m data size) size) in
      call (Unistd.close fd) ~>
      if negb (w =? i64 size) then
        let~ u := pget i_libc in
        print_with (fun _ => fs_path) (line "init: FAIL write(%s): %ld/%u errno=%d") [1; u64 w; u32 size; errno u] ~> pret (Some 1)
      else print_with (fun _ => name) (line "init: unpacked /bin/%s (%u bytes)") [1; u32 size] ~> pret None
  end.

Fixpoint unpack_loop (ns : list (list Z)) : prog Z :=
  match ns with
  | [] => pret 0
  | n :: ns => let~ r := unpack_one n in match r with Some st => pret st | None => unpack_loop ns end
  end.

Definition unpack_initrd_to_ramfs : prog Z :=
  let~ r := call (vfs_client_mkdir (str "/bin") 493) in
  let~ u := pget i_libc in
  if negb (r =? 0) && negb (errno u =? EEXIST) then fail_errno "init: FAIL mkdir /bin: errno=%d"
  else unpack_loop (str <$> names).

(** ** The shell, and everything *)

Definition run_shell : prog Z :=
  print "init: starting exshell" ~>
  let~ cap := pget g_vfs_ch_req in
  let~ child := spawn_from_initrd (str "bin/exshell") (str "exshell") cap in
  if child =? EXYDE_HANDLE_INVALID then fail_errno "init: FAIL spawn exshell errno=%d"
  else
    let~ code := call (exyde_wait child) in
    close child ~>
    if negb (code =? 0) then print_num "init: FAIL exshell exit code %d" code ~> pret 1
    else print "init: exshell exited" ~> pret 0.

(** [if (step() != 0) return 1;] around the rest *)
Definition must (step : prog Z) (k : prog Z) : prog Z := let~ r := step in if negb (r =? 0) then pret 1 else k.

Definition init_main (fuel : nat) : prog Z :=
  print "init: service manager starting" ~>
  let~ r := init_initrd in
  if negb (r =? 0) then fail_errno "init: FAIL initrd_init errno=%d"
  else
    must start_console (must run_regression_suite (must run_echo_service (must (run_vfs_test fuel) (must run_spawn_elf_test (
      print "init: all services OK" ~>
      must unpack_initrd_to_ramfs (must run_shell (
        let~ ch := pget g_vfs_ch_req in
        (if negb (ch =? EXYDE_HANDLE_INVALID) then
           call vfs_client_shutdown ~>
           let~ child := pget g_vfs_child in
           call (exyde_wait child) ~> close ch ~> close child ~> pret ()
         else pret ()) ~>
        let~ child := pget g_console_child in
        (if negb (child =? EXYDE_HANDLE_INVALID) then
           call console_client_shutdown ~> call (exyde_wait child) ~> close child ~> pret ()
         else pret ()) ~>
        pret 0))))))).
End init.

Definition init_start {W} (u : libc W) : istate W :=
  MkInit u (MkInitrd 0 0 false 0) [] EXYDE_HANDLE_INVALID EXYDE_HANDLE_INVALID EXYDE_HANDLE_INVALID.

Lemma call_step {W T} (p : user W T) (s : istate W) x u : p (i_libc s) = Some (x, u) -> call p s = Some (x, put_libc u s).
Proof. intros E. unfold call. by rewrite E. Qed.

(** ** Messages *)

(** The items of a format with plain directives only. *)
Fixpoint items (l : list Z) : list item :=
  match l with
  | 37 :: 108 :: c :: l => Dir [] FNone FNone L_L c :: items l
  | 37 :: c :: l => Dir [] FNone FNone L_NONE c :: items l
  | c :: l => if c =? 0 then [] else Lit c :: items l
  | [] => []
  end.
Definition plain_item (i : item) : bool :=
  match i with
  | Lit c => negb (c =? 0) && negb (c =? 37)
  | Dir [] FNone FNone len conv => is_conv conv && (32 <=? len_bits len)
  | _ => false
  end.
Definition directives (its : list item) : nat := length (List.filter (fun i => match i with Dir _ _ _ _ _ => true | _ => false end) its).
(** A format of plain directives with [n] arguments. *)
Definition good_format (fmt : list Z) (n : nat) : bool :=
  bool_decide (print_items (items fmt) = fmt) && forallb plain_item (items fmt) && (directives (items fmt) <=? n)%nat.

Lemma plain_ok its : forallb plain_item its = true -> Forall item_ok its.
Proof.
  intros F. apply Forall_forall. intros i Hi. rewrite forallb_forall in F. specialize (F i ltac:(by apply list_elem_of_In)). destruct i as [c| |fl w pr len conv]; cbn in *; [|done|].
  - apply andb_prop in F as [F1 F2]. rewrite !negb_true_iff, !Z.eqb_neq in *. done.
  - destruct fl, w, pr; try done. by apply andb_prop in F as [F _].
Qed.

Lemma wide_fits conv len x : 32 <= len_bits len -> arg_fits conv len x = true.
Proof. intros L. unfold arg_fits. rewrite Z.max_r, Z.eqb_refl by done. apply orb_true_r. Qed.

Lemma plain_text strs its : forall ap, forallb plain_item its = true -> (directives its <= length ap)%nat -> is_Some (text_of strs its ap).
Proof.
  induction its as [|i its IH]; intros ap F Hd; cbn [text_of]; [by eexists|]. cbn [forallb] in F. apply andb_prop in F as [Fi F].
  destruct i as [c| |fl w pr len conv]; [| |destruct fl, w, pr; try done].
  - destruct (IH ap F Hd) as [t E]. cbn [item_text mbind option_bind]. rewrite E. by eexists.
  - done.
  - unfold directives in Hd. cbn [List.filter length] in Hd. destruct ap as [|x ap]; [cbn in Hd; lia|]. cbn [item_text field_arg mbind option_bind default].
    change (0 =? - 2 ^ 31) with false. change (max_prec <? 0) with false. rewrite andb_false_r. cbn [orb mbind option_bind]. cbn in Fi. apply andb_prop in Fi as [_ L%Z.leb_le]. rewrite wide_fits by done. cbn [mbind option_bind].
    destruct (IH ap F) as [t E]; [cbn in Hd; unfold directives; lia|]. rewrite E. by eexists.
Qed.

Section messages.
Context {W : Type} `{Sys W} (P : libc W -> Prop).
Context (says : forall b u, P u -> b <> [] -> zlen b <= FD_BUF_SZ -> exists r u', Unistd.write Unistd.STDOUT_FILENO b (zlen b) u = Some (r, u') /\ P u').

(** A message is printed, and leaves what every [write] leaves. *)
Lemma print_with_spec strs fmt ap s : good_format fmt (length ap) = true -> P (i_libc s) -> zlen (i_buf s) <= FD_BUF_SZ ->
  exists u' b', print_with strs fmt ap s = Some ((), put_buf b' (put_libc u' s)) /\ P u' /\ zlen b' <= FD_BUF_SZ.
Proof using says.
  intros G Hp Hb. unfold good_format in G. apply andb_prop in G as [[G1 G2]%andb_prop G3]. apply bool_decide_eq_true in G1. apply Nat.leb_le in G3.
  destruct (plain_text strs _ ap G2 G3) as [t Et]. pose proof (plain_ok _ G2) as Ok. unfold print_with.
  destruct (Stdio.printf write_fd strs fmt ap (MkFd (i_buf s) false (Some (i_libc s)))) as [[r f]|] eqn:E.
  - assert (exists u', Stdio.world f = Some u' /\ P u') as (u' & Eu & Pu).
    { apply (printf_keeps _ (fun w => exists u, w = Some u /\ P u) _ _ _ _ _ _) in E; [done| |by exists (i_libc s)].
      intros l w Hl Hs (u & -> & Pu). cbn [fd_buf] in Hs. destruct (says l u Pu Hl (Hs Hb)) as (k & u1 & Ew & P1).
      unfold write_fd. change Stdio.STDOUT_FILENO with Unistd.STDOUT_FILENO. rewrite Ew. by exists u1. }
    cbn [mbind option_bind]. rewrite Eu. exists u', (fd_buf f). split; [done|]. split; [done|]. exact (printf_buffer _ _ _ _ _ _ _ E Hb).
  - unfold Stdio.printf, vprintf in E. rewrite <- G1, (format_core_spec _ _ _ _ t _ Ok Et) in E. done.
Qed.
End messages.

(** ** Handles *)

(** A system that also records which handles the process was given and closed. *)
Inductive hevent := Got (h : Z) | Gone (h : Z).
Record logged {W : Type} := MkLogged { lw : W; log : list hevent }.
Arguments logged W : clear implicits.
Arguments MkLogged {W}.

Definition hevents (nr : Z) (args : list arg) (r : Z) : list hevent :=
  if (nr =? SYS_IPC_CREATE) || (nr =? SYS_SPAWN_ELF) then
    if is_error r || (u32 r =? EXYDE_HANDLE_INVALID) then [] else [Got (u32 r)]
  else if nr =? SYS_HANDLE_CLOSE then match args with [Num h] => [Gone h] | _ => [] end
  else [].

#[export] Instance logged_sys {W} `{Sys W} : Sys (logged W) := fun nr args w =>
  '(r, w') ← syscall nr args (lw w); Some (r, MkLogged w' (log w ++ hevents nr args (rax r))).

Definition got (l : list hevent) : list Z := omap (fun e => match e with Got h => Some h | Gone _ => None end) l.
Definition gone (l : list hevent) : list Z := omap (fun e => match e with Gone h => Some h | Got _ => None end) l.

Section silent.
Context {W : Type} `{Sys W}.

(** Calls that neither get nor close a handle. *)
Definition silent {T} (m : user (logged W) T) : Prop := forall u x u', m u = Some (x, u') -> log (world u') = log (world u).

Lemma silent_ret {T} (x : T) : silent (uret x).
Proof. by intros u y u' [= _ <-]. Qed.
Lemma silent_get {T} (f : libc (logged W) -> T) : silent (uget f).
Proof. by intros u y u' [= _ <-]. Qed.
Lemma silent_set f : (forall u, world (f u) = world u) -> silent (uset f).
Proof. intros K u y u' [= _ <-]. by rewrite K. Qed.
Lemma silent_none {T} : silent (fun _ => @None (T * libc (logged W))).
Proof. done. Qed.
Lemma silent_bind {S T} (m : user (logged W) S) (k : S -> user (logged W) T) : silent m -> (forall x, silent (k x)) -> silent (ubind m k).
Proof. intros Hm Hk u y u'. unfold ubind. destruct (m u) as [[x u1]|] eqn:E; [|done]. intros E'. rewrite (Hk _ _ _ _ E'). by eapply Hm. Qed.
Lemma silent_fail {T} e (v : T) : silent (fail e v).
Proof. apply silent_bind; [by apply silent_set|intros; apply silent_ret]. Qed.
Lemma silent_syscall nr args : (forall r, hevents nr args r = []) -> silent (__exyde_syscall nr args).
Proof.
  intros He u x u'. unfold __exyde_syscall, syscall, logged_sys. destruct (syscall nr args (lw (world u))) as [[r w]|]; [|done]. intros [= _ <-].
  cbn. by rewrite He, app_nil_r.
Qed.
End silent.

Create HintDb silent.
#[export] Hint Resolve silent_ret silent_get silent_none silent_fail : silent.
#[export] Hint Extern 1 (silent (uset _)) => (apply silent_set; reflexivity) : silent.
#[export] Hint Extern 1 (silent (__exyde_syscall _ _)) => (apply silent_syscall; reflexivity) : silent.
(** A program by its statements. *)
Ltac silent :=
  repeat match goal with
    | |- silent (ubind _ _) => apply silent_bind; [|intros]
    | |- silent (let '(_, _) := ?x in _) => destruct x
    | |- silent (if ?b then _ else _) => destruct b
    | |- silent (match ?x with _ => _ end) => destruct x
    end; auto with silent.

Section calls.
Context {W : Type} `{Sys W}.
Notation silent := (silent (W := W)).

Lemma silent_int nr args : (forall r, hevents nr args r = []) -> silent (chk_int nr args).
Proof. intros He. unfold chk_int, chk. apply silent_bind; [by apply silent_syscall|]. intros r. silent. Qed.
Lemma silent_out nr args : (forall r, hevents nr args r = []) -> silent (chk_out nr args).
Proof. intros He. unfold chk_out, chk. apply silent_bind; [by apply silent_syscall|]. intros r. silent. Qed.
Lemma silent_send h b n : silent (exyde_ipc_send h b n).
Proof. by apply silent_int. Qed.
Lemma silent_recv h n : silent (exyde_ipc_recv h n).
Proof. by apply silent_out. Qed.
Lemma silent_wait h : silent (exyde_wait h).
Proof. by apply silent_int. Qed.
Lemma silent_yield : silent exyde_yield.
Proof. by apply silent_int. Qed.
#[local] Hint Resolve silent_send silent_recv silent_wait silent_yield : silent.

Lemma silent_con_rpc q : silent (con_rpc q).
Proof. unfold con_rpc. silent. Qed.
#[local] Hint Resolve silent_con_rpc : silent.
Lemma silent_con_write b n : silent (console_client_write b n).
Proof.
  unfold console_client_write, console_client_ready. silent. generalize (S (Z.to_nat n)), 0. intros fuel.
  induction fuel as [|fuel IH]; intros t; cbn [con_write_loop]; silent.
Qed.

Lemma silent_rpc q : silent (rpc q).
Proof. unfold rpc. silent. Qed.
#[local] Hint Resolve silent_rpc : silent.
Lemma silent_initialised {T} (b : T) k : silent k -> silent (initialised b k).
Proof. intros Hk. unfold initialised, ensure_init. silent. Qed.
Lemma silent_client_write fd b n : silent (vfs_client_write fd b n).
Proof.
  apply silent_initialised. destruct (n =? 0); [silent|]. generalize (S (Z.to_nat n)), 0. intros fuel.
  induction fuel as [|fuel IH]; intros t; cbn [write_loop]; silent.
Qed.
#[local] Hint Resolve silent_con_write silent_client_write : silent.
Lemma silent_write fd b n : silent (Unistd.write fd b n).
Proof. unfold Unistd.write, console_client_ready, vfs_fdtab_get, posix_ret. silent. Qed.

(** ** Accounts *)

Definition ilog (s : istate (logged W)) : list hevent := log (world (i_libc s)).
Definition psilent {T} (p : prog (logged W) T) : Prop := forall s x s', p s = Some (x, s') -> ilog s' = ilog s.

(** On every run, [p] closes the handles of [k] and the ones it gets itself, each once, and no other. *)
Definition owes {T} (k : list Z) (p : prog (logged W) T) : Prop := forall s x s', p s = Some (x, s') ->
  exists ev, ilog s' = ilog s ++ ev /\ gone ev ≡ₚ k ++ got ev.

Lemma psilent_ret {T} (x : T) : psilent (pret x).
Proof. by intros s y s' [= _ <-]. Qed.
Lemma psilent_get {T} (f : istate (logged W) -> T) : psilent (pget f).
Proof. by intros s y s' [= _ <-]. Qed.
Lemma psilent_call {T} (p : user (logged W) T) : silent p -> psilent (call p).
Proof. intros Hp s x s'. unfold call. destruct (p (i_libc s)) as [[y u]|] eqn:E; [|done]. intros [= _ <-]. exact (Hp _ _ _ E). Qed.
Lemma psilent_bind {S T} (p : prog (logged W) S) (k : S -> prog (logged W) T) : psilent p -> (forall x, psilent (k x)) -> psilent (pbind p k).
Proof. intros Hp Hk s y s'. unfold pbind. destruct (p s) as [[x s1]|] eqn:E; [|done]. intros E'. rewrite (Hk _ _ _ _ E'). by eapply Hp. Qed.
Lemma psilent_print strs fmt ap : psilent (print_with strs fmt ap).
Proof.
  intros s x s'. unfold print_with. destruct (Stdio.printf _ _ _ _ _) as [[r f]|] eqn:E; [|done]. cbn [mbind option_bind].
  destruct (Stdio.world f) as [u|] eqn:Ew; [|done]. intros [= _ <-].
  apply (printf_keeps _ (fun w => match w with Some u => log (world u) = ilog s | None => True end)) in E; [by rewrite Ew in E| |done].
  intros l [u0|] _ _ Hu; [|done]. unfold write_fd. destruct (Unistd.write _ _ _ u0) as [[k u1]|] eqn:Eu; [|done]. cbn [snd]. by rewrite (silent_write _ _ _ _ _ _ Eu).
Qed.
Lemma psilent_find m path : psilent (find m path).
Proof. intros s x s'. unfold find. destruct (initrd_find _ _ _) as [[]|]; cbn; [by intros [= _ <-]|by intros [= _ <-]|done|done]. Qed.

Lemma owes_ret {T} (x : T) : owes [] (pret x).
Proof. intros s y s' [= _ <-]. exists []. by rewrite app_nil_r. Qed.
Lemma owes_silent {S T} k (p : prog (logged W) S) (f : S -> prog (logged W) T) : psilent p -> (forall x, owes k (f x)) -> owes k (pbind p f).
Proof. intros Hp Hf s y s'. unfold pbind. destruct (p s) as [[x s1]|] eqn:E; [|done]. intros E'. rewrite <- (Hp _ _ _ E). by eapply Hf. Qed.

Lemma owes_then {S T} k ev0 (p : prog (logged W) S) (f : S -> prog (logged W) T) s x s1 y s' :
  p s = Some (x, s1) -> ilog s1 = ilog s ++ ev0 -> owes k (f x) -> f x s1 = Some (y, s') ->
  exists ev, ilog s' = ilog s ++ ev0 ++ ev /\ gone ev ≡ₚ k ++ got ev.
Proof. intros E L Hf E'. destruct (Hf _ _ _ E') as (ev & L' & Pe). exists ev. by rewrite L', L, <- app_assoc. Qed.

Lemma owes_handle {T} k nr args (f : Z -> prog (logged W) T) : (nr =? SYS_IPC_CREATE) || (nr =? SYS_SPAWN_ELF) = true ->
  (forall h, h <> EXYDE_HANDLE_INVALID -> owes (h :: k) (f h)) -> owes k (f EXYDE_HANDLE_INVALID) -> owes k (pbind (call (chk_handle nr args)) f).
Proof.
  intros Hn Hf Hi s y s'. unfold pbind. destruct (call (chk_handle nr args) s) as [[h s1]|] eqn:E; [|done]. intros E'. pose proof E as Ec.
  unfold call, chk_handle, __exyde_syscall, ubind, syscall, logged_sys in Ec. destruct (syscall nr args (lw (world (i_libc s)))) as [[r w]|]; [|done]. cbn [mbind option_bind] in Ec.
  set (u1 := set_world _ _) in Ec. assert (log (world u1) = ilog s ++ hevents nr args (rax r)) as L by done. unfold hevents in L. rewrite Hn in L.
  destruct (is_error (rax r)) eqn:Er; cbn [orb] in L.
  - injection Ec as <- <-. destruct (Hi _ _ _ E') as (ev & L' & Pe). exists ev. split; [|done]. rewrite L'. f_equal. rewrite app_nil_r in L. exact L.
  - injection Ec as <- <-. destruct (Z.eqb_spec (u32 (rax r)) EXYDE_HANDLE_INVALID) as [Eh|Hh].
    + rewrite Eh in E'. destruct (Hi _ _ _ E') as (ev & L' & Pe). exists ev. split; [|done]. rewrite L'. f_equal. rewrite app_nil_r in L. exact L.
    + destruct (owes_then (u32 (rax r) :: k) [Got (u32 (rax r))] _ f _ _ _ _ _ E L (Hf _ Hh) E') as (ev & L' & Pe). eexists. split; [exact L'|].
      cbn [app gone got omap list_omap]. rewrite Pe. cbn [app]. apply Permutation_middle.
Qed.

Lemma owes_close {T} k k' h (p : prog (logged W) T) : k ≡ₚ h :: k' -> owes k' p -> owes k (call (exyde_handle_close h) ~> p).
Proof.
  intros Pk Hp s y s'. unfold pbind. destruct (call (exyde_handle_close h) s) as [[x s1]|] eqn:E; [|done]. intros E'.
  assert (ilog s1 = ilog s ++ [Gone h]) as L.
  { unfold call, exyde_handle_close, chk_int, __exyde_syscall, ubind, syscall, logged_sys in E. destruct (syscall _ _ (lw (world (i_libc s)))) as [[r w]|]; [|done].
    cbn [mbind option_bind] in E. unfold chk, fail, ubind, uset, uret in E. by destruct (is_error _); injection E as _ <-. }
  destruct (owes_then k' [Gone h] _ (fun _ => p) _ _ _ _ _ E L Hp E') as (ev & L' & Pe). eexists. split; [exact L'|].
  cbn [app gone got omap list_omap]. by rewrite Pe, Pk.
Qed.

Lemma owes_spawn {T} m k path name cap (f : Z -> prog (logged W) T) :
  (forall h, h <> EXYDE_HANDLE_INVALID -> owes (h :: k) (f h)) -> owes k (f EXYDE_HANDLE_INVALID) -> owes k (pbind (spawn_from_initrd m path name cap) f).
Proof.
  intros Hf Hi s y s'. unfold spawn_from_initrd, pbind at 1 2. destruct (find m path s) as [[r s1]|] eqn:E; [|done]. rewrite <- (psilent_find _ _ _ _ _ E).
  destruct r as [[data size]|]; [|apply Hi]. exact (owes_handle k SYS_SPAWN_ELF _ f eq_refl Hf Hi s1 y s').
Qed.
End calls.

#[export] Hint Resolve silent_send silent_recv silent_wait silent_write silent_client_write : silent.
#[export] Hint Resolve psilent_ret psilent_get psilent_print : silent.
#[export] Hint Extern 1 (psilent (call _)) => (apply psilent_call; auto with silent) : silent.
#[export] Hint Extern 2 (psilent (pbind _ _)) => (apply psilent_bind; [|intros]) : silent.
#[export] Hint Extern 1 (psilent (print _)) => (unfold print) : silent.
#[export] Hint Extern 1 (psilent (print_errno _)) => (unfold print_errno) : silent.
#[export] Hint Extern 1 (psilent (print_num _ _)) => (unfold print_num) : silent.
#[export] Hint Extern 1 (psilent (print_str _ _)) => (unfold print_str) : silent.

(** The account of a program, statement by statement. *)
Ltac account :=
  repeat match goal with
    | |- owes _ (pbind (call (exyde_ipc_create _ _)) _) => apply owes_handle; [reflexivity|intros ? ?|]
    | |- owes _ (pbind (spawn_from_initrd _ _ _ _) _) => apply owes_spawn; [intros ? ?|]
    | |- owes _ (pbind (call (exyde_handle_close _)) _) => eapply owes_close; [solve [reflexivity | apply Permutation_swap]|]
    | |- owes _ (pbind _ _) => apply owes_silent; [solve [auto 8 with silent]|intros]
    | |- owes _ (let '(_, _) := ?x in _) => destruct x
    | H : ?h <> EXYDE_HANDLE_INVALID |- owes _ (if ?h =? EXYDE_HANDLE_INVALID then _ else _) => rewrite (proj2 (Z.eqb_neq h EXYDE_HANDLE_INVALID) H)
    | |- owes _ (if EXYDE_HANDLE_INVALID =? EXYDE_HANDLE_INVALID then _ else _) => rewrite Z.eqb_refl
    | |- owes _ (if ?b then _ else _) => destruct b
    | |- owes _ (pret _) => apply owes_ret
    end.

(** C10: Whatever the system answers, the test suite, the echo service, the second
    spawn test and the shell are run without leaking a handle: on every run that
    returns, with success or failure, each channel or process handle obtained was
    closed exactly once, and no other handle was closed. *)
Theorem services_close_handles {W} `{Sys W} (uninit : Z -> list Z) (m : rom) :
  owes [] (run_regression_suite m) /\ owes [] (run_echo_service uninit m) /\ owes [] (run_spawn_elf_test uninit m) /\ owes [] (run_shell m).
Proof.
  split; [|split; [|split]].
  - unfold run_regression_suite. account.
  - unfold run_echo_service, echo_round_trip. cbv zeta. account.
  - unfold run_spawn_elf_test, echo_round_trip, fail_errno. cbv zeta. account.
  - unfold run_shell, fail_errno. account.
Qed.

(** A kernel whose handle table has room for [n] more handles. *)
Definition small_sys (nr : Z) (args : list arg) (n : Z) : option (sysret * Z) :=
  let done r n := Some (MkRet r [] EXYDE_HANDLE_INVALID, n) in
  if (nr =? SYS_IPC_CREATE) || (nr =? SYS_SPAWN_ELF) then if n =? 0 then done (- EMFILE) 0 else done (10 - n) (n - 1)
  else if nr =? SYS_HANDLE_CLOSE then done 0 (n + 1)
  else if nr =? SYS_EXY_PUTS then match args with [_; Num k] => done k n | _ => done (- EINVAL) n end
  else done (- ENOSYS) n.

(** When only one of the two console channels can be created, the other one is
    not closed on the way out. *)
Theorem start_console_leaks :
  let u := MkLibc 0 (MkVars EXYDE_HANDLE_INVALID EXYDE_HANDLE_INVALID 0) [] (MkCon EXYDE_HANDLE_INVALID EXYDE_HANDLE_INVALID) (MkLogged 1 []) in
  match start_console (H := @logged_sys Z small_sys) (MkRom 0 []) (init_start u) with
  | Some (r, s) => r = 1 /\ ilog s = [Got 9]
  | None => False
  end.
Proof. vm_compute. split; reflexivity. Qed.
