(* ===== verification/Echo.v ===== *)
(** * The echo server

    [main] of [userspace/echo/echo.c], a program on the interface of the system
    calls.  What it does with the messages is stated on its trace, for every system
    that keeps the contract of the calls it makes. *)
From S2P Require Import Prelude Bytes Errno Str Stdio Env Initrd Micro ConClient Unistd Init.

Section echo.
Context {W : Type} `{Sys W} (uninit : Z -> list Z).

(** [turns] rounds of the loop; the status when [main] returns within them. *)
Fixpoint echo_serve (turns : nat) (ch : Z) : prog W (option Z) :=
  match turns with
  | O => pret None
  | S turns =>
    let~ (n, b) := call (exyde_ipc_recv ch 16) in
    if negb (n =? 16) then print_errno "echo: recv failed errno=%d" ~> pret (Some 1)
    else
      let msg := copy_loop (uninit 16) 0 b 0 (zlen b) in
      if strcmp msg (str "quit") =? 0 then print "echo: quitting" ~> pret (Some 0)
      else
        let~ r := call (exyde_ipc_send ch msg 16) in
        if negb (r =? 0) then print_errno "echo: send failed errno=%d" ~> pret (Some 1) else echo_serve turns ch
  end.

Definition echo_main (turns : nat) : prog W (option Z) :=
  let~ ch := call exyde_get_bootstrap in
  if ch =? EXYDE_HANDLE_INVALID then print "echo: no bootstrap channel" ~> pret (Some 1)
  else print "echo: ready" ~> echo_serve turns ch.
End echo.

(** ** The system under it *)

(** The calls of the server return, with what [micro.h] says they return. *)
Class EchoSys (W : Type) `{Sys W} := {
  answers nr args w : is_Some (syscall nr args w);
  recv_result h n w r w' : syscall SYS_IPC_RECV [Num h; Dst; Num n] w = Some (r, w') ->
    is_error (rax r) = true \/ 0 <= rax r <= n /\ zlen (out_bytes r) = rax r;
  send_result h b n w r w' : syscall SYS_IPC_SEND [Num h; Src b; Num n] w = Some (r, w') -> is_error (rax r) = true \/ rax r = 0 }.

(** A system that records the calls and their results. *)
Record traced {W : Type} := MkTraced { tw : W; trace : list (Z * list arg * sysret) }.
Arguments traced W : clear implicits.
Arguments MkTraced {W}.

#[export] Instance traced_sys {W} `{Sys W} : Sys (traced W) := fun nr args t =>
  '(r, w) ← syscall nr args (tw t); Some (r, MkTraced w (trace t ++ [(nr, args, r)])).

(** What was received and sent: the bytes, or the error. *)
Inductive ipc := Received (h : Z) (res : Z + list Z) | Sent (h : Z) (msg : list Z) (res : Z).
Definition ipc_of (e : Z * list arg * sysret) : option ipc :=
  let '(nr, args, r) := e in
  match args with
  | [Num h; Dst; Num _] => if nr =? SYS_IPC_RECV then Some (Received h (if is_error (rax r) then inl (rax r) else inr (out_bytes r))) else None
  | [Num h; Src b; Num _] => if nr =? SYS_IPC_SEND then Some (Sent h b (rax r)) else None
  | _ => None
  end.

(** The messages received and sent back. *)
Definition rounds (ch : Z) (ms : list (list Z)) : list ipc := ms ≫= fun m => [Received ch (inr m); Sent ch m 0].
Definition asks_quit (m : list Z) : Prop := str "quit" `prefix_of` m.

Lemma strcmp_zero q m : 0 ∉ q -> (length q < length m)%nat -> strcmp m (q ++ [0]) = 0 <-> (q ++ [0]) `prefix_of` m.
Proof.
  revert m. induction q as [|c q IH]; intros [|x m] Hq Hl; cbn [length] in Hl; try lia.
  - cbn [app strcmp]. split.
    + destruct (Z.eqb_spec x 0) as [->|Hx]; cbn [negb andb]; [intros _; by exists m|]. lia.
    + intros [k [= -> _]]. done.
  - cbn [app strcmp]. apply not_elem_of_cons in Hq as [Hc Hq]. destruct (Z.eqb_spec x 0) as [->|Hx]; cbn [negb andb].
    + split; [lia|]. intros [k Ek]. injection Ek. lia.
    + destruct (Z.eqb_spec x c) as [->|Hn]; cbn [andb].
      * rewrite (IH m Hq) by lia. split; [by apply prefix_cons|]. by intros ?%prefix_cons_inv_2.
      * split; [lia|]. intros [k Ek]. injection Ek. lia.
Qed.

Section run.
Context {W : Type} `{EchoSys W} (uninit : Z -> list Z) (Hun : zlen (uninit 16) = 16).
Implicit Types (u : libc (traced W)) (s : istate (traced W)).

(** [u'] after [u]: the messages [ev] went over the channels in between. *)
Definition exchanged u (ev : list ipc) u' : Prop := exists new, trace (world u') = trace (world u) ++ new /\ omap ipc_of new = ev.
Definition no_server u : Prop := con u = MkCon EXYDE_HANDLE_INVALID EXYDE_HANDLE_INVALID.

Lemma exchanged_nil u u' : trace (world u') = trace (world u) -> exchanged u [] u'.
Proof. intros E. exists []. by rewrite E, app_nil_r. Qed.
Lemma exchanged_trans u e1 u1 e2 u2 : exchanged u e1 u1 -> exchanged u1 e2 u2 -> exchanged u (e1 ++ e2) u2.
Proof. intros (n1 & T1 & <-) (n2 & T2 & <-). exists (n1 ++ n2). rewrite T2, T1, app_assoc. split; [done|]. apply omap_app. Qed.

Lemma syscall_traced nr args u : exists r w', syscall nr args (tw (world u)) = Some (r, w') /\
  __exyde_syscall nr args u = Some (r, set_world (MkTraced w' (trace (world u) ++ [(nr, args, r)])) u).
Proof.
  destruct (answers nr args (tw (world u))) as [[r w'] E]. exists r, w'. split; [done|]. unfold __exyde_syscall, syscall at 1, traced_sys. by rewrite E.
Qed.

(** Output goes to the kernel, and is no message. *)
Lemma say_traced u0 u b : no_server u -> exchanged u0 [] u -> exists r u', Unistd.write Unistd.STDOUT_FILENO b (zlen b) u = Some (r, u') /\ no_server u' /\ exchanged u0 [] u'.
Proof.
  intros Hc Hx. destruct (syscall_traced SYS_EXY_PUTS [Src b; Num (zlen b)] u) as (r & w' & _ & E).
  unfold Unistd.write. change ((0 <=? Unistd.STDOUT_FILENO) && (Unistd.STDOUT_FILENO <? 3)) with true.
  change ((Unistd.STDOUT_FILENO =? Unistd.STDOUT_FILENO) || (Unistd.STDOUT_FILENO =? Unistd.STDERR_FILENO)) with true. cbv iota.
  unfold ubind at 1. unfold console_client_ready, ubind at 1, uget, uret. rewrite Hc. cbn [con_req con_resp]. change (EXYDE_HANDLE_INVALID =? EXYDE_HANDLE_INVALID) with true. cbn [negb andb].
  unfold ubind. rewrite E. set (u1 := set_world _ u). assert (exchanged u0 [] u1) as Hx1.
  { apply (exchanged_trans u0 [] u [] u1); [done|]. eexists. split; [reflexivity|done]. }
  unfold posix_ret, fail, ubind, uset, uret. destruct (_ && _); eexists _, _; (split; [reflexivity|]); by split.
Qed.

(** A message on the console. *)
Lemma print_traced fmt ap s : good_format fmt (length ap) = true -> no_server (i_libc s) -> zlen (i_buf s) <= FD_BUF_SZ ->
  exists s', print_with (fun _ => [0]) fmt ap s = Some ((), s') /\ no_server (i_libc s') /\ zlen (i_buf s') <= FD_BUF_SZ /\ exchanged (i_libc s) [] (i_libc s').
Proof.
  intros G Hc Hb. destruct (print_with_spec (fun u => no_server u /\ exchanged (i_libc s) [] u)) with (strs := fun _ : Z => [0]) (fmt := fmt) (ap := ap) (s := s) as (u' & b' & E & [P1 P2] & B); try done.
  - intros b u [P1 P2] _ _. destruct (say_traced (i_libc s) u b P1 P2) as (r & u' & E & K). by exists r, u'.
  - split; [done|]. by apply exchanged_nil.
  - by exists (put_buf b' (put_libc u' s)).
Qed.

(** The calls of the loop: what they return, and what is added to the trace. *)
Lemma recv_traced u ch : exists r u', exyde_ipc_recv ch 16 u = Some (r, u') /\ no_server u' = no_server u /\
  ((exists e, r.1 <> 16 /\ exchanged u [Received ch e] u' /\ (forall m, e = inr m -> zlen m <> 16)) \/
   r.1 = 16 /\ zlen r.2 = 16 /\ exchanged u [Received ch (inr r.2)] u').
Proof.
  destruct (syscall_traced SYS_IPC_RECV [Num ch; Dst; Num 16] u) as (r & w' & Er & E). set (u1 := set_world _ u) in E.
  assert (exchanged u [Received ch (if is_error (rax r) then inl (rax r) else inr (out_bytes r))] u1) as Hx by (eexists; split; [reflexivity|done]).
  unfold exyde_ipc_recv, chk_out, ubind. rewrite E. destruct (recv_result _ _ _ _ _ Er) as [Ee|[Hr Hl]].
  - unfold chk, fail, ubind, uset, uret. rewrite Ee in Hx |- *. eexists _, _. split; [reflexivity|]. split; [done|]. left. eexists. split; [by vm_compute|]. split; [exact Hx|done].
  - assert (is_error (rax r) = false) as Ee by (unfold is_error; rewrite (proj2 (Z.ltb_ge _ 0)) by lia; done). unfold chk, uret. rewrite Ee in Hx |- *. rewrite i32_small by lia.
    eexists _, _. split; [reflexivity|]. split; [done|]. destruct (decide (rax r = 16)) as [Eq|Hne]; [right; cbn; split; [done|]; split; [lia|done]|].
    left. eexists. split; [exact Hne|]. split; [exact Hx|]. intros m [= <-]. lia.
Qed.

Lemma send_traced u ch m : exists r u' e, exyde_ipc_send ch m 16 u = Some (r, u') /\ no_server u' = no_server u /\ exchanged u [Sent ch m e] u' /\
  (r <> 0 /\ is_error e = true \/ r = 0 /\ e = 0).
Proof.
  destruct (syscall_traced SYS_IPC_SEND [Num ch; Src m; Num 16] u) as (r & w' & Er & E). set (u1 := set_world _ u) in E.
  assert (exchanged u [Sent ch m (rax r)] u1) as Hx by (eexists; split; [reflexivity|done]).
  unfold exyde_ipc_send, chk_int, ubind. rewrite E. destruct (send_result _ _ _ _ _ _ Er) as [Ee|E0].
  - unfold chk, fail, ubind, uset, uret. rewrite Ee. eexists _, _, _. split; [reflexivity|]. split; [done|]. split; [exact Hx|]. left. split; [by vm_compute|done].
  - rewrite E0. eexists _, _, _. split; [reflexivity|]. split; [done|]. split; [exact Hx|]. by right.
Qed.

(** How a run ends that has sent back [ms]: not within the rounds; with a request to
    quit; with a receive that failed; with an answer that could not be sent. *)
Inductive ending (ch : Z) (turns : nat) (ms : list (list Z)) : option Z -> list ipc -> Prop :=
  | goes_on : length ms = turns -> ending ch turns ms None []
  | quits m : asks_quit m -> zlen m = 16 -> ending ch turns ms (Some 0) [Received ch (inr m)]
  | no_message e : (forall m, e = inr m -> zlen m <> 16) -> ending ch turns ms (Some 1) [Received ch e]
  | no_answer m e : ~ asks_quit m -> zlen m = 16 -> is_error e = true -> ending ch turns ms (Some 1) [Received ch (inr m); Sent ch m e].

Definition echoed (ch : Z) (turns : nat) (r : option Z) (ev : list ipc) : Prop :=
  exists ms tl, ev = rounds ch ms ++ tl /\ Forall (fun m => zlen m = 16 /\ ~ asks_quit m) ms /\ ending ch turns ms r tl.

Lemma echo_serve_spec turns ch : forall s, no_server (i_libc s) -> zlen (i_buf s) <= FD_BUF_SZ ->
  exists r s' ev, echo_serve uninit turns ch s = Some (r, s') /\ exchanged (i_libc s) ev (i_libc s') /\ echoed ch turns r ev.
Proof using All.
  induction turns as [|turns IH]; intros s Hc Hb; cbn [echo_serve].
  { exists None, s, []. split; [done|]. split; [by apply exchanged_nil|]. exists [], []. split; [done|]. split; [constructor|by constructor]. }
  destruct (recv_traced (i_libc s) ch) as ([n b] & u1 & E1 & C1 & K1). unfold pbind at 1. rewrite (call_step _ s _ _ E1). cbn [fst snd] in K1. set (s1 := put_libc u1 s).
  assert (no_server (i_libc s1)) as Hc1 by (cbn; by rewrite C1). destruct K1 as [(e & Hn & X1 & He)|(-> & Lb & X1)].
  { rewrite (proj2 (Z.eqb_neq n 16) Hn). cbn [negb]. destruct (print_traced (line "echo: recv failed errno=%d") [errno u1] s1) as (s2 & E2 & _ & _ & X2); try done.
    unfold pbind, print_errno, pbind, pget. cbn [i_libc s1 put_libc]. rewrite E2. exists (Some 1), s2, [Received ch e]. split; [done|]. split; [exact (exchanged_trans _ _ _ _ _ X1 X2)|].
    exists [], [Received ch e]. split; [done|]. split; [constructor|by constructor]. }
  change (16 =? 16) with true. cbn [negb].
  assert (copy_loop (uninit 16) 0 b 0 (zlen b) = b) as -> by (rewrite copy_front by lia; rewrite drop_ge by (unfold zlen in *; lia); apply app_nil_r).
  pose proof (strcmp_zero (byte_list "quit") b ltac:(by vm_compute; set_solver) ltac:(unfold zlen in Lb; cbn; lia)) as Q. change (byte_list "quit" ++ [0]) with (str "quit") in Q. fold (asks_quit b) in Q.
  destruct (Z.eqb_spec (strcmp b (str "quit")) 0) as [Eq|Nq].
  { destruct (print_traced (line "echo: quitting") [] s1) as (s2 & E2 & _ & _ & X2); try done. unfold pbind, print. rewrite E2. exists (Some 0), s2, [Received ch (inr b)].
    split; [done|]. split; [exact (exchanged_trans _ _ _ _ _ X1 X2)|]. exists [], [Received ch (inr b)]. split; [done|]. split; [constructor|]. constructor; [by apply Q|done]. }
  destruct (send_traced u1 ch b) as (r & u2 & e & E2 & C2 & X2 & K2). unfold pbind at 1. rewrite (call_step _ s1 _ _ E2). set (s2 := put_libc u2 s1).
  assert (no_server (i_libc s2)) as Hc2 by (cbn; by rewrite C2, C1). assert (~ asks_quit b) as Nb by (intros K; by apply Q in K).
  pose proof (exchanged_trans _ _ _ _ _ X1 X2) as X12. destruct K2 as [[Hr He]|[-> ->]].
  { rewrite (proj2 (Z.eqb_neq r 0) Hr). cbn [negb]. destruct (print_traced (line "echo: send failed errno=%d") [errno u2] s2) as (s3 & E3 & _ & _ & X3); try done.
    unfold pbind, print_errno, pbind, pget. cbn [i_libc s2 put_libc]. rewrite E3. exists (Some 1), s3, [Received ch (inr b); Sent ch b e]. split; [done|]. split; [exact (exchanged_trans _ _ _ _ _ X12 X3)|].
    exists [], [Received ch (inr b); Sent ch b e]. split; [done|]. split; [constructor|by constructor]. }
  cbn [Z.eqb negb]. destruct (IH s2 Hc2 Hb) as (x & s3 & ev & E3 & X3 & ms & tl & -> & Fm & En). exists x, s3, ([Received ch (inr b); Sent ch b 0] ++ rounds ch ms ++ tl).
  split; [done|]. split; [exact (exchanged_trans _ _ _ _ _ X12 X3)|]. exists (b :: ms), tl. split; [done|]. split; [by constructor|].
  destruct En as [<-|m Hm Lm|e He|m e Hm Lm He]; by constructor.
Qed.
End run.

(** C35: The echo server, on every system whose calls return what [micro.h] says
    they return: [main] never hangs between two calls, and its messages are, in
    this order, 16-byte messages received on the bootstrap channel, each sent back
    unchanged before the next is received, and then either nothing more (the loop
    goes on), or a message that asks to quit and the status 0, or a receive that
    failed or an answer that could not be sent and the status 1.  A message that
    asks to quit is never sent back.  Without a bootstrap channel no message is
    touched and the status is 1. *)
Theorem echo_correct {W} `{EchoSys W} (uninit : Z -> list Z) turns (s : istate (traced W)) :
  zlen (uninit 16) = 16 -> no_server (i_libc s) -> zlen (i_buf s) <= FD_BUF_SZ ->
  exists r s' h w' ev, echo_main uninit turns s = Some (r, s') /\ syscall SYS_GET_BOOTSTRAP [] (tw (world (i_libc s))) = Some (h, w') /\
    exchanged (i_libc s) ev (i_libc s') /\
    if is_error (rax h) || (u32 (rax h) =? EXYDE_HANDLE_INVALID) then r = Some 1 /\ ev = [] else echoed (u32 (rax h)) turns r ev.
Proof.
  intros Hun Hc Hb. unfold echo_main. destruct (syscall_traced SYS_GET_BOOTSTRAP [] (i_libc s)) as (h & w' & Eh & E). set (u1 := set_world _ _) in E.
  assert (exchanged (i_libc s) [] u1) as X1 by (eexists; split; [reflexivity|done]).
  assert (exists e, call exyde_get_bootstrap s = Some (if is_error (rax h) then EXYDE_HANDLE_INVALID else u32 (rax h), put_libc (set_errno e u1) s)) as [e Ec].
  { unfold call, exyde_get_bootstrap, chk_handle, ubind. rewrite E. destruct (is_error (rax h)); [by eexists|]. exists (errno u1). by destruct u1. }
  unfold pbind at 1. rewrite Ec. set (s1 := put_libc _ s).
  assert ((if is_error (rax h) then EXYDE_HANDLE_INVALID else u32 (rax h)) =? EXYDE_HANDLE_INVALID = is_error (rax h) || (u32 (rax h) =? EXYDE_HANDLE_INVALID)) as -> by (destruct (is_error (rax h)); [apply Z.eqb_refl|done]).
  destruct (is_error (rax h) || (u32 (rax h) =? EXYDE_HANDLE_INVALID)) eqn:Eb.
  - destruct (print_traced (line "echo: no bootstrap channel") [] s1) as (s2 & E2 & _ & _ & X2); try done. unfold pbind, print. rewrite E2.
    exists (Some 1), s2, h, w', []. split; [done|]. split; [done|]. split; [exact (exchanged_trans _ _ _ _ _ X1 X2)|by rewrite Eb].
  - pose proof Eb as [Ee _]%orb_false_iff. rewrite Ee. destruct (print_traced (line "echo: ready") [] s1) as (s2 & E2 & C2 & B2 & X2); try done. unfold pbind at 1, print. rewrite E2.
    destruct (echo_serve_spec uninit Hun turns (u32 (rax h)) s2 C2 B2) as (r & s3 & ev & E3 & X3 & K). exists r, s3, h, w', ev. split; [done|]. split; [done|].
    split; [|by rewrite Eb]. exact (exchanged_trans _ _ _ _ _ X1 (exchanged_trans _ _ _ _ _ X2 X3)).
Qed.

(** ** Example *)

(** A system with the bootstrap channel 5 and messages waiting there; a receive
    without one is interrupted. *)
Definition queue_sys (nr : Z) (args : list arg) (q : list (list Z)) : option (sysret * list (list Z)) :=
  let ret r b q := Some (MkRet r b EXYDE_HANDLE_INVALID, q) in
  if nr =? SYS_GET_BOOTSTRAP then ret 5 [] q
  else if nr =? SYS_IPC_SEND then ret 0 [] q
  else if nr =? SYS_IPC_RECV then
    match args, q with
    | [Num h; Dst; Num n], m :: q => if zlen m <=? n then ret (zlen m) m q else ret (- EINVAL) [] q
    | _, _ => ret (- EINVAL) [] q
    end
  else if nr =? SYS_EXY_PUTS then match args with [_; Num n] => ret n [] q | _ => ret (- EINVAL) [] q end
  else ret (- ENOSYS) [] q.

#[export] Instance queue_kept : EchoSys (H := queue_sys) (list (list Z)).
Proof.
  split.
  - intros nr args w. unfold syscall, queue_sys. repeat case_match; by eexists.
  - intros h n [|m q] r w'; [intros [= <- _]; by left|]. unfold syscall, queue_sys. change (SYS_IPC_RECV =? SYS_GET_BOOTSTRAP) with false. change (SYS_IPC_RECV =? SYS_IPC_SEND) with false.
    change (SYS_IPC_RECV =? SYS_IPC_RECV) with true. cbv iota. pose proof (zlen_nonneg m). destruct (Z.leb_spec (zlen m) n); intros [= <- _]; [right; cbn; lia|by left].
  - intros h b n w r w' [= <- _]. by right.
Qed.

Definition demo_echo : istate (traced (list (list Z))) :=
  MkInit (MkLibc 0 (MkVars EXYDE_HANDLE_INVALID EXYDE_HANDLE_INVALID 0) [] (MkCon EXYDE_HANDLE_INVALID EXYDE_HANDLE_INVALID) (MkTraced [ping; quit; ping] []))
    (MkInitrd 0 0 false 0) [] EXYDE_HANDLE_INVALID EXYDE_HANDLE_INVALID EXYDE_HANDLE_INVALID.

Lemma echo_correct_witness : exists s' ev, echo_main (H := @traced_sys _ queue_sys) (fun n => replicate (Z.to_nat n) 170) 10 demo_echo = Some (Some 0, s') /\
  echoed 5 10 (Some 0) ev.
Proof.
  destruct (echo_correct (H := queue_sys) (fun n => replicate (Z.to_nat n) 170) 10 demo_echo eq_refl eq_refl ltac:(done)) as (r & s' & h & w' & ev & E & Eh & _ & K).
  assert (fst <$> echo_main (H := @traced_sys _ queue_sys) (fun n => replicate (Z.to_nat n) 170) 10 demo_echo = Some (Some 0)) as B by (vm_compute; reflexivity).
  rewrite E in B. injection B as ->. exists s', ev. split; [exact E|]. injection Eh as <- <-. exact K.
Defined.
