(* ===== verification/Unpack.v ===== *)
(** * From the ram disk to the file system

    [unpack_initrd_to_ramfs] of [init.c], on the linked system: the members
    [bin/...] of the archive the kernel mapped become the files [/bin/...] of the
    VFS server.  The first part says what an operation on one file leaves of the
    others; the theorem composes the ram disk, [snprintf], the descriptor calls,
    the messages, the server and the file system, with the messages of [init] going
    to the console server or to the kernel. *)
From S2P Require Import Prelude Bytes Errno Str Iface CMalloc Stdio Env Initrd Ramfs Vfs VfsServer Micro VfsClient ConClient Unistd ShPath Shell ConServer Init.

Section frame.
Context {A : Type} `{UHeapLaws A}.
Implicit Types (s : fs A).

(** Every path that leads to another node than [vn] leads to it afterwards, and
    its type and content are the same. *)
Definition kept s (vn : Z) s' : Prop := forall p x n, Vfs.resolve_path s p = (0, x) -> nodes s !! x = Some n -> x <> vn ->
  Vfs.resolve_path s' p = (0, x) /\ exists n', nodes s' !! x = Some n' /\ ntype n' = ntype n /\ contents n' = contents n.

Lemma contents_alike n m : alike n m -> ntype n = ntype m /\ contents n = contents m.
Proof. intros (-> & _ & _ & _ & Ev & Eb)%alike_fields. split; [done|]. unfold contents. by rewrite Ev, Eb. Qed.

Lemma kept_trans s1 vn s2 s3 : kept s1 vn s2 -> kept s2 vn s3 -> kept s1 vn s3.
Proof.
  intros K1 K2 p x n R E Hx. destruct (K1 p x n R E Hx) as (R1 & n1 & E1 & T1 & C1). destruct (K2 p x n1 R1 E1 Hx) as (R2 & n2 & E2 & T2 & C2).
  split; [done|]. exists n2. split; [done|]. split; congruence.
Qed.

Lemma kept_edits s vn s' : edits s vn s' -> kept s vn s'.
Proof.
  intros [Sh T] p x n R E Hx. split; [by rewrite (resolve_shape s s')|]. destruct (tree_at s' x (set_refcount n 0)) as (n' & E' & Q); [rewrite T by done; by apply at_tree|].
  exists n'. split; [done|]. by apply contents_alike.
Qed.

Lemma kept_added s par d c n s' : fs_wf [] s -> added s par d c n s' -> nodes s !! par = Some d -> child s (children d) (cstr (nname n)) = None -> kept s c s'.
Proof.
  intros W Ad Ed Nw p x m R E Hx. unfold Vfs.resolve_path in *. destruct (negb _); [done|]. pose proof Ad as (_ & _ & Hr & _). rewrite Hr.
  destruct (wf_root _ _ W) as (rn & Er & _). split.
  - eapply (walk_added []); eauto. unfold linked. by rewrite Z.eqb_refl.
  - destruct (added_old _ _ _ _ _ _ x m Ad Ed E) as (m' & E' & Al). exists m'. split; [done|]. apply contents_alike in Al as [-> ->]. by destruct (x =? par).
Qed.

(** ** The directory of the programs *)

Definition BIN : list Z := byte_list "bin".
Definition bin_path (nm : list Z) : list Z := path_of [BIN; nm] ++ [0].

(** A name of a program. *)
Record prog_name (nm : list Z) : Prop := { pn_plain : plain nm; pn_len : zlen nm <= 50; pn_bytes : bytes nm }.

(** [d] is /bin, with regular files only under the names of [ns]. *)
Record bin_at (ns : list (list Z)) s (d : Z) (nd : node) : Prop := {
  ba_path : Vfs.resolve_path s (set_path (path_of [BIN] ++ [0])) = (0, d);
  ba_node : nodes s !! d = Some nd;
  ba_dir : ntype nd = VFS_TYPE_DIR;
  ba_files nm c : nm ∈ ns -> child s (children nd) nm = Some c -> exists nc, nodes s !! c = Some nc /\ ntype nc = VFS_TYPE_REG }.

(** A path in normal form as it is sent. *)
Lemma sent_path p ns : 0 ∈ p -> cstr p = path_of ns -> Forall plain ns -> fits 256 1 ns = true ->
  set_path p = set_path (path_of ns ++ [0]) /\ 0 ∈ set_path p /\ zget 0 (set_path p) 0 = SLASH /\ components (set_path p) = ns /\ cstr (set_path p) = path_of ns.
Proof.
  intros Zp Ep F Ft. destruct (set_path_good p ns Zp Ep F Ft) as (E1 & E2 & E3 & _). destruct (set_path_spec p Zp) as (_ & _ & Ec).
  assert (cstr (set_path p) = path_of ns) as Ec'.
  { rewrite Ec, Ep. apply take_ge. destruct (decide (ns = [])) as [->|Hn]; [cbn; lia|]. unfold fits in Ft. rewrite bool_decide_false in Ft by done. cbn [orb] in Ft. apply Z.ltb_lt in Ft.
    pose proof (f_equal zlen (path_trail ns Hn)) as L. rewrite zlen_cons, zlen_app in L. change (zlen [47]) with 1 in L. unfold zlen in *. lia. }
  do 3 (split; [done|]). split; [|done]. by rewrite names_components, Ec', names_canonical.
Qed.

Lemma bin_plain : plain BIN.
Proof. unfold plain. repeat split; vm_compute; set_solver. Qed.

Lemma prog_path nm : prog_name nm -> Forall plain [BIN; nm] /\ fits 256 1 [BIN; nm] = true.
Proof.
  intros [Pn Ln _]. split; [apply Forall_cons; split; [apply bin_plain|by apply Forall_singleton]|]. unfold fits. rewrite bool_decide_false by done. cbn [orb]. apply Z.ltb_lt.
  unfold trail. cbn [fmap list_fmap concat]. rewrite !zlen_app. change (zlen BIN) with 3. change (zlen [47]) with 1. change (zlen (@nil Z)) with 0. lia.
Qed.

(** Looking up a program is looking up its name in /bin. *)
Lemma resolve_prog ns s d nd nm : bin_at ns s d nd -> prog_name nm ->
  Vfs.resolve_path s (set_path (bin_path nm)) = match child s (children nd) nm with Some c => (0, c) | None => (- ENOENT, 0) end.
Proof.
  intros [Bp Bn Bd _] Pn. destruct (prog_path nm Pn) as [F Ft]. pose proof (path_no_nul _ F) as Nz. pose proof (pn_plain _ Pn) as (P1 & P2 & P3 & P4 & P5). pose proof (pn_len _ Pn) as Ln.
  destruct (sent_path (bin_path nm) [BIN; nm]) as (_ & _ & Sl & Cm & _); [set_solver|unfold bin_path; by rewrite cstr_app|done|done|].
  destruct (sent_path (path_of [BIN] ++ [0]) [BIN]) as (_ & _ & Sl' & Cm' & _); [set_solver|done|apply Forall_singleton, bin_plain|done|].
  unfold Vfs.resolve_path in *. rewrite Sl, Cm. rewrite Sl', Cm' in Bp. rewrite Z.eqb_refl in *. cbn [negb] in *.
  change [BIN; nm] with ([BIN] ++ [nm]). rewrite (walk_app s [BIN] _ _ d Bp). cbn [walk]. unfold VFS_NAME_MAX. rewrite (proj2 (Z.ltb_ge 255 (zlen nm))) by lia.
  rewrite !bool_decide_eq_false_2 by done. rewrite Bn, Bd. cbn [Z.eqb VFS_TYPE_DIR negb Pos.eqb]. by destruct (child _ _ _).
Qed.

Lemma segments_plain (l : list Z) : 47 ∉ l -> segments l = [l].
Proof.
  induction l as [|c l IH]; intros Hl; [done|]. cbn [segments]. unfold SLASH. destruct (Z.eqb_spec c 47) as [->|]; [set_solver|]. by rewrite IH by set_solver.
Qed.

Lemma split_prog nm : prog_name nm -> split_path (set_path (bin_path nm)) = inr ([BIN], nm).
Proof.
  intros Pn. destruct (prog_path nm Pn) as [F Ft]. pose proof (path_no_nul _ F) as Nz. pose proof (pn_plain _ Pn) as (P1 & P2 & P3 & P4 & P5). pose proof (pn_len _ Pn) as Ln.
  destruct (sent_path (bin_path nm) [BIN; nm]) as (_ & _ & Sl & Cm & Ec); [set_solver|unfold bin_path; by rewrite cstr_app|done|done|].
  unfold split_path. rewrite Ec. assert (path_of [BIN; nm] = 47 :: BIN ++ 47 :: nm) as Ep by (unfold path_of; cbn [fmap list_fmap concat]; rewrite app_nil_r; done).
  assert (segments (path_of [BIN; nm]) = [[]; BIN; nm]) as -> by (rewrite Ep; unfold BIN; cbn; by rewrite segments_plain).
  assert (zlen (path_of [BIN; nm]) = 5 + zlen nm) as -> by (rewrite Ep, zlen_cons, zlen_app, zlen_cons; change (zlen BIN) with 3; lia).
  pose proof (zlen_nonneg nm). unfold VFS_PATH_MAX, VFS_NAME_MAX. rewrite (proj2 (Z.eqb_neq (5 + zlen nm) 0)), (proj2 (Z.ltb_ge _ (5 + zlen nm))) by lia. cbn [orb List.last removelast].
  rewrite (proj2 (Z.eqb_neq (zlen nm) 0)) by (destruct nm; [done|]; rewrite zlen_cons; pose proof (zlen_nonneg nm); lia). rewrite (proj2 (Z.ltb_ge 255 (zlen nm))) by lia.
  rewrite Sl, Z.eqb_refl, andb_false_r. done.
Qed.

Lemma bin_edits ns s d nd vn s' : bin_at ns s d nd -> edits s vn s' -> exists nd', bin_at ns s' d nd'.
Proof.
  intros [Bp Bn Bd Bf] [Sh _]. destruct (shape_node s s' d nd Sh Bn) as (nd' & E' & K). unfold skeleton in K. injection K as K1 _ _ K2. exists nd'. split; [|done|congruence|].
  - by rewrite (resolve_shape s s').
  - intros nm c Hn. rewrite K2, (child_ext s s') by (intros; by apply name_shape). intros Ec. destruct (Bf nm c Hn Ec) as (nc & Enc & Tc).
    destruct (shape_node s s' c nc Sh Enc) as (nc' & Enc' & K). unfold skeleton in K. injection K as K3 _ _ _. exists nc'. split; [done|congruence].
Qed.

Lemma bin_added ns s d nd c n s' : fs_wf [] s -> bin_at ns s d nd -> added s d nd c n s' -> child s (children nd) (cstr (nname n)) = None ->
  ntype n = VFS_TYPE_REG -> exists nd', bin_at ns s' d nd'.
Proof.
  intros W [Bp Bn Bd Bf] Ad Nw Tn. pose proof Ad as (Fr & _). destruct (kept_added s d nd c n s' W Ad Bn Nw _ d nd Bp Bn ltac:(congruence)) as [Rp _].
  destruct (added_old _ _ _ _ _ _ d nd Ad Bn Bn) as (nd' & E' & Al). rewrite Z.eqb_refl in Al. apply alike_fields in Al as (T' & _ & C' & _). exists nd'.
  split; [done|done|by rewrite T'|]. intros nm x Hn. rewrite C'. cbn [children set_children]. rewrite child_cons, (added_new_name _ _ _ _ _ _ Ad Bn). case_bool_decide.
  - intros [= <-]. destruct (added_new _ _ _ _ _ _ Ad Bn) as (m & Em & (Tm & _)%alike_fields). exists m. split; [done|congruence].
  - rewrite (child_ext s s') by (intros y Hy; eapply added_name; [done|done|by eapply children_exist]). intros Ex. destruct (Bf nm x Hn Ex) as (nc & Enc & Tc).
    destruct (added_old _ _ _ _ _ _ x nc Ad Bn Enc) as (m & Em & (Tm & _)%alike_fields). exists m. split; [done|]. rewrite Tm. by destruct (x =? d).
Qed.

(** The file that an open for writing leaves; other names lead to other nodes. *)
Definition opened ns s s' (d : Z) (nm : list Z) (f : Z) : Prop :=
  exists vn n' nd', (forall nm' x, prog_name nm' -> nm' <> nm -> Vfs.resolve_path s (set_path (bin_path nm')) = (0, x) -> x <> vn) /\
    Vfs.resolve_path s' (set_path (bin_path nm)) = (0, vn) /\ files s' !! f = Some (MkFile vn 0 redirect_flags 1) /\ nodes s' !! vn = Some n' /\
    ntype n' = VFS_TYPE_REG /\ vsize n' = 0 /\ kept s vn s' /\ bin_at ns s' d nd'.

(** Emptying the node of an open file. *)
Lemma open_empties ns s (d : Z) nd vn n f s' : bin_at ns s d nd -> nodes s !! vn = Some n -> ntype n = VFS_TYPE_REG -> open_effect s vn n redirect_flags 0 f s' ->
  exists n' nd', files s' !! f = Some (MkFile vn 0 redirect_flags 1) /\ nodes s' !! vn = Some n' /\ ntype n' = VFS_TYPE_REG /\ vsize n' = 0 /\ bin_at ns s' d nd'.
Proof.
  intros B En Tn O. destruct (bin_edits ns s d nd vn s' B (edits_open _ _ _ _ _ _ _ En O)) as [nd' B']. destruct O as (T & _ & [[? _]|(_ & _ & _ & F)]); [done|].
  assert (truncates redirect_flags n = true) as Tr by (unfold truncates; by rewrite Tn). rewrite Tr in T.
  destruct (tree_at s' vn (set_refcount (wipe n) 0)) as (n' & E' & Al); [rewrite T; apply lookup_insert_eq|]. assert (alike n' (wipe n)) as (T' & _ & _ & _ & V' & _)%alike_fields by done.
  exists n', nd'. split; [rewrite F; apply lookup_insert_eq|]. split; [done|]. split; [by rewrite T'|done].
Qed.

(** Opening a program's file for writing: out of memory, or the file is there and empty. *)
Lemma open_bin ns s d nd nm mode r f s' : fs_wf [] s -> bin_at ns s d nd -> nm ∈ ns -> prog_name nm ->
  open_outcome s (set_path (bin_path nm)) redirect_flags mode r f s' -> r = - ENOMEM \/ r = 0 /\ opened ns s s' d nm f.
Proof.
  intros W B Hin Pn. pose proof (resolve_prog ns s d nd nm B Pn) as Rp. pose proof B as [Bp Bn Bd Bf]. unfold open_outcome. rewrite Rp.
  assert (forall nm' x, prog_name nm' -> Vfs.resolve_path s (set_path (bin_path nm')) = (0, x) -> x ∈ children nd /\ name_of s x = nm') as Rn.
  { intros nm' x Pn' Rx. rewrite (resolve_prog ns s d nd nm' B Pn') in Rx. destruct (child s (children nd) nm') as [y|] eqn:Ey; [|done]. injection Rx as <-. by apply child_Some in Ey. }
  destruct (child s (children nd) nm) as [c|] eqn:Ec.
  - change (0 =? - ENOENT) with false. change (0 <? 0) with false. change (Z.land redirect_flags (Z.lor VFS_O_CREAT VFS_O_EXCL) =? Z.lor VFS_O_CREAT VFS_O_EXCL) with false.
    cbn [andb]. cbv iota. intros (n & En & O). destruct (Bf nm c Hin Ec) as (nc & Enc & Tc). assert (nc = n) as -> by congruence. clear Enc.
    pose proof O as (_ & _ & [[-> _]|(-> & _)]); [by left|right]. split; [done|]. destruct (open_empties ns s d nd c n f s' B En Tc O) as (n' & nd' & F' & E' & T' & V' & B').
    exists c, n', nd'. split; [|split; [|do 4 (split; [done|]); split; [|done]]].
    + intros nm' x Pn' Hne Rx ->. destruct (Rn nm' c Pn' Rx) as [_ <-]. apply child_Some in Ec as [_ Ec]. done.
    + by rewrite (resolve_shape s s') by (by eapply shape_open).
    + apply kept_edits. by eapply edits_open.
  - change ((- ENOENT =? - ENOENT) && negb (Z.land redirect_flags VFS_O_CREAT =? 0)) with true. cbv iota. unfold on_parent. rewrite (split_prog nm Pn).
    destruct (sent_path (path_of [BIN] ++ [0]) [BIN]) as (_ & _ & Sl' & Cm' & _); [set_solver|done|apply Forall_singleton, bin_plain|done|].
    pose proof Bp as Bw. unfold Vfs.resolve_path in Bw. rewrite Sl', Cm', Z.eqb_refl in Bw. cbn [negb] in Bw. rewrite Bw. cbn [Z.eqb negb]. intros (x & Ex & O).
    assert (x = nd) as -> by congruence. rewrite Bd, Z.eqb_refl in O. cbn [negb] in O. unfold create_effect in O. rewrite Ec in O. destruct O as [[-> _]|(c & s1 & Ad & O)]; [by left|].
    set (n := new_node s d VFS_TYPE_REG mode (nm ++ [0])) in *. pose proof (pn_plain _ Pn) as (P1 & P2 & P3 & P4 & P5). pose proof (pn_len _ Pn) as Ln.
    assert (cstr (nname n) = nm) as Nn.
    { destruct (xs_strcpy_name (replicate 256 0) (nm ++ [0])) as (_ & N2 & _); [done|rewrite cstr_app by done; lia|]. cbn [n nname new_node]. by rewrite N2, cstr_app. }
    rewrite <- Nn in Ec. destruct (bin_added ns s d nd c n s1 W B Ad Ec eq_refl) as [nd1 B1]. destruct (added_new _ _ _ _ _ _ Ad Bn) as (m & Em & Al).
    apply (open_effect_alike _ _ _ _ _ _ _ _ Al) in O. assert (ntype m = VFS_TYPE_REG) as Tm by (by apply alike_fields in Al as (-> & _)).
    pose proof O as (_ & _ & [[-> _]|(-> & _)]); [by left|right]. split; [done|]. destruct (open_empties ns s1 d nd1 c m f s' B1 Em Tm O) as (n' & nd' & F' & E' & T' & V' & B').
    exists c, n', nd'. split; [|split; [|do 4 (split; [done|]); split; [|done]]].
    + intros nm' x Pn' Hne Rx ->. destruct (Rn nm' c Pn' Rx) as [Hc _]. destruct (children_exist _ _ _ _ _ W Bn Hc) as [? ?]. destruct Ad as (Fr & _). congruence.
    + rewrite (resolve_shape s1 s') by (by eapply shape_open). rewrite (resolve_prog ns s1 d nd1 nm B1 Pn).
      assert (child s1 (children nd1) nm = Some c) as ->; [|done]. destruct (added_old _ _ _ _ _ _ d nd Ad Bn Bn) as (nd1' & E1' & (_ & _ & C1 & _)%alike_fields).
      assert (nd1' = nd1) as -> by (pose proof (ba_node _ _ _ _ B1); congruence). rewrite Z.eqb_refl in C1. rewrite C1. cbn [children set_children].
      by rewrite child_cons, (added_new_name _ _ _ _ _ _ Ad Bn), bool_decide_eq_true_2.
    + apply (kept_trans s c s1 s'); [by eapply kept_added|]. apply kept_edits. by eapply edits_open.
Qed.

(** Making /bin: out of memory, or it is there. *)
Lemma mkdir_bin ns s mode r s' : fs_wf [] s -> fs_wf [] s' -> (forall d, Vfs.resolve_path s (set_path (path_of [BIN] ++ [0])) = (0, d) -> exists nd, bin_at ns s d nd) ->
  on_parent s (set_path (path_of [BIN] ++ [0])) (mkdir_effect s mode) r s' -> r = - ENOMEM \/ (r = 0 \/ r = - EEXIST) /\ exists d nd, bin_at ns s' d nd.
Proof.
  intros W W' Hb. destruct (sent_path (path_of [BIN] ++ [0]) [BIN]) as (_ & _ & Sl & Cm & _); [set_solver|done|apply Forall_singleton, bin_plain|done|].
  unfold on_parent. assert (split_path (set_path (path_of [BIN] ++ [0])) = inr ([], BIN)) as -> by (vm_compute; reflexivity). cbn [walk Z.eqb negb]. intros (rn & Er & O).
  destruct (wf_root _ _ W) as (rn' & Er' & Tr & _). assert (rn' = rn) as -> by congruence. rewrite Tr, Z.eqb_refl in O. cbn [negb] in O. unfold mkdir_effect in O.
  assert (forall (x : fs A) rnx, vfs_root x = vfs_root s -> nodes x !! vfs_root s = Some rnx -> ntype rnx = VFS_TYPE_DIR ->
    Vfs.resolve_path x (set_path (path_of [BIN] ++ [0])) = match child x (children rnx) BIN with Some c => (0, c) | None => (- ENOENT, 0) end) as Rp.
  { intros x rnx Rx Ex Tx. unfold Vfs.resolve_path. rewrite Sl, Cm, Z.eqb_refl, Rx. cbn [negb walk]. rewrite Ex, Tx. change (VFS_NAME_MAX <? zlen BIN) with false. cbv iota.
    rewrite !bool_decide_eq_false_2 by done. cbn [Z.eqb VFS_TYPE_DIR negb Pos.eqb]. by destruct (child _ _ _). }
  pose proof (Rp s rn eq_refl Er Tr) as R0. destruct (child s (children rn) BIN) as [d|] eqn:Ec.
  - destruct O as [-> Sm]. right. split; [by right|]. destruct (Hb d R0) as [nd B]. destruct (bin_edits ns s d nd 0 s' B) as [nd' B']; [apply edits_tree; apply Sm|]. by exists d, nd'.
  - destruct O as [[-> _]|(-> & c & Ad)]; [by left|right]. split; [by left|]. set (n := new_node s (vfs_root s) VFS_TYPE_DIR mode (BIN ++ [0])) in *.
    assert (cstr (nname n) = BIN) as Nn by (vm_compute; reflexivity). pose proof Ad as (_ & _ & Hr & _).
    destruct (added_old _ _ _ _ _ _ _ rn Ad Er Er) as (rn1 & Er1 & Al1). rewrite Z.eqb_refl in Al1. apply alike_fields in Al1 as (T1 & _ & C1 & _).
    destruct (added_new _ _ _ _ _ _ Ad Er) as (m & Em & (Tm & _ & Cm' & _)%alike_fields). exists c, m.
    pose proof (Rp s' rn1 Hr Er1 ltac:(by rewrite T1)) as R1. rewrite C1 in R1. cbn [children set_children] in R1. rewrite child_cons, (added_new_name _ _ _ _ _ _ Ad Er), bool_decide_eq_true_2 in R1 by done.
    split; [done|done|by rewrite Tm|]. intros nm x _. rewrite Cm'. done.
Qed.
End frame.

Section client.
Context {A C : Type} `{UHeapLaws A} {SC : Sys C}.
Implicit Types (u : libc (vworld A C)) (srv : server A).

Lemma mkdir_range (s : fs A) p mode r s' : on_parent s p (mkdir_effect s mode) r s' -> errno_range r.
Proof. apply on_parent_range. intros par d base K. unfold mkdir_effect in K. destruct (child _ _ _); [by destruct K as [-> _]|]. by destruct K as [[-> _]|[-> _]]. Qed.

Lemma client_mkdir_spec u srv i p mode : attached u srv i -> 0 ∈ p -> 0 <= mode < 2 ^ 32 ->
  exists r u' srv' x, vfs_client_mkdir p mode u = Some (r, u') /\ attached u' srv' i /\ g_clients srv' = g_clients srv /\ tab u' = tab u /\ con u' = con u /\
    on_parent (sfs srv) (set_path p) (mkdir_effect (sfs srv) mode) x (sfs srv') /\
    (r = 0 /\ x = 0 /\ errno u' = errno u \/ r = -1 /\ 0 < errno u' /\ x = - errno u').
Proof.
  intros At Hp Hm. pose proof (at_wf _ _ _ At) as W. destruct (set_path_spec p Hp) as (Lp & Zp & _).
  unfold vfs_client_mkdir. rewrite (attached_init u srv i) by done. set (qr := MkReq VFS_OP_MKDIR 0 mode 0 0 0 (set_path p) zero_data).
  assert (req_ok qr) as Rq by (split; cbn; try done; lia). destruct (vfs_mkdir_spec (sfs srv) (set_path p) mode (sv_fs _ W) Zp) as (x & s & Em & Ws & O).
  pose proof (mkdir_range _ _ _ _ _ O) as Rg. set (srv' := set_fs srv s).
  assert (handle srv i (stamped u qr) = Some (reply_status srv' i x)) as Eh.
  { change (handle srv i (stamped u qr)) with ('(r, s) ← vfs_mkdir (sfs srv) (set_path p) (u32 mode); Some (reply_status (set_fs srv s) i r)). rewrite u32_small, Em by lia. done. }
  unfold reply_status, reply_err, reply_ok in Eh. unfold srv' in Eh. rewrite (reply_to u srv i At) in Eh. unfold rpc_status, ubind, uret. unfold errno_range in Rg.
  destruct (Z.ltb_spec x 0) as [Hx|Hx].
  - rewrite Z.opp_involutive in Eh. destruct (rpc_handle u srv i qr srv' x 0 0 [] At Rq) as (u' & Er & Ee & Et & Ec & Ev & At'); try done; [cbn; apply At|].
    rewrite i64_small, (proj2 (Z.ltb_lt x 0)) in Er, Ee by lia. rewrite i32_small in Ee by lia.
    exists (-1), u', srv', x. rewrite Er. do 6 (split; [done|]). right. split; [done|]. lia.
  - destruct (rpc_handle u srv i qr srv' 0 0 0 [] At Rq) as (u' & Er & Ee & Et & Ec & Ev & At'); try done; [cbn; apply At|].
    change (i64 0 <? 0) with false in Er, Ee. cbv iota in Er, Ee. exists 0, u', srv', x. rewrite Er. do 6 (split; [done|]). left. split; [done|]. split; [lia|done].
Qed.
End client.

(** ** The ram disk and the paths *)

Lemma bytes_at_mem m a l : mem_at m a l -> bytes_at m a (zlen l) = l.
Proof.
  intros M. unfold bytes_at. apply (list_eq_zget 0); [rewrite zlen_slice; pose proof (zlen_nonneg l); lia|]. intros j. rewrite zlen_slice. intros Hj.
  assert (0 <= j < zlen l) as Hj' by (pose proof (zlen_nonneg l); lia). rewrite zget_slice by lia.
  destruct (lookup_lt_is_Some_2 l (Z.to_nat j)) as [c Ec]; [unfold zlen in Hj'; lia|]. pose proof (M _ _ Ec) as L. rewrite (zget_lookup 0 l), Ec by lia. cbn [default].
  unfold load in L. destruct (Z.leb_spec (rom_base m) (a + Z.of_nat (Z.to_nat j))); [|done]. rewrite zget_lookup by lia.
  replace (a - rom_base m + j) with (a + Z.of_nat (Z.to_nat j) - rom_base m) by lia. by rewrite L.
Qed.

(** The archive the kernel mapped. *)
Record disk_at (m : rom) (rd : initrd) (xs : list member) : Prop := {
  da_ready : g_ready rd = true;
  da_mem : mem_at m (g_base rd) (cpio xs);
  da_ok : Forall member_ok xs;
  da_size : zlen (cpio xs) <= g_size rd < 2 ^ 62 }.

(** ** Where the messages go *)

(** The handles of the console server, in a system that has the VFS server too. *)
#[export] Instance vworld_wired {A} `{UHeap A} : Wired (vworld A cworld).
Proof.
  refine {| con_of := w_con; with_con := fun c w => MkWorld (w_out w) (w_req w) (w_box w) (w_next w) (w_tty w) c;
            con_routed := fun w => c_req (w_con w) <> w_req w /\ w_box w !! c_resp (w_con w) = None |}.
  - done.
  - done.
  - by intros [].
  - intros c w [R1 R2] E1 E2. cbn. by rewrite E1, E2.
  - intros w m len [R1 _]. unfold syscall at 1, vworld_sys. change (SYS_IPC_SEND =? SYS_IPC_SEND) with true. cbn [negb]. by rewrite (proj2 (Z.eqb_neq _ _) R1).
  - intros w max [_ R2]. unfold syscall at 1, vworld_sys. change (SYS_IPC_RECV =? SYS_IPC_RECV) with true. cbn [negb]. by rewrite R2.
Defined.

Section heard.
Context {A : Type} `{UHeapLaws A}.
Implicit Types (u : libc (vworld A cworld)) (srv : server A).

(** What [u] prints goes to a running console server, or to the kernel when it has none. *)
Definition heard u : Prop := no_console u \/ exists s, con_attached u s.

(** The calls of the file system leave it so. *)
Lemma heard_beside u u' srv i : attached u srv i -> beside u' = beside u -> heard u -> heard u'.
Proof.
  intros At Eb. pose proof (at_box _ _ _ At) as Bx. injection Eb as Ec Ev Ew Er Ex. intros [Hc|[s [C1 C2 [R1 R2] C4 C5 C6 C7]]]; [left; unfold no_console; by rewrite Ec|right]. exists s.
  cbn in *. split; cbn; rewrite ?Ec, ?Ew; try done. split; [by rewrite Er|]. destruct (decide (c_resp (w_con (world u)) = rpc_resp (vfs u))) as [E|Hne].
  - rewrite E, Bx in R2. discriminate R2.
  - apply (f_equal (fun m : gmap Z (list (list Z)) => m !! c_resp (w_con (world u)))) in Ex. rewrite Ev, !lookup_delete_ne in Ex by congruence. by rewrite Ex.
Qed.

Lemma heard_frames {T} (m : user (vworld A cworld) T) u srv i x u' : frames m -> attached u srv i -> m u = Some (x, u') -> heard u -> heard u'.
Proof. intros F At E. destruct (F u srv i x u' At E) as [_ Eb]. by apply (heard_beside u u' srv i). Qed.

Lemma heard_same u u' : con u' = con u -> world u' = world u -> heard u -> heard u'.
Proof.
  intros Ec Ew [Hc|[s [C1 C2 C3 C4 C5 C6 C7]]]; [left; unfold no_console; by rewrite Ec|right]. exists s. split; rewrite ?Ec, ?Ew; done.
Qed.

(** A message changes nothing but the console. *)
Lemma heard_write u srv i b : heard u -> attached u srv i -> zlen b <= 4096 ->
  exists r u', Unistd.write Unistd.STDOUT_FILENO b (zlen b) u = Some (r, u') /\ heard u' /\ attached u' srv i /\ errno u' = errno u /\ tab u' = tab u.
Proof.
  intros Hh At Hl. pose proof (zlen_nonneg b). destruct Hh as [Hc|[s Ca]].
  - rewrite puts_spec by (done || lia). eexists _, _. split; [done|]. split; [by left|]. split; [by apply attached_say|done].
  - destruct (con_write_spec u s b Unistd.STDOUT_FILENO Ca ltac:(by left) ltac:(lia)) as (c & s' & E & Ca' & _ & _).
    exists (zlen b), (put_con c u). split; [done|]. split; [right; by exists s'|]. split; [destruct At; by split|done].
Qed.
End heard.

Definition disk_name (nm : list Z) : list Z := byte_list "bin/" ++ nm.

Lemma find_spec {W} m (s : istate W) xs path t : disk_at m (i_rd s) xs -> path <> [] -> 0 ∉ path ->
  match first_member path xs 0 with
  | Some (o, x) => exists a, find m (path ++ 0 :: t) s = Some (Some (a, zlen (c_data x)), s) /\ bytes_at m a (zlen (c_data x)) = c_data x /\ zlen (c_data x) < 2 ^ 32
  | None => find m (path ++ 0 :: t) s = Some (None, put_libc (set_errno ENOENT (i_libc s)) s)
  end.
Proof.
  intros [Dr Dm Do Ds] Hne Hz. unfold find. rewrite find_path by done. pose proof (zlen_nonneg (cpio xs)).
  assert (mem_at m (g_base (i_rd s) + 0) (cpio xs)) as M by (by rewrite Z.add_0_r).
  rewrite (find_loop_archive m (g_base (i_rd s)) (g_size (i_rd s)) path t ltac:(lia) Hz _ xs 0 M Do) by (try done; try lia; apply fuel_enough; lia).
  destruct (first_member path xs 0) as [[o x]|] eqn:F; [|done]. destruct (first_member_at _ _ _ _ _ _ _ M F) as (X1 & X2 & X3).
  apply member_parts in X3 as (_ & _ & _ & _ & X3). eexists. split; [reflexivity|]. split; [by apply bytes_at_mem|].
  rewrite Forall_forall in Do. destruct (Do x X1) as (_ & _ & _ & _ & ?). lia.
Qed.

(** [snprintf] of a prefix and a name. *)
Lemma format_path_spec {W} uninit (fmt : string) pre name nm (s : istate W) : zlen (uninit 64) = 64 -> str fmt = print_items ((Lit <$> pre) ++ [Dir [] FNone FNone L_NONE 115]) ->
  forallb (fun c => negb (c =? 0) && negb (c =? 37)) pre = true -> bytes pre -> bytes nm -> cstr name = nm -> zlen pre + zlen nm < 64 ->
  exists rest, format_path uninit fmt name s = Some (pre ++ nm ++ 0 :: rest, s).
Proof.
  intros Lu Ef Fp Bp Bn En Hl. unfold format_path. rewrite Ef.
  assert (text_of (fun _ => name) ((Lit <$> pre) ++ [Dir [] FNone FNone L_NONE 115]) [1] = Some (pre ++ nm)) as Et.
  { clear -En. induction pre as [|c pre IH]; cbn [fmap list_fmap app text_of item_text mbind option_bind]; [|by rewrite IH].
    cbn [field_arg mbind option_bind default]. change ((0 =? - 2 ^ 31) || (int_conv 115 && (max_prec <? 0))) with false. change (arg_fits 115 L_NONE 1) with true. cbv iota.
    change (u64 1 =? 0) with false. unfold value_text. change (115 =? 99) with false. change (115 =? 115) with true. change (u64 1 =? 0) with false. cbv iota. rewrite En.
    unfold padded. pose proof (zlen_nonneg nm). change (Z.abs 0) with 0. replace (Z.to_nat (0 - zlen nm)) with O by lia. cbn [replicate]. cbn [mbind option_bind]. destruct (_ || _); cbn [app]; by rewrite !app_nil_r. }
  assert (Forall item_ok ((Lit <$> pre) ++ [Dir [] FNone FNone L_NONE 115])) as Fi.
  { apply plain_ok. rewrite forallb_app. apply andb_true_intro. split; [|done]. clear -Fp. induction pre as [|c pre IH]; [done|]. cbn in *. apply andb_prop in Fp as [-> F]. by apply IH. }
  destruct (snprintf_fits (fun _ => name) _ [1] (pre ++ nm) (uninit 64) Fi Et) as [rest E]; [by apply Forall_app|rewrite zlen_app; lia|].
  rewrite Lu in E. rewrite E. cbn [mbind option_bind]. exists rest. by rewrite <- app_assoc.
Qed.

(** The two paths of a program. *)
Lemma disk_path_spec {W} uninit nm (s : istate W) : zlen (uninit 64) = 64 -> prog_name nm ->
  exists rest, format_path uninit "bin/%s" (nm ++ [0]) s = Some (disk_name nm ++ 0 :: rest, s).
Proof.
  intros Lu [(_ & P2 & _) Ln Bn]. destruct (format_path_spec uninit "bin/%s" (byte_list "bin/") (nm ++ [0]) nm s Lu) as [rest E]; try done; [repeat constructor; done|by apply cstr_app|change (zlen (byte_list "bin/")) with 4; lia|].
  exists rest. unfold disk_name. by rewrite <- app_assoc.
Qed.
Lemma fs_path_spec {W} uninit nm (s : istate W) : zlen (uninit 64) = 64 -> prog_name nm ->
  exists p, format_path uninit "/bin/%s" (nm ++ [0]) s = Some (p, s) /\ 0 ∈ p /\ cstr p = path_of [BIN; nm].
Proof.
  intros Lu Pn. pose proof Pn as [(_ & P2 & _) Ln Bn]. destruct (format_path_spec uninit "/bin/%s" (byte_list "/bin/") (nm ++ [0]) nm s Lu) as [rest E]; try done; [repeat constructor; done|by apply cstr_app|change (zlen (byte_list "/bin/")) with 5; lia|].
  eexists. split; [exact E|]. split; [apply elem_of_app; right; apply elem_of_app; right; left|]. rewrite app_assoc.
  assert (byte_list "/bin/" ++ nm = path_of [BIN; nm]) as -> by (unfold path_of; cbn [fmap list_fmap concat]; by rewrite app_nil_r).
  apply cstr_app, path_no_nul, (prog_path nm Pn).
Qed.

(** ** One program *)

Section unpack.
Context {A : Type} `{UHeapLaws A} (uninit : Z -> list Z) (Hun : zlen (uninit 64) = 64) (m : rom) (xs : list member) (ns : list (list Z)).
Implicit Types (u : libc (vworld A cworld)) (srv : server A) (s : istate (vworld A cworld)).

Lemma print_say strs fmt ap s srv i : good_format fmt (length ap) = true -> heard (i_libc s) -> attached (i_libc s) srv i -> zlen (i_buf s) <= FD_BUF_SZ ->
  exists u' b, print_with strs fmt ap s = Some ((), put_buf b (put_libc u' s)) /\ zlen b <= FD_BUF_SZ /\
    heard u' /\ attached u' srv i /\ errno u' = errno (i_libc s) /\ tab u' = tab (i_libc s).
Proof.
  intros G Hc At Hb. set (P := fun u => heard u /\ attached u srv i /\ errno u = errno (i_libc s) /\ tab u = tab (i_libc s)).
  assert (forall b u, P u -> b <> [] -> zlen b <= FD_BUF_SZ -> exists r u', Unistd.write Unistd.STDOUT_FILENO b (zlen b) u = Some (r, u') /\ P u') as Sy.
  - intros b u (P1 & P2 & P3 & P4) _ Hl. unfold FD_BUF_SZ in Hl. destruct (heard_write u srv i b P1 P2 ltac:(lia)) as (r & u' & E & Q1 & Q2 & Q3 & Q4).
    exists r, u'. split; [done|]. split; [done|]. split; [done|]. split; congruence.
  - destruct (print_with_spec P Sy strs fmt ap s G ltac:(done) Hb) as (u' & b & E & Pu & B). by exists u', b.
Qed.

(** A process that can open one more file, and whose messages are printed. *)
Record can_open u srv (i : Z) : Prop := {
  co_at : attached u srv i;
  co_con : heard u;
  co_tab : fdtab_ok (tab u);
  co_local : exists k, 3 <= k < VFS_FD_LOCAL_MAX /\ Micro.in_use (zget free_entry (tab u) k) = false;
  co_slot : exists k, 0 <= k < VFS_FD_MAX /\ slot (g_clients srv) i k = 0 }.

Lemma restore_tab (t : list fd_entry) i e : 0 <= i -> zget free_entry t i = free_entry -> zset (zset t i e) i free_entry = t.
Proof.
  intros Hi E. pose proof (zset_zget_id free_entry t i) as Z. unfold zset in *. destruct (Z.ltb_spec i 0); [lia|]. rewrite list_insert_insert_eq. by rewrite E in Z.
Qed.

(** Opening the file of a program. *)
Lemma open_prog u srv i d nd nm p : can_open u srv i -> bin_at ns (sfs srv) d nd -> nm ∈ ns -> prog_name nm -> 0 ∈ p -> cstr p = path_of [BIN; nm] ->
  exists r u' srv', Unistd.open p (Z.lor 0x0102 0x0400) u = Some (r, u') /\ attached u' srv' i /\ heard u' /\
    ((r = -1 /\ errno u' = ENOMEM /\ tab u' = tab u) \/
     (3 <= r < VFS_FD_LOCAL_MAX /\ zget free_entry (tab u) r = free_entry /\ exists fd q f n, tab u' = zset (tab u) r (MkEntry fd true) /\ local_fd u' r fd /\
        holds srv' i fd q f n /\ slot (g_clients srv) i fd = 0 /\ opened ns (sfs srv) (sfs srv') d nm q)).
Proof.
  intros [At Hc Tk Lf Sf] B Hin Pn Zp Ep. destruct (prog_path nm Pn) as [F Ft]. destruct (sent_path p [BIN; nm] Zp Ep F Ft) as (Es & _). fold (bin_path nm) in Es.
  unfold Unistd.open. change (u32 (Z.lor 0x0102 0x0400)) with redirect_flags.
  destruct (client_open_spec u srv i p redirect_flags 0 At Zp ltac:(by vm_compute) ltac:(lia)) as (r & u1 & srv1 & E & At1 & _ & Et & Ec & _ & K).
  pose proof (heard_frames _ u srv i _ _ (frames_open p redirect_flags 0 Zp ltac:(by vm_compute) ltac:(lia)) At E Hc) as Hc1. rewrite Es in K. unfold ubind at 1. rewrite E.
  destruct K as [(-> & Ee & [(x & s' & O)|[_ Full]])|(Hr & Sl & _ & _ & f & n & q & Ho & _ & _ & _ & _ & O)].
  - change (-1 <? 0) with true. cbv iota. exists (-1), u1, srv1. do 3 (split; [done|]). left. split; [done|]. split; [|done].
    destruct (open_bin ns _ d nd nm 0 _ x s' (sv_fs _ (at_wf _ _ _ At)) B Hin Pn O) as [K|[K _]]; lia.
  - destruct Sf as (k & Hk & E0). by destruct (Full k Hk).
  - destruct (open_bin ns _ d nd nm 0 _ q _ (sv_fs _ (at_wf _ _ _ At)) B Hin Pn O) as [K|[_ Op]]; [done|].
    unfold VFS_FD_MAX in Hr. rewrite (proj2 (Z.ltb_ge r 0)), u32_small by lia.
    destruct (fdtab_alloc_spec u1 r ltac:(by rewrite Et)) as [(lf & -> & Hlf & Hb & _)|(_ & Full)]; rewrite Et in *; [|destruct Lf as (k & Hk & E0); rewrite (Full k Hk) in E0; done].
    exists lf, (Micro.set_tab (zset (tab u) lf (MkEntry r true)) u1), srv1. split; [done|]. split; [destruct At1; by split|]. split; [by apply (heard_same u1)|]. right. split; [done|]. split; [done|].
    exists r, q, f, n. split; [done|]. split; [|done]. unfold local_fd, fd_known. cbn [tab Micro.set_tab]. rewrite zget_zset_eq by (rewrite (fo_len _ Tk); lia).
    unfold VFS_FD_LOCAL_MAX in *. rewrite (proj2 (Z.ltb_ge lf 3)), (proj2 (Z.leb_gt 64 lf)) by lia. done.
Qed.

Lemma close_local u srv i lf fd q f n : attached u srv i -> local_fd u lf fd -> holds srv i fd q f n ->
  exists u' srv', Unistd.close lf u = Some (0, u') /\ attached u' srv' i /\ closed (sfs srv) q f (sfs srv') /\ slot (g_clients srv') i fd = 0 /\ errno u' = errno u /\
    tab u' = zset (tab u) lf free_entry /\ (heard u -> heard u').
Proof.
  intros At L Ho. destruct (client_close_spec u srv i fd q f n At Ho) as (u3 & srv3 & E3 & At3 & Cl & Sl & Ee & T3 & _ & _).
  pose proof (heard_frames _ u srv i _ _ (frames_close fd) At E3) as Hh.
  pose proof (ho_fd _ _ _ _ _ _ Ho) as Hd. unfold VFS_FD_MAX in Hd.
  exists (Micro.set_tab (zset (tab u) lf free_entry) u3), srv3. unfold Unistd.close. rewrite (not_console lf u fd L). unfold ubind. rewrite (fdtab_get_known u lf fd L).
  rewrite i32_small, E3 by lia. cbn [Z.eqb negb]. unfold vfs_fdtab_free, ubind, uget. rewrite T3, (proj1 L). cbn [negb]. split; [done|]. split; [destruct At3; by split|]. do 4 (split; [done|]). intros Hu. by apply (heard_same u3), Hh.
Qed.

(** Writing to the open, empty file and closing it. *)
Lemma fill_prog u srv i lf fd q n vn p data : attached u srv i -> heard u -> local_fd u lf fd -> holds srv i fd q (MkFile vn 0 redirect_flags 1) n -> 0 ∈ p ->
  Vfs.resolve_path (sfs srv) p = (0, vn) -> ntype n = VFS_TYPE_REG -> vsize n = 0 -> zlen data < 2 ^ 32 ->
  exists r u1 u' srv', Unistd.write lf data (zlen data) u = Some (r, u1) /\ Unistd.close lf u1 = Some (0, u') /\ attached u' srv' i /\ heard u' /\
    tab u' = zset (tab u) lf free_entry /\ slot (g_clients srv') i fd = 0 /\ edits (sfs srv) vn (sfs srv') /\
    (r = zlen data /\ stored srv' p data \/ r = -1 /\ errno u' = ENOMEM).
Proof.
  intros At Hc L Ho Zp Rp T V Hl. pose proof (ho_fd _ _ _ _ _ _ Ho) as Hd. rewrite (write_local u lf fd) by done.
  destruct (client_write_spec u srv i fd q _ n data At Ho T) as (r & u1 & srv1 & t & n1 & E & (At1 & Ho1 & Et1 & Ec1 & _) & Ed & Ht & T1 & Ct & R); [done|done|cbn; lia|cbn; lia|].
  cbn [f_offset f_vn set_file_offset] in *. destruct (close_local u1 srv1 i lf fd q _ n1 At1 (local_fd_still u u1 lf fd L Et1) Ho1) as (u2 & srv2 & E2 & At2 & (F2 & R2 & Tr) & Sl & Ee & Et2 & Hh2).
  pose proof (heard_frames _ u srv i _ _ (frames_write fd data (zlen data)) At E) as Hh1.
  assert (Vfs.resolve_path (sfs srv1) p = (0, vn)) as Rp1 by (rewrite (resolve_shape (sfs srv)); [done|apply Ed]).
  pose proof (vfs_resolve_spec [] (sfs srv1) p (sv_fs _ (at_wf _ _ _ At1)) ltac:(done) Zp) as Rs. rewrite Rp1 in Rs. destruct Rs as (? & _ & _ & Lk & _).
  cbn [f_vn set_file_offset] in Tr. rewrite Lk in Tr. cbn [orb] in Tr.
  exists r, u1, u2, srv2. split; [done|]. split; [done|]. split; [done|]. split; [by apply Hh2, Hh1|]. split; [by rewrite Et2, Et1|]. split; [done|].
  split; [apply (edits_trans _ _ (sfs srv1)); [done|by apply edits_tree]|].
  destruct R as [(-> & -> & _)|(-> & Ee1 & _)]; [left|right; split; [done|by rewrite Ee]]. split; [done|].
  destruct (tree_node _ _ _ n1 Tr (ho_node _ _ _ _ _ _ Ho1)) as [k En]. exists vn, (set_refcount n1 k). split; [rewrite (resolve_shape (sfs srv1)); [done|by apply shape_tree]|].
  split; [done|]. split; [done|]. change (contents (set_refcount n1 k)) with (contents n1). rewrite Ct, (contents_empty n V). unfold splice. rewrite Z.add_0_l.
  change (Z.to_nat 0) with O. rewrite !take_nil, !drop_nil, take_ge by (unfold zlen; lia). cbn [app]. apply app_nil_r.
Qed.

(** The prints of the loop change nothing but the console. *)
Lemma print_then {T} strs fmt ap (x : T) s srv i : good_format fmt (length ap) = true -> attached (i_libc s) srv i -> heard (i_libc s) -> zlen (i_buf s) <= FD_BUF_SZ ->
  exists s', (print_with strs fmt ap ~> pret x) s = Some (x, s') /\ attached (i_libc s') srv i /\ heard (i_libc s') /\ zlen (i_buf s') <= FD_BUF_SZ /\
    errno (i_libc s') = errno (i_libc s) /\ tab (i_libc s') = tab (i_libc s) /\ i_rd s' = i_rd s.
Proof.
  intros G At Hc Hb. destruct (print_say strs fmt ap s srv i G Hc At Hb) as (u' & b & E & B & Q). eexists. unfold pbind. rewrite E. split; [reflexivity|]. naive_solver.
Qed.

(** One round of the loop: the file is there with the bytes of the member and the other programs as
    before, or the member is missing, or memory ran out. *)
Lemma unpack_one_spec s srv i d nd nm : can_open (i_libc s) srv i -> zlen (i_buf s) <= FD_BUF_SZ -> disk_at m (i_rd s) xs -> bin_at ns (sfs srv) d nd -> nm ∈ ns -> prog_name nm ->
  exists r s' srv', unpack_one uninit m (nm ++ [0]) s = Some (r, s') /\ i_rd s' = i_rd s /\ zlen (i_buf s') <= FD_BUF_SZ /\ attached (i_libc s') srv' i /\ tab (i_libc s') = tab (i_libc s) /\
    match r with
    | Some st => st = 1 /\ (errno (i_libc s') = ENOENT /\ first_member (disk_name nm) xs 0 = None \/ errno (i_libc s') = ENOMEM)
    | None => can_open (i_libc s') srv' i /\ (exists nd', bin_at ns (sfs srv') d nd') /\
        (exists o x, first_member (disk_name nm) xs 0 = Some (o, x) /\ stored srv' (set_path (bin_path nm)) (c_data x)) /\
        forall nm' t, prog_name nm' -> nm' <> nm -> stored srv (set_path (bin_path nm')) t -> stored srv' (set_path (bin_path nm')) t
    end.
Proof using Hun H0.
  intros Co Hb Dk B Hin Pn. pose proof Co as [At Hc Tk Lf Sf]. unfold unpack_one.
  destruct (disk_path_spec uninit nm s Hun Pn) as [rest E1]. unfold pbind at 1. rewrite E1. destruct (fs_path_spec uninit nm s Hun Pn) as (p & E2 & Zp & Ep). unfold pbind at 1. rewrite E2.
  assert (disk_name nm <> [] /\ 0 ∉ disk_name nm) as [Dn Dz].
  { split; [done|]. unfold disk_name. intros K%elem_of_app. destruct K as [K|K]; [|by destruct (pn_plain _ Pn) as (_ & P2 & _)]. revert K. apply (bool_decide_unpack _). vm_compute. exact I. }
  pose proof (find_spec m s xs (disk_name nm) rest Dk Dn Dz) as Fs. unfold pbind at 1. destruct (first_member (disk_name nm) xs 0) as [[o x]|] eqn:Fm.
  2: { rewrite Fs. cbn [pget]. unfold pbind at 1. cbn [i_libc put_libc errno set_errno].
       destruct (print_then (fun _ => disk_name nm ++ 0 :: rest) (line "init: FAIL initrd_find(%s): errno=%d") [1; ENOENT] (Some 1) (put_libc (set_errno ENOENT (i_libc s)) s) srv i) as (s' & E & At' & _ & B' & Ee & Et & Er);
         [by vm_compute|destruct At; by split|by apply (heard_same (i_libc s))|done|]. exists (Some 1), s', srv. split; [exact E|]. split; [done|]. split; [done|]. split; [done|]. split; [done|]. split; [done|]. by left. }
  destruct Fs as (a & Ef & Ea & Hl). rewrite Ef, Ea. destruct (open_prog (i_libc s) srv i d nd nm p Co B Hin Pn Zp Ep) as (lf & u1 & srv1 & Eo & At1 & Hc1 & R).
  unfold pbind at 1. rewrite (call_step _ s _ _ Eo). destruct R as [(-> & Ee & Et)|(Hlf & Fre & fd & q & f & n & Et & L & Ho & Sl & Op)].
  { change (-1 <? 0) with true. cbv iota. unfold pbind at 1, pget. cbn [i_libc put_libc].
    destruct (print_then (fun _ => p) (line "init: FAIL open(%s): errno=%d") [1; errno u1] (Some 1) (put_libc u1 s) srv1 i) as (s' & E & At' & _ & B' & Ee' & Et' & Er); [by vm_compute|done|done|done|].
    exists (Some 1), s', srv1. split; [exact E|]. split; [done|]. split; [done|]. split; [done|]. split; [by rewrite Et'|]. split; [done|]. right. by rewrite Ee'. }
  rewrite (proj2 (Z.ltb_ge lf 0)) by lia. destruct Op as (vn & n' & nd' & Dis & Rp & Fq & En & Tn & Vn & Kp & B').
  pose proof Ho as [Hd1 Hd2 Hd3 Hd4]. assert (f = MkFile vn 0 redirect_flags 1) as -> by congruence. cbn [f_vn] in Hd4. assert (n' = n) as -> by congruence.
  assert (0 ∈ set_path (bin_path nm)) as Zs by (destruct (prog_path nm Pn) as [F Ft]; destruct (sent_path p [BIN; nm] Zp Ep F Ft) as (Es & Zs & _); unfold bin_path; by rewrite <- Es).
  destruct (fill_prog u1 srv1 i lf fd q n vn (set_path (bin_path nm)) (c_data x) At1 Hc1 L Ho Zs Rp Tn Vn Hl) as (r & u2 & u3 & srv3 & Ew & Ecl & At3 & Hc3 & Et3 & Sl3 & Ed & R).
  unfold pbind at 1. rewrite (call_step _ (put_libc u1 s) _ _ Ew). unfold pbind at 1. rewrite (call_step _ (put_libc u2 (put_libc u1 s)) _ _ Ecl).
  assert (tab u3 = tab (i_libc s)) as Et3' by (rewrite Et3, Et; apply restore_tab; [lia|done]). rewrite i64_small by (pose proof (zlen_nonneg (c_data x)); lia).
  set (s3 := put_libc u3 _). pose proof (zlen_nonneg (c_data x)). destruct R as [(-> & St)|(-> & Ee)].
  - rewrite Z.eqb_refl. cbn [negb].
    destruct (print_then (fun _ => nm ++ [0]) (line "init: unpacked /bin/%s (%u bytes)") [1; u32 (zlen (c_data x))] (@None Z) s3 srv3 i) as (s' & E & At' & Hc' & B'' & Ee' & Et' & Er); [by vm_compute|done|done|done|].
    exists None, s', srv3. split; [exact E|]. split; [done|]. split; [done|]. split; [done|]. split; [by rewrite Et'|].
    split; [|split; [by eapply bin_edits|split; [by exists o, x|]]].
    + split; [done|done|by rewrite Et'; cbn; rewrite Et3'|by rewrite Et'; cbn; rewrite Et3'|by exists fd].
    + intros nm' t Pn' Hne (y & ny & Ry & Ey & Ty & Cy). pose proof (Dis nm' y Pn' Hne Ry) as Hy.
      destruct (kept_trans _ _ _ _ Kp (kept_edits _ _ _ Ed) _ y ny Ry Ey Hy) as (R' & ny' & E' & T' & C'). exists y, ny'. split; [done|]. split; [done|]. split; congruence.
  - rewrite (proj2 (Z.eqb_neq (-1) (zlen (c_data x)))) by lia. cbn [negb]. unfold pbind at 1, pget.
    destruct (print_then (fun _ => p) (line "init: FAIL write(%s): %ld/%u errno=%d") [1; u64 (-1); u32 (zlen (c_data x)); errno (i_libc s3)] (Some 1) s3 srv3 i) as (s' & E & At' & _ & B'' & Ee' & Et' & Er); [by vm_compute|done|done|done|].
    exists (Some 1), s', srv3. split; [exact E|]. split; [done|]. split; [done|]. split; [done|]. split; [by rewrite Et'|]. split; [done|]. right. by rewrite Ee'.
Qed.

Lemma unpack_loop_spec i d l : forall s srv nd, can_open (i_libc s) srv i -> zlen (i_buf s) <= FD_BUF_SZ -> disk_at m (i_rd s) xs -> bin_at ns (sfs srv) d nd ->
  NoDup l -> Forall (fun nm => nm ∈ ns /\ prog_name nm) l ->
  exists r s' srv', unpack_loop uninit m ((fun nm => nm ++ [0]) <$> l) s = Some (r, s') /\ attached (i_libc s') srv' i /\ tab (i_libc s') = tab (i_libc s) /\
    (r = 1 /\ (errno (i_libc s') = ENOENT /\ Exists (fun nm => first_member (disk_name nm) xs 0 = None) l \/ errno (i_libc s') = ENOMEM) \/
     r = 0 /\ Forall (fun nm => exists o x, first_member (disk_name nm) xs 0 = Some (o, x) /\ stored srv' (set_path (bin_path nm)) (c_data x)) l /\
     forall nm' t, prog_name nm' -> nm' ∉ l -> stored srv (set_path (bin_path nm')) t -> stored srv' (set_path (bin_path nm')) t).
Proof using Hun H0.
  induction l as [|nm l IH]; intros s srv nd Co Hb Dk B ND F; cbn [fmap list_fmap unpack_loop].
  { exists 0, s, srv. split; [done|]. split; [apply Co|]. split; [done|]. right. split; [done|]. split; [constructor|done]. }
  apply NoDup_cons in ND as [Nn ND]. apply Forall_cons in F as [[Hin Pn] F].
  destruct (unpack_one_spec s srv i d nd nm Co Hb Dk B Hin Pn) as (r & s1 & srv1 & E & Er & B1 & At1 & T1 & R). unfold pbind. rewrite E. destruct r as [st|].
  { destruct R as [-> R]. exists 1, s1, srv1. split; [done|]. split; [done|]. split; [done|]. left. split; [done|]. destruct R as [[Ee Fm]|Ee]; [left; split; [done|by left]|by right]. }
  destruct R as (Co1 & [nd1 Bn1] & (o & x & Fm & St) & Kp). destruct (IH s1 srv1 nd1 Co1 B1 ltac:(by rewrite Er) Bn1 ND F) as (r & s2 & srv2 & E2 & At2 & T2 & R).
  exists r, s2, srv2. split; [done|]. split; [done|]. split; [by rewrite T2|]. destruct R as [(-> & R)|(-> & Fs & K2)].
  - left. split; [done|]. destruct R as [[Ee Ex]|Ee]; [left; split; [done|by right]|by right].
  - right. split; [done|]. split.
    + constructor; [|done]. exists o, x. split; [done|]. by apply K2.
    + intros nm' t Pn' Hn St'. apply not_elem_of_cons in Hn as [Hn Hn']. apply K2; [done|done|]. by apply Kp.
Qed.
End unpack.

Lemma names_ok : NoDup (byte_list <$> names) /\ Forall prog_name (byte_list <$> names).
Proof.
  split; [apply (bool_decide_unpack _); vm_compute; exact I|]. unfold names. cbn [fmap list_fmap].
  repeat (apply Forall_cons; split; [split; [unfold plain; split_and!; apply (bool_decide_unpack _); vm_compute; exact I|vm_compute; discriminate|repeat constructor; done]|]). constructor.
Qed.

Lemma fail_errno_step {A} `{UHeapLaws A} t (s : istate (vworld A cworld)) srv i : good_format (line t) 1 = true -> attached (i_libc s) srv i -> heard (i_libc s) -> zlen (i_buf s) <= FD_BUF_SZ ->
  exists s', fail_errno t s = Some (1, s') /\ attached (i_libc s') srv i /\ errno (i_libc s') = errno (i_libc s) /\ tab (i_libc s') = tab (i_libc s).
Proof.
  intros G At Hc Hb. destruct (print_then (fun _ => [0]) (line t) [errno (i_libc s)] 1 s srv i G At Hc Hb) as (s' & E & At' & _ & _ & Ee & Et & _). by exists s'.
Qed.

(** The first member under bin/ of a name is the first file. *)
Lemma files_found xs nm off : Forall (fun x => byte_list "bin/" `prefix_of` c_name x -> is_regular x = true) xs -> first_file (disk_name nm) xs off = first_member (disk_name nm) xs off.
Proof. intros F. apply first_file_member. eapply Forall_impl; [exact F|]. intros x Hx E. apply Hx. rewrite E. by exists nm. Qed.


(** ** Example *)

Definition demo_programs : list member := (fun nm : string => demo_member (disk_name (byte_list nm)) (byte_list "ELF of " ++ byte_list nm)) <$> names.
Definition demo_disk : initrd := MkInitrd demo_base (zlen (cpio demo_programs)) true 0.
Definition demo_rom : rom := MkRom demo_base (cpio demo_programs).
(** The client of the VFS server, wired to a console server too. *)
Definition demo_both : libc (vworld arena cworld) :=
  let w := world demo_client in
  MkLibc (errno demo_client) (vfs demo_client) (tab demo_client) (MkCon 4 5) (MkWorld (w_out w) (w_req w) (w_box w) (w_next w) (w_tty w) (MkCW (Some demo_server) 4 5 [] 10)).
Definition demo_init : istate (vworld arena cworld) := MkInit demo_both demo_disk [] 0 0 0.

Lemma demo_disk_at : disk_at demo_rom demo_disk demo_programs.
Proof.
  split; [done| | |vm_compute; split; congruence].
  - pose proof (mem_at_rom demo_base [] (cpio demo_programs) []) as M. rewrite app_nil_r in M. change (zlen []) with 0 in M. by rewrite Z.add_0_r in M.
  - repeat (constructor; [split; [done|]; split; [no_nul|]; split; [done|]; by vm_compute|]). constructor.
Qed.

Lemma demo_can_open : exists srv, can_open demo_both srv 0 /\ fst (Vfs.resolve_path (sfs srv) (set_path (path_of [BIN] ++ [0]))) = - ENOENT.
Proof.
  destruct demo_attached as (srv & i & At). pose proof (demo_client_index srv i At) as ->. exists srv.
  assert (match w_out (world demo_client) with Running s => Some (slot (g_clients s) 0 0, fst (Vfs.resolve_path (sfs s) (set_path (path_of [BIN] ++ [0])))) | _ => None end = Some (0, - ENOENT)) as B by (vm_compute; reflexivity).
  rewrite (at_out _ _ _ At) in B. injection B as B1 B2. split; [split; [by destruct At| |apply demo_client_tab| |]|done].
  - right. exists demo_server. split; try done.
  - exists 3. split; [by vm_compute|vm_compute; reflexivity].
  - exists 0. split; [by vm_compute|done].
Qed.

